(* ===== verification/_CoqProject ===== *)
-Q . S2P
Prelude.v
Memory.v
Riscv.v
Asm.v
Start.v
Kalloc.v
Vm.v
VmTree.v
VmMap.v
VmUser.v
VmCopy.v
VmFree.v
VmProps.v
UserMem.v
Spinlock.v
Sleeplock.v
Bio.v
BioInv.v
BioSpec.v
Log.v
LogPure.v
LogSpec.v
LogTxn.v
LogProps.v
Fs.v
FsTxn.v
FsDisk.v
FsAlloc.v
FsGrow.v
FsInode.v
FsTable.v
State.v
SleepWake.v
Process.v
ProcSpace.v
FsFile.v
Mkfs.v
FsPath.v
FsIo.v
FsDir.v
Uart.v
Console.v
Printf.v
Pipe.v
File.v
ProcLife.v
ProcProps.v
ProcFork.v
ProcWait.v
PipeProps.v
Exec.v
Syscall.v
SyscallProps.v
Virtio.v
VirtioSys.v
VirtioProps.v
Trap.v
FsSys.v
FsAbs.v
FsNames.v
FsMount.v
FsProps.v
FsLink.v
FsTrunc.v
MkfsProps.v
User.v
Grep.v
Sh.v
ShProps.v
ShRun.v
Umalloc.v
UmallocProps.v
Uprog.v
Uprintf.v
Utools.v
Urun.v
Ufind.v
Uxargs.v
Upipes.v
Upingpong.v
