(* ===== verification/Prelude.v ===== *)
(** A verification library for xv6 (RISC-V), with the tracing system call this repository adds,
    its user programs and the program that builds its disk image.

    * The program and its parts

    The kernel under src/kernel is a stack of components. The page allocator (kalloc.c) gives
    pages to the virtual memory (vm.c), which builds Sv39 page tables for the kernel and for
    every process and copies between kernel and user memory. The disk driver (virtio_disk.c)
    moves blocks, the buffer cache (bio.c) keeps copies of them, the log (log.c) groups writes
    into transactions that survive a crash, and the file system (fs.c) builds inodes,
    directories and paths on top. Processes (proc.c) are created, put to sleep, woken, killed
    and reaped; files, pipes and the console (file.c, pipe.c, console.c, uart.c) are what their
    descriptors name. Traps (trampoline.S, trap.c) bring a process into the kernel, where
    syscall.c dispatches to the handlers of sysproc.c and sysfile.c. User programs (src/user)
    see the kernel through the system calls only; src/mkfs builds the image the kernel boots
    from.

    * Conventions

    C code becomes functions in the state monad [M St A] of this file. An outcome is a result
    ([Ret]), a kernel panic ([Panic]), a process that has to wait ([Sleep]: the thread is
    suspended with its locks and its state) or a loop that has run out of its bound
    ([Diverge]). A computation also sees its CPU: the locks it holds, the running process, the
    channels it has woken. Components are written over their own state and brought into a larger one
    with lenses ([zoom]). Integers are in [Z] with their wrap-around written out ([u8], [u32],
    [u64], [s16], [s32]); pointers into an array are indices, pointers to pages are addresses,
    NULL is [None] or 0.

    Loops are [loop fuel body]: the fuel is computed from the arguments (a length, a number of
    blocks, a table size) so that the loop has ended before it is used up. This is proved, not
    assumed: the specifications are total ([wp m c s Q] says that [m] returns, and that it returns
    in [Q]), and [Diverge] and [Panic] do not satisfy them. A wait is a result of its own
    only where the theorem says so ([wait], pipes); elsewhere [wp] excludes it.

    Facts about the world outside the sources are arguments of the definitions with named
    hypotheses: the layout the linker chooses ([Layout] in Riscv.v, with its laws), the
    geometry of a disk ([FsGeo] in FsDisk.v), what the control registers of a hart keep of a
    write (Start.v), how many bytes a [read] delivers, how far the kernel lets a heap grow, and
    every choice the scheduler makes. What the disk device does is a relation ([device] in
    VirtioSys.v), which allows all that the VIRTIO specification does. Each
    theorem with hypotheses is followed, at the end of its file, by an instance at a concrete state.

    * Files

    Machine and memory. Memory.v: bytes, words, string.c. Riscv.v: riscv.h, memlayout.h.
    Asm.v: an interpreter for the instructions of entry.S, trampoline.S, kernelvec.S and
    swtch.S, and these files. Start.v: start.c. Kalloc.v: kalloc.c. Vm.v: vm.c; VmTree.v, VmMap.v,
    VmUser.v, VmCopy.v, VmFree.v are the specifications of its parts over a page table as a
    finite tree, VmProps.v and UserMem.v what they give a client.

    Locks and processes. Spinlock.v: spinlock.c step by step on several harts; the other files
    use the lock sets of this file, which it refines. Sleeplock.v: sleeplock.c. State.v: the
    state of the kernel. Process.v, ProcLife.v: proc.c, with ProcSpace.v, ProcProps.v,
    ProcFork.v and ProcWait.v for its properties. SleepWake.v: sleep, wakeup, kill and the
    scheduler as steps of many threads.

    Disk and file system. Virtio.v: the operations of virtio_disk.c. VirtioSys.v: threads in
    virtio_disk_rw and virtio_disk_intr, as program counters with a segment of code between two
    fences or lock releases, the device beside them, and the atomic disk they implement;
    VirtioProps.v: the invariant, the refinement and progress. Bio.v with
    BioInv.v, BioSpec.v: bio.c. Log.v with LogPure.v, LogSpec.v, LogTxn.v, LogProps.v: log.c.
    Fs.v (block allocator, inodes) and FsFile.v (contents, directories, paths): fs.c.
    FsTxn.v, FsDisk.v, FsAlloc.v, FsGrow.v, FsInode.v, FsTable.v, FsPath.v, FsIo.v, FsDir.v:
    their specifications layer by layer. FsSys.v and FsProps.v: writing a file and looking up a
    path. FsAbs.v: the disk as files of bytes. FsNames.v: link counts and the names of files.
    FsLink.v: dirlink and the link system call. FsTrunc.v: freeing the blocks of a file and the
    file itself. FsMount.v: mounting, and an example disk. Mkfs.v, MkfsProps.v: mkfs.c.

    The rest of the kernel. Uart.v, Console.v, Printf.v, Pipe.v, PipeProps.v, File.v, Exec.v, Syscall.v,
    SyscallProps.v, Trap.v: the files of these names, sysproc.c, sysfile.c and plic.c.

    User programs. User.v: ulib.c. Umalloc.v, UmallocProps.v: umalloc.c. Uprog.v: a program as the
    tree of its system calls, and processes that run programs, interleaved at every call.
    Uprintf.v: printf.c. Grep.v: grep.c. Sh.v, ShProps.v, ShRun.v: sh.c. Utools.v: cat, wc,
    echo, rm, mkdir, kill, ln, sleep. Ufind.v: ls.c, find.c. Urun.v, Uxargs.v: xargs.c.
    Upipes.v, Upingpong.v: primes.c, pingpong.c.

    * What the theorems show

    - Durability. [log_crash_safe]: the log refines an atomic store, and after a crash at any disk
      write recovery finds the state after some prefix of the operations. [filewrite_crash_safe],
      [link_correct]: the same at the level of the system calls write and link, in terms of
      files. [bcache_transparent]: the buffer cache is the disk the log assumes.
      [virtio_refines_disk_rw]: for every interleaving of threads, interrupts and a device that
      completes requests in any order and may fail them, the driver is the atomic transfer the
      buffer cache assumes, and no call is stuck while nothing fails. [mkfs_boots]: an image of
      mkfs boots to the files it was given.
    - Resolution. [namei_correct]: paths are resolved as a walk over the directories on disk.
    - Memory. [kalloc_exclusive]: no page has two owners. [copyout_copyin_roundtrip]; in
      VmProps.v what mapping, growing, copying and freeing address spaces do.
    - Concurrency. [spinlock_mutual_exclusion], [spinlock_refines_lockset], [no_lost_wakeup],
      [wakeup_progress]: for every interleaving of harts or threads.
    - Processes. [fork_correct], [wait_correct], [trap_roundtrip], [swtch_resumes],
      [boot_correct], [syscall_traced], [syscall_unknown], [trace_sets_mask].
    - Input and output. [pipewrite_appends], [piperead_takes]; [kprintf_correct],
      [uprintf_correct]: the printed text is the usual notation of numbers, pointers and strings.
    - User programs. [malloc_free_correct], [match_correct], [grep_correct], [parse_show],
      [parsecmd_safe], [shell_runs], [find_correct], [xargs_correct], [primes_correct],
      [pingpong_correct], [ls_correct], [cat_correct]: what the programs print and start, for
      every way the kernel may split reads and schedule processes.
    - Limits. [log_reservation_overrun], [malloc_overflow], [mkfs_root_hole]: for a full log, for
      requests of more than 2^31 - 32 bytes, and for numbers of files that fill the blocks of the
      root directory, the code does not do what it means to.

    * Not modelled

    - Address translation and caching in hardware, and memory ordering other than at the atomic
      operations of locks and the fences of the disk driver: the assembly interpreter and the
      step relations are sequentially consistent.
    - A kernel thread runs a system call to its end or to a sleep: the components are verified
      one call at a time, with the concurrent parts (spin locks, sleep and wakeup, the disk
      queue, the log's group commit, user processes) as step relations or sequences of their own.
    - main.c only calls the initialisation functions of the other files in order; their effects are on
      states that are modelled separately. ramdisk.c is not built (and refers to a field that
      struct buf does not have). defs.h, types.h, stat.h and user.h are declarations.
      kernel.ld, user.ld and the Makefile are build configuration. usys.pl generates the stubs
      whose effect is the system call of Uprog.v.
    - usertests.c, grind.c, forktest.c and stressfs.c are tests: they exercise the kernel and
      compute nothing else. init.c and zombie.c are loops over fork, exec and wait.
    - Contents of formatted messages in the kernel other than through printf.c (procdump), and
      the statistics mkfs prints. *)
From stdpp Require Export base numbers list sets gmap functions strings.
From Stdlib Require Export ZArith Lia.
#[export] Set Default Goal Selector "!".

Declare Scope xv6_scope.
Delimit Scope xv6_scope with xv6.
#[global] Open Scope Z_scope.

(** * Machine integers

    kernel/types.h: a w-bit unsigned value is a [Z] in [0, 2^w); arithmetic that can
    leave the range is wrapped explicitly with these functions. *)

Definition u8 (x : Z) : Z := x mod 256.
Definition u16 (x : Z) : Z := x mod 65536.
Definition u32 (x : Z) : Z := x mod 4294967296.
Definition u64 (x : Z) : Z := x mod 18446744073709551616.
(** Conversion to a signed 32-bit [int] (and 16-bit [short]): two's complement. *)
Definition s32 (x : Z) : Z := (x + 2147483648) mod 4294967296 - 2147483648.
Definition s16 (x : Z) : Z := (x + 32768) mod 65536 - 32768.

Lemma u8_range x : 0 <= u8 x < 256.
Proof. apply Z.mod_pos_bound. lia. Qed.
Lemma u16_range x : 0 <= u16 x < 65536.
Proof. apply Z.mod_pos_bound. lia. Qed.
Lemma u32_range x : 0 <= u32 x < 4294967296.
Proof. apply Z.mod_pos_bound. lia. Qed.
Lemma u64_range x : 0 <= u64 x < 18446744073709551616.
Proof. apply Z.mod_pos_bound. lia. Qed.
Lemma s32_range x : -2147483648 <= s32 x < 2147483648.
Proof. unfold s32. pose proof (Z.mod_pos_bound (x + 2147483648) 4294967296). lia. Qed.

Lemma u8_small x : 0 <= x < 256 -> u8 x = x.
Proof. apply Z.mod_small. Qed.
Lemma u16_small x : 0 <= x < 65536 -> u16 x = x.
Proof. apply Z.mod_small. Qed.
Lemma u32_small x : 0 <= x < 4294967296 -> u32 x = x.
Proof. apply Z.mod_small. Qed.
Lemma u64_small x : 0 <= x < 18446744073709551616 -> u64 x = x.
Proof. apply Z.mod_small. Qed.
Lemma s32_small x : -2147483648 <= x < 2147483648 -> s32 x = x.
Proof. intros. unfold s32. rewrite Z.mod_small; lia. Qed.
Lemma s16_small x : -32768 <= x < 32768 -> s16 x = x.
Proof. intros. unfold s16. rewrite Z.mod_small; lia. Qed.
Lemma u8_u8 x : u8 (u8 x) = u8 x.
Proof. apply u8_small, u8_range. Qed.

(** [lia] extended with the quotient and remainder equations. *)
Ltac dlia := Z.to_euclidean_division_equations; lia.

Create Rewrite HintDb machint.
#[export] Hint Rewrite u8_u8 : machint.
#[export] Hint Rewrite u8_small u16_small u32_small u64_small s32_small s16_small using lia : machint.
Ltac mi := autorewrite with machint in *.

(** Case analysis on the boolean comparisons of the goal, discarding impossible cases. *)
Ltac zcases :=
  rewrite ?Z.geb_leb, ?Z.gtb_ltb;
  repeat match goal with
  | |- context [?a =? ?b] => destruct (Z.eqb_spec a b); try lia
  | |- context [?a <=? ?b] => destruct (Z.leb_spec a b); try lia
  | |- context [?a <? ?b] => destruct (Z.ltb_spec a b); try lia
  end; cbn [negb andb orb].

(** * Lists *)

Lemma find_ext {A} (f g : A -> bool) (l : list A) :
  (forall x, x ∈ l -> f x = g x) -> List.find f l = List.find g l.
Proof.
  induction l as [|x l IH]; intros He; simpl; [done|]. rewrite He by set_solver.
  destruct (g x); [done|]. apply IH. set_solver.
Qed.

(** * Per-CPU context, locks and channels *)

(** Every spin lock of the kernel, by the structure it protects. [LOff] stands for a [push_off]
    of its own, without a lock. *)
Inductive lockid :=
| LKmem | LPid | LWait | LProc (i : nat) | LBcache | LLog | LItable | LFtable
| LPipe (pa : Z) | LCons | LUartTx | LTicks | LVdisk | LPr
| LSleepBuf (i : nat) | LSleepInode (i : nat) | LOff.
#[export] Instance lockid_eq_dec : EqDecision lockid.
Proof. solve_decision. Defined.

(** The addresses processes sleep on; [ChSched] stands for giving up the CPU without sleeping. *)
Inductive chan :=
| ChLog | ChSleepBuf (i : nat) | ChSleepInode (i : nat) | ChPipeR (pa : Z) | ChPipeW (pa : Z)
| ChProc (i : nat) | ChTicks | ChCons | ChUartTx | ChDiskFree | ChBuf (i : nat) | ChSched.
#[export] Instance chan_eq_dec : EqDecision chan.
Proof. solve_decision. Defined.

(** The bytes of a string constant. *)
Definition bytes_of (s : string) : list Z := (fun a => Z.of_nat (Ascii.nat_of_ascii a)) <$> String.list_ascii_of_string s.

(** The newline of a format string. *)
Definition nl : string := String (Ascii.ascii_of_nat 10) EmptyString.

(** A call of the kernel's [printf]: the format and the arguments; a null string is [None]. *)
Inductive parg := PInt (x : Z) | PPtr (x : Z) | PStr (s : option (list Z)).
Record kmsg := mkmsg { m_fmt : string; m_args : list parg }.

(** What the running kernel thread knows of its CPU: the spin locks this CPU holds
    ([holding lk] is membership, [mycpu()->noff] is the length), the pid of the
    process it runs, how many more times a [sleep] of this run returns, the channels
    it has called [wakeup] on since it last slept, latest first, the index of the process in
    the process table, and what this run has printed, latest first. *)
Record cpu := mkcpu {
  held : list lockid; curpid : Z; wakeups : nat; woken : list chan; me : nat; printed : list kmsg }.

Definition set_held (h : list lockid) (c : cpu) : cpu :=
  mkcpu h (curpid c) (wakeups c) (woken c) (me c) (printed c).
Definition set_woken (w : list chan) (c : cpu) : cpu :=
  mkcpu (held c) (curpid c) (wakeups c) w (me c) (printed c).
Definition set_printed (l : list kmsg) (c : cpu) : cpu :=
  mkcpu (held c) (curpid c) (wakeups c) (woken c) (me c) l.
(** The context after a sleep: one wakeup less, and nothing woken since. *)
Definition resumed (w : nat) (c : cpu) : cpu := mkcpu (held c) (curpid c) w [] (me c) (printed c).

(** * The kernel monad

    A kernel function runs on a CPU context and a component state. It returns,
    panics, or goes to sleep on a channel; a sleeping thread carries the rest of
    its computation as a function of the state it finds when woken. [Diverge] is a
    loop that did not end within its fuel (or a thread never woken). *)
Inductive outcome (St A : Type) : Type :=
| Ret (c : cpu) (s : St) (a : A)
| Panic (msg : string)
| Sleep (ch : chan) (c : cpu) (s : St) (k : St -> outcome St A)
| Diverge.
Arguments Ret {St A} c s a.
Arguments Panic {St A} msg.
Arguments Sleep {St A} ch c s k.
Arguments Diverge {St A}.

Definition M (St A : Type) : Type := cpu -> St -> outcome St A.

(** The value a run returned, if it returned. *)
Definition result_of {St A} (o : outcome St A) : option A :=
  match o with Ret _ _ a => Some a | _ => None end.

Section monad.
Context {St : Type}.

Definition ret {A} (a : A) : M St A := fun c s => Ret c s a.

Fixpoint obind {A B} (o : outcome St A) (f : A -> M St B) : outcome St B :=
  match o with
  | Ret c s a => f a c s
  | Panic msg => Panic msg
  | Sleep ch c s k => Sleep ch c s (fun s' => obind (k s') f)
  | Diverge => Diverge
  end.

Definition bind {A B} (m : M St A) (f : A -> M St B) : M St B := fun c s => obind (m c s) f.

Definition panic {A} (msg : string) : M St A := fun _ _ => Panic msg.
Definition diverge {A} : M St A := fun _ _ => Diverge.
Definition gets {A} (f : St -> A) : M St A := fun c s => Ret c s (f s).
Definition modify (f : St -> St) : M St unit := fun c s => Ret c (f s) tt.
Definition getcpu {A} (f : cpu -> A) : M St A := fun c s => Ret c s (f c).

(** The C loops: [body] says whether to go round again ([inl]) or to leave the
    loop ([inr]). *)
Fixpoint loop {A B} (fuel : nat) (body : A -> M St (A + B)) (a : A) : M St B :=
  match fuel with
  | O => diverge
  | S n => bind (body a) (fun r =>
      match r with inl a' => loop n body a' | inr b => ret b end)
  end.

(** kernel/spinlock.c as the sequential view of one CPU: [acquire] panics when this
    CPU already holds the lock, [release] when it does not. *)
Definition acquire (lk : lockid) : M St unit := fun c s =>
  if decide (lk ∈ held c) then Panic "acquire"
  else Ret (set_held (lk :: held c) c) s tt.

Definition remove_lock (lk : lockid) (h : list lockid) : list lockid :=
  filter (fun l => l <> lk) h.

Definition release (lk : lockid) : M St unit := fun c s =>
  if decide (lk ∈ held c) then Ret (set_held (remove_lock lk (held c)) c) s tt
  else Panic "release".

(** [initlock] leaves the lock free. *)
Definition initlock (lk : lockid) : M St unit := fun c s =>
  Ret (set_held (remove_lock lk (held c)) c) s tt.

(** [push_off] and [pop_off] on their own count as a lock that is held: interrupts are on again
    when nothing is held. *)
Definition push_off : M St unit := fun c s => Ret (set_held (LOff :: held c) c) s tt.
Fixpoint drop_off (h : list lockid) : list lockid :=
  match h with [] => [] | LOff :: h => h | l :: h => l :: drop_off h end.
Definition pop_off : M St unit := fun c s =>
  if decide (LOff ∈ held c) then Ret (set_held (drop_off (held c)) c) s tt else Panic "pop_off".

Definition holding (lk : lockid) : M St bool := getcpu (fun c => bool_decide (lk ∈ held c)).
End monad.

Notation "x <- m ;; k" := (bind m (fun x => k))
  (at level 100, m at next level, right associativity, only parsing) : xv6_scope.
Notation "m ;; k" := (bind m (fun _ => k))
  (at level 100, k at level 200, right associativity, only parsing) : xv6_scope.
#[global] Open Scope xv6_scope.

(** [sleep chan lk] (kernel/proc.c): the caller must hold [lk] and, because [sched]
    panics when [noff != 1] after [p->lock] has replaced [lk], no other spin lock. The
    thread resumes holding [lk] again, in whatever state it finds. *)
Definition sleep {St} (ch : chan) (lk : lockid) : M St unit := fun c s =>
  if decide (lk ∈ held c) then
    if decide (held c = [lk]) then
      match wakeups c with
      | O => Sleep ch c s (fun _ => Diverge)
      | S w => Sleep ch c s (fun s' => Ret (resumed w c) s' tt)
      end
    else Panic "sched locks"
  else Panic "release".

(** [wakeup chan] (kernel/proc.c): every process sleeping on the channel becomes runnable.
    The component that calls it sees no change of its own state; the call is recorded. *)
Definition wakeup {St} (ch : chan) : M St unit := fun c s => Ret (set_woken (ch :: woken c) c) s tt.

(** The kernel's [printf]: the message is recorded; Printf.v says what characters it is. *)
Definition printf {St} (fmt : string) (args : list parg) : M St unit := fun c s =>
  Ret (set_printed (mkmsg fmt args :: printed c) c) s tt.

(** A loop that sleeps goes round at most once per wakeup, plus once. *)
Definition sleep_loop {St A B} (body : A -> M St (A + B)) (a : A) : M St B :=
  n <- getcpu wakeups ;; loop (S n) body a.

(** * Component states inside larger states *)

Record lens (T St : Type) := mklens { lget : T -> St; lset : St -> T -> T }.
Arguments mklens {T St} _ _.
Arguments lget {T St} l t.
Arguments lset {T St} l s t.

Class LensLaws {T St} (l : lens T St) : Prop := {
  lget_lset : forall s t, lget l (lset l s t) = s;
  lset_lget : forall t, lset l (lget l t) t = t;
  lset_lset : forall s s' t, lset l s (lset l s' t) = lset l s t;
}.

Fixpoint ozoom {T St A} (l : lens T St) (t : T) (o : outcome St A) : outcome T A :=
  match o with
  | Ret c s a => Ret c (lset l s t) a
  | Panic msg => Panic msg
  | Sleep ch c s k => Sleep ch c (lset l s t) (fun t' => ozoom l t' (k (lget l t')))
  | Diverge => Diverge
  end.

Definition zoom {T St A} (l : lens T St) (m : M St A) : M T A :=
  fun c t => ozoom l t (m c (lget l t)).

(** * Total-correctness assertions

    [wp m c s Q]: run from CPU context [c] and state [s], [m] returns (it neither
    panics, nor sleeps, nor diverges) and [Q] holds of the result. *)

Definition wp {St A} (m : M St A) (c : cpu) (s : St) (Q : cpu -> St -> A -> Prop) : Prop :=
  match m c s with Ret c' s' a => Q c' s' a | _ => False end.

Section wp.
Context {St : Type}.

Lemma wp_unfold {A} (m : M St A) c s Q :
  wp m c s Q <-> exists c' s' a, m c s = Ret c' s' a /\ Q c' s' a.
Proof.
  unfold wp. split.
  - destruct (m c s); try done. eauto 10.
  - by intros (? & ? & ? & -> & ?).
Qed.

Lemma wp_mono {A} (m : M St A) c s (Q Q' : cpu -> St -> A -> Prop) :
  wp m c s Q -> (forall c' s' a, Q c' s' a -> Q' c' s' a) -> wp m c s Q'.
Proof. unfold wp. destruct (m c s); auto. Qed.

Lemma wp_ret {A} (a : A) c s (Q : cpu -> St -> A -> Prop) : Q c s a -> wp (ret a) c s Q.
Proof. done. Qed.

Lemma wp_bind {A B} (m : M St A) (f : A -> M St B) c s Q :
  wp m c s (fun c' s' a => wp (f a) c' s' Q) -> wp (bind m f) c s Q.
Proof. unfold wp, bind. by destruct (m c s). Qed.

Lemma wp_bind_inv {A B} (m : M St A) (f : A -> M St B) c s Q :
  wp (bind m f) c s Q -> wp m c s (fun c' s' a => wp (f a) c' s' Q).
Proof. unfold wp, bind. by destruct (m c s). Qed.

Lemma wp_gets {A} (f : St -> A) c s (Q : cpu -> St -> A -> Prop) :
  Q c s (f s) -> wp (gets f) c s Q.
Proof. done. Qed.

Lemma wp_modify (f : St -> St) c s (Q : cpu -> St -> unit -> Prop) :
  Q c (f s) tt -> wp (modify f) c s Q.
Proof. done. Qed.

Lemma wp_getcpu {A} (f : cpu -> A) c s (Q : cpu -> St -> A -> Prop) :
  Q c s (f c) -> wp (getcpu f) c s Q.
Proof. done. Qed.

Lemma wp_if {A} (b : bool) (m1 m2 : M St A) c s Q :
  (b = true -> wp m1 c s Q) -> (b = false -> wp m2 c s Q) ->
  wp (if b then m1 else m2) c s Q.
Proof. destruct b; auto. Qed.

Lemma wp_acquire lk c s (Q : cpu -> St -> unit -> Prop) :
  lk ∉ held c -> Q (set_held (lk :: held c) c) s tt -> wp (acquire lk) c s Q.
Proof. intros. unfold wp, acquire. by rewrite decide_False. Qed.

Lemma wp_release lk c s (Q : cpu -> St -> unit -> Prop) :
  lk ∈ held c -> Q (set_held (remove_lock lk (held c)) c) s tt -> wp (release lk) c s Q.
Proof. intros. unfold wp, release. by rewrite decide_True. Qed.

Lemma wp_wakeup ch c s (Q : cpu -> St -> unit -> Prop) :
  Q (set_woken (ch :: woken c) c) s tt -> wp (wakeup ch) c s Q.
Proof. done. Qed.

Lemma wp_printf fmt args c s (Q : cpu -> St -> unit -> Prop) :
  Q (set_printed (mkmsg fmt args :: printed c) c) s tt -> wp (printf fmt args) c s Q.
Proof. done. Qed.

Lemma wp_initlock lk c s (Q : cpu -> St -> unit -> Prop) :
  Q (set_held (remove_lock lk (held c)) c) s tt -> wp (initlock lk) c s Q.
Proof. done. Qed.

Lemma remove_lock_notin lk h : lk ∉ h -> remove_lock lk h = h.
Proof.
  intros Hn. unfold remove_lock.
  induction h as [|x h IH]; [done|]. apply not_elem_of_cons in Hn as [??].
  rewrite filter_cons_True by auto. f_equal. auto.
Qed.

Lemma remove_lock_head lk h : lk ∉ h -> remove_lock lk (lk :: h) = h.
Proof.
  intros Hn. rewrite <- (remove_lock_notin lk h Hn) at 2.
  unfold remove_lock. by rewrite filter_cons_False by auto.
Qed.

Lemma loop_S {A B} n (body : A -> M St (A + B)) a :
  loop (S n) body a = bind (body a) (fun r => match r with inl a' => loop n body a' | inr b => ret b end).
Proof. done. Qed.

(** A [loop] whose body keeps an invariant and decreases a measure below the fuel
    terminates. *)
(** A loop whose state decreases a measure of its variables and of the component state. *)
Lemma wp_loop_st {A B} (I : A -> cpu -> St -> Prop) (mu : A -> St -> nat)
    (body : A -> M St (A + B)) fuel a c s (Q : cpu -> St -> B -> Prop) :
  (forall a c s, I a c s ->
     wp (body a) c s (fun c' s' r =>
       match r with
       | inl a' => I a' c' s' /\ (mu a' s' < mu a s)%nat
       | inr b => Q c' s' b
       end)) ->
  (mu a s < fuel)%nat -> I a c s -> wp (loop fuel body a) c s Q.
Proof.
  intros Hbody. revert a c s. induction fuel as [|n IH]; intros a c s Hf HI; [lia|].
  rewrite loop_S. apply wp_bind. eapply wp_mono; [by apply Hbody|].
  intros c' s' [a'|b] H; cbn in H; [|by apply wp_ret].
  destruct H as [HI' Hmu]. apply IH; [lia|done].
Qed.

Lemma wp_loop {A B} (I : A -> cpu -> St -> Prop) (mu : A -> nat)
    (body : A -> M St (A + B)) fuel a c s (Q : cpu -> St -> B -> Prop) :
  (forall a c s, I a c s ->
     wp (body a) c s (fun c' s' r =>
       match r with
       | inl a' => I a' c' s' /\ (mu a' < mu a)%nat
       | inr b => Q c' s' b
       end)) ->
  (mu a < fuel)%nat -> I a c s -> wp (loop fuel body a) c s Q.
Proof.
  apply (wp_loop_st I (fun a _ => mu a)).
Qed.

Lemma wp_zoom {T A} (l : lens T St) (m : M St A) c t (Q : cpu -> T -> A -> Prop) :
  wp m c (lget l t) (fun c' s' a => Q c' (lset l s' t) a) -> wp (zoom l m) c t Q.
Proof. unfold wp, zoom. by destruct (m c (lget l t)). Qed.
End wp.

(** Entering and leaving a critical section restores the context exactly. *)
Lemma set_held_back lk c :
  lk ∉ held c -> set_held (remove_lock lk (lk :: held c)) (set_held (lk :: held c) c) = c.
Proof. intros. rewrite remove_lock_head by done. by destruct c. Qed.

Lemma set_held_id lk c : lk ∉ held c -> set_held (remove_lock lk (held c)) c = c.
Proof. intros. rewrite remove_lock_notin by done. by destruct c. Qed.

Lemma wp_locked {St A} lk (m : M St A) c s (Q : cpu -> St -> A -> Prop) :
  lk ∉ held c ->
  wp m (set_held (lk :: held c) c) s (fun c' s' a =>
    c' = set_held (lk :: held c) c /\ Q c s' a) ->
  wp (acquire lk ;; a <- m ;; release lk ;; ret a) c s Q.
Proof.
  intros Hn Hm. apply wp_bind, wp_acquire; [done|]. apply wp_bind.
  eapply wp_mono; [exact Hm|]. intros c' s' a [-> HQ]. apply wp_bind, wp_release.
  - simpl. set_solver.
  - simpl. rewrite remove_lock_head by done. apply wp_ret. by destruct c.
Qed.

(** Taking and releasing a lock on top of a known list of them. *)
Lemma wp_acquire_on {St} lk h c (s : St) (Q : cpu -> St -> unit -> Prop) : lk ∉ h -> Q (set_held (lk :: h) c) s tt -> wp (acquire lk) (set_held h c) s Q.
Proof. intros Hn HQ. by apply wp_acquire. Qed.
Lemma wp_release_on {St} lk h c (s : St) (Q : cpu -> St -> unit -> Prop) : lk ∉ h -> Q (set_held h c) s tt -> wp (release lk) (set_held (lk :: h) c) s Q.
Proof. intros Hn HQ. apply wp_release; [set_solver|]. cbn [held set_held]. by rewrite remove_lock_head. Qed.

(** From an assertion to an equation about the run. *)
Lemma wp_elim {St A} (m : M St A) c s (Q : cpu -> St -> A -> Prop) :
  wp m c s Q -> exists c' s' a, m c s = Ret c' s' a /\ Q c' s' a.
Proof. apply wp_unfold. Qed.
Lemma wp_inv {St A} (m : M St A) c s (Q : cpu -> St -> A -> Prop) c' s' a : wp m c s Q -> m c s = Ret c' s' a -> Q c' s' a.
Proof. intros (c1 & s1 & a1 & Hm & HQ)%wp_elim E. rewrite Hm in E. by injection E as -> -> ->. Qed.
Lemma wp_run {St A} (m : M St A) c s (P : St -> A -> Prop) :
  wp m c s (fun c' s' a => c' = c /\ P s' a) -> exists s' a, m c s = Ret c s' a /\ P s' a.
Proof. intros (c' & s' & a & Hm & -> & HP)%wp_unfold. eauto. Qed.

(** Symbolic execution of the straight-line parts of a kernel function. *)
Ltac wp_step :=
  lazymatch goal with
  | |- wp (bind _ _) _ _ _ => apply wp_bind
  | |- wp (ret _) _ _ _ => apply wp_ret
  | |- wp (gets _) _ _ _ => apply wp_gets; cbn beta
  | |- wp (modify _) _ _ _ => apply wp_modify; cbn beta
  | |- wp (getcpu _) _ _ _ => apply wp_getcpu; cbn beta
  | |- wp (acquire _) _ _ _ => apply wp_acquire; [set_solver|]
  | |- wp (release _) _ _ _ => apply wp_release; [simpl; set_solver|]; simpl held
  | |- wp (initlock _) _ _ _ => apply wp_initlock
  | |- wp (wakeup _) _ _ _ => apply wp_wakeup
  | |- wp (printf _ _) _ _ _ => apply wp_printf
  end.
Ltac wp_steps := repeat wp_step.
