(* ===== verification/Memory.v ===== *)
(** Physical memory as bytes, little-endian words, and kernel/string.c.

    [mem] maps an address to a byte; [load8]/[store8] are the only primitive accesses
    and wider accesses are composed from them in little-endian order, as the RISC-V
    machine does. The functions of kernel/string.c are the C loops over these accesses;
    the lemmas below give their effect address by address. *)
From S2P Require Import Prelude.

Definition mem : Type := Z -> Z.

Definition load8 (m : mem) (a : Z) : Z := u8 (m a).
Definition store8 (m : mem) (a v : Z) : mem := fun b => if b =? a then u8 v else m b.

Fixpoint load_le (m : mem) (a : Z) (n : nat) : Z :=
  match n with
  | O => 0
  | S k => load8 m a + 256 * load_le m (a + 1) k
  end.

Fixpoint store_le (m : mem) (a : Z) (n : nat) (v : Z) : mem :=
  match n with
  | O => m
  | S k => store_le (store8 m a v) (a + 1) k (v / 256)
  end.

Definition load32 (m : mem) (a : Z) : Z := load_le m a 4.
Definition load64 (m : mem) (a : Z) : Z := load_le m a 8.
Definition store32 (m : mem) (a v : Z) : mem := store_le m a 4 v.
Definition store64 (m : mem) (a v : Z) : mem := store_le m a 8 v.

(** Kernel buffers that are not part of the modelled memory are byte lists. *)
Fixpoint load_bytes (m : mem) (a : Z) (n : nat) : list Z :=
  match n with O => [] | S k => load8 m a :: load_bytes m (a + 1) k end.

Fixpoint store_bytes (m : mem) (a : Z) (l : list Z) : mem :=
  match l with [] => m | v :: l' => store_bytes (store8 m a v) (a + 1) l' end.

(** * kernel/string.c *)

Fixpoint memset_loop (m : mem) (dst c i : Z) (k : nat) : mem :=
  match k with
  | O => m
  | S k' => memset_loop (store8 m (dst + i) c) dst c (i + 1) k'
  end.
Definition memset (m : mem) (dst c n : Z) : mem := memset_loop m dst c 0 (Z.to_nat n).

Fixpoint memcmp_loop (m : mem) (s1 s2 : Z) (n : nat) : Z :=
  match n with
  | O => 0
  | S k => if negb (load8 m s1 =? load8 m s2) then load8 m s1 - load8 m s2
           else memcmp_loop m (s1 + 1) (s2 + 1) k
  end.
Definition memcmp (m : mem) (v1 v2 n : Z) : Z := memcmp_loop m v1 v2 (Z.to_nat n).

(** The overlapping case copies from the end: decrement both pointers, then copy. *)
Fixpoint memmove_down (m : mem) (d s : Z) (n : nat) : mem :=
  match n with
  | O => m
  | S k => memmove_down (store8 m (d - 1) (load8 m (s - 1))) (d - 1) (s - 1) k
  end.
(** The forward loop: copy, then increment both pointers. *)
Fixpoint memmove_up (m : mem) (d s : Z) (n : nat) : mem :=
  match n with
  | O => m
  | S k => memmove_up (store8 m d (load8 m s)) (d + 1) (s + 1) k
  end.
Definition memmove (m : mem) (dst src n : Z) : mem :=
  if n =? 0 then m
  else if (src <? dst) && (src + n >? dst)
  then memmove_down m (dst + n) (src + n) (Z.to_nat n)
  else memmove_up m dst src (Z.to_nat n).

Definition memcpy (m : mem) (dst src n : Z) : mem := memmove m dst src n.

Fixpoint strncmp_loop (m : mem) (p q : Z) (n : nat) : Z :=
  match n with
  | O => 0
  | S k => if negb (load8 m p =? 0) && (load8 m p =? load8 m q)
           then strncmp_loop m (p + 1) (q + 1) k
           else load8 m p - load8 m q
  end.
Definition strncmp (m : mem) (p q n : Z) : Z := strncmp_loop m p q (Z.to_nat n).

(** The second loop of [strncpy]: store NUL while [n-- > 0]. *)
Fixpoint strncpy_pad (m : mem) (s : Z) (n : nat) : mem :=
  match n with O => m | S k => strncpy_pad (store8 m s 0) (s + 1) k end.
(** The first loop: copy bytes up to and including a NUL while [n-- > 0], then the padding. *)
Fixpoint strncpy_loop (m : mem) (s t : Z) (n : nat) : mem :=
  match n with
  | O => m
  | S k => let ch := load8 m t in
           let m' := store8 m s ch in
           if negb (ch =? 0) then strncpy_loop m' (s + 1) (t + 1) k
           else strncpy_pad m' (s + 1) k
  end.
Definition strncpy (m : mem) (s t n : Z) : mem := strncpy_loop m s t (Z.to_nat n).

(** Copy up to and including a NUL while [--n > 0], then store a final NUL. *)
Fixpoint safestrcpy_loop (m : mem) (s t : Z) (n : nat) : mem :=
  match n with
  | O => store8 m s 0
  | S k => let ch := load8 m t in
           let m' := store8 m s ch in
           if negb (ch =? 0) then safestrcpy_loop m' (s + 1) (t + 1) k
           else store8 m' (s + 1) 0
  end.
Definition safestrcpy (m : mem) (s t n : Z) : mem :=
  if n <=? 0 then m else safestrcpy_loop m s t (Z.to_nat (n - 1)).

(** [for(n = 0; s[n]; n++) ;] with a bound on how far it looks. *)
Fixpoint strlen_loop (m : mem) (s n : Z) (fuel : nat) : option Z :=
  match fuel with
  | O => None
  | S k => if load8 m (s + n) =? 0 then Some n else strlen_loop m s (n + 1) k
  end.
Definition strlen (m : mem) (s : Z) (fuel : nat) : option Z := strlen_loop m s 0 fuel.

(** * Lemmas: accesses *)

Lemma load8_range m a : 0 <= load8 m a < 256.
Proof. apply u8_range. Qed.

Lemma load8_store8 m a v b : load8 (store8 m a v) b = if decide (a = b) then u8 v else load8 m b.
Proof.
  unfold load8, store8. case_decide; subst.
  - by rewrite Z.eqb_refl, u8_u8.
  - by rewrite (proj2 (Z.eqb_neq _ _)).
Qed.

Lemma load8_store8_eq m a v : load8 (store8 m a v) a = u8 v.
Proof. rewrite load8_store8. by rewrite decide_True. Qed.

Lemma load8_store8_ne m a b v : a <> b -> load8 (store8 m a v) b = load8 m b.
Proof. intros. rewrite load8_store8. by rewrite decide_False. Qed.

(** Two memories that hold the same bytes on [a, a + n). *)
Definition same_on (m m' : mem) (a n : Z) : Prop :=
  forall b, a <= b < a + n -> load8 m b = load8 m' b.

Lemma load_le_ext m m' a n : same_on m m' a (Z.of_nat n) -> load_le m a n = load_le m' a n.
Proof.
  revert a. induction n as [|n IH]; intros a H; simpl; [done|].
  rewrite (H a) by lia. rewrite (IH (a + 1)); [done|]. intros b ?. apply H. lia.
Qed.

Lemma load64_ext m m' a : same_on m m' a 8 -> load64 m a = load64 m' a.
Proof. exact (load_le_ext m m' a 8). Qed.

(** The same bytes at two addresses. *)
Lemma load_le_shift m m' a a' n : (forall j, 0 <= j < Z.of_nat n -> load8 m (a + j) = load8 m' (a' + j)) -> load_le m a n = load_le m' a' n.
Proof.
  revert a a'. induction n as [|n IH]; intros a a' Hj; cbn [load_le]; [done|]. f_equal.
  - specialize (Hj 0). rewrite !Z.add_0_r in Hj. apply Hj. lia.
  - f_equal. apply IH. intros j Hr. rewrite <- !Z.add_assoc. apply (Hj (1 + j)). lia.
Qed.
Lemma load64_shift m m' a a' : (forall j, 0 <= j < 8 -> load8 m (a + j) = load8 m' (a' + j)) -> load64 m a = load64 m' a'.
Proof. exact (load_le_shift m m' a a' 8). Qed.

Lemma load_le_range m a n : 0 <= load_le m a n < 256 ^ Z.of_nat n.
Proof.
  revert a. induction n as [|n IH]; intros a; simpl; [lia|].
  pose proof (load8_range m a). specialize (IH (a + 1)).
  rewrite Nat2Z.inj_succ, Z.pow_succ_r by lia. lia.
Qed.

Lemma load64_range m a : 0 <= load64 m a < 18446744073709551616.
Proof. exact (load_le_range m a 8). Qed.

Lemma load8_store_le m a n v b :
  ~ (a <= b < a + Z.of_nat n) -> load8 (store_le m a n v) b = load8 m b.
Proof.
  revert m a v. induction n as [|n IH]; intros m a v H; simpl; [done|].
  rewrite IH by lia. apply load8_store8_ne. lia.
Qed.

Lemma load_le_store_le m a n v : load_le (store_le m a n v) a n = v mod 256 ^ Z.of_nat n.
Proof.
  revert m a v. induction n as [|n IH]; intros m a v; simpl.
  - by rewrite Z.mod_1_r.
  - rewrite load8_store_le by lia. rewrite load8_store8_eq. rewrite IH.
    rewrite Nat2Z.inj_succ, Z.pow_succ_r by lia. unfold u8.
    rewrite Z.rem_mul_r by lia. lia.
Qed.

Lemma load_le_store_le_ne m a b n k v :
  a + Z.of_nat n <= b \/ b + Z.of_nat k <= a -> load_le (store_le m a n v) b k = load_le m b k.
Proof. intros H. apply load_le_ext. intros x ?. apply load8_store_le. lia. Qed.

Lemma load64_store64 m a v : 0 <= v < 18446744073709551616 -> load64 (store64 m a v) a = v.
Proof.
  intros. unfold load64, store64. rewrite load_le_store_le. by rewrite Z.mod_small.
Qed.

Lemma load64_store64_ne m a b v : a + 8 <= b \/ b + 8 <= a -> load64 (store64 m a v) b = load64 m b.
Proof. intros. by apply load_le_store_le_ne. Qed.

Lemma load8_store64 m a b v : ~ (a <= b < a + 8) -> load8 (store64 m a v) b = load8 m b.
Proof. intros. by apply load8_store_le. Qed.

Lemma length_load_bytes m a n : length (load_bytes m a n) = n.
Proof. revert a. induction n; intros; simpl; auto. Qed.

Lemma lookup_load_bytes m a n i :
  (i < n)%nat -> load_bytes m a n !! i = Some (load8 m (a + Z.of_nat i)).
Proof.
  revert a i. induction n as [|n IH]; intros a i Hi; [lia|]. destruct i as [|i]; simpl.
  - do 2 f_equal. lia.
  - rewrite IH by lia. do 2 f_equal. lia.
Qed.

Lemma load_bytes_ext m m' a n :
  same_on m m' a (Z.of_nat n) -> load_bytes m a n = load_bytes m' a n.
Proof.
  revert a. induction n as [|n IH]; intros a H; simpl; [done|].
  rewrite (H a) by lia. f_equal. apply IH. intros b ?. apply H. lia.
Qed.

Lemma load_bytes_app m a n k :
  load_bytes m a (n + k) = load_bytes m a n ++ load_bytes m (a + Z.of_nat n) k.
Proof.
  revert a. induction n as [|n IH]; intros a; simpl.
  - f_equal. lia.
  - rewrite IH. do 3 f_equal. lia.
Qed.

Lemma load8_store_bytes m a l b :
  load8 (store_bytes m a l) b =
  if decide (a <= b < a + Z.of_nat (length l)) then u8 (l !!! Z.to_nat (b - a)) else load8 m b.
Proof.
  revert m a. induction l as [|v l IH]; intros m a; simpl.
  - rewrite decide_False by lia. done.
  - rewrite IH. repeat case_decide; try lia.
    + replace (Z.to_nat (b - a)) with (S (Z.to_nat (b - (a + 1)))) by lia. done.
    + replace b with a by lia. rewrite load8_store8_eq, Z.sub_diag. done.
    + apply load8_store8_ne. lia.
Qed.

Lemma load8_store_bytes_out m a l b :
  ~ (a <= b < a + Z.of_nat (length l)) -> load8 (store_bytes m a l) b = load8 m b.
Proof. intros. rewrite load8_store_bytes. by rewrite decide_False. Qed.

Lemma load_store_bytes m a l :
  Forall (fun x => 0 <= x < 256) l -> load_bytes (store_bytes m a l) a (length l) = l.
Proof.
  intros Hl. apply list_eq. intros i. destruct (decide (i < length l)%nat) as [Hi|Hi].
  - rewrite lookup_load_bytes by done. rewrite load8_store_bytes, decide_True by lia.
    replace (Z.to_nat (a + Z.of_nat i - a)) with i by lia.
    destruct (lookup_lt_is_Some_2 l i) as [x Hx]; [done|].
    rewrite (list_lookup_total_correct _ _ _ Hx), Hx. f_equal. apply u8_small.
    by eapply Forall_lookup_1 in Hl.
  - rewrite !lookup_ge_None_2; rewrite ?length_load_bytes; auto with lia.
Qed.

(** * Lemmas: string.c, one effect lemma per routine *)

Lemma memset_loop_spec m dst c i k b :
  load8 (memset_loop m dst c i k) b =
  if decide (dst + i <= b < dst + i + Z.of_nat k) then u8 c else load8 m b.
Proof.
  revert m i. induction k as [|k IH]; intros m i; simpl.
  - by rewrite decide_False by lia.
  - rewrite IH, load8_store8. repeat case_decide; done || lia.
Qed.

Lemma load8_memset m dst c n b :
  0 <= n ->
  load8 (memset m dst c n) b = if decide (dst <= b < dst + n) then u8 c else load8 m b.
Proof.
  intros. unfold memset. rewrite memset_loop_spec. repeat case_decide; done || lia.
Qed.

Lemma load64_memset_zero m dst n a :
  0 <= n -> dst <= a -> a + 8 <= dst + n -> load64 (memset m dst 0 n) a = 0.
Proof.
  intros. unfold load64, load_le. rewrite !load8_memset by lia.
  rewrite !decide_True by lia. done.
Qed.

Lemma load64_memset_ne m dst c n a :
  0 <= n -> a + 8 <= dst \/ dst + n <= a -> load64 (memset m dst c n) a = load64 m a.
Proof.
  intros. apply load64_ext. intros b ?. rewrite load8_memset by done.
  by rewrite decide_False by lia.
Qed.

Lemma memmove_up_spec m d s n b :
  d <= s \/ s + Z.of_nat n <= d ->
  load8 (memmove_up m d s n) b =
  if decide (d <= b < d + Z.of_nat n) then load8 m (s + (b - d)) else load8 m b.
Proof.
  revert m d s. induction n as [|n IH]; intros m d s H; simpl.
  - by rewrite decide_False by lia.
  - rewrite IH by lia. repeat case_decide; try lia.
    + rewrite load8_store8_ne by lia. f_equal. lia.
    + replace b with d by lia. rewrite load8_store8_eq.
      rewrite u8_small by apply load8_range. f_equal. lia.
    + apply load8_store8_ne. lia.
Qed.

Lemma memmove_down_spec m d s n b :
  s <= d ->
  load8 (memmove_down m d s n) b =
  if decide (d - Z.of_nat n <= b < d) then load8 m (s + (b - d)) else load8 m b.
Proof.
  revert m d s. induction n as [|n IH]; intros m d s H; simpl.
  - by rewrite decide_False by lia.
  - rewrite IH by lia. repeat case_decide; try lia.
    + rewrite load8_store8_ne by lia. f_equal. lia.
    + replace b with (d - 1) by lia. rewrite load8_store8_eq.
      rewrite u8_small by apply load8_range. f_equal. lia.
    + apply load8_store8_ne. lia.
Qed.

Lemma load8_memmove m dst src n b :
  0 <= n ->
  load8 (memmove m dst src n) b =
  if decide (dst <= b < dst + n) then load8 m (src + (b - dst)) else load8 m b.
Proof.
  intros. unfold memmove. destruct (Z.eqb_spec n 0) as [->|Hn].
  - by rewrite decide_False by lia.
  - destruct (Z.ltb_spec src dst); simpl; [destruct (Z.gtb_spec (src + n) dst); simpl|].
    + rewrite memmove_down_spec by lia. repeat case_decide; try lia; f_equal; lia.
    + rewrite memmove_up_spec by lia. repeat case_decide; done || lia.
    + rewrite memmove_up_spec by lia. repeat case_decide; done || lia.
Qed.

(** The bytes of the string at [p], up to its NUL or [n] bytes. *)
Fixpoint bstr (m : mem) (p : Z) (n : nat) : list Z :=
  match n with
  | O => []
  | S k => if load8 m p =? 0 then [] else load8 m p :: bstr m (p + 1) k
  end.

Lemma length_bstr m p n : (length (bstr m p n) <= n)%nat.
Proof.
  revert p. induction n as [|n IH]; intros p; simpl; [lia|].
  case_match; simpl; [lia|]. specialize (IH (p + 1)). lia.
Qed.

Lemma bstr_ext m m' p n : same_on m m' p (Z.of_nat n) -> bstr m p n = bstr m' p n.
Proof.
  revert p. induction n as [|n IH]; intros p H; simpl; [done|].
  rewrite (H p) by lia. rewrite (IH (p + 1)); [done|]. intros b ?. apply H. lia.
Qed.

Lemma strncmp_loop_spec m p q n :
  strncmp_loop m p q n = 0 <-> bstr m p n = bstr m q n.
Proof.
  revert p q. induction n as [|n IH]; intros p q; simpl; [done|].
  destruct (Z.eqb_spec (load8 m p) 0) as [Hp|Hp]; simpl.
  - destruct (Z.eqb_spec (load8 m q) 0); split; try done; lia.
  - destruct (Z.eqb_spec (load8 m p) (load8 m q)) as [He|He].
    + rewrite IH, <- He, (proj2 (Z.eqb_neq _ _) Hp). split; [by intros ->|by intros [= ->]].
    + split; [lia|]. destruct (load8 m q =? 0); [done|]. by intros [= ?].
Qed.

Lemma strncpy_pad_spec m s n b :
  load8 (strncpy_pad m s n) b = if decide (s <= b < s + Z.of_nat n) then 0 else load8 m b.
Proof.
  revert m s. induction n as [|n IH]; intros m s; simpl.
  - by rewrite decide_False by lia.
  - rewrite IH, load8_store8. repeat case_decide; done || lia.
Qed.

(** [strncpy] writes the string, fills the rest of the [n] bytes with NUL and touches
    nothing else, provided source and destination do not overlap. *)
Lemma strncpy_loop_spec m s t n b :
  s + Z.of_nat n <= t \/ t + Z.of_nat n <= s ->
  load8 (strncpy_loop m s t n) b =
  if decide (s <= b < s + Z.of_nat n)
  then nth (Z.to_nat (b - s)) (bstr m t n) 0 else load8 m b.
Proof.
  revert m s t. induction n as [|n IH]; intros m s t H; simpl.
  - by rewrite decide_False by lia.
  - assert (Hs : forall v, same_on (store8 m s v) m (t + 1) (Z.of_nat n)).
    { intros v x ?. apply load8_store8_ne. lia. }
    destruct (Z.eqb_spec (load8 m t) 0) as [Ht|Ht]; simpl.
    + rewrite strncpy_pad_spec, load8_store8, Ht.
      repeat case_decide; try lia; try done; by destruct (Z.to_nat (b - s)).
    + rewrite IH by lia. rewrite (bstr_ext _ _ _ _ (Hs _)), load8_store8.
      repeat case_decide; try lia.
      * replace (Z.to_nat (b - s)) with (S (Z.to_nat (b - (s + 1)))) by lia. done.
      * subst. rewrite Z.sub_diag. simpl. apply u8_small, load8_range.
Qed.

(** [safestrcpy] writes the first [n - 1] bytes of the string and a terminating NUL,
    inside the [n] bytes of the destination. *)
Lemma safestrcpy_loop_spec m s t n :
  s + Z.of_nat n + 1 <= t \/ t + Z.of_nat n + 1 <= s ->
  let m' := safestrcpy_loop m s t n in
  let l := bstr m t n in
  load_bytes m' s (length l) = l /\ load8 m' (s + Z.of_nat (length l)) = 0 /\
  forall b, ~ (s <= b < s + Z.of_nat n + 1) -> load8 m' b = load8 m b.
Proof.
  revert m s t. induction n as [|n IH]; intros m s t H; simpl.
  - split_and!; [done| |].
    + rewrite Z.add_0_r. apply load8_store8_eq.
    + intros b ?. apply load8_store8_ne. lia.
  - destruct (Z.eqb_spec (load8 m t) 0) as [Ht|Ht]; simpl.
    + split_and!; [done| |].
      * rewrite load8_store8_ne by lia. rewrite Z.add_0_r, load8_store8_eq, Ht. done.
      * intros b ?. rewrite !load8_store8_ne by lia. done.
    + destruct (IH (store8 m s (load8 m t)) (s + 1) (t + 1)) as (H1 & H2 & H3); [lia|].
      assert (bstr (store8 m s (load8 m t)) (t + 1) n = bstr m (t + 1) n) as He.
      { apply bstr_ext. intros x ?. apply load8_store8_ne. lia. }
      rewrite He in *. split_and!.
      * rewrite H3 by lia. rewrite load8_store8_eq, u8_small by apply load8_range. by rewrite H1.
      * rewrite <- H2. f_equal. lia.
      * intros b ?. rewrite H3 by lia. apply load8_store8_ne. lia.
Qed.

Lemma strlen_loop_spec m s n fuel :
  (length (bstr m (s + n) fuel) < fuel)%nat ->
  strlen_loop m s n fuel = Some (n + Z.of_nat (length (bstr m (s + n) fuel))).
Proof.
  revert n. induction fuel as [|k IH]; intros n H; simpl in *; [lia|].
  destruct (load8 m (s + n) =? 0) eqn:E; simpl in *; [f_equal; lia|].
  replace (s + n + 1) with (s + (n + 1)) in * by lia. rewrite IH by lia. f_equal. lia.
Qed.

(** * Properties *)

(** [memmove]: whatever the overlap of the two ranges, the destination ends up with the
    bytes the source range held before the call, and no byte outside it changes. *)
Lemma memmove_correct m dst src n :
  0 <= n ->
  load_bytes (memmove m dst src n) dst (Z.to_nat n) = load_bytes m src (Z.to_nat n) /\
  forall b, ~ (dst <= b < dst + n) -> load8 (memmove m dst src n) b = load8 m b.
Proof.
  intros Hn. split.
  - apply list_eq. intros i. destruct (decide (i < Z.to_nat n)%nat).
    + rewrite !lookup_load_bytes by done. rewrite load8_memmove, decide_True by lia.
      do 2 f_equal. lia.
    + rewrite !lookup_ge_None_2; rewrite ?length_load_bytes; auto with lia.
  - intros b Hb. by rewrite load8_memmove, decide_False by lia.
Qed.

(** * Witnesses *)

Definition mem_abc : mem := store_bytes (fun _ => 0) 100 [97; 98; 99; 100].

Lemma memmove_correct_witness :
  load_bytes (memmove mem_abc 101 100 3) 101 3 = [97; 98; 99].
Proof. exact (proj1 (memmove_correct mem_abc 101 100 3 ltac:(lia))). Defined.
