(* ===== verification/Riscv.v ===== *)
(** The macros of kernel/riscv.h and kernel/memlayout.h: page rounding, Sv39 page-table
    entries and indices, and the physical and virtual address map, each with the
    arithmetic reading of its bit operations. *)
From S2P Require Import Prelude.

(** * kernel/riscv.h *)

Definition PGSIZE : Z := 4096.
Definition PGSHIFT : Z := 12.

Definition PGROUNDUP (sz : Z) : Z := Z.land (u64 (sz + PGSIZE - 1)) (Z.lnot (PGSIZE - 1)).
Definition PGROUNDDOWN (a : Z) : Z := Z.land a (Z.lnot (PGSIZE - 1)).

Definition PTE_V : Z := Z.shiftl 1 0.
Definition PTE_R : Z := Z.shiftl 1 1.
Definition PTE_W : Z := Z.shiftl 1 2.
Definition PTE_X : Z := Z.shiftl 1 3.
Definition PTE_U : Z := Z.shiftl 1 4.

Definition PA2PTE (pa : Z) : Z := u64 (Z.shiftl (Z.shiftr pa 12) 10).
Definition PTE2PA (pte : Z) : Z := u64 (Z.shiftl (Z.shiftr pte 10) 12).
Definition PTE_FLAGS (pte : Z) : Z := Z.land pte 0x3FF.

Definition PXMASK : Z := 0x1FF.
Definition PXSHIFT (level : Z) : Z := PGSHIFT + 9 * level.
Definition PX (level va : Z) : Z := Z.land (Z.shiftr va (PXSHIFT level)) PXMASK.

Definition MAXVA : Z := Z.shiftl 1 (9 + 9 + 9 + 12 - 1).

Definition SATP_SV39 : Z := Z.shiftl 8 60.
Definition MAKE_SATP (pagetable : Z) : Z := Z.lor SATP_SV39 (Z.shiftr pagetable 12).

Definition SSTATUS_SPP : Z := Z.shiftl 1 8.
Definition SSTATUS_SPIE : Z := Z.shiftl 1 5.
Definition SSTATUS_SIE : Z := Z.shiftl 1 1.

Definition MSTATUS_MPP_MASK : Z := Z.shiftl 3 11.
Definition MSTATUS_MPP_S : Z := Z.shiftl 1 11.
Definition MSTATUS_MIE : Z := Z.shiftl 1 3.
Definition SIE_SEIE : Z := Z.shiftl 1 9.
Definition SIE_STIE : Z := Z.shiftl 1 5.
Definition SIE_SSIE : Z := Z.shiftl 1 1.
Definition MIE_MTIE : Z := Z.shiftl 1 7.

(** * kernel/memlayout.h *)

Definition UART0 : Z := 0x10000000.
Definition UART0_IRQ : Z := 10.
Definition VIRTIO0 : Z := 0x10001000.
Definition VIRTIO0_IRQ : Z := 1.
Definition CLINT : Z := 0x2000000.
Definition CLINT_MTIMECMP (hartid : Z) : Z := CLINT + 0x4000 + 8 * hartid.
Definition CLINT_MTIME : Z := CLINT + 0xBFF8.
Definition PLIC : Z := 0x0c000000.
Definition KERNBASE : Z := 0x80000000.
Definition PHYSTOP : Z := KERNBASE + 128 * 1024 * 1024.
Definition TRAMPOLINE : Z := MAXVA - PGSIZE.
Definition KSTACK (p : Z) : Z := TRAMPOLINE - (p + 1) * 2 * PGSIZE.
Definition TRAPFRAME : Z := TRAMPOLINE - PGSIZE.

(** The addresses kernel/kernel.ld gives the linked image: the end of the kernel text
    ([etext]), the first address after the kernel ([end]), the trampoline page, and the code
    addresses the kernel stores in registers and contexts. *)
Class Layout := {
  etext : Z;
  kend : Z;
  trampoline : Z;
  forkret_addr : Z;
  usertrap_addr : Z;
  kernelvec_addr : Z;
  uservec_addr : Z;
  userret_addr : Z;
  etext_range : KERNBASE < etext < kend;
  etext_aligned : etext mod PGSIZE = 0;
  kend_range : kend + PGSIZE <= PHYSTOP;
  trampoline_range : KERNBASE <= trampoline < etext;
  trampoline_aligned : trampoline mod PGSIZE = 0;
}.

(** A 32 KiB kernel, for the examples. *)
#[export] Program Instance example_layout : Layout := {|
  etext := 0x80008000; kend := 0x80022000; trampoline := 0x80007000;
  forkret_addr := 0x80001000; usertrap_addr := 0x80001100; kernelvec_addr := 0x80001200;
  uservec_addr := 0x80007000; userret_addr := 0x8000709c |}.
Solve Obligations with (unfold PHYSTOP, KERNBASE, PGSIZE; (lia || done)).

(** * Arithmetic readings *)

Lemma PHYSTOP_val : PHYSTOP = 0x88000000.
Proof. done. Qed.
Lemma MAXVA_val : MAXVA = 274877906944.
Proof. done. Qed.

Lemma land_lnot_4095 a : Z.land a (Z.lnot (PGSIZE - 1)) = a / 4096 * 4096.
Proof.
  replace (Z.lnot (PGSIZE - 1)) with (Z.lnot (Z.ones 12)) by done.
  rewrite <- Z.ldiff_land, Z.ldiff_ones_r by lia.
  rewrite Z.shiftl_mul_pow2, Z.shiftr_div_pow2 by lia. done.
Qed.

Lemma PGROUNDDOWN_eq a : PGROUNDDOWN a = a / 4096 * 4096.
Proof. apply land_lnot_4095. Qed.

Lemma PGROUNDUP_eq a :
  0 <= a < 18446744073709551616 - 4095 -> PGROUNDUP a = (a + 4095) / 4096 * 4096.
Proof.
  intros. unfold PGROUNDUP. rewrite land_lnot_4095. unfold PGSIZE.
  rewrite u64_small by lia. f_equal. f_equal. lia.
Qed.

Lemma PX_eq level va : 0 <= level -> PX level va = va / 2 ^ (12 + 9 * level) mod 512.
Proof.
  intros. unfold PX, PXMASK, PXSHIFT, PGSHIFT.
  replace 0x1FF with (Z.ones 9) by done.
  rewrite Z.land_ones, Z.shiftr_div_pow2 by lia. done.
Qed.

Lemma PX_range level va : 0 <= level -> 0 <= PX level va < 512.
Proof. intros. rewrite PX_eq by done. apply Z.mod_pos_bound. lia. Qed.

Lemma PX0 va : PX 0 va = va / 4096 mod 512.
Proof. by rewrite PX_eq. Qed.
Lemma PX1 va : PX 1 va = va / 2097152 mod 512.
Proof. by rewrite PX_eq. Qed.
Lemma PX2 va : PX 2 va = va / 1073741824 mod 512.
Proof. by rewrite PX_eq. Qed.

Lemma PX2_low va : 0 <= va < MAXVA -> PX 2 va < 256.
Proof. rewrite PX2, MAXVA_val. intros. dlia. Qed.

(** Below [MAXVA] the three indices determine the page. *)
Lemma PX_inj va va' :
  0 <= va < MAXVA -> 0 <= va' < MAXVA ->
  PX 2 va = PX 2 va' -> PX 1 va = PX 1 va' -> PX 0 va = PX 0 va' -> va / 4096 = va' / 4096.
Proof.
  rewrite !PX0, !PX1, !PX2, MAXVA_val. intros.
  replace (va / 2097152) with (va / 4096 / 512) in * by (rewrite Z.div_div by lia; done).
  replace (va' / 2097152) with (va' / 4096 / 512) in * by (rewrite Z.div_div by lia; done).
  replace (va / 1073741824) with (va / 4096 / 262144) in * by (rewrite Z.div_div by lia; done).
  replace (va' / 1073741824) with (va' / 4096 / 262144) in * by (rewrite Z.div_div by lia; done).
  assert (0 <= va / 4096 < 67108864) by dlia.
  assert (0 <= va' / 4096 < 67108864) by dlia.
  generalize dependent (va / 4096). generalize dependent (va' / 4096). intros. dlia.
Qed.

Lemma PX_page level va va' :
  0 <= level -> va / 4096 = va' / 4096 -> PX level va = PX level va'.
Proof.
  intros Hl He. rewrite !PX_eq by done. f_equal.
  rewrite Z.pow_add_r by lia. change (2 ^ 12) with 4096.
  rewrite <- !Z.div_div by lia. by rewrite He.
Qed.

(** Bits below 2^k and a multiple of 2^k combine without carries. *)
Lemma lor_add_low x y k : 0 <= k -> 0 <= y < 2 ^ k -> Z.lor (x * 2 ^ k) y = x * 2 ^ k + y.
Proof.
  intros Hk Hy. assert (Z.land (x * 2 ^ k) y = 0) as H0.
  { rewrite <- Z.shiftl_mul_pow2 by done. apply Z.bits_inj'. intros n Hn.
    rewrite Z.land_spec, Z.bits_0. destruct (decide (n < k)).
    - by rewrite Z.shiftl_spec_low.
    - rewrite <- (Z.mod_small y (2 ^ k)) by done.
      rewrite Z.mod_pow2_bits_high by lia. apply andb_false_r. }
  pose proof (Z.add_lor_land (x * 2 ^ k) y). lia.
Qed.

(** A flag test [pte & f] of the C code. *)
Definition tst (pte f : Z) : bool := negb (Z.land pte f =? 0).

Lemma tst_testbit pte k : 0 <= k -> tst pte (Z.shiftl 1 k) = Z.testbit pte k.
Proof.
  intros Hk. unfold tst. rewrite Z.shiftl_1_l.
  destruct (Z.eqb_spec (Z.land pte (2 ^ k)) 0) as [H|H]; simpl.
  - symmetry. rewrite <- (andb_true_r (Z.testbit pte k)).
    rewrite <- (Z.pow2_bits_true k) at 1 by done.
    by rewrite <- Z.land_spec, H, Z.bits_0.
  - destruct (Z.testbit pte k) eqn:E; [done|]. exfalso. apply H, Z.bits_inj'.
    intros n Hn. rewrite Z.land_spec, Z.bits_0.
    destruct (decide (n = k)) as [->|]; [by rewrite E|].
    rewrite Z.pow2_bits_false by done. apply andb_false_r.
Qed.

Lemma tst_0 f : tst 0 f = false.
Proof. unfold tst. by rewrite Z.land_0_l. Qed.

(** The entry [PA2PTE(pa) | perm | PTE_V]. *)
Definition mkpte (pa perm : Z) : Z := Z.lor (Z.lor (PA2PTE pa) perm) PTE_V.

(** Physical addresses that fit the 44-bit page number of an Sv39 entry. *)
Definition pa_ok (pa : Z) : Prop := 0 <= pa < 2 ^ 56 /\ pa mod PGSIZE = 0.

Lemma PA2PTE_eq pa : pa_ok pa -> PA2PTE pa = pa / 4096 * 1024.
Proof.
  intros [? _]. unfold PA2PTE. rewrite Z.shiftl_mul_pow2, Z.shiftr_div_pow2 by lia.
  change (2 ^ 12) with 4096. change (2 ^ 10) with 1024. change (2 ^ 56) with 72057594037927936 in *.
  apply u64_small. dlia.
Qed.

Lemma lor_1_range perm : 0 <= perm < 1024 -> 0 <= Z.lor perm 1 < 1024.
Proof.
  intros. split; [apply Z.lor_nonneg; lia|].
  assert (Z.lor perm 1 mod 1024 = Z.lor perm 1) as <-; [|apply Z.mod_pos_bound; lia].
  change 1024 with (2 ^ 10). rewrite <- Z.land_ones by lia.
  rewrite Z.land_lor_distr_l, !Z.land_ones by lia. rewrite !Z.mod_small; done.
Qed.

Lemma mkpte_eq pa perm :
  pa_ok pa -> 0 <= perm < 1024 -> mkpte pa perm = pa / 4096 * 1024 + Z.lor perm 1.
Proof.
  intros Hpa Hp. unfold mkpte. rewrite PA2PTE_eq by done. rewrite <- Z.lor_assoc.
  change 1024 with (2 ^ 10) at 1 2. apply (lor_add_low _ _ 10); [lia|].
  by apply lor_1_range.
Qed.

Lemma mkpte_range pa perm :
  pa_ok pa -> 0 <= perm < 1024 -> 0 <= mkpte pa perm < 18446744073709551616.
Proof.
  intros Hpa Hp. rewrite mkpte_eq by done. pose proof (lor_1_range _ Hp).
  destruct Hpa as [? _]. change (2 ^ 56) with 72057594037927936 in *. dlia.
Qed.

Lemma PTE2PA_eq pte : 0 <= pte < 2 ^ 54 -> PTE2PA pte = pte / 1024 * 4096.
Proof.
  intros. unfold PTE2PA. rewrite Z.shiftl_mul_pow2, Z.shiftr_div_pow2 by lia.
  change (2 ^ 12) with 4096. change (2 ^ 10) with 1024.
  apply u64_small. change (2 ^ 54) with 18014398509481984 in *. dlia.
Qed.

Lemma PTE2PA_mkpte pa perm : pa_ok pa -> 0 <= perm < 1024 -> PTE2PA (mkpte pa perm) = pa.
Proof.
  intros Hpa Hp. rewrite mkpte_eq by done. pose proof (lor_1_range _ Hp).
  destruct Hpa as [? Hm]. unfold PGSIZE in Hm.
  change (2 ^ 56) with 72057594037927936 in *.
  rewrite PTE2PA_eq by (change (2 ^ 54) with 18014398509481984; dlia). dlia.
Qed.

Lemma PTE_FLAGS_eq pte : PTE_FLAGS pte = pte mod 1024.
Proof. unfold PTE_FLAGS. change 0x3FF with (Z.ones 10). by rewrite Z.land_ones. Qed.

Lemma PTE_FLAGS_range pte : 0 <= PTE_FLAGS pte < 1024.
Proof. rewrite PTE_FLAGS_eq. apply Z.mod_pos_bound. lia. Qed.

Lemma PTE_FLAGS_mkpte pa perm :
  pa_ok pa -> 0 <= perm < 1024 -> PTE_FLAGS (mkpte pa perm) = Z.lor perm 1.
Proof.
  intros Hpa Hp. rewrite PTE_FLAGS_eq, mkpte_eq by done. pose proof (lor_1_range _ Hp).
  rewrite Z.add_comm, Z.mod_add by lia. by apply Z.mod_small.
Qed.

(** Below bit 10 an entry has the bits of its flags. *)
Lemma testbit_flags pte k : 0 <= k < 10 -> Z.testbit (PTE_FLAGS pte) k = Z.testbit pte k.
Proof.
  intros. rewrite PTE_FLAGS_eq. change 1024 with (2 ^ 10). apply Z.mod_pow2_bits_low; lia.
Qed.

Lemma tst_mkpte pa perm k :
  pa_ok pa -> 0 <= perm < 1024 -> 0 <= k < 10 ->
  tst (mkpte pa perm) (Z.shiftl 1 k) = Z.testbit (Z.lor perm 1) k.
Proof.
  intros. rewrite tst_testbit by lia. rewrite <- testbit_flags by lia.
  by rewrite PTE_FLAGS_mkpte.
Qed.

Lemma tst_mkpte_V pa perm : pa_ok pa -> 0 <= perm < 1024 -> tst (mkpte pa perm) PTE_V = true.
Proof.
  intros. unfold PTE_V. rewrite tst_mkpte by (done || lia).
  rewrite Z.lor_spec. apply orb_true_r.
Qed.
