(* ===== verification/Asm.v ===== *)
(** The assembly code: kernel/trampoline.S, kernel/swtch.S, kernel/kernelvec.S and
    kernel/entry.S.

    A machine has its registers, the control registers the code uses, and a memory of 64-bit
    words at physical addresses. Loads and stores go through the address translation that
    [satp] selects, which is the hardware's and a parameter. *)
From S2P Require Import Prelude Riscv.

Inductive reg :=
| ra | sp | gp | tp | t0 | t1 | t2 | s0 | s1 | a0 | a1 | a2 | a3 | a4 | a5 | a6 | a7
| s2 | s3 | s4 | s5 | s6 | s7 | s8 | s9 | s10 | s11 | t3 | t4 | t5 | t6.
#[export] Instance reg_eq_dec : EqDecision reg.
Proof. solve_decision. Defined.

Inductive creg :=
| sscratch | satp | sip | mhartid | mscratch | mstatus | mepc | mtvec | medeleg | mideleg | mie | pmpaddr0 | pmpcfg0.
#[export] Instance creg_eq_dec : EqDecision creg.
Proof. solve_decision. Defined.

Record mach := mkmach { m_reg : reg -> Z; m_csr : creg -> Z; m_word : Z -> Z }.

Inductive instr :=
| Sd (rs : reg) (off : Z) (rb : reg)
| Ld (rd : reg) (off : Z) (rb : reg)
| Li (rd : reg) (imm : Z)
| Addi (rd rs : reg) (imm : Z)
| Add (rd rs rt : reg)
| Mul (rd rs rt : reg)
| Csrw (c : creg) (rs : reg)
| Csrr (rd : reg) (c : creg)
| Csrrw (rd : reg) (c : creg) (rs : reg)
| Fence.

Definition setr (r : reg) (v : Z) (m : mach) : mach := mkmach (fun x => if decide (x = r) then v else m_reg m x) (m_csr m) (m_word m).
Definition setc (c : creg) (v : Z) (m : mach) : mach := mkmach (m_reg m) (fun x => if decide (x = c) then v else m_csr m x) (m_word m).
Definition setw (a v : Z) (m : mach) : mach := mkmach (m_reg m) (m_csr m) (fun x => if x =? a then v else m_word m x).

Section asm.
(** The physical address of a virtual one under a value of [satp]. *)
Context (translate : Z -> Z -> Z).

Definition phys (m : mach) (a : Z) : Z := translate (m_csr m satp) (u64 a).

Definition step (i : instr) (m : mach) : mach :=
  match i with
  | Sd rs off rb => setw (phys m (m_reg m rb + off)) (m_reg m rs) m
  | Ld rd off rb => setr rd (m_word m (phys m (m_reg m rb + off))) m
  | Li rd imm => setr rd imm m
  | Addi rd rs imm => setr rd (u64 (m_reg m rs + imm)) m
  | Add rd rs rt => setr rd (u64 (m_reg m rs + m_reg m rt)) m
  | Mul rd rs rt => setr rd (u64 (m_reg m rs * m_reg m rt)) m
  | Csrw c rs => setc c (m_reg m rs) m
  | Csrr rd c => setr rd (m_csr m c) m
  | Csrrw rd c rs => let old := m_csr m c in setr rd old (setc c (m_reg m rs) m)
  | Fence => m
  end.
Definition run (l : list instr) (m : mach) : mach := foldl (fun m i => step i m) m l.
End asm.

(** * kernel/trampoline.S *)

(** Up to [jr t0], which goes to the address in [t0]. *)
Definition uservec : list instr := [
  Csrw sscratch a0;
  Li a0 TRAPFRAME;
  Sd ra 40 a0; Sd sp 48 a0; Sd gp 56 a0; Sd tp 64 a0; Sd t0 72 a0; Sd t1 80 a0; Sd t2 88 a0; Sd s0 96 a0; Sd s1 104 a0;
  Sd a1 120 a0; Sd a2 128 a0; Sd a3 136 a0; Sd a4 144 a0; Sd a5 152 a0; Sd a6 160 a0; Sd a7 168 a0;
  Sd s2 176 a0; Sd s3 184 a0; Sd s4 192 a0; Sd s5 200 a0; Sd s6 208 a0; Sd s7 216 a0; Sd s8 224 a0; Sd s9 232 a0; Sd s10 240 a0; Sd s11 248 a0;
  Sd t3 256 a0; Sd t4 264 a0; Sd t5 272 a0; Sd t6 280 a0;
  Csrr t0 sscratch;
  Sd t0 112 a0;
  Ld sp 8 a0;
  Ld tp 32 a0;
  Ld t0 16 a0;
  Ld t1 0 a0;
  Fence;
  Csrw satp t1;
  Fence].

(** Up to [sret]. *)
Definition userret : list instr := [
  Fence;
  Csrw satp a0;
  Fence;
  Li a0 TRAPFRAME;
  Ld ra 40 a0; Ld sp 48 a0; Ld gp 56 a0; Ld tp 64 a0; Ld t0 72 a0; Ld t1 80 a0; Ld t2 88 a0; Ld s0 96 a0; Ld s1 104 a0;
  Ld a1 120 a0; Ld a2 128 a0; Ld a3 136 a0; Ld a4 144 a0; Ld a5 152 a0; Ld a6 160 a0; Ld a7 168 a0;
  Ld s2 176 a0; Ld s3 184 a0; Ld s4 192 a0; Ld s5 200 a0; Ld s6 208 a0; Ld s7 216 a0; Ld s8 224 a0; Ld s9 232 a0; Ld s10 240 a0; Ld s11 248 a0;
  Ld t3 256 a0; Ld t4 264 a0; Ld t5 272 a0; Ld t6 280 a0;
  Ld a0 112 a0].

(** * kernel/swtch.S *)

(** [swtch(old, new)], up to [ret]. *)
Definition swtch : list instr := [
  Sd ra 0 a0; Sd sp 8 a0; Sd s0 16 a0; Sd s1 24 a0; Sd s2 32 a0; Sd s3 40 a0; Sd s4 48 a0; Sd s5 56 a0; Sd s6 64 a0; Sd s7 72 a0;
  Sd s8 80 a0; Sd s9 88 a0; Sd s10 96 a0; Sd s11 104 a0;
  Ld ra 0 a1; Ld sp 8 a1; Ld s0 16 a1; Ld s1 24 a1; Ld s2 32 a1; Ld s3 40 a1; Ld s4 48 a1; Ld s5 56 a1; Ld s6 64 a1; Ld s7 72 a1;
  Ld s8 80 a1; Ld s9 88 a1; Ld s10 96 a1; Ld s11 104 a1].

(** * kernel/kernelvec.S *)

(** Before and after [call kerneltrap]. *)
Definition kernelvec_save : list instr := [
  Addi sp sp (-256);
  Sd ra 0 sp; Sd sp 8 sp; Sd gp 16 sp; Sd tp 24 sp; Sd t0 32 sp; Sd t1 40 sp; Sd t2 48 sp; Sd s0 56 sp; Sd s1 64 sp;
  Sd a0 72 sp; Sd a1 80 sp; Sd a2 88 sp; Sd a3 96 sp; Sd a4 104 sp; Sd a5 112 sp; Sd a6 120 sp; Sd a7 128 sp;
  Sd s2 136 sp; Sd s3 144 sp; Sd s4 152 sp; Sd s5 160 sp; Sd s6 168 sp; Sd s7 176 sp; Sd s8 184 sp; Sd s9 192 sp; Sd s10 200 sp; Sd s11 208 sp;
  Sd t3 216 sp; Sd t4 224 sp; Sd t5 232 sp; Sd t6 240 sp].
Definition kernelvec_restore : list instr := [
  Ld ra 0 sp; Ld sp 8 sp; Ld gp 16 sp; Ld t0 32 sp; Ld t1 40 sp; Ld t2 48 sp; Ld s0 56 sp; Ld s1 64 sp;
  Ld a0 72 sp; Ld a1 80 sp; Ld a2 88 sp; Ld a3 96 sp; Ld a4 104 sp; Ld a5 112 sp; Ld a6 120 sp; Ld a7 128 sp;
  Ld s2 136 sp; Ld s3 144 sp; Ld s4 152 sp; Ld s5 160 sp; Ld s6 168 sp; Ld s7 176 sp; Ld s8 184 sp; Ld s9 192 sp; Ld s10 200 sp; Ld s11 208 sp;
  Ld t3 216 sp; Ld t4 224 sp; Ld t5 232 sp; Ld t6 240 sp;
  Addi sp sp 256].

Definition timervec : list instr := [
  Csrrw a0 mscratch a0;
  Sd a1 0 a0; Sd a2 8 a0; Sd a3 16 a0;
  Ld a1 24 a0;
  Ld a2 32 a0;
  Ld a3 0 a1;
  Add a3 a3 a2;
  Sd a3 0 a1;
  Li a1 2;
  Csrw sip a1;
  Ld a3 16 a0; Ld a2 8 a0; Ld a1 0 a0;
  Csrrw a0 mscratch a0].

(** * kernel/entry.S *)

(** Up to [call start]; [stack0] is the address of the stacks. *)
Definition entry (stack0 : Z) : list instr := [
  Li sp stack0;
  Li a0 (1024 * 4);
  Csrr a1 mhartid;
  Addi a1 a1 1;
  Mul a0 a0 a1;
  Add sp sp a0].

(** * The trap frame *)

(** Where [struct trapframe] has each register. *)
Definition tf_off (r : reg) : Z :=
  match r with
  | ra => 40 | sp => 48 | gp => 56 | tp => 64 | t0 => 72 | t1 => 80 | t2 => 88 | s0 => 96 | s1 => 104 | a0 => 112 | a1 => 120
  | a2 => 128 | a3 => 136 | a4 => 144 | a5 => 152 | a6 => 160 | a7 => 168 | s2 => 176 | s3 => 184 | s4 => 192 | s5 => 200
  | s6 => 208 | s7 => 216 | s8 => 224 | s9 => 232 | s10 => 240 | s11 => 248 | t3 => 256 | t4 => 264 | t5 => 272 | t6 => 280
  end.
(** The registers [struct context] has. *)
Definition ctx_off (r : reg) : option Z :=
  match r with
  | ra => Some 0 | sp => Some 8 | s0 => Some 16 | s1 => Some 24 | s2 => Some 32 | s3 => Some 40 | s4 => Some 48 | s5 => Some 56 | s6 => Some 64
  | s7 => Some 72 | s8 => Some 80 | s9 => Some 88 | s10 => Some 96 | s11 => Some 104 | _ => None
  end.

(** * Blocks of stores and loads *)

Definition saves (b : reg) (l : list (reg * Z)) : list instr := (fun x => Sd x.1 x.2 b) <$> l.
Definition loads (b : reg) (l : list (reg * Z)) : list instr := (fun x => Ld x.1 x.2 b) <$> l.

Lemma run_app tr l1 l2 m : run tr (l1 ++ l2) m = run tr l2 (run tr l1 m).
Proof. apply foldl_app. Qed.

Section blocks.
Context (translate : Z -> Z -> Z).
#[local] Abbreviation run := (run translate).
#[local] Abbreviation phys := (phys translate).

Lemma run_saves b base l m : (forall x, x ∈ l -> phys m (m_reg m b + x.2) = base + x.2) -> NoDup l.*2 ->
  let m' := run (saves b l) m in
  m_reg m' = m_reg m /\ m_csr m' = m_csr m /\ (forall x, x ∈ l -> m_word m' (base + x.2) = m_reg m x.1) /\
  forall a, (forall x, x ∈ l -> a <> base + x.2) -> m_word m' a = m_word m a.
Proof.
  revert m. induction l as [|[r off] l IH]; intros m Hp Hd; [split_and!; [done|done|by intros x Hx%not_elem_of_nil|done]|]. apply NoDup_cons in Hd as [Hn Hd].
  pose proof (Hp (r, off) ltac:(set_solver)) as H0. cbn [fst snd] in H0. set (m1 := setw (base + off) (m_reg m r) m).
  assert (run (saves b ((r, off) :: l)) m = run (saves b l) m1) as -> by (unfold m1; rewrite <- H0; done).
  destruct (IH m1) as (E1 & E2 & E3 & E4); [intros x Hx; apply (Hp x); set_solver|done|]. cbv zeta. split_and!; [done|done| |].
  - intros x [->|Hx]%elem_of_cons; [|by apply E3]. rewrite E4; [cbn; by rewrite Z.eqb_refl|]. intros x Hx E. apply Hn. apply list_elem_of_fmap. exists x. split; [cbn in *; lia|done].
  - intros a Ha. rewrite E4 by (intros x Hx; apply Ha; set_solver). cbn. rewrite (proj2 (Z.eqb_neq _ _)); [done|]. apply (Ha (r, off)). set_solver.
Qed.

Lemma run_loads b base l m : (forall x, x ∈ l -> phys m (m_reg m b + x.2) = base + x.2) -> NoDup l.*1 -> b ∉ l.*1 ->
  let m' := run (loads b l) m in
  m_word m' = m_word m /\ m_csr m' = m_csr m /\ (forall x, x ∈ l -> m_reg m' x.1 = m_word m (base + x.2)) /\ forall r, r ∉ l.*1 -> m_reg m' r = m_reg m r.
Proof.
  revert m. induction l as [|[r off] l IH]; intros m Hp Hd Hb; [split_and!; [done|done|by intros x Hx%not_elem_of_nil|done]|]. apply NoDup_cons in Hd as [Hn Hd]. cbn [fmap list_fmap fst] in Hb, Hn. apply not_elem_of_cons in Hb as [Hbr Hb].
  pose proof (Hp (r, off) ltac:(set_solver)) as H0. cbn [fst snd] in H0. set (m1 := setr r (m_word m (base + off)) m).
  assert (run (loads b ((r, off) :: l)) m = run (loads b l) m1) as -> by (unfold m1; rewrite <- H0; done).
  destruct (IH m1) as (E1 & E2 & E3 & E4); [|done|done|].
  { intros x Hx. unfold m1. cbn. rewrite decide_False by done. apply (Hp x). set_solver. }
  cbv zeta. split_and!; [done|done| |].
  - intros x [->|Hx]%elem_of_cons; [|by apply E3]. cbn [fst snd]. rewrite (E4 r Hn). cbn. by rewrite decide_True.
  - intros y Hy. cbn [fmap list_fmap fst] in Hy. apply not_elem_of_cons in Hy as [Hyr Hy]. rewrite E4 by done. cbn. by rewrite decide_False.
Qed.
End blocks.

(** * Traps from user space *)

Section trap.
Context (translate : Z -> Z -> Z) (usatp tf : Z).
#[local] Abbreviation run := (run translate).

(** The user page table maps the trap frame at [TRAPFRAME]. *)
Definition tf_mapped : Prop := forall off, 0 <= off < 288 -> translate usatp (u64 (TRAPFRAME + off)) = tf + off.
Hypothesis Hmap : tf_mapped.

(** All registers but [a0], in the order of the code. *)
Definition saved : list reg := [ra; sp; gp; tp; t0; t1; t2; s0; s1; a1; a2; a3; a4; a5; a6; a7; s2; s3; s4; s5; s6; s7; s8; s9; s10; s11; t3; t4; t5; t6].
Definition frame : list (reg * Z) := (fun r => (r, tf_off r)) <$> saved.

Lemma frame_in x : x ∈ frame -> x.2 = tf_off x.1 /\ x.1 <> a0 /\ 40 <= x.2 < 288.
Proof. intros (r & -> & Hr)%list_elem_of_fmap. cbn [fst snd]. split; [done|]. split; [intros ->; by apply (bool_decide_pack _) in Hr|]. destruct r; cbn; lia. Qed.
Lemma saved_all r : r <> a0 -> (r, tf_off r) ∈ frame.
Proof. intros Hr. apply list_elem_of_fmap. exists r. split; [done|]. apply (bool_decide_unpack _). by destruct r. Qed.
Lemma frame_nodup : NoDup frame.*1 /\ NoDup frame.*2.
Proof. split; apply (bool_decide_unpack _); by vm_compute. Qed.

Lemma uservec_split : uservec = [Csrw sscratch a0; Li a0 TRAPFRAME] ++ saves a0 frame ++ [Csrr t0 sscratch; Sd t0 112 a0] ++ loads a0 [(sp, 8); (tp, 32); (t0, 16); (t1, 0)] ++ [Fence; Csrw satp t1; Fence].
Proof. reflexivity. Qed.
Lemma userret_split : userret = [Fence; Csrw satp a0; Fence; Li a0 TRAPFRAME] ++ loads a0 frame ++ [Ld a0 112 a0].
Proof. reflexivity. Qed.

Lemma tf_off_inj r r' : tf_off r = tf_off r' -> r = r'.
Proof. destruct r, r'; cbn; congruence. Qed.

(** After the stores: [m2] has the registers of [m] in the trap frame, but for [a0]. *)
Record stored (m m2 : mach) : Prop := {
  sv_a0 : m_reg m2 a0 = TRAPFRAME;
  sv_satp : m_csr m2 satp = usatp;
  sv_scratch : m_csr m2 sscratch = m_reg m a0;
  sv_regs r : r <> a0 -> m_word m2 (tf + tf_off r) = m_reg m r;
  sv_other a : (forall x, x ∈ frame -> a <> tf + x.2) -> m_word m2 a = m_word m a;
}.

Lemma uservec_stores m : m_csr m satp = usatp -> stored m (run ([Csrw sscratch a0; Li a0 TRAPFRAME] ++ saves a0 frame) m).
Proof.
  intros Hs. rewrite run_app. assert (m_reg (run [Csrw sscratch a0; Li a0 TRAPFRAME] m) a0 = TRAPFRAME /\ m_csr (run [Csrw sscratch a0; Li a0 TRAPFRAME] m) satp = usatp /\
    m_csr (run [Csrw sscratch a0; Li a0 TRAPFRAME] m) sscratch = m_reg m a0 /\ (forall r, r <> a0 -> m_reg (run [Csrw sscratch a0; Li a0 TRAPFRAME] m) r = m_reg m r) /\
    m_word (run [Csrw sscratch a0; Li a0 TRAPFRAME] m) = m_word m) as (H1 & H2 & H3 & H4 & H5) by (split_and!; [done|done|done|intros r Hr; cbn; by rewrite decide_False|done]).
  generalize dependent (run [Csrw sscratch a0; Li a0 TRAPFRAME] m). intros m1 H1 H2 H3 H4 H5. destruct (run_saves translate a0 tf frame m1) as (R2 & C2 & W2 & O2); [|apply frame_nodup|].
  { intros x Hx. destruct (frame_in x Hx) as (_ & _ & Hr). unfold phys. rewrite H1, H2. apply Hmap. lia. }
  split; [by rewrite R2|by rewrite C2|by rewrite C2| |].
  - intros r Hr. rewrite <- H4 by done. apply (W2 (r, tf_off r) (saved_all r Hr)).
  - intros a Ha. rewrite <- H5. by apply O2.
Qed.

(** The last loads, from a frame that is complete. *)
Lemma uservec_loads m3 : m_reg m3 a0 = TRAPFRAME -> m_csr m3 satp = usatp -> let m5 := run (loads a0 [(sp, 8); (tp, 32); (t0, 16); (t1, 0)] ++ [Fence; Csrw satp t1; Fence]) m3 in
  m_word m5 = m_word m3 /\ m_reg m5 sp = m_word m3 (tf + 8) /\ m_reg m5 tp = m_word m3 (tf + 32) /\ m_reg m5 t0 = m_word m3 (tf + 16) /\ m_csr m5 satp = m_word m3 (tf + 0).
Proof.
  intros Ha Hs. cbv zeta. rewrite run_app. destruct (run_loads translate a0 tf [(sp, 8); (tp, 32); (t0, 16); (t1, 0)] m3) as (W4 & C4 & R4 & _); [|apply (bool_decide_unpack _); by vm_compute|by apply (bool_decide_unpack _); vm_compute|].
  { intros x Hx. unfold phys. rewrite Ha, Hs. apply Hmap. repeat (apply elem_of_cons in Hx as [->|Hx]; [cbn; lia|]). by apply not_elem_of_nil in Hx. }
  generalize dependent (run (loads a0 [(sp, 8); (tp, 32); (t0, 16); (t1, 0)]) m3). intros m4 W4 C4 R4.
  pose proof (R4 (sp, 8) ltac:(set_solver)). pose proof (R4 (tp, 32) ltac:(set_solver)). pose proof (R4 (t0, 16) ltac:(set_solver)). pose proof (R4 (t1, 0) ltac:(set_solver)). done.
Qed.

(** The trap: the user registers are in the trap frame, nothing else in memory changed, and the
    hart runs on the kernel's stack and page table. *)
Lemma uservec_spec m : m_csr m satp = usatp -> let m1 := run uservec m in
  (forall r, m_word m1 (tf + tf_off r) = m_reg m r) /\ (forall a, ~ tf + 40 <= a < tf + 288 -> m_word m1 a = m_word m a) /\
  m_reg m1 sp = m_word m (tf + 8) /\ m_reg m1 tp = m_word m (tf + 32) /\ m_reg m1 t0 = m_word m (tf + 16) /\ m_csr m1 satp = m_word m (tf + 0).
Proof.
  intros Hs. cbv zeta. rewrite uservec_split, app_assoc, run_app, run_app. pose proof (uservec_stores m Hs) as Hst. generalize dependent (run ([Csrw sscratch a0; Li a0 TRAPFRAME] ++ saves a0 frame) m). intros m2 [H1 H2 H3 H4 H5].
  assert (m_word (run [Csrr t0 sscratch; Sd t0 112 a0] m2) = fun a => if a =? tf + 112 then m_reg m a0 else m_word m2 a) as W3 by (cbn; unfold phys; cbn; rewrite H1, H2, H3, Hmap by lia; done).
  destruct (uservec_loads (run [Csrr t0 sscratch; Sd t0 112 a0] m2)) as (W5 & R1 & R2 & R3 & R4); [done|done|].
  generalize dependent (run [Csrr t0 sscratch; Sd t0 112 a0] m2). intros m3 W3 W5 R1 R2 R3 R4.
  assert (forall k, 0 <= k < 40 -> m_word m3 (tf + k) = m_word m (tf + k)) as Hlow.
  { intros k Hk. rewrite W3, (proj2 (Z.eqb_neq _ _)) by lia. apply H5. intros x Hx. destruct (frame_in x Hx) as (_ & _ & Hr). lia. }
  rewrite R1, R2, R3, R4, W5, !Hlow by lia. split_and!; [| |done..].
  - intros r. rewrite W3. destruct (decide (r = a0)) as [->|Hr]; [by rewrite Z.eqb_refl|]. rewrite (proj2 (Z.eqb_neq _ _)) by (intros E; apply Hr, tf_off_inj; cbn; lia). by apply H4.
  - intros a Hout. rewrite W3, (proj2 (Z.eqb_neq _ _)) by lia. apply H5. intros x Hx. destruct (frame_in x Hx) as (_ & _ & Hr). lia.
Qed.

(** The way back: every register is what the trap frame has. *)
Lemma userret_spec m : m_reg m a0 = usatp -> let m1 := run userret m in
  (forall r, m_reg m1 r = m_word m (tf + tf_off r)) /\ m_word m1 = m_word m /\ m_csr m1 satp = usatp.
Proof.
  intros Hs. cbv zeta. rewrite userret_split, run_app, run_app. assert (m_reg (run [Fence; Csrw satp a0; Fence; Li a0 TRAPFRAME] m) a0 = TRAPFRAME /\ m_csr (run [Fence; Csrw satp a0; Fence; Li a0 TRAPFRAME] m) satp = usatp /\
    m_word (run [Fence; Csrw satp a0; Fence; Li a0 TRAPFRAME] m) = m_word m) as (Ha & Hsat & Hw) by done.
  generalize dependent (run [Fence; Csrw satp a0; Fence; Li a0 TRAPFRAME] m). intros m1 Ha Hsat Hw.
  destruct (run_loads translate a0 tf frame m1) as (W2 & C2 & R2 & O2); [|apply frame_nodup|by apply (bool_decide_unpack _); vm_compute|].
  { intros x Hx. destruct (frame_in x Hx) as (_ & _ & Hr). unfold phys. rewrite Ha, Hsat. apply Hmap. lia. }
  assert (m_reg (run (loads a0 frame) m1) a0 = TRAPFRAME) as Ha2 by (rewrite O2; [done|by apply (bool_decide_unpack _); vm_compute]). generalize dependent (run (loads a0 frame) m1). intros m2 W2 C2 R2 O2 Ha2.
  split_and!; [|cbn; congruence|cbn; congruence]. intros r. cbn. unfold phys. rewrite Ha2, C2, Hsat, Hmap, W2, Hw by lia. case_decide as Hr; [by subst r|]. rewrite <- Hw. apply (R2 (r, tf_off r) (saved_all r Hr)).
Qed.
End trap.

(** C13: A trap does not lose a register of the user program. [uservec] stores all 31 registers
    into the trap frame that the user page table maps at TRAPFRAME, changes no other memory,
    and leaves the hart with the kernel's stack, hart number, page table and the address of
    [usertrap]; and when the kernel later calls [userret] with the page table of the process
    and the saved registers as they were, every register has the value it had at the trap. *)
Theorem trap_roundtrip translate usatp tf m : tf_mapped translate usatp tf -> m_csr m satp = usatp ->
  let m1 := run translate uservec m in
  (forall a, ~ tf + 40 <= a < tf + 288 -> m_word m1 a = m_word m a) /\
  m_reg m1 sp = m_word m (tf + 8) /\ m_reg m1 tp = m_word m (tf + 32) /\ m_reg m1 t0 = m_word m (tf + 16) /\ m_csr m1 satp = m_word m (tf + 0) /\
  forall m2, m_reg m2 a0 = usatp -> (forall r, m_word m2 (tf + tf_off r) = m_word m1 (tf + tf_off r)) ->
    let m3 := run translate userret m2 in (forall r, m_reg m3 r = m_reg m r) /\ m_csr m3 satp = usatp /\ m_word m3 = m_word m2.
Proof.
  intros Hmap Hs. cbv zeta. destruct (uservec_spec translate usatp tf Hmap m Hs) as (U1 & U2 & U3 & U4 & U5 & U6). split_and!; [exact U2|exact U3|exact U4|exact U5|exact U6|].
  intros m2 Ha Hw. destruct (userret_spec translate usatp tf Hmap m2 Ha) as (V1 & V2 & V3). split_and!; [|exact V3|exact V2]. intros r. rewrite V1, Hw. apply U1.
Qed.

(** A page table that maps the trap frame to [0x87000000], and a process in user space. *)
Definition demo_tr (s a : Z) : Z := if s =? 7 then a - TRAPFRAME + 0x87000000 else a.
Definition demo_user : mach := mkmach (fun r => tf_off r + 1000) (fun c => if decide (c = satp) then 7 else 0) (fun a => a - 0x87000000).
Definition demo_back (m : mach) : mach := mkmach (fun r => if decide (r = a0) then 7 else 5) (m_csr m) (m_word m).

Lemma trap_roundtrip_witness : m_reg (run demo_tr userret (demo_back (run demo_tr uservec demo_user))) s5 = 1200 /\ m_csr (run demo_tr uservec demo_user) satp = 0.
Proof.
  destruct (trap_roundtrip demo_tr 7 0x87000000 demo_user) as (_ & _ & _ & _ & Hs & H).
  - intros off Hoff. unfold demo_tr. cbn [Z.eqb Pos.eqb]. rewrite u64_small by (change TRAPFRAME with 274877898752; lia). lia.
  - done.
  - generalize dependent (run demo_tr uservec demo_user). intros m1 Hs H. split; [|rewrite Hs; reflexivity].
    destruct (H (demo_back m1)) as (Hr & _ & _); [reflexivity|intros r; reflexivity|]. rewrite Hr. reflexivity.
Defined.

(** * Switching contexts *)

(** The registers of [struct context], in the order of the code. *)
Definition callee_saved : list reg := [ra; sp; s0; s1; s2; s3; s4; s5; s6; s7; s8; s9; s10; s11].
Definition context : list (reg * Z) := (fun r => (r, default 0 (ctx_off r))) <$> callee_saved.

Lemma context_in x : x ∈ context -> ctx_off x.1 = Some x.2 /\ 0 <= x.2 <= 104 /\ x.1 <> a0 /\ x.1 <> a1.
Proof. intros (r & -> & Hr)%list_elem_of_fmap. apply (bool_decide_pack _) in Hr. destruct r; cbn in *; try done; lia. Qed.
Lemma context_all r off : ctx_off r = Some off -> (r, off) ∈ context.
Proof. intros H. apply list_elem_of_fmap. exists r. rewrite H. split; [done|]. apply (bool_decide_unpack _). by destruct r. Qed.
Lemma context_nodup : NoDup context.*1 /\ NoDup context.*2.
Proof. split; apply (bool_decide_unpack _); by vm_compute. Qed.
Lemma context_not r : ctx_off r = None -> r ∉ context.*1.
Proof. intros H (x & -> & Hx)%list_elem_of_fmap. destruct (context_in x Hx) as (E & _). congruence. Qed.

Section swtch.
Context (translate : Z -> Z -> Z).
#[local] Abbreviation run := (run translate).

(** The kernel's page table maps a [struct context] at its own address. *)
Definition direct (m : mach) (ctx : Z) : Prop := forall off, 0 <= off <= 104 -> phys translate m (ctx + off) = ctx + off.

Lemma swtch_spec m : direct m (m_reg m a0) -> direct m (m_reg m a1) -> (m_reg m a0 + 112 <= m_reg m a1 \/ m_reg m a1 + 112 <= m_reg m a0) -> let m1 := run swtch m in
  (forall r off, ctx_off r = Some off -> m_word m1 (m_reg m a0 + off) = m_reg m r /\ m_reg m1 r = m_word m (m_reg m a1 + off)) /\
  (forall r, ctx_off r = None -> m_reg m1 r = m_reg m r) /\ (forall a, ~ m_reg m a0 <= a < m_reg m a0 + 112 -> m_word m1 a = m_word m a).
Proof.
  intros H0 H1 Hd. cbv zeta. change swtch with (saves a0 context ++ loads a1 context). rewrite run_app.
  destruct (run_saves translate a0 (m_reg m a0) context m) as (R1 & C1 & W1 & O1); [intros x Hx; apply H0; apply (context_in x Hx)|apply context_nodup|].
  generalize dependent (run (saves a0 context) m). intros m1 R1 C1 W1 O1.
  destruct (run_loads translate a1 (m_reg m a1) context m1) as (W2 & _ & R2 & O2).
  { intros x Hx. unfold phys. rewrite R1, C1. apply H1. apply (context_in x Hx). }
  { apply context_nodup. }
  { by apply context_not. }
  split_and!.
  - intros r off Hr. pose proof (context_all r off Hr) as Hx. rewrite W2. split; [exact (W1 _ Hx)|]. pose proof (R2 _ Hx) as E. cbn [fst snd] in E. rewrite E. apply O1.
    intros x Hx'. destruct (context_in x Hx') as (_ & ? & _), (context_in _ Hx) as (_ & ? & _). cbn [snd] in *. lia.
  - intros r Hr. rewrite O2 by (by apply context_not). by rewrite R1.
  - intros a Ha. rewrite W2. apply O1. intros x Hx. destruct (context_in x Hx) as (_ & ? & _). lia.
Qed.
End swtch.

(** C14: [swtch(old, new)] saves the callee-saved registers, the stack pointer and the return
    address in [old], loads those of [new], and changes nothing else; and when some hart later
    switches to [old], the thread that called [swtch] continues with its registers. *)
Theorem swtch_resumes translate m m2 : direct translate m (m_reg m a0) -> direct translate m (m_reg m a1) -> (m_reg m a0 + 112 <= m_reg m a1 \/ m_reg m a1 + 112 <= m_reg m a0) ->
  let m1 := run translate swtch m in
  (forall r off, ctx_off r = Some off -> m_reg m1 r = m_word m (m_reg m a1 + off)) /\
  (forall r, ctx_off r = None -> m_reg m1 r = m_reg m r) /\ (forall a, ~ m_reg m a0 <= a < m_reg m a0 + 112 -> m_word m1 a = m_word m a) /\
  (m_reg m2 a1 = m_reg m a0 -> direct translate m2 (m_reg m2 a0) -> direct translate m2 (m_reg m2 a1) -> (m_reg m2 a0 + 112 <= m_reg m2 a1 \/ m_reg m2 a1 + 112 <= m_reg m2 a0) ->
   (forall off, 0 <= off <= 104 -> m_word m2 (m_reg m a0 + off) = m_word m1 (m_reg m a0 + off)) ->
   forall r off, ctx_off r = Some off -> m_reg (run translate swtch m2) r = m_reg m r).
Proof.
  intros H0 H1 Hd. cbv zeta. destruct (swtch_spec translate m H0 H1 Hd) as (S1 & S2 & S3). split_and!; [intros r off Hr; by apply S1|exact S2|exact S3|].
  intros E G0 G1 Gd Hw r off Hr. destruct (swtch_spec translate m2 G0 G1 Gd) as (T1 & _ & _). rewrite (proj2 (T1 r off Hr)), E, Hw; [by apply S1|]. apply context_all, context_in in Hr as (_ & ? & _). done.
Qed.

(** A process calls [swtch] and the scheduler switches back to it. *)
Definition demo_swtch : mach := mkmach (fun r => if decide (r = a0) then 1000 else if decide (r = a1) then 2000 else tf_off r) (fun _ => 0) (fun a => a).
Definition demo_sched (m : mach) : mach := mkmach (fun r => if decide (r = a0) then 2000 else if decide (r = a1) then 1000 else 77) (m_csr m) (m_word m).

Lemma swtch_resumes_witness : m_reg (run (fun _ a => a) swtch (demo_sched (run (fun _ a => a) swtch demo_swtch))) s3 = 184 /\ m_reg (run (fun _ a => a) swtch demo_swtch) sp = 2008.
Proof.
  assert (forall s c, 0 <= c < 10000 -> direct (fun _ a => a) s c) as Hdir by (intros s c Hc off Hoff; unfold phys; apply u64_small; lia).
  destruct (swtch_resumes (fun _ a => a) demo_swtch (demo_sched (run (fun _ a => a) swtch demo_swtch))) as (H1 & _ & _ & H2);
    [apply Hdir; change (0 <= 1000 < 10000); lia|apply Hdir; change (0 <= 2000 < 10000); lia|left; change (1000 + 112 <= 2000); lia|]. split; [|rewrite (H1 sp 8 eq_refl); reflexivity].
  generalize dependent (run (fun _ a => a) swtch demo_swtch). intros m1 H1 H2.
  rewrite (fun e d0 d1 d w => H2 e d0 d1 d w s3 40 eq_refl); [reflexivity|reflexivity|apply Hdir; change (0 <= 2000 < 10000); lia|apply Hdir; change (0 <= 1000 < 10000); lia|right; change (1000 + 112 <= 2000); lia|reflexivity].
Defined.

(** * Interrupts in the kernel *)

Definition all_regs : list reg := [ra; sp; gp; tp; t0; t1; t2; s0; s1; a0; a1; a2; a3; a4; a5; a6; a7; s2; s3; s4; s5; s6; s7; s8; s9; s10; s11; t3; t4; t5; t6].
(** Where [kernelvec] keeps a register in its frame. *)
Definition kv_off (r : reg) : Z := tf_off r - 40.
Definition kframe : list (reg * Z) := (fun r => (r, kv_off r)) <$> all_regs.
(** What it loads after [ra] and [sp]: all but [tp]. *)
Definition kloads : list (reg * Z) := (fun r => (r, kv_off r)) <$> filter (fun r => r <> ra /\ r <> sp /\ r <> tp) all_regs.

Lemma kv_off_range r : 0 <= kv_off r <= 240.
Proof. unfold kv_off. destruct r; cbn; lia. Qed.
Lemma all_regs_all r : r ∈ all_regs.
Proof. apply (bool_decide_unpack _). by destruct r. Qed.
Lemma kframe_all r : (r, kv_off r) ∈ kframe.
Proof. apply list_elem_of_fmap. exists r. split; [done|apply all_regs_all]. Qed.
Lemma kloads_in x : x ∈ kloads -> x.2 = kv_off x.1 /\ x.1 <> ra /\ x.1 <> sp /\ x.1 <> tp.
Proof. intros (r & -> & Hr)%list_elem_of_fmap. apply list_elem_of_filter in Hr. naive_solver. Qed.
Lemma kloads_all r : r <> ra -> r <> sp -> r <> tp -> (r, kv_off r) ∈ kloads.
Proof. intros ???. apply list_elem_of_fmap. exists r. split; [done|]. apply list_elem_of_filter. split; [done|apply all_regs_all]. Qed.
Lemma kloads_not r : r = ra \/ r = sp \/ r = tp -> r ∉ kloads.*1.
Proof. intros Hr (x & -> & Hx)%list_elem_of_fmap. apply kloads_in in Hx. naive_solver. Qed.
Lemma kframe_nodup : NoDup kframe.*2 /\ NoDup kloads.*1.
Proof. split; apply (bool_decide_unpack _); by vm_compute. Qed.

Section kernelvec.
Context (translate : Z -> Z -> Z).
#[local] Abbreviation run := (run translate).
#[local] Abbreviation phys := (phys translate).

(** The 256 bytes below a stack pointer, which the kernel's page table maps to themselves. *)
Definition stack_ok (m : mach) (base : Z) : Prop := forall off, 0 <= off <= 240 -> phys m (base + off) = base + off.

Lemma kernelvec_save_spec m : 256 <= m_reg m sp < 2 ^ 64 -> stack_ok m (m_reg m sp - 256) -> let m1 := run kernelvec_save m in
  m_reg m1 sp = m_reg m sp - 256 /\ (forall r, r <> sp -> m_reg m1 r = m_reg m r) /\ m_csr m1 = m_csr m /\
  (forall r, m_word m1 (m_reg m sp - 256 + kv_off r) = m_reg m1 r) /\ (forall a, ~ m_reg m sp - 256 <= a < m_reg m sp -> m_word m1 a = m_word m a).
Proof.
  intros Hsp Hst. cbv zeta. change kernelvec_save with ([Addi sp sp (-256)] ++ saves sp kframe). rewrite run_app.
  assert (m_reg (run [Addi sp sp (-256)] m) sp = m_reg m sp - 256 /\ (forall r, r <> sp -> m_reg (run [Addi sp sp (-256)] m) r = m_reg m r) /\ m_csr (run [Addi sp sp (-256)] m) = m_csr m /\ m_word (run [Addi sp sp (-256)] m) = m_word m) as (A1 & A2 & A3 & A4).
  { split_and!; [|intros r Hr; cbn; by rewrite decide_False|done|done]. change (u64 (m_reg m sp + -256) = m_reg m sp - 256). rewrite u64_small by lia. lia. }
  generalize dependent (run [Addi sp sp (-256)] m). intros m0 A1 A2 A3 A4.
  destruct (run_saves translate sp (m_reg m sp - 256) kframe m0) as (R & C & W & O); [|apply kframe_nodup|].
  { intros x (r & -> & _)%list_elem_of_fmap. cbn [snd]. rewrite A1. unfold Asm.phys. rewrite A3. apply Hst, kv_off_range. }
  rewrite R, C. split_and!; [done|done|done|intros r; exact (W _ (kframe_all r))|].
  intros a Ha. rewrite <- A4. apply O. intros x (r & -> & _)%list_elem_of_fmap. cbn [snd]. pose proof (kv_off_range r). lia.
Qed.

Lemma kernelvec_restore_spec m base : m_reg m sp = base -> 0 <= base -> base + 256 < 2 ^ 64 -> stack_ok m base -> m_word m (base + 8) = base -> let m1 := run kernelvec_restore m in
  m_reg m1 sp = base + 256 /\ (forall r, r <> sp -> r <> tp -> m_reg m1 r = m_word m (base + kv_off r)) /\ m_reg m1 tp = m_reg m tp /\ m_csr m1 = m_csr m /\ m_word m1 = m_word m.
Proof.
  intros Hsp H0 Hlt Hst H8. cbv zeta. change kernelvec_restore with (loads sp [(ra, 0)] ++ [Ld sp 8 sp] ++ loads sp kloads ++ [Addi sp sp 256]). rewrite !run_app.
  assert (m_reg (run [Ld sp 8 sp] (run (loads sp [(ra, 0)]) m)) sp = base /\ m_reg (run [Ld sp 8 sp] (run (loads sp [(ra, 0)]) m)) ra = m_word m (base + 0) /\
    (forall r, r <> ra -> r <> sp -> m_reg (run [Ld sp 8 sp] (run (loads sp [(ra, 0)]) m)) r = m_reg m r) /\ m_csr (run [Ld sp 8 sp] (run (loads sp [(ra, 0)]) m)) = m_csr m /\ m_word (run [Ld sp 8 sp] (run (loads sp [(ra, 0)]) m)) = m_word m) as (A1 & A2 & A3 & A4 & A5).
  { split_and!; [| | |done|done].
    - change (m_word m (phys m (m_reg m sp + 8)) = base). rewrite Hsp, Hst by lia. done.
    - change (m_word m (phys m (m_reg m sp + 0)) = m_word m (base + 0)). rewrite Hsp, Hst by lia. done.
    - intros r Hr Hr'. cbn. by rewrite !decide_False. }
  generalize dependent (run [Ld sp 8 sp] (run (loads sp [(ra, 0)]) m)). intros m1 A1 A2 A3 A4 A5.
  destruct (run_loads translate sp base kloads m1) as (W & C & R & O); [|apply kframe_nodup|apply kloads_not; auto|].
  { intros x Hx. destruct (kloads_in x Hx) as (-> & _). rewrite A1. unfold Asm.phys. rewrite A4. apply Hst, kv_off_range. }
  generalize dependent (run (loads sp kloads) m1). intros m2 W C R O. split_and!; [| | |change (m_csr m2 = m_csr m); congruence|change (m_word m2 = m_word m); congruence].
  - change (u64 (m_reg m2 sp + 256) = base + 256). rewrite O, A1 by (apply kloads_not; auto). apply u64_small. lia.
  - intros r Hr Htp. cbn. rewrite decide_False by done. destruct (decide (r = ra)) as [->|Hra]; [rewrite O by (apply kloads_not; auto); exact A2|].
    pose proof (R _ (kloads_all r Hra Hr Htp)) as E. cbn [fst snd] in E. by rewrite E, A5.
  - change (m_reg m2 tp = m_reg m tp). rewrite O by (apply kloads_not; auto). by apply A3.
Qed.
End kernelvec.

(** An interrupt in the kernel is invisible to the code it interrupts. [kernelvec] keeps
    every register in 256 bytes below the stack pointer and writes nowhere else; when
    [kerneltrap] comes back with its stack pointer and those bytes as they were, every
    register is restored but [tp], which stays the number of the hart that runs now. *)
Lemma kernelvec_transparent translate m m2 : 256 <= m_reg m sp < 2 ^ 64 -> stack_ok translate m (m_reg m sp - 256) -> let m1 := run translate kernelvec_save m in
  m_reg m1 sp = m_reg m sp - 256 /\ (forall a, ~ m_reg m sp - 256 <= a < m_reg m sp -> m_word m1 a = m_word m a) /\
  (m_reg m2 sp = m_reg m1 sp -> stack_ok translate m2 (m_reg m2 sp) -> (forall r, m_word m2 (m_reg m2 sp + kv_off r) = m_word m1 (m_reg m2 sp + kv_off r)) ->
   let m3 := run translate kernelvec_restore m2 in (forall r, r <> tp -> m_reg m3 r = m_reg m r) /\ m_reg m3 tp = m_reg m2 tp /\ m_csr m3 = m_csr m2 /\ m_word m3 = m_word m2).
Proof.
  intros Hsp Hst. cbv zeta. destruct (kernelvec_save_spec translate m Hsp Hst) as (S1 & S2 & _ & S3 & S4). generalize dependent (run translate kernelvec_save m). intros m1 S1 S2 S3 S4.
  split_and!; [exact S1|exact S4|]. intros Hs2 Hst2 Hw. rewrite Hs2, S1 in Hst2, Hw. destruct (kernelvec_restore_spec translate m2 (m_reg m sp - 256)) as (R1 & R2 & R3 & R4 & R5); [congruence|lia|lia|exact Hst2| |].
  { change 8 with (kv_off sp). rewrite Hw, S3. exact S1. }
  split_and!; [|exact R3|exact R4|exact R5]. intros r Hr. destruct (decide (r = sp)) as [->|Hn]; [rewrite R1; lia|]. rewrite R2, Hw, S3 by done. by apply S2.
Qed.

(** [kerneltrap] returns on another hart. *)
Definition demo_kern : mach := mkmach (fun r => tf_off r + 8192) (fun _ => 0) (fun a => a).
Definition demo_trapped (m : mach) : mach := mkmach (fun r => if decide (r = sp) then m_reg m sp else 1) (m_csr m) (m_word m).

Lemma kernelvec_transparent_witness : let m3 := run (fun _ a => a) kernelvec_restore (demo_trapped (run (fun _ a => a) kernelvec_save demo_kern)) in m_reg m3 a0 = 8304 /\ m_reg m3 sp = 8240 /\ m_reg m3 tp = 1.
Proof.
  assert (forall s c, 0 <= c < 10000 -> stack_ok (fun _ a => a) s c) as Hdir by (intros s c Hc off Hoff; unfold phys; apply u64_small; lia).
  destruct (kernelvec_transparent (fun _ a => a) demo_kern (demo_trapped (run (fun _ a => a) kernelvec_save demo_kern))) as (H1 & _ & H2); [change (256 <= 8240 < 2 ^ 64); lia|apply Hdir; change (0 <= 8240 - 256 < 10000); lia|].
  cbv zeta. generalize dependent (run (fun _ a => a) kernelvec_save demo_kern). intros m1 H1 H2. destruct H2 as (R & T & _ & _); [reflexivity|apply Hdir; change (0 <= m_reg m1 sp < 10000); rewrite H1; change (0 <= 8240 - 256 < 10000); lia|intros r; reflexivity|].
  rewrite !R by discriminate. rewrite T. split_and!; reflexivity.
Defined.

(** Half way through [timervec]: the scratch area has [a1], [a2] and [a3]. *)
Record spilled (m m1 : mach) (scratch : Z) : Prop := {
  sp_a0 : m_reg m1 a0 = scratch;
  sp_a1 : m_reg m1 a1 = m_word m (scratch + 24);
  sp_a2 : m_reg m1 a2 = m_word m (scratch + 32);
  sp_regs r : r <> a0 -> r <> a1 -> r <> a2 -> m_reg m1 r = m_reg m r;
  sp_mscratch : m_csr m1 mscratch = m_reg m a0;
  sp_csr c : c <> mscratch -> m_csr m1 c = m_csr m c;
  sp_words : m_word m1 (scratch + 0) = m_reg m a1 /\ m_word m1 (scratch + 8) = m_reg m a2 /\ m_word m1 (scratch + 16) = m_reg m a3;
  sp_other a : ~ scratch <= a < scratch + 24 -> m_word m1 a = m_word m a;
}.

Lemma timervec_spills m scratch : m_csr m mscratch = scratch -> 0 <= scratch -> scratch + 40 < 2 ^ 64 ->
  spilled m (run (fun _ a => a) [Csrrw a0 mscratch a0; Sd a1 0 a0; Sd a2 8 a0; Sd a3 16 a0; Ld a1 24 a0; Ld a2 32 a0] m) scratch.
Proof.
  intros Hs H0 Hlt. set (sv := [(a1, 0); (a2, 8); (a3, 16)]). change (spilled m (run (fun _ a => a) ([Csrrw a0 mscratch a0] ++ saves a0 sv ++ loads a0 [(a1, 24); (a2, 32)]) m) scratch). rewrite !run_app.
  assert (forall s k, m_reg s a0 = scratch -> 0 <= k <= 32 -> phys (fun _ a => a) s (m_reg s a0 + k) = scratch + k) as Hu by (intros s k -> Hk; apply u64_small; lia).
  assert (m_reg (run (fun _ a => a) [Csrrw a0 mscratch a0] m) a0 = scratch /\ (forall r, r <> a0 -> m_reg (run (fun _ a => a) [Csrrw a0 mscratch a0] m) r = m_reg m r) /\ m_csr (run (fun _ a => a) [Csrrw a0 mscratch a0] m) mscratch = m_reg m a0 /\
    (forall c, c <> mscratch -> m_csr (run (fun _ a => a) [Csrrw a0 mscratch a0] m) c = m_csr m c) /\ m_word (run (fun _ a => a) [Csrrw a0 mscratch a0] m) = m_word m) as (A1 & A2 & A3 & A4 & A5).
  { split_and!; [done|intros r Hr; cbn; by rewrite decide_False|done|intros c Hc; cbn; by rewrite decide_False|done]. }
  generalize dependent (run (fun _ a => a) [Csrrw a0 mscratch a0] m). intros m1 A1 A2 A3 A4 A5.
  assert (forall x, x ∈ sv -> 0 <= x.2 <= 16) as Hsv by (intros x Hx; repeat (apply elem_of_cons in Hx as [->|Hx]; [cbn; lia|]); by apply not_elem_of_nil in Hx).
  destruct (run_saves (fun _ a => a) a0 scratch sv m1) as (R2 & C2 & W2 & O2); [intros x Hx%Hsv; apply Hu; [done|lia]|apply (bool_decide_unpack _); by vm_compute|].
  generalize dependent (run (fun _ a => a) (saves a0 sv) m1). intros m2 R2 C2 W2 O2.
  destruct (run_loads (fun _ a => a) a0 scratch [(a1, 24); (a2, 32)] m2) as (W3 & C3 & R3 & O3); [|apply (bool_decide_unpack _); by vm_compute|by apply (bool_decide_unpack _); vm_compute|].
  { intros x Hx. apply Hu; [congruence|]. repeat (apply elem_of_cons in Hx as [->|Hx]; [cbn; lia|]). by apply not_elem_of_nil in Hx. }
  assert (forall a, ~ scratch <= a < scratch + 24 -> m_word m2 a = m_word m a) as Hout by (intros a Ha; rewrite <- A5; apply O2; intros x Hx%Hsv; lia).
  generalize dependent (run (fun _ a => a) (loads a0 [(a1, 24); (a2, 32)]) m2). intros m3 W3 C3 R3 O3.
  split; rewrite ?W3, ?C3, ?C2; [| | |intros r ???|exact A3|exact A4| |exact Hout].
  - rewrite O3 by set_solver. congruence.
  - pose proof (R3 (a1, 24) ltac:(set_solver)) as E. cbn [fst snd] in E. rewrite E. apply Hout. lia.
  - pose proof (R3 (a2, 32) ltac:(set_solver)) as E. cbn [fst snd] in E. rewrite E. apply Hout. lia.
  - rewrite O3, R2 by set_solver. by apply A2.
  - rewrite <- (A2 a1), <- (A2 a2), <- (A2 a3) by done. split_and!; [apply (W2 (a1, 0))|apply (W2 (a2, 8))|apply (W2 (a3, 16))]; set_solver.
Qed.

Lemma timervec_rearms m mtimecmp : m_reg m a1 = mtimecmp -> 0 <= mtimecmp < 2 ^ 64 -> let m1 := run (fun _ a => a) [Ld a3 0 a1; Add a3 a3 a2; Sd a3 0 a1; Li a1 2; Csrw sip a1] m in
  (forall r, r <> a1 -> r <> a3 -> m_reg m1 r = m_reg m r) /\ (forall c, m_csr m1 c = if decide (c = sip) then 2 else m_csr m c) /\
  (forall a, m_word m1 a = if a =? mtimecmp then u64 (m_word m mtimecmp + m_reg m a2) else m_word m a).
Proof.
  intros H1 Hm. cbv zeta. change ([Ld a3 0 a1; Add a3 a3 a2; Sd a3 0 a1; Li a1 2; Csrw sip a1]) with (loads a1 [(a3, 0)] ++ [Add a3 a3 a2] ++ saves a1 [(a3, 0)] ++ [Li a1 2] ++ [Csrw sip a1]). rewrite !run_app.
  assert (u64 (mtimecmp + 0) = mtimecmp) as Hmt by (rewrite u64_small by lia; lia).
  split_and!; [intros r ??|intros c|intros a]; cbn; unfold phys; cbn; rewrite ?H1, ?(decide_True (P := a3 = a3)), ?(decide_False (P := a1 = a3)), ?(decide_False (P := a2 = a3)) by done; rewrite ?Hmt, ?H1, ?Hmt; [by rewrite !decide_False by done|done|done].
Qed.

(** The timer interrupt, in machine mode where addresses are physical. [timervec] advances
    this hart's MTIMECMP by the interval, raises a supervisor software interrupt, and gives back
    every register and [mscratch]; besides MTIMECMP it writes only its three scratch words. *)
Lemma timervec_spec m scratch mtimecmp : m_csr m mscratch = scratch -> 0 <= scratch -> scratch + 40 < 2 ^ 64 -> m_word m (scratch + 24) = mtimecmp -> 0 <= mtimecmp < 2 ^ 64 -> ~ scratch <= mtimecmp < scratch + 40 ->
  let m1 := run (fun _ a => a) timervec m in
  (forall r, m_reg m1 r = m_reg m r) /\ m_word m1 mtimecmp = u64 (m_word m mtimecmp + m_word m (scratch + 32)) /\
  (forall c, m_csr m1 c = if decide (c = sip) then 2 else m_csr m c) /\ (forall a, a <> mtimecmp -> ~ scratch <= a < scratch + 24 -> m_word m1 a = m_word m a).
Proof.
  intros Hs H0 Hlt Hw Hm Hout. cbv zeta. change timervec with ([Csrrw a0 mscratch a0; Sd a1 0 a0; Sd a2 8 a0; Sd a3 16 a0; Ld a1 24 a0; Ld a2 32 a0] ++
    [Ld a3 0 a1; Add a3 a3 a2; Sd a3 0 a1; Li a1 2; Csrw sip a1] ++ loads a0 [(a3, 16); (a2, 8); (a1, 0)] ++ [Csrrw a0 mscratch a0]). rewrite !run_app.
  pose proof (timervec_spills m scratch Hs H0 Hlt) as Hsp. generalize dependent (run (fun _ a => a) [Csrrw a0 mscratch a0; Sd a1 0 a0; Sd a2 8 a0; Sd a3 16 a0; Ld a1 24 a0; Ld a2 32 a0] m). intros m1 [E0 E1 E2 Er Em Ec (W0 & W8 & W16) Eo].
  rewrite Hw in E1. destruct (timervec_rearms m1 mtimecmp E1 Hm) as (F1 & F2 & F3). generalize dependent (run (fun _ a => a) [Ld a3 0 a1; Add a3 a3 a2; Sd a3 0 a1; Li a1 2; Csrw sip a1] m1). intros m2 F1 F2 F3.
  destruct (run_loads (fun _ a => a) a0 scratch [(a3, 16); (a2, 8); (a1, 0)] m2) as (W3 & C3 & R3 & O3); [|apply (bool_decide_unpack _); by vm_compute|by apply (bool_decide_unpack _); vm_compute|].
  { intros x Hx. rewrite F1, E0 by done. apply u64_small. repeat (apply elem_of_cons in Hx as [->|Hx]; [cbn; lia|]). by apply not_elem_of_nil in Hx. }
  generalize dependent (run (fun _ a => a) (loads a0 [(a3, 16); (a2, 8); (a1, 0)]) m2). intros m3 W3 C3 R3 O3. pose proof (R3 (a3, 16) ltac:(set_solver)) as R16. pose proof (R3 (a2, 8) ltac:(set_solver)) as R8. pose proof (R3 (a1, 0) ltac:(set_solver)) as R0.
  cbn [fst snd] in R16, R8, R0. rewrite F3, (proj2 (Z.eqb_neq (_ + _) mtimecmp)) in R16 by lia. rewrite F3, (proj2 (Z.eqb_neq (_ + _) mtimecmp)) in R8 by lia. rewrite F3, (proj2 (Z.eqb_neq (_ + _) mtimecmp)) in R0 by lia. split_and!.
  - intros r. cbn. rewrite C3, F2, Em, (decide_False (P := mscratch = sip)) by done. case_decide; [by subst|]. destruct (decide (r = a1)) as [->|]; [congruence|]. destruct (decide (r = a2)) as [->|]; [congruence|]. destruct (decide (r = a3)) as [->|]; [congruence|].
    rewrite O3, F1 by set_solver. by apply Er.
  - cbn. rewrite W3, F3, Z.eqb_refl, E2, Eo by lia. done.
  - intros c. cbn. rewrite O3, F1, E0, C3, F2 by set_solver. case_decide as Hc; [subst c; by rewrite decide_False|]. case_decide; [done|by apply Ec].
  - intros a Ha Hna. cbn. rewrite W3, F3, (proj2 (Z.eqb_neq _ _)) by done. by apply Eo.
Qed.

(** Each hart starts on the top of its own page of [stack0]. *)
Lemma entry_stack stack0 m : 0 <= m_csr m mhartid < 8 -> 0 <= stack0 < 2 ^ 32 -> m_reg (run (fun _ a => a) (entry stack0) m) sp = stack0 + 4096 * (m_csr m mhartid + 1).
Proof.
  intros H1 H2. cbn. rewrite ?(decide_True (P := sp = sp)), ?(decide_True (P := a0 = a0)), ?(decide_True (P := a1 = a1)), ?(decide_False (P := sp = a0)), ?(decide_False (P := sp = a1)), ?(decide_False (P := a0 = a1)), ?(decide_False (P := a1 = a0)), ?(decide_True (P := a0 = a0)) by done.
  rewrite (u64_small (m_csr m mhartid + 1)) by lia. rewrite (u64_small (_ * _)) by lia. rewrite u64_small by lia. lia.
Qed.
