(* ===== verification/Start.v ===== *)
(** kernel/start.c: from the reset of a hart to [main] in supervisor mode, with the accessors
    of the control registers in kernel/riscv.h.

    The machine is that of the assembly code. What a control register holds after a write is
    up to the implementation, within the rules of the privileged architecture for each register;
    it is a parameter here. [sie] is no register of its own but the part of [mie] that [mideleg]
    delegates. *)
From S2P Require Import Prelude Riscv Asm.

(** Where the linker puts the code and the data that [start] and kernel/entry.S name. *)
Class Boot := {
  stack0 : Z;
  timer_scratch : Z;
  main_addr : Z;
  timervec_addr : Z;
  stack0_range : KERNBASE <= stack0 < PHYSTOP;
  scratch_range : KERNBASE <= timer_scratch < PHYSTOP;
  main_even : main_addr mod 2 = 0;
  timervec_aligned : timervec_addr mod 4 = 0;
}.

(** A hart: its privilege mode (3 for machine, 1 for supervisor, 0 for user), its program
    counter where it is known, and its registers and memory. *)
Record bhart := mkbhart { h_mode : Z; h_pc : option Z; h_mach : mach }.

Section start.
Context {B : Boot} (legal : creg -> Z -> Z).

(** * kernel/riscv.h *)

Definition csrr (c : creg) (m : mach) : Z := m_csr m c.
Definition csrw (c : creg) (x : Z) (m : mach) : mach := setc c (legal c x) m.

Definition r_mhartid : mach -> Z := csrr mhartid.
Definition r_mstatus : mach -> Z := csrr mstatus.
Definition w_mstatus : Z -> mach -> mach := csrw mstatus.
Definition w_mepc : Z -> mach -> mach := csrw mepc.
Definition w_satp : Z -> mach -> mach := csrw satp.
Definition w_medeleg : Z -> mach -> mach := csrw medeleg.
Definition w_mideleg : Z -> mach -> mach := csrw mideleg.
Definition w_pmpaddr0 : Z -> mach -> mach := csrw pmpaddr0.
Definition w_pmpcfg0 : Z -> mach -> mach := csrw pmpcfg0.
Definition w_mscratch : Z -> mach -> mach := csrw mscratch.
Definition w_mtvec : Z -> mach -> mach := csrw mtvec.
Definition r_mie : mach -> Z := csrr mie.
Definition w_mie : Z -> mach -> mach := csrw mie.
Definition r_sie (m : mach) : Z := Z.land (csrr mie m) (csrr mideleg m).
Definition w_sie (x : Z) (m : mach) : mach := csrw mie (Z.lor (Z.land (csrr mie m) (Z.lnot (csrr mideleg m))) (Z.land x (csrr mideleg m))) m.
Definition w_tp (x : Z) (m : mach) : mach := setr tp x m.

(** * kernel/start.c *)

Definition timerinit (m : mach) : mach :=
  let id := s32 (r_mhartid m) in
  let interval := 1000000 in
  let m := setw (CLINT_MTIMECMP id) (u64 (m_word m CLINT_MTIME + interval)) m in
  let scratch := timer_scratch + 40 * id in
  let m := setw (scratch + 24) (CLINT_MTIMECMP id) m in
  let m := setw (scratch + 32) interval m in
  let m := w_mscratch scratch m in
  let m := w_mtvec timervec_addr m in
  let m := w_mstatus (Z.lor (r_mstatus m) MSTATUS_MIE) m in
  w_mie (Z.lor (r_mie m) MIE_MTIE) m.

(** The instruction: to the mode in MPP and the address in [mepc]; MIE becomes MPIE, and MPRV is
    cleared on the way out of machine mode. *)
Definition mret (m : mach) : bhart :=
  let x := m_csr m mstatus in
  let mode := Z.land (Z.shiftr x 11) 3 in
  let mpie := Z.land (Z.shiftr x 7) 1 in
  let x := if mode =? 3 then x else Z.land x (Z.lnot (Z.shiftl 1 17)) in
  let x := Z.lor (Z.land x (Z.lnot (Z.lor MSTATUS_MPP_MASK MSTATUS_MIE))) (Z.lor (Z.shiftl mpie 3) (Z.shiftl 1 7)) in
  mkbhart mode (Some (m_csr m mepc)) (setc mstatus x m).

Definition start (m : mach) : bhart :=
  let x := r_mstatus m in
  let x := Z.land x (Z.lnot MSTATUS_MPP_MASK) in
  let x := Z.lor x MSTATUS_MPP_S in
  let m := w_mstatus x m in
  let m := w_mepc main_addr m in
  let m := w_satp 0 m in
  let m := w_medeleg 0xffff m in
  let m := w_mideleg 0xffff m in
  let m := w_sie (Z.lor (Z.lor (Z.lor (r_sie m) SIE_SEIE) SIE_STIE) SIE_SSIE) m in
  let m := w_pmpaddr0 0x3fffffffffffff m in
  let m := w_pmpcfg0 0xf m in
  let m := timerinit m in
  let id := s32 (r_mhartid m) in
  let m := w_tp id m in
  mret m.

(** The boot of a hart, from [_entry]. *)
Definition boot (m : mach) : bhart := start (run (fun _ a => a) (entry stack0) m).
(** [n] timer interrupts, one after the other. *)
Definition ticks (n : nat) (m : mach) : mach := Nat.iter n (run (fun _ a => a) timervec) m.

(** * What the hardware promises *)

(** The bits the code relies on are implemented, the field MPP for the values that are not reserved;
    interrupts of machine mode cannot be delegated. *)
Record hardware : Prop := {
  hw_mstatus x k : Z.testbit x 11 = true \/ Z.testbit x 12 = false -> k ∈ [11; 12] -> Z.testbit (legal mstatus x) k = Z.testbit x k;
  hw_mepc x : x mod 2 = 0 -> legal mepc x = x;
  hw_satp : legal satp 0 = 0;
  hw_medeleg x k : k ∈ [8; 12; 13; 15] -> Z.testbit (legal medeleg x) k = Z.testbit x k;
  hw_mideleg x k : k ∈ [1; 5; 9] -> Z.testbit (legal mideleg x) k = Z.testbit x k;
  hw_mideleg_m x k : k ∈ [3; 7; 11] -> Z.testbit (legal mideleg x) k = false;
  hw_mie x k : k ∈ [1; 5; 7; 9] -> Z.testbit (legal mie x) k = Z.testbit x k;
  hw_pmpaddr x : 0 <= x < 2 ^ 54 -> legal pmpaddr0 x = x;
  hw_pmpcfg : legal pmpcfg0 0xf = 0xf;
  hw_mscratch x : legal mscratch x = x;
  hw_mtvec x : x mod 4 = 0 -> legal mtvec x = x;
}.

(** A hart that is ready for [main]. *)
Record ready (m : mach) (h : bhart) (id : Z) : Prop := {
  rd_mode : h_mode h = 1;
  rd_pc : h_pc h = Some main_addr;
  rd_sp : m_reg (h_mach h) sp = stack0 + 4096 * (id + 1);
  rd_tp : m_reg (h_mach h) tp = id;
  rd_satp : m_csr (h_mach h) satp = 0;
  rd_medeleg k : k ∈ [8; 12; 13; 15] -> Z.testbit (m_csr (h_mach h) medeleg) k = true;
  rd_mideleg k : k ∈ [1; 5; 9] -> Z.testbit (m_csr (h_mach h) mideleg) k = true;
  rd_mie k : k ∈ [1; 5; 7; 9] -> Z.testbit (m_csr (h_mach h) mie) k = true;
  rd_timer_machine : Z.testbit (m_csr (h_mach h) mideleg) 7 = false;
  rd_pmp : m_csr (h_mach h) pmpaddr0 = 2 ^ 54 - 1 /\ m_csr (h_mach h) pmpcfg0 = 0xf;
  rd_mtvec : m_csr (h_mach h) mtvec = timervec_addr;
  rd_mscratch : m_csr (h_mach h) mscratch = timer_scratch + 40 * id;
  rd_scratch : m_word (h_mach h) (timer_scratch + 40 * id + 24) = CLINT_MTIMECMP id /\ m_word (h_mach h) (timer_scratch + 40 * id + 32) = 1000000;
  rd_mtimecmp : m_word (h_mach h) (CLINT_MTIMECMP id) = u64 (m_word m CLINT_MTIME + 1000000);
  rd_other a : a <> CLINT_MTIMECMP id -> ~ timer_scratch + 40 * id <= a < timer_scratch + 40 * id + 40 -> m_word (h_mach h) a = m_word m a;
}.

Section proofs.
Hypothesis Hhw : hardware.

Lemma entry_only m : m_csr (run (fun _ a => a) (entry stack0) m) = m_csr m /\ m_word (run (fun _ a => a) (entry stack0) m) = m_word m.
Proof. done. Qed.

(** [start] in one step: the registers it leaves. *)
Lemma start_csr m c : c <> mstatus -> m_csr (h_mach (start m)) c =
  match c with
  | mepc => legal mepc main_addr | satp => legal satp 0 | medeleg => legal medeleg 0xffff | mideleg => legal mideleg 0xffff
  | pmpaddr0 => legal pmpaddr0 0x3fffffffffffff | pmpcfg0 => legal pmpcfg0 0xf | mtvec => legal mtvec timervec_addr
  | mscratch => legal mscratch (timer_scratch + 40 * s32 (m_csr m mhartid))
  | mie =>
      let d := legal mideleg 0xffff in
      legal mie (Z.lor (legal mie (Z.lor (Z.land (m_csr m mie) (Z.lnot d)) (Z.land (Z.lor (Z.lor (Z.lor (Z.land (m_csr m mie) d) SIE_SEIE) SIE_STIE) SIE_SSIE) d))) MIE_MTIE)
  | _ => m_csr m c
  end.
Proof. intros Hc. by destruct c. Qed.
Lemma start_regs m r : m_reg (h_mach (start m)) r = if decide (r = tp) then s32 (m_csr m mhartid) else m_reg m r.
Proof. done. Qed.
Lemma start_words m id : m_csr m mhartid = id -> 0 <= id < 8 -> forall a, m_word (h_mach (start m)) a =
  if a =? timer_scratch + 40 * id + 32 then 1000000 else if a =? timer_scratch + 40 * id + 24 then CLINT_MTIMECMP id
  else if a =? CLINT_MTIMECMP id then u64 (m_word m CLINT_MTIME + 1000000) else m_word m a.
Proof.
  intros Hm Hid a. assert (s32 (m_csr m mhartid) = id) as E by (rewrite Hm; apply s32_small; lia). rewrite <- E. done.
Qed.
Lemma start_mode m : h_mode (start m) = 1 /\ h_pc (start m) = Some (legal mepc main_addr).
Proof.
  split; [|done]. set (y := legal mstatus (Z.lor (Z.land (m_csr m mstatus) (Z.lnot MSTATUS_MPP_MASK)) MSTATUS_MPP_S)).
  change (Z.land (Z.shiftr (legal mstatus (Z.lor y MSTATUS_MIE)) 11) 3 = 1).
  assert (forall k, k ∈ [11; 12] -> Z.testbit (legal mstatus (Z.lor y MSTATUS_MIE)) k = (k =? 11)) as Hb.
  { assert (forall x, Z.testbit (Z.lor x MSTATUS_MPP_S) 11 = true) as H11 by (intros x; rewrite Z.lor_spec; by rewrite orb_true_r).
    intros k Hk. rewrite (hw_mstatus Hhw), Z.lor_spec by (done || (left; rewrite Z.lor_spec; unfold y; rewrite (hw_mstatus Hhw) by (set_solver || (left; apply H11)); by rewrite H11)).
    unfold y. rewrite (hw_mstatus Hhw), Z.lor_spec, Z.land_spec by (done || (left; apply H11)).
    repeat (apply elem_of_cons in Hk as [->|Hk]; [rewrite Z.lnot_spec by lia; cbn; by rewrite ?andb_false_r|]). by apply not_elem_of_nil in Hk. }
  generalize dependent (legal mstatus (Z.lor y MSTATUS_MIE)). intros z Hb. apply Z.bits_inj'. intros k Hk. rewrite Z.land_spec, Z.shiftr_spec by lia.
  destruct (decide (k = 0)) as [->|]; [change (0 + 11) with 11; rewrite (Hb 11) by set_solver; done|]. destruct (decide (k = 1)) as [->|]; [change (1 + 11) with 12; rewrite (Hb 12) by set_solver; done|].
  rewrite (Z.bits_above_log2 3), (Z.bits_above_log2 1) by (change (Z.log2 3) with 1; change (Z.log2 1) with 0; lia). by rewrite andb_false_r.
Qed.
Lemma start_mie m k : k ∈ [1; 5; 7; 9] -> Z.testbit (m_csr (h_mach (start m)) mie) k = true.
Proof.
  intros Hk. rewrite start_csr by done. cbv zeta. rewrite (hw_mie Hhw), Z.lor_spec, (hw_mie Hhw), Z.lor_spec, !Z.land_spec, !Z.lor_spec by done.
  pose proof (hw_mideleg Hhw 0xffff) as Hd. repeat (apply elem_of_cons in Hk as [->|Hk]; [first [rewrite Hd by set_solver|idtac]; cbn; by rewrite ?orb_true_r, ?andb_true_r, ?orb_true_r|]). by apply not_elem_of_nil in Hk.
Qed.

Lemma boot_ready m id : m_csr m mhartid = id -> 0 <= id < 8 -> ready m (boot m) id.
Proof.
  intros Hid Hr. unfold boot. destruct (entry_only m) as [Ec Ew]. assert (m_reg (run (fun _ a => a) (entry stack0) m) sp = stack0 + 4096 * (id + 1)) as Esp.
  { pose proof stack0_range. unfold PHYSTOP, KERNBASE in *. rewrite entry_stack by lia. congruence. }
  generalize dependent (run (fun _ a => a) (entry stack0) m). intros m1 Ec Ew Esp. pose proof stack0_range as H1. pose proof scratch_range as H2. unfold PHYSTOP, KERNBASE in H1, H2.
  assert (m_csr m1 mhartid = id) as Hid1 by congruence. assert (CLINT_MTIMECMP id < 0x80000000) as Hc by (unfold CLINT_MTIMECMP, CLINT; lia).
  pose proof (start_words m1 id Hid1 Hr) as W. rewrite Ew in W. destruct (start_mode m1) as [Sm Sp].
  split; rewrite ?start_regs, ?start_csr, ?W by done; rewrite ?Hid1, ?(s32_small id) by lia; repeat (rewrite (proj2 (Z.eqb_neq _ _)) by (unfold CLINT_MTIMECMP, CLINT; lia)); rewrite ?Z.eqb_refl.
  - done.
  - rewrite Sp. f_equal. apply (hw_mepc Hhw), main_even.
  - done.
  - done.
  - apply (hw_satp Hhw).
  - intros k Hk. rewrite (hw_medeleg Hhw) by done. repeat (apply elem_of_cons in Hk as [->|Hk]; [done|]). by apply not_elem_of_nil in Hk.
  - intros k Hk. rewrite (hw_mideleg Hhw) by done. repeat (apply elem_of_cons in Hk as [->|Hk]; [done|]). by apply not_elem_of_nil in Hk.
  - pose proof (start_mie m1) as Hmie. rewrite start_csr in Hmie by done. exact Hmie.
  - apply (hw_mideleg_m Hhw). set_solver.
  - split; [apply (hw_pmpaddr Hhw); lia|apply (hw_pmpcfg Hhw)].
  - apply (hw_mtvec Hhw), timervec_aligned.
  - apply (hw_mscratch Hhw).
  - done.
  - done.
  - intros a Ha Hout. rewrite W. by repeat (rewrite (proj2 (Z.eqb_neq _ _)) by lia).
Qed.
End proofs.
End start.

Lemma ticks_spec n m scratch mtimecmp interval : m_csr m mscratch = scratch -> 0 <= scratch -> scratch + 40 < 2 ^ 64 -> m_word m (scratch + 24) = mtimecmp -> m_word m (scratch + 32) = interval ->
  0 <= mtimecmp < 2 ^ 64 -> ~ scratch <= mtimecmp < scratch + 40 ->
  m_csr (ticks n m) mscratch = scratch /\ m_word (ticks n m) (scratch + 24) = mtimecmp /\ m_word (ticks n m) (scratch + 32) = interval /\
  (forall r, m_reg (ticks n m) r = m_reg m r) /\ (n <> O -> m_word (ticks n m) mtimecmp = u64 (m_word m mtimecmp + Z.of_nat n * interval)) /\
  (forall a, a <> mtimecmp -> ~ scratch <= a < scratch + 24 -> m_word (ticks n m) a = m_word m a).
Proof.
  intros Hs H0 Hlt H24 H32 Hm Hout. induction n as [|n (I1 & I2 & I3 & I4 & I5 & I6)]; [by split_and!|]. change (ticks (S n) m) with (run (fun _ a => a) timervec (ticks n m)).
  destruct (timervec_spec (ticks n m) scratch mtimecmp I1 H0 Hlt I2 Hm Hout) as (R & W & C & O). generalize dependent (run (fun _ a => a) timervec (ticks n m)). intros m1 R W C O. split_and!.
  - by rewrite C.
  - by rewrite O by lia.
  - by rewrite O by lia.
  - intros r. by rewrite R.
  - intros _. rewrite W, I3. destruct n as [|n]; [f_equal; change (ticks 0 m) with m; lia|]. rewrite I5 by done. unfold u64. rewrite Zplus_mod_idemp_l. f_equal. lia.
  - intros a Ha Hna. by rewrite O, I6.
Qed.

(** C15: The boot of a hart. From [_entry] in machine mode, on any of the eight harts and from
    any contents of its registers, the hart arrives at [main] in supervisor mode with its own
    stack, its number in [tp], paging off, all of physical memory open to it, and the system
    calls, page faults and supervisor interrupts it handles delegated to it; the machine-mode
    timer is armed, and every one of the following timer interrupts keeps the registers of the
    code it interrupts and asks for the next one an interval later. No memory changes besides
    this hart's MTIMECMP and scratch area. *)
Theorem boot_correct `{Boot} legal m id n : hardware legal -> m_csr m mhartid = id -> 0 <= id < 8 ->
  let h := boot legal m in ready m h id /\
  (forall r, m_reg (ticks n (h_mach h)) r = m_reg (h_mach h) r) /\
  m_word (ticks n (h_mach h)) (CLINT_MTIMECMP id) = u64 (m_word m CLINT_MTIME + (Z.of_nat n + 1) * 1000000) /\
  (forall a, a <> CLINT_MTIMECMP id -> ~ timer_scratch + 40 * id <= a < timer_scratch + 40 * id + 40 -> m_word (ticks n (h_mach h)) a = m_word m a).
Proof.
  intros Hhw Hid Hr. cbv zeta. pose proof (boot_ready legal Hhw m id Hid Hr) as Hrd. split; [exact Hrd|]. destruct Hrd as [_ _ _ _ _ _ _ _ _ _ _ Hms (H24 & H32) Hmt Ho].
  generalize dependent (h_mach (boot legal m)). intros m1 Hms H24 H32 Hmt Ho. pose proof scratch_range as Hsr. unfold PHYSTOP, KERNBASE in Hsr.
  assert (0 <= CLINT_MTIMECMP id < 0x80000000) as Hc by (unfold CLINT_MTIMECMP, CLINT; lia).
  destruct (ticks_spec n m1 (timer_scratch + 40 * id) (CLINT_MTIMECMP id) 1000000 Hms ltac:(lia) ltac:(lia) H24 H32 ltac:(lia) ltac:(lia)) as (_ & _ & _ & T1 & T2 & T3).
  split_and!; [exact T1| |intros a Ha Hna; rewrite T3 by lia; by apply Ho].
  destruct n as [|n]; [rewrite (Hmt : m_word (ticks 0 m1) _ = _); f_equal; lia|]. rewrite T2, Hmt by done. unfold u64. rewrite Zplus_mod_idemp_l. f_equal. lia.
Qed.

(** A hart number 3 of a machine that implements every bit but the machine-level ones of
    [mideleg]. *)
#[export] Program Instance demo_boot : Boot := {| stack0 := 0x80009000; timer_scratch := 0x80019000; main_addr := 0x80001000; timervec_addr := 0x80005000 |}.
Solve Obligations with (unfold PHYSTOP, KERNBASE; (lia || done)).
Definition demo_legal (c : creg) (x : Z) : Z := if decide (c = mideleg) then Z.land x 0x222 else x.
Definition demo_reset : mach := mkmach (fun _ => 0) (fun c => if decide (c = mhartid) then 3 else 0) (fun _ => 500).

Lemma boot_correct_witness : let h := boot demo_legal demo_reset in h_mode h = 1 /\ m_reg (h_mach h) sp = 0x8000d000 /\ m_word (ticks 2 (h_mach h)) 0x2004018 = 3000500.
Proof.
  destruct (boot_correct demo_legal demo_reset 3 2) as ([Hm _ Hs _ _ _ _ _ _ _ _ _ _ _ _] & _ & Ht & _); [|done|lia|split_and!; [exact Hm|exact Hs|exact Ht]].
  split; try done; intros x k Hk; unfold demo_legal; rewrite decide_True by done; rewrite Z.land_spec.
  - repeat (apply elem_of_cons in Hk as [->|Hk]; [cbn; by rewrite andb_true_r|]). by apply not_elem_of_nil in Hk.
  - repeat (apply elem_of_cons in Hk as [->|Hk]; [cbn; by rewrite andb_false_r|]). by apply not_elem_of_nil in Hk.
Defined.
