(* ===== verification/Kalloc.v ===== *)
(** The physical page allocator, kernel/kalloc.c.

    [kmem] is the global of that name together with the physical memory the free list is
    threaded through: the first word of a free page holds the address of the next one. *)
From S2P Require Import Prelude Memory Riscv.

Record kmem := mkkmem { kmem_mem : mem; freelist : Z }.

Definition set_mem (m : mem) (s : kmem) : kmem := mkkmem m (freelist s).
Definition set_freelist (r : Z) (s : kmem) : kmem := mkkmem (kmem_mem s) r.
(** A store to physical memory. *)
Definition upd_mem (f : mem -> mem) : M kmem unit := modify (fun s => set_mem (f (kmem_mem s)) s).

Section kalloc.
Context `{Layout}.

Definition kfree (pa : Z) : M kmem unit :=
  if negb (pa mod PGSIZE =? 0) || (pa <? kend) || (pa >=? PHYSTOP) then panic "kfree"
  else
    upd_mem (fun m => memset m pa 1 PGSIZE) ;;
    acquire LKmem ;;
    next <- gets freelist ;;
    upd_mem (fun m => store64 m pa next) ;;
    modify (set_freelist pa) ;;
    release LKmem.

Definition kalloc : M kmem Z :=
  acquire LKmem ;;
  r <- gets freelist ;;
  (if negb (r =? 0)
   then next <- gets (fun s => load64 (kmem_mem s) r) ;; modify (set_freelist next)
   else ret tt) ;;
  release LKmem ;;
  (if negb (r =? 0) then upd_mem (fun m => memset m r 5 PGSIZE) else ret tt) ;;
  ret r.

Definition freerange (pa_start pa_end : Z) : M kmem unit :=
  loop (S (Z.to_nat ((pa_end - pa_start) / PGSIZE + 1)))
    (fun p => if p + PGSIZE <=? pa_end then kfree p ;; ret (inl (p + PGSIZE)) else ret (inr tt))
    (PGROUNDUP pa_start).

Definition kinit : M kmem unit :=
  initlock LKmem ;;
  freerange kend PHYSTOP.

(** * The free list *)

(** The pages the allocator manages. *)
Definition page_ok (p : Z) : Prop := kend <= p < PHYSTOP /\ p mod PGSIZE = 0.

Fixpoint flist (m : mem) (p : Z) (l : list Z) : Prop :=
  match l with
  | [] => p = 0
  | q :: l' => p = q /\ flist m (load64 m q) l'
  end.

(** [l] is the free list of [s]: well linked, without repetition, of allocatable pages. *)
Definition kmem_inv (s : kmem) (l : list Z) : Prop :=
  flist (kmem_mem s) (freelist s) l /\ NoDup l /\ Forall page_ok l.

(** No byte outside the page [p] differs. *)
Definition outside_page (p : Z) (m m' : mem) : Prop :=
  forall b, ~ (p <= b < p + PGSIZE) -> load8 m' b = load8 m b.

Lemma page_ok_pos p : page_ok p -> KERNBASE < p < PHYSTOP.
Proof. intros [? _]. pose proof etext_range. lia. Qed.

Lemma page_ok_pa p : page_ok p -> pa_ok p.
Proof.
  intros Hp. pose proof (page_ok_pos _ Hp). destruct Hp as [_ ?]. split; [|done].
  rewrite PHYSTOP_val in *. unfold KERNBASE in *. lia.
Qed.

Lemma aligned_apart p q : p mod PGSIZE = 0 -> q mod PGSIZE = 0 -> p <> q ->
  p + PGSIZE <= q \/ q + PGSIZE <= p.
Proof. unfold PGSIZE. intros. dlia. Qed.

Lemma pages_apart p q : page_ok p -> page_ok q -> p <> q -> p + PGSIZE <= q \/ q + PGSIZE <= p.
Proof. intros [_ ?] [_ ?]. by apply aligned_apart. Qed.

Lemma load64_outside p q m m' :
  outside_page p m m' -> q + 8 <= p \/ p + PGSIZE <= q -> load64 m' q = load64 m q.
Proof. intros Ho ?. apply load64_ext. intros b ?. apply Ho. unfold PGSIZE in *. lia. Qed.

Lemma flist_frame m m' p l x :
  outside_page x m m' -> page_ok x -> x ∉ l -> Forall page_ok l -> flist m p l -> flist m' p l.
Proof.
  intros Ho Hx. revert p. induction l as [|q l IH]; intros p Hn Hl; simpl; [done|].
  apply not_elem_of_cons in Hn as [Hne Hn]. inversion Hl; subst. intros [-> Hf].
  split; [done|]. rewrite (load64_outside x q m m' Ho); [by apply IH|].
  destruct (pages_apart x q); try done; unfold PGSIZE in *; lia.
Qed.

(** The list survives any change confined to a page that is not on it. *)
Lemma kmem_inv_frame s s' l x :
  kmem_inv s l -> page_ok x -> x ∉ l -> freelist s' = freelist s ->
  outside_page x (kmem_mem s) (kmem_mem s') -> kmem_inv s' l.
Proof.
  intros (Hf & Hd & Hok) Hx Hn He Ho. split_and!; [|done|done].
  rewrite He. by eapply flist_frame.
Qed.

Lemma kmem_inv_set_mem s l x m' :
  kmem_inv s l -> page_ok x -> x ∉ l -> outside_page x (kmem_mem s) m' ->
  kmem_inv (set_mem m' s) l.
Proof. intros. by eapply kmem_inv_frame. Qed.

Lemma flist_nil_iff s l : kmem_inv s l -> freelist s = 0 <-> l = [].
Proof.
  intros (Hf & _ & Hok). destruct l as [|p l]; simpl in *; [done|].
  destruct Hf as [-> _]. apply Forall_inv, page_ok_pos in Hok. unfold KERNBASE in *.
  split; [lia|done].
Qed.

Lemma outside_page_trans p m1 m2 m3 :
  outside_page p m1 m2 -> outside_page p m2 m3 -> outside_page p m1 m3.
Proof. intros H1 H2 b ?. rewrite H2, H1; done. Qed.

Lemma outside_page_memset p m c : outside_page p m (memset m p c PGSIZE).
Proof. intros b ?. rewrite load8_memset by (unfold PGSIZE; lia). by rewrite decide_False. Qed.

Lemma outside_page_store64 p m a v : p <= a -> a + 8 <= p + PGSIZE -> outside_page p m (store64 m a v).
Proof. intros ?? b ?. apply load8_store64. lia. Qed.

Lemma wp_kfree pa c s l (Q : cpu -> kmem -> unit -> Prop) :
  LKmem ∉ held c -> kmem_inv s l -> page_ok pa -> pa ∉ l ->
  (forall s', kmem_inv s' (pa :: l) -> outside_page pa (kmem_mem s) (kmem_mem s') -> Q c s' tt) ->
  wp (kfree pa) c s Q.
Proof.
  intros Hc Hinv Hpa Hn HQ. unfold kfree. destruct (Hpa) as [[??] Hal].
  rewrite Hal. zcases. unfold upd_mem. wp_steps.
  rewrite set_held_back by done.
  assert (outside_page pa (kmem_mem s) (store64 (memset (kmem_mem s) pa 1 PGSIZE) pa (freelist s))) as Ho.
  { eapply outside_page_trans; [apply outside_page_memset|].
    apply outside_page_store64; unfold PGSIZE; lia. }
  apply HQ; [|exact Ho]. destruct Hinv as (Hf & Hd & Hok). split_and!; simpl.
  - split; [done|]. rewrite load64_store64.
    + by eapply flist_frame.
    + destruct l as [|q l]; simpl in Hf; [lia|]. destruct Hf as [-> _].
      apply Forall_inv in Hok. pose proof (page_ok_pos q Hok).
      rewrite PHYSTOP_val in *. unfold KERNBASE in *. lia.
  - by constructor.
  - by constructor.
Qed.

(** What [kalloc] returns from a state whose free list is [l]: the head page, filled with
    junk (byte 5), or 0 and nothing changed when there is none. *)
Definition kalloc_post (s : kmem) (l : list Z) (s' : kmem) (r : Z) : Prop :=
  match l with
  | [] => r = 0 /\ s' = s
  | p :: l' => r = p /\ kmem_inv s' l' /\ outside_page p (kmem_mem s) (kmem_mem s') /\
               forall b, p <= b < p + PGSIZE -> load8 (kmem_mem s') b = 5
  end.

Lemma wp_kalloc c s l (Q : cpu -> kmem -> Z -> Prop) :
  LKmem ∉ held c -> kmem_inv s l ->
  (forall s' r, kalloc_post s l s' r -> Q c s' r) -> wp kalloc c s Q.
Proof.
  intros Hc Hinv HQ. unfold kalloc. wp_steps.
  destruct (flist_nil_iff s l Hinv) as [Hnil Hnil']. destruct l as [|p l].
  - rewrite Hnil' by done. simpl. wp_steps. rewrite set_held_back by done.
    by apply HQ.
  - destruct Hinv as ([Hp Hf] & Hd & Hok). apply NoDup_cons in Hd as [??].
    apply Forall_cons in Hok as [??]. subst p.
    destruct (Z.eqb_spec (freelist s) 0) as [E|E]; [by apply Hnil in E|]. simpl.
    wp_steps. unfold upd_mem. wp_steps. simpl. rewrite set_held_back by done. apply HQ.
    split_and!; [done|split_and!; simpl; [|done|done]| |].
    + eapply flist_frame; [apply outside_page_memset| | | |]; done.
    + apply outside_page_memset.
    + intros b ?. simpl. rewrite load8_memset by (unfold PGSIZE; lia). by rewrite decide_True.
Qed.

(** * Initialisation *)

Fixpoint pages_from (p : Z) (n : nat) : list Z :=
  match n with O => [] | S k => p :: pages_from (p + PGSIZE) k end.

Lemma elem_of_pages_from p n q :
  q ∈ pages_from p n <-> exists i, 0 <= i < Z.of_nat n /\ q = p + i * PGSIZE.
Proof.
  revert p. induction n as [|n IH]; intros p; simpl.
  - split; [by intros ?%not_elem_of_nil|]. intros (i & ? & _). lia.
  - rewrite elem_of_cons, IH. split.
    + intros [->|(i & ? & ->)]; [exists 0; lia|]. exists (i + 1). lia.
    + intros (i & ? & ->). destruct (decide (i = 0)) as [->|]; [left; lia|].
      right. exists (i - 1). lia.
Qed.

Lemma freerange_loop pa_end n p fuel c s l (Q : cpu -> kmem -> unit -> Prop) :
  LKmem ∉ held c -> kmem_inv s l -> (n < fuel)%nat ->
  kend <= p -> p mod PGSIZE = 0 -> pa_end <= PHYSTOP ->
  p + Z.of_nat n * PGSIZE <= pa_end < p + (Z.of_nat n + 1) * PGSIZE ->
  (forall q, q ∈ l -> q < p) ->
  (forall s', kmem_inv s' (reverse (pages_from p n) ++ l) -> Q c s' tt) ->
  wp (loop fuel (fun p => if p + PGSIZE <=? pa_end then kfree p ;; ret (inl (p + PGSIZE))
                          else ret (inr tt)) p) c s Q.
Proof.
  intros Hc. revert p s l fuel.
  induction n as [|n IH]; intros p s l fuel Hinv Hfuel Hp Hal Hend Hn Hlt HQ;
    (destruct fuel as [|fuel]; [lia|]); simpl loop; wp_step.
  - destruct (Z.leb_spec (p + PGSIZE) pa_end); [lia|]. wp_steps. by apply HQ.
  - destruct (Z.leb_spec (p + PGSIZE) pa_end); [|unfold PGSIZE in *; lia]. wp_step.
    assert (page_ok p) by (split; [unfold PGSIZE in *; lia|done]).
    eapply wp_kfree; [done|exact Hinv|done| |].
    { intros Hin. specialize (Hlt p Hin). lia. }
    intros s' Hinv' _. wp_steps. apply (IH _ _ (p :: l)); try done; try lia.
    + unfold PGSIZE in *. dlia.
    + intros q [->|?%Hlt]%elem_of_cons; unfold PGSIZE; lia.
    + intros s'' Hinv''. apply HQ. simpl. rewrite reverse_cons, <- app_assoc. done.
Qed.

Definition npages : nat := Z.to_nat ((PHYSTOP - PGROUNDUP kend) / PGSIZE).
Definition all_pages : list Z := reverse (pages_from (PGROUNDUP kend) npages).

Lemma kend_bounds : KERNBASE < kend < PHYSTOP.
Proof. pose proof etext_range. pose proof kend_range. unfold PGSIZE in *. lia. Qed.

Lemma PGROUNDUP_kend : PGROUNDUP kend = (kend + 4095) / 4096 * 4096.
Proof.
  pose proof kend_bounds. rewrite PHYSTOP_val in *. unfold KERNBASE in *.
  apply PGROUNDUP_eq. lia.
Qed.

Lemma elem_of_all_pages p : p ∈ all_pages <-> page_ok p.
Proof.
  unfold all_pages, npages, page_ok. rewrite elem_of_reverse, elem_of_pages_from.
  pose proof kend_bounds as Hk. rewrite PGROUNDUP_kend. rewrite PHYSTOP_val in *.
  unfold PGSIZE, KERNBASE in *. split.
  - intros (i & Hi & ->). rewrite Z2Nat.id in Hi by dlia.
    split; [dlia|]. rewrite <- Z.mul_add_distr_r. apply Z.mod_mul. lia.
  - intros [? Hm]. exists ((p - (kend + 4095) / 4096 * 4096) / 4096).
    rewrite Z2Nat.id by dlia. split; dlia.
Qed.

Lemma wp_kinit c s (Q : cpu -> kmem -> unit -> Prop) :
  LKmem ∉ held c -> freelist s = 0 ->
  (forall s', kmem_inv s' all_pages -> Q c s' tt) -> wp kinit c s Q.
Proof.
  intros Hc Hs HQ. unfold kinit. wp_steps. rewrite set_held_id by done. unfold freerange.
  pose proof kend_bounds as Hk. pose proof PGROUNDUP_kend as Hr. unfold KERNBASE in *.
  assert (0 <= PHYSTOP - PGROUNDUP kend) by (rewrite PHYSTOP_val in *; dlia).
  eapply (freerange_loop _ npages _ _ c s []); try done.
  - split_and!; [done|constructor|constructor].
  - unfold npages, PGSIZE. rewrite Hr, PHYSTOP_val in *. dlia.
  - rewrite Hr. dlia.
  - rewrite Hr. unfold PGSIZE. dlia.
  - unfold npages, PGSIZE in *. rewrite Z2Nat.id by dlia. dlia.
  - intros q ?%not_elem_of_nil. done.
  - intros s'. rewrite app_nil_r. apply HQ.
Qed.

Lemma all_pages_cons : exists p l, all_pages = p :: l.
Proof.
  assert (PHYSTOP - PGSIZE ∈ all_pages) as Hin.
  { apply elem_of_all_pages. pose proof kend_range. split; [|done].
    pose proof kend_bounds. rewrite PHYSTOP_val in *. unfold PGSIZE in *. lia. }
  destruct all_pages as [|p l]; [by apply not_elem_of_nil in Hin|eauto].
Qed.

(** * Clients of the allocator

    Any interleaving of allocations, frees of owned pages and arbitrary writes into
    owned pages, by threads on any CPU that does not already hold the allocator's lock.
    A state carries the pages its clients own. *)

Inductive alloc_step : kmem * list Z -> kmem * list Z -> Prop :=
| step_kalloc c s s' owned r :
    LKmem ∉ held c -> kalloc c s = Ret c s' r -> r <> 0 ->
    alloc_step (s, owned) (s', r :: owned)
| step_kalloc_fail c s s' owned :
    LKmem ∉ held c -> kalloc c s = Ret c s' 0 -> alloc_step (s, owned) (s', owned)
| step_kfree c s s' owned p rest :
    LKmem ∉ held c -> owned ≡ₚ p :: rest -> kfree p c s = Ret c s' tt ->
    alloc_step (s, owned) (s', rest)
| step_write s owned p m' :
    p ∈ owned -> outside_page p (kmem_mem s) m' -> alloc_step (s, owned) (set_mem m' s, owned).

(** Every allocatable page is on the free list or owned, and in one place only. *)
Definition alloc_inv (st : kmem * list Z) : Prop :=
  exists l, kmem_inv st.1 l /\ (l ++ st.2) ≡ₚ all_pages.

Lemma NoDup_pages_from p n : NoDup (pages_from p n).
Proof.
  revert p. induction n as [|n IH]; intros p; simpl; constructor; [|done].
  rewrite elem_of_pages_from. intros (i & ? & ?). unfold PGSIZE in *. lia.
Qed.

Lemma NoDup_all_pages : NoDup all_pages.
Proof. unfold all_pages. rewrite reverse_Permutation. apply NoDup_pages_from. Qed.

Lemma alloc_inv_owned l owned p :
  l ++ owned ≡ₚ all_pages -> p ∈ owned -> page_ok p /\ p ∉ l.
Proof.
  intros Hp Hin. split.
  - apply elem_of_all_pages. rewrite <- Hp. set_solver.
  - pose proof NoDup_all_pages as Hd. rewrite <- Hp in Hd.
    apply NoDup_app in Hd as (_ & Hd & _). intros Hl. by apply (Hd p).
Qed.

Lemma alloc_step_inv st st' : alloc_step st st' -> alloc_inv st -> alloc_inv st'.
Proof.
  intros Hstep (l & Hinv & Hperm). destruct Hstep as [c s s' owned r Hc Hk Hr
    |c s s' owned Hc Hk|c s s' owned p rest Hc Ho Hk|s owned p m' Hin Hout]; simpl in *.
  - assert (wp kalloc c s (fun _ s' r => kalloc_post s l s' r)) as Hw by (eapply wp_kalloc; eauto).
    unfold wp in Hw. rewrite Hk in Hw. destruct l as [|q l]; simpl in Hw; [by destruct Hw|].
    destruct Hw as (-> & ? & _). exists l. split; [done|]. simpl. rewrite <- Hperm. simpl.
    by rewrite Permutation_middle.
  - assert (wp kalloc c s (fun _ s' r => kalloc_post s l s' r)) as Hw by (eapply wp_kalloc; eauto).
    unfold wp in Hw. rewrite Hk in Hw. destruct l as [|q l]; simpl in Hw.
    + destruct Hw as [_ ->]. by exists [].
    + destruct Hw as (<- & _). destruct Hinv as (_ & _ & Hok).
      apply Forall_inv, page_ok_pos in Hok. unfold KERNBASE in *. lia.
  - destruct (alloc_inv_owned l owned p Hperm) as [Hpo Hpn]; [rewrite Ho; set_solver|].
    assert (wp (kfree p) c s (fun _ s' _ => kmem_inv s' (p :: l))) as Hw by (eapply wp_kfree; eauto).
    unfold wp in Hw. rewrite Hk in Hw. exists (p :: l). split; [done|]. simpl.
    rewrite <- Hperm, Ho. by rewrite Permutation_middle.
  - destruct (alloc_inv_owned l owned p Hperm Hin) as [Hpo Hpn]. exists l. split; [|done].
    by eapply kmem_inv_frame.
Qed.

(** The allocator after boot: [kinit] ran from the zeroed [kmem], nothing is owned. *)
Definition booted (st : kmem * list Z) : Prop :=
  exists c s, (LKmem ∉ held c) /\ freelist s = 0 /\ kinit c s = Ret c (st.1) tt /\ st.2 = [].

Lemma booted_inv st : booted st -> alloc_inv st.
Proof.
  destruct st as [s' o]. intros (c & s & Hc & Hs & Hk & Ho). simpl in *. subst o.
  assert (wp kinit c s (fun _ s' _ => kmem_inv s' all_pages)) as Hw by (eapply wp_kinit; eauto).
  unfold wp in Hw. rewrite Hk in Hw. exists all_pages. simpl. by rewrite app_nil_r.
Qed.

Lemma reachable_inv st st' : booted st -> rtc alloc_step st st' -> alloc_inv st'.
Proof.
  intros Hb%booted_inv. induction 1; [done|]. eauto using alloc_step_inv.
Qed.

(** One allocation after boot. *)
Lemma alloc_once c s0 :
  LKmem ∉ held c -> freelist s0 = 0 -> exists st s r, booted st /\ rtc alloc_step st (s, [r]).
Proof.
  intros Hc Hs0.
  assert (wp kinit c s0 (fun c' s' _ => c' = c /\ kmem_inv s' all_pages)) as Hw
    by (eapply wp_kinit; eauto).
  apply wp_unfold in Hw as (? & s & [] & Hk & -> & Hinv).
  destruct all_pages_cons as (p & l & Hl).
  assert (wp kalloc c s (fun c' s' r => c' = c /\ kalloc_post s all_pages s' r)) as Hw
    by (eapply wp_kalloc; eauto).
  apply wp_unfold in Hw as (? & s' & r & Hk' & -> & Hp). rewrite Hl in Hp.
  destruct Hp as (-> & _). exists (s, []), s', p. split.
  - exists c, s0. by split_and!.
  - apply rtc_once. eapply step_kalloc; [done|exact Hk'|].
    assert (page_ok p) as Hpo by (apply elem_of_all_pages; rewrite Hl; set_solver).
    apply page_ok_pos in Hpo. unfold KERNBASE in *. lia.
Qed.

(** * Properties *)

(** [kinit] run on the zeroed allocator returns (it does not panic, and its loop ends)
    with a well-formed free list holding exactly the page-aligned addresses from [end] to
    [PHYSTOP], each once. *)
Lemma kinit_correct c s :
  LKmem ∉ held c -> freelist s = 0 ->
  exists s' l, kinit c s = Ret c s' tt /\ kmem_inv s' l /\ forall p, p ∈ l <-> page_ok p.
Proof.
  intros Hc Hs.
  assert (wp kinit c s (fun c' s' _ => c' = c /\ kmem_inv s' all_pages)) as Hw
    by (eapply wp_kinit; eauto).
  apply wp_unfold in Hw as (c' & s' & [] & Hk & -> & Hinv). exists s', all_pages.
  split_and!; [done|done|]. apply elem_of_all_pages.
Qed.

(** C6 Whatever the clients do after boot, no page is lost or handed out twice: the free
    list and the owned pages together are exactly the allocatable pages, without
    repetition; [kalloc] returns 0 only when every page is owned and otherwise a page
    nobody owns, and [kfree] of an owned page does not panic. *)
Theorem kalloc_exclusive st s owned c :
  booted st -> rtc alloc_step st (s, owned) -> LKmem ∉ held c ->
  exists l, kmem_inv s l /\ l ++ owned ≡ₚ all_pages /\ NoDup (l ++ owned) /\
    (exists s' r, kalloc c s = Ret c s' r /\
       (r = 0 /\ owned ≡ₚ all_pages \/ page_ok r /\ r ∉ owned)) /\
    (forall p, p ∈ owned -> exists s', kfree p c s = Ret c s' tt /\ kmem_inv s' (p :: l)).
Proof.
  intros Hb Hr Hc. destruct (reachable_inv _ _ Hb Hr) as (l & Hinv & Hperm). simpl in *.
  assert (NoDup (l ++ owned)) as Hd by (rewrite Hperm; apply NoDup_all_pages).
  exists l. split_and!; try done.
  - assert (wp kalloc c s (fun c' s' r => c' = c /\ kalloc_post s l s' r)) as Hw
      by (eapply wp_kalloc; eauto).
    apply wp_unfold in Hw as (? & s' & r & Hk & -> & Hp). exists s', r. split; [done|].
    destruct l as [|q l]; simpl in Hp; [left; naive_solver|right].
    destruct Hp as (-> & _). apply NoDup_app in Hd as (_ & Hd & _).
    split; [|apply Hd; set_solver]. destruct Hinv as (_ & _ & Hok). by inversion Hok.
  - intros p Hin. destruct (alloc_inv_owned l owned p Hperm Hin) as [Hpo Hpn].
    assert (wp (kfree p) c s (fun c' s' _ => c' = c /\ kmem_inv s' (p :: l))) as Hw
      by (eapply wp_kfree; eauto).
    apply wp_unfold in Hw as (c' & s' & [] & Hk & -> & Hp). eauto.
Qed.

(** [kfree] of an address that is not page-aligned, or outside [end .. PHYSTOP), panics
    and changes nothing. *)
Lemma kfree_rejects pa c s : ~ page_ok pa -> kfree pa c s = Panic "kfree".
Proof.
  intros Hn. unfold kfree, page_ok in *.
  destruct (Z.eqb_spec (pa mod PGSIZE) 0); zcases; simpl; try done; naive_solver lia.
Qed.
End kalloc.

(** * Witnesses *)

Definition cpu0 : cpu := mkcpu [] 1 0 [] 0 [].
Definition kmem0 : kmem := mkkmem (fun _ => 0) 0.

Lemma cpu0_unlocked lk : lk ∉ held cpu0.
Proof. apply not_elem_of_nil. Qed.

Lemma kinit_correct_witness :
  exists s' l, kinit cpu0 kmem0 = Ret cpu0 s' tt /\ kmem_inv s' l /\ forall p, p ∈ l <-> page_ok p.
Proof. apply (kinit_correct cpu0 kmem0); [apply not_elem_of_nil|reflexivity]. Defined.

Lemma kalloc_exclusive_witness :
  exists st s r, booted st /\ rtc alloc_step st (s, [r]) /\
    exists l, kmem_inv s l /\ l ++ [r] ≡ₚ all_pages /\ NoDup (l ++ [r]).
Proof.
  destruct (alloc_once cpu0 kmem0 (cpu0_unlocked _) eq_refl) as (st & s & r & Hb & Hr). exists st, s, r. split_and!; [done|done|].
  destruct (kalloc_exclusive st s [r] cpu0 Hb Hr (cpu0_unlocked _)) as (l & H1 & H2 & H3 & _).
  exists l. auto.
Defined.

Lemma kfree_rejects_witness : kfree 0x80022008 cpu0 kmem0 = Panic "kfree".
Proof. apply (kfree_rejects 0x80022008 cpu0 kmem0). intros [_ Ha]. by vm_compute in Ha. Defined.
