(* ===== verification/Vm.v ===== *)
(** Page tables and user memory, kernel/vm.c (and [proc_mapstacks] of kernel/proc.c, which
    [kvmmake] calls).

    The functions act on the allocator's state [kmem]: page-table pages live in physical
    memory and come from [kalloc]. A pointer is an address, a null pointer is 0, an [int]
    result is 0 or -1. Kernel buffers outside physical memory (the [src] of [copyout], the
    [dst] of [copyin]) are byte lists. *)
From S2P Require Import Prelude Memory Riscv Kalloc.

Definition load_pte (a : Z) : M kmem Z := gets (fun s => load64 (kmem_mem s) a).
Definition store_pte (a v : Z) : M kmem unit := upd_mem (fun m => store64 m a v).

Section vm.
Context `{Layout}.

Definition walk (pagetable va : Z) (alloc : bool) : M kmem Z :=
  if va >=? MAXVA then panic "walk" else
  loop 3 (fun st : Z * Z => let '(level, pagetable) := st in
    if level >? 0 then
      let ptea := pagetable + 8 * PX level va in
      pte <- load_pte ptea ;;
      if tst pte PTE_V then ret (inl (level - 1, PTE2PA pte))
      else if negb alloc then ret (inr 0)
      else
        pg <- kalloc ;;
        if pg =? 0 then ret (inr 0)
        else
          upd_mem (fun m => memset m pg 0 PGSIZE) ;;
          store_pte ptea (Z.lor (PA2PTE pg) PTE_V) ;;
          ret (inl (level - 1, pg))
    else ret (inr (pagetable + 8 * PX 0 va)))
  (2, pagetable).

Definition walkaddr (pagetable va : Z) : M kmem Z :=
  if va >=? MAXVA then ret 0 else
  ptea <- walk pagetable va false ;;
  if ptea =? 0 then ret 0 else
  pte <- load_pte ptea ;;
  if negb (tst pte PTE_V) then ret 0
  else if negb (tst pte PTE_U) then ret 0
  else ret (PTE2PA pte).

Definition mappages (pagetable va size pa perm : Z) : M kmem Z :=
  if negb (va mod PGSIZE =? 0) then panic "mappages: va not aligned" else
  if negb (size mod PGSIZE =? 0) then panic "mappages: size not aligned" else
  if size =? 0 then panic "mappages: size" else
  let last := u64 (va + size - PGSIZE) in
  loop (Z.to_nat (size / PGSIZE)) (fun st : Z * Z => let '(a, pa) := st in
    ptea <- walk pagetable a true ;;
    if ptea =? 0 then ret (inr (-1)) else
    pte <- load_pte ptea ;;
    if tst pte PTE_V then panic "mappages: remap" else
    store_pte ptea (Z.lor (Z.lor (PA2PTE pa) perm) PTE_V) ;;
    if a =? last then ret (inr 0)
    else ret (inl (u64 (a + PGSIZE), u64 (pa + PGSIZE))))
  (va, pa).

Definition kvmmap (kpgtbl va pa sz perm : Z) : M kmem unit :=
  r <- mappages kpgtbl va sz pa perm ;;
  if negb (r =? 0) then panic "kvmmap" else ret tt.

Definition uvmunmap (pagetable va npages : Z) (do_free : bool) : M kmem unit :=
  if negb (va mod PGSIZE =? 0) then panic "uvmunmap: not aligned" else
  loop (S (Z.to_nat npages)) (fun a =>
    if a <? u64 (va + npages * PGSIZE) then
      ptea <- walk pagetable a false ;;
      if ptea =? 0 then panic "uvmunmap: walk" else
      pte <- load_pte ptea ;;
      if negb (tst pte PTE_V) then panic "uvmunmap: not mapped" else
      if PTE_FLAGS pte =? PTE_V then panic "uvmunmap: not a leaf" else
      (if do_free then kfree (PTE2PA pte) else ret tt) ;;
      store_pte ptea 0 ;;
      ret (inl (u64 (a + PGSIZE)))
    else ret (inr tt))
  va.

Definition uvmcreate : M kmem Z :=
  pagetable <- kalloc ;;
  if pagetable =? 0 then ret 0 else
  upd_mem (fun m => memset m pagetable 0 PGSIZE) ;;
  ret pagetable.

Definition uvmfirst (pagetable : Z) (src : list Z) (sz : Z) : M kmem unit :=
  if sz >=? PGSIZE then panic "uvmfirst: more than a page" else
  pg <- kalloc ;;
  upd_mem (fun m => memset m pg 0 PGSIZE) ;;
  mappages pagetable 0 PGSIZE pg (Z.lor (Z.lor (Z.lor PTE_W PTE_R) PTE_X) PTE_U) ;;
  upd_mem (fun m => store_bytes m pg (take (Z.to_nat sz) src)).

Definition uvmdealloc (pagetable oldsz newsz : Z) : M kmem Z :=
  if newsz >=? oldsz then ret oldsz else
  (if PGROUNDUP newsz <? PGROUNDUP oldsz then
     let npages := s32 ((PGROUNDUP oldsz - PGROUNDUP newsz) / PGSIZE) in
     uvmunmap pagetable (PGROUNDUP newsz) (u64 npages) true
   else ret tt) ;;
  ret newsz.

Definition uvmalloc (pagetable oldsz newsz xperm : Z) : M kmem Z :=
  if newsz <? oldsz then ret oldsz else
  let oldsz := PGROUNDUP oldsz in
  loop (S (Z.to_nat ((newsz - oldsz) / PGSIZE + 1))) (fun a =>
    if a <? newsz then
      pg <- kalloc ;;
      if pg =? 0 then uvmdealloc pagetable a oldsz ;; ret (inr 0) else
      upd_mem (fun m => memset m pg 0 PGSIZE) ;;
      r <- mappages pagetable a PGSIZE pg (Z.lor (Z.lor PTE_R PTE_U) xperm) ;;
      if negb (r =? 0) then kfree pg ;; uvmdealloc pagetable a oldsz ;; ret (inr 0)
      else ret (inl (u64 (a + PGSIZE)))
    else ret (inr newsz))
  oldsz.

(** The recursion goes one level down the three-level tree at each call. *)
Fixpoint freewalk_rec (depth : nat) (pagetable : Z) : M kmem unit :=
  match depth with
  | O => diverge
  | S depth' =>
      loop 513 (fun i =>
        if i <? 512 then
          pte <- load_pte (pagetable + 8 * i) ;;
          if tst pte PTE_V && (Z.land pte (Z.lor (Z.lor PTE_R PTE_W) PTE_X) =? 0) then
            freewalk_rec depth' (PTE2PA pte) ;;
            store_pte (pagetable + 8 * i) 0 ;;
            ret (inl (i + 1))
          else if tst pte PTE_V then panic "freewalk: leaf"
          else ret (inl (i + 1))
        else ret (inr tt)) 0 ;;
      kfree pagetable
  end.
Definition freewalk (pagetable : Z) : M kmem unit := freewalk_rec 3 pagetable.

Definition uvmfree (pagetable sz : Z) : M kmem unit :=
  (if sz >? 0 then uvmunmap pagetable 0 (PGROUNDUP sz / PGSIZE) true else ret tt) ;;
  freewalk pagetable.

Definition uvmcopy (old new sz : Z) : M kmem Z :=
  let err i := uvmunmap new 0 (i / PGSIZE) true ;; ret (inr (-1)) in
  loop (S (Z.to_nat (sz / PGSIZE + 1))) (fun i =>
    if i <? sz then
      ptea <- walk old i false ;;
      if ptea =? 0 then panic "uvmcopy: pte should exist" else
      pte <- load_pte ptea ;;
      if negb (tst pte PTE_V) then panic "uvmcopy: page not present" else
      let pa := PTE2PA pte in
      let flags := PTE_FLAGS pte in
      pg <- kalloc ;;
      if pg =? 0 then err i else
      upd_mem (fun m => memmove m pg pa PGSIZE) ;;
      r <- mappages new i PGSIZE pg flags ;;
      if negb (r =? 0) then kfree pg ;; err i
      else ret (inl (u64 (i + PGSIZE)))
    else ret (inr 0))
  0.

Definition uvmclear (pagetable va : Z) : M kmem unit :=
  ptea <- walk pagetable va false ;;
  if ptea =? 0 then panic "uvmclear" else
  pte <- load_pte ptea ;;
  store_pte ptea (Z.land pte (Z.lnot PTE_U)).

Definition copyout (pagetable dstva : Z) (src : list Z) (len : Z) : M kmem Z :=
  loop (S (Z.to_nat len)) (fun st : Z * list Z * Z => let '(dstva, src, len) := st in
    if len >? 0 then
      let va0 := PGROUNDDOWN dstva in
      if va0 >=? MAXVA then ret (inr (-1)) else
      ptea <- walk pagetable va0 false ;;
      if ptea =? 0 then ret (inr (-1)) else
      pte <- load_pte ptea ;;
      if negb (tst pte PTE_V) || negb (tst pte PTE_U) || negb (tst pte PTE_W)
      then ret (inr (-1)) else
      let pa0 := PTE2PA pte in
      let n := PGSIZE - (dstva - va0) in
      let n := if n >? len then len else n in
      upd_mem (fun m => store_bytes m (pa0 + (dstva - va0)) (take (Z.to_nat n) src)) ;;
      ret (inl (u64 (va0 + PGSIZE), drop (Z.to_nat n) src, len - n))
    else ret (inr 0))
  (dstva, src, len).

(** The result pairs the return value with the bytes written to [dst]. *)
Definition copyin (pagetable srcva len : Z) : M kmem (Z * list Z) :=
  loop (S (Z.to_nat len)) (fun st : Z * list Z * Z => let '(srcva, dst, len) := st in
    if len >? 0 then
      let va0 := PGROUNDDOWN srcva in
      pa0 <- walkaddr pagetable va0 ;;
      if pa0 =? 0 then ret (inr (-1, dst)) else
      let n := PGSIZE - (srcva - va0) in
      let n := if n >? len then len else n in
      bytes <- gets (fun s => load_bytes (kmem_mem s) (pa0 + (srcva - va0)) (Z.to_nat n)) ;;
      ret (inl (u64 (va0 + PGSIZE), dst ++ bytes, len - n))
    else ret (inr (0, dst)))
  (srcva, [], len).

(** The inner loop of [copyinstr] over one page: copy until a NUL or [n] bytes. *)
Fixpoint copyinstr_page (m : mem) (p : Z) (n : nat) (max : Z) (dst : list Z)
    : bool * list Z * Z :=
  match n with
  | O => (false, dst, max)
  | S k => if load8 m p =? 0 then (true, dst ++ [0], max)
           else copyinstr_page m (p + 1) k (max - 1) (dst ++ [load8 m p])
  end.

Definition copyinstr (pagetable srcva max : Z) : M kmem (Z * list Z) :=
  loop (S (Z.to_nat max)) (fun st : bool * Z * list Z * Z =>
    let '(got_null, srcva, dst, max) := st in
    if negb got_null && (max >? 0) then
      let va0 := PGROUNDDOWN srcva in
      pa0 <- walkaddr pagetable va0 ;;
      if pa0 =? 0 then ret (inr (-1, dst)) else
      let n := PGSIZE - (srcva - va0) in
      let n := if n >? max then max else n in
      r <- gets (fun s =>
        copyinstr_page (kmem_mem s) (pa0 + (srcva - va0)) (Z.to_nat n) max dst) ;;
      let '(got_null, dst, max) := r in
      ret (inl (got_null, u64 (va0 + PGSIZE), dst, max))
    else ret (inr (if got_null then 0 else -1, dst)))
  (false, srcva, [], max).

(** * The kernel page table *)

Definition NPROC : Z := 64.

Definition proc_mapstacks (kpgtbl : Z) : M kmem unit :=
  loop (S (Z.to_nat NPROC)) (fun p =>
    if p <? NPROC then
      pa <- kalloc ;;
      if pa =? 0 then panic "kalloc" else
      kvmmap kpgtbl (KSTACK p) pa PGSIZE (Z.lor PTE_R PTE_W) ;;
      ret (inl (p + 1))
    else ret (inr tt)) 0.

Definition kvmmake : M kmem Z :=
  kpgtbl <- kalloc ;;
  upd_mem (fun m => memset m kpgtbl 0 PGSIZE) ;;
  kvmmap kpgtbl UART0 UART0 PGSIZE (Z.lor PTE_R PTE_W) ;;
  kvmmap kpgtbl VIRTIO0 VIRTIO0 PGSIZE (Z.lor PTE_R PTE_W) ;;
  kvmmap kpgtbl PLIC PLIC 0x400000 (Z.lor PTE_R PTE_W) ;;
  kvmmap kpgtbl KERNBASE KERNBASE (etext - KERNBASE) (Z.lor PTE_R PTE_X) ;;
  kvmmap kpgtbl etext etext (PHYSTOP - etext) (Z.lor PTE_R PTE_W) ;;
  kvmmap kpgtbl TRAMPOLINE trampoline PGSIZE (Z.lor PTE_R PTE_X) ;;
  proc_mapstacks kpgtbl ;;
  ret kpgtbl.
End vm.

(** * The model runs: map a page, look it up, unmap it *)

Definition demo_state : kmem :=
  mkkmem (store64 (store64 (store64 (fun _ => 0) 0x87fff000 0x87ffe000) 0x87ffe000 0x87ffd000)
            0x87ffd000 0x87ffc000) 0x87fff000.

Example map_then_lookup :
  result_of ((pt <- uvmcreate ;;
    r <- mappages pt 0x5000 PGSIZE 0x80030000 (Z.lor PTE_R PTE_U) ;;
    a <- walkaddr pt 0x5000 ;; b <- walkaddr pt 0x6000 ;;
    uvmunmap pt 0x5000 1 false ;;
    a' <- walkaddr pt 0x5000 ;;
    ret (r, a, b, a')) cpu0 demo_state) = Some (0, 0x80030000, 0, 0).
Proof. vm_compute. reflexivity. Qed.
