(* ===== verification/VmTree.v ===== *)
(** Page tables as trees: the representation relation between an Sv39 page table in
    memory and its tree of page-table pages, and the specification of [walk] over it.

    A tree is a finite map from paths (the indices chosen from the root) to page
    addresses; paths have length 0 (root), 1 and 2 (the tables that hold leaf entries). *)
From S2P Require Import Prelude Memory Riscv Kalloc Vm.

#[global] Arguments PX : simpl never.
#[global] Arguments PTE2PA : simpl never.
#[global] Arguments mkpte : simpl never.
#[global] Arguments tst : simpl never.
#[global] Arguments load64 : simpl never.
#[global] Arguments store64 : simpl never.
#[global] Arguments memset : simpl never.
#[global] Opaque memset memmove load64 store64.

Section tree.
Context `{Layout}.

Record pt_rep (m : mem) (root : Z) (N : gmap (list Z) Z) : Prop := {
  rep_root : N !! [] = Some root;
  rep_page p x : N !! p = Some x -> page_ok x;
  rep_inj p q x : N !! p = Some x -> N !! q = Some x -> p = q;
  rep_len p x : N !! p = Some x -> (length p <= 2)%nat;
  rep_up p i x : N !! (p ++ [i]) = Some x -> 0 <= i < 512 /\ is_Some (N !! p);
  rep_low i x : N !! [i] = Some x -> i < 256;
  rep_child p x i : N !! p = Some x -> (length p < 2)%nat -> 0 <= i < 512 ->
    load64 m (x + 8 * i) = match N !! (p ++ [i]) with Some y => mkpte y 0 | None => 0 end;
}.

(** The address of the leaf entry for [va], when the tables leading to it exist. *)
Definition leaf_addr (N : gmap (list Z) Z) (va : Z) : option Z :=
  (fun x => x + 8 * PX 0 va) <$> N !! [PX 2 va; PX 1 va].

(** The leaf entry for [va]; 0 (invalid) when there is no table for it. *)
Definition view (m : mem) (N : gmap (list Z) Z) (va : Z) : Z :=
  match leaf_addr N va with Some a => load64 m a | None => 0 end.

(** The table's pages are allocated: none is on the free list. *)
Definition vm_inv (s : kmem) (l : list Z) (root : Z) (N : gmap (list Z) Z) : Prop :=
  kmem_inv s l /\ pt_rep (kmem_mem s) root N /\ forall p x, N !! p = Some x -> x ∉ l.

Definition in_nodes (N : gmap (list Z) Z) (b : Z) : Prop :=
  exists p x, N !! p = Some x /\ x <= b < x + PGSIZE.

(** Only bytes of the table's own pages differ. *)
Definition pt_frame (N : gmap (list Z) Z) (m m' : mem) : Prop :=
  forall b, ~ in_nodes N b -> load8 m' b = load8 m b.

(** The pages a table is made of. *)
Definition node_pages (N : gmap (list Z) Z) : list Z := (map_to_list N).*2.

Lemma elem_of_node_pages N x : x ∈ node_pages N <-> exists p, N !! p = Some x.
Proof.
  unfold node_pages. rewrite list_elem_of_fmap. split.
  - intros ([p y] & -> & Hp%elem_of_map_to_list). eauto.
  - intros (p & Hp). exists (p, x). split; [done|]. by apply elem_of_map_to_list.
Qed.

Lemma node_pages_insert N p x :
  N !! p = None -> node_pages (<[p := x]> N) ≡ₚ x :: node_pages N.
Proof. intros Hn. unfold node_pages. by rewrite map_to_list_insert. Qed.

(** What building part of a table does: the table grows by pages taken off the front of
    the free list, and only its own pages change. *)
Record vm_ext (root : Z) (s : kmem) (l : list Z) (N : gmap (list Z) Z)
    (s' : kmem) (l' : list Z) (N' : gmap (list Z) Z) : Prop := {
  ext_inv : vm_inv s' l' root N';
  ext_sub : N ⊆ N';
  ext_frame : pt_frame N' (kmem_mem s) (kmem_mem s');
  ext_new p x : N' !! p = Some x -> N !! p = Some x \/ x ∈ l;
  ext_free : l' `suffix_of` l;
  ext_perm : l ++ node_pages N ≡ₚ l' ++ node_pages N';
}.

Lemma vm_ext_refl root s l N : vm_inv s l root N -> vm_ext root s l N s l N.
Proof. intros Hi. split; auto; done. Qed.

Lemma in_nodes_mono N N' b : N ⊆ N' -> in_nodes N b -> in_nodes N' b.
Proof. intros Hs (p & x & Hp & ?). exists p, x. split; [by eapply lookup_weaken|done]. Qed.

Lemma vm_ext_trans root s1 l1 N1 s2 l2 N2 s3 l3 N3 :
  vm_ext root s1 l1 N1 s2 l2 N2 -> vm_ext root s2 l2 N2 s3 l3 N3 ->
  vm_ext root s1 l1 N1 s3 l3 N3.
Proof.
  intros [Hi1 Hs1 Hf1 Hn1 Hl1 Hm1] [Hi2 Hs2 Hf2 Hn2 Hl2 Hm2]. split; try done.
  - by etrans.
  - intros b Hb. rewrite Hf2, Hf1; [done| |done]. eauto using in_nodes_mono.
  - intros p x Hp. destruct (Hn2 p x Hp) as [Hp2|Hin]; [by apply Hn1|right].
    destruct Hl1 as [k ->]. set_solver.
  - by etrans.
  - by rewrite Hm1.
Qed.

Lemma node_apart m root N p q x y :
  pt_rep m root N -> N !! p = Some x -> N !! q = Some y -> p <> q ->
  x + PGSIZE <= y \/ y + PGSIZE <= x.
Proof.
  intros Hr Hp Hq Hne. apply pages_apart; [by eapply rep_page..|].
  intros ->. apply Hne. by eapply rep_inj.
Qed.

Lemma mkpte_node y : page_ok y ->
  tst (mkpte y 0) PTE_V = true /\ PTE2PA (mkpte y 0) = y.
Proof.
  intros Hy%page_ok_pa. split; [by apply tst_mkpte_V|by apply PTE2PA_mkpte].
Qed.

Lemma node_addr_pos m root N p x i :
  pt_rep m root N -> N !! p = Some x -> 0 <= i -> x + 8 * i <> 0.
Proof.
  intros Hr Hp Hi. apply (rep_page _ _ _ Hr), page_ok_pos in Hp. unfold KERNBASE in *. lia.
Qed.

Lemma leaf_addr_pos m root N va a : pt_rep m root N -> leaf_addr N va = Some a -> a <> 0.
Proof.
  unfold leaf_addr. intros Hr Ha. apply fmap_Some in Ha as (x & Hx & ->).
  eapply node_addr_pos; [done..|]. apply PX_range. lia.
Qed.

Lemma leaf_addr_none m root N va :
  pt_rep m root N -> N !! [PX 2 va] = None -> leaf_addr N va = None.
Proof.
  unfold leaf_addr. intros Hr Hn. destruct (N !! [PX 2 va; PX 1 va]) eqn:E; [|done].
  change [PX 2 va; PX 1 va] with ([PX 2 va] ++ [PX 1 va]) in E.
  apply (rep_up _ _ _ Hr) in E as [_ [y ?]]. congruence.
Qed.

(** ** [walk] without allocation reads the tree and changes nothing *)

Ltac walk_level Hrep Hp :=
  rewrite (rep_child _ _ _ Hrep _ _ _ Hp) by (simpl; first [lia | apply PX_range; lia]); simpl app.
(** Enter the next iteration of the loop of [walk]. *)
Ltac walk_next :=
  cbn [loop]; try wp_step; cbv beta iota zeta;
  change (2 - 1) with 1; change (1 - 1) with 0;
  change (2 >? 0) with true; change (1 >? 0) with true; change (0 >? 0) with false;
  cbv beta iota zeta; unfold load_pte, store_pte, upd_mem; wp_steps.

Lemma wp_walk_ro root N va c s (Q : cpu -> kmem -> Z -> Prop) :
  pt_rep (kmem_mem s) root N -> 0 <= va < MAXVA ->
  Q c s (default 0 (leaf_addr N va)) -> wp (walk root va false) c s Q.
Proof.
  intros Hrep Hva HQ. unfold walk. zcases. walk_next.
  pose proof (rep_root _ _ _ Hrep) as Hroot. walk_level Hrep Hroot.
  destruct (N !! [PX 2 va]) as [x1|] eqn:E1.
  - destruct (mkpte_node x1) as [-> ->]; [by eapply rep_page|]. wp_steps. walk_next.
    walk_level Hrep E1. unfold leaf_addr in HQ.
    destruct (N !! [PX 2 va; PX 1 va]) as [x0|] eqn:E0.
    + destruct (mkpte_node x0) as [-> ->]; [by eapply rep_page|]. wp_steps. by walk_next.
    + rewrite tst_0. by wp_steps.
  - rewrite tst_0. wp_steps. by rewrite (leaf_addr_none _ _ _ _ Hrep E1) in HQ.
Qed.

(** ** Adding a zeroed table page below an existing one *)

(** The store of the parent entry and the zeroing of the new page. *)
Definition node_mem (m : mem) (pg a : Z) : mem := store64 (memset m pg 0 PGSIZE) a (mkpte pg 0).

Section alloc_node.
Context (s s1 : kmem) (pg : Z) (l : list Z) (root : Z) (N : gmap (list Z) Z).
Context (p : list Z) (x i : Z).
Hypothesis Hinv : vm_inv s (pg :: l) root N.
Hypothesis Hp : N !! p = Some x.
Hypothesis Hlen : (length p < 2)%nat.
Hypothesis Hi : 0 <= i < 512.
Hypothesis Hlow : p = [] -> i < 256.
Hypothesis Hnone : N !! (p ++ [i]) = None.
(** [s1] is the state after [kalloc] returned [pg]. *)
Hypothesis Hk : kmem_inv s1 l.
Hypothesis Hout : outside_page pg (kmem_mem s) (kmem_mem s1).

Let m := kmem_mem s.
Let m' := node_mem (kmem_mem s1) pg (x + 8 * i).
Let N' := <[p ++ [i] := pg]> N.

Lemma an_pg : page_ok pg /\ forall q y, N !! q = Some y -> y <> pg /\ y ∉ l.
Proof.
  destruct Hinv as ((_ & _ & Hok) & Hr & Hd). split; [by inversion Hok|].
  intros q y Hq. specialize (Hd q y Hq). set_solver.
Qed.

Lemma an_x : page_ok x.
Proof. destruct Hinv as (_ & Hr & _). by eapply rep_page. Qed.

Lemma an_pg_range : 0 <= mkpte pg 0 < 18446744073709551616.
Proof. destruct an_pg as [Hpg _]. apply mkpte_range; [by apply page_ok_pa|lia]. Qed.

Lemma an_same b : ~ (pg <= b < pg + PGSIZE) -> ~ (x + 8 * i <= b < x + 8 * i + 8) ->
  load8 m' b = load8 m b.
Proof.
  intros. unfold m', node_mem. rewrite load8_store64 by done.
  rewrite load8_memset by (unfold PGSIZE; lia). rewrite decide_False by done. by apply Hout.
Qed.

Lemma an_load64 a : a + 8 <= pg \/ pg + PGSIZE <= a ->
  a + 8 <= x + 8 * i \/ x + 8 * i + 8 <= a -> load64 m' a = load64 m a.
Proof. intros. apply load64_ext. intros b ?. apply an_same; unfold PGSIZE in *; lia. Qed.

(** A word of another page of the table is unchanged. *)
Lemma an_other q y j : N !! q = Some y -> 0 <= j < 512 -> q <> p \/ j <> i ->
  load64 m' (y + 8 * j) = load64 m (y + 8 * j).
Proof.
  intros Hq Hj Hne. destruct an_pg as [Hpg Hd]. destruct (Hd q y Hq) as [Hy _].
  destruct Hinv as (_ & Hr & _). pose proof (rep_page _ _ _ Hr q y Hq) as Hyok.
  apply an_load64.
  - destruct (pages_apart y pg Hyok Hpg Hy); unfold PGSIZE in *; lia.
  - destruct (decide (q = p)) as [->|Hqp].
    + rewrite Hp in Hq. injection Hq as <-. naive_solver lia.
    + pose proof (node_apart _ _ _ q p y x Hr Hq Hp Hqp). unfold PGSIZE in *. lia.
Qed.

Lemma an_zero j : 0 <= j < 512 -> load64 m' (pg + 8 * j) = 0.
Proof.
  intros Hj. destruct an_pg as [Hpg Hd]. destruct (Hd p x Hp) as [Hx _].
  unfold m', node_mem. rewrite load64_store64_ne.
  - apply load64_memset_zero; unfold PGSIZE; lia.
  - pose proof an_x. destruct (pages_apart x pg); try done; unfold PGSIZE in *; lia.
Qed.

Lemma an_rep : pt_rep m' root N'.
Proof.
  destruct an_pg as [Hpg Hd]. destruct Hinv as (_ & Hr & _). unfold N'. split.
  - rewrite lookup_insert_ne by (destruct p; done). apply Hr.
  - intros q y. rewrite lookup_insert_Some. intros [[_ <-]|[_ Hq]]; [done|by eapply rep_page].
  - intros q1 q2 y. rewrite !lookup_insert_Some.
    intros [[<- <-]|[? Hq1]] [[<- He]|[? Hq2]]; try done.
    + by destruct (Hd _ _ Hq2).
    + subst. by destruct (Hd _ _ Hq1).
    + by eapply rep_inj.
  - intros q y. rewrite lookup_insert_Some. intros [[<- _]|[_ Hq]]; [|by eapply rep_len].
    rewrite length_app. simpl. lia.
  - intros q j y. rewrite lookup_insert_Some. intros [[He _]|[_ Hq]].
    + apply app_inj_tail in He as [<- <-]. split; [done|].
      rewrite lookup_insert_ne by (intros He%(f_equal length); rewrite length_app in He; simpl in He; lia).
      eauto.
    + apply (rep_up _ _ _ Hr) in Hq as [? Hq]. split; [done|]. by apply lookup_insert_is_Some'; right.
  - intros j y. rewrite lookup_insert_Some. intros [[He _]|[_ Hq]]; [|by eapply rep_low].
    apply (app_inj_tail p [] i j) in He as [-> <-]. by apply Hlow.
  - intros q y j. rewrite lookup_insert_Some. intros [[<- <-]|[Hne Hq]] Hl Hj.
    + rewrite an_zero by done.
      rewrite lookup_insert_ne by (intros He%(f_equal length); rewrite !length_app in He; simpl in He; lia).
      destruct (N !! ((p ++ [i]) ++ [j])) eqn:E; [|done].
      apply (rep_up _ _ _ Hr) in E as [_ [? ?]]. congruence.
    + destruct (decide (q = p /\ j = i)) as [[-> ->]|Hqj].
      * rewrite Hp in Hq. injection Hq as <-. rewrite lookup_insert_eq.
        unfold m', node_mem. apply load64_store64, an_pg_range.
      * rewrite (an_other q y j Hq Hj) by (destruct (decide (q = p)); naive_solver).
        rewrite lookup_insert_ne; [by apply (rep_child _ _ _ Hr)|].
        intros He%app_inj_tail. naive_solver.
Qed.

Lemma an_view va : view m' N' va = view m N va.
Proof.
  destruct an_pg as [Hpg Hd]. destruct Hinv as (_ & Hr & _).
  unfold view, leaf_addr, N'. rewrite lookup_insert. case_decide as He.
  - rewrite <- He, Hnone. simpl. apply an_zero, PX_range. lia.
  - destruct (N !! [PX 2 va; PX 1 va]) as [y|] eqn:E; [|done]. simpl.
    apply (an_other [PX 2 va; PX 1 va]); [done|apply PX_range; lia|].
    left. intros <-. simpl in Hlen. lia.
Qed.

Lemma an_ext : vm_ext root s (pg :: l) N (set_mem m' s1) l N'.
Proof.
  destruct an_pg as [Hpg Hd]. pose proof an_x as Hx. destruct (Hd p x Hp) as [Hxpg Hxl].
  assert (pg ∉ l) as Hpgl.
  { destruct Hinv as ((_ & Hnd & _) & _). by inversion Hnd. }
  assert (kmem_inv (set_mem m' s1) l) as Hk'.
  { change (kmem_inv (set_mem m' (set_mem (memset (kmem_mem s1) pg 0 PGSIZE) s1)) l).
    eapply kmem_inv_set_mem; [|exact Hx|exact Hxl|].
    - eapply kmem_inv_set_mem; [exact Hk|exact Hpg|exact Hpgl|]. apply outside_page_memset.
    - apply outside_page_store64; unfold PGSIZE; lia. }
  split; simpl.
  - split_and!; [done|apply an_rep|]. intros q y. unfold N'. rewrite lookup_insert_Some.
    intros [[_ <-]|[_ Hq]]; [done|]. by apply (Hd q).
  - by apply insert_subseteq.
  - intros b Hb. apply an_same; intros Hr; apply Hb.
    + exists (p ++ [i]), pg. unfold N'. by rewrite lookup_insert_eq.
    + exists p, x. unfold N'. rewrite lookup_insert_ne.
      * split; [done|]. unfold PGSIZE. lia.
      * intros He%(f_equal length). rewrite length_app in He. simpl in He. lia.
  - intros q y. unfold N'. rewrite lookup_insert_Some. intros [[_ <-]|[_ Hq]]; [right; set_solver|auto].
  - by apply suffix_cons_r.
  - unfold N'. rewrite node_pages_insert by done. by rewrite <- Permutation_middle.
Qed.
End alloc_node.

(** ** [walk] with allocation *)

Lemma vm_ext_lookup root s l N s' l' N' p x :
  vm_ext root s l N s' l' N' -> N !! p = Some x -> N' !! p = Some x.
Proof. intros He Hp. eapply lookup_weaken; [exact Hp|apply He]. Qed.

(** One level of the loop: follow the entry, or create the next table. *)
Lemma wp_walk_level root s l N p x i (level : Z) c (Q : cpu -> kmem -> (Z * Z) + Z -> Prop) :
  vm_inv s l root N -> N !! p = Some x -> (length p < 2)%nat -> 0 <= i < 512 ->
  (p = [] -> i < 256) -> LKmem ∉ held c ->
  (forall s' l' N' y, vm_ext root s l N s' l' N' ->
     (forall va, view (kmem_mem s') N' va = view (kmem_mem s) N va) ->
     N' !! (p ++ [i]) = Some y -> Q c s' (inl (level - 1, y))) ->
  (l = [] -> Q c s (inr 0)) ->
  wp (pte <- load_pte (x + 8 * i) ;;
      if tst pte PTE_V then ret (inl (level - 1, PTE2PA pte))
      else if negb true then ret (inr 0)
      else pg <- kalloc ;;
           if pg =? 0 then ret (inr 0)
           else upd_mem (fun m => memset m pg 0 PGSIZE) ;;
                store_pte (x + 8 * i) (Z.lor (PA2PTE pg) PTE_V) ;;
                ret (inl (level - 1, pg))) c s Q.
Proof.
  intros Hinv Hp Hlen Hi Hlow Hc HQ Hoom. destruct (Hinv) as (Hk & Hr & Hd).
  unfold load_pte. wp_steps. rewrite (rep_child _ _ _ Hr _ _ _ Hp) by done.
  destruct (N !! (p ++ [i])) as [y|] eqn:E.
  - destruct (mkpte_node y) as [-> ->]; [by eapply rep_page|]. wp_steps.
    eapply HQ; [by apply vm_ext_refl|done|done].
  - rewrite tst_0. simpl negb. cbv iota. wp_step. eapply wp_kalloc; [done|done|].
    intros s1 r Hpost. destruct l as [|pg l]; simpl in Hpost.
    + destruct Hpost as [-> ->]. simpl. wp_steps. by apply Hoom.
    + destruct Hpost as (-> & Hk1 & Hout & _).
      assert (page_ok pg) as Hpg by (destruct Hk as (_ & _ & Hok); by inversion Hok).
      apply page_ok_pos in Hpg. unfold KERNBASE in Hpg.
      destruct (Z.eqb_spec pg 0); [lia|]. unfold store_pte, upd_mem. wp_steps.
      rewrite <- (Z.lor_0_r (PA2PTE pg)). fold (mkpte pg 0).
      change (Q c (set_mem (node_mem (kmem_mem s1) pg (x + 8 * i)) s1) (inl (level - 1, pg))).
      eapply (HQ _ l (<[p ++ [i] := pg]> N)); [| |by apply lookup_insert_eq].
      * by apply an_ext.
      * intros va. by eapply an_view.
Qed.

Lemma wp_walk_alloc root s l N va c (Q : cpu -> kmem -> Z -> Prop) :
  vm_inv s l root N -> 0 <= va < MAXVA -> LKmem ∉ held c ->
  (forall s' l' N' r, vm_ext root s l N s' l' N' ->
     (forall va', view (kmem_mem s') N' va' = view (kmem_mem s) N va') ->
     (r = 0 /\ l' = [] \/ leaf_addr N' va = Some r /\ r <> 0) -> Q c s' r) ->
  wp (walk root va true) c s Q.
Proof.
  intros Hinv Hva Hc HQ. unfold walk. zcases.
  assert (N !! [] = Some root) as Hroot by (destruct Hinv as (_ & Hr & _); apply Hr).
  cbn [loop]. wp_step. change (2 >? 0) with true. cbv beta iota zeta.
  eapply (wp_walk_level root s l N [] root); [done|done|simpl; lia|apply PX_range; lia|by intros _; apply PX2_low|done| |].
  2: { intros ->. wp_steps. apply (HQ s [] N); [by apply vm_ext_refl|done|auto]. }
  intros s1 l1 N1 y He1 Hv1 Hy. simpl app in Hy.
  wp_step. change (2 - 1) with 1. change (1 >? 0) with true. cbv beta iota zeta.
  eapply (wp_walk_level root s1 l1 N1 [PX 2 va] y);
    [apply He1|done|simpl; lia|apply PX_range; lia|done|done| |].
  2: { intros ->. wp_steps. apply (HQ s1 [] N1); [done|done|auto]. }
  intros s2 l2 N2 z He2 Hv2 Hz. simpl app in Hz. change (1 - 1) with 0.
  wp_step. change (0 >? 0) with false. cbv beta iota zeta. wp_steps.
  pose proof (vm_ext_trans _ _ _ _ _ _ _ _ _ _ He1 He2) as He.
  apply (HQ s2 l2 N2); [done|intros va'; by rewrite Hv2, Hv1|right].
  assert (leaf_addr N2 va = Some (z + 8 * PX 0 va)) as Hl by (unfold leaf_addr; by rewrite Hz).
  split; [done|]. eapply leaf_addr_pos; [|done]. apply He.
Qed.

(** ** Writing a leaf entry *)

Lemma leaf_addr_page N va va' : va / 4096 = va' / 4096 -> leaf_addr N va = leaf_addr N va'.
Proof.
  intros He. unfold leaf_addr.
  rewrite (PX_page 0 va va'), (PX_page 1 va va'), (PX_page 2 va va'); done || lia.
Qed.

Lemma view_page m N va va' : va / 4096 = va' / 4096 -> view m N va = view m N va'.
Proof. intros He. unfold view. by rewrite (leaf_addr_page N va va'). Qed.

(** Leaf entries of different pages are different words. *)
Lemma leaf_addr_apart m root N va va' a a' :
  pt_rep m root N -> 0 <= va < MAXVA -> 0 <= va' < MAXVA ->
  leaf_addr N va = Some a -> leaf_addr N va' = Some a' -> va / 4096 <> va' / 4096 ->
  a + 8 <= a' \/ a' + 8 <= a.
Proof.
  unfold leaf_addr. intros Hr Hva Hva' (x & Hx & ->)%fmap_Some (y & Hy & ->)%fmap_Some Hne.
  pose proof (PX_range 0 va) as R. pose proof (PX_range 0 va') as R'.
  destruct (decide ([PX 2 va; PX 1 va] = [PX 2 va'; PX 1 va'])) as [He|He].
  - rewrite He in Hx. rewrite Hx in Hy. injection Hy as <-. injection He as ??.
    destruct (decide (PX 0 va = PX 0 va')); [|lia]. exfalso. apply Hne. by apply PX_inj.
  - pose proof (node_apart _ _ _ _ _ _ _ Hr Hx Hy He). unfold PGSIZE in *. lia.
Qed.

Lemma leaf_in_nodes N va a b :
  leaf_addr N va = Some a -> a <= b < a + 8 -> in_nodes N b.
Proof.
  unfold leaf_addr. intros (x & Hx & ->)%fmap_Some Hb. exists [PX 2 va; PX 1 va], x.
  split; [done|]. pose proof (PX_range 0 va). unfold PGSIZE. lia.
Qed.

Lemma set_leaf root s l N va a v :
  vm_inv s l root N -> leaf_addr N va = Some a ->
  vm_ext root s l N (set_mem (store64 (kmem_mem s) a v) s) l N.
Proof.
  intros (Hk & Hr & Hd) Ha. pose proof Ha as Ha'.
  unfold leaf_addr in Ha'. apply fmap_Some in Ha' as (x & Hx & ->).
  pose proof (PX_range 0 va) as R.
  assert (outside_page x (kmem_mem s) (store64 (kmem_mem s) (x + 8 * PX 0 va) v)) as Ho
    by (apply outside_page_store64; unfold PGSIZE; lia).
  split; simpl; try done; auto.
  - split_and!; [|split|done]; try apply Hr.
    + eapply kmem_inv_set_mem; [done|by eapply rep_page|by eapply Hd|done].
    + intros p y i Hp Hl Hi. simpl. rewrite <- (rep_child _ _ _ Hr p y i Hp Hl Hi).
      apply load64_store64_ne. assert (p <> [PX 2 va; PX 1 va]) as Hne by (intros ->; simpl in Hl; lia).
      pose proof (node_apart _ _ _ _ _ _ _ Hr Hp Hx Hne). unfold PGSIZE in *. lia.
  - intros b Hb. apply load8_store64. intros ?. apply Hb. by eapply leaf_in_nodes.
Qed.

Lemma view_set_leaf m root N va a v va' :
  pt_rep m root N -> 0 <= va < MAXVA -> 0 <= va' < MAXVA -> 0 <= v < 18446744073709551616 ->
  leaf_addr N va = Some a ->
  view (store64 m a v) N va' = if decide (va / 4096 = va' / 4096) then v else view m N va'.
Proof.
  intros Hr Hva Hva' Hv Ha. unfold view. case_decide as He.
  - rewrite <- (leaf_addr_page N va va' He), Ha. by apply load64_store64.
  - destruct (leaf_addr N va') as [a'|] eqn:Ha'; [|done].
    apply load64_store64_ne. exact (leaf_addr_apart m root N va va' a a' Hr Hva Hva' Ha Ha' He).
Qed.

(** ** Changes outside the table *)

Definition same_nodes (N : gmap (list Z) Z) (m m' : mem) : Prop :=
  forall b, in_nodes N b -> load8 m' b = load8 m b.

Lemma same_nodes_load64 N m m' p x i :
  same_nodes N m m' -> N !! p = Some x -> 0 <= i < 512 -> load64 m' (x + 8 * i) = load64 m (x + 8 * i).
Proof.
  intros Hs Hp Hi. apply load64_ext. intros b ?. apply Hs. exists p, x. split; [done|].
  unfold PGSIZE. lia.
Qed.

Lemma same_nodes_rep N m m' root : same_nodes N m m' -> pt_rep m root N -> pt_rep m' root N.
Proof.
  intros Hs Hr. split; try apply Hr. intros p x i Hp Hl Hi.
  rewrite (same_nodes_load64 N m m' p) by done. by apply (rep_child _ _ _ Hr).
Qed.

Lemma same_nodes_view N m m' va : same_nodes N m m' -> view m' N va = view m N va.
Proof.
  intros Hs. unfold view, leaf_addr.
  destruct (N !! [PX 2 va; PX 1 va]) as [x|] eqn:E; [|done]. simpl.
  eapply same_nodes_load64; [done|done|]. apply PX_range. lia.
Qed.

Definition not_node (N : gmap (list Z) Z) (pa : Z) : Prop := forall p x, N !! p = Some x -> x <> pa.

Lemma outside_same_nodes N m root m0 pa m' :
  pt_rep m0 root N -> page_ok pa -> not_node N pa -> outside_page pa m m' -> same_nodes N m m'.
Proof.
  intros Hr Hpa Hn Ho b (p & x & Hp & Hb). apply Ho.
  pose proof (rep_page _ _ _ Hr p x Hp) as Hx.
  destruct (pages_apart x pa Hx Hpa (Hn p x Hp)); unfold PGSIZE in *; lia.
Qed.
End tree.
