(* ===== verification/VmMap.v ===== *)
(** Mapping and unmapping ranges: [walkaddr], [mappages] and [uvmunmap] as updates of the
    leaf-entry view of a page table. *)
From S2P Require Import Prelude Memory Riscv Kalloc Vm VmTree.

Section map.
Context `{Layout}.

(** ** [walkaddr] *)

Definition upage (pte : Z) : Z :=
  if tst pte PTE_V && tst pte PTE_U then PTE2PA pte else 0.

Lemma wp_load_pte a c s (Q : cpu -> kmem -> Z -> Prop) :
  Q c s (load64 (kmem_mem s) a) -> wp (load_pte a) c s Q.
Proof. done. Qed.

(** Reading the leaf entry that [walk] found. *)
Lemma wp_walk_load {A} root N va c s (k : Z -> Z -> M kmem A) (e : M kmem A) Q :
  pt_rep (kmem_mem s) root N -> 0 <= va < MAXVA ->
  (leaf_addr N va = None -> wp e c s Q) ->
  (forall a, leaf_addr N va = Some a -> wp (k a (view (kmem_mem s) N va)) c s Q) ->
  wp (ptea <- walk root va false ;; if ptea =? 0 then e else pte <- load_pte ptea ;; k ptea pte) c s Q.
Proof.
  intros Hr Hva Hn Hk. wp_step. eapply wp_walk_ro; [done|done|].
  destruct (leaf_addr N va) as [a|] eqn:E; simpl.
  - destruct (Z.eqb_spec a 0) as [->|]; [by apply (leaf_addr_pos _ _ _ _ _ Hr) in E|].
    wp_step. apply wp_load_pte. specialize (Hk a eq_refl). unfold view in Hk. by rewrite E in Hk.
  - by apply Hn.
Qed.

Lemma wp_walkaddr root N va c s (Q : cpu -> kmem -> Z -> Prop) :
  pt_rep (kmem_mem s) root N -> 0 <= va ->
  Q c s (if va <? MAXVA then upage (view (kmem_mem s) N va) else 0) ->
  wp (walkaddr root va) c s Q.
Proof.
  intros Hr Hva HQ. unfold walkaddr. rewrite Z.geb_leb.
  destruct (Z.leb_spec MAXVA va); [rewrite (proj2 (Z.ltb_ge _ _)) in HQ by done; by wp_steps|].
  rewrite (proj2 (Z.ltb_lt _ _)) in HQ by done. eapply wp_walk_load; [done|lia| |].
  - intros Hn. wp_steps. unfold view, upage in HQ. by rewrite Hn, tst_0 in HQ.
  - intros a Ha. unfold upage in HQ.
    destruct (tst (view (kmem_mem s) N va) PTE_V), (tst (view (kmem_mem s) N va) PTE_U);
      by wp_steps.
Qed.

(** ** [mappages] *)

(** [f] after mapping [k] pages from [va] to the pages from [pa]. *)
Definition map_view (f : Z -> Z) (va k pa perm : Z) : Z -> Z := fun va' =>
  if decide (va <= va' < va + k * PGSIZE)
  then mkpte (pa + (va' / 4096 * 4096 - va)) perm else f va'.

Definition range_ok (va k pa : Z) : Prop :=
  0 <= va /\ va mod PGSIZE = 0 /\ va + k * PGSIZE <= MAXVA /\
  0 <= pa /\ pa mod PGSIZE = 0 /\ pa + k * PGSIZE <= 2 ^ 56.

Definition mappages_post (root : Z) (s : kmem) (l : list Z) (N : gmap (list Z) Z)
    (va n pa perm : Z) (s' : kmem) (r : Z) : Prop :=
  exists l' N' k, vm_ext root s l N s' l' N' /\ 0 <= k /\
    (forall va', 0 <= va' < MAXVA ->
       view (kmem_mem s') N' va' = map_view (view (kmem_mem s) N) va k pa perm va') /\
    (r = 0 /\ k = n \/ r = -1 /\ l' = [] /\ k < n).

Lemma map_view_0 f va pa perm va' : map_view f va 0 pa perm va' = f va'.
Proof. unfold map_view. by rewrite decide_False by lia. Qed.

Lemma map_view_S f va k pa perm va' :
  va mod PGSIZE = 0 -> 0 <= k ->
  map_view (fun x => if decide (va / 4096 = x / 4096) then mkpte pa perm else f x)
    (va + PGSIZE) k (pa + PGSIZE) perm va' = map_view f va (k + 1) pa perm va'.
Proof.
  unfold map_view, PGSIZE. intros Hal Hk. repeat case_decide; try done; try (exfalso; dlia).
  - f_equal. lia.
  - f_equal. dlia.
Qed.

Lemma mappages_loop root n va pa perm last c s l N (Q : cpu -> kmem -> Z -> Prop) :
  LKmem ∉ held c -> vm_inv s l root N -> 0 <= perm < 1024 ->
  (0 < n)%nat -> range_ok va (Z.of_nat n) pa -> last = va + (Z.of_nat n - 1) * PGSIZE ->
  (forall va', va <= va' < va + Z.of_nat n * PGSIZE -> tst (view (kmem_mem s) N va') PTE_V = false) ->
  (forall s' r, mappages_post root s l N va (Z.of_nat n) pa perm s' r -> Q c s' r) ->
  wp (loop n (fun st : Z * Z => let '(a, pa) := st in
    ptea <- walk root a true ;;
    if ptea =? 0 then ret (inr (-1)) else
    pte <- load_pte ptea ;;
    if tst pte PTE_V then panic "mappages: remap" else
    store_pte ptea (Z.lor (Z.lor (PA2PTE pa) perm) PTE_V) ;;
    if a =? last then ret (inr 0)
    else ret (inl (u64 (a + PGSIZE), u64 (pa + PGSIZE)))) (va, pa)) c s Q.
Proof.
  intros Hc Hinv Hperm. revert va pa s l N Q Hinv.
  induction n as [|n IH]; intros va pa s l N Q Hinv Hn (Hva & Hal & Hmax & Hpa & Hpal & Hpmax) Hlast Hun HQ; [lia|].
  rewrite Nat2Z.inj_succ in *. rewrite MAXVA_val in *. unfold PGSIZE in *.
  simpl loop. wp_step. wp_step. eapply wp_walk_alloc; [done|rewrite MAXVA_val; lia|done|].
  intros s1 l1 N1 r He1 Hv1 [[-> ->]|[Ha Hr0]].
  { simpl. wp_steps. apply HQ. exists [], N1, 0. split_and!; try done; [|right; split_and!; (done || lia)].
    intros va' _. by rewrite Hv1, map_view_0. }
  destruct (Z.eqb_spec r 0); [done|]. wp_step. apply wp_load_pte.
  assert (load64 (kmem_mem s1) r = view (kmem_mem s1) N1 va) as -> by (unfold view; by rewrite Ha).
  rewrite Hv1, Hun by lia. unfold store_pte, upd_mem. wp_steps.
  fold (mkpte pa perm). set (s2 := set_mem (store64 (kmem_mem s1) r (mkpte pa perm)) s1).
  assert (pa_ok pa) as Hpaok by (split; [lia|unfold PGSIZE; lia]).
  pose proof (set_leaf root s1 l1 N1 va r (mkpte pa perm) (ext_inv _ _ _ _ _ _ _ He1) Ha) as He2.
  pose proof (vm_ext_trans _ _ _ _ _ _ _ _ _ _ He1 He2) as He. fold s2 in He.
  assert (forall x, 0 <= x < MAXVA -> view (kmem_mem s2) N1 x =
            if decide (va / 4096 = x / 4096) then mkpte pa perm else view (kmem_mem s) N x) as Hv2.
  { intros x Hx. unfold s2. simpl. rewrite (view_set_leaf _ root N1 va); try done.
    - by rewrite Hv1.
    - apply He1.
    - rewrite MAXVA_val. lia.
    - by apply mkpte_range. }
  rewrite MAXVA_val in Hv2. destruct n as [|n].
  - rewrite Hlast. destruct (Z.eqb_spec va (va + (Z.succ (Z.of_nat 0) - 1) * 4096)); [|lia].
    wp_steps. apply HQ. exists l1, N1, 1. split_and!; try done; [|left; lia].
    intros va' Hva'. rewrite Hv2 by (rewrite MAXVA_val in Hva'; lia).
    change 1 with (0 + 1). rewrite <- map_view_S by (unfold PGSIZE; lia).
    by rewrite map_view_0.
  - rewrite Nat2Z.inj_succ in *. destruct (Z.eqb_spec va last); [lia|]. wp_steps.
    change (2 ^ 56) with 72057594037927936 in *.
    rewrite !u64_small by lia.
    apply (IH (va + 4096) (pa + 4096) s2 l1 N1); try (lia || done).
    + apply He.
    + unfold range_ok, PGSIZE. rewrite MAXVA_val. change (2 ^ 56) with 72057594037927936.
      rewrite ?Nat2Z.inj_succ. repeat split; try lia; dlia.
    + intros va' Hva'. rewrite Hv2 by lia. rewrite decide_False by dlia. apply Hun. lia.
    + intros s' r' (l' & N' & k & He' & Hk & Hv' & Hr'). apply HQ.
      exists l', N', (k + 1). split_and!; [by eapply vm_ext_trans|lia| |destruct Hr' as [[??]|(? & ? & ?)]; [left|right]; split_and!; (done || lia)].
      intros va' Hva'. rewrite Hv' by done. unfold PGSIZE in *.
      rewrite <- map_view_S by (unfold PGSIZE; lia).
      unfold map_view, PGSIZE. case_decide; [done|]. by rewrite Hv2 by (rewrite MAXVA_val in Hva'; lia).
Qed.

Lemma wp_mappages root va n pa perm c s l N (Q : cpu -> kmem -> Z -> Prop) :
  LKmem ∉ held c -> vm_inv s l root N -> 0 <= perm < 1024 -> 0 < n -> range_ok va n pa ->
  (forall va', va <= va' < va + n * PGSIZE -> tst (view (kmem_mem s) N va') PTE_V = false) ->
  (forall s' r, mappages_post root s l N va n pa perm s' r -> Q c s' r) ->
  wp (mappages root va (n * PGSIZE) pa perm) c s Q.
Proof.
  intros Hc Hinv Hperm Hn Hrg Hun HQ. pose proof Hrg as (Hva & Hal & Hmax & _).
  unfold mappages. rewrite Hal, Z.mod_mul by done.
  destruct (Z.eqb_spec (n * PGSIZE) 0); [unfold PGSIZE in *; lia|]. cbn [negb Z.eqb].
  rewrite Z.div_mul by done. rewrite MAXVA_val in Hmax. unfold PGSIZE in *.
  apply (mappages_loop root (Z.to_nat n)  va pa perm _ c s l N); rewrite ?Z2Nat.id; try done; try lia.
  unfold PGSIZE. rewrite u64_small by lia. lia.
Qed.

(** ** [uvmunmap] *)

(** [pas] lists the pages the [length pas] leaf entries from [va] point to, and each entry is
    a valid leaf. *)
Definition mapped_to (f : Z -> Z) (va : Z) (pas : list Z) : Prop :=
  forall i pa, pas !! i = Some pa ->
    let pte := f (va + Z.of_nat i * PGSIZE) in
    PTE2PA pte = pa /\ tst pte PTE_V = true /\ PTE_FLAGS pte <> PTE_V.

(** Pages that can be freed: distinct, allocated, and not part of the table itself. *)
Definition freeable (l : list Z) (N : gmap (list Z) Z) (pas : list Z) : Prop :=
  NoDup pas /\ forall pa, pa ∈ pas -> page_ok pa /\ (pa ∉ l) /\ not_node N pa.

Definition unmap_post (root : Z) (s : kmem) (l : list Z) (N : gmap (list Z) Z)
    (va : Z) (pas : list Z) (do_free : bool) (s' : kmem) : Prop :=
  vm_inv s' (if do_free then reverse pas ++ l else l) root N /\
  (forall va', 0 <= va' < MAXVA ->
     view (kmem_mem s') N va' =
     if decide (va <= va' < va + Z.of_nat (length pas) * PGSIZE) then 0
     else view (kmem_mem s) N va') /\
  (forall b, ~ in_nodes N b -> (do_free = true -> forall pa, pa ∈ pas -> ~ (pa <= b < pa + PGSIZE)) ->
     load8 (kmem_mem s') b = load8 (kmem_mem s) b).

Lemma freeable_cons l N pa pas :
  freeable l N (pa :: pas) -> page_ok pa /\ (pa ∉ l) /\ not_node N pa /\ freeable (pa :: l) N pas /\ freeable l N pas.
Proof.
  intros [[Hn Hd]%NoDup_cons Hf]. destruct (Hf pa) as (? & ? & ?); [set_solver|].
  split_and!; try done; (split; [done|]); intros q Hq; destruct (Hf q) as (? & ? & ?); [set_solver| |set_solver|done].
  split_and!; [done|set_solver|done].
Qed.

Lemma mapped_to_cons f va pa pas :
  mapped_to f va (pa :: pas) ->
  (PTE2PA (f va) = pa /\ tst (f va) PTE_V = true /\ PTE_FLAGS (f va) <> PTE_V) /\
  mapped_to f (va + PGSIZE) pas.
Proof.
  intros Hm. split.
  - specialize (Hm 0%nat pa eq_refl). simpl in Hm. by rewrite Z.add_0_r in Hm.
  - intros i q Hq. specialize (Hm (S i) q Hq). simpl in *.
    by replace (va + PGSIZE + Z.of_nat i * PGSIZE) with (va + Z.of_nat (S i) * PGSIZE)
      by (unfold PGSIZE; lia).
Qed.

(** One iteration: optionally free the page, then clear the entry. *)
Lemma wp_unmap_one {A} root va a (do_free : bool) c s l N (k : M kmem A) Q :
  let pa := PTE2PA (view (kmem_mem s) N va) in
  LKmem ∉ held c -> vm_inv s l root N -> 0 <= va < MAXVA -> leaf_addr N va = Some a ->
  (do_free = true -> page_ok pa /\ (pa ∉ l) /\ not_node N pa) ->
  (forall s', vm_inv s' (if do_free then pa :: l else l) root N ->
     (forall va', 0 <= va' < MAXVA -> view (kmem_mem s') N va' =
        if decide (va / 4096 = va' / 4096) then 0 else view (kmem_mem s) N va') ->
     (forall b, ~ in_nodes N b -> (do_free = true -> ~ (pa <= b < pa + PGSIZE)) ->
        load8 (kmem_mem s') b = load8 (kmem_mem s) b) -> wp k c s' Q) ->
  wp ((if do_free then kfree pa else ret tt) ;; store_pte a 0 ;; k) c s Q.
Proof.
  intros pa Hc Hinv Hva Ha Hf HQ. wp_step.
  assert (forall s1, vm_inv s1 (if do_free then pa :: l else l) root N ->
    same_nodes N (kmem_mem s) (kmem_mem s1) ->
    (forall b, (do_free = true -> ~ (pa <= b < pa + PGSIZE)) -> load8 (kmem_mem s1) b = load8 (kmem_mem s) b) ->
    wp (store_pte a 0 ;; k) c s1 Q) as Hst.
  { intros s1 Hinv1 Hs1 Ho1. unfold store_pte, upd_mem. wp_steps.
    pose proof (set_leaf root s1 _ N va a 0 Hinv1 Ha) as He. apply HQ; [apply He| |].
    - intros va' Hva'. simpl.
      rewrite (view_set_leaf _ root N va); [|apply Hinv1|done|done|lia|done].
      case_decide; [done|]. by apply same_nodes_view.
    - intros b Hb Hpa. rewrite (ext_frame _ _ _ _ _ _ _ He) by done. by apply Ho1. }
  destruct do_free.
  - destruct (Hf eq_refl) as (Hok & Hnl & Hnn). destruct (Hinv) as (Hk & Hr & Hd).
    eapply wp_kfree; [done|done|done|done|]. intros s1 Hk1 Ho1.
    pose proof (outside_same_nodes N _ _ _ pa _ Hr Hok Hnn Ho1) as Hs1.
    apply Hst; [|done|intros b Hb; apply Ho1; by apply Hb]. split_and!; [done|by eapply same_nodes_rep|].
    intros p x Hp. apply not_elem_of_cons. split; [by eapply Hnn|by eapply Hd].
  - wp_steps. apply Hst; done.
Qed.

Lemma unmap_loop root (do_free : bool) pas va c s l N (Q : cpu -> kmem -> unit -> Prop) fuel bound :
  LKmem ∉ held c -> vm_inv s l root N -> (length pas < fuel)%nat ->
  0 <= va -> va mod PGSIZE = 0 -> va + Z.of_nat (length pas) * PGSIZE <= MAXVA ->
  bound = va + Z.of_nat (length pas) * PGSIZE ->
  mapped_to (view (kmem_mem s) N) va pas ->
  (do_free = true -> freeable l N pas) ->
  (forall s', unmap_post root s l N va pas do_free s' -> Q c s' tt) ->
  wp (loop fuel (fun a =>
    if a <? bound then
      ptea <- walk root a false ;;
      if ptea =? 0 then panic "uvmunmap: walk" else
      pte <- load_pte ptea ;;
      if negb (tst pte PTE_V) then panic "uvmunmap: not mapped" else
      if PTE_FLAGS pte =? PTE_V then panic "uvmunmap: not a leaf" else
      (if do_free then kfree (PTE2PA pte) else ret tt) ;;
      store_pte ptea 0 ;;
      ret (inl (u64 (a + PGSIZE)))
    else ret (inr tt)) va) c s Q.
Proof.
  intros Hc. revert va s l fuel.
  induction pas as [|pa pas IH]; intros va s l fuel Hinv Hfuel Hva Hal Hmax Hb Hm Hf HQ;
    (destruct fuel as [|fuel]; [simpl in Hfuel; lia|]); simpl loop; wp_step.
  - simpl in Hb. destruct (Z.ltb_spec va bound); [lia|]. wp_steps. apply HQ.
    split_and!; [by destruct do_free| |done]. intros va' _. rewrite decide_False by (simpl; lia). done.
  - simpl length in *. rewrite Nat2Z.inj_succ in *. rewrite MAXVA_val in *. unfold PGSIZE in *.
    destruct (Z.ltb_spec va bound); [|lia]. destruct (Hinv) as (_ & Hr & _).
    apply mapped_to_cons in Hm as [(Hpa & HV & HF) Hm].
    eapply wp_walk_load; [exact Hr|rewrite MAXVA_val; lia| |].
    { intros Hn. unfold view in HV. by rewrite Hn, tst_0 in HV. }
    intros a Ha. rewrite HV. cbn [negb]. destruct (Z.eqb_spec (PTE_FLAGS (view (kmem_mem s) N va)) PTE_V); [done|].
    eapply (wp_unmap_one root va a do_free c s l N); [done|done|rewrite MAXVA_val; lia|done| |].
    { intros Hdf. rewrite Hpa. destruct (freeable_cons _ _ _ _ (Hf Hdf)) as (? & ? & ? & _). done. }
    rewrite Hpa. intros s1 Hinv1 Hv1 Ho1. rewrite MAXVA_val in Hv1. wp_steps. rewrite u64_small by lia.
    apply (IH _ s1 (if do_free then pa :: l else l)); try done; try lia; try dlia.
    + intros i q Hq. pose proof (lookup_lt_Some _ _ _ Hq). specialize (Hm i q Hq). unfold PGSIZE in *.
      rewrite Hv1 by lia. by rewrite decide_False by dlia.
    + intros Hdf. destruct (freeable_cons _ _ _ _ (Hf Hdf)) as (? & ? & ? & ? & _). by rewrite Hdf.
    + intros s' (Hinv' & Hv' & Ho'). apply HQ. split_and!.
      * destruct do_free; [|done]. rewrite reverse_cons, <- app_assoc. done.
      * intros va' Hva'. rewrite Hv' by done. rewrite MAXVA_val in Hva'. simpl length.
        rewrite Nat2Z.inj_succ. unfold PGSIZE. rewrite Hv1 by done.
        repeat case_decide; try done; exfalso; dlia.
      * intros b Hb' Hp. rewrite Ho', Ho1; [done|done| |done|]; intros Hdf; specialize (Hp Hdf); set_solver.
Qed.

Lemma wp_uvmunmap root va pas (do_free : bool) c s l N (Q : cpu -> kmem -> unit -> Prop) :
  LKmem ∉ held c -> vm_inv s l root N ->
  0 <= va -> va mod PGSIZE = 0 -> va + Z.of_nat (length pas) * PGSIZE <= MAXVA ->
  mapped_to (view (kmem_mem s) N) va pas ->
  (do_free = true -> freeable l N pas) ->
  (forall s', unmap_post root s l N va pas do_free s' -> Q c s' tt) ->
  wp (uvmunmap root va (Z.of_nat (length pas)) do_free) c s Q.
Proof.
  intros Hc Hinv Hva Hal Hmax Hm Hf HQ. unfold uvmunmap. rewrite Hal. cbn [negb Z.eqb].
  rewrite MAXVA_val in Hmax. unfold PGSIZE in *.
  eapply unmap_loop; try done; unfold PGSIZE; rewrite ?MAXVA_val; try lia.
  by rewrite u64_small by lia.
Qed.
End map.
