(* ===== verification/VmUser.v ===== *)
(** User address spaces: growing, shrinking and copying them.

    A user address space of [n] pages maps page [i] to the [i]-th pair (physical page,
    permissions) of a list [us], nothing between page [n] and the trapframe, and no
    user-accessible page above. The lemmas specify [uvmdealloc], [uvmalloc], [uvmcopy] and
    [uvmclear] over that list. *)
From S2P Require Import Prelude Memory Riscv Kalloc Vm VmTree VmMap.

Section user.
Context `{Layout}.

(** No byte outside the pages [P] differs. *)
Definition frame_out (P : list Z) (m m' : mem) : Prop :=
  forall b, (forall p, p ∈ P -> ~ (p <= b < p + PGSIZE)) -> load8 m' b = load8 m b.

Lemma frame_out_refl P m : frame_out P m m.
Proof. done. Qed.

Lemma frame_out_trans P m1 m2 m3 : frame_out P m1 m2 -> frame_out P m2 m3 -> frame_out P m1 m3.
Proof. intros H1 H2 b Hb. rewrite H2, H1; done. Qed.

Lemma frame_out_mono P P' m m' : P ⊆ P' -> frame_out P m m' -> frame_out P' m m'.
Proof. intros Hs Hf b Hb. apply Hf. intros p Hp. apply Hb. by apply Hs. Qed.

Lemma frame_out_page p P m m' : p ∈ P -> outside_page p m m' -> frame_out P m m'.
Proof. intros Hp Ho b Hb. apply Ho. by apply Hb. Qed.

(** Pages are either equal or apart, so a page that is not in [P] is unchanged. *)
Lemma frame_out_load P m m' q b :
  frame_out P m m' -> Forall page_ok P -> page_ok q -> q ∉ P -> q <= b < q + PGSIZE ->
  load8 m' b = load8 m b.
Proof.
  intros Hf HP Hq Hn Hb. apply Hf. intros p Hp ?. rewrite Forall_forall in HP.
  destruct (pages_apart p q (HP p Hp) Hq); [by intros ->|lia|lia].
Qed.

Lemma frame_out_nodes P m m' root N m0 :
  frame_out P m m' -> Forall page_ok P -> pt_rep m0 root N ->
  (forall p x, N !! p = Some x -> x ∉ P) -> same_nodes N m m'.
Proof.
  intros Hf HP Hr Hn b (p & x & Hp & Hb).
  by apply (frame_out_load P m m' x); [..|eapply rep_page|eapply Hn|].
Qed.

Lemma nodes_page_ok m root N : pt_rep m root N -> Forall page_ok (node_pages N).
Proof. intros Hr. apply Forall_forall. intros x (p & Hp)%elem_of_node_pages. by eapply rep_page. Qed.

Lemma vm_ext_frame_out root s l N s' l' N' :
  vm_ext root s l N s' l' N' -> frame_out (l ++ node_pages N) (kmem_mem s) (kmem_mem s').
Proof.
  intros He b Hb. apply (ext_frame _ _ _ _ _ _ _ He). intros (p & x & Hp & Hx).
  apply (Hb x); [|done]. rewrite elem_of_app, elem_of_node_pages.
  destruct (ext_new _ _ _ _ _ _ _ He p x Hp); eauto.
Qed.

(** * The invariant of a user address space *)

Record user_pages (s : kmem) (l : list Z) (root : Z) (N : gmap (list Z) Z)
    (us : list (Z * Z)) : Prop := {
  up_inv : vm_inv s l root N;
  up_map i pa perm : us !! i = Some (pa, perm) ->
    view (kmem_mem s) N (Z.of_nat i * PGSIZE) = mkpte pa perm;
  up_page i pa perm : us !! i = Some (pa, perm) ->
    page_ok pa /\ (pa ∉ l) /\ not_node N pa /\ 0 <= perm < 1024 /\ tst perm PTE_R = true;
  up_dup : NoDup us.*1;
  up_free va : Z.of_nat (length us) * PGSIZE <= va < TRAPFRAME -> view (kmem_mem s) N va = 0;
  up_high va : TRAPFRAME <= va < MAXVA -> tst (view (kmem_mem s) N va) PTE_U = false;
}.

(** Every page the address space and the free list use. *)
Definition uv_pages (l : list Z) (N : gmap (list Z) Z) (us : list (Z * Z)) : list Z :=
  l ++ node_pages N ++ us.*1.

Lemma up_elem s l root N us pa :
  user_pages s l root N us -> pa ∈ us.*1 -> page_ok pa /\ (pa ∉ l) /\ not_node N pa.
Proof.
  intros Hu ([pa' perm] & -> & [i Hi]%list_elem_of_lookup)%list_elem_of_fmap.
  destruct (up_page _ _ _ _ _ Hu i pa' perm Hi) as (? & ? & ? & _). done.
Qed.

Lemma up_forall s l root N us : user_pages s l root N us -> Forall page_ok us.*1.
Proof. intros Hu. apply Forall_forall. intros pa Hpa. by eapply up_elem. Qed.

(** There are at most 32768 pages of RAM. *)
Lemma pages_bound l : NoDup l -> Forall page_ok l -> Z.of_nat (length l) <= 32768.
Proof.
  intros Hd Hf. assert (length l <= length all_pages)%nat as Hle.
  { apply submseteq_length, NoDup_submseteq; [done|]. intros p Hp. apply elem_of_all_pages.
    rewrite Forall_forall in Hf. by apply Hf. }
  unfold all_pages, npages in Hle. rewrite length_reverse in Hle.
  assert (forall n p, length (pages_from p n) = n) as Hlen by (induction n; intros; simpl; auto).
  rewrite Hlen in Hle. pose proof kend_bounds. rewrite PGROUNDUP_kend in Hle.
  rewrite PHYSTOP_val in *. unfold KERNBASE, PGSIZE in *. dlia.
Qed.

Lemma up_bound s l root N us :
  user_pages s l root N us -> Z.of_nat (length us) + Z.of_nat (length l) <= 32768.
Proof.
  intros Hu. pose proof (up_inv _ _ _ _ _ Hu) as ((_ & Hd & Hf) & _ & _).
  pose proof (pages_bound (us.*1 ++ l)) as Hb. rewrite length_app, length_fmap in Hb.
  enough (Z.of_nat (length us + length l) <= 32768) by lia. apply Hb.
  - apply NoDup_app. split_and!; [apply Hu| |done]. intros pa Hpa. by eapply up_elem.
  - apply Forall_app. split; [by eapply up_forall|done].
Qed.

Lemma TRAPFRAME_val : TRAPFRAME = 274877898752.
Proof. reflexivity. Qed.

(** The address space is kept by changes outside its table, as long as the free list does
    not take its pages. *)
Lemma user_pages_frame P s l root N us s' l' :
  user_pages s l root N us -> kmem_inv s' l' -> frame_out P (kmem_mem s) (kmem_mem s') ->
  Forall page_ok P -> (forall pa, pa ∈ P -> not_node N pa) ->
  (forall pa, pa ∈ l' -> (pa ∉ us.*1) /\ not_node N pa) ->
  user_pages s' l' root N us.
Proof.
  intros Hu Hk Hf HP HPd Hd. pose proof (up_inv _ _ _ _ _ Hu) as (_ & Hr & _).
  assert (same_nodes N (kmem_mem s) (kmem_mem s')) as Hs.
  { eapply frame_out_nodes; [done..|]. intros p x Hp HinP. by eapply (HPd x). }
  split.
  - split_and!; [done|by eapply same_nodes_rep|]. intros p x Hp Hin.
    destruct (Hd x Hin) as [_ Hx]. by eapply Hx.
  - intros i pa perm Hi. rewrite (same_nodes_view N _ _ _ Hs). by apply (up_map _ _ _ _ _ Hu).
  - intros i pa perm Hi. destruct (up_page _ _ _ _ _ Hu i pa perm Hi) as (? & _ & ?).
    split; [done|split; [|tauto]]. intros Hin. destruct (Hd pa Hin) as [Hx _].
    apply Hx, list_elem_of_fmap. exists (pa, perm). split; [done|]. by eapply list_elem_of_lookup_2.
  - apply Hu.
  - intros va Hva. rewrite (same_nodes_view N _ _ _ Hs). by apply (up_free _ _ _ _ _ Hu).
  - intros va Hva. rewrite (same_nodes_view N _ _ _ Hs). by apply (up_high _ _ _ _ _ Hu).
Qed.

Lemma kmem_inv_frame_out P s s' l :
  kmem_inv s l -> Forall page_ok P -> (forall q, q ∈ l -> q ∉ P) -> freelist s' = freelist s ->
  frame_out P (kmem_mem s) (kmem_mem s') -> kmem_inv s' l.
Proof.
  intros (Hf & Hd & Hok) HP Hn He Ho. split_and!; [|done|done]. rewrite He. clear He Hd.
  revert Hf. generalize (freelist s). induction l as [|q l IH]; intros p; simpl; [done|].
  apply Forall_cons in Hok as [Hq Hok]. intros [-> Hf]. split; [done|].
  assert (load64 (kmem_mem s') q = load64 (kmem_mem s) q) as ->.
  { apply load64_ext. intros b Hb. eapply (frame_out_load P _ _ q); try done; [|unfold PGSIZE; lia].
    apply Hn. set_solver. }
  apply IH; [done| |done]. intros q' Hq'. apply Hn. set_solver.
Qed.

(** Writing into any of the user pages. *)
Lemma user_pages_writes s l root N us s' :
  user_pages s l root N us -> freelist s' = freelist s ->
  frame_out us.*1 (kmem_mem s) (kmem_mem s') -> user_pages s' l root N us.
Proof.
  intros Hu Hfl Ho. pose proof (up_inv _ _ _ _ _ Hu) as (Hk & _ & Hd).
  pose proof (up_forall _ _ _ _ _ Hu) as Hok.
  eapply user_pages_frame; [exact Hu| |exact Ho|done| |].
  - eapply kmem_inv_frame_out; [done|exact Hok| |done|done]. intros q Hq Hqu.
    by destruct (up_elem _ _ _ _ _ _ Hu Hqu) as (_ & ? & _).
  - intros pa Hpa. by destruct (up_elem _ _ _ _ _ _ Hu Hpa) as (_ & _ & ?).
  - intros q Hq. split.
    + intros Hqu. by destruct (up_elem _ _ _ _ _ _ Hu Hqu) as (_ & ? & _).
    + intros p x Hp ->. by eapply Hd.
Qed.

(** Writing into one of the user pages. *)
Lemma user_pages_write s l root N us pa m' :
  user_pages s l root N us -> pa ∈ us.*1 -> outside_page pa (kmem_mem s) m' ->
  user_pages (set_mem m' s) l root N us.
Proof.
  intros Hu Hpa Ho. eapply user_pages_writes; [exact Hu|done|]. by eapply frame_out_page.
Qed.

(** * [uvmdealloc] *)

Lemma leaf_flags pa perm :
  page_ok pa -> 0 <= perm < 1024 -> tst perm PTE_R = true -> PTE_FLAGS (mkpte pa perm) <> PTE_V.
Proof.
  intros Hpa Hp HR He. rewrite PTE_FLAGS_mkpte in He by (done || by apply page_ok_pa).
  unfold PTE_R in HR. rewrite tst_testbit in HR by lia.
  assert (Z.testbit (Z.lor perm 1) 1 = true) as Hb by (rewrite Z.lor_spec, HR; done).
  by rewrite He in Hb.
Qed.

Lemma up_mapped_to s l root N us1 us2 :
  user_pages s l root N (us1 ++ us2) ->
  mapped_to (view (kmem_mem s) N) (Z.of_nat (length us1) * PGSIZE) us2.*1.
Proof.
  intros Hu i pa Hi. rewrite list_lookup_fmap in Hi.
  destruct (us2 !! i) as [[pa' perm]|] eqn:Hi2; [|done]. simpl in Hi. injection Hi as ->.
  assert ((us1 ++ us2) !! (length us1 + i)%nat = Some (pa, perm)) as Hi'
    by (rewrite lookup_app_r by lia; by replace (length us1 + i - length us1)%nat with i by lia).
  destruct (up_page _ _ _ _ _ Hu _ _ _ Hi') as (Hpa & _ & _ & Hp & HR).
  pose proof (up_map _ _ _ _ _ Hu _ _ _ Hi') as Hv. pose proof (page_ok_pa _ Hpa).
  replace (Z.of_nat (length us1) * PGSIZE + Z.of_nat i * PGSIZE)
    with (Z.of_nat (length us1 + i) * PGSIZE) by lia.
  rewrite Hv. split_and!; [by apply PTE2PA_mkpte|by apply tst_mkpte_V|by apply leaf_flags].
Qed.

Lemma up_freeable s l root N us1 us2 :
  user_pages s l root N (us1 ++ us2) -> freeable l N us2.*1.
Proof.
  intros Hu. pose proof (up_dup _ _ _ _ _ Hu) as Hd. rewrite fmap_app in Hd.
  apply NoDup_app in Hd as (_ & _ & Hd). split; [done|]. intros pa Hpa.
  eapply up_elem; [done|]. rewrite fmap_app. set_solver.
Qed.

(** What removing the last pages [us2] leaves. *)
Definition dealloc_post (s : kmem) (l : list Z) (root : Z) (N : gmap (list Z) Z)
    (us1 us2 : list (Z * Z)) (s' : kmem) : Prop :=
  user_pages s' (reverse us2.*1 ++ l) root N us1 /\
  frame_out (node_pages N ++ us2.*1) (kmem_mem s) (kmem_mem s') /\
  (forall va, TRAPFRAME <= va < MAXVA -> view (kmem_mem s') N va = view (kmem_mem s) N va).

Lemma unmap_dealloc s l root N us1 us2 s' :
  user_pages s l root N (us1 ++ us2) ->
  unmap_post root s l N (Z.of_nat (length us1) * PGSIZE) us2.*1 true s' ->
  dealloc_post s l root N us1 us2 s'.
Proof.
  intros Hu (Hi & Hv & Hf). pose proof (up_bound _ _ _ _ _ Hu) as Hb.
  rewrite length_app in Hb. rewrite length_fmap, MAXVA_val in Hv. unfold PGSIZE in Hv.
  pose proof (up_dup _ _ _ _ _ Hu) as Hd. rewrite fmap_app in Hd. apply NoDup_app in Hd as (Hd1 & Hd & _).
  split_and!; [split| |intros va Hva; rewrite TRAPFRAME_val, MAXVA_val in Hva; rewrite Hv by lia; by rewrite decide_False by lia].
  - exact Hi.
  - intros i pa perm Hi1. pose proof (lookup_lt_Some _ _ _ Hi1). unfold PGSIZE. rewrite Hv by lia.
    rewrite decide_False by lia. apply (up_map _ _ _ _ _ Hu). by apply lookup_app_l_Some.
  - intros i pa perm Hi1. destruct (up_page _ _ _ _ _ Hu i pa perm) as (? & ? & ? & ?);
      [by apply lookup_app_l_Some|]. split; [done|split; [|done]].
    rewrite elem_of_app, elem_of_reverse. intros [Hin|Hin]; [|done]. eapply Hd; [|exact Hin].
    apply list_elem_of_fmap. exists (pa, perm). split; [done|]. by eapply list_elem_of_lookup_2.
  - done.
  - intros va Hva. rewrite TRAPFRAME_val in Hva. unfold PGSIZE in Hva. rewrite Hv by lia. case_decide; [done|].
    apply (up_free _ _ _ _ _ Hu). rewrite length_app, TRAPFRAME_val. unfold PGSIZE. lia.
  - intros va Hva. rewrite TRAPFRAME_val, MAXVA_val in Hva. rewrite Hv by lia. case_decide; [apply tst_0|].
    apply (up_high _ _ _ _ _ Hu). rewrite TRAPFRAME_val, MAXVA_val. lia.
  - intros b Hb'. apply Hf.
    + intros (p & x & Hp & Hx). apply (Hb' x); [|done]. rewrite elem_of_app, elem_of_node_pages. eauto.
    + intros _ pa Hpa. apply Hb'. set_solver.
Qed.

(** [sz] bytes take [n] pages. *)
Definition size_pages (sz : Z) (n : nat) : Prop :=
  0 <= sz <= TRAPFRAME /\ (sz + 4095) / 4096 = Z.of_nat n.

Lemma size_pages_roundup sz n : size_pages sz n -> PGROUNDUP sz = Z.of_nat n * PGSIZE.
Proof.
  intros [Hs Hn]. rewrite TRAPFRAME_val in Hs. rewrite PGROUNDUP_eq by lia. by rewrite Hn.
Qed.

Lemma size_pages_aligned n : Z.of_nat n <= 32768 -> size_pages (Z.of_nat n * PGSIZE) n.
Proof. intros. split; [rewrite TRAPFRAME_val; unfold PGSIZE; lia|unfold PGSIZE; dlia]. Qed.

Lemma wp_uvmunmap_user root s l N us1 us2 c (Q : cpu -> kmem -> unit -> Prop) :
  LKmem ∉ held c -> user_pages s l root N (us1 ++ us2) ->
  (forall s', dealloc_post s l root N us1 us2 s' -> Q c s' tt) ->
  wp (uvmunmap root (Z.of_nat (length us1) * PGSIZE) (Z.of_nat (length us2)) true) c s Q.
Proof.
  intros Hc Hu HQ. pose proof (up_bound _ _ _ _ _ Hu) as Hb. rewrite length_app in Hb.
  rewrite <- (length_fmap fst us2). eapply wp_uvmunmap; try done.
  - apply Hu.
  - unfold PGSIZE. lia.
  - apply Z.mod_mul. done.
  - rewrite length_fmap, MAXVA_val. unfold PGSIZE. lia.
  - by apply up_mapped_to with l root.
  - intros _. by eapply up_freeable.
  - intros s' Hp. apply HQ. by apply unmap_dealloc.
Qed.

Lemma dealloc_nil s l root N us : user_pages s l root N us -> dealloc_post s l root N us [] s.
Proof. intros Hu. split_and!; [done|apply frame_out_refl|done]. Qed.

Lemma wp_uvmdealloc root s l N us1 us2 oldsz newsz c (Q : cpu -> kmem -> Z -> Prop) :
  LKmem ∉ held c -> user_pages s l root N (us1 ++ us2) -> newsz <= oldsz ->
  size_pages oldsz (length (us1 ++ us2)) -> size_pages newsz (length us1) ->
  (forall s', dealloc_post s l root N us1 us2 s' -> Q c s' newsz) ->
  wp (uvmdealloc root oldsz newsz) c s Q.
Proof.
  intros Hc Hu Hle Ho Hn HQ. unfold uvmdealloc. pose proof (up_bound _ _ _ _ _ Hu) as Hb.
  rewrite (size_pages_roundup _ _ Ho), (size_pages_roundup _ _ Hn).
  destruct Ho as [_ Ho], Hn as [_ Hn]. rewrite length_app in *.
  rewrite Z.geb_leb. destruct (Z.leb_spec oldsz newsz).
  { assert (newsz = oldsz) as -> by lia. assert (us2 = []) as -> by (apply length_zero_iff_nil; lia).
    wp_steps. apply HQ. rewrite app_nil_r in Hu. by apply dealloc_nil. }
  wp_step. destruct (Z.ltb_spec (Z.of_nat (length us1) * PGSIZE) (Z.of_nat (length us1 + length us2) * PGSIZE)).
  - replace (u64 _) with (Z.of_nat (length us2)).
    + eapply wp_uvmunmap_user; [done|done|]. intros s' Hp. wp_steps. by apply HQ.
    + replace (Z.of_nat (length us1 + length us2) * PGSIZE - Z.of_nat (length us1) * PGSIZE)
        with (Z.of_nat (length us2) * PGSIZE) by lia.
      rewrite Z.div_mul by done. rewrite s32_small, u64_small by lia. done.
  - assert (us2 = []) as -> by (apply length_zero_iff_nil; unfold PGSIZE in *; lia). wp_steps.
    apply HQ. rewrite app_nil_r in Hu. by apply dealloc_nil.
Qed.

(** * Adding pages *)

(** The address space grew by the pages [new], which came from the free list, as did the
    new page-table pages; nothing else changed. *)
Record uv_grow (root : Z) (us : list (Z * Z)) (s : kmem) (l : list Z) (N : gmap (list Z) Z)
    (s' : kmem) (l' : list Z) (N' : gmap (list Z) Z) (new : list (Z * Z)) : Prop := {
  ug_user : user_pages s' l' root N' (us ++ new);
  ug_frame : frame_out (l ++ node_pages N) (kmem_mem s) (kmem_mem s');
  ug_perm : l ++ node_pages N ≡ₚ l' ++ node_pages N' ++ new.*1;
  ug_high va : TRAPFRAME <= va < MAXVA -> view (kmem_mem s') N' va = view (kmem_mem s) N va;
}.

Lemma uv_grow_refl root us s l N : user_pages s l root N us -> uv_grow root us s l N s l N [].
Proof. intros Hu. split; rewrite ?app_nil_r; done. Qed.

Lemma uv_grow_trans root us s1 l1 N1 s2 l2 N2 n2 s3 l3 N3 n3 :
  uv_grow root us s1 l1 N1 s2 l2 N2 n2 -> uv_grow root (us ++ n2) s2 l2 N2 s3 l3 N3 n3 ->
  uv_grow root us s1 l1 N1 s3 l3 N3 (n2 ++ n3).
Proof.
  intros [Hu1 Hf1 Hp1 Hh1] [Hu2 Hf2 Hp2 Hh2]. split.
  - by rewrite app_assoc.
  - eapply frame_out_trans; [done|]. eapply frame_out_mono; [|done].
    intros p Hp. rewrite Hp1. set_solver.
  - rewrite Hp1, app_assoc, Hp2, fmap_app. solve_Permutation.
  - intros va Hva. by rewrite Hh2, Hh1.
Qed.

(** A page outside the free list and the table keeps its contents. *)
Lemma uv_grow_load root us s l N s' l' N' new q b :
  vm_inv s l root N -> uv_grow root us s l N s' l' N' new ->
  page_ok q -> q ∉ l -> not_node N q -> q <= b < q + PGSIZE ->
  load8 (kmem_mem s') b = load8 (kmem_mem s) b.
Proof.
  intros ((_ & _ & Hl) & Hr & _) Hg Hq Hn Hnn Hb.
  eapply (frame_out_load _ _ _ q); [apply Hg| |done| |done].
  - apply Forall_app. split; [done|by eapply nodes_page_ok].
  - rewrite elem_of_app, elem_of_node_pages. intros [?|[p Hp]]; [done|]. by eapply Hnn.
Qed.

Lemma up_unmapped s l root N us : user_pages s l root N us ->
  forall va, Z.of_nat (length us) * PGSIZE <= va < Z.of_nat (length us) * PGSIZE + 1 * PGSIZE ->
    tst (view (kmem_mem s) N va) PTE_V = false.
Proof.
  intros Hu va Hva. pose proof (up_bound _ _ _ _ _ Hu).
  rewrite (up_free _ _ _ _ _ Hu); [apply tst_0|]. rewrite TRAPFRAME_val. unfold PGSIZE in *. lia.
Qed.

(** The state when the page [pg] has been taken off the free list and filled. *)
Lemma up_take s pg l root N us s1 :
  user_pages s (pg :: l) root N us -> kmem_inv s1 l ->
  outside_page pg (kmem_mem s) (kmem_mem s1) -> user_pages s1 l root N us.
Proof.
  intros Hu Hk Ho. pose proof (up_inv _ _ _ _ _ Hu) as ((_ & _ & Hok) & _ & Hd).
  apply Forall_cons in Hok as [Hpg Hok].
  eapply (user_pages_frame [pg]); [exact Hu|exact Hk| |by constructor| |].
  - eapply frame_out_page; [|exact Ho]. set_solver.
  - intros pa ->%list_elem_of_singleton p x Hp ->. apply (Hd _ _ Hp). set_solver.
  - intros pa Hpa. assert (pa ∈ pg :: l) as Hin by set_solver. split.
    + intros Hpu. by destruct (up_elem _ _ _ _ _ _ Hu Hpu) as (_ & ? & _).
    + intros p x Hp ->. by eapply Hd.
Qed.

(** Mapping a page that is neither free nor in use after the last one. *)
Lemma up_snoc s l root N us s' l' N' pg perm :
  user_pages s l root N us -> page_ok pg -> pg ∉ l -> not_node N pg -> pg ∉ us.*1 ->
  0 <= perm < 1024 -> tst perm PTE_R = true ->
  vm_ext root s l N s' l' N' ->
  (forall va, 0 <= va < MAXVA -> view (kmem_mem s') N' va =
     map_view (view (kmem_mem s) N) (Z.of_nat (length us) * PGSIZE) 1 pg perm va) ->
  user_pages s' l' root N' (us ++ [(pg, perm)]).
Proof.
  intros Hu Hpg Hpl Hpn Hpu Hp HR He Hv. pose proof (up_bound _ _ _ _ _ Hu) as Hb.
  assert (forall x, x ∈ l' -> x ∈ l) as Hl by (destruct (ext_free _ _ _ _ _ _ _ He) as [k ->]; set_solver).
  assert (forall x, x ∉ l -> not_node N x -> not_node N' x) as Hnn.
  { intros x Hx Hn q y Hq ->. destruct (ext_new _ _ _ _ _ _ _ He q x Hq); [by eapply Hn|done]. }
  rewrite MAXVA_val in Hv. unfold map_view, PGSIZE in Hv. split.
  - apply He.
  - intros i pa perm' [Hi|[Hi Hi']]%lookup_app_Some; unfold PGSIZE.
    + pose proof (lookup_lt_Some _ _ _ Hi). rewrite Hv, decide_False by lia. by apply (up_map _ _ _ _ _ Hu).
    + apply list_lookup_singleton_Some in Hi' as [Hi' [= <- <-]].
      rewrite Hv, decide_True by lia. f_equal. assert (i = length us) as -> by lia. dlia.
  - intros i pa perm' [Hi|[Hi Hi']]%lookup_app_Some.
    + destruct (up_page _ _ _ _ _ Hu _ _ _ Hi) as (? & ? & ? & ?). split_and!; auto; tauto.
    + apply list_lookup_singleton_Some in Hi' as [Hi' [= <- <-]]. split_and!; auto; lia.
  - rewrite fmap_app. apply NoDup_app. split_and!; [apply Hu| |apply NoDup_singleton].
    intros x Hx ->%list_elem_of_singleton. done.
  - intros va. rewrite length_app, TRAPFRAME_val. simpl. unfold PGSIZE. intros Hva. rewrite Hv by lia. rewrite decide_False by lia.
    apply (up_free _ _ _ _ _ Hu). rewrite TRAPFRAME_val. unfold PGSIZE. lia.
  - intros va. rewrite TRAPFRAME_val, MAXVA_val. intros Hva. rewrite Hv, decide_False by lia.
    apply (up_high _ _ _ _ _ Hu). rewrite TRAPFRAME_val, MAXVA_val. lia.
Qed.

(** Giving an unmapped page back. *)
Lemma up_untouched s l root N us s' l' N' pg s2 :
  user_pages s l root N us -> page_ok pg -> pg ∉ l -> not_node N pg -> pg ∉ us.*1 ->
  vm_ext root s l N s' l' N' ->
  (forall va, 0 <= va < MAXVA -> view (kmem_mem s') N' va = view (kmem_mem s) N va) ->
  kmem_inv s2 (pg :: l') -> outside_page pg (kmem_mem s') (kmem_mem s2) ->
  user_pages s2 (pg :: l') root N' us.
Proof.
  intros Hu Hpg Hpl Hpn Hpu He Hv Hk Ho.
  assert (forall x, x ∈ l' -> x ∈ l) as Hl by (destruct (ext_free _ _ _ _ _ _ _ He) as [k ->]; set_solver).
  assert (forall x, x ∉ l -> not_node N x -> not_node N' x) as Hnn.
  { intros x Hx Hn q y Hq ->. destruct (ext_new _ _ _ _ _ _ _ He q x Hq); [by eapply Hn|done]. }
  destruct (ext_inv _ _ _ _ _ _ _ He) as (Hk' & Hr' & Hd').
  assert (same_nodes N' (kmem_mem s') (kmem_mem s2)) as Hs
    by (eapply outside_same_nodes; eauto).
  pose proof (up_bound _ _ _ _ _ Hu) as Hb. rewrite MAXVA_val in Hv. split.
  - split_and!; [done|by eapply same_nodes_rep|]. intros p x Hp.
    apply not_elem_of_cons. split; [by eapply Hnn|by eapply Hd'].
  - intros i pa perm Hi. pose proof (lookup_lt_Some _ _ _ Hi).
    rewrite (same_nodes_view N' _ _ _ Hs), Hv by (unfold PGSIZE; lia). by apply (up_map _ _ _ _ _ Hu).
  - intros i pa perm Hi. destruct (up_page _ _ _ _ _ Hu _ _ _ Hi) as (? & ? & ? & ?).
    split; [done|split; [|split; [by apply Hnn|done]]].
    apply not_elem_of_cons. split; [|by intros ?%Hl]. intros ->.
    apply Hpu, list_elem_of_fmap. exists (pg, perm). split; [done|]. by eapply list_elem_of_lookup_2.
  - apply Hu.
  - intros va Hva. pose proof Hva as Hva'. rewrite TRAPFRAME_val in Hva'. unfold PGSIZE in Hva'.
    rewrite (same_nodes_view N' _ _ _ Hs), Hv by lia. by apply (up_free _ _ _ _ _ Hu).
  - intros va Hva. pose proof Hva as Hva'. rewrite TRAPFRAME_val, MAXVA_val in Hva'.
    rewrite (same_nodes_view N' _ _ _ Hs), Hv by lia. by apply (up_high _ _ _ _ _ Hu).
Qed.

Lemma wp_mappages1 root va pa perm c s l N (Q : cpu -> kmem -> Z -> Prop) :
  LKmem ∉ held c -> vm_inv s l root N -> 0 <= perm < 1024 -> range_ok va 1 pa ->
  (forall va', va <= va' < va + 1 * PGSIZE -> tst (view (kmem_mem s) N va') PTE_V = false) ->
  (forall s' r, mappages_post root s l N va 1 pa perm s' r -> Q c s' r) ->
  wp (mappages root va PGSIZE pa perm) c s Q.
Proof. intros. change PGSIZE with (1 * PGSIZE). by eapply wp_mappages. Qed.

Lemma page_range_ok us pg : page_ok pg -> Z.of_nat us <= 32768 -> range_ok (Z.of_nat us * PGSIZE) 1 pg.
Proof.
  intros Hpg Hb. pose proof (page_ok_pos _ Hpg). destruct Hpg as [_ Hal].
  rewrite PHYSTOP_val in *. unfold KERNBASE in *. unfold range_ok. rewrite MAXVA_val.
  unfold PGSIZE in *. change (2 ^ 56) with 72057594037927936. split_and!; try lia; dlia.
Qed.

(** Facts about the page at the head of the free list. *)
Lemma up_head s pg l root N us : user_pages s (pg :: l) root N us ->
  page_ok pg /\ (pg ∉ l) /\ not_node N pg /\ (pg ∉ us.*1).
Proof.
  intros Hu. pose proof (up_inv _ _ _ _ _ Hu) as ((_ & Hdup & Hok) & _ & Hd).
  apply Forall_cons in Hok as [Hpg _]. apply NoDup_cons in Hdup as [? _]. split_and!; [done|done| |].
  - intros p x Hp ->. apply (Hd p pg Hp). set_solver.
  - intros Hpu. destruct (up_elem _ _ _ _ _ _ Hu Hpu) as (_ & Hn & _). set_solver.
Qed.

(** The part common to [uvmalloc] and [uvmcopy]: take a page, fill it, map it after the last
    page; on failure the address space is as before. *)
Lemma wp_grow {A} root s l N us perm (fill : Z -> mem -> mem) c (e k : M kmem A) Q :
  LKmem ∉ held c -> user_pages s l root N us -> 0 <= perm < 1024 -> tst perm PTE_R = true ->
  (forall pg m, outside_page pg m (fill pg m)) ->
  (forall s' l' N', uv_grow root us s l N s' l' N' [] -> wp e c s' Q) ->
  (forall s' l' N' pg m1, uv_grow root us s l N s' l' N' [(pg, perm)] -> pg ∈ l ->
     outside_page pg (kmem_mem s) m1 ->
     (forall b, pg <= b < pg + PGSIZE -> load8 (kmem_mem s') b = load8 (fill pg m1) b) ->
     wp k c s' Q) ->
  wp (pg <- kalloc ;;
      if pg =? 0 then e else
      upd_mem (fill pg) ;;
      r <- mappages root (Z.of_nat (length us) * PGSIZE) PGSIZE pg perm ;;
      if negb (r =? 0) then kfree pg ;; e else k) c s Q.
Proof.
  intros Hc Hu Hp HR Hfill He Hk. wp_step. pose proof (up_bound _ _ _ _ _ Hu) as Hb.
  eapply wp_kalloc; [done|apply Hu|]. intros s1 r Hpost. destruct l as [|pg l]; simpl in Hpost.
  { destruct Hpost as [-> ->]. simpl. eapply He, uv_grow_refl, Hu. }
  destruct Hpost as (-> & Hk1 & Ho1 & _). destruct (up_head _ _ _ _ _ _ Hu) as (Hpg & Hpl & Hpn & Hpu).
  pose proof (page_ok_pos _ Hpg) as Hpos. unfold KERNBASE in Hpos.
  destruct (Z.eqb_spec pg 0); [lia|]. unfold upd_mem. wp_steps.
  set (s2 := set_mem (fill pg (kmem_mem s1)) s1).
  assert (outside_page pg (kmem_mem s) (kmem_mem s2)) as Ho2 by (eapply outside_page_trans; [done|apply Hfill]).
  assert (kmem_inv s2 l) as Hk2 by (eapply kmem_inv_set_mem; [done..|apply Hfill]).
  pose proof (up_take _ _ _ _ _ _ s2 Hu Hk2 Ho2) as Hu2. simpl length in Hb.
  eapply wp_mappages1; [done|apply Hu2|done|apply page_range_ok; [done|lia]|by eapply up_unmapped|].
  intros s3 r (l3 & N3 & k3 & Hext & Hk3 & Hv3 & Hr).
  assert (frame_out ((pg :: l) ++ node_pages N) (kmem_mem s) (kmem_mem s3)) as Hfr.
  { eapply frame_out_trans; [eapply frame_out_page; [|exact Ho2]; set_solver|].
    eapply frame_out_mono; [|by eapply vm_ext_frame_out]. set_solver. }
  pose proof (ext_perm _ _ _ _ _ _ _ Hext) as Hperm.
  assert (forall va, view (kmem_mem s2) N va = view (kmem_mem s) N va) as Hsame.
  { intros va. apply same_nodes_view. eapply outside_same_nodes; [apply Hu|exact Hpg|exact Hpn|exact Ho2]. }
  destruct Hr as [[-> ->]|(-> & -> & Hlt)]; cbn [Z.eqb negb].
  - eapply (Hk s3 l3 N3 pg (kmem_mem s1)); [|set_solver|done|].
    + split; [by eapply up_snoc|done|simpl; rewrite Hperm; solve_Permutation|].
      intros va Hva. rewrite Hv3 by (rewrite TRAPFRAME_val in Hva; lia). unfold map_view. rewrite TRAPFRAME_val in Hva. rewrite decide_False by (unfold PGSIZE; lia). by apply Hsame.
    + intros b Hb'. change (load8 (kmem_mem s3) b = load8 (kmem_mem s2) b).
      pose proof (up_inv _ _ _ _ _ Hu2) as ((_ & _ & Hok) & Hr2 & _).
      eapply (frame_out_load _ _ _ pg); [by eapply vm_ext_frame_out| |done| |done].
      * apply Forall_app. split; [done|by eapply nodes_page_ok].
      * rewrite elem_of_app, elem_of_node_pages. intros [?|[p Hp']]; [done|by eapply Hpn].
  - assert (k3 = 0) as -> by lia. wp_step. eapply wp_kfree; [done|apply Hext|done|set_solver|].
    intros s4 Hk4 Ho4. eapply He. split.
    + rewrite app_nil_r. eapply up_untouched; try done. intros va Hva. rewrite Hv3 by done. apply map_view_0.
    + eapply frame_out_trans; [done|]. eapply frame_out_page; [|exact Ho4]. set_solver.
    + simpl. rewrite app_nil_r, Hperm. done.
    + intros va Hva. destruct (ext_inv _ _ _ _ _ _ _ Hext) as (_ & Hr3 & _).
      assert (same_nodes N3 (kmem_mem s3) (kmem_mem s4)) as Hs4.
      { eapply outside_same_nodes; [exact Hr3|exact Hpg| |exact Ho4]. intros q y Hq ->. destruct (ext_new _ _ _ _ _ _ _ Hext q pg Hq); [by eapply Hpn|done]. }
      rewrite (same_nodes_view N3 _ _ _ Hs4), Hv3, map_view_0 by (rewrite TRAPFRAME_val in Hva; lia). apply Hsame.
Qed.

(** Undoing the growth leaves the pages it took on the free list, apart from page-table
    pages. *)
Lemma uv_grow_undo root us s l N s1 l1 N1 new s2 :
  vm_inv s l root N -> uv_grow root us s l N s1 l1 N1 new -> dealloc_post s1 l1 root N1 us new s2 ->
  uv_grow root us s l N s2 (reverse new.*1 ++ l1) N1 [].
Proof.
  intros Hi [Hu Hf Hp Hh] (Hu2 & Hf2 & Hh2). split.
  - by rewrite app_nil_r.
  - eapply frame_out_trans; [done|]. eapply frame_out_mono; [|done]. intros p. rewrite Hp. set_solver.
  - simpl. rewrite app_nil_r, Hp, reverse_Permutation. solve_Permutation.
  - intros va Hva. by rewrite Hh2, Hh.
Qed.

(** * [uvmalloc] *)

Definition zero_page (m : mem) (pa : Z) : Prop := forall b, pa <= b < pa + PGSIZE -> load8 m b = 0.

Definition with_perm (perm : Z) (ps : list Z) : list (Z * Z) := (fun pa => (pa, perm)) <$> ps.

Lemma with_perm_fst perm ps : (with_perm perm ps).*1 = ps.
Proof. unfold with_perm. rewrite <- list_fmap_compose. by apply list_fmap_id. Qed.

(** Enough memory: the pages up to [newsz] are added, zero-filled. Not enough: 0, and the
    address space is as before. *)
Definition uvmalloc_post (root : Z) (us : list (Z * Z)) (s : kmem) (l : list Z)
    (N : gmap (list Z) Z) (newsz perm : Z) (s' : kmem) (r : Z) : Prop :=
  exists l' N' ps,
    uv_grow root us s l N s' l' N' (with_perm perm ps) /\
    Forall (zero_page (kmem_mem s')) ps /\
    (r = newsz /\ (newsz + 4095) / 4096 = Z.of_nat (length us + length ps) \/
     r = 0 /\ ps = []).

Lemma zero_page_grow root us s l N s1 l1 N1 new s2 l2 N2 new2 ps :
  uv_grow root us s l N s1 l1 N1 new -> uv_grow root (us ++ new) s1 l1 N1 s2 l2 N2 new2 ->
  new.*1 = ps -> Forall (zero_page (kmem_mem s1)) ps -> Forall (zero_page (kmem_mem s2)) ps.
Proof.
  intros Hg1 Hg2 <- Hz. rewrite Forall_forall in *. intros pa Hpa b Hb.
  destruct (up_elem _ _ _ _ _ pa (ug_user _ _ _ _ _ _ _ _ _ Hg1)) as (? & ? & ?).
  { rewrite fmap_app. set_solver. }
  rewrite (uv_grow_load _ _ _ _ _ _ _ _ _ pa b (up_inv _ _ _ _ _ (ug_user _ _ _ _ _ _ _ _ _ Hg1)) Hg2) by done.
  by apply (Hz pa).
Qed.

Lemma uvmalloc_loop root us s l N newsz perm oldsz c (Q : cpu -> kmem -> Z -> Prop) fuel s1 l1 N1 ps :
  LKmem ∉ held c -> user_pages s l root N us -> 0 <= perm < 1024 -> tst perm PTE_R = true ->
  oldsz = Z.of_nat (length us) * PGSIZE -> 0 <= newsz ->
  (forall s' r, uvmalloc_post root us s l N newsz perm s' r -> Q c s' r) ->
  uv_grow root us s l N s1 l1 N1 (with_perm perm ps) ->
  Forall (zero_page (kmem_mem s1)) ps ->
  Z.of_nat (length us + length ps) <= (newsz + 4095) / 4096 < Z.of_nat (length us + length ps) + Z.of_nat fuel ->
  wp (loop fuel (fun a =>
    if a <? newsz then
      pg <- kalloc ;;
      if pg =? 0 then uvmdealloc root a oldsz ;; ret (inr 0) else
      upd_mem (fun m => memset m pg 0 PGSIZE) ;;
      r <- mappages root a PGSIZE pg perm ;;
      if negb (r =? 0) then kfree pg ;; uvmdealloc root a oldsz ;; ret (inr 0)
      else ret (inl (u64 (a + PGSIZE)))
    else ret (inr newsz)) (Z.of_nat (length us + length ps) * PGSIZE)) c s1 Q.
Proof.
  intros Hc Hu Hp HR Hold Hnew HQ. revert s1 l1 N1 ps.
  induction fuel as [|fuel IH]; intros s1 l1 N1 ps Hg Hz Hf; [lia|]. simpl loop. wp_step.
  destruct (Z.ltb_spec (Z.of_nat (length us + length ps) * PGSIZE) newsz) as [Hlt|Hge]; unfold PGSIZE in *.
  2: { wp_steps. apply HQ. exists l1, N1, ps. split_and!; [done|done|]. left. split; [done|]. dlia. }
  assert (length us + length ps = length (us ++ with_perm perm ps))%nat as Hlen
    by (unfold with_perm; rewrite length_app, length_fmap; done).
  pose proof (ug_user _ _ _ _ _ _ _ _ _ Hg) as Hu1. rewrite Hlen.
  eapply (wp_grow root s1 l1 N1 (us ++ with_perm perm ps) perm (fun pg m => memset m pg 0 4096));
    [done|done|done|done| | |].
  - intros. apply outside_page_memset.
  - intros s2 l2 N2 Hg2. pose proof (uv_grow_trans _ _ _ _ _ _ _ _ _ _ _ _ _ Hg Hg2) as Hg'.
    rewrite app_nil_r in Hg'. pose proof (ug_user _ _ _ _ _ _ _ _ _ Hg') as Hu2.
    pose proof (up_bound _ _ _ _ _ Hu2) as Hb. wp_step. rewrite Hold.
    eapply wp_uvmdealloc; [done|done|rewrite length_app; lia| | |].
    + apply size_pages_aligned. lia.
    + rewrite length_app in Hb. apply size_pages_aligned. lia.
    + intros s3 Hd. wp_steps. apply HQ. eexists _, N2, []. split_and!; [|done|by right].
      eapply uv_grow_undo; [apply Hu|done|done].
  - intros s2 l2 N2 pg m1 Hg2 Hin _ Hc2. wp_steps.
    pose proof (uv_grow_trans _ _ _ _ _ _ _ _ _ _ _ _ _ Hg Hg2) as Hg'.
    pose proof (up_bound _ _ _ _ _ (ug_user _ _ _ _ _ _ _ _ _ Hg')) as Hb.
    rewrite !length_app in Hb. unfold with_perm in Hb. rewrite length_fmap in Hb. rewrite u64_small by lia.
    rewrite <- Hlen. replace (Z.of_nat (length us + length ps) * 4096 + 4096)
      with (Z.of_nat (length us + length (ps ++ [pg])) * 4096) by (rewrite length_app; simpl; lia).
    apply (IH s2 l2 N2).
    + unfold with_perm in *. by rewrite fmap_app.
    + apply Forall_app. split; [eapply zero_page_grow; [exact Hg|exact Hg2|apply with_perm_fst|done]|].
      constructor; [|done]. intros b Hb'. rewrite Hc2 by done. unfold PGSIZE in Hb'.
      rewrite load8_memset by lia. by rewrite decide_True.
    + rewrite length_app. simpl. dlia.
Qed.

Lemma wp_uvmalloc root s l N us oldsz newsz xperm c (Q : cpu -> kmem -> Z -> Prop) :
  let perm := Z.lor (Z.lor PTE_R PTE_U) xperm in
  LKmem ∉ held c -> user_pages s l root N us -> 0 <= xperm < 1024 ->
  size_pages oldsz (length us) -> oldsz <= newsz ->
  (forall s' r, uvmalloc_post root us s l N newsz perm s' r -> Q c s' r) ->
  wp (uvmalloc root oldsz newsz xperm) c s Q.
Proof.
  intros perm Hc Hu Hx Ho Hle HQ. unfold uvmalloc. destruct (Z.ltb_spec newsz oldsz); [lia|].
  rewrite (size_pages_roundup _ _ Ho). destruct Ho as [Ho1 Ho2]. fold perm.
  assert (0 <= perm < 1024) as Hp.
  { unfold perm. split; [apply Z.lor_nonneg; split; [done|lia]|].
    destruct (decide (Z.lor (Z.lor PTE_R PTE_U) xperm = 0)) as [->|]; [lia|].
    apply Z.log2_lt_cancel. rewrite Z.log2_lor; [|done|lia]. change (Z.log2 1024) with 10.
    apply Z.max_lub_lt; [done|]. destruct (decide (xperm = 0)) as [->|]; [done|].
    apply Z.log2_lt_pow2; lia. }
  pose proof (uvmalloc_loop root us s l N newsz perm (Z.of_nat (length us) * PGSIZE) c Q) as Hl.
  specialize (Hl (S (Z.to_nat ((newsz - Z.of_nat (length us) * PGSIZE) / PGSIZE + 1))) s l N []).
  simpl length in Hl. rewrite Nat.add_0_r in Hl. apply Hl; try done; try lia.
  - unfold PTE_R. rewrite tst_testbit by lia. unfold perm. by rewrite !Z.lor_spec.
  - by apply uv_grow_refl.
  - unfold PGSIZE. dlia.
Qed.

(** * [uvmcopy] *)

(** A page with the same bytes. *)
Definition copy_of (m m' : mem) (pa pg : Z) : Prop :=
  forall k, 0 <= k < PGSIZE -> load8 m' (pg + k) = load8 m (pa + k).

(** The child's [i]-th page is a copy of the parent's, with the same flags. *)
Definition copies (m m' : mem) : list (Z * Z) -> list (Z * Z) -> Prop :=
  Forall2 (fun u c => copy_of m m' u.1 c.1 /\ c.2 = Z.lor u.2 1).

Section copy.
Context (old new : Z) (s : kmem) (l : list Z) (N N0 : gmap (list Z) Z) (us : list (Z * Z)).
Hypothesis Hold : user_pages s l old N us.
Hypothesis Hnew : user_pages s l new N0 [].
Hypothesis Hdisj : forall pa, pa ∈ node_pages N0 -> (pa ∉ us.*1) /\ not_node N pa.

Lemma copy_pages_ok : Forall page_ok (l ++ node_pages N0).
Proof.
  pose proof (up_inv _ _ _ _ _ Hnew) as ((_ & _ & Hl) & Hr & _).
  apply Forall_app. split; [done|by eapply nodes_page_ok].
Qed.

(** The parent's address space is not affected by building the child's. *)
Lemma copy_parent s1 l1 N1 cs :
  uv_grow new [] s l N0 s1 l1 N1 cs -> user_pages s1 l1 old N us.
Proof.
  intros Hg.
  assert (forall pa, pa ∈ l ++ node_pages N0 -> (pa ∉ us.*1) /\ not_node N pa) as Hfresh.
  { intros pa [Hin|Hin]%elem_of_app; [|by apply Hdisj]. split.
    - intros Hu. by destruct (up_elem _ _ _ _ _ _ Hold Hu) as (_ & ? & _).
    - intros p x Hp ->. destruct (up_inv _ _ _ _ _ Hold) as (_ & _ & Hd). by eapply Hd. }
  eapply user_pages_frame; [exact Hold| |apply Hg|apply copy_pages_ok| |].
  - apply (ug_user _ _ _ _ _ _ _ _ _ Hg).
  - intros pa Hpa. by apply Hfresh.
  - intros pa Hpa. apply Hfresh. rewrite (ug_perm _ _ _ _ _ _ _ _ _ Hg). set_solver.
Qed.

Lemma copy_parent_load s1 l1 N1 cs pa b :
  uv_grow new [] s l N0 s1 l1 N1 cs -> pa ∈ us.*1 -> pa <= b < pa + PGSIZE ->
  load8 (kmem_mem s1) b = load8 (kmem_mem s) b.
Proof.
  intros Hg Hpa Hb. destruct (up_elem _ _ _ _ _ _ Hold Hpa) as (? & ? & _).
  eapply uv_grow_load; [apply Hnew|exact Hg|..]; try done.
  intros p x Hp ->. destruct (Hdisj pa) as [Hn _]; [|done]. apply elem_of_node_pages. eauto.
Qed.

(** One more page. *)
Lemma copies_snoc s1 l1 N1 cs s2 l2 N2 m1 pa perm pg :
  uv_grow new [] s l N0 s1 l1 N1 cs ->
  uv_grow new ([] ++ cs) s1 l1 N1 s2 l2 N2 [(pg, Z.lor perm 1)] -> pg ∈ l1 ->
  outside_page pg (kmem_mem s1) m1 ->
  (forall b, pg <= b < pg + PGSIZE -> load8 (kmem_mem s2) b = load8 (memmove m1 pg pa PGSIZE) b) ->
  us !! length cs = Some (pa, perm) ->
  copies (kmem_mem s) (kmem_mem s1) (take (length cs) us) cs ->
  copies (kmem_mem s) (kmem_mem s2) (take (S (length cs)) us) (cs ++ [(pg, Z.lor perm 1)]).
Proof.
  intros Hg1 Hg2 Hpg Ho Hc Hus Hcs. erewrite take_S_r by done. apply Forall2_app.
  - apply Forall2_same_length_lookup in Hcs as [Hlen Hcs].
    apply Forall2_same_length_lookup. split; [done|]. intros i u c' Hi Hi'.
    destruct (Hcs i u c' Hi Hi') as [Hk Hp]. apply list_elem_of_lookup_2 in Hi'. split; [|done].
    intros k Hk'. rewrite <- Hk by done. unfold PGSIZE in *.
    destruct (up_elem _ _ _ _ _ c'.1 (ug_user _ _ _ _ _ _ _ _ _ Hg1)) as (? & ? & ?).
    { simpl. apply list_elem_of_fmap. eauto. }
    eapply (uv_grow_load _ _ _ _ _ _ _ _ _ c'.1 _ (up_inv _ _ _ _ _ (ug_user _ _ _ _ _ _ _ _ _ Hg1)) Hg2); try done.
    unfold PGSIZE. lia.
  - constructor; [|constructor]. split; [|done]. simpl. intros k Hk. unfold PGSIZE in *.
    rewrite Hc, load8_memmove, decide_True by lia.
    pose proof (copy_parent _ _ _ _ Hg1) as Hp1.
    destruct (up_page _ _ _ _ _ Hp1 _ _ _ Hus) as (Hpa & Hpl & _).
    assert (pa ∈ us.*1) as Hin
      by (apply list_elem_of_fmap; exists (pa, perm); split; [done|by eapply list_elem_of_lookup_2]).
    assert (page_ok pg) as Hpgok.
    { destruct (up_inv _ _ _ _ _ Hp1) as ((_ & _ & Hf) & _). rewrite Forall_forall in Hf. by apply Hf. }
    replace (pg + k - pg) with k by lia. unfold outside_page, PGSIZE in Ho. rewrite Ho.
    + eapply (copy_parent_load _ _ _ _ pa); [done|done|unfold PGSIZE; lia].
    + destruct (pages_apart pa pg Hpa Hpgok); unfold PGSIZE in *; [by intros ->|lia|lia].
Qed.

(** Success: every page copied. Failure (out of memory): -1, the child is empty again. In
    both cases the parent is untouched. *)
Definition uvmcopy_post (s' : kmem) (r : Z) : Prop :=
  exists l' N' cs, uv_grow new [] s l N0 s' l' N' cs /\ user_pages s' l' old N us /\
    (r = 0 /\ copies (kmem_mem s) (kmem_mem s') us cs \/ r = -1 /\ cs = []).

Lemma copy_undo s1 l1 N1 cs c (Q : cpu -> kmem -> Z + Z -> Prop) :
  LKmem ∉ held c -> uv_grow new [] s l N0 s1 l1 N1 cs ->
  (forall s', uvmcopy_post s' (-1) -> Q c s' (inr (-1))) ->
  wp (uvmunmap new 0 (Z.of_nat (length cs) * PGSIZE / PGSIZE) true ;; ret (inr (-1))) c s1 Q.
Proof.
  intros Hc Hg HQ. rewrite Z.div_mul by done. wp_step.
  eapply (wp_uvmunmap_user new s1 l1 N1 [] cs); [done|apply Hg|].
  intros s2 Hd. wp_steps. apply HQ.
  pose proof (uv_grow_undo _ _ _ _ _ _ _ _ _ _ (up_inv _ _ _ _ _ Hnew) Hg Hd) as Hg2.
  eexists _, N1, []. split_and!; [exact Hg2|by eapply copy_parent|by right].
Qed.

Lemma uvmcopy_loop sz c (Q : cpu -> kmem -> Z -> Prop) fuel s1 l1 N1 cs :
  LKmem ∉ held c -> size_pages sz (length us) ->
  (forall s' r, uvmcopy_post s' r -> Q c s' r) ->
  uv_grow new [] s l N0 s1 l1 N1 cs ->
  copies (kmem_mem s) (kmem_mem s1) (take (length cs) us) cs ->
  (length us < length cs + fuel)%nat ->
  wp (loop fuel (fun i =>
    if i <? sz then
      ptea <- walk old i false ;;
      if ptea =? 0 then panic "uvmcopy: pte should exist" else
      pte <- load_pte ptea ;;
      if negb (tst pte PTE_V) then panic "uvmcopy: page not present" else
      let pa := PTE2PA pte in
      let flags := PTE_FLAGS pte in
      pg <- kalloc ;;
      if pg =? 0 then uvmunmap new 0 (i / PGSIZE) true ;; ret (inr (-1)) else
      upd_mem (fun m => memmove m pg pa PGSIZE) ;;
      r <- mappages new i PGSIZE pg flags ;;
      if negb (r =? 0) then kfree pg ;; uvmunmap new 0 (i / PGSIZE) true ;; ret (inr (-1))
      else ret (inl (u64 (i + PGSIZE)))
    else ret (inr 0)) (Z.of_nat (length cs) * PGSIZE)) c s1 Q.
Proof.
  intros Hc Hsz HQ. revert s1 l1 N1 cs.
  induction fuel as [|fuel IH]; intros s1 l1 N1 cs Hg Hcp Hf; simpl loop.
  { exfalso. apply Forall2_length in Hcp. rewrite length_take in Hcp. lia. }
  wp_step. pose proof (copy_parent _ _ _ _ Hg) as Hp. destruct (Hsz) as [Hs1 Hs2].
  pose proof (up_bound _ _ _ _ _ Hp) as Hb. unfold PGSIZE in *.
  destruct (Z.ltb_spec (Z.of_nat (length cs) * 4096) sz) as [Hlt|Hge].
  2: { wp_steps. apply HQ. exists l1, N1, cs. split_and!; [done|done|]. left. split; [done|].
       rewrite take_ge in Hcp; [done|dlia]. }
  assert (length cs < length us)%nat as Hlt' by dlia.
  destruct (lookup_lt_is_Some_2 us (length cs) Hlt') as [[pa perm] Hus].
  pose proof (up_map _ _ _ _ _ Hp _ _ _ Hus) as Hv. unfold PGSIZE in Hv.
  destruct (up_page _ _ _ _ _ Hp _ _ _ Hus) as (Hpa & _ & _ & Hperm & HR).
  pose proof (page_ok_pa _ Hpa) as Hpa'.
  eapply (wp_walk_load old N); [apply Hp|rewrite MAXVA_val; lia| |].
  { intros Hn. unfold view in Hv. rewrite Hn in Hv. pose proof (tst_mkpte_V pa perm Hpa' Hperm) as HV.
    by rewrite <- Hv, tst_0 in HV. }
  intros a _. rewrite Hv, tst_mkpte_V by done. cbn [negb]. cbv zeta.
  rewrite PTE2PA_mkpte, PTE_FLAGS_mkpte by done.
  eapply (wp_grow new s1 l1 N1 ([] ++ cs) (Z.lor perm 1) (fun pg m => memmove m pg pa 4096));
    [done|apply Hg|by apply lor_1_range| | | |].
  - unfold PTE_R in *. rewrite tst_testbit in * by lia. by rewrite Z.lor_spec, HR.
  - intros pg m b Hb'. unfold PGSIZE in Hb'. rewrite load8_memmove by lia. by rewrite decide_False.
  - intros s2 l2 N2 Hg2. pose proof (uv_grow_trans _ _ _ _ _ _ _ _ _ _ _ _ _ Hg Hg2) as Hg'.
    rewrite app_nil_r in Hg'. eapply copy_undo; [done|exact Hg'|]. intros s3 Hp3. wp_steps. by apply HQ.
  - intros s2 l2 N2 pg m1 Hg2 Hpg Ho Hld. wp_steps. simpl in Hg2 |- *. rewrite u64_small by lia.
    replace (Z.of_nat (length cs) * 4096 + 4096) with (Z.of_nat (length (cs ++ [(pg, Z.lor perm 1)])) * 4096)
      by (rewrite length_app; simpl; lia).
    eapply (IH s2 l2 N2).
    + exact (uv_grow_trans _ _ _ _ _ _ _ _ _ _ _ _ _ Hg Hg2).
    + rewrite length_app. simpl. rewrite Nat.add_1_r. by eapply copies_snoc.
    + rewrite length_app. simpl. lia.
Qed.

Lemma wp_uvmcopy sz c (Q : cpu -> kmem -> Z -> Prop) :
  LKmem ∉ held c -> size_pages sz (length us) ->
  (forall s' r, uvmcopy_post s' r -> Q c s' r) -> wp (uvmcopy old new sz) c s Q.
Proof.
  intros Hc Hsz HQ. unfold uvmcopy. eapply (uvmcopy_loop sz c Q _ s l N0 []); try done.
  - by apply uv_grow_refl.
  - constructor.
  - destruct Hsz as [_ Hs]. simpl length. unfold PGSIZE. dlia.
Qed.
End copy.
End user.
