(* ===== verification/VmCopy.v ===== *)
(** Copying between the kernel and user memory: [copyout], [copyin], [copyinstr] and
    [uvmclear] over the address spaces of VmUser. *)
From S2P Require Import Prelude Memory Riscv Kalloc Vm VmTree VmMap VmUser.

Section copyio.
Context `{Layout}.

(** The physical address behind a user virtual address. *)
Definition uaddr (f : Z -> Z) (va : Z) : Z := PTE2PA (f va) + va mod 4096.

(** The kernel may read ([w = false]) or write user memory at [va]. *)
Definition accessible (w : bool) (f : Z -> Z) (va : Z) : bool :=
  (va <? MAXVA) && tst (f va) PTE_V && tst (f va) PTE_U && (negb w || tst (f va) PTE_W).

Definition uview (s : kmem) (N : gmap (list Z) Z) : Z -> Z := view (kmem_mem s) N.

Lemma accessible_page w s N va va' :
  0 <= va -> va / 4096 = va' / 4096 -> accessible w (uview s N) va = accessible w (uview s N) va'.
Proof.
  intros Hva He. unfold accessible, uview. rewrite (view_page _ _ va va') by done.
  assert ((va <? MAXVA) = (va' <? MAXVA)) as ->; [|done]. rewrite MAXVA_val.
  destruct (Z.ltb_spec va 274877906944), (Z.ltb_spec va' 274877906944); try done; dlia.
Qed.

Lemma uaddr_page s N va va' :
  va / 4096 = va' / 4096 -> uaddr (uview s N) va' = PTE2PA (uview s N va) + va' mod 4096.
Proof. intros He. unfold uaddr, uview. by rewrite (view_page _ _ va va'). Qed.

(** What is accessible is one of the process's own pages. *)
Lemma accessible_own w s l root N us va :
  user_pages s l root N us -> 0 <= va -> accessible w (uview s N) va = true ->
  exists pa perm, us !! Z.to_nat (va / 4096) = Some (pa, perm) /\ PTE2PA (uview s N va) = pa /\
    va < MAXVA.
Proof.
  unfold accessible. intros Hu Hva [[[Hmax HV]%andb_true_iff HU]%andb_true_iff _]%andb_true_iff.
  apply Z.ltb_lt in Hmax.
  destruct (decide (TRAPFRAME <= va)) as [Hhi|Hlo].
  { unfold uview in HU. by rewrite (up_high _ _ _ _ _ Hu) in HU by lia. }
  destruct (us !! Z.to_nat (va / 4096)) as [[pa perm]|] eqn:Hi.
  - exists pa, perm. split_and!; [done| |done].
    destruct (up_page _ _ _ _ _ Hu _ _ _ Hi) as (Hpa & _ & _ & Hp & _).
    pose proof (up_map _ _ _ _ _ Hu _ _ _ Hi) as Hv. rewrite Z2Nat.id in Hv by dlia.
    unfold uview. rewrite (view_page _ _ va (va / 4096 * PGSIZE)) by (unfold PGSIZE; dlia).
    rewrite Hv. apply PTE2PA_mkpte; [by apply page_ok_pa|done].
  - apply lookup_ge_None in Hi. unfold uview in HV.
    rewrite (up_free _ _ _ _ _ Hu), tst_0 in HV by (unfold PGSIZE; dlia). done.
Qed.

Lemma accessible_elem w s l root N us va :
  user_pages s l root N us -> 0 <= va -> accessible w (uview s N) va = true ->
  PTE2PA (uview s N va) ∈ us.*1.
Proof.
  intros Hu Hva Ha. destruct (accessible_own _ _ _ _ _ _ _ Hu Hva Ha) as (pa & perm & Hi & -> & _).
  apply list_elem_of_fmap. exists (pa, perm). split; [done|]. by eapply list_elem_of_lookup_2.
Qed.

(** Distinct accessible addresses are distinct bytes of physical memory. *)
Lemma uaddr_inj w w' s l root N us va va' :
  user_pages s l root N us -> 0 <= va -> 0 <= va' ->
  accessible w (uview s N) va = true -> accessible w' (uview s N) va' = true ->
  uaddr (uview s N) va = uaddr (uview s N) va' -> va = va'.
Proof.
  intros Hu Hva Hva' Ha Ha' He. unfold uaddr in He.
  destruct (accessible_own _ _ _ _ _ _ _ Hu Hva Ha) as (pa & perm & Hi & Hpa & _).
  destruct (accessible_own _ _ _ _ _ _ _ Hu Hva' Ha') as (pa' & perm' & Hi' & Hpa' & _).
  rewrite Hpa, Hpa' in He.
  destruct (up_page _ _ _ _ _ Hu _ _ _ Hi) as ([_ Hal] & _).
  destruct (up_page _ _ _ _ _ Hu _ _ _ Hi') as ([_ Hal'] & _).
  unfold PGSIZE in *. assert (pa = pa') as <- by dlia.
  assert (Z.to_nat (va / 4096) = Z.to_nat (va' / 4096)) as Hn.
  { eapply (NoDup_lookup us.*1 _ _ pa); [apply Hu|..]; rewrite list_lookup_fmap.
    - by rewrite Hi.
    - by rewrite Hi'. }
  apply Z2Nat.inj in Hn; dlia.
Qed.

(** * [copyout] *)

(** [k] bytes were written, each at its user address, and nothing else changed; all of
    [src] on success, and on failure the next byte is not writable. *)
Definition copyout_post (s : kmem) (N : gmap (list Z) Z) (dstva : Z) (src : list Z)
    (s' : kmem) (r : Z) : Prop :=
  exists k : nat, (k <= length src)%nat /\ freelist s' = freelist s /\
    (forall i v, (i < k)%nat -> src !! i = Some v ->
       accessible true (uview s N) (dstva + Z.of_nat i) = true /\
       load8 (kmem_mem s') (uaddr (uview s N) (dstva + Z.of_nat i)) = u8 v) /\
    (forall b, (forall i, (i < k)%nat -> b <> uaddr (uview s N) (dstva + Z.of_nat i)) ->
       load8 (kmem_mem s') b = load8 (kmem_mem s) b) /\
    (r = 0 /\ k = length src \/
     r = -1 /\ (k < length src)%nat /\ accessible true (uview s N) (dstva + Z.of_nat k) = false).

(** A write that stays inside the page of an accessible address. *)
Lemma write_chunk s l root N us dstva (bytes : list Z) :
  user_pages s l root N us -> 0 <= dstva -> accessible true (uview s N) dstva = true ->
  Z.of_nat (length bytes) <= 4096 - dstva mod 4096 ->
  let m1 := store_bytes (kmem_mem s) (uaddr (uview s N) dstva) bytes in
  user_pages (set_mem m1 s) l root N us /\
  (forall va, uview (set_mem m1 s) N va = uview s N va) /\
  (forall i v, bytes !! i = Some v ->
     accessible true (uview s N) (dstva + Z.of_nat i) = true /\
     load8 m1 (uaddr (uview s N) (dstva + Z.of_nat i)) = u8 v) /\
  (forall b, (forall i, (i < length bytes)%nat -> b <> uaddr (uview s N) (dstva + Z.of_nat i)) ->
     load8 m1 b = load8 (kmem_mem s) b).
Proof.
  intros Hu Hva Ha Hlen m1. set (pa := PTE2PA (uview s N dstva)).
  pose proof (accessible_elem _ _ _ _ _ _ _ Hu Hva Ha) as Hin. fold pa in Hin.
  destruct (up_elem _ _ _ _ _ _ Hu Hin) as (Hok & _ & Hnn).
  assert (forall i, (i < length bytes)%nat -> uaddr (uview s N) (dstva + Z.of_nat i) = uaddr (uview s N) dstva + Z.of_nat i /\
            dstva / 4096 = (dstva + Z.of_nat i) / 4096) as Hchunk.
  { intros i Hi. assert (dstva / 4096 = (dstva + Z.of_nat i) / 4096) as He by dlia.
    split; [|done]. rewrite (uaddr_page _ _ _ _ He). unfold uaddr. dlia. }
  assert (outside_page pa (kmem_mem s) m1) as Ho.
  { intros b Hb. apply load8_store_bytes_out. unfold uaddr, PGSIZE in *. fold pa. dlia. }
  split_and!.
  - by eapply user_pages_write.
  - intros va. unfold uview. simpl. apply same_nodes_view.
    eapply outside_same_nodes; [apply Hu|exact Hok|done|done].
  - intros i v Hi. pose proof (lookup_lt_Some _ _ _ Hi) as Hlt. destruct (Hchunk i Hlt) as [-> He].
    split; [by rewrite <- (accessible_page _ _ _ _ _ Hva He)|].
    unfold m1. rewrite load8_store_bytes, decide_True by lia.
    replace (Z.to_nat _) with i by lia. by rewrite (list_lookup_total_correct _ _ _ Hi).
  - intros b Hb. apply load8_store_bytes_out. intros Hr.
    apply (Hb (Z.to_nat (b - uaddr (uview s N) dstva))); [lia|].
    destruct (Hchunk (Z.to_nat (b - uaddr (uview s N) dstva))) as [-> _]; lia.
Qed.

(** Writing a chunk and then the rest. *)
Lemma copyout_compose s l root N us dstva src n m1 s' r :
  user_pages s l root N us -> 0 <= dstva -> (n <= length src)%nat ->
  (forall va, uview (set_mem m1 s) N va = uview s N va) ->
  (forall i v, take n src !! i = Some v ->
     accessible true (uview s N) (dstva + Z.of_nat i) = true /\
     load8 m1 (uaddr (uview s N) (dstva + Z.of_nat i)) = u8 v) ->
  (forall b, (forall i, (i < n)%nat -> b <> uaddr (uview s N) (dstva + Z.of_nat i)) ->
     load8 m1 b = load8 (kmem_mem s) b) ->
  copyout_post (set_mem m1 s) N (dstva + Z.of_nat n) (drop n src) s' r ->
  copyout_post s N dstva src s' r.
Proof.
  intros Hu Hva Hn Hv Hw Hf (k & Hk & Hfl & Hk1 & Hk2 & Hr). simpl in *. rewrite length_drop in *.
  assert (forall va, uaddr (uview (set_mem m1 s) N) va = uaddr (uview s N) va) as Hua
    by (intros; unfold uaddr; by rewrite Hv).
  assert (forall w va, accessible w (uview (set_mem m1 s) N) va = accessible w (uview s N) va) as Hac
    by (intros; unfold accessible; by rewrite Hv).
  assert (forall i, (i < k)%nat -> accessible true (uview s N) (dstva + Z.of_nat n + Z.of_nat i) = true) as Hack.
  { intros i Hi. destruct (lookup_lt_is_Some_2 (drop n src) i) as [v Hi']; [rewrite length_drop; lia|].
    rewrite <- Hac. by eapply Hk1. }
  exists (n + k)%nat. split_and!; [lia|done| | |].
  - intros i v Hi Hsrc. destruct (decide (i < n)%nat) as [Hlt|Hge].
    + destruct (Hw i v) as [Ha Hl]; [by rewrite lookup_take_lt|]. split; [done|].
      rewrite Hk2; [done|]. intros j Hj He. rewrite Hua in He.
      apply (uaddr_inj true true s l root N us) in He; try done; try lia. by apply Hack.
    + destruct (Hk1 (i - n)%nat v) as [Ha Hl]; [lia| |].
      { rewrite lookup_drop. by replace (n + (i - n))%nat with i by lia. }
      replace (dstva + Z.of_nat n + Z.of_nat (i - n)) with (dstva + Z.of_nat i) in * by lia.
      by rewrite Hua, Hac in *.
  - intros b Hb. rewrite Hk2, Hf; [done| |].
    + intros i Hi. apply Hb. lia.
    + intros i Hi. rewrite Hua. replace (dstva + Z.of_nat n + Z.of_nat i) with (dstva + Z.of_nat (n + i)) by lia.
      apply Hb. lia.
  - rewrite Hac in Hr. replace (dstva + Z.of_nat (n + k)) with (dstva + Z.of_nat n + Z.of_nat k) by lia.
    destruct Hr as [[-> ->]|(-> & ? & ?)]; [left|right]; split_and!; (done || lia).
Qed.

(** [n = PGSIZE - (va - va0)], cut to what is left. *)
Lemma chunk_len va len :
  (if PGSIZE - (va - va / 4096 * 4096) >? len then len else PGSIZE - (va - va / 4096 * 4096)) =
  Z.min (4096 - va mod 4096) len.
Proof. unfold PGSIZE. rewrite Z.gtb_ltb. destruct (Z.ltb_spec len (4096 - (va - va / 4096 * 4096))); dlia. Qed.

Lemma rounddown_div va : (va / 4096 * 4096) / 4096 = va / 4096.
Proof. dlia. Qed.

(** The next page starts where the chunk ends, unless nothing is left. *)
Lemma chunk_next va n len :
  0 <= va < MAXVA -> Z.of_nat n = Z.min (4096 - va mod 4096) len -> Z.of_nat n < len ->
  u64 (va / 4096 * 4096 + PGSIZE) = va + Z.of_nat n.
Proof. rewrite MAXVA_val. unfold PGSIZE. intros. rewrite u64_small by dlia. dlia. Qed.

Lemma chunk_next_range va : 0 <= va < MAXVA -> 0 <= u64 (va / 4096 * 4096 + PGSIZE) < 18446744073709551616.
Proof. intros _. apply u64_range. Qed.

Lemma copyout_nil s N dstva : copyout_post s N dstva [] s 0.
Proof. exists 0%nat. split_and!; try done; try (intros; lia); by left. Qed.

Lemma copyout_fail s N dstva src :
  src <> [] -> accessible true (uview s N) dstva = false -> copyout_post s N dstva src s (-1).
Proof.
  intros Hne Ha. exists 0%nat. split_and!; try done; try (intros; lia). right.
  rewrite Z.add_0_r. split_and!; [done| |done]. destruct src; [done|simpl; lia].
Qed.

Lemma copyout_loop root l N us c (Q : cpu -> kmem -> Z -> Prop) fuel s dstva src :
  user_pages s l root N us -> 0 <= dstva < 18446744073709551616 -> (length src < fuel)%nat ->
  (forall s' r, copyout_post s N dstva src s' r -> Q c s' r) ->
  wp (loop fuel (fun st : Z * list Z * Z => let '(dstva, src, len) := st in
    if len >? 0 then
      let va0 := PGROUNDDOWN dstva in
      if va0 >=? MAXVA then ret (inr (-1)) else
      ptea <- walk root va0 false ;;
      if ptea =? 0 then ret (inr (-1)) else
      pte <- load_pte ptea ;;
      if negb (tst pte PTE_V) || negb (tst pte PTE_U) || negb (tst pte PTE_W)
      then ret (inr (-1)) else
      let pa0 := PTE2PA pte in
      let n := PGSIZE - (dstva - va0) in
      let n := if n >? len then len else n in
      upd_mem (fun m => store_bytes m (pa0 + (dstva - va0)) (take (Z.to_nat n) src)) ;;
      ret (inl (u64 (va0 + PGSIZE), drop (Z.to_nat n) src, len - n))
    else ret (inr 0)) (dstva, src, Z.of_nat (length src))) c s Q.
Proof.
  revert s dstva src. induction fuel as [|fuel IH]; intros s dstva src Hu Hva Hf HQ; [lia|].
  simpl loop. wp_step. cbv zeta. rewrite Z.gtb_ltb, Z.geb_leb, PGROUNDDOWN_eq.
  destruct src as [|v0 src0]; [wp_steps; apply HQ, copyout_nil|].
  remember (v0 :: src0) as src eqn:Hsrc. assert (src <> []) as Hne by (by subst).
  destruct (Z.ltb_spec 0 (Z.of_nat (length src))); [|subst; simpl in *; lia].
  assert (accessible true (uview s N) dstva = false -> Q c s (-1)) as Hfail
    by (intros; by apply HQ, copyout_fail).
  assert (accessible true (uview s N) (dstva / 4096 * 4096) = accessible true (uview s N) dstva) as Hacc
    by (apply accessible_page; dlia).
  destruct (Z.leb_spec MAXVA (dstva / 4096 * 4096)).
  { wp_steps. apply Hfail. rewrite <- Hacc. unfold accessible. by rewrite (proj2 (Z.ltb_ge _ _)). }
  eapply wp_walk_load; [apply Hu|dlia| |].
  { intros Hn. wp_steps. apply Hfail. rewrite <- Hacc. unfold accessible, uview, view.
    rewrite Hn, tst_0. by rewrite andb_false_r. }
  intros a _. fold (uview s N (dstva / 4096 * 4096)).
  assert (negb (tst (uview s N (dstva / 4096 * 4096)) PTE_V) || negb (tst (uview s N (dstva / 4096 * 4096)) PTE_U)
    || negb (tst (uview s N (dstva / 4096 * 4096)) PTE_W) = negb (accessible true (uview s N) dstva)) as ->.
  { rewrite <- Hacc. unfold accessible. rewrite (proj2 (Z.ltb_lt _ _)) by done. simpl.
    by rewrite !negb_andb. }
  destruct (accessible true (uview s N) dstva) eqn:Ha; cbn [negb]; [|wp_steps; by apply Hfail].
  rewrite chunk_len. set (n := Z.to_nat (Z.min (4096 - dstva mod 4096) (Z.of_nat (length src)))).
  assert (Z.of_nat n = Z.min (4096 - dstva mod 4096) (Z.of_nat (length src))) as Hn by (unfold n; dlia).
  assert (PTE2PA (uview s N (dstva / 4096 * 4096)) + (dstva - dstva / 4096 * 4096) = uaddr (uview s N) dstva) as ->.
  { rewrite (uaddr_page s N (dstva / 4096 * 4096)) by dlia. dlia. }
  assert (length (take n src) = n) as Htk by (rewrite length_take; lia).
  assert (0 <= dstva < MAXVA) as Hmax by (rewrite MAXVA_val in *; dlia).
  destruct (write_chunk s l root N us dstva (take n src) Hu) as (Hu1 & Hv1 & Hw1 & Hf1); [lia|done|lia|].
  rewrite Htk in Hf1. unfold upd_mem. wp_steps.
  replace (Z.of_nat (length src) - Z.min (4096 - dstva mod 4096) (Z.of_nat (length src)))
    with (Z.of_nat (length (drop n src))) by (rewrite length_drop; lia).
  apply IH; [done|by apply chunk_next_range|rewrite length_drop; dlia|].
  intros s' r Hp. apply HQ. eapply (copyout_compose s l root N us dstva src n); try done; try lia.
  destruct (decide (n = length src)) as [He|He].
  - rewrite He, drop_all in *. destruct Hp as (k & Hk & Hfl & Hk1 & Hk2 & Hr). simpl in *.
    assert (k = 0%nat) as -> by lia. exists 0%nat. split_and!; try done; try (intros; lia).
    + intros b _. apply Hk2. intros; lia.
    + destruct Hr as [[-> _]|(_ & ? & _)]; [by left|lia].
  - rewrite (chunk_next dstva n (Z.of_nat (length src))) in Hp by (done || lia). done.
Qed.

Lemma wp_copyout root l N us c s dstva src (Q : cpu -> kmem -> Z -> Prop) :
  user_pages s l root N us -> 0 <= dstva < 18446744073709551616 ->
  (forall s' r, copyout_post s N dstva src s' r -> Q c s' r) ->
  wp (copyout root dstva src (Z.of_nat (length src))) c s Q.
Proof. intros Hu Hva HQ. unfold copyout. eapply copyout_loop; try done. lia. Qed.

(** * [copyin] *)

(** The [k] bytes of user memory from [va]. *)
Definition ubytes (s : kmem) (N : gmap (list Z) Z) (va : Z) (k : nat) : list Z :=
  (fun i => load8 (kmem_mem s) (uaddr (uview s N) (va + Z.of_nat i))) <$> seq 0 k.

Lemma ubytes_app s N va n k :
  ubytes s N va (n + k) = ubytes s N va n ++ ubytes s N (va + Z.of_nat n) k.
Proof.
  unfold ubytes. rewrite seq_app, fmap_app. f_equal. simpl.
  rewrite <- (Nat.add_0_r n) at 1. rewrite <- fmap_add_seq, <- list_fmap_compose.
  apply list_fmap_ext. intros i x _. simpl. do 2 f_equal. lia.
Qed.

Lemma length_ubytes s N va k : length (ubytes s N va k) = k.
Proof. unfold ubytes. by rewrite length_fmap, length_seq. Qed.

Lemma lookup_ubytes s N va k i : (i < k)%nat ->
  ubytes s N va k !! i = Some (load8 (kmem_mem s) (uaddr (uview s N) (va + Z.of_nat i))).
Proof. intros Hi. unfold ubytes. rewrite list_lookup_fmap, lookup_seq_lt by done. done. Qed.

(** Within a page, user memory is contiguous. *)
Lemma load_bytes_chunk s N va n :
  0 <= va -> Z.of_nat n <= 4096 - va mod 4096 ->
  load_bytes (kmem_mem s) (uaddr (uview s N) va) n = ubytes s N va n.
Proof.
  intros Hva Hn. apply list_eq_same_length with n; rewrite ?length_load_bytes, ?length_ubytes; [done..|].
  intros i x y Hi. rewrite lookup_load_bytes, lookup_ubytes by done. intros [= <-] [= <-].
  f_equal. rewrite (uaddr_page s N va (va + Z.of_nat i)) by dlia. unfold uaddr. dlia.
Qed.

Lemma accessible_chunk w s N va n i :
  0 <= va -> accessible w (uview s N) va = true -> Z.of_nat n <= 4096 - va mod 4096 -> (i < n)%nat ->
  accessible w (uview s N) (va + Z.of_nat i) = true.
Proof. intros Hva Ha Hn Hi. rewrite <- (accessible_page _ _ _ va); [done|lia|dlia]. Qed.

(** [walkaddr] finds the page of a readable address, and only of those. *)
Lemma wp_walkaddr_user root s l N us va c (Q : cpu -> kmem -> Z -> Prop) :
  user_pages s l root N us -> 0 <= va ->
  (forall pa, pa <> 0 -> accessible false (uview s N) va = true -> pa = PTE2PA (uview s N va) -> Q c s pa) ->
  (accessible false (uview s N) va = false -> Q c s 0) ->
  wp (walkaddr root (va / 4096 * 4096)) c s Q.
Proof.
  intros Hu Hva Hyes Hno. eapply wp_walkaddr; [apply Hu|dlia|].
  unfold accessible in Hno. rewrite (view_page _ _ _ va) by apply rounddown_div. fold (uview s N va).
  destruct (Z.ltb_spec (va / 4096 * 4096) MAXVA) as [Hlt|Hge].
  - assert (va < MAXVA) as Hmax by (rewrite MAXVA_val in *; dlia).
    assert (accessible false (uview s N) va = tst (uview s N va) PTE_V && tst (uview s N va) PTE_U) as Hacc.
    { unfold accessible. rewrite (proj2 (Z.ltb_lt _ _)) by done. simpl. by rewrite andb_true_r. }
    rewrite (proj2 (Z.ltb_lt _ _)) in Hno by done. simpl in Hno. rewrite andb_true_r in Hno.
    unfold upage. destruct (tst (uview s N va) PTE_V && tst (uview s N va) PTE_U) eqn:E; [|by apply Hno].
    apply Hyes; [|done|done].
    pose proof (accessible_elem _ _ _ _ _ _ _ Hu Hva Hacc) as Hin.
    destruct (up_elem _ _ _ _ _ _ Hu Hin) as (Hok & _). apply page_ok_pos in Hok. unfold KERNBASE in Hok. lia.
  - apply Hno. rewrite (proj2 (Z.ltb_ge _ _)); [done|]. dlia.
Qed.

(** The bytes read are the user's, all of them on success; on failure the next byte is not
    readable. *)
Definition copyin_post (s : kmem) (N : gmap (list Z) Z) (srcva : Z) (len : nat)
    (r : Z) (dst : list Z) : Prop :=
  exists k, (k <= len)%nat /\ dst = ubytes s N srcva k /\
    (forall i, (i < k)%nat -> accessible false (uview s N) (srcva + Z.of_nat i) = true) /\
    (r = 0 /\ k = len \/
     r = -1 /\ (k < len)%nat /\ accessible false (uview s N) (srcva + Z.of_nat k) = false).

Lemma copyin_compose s N srcva len n r dst :
  (n <= len)%nat ->
  (forall i, (i < n)%nat -> accessible false (uview s N) (srcva + Z.of_nat i) = true) ->
  copyin_post s N (srcva + Z.of_nat n) (len - n) r dst ->
  copyin_post s N srcva len r (ubytes s N srcva n ++ dst).
Proof.
  intros Hn Ha (k & Hk & -> & Hak & Hr). exists (n + k)%nat. split_and!; [lia| | |].
  - by rewrite ubytes_app.
  - intros i Hi. destruct (decide (i < n)%nat); [by apply Ha|].
    replace (srcva + Z.of_nat i) with (srcva + Z.of_nat n + Z.of_nat (i - n)) by lia. apply Hak. lia.
  - replace (srcva + Z.of_nat (n + k)) with (srcva + Z.of_nat n + Z.of_nat k) by lia.
    destruct Hr as [[-> ->]|(-> & ? & ?)]; [left|right]; split_and!; (done || lia).
Qed.

Lemma copyin_loop root l N us c s (Q : cpu -> kmem -> Z * list Z -> Prop) fuel srcva dst len :
  user_pages s l root N us -> 0 <= srcva < 18446744073709551616 -> (len < fuel)%nat ->
  (forall r bs, copyin_post s N srcva len r bs -> Q c s (r, dst ++ bs)) ->
  wp (loop fuel (fun st : Z * list Z * Z => let '(srcva, dst, len) := st in
    if len >? 0 then
      let va0 := PGROUNDDOWN srcva in
      pa0 <- walkaddr root va0 ;;
      if pa0 =? 0 then ret (inr (-1, dst)) else
      let n := PGSIZE - (srcva - va0) in
      let n := if n >? len then len else n in
      bytes <- gets (fun s => load_bytes (kmem_mem s) (pa0 + (srcva - va0)) (Z.to_nat n)) ;;
      ret (inl (u64 (va0 + PGSIZE), dst ++ bytes, len - n))
    else ret (inr (0, dst))) (srcva, dst, Z.of_nat len)) c s Q.
Proof.
  intros Hu. revert srcva dst len. induction fuel as [|fuel IH]; intros srcva dst len Hva Hf HQ; [lia|].
  simpl loop. wp_step. cbv zeta. rewrite Z.gtb_ltb, PGROUNDDOWN_eq.
  destruct (Z.ltb_spec 0 (Z.of_nat len)).
  2: { wp_steps. rewrite <- (app_nil_r dst). apply HQ. exists 0%nat.
       split_and!; try done; try (intros; lia). }
  wp_step. eapply wp_walkaddr_user; [done|lia| |].
  2: { intros Hno. simpl. wp_steps. rewrite <- (app_nil_r dst). apply HQ. exists 0%nat.
       split_and!; try done; try (intros; lia). right. rewrite Z.add_0_r. split_and!; [done|lia|done]. }
  intros pa Hpa Hacc ->. destruct (Z.eqb_spec (PTE2PA (uview s N srcva)) 0) as [?|_]; [done|].
  rewrite chunk_len. set (n := Z.to_nat (Z.min (4096 - srcva mod 4096) (Z.of_nat len))).
  assert (Z.of_nat n = Z.min (4096 - srcva mod 4096) (Z.of_nat len)) as Hn by (unfold n; dlia).
  assert (srcva < MAXVA) as Hmax by (by destruct (accessible_own _ _ _ _ _ _ _ Hu (proj1 Hva) Hacc) as (? & ? & _ & _ & ?)).
  replace (PTE2PA (uview s N srcva) + (srcva - srcva / 4096 * 4096)) with (uaddr (uview s N) srcva)
    by (unfold uaddr; dlia).
  wp_steps. rewrite load_bytes_chunk by lia.
  replace (Z.of_nat len - Z.min (4096 - srcva mod 4096) (Z.of_nat len)) with (Z.of_nat (len - n)) by lia.
  apply IH; [apply u64_range|dlia|]. intros r bs Hp. rewrite <- app_assoc. apply HQ.
  apply copyin_compose; [lia|intros; apply (accessible_chunk _ _ _ _ n); (done || lia)|].
  destruct (decide (n = len)) as [He|He].
  - destruct Hp as (k & Hk & -> & Hk1 & Hr). assert (k = 0%nat) as -> by lia. exists 0%nat.
    split_and!; try done; try (intros; lia).
  - rewrite (chunk_next srcva n (Z.of_nat len)) in Hp by (done || lia). done.
Qed.

Lemma wp_copyin root l N us c s srcva len (Q : cpu -> kmem -> Z * list Z -> Prop) :
  user_pages s l root N us -> 0 <= srcva < 18446744073709551616 -> 0 <= len ->
  (forall r bs, copyin_post s N srcva (Z.to_nat len) r bs -> Q c s (r, bs)) ->
  wp (copyin root srcva len) c s Q.
Proof.
  intros Hu Hva Hlen HQ. unfold copyin. rewrite <- (Z2Nat.id len) at 2 by done.
  eapply copyin_loop; try done. lia.
Qed.

(** * [copyinstr] *)

Lemma copyinstr_page_spec m p n max dst :
  (exists k, (k < n)%nat /\ load8 m (p + Z.of_nat k) = 0 /\
     (forall i, (i < k)%nat -> load8 m (p + Z.of_nat i) <> 0) /\
     copyinstr_page m p n max dst = (true, dst ++ load_bytes m p (S k), max - Z.of_nat k)) \/
  ((forall i, (i < n)%nat -> load8 m (p + Z.of_nat i) <> 0) /\
     copyinstr_page m p n max dst = (false, dst ++ load_bytes m p n, max - Z.of_nat n)).
Proof.
  revert p max dst. induction n as [|n IH]; intros p max dst.
  { right. split; [lia|]. simpl. rewrite app_nil_r. do 2 f_equal. lia. }
  simpl copyinstr_page. destruct (Z.eqb_spec (load8 m p) 0) as [Hz|Hz].
  { left. exists 0%nat. rewrite Z.add_0_r. split_and!; [lia|done|lia|]. simpl.
    rewrite Hz. do 2 f_equal. lia. }
  assert (forall k, (forall i, (i < k)%nat -> load8 m (p + 1 + Z.of_nat i) <> 0) ->
            forall i, (i < S k)%nat -> load8 m (p + Z.of_nat i) <> 0) as Hnz.
  { intros k Hk [|i] Hi; [by rewrite Z.add_0_r|].
    replace (p + Z.of_nat (S i)) with (p + 1 + Z.of_nat i) by lia. apply Hk. lia. }
  destruct (IH (p + 1) (max - 1) (dst ++ [load8 m p])) as [(k & Hk & Hk0 & Hnk & ->)|[Hn ->]].
  - left. exists (S k). split_and!; [lia| |by apply Hnz|].
    + by replace (p + Z.of_nat (S k)) with (p + 1 + Z.of_nat k) by lia.
    + rewrite <- app_assoc. simpl. f_equal. lia.
  - right. split; [by apply Hnz|]. rewrite <- app_assoc. simpl. f_equal. lia.
Qed.

Definition ubyte (s : kmem) (N : gmap (list Z) Z) (va : Z) : Z :=
  load8 (kmem_mem s) (uaddr (uview s N) va).

(** [copyinstr] succeeds exactly when a NUL comes within [max] bytes before any unreadable
    one, and then returns the string with its NUL. *)
Definition copyinstr_post (s : kmem) (N : gmap (list Z) Z) (srcva : Z) (max : nat)
    (r : Z) (dst : list Z) : Prop :=
  exists k, (forall i, (i < k)%nat -> accessible false (uview s N) (srcva + Z.of_nat i) = true /\
                                  ubyte s N (srcva + Z.of_nat i) <> 0) /\
    (r = 0 /\ (k < max)%nat /\ accessible false (uview s N) (srcva + Z.of_nat k) = true /\
       ubyte s N (srcva + Z.of_nat k) = 0 /\ dst = ubytes s N srcva (S k) \/
     r = -1 /\ dst = ubytes s N srcva k /\
       (k = max \/ (k < max)%nat /\ accessible false (uview s N) (srcva + Z.of_nat k) = false)).

Lemma copyinstr_compose s N srcva max n r dst :
  (n <= max)%nat ->
  (forall i, (i < n)%nat -> accessible false (uview s N) (srcva + Z.of_nat i) = true /\
                        ubyte s N (srcva + Z.of_nat i) <> 0) ->
  copyinstr_post s N (srcva + Z.of_nat n) (max - n) r dst ->
  copyinstr_post s N srcva max r (ubytes s N srcva n ++ dst).
Proof.
  intros Hn Ha (k & Hak & Hr). exists (n + k)%nat. split.
  - intros i Hi. destruct (decide (i < n)%nat); [by apply Ha|].
    replace (srcva + Z.of_nat i) with (srcva + Z.of_nat n + Z.of_nat (i - n)) by lia. apply Hak. lia.
  - replace (srcva + Z.of_nat (n + k)) with (srcva + Z.of_nat n + Z.of_nat k) by lia.
    destruct Hr as [(-> & ? & ? & ? & ->)|(-> & -> & Hc)]; [left|right]; split_and!; try (done || lia).
    + rewrite <- ubytes_app. f_equal. lia.
    + by rewrite ubytes_app.
    + destruct Hc as [?|[??]]; [left; lia|right; split; [lia|done]].
Qed.

Lemma copyinstr_loop root l N us c s (Q : cpu -> kmem -> Z * list Z -> Prop) fuel srcva dst max :
  user_pages s l root N us -> 0 <= srcva < 18446744073709551616 -> (max < fuel)%nat ->
  (forall r bs, copyinstr_post s N srcva max r bs -> Q c s (r, dst ++ bs)) ->
  wp (loop fuel (fun st : bool * Z * list Z * Z =>
    let '(got_null, srcva, dst, max) := st in
    if negb got_null && (max >? 0) then
      let va0 := PGROUNDDOWN srcva in
      pa0 <- walkaddr root va0 ;;
      if pa0 =? 0 then ret (inr (-1, dst)) else
      let n := PGSIZE - (srcva - va0) in
      let n := if n >? max then max else n in
      r <- gets (fun s =>
        copyinstr_page (kmem_mem s) (pa0 + (srcva - va0)) (Z.to_nat n) max dst) ;;
      let '(got_null, dst, max) := r in
      ret (inl (got_null, u64 (va0 + PGSIZE), dst, max))
    else ret (inr (if got_null then 0 else -1, dst))) (false, srcva, dst, Z.of_nat max)) c s Q.
Proof.
  intros Hu. revert srcva dst max. induction fuel as [|fuel IH]; intros srcva dst max Hva Hf HQ; [lia|].
  simpl loop. wp_step. cbv zeta. cbn [negb andb]. rewrite Z.gtb_ltb, PGROUNDDOWN_eq.
  destruct (Z.ltb_spec 0 (Z.of_nat max)).
  2: { wp_steps. rewrite <- (app_nil_r dst). apply HQ. exists 0%nat.
       split; [intros; lia|]. right. split_and!; [done|done|left; lia]. }
  wp_step. eapply wp_walkaddr_user; [done|lia| |].
  2: { intros Hno. simpl. wp_steps. rewrite <- (app_nil_r dst). apply HQ. exists 0%nat.
       split; [intros; lia|]. right. rewrite Z.add_0_r. split_and!; [done|done|right; split; [lia|done]]. }
  intros pa Hpa Hacc ->. destruct (Z.eqb_spec (PTE2PA (uview s N srcva)) 0) as [?|_]; [done|].
  rewrite chunk_len. set (n := Z.to_nat (Z.min (4096 - srcva mod 4096) (Z.of_nat max))).
  assert (Z.of_nat n = Z.min (4096 - srcva mod 4096) (Z.of_nat max)) as Hn by (unfold n; dlia).
  assert (srcva < MAXVA) as Hmax by (by destruct (accessible_own _ _ _ _ _ _ _ Hu (proj1 Hva) Hacc) as (? & ? & _ & _ & ?)).
  replace (PTE2PA (uview s N srcva) + (srcva - srcva / 4096 * 4096)) with (uaddr (uview s N) srcva)
    by (unfold uaddr; dlia).
  assert (forall i, (i < n)%nat -> ubyte s N (srcva + Z.of_nat i) = load8 (kmem_mem s) (uaddr (uview s N) srcva + Z.of_nat i)) as Hub.
  { intros i Hi. unfold ubyte. f_equal. rewrite (uaddr_page s N srcva (srcva + Z.of_nat i)) by dlia. unfold uaddr. dlia. }
  assert (forall i, (i < n)%nat -> accessible false (uview s N) (srcva + Z.of_nat i) = true) as Hac
    by (intros; apply (accessible_chunk _ _ _ _ n); (done || lia)).
  wp_steps. fold n.
  destruct (copyinstr_page_spec (kmem_mem s) (uaddr (uview s N) srcva) n (Z.of_nat max) dst)
    as [(k & Hk & Hk0 & Hnk & ->)|[Hnz ->]]; wp_steps; rewrite load_bytes_chunk by lia.
  - destruct fuel as [|fuel]; [lia|]. simpl loop. wp_steps. cbn [negb andb]. wp_steps. apply HQ. exists k. split.
    + intros i Hi. rewrite Hub by lia. split; [apply Hac; lia|by apply Hnk].
    + left. rewrite Hub by done. split_and!; (done || lia || by apply Hac).
  - replace (Z.of_nat max - Z.of_nat n) with (Z.of_nat (max - n)) by lia.
    apply IH; [apply u64_range|dlia|]. intros r bs Hp. rewrite <- app_assoc. apply HQ.
    apply copyinstr_compose; [lia| |].
    + intros i Hi. rewrite Hub by lia. split; [by apply Hac|by apply Hnz].
    + destruct (decide (n = max)) as [He|He].
      * destruct Hp as (k & Hk & Hr). exists 0%nat. split; [intros; lia|].
        destruct Hr as [(_ & ? & _)|(-> & -> & [->|[? _]])]; [lia| |lia].
        replace (max - n)%nat with 0%nat by lia. right. split_and!; [done|done|by left].
      * rewrite (chunk_next srcva n (Z.of_nat max)) in Hp by (done || lia). done.
Qed.

Lemma wp_copyinstr root l N us c s srcva max (Q : cpu -> kmem -> Z * list Z -> Prop) :
  user_pages s l root N us -> 0 <= srcva < 18446744073709551616 -> 0 <= max ->
  (forall r bs, copyinstr_post s N srcva (Z.to_nat max) r bs -> Q c s (r, bs)) ->
  wp (copyinstr root srcva max) c s Q.
Proof.
  intros Hu Hva Hlen HQ. unfold copyinstr. rewrite <- (Z2Nat.id max) at 2 by done.
  eapply copyinstr_loop; try done. lia.
Qed.
End copyio.
