(* ===== verification/VmFree.v ===== *)
(** Freeing a page table: [freewalk] returns every page of a table without leaf mappings to
    the free list, and [uvmfree] every page of a user address space. *)
From S2P Require Import Prelude Memory Riscv Kalloc Vm VmTree VmMap VmUser.

Section free.
Context `{Layout}.

(** The pages of the subtree at path [p], in the order the recursion meets them. *)
Fixpoint sub (N : gmap (list Z) Z) (d : nat) (p : list Z) : list Z :=
  match d with
  | O => []
  | S d' => match N !! p with
            | None => []
            | Some x => x :: (seqZ 0 512 ≫= fun i => sub N d' (p ++ [i]))
            end
  end.

Lemma rep_prefix m root N p q x :
  pt_rep m root N -> N !! (p ++ q) = Some x -> is_Some (N !! p).
Proof.
  intros Hr. revert x. induction q as [|i q IH] using rev_ind; intros x Hp.
  - rewrite app_nil_r in Hp. eauto.
  - rewrite app_assoc in Hp. apply (rep_up _ _ _ Hr) in Hp as [_ [y Hy]]. eauto.
Qed.

Lemma elem_of_sub m root N d p y : pt_rep m root N ->
  y ∈ sub N d p <-> exists q, N !! (p ++ q) = Some y /\ (length q < d)%nat.
Proof.
  intros Hr. revert p. induction d as [|d IH]; intros p; cbn [sub].
  { split; [by intros ?%not_elem_of_nil|intros (? & _ & ?); lia]. }
  destruct (N !! p) as [x|] eqn:Hp.
  - rewrite elem_of_cons, list_elem_of_bind. split.
    + intros [->|(i & Hi & _)]; [exists []; rewrite app_nil_r; split; [done|simpl; lia]|].
      apply IH in Hi as (q & Hq & Hl). exists (i :: q). rewrite <- app_assoc in Hq. split; [done|simpl; lia].
    + intros ([|i q] & Hq & Hl); [left; rewrite app_nil_r in Hq; congruence|right].
      exists i. replace (p ++ i :: q) with ((p ++ [i]) ++ q) in Hq by (by rewrite <- app_assoc).
      destruct (rep_prefix _ _ _ _ _ _ Hr Hq) as [z Hz]. apply (rep_up _ _ _ Hr) in Hz as [Hi _].
      split; [apply IH; exists q; simpl in Hl; split; [done|lia]|]. apply elem_of_seqZ. lia.
  - split; [by intros ?%not_elem_of_nil|]. intros (q & Hq & _).
    apply (rep_prefix _ _ _ _ _ _ Hr) in Hq as [??]. congruence.
Qed.

Lemma NoDup_sub m root N d p : pt_rep m root N -> NoDup (sub N d p).
Proof.
  intros Hr. revert p. induction d as [|d IH]; intros p; cbn [sub]; [constructor|].
  destruct (N !! p) as [x|] eqn:Hp; [|constructor]. constructor.
  - rewrite list_elem_of_bind. intros (i & Hi & _). apply (elem_of_sub _ _ _ _ _ _ Hr) in Hi as (q & Hq & _).
    pose proof (rep_inj _ _ _ Hr _ _ _ Hp Hq) as He%(f_equal length). rewrite !length_app in He. simpl in He. lia.
  - apply NoDup_bind; [|intros; apply IH|apply NoDup_seqZ]. intros i j y _ _ Hi Hj.
    apply (elem_of_sub _ _ _ _ _ _ Hr) in Hi as (q & Hq & _), Hj as (q' & Hq' & _).
    pose proof (rep_inj _ _ _ Hr _ _ _ Hq Hq') as He. rewrite <- !app_assoc in He.
    apply app_inv_head in He. by simplify_eq/=.
Qed.

(** The whole tree. *)
Lemma sub_root m root N : pt_rep m root N -> sub N 3 [] ≡ₚ node_pages N.
Proof.
  intros Hr. apply NoDup_Permutation.
  - by eapply NoDup_sub.
  - unfold node_pages. apply NoDup_fmap_2_strong; [|apply NoDup_map_to_list].
    intros [p x] [q y] Hp%elem_of_map_to_list Hq%elem_of_map_to_list. simpl. intros ->.
    f_equal. by eapply rep_inj.
  - intros y. rewrite (elem_of_sub _ _ _ _ _ _ Hr), elem_of_node_pages. split.
    + intros (q & Hq & _). eauto.
    + intros (q & Hq). exists q. split; [done|]. apply (rep_len _ _ _ Hr) in Hq. lia.
Qed.

(** The entry at index [i] of the page at path [p]: a child, or not valid. *)
Definition entries_ok (m : mem) (N : gmap (list Z) Z) : Prop :=
  forall p x i, N !! p = Some x -> 0 <= i < 512 ->
    match N !! (p ++ [i]) with
    | Some y => load64 m (x + 8 * i) = mkpte y 0
    | None => tst (load64 m (x + 8 * i)) PTE_V = false
    end.

Lemma PX_make a b i :
  0 <= a < 256 -> 0 <= b < 512 -> 0 <= i < 512 ->
  let va := a * 1073741824 + b * 2097152 + i * 4096 in
  0 <= va < MAXVA /\ PX 2 va = a /\ PX 1 va = b /\ PX 0 va = i.
Proof. intros Ha Hb Hi va. rewrite PX0, PX1, PX2, MAXVA_val. unfold va. split_and!; dlia. Qed.

Lemma no_leaf_entries m root N :
  pt_rep m root N -> (forall va, 0 <= va < MAXVA -> tst (view m N va) PTE_V = false) ->
  entries_ok m N.
Proof.
  intros Hr Hv p x i Hp Hi. pose proof (rep_len _ _ _ Hr _ _ Hp) as Hl.
  destruct (decide (length p < 2)%nat) as [Hlt|Hge].
  { rewrite (rep_child _ _ _ Hr _ _ _ Hp Hlt Hi). by destruct (N !! (p ++ [i])); [|apply tst_0]. }
  destruct (N !! (p ++ [i])) as [y|] eqn:E.
  { apply (rep_len _ _ _ Hr) in E. rewrite length_app in E. simpl in E. lia. }
  destruct p as [|a [|b [|]]]; simpl in Hl, Hge; try lia.
  destruct (rep_up _ _ _ Hr [a] b x Hp) as [Hb [y Hy]].
  destruct (rep_up _ _ _ Hr [] a y Hy) as [Ha _]. pose proof (rep_low _ _ _ Hr a y Hy).
  destruct (PX_make a b i) as (Hva & E2 & E1 & E0); [lia|done|done|].
  specialize (Hv _ Hva). unfold view, leaf_addr in Hv. rewrite E2, E1, E0, Hp in Hv. done.
Qed.

Section freewalk.
Context (m0 : mem) (root : Z) (N : gmap (list Z) Z).
Hypothesis Hrep : pt_rep m0 root N.
Hypothesis Hent : entries_ok m0 N.

(** The subtree at [p] is still as in [m0], and none of its pages is free. *)
Definition sub_intact (m : mem) (l : list Z) (d : nat) (p : list Z) : Prop :=
  forall y, y ∈ sub N d p -> (y ∉ l) /\ forall b, y <= b < y + PGSIZE -> load8 m b = load8 m0 b.

(** The pages freed by the first [i] iterations over the entries of the page at [p]. *)
Definition freed (d : nat) (p : list Z) (i : Z) : list Z := seqZ 0 i ≫= fun j => sub N d (p ++ [j]).

Lemma freed_S d p i : 0 <= i -> freed d p (i + 1) = freed d p i ++ sub N d (p ++ [i]).
Proof.
  intros Hi. unfold freed. rewrite seqZ_app by lia. rewrite bind_app. f_equal.
  rewrite Z.add_0_l. simpl. apply app_nil_r.
Qed.

Lemma sub_page_ok d p : Forall page_ok (sub N d p).
Proof.
  apply Forall_forall. intros y (q & Hq & _)%(elem_of_sub _ _ _ _ _ _ Hrep). by eapply rep_page.
Qed.

Lemma elem_of_freed d p i y :
  y ∈ freed d p i <-> exists j, 0 <= j < i /\ y ∈ sub N d (p ++ [j]).
Proof.
  unfold freed. rewrite list_elem_of_bind. split.
  - intros (j & Hy & Hj%elem_of_seqZ). exists j. split; [lia|done].
  - intros (j & Hj & Hy). exists j. split; [done|]. apply elem_of_seqZ. lia.
Qed.

Lemma freed_page_ok d p i : Forall page_ok (freed d p i).
Proof.
  apply Forall_forall. intros y (j & _ & Hy)%elem_of_freed.
  pose proof (sub_page_ok d (p ++ [j])) as Hf. rewrite Forall_forall in Hf. by apply Hf.
Qed.

(** Subtrees of different entries, and the parent page, are disjoint. *)
Lemma sub_disjoint d p i j y : y ∈ sub N d (p ++ [i]) -> y ∈ sub N d (p ++ [j]) -> i = j.
Proof.
  intros (q & Hq & _)%(elem_of_sub _ _ _ _ _ _ Hrep) (q' & Hq' & _)%(elem_of_sub _ _ _ _ _ _ Hrep).
  pose proof (rep_inj _ _ _ Hrep _ _ _ Hq Hq') as He. rewrite <- !app_assoc in He.
  apply app_inv_head in He. by simplify_eq/=.
Qed.

Lemma sub_not_parent d p x i : N !! p = Some x -> x ∉ sub N d (p ++ [i]).
Proof.
  intros Hp (q & Hq & _)%(elem_of_sub _ _ _ _ _ _ Hrep).
  pose proof (rep_inj _ _ _ Hrep _ _ _ Hp Hq) as He%(f_equal length).
  rewrite !length_app in He. simpl in He. lia.
Qed.

Lemma elem_of_sub_head d p x : N !! p = Some x -> x ∈ sub N (S d) p.
Proof. intros Hp. cbn [sub]. rewrite Hp. apply elem_of_cons. by left. Qed.

(** The loop invariant of one call. *)
Definition fw_inv (s : kmem) (l : list Z) (d : nat) (p : list Z) (x i : Z) (s' : kmem) : Prop :=
  exists l', kmem_inv s' l' /\ l' ≡ₚ freed d p i ++ l /\
    frame_out (x :: freed d p i) (kmem_mem s) (kmem_mem s') /\
    forall j, i <= j < 512 -> load64 (kmem_mem s') (x + 8 * j) = load64 m0 (x + 8 * j).

Lemma fw_child_intact s l d p x i s' l' :
  N !! p = Some x -> 0 <= i < 512 -> sub_intact (kmem_mem s) l (S d) p ->
  l' ≡ₚ freed d p i ++ l -> frame_out (x :: freed d p i) (kmem_mem s) (kmem_mem s') ->
  sub_intact (kmem_mem s') l' d (p ++ [i]).
Proof.
  intros Hp Hi Hs Hl Hf y Hy.
  assert (y ∈ sub N (S d) p) as Hy'.
  { cbn [sub]. rewrite Hp. apply elem_of_cons. right. apply list_elem_of_bind. exists i.
    split; [done|]. apply elem_of_seqZ. lia. }
  destruct (Hs y Hy') as [Hyl Hyb].
  assert (y ∉ freed d p i) as Hyf.
  { intros (j & Hj & Hyj)%elem_of_freed. pose proof (sub_disjoint _ _ _ _ _ Hy Hyj). lia. }
  split; [by rewrite Hl, not_elem_of_app|]. intros b Hb. rewrite <- Hyb by done.
  eapply (frame_out_load _ _ _ y); [done| |..].
  - constructor; [by eapply rep_page|apply freed_page_ok].
  - pose proof (sub_page_ok (S d) p) as Hok. rewrite Forall_forall in Hok. by apply Hok.
  - apply not_elem_of_cons. split; [|done]. intros ->. by apply (sub_not_parent d p x i Hp).
  - done.
Qed.

Lemma fw_inv_0 s l d p x :
  N !! p = Some x -> kmem_inv s l -> sub_intact (kmem_mem s) l (S d) p -> fw_inv s l d p x 0 s.
Proof.
  intros Hp Hk Hs. exists l. split_and!; [done|done|apply frame_out_refl|].
  destruct (Hs x) as [_ Hb]; [by eapply elem_of_sub_head|].
  intros j Hj. apply load64_ext. intros b Hb'. apply Hb. unfold PGSIZE. lia.
Qed.

(** An entry that is not valid is skipped. *)
Lemma fw_inv_skip s l d p x i s' :
  N !! (p ++ [i]) = None -> 0 <= i -> fw_inv s l d p x i s' -> fw_inv s l d p x (i + 1) s'.
Proof.
  intros Hn Hi (l' & Hk & Hl & Hf & He). assert (sub N d (p ++ [i]) = []) as Hnil
    by (destruct d; cbn [sub]; rewrite ?Hn; done).
  exists l'. rewrite freed_S, Hnil, app_nil_r by done. split_and!; [done|done|done|].
  intros j Hj. apply He. lia.
Qed.

(** A child's subtree was freed and the entry cleared. *)
Lemma fw_inv_child s l d p x i s1 l1 s2 l2 :
  N !! p = Some x -> x ∉ l -> 0 <= i < 512 ->
  l1 ≡ₚ freed d p i ++ l -> frame_out (x :: freed d p i) (kmem_mem s) (kmem_mem s1) ->
  (forall j, i <= j < 512 -> load64 (kmem_mem s1) (x + 8 * j) = load64 m0 (x + 8 * j)) ->
  kmem_inv s2 l2 -> l2 ≡ₚ sub N d (p ++ [i]) ++ l1 ->
  frame_out (sub N d (p ++ [i])) (kmem_mem s1) (kmem_mem s2) ->
  fw_inv s l d p x (i + 1) (set_mem (store64 (kmem_mem s2) (x + 8 * i) 0) s2).
Proof.
  intros Hp Hxl Hi Hl1 Hf1 He1 Hk2 Hl2 Hf2. exists l2. rewrite freed_S by lia.
  assert (page_ok x) as Hx by (by eapply rep_page).
  assert (forall j, x ∉ sub N d (p ++ [j])) as Hxs by (intros; by apply sub_not_parent).
  assert (outside_page x (kmem_mem s2) (store64 (kmem_mem s2) (x + 8 * i) 0)) as Ho
    by (apply outside_page_store64; unfold PGSIZE; lia).
  split_and!.
  - eapply kmem_inv_set_mem; [done|exact Hx| |exact Ho]. rewrite Hl2, Hl1, !elem_of_app.
    intros [?|[(j & _ & ?)%elem_of_freed|?]]; [by eapply Hxs|by eapply Hxs|done].
  - rewrite Hl2, Hl1. solve_Permutation.
  - eapply frame_out_trans; [|eapply frame_out_page; [apply elem_of_cons; by left|exact Ho]].
    eapply frame_out_trans; (eapply frame_out_mono; [|done]); intros y Hy; rewrite ?elem_of_cons, ?elem_of_app in *; tauto.
  - intros j Hj. simpl. rewrite load64_store64_ne by lia. rewrite <- He1 by lia.
    apply load64_ext. intros b Hb. eapply (frame_out_load _ _ _ x); [done|apply sub_page_ok|done|done|].
    unfold PGSIZE. lia.
Qed.

(** Freeing the page itself ends the call. *)
Lemma wp_fw_end s l d p x s' c (Q : cpu -> kmem -> unit -> Prop) :
  LKmem ∉ held c -> N !! p = Some x -> x ∉ l -> fw_inv s l d p x 512 s' ->
  (forall s'' l'', kmem_inv s'' l'' -> l'' ≡ₚ sub N (S d) p ++ l ->
     frame_out (sub N (S d) p) (kmem_mem s) (kmem_mem s'') -> Q c s'' tt) ->
  wp (kfree x) c s' Q.
Proof.
  intros Hc Hp Hxl (l' & Hk & Hl & Hf & _) HQ.
  eapply wp_kfree; [done|done|by eapply rep_page| |].
  - rewrite Hl, elem_of_app. intros [(j & _ & Hj)%elem_of_freed|?]; [|done]. by eapply sub_not_parent.
  - intros s'' Hk' Ho. eapply (HQ s'' (x :: l')); [done| |]; cbn [sub]; rewrite Hp; fold (freed d p 512).
    + rewrite Hl. done.
    + eapply frame_out_trans; [exact Hf|]. eapply frame_out_page; [|exact Ho]. apply elem_of_cons. by left.
Qed.

Lemma freewalk_entry_flags y : page_ok y ->
  tst (mkpte y 0) PTE_V && (Z.land (mkpte y 0) (Z.lor (Z.lor PTE_R PTE_W) PTE_X) =? 0) = true.
Proof.
  intros Hy%page_ok_pa. rewrite tst_mkpte_V by (done || lia). apply Z.eqb_eq.
  transitivity (Z.land (PTE_FLAGS (mkpte y 0)) (Z.lor (Z.lor PTE_R PTE_W) PTE_X)).
  - unfold PTE_FLAGS. by rewrite <- Z.land_assoc.
  - by rewrite PTE_FLAGS_mkpte by (done || lia).
Qed.

Lemma wp_freewalk_rec d p x s l c (Q : cpu -> kmem -> unit -> Prop) :
  LKmem ∉ held c -> N !! p = Some x -> (length p + d = 3)%nat -> kmem_inv s l ->
  sub_intact (kmem_mem s) l d p ->
  (forall s' l', kmem_inv s' l' -> l' ≡ₚ sub N d p ++ l ->
     frame_out (sub N d p) (kmem_mem s) (kmem_mem s') -> Q c s' tt) ->
  wp (freewalk_rec d x) c s Q.
Proof.
  intros Hc. revert p x s l Q.
  induction d as [|d IH]; intros p x s l Q Hp Hd Hk Hs HQ.
  { apply (rep_len _ _ _ Hrep) in Hp. lia. }
  assert (x ∉ l) as Hxl by (by apply (Hs x), elem_of_sub_head).
  cbn [freewalk_rec]. wp_step.
  eapply (wp_loop (fun i c' s' => c' = c /\ 0 <= i <= 512 /\ fw_inv s l d p x i s')
            (fun i => Z.to_nat (512 - i))); [|lia|split_and!; [done|lia|lia|by apply fw_inv_0]].
  intros i c' s1 (-> & Hi & Hinv). destruct (Z.ltb_spec i 512) as [Hlt|Hge].
  2: { wp_steps. assert (i = 512) as -> by lia. by eapply wp_fw_end. }
  unfold load_pte. wp_steps. destruct (Hinv) as (l1 & Hk1 & Hl1 & Hf1 & He1).
  rewrite He1 by lia. specialize (Hent p x i Hp ltac:(lia)).
  destruct (N !! (p ++ [i])) as [y|] eqn:Hy.
  - assert (page_ok y) as Hyok by (by eapply rep_page). rewrite Hent, freewalk_entry_flags by done.
    destruct (mkpte_node y Hyok) as [_ ->]. wp_step.
    eapply (IH (p ++ [i]) y s1 l1); [done|rewrite length_app; simpl; lia|done|by eapply fw_child_intact; (done || lia)|].
    intros s2 l2 Hk2 Hl2 Hf2. unfold store_pte, upd_mem. wp_steps.
    split_and!; [done|lia|lia|by eapply fw_inv_child; (done || lia)|lia].
  - rewrite Hent. cbn [andb]. wp_steps. split_and!; [done|lia|lia|by eapply fw_inv_skip; (done || lia)|lia].
Qed.
End freewalk.

(** [freewalk] of a table without leaf mappings. *)
Lemma wp_freewalk root N s l c (Q : cpu -> kmem -> unit -> Prop) :
  LKmem ∉ held c -> vm_inv s l root N ->
  (forall va, 0 <= va < MAXVA -> tst (view (kmem_mem s) N va) PTE_V = false) ->
  (forall s' l', kmem_inv s' l' -> l' ≡ₚ node_pages N ++ l ->
     frame_out (node_pages N) (kmem_mem s) (kmem_mem s') -> Q c s' tt) ->
  wp (freewalk root) c s Q.
Proof.
  intros Hc (Hk & Hr & Hd) Hv HQ. pose proof (sub_root _ _ _ Hr) as Hsub.
  eapply (wp_freewalk_rec (kmem_mem s) root N Hr); [by eapply no_leaf_entries|done|apply Hr|done|done| |].
  - intros y Hy. rewrite Hsub in Hy. apply elem_of_node_pages in Hy as [q Hq].
    split; [by eapply Hd|done].
  - intros s' l' Hk' Hl' Hf'. eapply HQ; [done|by rewrite Hl', Hsub|].
    eapply frame_out_mono; [|exact Hf']. intros y. by rewrite Hsub.
Qed.

(** [uvmfree] of an address space whose trapframe and trampoline are unmapped. *)
Lemma wp_uvmfree root N s l us sz c (Q : cpu -> kmem -> unit -> Prop) :
  LKmem ∉ held c -> user_pages s l root N us -> size_pages sz (length us) ->
  (forall va, TRAPFRAME <= va < MAXVA -> tst (view (kmem_mem s) N va) PTE_V = false) ->
  (forall s' l', kmem_inv s' l' -> l' ≡ₚ uv_pages l N us ->
     frame_out (node_pages N ++ us.*1) (kmem_mem s) (kmem_mem s') -> Q c s' tt) ->
  wp (uvmfree root sz) c s Q.
Proof.
  intros Hc Hu Hsz Hhigh HQ. unfold uvmfree. wp_step.
  pose proof (up_bound _ _ _ _ _ Hu) as Hb.
  assert (forall s1, dealloc_post s l root N [] us s1 ->
    (forall va, TRAPFRAME <= va < MAXVA -> tst (view (kmem_mem s1) N va) PTE_V = false) ->
    wp (freewalk root) c s1 Q) as Hfw.
  { intros s1 (Hu1 & Hf1 & _) Hh1. eapply wp_freewalk; [done|apply Hu1| |].
    - intros va Hva. destruct (decide (TRAPFRAME <= va)); [apply Hh1; lia|].
      rewrite (up_free _ _ _ _ _ Hu1), tst_0; [done|]. simpl. lia.
    - intros s2 l2 Hk2 Hl2 Hf2. eapply HQ; [done| |].
      + rewrite Hl2, reverse_Permutation. unfold uv_pages. solve_Permutation.
      + eapply frame_out_trans; [exact Hf1|]. eapply frame_out_mono; [|exact Hf2]. set_solver. }
  rewrite Z.gtb_ltb. destruct (Z.ltb_spec 0 sz).
  - rewrite (size_pages_roundup _ _ Hsz), Z.div_mul by done.
    rewrite <- (length_fmap fst us). eapply (wp_uvmunmap root 0 us.*1 true c s l N); try done.
    + apply Hu.
    + rewrite length_fmap, MAXVA_val. unfold PGSIZE. lia.
    + by apply (up_mapped_to s l root N [] us).
    + intros _. by apply (up_freeable s l root N [] us).
    + intros s1 Hp. apply Hfw; [by apply (unmap_dealloc s l root N [] us)|].
      intros va Hva. destruct Hp as (_ & Hv & _). rewrite Hv by (rewrite TRAPFRAME_val in Hva; lia).
      case_decide; [apply tst_0|by apply Hhigh].
  - assert (us = []) as -> by (destruct Hsz; apply length_zero_iff_nil; dlia).
    wp_steps. apply Hfw; [by apply dealloc_nil|done].
Qed.
End free.
