(* ===== verification/VmProps.v ===== *)
(** Correctness of the virtual-memory component: what mapping, growing, copying, freeing and
    accessing user address spaces guarantee, stated of the functions of kernel/vm.c. *)
From S2P Require Import Prelude Memory Riscv Kalloc Vm VmTree VmMap VmUser VmCopy VmFree.

Section create.
Context `{Layout}.

(** A zeroed page is an empty page table. *)
Lemma zero_page_rep m root :
  page_ok root -> (forall b, root <= b < root + PGSIZE -> load8 m b = 0) ->
  pt_rep m root {[ [] := root ]}.
Proof.
  intros Hok Hz. split.
  - apply lookup_singleton_eq.
  - intros p x [_ <-]%lookup_singleton_Some. done.
  - intros p q x [<- _]%lookup_singleton_Some [<- _]%lookup_singleton_Some. done.
  - intros p x [<- _]%lookup_singleton_Some. simpl. lia.
  - intros p i x [He _]%lookup_singleton_Some. by destruct p.
  - intros i x [He _]%lookup_singleton_Some. done.
  - intros p x i [<- <-]%lookup_singleton_Some _ Hi. rewrite lookup_singleton_ne by done.
    transitivity (load64 (memset m root 0 PGSIZE) (root + 8 * i)).
    + apply load64_ext. intros b Hb. unfold PGSIZE in *.
      rewrite load8_memset, decide_True by lia. by apply Hz; lia.
    + apply load64_memset_zero; unfold PGSIZE; lia.
Qed.

Lemma empty_view m root va : view m {[ [] := root ]} va = 0.
Proof. unfold view, leaf_addr. by rewrite lookup_singleton_ne. Qed.

(** [uvmcreate] takes the first free page and makes it an empty address space. *)
Lemma wp_uvmcreate c s l (Q : cpu -> kmem -> Z -> Prop) :
  LKmem ∉ held c -> kmem_inv s l ->
  (l = [] -> Q c s 0) ->
  (forall s' pg l', l = pg :: l' -> user_pages s' l' pg {[ [] := pg ]} [] ->
     outside_page pg (kmem_mem s) (kmem_mem s') -> Q c s' pg) ->
  wp uvmcreate c s Q.
Proof.
  intros Hc Hk He HQ. unfold uvmcreate. wp_step. eapply wp_kalloc; [done|done|].
  intros s1 r Hp. destruct l as [|pg l]; simpl in Hp.
  { destruct Hp as [-> ->]. simpl. wp_steps. by apply He. }
  destruct Hp as (-> & Hk1 & Ho & _). destruct (Hk) as (_ & Hd & Hok).
  apply Forall_cons in Hok as [Hpg _]. apply NoDup_cons in Hd as [Hnl _].
  pose proof (page_ok_pos _ Hpg) as Hpos. unfold KERNBASE in Hpos.
  destruct (Z.eqb_spec pg 0); [lia|]. unfold upd_mem. wp_steps.
  eapply HQ; [done| |].
  - split; try done.
    + split_and!.
      * eapply kmem_inv_set_mem; [done..|apply outside_page_memset].
      * apply zero_page_rep; [done|]. intros b Hb. simpl. unfold PGSIZE in *.
        rewrite load8_memset, decide_True by lia. done.
      * intros p x [_ <-]%lookup_singleton_Some. done.
    + simpl. constructor.
    + intros. apply empty_view.
    + intros. rewrite empty_view. apply tst_0.
  - eapply outside_page_trans; [exact Ho|apply outside_page_memset].
Qed.
End create.

Section props.
Context `{Layout}.

(** [mappages] on an unmapped range returns; on success (0) the translation [walkaddr]
    computes sends every address of the range to the corresponding physical page, and on
    failure (-1) the allocator is out of pages; either way translations outside the range
    are unchanged, and so is every byte that is neither in the table nor free. *)
Lemma mappages_translates c s l root N va n pa perm :
  LKmem ∉ held c -> vm_inv s l root N -> 0 <= perm < 1024 -> tst perm PTE_U = true ->
  0 < n -> range_ok va n pa ->
  (forall va', va <= va' < va + n * PGSIZE -> tst (view (kmem_mem s) N va') PTE_V = false) ->
  exists s' l' N' r, mappages root va (n * PGSIZE) pa perm c s = Ret c s' r /\
    vm_inv s' l' root N' /\
    (r = 0 /\ (forall va', va <= va' < va + n * PGSIZE ->
                walkaddr root va' c s' = Ret c s' (pa + (va' / 4096 * 4096 - va))) \/
     r = -1 /\ l' = []) /\
    (forall va', 0 <= va' -> va' < va \/ va + n * PGSIZE <= va' ->
       exists a, walkaddr root va' c s = Ret c s a /\ walkaddr root va' c s' = Ret c s' a) /\
    frame_out (l ++ node_pages N) (kmem_mem s) (kmem_mem s').
Proof.
  intros Hc Hi Hp HU Hn Hr Hun. pose proof Hr as (Hva & Hal & Hmax & Hpa & Hpal & Hpmax).
  destruct (wp_run (mappages root va (n * PGSIZE) pa perm) c s
    (mappages_post root s l N va n pa perm)) as (s' & r & Hrun & (l' & N' & k & He & Hk & Hv & Hres)).
  { eapply wp_mappages; try done. }
  assert (forall s0 l0 N0 va', vm_inv s0 l0 root N0 -> 0 <= va' -> walkaddr root va' c s0 =
            Ret c s0 (if va' <? MAXVA then upage (view (kmem_mem s0) N0 va') else 0)) as Hw.
  { intros s0 l0 N0 va' (_ & Hr0 & _) Hva'.
    assert (wp (walkaddr root va') c s0 (fun c' s1 a => c' = c /\ s1 = s0 /\
      a = if va' <? MAXVA then upage (view (kmem_mem s0) N0 va') else 0)) as Hw by (by eapply wp_walkaddr).
    by apply wp_unfold in Hw as (? & ? & ? & -> & -> & -> & ->). }
  exists s', l', N', r. split_and!; [done|apply He| | |by eapply vm_ext_frame_out].
  - destruct Hres as [[-> ->]|(-> & -> & _)]; [left|by right]. split; [done|]. intros va' Hva'.
    rewrite (Hw s' l' N') by (apply He || lia). rewrite (proj2 (Z.ltb_lt _ _)) by lia.
    rewrite Hv by lia. unfold map_view. rewrite decide_True by done. unfold upage.
    assert (pa_ok (pa + (va' / 4096 * 4096 - va))) as Hok.
    { split; unfold PGSIZE in *; dlia. }
    rewrite tst_mkpte_V, PTE2PA_mkpte by done. cbn [andb].
    unfold PTE_U in *. rewrite tst_mkpte by (done || lia).
    rewrite tst_testbit in HU by lia. by rewrite Z.lor_spec, HU.
  - intros va' Hva' Hout. exists (if va' <? MAXVA then upage (view (kmem_mem s) N va') else 0).
    rewrite (Hw s l N), (Hw s' l' N') by (done || apply He). split; [done|].
    destruct (Z.ltb_spec va' MAXVA); [|done]. rewrite Hv by lia. unfold map_view.
    destruct Hres as [[_ ->]|(_ & _ & ?)]; (rewrite decide_False; [done|unfold PGSIZE in *; nia]).
Qed.

(** [uvmalloc] returns whatever size is asked for. With enough memory it returns the new
    size and the address space has grown, by zero-filled pages with the permissions asked
    for, to exactly the pages that size needs. Otherwise it returns 0 and the address space
    is as before. In both cases the pages of the free list, the table and the address space
    are conserved and the old contents unchanged. *)
Lemma uvmalloc_correct c s l root N us oldsz newsz xperm :
  LKmem ∉ held c -> user_pages s l root N us -> 0 <= xperm < 1024 ->
  size_pages oldsz (length us) -> oldsz <= newsz ->
  exists s' l' N' ps r, uvmalloc root oldsz newsz xperm c s = Ret c s' r /\
    let new := with_perm (Z.lor (Z.lor PTE_R PTE_U) xperm) ps in
    user_pages s' l' root N' (us ++ new) /\ Forall (zero_page (kmem_mem s')) ps /\
    (r = newsz /\ (newsz + 4095) / 4096 = Z.of_nat (length us + length ps) \/ r = 0 /\ ps = []) /\
    uv_pages l N us ≡ₚ uv_pages l' N' (us ++ new) /\
    frame_out (l ++ node_pages N) (kmem_mem s) (kmem_mem s') /\
    (forall pa b, pa ∈ us.*1 -> pa <= b < pa + PGSIZE -> load8 (kmem_mem s') b = load8 (kmem_mem s) b).
Proof.
  intros Hc Hu Hx Ho Hle.
  destruct (wp_run (uvmalloc root oldsz newsz xperm) c s
    (uvmalloc_post root us s l N newsz (Z.lor (Z.lor PTE_R PTE_U) xperm)))
    as (s' & r & Hrun & (l' & N' & ps & Hg & Hz & Hr)); [by eapply wp_uvmalloc|].
  exists s', l', N', ps, r. split; [done|]. split_and!; try done; try apply Hg.
  - unfold uv_pages. rewrite app_assoc, (ug_perm _ _ _ _ _ _ _ _ _ Hg), fmap_app. solve_Permutation.
  - intros pa b Hpa Hb. destruct (up_elem _ _ _ _ _ _ Hu Hpa) as (? & ? & ?).
    by eapply uv_grow_load; [apply Hu|..].
Qed.

(** Growing an address space and shrinking it back restores it: the same pages, the same
    contents. *)
Lemma uvmalloc_uvmdealloc_roundtrip c s l root N us oldsz newsz xperm s1 :
  LKmem ∉ held c -> user_pages s l root N us -> 0 <= xperm < 1024 ->
  size_pages oldsz (length us) -> oldsz <= newsz ->
  uvmalloc root oldsz newsz xperm c s = Ret c s1 newsz -> newsz <> 0 ->
  exists s2 l2 N2, uvmdealloc root newsz oldsz c s1 = Ret c s2 oldsz /\
    user_pages s2 l2 root N2 us /\ uv_pages l N us ≡ₚ uv_pages l2 N2 us /\
    (forall pa b, pa ∈ us.*1 -> pa <= b < pa + PGSIZE -> load8 (kmem_mem s2) b = load8 (kmem_mem s) b).
Proof.
  intros Hc Hu Hx Ho Hle Hrun Hnz.
  destruct (wp_run (uvmalloc root oldsz newsz xperm) c s
    (uvmalloc_post root us s l N newsz (Z.lor (Z.lor PTE_R PTE_U) xperm)))
    as (s' & r & Hrun' & (l' & N' & ps & Hg & Hz & Hr)); [by eapply wp_uvmalloc|].
  rewrite Hrun in Hrun'. injection Hrun' as <- <-.
  destruct Hr as [[_ Hr]|[? _]]; [|done]. set (new := with_perm _ ps) in *.
  pose proof (ug_user _ _ _ _ _ _ _ _ _ Hg) as Hu1. pose proof (up_bound _ _ _ _ _ Hu1) as Hb.
  assert (length new = length ps) as Hln by (unfold new, with_perm; apply length_fmap).
  rewrite length_app in Hb.
  destruct (wp_run (uvmdealloc root newsz oldsz) c s1
    (fun s2 r => dealloc_post s1 l' root N' us new s2 /\ r = oldsz)) as (s2 & r & Hrun2 & Hd & ->).
  { eapply wp_uvmdealloc; [done|exact Hu1|done| |done|done]. split; [|rewrite length_app; lia].
    rewrite TRAPFRAME_val. destruct Ho. dlia. }
  pose proof (uv_grow_undo _ _ _ _ _ _ _ _ _ _ (up_inv _ _ _ _ _ Hu) Hg Hd) as Hg2.
  eexists s2, _, N'. split_and!; [done|apply Hd| |].
  - unfold uv_pages. rewrite app_assoc, (ug_perm _ _ _ _ _ _ _ _ _ Hg2). simpl. rewrite app_nil_r. by rewrite app_assoc.
  - intros pa b Hpa Hb'. destruct (up_elem _ _ _ _ _ _ Hu Hpa) as (? & ? & ?).
    by eapply uv_grow_load; [apply Hu|..].
Qed.

(** The entry and the bytes of page [i]. *)
Lemma user_page_at s l root N us i pa perm va :
  user_pages s l root N us -> us !! i = Some (pa, perm) -> va / 4096 = Z.of_nat i ->
  uview s N va = mkpte pa perm /\ ubyte s N va = load8 (kmem_mem s) (pa + va mod 4096).
Proof.
  intros Hu Hi Hva. destruct (up_page _ _ _ _ _ Hu _ _ _ Hi) as (Hpa & _ & _ & Hp & _).
  pose proof (up_map _ _ _ _ _ Hu _ _ _ Hi) as Hv.
  assert (uview s N va = mkpte pa perm) as Hv'.
  { unfold uview. rewrite (view_page _ _ va (Z.of_nat i * PGSIZE)); [done|].
    rewrite Hva. unfold PGSIZE. by rewrite Z.div_mul. }
  split; [done|]. unfold ubyte, uaddr. rewrite Hv', PTE2PA_mkpte; [done|by apply page_ok_pa|done].
Qed.

(** Copied pages: the same bytes and permissions at the same addresses. *)
Lemma copies_bytes s s' l l' old new N N' us cs va : user_pages s l old N us -> user_pages s' l' new N' cs -> copies (kmem_mem s) (kmem_mem s') us cs ->
  0 <= va < Z.of_nat (length us) * PGSIZE -> ubyte s' N' va = ubyte s N va /\ PTE_FLAGS (uview s' N' va) = PTE_FLAGS (uview s N va).
Proof.
  intros Hu Hcs Hcp Hva. apply Forall2_same_length_lookup in Hcp as [Hlen Hcp]. unfold PGSIZE in Hva.
  destruct (lookup_lt_is_Some_2 us (Z.to_nat (va / 4096))) as [[pa perm] Hi]; [dlia|].
  destruct (lookup_lt_is_Some_2 cs (Z.to_nat (va / 4096))) as [[pg perm'] Hi']; [dlia|].
  destruct (Hcp _ _ _ Hi Hi') as [Hco Hpe]. simpl in *. subst perm'.
  destruct (user_page_at _ _ _ _ _ _ _ _ va Hu Hi) as [-> ->]; [dlia|].
  destruct (user_page_at _ _ _ _ _ _ _ _ va Hcs Hi') as [-> ->]; [dlia|].
  destruct (up_page _ _ _ _ _ Hu _ _ _ Hi) as (Hpa & _ & _ & Hpm & _).
  destruct (up_page _ _ _ _ _ Hcs _ _ _ Hi') as (Hpg & _ & _ & Hpm' & _).
  split; [apply Hco; unfold PGSIZE; dlia|].
  rewrite !PTE_FLAGS_mkpte by (done || by apply page_ok_pa). by rewrite <- Z.lor_assoc.
Qed.

(** [uvmcopy] (fork) returns. On success the child's address space has the parent's size,
    contents and permissions, in physical pages disjoint from the parent's; when memory runs
    out it returns -1 and the child is empty again. In both cases the parent's address space
    and every byte of it are unchanged. *)
Lemma uvmcopy_correct c s l old new N N0 us sz :
  LKmem ∉ held c -> user_pages s l old N us -> user_pages s l new N0 [] ->
  (forall pa, pa ∈ node_pages N0 -> (pa ∉ us.*1) /\ not_node N pa) ->
  size_pages sz (length us) ->
  exists s' l' N' cs r, uvmcopy old new sz c s = Ret c s' r /\
    user_pages s' l' old N us /\ user_pages s' l' new N' cs /\
    (forall pa b, pa ∈ us.*1 -> pa <= b < pa + PGSIZE -> load8 (kmem_mem s') b = load8 (kmem_mem s) b) /\
    (r = -1 /\ cs = [] \/
     r = 0 /\ length cs = length us /\ (forall pa, pa ∈ cs.*1 -> pa ∉ us.*1) /\
     forall va, 0 <= va < Z.of_nat (length us) * PGSIZE ->
       ubyte s' N' va = ubyte s N va /\ PTE_FLAGS (uview s' N' va) = PTE_FLAGS (uview s N va)).
Proof.
  intros Hc Hu Hn Hd Hsz.
  destruct (wp_run (uvmcopy old new sz) c s (uvmcopy_post old new s l N N0 us))
    as (s' & r & Hrun & (l' & N' & cs & Hg & Hp & Hr)); [by eapply wp_uvmcopy|].
  pose proof (ug_user _ _ _ _ _ _ _ _ _ Hg) as Hcs. simpl in Hcs.
  exists s', l', N', cs, r. split_and!; [done|done|done| |].
  { intros pa b Hpa Hb. by eapply (copy_parent_load old new s l N N0 us). }
  destruct Hr as [[-> Hcp]|[-> ->]]; [right|by left].
  pose proof (Forall2_length _ _ _ Hcp) as Hlen. split_and!; [done|done| |].
  - intros pa Hpa Hpu. destruct (up_elem _ _ _ _ _ _ Hu Hpu) as (_ & Hnl & _).
    assert (pa ∈ l ++ node_pages N0) as Hin by (rewrite (ug_perm _ _ _ _ _ _ _ _ _ Hg); set_solver).
    apply elem_of_app in Hin as [?|Hin]; [done|]. by destruct (Hd pa Hin).
  - intros va Hva. by eapply (copies_bytes s s').
Qed.

(** [uvmfree] of an address space whose trampoline and trapframe are already unmapped
    returns, and every page of it, page-table pages included, is on the free list: nothing
    leaks, and no byte outside those pages changes. *)
Lemma uvmfree_no_leak c s l root N us sz :
  LKmem ∉ held c -> user_pages s l root N us -> size_pages sz (length us) ->
  (forall va, TRAPFRAME <= va < MAXVA -> tst (view (kmem_mem s) N va) PTE_V = false) ->
  exists s' l', uvmfree root sz c s = Ret c s' tt /\ kmem_inv s' l' /\
    l' ≡ₚ l ++ node_pages N ++ us.*1 /\
    frame_out (node_pages N ++ us.*1) (kmem_mem s) (kmem_mem s').
Proof.
  intros Hc Hu Hsz Hh.
  destruct (wp_run (uvmfree root sz) c s (fun s' _ => exists l', kmem_inv s' l' /\
    l' ≡ₚ uv_pages l N us /\ frame_out (node_pages N ++ us.*1) (kmem_mem s) (kmem_mem s')))
    as (s' & [] & Hrun & l' & Hk & Hl & Hf).
  { eapply wp_uvmfree; [done..|]. intros s' l' ???. split; [done|]. by exists l'. }
  by exists s', l'.
Qed.

(** The bytes [copyout] wrote are in the address space's pages. *)
Lemma copyout_frame s l root N us dstva k s' :
  user_pages s l root N us -> 0 <= dstva ->
  (forall i, (i < k)%nat -> accessible true (uview s N) (dstva + Z.of_nat i) = true) ->
  (forall b, (forall i, (i < k)%nat -> b <> uaddr (uview s N) (dstva + Z.of_nat i)) ->
     load8 (kmem_mem s') b = load8 (kmem_mem s) b) ->
  frame_out us.*1 (kmem_mem s) (kmem_mem s').
Proof.
  intros Hu Hva Hacc Hf b Hb. apply Hf. intros i Hi ->.
  eapply Hb; [eapply (accessible_elem true s l root N us (dstva + Z.of_nat i)); [done|lia|by apply Hacc]|].
  unfold uaddr, PGSIZE. dlia.
Qed.

(** [copyout] returns for every user address. It writes the bytes of [src] to the user
    addresses from [dstva] up to the first one that is not mapped, user-accessible and
    writable: all of them, returning 0, or a proper prefix, returning -1. No other byte of
    memory changes, and the bytes that change are in the process's own pages. *)
Lemma copyout_correct c s l root N us dstva src :
  user_pages s l root N us -> 0 <= dstva < 18446744073709551616 ->
  exists s' r k, copyout root dstva src (Z.of_nat (length src)) c s = Ret c s' r /\
    user_pages s' l root N us /\ (k <= length src)%nat /\
    (r = 0 /\ k = length src \/
     r = -1 /\ (k < length src)%nat /\ accessible true (uview s N) (dstva + Z.of_nat k) = false) /\
    (forall i v, (i < k)%nat -> src !! i = Some v ->
       accessible true (uview s N) (dstva + Z.of_nat i) = true /\
       ubyte s' N (dstva + Z.of_nat i) = u8 v) /\
    (forall va, 0 <= va -> va < dstva \/ dstva + Z.of_nat k <= va ->
       accessible false (uview s N) va = true -> ubyte s' N va = ubyte s N va) /\
    frame_out us.*1 (kmem_mem s) (kmem_mem s').
Proof.
  intros Hu Hva.
  destruct (wp_run (copyout root dstva src (Z.of_nat (length src))) c s (copyout_post s N dstva src))
    as (s' & r & Hrun & (k & Hk & Hfl & Hw & Hf & Hr)); [by eapply wp_copyout|].
  assert (forall i, (i < k)%nat -> accessible true (uview s N) (dstva + Z.of_nat i) = true) as Hacc.
  { intros i Hi. destruct (lookup_lt_is_Some_2 src i) as [v Hv]; [lia|]. by apply (Hw i v). }
  pose proof (copyout_frame s l root N us dstva k s' Hu (proj1 Hva) Hacc Hf) as Hfr.
  pose proof (user_pages_writes _ _ _ _ _ _ Hu Hfl Hfr) as Hu'.
  assert (forall va, uview s' N va = uview s N va) as Hv.
  { intros va. unfold uview. apply same_nodes_view. eapply frame_out_nodes; [exact Hfr|by eapply up_forall|apply Hu|].
    intros p x Hp Hx. destruct (up_elem _ _ _ _ _ _ Hu Hx) as (_ & _ & Hn). by eapply Hn. }
  exists s', r, k. split_and!; try done.
  - intros i v Hi Hsrc. destruct (Hw i v Hi Hsrc) as [? Hl]. split; [done|].
    unfold ubyte, uaddr in *. by rewrite Hv.
  - intros va Hva0 Hout Ha. unfold ubyte. replace (uaddr (uview s' N) va) with (uaddr (uview s N) va)
      by (unfold uaddr; by rewrite Hv).
    apply Hf. intros i Hi He. eapply (uaddr_inj false true) in He; [|exact Hu|done|lia|done|by apply Hacc]. lia.
Qed.

(** C25 What [copyout] wrote, [copyin] reads back. *)
Theorem copyout_copyin_roundtrip c s l root N us va bytes s1 :
  user_pages s l root N us -> 0 <= va < 18446744073709551616 ->
  Forall (fun b => 0 <= b < 256) bytes ->
  copyout root va bytes (Z.of_nat (length bytes)) c s = Ret c s1 0 ->
  copyin root va (Z.of_nat (length bytes)) c s1 = Ret c s1 (0, bytes).
Proof.
  intros Hu Hva Hb Hrun.
  destruct (wp_run (copyout root va bytes (Z.of_nat (length bytes))) c s (copyout_post s N va bytes))
    as (s' & r & Hrun' & (k & Hk & Hfl & Hw & Hf & Hr)); [by eapply wp_copyout|].
  rewrite Hrun in Hrun'. injection Hrun' as <- <-. destruct Hr as [[_ ->]|(? & _)]; [|done].
  assert (forall i, (i < length bytes)%nat -> accessible true (uview s N) (va + Z.of_nat i) = true) as Hacc.
  { intros i Hi. destruct (lookup_lt_is_Some_2 bytes i) as [v Hv]; [lia|]. by apply (Hw i v). }
  pose proof (copyout_frame s l root N us va _ s1 Hu (proj1 Hva) Hacc Hf) as Hfr.
  pose proof (user_pages_writes _ _ _ _ _ _ Hu Hfl Hfr) as Hu'.
  assert (forall va, uview s1 N va = uview s N va) as Hv.
  { intros va'. unfold uview. apply same_nodes_view. eapply frame_out_nodes; [exact Hfr|by eapply up_forall|apply Hu|].
    intros p x Hp Hx. destruct (up_elem _ _ _ _ _ _ Hu Hx) as (_ & _ & Hn). by eapply Hn. }
  assert (wp (copyin root va (Z.of_nat (length bytes))) c s1 (fun c' s2 x => c' = c /\ s2 = s1 /\ x = (0, bytes))) as Hin.
  { eapply wp_copyin; [exact Hu'|done|lia|]. intros r bs (k & Hk' & -> & Hk1 & Hr). rewrite Nat2Z.id in *.
    split_and!; [done|done|]. destruct Hr as [[-> ->]|(_ & Hlt & Hno)].
    - f_equal. apply list_eq_same_length with (length bytes); rewrite ?length_ubytes; [done..|].
      intros i x y Hi Hx Hy. rewrite lookup_ubytes in Hx by done. injection Hx as <-.
      destruct (Hw i y Hi Hy) as [_ Hl]. unfold uaddr in *. rewrite Hv, Hl. apply u8_small.
      by eapply Forall_lookup_1 in Hb.
    - exfalso. specialize (Hacc k Hlt). unfold accessible in *. rewrite Hv in Hno.
      destruct (tst (uview s N (va + Z.of_nat k)) PTE_W); simpl in *; [congruence|].
      rewrite andb_false_r in Hacc. done. }
  by apply wp_unfold in Hin as (? & ? & ? & -> & -> & -> & ->).
Qed.

(** A readable NUL-terminated string of [k] bytes at [va]. *)
Definition ustring_at (s : kmem) (N : gmap (list Z) Z) (va : Z) (k : nat) : Prop :=
  ubyte s N (va + Z.of_nat k) = 0 /\ accessible false (uview s N) (va + Z.of_nat k) = true /\
  forall i, (i < k)%nat -> accessible false (uview s N) (va + Z.of_nat i) = true /\
                       ubyte s N (va + Z.of_nat i) <> 0.

(** [copyinstr] returns for every user address and bound, and changes nothing. If user
    memory has a readable NUL-terminated string at [srcva] whose NUL is within [max] bytes
    it returns 0 and has copied exactly the string with its NUL; otherwise it returns -1
    and has copied at most [max] bytes. *)
Lemma copyinstr_correct c s l root N us srcva max :
  user_pages s l root N us -> 0 <= srcva < 18446744073709551616 -> 0 <= max ->
  exists r dst, copyinstr root srcva max c s = Ret c s (r, dst) /\
    ((exists k, Z.of_nat k < max /\ ustring_at s N srcva k /\ r = 0 /\ dst = ubytes s N srcva (S k)) \/
     ((forall k, Z.of_nat k < max -> ~ ustring_at s N srcva k) /\ r = -1 /\ Z.of_nat (length dst) <= max)).
Proof.
  intros Hu Hva Hmax.
  assert (wp (copyinstr root srcva max) c s (fun c' s' x => c' = c /\ s' = s /\
    copyinstr_post s N srcva (Z.to_nat max) x.1 x.2)) as Hw by (by eapply wp_copyinstr).
  apply wp_unfold in Hw as (? & ? & [r dst] & Hrun & -> & -> & (k & Hk & Hr)). simpl in *.
  exists r, dst. split; [done|].
  destruct Hr as [(-> & ? & ? & ? & ->)|(-> & -> & Hc)]; [left; exists k|right]; split_and!; try done; try lia.
  - intros j Hj (Hj0 & Hja & Hjn). destruct (decide (k <= j)%nat) as [Hle|Hgt].
    + destruct Hc as [->|[Hc Hno]]; [lia|]. destruct (decide (k = j)) as [->|]; [congruence|].
      destruct (Hjn k) as [? _]; [lia|congruence].
    + by destruct (Hk j) as [_ ?]; [lia|].
  - rewrite length_ubytes. lia.
Qed.
End props.

(** * Witnesses *)

(** Sixteen free pages at the top of RAM, in a memory that is zero elsewhere. *)
Definition demo_pages : list Z := (fun i => 0x87ff0000 + i * PGSIZE) <$> seqZ 0 16.
Definition link_pages (ps : list Z) : kmem :=
  foldr (fun p s => mkkmem (store64 (kmem_mem s) p (freelist s)) p) (mkkmem (fun _ => 0) 0) ps.
Definition demo_kmem : kmem := link_pages demo_pages.

Lemma demo_kmem_inv : kmem_inv demo_kmem demo_pages.
Proof.
  split_and!.
  - vm_compute. repeat (split; [reflexivity|]). reflexivity.
  - apply NoDup_fmap_2; [|apply NoDup_seqZ]. intros x y Hxy. unfold PGSIZE in Hxy. lia.
  - unfold demo_pages. rewrite Forall_fmap, Forall_forall. intros i Hi%elem_of_seqZ.
    unfold compose, page_ok. rewrite PHYSTOP_val. simpl kend. unfold PGSIZE. split; [lia|].
    rewrite Z.mod_add by done. reflexivity.
Qed.

Lemma run_eq {St A} (m : M St A) c s a :
  wp m c s (fun c' _ _ => c' = c) -> result_of (m c s) = Some a -> exists s', m c s = Ret c s' a.
Proof.
  intros (c' & s' & a' & Hm & ->)%wp_unfold Hr. rewrite Hm in Hr. injection Hr as ->. eauto.
Qed.

(** An empty address space, then one of two pages. *)
Definition demo_root : Z := 0x87ff0000.
Definition demo_grow : M kmem Z :=
  root <- uvmcreate ;; uvmalloc root 0 8192 PTE_W.

Lemma demo_empty : exists s l, uvmcreate cpu0 demo_kmem = Ret cpu0 s demo_root /\
  user_pages s l demo_root {[ [] := demo_root ]} [].
Proof.
  destruct (wp_run uvmcreate cpu0 demo_kmem (fun s r => r = demo_root /\
    exists l, user_pages s l demo_root {[ [] := demo_root ]} [])) as (s & r & Hr & -> & l & Hu).
  - eapply wp_uvmcreate; [apply cpu0_unlocked|apply demo_kmem_inv|done|].
    intros s' pg l' Hl Hu _. injection Hl as <- <-. eauto.
  - eauto.
Qed.

Lemma demo_grown : exists s1 l1 s l N us,
  user_pages s1 l1 demo_root {[ [] := demo_root ]} [] /\
  uvmalloc demo_root 0 8192 PTE_W cpu0 s1 = Ret cpu0 s 8192 /\
  demo_grow cpu0 demo_kmem = Ret cpu0 s 8192 /\
  user_pages s l demo_root N us /\ length us = 2%nat.
Proof.
  destruct demo_empty as (s1 & l1 & Hr1 & Hu1).
  destruct (wp_run (uvmalloc demo_root 0 8192 PTE_W) cpu0 s1
    (uvmalloc_post demo_root [] s1 l1 {[ [] := demo_root ]} 8192 (Z.lor (Z.lor PTE_R PTE_U) PTE_W)))
    as (s2 & r & Hr2 & (l2 & N2 & ps & Hg & _ & Hres)).
  { eapply wp_uvmalloc; [apply cpu0_unlocked|done|done|split; [done|reflexivity]|done|done]. }
  assert (demo_grow cpu0 demo_kmem = Ret cpu0 s2 r) as Hd
    by (unfold demo_grow, bind; rewrite Hr1; exact Hr2).
  assert (result_of (demo_grow cpu0 demo_kmem) = Some 8192) as Hc by (vm_compute; reflexivity).
  rewrite Hd in Hc. injection Hc as ->. exists s1, l1, s2, l2, N2, (with_perm (Z.lor (Z.lor PTE_R PTE_U) PTE_W) ps).
  split_and!; [exact Hu1|exact Hr2|exact Hd|apply Hg|]. unfold with_perm. rewrite length_fmap.
  destruct Hres as [[_ Hres]|[? _]]; [|done]. simpl in Hres. unfold Z.div in Hres. simpl in Hres. lia.
Qed.

Lemma size_pages_2 : size_pages 8192 2.
Proof. split; [rewrite TRAPFRAME_val; lia|reflexivity]. Qed.

Lemma mappages_translates_witness :
  exists s l s' l' N' r, user_pages s l demo_root {[ [] := demo_root ]} [] /\
    mappages demo_root 0x5000 (1 * PGSIZE) 0x80030000 (Z.lor PTE_R PTE_U) cpu0 s = Ret cpu0 s' r /\
    vm_inv s' l' demo_root N' /\ (r = 0 \/ r = -1 /\ l' = []).
Proof.
  destruct demo_empty as (s & l & _ & Hu).
  destruct (mappages_translates cpu0 s l demo_root {[ [] := demo_root ]} 0x5000 1 0x80030000
    (Z.lor PTE_R PTE_U)) as (s' & l' & N' & r & Hrun & Hi & Hr & _).
  - apply cpu0_unlocked.
  - apply Hu.
  - done.
  - done.
  - lia.
  - unfold range_ok. rewrite MAXVA_val. split_and!; done || lia.
  - intros va' _. rewrite empty_view. apply tst_0.
  - exists s, l, s', l', N', r. split_and!; [done|done|done|]. destruct Hr as [[? _]|?]; auto.
Defined.

Lemma uvmalloc_correct_witness :
  exists s l s' r, user_pages s l demo_root {[ [] := demo_root ]} [] /\
    uvmalloc demo_root 0 0x1800 PTE_X cpu0 s = Ret cpu0 s' r.
Proof.
  destruct demo_empty as (s & l & _ & Hu).
  destruct (uvmalloc_correct cpu0 s l demo_root {[ [] := demo_root ]} [] 0 0x1800 PTE_X
    (cpu0_unlocked _) Hu) as (s' & _ & _ & _ & r & Hrun & _); [done|split; [done|reflexivity]|done|].
  exists s, l, s', r. split; [done|exact Hrun].
Defined.

Lemma uvmalloc_uvmdealloc_roundtrip_witness :
  exists s s1 s2 l2 N2, uvmalloc demo_root 0 8192 PTE_W cpu0 s = Ret cpu0 s1 8192 /\
    uvmdealloc demo_root 8192 0 cpu0 s1 = Ret cpu0 s2 0 /\ user_pages s2 l2 demo_root N2 [].
Proof.
  destruct demo_grown as (s & l & s1 & _ & _ & _ & Hu & Hrun & _).
  destruct (uvmalloc_uvmdealloc_roundtrip cpu0 s l demo_root {[ [] := demo_root ]} [] 0 8192 PTE_W s1
    (cpu0_unlocked _) Hu) as (s2 & l2 & N2 & Hr2 & Hu2 & _);
    [done|split; [done|reflexivity]|done|exact Hrun|done|].
  exists s, s1, s2, l2, N2. split_and!; [exact Hrun|exact Hr2|exact Hu2].
Defined.

Lemma uvmcopy_correct_witness :
  exists s l N us new, user_pages s l demo_root N us /\ length us = 2%nat /\
    user_pages s l new {[ [] := new ]} [] /\
    exists s' r, uvmcopy demo_root new 8192 cpu0 s = Ret cpu0 s' r.
Proof.
  destruct demo_grown as (_ & _ & s & l & N & us & _ & _ & Hd & Hu & Hl).
  destruct (wp_run uvmcreate cpu0 s (fun s1 r => l = [] \/ exists l1, l = r :: l1 /\
    user_pages s1 l1 r {[ [] := r ]} [] /\ outside_page r (kmem_mem s) (kmem_mem s1)))
    as (s1 & r & Hr & Hc).
  { eapply wp_uvmcreate; [apply cpu0_unlocked|apply Hu|auto|]. intros s' pg l' -> Hn Ho. eauto 10. }
  assert (result_of ((demo_grow ;; uvmcreate) cpu0 demo_kmem) = Some 0x87ff5000) as Hv
    by (vm_compute; reflexivity).
  unfold bind in Hv. rewrite Hd in Hv. simpl obind in Hv. rewrite Hr in Hv. injection Hv as ->.
  destruct Hc as [->|(l1 & -> & Hn & Ho)].
  { exfalso. destruct (flist_nil_iff s []) as [_ Hnil]; [apply Hu|]. specialize (Hnil eq_refl).
    unfold uvmcreate, bind, kalloc in Hr. unfold bind, acquire, gets in Hr. simpl in Hr. rewrite Hnil in Hr.
    discriminate Hr. }
  clear Hd Hr. pose proof (up_take _ _ _ _ _ _ s1 Hu (proj1 (up_inv _ _ _ _ _ Hn)) Ho) as Hu1.
  destruct (up_head _ _ _ _ _ _ Hu) as (_ & _ & Hnn & Hnu).
  exists s1, l1, N, us, 0x87ff5000. split_and!; [done|done|done|].
  destruct (uvmcopy_correct cpu0 s1 l1 demo_root 0x87ff5000 N {[ [] := 0x87ff5000 ]} us 8192
    (cpu0_unlocked _) Hu1 Hn) as (s' & _ & _ & _ & r & Hrun & _).
  - intros pa (p & Hp)%elem_of_node_pages. apply lookup_singleton_Some in Hp as [_ <-]. done.
  - rewrite Hl. apply size_pages_2.
  - exists s', r. exact Hrun.
Defined.

Lemma uvmfree_no_leak_witness :
  exists s l s' l', user_pages s l demo_root {[ [] := demo_root ]} [] /\
    uvmfree demo_root 0 cpu0 s = Ret cpu0 s' tt /\ kmem_inv s' l' /\
    l' ≡ₚ l ++ node_pages {[ [] := demo_root ]}.
Proof.
  destruct demo_empty as (s & l & _ & Hu).
  destruct (uvmfree_no_leak cpu0 s l demo_root {[ [] := demo_root ]} [] 0 (cpu0_unlocked _) Hu)
    as (s' & l' & Hrun & Hk & Hl & _); [split; [done|reflexivity]| |].
  - intros va _. rewrite empty_view. apply tst_0.
  - rewrite app_nil_r in Hl. exists s, l, s', l'. done.
Defined.

Lemma copyout_correct_witness :
  exists s l N us s' r, user_pages s l demo_root N us /\ length us = 2%nat /\
    copyout demo_root 4090 [1;2;3;4;5;6;7;8;9;10] 10 cpu0 s = Ret cpu0 s' r.
Proof.
  destruct demo_grown as (_ & _ & s & l & N & us & _ & _ & _ & Hu & Hl).
  destruct (copyout_correct cpu0 s l demo_root N us 4090 [1;2;3;4;5;6;7;8;9;10] Hu)
    as (s' & r & _ & Hrun & _); [lia|].
  exists s, l, N, us, s', r. split_and!; [done|done|exact Hrun].
Defined.

Lemma copyout_copyin_roundtrip_witness :
  exists s s1, copyout demo_root 4094 [104; 105; 33; 10] 4 cpu0 s = Ret cpu0 s1 0 /\
    copyin demo_root 4094 4 cpu0 s1 = Ret cpu0 s1 (0, [104; 105; 33; 10]).
Proof.
  destruct demo_grown as (_ & _ & s & l & N & us & _ & _ & Hd & Hu & _).
  assert (result_of ((demo_grow ;; copyout demo_root 4094 [104; 105; 33; 10] 4) cpu0 demo_kmem) = Some 0) as Hv
    by (vm_compute; reflexivity).
  unfold bind in Hv. rewrite Hd in Hv. simpl obind in Hv.
  destruct (run_eq (copyout demo_root 4094 [104; 105; 33; 10] 4) cpu0 s 0) as [s1 Hs1].
  - clear Hd Hv. eapply (wp_copyout demo_root l N us cpu0 s 4094 [104; 105; 33; 10]); [exact Hu|lia|reflexivity].
  - exact Hv.
  - clear Hd Hv. exists s, s1. split; [exact Hs1|].
    apply (copyout_copyin_roundtrip cpu0 s l demo_root N us 4094 [104; 105; 33; 10] s1);
      [done|lia|repeat constructor; lia|exact Hs1].
Defined.

Lemma copyinstr_correct_witness :
  exists s l N us r dst, user_pages s l demo_root N us /\
    copyinstr demo_root 4094 16 cpu0 s = Ret cpu0 s (r, dst).
Proof.
  destruct demo_grown as (_ & _ & s & l & N & us & _ & _ & _ & Hu & _).
  destruct (copyinstr_correct cpu0 s l demo_root N us 4094 16 Hu) as (r & dst & Hrun & _); [lia|lia|].
  exists s, l, N, us, r, dst. split; [done|exact Hrun].
Defined.
