(* ===== verification/UserMem.v ===== *)
(** User memory as the system calls see it: bytes read from and written to the address space
    of a process through [copyin] and [copyout]. *)
From S2P Require Import Prelude Memory Riscv Kalloc Vm VmTree VmMap VmUser VmCopy VmProps.

Section umem.
Context `{Layout}.

(** [s'] is [s] with [data] written to user memory at [va]. *)
Record uwrote (s : kmem) (l : list Z) (root : Z) (N : gmap (list Z) Z) (us : list (Z * Z)) (va : Z) (data : list Z) (s' : kmem) : Prop := {
  uw_pages : user_pages s' l root N us;
  uw_view a : uview s' N a = uview s N a;
  uw_data i v : data !! i = Some v -> ubyte s' N (va + Z.of_nat i) = u8 v;
  uw_other a : 0 <= a -> a < va \/ va + Z.of_nat (length data) <= a -> accessible false (uview s N) a = true -> ubyte s' N a = ubyte s N a;
  uw_frame : frame_out us.*1 (kmem_mem s) (kmem_mem s');
  uw_free : freelist s' = freelist s;
}.

(** [n] bytes from [va] on are mapped for the process, for writing if [w]. *)
Definition uok (w : bool) (s : kmem) (N : gmap (list Z) Z) (va : Z) (n : nat) : Prop :=
  0 <= va /\ va + Z.of_nat n < 18446744073709551616 /\
  forall i, (i < n)%nat -> accessible w (uview s N) (va + Z.of_nat i) = true.

Lemma accessible_weaken s N a : accessible true (uview s N) a = true -> accessible false (uview s N) a = true.
Proof. unfold accessible. rewrite !andb_true_iff. naive_solver. Qed.

Lemma uok_view w s s' N va n : (forall a, uview s' N a = uview s N a) -> uok w s N va n -> uok w s' N va n.
Proof.
  intros Hv (H1 & H2 & H3). split_and!; try done. intros i Hi. specialize (H3 i Hi). unfold accessible in *. by rewrite Hv.
Qed.
Lemma uok_sub w s N va n i m : uok w s N va n -> (i + m <= n)%nat -> uok w s N (va + Z.of_nat i) m.
Proof.
  intros (H1 & H2 & H3) Hm. split_and!; [lia|lia|]. intros j Hj. replace (va + Z.of_nat i + Z.of_nat j) with (va + Z.of_nat (i + j)) by lia. apply H3. lia.
Qed.

Lemma uwrote_nil s l root N us va : user_pages s l root N us -> uwrote s l root N us va [] s.
Proof. intros Hu. by split. Qed.

Lemma uwrote_app s l root N us va d1 d2 s1 s2 :
  uok true s N va (length d1) -> uwrote s l root N us va d1 s1 ->
  uwrote s1 l root N us (va + Z.of_nat (length d1)) d2 s2 -> uwrote s l root N us va (d1 ++ d2) s2.
Proof.
  intros (Hva & _ & Hok) [P1 V1 D1 O1 F1 L1] [P2 V2 D2 O2 F2 L2].
  assert (forall a, accessible false (uview s1 N) a = accessible false (uview s N) a) as Ha by (intros a; unfold accessible; by rewrite V1).
  split; [done| | | |by eapply frame_out_trans|congruence].
  - intros a. by rewrite V2, V1.
  - intros i v Hi. apply lookup_app_Some in Hi as [Hi|[Hle Hi]].
    + pose proof (lookup_lt_Some _ _ _ Hi). rewrite O2; [by apply D1|lia|left; lia|]. rewrite Ha. apply accessible_weaken, Hok. done.
    + replace (va + Z.of_nat i) with (va + Z.of_nat (length d1) + Z.of_nat (i - length d1)) by lia. by apply D2.
  - intros a Ha0 Hout Hacc. rewrite length_app in Hout. rewrite O2 by (try rewrite Ha; try done; lia). apply O1; [done|lia|done].
Qed.

(** What was written can be read back. *)
Lemma uwrote_bytes s l root N us va data s' : uwrote s l root N us va data s' -> Forall (fun v => 0 <= v < 256) data ->
  ubytes s' N va (length data) = data.
Proof.
  intros Hw Hb. apply list_eq. intros i. destruct (decide (i < length data)%nat) as [Hi|Hi].
  - rewrite lookup_ubytes by done. destruct (lookup_lt_is_Some_2 data i Hi) as [v Hv]. rewrite Hv. f_equal.
    etransitivity; [apply (uw_data _ _ _ _ _ _ _ _ Hw i v Hv)|]. apply u8_small. by eapply (Forall_lookup_1 _ _ _ _ Hb).
  - rewrite !(proj2 (lookup_ge_None _ _)); [done|lia|rewrite length_ubytes; lia].
Qed.

Lemma wp_copyout_ok root l N us c s va data (Q : cpu -> kmem -> Z -> Prop) :
  user_pages s l root N us -> uok true s N va (length data) ->
  (forall s', uwrote s l root N us va data s' -> Q c s' 0) ->
  wp (copyout root va data (Z.of_nat (length data))) c s Q.
Proof.
  intros Hu (Hva & Hlim & Hok) HQ. eapply wp_copyout; [exact Hu|lia|]. intros s' r (k & Hk & Hfl & Hw & Hf & Hr).
  assert (k = length data /\ r = 0) as [-> ->].
  { destruct Hr as [[-> ->]|(_ & Hlt & Hno)]; [done|]. rewrite Hok in Hno by lia. done. }
  apply HQ. pose proof (copyout_frame s l root N us va (length data) s' Hu Hva Hok Hf) as Hfr.
  assert (forall a, uview s' N a = uview s N a) as Hv.
  { intros a. unfold uview. apply same_nodes_view. eapply frame_out_nodes; [exact Hfr|by eapply up_forall|apply Hu|].
    intros p x Hp Hx. destruct (up_elem _ _ _ _ _ _ Hu Hx) as (_ & _ & Hn). by eapply Hn. }
  split; try done.
  - by eapply user_pages_writes.
  - intros i v Hi. destruct (Hw i v (lookup_lt_Some _ _ _ Hi) Hi) as [_ Hl]. unfold ubyte, uaddr in *. by rewrite Hv.
  - intros a Ha Hout Hacc. unfold ubyte. replace (uaddr (uview s' N) a) with (uaddr (uview s N) a) by (unfold uaddr; by rewrite Hv).
    apply Hf. intros i Hi He. eapply (uaddr_inj false true) in He; [|exact Hu|done|lia|done|by apply Hok]. lia.
Qed.

Lemma wp_copyin_ok root l N us c s va n (Q : cpu -> kmem -> Z * list Z -> Prop) :
  user_pages s l root N us -> uok false s N va (Z.to_nat n) -> 0 <= n ->
  Q c s (0, ubytes s N va (Z.to_nat n)) -> wp (copyin root va n) c s Q.
Proof.
  intros Hu (Hva & Hlim & Hok) Hn HQ. eapply wp_copyin; [exact Hu|lia|done|]. intros r bs (k & Hk & -> & _ & Hr).
  destruct Hr as [[-> ->]|(_ & Hlt & Hno)]; [done|]. rewrite Hok in Hno by lia. done.
Qed.

Lemma uok_weaken s N va n : uok true s N va n -> uok false s N va n.
Proof. intros (H1 & H2 & H3). split_and!; try done. intros i Hi. by apply accessible_weaken, H3. Qed.
End umem.

(** The example address space: ten writable bytes on two pages. *)
Lemma demo_space_run : exists m l N us, demo_grow cpu0 demo_kmem = Ret cpu0 m 8192 /\ user_pages m l demo_root N us /\ uok true m N 4090 10.
Proof.
  destruct demo_grown as (_ & _ & m & l & N & us & _ & _ & Hd & Hu & _). exists m, l, N, us. split; [exact Hd|]. split; [exact Hu|]. split; [lia|]. split; [lia|].
  assert (result_of ((demo_grow ;; copyout demo_root 4090 [7; 7; 7; 7; 7; 7; 7; 7; 7; 7] 10) cpu0 demo_kmem) = Some 0) as Hv by (vm_compute; reflexivity).
  unfold bind in Hv. rewrite Hd in Hv. simpl obind in Hv. clear Hd.
  destruct (wp_elim (copyout demo_root 4090 [7; 7; 7; 7; 7; 7; 7; 7; 7; 7] 10) cpu0 m (fun _ s' r => copyout_post m N 4090 [7; 7; 7; 7; 7; 7; 7; 7; 7; 7] s' r)) as (c' & s' & r & Hr & Hp).
  { eapply (wp_copyout demo_root l N us cpu0 m 4090 [7; 7; 7; 7; 7; 7; 7; 7; 7; 7]); [exact Hu|lia|]. done. }
  rewrite Hr in Hv. injection Hv as ->. destruct Hp as (k & _ & _ & Hw & _ & [[_ ->]|[? _]]); [|done].
  intros i Hi. destruct (lookup_lt_is_Some_2 [7; 7; 7; 7; 7; 7; 7; 7; 7; 7] i) as [v Hv]; [done|]. by apply (Hw i v).
Qed.

Lemma demo_space : exists m l N us, user_pages m l demo_root N us /\ uok true m N 4090 10.
Proof. destruct demo_space_run as (m & l & N & us & _ & Hu & Hok). exists m, l, N, us. exact (conj Hu Hok). Qed.
