(* ===== verification/Spinlock.v ===== *)
(** Spin locks and interrupt nesting on several harts, kernel/spinlock.c.

    The other files see a lock through [acquire]/[release] of the Prelude, which only
    record the locks the running CPU holds. Here the functions are modelled on the
    machine state they really change: each hart's [sstatus], [noff] and [intena], and each
    lock's [locked] word and [cpu] field. [acquire] and [release] are split at their
    atomic instructions, so that harts interleave between the swap and the other stores. *)
From S2P Require Import Prelude Riscv.

(** [struct spinlock] without its debugging name; a null [cpu] is [None]. *)
Record spinlock := mkspin { locked : Z; lcpu : option nat }.

(** Where a hart is: outside these functions, or between two instructions of [acquire]
    or [release]. *)
Inductive point :=
| Run
| AcqSpin (lk : lockid)   (** in the loop of [acquire] *)
| AcqGot (lk : lockid)    (** the swap returned 0, [lk->cpu] not yet set *)
| RelClear (lk : lockid)  (** [lk->cpu] cleared, [lk->locked] still 1 *)
| RelPop (lk : lockid).   (** [lk->locked] is 0, [pop_off] not yet called *)

(** A hart: its [sstatus] register and the [noff], [intena] of its [struct cpu], with the
    point it is at and, for the proofs, the locks it holds and its unmatched [push_off]s. *)
Record hart := mkhart {
  sstatus : Z; noff : Z; intena : Z; at_ : point; owned : list lockid; pushes : nat }.

Record machine := mkmach { harts : nat -> hart; locks : lockid -> spinlock }.

Definition set_hart (h : nat) (x : hart) (m : machine) : machine :=
  mkmach (fun k => if decide (k = h) then x else harts m k) (locks m).
Definition set_lock (lk : lockid) (x : spinlock) (m : machine) : machine :=
  mkmach (harts m) (fun k => if decide (k = lk) then x else locks m k).

(** * riscv.h: the interrupt-enable bit of [sstatus] *)

Definition intr_get (x : hart) : Z := if tst (sstatus x) SSTATUS_SIE then 1 else 0.
Definition intr_on (x : hart) : hart :=
  mkhart (Z.lor (sstatus x) SSTATUS_SIE) (noff x) (intena x) (at_ x) (owned x) (pushes x).
Definition intr_off (x : hart) : hart :=
  mkhart (Z.land (sstatus x) (Z.lnot SSTATUS_SIE)) (noff x) (intena x) (at_ x) (owned x) (pushes x).

(** * spinlock.c *)

Definition initlock_spin : spinlock := mkspin 0 None.

Definition push_off (x : hart) : hart :=
  let old := intr_get x in
  let x := intr_off x in
  let x := if noff x =? 0 then mkhart (sstatus x) (noff x) old (at_ x) (owned x) (pushes x) else x in
  mkhart (sstatus x) (noff x + 1) (intena x) (at_ x) (owned x) (pushes x).

(** [None] is a panic. *)
Definition pop_off (x : hart) : option hart :=
  if negb (intr_get x =? 0) then None
  else if noff x <? 1 then None
  else
    let x := mkhart (sstatus x) (noff x - 1) (intena x) (at_ x) (owned x) (pushes x) in
    Some (if (noff x =? 0) && negb (intena x =? 0) then intr_on x else x).

Definition holding_spin (h : nat) (l : spinlock) : bool :=
  negb (locked l =? 0) && bool_decide (lcpu l = Some h).

(** The atomic swap: the old value and the lock with the new one. *)
Definition test_and_set (l : spinlock) : Z * spinlock := (locked l, mkspin 1 (lcpu l)).

Definition at_point (p : point) (x : hart) : hart :=
  mkhart (sstatus x) (noff x) (intena x) p (owned x) (pushes x).
Definition set_owned (o : list lockid) (x : hart) : hart :=
  mkhart (sstatus x) (noff x) (intena x) (at_ x) o (pushes x).
Definition set_pushes (n : nat) (x : hart) : hart :=
  mkhart (sstatus x) (noff x) (intena x) (at_ x) (owned x) n.

(** ** [acquire], instruction by instruction *)

(** [push_off] and the check; [None] is the panic. *)
Definition acquire_enter (h : nat) (lk : lockid) (m : machine) : option machine :=
  let x := push_off (harts m h) in
  if holding_spin h (locks m lk) then None
  else Some (set_hart h (at_point (AcqSpin lk) x) m).

(** One round of the loop. *)
Definition acquire_spin (h : nat) (lk : lockid) (m : machine) : machine :=
  let '(old, l) := test_and_set (locks m lk) in
  let m := set_lock lk l m in
  if negb (old =? 0) then m else set_hart h (at_point (AcqGot lk) (harts m h)) m.

(** [lk->cpu = mycpu()]. *)
Definition acquire_done (h : nat) (lk : lockid) (m : machine) : machine :=
  let m := set_lock lk (mkspin (locked (locks m lk)) (Some h)) m in
  set_hart h (set_owned (lk :: owned (harts m h)) (at_point Run (harts m h))) m.

(** ** [release] *)

Definition release_enter (h : nat) (lk : lockid) (m : machine) : option machine :=
  if negb (holding_spin h (locks m lk)) then None
  else
    let m := set_lock lk (mkspin (locked (locks m lk)) None) m in
    Some (set_hart h (set_owned (remove_lock lk (owned (harts m h)))
                        (at_point (RelClear lk) (harts m h))) m).

Definition release_store (h : nat) (lk : lockid) (m : machine) : machine :=
  let m := set_lock lk (mkspin 0 (lcpu (locks m lk))) m in
  set_hart h (at_point (RelPop lk) (harts m h)) m.

Definition release_pop (h : nat) (m : machine) : option machine :=
  match pop_off (harts m h) with
  | Some x => Some (set_hart h (at_point Run x) m)
  | None => None
  end.

(** * Interleavings

    A hart outside [acquire] and [release] may enter them for any lock, call [push_off]
    or a matching [pop_off], or, when [noff] is 0, enable or disable interrupts. *)

Inductive hart_step (h : nat) : machine -> machine -> Prop :=
| hs_acquire lk m m' : at_ (harts m h) = Run -> acquire_enter h lk m = Some m' -> hart_step h m m'
| hs_spin lk m : at_ (harts m h) = AcqSpin lk -> hart_step h m (acquire_spin h lk m)
| hs_got lk m : at_ (harts m h) = AcqGot lk -> hart_step h m (acquire_done h lk m)
| hs_release lk m m' : at_ (harts m h) = Run -> release_enter h lk m = Some m' -> hart_step h m m'
| hs_store lk m : at_ (harts m h) = RelClear lk -> hart_step h m (release_store h lk m)
| hs_relpop lk m m' : at_ (harts m h) = RelPop lk -> release_pop h m = Some m' -> hart_step h m m'
| hs_push m : at_ (harts m h) = Run ->
    hart_step h m (set_hart h (set_pushes (S (pushes (harts m h))) (push_off (harts m h))) m)
| hs_pop m x k : at_ (harts m h) = Run -> pushes (harts m h) = S k -> pop_off (harts m h) = Some x ->
    hart_step h m (set_hart h (set_pushes k x) m)
| hs_intr_on m : at_ (harts m h) = Run -> noff (harts m h) = 0 ->
    hart_step h m (set_hart h (intr_on (harts m h)) m)
| hs_intr_off m : at_ (harts m h) = Run -> noff (harts m h) = 0 ->
    hart_step h m (set_hart h (intr_off (harts m h)) m).

Definition mach_step (m m' : machine) : Prop := exists h, hart_step h m m'.

(** After [initlock] of every lock, with [noff] 0 everywhere. *)
Definition mach_init (m : machine) : Prop :=
  (forall lk, locks m lk = initlock_spin) /\
  forall h, noff (harts m h) = 0 /\ at_ (harts m h) = Run /\ owned (harts m h) = [] /\
            pushes (harts m h) = 0%nat.

(** * The invariant *)

(** The hart is past the swap of [acquire] and before the store of [release]. *)
Definition in_section (m : machine) (h : nat) (lk : lockid) : Prop :=
  lk ∈ owned (harts m h) \/ at_ (harts m h) = AcqGot lk \/ at_ (harts m h) = RelClear lk.

(** Interrupt nesting due to the function the hart is in the middle of. *)
Definition pending (p : point) : Z := match p with Run => 0 | _ => 1 end.

Record hart_ok (x : hart) : Prop := {
  ho_noff : noff x = Z.of_nat (length (owned x)) + Z.of_nat (pushes x) + pending (at_ x);
  ho_off : 0 < noff x -> tst (sstatus x) SSTATUS_SIE = false;
  ho_dup : NoDup (owned x);
}.

Record mach_ok (m : machine) : Prop := {
  mo_hart h : hart_ok (harts m h);
  mo_locked lk : locked (locks m lk) = 0 \/ locked (locks m lk) = 1;
  mo_cpu lk h : lcpu (locks m lk) = Some h <-> lk ∈ owned (harts m h);
  mo_section lk h : in_section m h lk -> locked (locks m lk) = 1;
  mo_excl lk h h' : in_section m h lk -> in_section m h' lk -> h = h';
  mo_got lk h : at_ (harts m h) = AcqGot lk \/ at_ (harts m h) = AcqSpin lk \/
                at_ (harts m h) = RelClear lk -> lk ∉ owned (harts m h);
}.

Lemma harts_set_hart h x m k : harts (set_hart h x m) k = if decide (k = h) then x else harts m k.
Proof. done. Qed.
Lemma locks_set_lock lk x m k : locks (set_lock lk x m) k = if decide (k = lk) then x else locks m k.
Proof. done. Qed.

(** * Interrupt nesting *)

Lemma tst_SIE x : tst x SSTATUS_SIE = Z.testbit x 1.
Proof. by apply tst_testbit. Qed.

Lemma intr_off_off x : tst (sstatus (intr_off x)) SSTATUS_SIE = false.
Proof.
  rewrite tst_SIE. unfold intr_off. cbn [sstatus]. rewrite Z.land_spec, Z.lnot_spec by lia.
  apply andb_false_r.
Qed.

Lemma intr_on_on x : tst (sstatus (intr_on x)) SSTATUS_SIE = true.
Proof. rewrite tst_SIE. unfold intr_on. cbn [sstatus]. rewrite Z.lor_spec. apply orb_true_r. Qed.

Lemma push_off_fields x :
  noff (push_off x) = noff x + 1 /\ tst (sstatus (push_off x)) SSTATUS_SIE = false /\
  at_ (push_off x) = at_ x /\ owned (push_off x) = owned x /\ pushes (push_off x) = pushes x /\
  intena (push_off x) = (if noff x =? 0 then intr_get x else intena x).
Proof.
  unfold push_off. simpl. pose proof (intr_off_off x) as Ho.
  destruct (noff x =? 0); simpl in *; split_and!; done.
Qed.

(** [pop_off] panics neither when interrupts are off nor when [noff] is positive. *)
Lemma pop_off_fields x :
  0 < noff x -> tst (sstatus x) SSTATUS_SIE = false ->
  exists x', pop_off x = Some x' /\ noff x' = noff x - 1 /\ at_ x' = at_ x /\ owned x' = owned x /\
    pushes x' = pushes x /\ intena x' = intena x /\
    tst (sstatus x') SSTATUS_SIE = (noff x =? 1) && negb (intena x =? 0).
Proof.
  intros Hn Ho. unfold pop_off, intr_get. rewrite Ho. simpl.
  destruct (Z.ltb_spec (noff x) 1); [lia|].
  assert ((noff x - 1 =? 0) = (noff x =? 1)) as -> by (destruct (Z.eqb_spec (noff x - 1) 0), (Z.eqb_spec (noff x) 1); lia).
  destruct ((noff x =? 1) && negb (intena x =? 0)) eqn:E; eexists; (split; [reflexivity|]);
    split_and!; try done; apply intr_on_on.
Qed.

(** * Every step preserves the invariant *)

(** A step that changes one hart without moving it in or out of a critical section. *)
Lemma ok_hart_only m h x :
  mach_ok m -> hart_ok x -> owned x = owned (harts m h) ->
  (forall lk, at_ x <> AcqGot lk /\ at_ x <> RelClear lk) ->
  (forall lk, at_ x = AcqSpin lk -> lk ∉ owned x) -> mach_ok (set_hart h x m).
Proof.
  intros [Hh Hl Hcpu Hsec Hex Hgot] Hx Ho Hat Hspin.
  assert (forall k, owned (harts (set_hart h x m) k) = owned (harts m k)) as Howned.
  { intros k. rewrite harts_set_hart. case_decide; [by subst|done]. }
  assert (forall k lk, in_section (set_hart h x m) k lk -> in_section m k lk) as Hin.
  { intros k lk. unfold in_section. rewrite harts_set_hart. case_decide; [subst k|done].
    rewrite Ho. destruct (Hat lk) as [??]. intros [?|[?|?]]; [by left|done|done]. }
  split; simpl; try done.
  - intros k. by case_decide.
  - intros lk k. specialize (Howned k). simpl in Howned. by rewrite Howned.
  - intros lk k ?%Hin. by eapply Hsec.
  - intros lk k k' ?%Hin ?%Hin. by eapply Hex.
  - intros lk k. specialize (Howned k). simpl in Howned. rewrite Howned. case_decide; [subst k|apply Hgot].
    destruct (Hat lk) as [??]. intros [?|[?|?]]; [done| |done]. rewrite <- Ho. by apply Hspin.
Qed.

Lemma hart_ok_push x n p :
  hart_ok x -> pending p + Z.of_nat n = pending (at_ x) + Z.of_nat (pushes x) + 1 ->
  hart_ok (at_point p (set_pushes n (push_off x))).
Proof.
  intros [Hn Ho Hd] Hp. destruct (push_off_fields x) as (En & Es & Ea & Eo & Ep & _).
  split; unfold at_point, set_pushes; cbn [noff at_ owned pushes sstatus];
    rewrite ?En, ?Eo; [lia|intros _; exact Es|done].
Qed.

Lemma hart_ok_pop x x' n p :
  hart_ok x -> 0 < noff x -> pop_off x = Some x' ->
  pending p + Z.of_nat n = pending (at_ x) + Z.of_nat (pushes x) - 1 ->
  hart_ok (at_point p (set_pushes n x')).
Proof.
  intros [Hn Ho Hd] Hpos Hpop Hp.
  destruct (pop_off_fields x Hpos (Ho Hpos)) as (y & Hy & En & Ea & Eo & Ep & _ & Es).
  rewrite Hpop in Hy. injection Hy as <-. split; unfold at_point, set_pushes; cbn [noff at_ owned pushes sstatus];
    rewrite ?En, ?Eo; [lia| |done].
  intros Hpos'. rewrite Es. by rewrite (proj2 (Z.eqb_neq _ _)) by lia.
Qed.

Lemma holding_spin_iff m h lk : mach_ok m -> holding_spin h (locks m lk) = true <-> lk ∈ owned (harts m h).
Proof.
  intros [_ Hl Hcpu Hsec _ _]. unfold holding_spin. rewrite andb_true_iff, bool_decide_eq_true, negb_true_iff, Z.eqb_neq.
  rewrite Hcpu. split; [by intros [_ ?]|]. intros Hin. split; [|done].
  rewrite (Hsec lk h) by (by left). done.
Qed.

Lemma remove_lock_length lk l : NoDup l -> lk ∈ l -> (S (length (remove_lock lk l)) = length l)%nat.
Proof.
  intros Hd Hin. apply list_elem_of_split in Hin as (l1 & l2 & ->).
  apply NoDup_app in Hd as (_ & Hd1 & [Hd2 _]%NoDup_cons).
  unfold remove_lock. rewrite filter_app, filter_cons_False by auto.
  fold (remove_lock lk l1) (remove_lock lk l2). rewrite !remove_lock_notin; [|done|].
  - rewrite !length_app. simpl. lia.
  - intros Hin. apply (Hd1 lk Hin). set_solver.
Qed.

(** States that agree on every hart and lock are the same for the invariant. *)
Definition mach_eq (m m' : machine) : Prop :=
  (forall h, harts m h = harts m' h) /\ forall lk, locks m lk = locks m' lk.

#[export] Instance mach_ok_proper : Proper (mach_eq ==> iff) mach_ok.
Proof.
  assert (forall m m', mach_eq m m' -> mach_ok m -> mach_ok m') as Himp.
  { intros m m' [Hh Hl] [H1 H2 H3 H4 H5 H6].
    assert (forall h lk, in_section m' h lk <-> in_section m h lk) as Hin
      by (intros h lk; unfold in_section; by rewrite Hh).
    split.
    - intros h. rewrite <- Hh. apply H1.
    - intros lk. rewrite <- Hl. apply H2.
    - intros lk h. rewrite <- Hl, <- Hh. apply H3.
    - intros lk h. rewrite Hin, <- Hl. apply H4.
    - intros lk h h'. rewrite !Hin. apply H5.
    - intros lk h. rewrite <- Hh. apply H6. }
  intros m m' He. split; apply Himp; [done|]. destruct He as [Hh Hl]. split; done.
Qed.

#[local] Opaque push_off pop_off.

Lemma hart_eta x p n :
  at_ x = p -> pushes x = n -> x = at_point p (set_pushes n x).
Proof. destruct x; simpl. by intros -> ->. Qed.

Lemma ok_acquire_enter m h lk m' :
  mach_ok m -> at_ (harts m h) = Run -> acquire_enter h lk m = Some m' -> mach_ok m'.
Proof.
  intros Hm Hat He. unfold acquire_enter in He.
  destruct (holding_spin h (locks m lk)) eqn:Hh; [done|]. injection He as <-.
  assert (lk ∉ owned (harts m h)) as Hn by (intros Hin; apply (holding_spin_iff m h lk Hm) in Hin; congruence).
  destruct (push_off_fields (harts m h)) as (_ & _ & _ & Eo & Ep & _).
  apply ok_hart_only; [done| |exact Eo|done|].
  - rewrite (hart_eta (push_off (harts m h)) _ _ eq_refl Ep).
    apply (hart_ok_push (harts m h) (pushes (harts m h)) (AcqSpin lk)); [apply Hm|]. rewrite Hat. simpl. lia.
  - intros lk' [= <-]. change (lk ∉ owned (push_off (harts m h))). by rewrite Eo.
Qed.

Lemma ok_spin m h lk :
  mach_ok m -> at_ (harts m h) = AcqSpin lk -> mach_ok (acquire_spin h lk m).
Proof.
  intros Hm Hat. unfold acquire_spin. simpl. destruct (mo_locked m Hm lk) as [Hz|Hz].
  - rewrite Hz. simpl. pose proof Hm as [Hh Hl Hcpu Hsec Hex Hgot].
    set (m1 := set_hart h (at_point (AcqGot lk) (harts m h)) (set_lock lk (mkspin 1 (lcpu (locks m lk))) m)).
    assert (forall k, owned (harts m1 k) = owned (harts m k)) as Ho
      by (intros k; unfold m1; simpl; case_decide; [by subst|done]).
    assert (forall k lk', in_section m1 k lk' -> in_section m k lk' \/ k = h /\ lk' = lk) as Hin.
    { intros k lk' Hi. unfold in_section in *. rewrite Ho in Hi. unfold m1 in Hi. simpl in Hi.
      case_decide; [subst k|by left]. simpl in Hi. destruct Hi as [?|[[= ->]|?]]; [by left; left|by right|done]. }
    assert (forall k, ~ in_section m k lk) as Hnone by (intros k ?%Hsec; congruence).
    split.
    + intros k. unfold m1. simpl. case_decide; [subst k|apply Hh]. destruct (Hh h) as [Hn Hoff Hd].
      rewrite Hat in Hn. by split.
    + intros k. unfold m1. simpl. case_decide; [by right|apply Hl].
    + intros k h'. rewrite Ho. unfold m1. simpl. case_decide; [subst k|]; apply Hcpu.
    + intros k h' Hi. unfold m1. simpl. case_decide; [done|]. destruct (Hin _ _ Hi) as [?|[_ ?]]; [by eapply Hsec|done].
    + intros k h1 h2 Hi1 Hi2. destruct (Hin _ _ Hi1) as [Hs1|[-> ->]], (Hin _ _ Hi2) as [Hs2|[-> Hk]]; try done.
      * by eapply Hex.
      * subst k. by apply Hnone in Hs1.
      * by apply Hnone in Hs2.
    + intros k h' Hp. rewrite Ho. unfold m1 in Hp. simpl in Hp. case_decide; [subst h'|by apply Hgot].
      simpl in Hp. destruct Hp as [[= <-]|[?|?]]; [|done|done]. apply Hgot. auto.
  - rewrite Hz. simpl. assert (mach_eq (set_lock lk (mkspin 1 (lcpu (locks m lk))) m) m) as ->; [|done].
    split; [done|]. intros k. simpl. case_decide; [subst k|done]. destruct (locks m lk). simpl in *. by subst.
Qed.

Lemma ok_got m h lk :
  mach_ok m -> at_ (harts m h) = AcqGot lk -> mach_ok (acquire_done h lk m).
Proof.
  intros Hm Hat. pose proof Hm as [Hh Hl Hcpu Hsec Hex Hgot].
  assert (in_section m h lk) as Hh0 by (right; by left).
  assert (lk ∉ owned (harts m h)) as Hn by (apply Hgot; by left).
  set (m1 := acquire_done h lk m).
  assert (forall k, owned (harts m1 k) = if decide (k = h) then lk :: owned (harts m h) else owned (harts m k)) as Ho
    by (intros k; unfold m1, acquire_done; simpl; by case_decide).
  assert (forall k lk', in_section m1 k lk' -> in_section m k lk') as Hin.
  { intros k lk' Hi. unfold in_section in Hi. rewrite Ho in Hi. unfold m1, acquire_done in Hi. simpl in Hi.
    case_decide; [subst k|done]. simpl in Hi. destruct Hi as [[->|?]%elem_of_cons|[?|?]]; [done|by left|done|done]. }
  split.
  - intros k. unfold m1, acquire_done. simpl. case_decide; [subst k|apply Hh]. destruct (Hh h) as [Hno Hoff Hd].
    rewrite Hat in Hno. simpl in Hno. split; simpl; [lia|done|by constructor].
  - intros k. unfold m1, acquire_done. simpl. case_decide; [subst k; apply Hl|apply Hl].
  - intros k h'. rewrite Ho. unfold m1, acquire_done. simpl. case_decide; [subst k; simpl|].
    + split; [intros [= ->]; rewrite decide_True by done; set_solver|]. case_decide; [by subst|].
      intros Hin'. assert (h' = h); [|done]. eapply Hex; [by left|done].
    + case_decide; [subst h'|apply Hcpu]. rewrite elem_of_cons, Hcpu. naive_solver.
  - intros k h' Hi%Hin. unfold m1, acquire_done. simpl. case_decide; [subst k|]; by eapply Hsec.
  - intros k h1 h2 ?%Hin ?%Hin. by eapply Hex.
  - intros k h' Hp. rewrite Ho. unfold m1, acquire_done in Hp. simpl in Hp. case_decide; [|by apply Hgot].
    simpl in Hp. naive_solver.
Qed.

Lemma ok_release_enter m h lk m' :
  mach_ok m -> at_ (harts m h) = Run -> release_enter h lk m = Some m' -> mach_ok m'.
Proof.
  intros Hm Hat He. unfold release_enter in He.
  destruct (holding_spin h (locks m lk)) eqn:Hh0; [|done]. cbn [negb] in He. injection He as <-.
  apply (holding_spin_iff m h lk Hm) in Hh0. pose proof Hm as [Hh Hl Hcpu Hsec Hex Hgot].
  set (m1 := set_hart h _ _).
  assert (forall k, owned (harts m1 k) = if decide (k = h) then remove_lock lk (owned (harts m h)) else owned (harts m k)) as Ho
    by (intros k; unfold m1; simpl; by case_decide).
  assert (forall lk', lk' ∈ remove_lock lk (owned (harts m h)) <-> lk' <> lk /\ lk' ∈ owned (harts m h)) as Hr
    by (intros; unfold remove_lock; by rewrite list_elem_of_filter).
  assert (forall k lk', in_section m1 k lk' -> in_section m k lk') as Hin.
  { intros k lk' Hi. unfold in_section in Hi. rewrite Ho in Hi. unfold m1 in Hi. simpl in Hi.
    case_decide; [subst k|done]. simpl in Hi. rewrite Hr in Hi. destruct Hi as [[_ ?]|[?|[= <-]]]; [by left|done|by left]. }
  split.
  - intros k. unfold m1. simpl. case_decide; [subst k|apply Hh]. destruct (Hh h) as [Hno Hoff Hd].
    rewrite Hat in Hno. simpl in Hno. split; simpl; [|done|by apply NoDup_filter].
    pose proof (remove_lock_length lk (owned (harts m h)) Hd Hh0). lia.
  - intros k. unfold m1. simpl. case_decide; [subst k|]; apply Hl.
  - intros k h'. rewrite Ho. unfold m1. simpl. case_decide; [subst k; simpl|].
    + split; [done|]. case_decide; [subst h'; rewrite Hr; naive_solver|]. intros Hin'.
      assert (h' = h); [|done]. eapply Hex; [by left|by left].
    + case_decide; [subst h'; rewrite Hr, Hcpu; naive_solver|apply Hcpu].
  - intros k h' Hi%Hin. unfold m1. simpl. case_decide; [subst k|]; by eapply Hsec.
  - intros k h1 h2 ?%Hin ?%Hin. by eapply Hex.
  - intros k h' Hp. rewrite Ho. unfold m1 in Hp. simpl in Hp. case_decide; [|by apply Hgot].
    simpl in Hp. destruct Hp as [?|[?|[= <-]]]; [done|done|]. rewrite Hr. naive_solver.
Qed.

Lemma ok_store m h lk :
  mach_ok m -> at_ (harts m h) = RelClear lk -> mach_ok (release_store h lk m).
Proof.
  intros Hm Hat. pose proof Hm as [Hh Hl Hcpu Hsec Hex Hgot].
  assert (in_section m h lk) as Hh0 by (right; by right).
  assert (lk ∉ owned (harts m h)) as Hn by (apply Hgot; auto).
  set (m1 := release_store h lk m).
  assert (forall k, owned (harts m1 k) = owned (harts m k)) as Ho
    by (intros k; unfold m1, release_store; simpl; case_decide; [by subst|done]).
  assert (forall k lk', in_section m1 k lk' -> in_section m k lk' /\ lk' <> lk) as Hin.
  { intros k lk' Hi. unfold in_section in Hi. rewrite Ho in Hi. unfold m1, release_store in Hi. simpl in Hi.
    case_decide; [subst k; simpl in Hi; destruct Hi as [Hi|[?|?]]; [|done|done]|].
    - split; [by left|by intros ->].
    - split; [done|]. intros ->. assert (k = h); [|done]. by eapply Hex. }
  split.
  - intros k. unfold m1, release_store. simpl. case_decide; [subst k|apply Hh]. destruct (Hh h) as [Hno Hoff Hd].
    rewrite Hat in Hno. by split.
  - intros k. unfold m1, release_store. simpl. case_decide; [by left|apply Hl].
  - intros k h'. rewrite Ho. unfold m1, release_store. simpl. case_decide; [subst k|]; apply Hcpu.
  - intros k h' [Hi ?]%Hin. unfold m1, release_store. simpl. case_decide; [done|by eapply Hsec].
  - intros k h1 h2 [? _]%Hin [? _]%Hin. by eapply Hex.
  - intros k h' Hp. rewrite Ho. unfold m1, release_store in Hp. simpl in Hp. case_decide; [|by apply Hgot].
    simpl in Hp. naive_solver.
Qed.

Lemma ok_step m m' : mach_ok m -> mach_step m m' -> mach_ok m'.
Proof.
  intros Hm [h Hs]. pose proof (mo_hart m Hm h) as Hh. pose proof (ho_noff _ Hh) as Hn.
  destruct Hs as [lk m m' Hat He|lk m Hat|lk m Hat|lk m m' Hat He|lk m Hat|lk m m' Hat He
                 |m Hat|m x k Hat Hk He|m Hat H0|m Hat H0].
  - by eapply ok_acquire_enter.
  - by apply ok_spin.
  - by apply ok_got.
  - by eapply ok_release_enter.
  - by apply ok_store.
  - unfold release_pop in He. destruct (pop_off (harts m h)) as [x|] eqn:Ep; [|done]. injection He as <-.
    rewrite Hat in Hn. simpl in Hn. assert (0 < noff (harts m h)) as Hpos by lia.
    destruct (pop_off_fields _ Hpos (ho_off _ Hh Hpos)) as (y & Hy & _ & _ & Eo & Epu & _).
    rewrite Ep in Hy. injection Hy as <-. apply ok_hart_only; [done| |exact Eo|done|done].
    rewrite (hart_eta x _ _ eq_refl Epu). eapply (hart_ok_pop (harts m h) x _ Run); [done|done|done|].
    rewrite Hat. simpl. lia.
  - destruct (push_off_fields (harts m h)) as (_ & _ & Ea & Eo & _).
    apply ok_hart_only; [done| |exact Eo| |].
    + rewrite (hart_eta (set_pushes _ _) Run _ (eq_trans Ea Hat) eq_refl).
      apply (hart_ok_push (harts m h) (S (pushes (harts m h))) Run); [done|]. rewrite Hat. simpl. lia.
    + intros lk. simpl. rewrite Ea, Hat. done.
    + intros lk. simpl. rewrite Ea, Hat. done.
  - rewrite Hk, Hat in Hn. simpl in Hn. assert (0 < noff (harts m h)) as Hpos by lia.
    destruct (pop_off_fields _ Hpos (ho_off _ Hh Hpos)) as (y & Hy & _ & Ea & Eo & _).
    rewrite He in Hy. injection Hy as <-. apply ok_hart_only; [done| |exact Eo| |].
    + rewrite (hart_eta (set_pushes _ _) Run _ (eq_trans Ea Hat) eq_refl).
      eapply (hart_ok_pop (harts m h) x k Run); [done|done|done|]. rewrite Hat, Hk. simpl. lia.
    + intros lk. simpl. rewrite Ea, Hat. done.
    + intros lk. simpl. rewrite Ea, Hat. done.
  - apply ok_hart_only; [done| |done| |]; try (intros lk; simpl; by rewrite Hat).
    destruct Hh as [? ? Hd]. split; simpl; [done|lia|done].
  - apply ok_hart_only; [done| |done| |]; try (intros lk; simpl; by rewrite Hat).
    destruct Hh as [? ? Hd]. split; simpl; [done|lia|done].
Qed.

Lemma ok_init m : mach_init m -> mach_ok m.
Proof.
  intros [Hl Hh]. assert (forall h lk, ~ in_section m h lk) as Hn.
  { intros h lk. destruct (Hh h) as (_ & Ha & Ho & _). unfold in_section. rewrite Ha, Ho.
    intros [?%not_elem_of_nil|[?|?]]; done. }
  split.
  - intros h. destruct (Hh h) as (Hn0 & Ha & Ho & Hp). split; rewrite ?Ha, ?Ho, ?Hp, ?Hn0; [done|lia|constructor].
  - intros lk. rewrite Hl. by left.
  - intros lk h. destruct (Hh h) as (_ & _ & Ho & _). rewrite Hl, Ho. split; [done|by intros ?%not_elem_of_nil].
  - intros lk h Hi. by apply Hn in Hi.
  - intros lk h h' Hi. by apply Hn in Hi.
  - intros lk h _. destruct (Hh h) as (_ & _ & -> & _). apply not_elem_of_nil.
Qed.

Lemma ok_reachable m m' : mach_init m -> rtc mach_step m m' -> mach_ok m'.
Proof. intros Hi%ok_init. induction 1; eauto using ok_step. Qed.

(** * Properties *)

(** C12 Mutual exclusion, for every interleaving of the harts' instructions: no lock is in the
    critical section of two harts (from the swap that takes it to the store that frees it);
    [holding] is exact; and a hart that holds a lock runs with interrupts disabled and a
    positive [noff]. *)
Theorem spinlock_mutual_exclusion m0 m lk h h' :
  mach_init m0 -> rtc mach_step m0 m ->
  (in_section m h lk -> in_section m h' lk -> h = h') /\
  (holding_spin h (locks m lk) = true <-> lk ∈ owned (harts m h)) /\
  (lk ∈ owned (harts m h) -> 0 < noff (harts m h) /\ intr_get (harts m h) = 0).
Proof.
  intros Hi Hr. pose proof (ok_reachable _ _ Hi Hr) as Hm. split_and!.
  - by apply (mo_excl m Hm).
  - by apply holding_spin_iff.
  - intros Hin. destruct (mo_hart m Hm h) as [Hn Ho _].
    assert (0 < Z.of_nat (length (owned (harts m h)))) by (destruct (owned (harts m h)); [by apply not_elem_of_nil in Hin|simpl; lia]).
    assert (0 < noff (harts m h)) as Hpos by (destruct (at_ (harts m h)); simpl in Hn; lia).
    split; [done|]. unfold intr_get. by rewrite Ho.
Qed.

(** C26 The lock-set view used by the other components is what these functions implement. On a
    reachable state, [acquire] panics exactly when the hart already holds the lock, and
    when its swap finds the lock free it ends with the lock added to those the hart holds;
    [release] panics exactly when the hart does not hold it, its [pop_off] never panics, and
    it ends with the lock removed. *)
Theorem spinlock_refines_lockset m0 m h lk (c : cpu) (s : unit) :
  mach_init m0 -> rtc mach_step m0 m -> at_ (harts m h) = Run -> held c = owned (harts m h) ->
  (acquire lk c s = Panic "acquire" <-> acquire_enter h lk m = None) /\
  (forall m1, acquire_enter h lk m = Some m1 -> locked (locks m1 lk) = 0 ->
     exists c', acquire lk c s = Ret c' s tt /\
       held c' = owned (harts (acquire_done h lk (acquire_spin h lk m1)) h)) /\
  (release lk c s = Panic "release" <-> release_enter h lk m = None) /\
  (forall m1, release_enter h lk m = Some m1 ->
     exists m2 c', release_pop h (release_store h lk m1) = Some m2 /\
       release lk c s = Ret c' s tt /\ held c' = owned (harts m2 h)).
Proof.
  intros Hi Hr Hat Hc. pose proof (ok_reachable _ _ Hi Hr) as Hm.
  pose proof (holding_spin_iff m h lk Hm) as Hhold.
  unfold acquire, release, acquire_enter, release_enter. rewrite Hc.
  destruct (decide (lk ∈ owned (harts m h))) as [Hin|Hin].
  - rewrite (proj2 Hhold Hin). split_and!; try done. intros m1 [= <-].
    set (m1 := set_hart h _ _).
    assert (release_enter h lk m = Some m1) as He by (unfold release_enter; by rewrite (proj2 Hhold Hin)).
    pose proof (ok_release_enter m h lk m1 Hm Hat He) as Hm1.
    assert (at_ (harts m1 h) = RelClear lk) as Ha1 by (unfold m1; simpl; by rewrite decide_True).
    pose proof (ok_store m1 h lk Hm1 Ha1) as Hm2. set (m2 := release_store h lk m1) in *.
    assert (at_ (harts m2 h) = RelPop lk) as Ha2 by (unfold m2, release_store; simpl; by rewrite decide_True).
    destruct (mo_hart m2 Hm2 h) as [Hn Ho _]. rewrite Ha2 in Hn. cbn [pending] in Hn.
    destruct (pop_off_fields (harts m2 h)) as (x & Hx & _ & _ & Eo & _); [lia|apply Ho; lia|].
    eexists _, _. unfold release_pop. rewrite Hx. split_and!; [done|done|].
    simpl. rewrite decide_True by done. simpl. rewrite Eo. unfold m2, release_store, m1. simpl.
    rewrite !decide_True by done. done.
  - assert (holding_spin h (locks m lk) = false) as Hf by (apply not_true_iff_false; by rewrite Hhold).
    rewrite Hf. split_and!; try done. intros m1 [= <-] Hl. eexists. split; [done|].
    simpl in Hl. destruct (push_off_fields (harts m h)) as (_ & _ & _ & Eo & _).
    unfold acquire_spin. simpl. rewrite Hl. simpl. rewrite !decide_True by done. simpl. by rewrite Eo.
Qed.

(** [push_off] and [pop_off] nest: around any balanced use in between, a matching pair
    restores the interrupt-enable state, and [pop_off] enables interrupts only when the
    outermost [push_off] found them enabled. *)
Lemma push_pop_off_nest x y :
  push_off x = y -> 0 <= noff x -> (0 < noff x -> intr_get x = 0) ->
  exists z, pop_off y = Some z /\ noff z = noff x /\ intr_get z = intr_get x /\
    forall w, noff w = noff y -> intena w = intena y -> intr_get w = 0 ->
      exists z', pop_off w = Some z' /\ noff z' = noff x /\ intr_get z' = intr_get x.
Proof.
  intros <- Hn Hoff. destruct (push_off_fields x) as (En & Es & _ & _ & _ & Ei).
  assert (forall w, noff w = noff (push_off x) -> intena w = intena (push_off x) -> intr_get w = 0 ->
      exists z', pop_off w = Some z' /\ noff z' = noff x /\ intr_get z' = intr_get x) as Hw.
  { intros w Hwn Hwi Hw0. assert (tst (sstatus w) SSTATUS_SIE = false) as Hws
      by (unfold intr_get in Hw0; by destruct (tst (sstatus w) SSTATUS_SIE)).
    destruct (pop_off_fields w) as (z & Hz & Hzn & _ & _ & _ & _ & Hzs); [lia|done|].
    exists z. split_and!; [done|lia|]. unfold intr_get at 1. rewrite Hzs, Hwn, Hwi, En, Ei.
    destruct (Z.eqb_spec (noff x) 0) as [H0|H0].
    - rewrite H0. simpl. unfold intr_get. by destruct (tst (sstatus x) SSTATUS_SIE).
    - rewrite (proj2 (Z.eqb_neq _ _)) by lia. simpl. symmetry. apply Hoff. lia. }
  destruct (Hw (push_off x)) as (z & Hz & Hzn & Hzi); [done|done|unfold intr_get; by rewrite Es|].
  exists z. split_and!; done.
Qed.

(** * Witnesses *)

Definition demo_mach : machine :=
  mkmach (fun _ => mkhart 2 0 0 Run [] 0) (fun _ => initlock_spin).

Lemma demo_mach_init : mach_init demo_mach.
Proof. split; [done|]. intros h. by split_and!. Qed.

(** Hart 0 takes the allocator's lock. *)
Definition demo_held : machine :=
  acquire_done 0 LKmem (acquire_spin 0 LKmem (default demo_mach (acquire_enter 0 LKmem demo_mach))).

Lemma demo_held_reachable : rtc mach_step demo_mach demo_held.
Proof.
  eapply rtc_l; [exists 0%nat; eapply (hs_acquire 0 LKmem); reflexivity|].
  eapply rtc_l; [exists 0%nat; eapply (hs_spin 0 LKmem); reflexivity|].
  eapply rtc_l; [exists 0%nat; eapply (hs_got 0 LKmem); reflexivity|]. apply rtc_refl.
Qed.

Lemma spinlock_mutual_exclusion_witness :
  holding_spin 0 (locks demo_held LKmem) = true /\ intr_get (harts demo_held 0) = 0 /\
  (in_section demo_held 1 LKmem -> 1%nat = 0%nat).
Proof.
  destruct (spinlock_mutual_exclusion demo_mach demo_held LKmem 0 0 demo_mach_init demo_held_reachable)
    as (_ & _ & Hoff).
  destruct (spinlock_mutual_exclusion demo_mach demo_held LKmem 1 0 demo_mach_init demo_held_reachable)
    as (Hex & _ & _).
  split_and!; [reflexivity|apply Hoff; left; reflexivity|].
  intros Hi. apply Hex; [done|]. left. left.
Defined.

Lemma spinlock_refines_lockset_witness :
  acquire LKmem (mkcpu [LKmem] 1 0 [] 0 []) tt = Panic "acquire" <-> acquire_enter 0 LKmem demo_held = None.
Proof.
  apply (spinlock_refines_lockset demo_mach demo_held 0 LKmem (mkcpu [LKmem] 1 0 [] 0 []) tt
    demo_mach_init demo_held_reachable); reflexivity.
Defined.

Lemma push_pop_off_nest_witness :
  exists z, pop_off (push_off (mkhart 2 0 0 Run [] 0)) = Some z /\ intr_get z = 1.
Proof.
  destruct (push_pop_off_nest (mkhart 2 0 0 Run [] 0) _ eq_refl) as (z & Hz & _ & Hi & _); [simpl; lia|simpl; lia|].
  exists z. split; [exact Hz|exact Hi].
Defined.
