(* ===== verification/Sleeplock.v ===== *)
(** Sleeping locks, kernel/sleeplock.c.

    The functions act on one [struct sleeplock]; the spin lock [lk] that protects it and the
    channel [ch] (its address) are parameters, so that the buffer cache and the inode table
    use them through a lens on each of their locks. *)
From S2P Require Import Prelude.

(** [locked] and [pid]; the name is for debugging only. *)
Record sleeplock := mksleep { sl_locked : Z; sl_pid : Z }.

Section sleeplock.
Context (lk : lockid) (ch : chan).

Definition initsleeplock : M sleeplock unit :=
  initlock lk ;;
  modify (fun _ => mksleep 0 0).

Definition acquiresleep : M sleeplock unit :=
  acquire lk ;;
  sleep_loop (fun _ : unit =>
    l <- gets sl_locked ;;
    if negb (l =? 0) then sleep ch lk ;; ret (inl tt) else ret (inr tt)) tt ;;
  pid <- getcpu curpid ;;
  modify (fun _ => mksleep 1 pid) ;;
  release lk.

Definition releasesleep : M sleeplock unit :=
  acquire lk ;;
  modify (fun _ => mksleep 0 0) ;;
  wakeup ch ;;
  release lk.

Definition holdingsleep : M sleeplock bool :=
  acquire lk ;;
  l <- gets (fun s => s) ;;
  pid <- getcpu curpid ;;
  let r := negb (sl_locked l =? 0) && (sl_pid l =? pid) in
  release lk ;;
  ret r.

(** A free lock is taken at once. *)
Lemma wp_acquiresleep c s (Q : cpu -> sleeplock -> unit -> Prop) :
  lk ∉ held c -> sl_locked s = 0 -> Q c (mksleep 1 (curpid c)) tt -> wp acquiresleep c s Q.
Proof.
  intros Hc Hs HQ. unfold acquiresleep, sleep_loop. wp_steps. simpl loop. wp_steps. rewrite Hs. simpl.
  wp_steps. rewrite set_held_back by done. done.
Qed.

(** A lock in use makes the caller sleep on the lock's address, having changed nothing. *)
Lemma acquiresleep_blocks c s :
  held c = [] -> sl_locked s <> 0 -> exists c' k, acquiresleep c s = Sleep ch c' s k /\ held c' = [lk].
Proof.
  intros Hc Hs. unfold acquiresleep, bind at 1, acquire. rewrite Hc.
  rewrite decide_False by apply not_elem_of_nil.
  unfold sleep_loop, getcpu, gets. unfold bind at 1 2 3. simpl loop. unfold bind. simpl.
  rewrite (proj2 (Z.eqb_neq _ _)) by done. simpl.
  unfold sleep. simpl. rewrite !decide_True by (done || set_solver).
  destruct (wakeups c); simpl; eauto.
Qed.

Lemma wp_releasesleep c s (Q : cpu -> sleeplock -> unit -> Prop) :
  lk ∉ held c -> Q (set_woken (ch :: woken c) c) (mksleep 0 0) tt -> wp releasesleep c s Q.
Proof.
  intros Hc HQ. unfold releasesleep. wp_steps. simpl. rewrite remove_lock_head by done. done.
Qed.

Lemma wp_holdingsleep c s (Q : cpu -> sleeplock -> bool -> Prop) :
  lk ∉ held c -> Q c s (negb (sl_locked s =? 0) && (sl_pid s =? curpid c)) -> wp holdingsleep c s Q.
Proof. intros Hc HQ. unfold holdingsleep. wp_steps. simpl. rewrite set_held_back by done. done. Qed.
End sleeplock.
