(* ===== verification/Bio.v ===== *)
(** The buffer cache, kernel/bio.c.

    The cache is the array of [NBUF] buffers linked in a ring through [prev] and [next],
    with the list head as one more element ([bhead]). The state also holds the disk, as a
    map from block numbers to contents, and the history of block writes, which the crash
    arguments of the log are about.

    The disk driver is seen through its contract: when [virtio_disk_rw] returns, the block
    has been transferred between the buffer and the disk. *)
From S2P Require Import Prelude Sleeplock.

Definition BSIZE : Z := 1024.
Definition MAXOPBLOCKS : Z := 10.
Definition NBUF : nat := 30.
Definition ROOTDEV : Z := 1.
(** The index of [bcache.head]. *)
Definition bhead : nat := NBUF.

(** The contents of a disk block. *)
Abbreviation block := (list Z) (only parsing).

Record buf := mkbuf {
  b_valid : Z; b_disk : Z; b_dev : Z; b_blockno : Z; b_lock : sleeplock; b_refcnt : Z;
  b_prev : nat; b_next : nat; b_data : block }.

Record bio := mkbio { bufs : nat -> buf; dsk : Z -> block; dwrites : list (Z * block) }.

(** Field updates. *)
Definition set_valid (v : Z) (b : buf) : buf :=
  mkbuf v (b_disk b) (b_dev b) (b_blockno b) (b_lock b) (b_refcnt b) (b_prev b) (b_next b) (b_data b).
Definition set_disk (v : Z) (b : buf) : buf :=
  mkbuf (b_valid b) v (b_dev b) (b_blockno b) (b_lock b) (b_refcnt b) (b_prev b) (b_next b) (b_data b).
Definition set_lock (l : sleeplock) (b : buf) : buf :=
  mkbuf (b_valid b) (b_disk b) (b_dev b) (b_blockno b) l (b_refcnt b) (b_prev b) (b_next b) (b_data b).
Definition set_refcnt (n : Z) (b : buf) : buf :=
  mkbuf (b_valid b) (b_disk b) (b_dev b) (b_blockno b) (b_lock b) n (b_prev b) (b_next b) (b_data b).
Definition set_prev (i : nat) (b : buf) : buf :=
  mkbuf (b_valid b) (b_disk b) (b_dev b) (b_blockno b) (b_lock b) (b_refcnt b) i (b_next b) (b_data b).
Definition set_next (i : nat) (b : buf) : buf :=
  mkbuf (b_valid b) (b_disk b) (b_dev b) (b_blockno b) (b_lock b) (b_refcnt b) (b_prev b) i (b_data b).
Definition set_data (d : block) (b : buf) : buf :=
  mkbuf (b_valid b) (b_disk b) (b_dev b) (b_blockno b) (b_lock b) (b_refcnt b) (b_prev b) (b_next b) d.
(** The four stores of [bget] that recycle a buffer. *)
Definition recycle (dev blockno : Z) (b : buf) : buf :=
  mkbuf 0 (b_disk b) dev blockno (b_lock b) 1 (b_prev b) (b_next b) (b_data b).

Definition upd_bufs (i : nat) (f : buf -> buf) (g : nat -> buf) : nat -> buf :=
  fun j => if decide (j = i) then f (g i) else g j.
Definition upd_buf (i : nat) (f : buf -> buf) : M bio unit :=
  modify (fun s => mkbio (upd_bufs i f (bufs s)) (dsk s) (dwrites s)).
Definition get_buf (i : nat) : M bio buf := gets (fun s => bufs s i).

(** The sleep lock inside a buffer. *)
Definition lock_lens (i : nat) : lens bio sleeplock :=
  mklens (fun s => b_lock (bufs s i))
         (fun l s => mkbio (upd_bufs i (set_lock l) (bufs s)) (dsk s) (dwrites s)).

(** * The disk *)

Definition dset (d : Z -> block) (b : Z) (v : block) : Z -> block :=
  fun x => if x =? b then v else d x.

(** The driver's contract, for the buffer [i]; [b->disk] is 0 again when it returns. *)
Definition virtio_disk_rw (i : nat) (write : bool) : M bio unit :=
  modify (fun s =>
    let b := bufs s i in
    if write
    then mkbio (upd_bufs i (set_disk 0) (bufs s)) (dset (dsk s) (b_blockno b) (b_data b))
           ((b_blockno b, b_data b) :: dwrites s)
    else mkbio (upd_bufs i (fun b => set_disk 0 (set_data (dsk s (b_blockno b)) b)) (bufs s))
           (dsk s) (dwrites s)).

(** * bio.c *)

Definition binit : M bio unit :=
  initlock LBcache ;;
  upd_buf bhead (set_prev bhead) ;;
  upd_buf bhead (set_next bhead) ;;
  loop (S NBUF) (fun b =>
    if Nat.ltb b NBUF then
      h <- get_buf bhead ;;
      upd_buf b (set_next (b_next h)) ;;
      upd_buf b (set_prev bhead) ;;
      zoom (lock_lens b) (initsleeplock (LSleepBuf b)) ;;
      upd_buf (b_next h) (set_prev b) ;;
      upd_buf bhead (set_next b) ;;
      ret (inl (S b))
    else ret (inr tt)) 0%nat.

(** The two loops leave by [return] ([Some b]) or by reaching the head ([None]). *)
Definition bget (dev blockno : Z) : M bio nat :=
  acquire LBcache ;;
  h <- get_buf bhead ;;
  r <- loop (S NBUF) (fun b =>
    if Nat.eqb b bhead then ret (inr None) else
    x <- get_buf b ;;
    if (b_dev x =? dev) && (b_blockno x =? blockno) then
      upd_buf b (set_refcnt (u32 (b_refcnt x + 1))) ;;
      release LBcache ;;
      zoom (lock_lens b) (acquiresleep (LSleepBuf b) (ChSleepBuf b)) ;;
      ret (inr (Some b))
    else ret (inl (b_next x))) (b_next h) ;;
  match r with
  | Some b => ret b
  | None =>
      r <- loop (S NBUF) (fun b =>
        if Nat.eqb b bhead then ret (inr None) else
        x <- get_buf b ;;
        if b_refcnt x =? 0 then
          upd_buf b (recycle dev blockno) ;;
          release LBcache ;;
          zoom (lock_lens b) (acquiresleep (LSleepBuf b) (ChSleepBuf b)) ;;
          ret (inr (Some b))
        else ret (inl (b_prev x))) (b_prev h) ;;
      match r with
      | Some b => ret b
      | None => panic "bget: no buffers"
      end
  end.

Definition bread (dev blockno : Z) : M bio nat :=
  b <- bget dev blockno ;;
  x <- get_buf b ;;
  (if b_valid x =? 0 then
     virtio_disk_rw b false ;;
     upd_buf b (set_valid 1)
   else ret tt) ;;
  ret b.

Definition bwrite (b : nat) : M bio unit :=
  r <- zoom (lock_lens b) (holdingsleep (LSleepBuf b)) ;;
  if negb r then panic "bwrite" else
  virtio_disk_rw b true.

Definition brelse (b : nat) : M bio unit :=
  r <- zoom (lock_lens b) (holdingsleep (LSleepBuf b)) ;;
  if negb r then panic "brelse" else
  zoom (lock_lens b) (releasesleep (LSleepBuf b) (ChSleepBuf b)) ;;
  acquire LBcache ;;
  x <- get_buf b ;;
  upd_buf b (set_refcnt (u32 (b_refcnt x - 1))) ;;
  x <- get_buf b ;;
  (if b_refcnt x =? 0 then
     upd_buf (b_next x) (set_prev (b_prev x)) ;;
     x <- get_buf b ;;
     upd_buf (b_prev x) (set_next (b_next x)) ;;
     h <- get_buf bhead ;;
     upd_buf b (set_next (b_next h)) ;;
     upd_buf b (set_prev bhead) ;;
     h <- get_buf bhead ;;
     upd_buf (b_next h) (set_prev b) ;;
     upd_buf bhead (set_next b)
   else ret tt) ;;
  release LBcache.

Definition bpin (b : nat) : M bio unit :=
  acquire LBcache ;;
  x <- get_buf b ;;
  upd_buf b (set_refcnt (u32 (b_refcnt x + 1))) ;;
  release LBcache.

Definition bunpin (b : nat) : M bio unit :=
  acquire LBcache ;;
  x <- get_buf b ;;
  upd_buf b (set_refcnt (u32 (b_refcnt x - 1))) ;;
  release LBcache.

(** A caller's store to [b->data]. *)
Definition write_data (b : nat) (d : block) : M bio unit := upd_buf b (set_data d).

(** The model runs: three blocks read and one written back. *)
Definition zero_buf : buf := mkbuf 0 0 0 0 (mksleep 0 0) 0 0 0 [].
Definition bio0 (d : Z -> block) : bio := mkbio (fun _ => zero_buf) d [].
Example bread_bwrite_runs :
  let d := fun b => [b; b + 1] in
  result_of ((binit ;; a <- bread 1 7 ;; b <- bread 1 9 ;;
              write_data a [5; 6] ;; bwrite a ;; brelse a ;; brelse b ;;
              a' <- bread 1 7 ;; x <- get_buf a' ;;
              w <- gets dwrites ;; ret (a, b, a', b_data x, w)) (mkcpu [] 3 0 [] 0 []) (bio0 d))
  = Some (0%nat, 1%nat, 0%nat, [5; 6], [(7, [5; 6])]).
Proof. vm_compute. reflexivity. Qed.
