(* ===== verification/BioInv.v ===== *)
(** The invariant of the buffer cache: the ring of buffers, one buffer per block, and what a
    client can observe of each block. *)
From S2P Require Import Prelude Sleeplock Bio.

(** * The ring *)

(** Following [nx] from [a] runs through [l] and arrives at [z]. *)
Fixpoint lseg (nx : nat -> nat) (a : nat) (l : list nat) (z : nat) : Prop :=
  match l with
  | [] => a = z
  | x :: l' => a = x /\ lseg nx (nx x) l' z
  end.

Lemma lseg_ext nx nx' a l z : (forall x, x ∈ l -> nx' x = nx x) -> lseg nx a l z -> lseg nx' a l z.
Proof.
  revert a. induction l as [|x l IH]; intros a He; simpl; [done|]. intros [-> Hs]. split; [done|].
  rewrite He by set_solver. apply IH; [set_solver|done].
Qed.

Lemma lseg_app nx a l1 l2 z : lseg nx a (l1 ++ l2) z <-> exists m, lseg nx a l1 m /\ lseg nx m l2 z.
Proof.
  revert a. induction l1 as [|x l1 IH]; intros a; simpl.
  - split; [eauto|]. by intros (m & -> & ?).
  - rewrite IH. naive_solver.
Qed.

Lemma lseg_cons nx a x l z : lseg nx a (x :: l) z <-> a = x /\ lseg nx (nx x) l z.
Proof. done. Qed.

Lemma lseg_snoc nx a l x z : lseg nx a (l ++ [x]) z <-> lseg nx a l x /\ nx x = z.
Proof.
  rewrite lseg_app. simpl. split.
  - intros (m & ? & -> & ?). done.
  - intros [? <-]. eauto.
Qed.

(** The next and previous pointers of the cache. *)
Definition nxt (g : nat -> buf) (i : nat) : nat := b_next (g i).
Definition prv (g : nat -> buf) (i : nat) : nat := b_prev (g i).

(** [order] is the cache from most to least recently used. *)
Record ring (g : nat -> buf) (order : list nat) : Prop := {
  ring_next : lseg (nxt g) (nxt g bhead) order bhead;
  ring_prev : lseg (prv g) (prv g bhead) (reverse order) bhead;
  ring_perm : order ≡ₚ seq 0 NBUF;
}.

Lemma ring_elem g order i : ring g order -> i ∈ order <-> (i < NBUF)%nat.
Proof. intros Hr. rewrite (ring_perm _ _ Hr), elem_of_seq. lia. Qed.

Lemma ring_dup g order : ring g order -> NoDup order.
Proof. intros Hr. rewrite (ring_perm _ _ Hr). apply NoDup_seq. Qed.

(** Changes that keep the links. *)
Lemma ring_ext g g' order :
  (forall i, nxt g' i = nxt g i) -> (forall i, prv g' i = prv g i) -> ring g order -> ring g' order.
Proof.
  intros Hn Hp [H1 H2 H3]. split; [| |done].
  - rewrite Hn. eapply lseg_ext; [|done]. auto.
  - rewrite Hp. eapply lseg_ext; [|done]. auto.
Qed.

(** ** Moving a buffer to the front *)

(** The stores of [brelse], on the pointer functions alone. *)
Definition fupd (f : nat -> nat) (i v : nat) : nat -> nat := fun j => if decide (j = i) then v else f j.

Lemma fupd_eq f i v : fupd f i v i = v.
Proof. unfold fupd. by rewrite decide_True. Qed.
Lemma fupd_ne f i v j : j <> i -> fupd f i v j = f j.
Proof. intros. unfold fupd. by rewrite decide_False. Qed.

(** Unlinking [i] and inserting it after [h] in a ring with pointer function [f]. *)
Lemma move_front_next f h i l1 l2 p :
  lseg f (f h) (l1 ++ i :: l2) h -> NoDup (h :: l1 ++ i :: l2) ->
  p = default h (last l1) ->
  let f1 := fupd f p (f i) in
  let f2 := fupd f1 i (f1 h) in
  let f3 := fupd f2 h i in
  lseg f3 (f3 h) (i :: l1 ++ l2) h.
Proof.
  intros Hs Hd Hp f1 f2 f3. apply NoDup_cons in Hd as [Hh Hd].
  apply NoDup_app in Hd as (Hd1 & Hd12 & [Hi Hd2]%NoDup_cons).
  assert (i <> h) as Hih by (intros ->; apply Hh; set_solver).
  apply lseg_app in Hs as (m & Hs1 & Hm & Hs2). subst m.
  assert (f3 h = i) as Eh by apply fupd_eq.
  assert (f3 i = f1 h) as Ei by (unfold f3; rewrite fupd_ne by done; apply fupd_eq).
  assert (forall y, y <> h -> y <> i -> y <> p -> f3 y = f y) as Ey
    by (intros; unfold f3, f2, f1; by rewrite !fupd_ne).
  rewrite Eh. apply lseg_cons. split; [done|]. rewrite Ei.
  destruct l1 as [|x l1 _] using rev_ind; simpl in Hp.
  - subst p. unfold f1. rewrite fupd_eq. simpl. eapply lseg_ext; [|exact Hs2].
    intros y Hy. apply Ey; intros ->; set_solver.
  - rewrite last_snoc in Hp. simpl in Hp. subst p.
    assert (x <> h /\ x <> i) as [Hxh Hxi] by (split; intros ->; [apply Hh|apply (Hd12 i)]; set_solver).
    apply lseg_snoc in Hs1 as [Hs1 Hx]. apply NoDup_app in Hd1 as (_ & Hdx & _).
    assert (f1 h = f h) as -> by (unfold f1; by rewrite fupd_ne).
    apply lseg_app. exists (f i). split; [apply lseg_snoc; split|].
    + eapply lseg_ext; [|exact Hs1]. intros y Hy. apply Ey; intros He.
      * subst y. apply Hh. set_solver.
      * apply (Hd12 y); set_solver.
      * subst y. apply (Hdx x Hy). set_solver.
    + unfold f3, f2. rewrite !fupd_ne by done. apply fupd_eq.
    + eapply lseg_ext; [|exact Hs2]. intros y Hy. apply Ey; intros He.
      * subst y. apply Hh. set_solver.
      * by subst y.
      * subst y. apply (Hd12 x); set_solver.
Qed.

(** The previous pointers change symmetrically. *)
Lemma move_front_prev f h i l1 l2 n fst :
  lseg f (f h) (reverse l2 ++ i :: reverse l1) h -> NoDup (h :: l1 ++ i :: l2) ->
  n = default h (head l2) -> fst = default h (head (l1 ++ l2)) ->
  let f1 := fupd f n (f i) in
  let f2 := fupd f1 i h in
  let f3 := fupd f2 fst i in
  lseg f3 (f3 h) (reverse l2 ++ reverse l1 ++ [i]) h.
Proof.
  intros Hs Hd Hn Hf f1 f2 f3. apply NoDup_cons in Hd as [Hh Hd].
  apply NoDup_app in Hd as (Hd1 & Hd12 & [Hi Hd2]%NoDup_cons).
  assert (i <> h) as Hih by (intros ->; apply Hh; set_solver).
  apply lseg_app in Hs as (m & Hs2 & Hm & Hs1). subst m.
  assert (forall y, y <> n -> y <> i -> y <> fst -> f3 y = f y) as Ey
    by (intros; unfold f3, f2, f1; by rewrite !fupd_ne).
  assert (f3 fst = i) as Ef by apply fupd_eq.
  assert (i <> fst) as Hif.
  { intros ->. destruct l1 as [|x l1]; simpl in Hf; [destruct l2 as [|y l2]; simpl in Hf|]; subst; [done|set_solver|].
    apply (Hd12 x); set_solver. }
  assert (f3 i = h) as Ei by (unfold f3; rewrite fupd_ne by done; apply fupd_eq).
  assert (n <> i) as Hni by (destruct l2; simpl in Hn; subst n; [done|set_solver]).
  destruct l1 as [|x l1]; simpl in *.
  - (* [i] was already first: [fst] is [n] *)
    assert (fst = n) as -> by (by rewrite Hf, Hn). subst n.
    destruct l2 as [|y l2]; simpl in *.
    + rewrite Ef. done.
    + rewrite reverse_cons in *. apply lseg_snoc in Hs2 as [Hs2 Hy]. apply NoDup_cons in Hd2 as [Hyl Hd2].
      assert (y <> h) by (intros ->; set_solver).
      rewrite Ey by (done || set_solver). apply lseg_snoc. split; [apply lseg_snoc; split; [|done]|done].
      eapply lseg_ext; [|exact Hs2]. intros z Hz. apply Ey; set_solver.
  - subst fst. assert (x <> h /\ x <> i) as [Hxh Hxi] by (split; [intros ->; set_solver|intros ->; apply (Hd12 i); set_solver]).
    rewrite reverse_cons in Hs1 |- *. apply lseg_snoc in Hs1 as [Hs1 Hx]. apply NoDup_cons in Hd1 as [Hxl Hd1].
    assert (x <> n) as Hxn.
    { destruct l2 as [|y l2]; simpl in Hn; subst n; [done|]. intros ->. apply (Hd12 y); set_solver. }
    assert (lseg f3 (f3 n) (reverse l1) x) as Hl1.
    { assert (f3 n = f i) as -> by (unfold f3, f2; rewrite !fupd_ne by done; apply fupd_eq).
      eapply lseg_ext; [|exact Hs1]. intros z Hz. rewrite elem_of_reverse in Hz. apply Ey.
      - destruct l2 as [|y l2]; simpl in Hn; subst n; [intros ->; set_solver|intros ->; apply (Hd12 y); set_solver].
      - intros ->. apply (Hd12 i); set_solver.
      - intros ->. done. }
    assert (lseg f3 (f3 n) (reverse l1 ++ [x] ++ [i]) h) as Hrest.
    { apply lseg_app. exists x. split; [done|]. simpl. done. }
    rewrite <- app_assoc. destruct l2 as [|y l2]; simpl in *; subst n; [done|].
    rewrite reverse_cons in *. apply lseg_snoc in Hs2 as [Hs2 Hy]. apply NoDup_cons in Hd2 as [Hyl Hd2].
    rewrite <- app_assoc. apply lseg_app. exists y. split; [|simpl; by split].
    assert (y <> h) by (intros ->; set_solver). rewrite Ey by (done || set_solver).
    eapply lseg_ext; [|exact Hs2]. intros z Hz. rewrite elem_of_reverse in Hz. apply Ey; [intros ->; done|intros ->; set_solver|].
    intros ->. apply (Hd12 x); set_solver.
Qed.

(** The stores with which [brelse] moves [i] to the front. *)
Definition move_front (i : nat) (g : nat -> buf) : nat -> buf :=
  let g1 := upd_bufs (b_next (g i)) (set_prev (b_prev (g i))) g in
  let g2 := upd_bufs (b_prev (g1 i)) (set_next (b_next (g1 i))) g1 in
  let g3 := upd_bufs i (set_next (b_next (g2 bhead))) g2 in
  let g4 := upd_bufs i (set_prev bhead) g3 in
  let g5 := upd_bufs (b_next (g4 bhead)) (set_prev i) g4 in
  upd_bufs bhead (set_next i) g5.

Lemma nxt_set_prev g i v j : nxt (upd_bufs i (set_prev v) g) j = nxt g j.
Proof. unfold nxt, upd_bufs. case_decide; [by subst|done]. Qed.
Lemma prv_set_next g i v j : prv (upd_bufs i (set_next v) g) j = prv g j.
Proof. unfold prv, upd_bufs. case_decide; [by subst|done]. Qed.
Lemma nxt_set_next g i v j : nxt (upd_bufs i (set_next v) g) j = fupd (nxt g) i v j.
Proof. unfold nxt, upd_bufs, fupd. by case_decide. Qed.
Lemma prv_set_prev g i v j : prv (upd_bufs i (set_prev v) g) j = fupd (prv g) i v j.
Proof. unfold prv, upd_bufs, fupd. by case_decide. Qed.

Lemma fupd_ext f f' i v j : (forall k, f k = f' k) -> fupd f i v j = fupd f' i v j.
Proof. intros He. unfold fupd. by case_decide. Qed.

Lemma lseg_head nx a l z : lseg nx a l z -> a = default z (head l).
Proof. destruct l; simpl; [done|]. by intros [-> _]. Qed.

Lemma ring_move g order i l1 l2 :
  ring g order -> order = l1 ++ i :: l2 -> ring (move_front i g) (i :: l1 ++ l2).
Proof.
  intros Hr Ho. pose proof (ring_dup _ _ Hr) as Hd.
  assert (forall x, x ∈ order -> x <> bhead) as Hlt.
  { intros x Hx. apply (ring_elem _ _ _ Hr) in Hx. unfold bhead. lia. }
  assert (NoDup (bhead :: l1 ++ i :: l2)) as Hd'.
  { apply NoDup_cons. split; [|by rewrite <- Ho]. rewrite <- Ho. intros Hin. by apply (Hlt bhead). }
  destruct (Hr) as [Hn Hp Hperm]. rewrite Ho in Hn, Hp. rewrite reverse_app, reverse_cons, <- app_assoc in Hp. simpl in Hp.
  assert (i <> bhead) as Hih by (apply Hlt; set_solver).
  assert (prv g i = default bhead (last l1)) as Epi.
  { apply lseg_app in Hp as (m & _ & [_ Hs]). apply lseg_head in Hs. by rewrite Hs, head_reverse. }
  assert (nxt g i = default bhead (head l2)) as Eni.
  { apply lseg_app in Hn as (m & _ & [_ Hs]). by apply lseg_head in Hs. }
  assert (nxt g i <> i) as Hni.
  { rewrite Eni. destruct l2 as [|y l2]; simpl; [done|]. intros ->.
    apply NoDup_cons in Hd' as [_ Hd']. apply NoDup_app in Hd' as (_ & _ & [Hx _]%NoDup_cons). set_solver. }
  set (p := prv g i). set (n := nxt g i).
  set (f1 := fupd (nxt g) p n).
  assert (forall k, nxt (upd_bufs n (set_prev p) g) k = nxt g k) as E1n by (intros; apply nxt_set_prev).
  set (g1 := upd_bufs n (set_prev p) g).
  assert (g1 i = g i) as Eg1 by (unfold g1, upd_bufs; rewrite decide_False; [done|auto]).
  set (g2 := upd_bufs p (set_next n) g1).
  assert (forall k, nxt g2 k = f1 k) as E2n.
  { intros k. unfold g2. rewrite nxt_set_next. by apply fupd_ext. }
  assert (forall k, nxt (move_front i g) k = fupd (fupd f1 i (f1 bhead)) bhead i k) as En.
  { intros k. unfold move_front. fold (prv g i) (nxt g i). fold p n. fold g1. rewrite Eg1. fold (prv g i) (nxt g i).
    fold p n. fold g2. rewrite nxt_set_next. apply fupd_ext. intros k'. rewrite !nxt_set_prev, nxt_set_next.
    fold (nxt g2 bhead). rewrite E2n. by apply fupd_ext. }
  assert (f1 bhead = default bhead (head (l1 ++ l2))) as Efst.
  { unfold f1. destruct l1 as [|x l1] using rev_ind.
    - simpl in Epi. fold p in Epi. rewrite Epi, fupd_eq. done.
    - rewrite last_snoc in Epi. simpl in Epi. fold p in Epi. rewrite fupd_ne.
      + apply lseg_head in Hn. rewrite Hn. by destruct l1.
      + rewrite Epi. intros He. apply (Hlt x); [rewrite Ho; set_solver|done]. }
  assert (forall k, prv (move_front i g) k =
            fupd (fupd (fupd (prv g) n p) i bhead) (default bhead (head (l1 ++ l2))) i k) as Ep.
  { intros k. unfold move_front. fold (prv g i) (nxt g i). fold p n. fold g1. rewrite Eg1. fold (prv g i) (nxt g i).
    fold p n. fold g2. rewrite prv_set_next, prv_set_prev.
    set (g4 := upd_bufs i (set_prev bhead) (upd_bufs i (set_next (b_next (g2 bhead))) g2)).
    assert (b_next (g4 bhead) = default bhead (head (l1 ++ l2))) as ->.
    { change (nxt g4 bhead = default bhead (head (l1 ++ l2))). unfold g4.
      rewrite nxt_set_prev, nxt_set_next, fupd_ne by done. by rewrite E2n. }
    apply fupd_ext. intros k'. unfold g4. rewrite prv_set_prev. apply fupd_ext. intros k''.
    rewrite prv_set_next. unfold g2. rewrite prv_set_next. apply prv_set_prev. }
  split.
  - rewrite En. eapply lseg_ext; [intros; apply En|].
    eapply (move_front_next (nxt g) bhead i l1 l2 p); [done|done|exact Epi].
  - rewrite Ep. eapply lseg_ext; [intros; apply Ep|]. rewrite reverse_cons, reverse_app, <- app_assoc.
    eapply (move_front_prev (prv g) bhead i l1 l2 n); [done|done|exact Eni|done].
  - rewrite <- Hperm, Ho. by rewrite Permutation_middle.
Qed.

(** * What a client observes *)

(** Everything of a buffer but its links. *)
Definition core (b : buf) : Z * Z * Z * sleeplock * Z * block :=
  (b_valid b, b_dev b, b_blockno b, b_lock b, b_refcnt b, b_data b).

Lemma core_set_prev g k v j : core (upd_bufs k (set_prev v) g j) = core (g j).
Proof. unfold upd_bufs. case_decide; [by subst|done]. Qed.
Lemma core_set_next g k v j : core (upd_bufs k (set_next v) g j) = core (g j).
Proof. unfold upd_bufs. case_decide; [by subst|done]. Qed.

Lemma core_move_front i g j : core (move_front i g j) = core (g j).
Proof. unfold move_front. cbv zeta. by rewrite !core_set_next, !core_set_prev, ?core_set_next, ?core_set_prev. Qed.

Section inv.
(** The one device whose blocks are cached; device 0 marks a buffer never used. *)
Context (dv : Z).

Definition has_key (g : nat -> buf) (b : Z) (i : nat) : bool :=
  (b_dev (g i) =? dv) && (b_blockno (g i) =? b).

(** The buffer that caches block [b]. *)
Definition bfind (s : bio) (b : Z) : option nat := List.find (has_key (bufs s) b) (seq 0 NBUF).

(** A block: its current contents, its contents on disk, how many references its buffer has
    and the state of its sleep lock. *)
Record bobs := mkobs { o_cont : block; o_disk : block; o_refs : Z; o_lock : sleeplock }.

Definition obs (s : bio) (b : Z) : bobs :=
  match bfind s b with
  | Some i => let x := bufs s i in
      mkobs (if b_valid x =? 0 then dsk s b else b_data x) (dsk s b) (b_refcnt x) (b_lock x)
  | None => mkobs (dsk s b) (dsk s b) 0 (mksleep 0 0)
  end.

Definition content (s : bio) (b : Z) : block := o_cont (obs s b).
Definition refs (s : bio) (b : Z) : Z := o_refs (obs s b).

(** An unreferenced buffer is unlocked and, if it holds a block, agrees with the disk: it
    can be recycled without losing anything. *)
Record buf_ok (s : bio) (b : buf) : Prop := {
  bo_refs : 0 <= b_refcnt b < 2147483648;
  bo_dev : b_dev b = dv \/ b_refcnt b = 0;
  bo_free : b_refcnt b = 0 -> b_lock b = mksleep 0 0 /\
    (b_dev b = dv -> b_valid b <> 0 -> b_data b = dsk s (b_blockno b));
}.

Record bio_ok (s : bio) (order : list nat) : Prop := {
  io_ring : ring (bufs s) order;
  io_uniq b i j : (i < NBUF)%nat -> (j < NBUF)%nat ->
    has_key (bufs s) b i = true -> has_key (bufs s) b j = true -> i = j;
  io_buf i : (i < NBUF)%nat -> buf_ok s (bufs s i);
}.

Lemma bfind_Some s b i : bfind s b = Some i -> (i < NBUF)%nat /\ has_key (bufs s) b i = true.
Proof. unfold bfind. intros [Hin Hk]%find_some. apply in_seq in Hin. split; [lia|done]. Qed.

Lemma bfind_None s b i : bfind s b = None -> (i < NBUF)%nat -> has_key (bufs s) b i = false.
Proof. unfold bfind. intros Hf Hi. eapply find_none in Hf; [done|]. apply in_seq. lia. Qed.

Lemma bfind_key s o b i :
  bio_ok s o -> (i < NBUF)%nat -> has_key (bufs s) b i = true -> bfind s b = Some i.
Proof.
  intros Ho Hi Hk. destruct (bfind s b) as [j|] eqn:E.
  - apply bfind_Some in E as [Hj Hkj]. f_equal. by eapply (io_uniq s o Ho).
  - eapply bfind_None in E; [|exact Hi]. congruence.
Qed.

(** Only the cores and the disk matter. *)
Lemma bfind_core s s' b : (forall i, core (bufs s' i) = core (bufs s i)) -> bfind s' b = bfind s b.
Proof.
  intros Hc. unfold bfind. apply find_ext. intros i _. specialize (Hc i). unfold core in Hc.
  injection Hc as ? Hd Hb ? ? ?. unfold has_key. by rewrite Hd, Hb.
Qed.

Lemma obs_core s s' b :
  (forall i, core (bufs s' i) = core (bufs s i)) -> dsk s' b = dsk s b -> obs s' b = obs s b.
Proof.
  intros Hc Hd. unfold obs. rewrite (bfind_core s s' b Hc), Hd.
  destruct (bfind s b) as [i|]; [|done]. specialize (Hc i). unfold core in Hc. by injection Hc as -> ? ? -> -> ->.
Qed.

Lemma bio_ok_core s s' o o' :
  (forall i, core (bufs s' i) = core (bufs s i)) -> (forall b, dsk s' b = dsk s b) ->
  ring (bufs s') o' -> bio_ok s o -> bio_ok s' o'.
Proof.
  intros Hc Hd Hr [_ Hu Hb].
  assert (forall b i, has_key (bufs s') b i = has_key (bufs s) b i) as Hk.
  { intros b i. specialize (Hc i). unfold core in Hc. injection Hc as ? Hd' Hb' ? ? ?. unfold has_key. by rewrite Hd', Hb'. }
  split; [done| |].
  - intros b i j ??. rewrite !Hk. by apply Hu.
  - intros i Hi. specialize (Hb i Hi). specialize (Hc i). unfold core in Hc. injection Hc as E1 E2 E3 E4 E5 E6.
    destruct Hb as [H1 H2 H3]. split; rewrite ?E1, ?E2, ?E3, ?E4, ?E5, ?E6, ?Hd; done.
Qed.
End inv.
