(* ===== verification/BioSpec.v ===== *)
(** Specification of the buffer cache: each operation of kernel/bio.c as a change of what is
    observed of one block. *)
From S2P Require Import Prelude Sleeplock Bio BioInv.

(** The context after a call that only released locks and woke sleepers. *)
Definition same_cpu (c c' : cpu) : Prop := held c' = held c /\ curpid c' = curpid c /\ me c' = me c.

Lemma same_cpu_refl c : same_cpu c c.
Proof. done. Qed.
Lemma same_cpu_trans c1 c2 c3 : same_cpu c1 c2 -> same_cpu c2 c3 -> same_cpu c1 c3.
Proof. intros (H1 & H2 & H3) (H4 & H5 & H6). unfold same_cpu. split_and!; congruence. Qed.

Section spec.
Context (dv : Z).
Abbreviation bfind := (bfind dv).
Abbreviation obs := (obs dv).
Abbreviation content := (content dv).
Abbreviation refs := (refs dv).
Abbreviation bio_ok := (bio_ok dv).
Abbreviation has_key := (has_key dv).
Abbreviation buf_ok := (buf_ok dv).

(** Buffers in use stay where they are, and stay loaded. *)
Definition stable (s s' : bio) : Prop :=
  forall b j, 0 < refs s b -> bfind s b = Some j ->
    bfind s' b = Some j /\ (b_valid (bufs s j) <> 0 -> b_valid (bufs s' j) <> 0).

Lemma obs_found s b i : bfind s b = Some i ->
  obs s b = mkobs (if b_valid (bufs s i) =? 0 then dsk s b else b_data (bufs s i)) (dsk s b)
                  (b_refcnt (bufs s i)) (b_lock (bufs s i)).
Proof. intros Hf. unfold BioInv.obs. by rewrite Hf. Qed.

Lemma has_key_blockno g b i : has_key g b i = true <-> b_dev (g i) = dv /\ b_blockno (g i) = b.
Proof. unfold BioInv.has_key. by rewrite andb_true_iff, !Z.eqb_eq. Qed.

(** ** One buffer changes, its block stays *)

Section keep.
Context (s : bio) (o : list nat) (i : nat) (b : Z) (f : buf -> buf) (d' : Z -> block) (w' : list (Z * block)).
Hypothesis Hok : bio_ok s o.
Hypothesis Hfind : bfind s b = Some i.
Hypothesis Hf : forall x, b_dev (f x) = b_dev x /\ b_blockno (f x) = b_blockno x /\
                     b_prev (f x) = b_prev x /\ b_next (f x) = b_next x.
Hypothesis Hd : forall b', b' <> b -> d' b' = dsk s b'.
Let s' := mkbio (upd_bufs i f (bufs s)) d' w'.
Hypothesis Hbuf : buf_ok s' (f (bufs s i)).

Lemma keep_key b' j : has_key (bufs s') b' j = has_key (bufs s) b' j.
Proof.
  unfold BioInv.has_key, s'. simpl. unfold upd_bufs. case_decide; [subst j|done].
  destruct (Hf (bufs s i)) as (-> & -> & _). done.
Qed.

Lemma keep_find b' : bfind s' b' = bfind s b'.
Proof. unfold BioInv.bfind. apply find_ext. intros j _. apply keep_key. Qed.

Lemma keep_obs b' : b' <> b -> obs s' b' = obs s b'.
Proof.
  intros Hb. unfold BioInv.obs. rewrite keep_find. simpl. rewrite Hd by done.
  destruct (bfind s b') as [j|] eqn:E; [|done]. unfold upd_bufs. rewrite decide_False; [done|].
  intros ->. apply bfind_Some in E as [_ [_ E]%has_key_blockno].
  apply bfind_Some in Hfind as [_ [_ E']%has_key_blockno]. congruence.
Qed.

Lemma keep_obs_b : obs s' b =
  mkobs (if b_valid (f (bufs s i)) =? 0 then d' b else b_data (f (bufs s i))) (d' b)
        (b_refcnt (f (bufs s i))) (b_lock (f (bufs s i))).
Proof.
  rewrite (obs_found s' b i) by (by rewrite keep_find). simpl. unfold upd_bufs. by rewrite decide_True.
Qed.

Lemma keep_ok : bio_ok s' o.
Proof.
  split.
  - eapply ring_ext; [| |apply Hok]; intros j; unfold nxt, prv, s'; simpl; unfold upd_bufs;
      (case_decide; [subst j|done]); destruct (Hf (bufs s i)) as (_ & _ & Hp & Hn); done.
  - intros b' j k Hj Hk. rewrite !keep_key. by apply (io_uniq _ _ _ Hok).
  - intros j Hj. unfold s' at 2. simpl. unfold upd_bufs. case_decide; [by subst j|].
    destruct (io_buf _ _ _ Hok j Hj) as [H1 H2 H3]. split; [done|done|].
    intros H0. destruct (H3 H0) as [? Hc]. split; [done|]. intros Hdv Hv. simpl. rewrite Hc by done.
    symmetry. apply Hd. intros Hbn.
    pose proof (bfind_Some _ _ _ _ Hfind) as [Hi Hki]. assert (j = i); [|done].
    eapply (io_uniq _ _ _ Hok b); [done|done| |done]. by apply has_key_blockno.
Qed.

Lemma keep_all :
  bio_ok s' o /\ (forall b', bfind s' b' = bfind s b') /\ (forall b', b' <> b -> obs s' b' = obs s b') /\
  obs s' b = mkobs (if b_valid (f (bufs s i)) =? 0 then d' b else b_data (f (bufs s i))) (d' b)
               (b_refcnt (f (bufs s i))) (b_lock (f (bufs s i))).
Proof. split_and!; [apply keep_ok|apply keep_find|apply keep_obs|apply keep_obs_b]. Qed.
End keep.

(** ** Recycling a buffer *)

Section recycle.
Context (s : bio) (o : list nat) (i : nat) (b : Z).
Hypothesis Hok : bio_ok s o.
Hypothesis Hi : (i < NBUF)%nat.
Hypothesis Hfree : b_refcnt (bufs s i) = 0.
Hypothesis Hmiss : bfind s b = None.
Let s' := mkbio (upd_bufs i (recycle dv b) (bufs s)) (dsk s) (dwrites s).

Lemma recycle_key b' j :
  has_key (bufs s') b' j = if decide (j = i) then b =? b' else has_key (bufs s) b' j.
Proof.
  unfold BioInv.has_key, s'. simpl. unfold upd_bufs. case_decide; [|done]. simpl. by rewrite Z.eqb_refl.
Qed.

Lemma recycle_ok : bio_ok s' o.
Proof.
  split.
  - eapply ring_ext; [| |apply Hok]; intros j; unfold nxt, prv, s'; simpl; unfold upd_bufs;
      (case_decide; [by subst j|done]).
  - intros b' j k Hj Hk. rewrite !recycle_key. repeat case_decide; subst; try done.
    + intros ->%Z.eqb_eq Hkk. by rewrite (bfind_None _ _ _ k Hmiss Hk) in Hkk.
    + intros Hkj ->%Z.eqb_eq. by rewrite (bfind_None _ _ _ j Hmiss Hj) in Hkj.
    + by apply (io_uniq _ _ _ Hok).
  - intros j Hj. unfold s' at 2. simpl. unfold upd_bufs. case_decide.
    + split; simpl; [lia|by left|lia].
    + destruct (io_buf _ _ _ Hok j Hj). by split.
Qed.

Lemma recycle_find : bfind s' b = Some i.
Proof. eapply bfind_key; [apply recycle_ok|done|]. rewrite recycle_key, decide_True by done. apply Z.eqb_refl. Qed.

Lemma recycle_find_other b' j : j <> i -> bfind s b' = Some j -> bfind s' b' = Some j.
Proof.
  intros Hne Hb. apply bfind_Some in Hb as [Hj Hk]. eapply bfind_key; [apply recycle_ok|done|].
  by rewrite recycle_key, decide_False.
Qed.

Lemma recycle_obs b' : b' <> b -> obs s' b' = obs s b'.
Proof.
  intros Hb. destruct (bfind s b') as [j|] eqn:E.
  - destruct (decide (j = i)) as [->|Hne].
    + rewrite (obs_found s b' i E). apply bfind_Some in E as [_ [Hdev Hbn]%has_key_blockno].
      assert (bfind s' b' = None) as En.
      { destruct (bfind s' b') as [k|] eqn:E'; [|done]. apply bfind_Some in E' as [Hk Hkk].
        rewrite recycle_key in Hkk. case_decide; [apply Z.eqb_eq in Hkk; congruence|].
        exfalso. assert (k = i); [|done]. eapply (io_uniq _ _ _ Hok b'); [done|done|done|]. by apply has_key_blockno. }
      unfold BioInv.obs. rewrite En. destruct (io_buf _ _ _ Hok i Hi) as [_ _ H3].
      destruct (H3 Hfree) as [-> Hc]. rewrite Hfree. f_equal. simpl.
      destruct (Z.eqb_spec (b_valid (bufs s i)) 0); [done|]. by rewrite Hc, Hbn.
    + rewrite (obs_found s b' j E), (obs_found s' b' j) by (by apply recycle_find_other).
      simpl. unfold upd_bufs. by rewrite decide_False.
  - assert (bfind s' b' = None) as En.
    { destruct (bfind s' b') as [k|] eqn:E'; [|done]. apply bfind_Some in E' as [Hk Hkk].
      rewrite recycle_key in Hkk. case_decide; [apply Z.eqb_eq in Hkk; congruence|].
      by rewrite (bfind_None _ _ _ k E Hk) in Hkk. }
    unfold BioInv.obs. by rewrite E, En.
Qed.

Lemma recycle_obs_b : obs s' b = mkobs (dsk s b) (dsk s b) 1 (b_lock (bufs s i)).
Proof. rewrite (obs_found s' b i recycle_find). simpl. unfold upd_bufs. by rewrite decide_True. Qed.

Lemma recycle_stable : stable s s'.
Proof.
  intros b' j Hr Hj. assert (j <> i) as Hne.
  { intros ->. unfold BioInv.refs in Hr. rewrite (obs_found s b' i Hj) in Hr. simpl in Hr. lia. }
  split; [by apply recycle_find_other|]. simpl. unfold upd_bufs. by rewrite decide_False.
Qed.

Lemma recycle_all :
  bio_ok s' o /\ bfind s' b = Some i /\ (forall b', b' <> b -> obs s' b' = obs s b') /\
  obs s' b = mkobs (dsk s b) (dsk s b) 1 (b_lock (bufs s i)) /\ stable s s'.
Proof.
  split_and!; [apply recycle_ok|apply recycle_find|apply recycle_obs|apply recycle_obs_b|apply recycle_stable].
Qed.
End recycle.

(** * [bget] *)

(** The first loop: along [next], to the first buffer of the block. *)
Lemma wp_scan_next (take : nat -> buf -> M bio (nat + option nat)) b c s Q fuel a l :
  lseg (nxt (bufs s)) a l bhead -> (length l < fuel)%nat -> (forall i, i ∈ l -> i <> bhead) ->
  (forall i, i ∈ l -> has_key (bufs s) b i = true ->
     wp (take i (bufs s i)) c s (fun c' s' r => exists x, r = inr x /\ Q c' s' x)) ->
  ((forall i, i ∈ l -> has_key (bufs s) b i = false) -> Q c s None) ->
  wp (loop fuel (fun i =>
    if Nat.eqb i bhead then ret (inr None) else
    x <- get_buf i ;;
    if (b_dev x =? dv) && (b_blockno x =? b) then take i x else ret (inl (b_next x))) a) c s Q.
Proof.
  revert a fuel. induction l as [|x l IH]; intros a fuel Hs Hf Hne Hhit Hmiss;
    (destruct fuel as [|fuel]; [simpl in Hf; lia|]); simpl loop; wp_step.
  - simpl in Hs. subst a. rewrite Nat.eqb_refl. wp_steps. apply Hmiss. intros i ?%not_elem_of_nil. done.
  - apply lseg_cons in Hs as [-> Hs]. rewrite (proj2 (Nat.eqb_neq _ _)) by (apply Hne; set_solver).
    unfold get_buf. wp_steps. fold (has_key (bufs s) b x).
    destruct (has_key (bufs s) b x) eqn:Hk.
    + eapply wp_mono; [apply Hhit; [set_solver|done]|]. intros c' s' r (y & -> & HQ). by wp_steps.
    + wp_steps. apply IH; [done|simpl in Hf; lia|set_solver| |].
      * intros i Hi. apply Hhit. set_solver.
      * intros Hall. apply Hmiss. intros i [->|Hi]%elem_of_cons; [done|by apply Hall].
Qed.

(** The second loop: along [prev], to the first buffer without references. *)
Lemma wp_scan_prev (take : nat -> M bio (nat + option nat)) c s Q fuel a l :
  lseg (prv (bufs s)) a l bhead -> (length l < fuel)%nat -> (forall i, i ∈ l -> i <> bhead) ->
  (forall i, i ∈ l -> b_refcnt (bufs s i) = 0 ->
     wp (take i) c s (fun c' s' r => exists x, r = inr x /\ Q c' s' x)) ->
  ((forall i, i ∈ l -> b_refcnt (bufs s i) <> 0) -> Q c s None) ->
  wp (loop fuel (fun i =>
    if Nat.eqb i bhead then ret (inr None) else
    x <- get_buf i ;;
    if b_refcnt x =? 0 then take i else ret (inl (b_prev x))) a) c s Q.
Proof.
  revert a fuel. induction l as [|x l IH]; intros a fuel Hs Hf Hne Hhit Hmiss;
    (destruct fuel as [|fuel]; [simpl in Hf; lia|]); simpl loop; wp_step.
  - simpl in Hs. subst a. rewrite Nat.eqb_refl. wp_steps. apply Hmiss. intros i ?%not_elem_of_nil. done.
  - apply lseg_cons in Hs as [-> Hs]. rewrite (proj2 (Nat.eqb_neq _ _)) by (apply Hne; set_solver).
    unfold get_buf. wp_steps. destruct (Z.eqb_spec (b_refcnt (bufs s x)) 0) as [H0|H0].
    + eapply wp_mono; [apply Hhit; [set_solver|done]|]. intros c' s' r (y & -> & HQ). by wp_steps.
    + wp_steps. apply IH; [done|simpl in Hf; lia|set_solver| |].
      * intros i Hi. apply Hhit. set_solver.
      * intros Hall. apply Hmiss. intros i [->|Hi]%elem_of_cons; [done|by apply Hall].
Qed.

(** What [bget] and [bread] do to the observation of their block. *)
Record bget_post (c : cpu) (s : bio) (o : list nat) (b : Z) (s' : bio) (i : nat) : Prop := {
  bg_ok : bio_ok s' o;
  bg_find : bfind s' b = Some i;
  bg_other b' : b' <> b -> obs s' b' = obs s b';
  bg_obs : obs s' b = mkobs (content s b) (o_disk (obs s b)) (refs s b + 1) (mksleep 1 (curpid c));
  bg_dsk : dsk s' = dsk s;
  bg_writes : dwrites s' = dwrites s;
  bg_stable : stable s s';
}.

(** The tail of both branches: drop the cache lock and take the buffer's. *)
Lemma wp_take c s1 o i b (Q : cpu -> bio -> nat + option nat -> Prop) :
  LBcache ∉ held c -> LSleepBuf i ∉ held c -> bio_ok s1 o -> bfind s1 b = Some i ->
  sl_locked (b_lock (bufs s1 i)) = 0 -> 0 < b_refcnt (bufs s1 i) ->
  (forall s2, bio_ok s2 o -> (forall b', bfind s2 b' = bfind s1 b') ->
     (forall j, b_valid (bufs s2 j) = b_valid (bufs s1 j)) ->
     (forall b', b' <> b -> obs s2 b' = obs s1 b') ->
     obs s2 b = mkobs (o_cont (obs s1 b)) (o_disk (obs s1 b)) (o_refs (obs s1 b)) (mksleep 1 (curpid c)) ->
     dsk s2 = dsk s1 -> dwrites s2 = dwrites s1 -> Q c s2 (inr (Some i))) ->
  wp (release LBcache ;;
      zoom (lock_lens i) (acquiresleep (LSleepBuf i) (ChSleepBuf i)) ;;
      ret (inr (Some i))) (set_held (LBcache :: held c) c) s1 Q.
Proof.
  intros Hb Hl Hok Hf Hu Hr HQ. wp_step. wp_step. wp_step. simpl held. rewrite set_held_back by done.
  apply wp_zoom. eapply wp_acquiresleep; [done|done|]. wp_steps. simpl.
  assert ((i < NBUF)%nat) as Hi by (by destruct (bfind_Some _ _ _ _ Hf)).
  destruct (io_buf _ _ _ Hok i Hi) as [H1 H2 H3].
  destruct (keep_all s1 o i b (set_lock (mksleep 1 (curpid c))) (dsk s1) (dwrites s1)) as (Ho2 & Hf2 & Hob & Hobb);
    try done.
  { split; simpl; [done|done|lia]. }
  apply HQ; try done.
  - intros j. simpl. unfold upd_bufs. case_decide; [by subst|done].
  - rewrite Hobb, (obs_found _ _ _ Hf). done.
Qed.

Lemma wp_bget_hit b i c s o (Q : cpu -> bio -> nat + option nat -> Prop) :
  LBcache ∉ held c -> LSleepBuf i ∉ held c -> bio_ok s o ->
  sl_locked (o_lock (obs s b)) = 0 -> refs s b + 1 < 2147483648 -> bfind s b = Some i ->
  (forall s', bget_post c s o b s' i -> Q c s' (inr (Some i))) ->
  wp (upd_buf i (set_refcnt (u32 (b_refcnt (bufs s i) + 1))) ;; release LBcache ;;
      zoom (lock_lens i) (acquiresleep (LSleepBuf i) (ChSleepBuf i)) ;;
      ret (inr (Some i))) (set_held (LBcache :: held c) c) s Q.
Proof.
  intros Hc Hcs Hok Hlk Href Hf HQ. pose proof (obs_found _ _ _ Hf) as Ho.
  unfold BioInv.refs in Href. rewrite Ho in Hlk, Href. simpl in Hlk, Href.
  assert ((i < NBUF)%nat) as Hi by (by destruct (bfind_Some _ _ _ _ Hf)).
  destruct (io_buf _ _ _ Hok i Hi) as [Hr1 Hr2 Hr3].
  unfold upd_buf. wp_step. wp_step. rewrite u32_small by lia.
  assert (b_dev (bufs s i) = dv) as Hdev by (by apply bfind_Some in Hf as [_ [? _]%has_key_blockno]).
  destruct (keep_all s o i b (set_refcnt (b_refcnt (bufs s i) + 1)) (dsk s) (dwrites s)) as (Ho1 & Hf1 & Hob1 & Hobb1);
    try done.
  { split; simpl; [lia|by left|lia]. }
  set (s1 := mkbio (upd_bufs i (set_refcnt (b_refcnt (bufs s i) + 1)) (bufs s)) (dsk s) (dwrites s)) in *.
  assert (bufs s1 i = set_refcnt (b_refcnt (bufs s i) + 1) (bufs s i)) as Hs1
    by (unfold s1, upd_bufs; simpl; by rewrite decide_True).
  eapply (wp_take c s1 o i b); [done|done|done|by rewrite Hf1|by rewrite Hs1|rewrite Hs1; simpl; lia|].
  intros s2 Hok2 Hf2 Hva2 Hob2 Hobb2 Hd2 Hw2. apply HQ. split; try done.
  - by rewrite Hf2, Hf1.
  - intros b' Hb'. by rewrite Hob2, Hob1.
  - rewrite Hobb2, Hobb1. simpl. unfold BioInv.content, BioInv.refs. by rewrite Ho.
  - intros b' j _ Hj. rewrite Hf2, Hf1, Hva2. split; [done|]. unfold s1. simpl. unfold upd_bufs.
    case_decide; [by subst|done].
Qed.

Lemma wp_bget_miss b i c s o (Q : cpu -> bio -> nat + option nat -> Prop) :
  LBcache ∉ held c -> LSleepBuf i ∉ held c -> bio_ok s o ->
  bfind s b = None -> (i < NBUF)%nat -> b_refcnt (bufs s i) = 0 ->
  (forall s', bget_post c s o b s' i -> Q c s' (inr (Some i))) ->
  wp (upd_buf i (recycle dv b) ;; release LBcache ;;
      zoom (lock_lens i) (acquiresleep (LSleepBuf i) (ChSleepBuf i)) ;;
      ret (inr (Some i))) (set_held (LBcache :: held c) c) s Q.
Proof.
  intros Hc Hcs Hok Hm Hi Hr HQ. unfold upd_buf. wp_step. wp_step.
  destruct (recycle_all s o i b Hok Hi Hr Hm) as (Ho1 & Hf1 & Hob1 & Hobb1 & Hst1).
  set (s1 := mkbio (upd_bufs i (recycle dv b) (bufs s)) (dsk s) (dwrites s)) in *.
  destruct (io_buf _ _ _ Hok i Hi) as [_ _ H3]. destruct (H3 Hr) as [Hlk _].
  assert (bufs s1 i = recycle dv b (bufs s i)) as Hs1 by (unfold s1, upd_bufs; simpl; by rewrite decide_True).
  eapply (wp_take c s1 o i b); [done|done|done|done|rewrite Hs1; simpl; by rewrite Hlk|rewrite Hs1; simpl; lia|].
  intros s2 Hok2 Hf2 Hva2 Hob2 Hobb2 Hd2 Hw2. apply HQ. split; try done.
  - by rewrite Hf2.
  - intros b' Hb'. by rewrite Hob2, Hob1.
  - rewrite Hobb2, Hobb1. simpl. unfold BioInv.content, BioInv.refs, BioInv.obs. by rewrite Hm.
  - intros b' j Hr' Hj. rewrite Hf2, Hva2. by apply Hst1.
Qed.

Lemma wp_bget b c s o (Q : cpu -> bio -> nat -> Prop) :
  LBcache ∉ held c -> (forall i, LSleepBuf i ∉ held c) -> bio_ok s o ->
  sl_locked (o_lock (obs s b)) = 0 -> refs s b + 1 < 2147483648 ->
  (bfind s b = None -> exists i, (i < NBUF)%nat /\ b_refcnt (bufs s i) = 0) ->
  (forall s' i, bget_post c s o b s' i -> Q c s' i) -> wp (bget dv b) c s Q.
Proof.
  intros Hc Hcs Hok Hlk Href Hfree HQ. unfold bget. pose proof (io_ring _ _ _ Hok) as Hring.
  assert (length o = NBUF) as Hlen by (rewrite (ring_perm _ _ Hring); apply length_seq).
  assert (forall i, i ∈ o -> i <> bhead) as Hne.
  { intros i Hi%(ring_elem _ _ _ Hring). unfold bhead. lia. }
  wp_step. wp_step. wp_step. unfold get_buf at 1. wp_steps.
  eapply (wp_scan_next (fun i x => upd_buf i (set_refcnt (u32 (b_refcnt x + 1))) ;; release LBcache ;;
    zoom (lock_lens i) (acquiresleep (LSleepBuf i) (ChSleepBuf i)) ;; ret (inr (Some i))) b _ s _ _ _ o);
    [apply Hring|lia|done| |].
  - intros i Hi Hk. rewrite (ring_elem _ _ _ Hring) in Hi. pose proof (bfind_key _ _ _ _ _ Hok Hi Hk) as Hf.
    eapply wp_bget_hit; try done. intros s' Hp. eexists. split; [done|]. wp_steps. by apply HQ.
  - intros Hall. assert (bfind s b = None) as Hm.
    { destruct (bfind s b) as [i|] eqn:E; [|done]. apply bfind_Some in E as [Hi Hk].
      rewrite Hall in Hk; [done|]. by apply (ring_elem _ _ _ Hring). }
    destruct (Hfree Hm) as (i0 & Hi0 & Hr0). wp_step.
    eapply (wp_scan_prev (fun i => upd_buf i (recycle dv b) ;; release LBcache ;;
      zoom (lock_lens i) (acquiresleep (LSleepBuf i) (ChSleepBuf i)) ;; ret (inr (Some i))) _ s _ _ _ (reverse o));
      [apply Hring|rewrite length_reverse; lia|intros i; rewrite elem_of_reverse; apply Hne| |].
    + intros i Hi Hr. rewrite elem_of_reverse, (ring_elem _ _ _ Hring) in Hi.
      eapply wp_bget_miss; try done. intros s' Hp. eexists. split; [done|]. wp_steps. by apply HQ.
    + intros Hno. exfalso. apply (Hno i0); [|done]. by rewrite elem_of_reverse, (ring_elem _ _ _ Hring).
Qed.

(** * The operations on a held buffer *)

(** Buffer [i] caches block [b] and its contents have been read. *)
Definition loaded (s : bio) (b : Z) (i : nat) : Prop := bfind s b = Some i /\ b_valid (bufs s i) <> 0.

Lemma loaded_obs s b i : loaded s b i ->
  obs s b = mkobs (b_data (bufs s i)) (dsk s b) (b_refcnt (bufs s i)) (b_lock (bufs s i)).
Proof. intros [Hf Hv]. rewrite (obs_found _ _ _ Hf). by rewrite (proj2 (Z.eqb_neq _ _)). Qed.

Lemma loaded_content s b i : loaded s b i -> b_data (bufs s i) = content s b.
Proof. intros Hl. unfold BioInv.content. by rewrite (loaded_obs _ _ _ Hl). Qed.

Lemma loaded_stable s s' b i : stable s s' -> 0 < refs s b -> loaded s b i -> loaded s' b i.
Proof. intros Hs Hr [Hf Hv]. destruct (Hs b i Hr Hf). split; auto. Qed.

Lemma loaded_lt s b i : loaded s b i -> (i < NBUF)%nat.
Proof. intros [Hf _]. by destruct (bfind_Some _ _ _ _ Hf). Qed.

Lemma loaded_blockno s b i : loaded s b i -> b_dev (bufs s i) = dv /\ b_blockno (bufs s i) = b.
Proof. intros [Hf _]. apply bfind_Some in Hf as [_ Hk]. by apply has_key_blockno. Qed.

(** Replace the observation of one block. *)
Record bupd (s : bio) (b : Z) (i : nat) (x : bobs) (s' : bio) : Prop := {
  bu_ok : exists o, bio_ok s' o;
  bu_loaded : loaded s' b i;
  bu_obs : obs s' b = x;
  bu_other b' : b' <> b -> obs s' b' = obs s b';
  bu_stable : stable s s';
}.

Lemma refs_nonneg s o b : bio_ok s o -> 0 <= refs s b.
Proof.
  intros Hok. unfold BioInv.refs, BioInv.obs. destruct (bfind s b) as [i|] eqn:E; [|simpl; lia].
  simpl. apply bfind_Some in E as [Hi _]. destruct (io_buf _ _ _ Hok i Hi); lia.
Qed.

(** A change of one loaded buffer that keeps its block, its links and its validity. *)
Lemma bupd_keep s o b i f d' w' :
  bio_ok s o -> loaded s b i ->
  (forall x, b_dev (f x) = b_dev x /\ b_blockno (f x) = b_blockno x /\
        b_prev (f x) = b_prev x /\ b_next (f x) = b_next x) ->
  b_valid (f (bufs s i)) <> 0 -> (forall b', b' <> b -> d' b' = dsk s b') ->
  0 <= b_refcnt (f (bufs s i)) < 2147483648 ->
  (b_refcnt (f (bufs s i)) = 0 -> b_lock (f (bufs s i)) = mksleep 0 0 /\ b_data (f (bufs s i)) = d' b) ->
  bupd s b i (mkobs (b_data (f (bufs s i))) (d' b) (b_refcnt (f (bufs s i))) (b_lock (f (bufs s i))))
    (mkbio (upd_bufs i f (bufs s)) d' w') /\ bio_ok (mkbio (upd_bufs i f (bufs s)) d' w') o.
Proof.
  intros Hok Hl Hf Hv Hd Hr H0. destruct (Hf (bufs s i)) as (E1 & E2 & _).
  destruct (loaded_blockno _ _ _ Hl) as [Hdev Hbn]. destruct Hl as [Hfi Hvi].
  destruct (keep_all s o i b f d' w') as (Ho & Hfind & Hob & Hobb); try done.
  { split; [done|left; congruence|]. intros Hz. destruct (H0 Hz) as [? ?]. split; [done|].
    intros _ _. simpl. by rewrite E2, Hbn. }
  split; [|done]. split; [eauto| | |done|].
  - split; [by rewrite Hfind|]. simpl. unfold upd_bufs. by rewrite decide_True.
  - rewrite Hobb. by rewrite (proj2 (Z.eqb_neq _ _)).
  - intros b' j _ Hj. rewrite Hfind. split; [done|]. simpl. unfold upd_bufs. case_decide; [by subst|done].
Qed.

(** A free buffer exists when fewer than [NBUF] blocks are referenced. *)
Lemma free_buf s o (L : list Z) :
  bio_ok s o -> (forall b, 0 < refs s b -> b ∈ L) -> (length L < NBUF)%nat ->
  exists i, (i < NBUF)%nat /\ b_refcnt (bufs s i) = 0.
Proof.
  intros Hok HL Hlen.
  destruct (decide (Exists (fun i => b_refcnt (bufs s i) = 0) (seq 0 NBUF))) as [He|Hn].
  { apply Exists_exists in He as (i & Hi & Hr). apply elem_of_seq in Hi. exists i. split; [lia|done]. }
  exfalso. assert (forall i, (i < NBUF)%nat -> b_refcnt (bufs s i) <> 0) as Hall.
  { intros i Hi Hr. apply Hn, Exists_exists. exists i. split; [apply elem_of_seq; lia|done]. }
  assert (forall i, (i < NBUF)%nat -> has_key (bufs s) (b_blockno (bufs s i)) i = true) as Hkey.
  { intros i Hi. apply has_key_blockno. split; [|done]. destruct (io_buf _ _ _ Hok i Hi) as [_ [?|?] _]; [done|].
    by apply Hall in Hi. }
  assert (NoDup ((fun i => b_blockno (bufs s i)) <$> seq 0 NBUF)) as Hd.
  { apply NoDup_fmap_2_strong; [|apply NoDup_seq]. intros i j Hi%elem_of_seq Hj%elem_of_seq He.
    eapply (io_uniq _ _ _ Hok (b_blockno (bufs s i))); [lia|lia|apply Hkey; lia|]. rewrite He. apply Hkey. lia. }
  assert (length ((fun i => b_blockno (bufs s i)) <$> seq 0 NBUF) <= length L)%nat as Hle.
  { apply submseteq_length, NoDup_submseteq; [done|]. intros b (i & -> & Hi%elem_of_seq)%list_elem_of_fmap.
    apply HL. assert (i < NBUF)%nat as Hi' by lia. pose proof (bfind_key _ _ _ _ _ Hok Hi' (Hkey i Hi')) as Hf.
    unfold BioInv.refs. rewrite (obs_found _ _ _ Hf). simpl. specialize (Hall i Hi').
    destruct (io_buf _ _ _ Hok i Hi') as [? _ _]. lia. }
  rewrite length_fmap, length_seq in Hle. lia.
Qed.

Lemma wp_bread b c s o L (Q : cpu -> bio -> nat -> Prop) :
  LBcache ∉ held c -> (forall i, LSleepBuf i ∉ held c) -> bio_ok s o ->
  sl_locked (o_lock (obs s b)) = 0 -> refs s b + 1 < 2147483648 ->
  (forall b, 0 < refs s b -> b ∈ L) -> 0 < refs s b \/ (length L < NBUF)%nat ->
  (forall s' i, bupd s b i (mkobs (content s b) (o_disk (obs s b)) (refs s b + 1) (mksleep 1 (curpid c))) s' ->
     dsk s' = dsk s -> dwrites s' = dwrites s -> Q c s' i) ->
  wp (bread dv b) c s Q.
Proof.
  intros Hc Hcs Hok Hlk Href HL Hlen HQ. unfold bread. wp_step.
  pose proof (refs_nonneg s o b Hok) as Hnn.
  eapply wp_bget; [done|done|done|done|done| |].
  { intros Hm. destruct Hlen as [Hlen|Hlen]; [|by eapply free_buf].
    unfold BioInv.refs, BioInv.obs in Hlen. rewrite Hm in Hlen. simpl in Hlen. lia. }
  intros s1 i [Ho1 Hf1 Hob1 Hobb1 Hd1 Hw1 Hst1].
  pose proof (obs_found _ _ _ Hf1) as Hx. rewrite Hobb1 in Hx. injection Hx as Ec Ed Er El.
  unfold get_buf. wp_steps. destruct (Z.eqb_spec (b_valid (bufs s1 i)) 0) as [Hv|Hv].
  - assert (i < NBUF)%nat as Hi by (by destruct (bfind_Some _ _ _ _ Hf1)).
    destruct (bfind_Some _ _ _ _ Hf1) as [_ [Hdev Hbn]%has_key_blockno].
    unfold virtio_disk_rw, upd_buf. wp_steps. simpl.
    set (f := fun x => set_disk 0 (set_data (dsk s1 (b_blockno x)) x)).
    destruct (keep_all s1 o i b f (dsk s1) (dwrites s1)) as (Ho2 & Hf2 & Hob2 & Hobb2); try done.
    { split; simpl; [lia|by left|lia]. }
    set (s2 := mkbio (upd_bufs i f (bufs s1)) (dsk s1) (dwrites s1)) in *.
    assert (bufs s2 i = f (bufs s1 i)) as Hs2 by (unfold s2, upd_bufs; simpl; by rewrite decide_True).
    destruct (keep_all s2 o i b (set_valid 1) (dsk s2) (dwrites s2)) as (Ho3 & Hf3 & Hob3 & Hobb3); try done.
    { by rewrite Hf2. }
    { rewrite Hs2. split; simpl; [lia|by left|lia]. }
    rewrite Hs2 in Hobb3. simpl in Hobb3. rewrite Hbn in Hobb3. apply HQ; [|by rewrite <- Hd1|by rewrite <- Hw1]. split.
    + eauto.
    + split; [by rewrite Hf3, Hf2|]. simpl. unfold upd_bufs. by rewrite decide_True.
    + rewrite Hobb3. f_equal; try done.
    + intros b' Hb'. by rewrite Hob3, Hob2, Hob1.
    + intros b' j Hr' Hj. destruct (Hst1 b' j Hr' Hj) as [Hf' Hv']. rewrite Hf3, Hf2. split; [done|].
      intros Hvj. simpl. unfold upd_bufs. repeat case_decide; try done. by apply Hv'.
  - wp_steps. apply HQ; [|done|done]. split; [eauto|by split|done|done|done].
Qed.

(** The caller holds the sleep lock of the buffer. *)
Definition mine (c : cpu) (s : bio) (b : Z) : Prop :=
  sl_locked (o_lock (obs s b)) <> 0 /\ sl_pid (o_lock (obs s b)) = curpid c.

Lemma bupd_trans s b i x s1 y s2 : bupd s b i x s1 -> bupd s1 b i y s2 -> bupd s b i y s2.
Proof.
  intros [_ Hl1 _ Hot1 Hst1] [Ho2 Hl2 Hob2 Hot2 Hst2]. split; [done|done|done| |].
  - intros b' Hb'. by rewrite Hot2, Hot1.
  - intros b' j Hr Hj. destruct (Hst1 b' j Hr Hj) as [Hj1 Hv1]. destruct (decide (b' = b)) as [->|Hne].
    + destruct Hl1 as [Hf1 _], Hl2 as [Hf2 Hv2]. assert (j = i) as -> by congruence. done.
    + destruct (Hst2 b' j) as [Hj2 Hv2]; [|done|by auto]. unfold BioInv.refs in *. by rewrite Hot1.
Qed.

Lemma wp_holding c s o b i (Q : cpu -> bio -> bool -> Prop) :
  LSleepBuf i ∉ held c -> bio_ok s o -> loaded s b i -> mine c s b ->
  (forall s', bupd s b i (obs s b) s' -> bio_ok s' o -> dsk s' = dsk s -> dwrites s' = dwrites s -> Q c s' true) ->
  wp (zoom (lock_lens i) (holdingsleep (LSleepBuf i))) c s Q.
Proof.
  intros Hc Hok Hl [Hk Hp] HQ. pose proof (loaded_obs _ _ _ Hl) as Ho. rewrite Ho in Hk, Hp. simpl in Hk, Hp.
  apply wp_zoom, wp_holdingsleep; [done|]. simpl. rewrite (proj2 (Z.eqb_neq _ _)) by done.
  rewrite (proj2 (Z.eqb_eq _ _)) by done.
  destruct (io_buf _ _ _ Hok i (loaded_lt _ _ _ Hl)) as [H1 H2 H3].
  destruct (loaded_blockno _ _ _ Hl) as [Hdev Hbn]. destruct (Hl) as [_ Hv].
  destruct (bupd_keep s o b i (set_lock (b_lock (bufs s i))) (dsk s) (dwrites s)) as [Hu Hok']; try done.
  - intros Hz. destruct (H3 Hz) as [? Hcl]. split; [done|]. simpl. by rewrite Hcl, Hbn.
  - apply HQ; try done. rewrite Ho. exact Hu.
Qed.

(** [bwrite] makes the disk agree with the buffer. *)
Lemma wp_bwrite c s o b i (Q : cpu -> bio -> unit -> Prop) :
  (forall i, LSleepBuf i ∉ held c) -> bio_ok s o -> loaded s b i -> mine c s b -> 0 < refs s b ->
  (forall s', bupd s b i (mkobs (content s b) (content s b) (refs s b) (o_lock (obs s b))) s' -> bio_ok s' o ->
     (forall b', dsk s' b' = dset (dsk s) b (content s b) b') ->
     dwrites s' = (b, content s b) :: dwrites s -> Q c s' tt) ->
  wp (bwrite i) c s Q.
Proof.
  intros Hc Hok Hl Hm Hr HQ. unfold bwrite. wp_step. eapply wp_holding; [done|done|done|done|].
  intros s1 Hu1 Hok1 Hd1 Hw1. cbn [negb]. unfold virtio_disk_rw. wp_steps.
  pose proof (bu_loaded _ _ _ _ _ Hu1) as Hl1. pose proof (bu_obs _ _ _ _ _ Hu1) as Ho1.
  pose proof (loaded_obs _ _ _ Hl1) as Hx. rewrite Ho1 in Hx.
  destruct (loaded_blockno _ _ _ Hl1) as [Hdev Hbn]. rewrite Hbn.
  assert (b_data (bufs s1 i) = content s b) as Hcn by (unfold BioInv.content; by rewrite Hx).
  assert (b_refcnt (bufs s1 i) = refs s b) as Hrf by (unfold BioInv.refs; by rewrite Hx).
  assert (b_lock (bufs s1 i) = o_lock (obs s b)) as Hlk by (by rewrite Hx).
  destruct (io_buf _ _ _ Hok1 i (loaded_lt _ _ _ Hl1)) as [Hb1 _ _].
  destruct (bupd_keep s1 o b i (set_disk 0) (dset (dsk s1) b (b_data (bufs s1 i)))
    ((b, b_data (bufs s1 i)) :: dwrites s1)) as [Hu2 Hok2]; try done.
  - by destruct Hl1.
  - intros b' Hb'. unfold dset. by rewrite (proj2 (Z.eqb_neq _ _)).
  - simpl. lia.
  - simpl in Hu2. assert (dset (dsk s1) b (b_data (bufs s1 i)) b = content s b) as Hds
      by (unfold dset; by rewrite Z.eqb_refl).
    rewrite Hds, Hrf, Hlk, Hcn in Hu2. rewrite Hcn in Hok2 |- *.
    apply HQ; [by eapply bupd_trans|done|by rewrite <- Hd1|simpl; by rewrite Hw1].
Qed.

(** Storing to the data of a held buffer changes the block's contents. *)
Lemma wp_write_data c s o b i d (Q : cpu -> bio -> unit -> Prop) :
  bio_ok s o -> loaded s b i -> 0 < refs s b ->
  (forall s', bupd s b i (mkobs d (o_disk (obs s b)) (refs s b) (o_lock (obs s b))) s' -> bio_ok s' o ->
     dsk s' = dsk s -> dwrites s' = dwrites s -> Q c s' tt) ->
  wp (write_data i d) c s Q.
Proof.
  intros Hok Hl Hr HQ. unfold write_data, upd_buf. wp_step. pose proof (loaded_obs _ _ _ Hl) as Ho.
  unfold BioInv.refs in *. rewrite Ho in *. simpl in *. destruct (io_buf _ _ _ Hok i (loaded_lt _ _ _ Hl)) as [Hb _ _].
  destruct (bupd_keep s o b i (set_data d) (dsk s) (dwrites s)) as [Hu Hok']; try done.
  - by destruct Hl.
  - simpl. lia.
  - by apply HQ.
Qed.

(** Changing the reference count under the cache lock. *)
Lemma wp_refcnt c s o b i (n : Z -> Z) (Q : cpu -> bio -> unit -> Prop) :
  LBcache ∉ held c -> bio_ok s o -> loaded s b i ->
  0 <= n (refs s b) < 2147483648 ->
  (n (refs s b) = 0 -> o_lock (obs s b) = mksleep 0 0 /\ content s b = o_disk (obs s b)) ->
  (forall s', bupd s b i (mkobs (content s b) (o_disk (obs s b)) (n (refs s b)) (o_lock (obs s b))) s' ->
     bio_ok s' o -> dsk s' = dsk s -> dwrites s' = dwrites s -> Q c s' tt) ->
  wp (acquire LBcache ;; x <- get_buf i ;; upd_buf i (set_refcnt (u32 (n (b_refcnt x)))) ;; release LBcache) c s Q.
Proof.
  intros Hc Hok Hl Hn H0 HQ. unfold get_buf, upd_buf. wp_steps. simpl held. rewrite set_held_back by done.
  pose proof (loaded_obs _ _ _ Hl) as Ho. unfold BioInv.content, BioInv.refs in *. rewrite Ho in *. simpl in *.
  rewrite u32_small by lia.
  destruct (bupd_keep s o b i (set_refcnt (n (b_refcnt (bufs s i)))) (dsk s) (dwrites s)) as [Hu Hok']; try done.
  - by destruct Hl.
  - by apply HQ.
Qed.

Lemma wp_bpin c s o b i (Q : cpu -> bio -> unit -> Prop) :
  LBcache ∉ held c -> bio_ok s o -> loaded s b i -> refs s b + 1 < 2147483648 ->
  (forall s', bupd s b i (mkobs (content s b) (o_disk (obs s b)) (refs s b + 1) (o_lock (obs s b))) s' ->
     bio_ok s' o -> dsk s' = dsk s -> dwrites s' = dwrites s -> Q c s' tt) ->
  wp (bpin i) c s Q.
Proof.
  intros Hc Hok Hl Hr HQ. pose proof (refs_nonneg s o b Hok).
  apply (wp_refcnt c s o b i (fun n => n + 1)); [done|done|done|lia|lia|done].
Qed.

Lemma wp_bunpin c s o b i (Q : cpu -> bio -> unit -> Prop) :
  LBcache ∉ held c -> bio_ok s o -> loaded s b i -> 1 < refs s b ->
  (forall s', bupd s b i (mkobs (content s b) (o_disk (obs s b)) (refs s b - 1) (o_lock (obs s b))) s' ->
     bio_ok s' o -> dsk s' = dsk s -> dwrites s' = dwrites s -> Q c s' tt) ->
  wp (bunpin i) c s Q.
Proof.
  intros Hc Hok Hl Hr HQ. pose proof (loaded_obs _ _ _ Hl) as Ho.
  destruct (io_buf _ _ _ Hok i (loaded_lt _ _ _ Hl)) as [Hb _ _].
  assert (refs s b = b_refcnt (bufs s i)) as He by (unfold BioInv.refs; by rewrite Ho).
  apply (wp_refcnt c s o b i (fun n => n - 1)); [done|done|done|lia|lia|done].
Qed.

(** Moving a buffer to the front changes no observation. *)
Lemma bupd_move s o b i :
  bio_ok s o -> loaded s b i ->
  bupd s b i (obs s b) (mkbio (move_front i (bufs s)) (dsk s) (dwrites s)).
Proof.
  intros Hok Hl. set (s' := mkbio (move_front i (bufs s)) (dsk s) (dwrites s)).
  assert (forall j, core (bufs s' j) = core (bufs s j)) as Hc by (intros; apply core_move_front).
  pose proof (loaded_lt _ _ _ Hl) as Hi.
  assert (i ∈ o) as Hin by (by apply (ring_elem _ _ _ (io_ring _ _ _ Hok))).
  apply list_elem_of_split in Hin as (l1 & l2 & Ho).
  assert (forall j, b_valid (bufs s' j) = b_valid (bufs s j)) as Hv.
  { intros j. specialize (Hc j). unfold core in Hc. by injection Hc. }
  split.
  - exists (i :: l1 ++ l2). eapply bio_ok_core; [exact Hc|done| |exact Hok].
    eapply ring_move; [apply Hok|done].
  - destruct Hl. split; [by rewrite (bfind_core dv s s' b Hc)|by rewrite Hv].
  - by apply obs_core.
  - intros b' _. by apply obs_core.
  - intros b' j _ Hj. rewrite (bfind_core dv s s' b' Hc), Hv. done.
Qed.

Lemma wp_brelse c s o b i (Q : cpu -> bio -> unit -> Prop) :
  LBcache ∉ held c -> (forall i, LSleepBuf i ∉ held c) -> bio_ok s o -> loaded s b i -> mine c s b ->
  0 < refs s b -> (refs s b = 1 -> content s b = o_disk (obs s b)) ->
  (forall c' s', same_cpu c c' ->
     bupd s b i (mkobs (content s b) (o_disk (obs s b)) (refs s b - 1) (mksleep 0 0)) s' ->
     dsk s' = dsk s -> dwrites s' = dwrites s -> Q c' s' tt) ->
  wp (brelse i) c s Q.
Proof.
  intros Hc Hcs Hok Hl Hm Hr Hcl HQ. unfold brelse. wp_step. eapply wp_holding; [done|done|done|done|].
  intros s1 Hu1 Hok1 Hd1 Hw1. cbn [negb]. wp_step. apply wp_zoom. eapply wp_releasesleep; [done|]. simpl.
  pose proof (bu_loaded _ _ _ _ _ Hu1) as Hl1. pose proof (bu_obs _ _ _ _ _ Hu1) as Ho1.
  pose proof (loaded_obs _ _ _ Hl1) as Hx. rewrite Ho1 in Hx.
  assert (b_data (bufs s1 i) = content s b) as Hcn by (unfold BioInv.content; by rewrite Hx).
  assert (b_refcnt (bufs s1 i) = refs s b) as Hrf by (unfold BioInv.refs; by rewrite Hx).
  assert (dsk s1 b = o_disk (obs s b)) as Hdk by (by rewrite Hx).
  destruct (io_buf _ _ _ Hok1 i (loaded_lt _ _ _ Hl1)) as [Hb1 _ _].
  destruct (bupd_keep s1 o b i (set_lock (mksleep 0 0)) (dsk s1) (dwrites s1)) as [Hu2 Hok2]; try done;
    [by destruct Hl1|simpl; lia|]. simpl in Hu2. rewrite Hcn, Hrf, Hdk in Hu2.
  pose proof (bupd_trans _ _ _ _ _ _ _ Hu1 Hu2) as Hu12. clear Hu1 Hu2.
  set (s2 := mkbio (upd_bufs i (set_lock (mksleep 0 0)) (bufs s1)) (dsk s1) (dwrites s1)) in *.
  set (c2 := set_woken (ChSleepBuf i :: woken c) c).
  assert (same_cpu c c2) as Hcc by done. assert (LBcache ∉ held c2) as Hc2 by done.
  pose proof (bu_loaded _ _ _ _ _ Hu12) as Hl2. pose proof (bu_obs _ _ _ _ _ Hu12) as Ho2.
  pose proof (loaded_obs _ _ _ Hl2) as Hx2. rewrite Ho2 in Hx2.
  pose proof (f_equal o_cont Hx2) as Ec2. pose proof (f_equal o_disk Hx2) as Ed2.
  pose proof (f_equal o_refs Hx2) as Er2. pose proof (f_equal o_lock Hx2) as El2.
  cbn [o_cont o_disk o_refs o_lock] in Ec2, Ed2, Er2, El2. clear Hx2.
  destruct (bupd_keep s2 o b i (set_refcnt (b_refcnt (bufs s2 i) - 1)) (dsk s2) (dwrites s2)) as [Hu3 Hok3]; try done.
  { by destruct Hl2. }
  { cbn [b_refcnt set_refcnt]. lia. }
  { cbn [b_refcnt b_lock b_data set_refcnt]. rewrite <- El2, <- Ec2, <- Er2. intros Hz. split; [done|]. rewrite Hcl by lia. by rewrite <- Ed2. }
  cbn [b_refcnt b_lock b_data set_refcnt] in Hu3. rewrite <- Ec2, <- El2, <- Er2 in Hu3. rewrite <- Er2 in Hok3.
  pose proof (bupd_trans _ _ _ _ _ _ _ Hu12 Hu3) as Hu. change (dsk s2 b) with (dsk s1 b) in Hu. rewrite Hdk in Hu.
  wp_step. wp_step. wp_step. unfold get_buf at 1. wp_step. unfold upd_buf at 1. wp_step. wp_step.
  rewrite <- Er2, u32_small by lia. cbv beta zeta.
  set (s3 := mkbio (upd_bufs i (set_refcnt (refs s b - 1)) (bufs s2)) (dsk s2) (dwrites s2)) in *.
  assert (bufs s3 i = set_refcnt (refs s b - 1) (bufs s2 i)) as Hs3 by (unfold s3, upd_bufs; simpl; by rewrite decide_True).
  wp_step. unfold get_buf at 1. wp_step. wp_step. rewrite Hs3 at 1. cbn [b_refcnt set_refcnt].
  destruct (Z.eqb_spec (refs s b - 1) 0) as [Hz|Hz].
  - unfold get_buf, upd_buf. wp_steps.
    apply HQ; [split; simpl; [by rewrite remove_lock_head|done]| |by rewrite <- Hd1|by rewrite <- Hw1].
    pose proof (bupd_move s3 o b i Hok3 (bu_loaded _ _ _ _ _ Hu)) as Hmv.
    eapply bupd_trans; [exact Hu|]. rewrite (bu_obs _ _ _ _ _ Hu) in Hmv. exact Hmv.
  - wp_steps. apply HQ; [split; simpl; [by rewrite remove_lock_head|done]|done|by rewrite <- Hd1|by rewrite <- Hw1].
Qed.

(** * The cache as four functions of the block number

    Contents, disk, reference counts and locks, with each operation an update at its
    block. *)

Definition fset {A} (f : Z -> A) (k : Z) (v : A) : Z -> A := fun x => if x =? k then v else f x.

Lemma fset_eq {A} (f : Z -> A) k v : fset f k v k = v.
Proof. unfold fset. by rewrite Z.eqb_refl. Qed.
Lemma fset_ne {A} (f : Z -> A) k v x : x <> k -> fset f k v x = f x.
Proof. intros. unfold fset. by rewrite (proj2 (Z.eqb_neq _ _)). Qed.

Definition unlocked : sleeplock := mksleep 0 0.

Record bst (s : bio) (Cn D : Z -> block) (R : Z -> Z) (K : Z -> sleeplock) : Prop := {
  st_ok : exists o, bio_ok s o;
  st_obs b : obs s b = mkobs (Cn b) (D b) (R b) (K b);
  st_dsk b : dsk s b = D b;
}.

Lemma bst_ext s Cn D R K Cn' D' R' K' :
  bst s Cn D R K -> (forall b, Cn' b = Cn b) -> (forall b, D' b = D b) -> (forall b, R' b = R b) ->
  (forall b, K' b = K b) -> bst s Cn' D' R' K'.
Proof. intros [H1 H2 H3] E1 E2 E3 E4. split; [done| |]; intros b; rewrite ?E1, ?E2, ?E3, ?E4; auto. Qed.

(** An update of block [b]. *)
Lemma bst_upd s Cn D R K b i x s' :
  bst s Cn D R K -> bupd s b i x s' -> (forall b', dsk s' b' = fset D b (o_disk x) b') ->
  bst s' (fset Cn b (o_cont x)) (fset D b (o_disk x)) (fset R b (o_refs x)) (fset K b (o_lock x)).
Proof.
  intros [_ Hobs _] [Hok _ Hb Hot _] Hd. split; [done| |done]. intros b'.
  destruct (decide (b' = b)) as [->|Hne].
  - rewrite !fset_eq, Hb. by destruct x.
  - rewrite !fset_ne by done. by rewrite Hot.
Qed.

Lemma bst_refs s Cn D R K b : bst s Cn D R K -> refs s b = R b.
Proof. intros Hs. unfold BioInv.refs. by rewrite (st_obs _ _ _ _ _ Hs). Qed.
Lemma bst_content s Cn D R K b : bst s Cn D R K -> content s b = Cn b.
Proof. intros Hs. unfold BioInv.content. by rewrite (st_obs _ _ _ _ _ Hs). Qed.

Lemma fset_id {A} (f : Z -> A) k b : fset f k (f k) b = f b.
Proof. destruct (decide (b = k)) as [->|]; [by rewrite fset_eq|by rewrite fset_ne]. Qed.

Section ops.
Context (c : cpu) (s : bio) (Cn D : Z -> block) (R : Z -> Z) (K : Z -> sleeplock).
Hypothesis Hst : bst s Cn D R K.
Hypothesis Hc : LBcache ∉ held c.
Hypothesis Hcs : forall i, LSleepBuf i ∉ held c.

Lemma wp_bread' b L (Q : cpu -> bio -> nat -> Prop) :
  K b = unlocked -> R b + 1 < 2147483648 -> (forall b, 0 < R b -> b ∈ L) -> 0 < R b \/ (length L < NBUF)%nat ->
  (forall s' i, bst s' Cn D (fset R b (R b + 1)) (fset K b (mksleep 1 (curpid c))) -> loaded s' b i ->
     stable s s' -> dwrites s' = dwrites s -> Q c s' i) ->
  wp (bread dv b) c s Q.
Proof.
  intros Hk Hr HL Hlen HQ. destruct (st_ok _ _ _ _ _ Hst) as [o Hok].
  pose proof (st_obs _ _ _ _ _ Hst) as Hobs.
  eapply (wp_bread b c s o L); [done|done|done|by rewrite Hobs, Hk|by rewrite (bst_refs _ _ _ _ _ _ Hst)| | |].
  - intros b'. rewrite (bst_refs _ _ _ _ _ _ Hst). apply HL.
  - by rewrite (bst_refs _ _ _ _ _ _ Hst).
  - intros s' i Hu Hd Hw. rewrite (bst_content _ _ _ _ _ _ Hst), (bst_refs _ _ _ _ _ _ Hst), Hobs in Hu.
    eapply HQ; [|apply Hu|apply Hu|done].
    eapply bst_ext; [eapply bst_upd; [exact Hst|exact Hu|]|..]; simpl; intros; rewrite ?fset_id; try done.
    rewrite Hd. apply (st_dsk _ _ _ _ _ Hst).
Qed.

Lemma wp_bwrite' b i (Q : cpu -> bio -> unit -> Prop) :
  loaded s b i -> K b = mksleep 1 (curpid c) -> 0 < R b ->
  (forall s', bst s' Cn (fset D b (Cn b)) R K -> stable s s' -> dwrites s' = (b, Cn b) :: dwrites s -> Q c s' tt) ->
  wp (bwrite i) c s Q.
Proof.
  intros Hl Hk Hr HQ. destruct (st_ok _ _ _ _ _ Hst) as [o Hok].
  pose proof (st_obs _ _ _ _ _ Hst) as Hobs.
  eapply (wp_bwrite c s o b i); [done|done|done| |by rewrite (bst_refs _ _ _ _ _ _ Hst)|].
  { unfold mine. rewrite Hobs. simpl. by rewrite Hk. }
  intros s' Hu _ Hd Hw. rewrite (bst_content _ _ _ _ _ _ Hst) in *. rewrite (bst_refs _ _ _ _ _ _ Hst), Hobs in Hu.
  apply HQ; [|apply Hu|done].
  eapply bst_ext; [eapply bst_upd; [exact Hst|exact Hu|]|..]; simpl; intros; rewrite ?fset_id; try done.
  rewrite Hd. unfold dset, fset. by rewrite (st_dsk _ _ _ _ _ Hst).
Qed.

Lemma wp_write_data' b i d (Q : cpu -> bio -> unit -> Prop) :
  loaded s b i -> 0 < R b ->
  (forall s', bst s' (fset Cn b d) D R K -> stable s s' -> dwrites s' = dwrites s -> Q c s' tt) ->
  wp (write_data i d) c s Q.
Proof.
  intros Hl Hr HQ. destruct (st_ok _ _ _ _ _ Hst) as [o Hok]. pose proof (st_obs _ _ _ _ _ Hst) as Hobs.
  eapply (wp_write_data c s o b i); [done|done|by rewrite (bst_refs _ _ _ _ _ _ Hst)|].
  intros s' Hu _ Hd Hw. rewrite (bst_refs _ _ _ _ _ _ Hst), Hobs in Hu. apply HQ; [|apply Hu|done].
  eapply bst_ext; [eapply bst_upd; [exact Hst|exact Hu|]|..]; simpl; intros; rewrite ?fset_id; try done.
  rewrite Hd. apply (st_dsk _ _ _ _ _ Hst).
Qed.

Lemma wp_bpin' b i (Q : cpu -> bio -> unit -> Prop) :
  loaded s b i -> R b + 1 < 2147483648 ->
  (forall s', bst s' Cn D (fset R b (R b + 1)) K -> stable s s' -> dwrites s' = dwrites s -> Q c s' tt) ->
  wp (bpin i) c s Q.
Proof.
  intros Hl Hr HQ. destruct (st_ok _ _ _ _ _ Hst) as [o Hok]. pose proof (st_obs _ _ _ _ _ Hst) as Hobs.
  eapply (wp_bpin c s o b i); [done|done|done|by rewrite (bst_refs _ _ _ _ _ _ Hst)|].
  intros s' Hu _ Hd Hw. rewrite (bst_content _ _ _ _ _ _ Hst), (bst_refs _ _ _ _ _ _ Hst), Hobs in Hu.
  apply HQ; [|apply Hu|done].
  eapply bst_ext; [eapply bst_upd; [exact Hst|exact Hu|]|..]; simpl; intros; rewrite ?fset_id; try done.
  rewrite Hd. apply (st_dsk _ _ _ _ _ Hst).
Qed.

Lemma wp_bunpin' b i (Q : cpu -> bio -> unit -> Prop) :
  loaded s b i -> 1 < R b ->
  (forall s', bst s' Cn D (fset R b (R b - 1)) K -> stable s s' -> dwrites s' = dwrites s -> Q c s' tt) ->
  wp (bunpin i) c s Q.
Proof.
  intros Hl Hr HQ. destruct (st_ok _ _ _ _ _ Hst) as [o Hok]. pose proof (st_obs _ _ _ _ _ Hst) as Hobs.
  eapply (wp_bunpin c s o b i); [done|done|done|by rewrite (bst_refs _ _ _ _ _ _ Hst)|].
  intros s' Hu _ Hd Hw. rewrite (bst_content _ _ _ _ _ _ Hst), (bst_refs _ _ _ _ _ _ Hst), Hobs in Hu.
  apply HQ; [|apply Hu|done].
  eapply bst_ext; [eapply bst_upd; [exact Hst|exact Hu|]|..]; simpl; intros; rewrite ?fset_id; try done.
  rewrite Hd. apply (st_dsk _ _ _ _ _ Hst).
Qed.

Lemma wp_brelse' b i (Q : cpu -> bio -> unit -> Prop) :
  loaded s b i -> K b = mksleep 1 (curpid c) -> 0 < R b -> (R b = 1 -> Cn b = D b) ->
  (forall c' s', same_cpu c c' -> bst s' Cn D (fset R b (R b - 1)) (fset K b unlocked) -> stable s s' ->
     dwrites s' = dwrites s -> Q c' s' tt) ->
  wp (brelse i) c s Q.
Proof.
  intros Hl Hk Hr Hcl HQ. destruct (st_ok _ _ _ _ _ Hst) as [o Hok]. pose proof (st_obs _ _ _ _ _ Hst) as Hobs.
  eapply (wp_brelse c s o b i); [done|done|done|done| |by rewrite (bst_refs _ _ _ _ _ _ Hst)| |].
  { unfold mine. rewrite Hobs. simpl. by rewrite Hk. }
  { rewrite (bst_content _ _ _ _ _ _ Hst), (bst_refs _ _ _ _ _ _ Hst), Hobs. done. }
  intros c' s' Hcc Hu Hd Hw. rewrite (bst_content _ _ _ _ _ _ Hst), (bst_refs _ _ _ _ _ _ Hst), Hobs in Hu.
  apply HQ; [done| |apply Hu|done].
  eapply bst_ext; [eapply bst_upd; [exact Hst|exact Hu|]|..]; simpl; intros; rewrite ?fset_id; try done.
  rewrite Hd. apply (st_dsk _ _ _ _ _ Hst).
Qed.
End ops.
End spec.

(** * The cache after [binit] *)

(** The buffers of a booted cache: all free, linked from the last to the first. *)
Definition boot_buf (i : nat) : buf :=
  mkbuf 0 0 0 0 unlocked 0 (if Nat.eqb i bhead then 0%nat else S i) (if Nat.eqb i 0 then bhead else pred i) [].

Lemma binit_run d p n w :
  exists s', binit (mkcpu [] p n w 0 []) (bio0 d) = Ret (mkcpu [] p n w 0 []) s' tt /\ dsk s' = d /\ dwrites s' = [] /\
    forall i, (i <= NBUF)%nat -> bufs s' i = boot_buf i.
Proof.
  assert (match binit (mkcpu [] p n w 0 []) (bio0 d) with
    | Ret c s' tt => c = mkcpu [] p n w 0 [] /\ dsk s' = d /\ dwrites s' = [] /\ bufs s' <$> seq 0 31 = boot_buf <$> seq 0 31
    | _ => False end) as H by (vm_compute; auto).
  destruct (binit _ _) as [c s' []|m|ch c s' k|]; try done. destruct H as (-> & Hd & Hw & Hb).
  exists s'. split_and!; try done. intros i Hi. change NBUF with 30%nat in Hi.
  assert ((bufs s' <$> seq 0 31) !! i = (boot_buf <$> seq 0 31) !! i) as He by (by rewrite Hb).
  rewrite !list_lookup_fmap, lookup_seq_lt in He by lia. simpl in He. congruence.
Qed.

Lemma boot_bst dv s d :
  dv <> 0 -> dsk s = d -> (forall i, (i <= NBUF)%nat -> bufs s i = boot_buf i) ->
  bst dv s d d (fun _ => 0) (fun _ => unlocked).
Proof.
  intros Hdv <- Hb.
  assert (forall b i, (i < NBUF)%nat -> has_key dv (bufs s) b i = false) as Hk.
  { intros b i Hi. unfold has_key. rewrite Hb by lia. apply andb_false_iff. left. apply Z.eqb_neq. by apply not_eq_sym. }
  assert (forall b, bfind dv s b = None) as Hf.
  { intros b. destruct (bfind dv s b) as [i|] eqn:E; [|done]. apply bfind_Some in E as [Hi Hki]. by rewrite Hk in Hki. }
  split; [|intros b; unfold obs; by rewrite Hf|done].
  exists (reverse (seq 0 NBUF)). split.
  - split.
    + unfold nxt. rewrite Hb by done.
      eapply (lseg_ext (fun i => b_next (boot_buf i))); [|vm_compute; tauto].
      intros x. rewrite elem_of_reverse, elem_of_seq. intros Hx. by rewrite Hb by lia.
    + unfold prv. rewrite Hb by done. rewrite reverse_involutive.
      eapply (lseg_ext (fun i => b_prev (boot_buf i))); [|vm_compute; tauto].
      intros x. rewrite elem_of_seq. intros Hx. by rewrite Hb by lia.
    + apply reverse_Permutation.
  - intros b i j Hi _ Hki. by rewrite Hk in Hki.
  - intros i Hi. rewrite Hb by lia. split; simpl; [lia|by right|done].
Qed.
