(* ===== verification/Log.v ===== *)
(** The write-ahead log, kernel/log.c.

    The state is the global [log] with the buffer cache under it. The on-disk header is a
    block of little-endian 32-bit words, as [struct logheader] overlaid on [buf->data]. *)
From S2P Require Import Prelude Sleeplock Bio.

Definition LOGSIZE : Z := MAXOPBLOCKS * 3.

(** * Words of a block *)

(** The 32-bit little-endian word at byte offset [off] of a block. *)
Definition get32 (d : block) (off : nat) : Z :=
  default 0 (d !! off) + 256 * default 0 (d !! (off + 1)%nat) +
  65536 * default 0 (d !! (off + 2)%nat) + 16777216 * default 0 (d !! (off + 3)%nat).
Definition put32 (d : block) (off : nat) (v : Z) : block :=
  let v := u32 v in
  <[(off + 3)%nat := v / 16777216]> (<[(off + 2)%nat := v / 65536 mod 256]>
    (<[(off + 1)%nat := v / 256 mod 256]> (<[off := v mod 256]> d))).

(** * The log *)

(** [struct superblock], the fields the log uses are [nlog] and [logstart]. *)
Record superblock := mksb {
  sb_magic : Z; sb_size : Z; sb_nblocks : Z; sb_ninodes : Z; sb_nlog : Z; sb_logstart : Z;
  sb_inodestart : Z; sb_bmapstart : Z }.

(** [struct log], with [lh.n] and [lh.block] in place. *)
Record log := mklog {
  l_start : Z; l_size : Z; l_outstanding : Z; l_committing : Z; l_dev : Z;
  lh_n : Z; lh_block : list Z }.

Record logst := mklogst { lg : log; lbio : bio }.

Definition bio_lens : lens logst bio := mklens lbio (fun b s => mklogst (lg s) b).
Definition upd_log (f : log -> log) : M logst unit := modify (fun s => mklogst (f (lg s)) (lbio s)).

Definition set_outstanding (n : Z) (l : log) : log :=
  mklog (l_start l) (l_size l) n (l_committing l) (l_dev l) (lh_n l) (lh_block l).
Definition set_committing (n : Z) (l : log) : log :=
  mklog (l_start l) (l_size l) (l_outstanding l) n (l_dev l) (lh_n l) (lh_block l).
Definition set_n (n : Z) (l : log) : log :=
  mklog (l_start l) (l_size l) (l_outstanding l) (l_committing l) (l_dev l) n (lh_block l).
Definition set_block (b : list Z) (l : log) : log :=
  mklog (l_start l) (l_size l) (l_outstanding l) (l_committing l) (l_dev l) (lh_n l) b.
Definition set_geometry (start size dev : Z) (l : log) : log :=
  mklog start size (l_outstanding l) (l_committing l) dev (lh_n l) (lh_block l).

(** [log.lh.block[i]]; the array has [LOGSIZE] elements and an access outside it is
    undefined behaviour. *)
Definition block_at (i : Z) : M logst Z := fun c s =>
  match lh_block (lg s) !! Z.to_nat i with
  | Some b => Ret c s b
  | None => Panic "undefined: log.lh.block"
  end.
Definition set_block_at (i v : Z) : M logst unit := fun c s =>
  match lh_block (lg s) !! Z.to_nat i with
  | Some _ => Ret c (mklogst (set_block (<[Z.to_nat i := v]> (lh_block (lg s))) (lg s)) (lbio s)) tt
  | None => Panic "undefined: log.lh.block"
  end.

(** Calls into the buffer cache; the [int]s become [uint]s. *)
Definition lbread (b : Z) : M logst nat :=
  dev <- gets (fun s => l_dev (lg s)) ;; zoom bio_lens (bread (u32 dev) (u32 b)).
Definition ldata (b : nat) : M logst block := gets (fun s => b_data (bufs (lbio s) b)).

Definition install_trans (recovering : Z) : M logst unit :=
  n <- gets (fun s => lh_n (lg s)) ;;
  start <- gets (fun s => l_start (lg s)) ;;
  loop (S (Z.to_nat n)) (fun tail =>
    if tail <? n then
      lbuf <- lbread (start + tail + 1) ;;
      b <- block_at tail ;;
      dbuf <- lbread b ;;
      d <- ldata lbuf ;;
      zoom bio_lens (write_data dbuf d) ;;
      zoom bio_lens (bwrite dbuf) ;;
      (if recovering =? 0 then zoom bio_lens (bunpin dbuf) else ret tt) ;;
      zoom bio_lens (brelse lbuf) ;;
      zoom bio_lens (brelse dbuf) ;;
      ret (inl (tail + 1))
    else ret (inr tt)) 0.

Definition read_head : M logst unit :=
  start <- gets (fun s => l_start (lg s)) ;;
  buf <- lbread start ;;
  lh <- ldata buf ;;
  upd_log (set_n (s32 (get32 lh 0))) ;;
  n <- gets (fun s => lh_n (lg s)) ;;
  loop (S (Z.to_nat n)) (fun i =>
    if i <? n then
      set_block_at i (s32 (get32 lh (4 + 4 * Z.to_nat i))) ;;
      ret (inl (i + 1))
    else ret (inr tt)) 0 ;;
  zoom bio_lens (brelse buf).

Definition write_head : M logst unit :=
  start <- gets (fun s => l_start (lg s)) ;;
  buf <- lbread start ;;
  n <- gets (fun s => lh_n (lg s)) ;;
  hb <- ldata buf ;;
  zoom bio_lens (write_data buf (put32 hb 0 n)) ;;
  loop (S (Z.to_nat n)) (fun i =>
    if i <? n then
      b <- block_at i ;;
      hb <- ldata buf ;;
      zoom bio_lens (write_data buf (put32 hb (4 + 4 * Z.to_nat i) b)) ;;
      ret (inl (i + 1))
    else ret (inr tt)) 0 ;;
  zoom bio_lens (bwrite buf) ;;
  zoom bio_lens (brelse buf).

Definition recover_from_log : M logst unit :=
  read_head ;;
  install_trans 1 ;;
  upd_log (set_n 0) ;;
  write_head.

(** [sizeof(struct logheader)] is 4 + 4 * LOGSIZE. *)
Definition initlog (dev : Z) (sb : superblock) : M logst unit :=
  if 4 + 4 * LOGSIZE >=? BSIZE then panic "initlog: too big logheader" else
  initlock LLog ;;
  upd_log (set_geometry (s32 (sb_logstart sb)) (s32 (sb_nlog sb)) dev) ;;
  recover_from_log.

Definition begin_op : M logst unit :=
  acquire LLog ;;
  sleep_loop (fun _ : unit =>
    l <- gets lg ;;
    if negb (l_committing l =? 0) then sleep ChLog LLog ;; ret (inl tt)
    else if lh_n l + (l_outstanding l + 1) * MAXOPBLOCKS >? LOGSIZE
    then sleep ChLog LLog ;; ret (inl tt)
    else
      upd_log (set_outstanding (l_outstanding l + 1)) ;;
      release LLog ;;
      ret (inr tt)) tt.

Definition write_log : M logst unit :=
  n <- gets (fun s => lh_n (lg s)) ;;
  start <- gets (fun s => l_start (lg s)) ;;
  loop (S (Z.to_nat n)) (fun tail =>
    if tail <? n then
      to <- lbread (start + tail + 1) ;;
      b <- block_at tail ;;
      from <- lbread b ;;
      d <- ldata from ;;
      zoom bio_lens (write_data to d) ;;
      zoom bio_lens (bwrite to) ;;
      zoom bio_lens (brelse from) ;;
      zoom bio_lens (brelse to) ;;
      ret (inl (tail + 1))
    else ret (inr tt)) 0.

Definition commit : M logst unit :=
  n <- gets (fun s => lh_n (lg s)) ;;
  if n >? 0 then
    write_log ;;
    write_head ;;
    install_trans 0 ;;
    upd_log (set_n 0) ;;
    write_head
  else ret tt.

Definition end_op : M logst unit :=
  acquire LLog ;;
  l <- gets lg ;;
  upd_log (set_outstanding (l_outstanding l - 1)) ;;
  l <- gets lg ;;
  if negb (l_committing l =? 0) then panic "log.committing" else
  do_commit <- (if l_outstanding l =? 0
                then upd_log (set_committing 1) ;; ret true
                else wakeup ChLog ;; ret false) ;;
  release LLog ;;
  if (do_commit : bool) then
    commit ;;
    acquire LLog ;;
    upd_log (set_committing 0) ;;
    wakeup ChLog ;;
    release LLog
  else ret tt.

Definition log_write (b : nat) : M logst unit :=
  acquire LLog ;;
  l <- gets lg ;;
  if (lh_n l >=? LOGSIZE) || (lh_n l >=? l_size l - 1) then panic "too big a transaction" else
  if l_outstanding l <? 1 then panic "log_write outside of trans" else
  bn <- gets (fun s => b_blockno (bufs (lbio s) b)) ;;
  i <- loop (S (Z.to_nat (lh_n l))) (fun i =>
    if i <? lh_n l then
      x <- block_at i ;;
      if u32 x =? bn then ret (inr i) else ret (inl (i + 1))
    else ret (inr i)) 0 ;;
  set_block_at i (s32 bn) ;;
  (if i =? lh_n l then
     zoom bio_lens (bpin b) ;;
     upd_log (set_n (lh_n l + 1))
   else ret tt) ;;
  release LLog.
