(* ===== verification/LogPure.v ===== *)
(** Disks with a log: the header block, the logical contents a disk stands for, and the
    effect on them of every prefix of the writes of a commit or a recovery. No operation of
    the cache is involved here: a disk is a function and a run is its list of writes. *)
From S2P Require Import Prelude Sleeplock Bio BioSpec Log.

(** * The header block *)

Lemma length_put32 d off v : length (put32 d off v) = length d.
Proof. unfold put32. by rewrite !length_insert. Qed.

Lemma put32_ne d off v k : (k < off \/ off + 4 <= k)%nat -> put32 d off v !! k = d !! k.
Proof. intros Hk. unfold put32. rewrite !list_lookup_insert_ne by lia. done. Qed.

Lemma get32_put32_ne d off v off' :
  (off' + 4 <= off \/ off + 4 <= off')%nat -> get32 (put32 d off v) off' = get32 d off'.
Proof. intros Ho. unfold get32. rewrite !put32_ne by lia. done. Qed.

Lemma get32_put32 d off v : (off + 4 <= length d)%nat -> get32 (put32 d off v) off = u32 v.
Proof.
  intros Hl. unfold get32, put32. pose proof (u32_range v).
  rewrite list_lookup_insert_ne by lia. rewrite list_lookup_insert_ne by lia. rewrite list_lookup_insert_ne by lia.
  rewrite list_lookup_insert_eq by lia.
  rewrite (list_lookup_insert_ne _ (off + 3)) by lia. rewrite (list_lookup_insert_ne _ (off + 2)) by lia.
  rewrite list_lookup_insert_eq by (rewrite ?length_insert; lia).
  rewrite (list_lookup_insert_ne _ (off + 3)) by lia.
  rewrite list_lookup_insert_eq by (rewrite ?length_insert; lia).
  rewrite list_lookup_insert_eq by (rewrite ?length_insert; lia). simpl. dlia.
Qed.

(** The block numbers a header lists. *)
Definition hdr_n (d : block) : Z := s32 (get32 d 0).
Definition hdr (d : block) : list Z :=
  (fun i => s32 (get32 d (4 + 4 * i))) <$> seq 0 (Z.to_nat (hdr_n d)).

(** The header [write_head] stores over [d]. *)
Fixpoint put_blocks (d : block) (i : nat) (bs : list Z) : block :=
  match bs with
  | [] => d
  | b :: bs' => put_blocks (put32 d (4 + 4 * i) b) (S i) bs'
  end.
Definition enc_hdr (d : block) (bs : list Z) : block :=
  put_blocks (put32 d 0 (Z.of_nat (length bs))) 0 bs.

Lemma length_put_blocks d i bs : length (put_blocks d i bs) = length d.
Proof. revert d i. induction bs as [|b bs IH]; intros; simpl; [done|]. by rewrite IH, length_put32. Qed.

Lemma get32_put_blocks_low d i bs off :
  (off + 4 <= 4 + 4 * i)%nat -> get32 (put_blocks d i bs) off = get32 d off.
Proof.
  revert d i. induction bs as [|b bs IH]; intros d i Ho; simpl; [done|].
  rewrite IH by lia. apply get32_put32_ne. lia.
Qed.

Lemma get32_put_blocks d i bs k b :
  (4 + 4 * (i + length bs) <= length d)%nat -> bs !! k = Some b ->
  get32 (put_blocks d i bs) (4 + 4 * (i + k)) = u32 b.
Proof.
  revert d i k. induction bs as [|x bs IH]; intros d i k Hl Hk; [done|]. cbn [put_blocks length] in *.
  destruct k as [|k].
  - injection Hk as ->. rewrite get32_put_blocks_low by lia. rewrite Nat.add_0_r. apply get32_put32. lia.
  - replace (4 + 4 * (i + S k))%nat with (4 + 4 * (S i + k))%nat by lia. apply IH; [|done].
    rewrite length_put32. lia.
Qed.

Lemma s32_u32 x : -2147483648 <= x < 2147483648 -> s32 (u32 x) = x.
Proof.
  intros Hx. unfold s32, u32. rewrite Zplus_mod_idemp_l. rewrite Z.mod_small; lia.
Qed.

Lemma put_blocks_snoc d i bs b :
  put_blocks d i (bs ++ [b]) = put32 (put_blocks d i bs) (4 + 4 * (i + length bs)) b.
Proof.
  revert d i. induction bs as [|x bs IH]; intros d i; cbn [put_blocks app length]; [by rewrite Nat.add_0_r|].
  rewrite IH. do 2 f_equal. lia.
Qed.

(** Block numbers and lengths that fit a header. *)
Definition hdr_fits (d : block) (bs : list Z) : Prop :=
  length d = Z.to_nat BSIZE /\ (length bs <= 30)%nat /\ Forall (fun b => 0 <= b < 2147483648) bs.

Lemma hdr_enc d bs : hdr_fits d bs -> hdr_n (enc_hdr d bs) = Z.of_nat (length bs) /\ hdr (enc_hdr d bs) = bs.
Proof.
  intros (Hd & Hn & Hb). change (Z.to_nat BSIZE) with 1024%nat in Hd.
  assert (hdr_n (enc_hdr d bs) = Z.of_nat (length bs)) as Hlen.
  { unfold hdr_n, enc_hdr. rewrite get32_put_blocks_low, get32_put32 by lia. apply s32_u32. lia. }
  split; [done|]. unfold hdr. rewrite Hlen, Nat2Z.id.
  apply list_eq_same_length with (length bs); [done|by rewrite length_fmap, length_seq|].
  intros i x y Hi Hx Hy. rewrite list_lookup_fmap, lookup_seq_lt in Hx by done.
  rewrite Nat.add_0_l in Hx. cbn [fmap option_fmap option_map] in Hx. apply (inj Some) in Hx. subst x.
  unfold enc_hdr. pose proof (get32_put_blocks (put32 d 0 (Z.of_nat (length bs))) 0 bs i y) as Hg.
  change (0 + i)%nat with i in Hg. change (0 + length bs)%nat with (length bs) in Hg. rewrite Hg; [|rewrite length_put32; lia|done]. apply s32_u32.
  eapply Forall_lookup_1 in Hb; [|done]. simpl in Hb. lia.
Qed.

Lemma hdr_zero d : length d = Z.to_nat BSIZE -> hdr (put32 d 0 0) = [].
Proof.
  intros Hd. change (Z.to_nat BSIZE) with 1024%nat in Hd. unfold hdr, hdr_n. rewrite get32_put32 by lia. done.
Qed.

(** * Writes *)

Definition fsets (f : Z -> block) (ws : list (Z * block)) : Z -> block :=
  foldl (fun f w => fset f w.1 w.2) f ws.

Lemma fsets_app f w1 w2 b : fsets f (w1 ++ w2) b = fsets (fsets f w1) w2 b.
Proof. unfold fsets. by rewrite foldl_app. Qed.

Lemma fsets_snoc f ws k v : fsets f (ws ++ [(k, v)]) = fset (fsets f ws) k v.
Proof. unfold fsets. by rewrite foldl_app. Qed.

Lemma fsets_out f ws b : b ∉ ws.*1 -> fsets f ws b = f b.
Proof.
  revert f. induction ws as [|[k v] ws IH]; intros f Hn; simpl; [done|].
  apply not_elem_of_cons in Hn as [Hne Hn]. unfold fsets in *. simpl. rewrite IH by done. by apply fset_ne.
Qed.

Lemma fsets_in f ws i b v : NoDup ws.*1 -> ws !! i = Some (b, v) -> fsets f ws b = v.
Proof.
  revert f i. induction ws as [|[k x] ws IH]; intros f i Hd Hi; simpl in *; [done|].
  apply NoDup_cons in Hd as [Hn Hd]. destruct i as [|i]; simpl in Hi.
  - injection Hi as -> ->. change (fsets (fset f b v) ws b = v). rewrite fsets_out by done. apply fset_eq.
  - unfold fsets. simpl. by eapply (IH _ i).
Qed.

Lemma fsets_ext f f' ws b : (forall x, f x = f' x) -> fsets f ws b = fsets f' ws b.
Proof.
  revert f f'. induction ws as [|[k v] ws IH]; intros f f' He; simpl; [apply He|].
  unfold fsets in *. simpl. apply IH. intros x. unfold fset. by rewrite He.
Qed.

(** A block is as it was or as one of the writes left it. *)
Lemma fsets_cases f ws b : fsets f ws b = f b \/ exists v, (b, v) ∈ ws /\ fsets f ws b = v.
Proof.
  induction ws as [|[k v] ws IH] using rev_ind; [by left|]. rewrite fsets_snoc.
  destruct (decide (b = k)) as [->|Hne].
  - right. exists v. rewrite fset_eq. split; [set_solver|done].
  - rewrite fset_ne by done. destruct IH as [->|(v' & Hin & ->)]; [by left|right; exists v'; set_solver].
Qed.

(** The same writes make two disks agree on the blocks written. *)
Lemma fsets_agree f g ws b : b ∈ ws.*1 \/ f b = g b -> fsets f ws b = fsets g ws b.
Proof.
  induction ws as [|[k v] ws IH] using rev_ind; [by intros [?%not_elem_of_nil|?]|]. rewrite !fsets_snoc.
  intros Hb. destruct (decide (b = k)) as [->|Hne]; [by rewrite !fset_eq|]. rewrite !fset_ne by done.
  apply IH. rewrite fmap_app in Hb. set_solver.
Qed.

(** * What a disk stands for *)

Section disk.
Context (start size : Z).

(** Blocks outside the log. *)
Definition home (b : Z) : Prop := ~ (start <= b < start + size).

(** A block listed in the header is in the log, at the position of its entry. *)
Definition logical (D : Z -> block) (b : Z) : block :=
  match list_find (fun x => x = b) (hdr (D start)) with
  | Some (t, _) => D (start + 1 + Z.of_nat t)
  | None => D b
  end.

(** A list of blocks a header can hold and the log has room for. *)
Record trans_ok (bs : list Z) : Prop := {
  tr_dup : NoDup bs;
  tr_home : Forall home bs;
  tr_range : Forall (fun b => 0 <= b < 2147483648) bs;
  tr_len : (length bs <= 30)%nat;
  tr_size : Z.of_nat (length bs) + 1 <= size;
}.

Definition slot_writes (Cn : Z -> block) (bs : list Z) : list (Z * block) :=
  imap (fun t b => (start + 1 + Z.of_nat t, Cn b)) bs.
Definition home_writes (Cn : Z -> block) (bs : list Z) : list (Z * block) := (fun b => (b, Cn b)) <$> bs.

(** The writes of a commit, in order. *)
Definition commit_writes (Cn : Z -> block) (hb : block) (bs : list Z) : list (Z * block) :=
  slot_writes Cn bs ++ [(start, enc_hdr hb bs)] ++ home_writes Cn bs ++ [(start, put32 (enc_hdr hb bs) 0 0)].

(** The writes of a recovery. *)
Definition recover_writes (D : Z -> block) : list (Z * block) :=
  home_writes (logical D) (hdr (D start)) ++ [(start, put32 (D start) 0 0)].

Lemma logical_empty D b : hdr (D start) = [] -> logical D b = D b.
Proof. intros He. unfold logical. by rewrite He. Qed.

Lemma list_find_eq (bs : list Z) t b :
  NoDup bs -> bs !! t = Some b -> list_find (fun x => x = b) bs = Some (t, b).
Proof.
  intros Hd Ht. apply list_find_Some. split_and!; [done|done|].
  intros j y Hj Hlt ->. assert (j = t); [|lia]. by eapply NoDup_lookup.
Qed.

Lemma logical_in D bs t b :
  hdr (D start) = bs -> NoDup bs -> bs !! t = Some b -> logical D b = D (start + 1 + Z.of_nat t).
Proof. intros Hh Hd Ht. unfold logical. rewrite Hh. by erewrite list_find_eq. Qed.

Lemma logical_out D bs b : hdr (D start) = bs -> b ∉ bs -> logical D b = D b.
Proof.
  intros Hh Hn. unfold logical. rewrite Hh.
  assert (list_find (fun x => x = b) bs = None) as ->; [|done].
  apply list_find_None, Forall_forall. by intros x Hx ->.
Qed.

Lemma slot_writes_fst Cn bs : (slot_writes Cn bs).*1 = imap (fun t _ => start + 1 + Z.of_nat t) bs.
Proof. unfold slot_writes. rewrite fmap_imap. done. Qed.

Lemma home_writes_fst Cn bs : (home_writes Cn bs).*1 = bs.
Proof. unfold home_writes. rewrite <- list_fmap_compose. by apply list_fmap_id. Qed.

Lemma elem_of_slots Cn bs k x : x ∈ (take k (slot_writes Cn bs)).*1 -> start + 1 <= x < start + 1 + Z.of_nat (length bs).
Proof.
  rewrite fmap_take, slot_writes_fst. intros (i & Hi)%list_elem_of_lookup.
  apply lookup_take_Some in Hi as [Hi _]. rewrite list_lookup_imap in Hi.
  destruct (bs !! i) as [b|] eqn:Hb; [|done]. simpl in Hi. injection Hi as <-.
  apply lookup_lt_Some in Hb. lia.
Qed.

Lemma slots_dup Cn bs : NoDup (slot_writes Cn bs).*1.
Proof.
  rewrite slot_writes_fst. apply NoDup_alt. intros i j x. rewrite !list_lookup_imap.
  destruct (bs !! i), (bs !! j); simpl; try done. intros [= <-] [= He]. lia.
Qed.

Lemma slots_lookup Cn bs t b : bs !! t = Some b ->
  slot_writes Cn bs !! t = Some (start + 1 + Z.of_nat t, Cn b).
Proof. intros Hb. unfold slot_writes. by rewrite list_lookup_imap, Hb. Qed.

Lemma length_slots Cn bs : length (slot_writes Cn bs) = length bs.
Proof. apply length_imap. Qed.
Lemma length_homes Cn bs : length (home_writes Cn bs) = length bs.
Proof. apply length_fmap. Qed.

Lemma homes_sub Cn bs k x : x ∈ (take k (home_writes Cn bs)).*1 -> x ∈ bs.
Proof.
  rewrite fmap_take, home_writes_fst. intros (i & Hi)%list_elem_of_lookup.
  apply lookup_take_Some in Hi as [Hi _]. by eapply list_elem_of_lookup_2.
Qed.

Lemma homes_value f Cn bs b : NoDup bs -> b ∈ bs -> fsets f (home_writes Cn bs) b = Cn b.
Proof.
  intros Hd (t & Ht)%list_elem_of_lookup. eapply (fsets_in _ _ t); [by rewrite home_writes_fst|].
  unfold home_writes. by rewrite list_lookup_fmap, Ht.
Qed.

(** The block [b] after the transaction [bs] with contents [Cn]. *)
Definition after (D Cn : Z -> block) (bs : list Z) (b : Z) : block :=
  if decide (b ∈ bs) then Cn b else D b.

Section trans.
Context (bs : list Z).
Hypothesis Htr : trans_ok bs.

Lemma start_not_in : start ∉ bs.
Proof.
  intros Hin. pose proof (tr_home _ Htr) as Hf. rewrite Forall_forall in Hf.
  apply (Hf start Hin). pose proof (tr_size _ Htr). lia.
Qed.

Lemma slot_not_in t : (t < length bs)%nat -> start + 1 + Z.of_nat t ∉ bs.
Proof.
  intros Ht Hin. pose proof (tr_home _ Htr) as Hf. rewrite Forall_forall in Hf.
  apply (Hf _ Hin). pose proof (tr_size _ Htr). lia.
Qed.

End trans.

Section commit.
Context (D Cn : Z -> block) (bs : list Z) (hb : block).
Hypothesis Htr : trans_ok bs.
Hypothesis Hh0 : hdr (D start) = [].
Hypothesis Hhb : length hb = Z.to_nat BSIZE.

(** A crash before the header is written: nothing happened. *)
Lemma crash_before k b : home b -> logical (fsets D (take k (slot_writes Cn bs))) b = D b.
Proof.
  intros Hb. pose proof (tr_size _ Htr) as Hs.
  assert (forall x, x = start \/ home x -> fsets D (take k (slot_writes Cn bs)) x = D x) as Ho.
  { intros x Hx. apply fsets_out. intros Hin%elem_of_slots. unfold home in Hx. lia. }
  rewrite logical_empty by (by rewrite Ho by (by left)). apply Ho. by right.
Qed.

(** A crash after the header and some of the installs: all of it happened. *)
Lemma crash_middle k b : home b ->
  logical (fsets (fsets D (slot_writes Cn bs ++ [(start, enc_hdr hb bs)])) (take k (home_writes Cn bs))) b =
  after D Cn bs b.
Proof.
  intros Hb. pose proof (tr_size _ Htr) as Hs. set (D1 := fsets D (slot_writes Cn bs ++ [(start, enc_hdr hb bs)])).
  assert (forall x, x ∉ bs -> fsets D1 (take k (home_writes Cn bs)) x = D1 x) as Ho.
  { intros x Hx. apply fsets_out. by intros ?%homes_sub. }
  assert (forall x, D1 x = fset (fsets D (slot_writes Cn bs)) start (enc_hdr hb bs) x) as HD1
    by (intros x; unfold D1; by rewrite fsets_snoc).
  assert (hdr (fsets D1 (take k (home_writes Cn bs)) start) = bs) as Hhdr.
  { rewrite Ho by (by apply start_not_in). rewrite HD1, fset_eq. apply hdr_enc. split_and!; [done|apply Htr|apply Htr]. }
  unfold after. case_decide as Hin.
  - apply list_elem_of_lookup in Hin as [t Ht]. pose proof (lookup_lt_Some _ _ _ Ht) as Hlt.
    rewrite (logical_in _ bs t) by (done || apply Htr). rewrite Ho by (by apply slot_not_in).
    rewrite HD1, fset_ne by lia. eapply (fsets_in _ _ t); [apply slots_dup|by apply slots_lookup].
  - rewrite (logical_out _ bs) by done. rewrite Ho by done. rewrite HD1, fset_ne.
    + apply fsets_out. rewrite <- (firstn_all (slot_writes Cn bs)). intros Hx%elem_of_slots. unfold home in Hb. lia.
    + unfold home in Hb. lia.
Qed.

(** A crash after the header was cleared. *)
Lemma crash_after b : home b -> logical (fsets D (commit_writes Cn hb bs)) b = after D Cn bs b.
Proof.
  intros Hb. pose proof (tr_size _ Htr) as Hs. unfold commit_writes. rewrite app_assoc, app_assoc.
  rewrite fsets_snoc. set (D1 := fsets D (slot_writes Cn bs ++ [(start, enc_hdr hb bs)])).
  assert (length (enc_hdr hb bs) = Z.to_nat BSIZE) as Hl
    by (unfold enc_hdr; by rewrite length_put_blocks, length_put32).
  rewrite logical_empty by (rewrite fset_eq; by apply hdr_zero).
  rewrite fset_ne by (unfold home in Hb; lia). rewrite fsets_app. fold D1. unfold after. case_decide as Hin.
  - apply homes_value; [apply Htr|done].
  - rewrite fsets_out by (by rewrite home_writes_fst). unfold D1. rewrite fsets_snoc, fset_ne by (unfold home in Hb; lia).
    apply fsets_out. rewrite <- (firstn_all (slot_writes Cn bs)). intros Hx%elem_of_slots. unfold home in Hb. lia.
Qed.

(** Every crash point of a commit: the old state up to the header write, the new one from
    then on. *)
Lemma crash_any k b : home b ->
  logical (fsets D (take k (commit_writes Cn hb bs))) b =
  if decide (k <= length bs)%nat then D b else after D Cn bs b.
Proof.
  intros Hb. unfold commit_writes. case_decide as Hk.
  - rewrite take_app_le by (rewrite length_slots; lia). by apply crash_before.
  - rewrite app_assoc. rewrite take_app, length_app, length_slots. rewrite (take_ge (slot_writes Cn bs ++ _))
      by (rewrite length_app, length_slots; simpl; lia).
    replace (k - (length bs + length [(start, enc_hdr hb bs)]))%nat with (k - S (length bs))%nat by (simpl; lia).
    destruct (decide (k - S (length bs) <= length bs)%nat) as [Hle|Hgt].
    + rewrite take_app_le by (rewrite length_homes; lia).
      transitivity (logical (fsets (fsets D (slot_writes Cn bs ++ [(start, enc_hdr hb bs)])) (take (k - S (length bs)) (home_writes Cn bs))) b);
        [|by apply crash_middle].
      unfold fsets. by rewrite !foldl_app.
    + rewrite take_ge by (rewrite length_app, length_homes; simpl; lia). rewrite <- app_assoc. by apply crash_after.
Qed.

(** The header is one the commit wrote, or the old one. *)
Lemma crash_start k :
  let h := fsets D (take k (commit_writes Cn hb bs)) start in
  h = D start \/ h = enc_hdr hb bs \/ h = put32 (enc_hdr hb bs) 0 0.
Proof.
  simpl. destruct (fsets_cases D (take k (commit_writes Cn hb bs)) start) as [->|(v & Hin & ->)]; [by left|]. right.
  assert ((start, v) ∈ commit_writes Cn hb bs) as Hw.
  { apply elem_of_take in Hin as (i & Hi & _). by eapply list_elem_of_lookup_2. }
  unfold commit_writes in Hw. rewrite !elem_of_app, !list_elem_of_singleton in Hw.
  destruct Hw as [Hw|[[= ->]|[Hw|[= ->]]]]; [|by left| |by right]; exfalso.
  - apply (list_elem_of_fmap_2 fst) in Hw. simpl in Hw. rewrite <- (firstn_all (slot_writes Cn bs)) in Hw.
    apply elem_of_slots in Hw. lia.
  - apply (list_elem_of_fmap_2 fst) in Hw. simpl in Hw. rewrite home_writes_fst in Hw. by eapply start_not_in.
Qed.
End commit.

(** A header that lists a transaction the log can hold. *)
Record header_ok (h : block) : Prop := {
  dk_tr : trans_ok (hdr h);
  dk_n : 0 <= hdr_n h;
  dk_len : length h = Z.to_nat BSIZE;
}.
(** A disk with such a header. *)
Definition disk_ok (D : Z -> block) : Prop := header_ok (D start).

Lemma trans_ok_nil : 1 <= size -> trans_ok [].
Proof. intros. split; simpl; try constructor; lia. Qed.

Lemma hdr_n_nil d : hdr_n d = 0 -> hdr d = [].
Proof. intros Hd. unfold hdr. by rewrite Hd. Qed.

Lemma hdr_n_zero d : length d = Z.to_nat BSIZE -> hdr_n (put32 d 0 0) = 0.
Proof. intros Hd. change (Z.to_nat BSIZE) with 1024%nat in Hd. unfold hdr_n. rewrite get32_put32 by lia. done. Qed.

Lemma length_enc_hdr d bs : length (enc_hdr d bs) = length d.
Proof. unfold enc_hdr. by rewrite length_put_blocks, length_put32. Qed.

Lemma header_ok_nil h : 1 <= size -> hdr_n h = 0 -> length h = Z.to_nat BSIZE -> header_ok h.
Proof. intros Hs Hn Hl. split; [|lia|done]. rewrite hdr_n_nil by done. by apply trans_ok_nil. Qed.

(** Every crash during a commit leaves such a disk. *)
Lemma crash_disk_ok D Cn bs hb k :
  trans_ok bs -> hdr_n (D start) = 0 -> length (D start) = Z.to_nat BSIZE -> length hb = Z.to_nat BSIZE ->
  disk_ok (fsets D (take k (commit_writes Cn hb bs))).
Proof.
  intros Htr Hn Hd Hhb. pose proof (tr_size _ Htr). unfold disk_ok.
  assert (length (enc_hdr hb bs) = Z.to_nat BSIZE) as Hl by (by rewrite length_enc_hdr).
  destruct (hdr_enc hb bs) as [Hen Heb]; [split_and!; [done|apply Htr|apply Htr]|].
  destruct (crash_start D Cn bs hb Htr Hhb k) as [-> | [-> | ->]].
  - apply header_ok_nil; [lia|done|done].
  - split; [by rewrite Heb|lia|done].
  - apply header_ok_nil; [lia|by apply hdr_n_zero|by rewrite length_put32].
Qed.

Section recover.
Context (D : Z -> block).
Hypothesis Htr : trans_ok (hdr (D start)).
Hypothesis Hlen : length (D start) = Z.to_nat BSIZE.

(** Recovery leaves every block as the disk said it is, and clears the header. *)
Lemma recover_final b : home b -> fsets D (recover_writes D) b = logical D b.
Proof.
  intros Hb. unfold recover_writes. pose proof (tr_size _ Htr).
  rewrite fsets_snoc, fset_ne by (unfold home in Hb; lia).
  destruct (decide (b ∈ hdr (D start))) as [Hin|Hin].
  - apply homes_value; [apply Htr|done].
  - rewrite fsets_out by (by rewrite home_writes_fst). symmetry. by apply (logical_out _ (hdr (D start))).
Qed.

Lemma recover_hdr : hdr (fsets D (recover_writes D) start) = [].
Proof. unfold recover_writes. rewrite fsets_snoc, fset_eq. by apply hdr_zero. Qed.

(** A crash during recovery loses nothing: recovery can be repeated. *)
Lemma recover_crash k b : home b -> logical (fsets D (take k (recover_writes D))) b = logical D b.
Proof.
  intros Hb. pose proof (tr_size _ Htr) as Hs. unfold recover_writes.
  destruct (decide (k <= length (hdr (D start)))%nat) as [Hle|Hgt].
  - rewrite take_app_le by (rewrite length_homes; lia). set (ws := take k _).
    assert (forall x, x ∉ hdr (D start) -> fsets D ws x = D x) as Ho.
    { intros x Hx. apply fsets_out. by intros ?%homes_sub. }
    assert (hdr (fsets D ws start) = hdr (D start)) as Hh by (rewrite Ho; [done|by apply start_not_in]).
    destruct (decide (b ∈ hdr (D start))) as [Hin|Hin].
    + apply list_elem_of_lookup in Hin as [t Ht]. pose proof (lookup_lt_Some _ _ _ Ht) as Hlt.
      rewrite (logical_in _ (hdr (D start)) t), (logical_in D (hdr (D start)) t) by (done || apply Htr).
      apply Ho. by apply slot_not_in.
    + rewrite (logical_out _ (hdr (D start))), (logical_out D (hdr (D start))) by done. by apply Ho.
  - rewrite take_ge by (rewrite length_app, length_homes; simpl; lia). fold (recover_writes D).
    rewrite logical_empty by apply recover_hdr. by apply recover_final.
Qed.

Lemma recover_disk_ok k : 1 <= size -> disk_ok D -> disk_ok (fsets D (take k (recover_writes D))).
Proof.
  intros Hs [_ Hn _]. unfold disk_ok.
  destruct (fsets_cases D (take k (recover_writes D)) start) as [->|(v & Hin & ->)]; [done|].
  assert ((start, v) ∈ recover_writes D) as Hw.
  { apply elem_of_take in Hin as (i & Hi & _). by eapply list_elem_of_lookup_2. }
  unfold recover_writes in Hw. rewrite elem_of_app, list_elem_of_singleton in Hw. destruct Hw as [Hw|[= ->]].
  - exfalso. apply (list_elem_of_fmap_2 fst) in Hw. simpl in Hw. rewrite home_writes_fst in Hw. by eapply start_not_in.
  - apply header_ok_nil; [done|by apply hdr_n_zero|by rewrite length_put32].
Qed.
End recover.
End disk.
