(* ===== verification/LogSpec.v ===== *)
(** Specification of the log: what [write_log], [write_head], [install_trans], [commit] and
    recovery do to the cache and the disk, with the exact sequence of disk writes. *)
From S2P Require Import Prelude Sleeplock Bio BioInv BioSpec Log LogPure.

#[local] Arguments loop : simpl never.
#[local] Arguments Nat.mul : simpl never.
#[local] Arguments Nat.add : simpl never.

Definition cpu_ok (c : cpu) : Prop := (LBcache ∉ held c) /\ forall i, LSleepBuf i ∉ held c.

Lemma same_cpu_ok c c' : same_cpu c c' -> cpu_ok c -> cpu_ok c'.
Proof. intros [Hh _] Hc. unfold cpu_ok. by rewrite Hh. Qed.

(** No buffer is locked. *)
Definition nolock : Z -> sleeplock := fun _ => unlocked.

(** Simplify lookups in updated functions. *)
Ltac fsx := repeat first [rewrite fset_eq | rewrite fset_ne by (done || lia)].
(** A buffer still referenced is still loaded after the step [Hsb] from the state of [Hst]. *)
Ltac still Hst Hsb H :=
  eapply loaded_stable in H; [|exact Hsb|rewrite (bst_refs _ _ _ _ _ _ _ Hst); fsx; lia].
(** Two descriptions of the cache agree block by block. *)
Ltac bst_agree Hst :=
  eapply bst_ext; [exact Hst|..]; intros ?x; unfold fset, nolock;
  repeat case_match; rewrite ?Z.eqb_eq, ?Z.eqb_neq in *; subst; try done; try lia.

Section logspec.
Context (dv start size : Z).
Hypothesis Hdv : 0 <= dv < 4294967296.
Hypothesis Hstart : 0 <= start.
Hypothesis Hsize : start + size < 2147483648.

Abbreviation bst := (bst dv).
Abbreviation loaded := (loaded dv).
Abbreviation stable := (stable dv).

(** The log's position and device are set. *)
Definition log_at (l : log) : Prop := l_start l = start /\ l_dev l = dv.

Lemma wp_lbread b c s Cn D R K L (Q : cpu -> logst -> nat -> Prop) :
  cpu_ok c -> l_dev (lg s) = dv -> 0 <= b < 4294967296 -> bst (lbio s) Cn D R K -> K b = unlocked ->
  R b + 1 < 2147483648 -> (forall b, 0 < R b -> b ∈ L) -> 0 < R b \/ (length L < NBUF)%nat ->
  (forall s' i, bst (lbio s') Cn D (fset R b (R b + 1)) (fset K b (mksleep 1 (curpid c))) ->
     loaded (lbio s') b i -> stable (lbio s) (lbio s') -> dwrites (lbio s') = dwrites (lbio s) ->
     lg s' = lg s -> Q c s' i) ->
  wp (lbread b) c s Q.
Proof.
  intros [Hc Hcs] Hd Hb Hst Hk Hr HL Hlen HQ. unfold lbread. wp_steps. rewrite Hd, !u32_small by lia.
  apply wp_zoom. eapply (wp_bread' dv c (lbio s)); try done. intros b' i ????. by apply HQ.
Qed.

Lemma same_cpu_pid c c' : same_cpu c c' -> curpid c' = curpid c.
Proof. by intros (_ & ? & _). Qed.

Lemma wp_block_at t b c s (Q : cpu -> logst -> Z -> Prop) :
  lh_block (lg s) !! Z.to_nat t = Some b -> Q c s b -> wp (block_at t) c s Q.
Proof. intros Hb HQ. unfold wp, block_at. by rewrite Hb. Qed.

(** ** The steps of [write_log] and [install_trans] *)

Section copy.
Context (c : cpu) (s : logst) (Cn D : Z -> block) (R : Z -> Z) (L : list Z) (slot t b : Z).
Hypothesis Hc : cpu_ok c.
Hypothesis Hat : log_at (lg s).
Hypothesis Hst : bst (lbio s) Cn D R nolock.
Hypothesis Hslot : 0 <= slot < 4294967296.
Hypothesis Hb : 0 <= b < 4294967296.
Hypothesis Hbt : lh_block (lg s) !! Z.to_nat t = Some b.
Hypothesis Hne : slot <> b.
Hypothesis HRs : R slot = 0.
Hypothesis HL : forall b, 0 < R b -> b ∈ L.

(** Copy a cached block to its log slot. *)
Lemma wp_copy_out (Q : cpu -> logst -> Z + unit -> Prop) (r : Z + unit) :
  0 < R b < 1000 -> (length L < NBUF)%nat ->
  (forall c' s', same_cpu c c' -> lg s' = lg s ->
     bst (lbio s') (fset Cn slot (Cn b)) (fset D slot (Cn b)) R nolock ->
     dwrites (lbio s') = (slot, Cn b) :: dwrites (lbio s) -> Q c' s' r) ->
  wp (to <- lbread slot ;;
      x <- block_at t ;;
      from <- lbread x ;;
      d <- ldata from ;;
      zoom bio_lens (write_data to d) ;;
      zoom bio_lens (bwrite to) ;;
      zoom bio_lens (brelse from) ;;
      zoom bio_lens (brelse to) ;;
      ret r) c s Q.
Proof.
  intros HRb HlenL HQ. destruct Hat as [_ Hdev]. destruct (Hc) as [Hcb Hcs]. wp_step.
  eapply (wp_lbread slot c s Cn D R nolock L); [done|done|done|done|done|lia|done|by right|].
  intros s1 i1 Hst1 Hl1 _ Hw1 Hg1. rewrite HRs in Hst1.
  wp_step. apply (wp_block_at t b); [by rewrite Hg1|]. wp_step.
  eapply (wp_lbread b c s1 Cn D _ _ (slot :: L)); [done|by rewrite Hg1|done|exact Hst1|by fsx|fsx; lia| |left; fsx; lia|].
  { intros x. destruct (decide (x = slot)) as [->|Hx]; [set_solver|]. fsx. intros ?%HL. set_solver. }
  intros s2 i2 Hst2 Hl2 Hsb2 Hw2 Hg2. rewrite (fset_ne _ _ _ b) in Hst2 by done. still Hst1 Hsb2 Hl1.
  unfold ldata. wp_step. wp_step. rewrite (loaded_content _ _ _ _ Hl2), (bst_content _ _ _ _ _ _ _ Hst2).
  wp_step. apply wp_zoom. eapply (wp_write_data' dv c _ _ _ _ _ Hst2 slot); [done|fsx; lia|].
  intros b3 Hst3 Hsb3 Hw3. simpl. still Hst2 Hsb3 Hl1. still Hst2 Hsb3 Hl2.
  wp_step. apply wp_zoom. eapply (wp_bwrite' dv c _ _ _ _ _ Hst3 Hcs slot); [exact Hl1|by fsx|fsx; lia|].
  intros b4 Hst4 Hsb4 Hw4. simpl. rewrite fset_eq in Hst4, Hw4. still Hst3 Hsb4 Hl1. still Hst3 Hsb4 Hl2.
  wp_step. apply wp_zoom.
  eapply (wp_brelse' dv c _ _ _ _ _ Hst4 Hcb Hcs b); [exact Hl2|by fsx|fsx; lia|fsx; lia|].
  intros c5 b5 Hcc5 Hst5 Hsb5 Hw5. simpl. still Hst4 Hsb5 Hl1.
  destruct (same_cpu_ok _ _ Hcc5 Hc) as [Hcb5 Hcs5].
  wp_step. apply wp_zoom.
  eapply (wp_brelse' dv c5 _ _ _ _ _ Hst5 Hcb5 Hcs5 slot);
    [exact Hl1|fsx; by rewrite (same_cpu_pid _ _ Hcc5)|fsx; lia|intros _; by fsx|].
  intros c6 b6 Hcc6 Hst6 _ Hw6. wp_steps. eapply HQ; [by eapply same_cpu_trans|simpl; congruence| |simpl; congruence].
  simpl. bst_agree Hst6.
Qed.

(** Copy a log slot to its home block; [rec] says whether this is a recovery, when the home
    block is not pinned. *)
Lemma wp_copy_in (rec : Z) (Q : cpu -> logst -> Z + unit -> Prop) (r : Z + unit) :
  Cn slot = D slot -> 0 <= R b < 1000 ->
  (if rec =? 0 then 0 < R b else True) -> (S (length L) < NBUF)%nat \/ (0 < R b /\ (length L < NBUF)%nat) ->
  (forall c' s', same_cpu c c' -> lg s' = lg s ->
     bst (lbio s') (fset Cn b (Cn slot)) (fset D b (Cn slot)) (if rec =? 0 then fset R b (R b - 1) else R) nolock ->
     dwrites (lbio s') = (b, Cn slot) :: dwrites (lbio s) -> Q c' s' r) ->
  wp (lbuf <- lbread slot ;;
      x <- block_at t ;;
      dbuf <- lbread x ;;
      d <- ldata lbuf ;;
      zoom bio_lens (write_data dbuf d) ;;
      zoom bio_lens (bwrite dbuf) ;;
      (if rec =? 0 then zoom bio_lens (bunpin dbuf) else ret tt) ;;
      zoom bio_lens (brelse lbuf) ;;
      zoom bio_lens (brelse dbuf) ;;
      ret r) c s Q.
Proof.
  intros Hcl HRb Hpin HlenL HQ. destruct Hat as [_ Hdev]. destruct (Hc) as [Hcb Hcs]. wp_step.
  eapply (wp_lbread slot c s Cn D R nolock L); [done|done|done|done|done|lia|done|right; lia|].
  intros s1 i1 Hst1 Hl1 _ Hw1 Hg1. rewrite HRs in Hst1.
  wp_step. apply (wp_block_at t b); [by rewrite Hg1|]. wp_step.
  eapply (wp_lbread b c s1 Cn D _ _ (slot :: L)); [done|by rewrite Hg1|done|exact Hst1|by fsx|fsx; lia| |fsx; simpl; lia|].
  { intros x. destruct (decide (x = slot)) as [->|Hx]; [set_solver|]. fsx. intros ?%HL. set_solver. }
  intros s2 i2 Hst2 Hl2 Hsb2 Hw2 Hg2. rewrite (fset_ne _ _ _ b) in Hst2 by done. still Hst1 Hsb2 Hl1.
  unfold ldata. wp_step. wp_step. rewrite (loaded_content _ _ _ _ Hl1), (bst_content _ _ _ _ _ _ _ Hst2).
  wp_step. apply wp_zoom. eapply (wp_write_data' dv c _ _ _ _ _ Hst2 b); [done|fsx; lia|].
  intros b3 Hst3 Hsb3 Hw3. simpl. still Hst2 Hsb3 Hl1. still Hst2 Hsb3 Hl2.
  wp_step. apply wp_zoom. eapply (wp_bwrite' dv c _ _ _ _ _ Hst3 Hcs b); [exact Hl2|by fsx|fsx; lia|].
  intros b4 Hst4 Hsb4 Hw4. simpl. rewrite fset_eq in Hst4, Hw4. still Hst3 Hsb4 Hl1. still Hst3 Hsb4 Hl2.
  assert (forall b5 R5, bst b5 (fset Cn b (Cn slot)) (fset D b (Cn slot)) R5
            (fset (fset nolock slot (mksleep 1 (curpid c))) b (mksleep 1 (curpid c))) ->
    R5 slot = 1 -> 0 < R5 b -> loaded b5 slot i1 -> loaded b5 b i2 -> dwrites b5 = dwrites b4 ->
    (forall x, fset (fset R5 slot 0) b (R5 b - 1) x = (if rec =? 0 then fset R b (R b - 1) else R) x) ->
    wp (zoom bio_lens (brelse i1) ;; zoom bio_lens (brelse i2) ;; ret r) c (mklogst (lg s2) b5) Q) as Hend.
  { intros b5 R5 Hst5 HR5s HR5b Hld1 Hld2 Hw5 HR5.
    wp_step. apply wp_zoom.
    eapply (wp_brelse' dv c _ _ _ _ _ Hst5 Hcb Hcs slot); [exact Hld1|by fsx|lia|intros _; by fsx|].
    intros c6 b6 Hcc6 Hst6 Hsb6 Hw6. simpl. still Hst5 Hsb6 Hld2. destruct (same_cpu_ok _ _ Hcc6 Hc) as [Hcb6 Hcs6].
    wp_step. apply wp_zoom.
    eapply (wp_brelse' dv c6 _ _ _ _ _ Hst6 Hcb6 Hcs6 b);
      [exact Hld2|fsx; by rewrite (same_cpu_pid _ _ Hcc6)|fsx; lia|intros _; by fsx|].
    intros c7 b7 Hcc7 Hst7 _ Hw7. wp_steps. eapply HQ; [by eapply same_cpu_trans|simpl; congruence| |simpl; congruence].
    simpl. rewrite (fset_ne R5) in Hst7 by done. eapply bst_ext; [exact Hst7|done|done| |].
    - intros x. rewrite <- HR5. unfold fset. repeat case_match; rewrite ?Z.eqb_eq, ?Z.eqb_neq in *; subst; try done; lia.
    - intros x. unfold fset, nolock. repeat case_match; done. }
  destruct (Z.eqb_spec rec 0) as [Hrec|Hrec].
  - wp_step. apply wp_zoom. eapply (wp_bunpin' dv c _ _ _ _ _ Hst4 Hcb b); [exact Hl2|fsx; lia|].
    intros b5 Hst5 Hsb5 Hw5. simpl. still Hst4 Hsb5 Hl1. still Hst4 Hsb5 Hl2.
    eapply Hend; [exact Hst5|by fsx|fsx; lia|done|done|congruence|].
    intros x. unfold fset. repeat case_match; rewrite ?Z.eqb_eq, ?Z.eqb_neq in *; subst; try done; lia.
  - wp_step. wp_step. eapply Hend; [exact Hst4|by fsx|fsx; lia|done|done|done|].
    intros x. unfold fset. repeat case_match; rewrite ?Z.eqb_eq, ?Z.eqb_neq in *; subst; try done; lia.
Qed.
End copy.

(** The in-memory header lists [bs]. *)
Definition lh_is (l : log) (bs : list Z) : Prop := lh_n l = Z.of_nat (length bs) /\ bs `prefix_of` lh_block l.

Lemma lh_is_lookup l bs t b : lh_is l bs -> bs !! t = Some b -> lh_block l !! Z.to_nat (Z.of_nat t) = Some b.
Proof. intros [_ Hp] Ht. rewrite Nat2Z.id. by eapply prefix_lookup_Some. Qed.

Lemma bst_ext_R s Cn D R R' K : bst s Cn D R K -> (forall b, R' b = R b) -> bst s Cn D R' K.
Proof. intros Hs HR. by eapply bst_ext. Qed.

Lemma take_snoc {A} (l : list A) t x : l !! t = Some x -> take (S t) l = take t l ++ [x].
Proof. apply take_S_r. Qed.

Lemma reverse_snoc_app {A} (l : list A) x r : reverse (l ++ [x]) ++ r = x :: (reverse l ++ r).
Proof. by rewrite reverse_snoc. Qed.

(** ** The loops *)

Section loops.
Context (c : cpu) (s : logst) (Cn D : Z -> block) (R : Z -> Z) (L : list Z) (bs : list Z).
Hypothesis Hc : cpu_ok c.
Hypothesis Hat : log_at (lg s).
Hypothesis Hlh : lh_is (lg s) bs.
Hypothesis Hst : bst (lbio s) Cn D R nolock.
Hypothesis Htr : trans_ok start size bs.
Hypothesis Hfree : forall b, start <= b < start + size -> R b = 0.
Hypothesis HR : forall b, 0 <= R b < 1000.
Hypothesis HL : forall b, 0 < R b -> b ∈ L.

Lemma wp_write_log (Q : cpu -> logst -> unit -> Prop) :
  (forall b, b ∈ bs -> 0 < R b) -> (length L < NBUF)%nat ->
  (forall c' s', same_cpu c c' -> lg s' = lg s ->
     bst (lbio s') (fsets Cn (slot_writes start Cn bs)) (fsets D (slot_writes start Cn bs)) R nolock ->
     dwrites (lbio s') = reverse (slot_writes start Cn bs) ++ dwrites (lbio s) -> Q c' s' tt) ->
  wp write_log c s Q.
Proof.
  intros Hpin HlenL HQ. unfold write_log. destruct (Hat) as [Hstt Hdev]. destruct (Hlh) as [Hn _].
  wp_step. wp_step. wp_step. wp_step. rewrite Hn, Hstt. set (W := slot_writes start Cn bs).
  eapply (wp_loop (fun a c' s' => exists t, a = Z.of_nat t /\ (t <= length bs)%nat /\ same_cpu c c' /\ lg s' = lg s /\
    bst (lbio s') (fsets Cn (take t W)) (fsets D (take t W)) R nolock /\
    dwrites (lbio s') = reverse (take t W) ++ dwrites (lbio s)) (fun a => length bs - Z.to_nat a)%nat); [|lia|].
  2: { exists 0%nat. split_and!; try done; try lia. }
  intros a c1 s1 (t & -> & Ht & Hcc & Hg & Hs1 & Hw1). destruct (Z.ltb_spec (Z.of_nat t) (Z.of_nat (length bs))).
  - destruct (lookup_lt_is_Some_2 bs t ltac:(lia)) as [b Hb]. pose proof (slots_lookup start Cn bs t b Hb) as Hsl. fold W in Hsl.
    pose proof (tr_size _ _ _ Htr). pose proof (list_elem_of_lookup_2 _ _ _ Hb) as Hin.
    pose proof (tr_range _ _ _ Htr) as Hrg. rewrite Forall_forall in Hrg. specialize (Hrg b Hin).
    assert (start + Z.of_nat t + 1 <> b) as Hne.
    { intros Heq. apply (slot_not_in _ _ _ Htr t); [lia|]. replace (start + 1 + Z.of_nat t) with b by lia. done. }
    eapply (wp_copy_out c1 s1 _ _ R L _ _ b);
      [by eapply same_cpu_ok|by rewrite Hg|exact Hs1|lia|lia|rewrite Hg; by eapply lh_is_lookup|done|apply Hfree; lia|done| |done|].
    { specialize (Hpin b Hin). specialize (HR b). lia. }
    intros c2 s2 Hcc2 Hg2 Hs2 Hw2. simpl. split; [|lia]. exists (S t).
    assert (fsets Cn (take t W) b = Cn b) as HCb.
    { apply fsets_out. intros Hx%elem_of_slots. pose proof (tr_home _ _ _ Htr) as Hh.
      rewrite Forall_forall in Hh. apply (Hh b Hin). lia. }
    rewrite HCb in Hs2, Hw2. replace (start + Z.of_nat t + 1) with (start + 1 + Z.of_nat t) in * by lia.
    split_and!; [lia|lia|by eapply same_cpu_trans|congruence| |].
    + rewrite (take_snoc _ _ _ Hsl), !fsets_snoc. done.
    + rewrite (take_snoc _ _ _ Hsl), reverse_snoc_app. by rewrite Hw2, Hw1.
  - wp_steps. apply HQ; [done|done| |]; rewrite take_ge in * by (unfold W; rewrite length_slots; lia); done.
Qed.

(** The references left after the first [t] blocks are installed. *)
Definition unpinned (rec : Z) (l : list Z) (b : Z) : Z :=
  if rec =? 0 then if decide (b ∈ l) then R b - 1 else R b else R b.

Lemma wp_install_trans (rec : Z) (V : Z -> block) (Q : cpu -> logst -> unit -> Prop) :
  (forall t b, bs !! t = Some b -> Cn (start + 1 + Z.of_nat t) = V b /\ D (start + 1 + Z.of_nat t) = V b) ->
  (if rec =? 0 then (forall b, b ∈ bs -> 0 < R b) /\ (length L < NBUF)%nat else (S (length L) < NBUF)%nat) ->
  (forall c' s', same_cpu c c' -> lg s' = lg s ->
     bst (lbio s') (fsets Cn (home_writes V bs)) (fsets D (home_writes V bs)) (unpinned rec bs) nolock ->
     dwrites (lbio s') = reverse (home_writes V bs) ++ dwrites (lbio s) -> Q c' s' tt) ->
  wp (install_trans rec) c s Q.
Proof.
  intros HV Hpin HQ. unfold install_trans. destruct (Hat) as [Hstt Hdev]. destruct (Hlh) as [Hn _].
  wp_step. wp_step. wp_step. wp_step. rewrite Hn, Hstt. set (W := home_writes V bs).
  eapply (wp_loop (fun a c' s' => exists t, a = Z.of_nat t /\ (t <= length bs)%nat /\ same_cpu c c' /\ lg s' = lg s /\
    bst (lbio s') (fsets Cn (take t W)) (fsets D (take t W)) (unpinned rec (take t bs)) nolock /\
    dwrites (lbio s') = reverse (take t W) ++ dwrites (lbio s)) (fun a => length bs - Z.to_nat a)%nat); [|lia|].
  2: { exists 0%nat. split_and!; try done; try lia. eapply bst_ext_R; [exact Hst|].
       intros b. unfold unpinned. destruct (rec =? 0); [|done]. rewrite take_0, decide_False by set_solver. done. }
  intros a c1 s1 (t & -> & Ht & Hcc & Hg & Hs1 & Hw1). destruct (Z.ltb_spec (Z.of_nat t) (Z.of_nat (length bs))).
  - destruct (lookup_lt_is_Some_2 bs t ltac:(lia)) as [b Hb]. destruct (HV t b Hb) as [HVc HVd].
    pose proof (tr_size _ _ _ Htr). pose proof (list_elem_of_lookup_2 _ _ _ Hb) as Hin.
    assert (W !! t = Some (b, V b)) as Hsl by (unfold W, home_writes; by rewrite list_lookup_fmap, Hb).
    pose proof (tr_range _ _ _ Htr) as Hrg. rewrite Forall_forall in Hrg. specialize (Hrg b Hin).
    assert (start + 1 + Z.of_nat t ∉ bs) as Hnin by (apply (slot_not_in _ _ _ Htr); lia).
    assert (start + 1 + Z.of_nat t <> b) as Hne by congruence.
    assert (b ∉ take t bs) as Hbt.
    { intros (j & Hj)%list_elem_of_lookup. apply lookup_take_Some in Hj as [Hj ?].
      pose proof (NoDup_lookup _ _ _ _ (tr_dup _ _ _ Htr) Hj Hb). lia. }
    assert (forall f, fsets f (take t W) (start + 1 + Z.of_nat t) = f (start + 1 + Z.of_nat t)) as Hslot.
    { intros f. apply fsets_out. by intros ?%homes_sub. }
    assert (unpinned rec (take t bs) b = R b) as HUb.
    { unfold unpinned. destruct (rec =? 0); [|done]. by rewrite decide_False. }
    assert (forall x, unpinned rec (take t bs) x <= R x) as HUle.
    { intros x. unfold unpinned. repeat case_match; lia. }
    replace (start + Z.of_nat t + 1) with (start + 1 + Z.of_nat t) by lia.
    eapply (wp_copy_in c1 s1 _ _ _ L _ _ b);
      [by eapply same_cpu_ok|by rewrite Hg|exact Hs1|lia|lia|rewrite Hg; by eapply lh_is_lookup|done| | | | | | |].
    + unfold unpinned. assert (R (start + 1 + Z.of_nat t) = 0) as HR0 by (apply Hfree; lia).
      rewrite (decide_False (P := _ ∈ take t bs)) by (intros (?&Hx&_)%elem_of_take; apply Hnin; by eapply list_elem_of_lookup_2).
      destruct (rec =? 0); done.
    + intros x Hx. apply HL. specialize (HUle x). lia.
    + rewrite !Hslot. congruence.
    + rewrite HUb. apply HR.
    + rewrite HUb. destruct (rec =? 0); [by apply Hpin|done].
    + rewrite HUb. destruct (rec =? 0); [right; split; [by apply Hpin|apply Hpin]|by left].
    + intros c2 s2 Hcc2 Hg2 Hs2 Hw2. simpl. split; [|lia]. exists (S t).
      rewrite Hslot, HVc in Hs2, Hw2. split_and!; [lia|lia|by eapply same_cpu_trans|congruence| |].
      * rewrite (take_snoc _ _ _ Hsl), !fsets_snoc. eapply bst_ext_R; [exact Hs2|]. intros x. rewrite HUb.
        unfold unpinned, fset. rewrite (take_snoc _ _ _ Hb). destruct (rec =? 0); [|done].
        destruct (Z.eqb_spec x b) as [->|Hxb]; [by rewrite decide_True by set_solver|].
        destruct (decide (x ∈ take t bs)); [by rewrite decide_True by set_solver|by rewrite decide_False by set_solver].
      * rewrite (take_snoc _ _ _ Hsl), reverse_snoc_app. by rewrite Hw2, Hw1.
  - wp_steps. apply HQ; [done|done| |].
    + rewrite !take_ge in Hs1 by (unfold W; rewrite ?length_homes; lia). done.
    + rewrite take_ge in Hw1 by (unfold W; rewrite length_homes; lia). done.
Qed.
End loops.

(** ** The header *)

Section head.
Context (c : cpu) (s : logst) (Cn D : Z -> block) (R : Z -> Z) (L : list Z).
Hypothesis Hc : cpu_ok c.
Hypothesis Hat : log_at (lg s).
Hypothesis Hst : bst (lbio s) Cn D R nolock.
Hypothesis Hfree : R start = 0.
Hypothesis HL : forall b, 0 < R b -> b ∈ L.
Hypothesis HlenL : (length L < NBUF)%nat.
Hypothesis Hsz : 0 <= size.

Lemma wp_write_head bs (Q : cpu -> logst -> unit -> Prop) :
  lh_is (lg s) bs ->
  (forall c' s', same_cpu c c' -> lg s' = lg s ->
     bst (lbio s') (fset Cn start (enc_hdr (Cn start) bs)) (fset D start (enc_hdr (Cn start) bs)) R nolock ->
     dwrites (lbio s') = (start, enc_hdr (Cn start) bs) :: dwrites (lbio s) -> Q c' s' tt) ->
  wp write_head c s Q.
Proof.
  intros Hlh HQ. destruct (Hat) as [Hstt Hdev]. destruct (Hlh) as [Hn _]. destruct (Hc) as [Hcb Hcs].
  unfold write_head. wp_step. wp_step. rewrite Hstt. wp_step.
  eapply (wp_lbread start c s Cn D R nolock L); [done|done|lia|done|done|lia|done|by right|].
  intros s1 i Hst1 Hl1 _ Hw1 Hg1. rewrite Hfree in Hst1. unfold ldata.
  wp_step. wp_step. rewrite Hg1, Hn. wp_step. wp_step.
  rewrite (loaded_content _ _ _ _ Hl1), (bst_content _ _ _ _ _ _ _ Hst1).
  wp_step. apply wp_zoom. eapply (wp_write_data' dv c _ _ _ _ _ Hst1 start); [done|fsx; lia|].
  intros b2 Hst2 Hsb2 Hw2. simpl. still Hst1 Hsb2 Hl1. wp_step.
  eapply (wp_loop (fun a c' s' => exists t, a = Z.of_nat t /\ (t <= length bs)%nat /\ c' = c /\ lg s' = lg s /\
    bst (lbio s') (fset Cn start (put_blocks (put32 (Cn start) 0 (Z.of_nat (length bs))) 0 (take t bs))) D
      (fset R start 1) (fset nolock start (mksleep 1 (curpid c))) /\ loaded (lbio s') start i /\
    dwrites (lbio s') = dwrites (lbio s)) (fun a => length bs - Z.to_nat a)%nat); [|lia|].
  2: { exists 0%nat. split_and!; try done; try lia; simpl; congruence. }
  clear Hl1. intros a c1 s3 (t & -> & Ht & -> & Hg & Hs3 & Hl3 & Hw3).
  destruct (Z.ltb_spec (Z.of_nat t) (Z.of_nat (length bs))).
  - destruct (lookup_lt_is_Some_2 bs t ltac:(lia)) as [b Hb].
    wp_step. apply (wp_block_at _ b); [rewrite Hg; by eapply lh_is_lookup|]. wp_step. wp_step.
    rewrite (loaded_content _ _ _ _ Hl3), (bst_content _ _ _ _ _ _ _ Hs3). rewrite fset_eq.
    wp_step. apply wp_zoom. eapply (wp_write_data' dv c _ _ _ _ _ Hs3 start); [done|fsx; lia|].
    intros b4 Hst4 Hsb4 Hw4. wp_steps. split; [|lia]. exists (S t).
    split_and!; [lia|lia|done|simpl; congruence| |by still Hs3 Hsb4 Hl3|simpl; congruence].
    simpl. rewrite (take_snoc _ _ _ Hb), put_blocks_snoc, length_take_le, Nat.add_0_l by lia.
    rewrite Nat2Z.id in Hst4. eapply bst_ext; [exact Hst4|..]; intros x; unfold fset; repeat case_match; done.
  - rewrite take_ge in Hs3 by lia. fold (enc_hdr (Cn start) bs) in Hs3. wp_step.
    wp_step. apply wp_zoom. eapply (wp_bwrite' dv c _ _ _ _ _ Hs3 Hcs start); [exact Hl3|by fsx|fsx; lia|].
    intros b5 Hst5 Hsb5 Hw5. rewrite fset_eq in Hst5, Hw5. still Hs3 Hsb5 Hl3.
    apply wp_zoom. eapply (wp_brelse' dv c _ _ _ _ _ Hst5 Hcb Hcs start); [exact Hl3|by fsx|fsx; lia|intros _; by fsx|].
    intros c6 b6 Hcc Hst6 _ Hw6. apply HQ; [done|simpl; congruence| |simpl; congruence].
    simpl. bst_agree Hst6.
Qed.

(** Reading the header: the in-memory header gets its count and its blocks. *)
Lemma wp_read_head (Q : cpu -> logst -> unit -> Prop) :
  Cn start = D start -> (length (hdr (D start)) <= length (lh_block (lg s)))%nat -> 0 <= hdr_n (D start) ->
  (forall c' s' l', same_cpu c c' -> lg s' = l' -> log_at l' -> lh_is l' (hdr (D start)) ->
     l_size l' = l_size (lg s) -> l_outstanding l' = l_outstanding (lg s) -> l_committing l' = l_committing (lg s) ->
     length (lh_block l') = length (lh_block (lg s)) ->
     bst (lbio s') Cn D R nolock -> dwrites (lbio s') = dwrites (lbio s) -> Q c' s' tt) ->
  wp read_head c s Q.
Proof.
  intros Hcl Hroom Hn0 HQ. destruct (Hat) as [Hstt Hdev]. destruct (Hc) as [Hcb Hcs].
  unfold read_head. wp_step. wp_step. rewrite Hstt. wp_step.
  eapply (wp_lbread start c s Cn D R nolock L); [done|done|lia|done|done|lia|done|by right|].
  intros s1 i Hst1 Hl1 _ Hw1 Hg1. rewrite Hfree in Hst1. unfold ldata, upd_log.
  wp_step. wp_step. rewrite (loaded_content _ _ _ _ Hl1), (bst_content _ _ _ _ _ _ _ Hst1), Hcl.
  wp_step. wp_step. wp_step. wp_step. simpl. fold (hdr_n (D start)).
  assert (length (hdr (D start)) = Z.to_nat (hdr_n (D start))) as Hlen by (unfold hdr; by rewrite length_fmap, length_seq).
  wp_step.
  eapply (wp_loop (fun a c' s' => exists t, a = Z.of_nat t /\ (t <= length (hdr (D start)))%nat /\ c' = c /\
    lbio s' = lbio s1 /\ exists B, lg s' = set_block B (set_n (hdr_n (D start)) (lg s1)) /\
      length B = length (lh_block (lg s)) /\ take t B = take t (hdr (D start)))
    (fun a => length (hdr (D start)) - Z.to_nat a)%nat); [|lia|].
  2: { exists 0%nat. split_and!; try done; try lia. exists (lh_block (lg s1)). split_and!; [done|by rewrite Hg1|done]. }
  intros a c1 s2 (t & -> & Ht & -> & Hb2 & B & Hg2 & HlB & HtB).
  destruct (Z.ltb_spec (Z.of_nat t) (hdr_n (D start))).
  - destruct (lookup_lt_is_Some_2 B t ltac:(lia)) as [old Hold].
    unfold set_block_at. wp_step. unfold wp. rewrite Hg2. simpl. rewrite Nat2Z.id, Hold.
    split; [|lia]. exists (S t). split_and!; [lia|lia|done|done|].
    exists (<[t := s32 (get32 (D start) (4 + 4 * t))]> B). split_and!; [done|by rewrite length_insert|].
    rewrite (take_snoc _ t (s32 (get32 (D start) (4 + 4 * t)))) by (apply list_lookup_insert_eq; lia).
    rewrite take_insert_ge by lia. rewrite HtB. symmetry. apply take_snoc.
    unfold hdr. rewrite list_lookup_fmap, lookup_seq_lt by lia. done.
  - wp_steps. apply wp_zoom. rewrite <- Hb2 in Hst1, Hl1.
    eapply (wp_brelse' dv c _ _ _ _ _ Hst1 Hcb Hcs start); [exact Hl1|by fsx|fsx; lia|done|].
    intros c6 b6 Hcc Hst6 _ Hw6. eapply (HQ _ _ (lg s2)); simpl; rewrite ?Hg2; simpl; rewrite ?Hg1; try done.
    + split; simpl; [lia|]. rewrite (take_ge (hdr _)) in HtB by lia.
      exists (drop t B). rewrite <- HtB. by rewrite take_drop.
    + bst_agree Hst6.
    + congruence.
Qed.
End head.

(** ** Commit and recovery *)

Section commit.
Context (c : cpu) (s : logst) (Cn D : Z -> block) (R : Z -> Z) (L : list Z) (bs : list Z).
Hypothesis Hc : cpu_ok c.
Hypothesis Hat : log_at (lg s).
Hypothesis Hst : bst (lbio s) Cn D R nolock.
Hypothesis Hfree : forall b, start <= b < start + size -> R b = 0.
Hypothesis HR : forall b, 0 <= R b < 1000.
Hypothesis HL : forall b, 0 < R b -> b ∈ L.

Lemma lh_is_nil l : lh_is (set_n 0 l) [].
Proof. split; [done|]. simpl. apply prefix_nil. Qed.

Lemma fsets_commit f V bs' hb b :
  fset (fsets (fset (fsets f (slot_writes start V bs')) start (enc_hdr hb bs')) (home_writes V bs'))
    start (put32 (enc_hdr hb bs') 0 0) b = fsets f (commit_writes start V hb bs') b.
Proof. unfold commit_writes. rewrite !app_assoc, fsets_snoc. unfold fsets. by rewrite !foldl_app. Qed.

Lemma wp_commit (Q : cpu -> logst -> unit -> Prop) :
  lh_is (lg s) bs -> trans_ok start size bs -> bs <> [] -> (forall b, b ∈ bs -> 0 < R b) -> (length L < NBUF)%nat ->
  (forall c' s', same_cpu c c' -> lg s' = set_n 0 (lg s) ->
     bst (lbio s') (fsets Cn (commit_writes start Cn (Cn start) bs)) (fsets D (commit_writes start Cn (Cn start) bs))
       (unpinned R 0 bs) nolock ->
     dwrites (lbio s') = reverse (commit_writes start Cn (Cn start) bs) ++ dwrites (lbio s) -> Q c' s' tt) ->
  wp commit c s Q.
Proof.
  intros Hlh Htr Hne Hpin HlenL HQ. pose proof (tr_size _ _ _ Htr) as Hsz.
  assert (0 < length bs)%nat by (destruct bs; simpl; [done|lia]).
  assert (forall f, fsets f (slot_writes start Cn bs) start = f start) as Hst0.
  { intros f. apply fsets_out. rewrite <- (firstn_all (slot_writes _ _ _)). intros Hx%elem_of_slots. lia. }
  unfold commit. destruct (Hlh) as [Hn _]. wp_step. wp_step. rewrite Hn.
  destruct (Z.gtb_spec (Z.of_nat (length bs)) 0); [|lia]. wp_step.
  eapply (wp_write_log c s Cn D R L bs); try done. intros c1 s1 Hcc1 Hg1 Hs1 Hw1. wp_step.
  assert (cpu_ok c1) as Hc1 by (by eapply same_cpu_ok).
  eapply (wp_write_head c1 s1 _ _ R L Hc1) with (bs := bs); try done; try lia; try (by rewrite Hg1); [apply Hfree; lia|].
  rewrite Hst0. intros c2 s2 Hcc2 Hg2 Hs2 Hw2. wp_step. assert (cpu_ok c2) as Hc2 by (by eapply same_cpu_ok).
  eapply (wp_install_trans c2 s2 _ _ R L bs Hc2) with (V := Cn); try done; try (by rewrite Hg2, Hg1).
  { intros t b Ht. rewrite !fset_ne by lia.
    by split; (eapply (fsets_in _ _ t); [apply slots_dup|by apply slots_lookup]). }
  intros c3 s3 Hcc3 Hg3 Hs3 Hw3. wp_step. unfold upd_log. wp_step. assert (cpu_ok c3) as Hc3 by (by eapply same_cpu_ok).
  assert (forall f, fsets f (home_writes Cn bs) start = f start) as Hst1.
  { intros f. apply fsets_out. rewrite home_writes_fst. by eapply start_not_in. }
  eapply (wp_write_head c3 _ _ _ _ L Hc3) with (bs := []); simpl; try exact Hs3; try done; try lia.
  - by rewrite Hg3, Hg2, Hg1.
  - unfold unpinned. simpl. rewrite decide_False by (by eapply start_not_in). apply Hfree. lia.
  - intros b Hb. apply HL. unfold unpinned in Hb. simpl in Hb. case_decide; lia.
  - apply lh_is_nil.
  - rewrite Hst1, fset_eq. intros c4 s4 Hcc4 Hg4 Hs4 Hw4. apply HQ.
    + by do 3 (eapply same_cpu_trans; [eassumption|]).
    + by rewrite Hg4, Hg3, Hg2, Hg1.
    + eapply bst_ext; [exact Hs4|..]; try done; intros b; by rewrite <- fsets_commit.
    + rewrite Hw4, Hw3, Hw2, Hw1. unfold commit_writes. rewrite !reverse_app, <- !app_assoc. done.
Qed.

Lemma wp_recover_from_log (Q : cpu -> logst -> unit -> Prop) :
  (forall b, Cn b = D b) -> trans_ok start size (hdr (D start)) -> 0 <= hdr_n (D start) -> 0 < size ->
  length (lh_block (lg s)) = Z.to_nat LOGSIZE -> (S (length L) < NBUF)%nat ->
  (forall c' s', same_cpu c c' -> log_at (lg s') -> lh_is (lg s') [] -> l_size (lg s') = l_size (lg s) ->
     l_outstanding (lg s') = l_outstanding (lg s) -> l_committing (lg s') = l_committing (lg s) ->
     length (lh_block (lg s')) = Z.to_nat LOGSIZE ->
     bst (lbio s') (fsets D (recover_writes start D)) (fsets D (recover_writes start D)) R nolock ->
     dwrites (lbio s') = reverse (recover_writes start D) ++ dwrites (lbio s) -> Q c' s' tt) ->
  wp recover_from_log c s Q.
Proof.
  intros Hcl Htr Hn0 Hsz Hlb HlenL HQ. unfold recover_from_log. wp_step.
  eapply (wp_read_head c s Cn D R L); try done; try lia; [apply Hfree; lia| |].
  { rewrite Hlb. pose proof (tr_len _ _ _ Htr). change (Z.to_nat LOGSIZE) with 30%nat. lia. }
  intros c1 s1 l1 Hcc1 Hg1 Hat1 Hlh1 Hsz1 Ho1 Hco1 Hln1 Hs1 Hw1. wp_step. assert (cpu_ok c1) as Hc1 by (by eapply same_cpu_ok).
  subst l1.
  eapply (wp_install_trans c1 s1 Cn D R L (hdr (D start))) with (V := logical start D); try done.
  { intros t b Ht. rewrite Hcl. split; (symmetry; eapply logical_in; [done|apply Htr|done]). }
  intros c2 s2 Hcc2 Hg2 Hs2 Hw2. wp_step. unfold upd_log. wp_step. assert (cpu_ok c2) as Hc2 by (by eapply same_cpu_ok).
  assert (forall f, fsets f (home_writes (logical start D) (hdr (D start))) start = f start) as Hst1.
  { intros f. apply fsets_out. rewrite home_writes_fst. by eapply start_not_in. }
  eapply (wp_write_head c2 _ _ _ _ L Hc2) with (bs := []); simpl; try exact Hs2; try done; try lia.
  - by rewrite Hg2.
  - apply Hfree. lia.
  - apply lh_is_nil.
  - rewrite Hst1, Hcl. intros c4 s4 Hcc4 Hg4 Hs4 Hw4. apply HQ; rewrite ?Hg4, ?Hg2; try done.
    + by do 2 (eapply same_cpu_trans; [eassumption|]).
    + apply lh_is_nil.
    + cbn [lh_block set_n]. congruence.
    + eapply bst_ext; [exact Hs4|..]; try done; intros b; unfold recover_writes; rewrite fsets_snoc; [|done].
      unfold fset. case_match; [done|]. by apply fsets_ext.
    + rewrite Hw4, Hw2, Hw1. unfold recover_writes. by rewrite reverse_snoc_app.
Qed.
End commit.
End logspec.
