(* ===== verification/LogTxn.v ===== *)
(** Transactions: [begin_op], [log_write] and [end_op] keep the log's invariant and refine
    an atomic store; booting after a crash recovers a committed state. *)
From S2P Require Import Prelude Sleeplock Bio BioInv BioSpec Log LogPure LogSpec.

#[local] Arguments loop : simpl never.

(** * The operations of a file-system call *)

(** The steps the file system takes; [OWrite] is the use of [log_write] that its comment
    prescribes. *)
Inductive lop := OBegin | OWrite (b : Z) (d : block) | OEnd.

Definition run_lop (o : lop) : M logst unit :=
  match o with
  | OBegin => begin_op
  | OWrite b d =>
      bp <- lbread b ;;
      zoom bio_lens (write_data bp d) ;;
      log_write bp ;;
      zoom bio_lens (brelse bp)
  | OEnd => end_op
  end.

Fixpoint run_lops (os : list lop) : M logst unit :=
  match os with
  | [] => ret tt
  | o :: os' => run_lop o ;; run_lops os'
  end.

(** * The atomic store *)

(** The current contents, the contents a crash leaves, the blocks of the open transaction
    and the number of system calls in it. *)
Record astore := mkast { a_cur : Z -> block; a_stable : Z -> block; a_blocks : list Z; a_out : Z }.

Definition add_block (b : Z) (bs : list Z) : list Z := if decide (b ∈ bs) then bs else bs ++ [b].

Definition astep (o : lop) (a : astore) : astore :=
  match o with
  | OBegin => mkast (a_cur a) (a_stable a) (a_blocks a) (a_out a + 1)
  | OWrite b d => mkast (fset (a_cur a) b d) (a_stable a) (add_block b (a_blocks a)) (a_out a)
  | OEnd =>
      if a_out a =? 1 then mkast (a_cur a) (a_cur a) [] 0
      else mkast (a_cur a) (a_stable a) (a_blocks a) (a_out a - 1)
  end.

Fixpoint arun (os : list lop) (a : astore) : astore :=
  match os with
  | [] => a
  | o :: os' => arun os' (astep o a)
  end.

(** The blocks of the transaction are pinned in the cache. *)
Definition pins (bs : list Z) (b : Z) : Z := if decide (b ∈ bs) then 1 else 0.

Lemma pins_bound bs b : 0 <= pins bs b <= 1.
Proof. unfold pins. case_decide; lia. Qed.
Lemma pins_in bs b : 0 < pins bs b -> b ∈ bs.
Proof. unfold pins. case_decide; [done|lia]. Qed.
Lemma pins_pos bs b : b ∈ bs -> pins bs b = 1.
Proof. intros. unfold pins. by rewrite decide_True. Qed.
Lemma pins_out bs b : b ∉ bs -> pins bs b = 0.
Proof. intros. unfold pins. by rewrite decide_False. Qed.

Lemma pins_add bs b x : b ∉ bs -> pins (bs ++ [b]) x = fset (pins bs) b 1 x.
Proof.
  intros Hb. unfold pins, fset. destruct (Z.eqb_spec x b) as [->|Hne]; [by rewrite decide_True by set_solver|].
  destruct (decide (x ∈ bs)); [by rewrite decide_True by set_solver|by rewrite decide_False by set_solver].
Qed.

Section txn.
Context (dv start size : Z).
Hypothesis Hdv : 0 < dv < 4294967296.
Hypothesis Hstart : 0 <= start.
Hypothesis Hend : start + size < 2147483648.
Hypothesis Hsize : 2 <= size <= LOGSIZE.

(** When a step neither waits nor panics: there is room to reserve, the block is outside
    the log and the transaction has room for it, a transaction is open. *)
Definition lguard (o : lop) (a : astore) : Prop :=
  match o with
  | OBegin => Z.of_nat (length (a_blocks a)) + (a_out a + 1) * MAXOPBLOCKS <= LOGSIZE
  | OWrite b d => 1 <= a_out a /\ home start size b /\ 0 <= b < 2147483648 /\ Z.of_nat (length (a_blocks a)) < size - 1
  | OEnd => 1 <= a_out a
  end.
Fixpoint lguards (os : list lop) (a : astore) : Prop :=
  match os with
  | [] => True
  | o :: os' => lguard o a /\ lguards os' (astep o a)
  end.

(** The log between operations, with the open transaction [bs], cached contents [V], disk
    [D] and [out] system calls under way. *)
Record txn (s : logst) (bs : list Z) (V D : Z -> block) (out : Z) : Prop := {
  tx_at : log_at dv start (lg s);
  tx_size : l_size (lg s) = size;
  tx_lh : lh_is (lg s) bs;
  tx_tr : trans_ok start size bs;
  tx_len : length (lh_block (lg s)) = Z.to_nat LOGSIZE;
  tx_out : l_outstanding (lg s) = out;
  tx_com : l_committing (lg s) = 0;
  tx_bst : bst dv (lbio s) V D (pins bs) nolock;
  tx_clean b : b ∉ bs -> V b = D b;
  tx_hdr : hdr_n (D start) = 0;
  tx_hlen : length (D start) = Z.to_nat BSIZE;
}.

Definition lcpu (c : cpu) : Prop := cpu_ok c /\ LLog ∉ held c.

Lemma same_lcpu c c' : same_cpu c c' -> lcpu c -> lcpu c'.
Proof. intros Hcc [H1 H2]. split; [by eapply same_cpu_ok|]. destruct Hcc as [-> _]. done. Qed.

(** ** Reserving *)

Lemma wp_begin_op c s bs V D out (Q : cpu -> logst -> unit -> Prop) :
  lcpu c -> txn s bs V D out -> Z.of_nat (length bs) + (out + 1) * MAXOPBLOCKS <= LOGSIZE ->
  (forall s', txn s' bs V D (out + 1) -> dwrites (lbio s') = dwrites (lbio s) -> Q c s' tt) ->
  wp begin_op c s Q.
Proof.
  intros [_ Hc] Ht Hroom HQ. unfold begin_op, sleep_loop. wp_step. wp_step. wp_step. wp_step.
  rewrite loop_S. wp_step. wp_step. wp_step. rewrite (tx_com _ _ _ _ _ Ht). cbn [Z.eqb negb].
  destruct (tx_lh _ _ _ _ _ Ht) as [Hn Hp]. rewrite Hn, (tx_out _ _ _ _ _ Ht).
  destruct (Z.gtb_spec (Z.of_nat (length bs) + (out + 1) * MAXOPBLOCKS) LOGSIZE); [lia|].
  unfold upd_log. wp_steps. rewrite set_held_back by done. apply HQ; [|done]. by destruct Ht.
Qed.

(** ** Writing *)

(** The search of [log_write] ends at the block or at the end of the list. *)
Definition find_block (b : Z) (bs : list Z) : nat :=
  match list_find (fun x => x = b) bs with Some (t, _) => t | None => length bs end.

Lemma wp_search c s bs b (Q : cpu -> logst -> Z -> Prop) :
  lh_is (lg s) bs -> Forall (fun b => 0 <= b < 2147483648) bs ->
  Q c s (Z.of_nat (find_block b bs)) ->
  wp (loop (S (Z.to_nat (lh_n (lg s)))) (fun i =>
    if i <? lh_n (lg s) then
      x <- block_at i ;;
      if u32 x =? b then ret (inr i) else ret (inl (i + 1))
    else ret (inr i)) 0) c s Q.
Proof.
  intros Hlh Hrg HQ. destruct (Hlh) as [Hn _]. rewrite Hn.
  eapply (wp_loop (fun a c' s' => exists t, a = Z.of_nat t /\ (t <= length bs)%nat /\ c' = c /\ s' = s /\
    Forall (fun x => x <> b) (take t bs)) (fun a => length bs - Z.to_nat a)%nat); [|lia|].
  2: { exists 0%nat. split_and!; try done; lia. }
  intros a c' s' (t & -> & Ht & -> & -> & Hf). destruct (Z.ltb_spec (Z.of_nat t) (Z.of_nat (length bs))).
  - destruct (lookup_lt_is_Some_2 bs t ltac:(lia)) as [x Hx].
    wp_step. apply (wp_block_at _ x); [by eapply lh_is_lookup|].
    rewrite Forall_lookup in Hrg. specialize (Hrg t x Hx). rewrite u32_small by lia.
    destruct (Z.eqb_spec x b) as [->|Hne]; wp_step.
    + unfold find_block in HQ. rewrite (proj2 (list_find_Some _ _ t b)) in HQ; [done|].
      split_and!; [done|done|]. intros j y Hj Hlt ->. rewrite Forall_lookup in Hf.
      apply (Hf j b); [|done]. by apply lookup_take_Some.
    + split; [|lia]. exists (S t). split_and!; try done; try lia. rewrite (take_snoc _ _ _ Hx).
      apply Forall_app. split; [done|]. by constructor.
  - wp_step. unfold find_block in HQ. rewrite take_ge in Hf by lia.
    rewrite (proj2 (list_find_None _ bs)) in HQ by done. by replace t with (length bs) by lia.
Qed.

Lemma find_block_in b bs : b ∈ bs -> bs !! find_block b bs = Some b.
Proof.
  intros Hin. unfold find_block. destruct (list_find _ bs) as [[t x]|] eqn:E.
  - apply list_find_Some in E as (Hx & -> & _). done.
  - apply list_find_None in E. rewrite Forall_forall in E. by destruct (E b Hin).
Qed.
Lemma find_block_out b bs : b ∉ bs -> find_block b bs = length bs.
Proof.
  intros Hn. unfold find_block. rewrite (proj2 (list_find_None _ bs)); [done|].
  apply Forall_forall. by intros x Hx ->.
Qed.

Lemma logst_eta (s : logst) : mklogst (lg s) (lbio s) = s.
Proof. by destruct s. Qed.
Lemma set_n_id (l : log) : lh_n l = 0 -> l = set_n 0 l.
Proof. destruct l. simpl. by intros ->. Qed.
Lemma set_block_id (l : log) : set_block (lh_block l) l = l.
Proof. by destruct l. Qed.

Lemma wp_log_write c s bs V D R K b i (Q : cpu -> logst -> unit -> Prop) :
  lcpu c -> lh_is (lg s) bs -> trans_ok start size bs -> l_size (lg s) = size ->
  length (lh_block (lg s)) = Z.to_nat LOGSIZE -> 1 <= l_outstanding (lg s) ->
  Z.of_nat (length bs) < size - 1 -> 0 <= b < 2147483648 ->
  bst dv (lbio s) V D R K -> loaded dv (lbio s) b i -> 0 <= R b < 1000 ->
  (b ∈ bs -> Q c s tt) ->
  (b ∉ bs -> forall s', lh_is (lg s') (bs ++ [b]) ->
     lg s' = set_n (lh_n (lg s) + 1) (set_block (lh_block (lg s')) (lg s)) ->
     length (lh_block (lg s')) = Z.to_nat LOGSIZE ->
     bst dv (lbio s') V D (fset R b (R b + 1)) K -> stable dv (lbio s) (lbio s') ->
     dwrites (lbio s') = dwrites (lbio s) -> Q c s' tt) ->
  wp (log_write i) c s Q.
Proof.
  intros [[Hc Hcs] Hcl] Hlh Htr Hsz Hlen Hout Hroom Hb Hst Hl HR Hin Hnew. unfold log_write.
  destruct (Hlh) as [Hn Hp]. pose proof (tr_len _ _ _ Htr). change LOGSIZE with 30 in *.
  wp_step. wp_step. wp_step. wp_step. rewrite Hsz.
  destruct (Z.geb_spec (lh_n (lg s)) 30); [lia|]. destruct (Z.geb_spec (lh_n (lg s)) (size - 1)); [lia|]. cbn [orb].
  destruct (Z.ltb_spec (l_outstanding (lg s)) 1); [lia|]. wp_step. wp_step.
  destruct (loaded_blockno _ _ _ _ Hl) as [_ Hbn]. rewrite Hbn.
  wp_step. apply (wp_search _ _ bs); [done|apply Htr|]. rewrite s32_small by lia.
  assert (exists old, lh_block (lg s) !! find_block b bs = Some old) as [old Hold].
  { apply lookup_lt_is_Some. rewrite Hlen. unfold find_block.
    destruct (list_find _ bs) as [[t x]|] eqn:E; [apply list_find_Some in E as (E & _); apply lookup_lt_Some in E|]; lia. }
  unfold set_block_at. wp_step. unfold wp at 1. rewrite Nat2Z.id, Hold.
  destruct (decide (b ∈ bs)) as [Hbin|Hbout].
  - pose proof (find_block_in _ _ Hbin) as Hf. pose proof (lookup_lt_Some _ _ _ Hf).
    rewrite (proj2 (Z.eqb_neq _ _)) by lia. wp_steps. rewrite set_held_back by done.
    assert (old = b) as -> by (apply (prefix_lookup_Some _ _ _ _ Hf) in Hp; congruence).
    rewrite list_insert_id, set_block_id, logst_eta by done. by apply Hin.
  - rewrite find_block_out in * by done. rewrite (proj2 (Z.eqb_eq _ _)) by lia.
    wp_step. wp_step. apply wp_zoom. eapply (wp_bpin' dv _ _ _ _ _ _ Hst); [simpl; set_solver|exact Hl|lia|].
    intros b' Hst' Hsb Hw. unfold upd_log. wp_steps. rewrite set_held_back by done.
    apply (Hnew Hbout); simpl; try done.
    + split; simpl; [rewrite length_app; simpl; lia|]. destruct Hp as [rest Hrest]. rewrite Hrest in Hold |- *.
      rewrite insert_app_r_alt, Nat.sub_diag by lia. destruct rest as [|x rest].
      { rewrite app_nil_r in Hold. apply lookup_lt_Some in Hold. lia. }
      exists rest. simpl. by rewrite <- app_assoc.
    + by rewrite length_insert.
Qed.

Lemma trans_ok_add bs b :
  trans_ok start size bs -> b ∉ bs -> home start size b -> 0 <= b < 2147483648 ->
  Z.of_nat (length bs) < size - 1 -> trans_ok start size (bs ++ [b]).
Proof.
  intros [Hd Hh Hr Hl Hs] Hb Hhm Hrg Hroom. change LOGSIZE with 30 in *. split.
  - apply NoDup_app. split_and!; [done|set_solver|apply NoDup_singleton].
  - apply Forall_app. split; [done|by constructor].
  - apply Forall_app. split; [done|by constructor].
  - rewrite length_app. simpl. lia.
  - rewrite length_app. simpl. lia.
Qed.

Lemma wp_owrite c s bs V D out b d (Q : cpu -> logst -> unit -> Prop) :
  lcpu c -> txn s bs V D out -> 1 <= out -> home start size b -> 0 <= b < 2147483648 ->
  Z.of_nat (length bs) < size - 1 ->
  (forall c' s', same_cpu c c' -> txn s' (add_block b bs) (fset V b d) D out ->
     dwrites (lbio s') = dwrites (lbio s) -> Q c' s' tt) ->
  wp (run_lop (OWrite b d)) c s Q.
Proof.
  intros Hlc Ht Hout Hhm Hb Hroom HQ. destruct (Hlc) as [Hc Hcl]. destruct (Hc) as [Hcb Hcs].
  destruct (Ht) as [[Hat1 Hat2] Hsz Hlh Htr Hlen Ho Hcm Hst Hcln Hhdr Hhl]. change LOGSIZE with 30 in *.
  pose proof (pins_bound bs b) as Hpb. cbn [run_lop]. wp_step.
  eapply (wp_lbread dv ltac:(lia) b c s V D (pins bs) nolock bs); [done|done|lia|done|done|lia|apply pins_in|right; change NBUF with 30%nat; lia|].
  intros s1 i Hst1 Hl1 _ Hw1 Hg1. wp_step. apply wp_zoom.
  eapply (wp_write_data' dv c _ _ _ _ _ Hst1 b); [done|rewrite fset_eq; lia|].
  intros b2 Hst2 Hsb2 Hw2. cbn [lset bio_lens].
  eapply loaded_stable in Hl1; [|exact Hsb2|rewrite (bst_refs _ _ _ _ _ _ _ Hst1), fset_eq; lia].
  wp_step.
  assert (forall c' s3 n B, lh_is (lg s3) (add_block b bs) -> length (lh_block (lg s3)) = 30%nat ->
     lg s3 = set_n n (set_block B (lg s)) -> same_cpu c c' ->
     bst dv (lbio s3) (fset V b d) D (pins (add_block b bs)) nolock ->
     dwrites (lbio s3) = dwrites (lbio s) -> Q c' s3 tt) as Hfin.
  { intros c' s3 n B Hlh3 Hlen3 Hg3 Hcc Hst3 Hw3. apply HQ; [done| |done].
    split; rewrite ?Hg3; try done; rewrite <- ?Hg3; try done.
    - unfold add_block. case_decide; [done|]. by apply trans_ok_add.
    - intros x Hx. rewrite fset_ne; [|intros ->; unfold add_block in Hx; case_decide; set_solver].
      apply Hcln. unfold add_block in Hx. case_decide; set_solver. }
  eapply (wp_log_write c (mklogst (lg s1) b2) bs); [done|..]; cbn [lg lbio]; rewrite ?Hg1;
    try done; try lia; [rewrite fset_eq; lia|..].
  - intros Hin. apply wp_zoom. assert (add_block b bs = bs) as Hab by (unfold add_block; by rewrite decide_True).
    eapply (wp_brelse' dv c _ _ _ _ _ Hst2 Hcb Hcs b); [exact Hl1|by rewrite fset_eq|rewrite fset_eq; lia| |].
    { rewrite fset_eq, pins_pos by done. lia. }
    intros c3 b3 Hcc3 Hst3 _ Hw3. rewrite Hab in Hfin.
    eapply (Hfin _ _ (lh_n (lg s)) (lh_block (lg s))); cbn [lg lbio lset bio_lens]; rewrite ?Hg1; try done.
    + by destruct (lg s).
    + bst_agree Hst3.
    + congruence.
  - intros Hnin s3 Hlh3 Hg3 Hlen3 Hst3 Hsb3 Hw3. apply wp_zoom.
    assert (add_block b bs = bs ++ [b]) as Hab by (unfold add_block; by rewrite decide_False).
    eapply loaded_stable in Hl1; [|exact Hsb3|cbn [lbio]; rewrite (bst_refs _ _ _ _ _ _ _ Hst2), fset_eq; lia].
    rewrite pins_out in Hst3 by done.
    eapply (wp_brelse' dv c _ _ _ _ _ Hst3 Hcb Hcs b); [exact Hl1|by rewrite fset_eq|rewrite !fset_eq; lia| |].
    { rewrite !fset_eq. lia. }
    intros c4 b4 Hcc4 Hst4 _ Hw4. rewrite Hab in Hfin. rewrite !fset_eq in Hst4.
    eapply (Hfin _ _ (lh_n (lg s) + 1) (lh_block (lg s3))); cbn [lg lbio lset bio_lens]; try done.
    + eapply bst_ext_R with (R := fset (pins bs) b 1); [bst_agree Hst4|]. intros x. by rewrite pins_add.
    + cbn [lbio] in Hw3. congruence.
Qed.

(** [log_write] checks for room before it looks whether the block is in the transaction already:
    with a full log every write panics. *)
Lemma owrite_full c s bs V D out b d :
  lcpu c -> txn s bs V D out -> 0 <= b < 2147483648 -> Z.of_nat (length bs) = size - 1 ->
  run_lop (OWrite b d) c s = Panic "too big a transaction".
Proof.
  intros [[Hcb Hcs] Hcl] Ht Hb Hfull. destruct (Ht) as [[Hat1 Hat2] Hsz [Hn _] Htr Hlen Ho Hcm Hst Hcln Hhdr Hhl]. change LOGSIZE with 30 in *.
  pose proof (pins_bound bs b) as Hpb. destruct (wp_elim (lbread b) c s (fun c' s1 _ => c' = c /\ lg s1 = lg s)) as (c' & s1 & i & Hrun & -> & Hg1).
  { eapply (wp_lbread dv ltac:(lia) b c s V D (pins bs) nolock bs); [done|done|lia|done|done|lia|apply pins_in|right; change NBUF with 30%nat; lia|].
    intros s1 i _ _ _ _ Hg1. done. }
  cbn [run_lop]. unfold bind at 1. rewrite Hrun. cbn [obind]. unfold bind at 1, zoom at 1, write_data, upd_buf, modify. cbn [ozoom obind]. unfold bind at 1, log_write, bind at 1, acquire. rewrite decide_False by done.
  cbn [obind]. unfold bind at 1, gets at 1. cbn [obind lset bio_lens lg]. rewrite Hg1, Hsz, Hn, Hfull, !Z.geb_leb, Z.leb_refl, orb_true_r. done.
Qed.

(** ** Ending *)

(** What the disk goes through in one step: after every prefix of its writes the disk still
    stands for the old contents [D] or for the new contents [D'], on all blocks outside the
    log together; after all of them for the new ones. *)
Definition crash_step (D : Z -> block) (W : list (Z * block)) (D' : Z -> block) : Prop :=
  (forall b, fsets D W b = D' b) /\
  forall k, disk_ok start size (fsets D (take k W)) /\
    ((k < length W)%nat /\ (forall b, home start size b -> logical start (fsets D (take k W)) b = D b) \/
     (forall b, home start size b -> logical start (fsets D (take k W)) b = D' b)).

Lemma crash_step_nil D : hdr_n (D start) = 0 -> length (D start) = Z.to_nat BSIZE -> crash_step D [] D.
Proof.
  intros Hn Hl. split; [done|]. intros k. rewrite take_nil. split.
  - apply header_ok_nil; [lia|done|done].
  - right. intros b _. apply logical_empty. by apply hdr_n_nil.
Qed.

Lemma after_clean D V bs b : (forall b, b ∉ bs -> V b = D b) -> after D V bs b = V b.
Proof. intros Hc. unfold after. case_decide; [done|]. symmetry. by apply Hc. Qed.

Lemma crash_step_commit D V bs :
  trans_ok start size bs -> hdr_n (D start) = 0 -> length (D start) = Z.to_nat BSIZE ->
  (forall b, b ∉ bs -> V b = D b) -> V start = D start ->
  let W := commit_writes start V (V start) bs in
  crash_step D W (fsets D W) /\ (forall b, home start size b -> fsets D W b = V b) /\
  hdr_n (fsets D W start) = 0 /\ length (fsets D W start) = Z.to_nat BSIZE /\ (forall b, fsets V W b = fsets D W b).
Proof.
  intros Htr Hn Hl Hcl HVs W. pose proof (hdr_n_nil _ Hn) as Hh.
  assert (length (V start) = Z.to_nat BSIZE) as Hlv by congruence.
  assert (fsets D W start = put32 (enc_hdr (V start) bs) 0 0) as HWs.
  { unfold W, commit_writes. rewrite !app_assoc, fsets_snoc. apply fset_eq. }
  assert (forall b, home start size b -> fsets D W b = V b) as HV.
  { intros b Hb. rewrite <- (after_clean D V bs b Hcl).
    rewrite <- (crash_after start size D V bs (V start) Htr Hlv b Hb). symmetry. apply logical_empty.
    change (hdr (fsets D W start) = []). rewrite HWs. apply hdr_zero. by rewrite length_enc_hdr. }
  split_and!; [split; [done|]|done| | |].
  - intros k. split; [by apply crash_disk_ok|].
    destruct (decide (k <= length bs)%nat) as [Hk|Hk]; [left|right].
    + split. { unfold W, commit_writes. rewrite !length_app, length_slots, length_homes. simpl. lia. }
      intros b Hb. unfold W. rewrite (crash_any start size) by done. by rewrite decide_True.
    + intros b Hb. rewrite HV by done. unfold W. rewrite (crash_any start size) by done. rewrite decide_False by done.
      by apply after_clean.
  - rewrite HWs. apply hdr_n_zero. by rewrite length_enc_hdr.
  - rewrite HWs. by rewrite length_put32, length_enc_hdr.
  - intros b. apply fsets_agree. destruct (decide (b ∈ bs)) as [Hin|Hin]; [left|right; by apply Hcl].
    unfold W, commit_writes. rewrite !fmap_app, home_writes_fst. set_solver.
Qed.

Lemma wp_end_op c s bs V D out (Q : cpu -> logst -> unit -> Prop) :
  lcpu c -> txn s bs V D out -> 1 <= out ->
  (forall c' s' bs' V' D' W, same_cpu c c' -> txn s' bs' V' D' (out - 1) ->
     dwrites (lbio s') = reverse W ++ dwrites (lbio s) -> crash_step D W D' ->
     (forall b, home start size b -> V' b = V b) ->
     (if out =? 1 then bs' = [] /\ forall b, home start size b -> D' b = V b
      else bs' = bs /\ forall b, D' b = D b) -> Q c' s' tt) ->
  wp end_op c s Q.
Proof.
  intros Hlc Ht Hout HQ. destruct (Hlc) as [Hc Hcl]. pose proof Ht as Ht0.
  destruct Ht as [Hat Hsz Hlh Htr Hlen Ho Hcm Hst Hcln Hhdr Hhl].
  assert (crash_step D [] D) as Hnil by (by apply crash_step_nil).
  unfold end_op, upd_log. wp_steps. cbn [lg set_outstanding l_committing l_outstanding]. rewrite Hcm, Ho. cbn [Z.eqb negb].
  destruct (Z.eqb_spec out 1) as [->|Hne].
  2: { rewrite (proj2 (Z.eqb_neq _ _)) by lia. wp_steps. simpl held. rewrite remove_lock_head by done.
       by eapply (HQ _ _ bs V D []). }
  replace (1 - 1) with 0 in * by lia. cbn [Z.eqb]. wp_steps. simpl held. rewrite remove_lock_head by done. set (c1 := set_held (held c) _).
  assert (same_cpu c c1) as Hcc1 by done. assert (lcpu c1) as Hc1 by done.
  assert (forall c2 s2 bs2 V' D' W, same_cpu c1 c2 -> lg s2 = set_n 0 (set_committing 1 (set_outstanding 0 (lg s))) ->
    bst dv (lbio s2) V' D' (pins []) nolock -> dwrites (lbio s2) = reverse W ++ dwrites (lbio s) ->
    bs2 = @nil Z -> crash_step D W D' -> (forall b, V' b = D' b) -> (forall b, home start size b -> D' b = V b) ->
    hdr_n (D' start) = 0 -> length (D' start) = Z.to_nat BSIZE ->
    wp (acquire LLog ;; modify (fun s => mklogst (set_committing 0 (lg s)) (lbio s)) ;; wakeup ChLog ;; release LLog)
      c2 s2 Q) as Hfin.
  { intros c2 s2 bs2 V' D' W Hcc2 Hg2 Hst2 Hw2 -> Hcr HVD HDV Hh Hl.
    assert (lcpu c2) as [_ Hcl2] by (by eapply same_lcpu). wp_steps. simpl held. rewrite remove_lock_head by done.
    eapply (HQ _ _ [] V' D' W); try done.
    - split; simpl; rewrite ?Hg2; simpl; try done; [apply lh_is_nil|apply trans_ok_nil; lia].
    - intros b Hb. rewrite HVD. by apply HDV. }
  set (s1 := mklogst (set_committing 1 (set_outstanding 0 (lg s))) (lbio s)).
  destruct (decide (bs = [])) as [->|Hbs].
  - destruct (Hlh) as [Hn _]. unfold commit. wp_step. wp_step. subst s1. cbn [lg set_committing set_outstanding lh_n].
    rewrite Hn. simpl. apply wp_ret.
    eapply (Hfin _ _ [] V D []); try done.
    + by apply set_n_id.
    + intros b. apply Hcln. set_solver.
    + intros b _. symmetry. apply Hcln. set_solver.
  - destruct (crash_step_commit D V bs) as (Hcr & HDV & Hh & Hl & HVD); try done.
    { apply Hcln. by eapply start_not_in. }
    eapply (wp_commit dv start size ltac:(lia) Hstart Hend c1 s1 V D (pins bs) bs bs); try done.
    + intros b Hb. apply pins_out. intros Hin. pose proof (tr_home _ _ _ Htr) as Hf. rewrite Forall_forall in Hf.
      by apply (Hf b Hin).
    + intros b. pose proof (pins_bound bs b). lia.
    + intros b. apply pins_in.
    + intros b Hb. rewrite pins_pos by done. lia.
    + pose proof (tr_size _ _ _ Htr). change LOGSIZE with 30 in *. change NBUF with 30%nat. lia.
    + intros c2 s2 Hcc2 Hg2 Hst2 Hw2. eapply (Hfin _ _ []); try done.
      eapply bst_ext_R; [exact Hst2|]. intros b. unfold unpinned, pins. simpl. by repeat case_decide.
Qed.

(** * Refinement *)

(** The log holds the atomic store [a] over the disk [D]. *)
Definition sim (s : logst) (a : astore) (D : Z -> block) : Prop :=
  exists V, txn s (a_blocks a) V D (a_out a) /\ (forall b, home start size b -> V b = a_cur a b) /\
    (forall b, home start size b -> D b = a_stable a b).

Lemma lop_step o c s a D :
  lcpu c -> sim s a D -> lguard o a ->
  wp (run_lop o) c s (fun c' s' _ => same_cpu c c' /\ exists D' W, sim s' (astep o a) D' /\
    dwrites (lbio s') = reverse W ++ dwrites (lbio s) /\ crash_step D W D').
Proof.
  intros Hc (V & Ht & HV & HD) Hg.
  assert (crash_step D [] D) as Hnil by (apply crash_step_nil; apply Ht).
  destruct o as [|b d|]; cbn [lguard] in Hg.
  - eapply wp_begin_op; try done. intros s' Ht' Hw. split; [done|]. exists D, []. split_and!; try done.
    by exists V.
  - destruct Hg as (Ho & Hb & Hr & Hl). eapply wp_owrite; try done. intros c' s' Hcc Ht' Hw. split; [done|].
    exists D, []. split_and!; try done. exists (fset V b d). split_and!; [done| |done].
    intros x Hx. simpl. unfold fset. case_match; [done|by apply HV].
  - eapply wp_end_op; try done. intros c' s' bs' V' D' W Hcc Ht' Hw Hcr HV' HD'. split; [done|].
    exists D', W. split_and!; try done. exists V'. cbn [astep]. destruct (Z.eqb_spec (a_out a) 1) as [Ho|Ho].
    + destruct HD' as [-> HD']. rewrite Ho in Ht'. split_and!; [done|..]; simpl; intros b Hb.
      * by rewrite HV', HV.
      * by rewrite HD', HV.
    + destruct HD' as [-> HD']. split_and!; [done|..]; simpl; intros b Hb.
      * by rewrite HV', HV.
      * by rewrite HD', HD.
Qed.

Lemma logical_ext X Y b : (forall x, X x = Y x) -> logical start X b = logical start Y b.
Proof. intros He. unfold logical. rewrite He. destruct (list_find _ _) as [[t ?]|]; apply He. Qed.
Lemma disk_ok_ext X Y : (forall x, X x = Y x) -> disk_ok start size X -> disk_ok start size Y.
Proof. intros He. unfold disk_ok. by rewrite He. Qed.

(** After any number of its writes, the disk of a run stands for the stable contents after
    some of its operations. *)
Definition crash_run (D : Z -> block) (W : list (Z * block)) (os : list lop) (a : astore) : Prop :=
  forall k, disk_ok start size (fsets D (take k W)) /\
    exists j, (j <= length os)%nat /\ ((length W <= k)%nat -> j = length os) /\
      forall b, home start size b -> logical start (fsets D (take k W)) b = a_stable (arun (take j os) a) b.

Lemma crash_run_cons D W1 D' W2 o os a :
  (forall b, home start size b -> D b = a_stable a b) ->
  (forall b, home start size b -> D' b = a_stable (astep o a) b) ->
  crash_step D W1 D' -> crash_run D' W2 os (astep o a) -> crash_run D (W1 ++ W2) (o :: os) a.
Proof.
  intros Ha Ha' [Hall Hst] Hrun k. rewrite length_app. destruct (decide (k < length W1)%nat) as [Hk|Hk].
  - rewrite take_app_le by lia. destruct (Hst k) as [Hok Hcase]. split; [done|].
    destruct Hcase as [[_ Hd]|Hd]; [exists 0%nat|exists 1%nat]; simpl; split_and!; try lia; intros b Hb; rewrite Hd; auto.
  - destruct (Hrun (k - length W1)%nat) as (Hok & j & Hj & Hlast & Hd).
    assert (forall x, fsets D' (take (k - length W1) W2) x = fsets D (take k (W1 ++ W2)) x) as He.
    { intros x. rewrite take_app, (take_ge W1) by lia. rewrite fsets_app. symmetry. by apply fsets_ext. }
    split; [by eapply disk_ok_ext|]. exists (S j). simpl. split_and!; [lia|lia|].
    intros b Hb. rewrite <- (logical_ext _ _ b He). auto.
Qed.

Lemma wp_run_lops os c s a D :
  lcpu c -> sim s a D -> lguards os a ->
  wp (run_lops os) c s (fun c' s' _ => same_cpu c c' /\ exists D' W, sim s' (arun os a) D' /\
    dwrites (lbio s') = reverse W ++ dwrites (lbio s) /\ crash_run D W os a).
Proof.
  revert c s a D. induction os as [|o os IH]; intros c s a D Hc Hs Hg; cbn [run_lops arun lguards] in *.
  - apply wp_ret. split; [done|]. exists D, []. split_and!; try done. intros k. rewrite take_nil.
    destruct Hs as (V & Ht & _ & HD). split.
    + apply header_ok_nil; [lia|apply Ht|apply Ht].
    + exists 0%nat. split_and!; [lia|done|]. intros b Hb. simpl. rewrite logical_empty; [by apply HD|].
      apply hdr_n_nil. apply Ht.
  - destruct Hg as [Hg Hgs]. wp_step. eapply wp_mono; [by apply lop_step|].
    intros c1 s1 [] (Hcc & D1 & W1 & Hs1 & Hw1 & Hcr). eapply wp_mono; [apply (IH c1 s1 (astep o a) D1); [by eapply same_lcpu|done|done]|].
    intros c2 s2 [] (Hcc2 & D2 & W2 & Hs2 & Hw2 & Hrun). split; [by eapply same_cpu_trans|].
    exists D2, (W1 ++ W2). split_and!; [done| |].
    + by rewrite Hw2, Hw1, reverse_app, app_assoc.
    + destruct Hs as (V & _ & _ & HD), Hs1 as (V1 & _ & _ & HD1). by eapply crash_run_cons.
Qed.

(** * Booting *)

(** The memory of a machine that has just been switched on with the disk [D]. *)
Definition boot_state (D : Z -> block) : logst := mklogst (mklog 0 0 0 0 0 0 (replicate (Z.to_nat LOGSIZE) 0)) (bio0 D).

(** The cache, then the log: [binit] in [main], [initlog] in [fsinit]. *)
Definition boot (dev : Z) (sb : superblock) : M logst unit := zoom bio_lens binit ;; initlog dev sb.

(** [initlog] with a cache that agrees with the disk. *)
Lemma wp_initlog sb D c s (Q : cpu -> logst -> unit -> Prop) :
  lcpu c -> sb_logstart sb = start -> sb_nlog sb = size -> disk_ok start size D ->
  bst dv (lbio s) D D (fun _ => 0) nolock -> length (lh_block (lg s)) = Z.to_nat LOGSIZE ->
  l_outstanding (lg s) = 0 -> l_committing (lg s) = 0 ->
  (forall c' s' D', same_cpu c c' -> sim s' (mkast (logical start D) (logical start D) [] 0) D' ->
    dwrites (lbio s') = reverse (recover_writes start D) ++ dwrites (lbio s) ->
    (forall b, fsets D (recover_writes start D) b = D' b) -> Q c' s' tt) ->
  wp (initlog dv sb) c s Q.
Proof.
  intros [Hc Hll] Hsb1 Hsb2 [Htr Hn Hl] Hst Hlh Hout Hcom HQ. unfold initlog. change (4 + 4 * LOGSIZE >=? BSIZE) with false. cbv iota.
  unfold upd_log. wp_steps. rewrite Hsb1, Hsb2, !s32_small, set_held_id by (done || lia).
  eapply (wp_recover_from_log dv start size ltac:(lia) Hstart Hend c _ D D (fun _ => 0) []); try done; try lia.
  - change NBUF with 30%nat. simpl. lia.
  - intros c' s' Hcc Hat Hlh' Hsz Ho Hcm Hln Hst' Hw'. apply (HQ c' s' (fsets D (recover_writes start D))); try done.
    exists (fsets D (recover_writes start D)). cbn [a_blocks a_out a_cur a_stable].
    assert (fsets D (recover_writes start D) start = put32 (D start) 0 0) as Hs0.
    { unfold recover_writes. rewrite fsets_snoc. apply fset_eq. }
    split_and!; [|by intros; apply (recover_final start size)..].
    split; try done; [apply trans_ok_nil; lia|by rewrite Ho|by rewrite Hcm|rewrite Hs0; by apply hdr_n_zero|rewrite Hs0; by rewrite length_put32].
Qed.

Lemma wp_boot sb D p n w :
  sb_logstart sb = start -> sb_nlog sb = size -> disk_ok start size D ->
  wp (boot dv sb) (mkcpu [] p n w 0 []) (boot_state D) (fun c' s' _ => same_cpu (mkcpu [] p n w 0 []) c' /\
    exists D', sim s' (mkast (logical start D) (logical start D) [] 0) D' /\
    dwrites (lbio s') = reverse (recover_writes start D) /\ (forall b, fsets D (recover_writes start D) b = D' b)).
Proof.
  intros Hsb1 Hsb2 Hok. unfold boot. wp_step. apply wp_zoom.
  destruct (binit_run D p n w) as (b1 & Hrun & Hd1 & Hw1 & Hbufs). unfold wp at 1. cbn [lget bio_lens lbio boot_state].
  rewrite Hrun. clear Hrun. cbn [lset bio_lens].
  eapply (wp_initlog sb D); try done; [|by apply boot_bst; first [lia|done]|].
  - split; [split|]; simpl; intros; apply not_elem_of_nil.
  - intros c' s' D' Hcc Hs Hw HD. split; [done|]. exists D'. split_and!; try done. rewrite Hw. cbn [lbio]. by rewrite Hw1, app_nil_r.
Qed.

Lemma recover_crash_run D W os a :
  disk_ok start size D -> (forall b, home start size b -> a_stable a b = logical start D b) ->
  crash_run (fsets D (recover_writes start D)) W os a -> crash_run D (recover_writes start D ++ W) os a.
Proof.
  intros Hok Ha Hrun k. rewrite length_app. destruct (decide (k < length (recover_writes start D))%nat) as [Hk|Hk].
  - rewrite take_app_le by lia. split; [apply recover_disk_ok; first [done | apply Hok | lia]|].
    exists 0%nat. split_and!; [lia|lia|]. intros b Hb. simpl. rewrite Ha by done. apply (recover_crash start size); [apply Hok|apply Hok|done].
  - destruct (Hrun (k - length (recover_writes start D))%nat) as (Hok' & j & Hj & Hlast & Hd).
    rewrite take_app, (take_ge (recover_writes start D)) by lia.
    assert (forall x, fsets (fsets D (recover_writes start D)) (take (k - length (recover_writes start D)) W) x =
      fsets D (recover_writes start D ++ take (k - length (recover_writes start D)) W) x) as He
      by (intros x; by rewrite fsets_app).
    split; [by eapply disk_ok_ext|]. exists j. split_and!; [done|lia|].
    intros b Hb. rewrite <- (logical_ext _ _ b He). auto.
Qed.
End txn.
