(* ===== verification/LogProps.v ===== *)
(** Properties of the buffer cache and of the log. *)
From S2P Require Import Prelude Sleeplock Bio BioInv BioSpec Log LogPure LogSpec LogTxn.

(** * The cache is transparent *)

(** A client's reads and writes of whole blocks. *)
Inductive bop := BRead (b : Z) | BWrite (b : Z) (d : block).

Definition run_bop (dev : Z) (o : bop) : M bio block :=
  match o with
  | BRead b => i <- bread dev b ;; x <- get_buf i ;; brelse i ;; ret (b_data x)
  | BWrite b d => i <- bread dev b ;; write_data i d ;; bwrite i ;; brelse i ;; ret d
  end.

Fixpoint run_bops (dev : Z) (os : list bop) : M bio (list block) :=
  match os with
  | [] => ret []
  | o :: os' => d <- run_bop dev o ;; ds <- run_bops dev os' ;; ret (d :: ds)
  end.

(** The same operations on the disk itself. *)
Fixpoint disk_run (D : Z -> block) (os : list bop) : list block * (Z -> block) :=
  match os with
  | [] => ([], D)
  | BRead b :: os' => let r := disk_run D os' in (D b :: r.1, r.2)
  | BWrite b d :: os' => let r := disk_run (fset D b d) os' in (d :: r.1, r.2)
  end.

Section cache.
Context (dv : Z).

Lemma wp_run_bop o c s D (Q : cpu -> bio -> block -> Prop) :
  cpu_ok c -> bst dv s D D (fun _ => 0) nolock ->
  (forall c' s', same_cpu c c' ->
     bst dv s' (disk_run D [o]).2 (disk_run D [o]).2 (fun _ => 0) nolock -> Q c' s' (default [] (head (disk_run D [o]).1))) ->
  wp (run_bop dv o) c s Q.
Proof.
  intros Hc Hst HQ. destruct (Hc) as [Hcb Hcs]. destruct o as [b|b d]; cbn [run_bop disk_run head default fst snd] in *.
  - wp_step. eapply (wp_bread' dv c s _ _ _ _ Hst Hcb Hcs b []); [done|lia|lia|right; change NBUF with 30%nat; simpl; lia|].
    intros s1 i Hst1 Hl1 _ _. unfold get_buf. wp_step. wp_step. wp_step.
    eapply (wp_brelse' dv c _ _ _ _ _ Hst1 Hcb Hcs b); [exact Hl1|by rewrite fset_eq|rewrite fset_eq; lia|done|].
    intros c2 s2 Hcc Hst2 _ _. wp_step. rewrite (loaded_content _ _ _ _ Hl1), (bst_content _ _ _ _ _ _ _ Hst1).
    apply HQ; [done|]. bst_agree Hst2.
  - wp_step. eapply (wp_bread' dv c s _ _ _ _ Hst Hcb Hcs b []); [done|lia|lia|right; change NBUF with 30%nat; simpl; lia|].
    intros s1 i Hst1 Hl1 _ _. wp_step. eapply (wp_write_data' dv c _ _ _ _ _ Hst1 b); [done|rewrite fset_eq; lia|].
    intros s2 Hst2 Hsb2 _. still Hst1 Hsb2 Hl1. wp_step.
    eapply (wp_bwrite' dv c _ _ _ _ _ Hst2 Hcs b); [exact Hl1|by rewrite fset_eq|rewrite fset_eq; lia|].
    intros s3 Hst3 Hsb3 _. still Hst2 Hsb3 Hl1. wp_step. rewrite fset_eq in Hst3.
    eapply (wp_brelse' dv c _ _ _ _ _ Hst3 Hcb Hcs b); [exact Hl1|by rewrite fset_eq|rewrite fset_eq; lia|by rewrite !fset_eq|].
    intros c4 s4 Hcc Hst4 _ _. wp_step. apply HQ; [done|]. bst_agree Hst4.
Qed.

Lemma wp_run_bops os c s D :
  cpu_ok c -> bst dv s D D (fun _ => 0) nolock ->
  wp (run_bops dv os) c s (fun c' s' ds => same_cpu c c' /\ ds = (disk_run D os).1 /\
    bst dv s' (disk_run D os).2 (disk_run D os).2 (fun _ => 0) nolock).
Proof.
  revert c s D. induction os as [|o os IH]; intros c s D Hc Hst; cbn [run_bops disk_run].
  - by apply wp_ret.
  - wp_step. eapply wp_run_bop; [done|exact Hst|]. intros c1 s1 Hcc Hst1. wp_step.
    eapply wp_mono; [apply (IH c1 s1 (disk_run D [o]).2); [by eapply same_cpu_ok|done]|].
    intros c2 s2 ds (Hcc2 & -> & Hst2). wp_step. split; [by eapply same_cpu_trans|]. by destruct o.
Qed.
End cache.

(** C20 The buffer cache is transparent: from boot, any sequence of reads and write-throughs of
    any blocks returns what the same sequence on the bare disk returns and leaves the same
    disk, whatever is evicted on the way; no operation panics or waits. *)
Theorem bcache_transparent (dv : Z) (D : Z -> block) (os : list bop) (p : Z) (n : nat) :
  dv <> 0 ->
  exists c s, (binit ;; run_bops dv os) (mkcpu [] p n [] 0 []) (bio0 D) = Ret c s (disk_run D os).1 /\
    (forall b, dsk s b = (disk_run D os).2 b) /\ forall b, refs dv s b = 0.
Proof.
  intros Hdv. assert (wp (binit ;; run_bops dv os) (mkcpu [] p n [] 0 []) (bio0 D) (fun c s ds => ds = (disk_run D os).1 /\
    (forall b, dsk s b = (disk_run D os).2 b) /\ forall b, refs dv s b = 0)) as H.
  { wp_step. destruct (binit_run D p n []) as (s1 & Hrun & Hd & _ & Hb). unfold wp at 1. rewrite Hrun. clear Hrun.
    eapply wp_mono; [apply (wp_run_bops dv os _ s1 D); [|by apply boot_bst]|].
    - split; simpl; [apply not_elem_of_nil|intros i; apply not_elem_of_nil].
    - intros c2 s2 ds (_ & -> & Hst). split_and!; [done|apply Hst|]. intros b. by rewrite (bst_refs _ _ _ _ _ _ _ Hst). }
  apply wp_elim in H as (c & s & ds & Hrun & Hds & H2). rewrite Hds in Hrun. exists c, s. exact (conj Hrun H2).
Qed.

Lemma bcache_transparent_witness :
  1 <> 0 /\ exists c s, (binit ;; run_bops 1 [BWrite 7 [1]; BRead 9; BRead 7]) (mkcpu [] 3 0 [] 0 []) (bio0 (fun b => [b]))
    = Ret c s [[1]; [9]; [1]].
Proof.
  split; [done|]. destruct (bcache_transparent 1 (fun b => [b]) [BWrite 7 [1]; BRead 9; BRead 7] 3 0 ltac:(done)) as (c & s & H & _).
  exists c, s. exact H.
Defined.

(** * The log *)

(** C1 Crash safety. Boot a machine from any disk with a well-formed log header and run any
    admitted sequence of [begin_op], logged writes and [end_op] of any number of overlapping
    system calls. The run returns, and the cached contents are those of the atomic store. Cut
    the power after any number [k] of the disk writes (those of the boot's own recovery
    included) and boot again: recovery returns, and every block outside the log is as in the
    stable contents of the atomic store after some prefix of the operations, the whole run
    if all its writes were done; so a transaction is there entirely or not at all. *)
Theorem log_crash_safe (dv : Z) (sb : superblock) (D : Z -> block) (os : list lop) (p : Z) (n : nat) :
  let start := sb_logstart sb in
  let size := sb_nlog sb in
  let a0 := mkast (logical start D) (logical start D) [] 0 in
  0 < dv < 4294967296 -> 0 <= start -> start + size < 2147483648 -> 2 <= size <= LOGSIZE ->
  disk_ok start size D -> lguards start size os a0 ->
  exists c s W,
    (boot dv sb ;; run_lops os) (mkcpu [] p n [] 0 []) (boot_state D) = Ret c s tt /\
    dwrites (lbio s) = reverse W /\
    (forall b, home start size b -> content dv (lbio s) b = a_cur (arun os a0) b) /\
    forall k, exists j c2 s2, (j <= length os)%nat /\ ((length W <= k)%nat -> j = length os) /\
      boot dv sb (mkcpu [] p n [] 0 []) (boot_state (fsets D (take k W))) = Ret c2 s2 tt /\
      forall b, home start size b -> dsk (lbio s2) b = a_stable (arun (take j os) a0) b.
Proof.
  intros start size a0 Hdv Hstart Hend Hsize Hok Hg.
  assert (wp (boot dv sb ;; run_lops os) (mkcpu [] p n [] 0 []) (boot_state D) (fun c s _ => exists D' W,
    sim dv start size s (arun os a0) D' /\ dwrites (lbio s) = reverse W /\ crash_run start size D W os a0)) as H.
  { wp_step. eapply wp_mono; [by apply (wp_boot dv start size)|].
    intros c1 s1 [] (Hcc & D1 & Hs1 & Hw1 & HD1).
    eapply wp_mono; [apply (wp_run_lops dv start size Hdv Hstart Hend Hsize os c1 s1 a0 D1); [|done|done]|].
    - eapply same_lcpu; [done|]. split; [split|]; simpl; intros; apply not_elem_of_nil.
    - intros c2 s2 [] (_ & D2 & W2 & Hs2 & Hw2 & Hrun). exists D2, (recover_writes start D ++ W2). split_and!; [done| |].
      + by rewrite Hw2, Hw1, reverse_app.
      + apply (recover_crash_run start size); try done. intros k. destruct (Hrun k) as (Hk & j & Hj & Hl & Hd).
        assert (forall x, fsets D1 (take k W2) x = fsets (fsets D (recover_writes start D)) (take k W2) x) as He
          by (intros x; symmetry; by apply fsets_ext).
        split; [by eapply disk_ok_ext|]. exists j. split_and!; [done|done|]. intros b Hb.
        rewrite <- (logical_ext start _ _ b He). by apply Hd. }
  apply wp_elim in H as (c & s & [] & Hrun & D' & W & (V & Ht & HV & _) & Hw & Hcr).
  exists c, s, W. refine (conj Hrun (conj Hw (conj _ _))).
  - intros b Hb. rewrite (bst_content _ _ _ _ _ _ _ (tx_bst _ _ _ _ _ _ _ _ Ht)). by apply HV.
  - intros k. destruct (Hcr k) as (Hk & j & Hj & Hl & Hd).
    assert (wp (boot dv sb) (mkcpu [] p n [] 0 []) (boot_state (fsets D (take k W))) (fun c s _ =>
      forall b, home start size b -> dsk (lbio s) b = logical start (fsets D (take k W)) b)) as H.
    { eapply wp_mono; [by apply (wp_boot dv start size)|]. intros c2 s2 [] (_ & D2 & (V2 & Ht2 & _ & HD2) & _).
      intros b Hb. rewrite (st_dsk _ _ _ _ _ _ (tx_bst _ _ _ _ _ _ _ _ Ht2)). by apply HD2. }
    apply wp_elim in H as (c2 & s2 & [] & Hb2 & Hdsk). exists j, c2, s2. refine (conj Hj (conj Hl (conj Hb2 _))).
    intros b Hb. rewrite Hdsk by exact Hb. exact (Hd b Hb).
Qed.

(** Two overlapping system calls that write the same block and another one. *)
Definition demo_sb : superblock := mksb 270544960 2000 1000 200 30 2 32 45.
Definition demo_disk : Z -> block := fun _ => replicate 1024 0.
Definition demo_ops : list lop := [OBegin; OWrite 100 [1]; OBegin; OWrite 101 [2]; OEnd; OWrite 100 [3]; OEnd].

Lemma log_crash_safe_witness :
  lguards 2 30 demo_ops (mkast (logical 2 demo_disk) (logical 2 demo_disk) [] 0) /\
  exists c s W, (boot 1 demo_sb ;; run_lops demo_ops) (mkcpu [] 1 0 [] 0 []) (boot_state demo_disk) = Ret c s tt /\
    dwrites (lbio s) = reverse W.
Proof.
  assert (lguards 2 30 demo_ops (mkast (logical 2 demo_disk) (logical 2 demo_disk) [] 0)) as Hg.
  { unfold demo_ops, lguards, lguard, home, LOGSIZE, MAXOPBLOCKS. cbn [astep a_out a_blocks]. split_and!; first [lia | by vm_compute]. }
  split; [exact Hg|].
  destruct (log_crash_safe 1 demo_sb demo_disk demo_ops 1 0) as (c & s & W & Hrun & Hw & _).
  - lia.
  - vm_compute. done.
  - vm_compute. done.
  - vm_compute. done.
  - change (header_ok 2 30 (replicate 1024 0)). apply header_ok_nil; [lia|reflexivity|reflexivity].
  - exact Hg.
  - exists c, s, W. split; [exact Hrun|exact Hw].
Defined.

(** When a commit is under way, or the reservations of the open calls and of this one could
    exceed the log, [begin_op] changes nothing and sleeps on the log's channel, holding the
    log's lock (which [sleep] gives up) and nothing else. *)
Lemma begin_op_waits c s :
  held c = [] ->
  l_committing (lg s) <> 0 \/ LOGSIZE < lh_n (lg s) + (l_outstanding (lg s) + 1) * MAXOPBLOCKS ->
  exists c' k, begin_op c s = Sleep ChLog c' s k /\ held c' = [LLog].
Proof.
  intros Hc Hs. unfold begin_op, bind at 1, acquire. rewrite Hc.
  rewrite decide_False by apply not_elem_of_nil.
  unfold sleep_loop, getcpu, gets. unfold bind. cbn [obind]. rewrite loop_S. unfold bind. cbn [obind].
  destruct (Z.eqb_spec (l_committing (lg s)) 0); cbn [negb].
  - destruct (Z.gtb_spec (lh_n (lg s) + (l_outstanding (lg s) + 1) * MAXOPBLOCKS) LOGSIZE); [|lia].
    unfold sleep. cbn [held set_held]. rewrite !decide_True by (done || set_solver).
    destruct (wakeups _); cbn [obind]; eauto.
  - unfold sleep. cbn [held set_held]. rewrite !decide_True by (done || set_solver).
    destruct (wakeups _); cbn [obind]; eauto.
Qed.

Lemma begin_op_waits_witness :
  exists c' k, begin_op (mkcpu [] 1 0 [] 0 []) (mklogst (mklog 2 30 3 0 1 0 []) (bio0 demo_disk)) =
    Sleep ChLog c' (mklogst (mklog 2 30 3 0 1 0 []) (bio0 demo_disk)) k /\ held c' = [LLog].
Proof. apply begin_op_waits; [reflexivity|]. right. vm_compute. reflexivity. Defined.

(** * The reservation of [begin_op]

    It counts [LOGSIZE] blocks, but a log of [LOGSIZE] blocks has one of them for its header,
    which [log_write] accounts for. *)

(** What comes after a run that returned. *)
Lemma run_lops_snoc os o c s c' s' : run_lops os c s = Ret c' s' tt -> run_lops (os ++ [o]) c s = (run_lop o ;; ret tt) c' s'.
Proof.
  revert c s. induction os as [|x os IH]; intros c s; cbn [run_lops app].
  - by intros [= -> ->].
  - unfold bind at 1 2. destruct (run_lop x c s) as [c1 s1 []| | |]; cbn [obind]; try done. apply IH.
Qed.

(** C36: The reservation does not cover the log's header. Boot from any disk with a well-formed log header and run any
    sequence of operations that [begin_op] and [log_write] admit, after which the open transaction
    has [size - 1] blocks. Then the next logged write panics, of whatever block, also one that
    is in the transaction already. In a log of [LOGSIZE] blocks, as mkfs makes it, three system calls that write no
    more than the ten blocks each has reserved get there: [begin_op] has admitted all three of them. *)
Theorem log_reservation_overrun (dv : Z) (sb : superblock) (D : Z -> block) (os : list lop) (b : Z) (d : block) (p : Z) (n : nat) :
  let start := sb_logstart sb in
  let size := sb_nlog sb in
  let a := arun os (mkast (logical start D) (logical start D) [] 0) in
  0 < dv < 4294967296 -> 0 <= start -> start + size < 2147483648 -> 2 <= size <= LOGSIZE ->
  disk_ok start size D -> lguards start size os (mkast (logical start D) (logical start D) [] 0) ->
  Z.of_nat (length (a_blocks a)) = size - 1 -> 0 <= b < 2147483648 ->
  (boot dv sb ;; run_lops (os ++ [OWrite b d])) (mkcpu [] p n [] 0 []) (boot_state D) = Panic "too big a transaction".
Proof.
  intros start size a Hdv Hstart Hend Hsize Hok Hg Hfull Hb. pose proof (wp_boot dv start size Hdv Hstart Hend Hsize sb D p n [] eq_refl eq_refl Hok) as H.
  apply wp_elim in H as (c1 & s1 & [] & Hr1 & Hcc & D1 & Hs1 & _).
  assert (lcpu c1) as Hc1 by (eapply same_lcpu; [done|]; split; [split|]; simpl; intros; apply not_elem_of_nil).
  pose proof (wp_run_lops dv start size Hdv Hstart Hend Hsize os c1 s1 _ D1 Hc1 Hs1 Hg) as H. apply wp_elim in H as (c2 & s2 & [] & Hr2 & Hcc2 & D2 & W & (V & Ht & _) & _).
  unfold bind at 1. rewrite Hr1. cbn [obind]. rewrite (run_lops_snoc _ _ _ _ _ _ Hr2). unfold bind at 1.
  rewrite (owrite_full dv start size Hdv Hsize c2 s2 _ V D2 _ b d ltac:(by eapply same_lcpu) Ht Hb Hfull). done.
Qed.

(** Three system calls open, of which two have written the ten blocks they have reserved, and the
    third nine. *)
Definition full_ops : list lop :=
  [OBegin; OBegin; OBegin] ++ ((fun i => OWrite (100 + Z.of_nat i) []) <$> seq 0 29).

Lemma log_reservation_overrun_witness :
  a_out (arun full_ops (mkast (logical 2 demo_disk) (logical 2 demo_disk) [] 0)) * MAXOPBLOCKS = 29 + 1 /\
  (boot 1 demo_sb ;; run_lops (full_ops ++ [OWrite 129 []])) (mkcpu [] 1 0 [] 0 []) (boot_state demo_disk) = Panic "too big a transaction".
Proof.
  split; [by vm_compute|]. apply (log_reservation_overrun 1 demo_sb demo_disk full_ops 129 [] 1 0).
  - lia.
  - vm_compute. done.
  - vm_compute. done.
  - vm_compute. done.
  - change (header_ok 2 30 (replicate 1024 0)). apply header_ok_nil; [lia|reflexivity|reflexivity].
  - change (sb_logstart demo_sb) with 2. change (sb_nlog demo_sb) with 30. unfold full_ops. cbn [app fmap list_fmap seq lguards lguard astep a_out a_blocks]. unfold home, LOGSIZE, MAXOPBLOCKS.
    split_and!; first [lia | by vm_compute].
  - by vm_compute.
  - lia.
Defined.
