(* ===== verification/Fs.v ===== *)
(** The lower layers of the file system, kernel/fs.c: block allocator, inode table, inode
    contents. Reading and writing files, directories and paths are in FsFile.v.

    The state is the superblock copy [sb], the inode table and the log. Pointers into the
    table are indices, on-disk structures are byte ranges of blocks. *)
From S2P Require Import Prelude Sleeplock Bio Log.

Definition FSMAGIC : Z := 0x10203040.
Definition ROOTINO : Z := 1.
Definition NDIRECT : Z := 12.
Definition NINDIRECT : Z := BSIZE / 4.
Definition MAXFILE : Z := NDIRECT + NINDIRECT.
(** [sizeof(struct dinode)] is 64. *)
Definition DINODE : Z := 64.
Definition IPB : Z := BSIZE / DINODE.
Definition BPB : Z := BSIZE * 8.
Definition DIRSIZ : nat := 14.
Definition NINODE : nat := 50.
Definition T_DIR : Z := 1.
Definition T_FILE : Z := 2.
Definition T_DEVICE : Z := 3.

(** * State *)

Record inode := mkinode {
  i_dev : Z; i_inum : Z; i_ref : Z; i_lock : sleeplock; i_valid : Z;
  i_type : Z; i_major : Z; i_minor : Z; i_nlink : Z; i_size : Z; i_addrs : list Z }.

Record fsst := mkfs { fs_sb : superblock; fs_itable : nat -> inode; fs_log : logst }.

Definition flog : lens fsst logst := mklens fs_log (fun l s => mkfs (fs_sb s) (fs_itable s) l).
Definition fbio : lens fsst bio :=
  mklens (fun s => lbio (fs_log s)) (fun b s => mkfs (fs_sb s) (fs_itable s) (mklogst (lg (fs_log s)) b)).

Definition upd_itable (i : nat) (f : inode -> inode) (t : nat -> inode) : nat -> inode :=
  fun j => if decide (j = i) then f (t i) else t j.
Definition upd_inode (i : nat) (f : inode -> inode) : M fsst unit :=
  modify (fun s => mkfs (fs_sb s) (upd_itable i f (fs_itable s)) (fs_log s)).
Definition get_inode (i : nat) : M fsst inode := gets (fun s => fs_itable s i).
Definition set_sb (sb : superblock) : M fsst unit := modify (fun s => mkfs sb (fs_itable s) (fs_log s)).
Definition get_sb : M fsst superblock := gets fs_sb.

Definition set_ref (n : Z) (x : inode) : inode :=
  mkinode (i_dev x) (i_inum x) n (i_lock x) (i_valid x) (i_type x) (i_major x) (i_minor x) (i_nlink x) (i_size x) (i_addrs x).
Definition set_ilock (l : sleeplock) (x : inode) : inode :=
  mkinode (i_dev x) (i_inum x) (i_ref x) l (i_valid x) (i_type x) (i_major x) (i_minor x) (i_nlink x) (i_size x) (i_addrs x).
Definition set_ivalid (v : Z) (x : inode) : inode :=
  mkinode (i_dev x) (i_inum x) (i_ref x) (i_lock x) v (i_type x) (i_major x) (i_minor x) (i_nlink x) (i_size x) (i_addrs x).
Definition set_type (t : Z) (x : inode) : inode :=
  mkinode (i_dev x) (i_inum x) (i_ref x) (i_lock x) (i_valid x) t (i_major x) (i_minor x) (i_nlink x) (i_size x) (i_addrs x).
Definition set_nlink (n : Z) (x : inode) : inode :=
  mkinode (i_dev x) (i_inum x) (i_ref x) (i_lock x) (i_valid x) (i_type x) (i_major x) (i_minor x) n (i_size x) (i_addrs x).
Definition set_devno (mj mn : Z) (x : inode) : inode :=
  mkinode (i_dev x) (i_inum x) (i_ref x) (i_lock x) (i_valid x) (i_type x) mj mn (i_nlink x) (i_size x) (i_addrs x).
Definition set_size (n : Z) (x : inode) : inode :=
  mkinode (i_dev x) (i_inum x) (i_ref x) (i_lock x) (i_valid x) (i_type x) (i_major x) (i_minor x) (i_nlink x) n (i_addrs x).
Definition set_addrs (l : list Z) (x : inode) : inode :=
  mkinode (i_dev x) (i_inum x) (i_ref x) (i_lock x) (i_valid x) (i_type x) (i_major x) (i_minor x) (i_nlink x) (i_size x) l.
(** The stores of [iget] that recycle an entry. *)
Definition recycle_inode (dev inum : Z) (x : inode) : inode :=
  mkinode dev inum 1 (i_lock x) 0 (i_type x) (i_major x) (i_minor x) (i_nlink x) (i_size x) (i_addrs x).
(** [ip->addrs[k] = a] *)
Definition set_addr (k a : Z) (x : inode) : inode := set_addrs (<[Z.to_nat k := a]> (i_addrs x)) x.
(** [ip->addrs[k]] *)
Definition addr_at (x : inode) (k : Z) : Z := default 0 (i_addrs x !! Z.to_nat k).

(** The sleep lock of an inode. *)
Definition ilock_lens (i : nat) : lens fsst sleeplock :=
  mklens (fun s => i_lock (fs_itable s i))
         (fun l s => mkfs (fs_sb s) (upd_itable i (set_ilock l) (fs_itable s)) (fs_log s)).

(** * Bytes of a block *)

Definition get8 (d : block) (off : nat) : Z := default 0 (d !! off).
Definition put8 (d : block) (off : nat) (v : Z) : block := <[off := u8 v]> d.
Definition get16 (d : block) (off : nat) : Z := get8 d off + 256 * get8 d (off + 1).
Definition put16 (d : block) (off : nat) (v : Z) : block :=
  <[(off + 1)%nat := u16 v / 256]> (<[off := u16 v mod 256]> d).
(** Overwrite [length l] bytes from [off]. *)
Definition splice (d : block) (off : nat) (l : list Z) : block :=
  take off d ++ l ++ drop (off + length l) d.

(** Calls into the lower layers; an [int] block number becomes [uint]. *)
Definition fbread (dev b : Z) : M fsst nat := zoom fbio (bread (u32 dev) (u32 b)).
Definition fdata (bp : nat) : M fsst block := gets (fun s => b_data (bufs (lbio (fs_log s)) bp)).
Definition fstore (bp : nat) (d : block) : M fsst unit := zoom fbio (write_data bp d).
Definition flog_write (bp : nat) : M fsst unit := zoom flog (log_write bp).
Definition fbrelse (bp : nat) : M fsst unit := zoom fbio (brelse bp).

(** * Superblock *)

Definition decode_sb (d : block) : superblock :=
  mksb (get32 d 0) (get32 d 4) (get32 d 8) (get32 d 12) (get32 d 16) (get32 d 20) (get32 d 24) (get32 d 28).

Definition readsb (dev : Z) : M fsst unit :=
  bp <- fbread dev 1 ;;
  d <- fdata bp ;;
  set_sb (decode_sb d) ;;
  fbrelse bp.

Definition fsinit (dev : Z) : M fsst unit :=
  readsb dev ;;
  sb <- get_sb ;;
  if negb (sb_magic sb =? FSMAGIC) then panic "invalid file system" else
  zoom flog (initlog dev sb).

(** * Blocks *)

Definition bzero (dev bno : Z) : M fsst unit :=
  bp <- fbread dev bno ;;
  fstore bp (replicate (Z.to_nat BSIZE) 0) ;;
  flog_write bp ;;
  fbrelse bp.

Definition BBLOCK (b : Z) (sb : superblock) : Z := u32 (b / BPB + sb_bmapstart sb).
(** The bit of block [bi] of a bitmap block. *)
Definition bit_set (d : block) (bi : Z) : bool :=
  negb (Z.land (get8 d (Z.to_nat (bi / 8))) (Z.shiftl 1 (bi mod 8)) =? 0).
Definition set_bit (d : block) (bi : Z) : block :=
  put8 d (Z.to_nat (bi / 8)) (Z.lor (get8 d (Z.to_nat (bi / 8))) (Z.shiftl 1 (bi mod 8))).
Definition clear_bit (d : block) (bi : Z) : block :=
  put8 d (Z.to_nat (bi / 8)) (Z.land (get8 d (Z.to_nat (bi / 8))) (Z.lnot (Z.shiftl 1 (bi mod 8)))).

(** The inner loop leaves with the bit it found, or with [None] at the end of the block. *)
Definition balloc (dev : Z) : M fsst Z :=
  sb <- get_sb ;;
  loop (S (Z.to_nat (sb_size sb / BPB + 1))) (fun b =>
    if b <? sb_size sb then
      bp <- fbread dev (BBLOCK b sb) ;;
      r <- loop (S (Z.to_nat BPB)) (fun bi =>
        if (bi <? BPB) && (b + bi <? sb_size sb) then
          d <- fdata bp ;;
          if negb (bit_set d bi) then
            fstore bp (set_bit d bi) ;;
            flog_write bp ;;
            fbrelse bp ;;
            bzero dev (b + bi) ;;
            ret (inr (Some (b + bi)))
          else ret (inl (bi + 1))
        else ret (inr None)) 0 ;;
      match r with
      | Some x => ret (inr x)
      | None => fbrelse bp ;; ret (inl (b + BPB))
      end
    else
      printf ("balloc: out of blocks" +:+ nl) [] ;;
      ret (inr 0)) 0.

Definition bfree (dev b : Z) : M fsst unit :=
  sb <- get_sb ;;
  bp <- fbread dev (BBLOCK b sb) ;;
  let bi := b mod BPB in
  d <- fdata bp ;;
  if negb (bit_set d bi) then panic "freeing free block" else
  fstore bp (clear_bit d bi) ;;
  flog_write bp ;;
  fbrelse bp.

(** * Inodes *)

Definition iinit : M fsst unit :=
  initlock LItable ;;
  loop (S NINODE) (fun i =>
    if Nat.ltb i NINODE then
      zoom (ilock_lens i) (initsleeplock (LSleepInode i)) ;;
      ret (inl (S i))
    else ret (inr tt)) 0%nat.

Definition IBLOCK (i : Z) (sb : superblock) : Z := u32 (i / IPB + sb_inodestart sb).
(** The byte offset of inode [inum] in its block. *)
Definition ioff (inum : Z) : nat := Z.to_nat (inum mod IPB * DINODE).

(** The empty slot found so far goes round the loop with the index. *)
Definition iget (dev inum : Z) : M fsst nat :=
  acquire LItable ;;
  r <- loop (S NINODE) (fun st : nat * option nat => let '(ip, empty) := st in
    if Nat.ltb ip NINODE then
      x <- get_inode ip ;;
      if (i_ref x >? 0) && (i_dev x =? dev) && (i_inum x =? inum) then
        upd_inode ip (set_ref (i_ref x + 1)) ;;
        release LItable ;;
        ret (inr (inl ip))
      else
        let empty := if bool_decide (empty = None) && (i_ref x =? 0) then Some ip else empty in
        ret (inl (S ip, empty))
    else ret (inr (inr empty))) (0%nat, None) ;;
  match r with
  | inl ip => ret ip
  | inr None => panic "iget: no inodes"
  | inr (Some ip) =>
      upd_inode ip (recycle_inode dev inum) ;;
      release LItable ;;
      ret ip
  end.

Definition ialloc (dev type : Z) : M fsst (option nat) :=
  sb <- get_sb ;;
  loop (S (Z.to_nat (sb_ninodes sb))) (fun inum =>
    if inum <? sb_ninodes sb then
      bp <- fbread dev (IBLOCK inum sb) ;;
      d <- fdata bp ;;
      if get16 d (ioff inum) =? 0 then
        let d1 := splice d (ioff inum) (replicate (Z.to_nat DINODE) 0) in
        fstore bp (put16 d1 (ioff inum) type) ;;
        flog_write bp ;;
        fbrelse bp ;;
        ip <- iget dev inum ;;
        ret (inr (Some ip))
      else
        fbrelse bp ;;
        ret (inl (inum + 1))
    else
      printf ("ialloc: no inodes" +:+ nl) [] ;;
      ret (inr None)) 1.

(** The addresses of an on-disk inode at [off]. *)
Definition get_addrs (d : block) (off : nat) : list Z :=
  (fun k => get32 d (off + 12 + 4 * k)) <$> seq 0 13.
Fixpoint put_addrs (d : block) (off : nat) (l : list Z) : block :=
  match l with
  | [] => d
  | a :: l' => put_addrs (put32 d off a) (off + 4) l'
  end.
(** The stores of [iupdate] into the block. *)
Definition put_dinode (d : block) (off : nat) (x : inode) : block :=
  put_addrs (put32 (put16 (put16 (put16 (put16 d off (i_type x)) (off + 2) (i_major x)) (off + 4) (i_minor x))
    (off + 6) (i_nlink x)) (off + 8) (i_size x)) (off + 12) (i_addrs x).
(** The loads of [ilock] from the block. *)
Definition get_dinode (d : block) (off : nat) (x : inode) : inode :=
  mkinode (i_dev x) (i_inum x) (i_ref x) (i_lock x) (i_valid x) (s16 (get16 d off)) (s16 (get16 d (off + 2)))
    (s16 (get16 d (off + 4))) (s16 (get16 d (off + 6))) (get32 d (off + 8)) (get_addrs d off).

Definition iupdate (ip : nat) : M fsst unit :=
  sb <- get_sb ;;
  x <- get_inode ip ;;
  bp <- fbread (i_dev x) (IBLOCK (i_inum x) sb) ;;
  d <- fdata bp ;;
  fstore bp (put_dinode d (ioff (i_inum x)) x) ;;
  flog_write bp ;;
  fbrelse bp.

Definition idup (ip : nat) : M fsst nat :=
  acquire LItable ;;
  x <- get_inode ip ;;
  upd_inode ip (set_ref (i_ref x + 1)) ;;
  release LItable ;;
  ret ip.

(** A null pointer is [None]. *)
Definition ilock (p : option nat) : M fsst unit :=
  match p with
  | None => panic "ilock"
  | Some ip =>
      x <- get_inode ip ;;
      if i_ref x <? 1 then panic "ilock" else
      zoom (ilock_lens ip) (acquiresleep (LSleepInode ip) (ChSleepInode ip)) ;;
      x <- get_inode ip ;;
      if i_valid x =? 0 then
        sb <- get_sb ;;
        bp <- fbread (i_dev x) (IBLOCK (i_inum x) sb) ;;
        d <- fdata bp ;;
        upd_inode ip (get_dinode d (ioff (i_inum x))) ;;
        fbrelse bp ;;
        upd_inode ip (set_ivalid 1) ;;
        x <- get_inode ip ;;
        if i_type x =? 0 then panic "ilock: no type" else ret tt
      else ret tt
  end.

Definition iunlock (p : option nat) : M fsst unit :=
  match p with
  | None => panic "iunlock"
  | Some ip =>
      h <- zoom (ilock_lens ip) (holdingsleep (LSleepInode ip)) ;;
      if negb h then panic "iunlock" else
      x <- get_inode ip ;;
      if i_ref x <? 1 then panic "iunlock" else
      zoom (ilock_lens ip) (releasesleep (LSleepInode ip) (ChSleepInode ip))
  end.

(** * Inode contents *)

Definition bmap (ip : nat) (bn : Z) : M fsst Z :=
  x <- get_inode ip ;;
  if bn <? NDIRECT then
    let addr := addr_at x bn in
    if addr =? 0 then
      addr <- balloc (i_dev x) ;;
      if addr =? 0 then ret 0 else
      upd_inode ip (set_addr bn addr) ;;
      ret addr
    else ret addr
  else
  let bn := bn - NDIRECT in
  if bn <? NINDIRECT then
    addr <- (if addr_at x NDIRECT =? 0 then
               addr <- balloc (i_dev x) ;;
               if addr =? 0 then ret 0 else
               upd_inode ip (set_addr NDIRECT addr) ;;
               ret addr
             else ret (addr_at x NDIRECT)) ;;
    if addr =? 0 then ret 0 else
    bp <- fbread (i_dev x) addr ;;
    a <- fdata bp ;;
    let addr := get32 a (4 * Z.to_nat bn) in
    addr <- (if addr =? 0 then
               addr <- balloc (i_dev x) ;;
               (if negb (addr =? 0) then
                  a <- fdata bp ;;
                  fstore bp (put32 a (4 * Z.to_nat bn) addr) ;;
                  flog_write bp
                else ret tt) ;;
               ret addr
             else ret addr) ;;
    fbrelse bp ;;
    ret addr
  else panic "bmap: out of range".

Definition itrunc (ip : nat) : M fsst unit :=
  loop (S (Z.to_nat NDIRECT)) (fun i =>
    if i <? NDIRECT then
      x <- get_inode ip ;;
      (if negb (addr_at x i =? 0) then
         bfree (i_dev x) (addr_at x i) ;;
         upd_inode ip (set_addr i 0)
       else ret tt) ;;
      ret (inl (i + 1))
    else ret (inr tt)) 0 ;;
  x <- get_inode ip ;;
  (if negb (addr_at x NDIRECT =? 0) then
     bp <- fbread (i_dev x) (addr_at x NDIRECT) ;;
     loop (S (Z.to_nat NINDIRECT)) (fun j =>
       if j <? NINDIRECT then
         a <- fdata bp ;;
         (if negb (get32 a (4 * Z.to_nat j) =? 0) then bfree (i_dev x) (get32 a (4 * Z.to_nat j)) else ret tt) ;;
         ret (inl (j + 1))
       else ret (inr tt)) 0 ;;
     fbrelse bp ;;
     bfree (i_dev x) (addr_at x NDIRECT) ;;
     upd_inode ip (set_addr NDIRECT 0)
   else ret tt) ;;
  upd_inode ip (set_size 0) ;;
  iupdate ip.

Definition iput (ip : nat) : M fsst unit :=
  acquire LItable ;;
  x <- get_inode ip ;;
  (if (i_ref x =? 1) && negb (i_valid x =? 0) && (i_nlink x =? 0) then
     zoom (ilock_lens ip) (acquiresleep (LSleepInode ip) (ChSleepInode ip)) ;;
     release LItable ;;
     itrunc ip ;;
     upd_inode ip (set_type 0) ;;
     iupdate ip ;;
     upd_inode ip (set_ivalid 0) ;;
     zoom (ilock_lens ip) (releasesleep (LSleepInode ip) (ChSleepInode ip)) ;;
     acquire LItable
   else ret tt) ;;
  x <- get_inode ip ;;
  upd_inode ip (set_ref (i_ref x - 1)) ;;
  release LItable.

Definition iunlockput (ip : option nat) : M fsst unit :=
  match ip with
  | None => panic "iunlock"
  | Some i => iunlock ip ;; iput i
  end.

(** [struct stat], in the order [stati] fills it. *)
Record stat := mkstat { st_dev : Z; st_ino : Z; st_type : Z; st_nlink : Z; st_size : Z }.
Definition stati (ip : nat) : M fsst stat :=
  x <- get_inode ip ;;
  ret (mkstat (s32 (i_dev x)) (i_inum x) (i_type x) (i_nlink x) (i_size x)).
