(* ===== verification/FsTxn.v ===== *)
(** The file system's use of the cache and the log inside a transaction: reading a block,
    changing it, logging it and giving it back, against which the operations of fs.c are
    verified. *)
From S2P Require Import Prelude Sleeplock Bio BioInv BioSpec Log LogPure LogSpec LogTxn Fs.

#[local] Arguments loop : simpl never.

(** How often a block is among the buffers in use. *)
Definition uses (hs : list (Z * nat)) (b : Z) : Z := if decide (b ∈ hs.*1) then 1 else 0.
(** The sleep locks when process [pid] has the buffers [hs]. *)
Definition locks (pid : Z) (hs : list (Z * nat)) (b : Z) : sleeplock :=
  if decide (b ∈ hs.*1) then mksleep 1 pid else unlocked.

Lemma uses_in hs b : b ∈ hs.*1 -> uses hs b = 1.
Proof. intros. unfold uses. by rewrite decide_True. Qed.
Lemma uses_out hs b : b ∉ hs.*1 -> uses hs b = 0.
Proof. intros. unfold uses. by rewrite decide_False. Qed.
Lemma uses_bound hs b : 0 <= uses hs b <= 1.
Proof. unfold uses. case_decide; lia. Qed.
Lemma locks_in pid hs b : b ∈ hs.*1 -> locks pid hs b = mksleep 1 pid.
Proof. intros. unfold locks. by rewrite decide_True. Qed.
Lemma locks_out pid hs b : b ∉ hs.*1 -> locks pid hs b = unlocked.
Proof. intros. unfold locks. by rewrite decide_False. Qed.

(** The device number and the place of the log. *)
Class LogGeo (dv start size : Z) : Prop := {
  geo_dv : 0 < dv < 4294967296;
  geo_start : 0 <= start;
  geo_end : start + size < 2147483648;
  geo_size : 2 <= size <= LOGSIZE;
}.

(** What stays the same during a system call: the number of calls in the transaction, and the
    disk writes done so far. *)
Record fconst := mkfconst { fc_out : Z; fc_writes : list (Z * block) }.

Section fstxn.
Context (dv start size : Z) (sb : superblock) (K : fconst).
Context `{G : !LogGeo dv start size}.

(** A block the file system may log. *)
Definition loggable (b : Z) : Prop := home start size b /\ 0 <= b < 2147483648.

(** In a system call, inside a transaction unless [F] is empty: inode table [T], cached contents [V], disk [D], [F] bounds the blocks
    of the transaction, [hs] are the buffers in use, [dirty] those changed and not logged. *)
Record ftx (pid : Z) (s : fsst) (T : nat -> inode) (V D : Z -> block) (F : list Z) (hs : list (Z * nat))
    (dirty : list Z) : Prop := {
  fx_sb : fs_sb s = sb;
  fx_tab : fs_itable s = T;
  fx_log : exists bs, log_at dv start (lg (fs_log s)) /\ l_size (lg (fs_log s)) = size /\ lh_is (lg (fs_log s)) bs /\
    trans_ok start size bs /\ length (lh_block (lg (fs_log s))) = Z.to_nat LOGSIZE /\
    l_outstanding (lg (fs_log s)) = fc_out K /\ l_committing (lg (fs_log s)) = 0 /\
    bst dv (lbio (fs_log s)) V D (fun b => pins bs b + uses hs b) (locks pid hs) /\
    (forall b, b ∉ bs -> b ∉ dirty -> V b = D b) /\ bs ⊆ F /\ dwrites (lbio (fs_log s)) = fc_writes K;
  fx_room : Z.of_nat (length F) <= size - 2 /\ (F <> [] -> 1 <= fc_out K);
  fx_used : NoDup hs.*1 /\ (length hs <= 2)%nat;
  fx_loaded : forall b i, (b, i) ∈ hs -> loaded dv (lbio (fs_log s)) b i;
  fx_dirty : dirty ⊆ hs.*1;
  fx_hdr : hdr_n (D start) = 0 /\ length (D start) = Z.to_nat BSIZE;
}.

Lemma trans_bound bs F : trans_ok start size bs -> bs ⊆ F -> (length bs <= length F)%nat.
Proof. intros Htr HF. apply submseteq_length, NoDup_submseteq; [apply Htr|intros x; apply HF]. Qed.

(** The bound may be taken larger, and the contents are extensional. *)
Lemma ftx_room pid s T V D F hs dirty b :
  ftx pid s T V D F hs dirty -> F <> [] -> Z.of_nat (length F) + 1 <= size - 2 -> ftx pid s T V D (b :: F) hs dirty.
Proof.
  intros [Hs Ht (bs & ? & ? & ? & ? & ? & ? & ? & ? & ? & ? & ?) [Hrm Hro] Hu Hl Hd Hh] Ho Hr. split; try done.
  - exists bs. split_and!; try done. set_solver.
  - simpl. split; [lia|auto].
Qed.

Lemma ftx_ext pid s T V V' D F hs dirty :
  ftx pid s T V D F hs dirty -> (forall b, V' b = V b) -> ftx pid s T V' D F hs dirty.
Proof.
  intros [Hs Ht (bs & ? & ? & ? & ? & ? & ? & ? & ? & ? & ? & ?) [Hrm Hro] Hu Hl Hd Hh] He. split; try done.
  exists bs. split_and!; try done.
  - by eapply bst_ext.
  - intros b. rewrite He. auto.
Qed.

(** Changes of the inode table do not matter to the log. *)
Lemma wp_upd_inode pid c s T V D F hs dirty i f (Q : cpu -> fsst -> unit -> Prop) :
  ftx pid s T V D F hs dirty ->
  (forall s', ftx pid s' (upd_itable i f T) V D F hs dirty -> Q c s' tt) ->
  wp (upd_inode i f) c s Q.
Proof.
  intros Hx HQ. unfold upd_inode. wp_step. apply HQ. destruct Hx as [Hs Ht Hlog Hrm Hu Hl Hd Hh]. split; try done.
  simpl. by rewrite Ht.
Qed.

Lemma wp_get_inode pid c s T V D F hs dirty i (Q : cpu -> fsst -> inode -> Prop) :
  ftx pid s T V D F hs dirty -> Q c s (T i) -> wp (get_inode i) c s Q.
Proof. intros Hx HQ. unfold get_inode. wp_step. by rewrite (fx_tab _ _ _ _ _ _ _ _ Hx). Qed.

Lemma wp_get_sb pid c s T V D F hs dirty (Q : cpu -> fsst -> superblock -> Prop) :
  ftx pid s T V D F hs dirty -> Q c s sb -> wp get_sb c s Q.
Proof. intros Hx HQ. unfold get_sb. wp_step. by rewrite (fx_sb _ _ _ _ _ _ _ _ Hx). Qed.

Lemma wp_fbread pid c s T V D F hs dirty b (Q : cpu -> fsst -> nat -> Prop) :
  lcpu c -> curpid c = pid -> ftx pid s T V D F hs dirty -> 0 <= b < 4294967296 -> b ∉ hs.*1 ->
  (length hs <= 1)%nat ->
  (forall s' i, ftx pid s' T V D F ((b, i) :: hs) dirty -> Q c s' i) ->
  wp (fbread dv b) c s Q.
Proof.
  pose proof geo_dv. pose proof geo_size.
  intros [[Hcb Hcs] Hcl] Hpid Hx Hb Hn Hlen HQ. unfold fbread. rewrite !u32_small by lia. apply wp_zoom.
  destruct Hx as [Hs Ht (bs & Hat & Hsz & Hlh & Htr & Hlb & Hout & Hcm & Hst & Hcln & HF & Hdw) [Hrm Hro] [Hu1 Hu2] Hl Hd Hh].
  pose proof (pins_bound bs b). pose proof (uses_bound hs b). change LOGSIZE with 30 in *.
  cbn [lget fbio]. eapply (wp_bread' dv c _ _ _ _ _ Hst Hcb Hcs b (bs ++ hs.*1)); [by rewrite locks_out|lia| | |].
  - intros x Hx. apply elem_of_app. unfold pins, uses in Hx. repeat case_decide; auto; lia.
  - right. rewrite length_app, length_fmap. change NBUF with 30%nat. pose proof (trans_bound _ _ Htr HF). lia.
  - intros s' i Hst' Hl' Hsb' Hw'. apply HQ. split; try done; simpl.
    + exists bs. split_and!; try done; [|congruence]. eapply bst_ext; [exact Hst'|done|done|..]; intros x; unfold fset.
      * destruct (Z.eqb_spec x b) as [->|Hne].
        -- rewrite (uses_out hs b), (uses_in ((b, i) :: hs)) by set_solver. lia.
        -- f_equal. unfold uses. destruct (decide (x ∈ hs.*1)); [rewrite decide_True by set_solver|rewrite decide_False by set_solver]; done.
      * rewrite Hpid. destruct (Z.eqb_spec x b) as [->|Hne]; [by rewrite locks_in by set_solver|].
        unfold locks. destruct (decide (x ∈ hs.*1)); [rewrite decide_True by set_solver|rewrite decide_False by set_solver]; done.
    + split; [by constructor|lia].
    + intros b' i' [[= -> ->]|Hin]%elem_of_cons; [done|]. eapply loaded_stable; [exact Hsb'| |by apply Hl].
      rewrite (bst_refs _ _ _ _ _ _ _ Hst). pose proof (pins_bound bs b').
      rewrite uses_in; [lia|]. by apply (list_elem_of_fmap_2 fst _ (b', i')).
    + set_solver.
Qed.

Lemma wp_fdata pid c s T V D F hs dirty b i (Q : cpu -> fsst -> block -> Prop) :
  ftx pid s T V D F hs dirty -> (b, i) ∈ hs -> Q c s (V b) -> wp (fdata i) c s Q.
Proof.
  intros Hx Hin HQ. unfold fdata. wp_step.
  destruct (fx_log _ _ _ _ _ _ _ _ Hx) as (bs & _ & _ & _ & _ & _ & _ & _ & Hst & _).
  rewrite (loaded_content _ _ _ _ (fx_loaded _ _ _ _ _ _ _ _ Hx _ _ Hin)). by rewrite (bst_content _ _ _ _ _ _ _ Hst).
Qed.

Lemma wp_fstore pid c s T V D F hs dirty b i d (Q : cpu -> fsst -> unit -> Prop) :
  ftx pid s T V D F hs dirty -> (b, i) ∈ hs ->
  (forall s', ftx pid s' T (fset V b d) D F hs (b :: dirty) -> Q c s' tt) ->
  wp (fstore i d) c s Q.
Proof.
  intros Hx Hin HQ. unfold fstore. apply wp_zoom. pose proof (fx_loaded _ _ _ _ _ _ _ _ Hx _ _ Hin) as Hlb.
  destruct Hx as [Hs Ht (bs & Hat & Hsz & Hlh & Htr & Hlb' & Hout & Hcm & Hst & Hcln & HF & Hdw) [Hrm Hro] Hu Hl Hd Hh].
  assert (b ∈ hs.*1) as Hb by (by apply (list_elem_of_fmap_2 fst _ (b, i))).
  pose proof (pins_bound bs b). cbn [lget fbio].
  eapply (wp_write_data' dv c _ _ _ _ _ Hst b); [done|rewrite uses_in by done; lia|].
  intros s' Hst' Hsb' Hw'. apply HQ. split; try done; simpl.
  - exists bs. split_and!; try done; [|congruence]. intros x Hx1 Hx2. rewrite fset_ne by set_solver. apply Hcln; set_solver.
  - intros b' i' Hin'. eapply loaded_stable; [exact Hsb'| |by apply Hl].
    rewrite (bst_refs _ _ _ _ _ _ _ Hst). pose proof (pins_bound bs b').
    rewrite uses_in; [lia|]. by apply (list_elem_of_fmap_2 fst _ (b', i')).
  - set_solver.
Qed.

Lemma wp_flog_write pid c s T V D F hs dirty b i (Q : cpu -> fsst -> unit -> Prop) :
  lcpu c -> ftx pid s T V D F hs (b :: dirty) -> (b, i) ∈ hs -> b ∈ F -> loggable b ->
  (forall s', ftx pid s' T V D F hs dirty -> Q c s' tt) ->
  wp (flog_write i) c s Q.
Proof.
  pose proof geo_size.
  intros Hc Hx Hin HbF [Hhm Hrg] HQ. unfold flog_write. apply wp_zoom. pose proof (fx_loaded _ _ _ _ _ _ _ _ Hx _ _ Hin) as Hlb.
  destruct Hx as [Hs Ht (bs & Hat & Hsz & Hlh & Htr & Hlb' & Hout & Hcm & Hst & Hcln & HF & Hdw) [Hrm Hro] Hu Hl Hd Hh].
  assert (b ∈ hs.*1) as Hb by (by apply (list_elem_of_fmap_2 fst _ (b, i))).
  pose proof (pins_bound bs b). pose proof (uses_bound hs b). cbn [lget flog]. change LOGSIZE with 30 in *.
  pose proof (trans_bound _ _ Htr HF) as HlF. assert (1 <= l_outstanding (lg (fs_log s))) by (rewrite Hout; apply Hro; by destruct F; [apply not_elem_of_nil in HbF|]).
  eapply (wp_log_write dv start size geo_dv geo_start geo_end geo_size c _ bs V D _ _ b); try done; try lia.
  - intros Hbin. apply HQ. split; try done; simpl.
    + exists bs. split_and!; try done. intros x Hx1 Hx2. apply Hcln; [done|]. rewrite not_elem_of_cons. split; [by intros ->|done].
    + intros x Hx. apply Hd. by right.
  - intros Hbn s' Hlh' Hlg Hlen Hst' Hsb' Hw'. apply HQ. split; try done; simpl; [| |intros x Hx; apply Hd; by right].
    + exists (bs ++ [b]). destruct Hat as [Hat1 Hat2].
      split_and!; [split; by rewrite Hlg|by rewrite Hlg|exact Hlh'| |exact Hlen|by rewrite Hlg|by rewrite Hlg| | | |simpl in Hw'; congruence].
      * apply (trans_ok_add dv start size geo_dv geo_start geo_end geo_size); try done; lia.
      * eapply bst_ext; [exact Hst'|done|done|..]; intros x; [|done]. rewrite pins_add by done. unfold fset.
        destruct (Z.eqb_spec x b) as [->|]; [|done]. rewrite (pins_out bs b) by done. lia.
      * intros x [Hx1 Hx3]%not_elem_of_app Hx2. apply Hcln; [done|]. apply not_elem_of_cons. split; [|done].
        intros ->. apply Hx3. by left.
      * intros x [Hx|Hx]%elem_of_app; [by apply HF|]. apply list_elem_of_singleton in Hx as ->. done.
    + intros b' i' Hin'. eapply loaded_stable; [exact Hsb'| |by apply Hl].
      rewrite (bst_refs _ _ _ _ _ _ _ Hst). pose proof (pins_bound bs b').
      rewrite uses_in; [lia|]. by apply (list_elem_of_fmap_2 fst _ (b', i')).
Qed.

Lemma wp_fbrelse pid c s T V D F hs dirty b i (Q : cpu -> fsst -> unit -> Prop) :
  lcpu c -> curpid c = pid -> ftx pid s T V D F ((b, i) :: hs) dirty -> b ∉ dirty ->
  (forall c' s', same_cpu c c' -> ftx pid s' T V D F hs dirty -> Q c' s' tt) ->
  wp (fbrelse i) c s Q.
Proof.
  intros [[Hcb Hcs] Hcl] Hpid Hx Hbd HQ. unfold fbrelse. apply wp_zoom.
  pose proof (fx_loaded _ _ _ _ _ _ _ _ Hx b i ltac:(set_solver)) as Hlb.
  destruct Hx as [Hs Ht (bs & Hat & Hsz & Hlh & Htr & Hlb' & Hout & Hcm & Hst & Hcln & HF & Hdw) [Hrm Hro] [Hu1 Hu2] Hl Hd Hh].
  simpl in Hu1. apply NoDup_cons in Hu1 as [Hn Hu1]. pose proof (pins_bound bs b).
  assert (uses ((b, i) :: hs) b = 1) as Hone by (apply uses_in; set_solver). cbn [lget fbio].
  eapply (wp_brelse' dv c _ _ _ _ _ Hst Hcb Hcs b); [exact Hlb|rewrite locks_in by set_solver; by rewrite Hpid|lia| |].
  { intros HR. apply Hcln; [|done]. intros Hin. rewrite pins_pos in HR by done. lia. }
  intros c' s' Hcc Hst' Hsb' Hw'. apply HQ; [done|]. split; try done; simpl.
  - exists bs. split_and!; try done; [|congruence]. eapply bst_ext; [exact Hst'|done|done|..]; intros x; unfold fset.
    + destruct (Z.eqb_spec x b) as [->|Hne]; [rewrite Hone, (uses_out hs b) by done; lia|].
      f_equal. unfold uses. destruct (decide (x ∈ hs.*1)); [rewrite decide_True by set_solver|rewrite decide_False by set_solver]; done.
    + destruct (Z.eqb_spec x b) as [->|Hne]; [by rewrite locks_out|].
      unfold locks. destruct (decide (x ∈ hs.*1)); [rewrite decide_True by set_solver|rewrite decide_False by set_solver]; done.
  - split; [done|simpl in Hu2; lia].
  - intros b' i' Hin. eapply loaded_stable; [exact Hsb'| |apply Hl; set_solver].
    rewrite (bst_refs _ _ _ _ _ _ _ Hst). pose proof (pins_bound bs b').
    rewrite uses_in; [lia|]. apply elem_of_cons. right. by apply (list_elem_of_fmap_2 fst _ (b', i')).
  - intros x Hxd. pose proof (Hd x Hxd) as Hx'. simpl in Hx'. apply elem_of_cons in Hx' as [->|]; [done|done].
Qed.
End fstxn.
