(* ===== verification/FsDisk.v ===== *)
(** What the blocks of a file system stand for: the free-block bitmap, the on-disk inodes, the
    blocks of a file and its bytes, and when such a disk is well formed. *)
From S2P Require Import Prelude Sleeplock Bio BioInv BioSpec Log LogPure LogSpec LogTxn Fs FsTxn.

#[local] Arguments loop : simpl never.

(** * Bits *)

Lemma bit_set_testbit d bi : 0 <= bi -> bit_set d bi = Z.testbit (get8 d (Z.to_nat (bi / 8))) (bi mod 8).
Proof.
  intros Hb. unfold bit_set. rewrite Z.shiftl_1_l. assert (0 <= bi mod 8) by (apply Z.mod_pos_bound; lia).
  set (x := get8 _ _). set (k := bi mod 8) in *. destruct (Z.eqb_spec (Z.land x (2 ^ k)) 0) as [He|He]; simpl.
  - symmetry. assert (Z.testbit (Z.land x (2 ^ k)) k = false) as Hf by (rewrite He; apply Z.bits_0).
    rewrite Z.land_spec, Z.pow2_bits_true, andb_true_r in Hf by lia. done.
  - destruct (Z.testbit x k) eqn:E; [done|]. exfalso. apply He. apply Z.bits_inj'. intros n Hn.
    rewrite Z.land_spec, Z.bits_0, Z.pow2_bits_eqb by lia. destruct (Z.eqb_spec k n) as [<-|]; [by rewrite E|by rewrite andb_false_r].
Qed.

Lemma testbit_u8 x k : 0 <= k < 8 -> Z.testbit (u8 x) k = Z.testbit x k.
Proof. intros Hk. unfold u8. change 256 with (2 ^ 8). by rewrite Z.mod_pow2_bits_low by lia. Qed.

Lemma get8_put8 d i v j : (i < length d)%nat -> get8 (put8 d i v) j = if decide (j = i) then u8 v else get8 d j.
Proof.
  intros Hi. unfold get8, put8. case_decide as Hj; [subst j; by rewrite list_lookup_insert_eq|].
  by rewrite list_lookup_insert_ne by done.
Qed.

Lemma length_set_bit d bi : length (set_bit d bi) = length d.
Proof. unfold set_bit, put8. by rewrite length_insert. Qed.
Lemma length_clear_bit d bi : length (clear_bit d bi) = length d.
Proof. unfold clear_bit, put8. by rewrite length_insert. Qed.

Lemma byte_index bi bj : 0 <= bi -> 0 <= bj -> Z.to_nat (bj / 8) = Z.to_nat (bi / 8) -> bj mod 8 = bi mod 8 -> bi = bj.
Proof. intros Hi Hj Hd Hm. pose proof (Z.div_mod bi 8). pose proof (Z.div_mod bj 8). assert (bj / 8 = bi / 8); dlia. Qed.

Lemma bit_set_set d bi bj : 0 <= bi -> 0 <= bj -> (Z.to_nat (bi / 8) < length d)%nat ->
  bit_set (set_bit d bi) bj = (bi =? bj) || bit_set d bj.
Proof.
  intros Hi Hj Hl. rewrite !bit_set_testbit by done. unfold set_bit. rewrite get8_put8 by done.
  pose proof (Z.mod_pos_bound bi 8). pose proof (Z.mod_pos_bound bj 8). case_decide as He.
  - rewrite testbit_u8 by lia. rewrite Z.lor_spec, Z.shiftl_1_l, Z.pow2_bits_eqb by lia. rewrite He.
    destruct (Z.eqb_spec (bi mod 8) (bj mod 8)) as [Hm|Hm].
    + rewrite (byte_index bi bj) by done. by rewrite Z.eqb_refl, orb_true_r.
    + rewrite orb_false_r. destruct (Z.eqb_spec bi bj) as [->|]; [by destruct Hm|done].
  - destruct (Z.eqb_spec bi bj) as [->|]; [by destruct He|done].
Qed.

Lemma bit_set_clear d bi bj : 0 <= bi -> 0 <= bj -> (Z.to_nat (bi / 8) < length d)%nat ->
  bit_set (clear_bit d bi) bj = negb (bi =? bj) && bit_set d bj.
Proof.
  intros Hi Hj Hl. rewrite !bit_set_testbit by done. unfold clear_bit. rewrite get8_put8 by done.
  pose proof (Z.mod_pos_bound bi 8). pose proof (Z.mod_pos_bound bj 8). case_decide as He.
  - rewrite testbit_u8 by lia. rewrite Z.land_spec, Z.lnot_spec, Z.shiftl_1_l, Z.pow2_bits_eqb by lia. rewrite He.
    destruct (Z.eqb_spec (bi mod 8) (bj mod 8)) as [Hm|Hm].
    + rewrite (byte_index bi bj) by done. by rewrite Z.eqb_refl, andb_false_r.
    + destruct (Z.eqb_spec bi bj) as [->|]; [by destruct Hm|]. by rewrite andb_true_r.
  - destruct (Z.eqb_spec bi bj) as [->|]; [by destruct He|done].
Qed.

(** * The on-disk inode *)

Lemma length_put16 d off v : length (put16 d off v) = length d.
Proof. unfold put16. by rewrite !length_insert. Qed.
Lemma put16_ne d off v k : (k < off \/ off + 2 <= k)%nat -> put16 d off v !! k = d !! k.
Proof. intros Hk. unfold put16. by rewrite !list_lookup_insert_ne by lia. Qed.
Lemma get16_put16 d off v : (off + 2 <= length d)%nat -> get16 (put16 d off v) off = u16 v.
Proof.
  intros Hl. unfold get16, put16, get8. rewrite list_lookup_insert_ne by lia. rewrite list_lookup_insert_eq by lia.
  rewrite list_lookup_insert_eq by (rewrite length_insert; lia). simpl. pose proof (u16_range v). dlia.
Qed.
(** Words and half-words that agree byte by byte. *)
Lemma get16_ext d d' off : (forall k, (off <= k < off + 2)%nat -> d !! k = d' !! k) -> get16 d off = get16 d' off.
Proof. intros He. unfold get16, get8. rewrite (He off), (He (off + 1)%nat) by lia. done. Qed.
Lemma get32_ext d d' off : (forall k, (off <= k < off + 4)%nat -> d !! k = d' !! k) -> get32 d off = get32 d' off.
Proof. intros He. unfold get32. rewrite (He off), (He (off + 1)%nat), (He (off + 2)%nat), (He (off + 3)%nat) by lia. done. Qed.

Lemma length_put_addrs l d off : length (put_addrs d off l) = length d.
Proof. revert d off. induction l as [|a l IH]; intros d off; simpl; [done|]. by rewrite IH, length_put32. Qed.
Lemma put_addrs_ne l d off k : (k < off \/ off + 4 * length l <= k)%nat -> put_addrs d off l !! k = d !! k.
Proof.
  revert d off. induction l as [|a l IH]; intros d off Hk; [done|]. cbn [put_addrs length] in *. rewrite IH by lia. apply put32_ne. lia.
Qed.
Lemma get32_put_addrs l d off k a : (off + 4 * length l <= length d)%nat -> l !! k = Some a ->
  get32 (put_addrs d off l) (off + 4 * k) = u32 a.
Proof.
  revert d off k. induction l as [|x l IH]; intros d off k Hl Hk; [done|]. cbn [put_addrs length] in *. destruct k as [|k]; simpl in Hk.
  - injection Hk as ->. rewrite (get32_ext _ (put32 d off a)); [rewrite Nat.mul_0_r, Nat.add_0_r; apply get32_put32; lia|].
    intros j Hj. apply put_addrs_ne. lia.
  - replace (off + 4 * S k)%nat with (off + 4 + 4 * k)%nat by lia. apply IH; [rewrite length_put32; lia|done].
Qed.

(** The fields of an inode that are on disk. *)
Record dinode := mkdino { d_type : Z; d_major : Z; d_minor : Z; d_nlink : Z; d_size : Z; d_addrs : list Z }.
Definition core (x : inode) : dinode :=
  mkdino (i_type x) (i_major x) (i_minor x) (i_nlink x) (i_size x) (i_addrs x).

Definition inode0 : inode := mkinode 0 0 0 (mksleep 0 0) 0 0 0 0 0 0 [].
(** The inode stored at [off] of block [d]. *)
Definition dget (d : block) (off : nat) : dinode := core (get_dinode d off inode0).

Lemma core_get_dinode d off x : core (get_dinode d off x) = dget d off.
Proof. done. Qed.

(** The values the C types of the fields hold. *)
Definition dino_ok (n : dinode) : Prop :=
  -32768 <= d_type n < 32768 /\ -32768 <= d_major n < 32768 /\ -32768 <= d_minor n < 32768 /\
  -32768 <= d_nlink n < 32768 /\ 0 <= d_size n < 4294967296 /\ length (d_addrs n) = 13%nat /\
  Forall (fun a => 0 <= a < 4294967296) (d_addrs n).

Lemma s16_u16 x : s16 (u16 x) = s16 x.
Proof. unfold s16, u16. rewrite <- (Zplus_mod_idemp_l x). done. Qed.

Lemma length_put_dinode d off x : length (put_dinode d off x) = length d.
Proof. unfold put_dinode. by rewrite length_put_addrs, length_put32, !length_put16. Qed.

Lemma put_dinode_ne d off x k : length (i_addrs x) = 13%nat -> (k < off \/ off + 64 <= k)%nat ->
  put_dinode d off x !! k = d !! k.
Proof.
  intros Hl Hk. unfold put_dinode. rewrite put_addrs_ne by lia. rewrite put32_ne by lia. by rewrite !put16_ne by lia.
Qed.

Lemma dget_ext d d' off : (forall k, (off <= k < off + 64)%nat -> d !! k = d' !! k) -> dget d off = dget d' off.
Proof.
  intros He. unfold dget, core, get_dinode. cbn [i_type i_major i_minor i_nlink i_size i_addrs].
  rewrite !(get16_ext d d') by (intros; apply He; lia). rewrite (get32_ext d d') by (intros; apply He; lia). f_equal.
  unfold get_addrs. apply list_fmap_ext. intros i k Hk. apply lookup_seq in Hk as [-> Hk]. apply get32_ext. intros; apply He; lia.
Qed.

(** Storing an inode and loading it back. *)
Lemma dget_put_dinode d off x : (off + 64 <= length d)%nat -> dino_ok (core x) -> dget (put_dinode d off x) off = core x.
Proof.
  intros Hl (H1 & H2 & H3 & H4 & H5 & H6 & H7). simpl in *.
  unfold dget, core, get_dinode. cbn [i_type i_major i_minor i_nlink i_size i_addrs].
  assert (forall k, (k < off + 12)%nat -> put_dinode d off x !! k =
    put32 (put16 (put16 (put16 (put16 d off (i_type x)) (off + 2) (i_major x)) (off + 4) (i_minor x)) (off + 6) (i_nlink x)) (off + 8) (i_size x) !! k) as Hlow.
  { intros k Hk. unfold put_dinode. by rewrite put_addrs_ne by lia. }
  f_equal.
  - rewrite (get16_ext _ (put16 d off (i_type x))); [rewrite get16_put16, s16_u16 by lia; by apply s16_small|].
    intros k Hk. rewrite Hlow by lia. rewrite put32_ne by lia. by rewrite !put16_ne by lia.
  - rewrite (get16_ext _ (put16 (put16 d off (i_type x)) (off + 2) (i_major x))).
    { rewrite get16_put16, s16_u16 by (rewrite ?length_put16; lia). by apply s16_small. }
    intros k Hk. rewrite Hlow by lia. rewrite put32_ne by lia. rewrite (put16_ne _ (off + 6)) by lia. by rewrite (put16_ne _ (off + 4)) by lia.
  - rewrite (get16_ext _ (put16 (put16 (put16 d off (i_type x)) (off + 2) (i_major x)) (off + 4) (i_minor x))).
    { rewrite get16_put16, s16_u16 by (rewrite ?length_put16; lia). by apply s16_small. }
    intros k Hk. rewrite Hlow by lia. rewrite put32_ne by lia. by rewrite (put16_ne _ (off + 6)) by lia.
  - rewrite (get16_ext _ (put16 (put16 (put16 (put16 d off (i_type x)) (off + 2) (i_major x)) (off + 4) (i_minor x)) (off + 6) (i_nlink x))).
    { rewrite get16_put16, s16_u16 by (rewrite ?length_put16; lia). by apply s16_small. }
    intros k Hk. rewrite Hlow by lia. by rewrite put32_ne by lia.
  - erewrite get32_ext; [|intros k Hk; apply Hlow; lia]. rewrite get32_put32 by (rewrite ?length_put16; lia). by apply u32_small.
  - apply list_eq. intros k. unfold get_addrs. rewrite list_lookup_fmap. destruct (decide (k < 13)%nat) as [Hk|Hk].
    + rewrite lookup_seq_lt by done. destruct (lookup_lt_is_Some_2 (i_addrs x) k ltac:(lia)) as [a Ha]. rewrite Ha. simpl. f_equal.
      unfold put_dinode. rewrite (get32_put_addrs _ _ _ k a); [|rewrite length_put32, !length_put16; lia|done].
      rewrite Forall_lookup in H7. by apply u32_small, (H7 k).
    + rewrite lookup_seq_ge by lia. symmetry. apply lookup_ge_None. lia.
Qed.

(** * Layout *)

(** The regions the super block describes, as mkfs lays them out: log, inodes, bitmap, data. *)
Class FsGeo (dv start size : Z) (sb : superblock) : Prop := {
  #[global] fg_log :: LogGeo dv start size;
  fg_ino : start + size <= sb_inodestart sb;
  fg_ninodes : 1 <= sb_ninodes sb;
  fg_bmap : sb_inodestart sb + sb_ninodes sb / IPB + 1 <= sb_bmapstart sb;
  fg_data : sb_bmapstart sb + sb_size sb / BPB + 1 <= sb_size sb - sb_nblocks sb;
  fg_nblocks : 0 <= sb_nblocks sb;
  fg_size : sb_size sb < 2147483648 - 8192;
}.

Section disk.
Context (sb : superblock).

(** The first data block. *)
Definition dstart : Z := sb_size sb - sb_nblocks sb.
(** Block [b] is marked in use. *)
Definition used (V : Z -> block) (b : Z) : Prop := bit_set (V (BBLOCK b sb)) (b mod BPB) = true.

(** On-disk inode [inum]. *)
Definition dnode (V : Z -> block) (inum : Z) : dinode := dget (V (IBLOCK inum sb)) (ioff inum).

(** Block pointers of an inode: slots 0 to 11 are the direct ones, 12 points to the indirect
    block, 13 to 268 are the pointers in it. *)
Definition NSLOTS : Z := NDIRECT + 1 + NINDIRECT.
Definition addr_l (l : list Z) (k : Z) : Z := default 0 (l !! Z.to_nat k).
Definition slot (V : Z -> block) (l : list Z) (k : Z) : Z :=
  if k <=? NDIRECT then addr_l l k
  else if addr_l l NDIRECT =? 0 then 0
  else get32 (V (addr_l l NDIRECT)) (4 * Z.to_nat (k - NDIRECT - 1)).
(** The slot of block [bn] of a file. *)
Definition fslot (bn : Z) : Z := if bn <? NDIRECT then bn else bn + 1.

(** Byte [pos] of a file; a block that is not there reads as zeros. *)
Definition fbyte (V : Z -> block) (l : list Z) (pos : Z) : Z :=
  let a := slot V l (fslot (pos / BSIZE)) in
  if a =? 0 then 0 else get8 (V a) (Z.to_nat (pos mod BSIZE)).

(** The bytes of a file. *)
Definition fbytes (V : Z -> block) (n : dinode) : list Z :=
  (fun p => fbyte V (d_addrs n) (Z.of_nat p)) <$> seq 0 (Z.to_nat (d_size n)).

(** ** Well-formed file systems *)

(** Inode [I j] refers to block [b] at slot [k]. *)
Definition refers (I : Z -> dinode) (V : Z -> block) (j k b : Z) : Prop :=
  0 <= j < sb_ninodes sb /\ 0 <= k < NSLOTS /\ slot V (d_addrs (I j)) k = b /\ b <> 0.

(** The blocks of inodes, bitmap and data have their size. *)
Definition blocks_ok (V : Z -> block) : Prop := forall b, sb_inodestart sb <= b -> length (V b) = Z.to_nat BSIZE.

(** Blocks have their size; what is not data is in use; every pointer is to a data block in
    use, and no block has two pointers to it; a file has all the blocks below its size. *)
Record fsok (I : Z -> dinode) (V : Z -> block) : Prop := {
  ok_len : blocks_ok V;
  ok_meta b : 0 <= b < dstart -> used V b;
  ok_node j : 0 <= j < sb_ninodes sb -> dino_ok (I j);
  ok_ref j k b : refers I V j k b -> dstart <= b < sb_size sb /\ used V b;
  ok_inj j k j' k' b : refers I V j k b -> refers I V j' k' b -> j = j' /\ k = k';
  ok_size j : 0 <= j < sb_ninodes sb -> d_size (I j) <= MAXFILE * BSIZE;
  ok_holes j bn : 0 <= j < sb_ninodes sb -> 0 <= bn -> bn * BSIZE < d_size (I j) ->
    slot V (d_addrs (I j)) (fslot bn) <> 0;
}.

Context {dv start size : Z} `{G : !FsGeo dv start size sb}.

Lemma geo_bounds : 0 <= start /\ start + size <= sb_inodestart sb /\ 1 <= sb_ninodes sb /\ sb_inodestart sb + sb_ninodes sb / IPB + 1 <= sb_bmapstart sb /\
  sb_bmapstart sb + sb_size sb / BPB + 1 <= dstart /\ dstart <= sb_size sb /\ sb_size sb < 2147483648 - 8192 /\ 0 <= sb_ninodes sb / IPB /\ 0 <= sb_size sb / BPB /\
  0 < size.
Proof.
  destruct G as [[H1 H2 H3 H4] H5 H6 H7 H8 H9 H10]. unfold dstart. change IPB with 16 in *. change BPB with 8192 in *.
  split_and!; try done; try lia; dlia.
Qed.

(** Well-formedness depends only on the blocks from the inodes on. *)
Lemma slot_ext_ok I V V' j k : fsok I V -> (forall b, sb_inodestart sb <= b -> V' b = V b) -> 0 <= j < sb_ninodes sb ->
  slot V' (d_addrs (I j)) k = slot V (d_addrs (I j)) k.
Proof.
  intros Hok He Hj. pose proof geo_bounds as Hg. unfold slot. case_match; [done|]. destruct (Z.eqb_spec (addr_l (d_addrs (I j)) NDIRECT) 0) as [|Hne]; [done|].
  rewrite He; [done|]. assert (refers I V j NDIRECT (addr_l (d_addrs (I j)) NDIRECT)) as Hr by (split_and!; try done; lia).
  destruct (ok_ref _ _ Hok _ _ _ Hr). lia.
Qed.

(** Where the bit of a block is. *)
Lemma BBLOCK_val b : 0 <= b < sb_size sb -> BBLOCK b sb = b / BPB + sb_bmapstart sb /\
  sb_bmapstart sb <= BBLOCK b sb < dstart.
Proof.
  intros Hb. pose proof geo_bounds as Hg. unfold BBLOCK. change BPB with 8192 in *.
  assert (0 <= b / 8192 <= sb_size sb / 8192) by (split; [apply Z.div_pos|apply Z.div_le_mono]; lia).
  rewrite u32_small by lia. lia.
Qed.

Lemma IBLOCK_val j : 0 <= j < sb_ninodes sb -> IBLOCK j sb = j / IPB + sb_inodestart sb /\
  sb_inodestart sb <= IBLOCK j sb < sb_bmapstart sb.
Proof.
  intros Hj. pose proof geo_bounds as Hg. unfold IBLOCK. change IPB with 16 in *.
  assert (0 <= j / 16 <= sb_ninodes sb / 16) by (split; [apply Z.div_pos|apply Z.div_le_mono]; lia).
  rewrite u32_small by lia. lia.
Qed.

Lemma ioff_bound j : (ioff j + 64 <= Z.to_nat BSIZE)%nat.
Proof. unfold ioff. change IPB with 16. change DINODE with 64. change BSIZE with 1024. pose proof (Z.mod_pos_bound j 16). lia. Qed.

(** Two inodes in the same block are at different places. *)
Lemma ioff_disjoint i j : 0 <= i < sb_ninodes sb -> 0 <= j < sb_ninodes sb -> i <> j -> IBLOCK i sb = IBLOCK j sb ->
  (ioff i + 64 <= ioff j \/ ioff j + 64 <= ioff i)%nat.
Proof.
  intros Hi Hj Hne He. destruct (IBLOCK_val i Hi) as [E1 _], (IBLOCK_val j Hj) as [E2 _]. unfold ioff.
  change IPB with 16 in *. change DINODE with 64. pose proof (Z.div_mod i 16). pose proof (Z.div_mod j 16).
  pose proof (Z.mod_pos_bound i 16). pose proof (Z.mod_pos_bound j 16). lia.
Qed.

Lemma slot_ext V V' l k : (addr_l l NDIRECT <> 0 -> V' (addr_l l NDIRECT) = V (addr_l l NDIRECT)) -> slot V' l k = slot V l k.
Proof. intros He. unfold slot. case_match; [done|]. destruct (Z.eqb_spec (addr_l l NDIRECT) 0); [done|]. by rewrite He. Qed.

Lemma slot_ind V l : slot V l NDIRECT = addr_l l NDIRECT.
Proof. done. Qed.

Lemma fslot_range bn : 0 <= bn < MAXFILE -> 0 <= fslot bn < NSLOTS /\ fslot bn <> NDIRECT.
Proof.
  unfold fslot. change MAXFILE with 268. change NSLOTS with 269. change NDIRECT with 12. intros. case_match; lia.
Qed.
Lemma fslot_inj a b : 0 <= a -> 0 <= b -> fslot a = fslot b -> a = b.
Proof. unfold fslot. change NDIRECT with 12. intros. repeat case_match; lia. Qed.

Lemma fbyte_ext V V' l l' pos :
  (let k := fslot (pos / BSIZE) in slot V' l' k = slot V l k /\ (slot V l k <> 0 -> V' (slot V l k) = V (slot V l k))) ->
  fbyte V' l' pos = fbyte V l pos.
Proof. intros [Hs Hv]. unfold fbyte. rewrite Hs. destruct (Z.eqb_spec (slot V l (fslot (pos / BSIZE))) 0); [done|]. by rewrite Hv. Qed.

Lemma fsok_ext I V V' : fsok I V -> (forall b, sb_inodestart sb <= b -> V' b = V b) -> fsok I V'.
Proof.
  intros Hok He. pose proof (slot_ext_ok I V V' ) as Hs. pose proof geo_bounds as Hg.
  assert (forall b, 0 <= b < sb_size sb -> used V' b <-> used V b) as Hu.
  { intros b Hb. destruct (BBLOCK_val b Hb) as [_ HB]. unfold used. by rewrite He by lia. }
  assert (forall j k b, refers I V' j k b -> refers I V j k b) as Hr.
  { intros j k b (Hj & Hk & <- & Hb). split_and!; try done; try lia. symmetry. by apply Hs. }
  pose proof Hok as [H1 H2 H3 H4 H5 H6 H7]. split; try done.
  - intros b Hb. rewrite He by done. auto.
  - intros b Hb. apply Hu; [lia|auto].
  - intros j k b Hjk%Hr. destruct (H4 _ _ _ Hjk). split; [done|]. apply Hu; [lia|done].
  - intros j k j' k' b Ha%Hr Hb%Hr. eauto.
  - intros j bn Hj Hbn Hsz. rewrite Hs by done. auto.
Qed.

Lemma dnode_ext V V' j : (forall b, sb_inodestart sb <= b -> V' b = V b) -> 0 <= j < sb_ninodes sb -> dnode V' j = dnode V j.
Proof. intros He Hj. destruct (IBLOCK_val j Hj) as [_ HB]. unfold dnode. by rewrite He by lia. Qed.

Lemma fbyte_ext_ok I V V' j pos : fsok I V -> (forall b, sb_inodestart sb <= b -> V' b = V b) -> 0 <= j < sb_ninodes sb ->
  0 <= pos < MAXFILE * BSIZE -> fbyte V' (d_addrs (I j)) pos = fbyte V (d_addrs (I j)) pos.
Proof.
  intros Hok He Hj Hpos. pose proof geo_bounds as Hg. apply fbyte_ext. cbn zeta. split; [by apply (slot_ext_ok I)|]. intros Hne. apply He.
  assert (0 <= fslot (pos / BSIZE) < NSLOTS) as Hk by (apply fslot_range; change MAXFILE with 268 in *; change BSIZE with 1024 in *; dlia).
  assert (refers I V j (fslot (pos / BSIZE)) (slot V (d_addrs (I j)) (fslot (pos / BSIZE)))) as Hr by (split_and!; try done; lia).
  destruct (ok_ref _ _ Hok _ _ _ Hr). lia.
Qed.
End disk.
