(* ===== verification/FsAlloc.v ===== *)
(** The block allocator of fs.c: [balloc] finds a free block, marks it and zeroes it, or finds
    that there is none; [bfree] unmarks one. *)
From S2P Require Import Prelude Sleeplock Bio BioInv BioSpec Log LogPure LogSpec LogTxn Fs FsTxn FsDisk.

#[local] Arguments loop : simpl never.

Definition zeros : block := replicate (Z.to_nat BSIZE) 0.

(** The contents after marking and zeroing, and after unmarking. *)
Definition alloc_view (sb : superblock) (V : Z -> block) (b : Z) : Z -> block :=
  fset (fset V (BBLOCK b sb) (set_bit (V (BBLOCK b sb)) (b mod BPB))) b zeros.
Definition free_view (sb : superblock) (V : Z -> block) (b : Z) : Z -> block :=
  fset V (BBLOCK b sb) (clear_bit (V (BBLOCK b sb)) (b mod BPB)).

Section alloc.
Context (dv start size : Z) (sb : superblock) (K : fconst) `{G : !FsGeo dv start size sb}.
Abbreviation ftx := (ftx dv start size sb K).
Abbreviation used := (used sb).
Abbreviation dstart := (dstart sb).

Lemma loggable_above b : sb_inodestart sb <= b < sb_size sb -> loggable start size b.
Proof. intros Hb. pose proof (geo_bounds sb) as Hg. split; [unfold home; lia|lia]. Qed.

(** Buffers of data blocks in use. *)
Definition data_held (V : Z -> block) (hs : list (Z * nat)) : Prop :=
  (length hs <= 1)%nat /\ forall b, b ∈ hs.*1 -> dstart <= b < sb_size sb /\ used V b.
(** The bitmap is within the transaction's bound. *)
Definition bitmap_in (F : list Z) : Prop := forall b, 0 <= b < sb_size sb -> BBLOCK b sb ∈ F.

Lemma wp_bzero pid c s T V D F hs b (Q : cpu -> fsst -> unit -> Prop) :
  lcpu c -> curpid c = pid -> ftx pid s T V D F hs [] -> (length hs <= 1)%nat -> b ∉ hs.*1 -> dstart <= b < sb_size sb ->
  b ∈ F ->
  (forall c' s', same_cpu c c' -> ftx pid s' T (fset V b zeros) D F hs [] -> Q c' s' tt) ->
  wp (bzero dv b) c s Q.
Proof.
  intros Hc Hp Hx Hlen Hb Hrg HF HQ. pose proof (geo_bounds sb) as Hg. unfold bzero. wp_step.
  eapply (wp_fbread dv start size sb K); [done|done|exact Hx|lia|done|lia|]. intros s1 i Hx1. wp_step.
  eapply (wp_fstore dv start size sb K); [exact Hx1|by left|]. intros s2 Hx2. wp_step.
  eapply (wp_flog_write dv start size sb K); [done|exact Hx2|by left|done|apply loggable_above; lia|]. intros s3 Hx3.
  eapply (wp_fbrelse dv start size sb K); [done|done|exact Hx3|apply not_elem_of_nil|]. intros c4 s4 Hcc Hx4. by apply HQ.
Qed.

Lemma BBLOCK_chunk b bi : b mod BPB = 0 -> 0 <= bi < BPB -> BBLOCK (b + bi) sb = BBLOCK b sb /\ (b + bi) mod BPB = bi.
Proof.
  unfold BBLOCK. change BPB with 8192. intros Hb Hi. pose proof (Z.div_mod b 8192).
  replace ((b + bi) / 8192) with (b / 8192) by dlia. split; [done|dlia].
Qed.

(** Marking and zeroing the block found. *)
Lemma wp_claim {A} pid c s T V D F hs b i (r : A) (Q : cpu -> fsst -> A -> Prop) :
  lcpu c -> curpid c = pid -> ftx pid s T V D F ((BBLOCK b sb, i) :: hs) [] -> data_held V hs -> bitmap_in F ->
  dstart <= b < sb_size sb -> ~ used V b -> Z.of_nat (length F) + 1 <= size - 2 ->
  (forall c' s', same_cpu c c' -> ftx pid s' T (alloc_view sb V b) D (b :: F) hs [] -> Q c' s' r) ->
  wp (fstore i (set_bit (V (BBLOCK b sb)) (b mod BPB)) ;; flog_write i ;; fbrelse i ;; bzero dv b ;; ret r) c s Q.
Proof.
  intros Hc Hp Hx [Hlen Hh] HF Hrg Hu Hroom HQ. pose proof (geo_bounds sb) as Hg.
  destruct (BBLOCK_val sb b ltac:(lia)) as [_ HB]. wp_step.
  eapply (wp_fstore dv start size sb K); [exact Hx|by left|]. intros s2 Hx2. wp_step.
  eapply (wp_flog_write dv start size sb K); [done|exact Hx2|by left|apply HF; lia|apply loggable_above; lia|]. intros s3 Hx3. wp_step.
  eapply (wp_fbrelse dv start size sb K); [done|done|exact Hx3|apply not_elem_of_nil|]. intros c4 s4 Hcc Hx4.
  apply (ftx_room _ _ _ _ _ _ _ _ _ _ _ _ _ b) in Hx4; [|intros ->; apply (not_elem_of_nil (BBLOCK b sb)), HF; lia|done].
  wp_step. eapply wp_bzero; [by eapply same_lcpu|destruct Hcc as (_ & -> & _); done|exact Hx4|done| |lia|by left|].
  - intros Hin. by apply Hh in Hin as [_ ?].
  - intros c5 s5 Hcc5 Hx5. wp_step. apply HQ; [by eapply same_cpu_trans|done].
Qed.

Lemma wp_balloc pid c s T V D F hs (Q : cpu -> fsst -> Z -> Prop) :
  lcpu c -> curpid c = pid -> ftx pid s T V D F hs [] -> data_held V hs -> bitmap_in F ->
  (forall b, 0 <= b < dstart -> used V b) -> Z.of_nat (length F) + 1 <= size - 2 ->
  (forall c' s', same_cpu c c' -> ftx pid s' T V D F hs [] -> (forall b, 0 <= b < sb_size sb -> used V b) -> Q c' s' 0) ->
  (forall c' s' b, same_cpu c c' -> dstart <= b < sb_size sb -> ~ used V b ->
     ftx pid s' T (alloc_view sb V b) D (b :: F) hs [] -> Q c' s' b) ->
  wp (balloc dv) c s Q.
Proof.
  intros Hc Hp Hx Hh HF Hmeta Hroom Hfull Hnew. pose proof (geo_bounds sb) as Hg. unfold balloc. wp_step.
  eapply (wp_get_sb dv start size sb K); [exact Hx|]. change BPB with 8192 in *.
  eapply (wp_loop (fun b c' s' => 0 <= b /\ b mod 8192 = 0 /\ same_cpu c c' /\ ftx pid s' T V D F hs [] /\
    forall x, 0 <= x < b -> x < sb_size sb -> used V x) (fun b => Z.to_nat (sb_size sb / 8192 + 1 - b / 8192))); [|rewrite Z.div_0_l; lia|].
  2: { split_and!; try done; lia. }
  clear s Hx. intros b c1 s (Hb & Hm & Hcc & Hx & Hbelow).
  assert (lcpu c1) as Hc1 by (by eapply same_lcpu). assert (curpid c1 = pid) as Hp1 by (destruct Hcc as (_ & -> & _); done).
  destruct (Z.ltb_spec b (sb_size sb)) as [Hlt|Hge].
  2: { wp_step. wp_step. wp_step. apply Hfull; [done|done|]. intros x Hx'. apply Hbelow; lia. }
  destruct (BBLOCK_val sb b ltac:(lia)) as [_ HB]. destruct (Hh) as [Hlen Hh'].
  wp_step. eapply (wp_fbread dv start size sb K); [done|done|exact Hx|lia| |lia|].
  { intros Hin. apply Hh' in Hin. lia. }
  intros s1 i Hx1. wp_step.
  eapply (wp_loop (fun bi c' s' => 0 <= bi <= 8192 /\ c' = c1 /\ s' = s1 /\
    forall x, 0 <= x < bi -> b + x < sb_size sb -> used V (b + x)) (fun bi => Z.to_nat (8192 - bi))); [|lia|].
  2: { split_and!; try done; lia. }
  intros bi c' s' (Hbi & -> & -> & Hin). destruct (Z.ltb_spec bi 8192) as [Hlt2|Hge2]; cbn [andb].
  2: { wp_step. wp_step. eapply (wp_fbrelse dv start size sb K); [done|done|exact Hx1|apply not_elem_of_nil|]. intros c2 s2 Hcc2 Hx2. wp_step.
       split; [|dlia]. split_and!; [lia|dlia|by eapply same_cpu_trans|done|].
       intros x Hx' Hsz. destruct (decide (x < b)); [apply Hbelow; lia|]. replace x with (b + (x - b)) by lia. apply Hin; lia. }
  destruct (Z.ltb_spec (b + bi) (sb_size sb)) as [Hlt3|Hge3].
  2: { wp_step. wp_step. eapply (wp_fbrelse dv start size sb K); [done|done|exact Hx1|apply not_elem_of_nil|]. intros c2 s2 Hcc2 Hx2. wp_step.
       split; [|dlia]. split_and!; [lia|dlia|by eapply same_cpu_trans|done|].
       intros x Hx' Hsz. destruct (decide (x < b)); [apply Hbelow; lia|]. replace x with (b + (x - b)) by lia. apply Hin; lia. }
  wp_step. eapply (wp_fdata dv start size sb K); [exact Hx1|by left|].
  destruct (BBLOCK_chunk b bi Hm ltac:(change BPB with 8192; lia)) as [HBB Hmod].
  assert (used V (b + bi) <-> bit_set (V (BBLOCK b sb)) bi = true) as Hue.
  { unfold FsDisk.used. by rewrite HBB, Hmod. }
  destruct (bit_set (V (BBLOCK b sb)) bi) eqn:E; cbn [negb].
  - wp_step. split; [|lia]. split_and!; try done; try lia. intros x Hx' Hsz.
    destruct (decide (x = bi)) as [->|]; [by apply Hue|apply Hin; lia].
  - assert (~ used V (b + bi)) as Hnu by (intros Hc'; by apply Hue in Hc').
    assert (dstart <= b + bi) as Hd. { destruct (decide (dstart <= b + bi)); [done|]. destruct Hnu. apply Hmeta. lia. }
    rewrite <- HBB in Hx1.
    replace (set_bit (V (BBLOCK b sb)) bi) with (set_bit (V (BBLOCK (b + bi) sb)) ((b + bi) mod BPB)) by (by rewrite HBB, Hmod).
    eapply wp_claim; [done|done|exact Hx1|done|done|lia|done|done|].
    intros c2 s2 Hcc2 Hx2. wp_step. eapply Hnew; [by eapply same_cpu_trans|lia|done|done].
Qed.

Lemma wp_bfree pid c s T V D F hs b (Q : cpu -> fsst -> unit -> Prop) :
  lcpu c -> curpid c = pid -> ftx pid s T V D F hs [] -> data_held V hs -> bitmap_in F ->
  0 <= b < sb_size sb -> used V b ->
  (forall c' s', same_cpu c c' -> ftx pid s' T (free_view sb V b) D F hs [] -> Q c' s' tt) ->
  wp (bfree dv b) c s Q.
Proof.
  intros Hc Hp Hx [Hlen Hh] HF Hb Hu HQ. pose proof (geo_bounds sb) as Hg. destruct (BBLOCK_val sb b Hb) as [_ HB].
  unfold bfree. wp_step. eapply (wp_get_sb dv start size sb K); [exact Hx|]. wp_step. eapply (wp_fbread dv start size sb K); [done|done|exact Hx|lia| |lia|].
  { intros Hin. apply Hh in Hin. lia. }
  intros s1 i Hx1. wp_step. eapply (wp_fdata dv start size sb K); [exact Hx1|by left|]. unfold FsDisk.used in Hu. rewrite Hu. cbn [negb]. wp_step.
  eapply (wp_fstore dv start size sb K); [exact Hx1|by left|]. intros s2 Hx2. wp_step.
  eapply (wp_flog_write dv start size sb K); [done|exact Hx2|by left|by apply HF|apply loggable_above; lia|]. intros s3 Hx3.
  eapply (wp_fbrelse dv start size sb K); [done|done|exact Hx3|apply not_elem_of_nil|]. intros c4 s4 Hcc Hx4. by apply HQ.
Qed.
End alloc.
