(* ===== verification/FsGrow.v ===== *)
(** How the well-formedness and the bytes of the files change when a block is allocated, linked
    into a file, written, or an inode is stored. *)
From S2P Require Import Prelude Sleeplock Bio BioInv BioSpec Log LogPure LogSpec LogTxn Fs FsTxn FsDisk FsAlloc.

Section grow.
Context (dv start size : Z) (sb : superblock) `{G : !FsGeo dv start size sb}.
Abbreviation used := (used sb).
Abbreviation dstart := (dstart sb).
Abbreviation fsok := (fsok sb).
Abbreviation refers := (refers sb).

Lemma bit_in_block b : 0 <= b -> (Z.to_nat (b mod BPB / 8) < Z.to_nat BSIZE)%nat.
Proof. intros Hb. change BPB with 8192. change BSIZE with 1024. dlia. Qed.

(** Blocks with the same bitmap block and the same bit are the same. *)
Lemma bit_inj b x : 0 <= b < sb_size sb -> 0 <= x < sb_size sb -> BBLOCK x sb = BBLOCK b sb -> b mod BPB = x mod BPB -> b = x.
Proof.
  intros Hb Hx He Hm. destruct (BBLOCK_val sb b Hb) as [E1 _], (BBLOCK_val sb x Hx) as [E2 _].
  change BPB with 8192 in *. pose proof (Z.div_mod b 8192). pose proof (Z.div_mod x 8192). lia.
Qed.

Lemma alloc_view_other V b x : x <> b -> x <> BBLOCK b sb -> alloc_view sb V b x = V x.
Proof. intros. unfold alloc_view. by rewrite !fset_ne. Qed.

Lemma alloc_view_new V b : alloc_view sb V b b = zeros.
Proof. apply fset_eq. Qed.

Lemma alloc_view_len V b : blocks_ok sb V -> dstart <= b < sb_size sb -> blocks_ok sb (alloc_view sb V b).
Proof.
  intros Hl Hb x Hx. pose proof (geo_bounds sb) as Hg. destruct (BBLOCK_val sb b ltac:(lia)) as [_ HB].
  unfold alloc_view, fset. repeat case_match; [apply length_replicate|rewrite length_set_bit; apply Hl; lia|by apply Hl].
Qed.

Lemma alloc_view_used V b x : blocks_ok sb V -> dstart <= b < sb_size sb -> 0 <= x < sb_size sb ->
  used (alloc_view sb V b) x <-> x = b \/ used V x.
Proof.
  intros Hl Hb Hx. pose proof (geo_bounds sb) as Hg. unfold FsDisk.used.
  destruct (BBLOCK_val sb x Hx) as [_ HBx], (BBLOCK_val sb b ltac:(lia)) as [_ HBb]. unfold alloc_view. rewrite fset_ne by lia.
  pose proof (bit_in_block b ltac:(lia)) as Hi. pose proof (Z.mod_pos_bound b BPB ltac:(done)). pose proof (Z.mod_pos_bound x BPB ltac:(done)).
  destruct (decide (BBLOCK x sb = BBLOCK b sb)) as [He|He].
  - rewrite He, fset_eq, bit_set_set by (rewrite ?Hl by lia; lia). destruct (Z.eqb_spec (b mod BPB) (x mod BPB)) as [Hm|Hm]; simpl.
    + assert (b = x) by (by apply bit_inj; try lia). naive_solver.
    + split; [by right|]. intros [->|?]; [by destruct Hm|done].
  - rewrite fset_ne by done. split; [by right|]. intros [->|?]; [by destruct He|done].
Qed.

(** No pointer leads to a free block. *)
Lemma free_unreferred I V b : fsok I V -> ~ used V b -> forall j k, ~ refers I V j k b.
Proof. intros Hok Hu j k Hr. by apply Hu, (ok_ref _ _ _ Hok j k). Qed.

(** Pointers are kept as long as the indirect blocks are. *)
Lemma slot_keep I V V' : (forall j, 0 <= j < sb_ninodes sb -> addr_l (d_addrs (I j)) NDIRECT <> 0 ->
    V' (addr_l (d_addrs (I j)) NDIRECT) = V (addr_l (d_addrs (I j)) NDIRECT)) ->
  forall j k, 0 <= j < sb_ninodes sb -> slot V' (d_addrs (I j)) k = slot V (d_addrs (I j)) k.
Proof. intros He j k Hj. apply slot_ext. by apply He. Qed.

Lemma refers_ind I V j : 0 <= j < sb_ninodes sb -> addr_l (d_addrs (I j)) NDIRECT <> 0 ->
  refers I V j NDIRECT (addr_l (d_addrs (I j)) NDIRECT).
Proof. intros Hj Ha. split_and!; try done; lia. Qed.

(** ** Allocation *)

Record grow (I : Z -> dinode) (V : Z -> block) (I' : Z -> dinode) (V' : Z -> block) : Prop := {
  gr_ok : fsok I' V';
  gr_low b : b < sb_bmapstart sb -> V' b = V b;
  gr_bytes j pos : 0 <= j < sb_ninodes sb -> 0 <= pos < MAXFILE * BSIZE ->
    fbyte V' (d_addrs (I' j)) pos = fbyte V (d_addrs (I j)) pos;
  gr_slots j k : 0 <= j < sb_ninodes sb -> 0 <= k < NSLOTS -> slot V (d_addrs (I j)) k <> 0 ->
    slot V' (d_addrs (I' j)) k = slot V (d_addrs (I j)) k;
}.

Lemma grow_refl I V : fsok I V -> grow I V I V.
Proof. by split. Qed.
Lemma grow_trans I V I1 V1 I2 V2 : grow I V I1 V1 -> grow I1 V1 I2 V2 -> grow I V I2 V2.
Proof.
  intros [A1 A2 A3 A4] [B1 B2 B3 B4]. split; [done| | |].
  - intros b Hb. by rewrite B2, A2.
  - intros j pos Hj Hpos. by rewrite B3, A3.
  - intros j k Hj Hk Hs. rewrite B4 by (done || by rewrite A4). by apply A4.
Qed.

Lemma pos_slot pos : 0 <= pos < MAXFILE * BSIZE -> 0 <= fslot (pos / BSIZE) < NSLOTS /\ fslot (pos / BSIZE) <> NDIRECT.
Proof.
  intros Hpos. apply fslot_range. change MAXFILE with 268 in *. change BSIZE with 1024 in *. dlia.
Qed.

(** A change that keeps the pointers, the blocks they lead to, and the sizes. *)
Lemma fsok_keep I V V' : fsok I V ->
  blocks_ok sb V' -> (forall x, 0 <= x < sb_size sb -> used V x -> used V' x) ->
  (forall x, dstart <= x < sb_size sb -> used V x -> V' x = V x) ->
  fsok I V' /\ (forall j k, 0 <= j < sb_ninodes sb -> 0 <= k < NSLOTS -> slot V' (d_addrs (I j)) k = slot V (d_addrs (I j)) k) /\
  (forall j pos, 0 <= j < sb_ninodes sb -> 0 <= pos < MAXFILE * BSIZE -> fbyte V' (d_addrs (I j)) pos = fbyte V (d_addrs (I j)) pos).
Proof.
  intros Hok Hl Hu Hsame. pose proof (geo_bounds sb) as Hg.
  assert (forall j k, 0 <= j < sb_ninodes sb -> slot V' (d_addrs (I j)) k = slot V (d_addrs (I j)) k) as Hs.
  { apply slot_keep. intros j Hj Ha. apply Hsame; by apply (ok_ref _ _ _ Hok _ _ _ (refers_ind I V j Hj Ha)). }
  assert (forall j k b, refers I V' j k b -> refers I V j k b) as Hr.
  { intros j k b (Hj & Hk & <- & Hb). split_and!; try done; try lia; by rewrite <- Hs. }
  split_and!.
  - destruct Hok as [H1 H2 H3 H4 H5 H6 H7]. split; try done.
    + intros b Hb. apply Hu; [lia|auto].
    + intros j k b Hjk%Hr. destruct (H4 j k b Hjk). split; [done|]. apply Hu; [lia|done].
    + intros j k j' k' b Ha%Hr Hb%Hr. eauto.
    + intros j bn Hj Hbn Hsz. rewrite Hs by done. auto.
  - intros j k Hj _. by apply Hs.
  - intros j pos Hj Hpos. apply fbyte_ext. cbn zeta. rewrite Hs by done. split; [done|]. intros Hne.
    destruct (pos_slot pos Hpos) as [Hk _].
    assert (refers I V j (fslot (pos / BSIZE)) (slot V (d_addrs (I j)) (fslot (pos / BSIZE)))) as Hrf by (split_and!; try done; lia).
    apply Hsame; by apply (ok_ref _ _ _ Hok _ _ _ Hrf).
Qed.

Lemma grow_alloc I V b : fsok I V -> dstart <= b < sb_size sb -> ~ used V b ->
  grow I V I (alloc_view sb V b) /\ used (alloc_view sb V b) b /\ (forall j k, ~ refers I (alloc_view sb V b) j k b) /\
  forall j k, 0 <= j < sb_ninodes sb -> 0 <= k < NSLOTS -> slot (alloc_view sb V b) (d_addrs (I j)) k = slot V (d_addrs (I j)) k.
Proof.
  intros Hok Hb Hu. pose proof (geo_bounds sb) as Hg. pose proof (ok_len _ _ _ Hok) as Hl.
  destruct (BBLOCK_val sb b ltac:(lia)) as [_ HB].
  destruct (fsok_keep I V (alloc_view sb V b) Hok) as (Hok' & Hs & Hby).
  - by apply alloc_view_len.
  - intros x Hx Hux. apply alloc_view_used; try done. by right.
  - intros x Hx Hux. apply alloc_view_other; [by intros ->|lia].
  - split_and!; [split; [done| |done|by auto]|..].
    + intros x Hx. apply alloc_view_other; lia.
    + apply alloc_view_used; [done|done|lia|by left].
    + intros j k (Hj & Hk & Hsl & Hne). apply (free_unreferred I V b Hok Hu j k). split_and!; try done; try lia. by rewrite <- Hs.
    + done.
Qed.

(** ** Linking a fresh block into a file *)

Section link.
Context (I : Z -> dinode) (V : Z -> block) (I' : Z -> dinode) (V' : Z -> block) (inum k b : Z).
Hypothesis Hok : fsok I V.
Hypothesis Hb : dstart <= b < sb_size sb.
Hypothesis Hub : used V b.
Hypothesis Hfresh : forall j k, ~ refers I V j k b.
Hypothesis Hinum : 0 <= inum < sb_ninodes sb.
Hypothesis Hk : 0 <= k < NSLOTS.
Hypothesis Hempty : slot V (d_addrs (I inum)) k = 0.
Hypothesis Hslots : forall j k', 0 <= j < sb_ninodes sb -> 0 <= k' < NSLOTS ->
  slot V' (d_addrs (I' j)) k' = if decide (j = inum /\ k' = k) then b else slot V (d_addrs (I j)) k'.
Hypothesis Hnode : forall j, 0 <= j < sb_ninodes sb -> dino_ok (I' j) /\ d_size (I' j) = d_size (I j).
Hypothesis Hlen : blocks_ok sb V'.
Hypothesis Hused : forall x, 0 <= x < sb_size sb -> used V' x <-> used V x.
Hypothesis Hlow : forall x, x < sb_bmapstart sb -> V' x = V x.
Hypothesis Hdata : forall x j k', refers I V j k' x -> k' <> NDIRECT -> V' x = V x.
Hypothesis Hzero : V' b = zeros.

Lemma grow_link : grow I V I' V'.
Proof.
  pose proof (geo_bounds sb) as Hg.
  assert (forall j k' x, refers I' V' j k' x -> (j = inum /\ k' = k /\ x = b) \/ refers I V j k' x) as Hr.
  { intros j k' x (Hj & Hk' & Hs & Hx). rewrite Hslots in Hs by lia. case_decide as Hd; [left|right]; [naive_solver|]. split_and!; try done; lia. }
  destruct Hok as [H1 H2 H3 H4 H5 H6 H7]. split; [split| | |].
  - done.
  - intros x Hx. apply Hused; [lia|auto].
  - intros j Hj. by apply Hnode.
  - intros j k' x [(-> & -> & ->)|Hrf]%Hr; [split; [done|]; apply Hused; [lia|done]|].
    destruct (H4 _ _ _ Hrf). split; [done|]. apply Hused; [lia|done].
  - intros j k' j' k'' x [(-> & -> & ->)|Hrf]%Hr [(-> & -> & E)|Hrf']%Hr; [done|by destruct (Hfresh _ _ Hrf')| |eauto].
    subst x. by destruct (Hfresh _ _ Hrf).
  - intros j Hj. destruct (Hnode j Hj) as [_ ->]. auto.
  - intros j bn Hj Hbn Hsz. destruct (Hnode j Hj) as [_ E]. rewrite E in Hsz. pose proof (H6 j Hj).
    assert (0 <= fslot bn < NSLOTS). { apply fslot_range. change MAXFILE with 268 in *. change BSIZE with 1024 in *. lia. }
    rewrite Hslots by lia. case_decide; [lia|auto].
  - done.
  - intros j pos Hj Hpos. destruct (pos_slot pos Hpos) as [Hk' Hn]. unfold fbyte. rewrite Hslots by lia.
    case_decide as Hd.
    + destruct Hd as [-> Hd]. rewrite Hd, Hempty. simpl. rewrite (proj2 (Z.eqb_neq b 0)) by lia. rewrite Hzero.
      unfold get8, zeros. destruct (replicate _ _ !! _) as [y|] eqn:E; [|done]. by apply lookup_replicate in E as [-> _].
    + destruct (Z.eqb_spec (slot V (d_addrs (I j)) (fslot (pos / BSIZE))) 0) as [|Hne]; [done|].
      rewrite (Hdata _ j (fslot (pos / BSIZE))); [done| |done]. split_and!; try done; lia.
  - intros j k' Hj Hk' Hs. rewrite Hslots by lia. case_decide as Hd; [|done]. destruct Hd as [-> ->]. done.
Qed.
End link.

Lemma addr_l_insert l k b k' : 0 <= k < Z.of_nat (length l) -> 0 <= k' ->
  addr_l (<[Z.to_nat k := b]> l) k' = if decide (k' = k) then b else addr_l l k'.
Proof.
  intros Hk Hk'. unfold addr_l. case_decide as Hd.
  - subst k'. by rewrite list_lookup_insert_eq by lia.
  - by rewrite list_lookup_insert_ne by lia.
Qed.

Lemma get32_zeros off : get32 zeros off = 0.
Proof.
  assert (forall k, default 0 (zeros !! k) = 0) as Hz.
  { intros k. destruct (zeros !! k) as [y|] eqn:E; [|done]. by apply lookup_replicate in E as [-> _]. }
  unfold get32. by rewrite !Hz.
Qed.

(** Filling a direct slot, or the one of the indirect block. *)
Lemma slot_insert V l k b k' : length l = 13%nat -> 0 <= k <= NDIRECT -> 0 <= k' -> b <> 0 ->
  (k = NDIRECT -> addr_l l NDIRECT = 0 /\ V b = zeros) ->
  slot V (<[Z.to_nat k := b]> l) k' = if decide (k' = k) then b else slot V l k'.
Proof.
  change NDIRECT with 12. intros Hl Hk Hk' Hb Hind. unfold slot. change NDIRECT with 12.
  rewrite !addr_l_insert by lia. destruct (Z.leb_spec k' 12); [done|]. rewrite (decide_False (P := k' = k)) by lia.
  case_decide as Hd; [|done]. destruct Hind as [H0 Hz]; [done|]. rewrite H0, Hz. rewrite (proj2 (Z.eqb_neq b 0)) by done.
  simpl. apply get32_zeros.
Qed.

Lemma dino_ok_insert x k b : dino_ok (core x) -> 0 <= b < 4294967296 -> dino_ok (core (set_addr k b x)).
Proof.
  intros (H1 & H2 & H3 & H4 & H5 & H6 & H7) Hb. unfold dino_ok. simpl in *. rewrite length_insert. split_and!; try lia. by apply Forall_insert.
Qed.

Lemma link_direct I V inum x k b : fsok I V -> 0 <= inum < sb_ninodes sb -> I inum = core x -> 0 <= k <= NDIRECT ->
  addr_l (i_addrs x) k = 0 -> dstart <= b < sb_size sb -> ~ used V b ->
  grow I V (fset I inum (core (set_addr k b x))) (alloc_view sb V b).
Proof.
  intros Hok Hi Hx Hk H0 Hb Hu. pose proof (geo_bounds sb) as Hg. change NDIRECT with 12 in Hk.
  destruct (grow_alloc I V b Hok Hb Hu) as (Hgr & Hub & Hfr & Hsl). pose proof (ok_node _ _ _ Hok inum Hi) as Hn. rewrite Hx in Hn.
  assert (length (i_addrs x) = 13%nat) as Hl by apply Hn.
  assert (slot V (d_addrs (I inum)) k = 0) as He by (unfold slot; rewrite (proj2 (Z.leb_le _ _)), Hx by (change NDIRECT with 12; lia); done).
  assert (0 <= k < NSLOTS) as Hkn by (change NSLOTS with 269; lia).
  eapply grow_trans; [exact Hgr|]. apply (grow_link _ _ _ _ inum k b); try done.
  - apply Hgr.
  - by rewrite Hsl by lia.
  - intros j k' Hj Hk'. destruct (decide (j = inum)) as [->|Hne].
    + rewrite fset_eq, Hx. cbn [core d_addrs set_addr set_addrs i_addrs]. rewrite slot_insert; try done; try lia.
      * destruct (decide (k' = k)) as [->|]; [by rewrite decide_True|]. by rewrite decide_False by naive_solver.
      * intros ->. split; [done|apply alloc_view_new].
    + rewrite fset_ne by done. by rewrite decide_False by naive_solver.
  - intros j Hj. unfold fset. destruct (Z.eqb_spec j inum) as [->|]; [|by split; [apply (ok_node _ _ _ Hok)|]].
    rewrite Hx. split; [|done]. apply dino_ok_insert; [done|lia].
  - apply Hgr.
  - apply alloc_view_new.
Qed.

(** Filling an entry of the indirect block. *)
Lemma slot_put32 V l a b k k' : addr_l l NDIRECT = a -> a <> 0 -> length (V a) = Z.to_nat BSIZE -> 0 <= b < 4294967296 ->
  NDIRECT < k < NSLOTS -> 0 <= k' < NSLOTS ->
  slot (fset V a (put32 (V a) (4 * Z.to_nat (k - NDIRECT - 1)) b)) l k' = if decide (k' = k) then b else slot V l k'.
Proof.
  change NDIRECT with 12. change NSLOTS with 269. change BSIZE with 1024. intros Ha Hne Hlen Hb Hk Hk'.
  unfold slot. change NDIRECT with 12. destruct (Z.leb_spec k' 12); [by rewrite decide_False by lia|].
  rewrite Ha, (proj2 (Z.eqb_neq a 0)), fset_eq by done. case_decide as Hd.
  - subst k'. rewrite get32_put32 by (rewrite Hlen; lia). by apply u32_small.
  - apply get32_put32_ne. lia.
Qed.

Lemma link_indirect I V inum a k b : fsok I V -> 0 <= inum < sb_ninodes sb -> addr_l (d_addrs (I inum)) NDIRECT = a -> a <> 0 ->
  NDIRECT < k < NSLOTS -> slot V (d_addrs (I inum)) k = 0 -> dstart <= b < sb_size sb -> ~ used V b ->
  let V1 := alloc_view sb V b in
  let V2 := fset V1 a (put32 (V1 a) (4 * Z.to_nat (k - NDIRECT - 1)) b) in
  V1 a = V a /\ grow I V I V2 /\ slot V2 (d_addrs (I inum)) k = b.
Proof.
  intros Hok Hi Ha Hne Hk He Hb Hu V1 V2. pose proof (geo_bounds sb) as Hg.
  destruct (grow_alloc I V b Hok Hb Hu) as (Hgr & Hub & Hfr & Hsl). fold V1 in Hgr, Hub, Hfr, Hsl.
  destruct (BBLOCK_val sb b ltac:(lia)) as [_ HB].
  assert (refers I V inum NDIRECT a) as Hra by (rewrite <- Ha in Hne |- *; by apply refers_ind).
  destruct (ok_ref _ _ _ Hok _ _ _ Hra) as [Hrg Hua].
  assert (V1 a = V a) as HVa by (apply alloc_view_other; [by intros ->|lia]).
  pose proof (ok_len _ _ _ (gr_ok _ _ _ _ Hgr)) as Hlen.
  assert (forall j k', 0 <= j < sb_ninodes sb -> 0 <= k' < NSLOTS ->
    slot V2 (d_addrs (I j)) k' = if decide (j = inum /\ k' = k) then b else slot V1 (d_addrs (I j)) k') as Hslots.
  { intros j k' Hj Hk'. destruct (decide (j = inum)) as [->|Hj'].
    - unfold V2. rewrite (slot_put32 V1 _ a b k k') by (done || (apply Hlen; lia) || lia).
      destruct (decide (k' = k)) as [->|]; [by rewrite decide_True|by rewrite decide_False by naive_solver].
    - rewrite decide_False by naive_solver. apply slot_ext. intros Hj12. unfold V2. apply fset_ne. intros E.
      destruct Hj'. apply (ok_inj _ _ _ Hok j NDIRECT inum NDIRECT a); [|done]. rewrite <- E. by apply refers_ind. }
  change NDIRECT with 12 in Hk.
  split_and!; [done| |rewrite Hslots by lia; by rewrite decide_True].
  eapply grow_trans; [exact Hgr|]. apply (grow_link _ _ _ _ inum k b); try done; try lia.
  - apply Hgr.
  - by rewrite Hsl by lia.
  - intros j Hj. split; [by apply (ok_node _ _ _ Hok)|done].
  - intros x Hx. unfold V2, fset. case_match; [rewrite length_put32; apply Hlen; lia|by apply Hlen].
  - intros x Hx. destruct (BBLOCK_val sb x Hx) as [_ HBx]. unfold FsDisk.used, V2. by rewrite fset_ne by lia.
  - intros x Hx. unfold V2. rewrite fset_ne by lia. done.
  - intros x j k' Hrf Hk'. unfold V2. apply fset_ne. intros ->. destruct Hk'.
    assert (refers I V1 inum NDIRECT a) as Hra1 by (rewrite <- Ha in Hne |- *; by apply refers_ind).
    by destruct (ok_inj _ _ _ (gr_ok _ _ _ _ Hgr) _ _ _ _ _ Hrf Hra1).
  - unfold V2. rewrite fset_ne by (by intros ->). apply alloc_view_new.
Qed.

(** ** Writing a block of a file *)

Lemma write_block I V inum bn d : fsok I V -> 0 <= inum < sb_ninodes sb -> 0 <= bn < MAXFILE ->
  let a := slot V (d_addrs (I inum)) (fslot bn) in
  a <> 0 -> length d = Z.to_nat BSIZE ->
  fsok I (fset V a d) /\ (forall j k, 0 <= j < sb_ninodes sb -> slot (fset V a d) (d_addrs (I j)) k = slot V (d_addrs (I j)) k) /\
  (forall j pos, 0 <= j < sb_ninodes sb -> 0 <= pos < MAXFILE * BSIZE -> fbyte (fset V a d) (d_addrs (I j)) pos =
     if decide (j = inum /\ pos / BSIZE = bn) then get8 d (Z.to_nat (pos mod BSIZE)) else fbyte V (d_addrs (I j)) pos) /\
  dstart <= a < sb_size sb.
Proof.
  intros Hok Hi Hbn a Ha Hd. pose proof (geo_bounds sb) as Hg. destruct (fslot_range bn Hbn) as [Hk Hk12].
  assert (refers I V inum (fslot bn) a) as Hra by (split_and!; try done; lia).
  destruct (ok_ref _ _ _ Hok _ _ _ Hra) as [Hrg Hua].
  assert (forall j k, 0 <= j < sb_ninodes sb -> slot (fset V a d) (d_addrs (I j)) k = slot V (d_addrs (I j)) k) as Hs.
  { intros j k Hj. apply slot_ext. intros H12. apply fset_ne. intros E. rewrite <- E in Hra.
    by destruct (ok_inj _ _ _ Hok _ _ _ _ _ Hra (refers_ind I V j Hj H12)). }
  assert (forall x, 0 <= x < sb_size sb -> used (fset V a d) x <-> used V x) as Hu.
  { intros x Hx. destruct (BBLOCK_val sb x Hx) as [_ HB]. unfold FsDisk.used. by rewrite fset_ne by lia. }
  assert (forall j k b, refers I (fset V a d) j k b -> refers I V j k b) as Hr.
  { intros j k b (Hj & Hkk & <- & Hb). split_and!; try done; try lia; by rewrite <- Hs. }
  split_and!; [|done| |lia|lia].
  - destruct Hok as [H1 H2 H3 H4 H5 H6 H7]. split; try done.
    + intros b Hb. unfold fset. case_match; [done|by apply H1].
    + intros b Hb. apply Hu; [lia|auto].
    + intros j k b Hjk%Hr. destruct (H4 j k b Hjk). split; [done|]. apply Hu; [lia|done].
    + intros j k j' k' b H%Hr H'%Hr. eauto.
    + intros j bn' Hj Hbn' Hsz. rewrite Hs by done. auto.
  - intros j pos Hj Hpos. destruct (pos_slot pos Hpos) as [Hkp _]. unfold fbyte. rewrite Hs by done. case_decide as Hd'.
    + destruct Hd' as [-> <-]. fold a. rewrite (proj2 (Z.eqb_neq a 0)), fset_eq by done. done.
    + destruct (Z.eqb_spec (slot V (d_addrs (I j)) (fslot (pos / BSIZE))) 0) as [|Hne]; [done|]. rewrite fset_ne; [done|].
      intros E. destruct Hd'. rewrite <- E in Hra.
      destruct (ok_inj _ _ _ Hok inum (fslot bn) j (fslot (pos / BSIZE)) _ Hra) as [-> Hfs]; [split_and!; try done; lia|].
      split; [done|]. symmetry. apply fslot_inj; [lia| |done]. apply Z.div_pos; [lia|done].
Qed.

(** ** Changing the size *)

Lemma fsok_node I V inum n : fsok I V -> 0 <= inum < sb_ninodes sb -> dino_ok n -> d_addrs n = d_addrs (I inum) ->
  d_size n <= MAXFILE * BSIZE -> (forall bn, 0 <= bn -> bn * BSIZE < d_size n -> slot V (d_addrs n) (fslot bn) <> 0) ->
  fsok (fset I inum n) V.
Proof.
  intros [H1 H2 H3 H4 H5 H6 H7] Hi Hn Ha Hsz Hh.
  assert (forall j, d_addrs (fset I inum n j) = d_addrs (I j)) as Hd by (intros j; unfold fset; destruct (Z.eqb_spec j inum) as [->|]; done).
  assert (forall j k b, refers (fset I inum n) V j k b -> refers I V j k b) as Hr.
  { intros j k b (Hj & Hk & Hs & Hb). rewrite Hd in Hs. exact (conj Hj (conj Hk (conj Hs Hb))). }
  split; try done.
  - intros j Hj. unfold fset. case_match; auto.
  - intros j k b Hjk%Hr. eauto.
  - intros j k j' k' b H%Hr H'%Hr. eauto.
  - intros j Hj. unfold fset. case_match; auto.
  - intros j bn Hj Hbn. unfold fset. destruct (Z.eqb_spec j inum) as [->|]; auto.
Qed.
End grow.
