(* ===== verification/FsInode.v ===== *)
(** The inodes of fs.c: mapping a file block to a disk block, allocating what is missing
    ([bmap]), storing an inode ([iupdate]), the inode table and the inode locks. *)
From S2P Require Import Prelude Sleeplock Bio BioInv BioSpec Log LogPure LogSpec LogTxn Fs FsTxn FsDisk FsAlloc FsGrow.

#[local] Arguments loop : simpl never.

Section inode.
Context (dv start size : Z) (sb : superblock) (K : fconst) `{G : !FsGeo dv start size sb}.
Abbreviation ftx := (ftx dv start size sb K).
Abbreviation used := (used sb).
Abbreviation fsok := (fsok sb).
Abbreviation grow := (grow sb).

(** A transaction in which the inode [inum], at [ip] of the inode table, may differ from its
    copy on disk: [I] has all the inodes as they are or will be. *)
Record opened (pid : Z) (s : fsst) (T : nat -> inode) (V D : Z -> block) (F : list Z) (I : Z -> dinode) (ip : nat) (inum : Z) : Prop := {
  op_tx : ftx pid s T V D F [] [];
  op_ok : fsok I V;
  op_node : I inum = core (T ip);
  op_inum : 0 <= inum < sb_ninodes sb;
  op_id : i_dev (T ip) = dv /\ i_inum (T ip) = inum;
  op_bitmap : bitmap_in sb F;
  op_ind : addr_at (T ip) NDIRECT <> 0 -> addr_at (T ip) NDIRECT ∈ F;
}.

(** What [bmap] may have done: allocated blocks and linked them into the file. *)
Record bmapped (T : nat -> inode) (V : Z -> block) (F : list Z) (I : Z -> dinode) (ip : nat) (inum bn : Z)
    (T' : nat -> inode) (V' : Z -> block) (F' : list Z) (I' : Z -> dinode) (a : Z) : Prop := {
  bm_grow : grow I V I' V';
  bm_other j : j <> inum -> I' j = I j;
  bm_tab i : i <> ip -> T' i = T i;
  bm_node : exists l, T' ip = set_addrs l (T ip);
  bm_F : F ⊆ F' /\ (length F' <= length F + 2)%nat;
  bm_addr : a = slot V' (i_addrs (T' ip)) (fslot bn);
  bm_full : a = 0 -> forall b, 0 <= b < sb_size sb -> used V' b;
}.

Lemma data_held_nil V : data_held sb V [].
Proof. split; [simpl; lia|]. intros b Hb. by apply not_elem_of_nil in Hb. Qed.

Lemma upd_itable_eq i f T : upd_itable i f T i = f (T i).
Proof. unfold upd_itable. by rewrite decide_True. Qed.
Lemma upd_itable_ne i f T j : j <> i -> upd_itable i f T j = T j.
Proof. intros. unfold upd_itable. by rewrite decide_False. Qed.

Lemma set_addrs_id x : set_addrs (i_addrs x) x = x.
Proof. by destruct x. Qed.

Lemma bmapped_refl pid s T V D F I ip inum bn a : opened pid s T V D F I ip inum ->
  a = slot V (i_addrs (T ip)) (fslot bn) -> (a = 0 -> forall b, 0 <= b < sb_size sb -> used V b) ->
  bmapped T V F I ip inum bn T V F I a.
Proof.
  intros Ho Ha Hf. split; try done.
  - apply grow_refl, Ho.
  - exists (i_addrs (T ip)). by rewrite set_addrs_id.
  - split; [done|lia].
Qed.

(** Allocating a block for slot [k] of the inode itself. *)
Lemma wp_fill pid c s T V D F I ip inum k (Q : cpu -> fsst -> Z -> Prop) :
  lcpu c -> curpid c = pid -> opened pid s T V D F I ip inum -> 0 <= k <= NDIRECT -> addr_at (T ip) k = 0 ->
  Z.of_nat (length F) + 1 <= size - 2 ->
  (forall c' s', same_cpu c c' -> opened pid s' T V D F I ip inum -> (forall b, 0 <= b < sb_size sb -> used V b) -> Q c' s' 0) ->
  (forall c' s' b T' V', same_cpu c c' -> b <> 0 -> b < 4294967296 -> T' = upd_itable ip (set_addr k b) T ->
     opened pid s' T' V' D (b :: F) (fset I inum (core (T' ip))) ip inum ->
     grow I V (fset I inum (core (T' ip))) V' -> Q c' s' b) ->
  wp (addr <- balloc dv ;; if addr =? 0 then ret 0 else upd_inode ip (set_addr k addr) ;; ret addr) c s Q.
Proof.
  intros Hc Hp [Hx Hok Hn Hi [Hd1 Hd2] HF Hind] Hk H0 Hroom Hfull Hnew. pose proof (geo_bounds sb) as Hg. wp_step.
  eapply (wp_balloc dv start size sb K); [done|done|exact Hx|apply data_held_nil|done|apply Hok|done|..].
  - intros c' s' Hcc Hx' Hu. cbn [Z.eqb]. wp_step. apply Hfull; [done| |done]. by split.
  - intros c' s' b Hcc Hb Hu Hx'. rewrite (proj2 (Z.eqb_neq b 0)) by lia. wp_step.
    eapply (wp_upd_inode dv start size sb K); [exact Hx'|]. intros s2 Hx2. wp_step.
    assert (grow I V (fset I inum (core (upd_itable ip (set_addr k b) T ip))) (alloc_view sb V b)) as Hgr.
    { rewrite upd_itable_eq. by apply (link_direct dv start size). }
    eapply Hnew; [done|lia|lia|reflexivity| |exact Hgr]. split; try done.
    + apply Hgr.
    + by rewrite fset_eq.
    + by rewrite upd_itable_eq.
    + intros x Hx0. right. by apply HF.
    + rewrite upd_itable_eq. intros Hne. unfold addr_at in *. simpl in *. change NDIRECT with 12 in *.
      assert (length (i_addrs (T ip)) = 13%nat) as Hl by (pose proof (ok_node _ _ _ Hok inum Hi) as Hno; rewrite Hn in Hno; apply Hno).
      destruct (decide (k = 12)) as [->|Hk']; [|rewrite list_lookup_insert_ne in * by lia; right; by apply Hind].
      rewrite list_lookup_insert_eq by (rewrite Hl; simpl; lia). by left.
Qed.

Lemma opened_len pid s T V D F I ip inum : opened pid s T V D F I ip inum ->
  length (i_addrs (T ip)) = 13%nat /\ dino_ok (core (T ip)).
Proof. intros Ho. pose proof (ok_node _ _ _ (op_ok _ _ _ _ _ _ _ _ _ Ho) _ (op_inum _ _ _ _ _ _ _ _ _ Ho)) as Hn. rewrite (op_node _ _ _ _ _ _ _ _ _ Ho) in Hn. split; [apply Hn|done]. Qed.

(** The second half of [bmap]: an entry of the indirect block [a]. *)
Lemma wp_indirect pid c s T V D F I ip inum bn (Q : cpu -> fsst -> Z -> Prop) :
  lcpu c -> curpid c = pid -> opened pid s T V D F I ip inum -> 0 <= bn < NINDIRECT ->
  let a := addr_at (T ip) NDIRECT in
  a <> 0 -> Z.of_nat (length F) + 1 <= size - 2 ->
  (forall c' s' V' F' r, same_cpu c c' -> opened pid s' T V' D F' I ip inum ->
     grow I V I V' -> F ⊆ F' -> (length F' <= length F + 1)%nat -> r = slot V' (i_addrs (T ip)) (bn + NDIRECT + 1) ->
     (r = 0 -> forall b, 0 <= b < sb_size sb -> used V' b) -> Q c' s' r) ->
  wp (bp <- fbread dv a ;; x <- fdata bp ;;
      addr <- (if get32 x (4 * Z.to_nat bn) =? 0 then
                 addr <- balloc dv ;;
                 (if negb (addr =? 0) then
                    x <- fdata bp ;; fstore bp (put32 x (4 * Z.to_nat bn) addr) ;; flog_write bp
                  else ret tt) ;;
                 ret addr
               else ret (get32 x (4 * Z.to_nat bn))) ;;
      fbrelse bp ;; ret addr) c s Q.
Proof.
  intros Hc Hp Ho Hbn a Ha Hroom HQ. pose proof (geo_bounds sb) as Hg.
  destruct (Ho) as [Hx Hok Hn Hi [Hd1 Hd2] HF Hind].
  change NINDIRECT with 256 in Hbn.
  assert (refers sb I V inum NDIRECT a) as Hra by (split_and!; try done; try lia; unfold slot; rewrite Hn; done).
  destruct (ok_ref _ _ _ Hok _ _ _ Hra) as [Hrg Hua].
  assert (slot V (i_addrs (T ip)) (bn + NDIRECT + 1) = get32 (V a) (4 * Z.to_nat bn)) as Hsl.
  { unfold slot. rewrite (proj2 (Z.leb_gt _ _)) by lia. change (addr_l (i_addrs (T ip)) NDIRECT) with a.
    rewrite (proj2 (Z.eqb_neq a 0)) by done. do 3 f_equal. lia. }
  wp_step. eapply (wp_fbread dv start size sb K); [done|done|exact Hx|lia|apply not_elem_of_nil|simpl; lia|]. intros s1 i Hx1.
  wp_step. eapply (wp_fdata dv start size sb K); [exact Hx1|by left|]. wp_step.
  destruct (Z.eqb_spec (get32 (V a) (4 * Z.to_nat bn)) 0) as [He|He].
  - wp_step. eapply (wp_balloc dv start size sb K); [done|done|exact Hx1| |done|apply Hok|done|..].
    + split; [simpl; lia|]. intros b Hb. simpl in Hb. apply list_elem_of_singleton in Hb as ->. done.
    + intros c2 s2 Hcc Hx2 Hfull. cbn [Z.eqb negb]. wp_step. wp_step. wp_step. wp_step.
      eapply (wp_fbrelse dv start size sb K); [by eapply same_lcpu|destruct Hcc as (_ & -> & _); done|exact Hx2|apply not_elem_of_nil|].
      intros c3 s3 Hcc3 Hx3. wp_step. eapply HQ; [by eapply same_cpu_trans| |by apply grow_refl|done|lia|by rewrite Hsl|done]. by split.
    + intros c2 s2 b Hcc Hb Hu Hx2. rewrite (proj2 (Z.eqb_neq b 0)) by lia. cbn [negb].
      destruct (link_indirect dv start size sb I V inum a (bn + NDIRECT + 1) b) as (HVa & Hgr & Hnew); try done.
      { by rewrite Hn. }
      { change NSLOTS with 269. change NDIRECT with 12. lia. }
      { rewrite Hn. cbn [core d_addrs]. by rewrite Hsl. }
      replace (bn + NDIRECT + 1 - NDIRECT - 1) with bn in * by lia. rewrite Hn in Hnew. cbn [core d_addrs] in Hnew.
      assert (lcpu c2) as Hc2 by (by eapply same_lcpu). assert (curpid c2 = pid) as Hp2 by (destruct Hcc as (_ & -> & _); done).
      wp_step. wp_step. eapply (wp_fdata dv start size sb K); [exact Hx2|by left|]. wp_step.
      eapply (wp_fstore dv start size sb K); [exact Hx2|by left|]. intros s3 Hx3.
      eapply (wp_flog_write dv start size sb K); [done|exact Hx3|by left|right; by apply Hind|apply (loggable_above dv start size sb); lia|].
      intros s4 Hx4. wp_step. wp_step.
      eapply (wp_fbrelse dv start size sb K); [done|done|exact Hx4|apply not_elem_of_nil|]. intros c5 s5 Hcc5 Hx5. wp_step.
      eapply HQ; [by eapply same_cpu_trans| |exact Hgr| | |symmetry; exact Hnew|lia].
      * split; try done; [apply Hgr|intros y Hy; right; by apply HF|intros _; right; by apply Hind].
      * intros y Hy. by right.
      * simpl. lia.
  - wp_step. wp_step. eapply (wp_fbrelse dv start size sb K); [done|done|exact Hx1|apply not_elem_of_nil|]. intros c2 s2 Hcc Hx2.
    wp_step. eapply HQ; [done| |by apply grow_refl|done|lia|by rewrite Hsl|done]. by split.
Qed.

Lemma wp_bmap pid c s T V D F I ip inum bn (Q : cpu -> fsst -> Z -> Prop) :
  lcpu c -> curpid c = pid -> opened pid s T V D F I ip inum -> 0 <= bn < MAXFILE ->
  Z.of_nat (length F) + 2 <= size - 2 ->
  (forall c' s' T' V' F' I' a, same_cpu c c' -> opened pid s' T' V' D F' I' ip inum ->
     bmapped T V F I ip inum bn T' V' F' I' a -> Q c' s' a) ->
  wp (bmap ip bn) c s Q.
Proof.
  intros Hc Hp Ho Hbn Hroom HQ. pose proof Ho as [Hx Hok Hn Hi [Hd1 Hd2] HF Hind]. unfold bmap. wp_step.
  eapply (wp_get_inode dv start size sb K); [exact Hx|]. rewrite Hd1. change MAXFILE with 268 in *.
  destruct (Z.ltb_spec bn NDIRECT) as [Hlt|Hge].
  - change NDIRECT with 12 in Hlt.
    assert (fslot bn = bn) as Hfs by (unfold fslot; rewrite (proj2 (Z.ltb_lt _ _)) by (change NDIRECT with 12; lia); done).
    assert (forall V l, slot V l (fslot bn) = addr_l l bn) as Hsl.
    { intros V0 l. rewrite Hfs. unfold slot. by rewrite (proj2 (Z.leb_le _ _)) by (change NDIRECT with 12; lia). }
    destruct (Z.eqb_spec (addr_at (T ip) bn) 0) as [H0|H0].
    + eapply wp_fill; [done|done|exact Ho|change NDIRECT with 12; lia|done|lia|..].
      * intros c' s' Hcc Ho' Hu. eapply HQ; [done|exact Ho'|]. eapply bmapped_refl; [exact Ho'|by rewrite Hsl|done].
      * intros c' s' b T' V' Hcc Hb0 Hb1 -> Ho' Hgr. eapply HQ; [done|exact Ho'|]. destruct (opened_len _ _ _ _ _ _ _ _ _ Ho) as [Hl _].
        split; try done.
        -- intros j Hj. by rewrite fset_ne.
        -- intros j Hj. by rewrite upd_itable_ne.
        -- rewrite upd_itable_eq. by eexists.
        -- split; [intros y Hy; by right|simpl; lia].
        -- rewrite Hsl, upd_itable_eq. cbn [set_addr set_addrs i_addrs]. rewrite addr_l_insert by lia. by rewrite decide_True.
    + wp_step. eapply HQ; [done|exact Ho|]. eapply bmapped_refl; [exact Ho|by rewrite Hsl|done].
  - change NDIRECT with 12 in Hge.
    assert (fslot bn = bn - NDIRECT + NDIRECT + 1) as Hfs by (unfold fslot; rewrite (proj2 (Z.ltb_ge _ _)) by (change NDIRECT with 12; lia); lia).
    destruct (Z.ltb_spec (bn - NDIRECT) NINDIRECT) as [Hlt|?]; [|change NINDIRECT with 256 in *; change NDIRECT with 12 in *; lia].
    assert (0 <= bn - NDIRECT) by (change NDIRECT with 12; lia).
    wp_step. destruct (Z.eqb_spec (addr_at (T ip) NDIRECT) 0) as [H0|H0].
    + eapply wp_fill; [done|done|exact Ho|change NDIRECT with 12; lia|done|lia|..].
      * intros c' s' Hcc Ho' Hu. cbn [Z.eqb]. wp_step. eapply HQ; [done|exact Ho'|]. eapply bmapped_refl; [exact Ho'| |done].
        rewrite Hfs. unfold slot. rewrite (proj2 (Z.leb_gt _ _)) by lia. change (addr_l (i_addrs (T ip)) NDIRECT) with (addr_at (T ip) NDIRECT). by rewrite H0.
      * intros c' s' b T' V' Hcc Hb0 Hb1 HT Ho' Hgr. rewrite (proj2 (Z.eqb_neq b 0)) by done.
        destruct (opened_len _ _ _ _ _ _ _ _ _ Ho) as [Hl _].
        assert (addr_at (T' ip) NDIRECT = b) as Hab.
        { rewrite HT, upd_itable_eq. unfold addr_at, set_addr, set_addrs. cbn [i_addrs]. by rewrite list_lookup_insert_eq by (rewrite Hl; change (Z.to_nat NDIRECT) with 12%nat; lia). }
        rewrite <- Hab at 1. eapply wp_indirect; [by eapply same_lcpu|destruct Hcc as (_ & -> & _); done|exact Ho'|lia|lia|simpl; lia|].
        intros c2 s2 V2 F2 r Hcc2 Ho2 Hgr2 HF2 Hl2 Hr Hfull. eapply HQ; [by eapply same_cpu_trans|exact Ho2|].
        split.
        -- by eapply grow_trans.
        -- intros j Hj. by rewrite fset_ne.
        -- intros j Hj. by rewrite HT, upd_itable_ne.
        -- rewrite HT, upd_itable_eq. by eexists.
        -- split; [intros y Hy; apply HF2; by right|simpl in Hl2; lia].
        -- by rewrite Hfs.
        -- done.
    + wp_step. rewrite (proj2 (Z.eqb_neq _ _) H0). eapply wp_indirect; [done|done|exact Ho|lia|done|lia|].
      intros c2 s2 V2 F2 r Hcc2 Ho2 Hgr2 HF2 Hl2 Hr Hfull. eapply HQ; [done|exact Ho2|]. split; try done.
      * exists (i_addrs (T ip)). by rewrite set_addrs_id.
      * split; [done|lia].
      * by rewrite Hfs.
Qed.

(** A block that is there is found, and nothing changes. *)
Lemma wp_bmap_found pid c s T V D F I ip inum bn (Q : cpu -> fsst -> Z -> Prop) :
  lcpu c -> curpid c = pid -> ftx pid s T V D F [] [] -> fsok I V -> I inum = core (T ip) -> 0 <= inum < sb_ninodes sb ->
  i_dev (T ip) = dv -> 0 <= bn < MAXFILE -> slot V (i_addrs (T ip)) (fslot bn) <> 0 ->
  (forall c' s', same_cpu c c' -> ftx pid s' T V D F [] [] -> Q c' s' (slot V (i_addrs (T ip)) (fslot bn))) ->
  wp (bmap ip bn) c s Q.
Proof.
  intros Hc Hp Hx Hok Hn Hi Hd Hbn Hs HQ. pose proof (geo_bounds sb) as Hg. unfold bmap. wp_step.
  eapply (wp_get_inode dv start size sb K); [exact Hx|]. rewrite Hd. change MAXFILE with 268 in *. revert Hs HQ. unfold fslot.
  destruct (Z.ltb_spec bn NDIRECT) as [Hlt|Hge].
  - change NDIRECT with 12 in Hlt. unfold slot. rewrite (proj2 (Z.leb_le _ _)) by (change NDIRECT with 12; lia).
    change (addr_l (i_addrs (T ip)) bn) with (addr_at (T ip) bn). intros Hs HQ. rewrite (proj2 (Z.eqb_neq _ _) Hs). wp_step. by apply HQ.
  - change NDIRECT with 12 in Hge. unfold slot. rewrite (proj2 (Z.leb_gt _ _)) by (change NDIRECT with 12; lia).
    change (addr_l (i_addrs (T ip)) NDIRECT) with (addr_at (T ip) NDIRECT).
    destruct (Z.ltb_spec (bn - NDIRECT) NINDIRECT) as [Hlt|?]; [|change NINDIRECT with 256 in *; change NDIRECT with 12 in *; lia].
    destruct (Z.eqb_spec (addr_at (T ip) NDIRECT) 0) as [|Ha]; [done|].
    replace (bn + 1 - NDIRECT - 1) with (bn - NDIRECT) by lia. intros Hs HQ.
    assert (refers sb I V inum NDIRECT (addr_at (T ip) NDIRECT)) as Hra by (split_and!; try done; try lia; unfold slot; by rewrite Hn).
    destruct (ok_ref _ _ _ Hok _ _ _ Hra) as [Hrg _].
    wp_step. wp_step. rewrite (proj2 (Z.eqb_neq _ _) Ha). wp_step.
    eapply (wp_fbread dv start size sb K); [done|done|exact Hx|lia|apply not_elem_of_nil|simpl; lia|]. intros s1 i Hx1.
    wp_step. eapply (wp_fdata dv start size sb K); [exact Hx1|by left|]. rewrite (proj2 (Z.eqb_neq _ _) Hs). wp_step. wp_step. wp_step.
    eapply (wp_fbrelse dv start size sb K); [done|done|exact Hx1|apply not_elem_of_nil|]. intros c2 s2 Hcc Hx2. wp_step. by apply HQ.
Qed.

(** ** Storing an inode *)

(** The contents after [iupdate] of inode [x]. *)
Definition stored (V : Z -> block) (x : inode) : Z -> block :=
  fset V (IBLOCK (i_inum x) sb) (put_dinode (V (IBLOCK (i_inum x) sb)) (ioff (i_inum x)) x).

Lemma wp_iupdate pid c s T V D F ip (Q : cpu -> fsst -> unit -> Prop) :
  lcpu c -> curpid c = pid -> ftx pid s T V D F [] [] -> i_dev (T ip) = dv -> 0 <= i_inum (T ip) < sb_ninodes sb ->
  IBLOCK (i_inum (T ip)) sb ∈ F ->
  (forall c' s', same_cpu c c' -> ftx pid s' T (stored V (T ip)) D F [] [] -> Q c' s' tt) ->
  wp (iupdate ip) c s Q.
Proof.
  intros Hc Hp Hx Hd Hi HF HQ. pose proof (geo_bounds sb) as Hg. destruct (IBLOCK_val sb _ Hi) as [_ HB]. unfold iupdate.
  wp_step. eapply (wp_get_sb dv start size sb K); [exact Hx|]. wp_step. eapply (wp_get_inode dv start size sb K); [exact Hx|]. rewrite Hd.
  wp_step. eapply (wp_fbread dv start size sb K); [done|done|exact Hx|lia|apply not_elem_of_nil|simpl; lia|]. intros s1 i Hx1.
  wp_step. eapply (wp_fdata dv start size sb K); [exact Hx1|by left|].
  wp_step. eapply (wp_fstore dv start size sb K); [exact Hx1|by left|]. intros s2 Hx2.
  wp_step. eapply (wp_flog_write dv start size sb K); [done|exact Hx2|by left|done|apply (loggable_above dv start size sb); lia|]. intros s3 Hx3.
  eapply (wp_fbrelse dv start size sb K); [done|done|exact Hx3|apply not_elem_of_nil|]. intros c4 s4 Hcc Hx4. by apply HQ.
Qed.

Lemma stored_other V x b : b <> IBLOCK (i_inum x) sb -> stored V x b = V b.
Proof. apply fset_ne. Qed.

Lemma dnode_stored V x j : blocks_ok sb V -> 0 <= i_inum x < sb_ninodes sb -> 0 <= j < sb_ninodes sb ->
  dino_ok (core x) -> dnode sb (stored V x) j = if decide (j = i_inum x) then core x else dnode sb V j.
Proof.
  intros Hl Hi Hj Hx. unfold dnode. case_decide as Hd.
  - subst j. unfold stored. rewrite fset_eq. apply dget_put_dinode; [|done]. destruct (IBLOCK_val sb _ Hi) as [_ HB]. rewrite Hl by lia. apply ioff_bound.
  - unfold stored, fset. destruct (Z.eqb_spec (IBLOCK j sb) (IBLOCK (i_inum x) sb)) as [He|]; [|done]. rewrite <- He. apply dget_ext.
    intros k Hk. apply put_dinode_ne; [apply Hx|]. pose proof (ioff_disjoint sb (i_inum x) j Hi Hj ltac:(done) ltac:(done)). lia.
Qed.

(** The inode blocks hold no file data. *)
Lemma stored_ok I V x : fsok I V -> 0 <= i_inum x < sb_ninodes sb ->
  fsok I (stored V x) /\ forall j pos, 0 <= j < sb_ninodes sb -> 0 <= pos < MAXFILE * BSIZE ->
    fbyte (stored V x) (d_addrs (I j)) pos = fbyte V (d_addrs (I j)) pos.
Proof.
  intros Hok Hi. pose proof (geo_bounds sb) as Hg. destruct (IBLOCK_val sb _ Hi) as [_ HB].
  destruct (fsok_keep dv start size sb I V (stored V x) Hok) as (H1 & _ & H3); [| | |done].
  - intros b Hb. unfold stored, fset. case_match; [rewrite length_put_dinode|]; apply Hok; lia.
  - intros b Hb Hu. destruct (BBLOCK_val sb b Hb) as [_ HBb]. unfold FsDisk.used. by rewrite stored_other by lia.
  - intros b Hb _. apply stored_other. lia.
Qed.
End inode.
