(* ===== verification/FsTable.v ===== *)
(** The inode table: [iget] finds or makes the entry of an inode, [ilock] loads it, [iput] gives
    a reference back. The table stays a cache of the inodes on disk. *)
From S2P Require Import Prelude Sleeplock Bio BioInv BioSpec Log LogPure LogSpec LogTxn Fs FsTxn FsDisk FsAlloc FsGrow FsInode.

#[local] Arguments loop : simpl never.

(** No spin lock of the file system is held. *)
Definition fcpu (c : cpu) : Prop := lcpu c /\ (LItable ∉ held c) /\ (forall i, LSleepInode i ∉ held c).

Lemma same_fcpu c c' : same_cpu c c' -> fcpu c -> fcpu c'.
Proof. intros Hcc (H1 & H2 & H3). split; [by eapply same_lcpu|]. destruct Hcc as [-> _]. done. Qed.
Lemma same_pid c c' pid : same_cpu c c' -> curpid c = pid -> curpid c' = pid.
Proof. by intros (_ & -> & _). Qed.

Lemma filter_Forall_id {A} (P : A -> Prop) `{!forall x, Decision (P x)} l : Forall P l -> filter P l = l.
Proof. induction 1 as [|x l Hx _ IH]; [done|]. rewrite filter_cons_True by done. by rewrite IH. Qed.

Section table.
Context (dv start size : Z) (sb : superblock) (K : fconst) `{G : !FsGeo dv start size sb}.
Abbreviation ftx := (ftx dv start size sb K).

(** The table is a cache of the disk [V]: entries in use are of different inodes of this disk,
    valid ones have the inode's contents, and locks are free, [lk] apart. *)
Record itab (T : nat -> inode) (V : Z -> block) (lk : option nat) : Prop := {
  it_dev i : (i < NINODE)%nat -> 0 < i_ref (T i) -> i_dev (T i) = dv /\ 0 <= i_inum (T i) < sb_ninodes sb;
  it_valid i : (i < NINODE)%nat -> 0 < i_ref (T i) -> i_valid (T i) <> 0 -> core (T i) = dnode sb V (i_inum (T i));
  it_uniq i j : (i < NINODE)%nat -> (j < NINODE)%nat -> 0 < i_ref (T i) -> 0 < i_ref (T j) -> i_inum (T i) = i_inum (T j) -> i = j;
  it_ref i : 0 <= i_ref (T i) < 1000000;
  it_free i : Some i <> lk -> sl_locked (i_lock (T i)) = 0;
}.

(** Which entry holds inode [inum]. *)
Definition entry (T : nat -> inode) (inum : Z) (i : nat) : Prop :=
  (i < NINODE)%nat /\ 0 < i_ref (T i) /\ i_inum (T i) = inum.

#[local] Instance entry_dec T inum i : Decision (entry T inum i).
Proof. unfold entry. apply _. Defined.

(** A change of one entry that keeps the inode it is of. *)
Lemma itab_set T T' V lk lk' i : itab T V lk -> (forall k, k <> i -> T' k = T k) ->
  i_dev (T' i) = i_dev (T i) -> i_inum (T' i) = i_inum (T i) -> 0 <= i_ref (T' i) < 1000000 ->
  (0 < i_ref (T' i) -> 0 < i_ref (T i)) -> (0 < i_ref (T' i) -> i_valid (T' i) <> 0 -> core (T' i) = dnode sb V (i_inum (T i))) ->
  (Some i <> lk' -> sl_locked (i_lock (T' i)) = 0) -> (forall k, k <> i -> Some k <> lk' -> Some k <> lk) -> itab T' V lk'.
Proof.
  intros [H1 H2 H3 H4 H5] Hne Hd Hi Hr Hp Hv Hl Hlk.
  assert (forall k, i_dev (T' k) = i_dev (T k) /\ i_inum (T' k) = i_inum (T k) /\ (0 < i_ref (T' k) -> 0 < i_ref (T k))) as Hall.
  { intros k. destruct (decide (k = i)) as [->|Hk]; [done|]. by rewrite Hne. }
  split.
  - intros k Hk Hk'. destruct (Hall k) as (-> & -> & Hpk). auto.
  - intros k Hk Hk' Hv'. destruct (decide (k = i)) as [->|Hki]; [rewrite Hi; auto|]. rewrite Hne in * by done. auto.
  - intros j k Hj Hk Hj' Hk' E. destruct (Hall j) as (_ & Ej & Hpj), (Hall k) as (_ & Ek & Hpk). rewrite Ej, Ek in E. auto.
  - intros k. destruct (decide (k = i)) as [->|Hki]; [done|]. by rewrite Hne.
  - intros k Hk. destruct (decide (k = i)) as [->|Hki]; [auto|]. rewrite Hne by done. apply H5. auto.
Qed.

(** The entry after [iget] of inode [inum] at [i]. *)
Definition got (T : nat -> inode) (inum : Z) (i : nat) : inode -> inode :=
  if decide (0 < i_ref (T i)) then set_ref (i_ref (T i) + 1) else recycle_inode dv inum.

(** ** Reference counts *)

(** How many references there are to inode [j]. *)
Definition contrib (x : inode) (j : Z) : Z := if i_inum x =? j then i_ref x else 0.
Definition irefs (T : nat -> inode) (j : Z) : Z := foldr Z.add 0 ((fun i => contrib (T i) j) <$> seq 0 NINODE).

Lemma sum_change (g g' : nat -> Z) i l : NoDup l -> i ∈ l -> (forall k, k <> i -> g' k = g k) ->
  foldr Z.add 0 (g' <$> l) = foldr Z.add 0 (g <$> l) - g i + g' i.
Proof.
  intros Hnd Hi Hne. induction l as [|x l IH]; [by apply not_elem_of_nil in Hi|]. apply NoDup_cons in Hnd as [Hx Hnd]. rewrite ?fmap_cons. cbn [foldr].
  apply elem_of_cons in Hi as [<-|Hi].
  - assert (g' <$> l = g <$> l) as -> by (apply list_fmap_ext; intros k y Hk; apply Hne; intros ->; by apply list_elem_of_lookup_2 in Hk). lia.
  - rewrite IH, (Hne x) by (done || by intros ->). lia.
Qed.

Lemma irefs_change T T' i j : (i < NINODE)%nat -> (forall k, k <> i -> T' k = T k) ->
  irefs T' j = irefs T j - contrib (T i) j + contrib (T' i) j.
Proof.
  intros Hi Hne. unfold irefs. apply (sum_change (fun i => contrib (T i) j) (fun i => contrib (T' i) j)); [apply NoDup_seq|apply elem_of_seq; lia|].
  intros k Hk. by rewrite Hne.
Qed.

Lemma irefs_got T inum i j : (i < NINODE)%nat -> (entry T inum i \/ i_ref (T i) = 0) ->
  irefs (upd_itable i (got T inum i) T) j = irefs T j + if decide (j = inum) then 1 else 0.
Proof.
  intros Hi Hc. rewrite (irefs_change T _ i j) by (done || intros; by apply upd_itable_ne). rewrite upd_itable_eq. unfold got, contrib.
  destruct Hc as [(_ & Hp & E)|E]; case_decide; try lia; cbn [set_ref recycle_inode i_inum i_ref].
  - rewrite E. destruct (Z.eqb_spec inum j), (decide (j = inum)); try lia; congruence.
  - rewrite E. destruct (Z.eqb_spec inum j), (decide (j = inum)), (i_inum (T i) =? j); try lia; congruence.
Qed.

Lemma sum_single (g : nat -> Z) i l : NoDup l -> i ∈ l -> (forall k, k ∈ l -> k <> i -> g k = 0) -> foldr Z.add 0 (g <$> l) = g i.
Proof.
  intros Hnd Hi H0. induction l as [|x l IH]; [by apply not_elem_of_nil in Hi|]. apply NoDup_cons in Hnd as [Hx Hnd]. rewrite ?fmap_cons. cbn [foldr].
  apply elem_of_cons in Hi as [<-|Hi].
  - assert (foldr Z.add 0 (g <$> l) = 0) as ->; [|lia]. clear IH Hnd.
    assert (forall k, k ∈ l -> g k = 0) as Hl by (intros k Hk; apply H0; [by right|by intros ->]). clear - Hl.
    induction l as [|y l IH]; [done|]. rewrite fmap_cons. cbn [foldr]. rewrite Hl, IH; [done|intros; apply Hl; by right|by left].
  - rewrite IH; [|done|done|intros k Hk; apply H0; by right]. rewrite (H0 x); [lia|by left|by intros ->].
Qed.

Lemma irefs_entry T V lk j i : itab T V lk -> entry T j i -> irefs T j = i_ref (T i).
Proof.
  intros Ht (Hi & Hp & E). unfold irefs. rewrite (sum_single (fun i => contrib (T i) j) i).
  - unfold contrib. by rewrite E, Z.eqb_refl.
  - apply NoDup_seq.
  - apply elem_of_seq. lia.
  - intros k Hk Hne. apply elem_of_seq in Hk. unfold contrib. destruct (Z.eqb_spec (i_inum (T k)) j) as [E'|]; [|done].
    pose proof (it_ref _ _ _ Ht k). destruct (decide (0 < i_ref (T k))); [|lia]. destruct Hne. apply (it_uniq _ _ _ Ht); try done; [lia|congruence].
Qed.

(** The inodes the table holds. *)
Definition held_inums (T : nat -> inode) : list Z := (fun i => i_inum (T i)) <$> filter (fun i => 0 < i_ref (T i)) (seq 0 NINODE).

Lemma elem_held T j : j ∈ held_inums T <-> exists i, entry T j i.
Proof.
  unfold held_inums. rewrite list_elem_of_fmap. split.
  - intros (i & -> & [Hp Hi]%list_elem_of_filter). exists i. apply elem_of_seq in Hi. by split_and!; [lia|..].
  - intros (i & Hi & Hp & <-). exists i. split; [done|]. apply list_elem_of_filter. split; [done|]. apply elem_of_seq. lia.
Qed.

Lemma held_bound T V lk L : itab T V lk -> (forall j i, entry T j i -> j ∈ L) -> (length (held_inums T) <= length L)%nat.
Proof.
  intros Ht HL. apply submseteq_length, NoDup_submseteq.
  - unfold held_inums. apply NoDup_fmap_2_strong; [|apply NoDup_filter, NoDup_seq].
    intros i j [Hi Hi']%list_elem_of_filter [Hj Hj']%list_elem_of_filter E. apply elem_of_seq in Hi', Hj'. apply (it_uniq _ _ _ Ht); try done; lia.
  - intros j (i & He)%elem_held. by eapply HL.
Qed.

Lemma room_of_bound T V lk : itab T V lk -> (length (held_inums T) < NINODE)%nat -> exists i, (i < NINODE)%nat /\ i_ref (T i) = 0.
Proof.
  intros Ht Hl. destruct (decide (Forall (fun i => 0 < i_ref (T i)) (seq 0 NINODE))) as [Hall|Hex].
  - unfold held_inums in Hl. rewrite length_fmap in Hl. rewrite filter_Forall_id in Hl by done. rewrite length_seq in Hl. lia.
  - apply not_Forall_Exists in Hex; [|apply _]. apply Exists_exists in Hex as (i & Hi & Hn). apply elem_of_seq in Hi.
    exists i. pose proof (it_ref _ _ _ Ht i). split; [lia|]. simpl in Hn. lia.
Qed.

(** ** iget *)

Lemma got_itab T V lk inum i : itab T V lk -> (i < NINODE)%nat -> 0 <= inum < sb_ninodes sb ->
  i_ref (T i) + 1 < 1000000 ->
  (entry T inum i \/ i_ref (T i) = 0 /\ forall j, ~ entry T inum j) ->
  itab (upd_itable i (got T inum i) T) V lk /\ entry (upd_itable i (got T inum i) T) inum i.
Proof.
  intros [H1 H2 H3 H4 H5] Hi Hin Hr Hcase. set (T' := upd_itable i (got T inum i) T).
  assert (forall j, j <> i -> T' j = T j) as Hne by (intros j Hj; by apply upd_itable_ne).
  assert (T' i = got T inum i (T i)) as Hii by apply upd_itable_eq.
  assert (entry T' inum i) as He.
  { split_and!; [done|..]; rewrite Hii; unfold got; destruct Hcase as [(_ & Hp & E)|[E _]]; case_decide; simpl; try lia. }
  split; [|done]. split.
  - intros j Hj Hp. destruct (decide (j = i)) as [->|Hji]; [|rewrite Hne in * by done; auto]. rewrite Hii in *. unfold got in *.
    destruct Hcase as [(_ & Hp' & E)|[E _]]; case_decide; simpl in *; try lia; auto.
  - intros j Hj Hp Hv. destruct (decide (j = i)) as [->|Hji]; [|rewrite Hne in * by done; auto]. rewrite Hii in *. unfold got in *.
    case_decide; simpl in *; [|done]. by apply H2.
  - intros j k Hj Hk Hpj Hpk E. destruct (decide (j = i)) as [->|Hji], (decide (k = i)) as [->|Hki]; try done.
    + destruct He as (_ & _ & He). rewrite He in E. rewrite (Hne k) in * by done. destruct Hcase as [(_ & Hp' & E')|[_ Hno]].
      * apply H3; try done. congruence.
      * destruct (Hno k). done.
    + destruct He as (_ & _ & He). rewrite He in E. rewrite (Hne j) in * by done. destruct Hcase as [(_ & Hp' & E')|[_ Hno]].
      * apply H3; try done. congruence.
      * destruct (Hno j). done.
    + rewrite Hne in * by done. rewrite (Hne k) in * by done. auto.
  - intros j. destruct (decide (j = i)) as [->|Hji]; [|rewrite Hne by done; auto]. rewrite Hii. unfold got.
    pose proof (H4 i). case_decide; simpl; lia.
  - intros j Hj. destruct (decide (j = i)) as [->|Hji]; [|rewrite Hne by done; auto]. rewrite Hii. unfold got.
    case_decide; simpl; by apply H5.
Qed.

Lemma wp_iget pid c s T V D F hs dirty inum lk (Q : cpu -> fsst -> nat -> Prop) :
  fcpu c -> ftx pid s T V D F hs dirty -> itab T V lk -> 0 <= inum < sb_ninodes sb ->
  (exists i, (i < NINODE)%nat /\ (i_ref (T i) = 0 \/ entry T inum i)) ->
  (forall s' i, ftx pid s' (upd_itable i (got T inum i) T) V D F hs dirty ->
     (entry T inum i \/ (i < NINODE)%nat /\ i_ref (T i) = 0 /\ forall j, ~ entry T inum j) -> Q c s' i) ->
  wp (iget dv inum) c s Q.
Proof.
  intros (_ & Hc & _) Hx Ht Hin Hex HQ. unfold iget. wp_step. wp_step. wp_step.
  set (c1 := set_held (LItable :: held c) c).
  eapply (wp_loop (fun st c' s' => c' = c1 /\ s' = s /\ (st.1 <= NINODE)%nat /\ (forall j, (j < st.1)%nat -> ~ entry T inum j) /\
    match st.2 with None => forall j, (j < st.1)%nat -> i_ref (T j) <> 0 | Some i => (i < NINODE)%nat /\ i_ref (T i) = 0 end)
    (fun st => NINODE - st.1)%nat); [|cbn [fst]; lia|].
  2: { split_and!; try done; cbn [fst snd]; lia. }
  intros [ip em] c' s' (-> & -> & Hle & Hno & Hem). cbn [fst snd] in *. destruct (Nat.ltb_spec ip NINODE) as [Hlt|Hge].
  - wp_step. eapply (wp_get_inode dv start size sb K); [exact Hx|]. pose proof (it_ref _ _ _ Ht ip) as Hr.
    destruct (decide (entry T inum ip)) as [He|He].
    + pose proof He as (_ & Hp & E). destruct (it_dev _ _ _ Ht ip Hlt Hp) as [E' _].
      rewrite Z.gtb_ltb, (proj2 (Z.ltb_lt _ _)), (proj2 (Z.eqb_eq _ _) E'), (proj2 (Z.eqb_eq _ _) E) by lia. cbn [andb].
      wp_step. eapply (wp_upd_inode dv start size sb K); [exact Hx|]. intros s2 Hx2. wp_steps.
      unfold c1. rewrite set_held_back by done. apply HQ; [|by left]. unfold got. by rewrite decide_True.
    + assert (((i_ref (T ip) >? 0) && (i_dev (T ip) =? dv) && (i_inum (T ip) =? inum)) = false) as ->.
      { rewrite Z.gtb_ltb. destruct (Z.ltb_spec 0 (i_ref (T ip))); [|done]. destruct (Z.eqb_spec (i_inum (T ip)) inum); [|by rewrite andb_false_r].
        by destruct He. }
      wp_step. cbn [fst snd]. split; [|lia]. split_and!; try done.
      * intros j Hj. destruct (decide (j = ip)) as [->|]; [done|]. apply Hno. lia.
      * destruct em as [i|]; [by rewrite bool_decide_eq_false_2|]. rewrite bool_decide_eq_true_2 by done. cbn [andb].
        destruct (Z.eqb_spec (i_ref (T ip)) 0); [done|]. intros j Hj. destruct (decide (j = ip)) as [->|]; [done|]. apply Hem. lia.
  - wp_step. assert (forall j, ~ entry T inum j) as Hnone by (intros j He; apply (Hno j); [destruct He; lia|done]).
    destruct em as [i|].
    + destruct Hem as [Hi E]. wp_step. eapply (wp_upd_inode dv start size sb K); [exact Hx|]. intros s2 Hx2. wp_steps.
      unfold c1. rewrite set_held_back by done. apply HQ; [|by right]. unfold got. by rewrite decide_False by lia.
    + exfalso. destruct Hex as (i & Hi & [E|He]); [apply (Hem i); [lia|done]|by apply (Hnone i)].
Qed.

Lemma wp_idup pid c s T V D F hs dirty ip (Q : cpu -> fsst -> nat -> Prop) :
  fcpu c -> ftx pid s T V D F hs dirty ->
  (forall s', ftx pid s' (upd_itable ip (set_ref (i_ref (T ip) + 1)) T) V D F hs dirty -> Q c s' ip) ->
  wp (idup ip) c s Q.
Proof.
  intros (_ & Hc & _) Hx HQ. unfold idup. wp_step. wp_step. wp_step. eapply (wp_get_inode dv start size sb K); [exact Hx|].
  wp_step. eapply (wp_upd_inode dv start size sb K); [exact Hx|]. intros s2 Hx2. wp_steps. rewrite set_held_back by done. by apply HQ.
Qed.

(** ** The lock of an inode *)

Lemma wp_lock_ip {A} pid c s T V D F hs dirty ip (m : M sleeplock A) (Q : cpu -> fsst -> A -> Prop) :
  ftx pid s T V D F hs dirty ->
  wp m c (i_lock (T ip)) (fun c' l a => forall s', ftx pid s' (upd_itable ip (set_ilock l) T) V D F hs dirty -> Q c' s' a) ->
  wp (zoom (ilock_lens ip) m) c s Q.
Proof.
  intros Hx Hm. apply wp_zoom. cbn [lget ilock_lens]. rewrite (fx_tab _ _ _ _ _ _ _ _ _ _ _ _ _ Hx). eapply wp_mono; [exact Hm|].
  intros c' l a H. apply H. destruct Hx as [Hs Ht Hlog Hrm Hu Hl Hd Hh]. split; try done. simpl. by rewrite Ht.
Qed.

(** The entry once it is locked and loaded. *)
Definition locked_inode (pid : Z) (V : Z -> block) (x : inode) : inode :=
  if i_valid x =? 0
  then set_ivalid 1 (get_dinode (V (IBLOCK (i_inum x) sb)) (ioff (i_inum x)) (set_ilock (mksleep 1 pid) x))
  else set_ilock (mksleep 1 pid) x.

Lemma wp_ilock pid c s T V D F ip lk (Q : cpu -> fsst -> unit -> Prop) :
  fcpu c -> curpid c = pid -> ftx pid s T V D F [] [] -> itab T V lk -> (ip < NINODE)%nat -> Some ip <> lk -> 0 < i_ref (T ip) ->
  d_type (dnode sb V (i_inum (T ip))) <> 0 ->
  (forall c' s' T', same_cpu c c' -> ftx pid s' T' V D F [] [] -> T' ip = locked_inode pid V (T ip) -> (forall i, i <> ip -> T' i = T i) -> Q c' s' tt) ->
  wp (ilock (Some ip)) c s Q.
Proof.
  intros (Hc & _ & Hcs) Hp Hx Ht Hip Hlk Hr Hty HQ. pose proof (geo_bounds sb) as Hg.
  destruct (it_dev _ _ _ Ht ip Hip Hr) as [Hd Hin]. destruct (IBLOCK_val sb _ Hin) as [_ HB]. unfold ilock.
  wp_step. eapply (wp_get_inode dv start size sb K); [exact Hx|]. rewrite (proj2 (Z.ltb_ge _ _)) by lia.
  wp_step. eapply wp_lock_ip; [exact Hx|]. apply wp_acquiresleep; [done|by apply (it_free _ _ _ Ht)|]. intros s1 Hx1. rewrite Hp in Hx1.
  wp_step. eapply (wp_get_inode dv start size sb K); [exact Hx1|]. rewrite upd_itable_eq. cbn [set_ilock i_valid i_dev i_inum]. rewrite Hd.
  unfold locked_inode in HQ. destruct (Z.eqb_spec (i_valid (T ip)) 0) as [Hv|Hv].
  2: { wp_step. eapply HQ; [done|exact Hx1|by rewrite upd_itable_eq|intros i Hi; by apply upd_itable_ne]. }
  wp_step. eapply (wp_get_sb dv start size sb K); [exact Hx1|].
  wp_step. eapply (wp_fbread dv start size sb K); [done|done|exact Hx1|lia|apply not_elem_of_nil|simpl; lia|]. intros s2 i Hx2.
  wp_step. eapply (wp_fdata dv start size sb K); [exact Hx2|by left|].
  wp_step. eapply (wp_upd_inode dv start size sb K); [exact Hx2|]. intros s3 Hx3.
  wp_step. eapply (wp_fbrelse dv start size sb K); [done|done|exact Hx3|apply not_elem_of_nil|]. intros c4 s4 Hcc4 Hx4.
  wp_step. eapply (wp_upd_inode dv start size sb K); [exact Hx4|]. intros s5 Hx5.
  wp_step. eapply (wp_get_inode dv start size sb K); [exact Hx5|]. rewrite !upd_itable_eq.
  rewrite (proj2 (Z.eqb_neq _ _)); [|exact Hty]. wp_step.
  eapply HQ; [done|exact Hx5|by rewrite !upd_itable_eq|]. intros j Hj. by rewrite !upd_itable_ne.
Qed.

Lemma wp_iunlock pid c s T V D F ip (Q : cpu -> fsst -> unit -> Prop) :
  fcpu c -> curpid c = pid -> ftx pid s T V D F [] [] -> i_lock (T ip) = mksleep 1 pid -> 0 < i_ref (T ip) ->
  (forall c' s' T', same_cpu c c' -> ftx pid s' T' V D F [] [] -> T' ip = set_ilock (mksleep 0 0) (T ip) -> (forall i, i <> ip -> T' i = T i) -> Q c' s' tt) ->
  wp (iunlock (Some ip)) c s Q.
Proof.
  intros (Hc & _ & Hcs) Hp Hx Hl Hr HQ. unfold iunlock.
  wp_step. eapply wp_lock_ip; [exact Hx|]. apply wp_holdingsleep; [done|]. rewrite Hl, Hp. cbn [sl_locked sl_pid]. rewrite Z.eqb_refl. cbn [Z.eqb negb andb].
  intros s1 Hx1. wp_step. eapply (wp_get_inode dv start size sb K); [exact Hx1|]. rewrite upd_itable_eq. cbn [set_ilock i_ref].
  rewrite (proj2 (Z.ltb_ge _ _)) by lia. eapply wp_lock_ip; [exact Hx1|]. apply wp_releasesleep; [done|]. intros s2 Hx2.
  eapply HQ; [done|exact Hx2|by rewrite !upd_itable_eq|]. intros j Hj. by rewrite !upd_itable_ne.
Qed.

(** [iput] of an inode that stays: it has another reference, or a name, or was never loaded. *)
Lemma wp_iput_keep pid c s T V D F hs dirty ip (Q : cpu -> fsst -> unit -> Prop) :
  fcpu c -> ftx pid s T V D F hs dirty -> i_ref (T ip) <> 1 \/ i_valid (T ip) = 0 \/ i_nlink (T ip) <> 0 ->
  (forall s', ftx pid s' (upd_itable ip (set_ref (i_ref (T ip) - 1)) T) V D F hs dirty -> Q c s' tt) ->
  wp (iput ip) c s Q.
Proof.
  intros (_ & Hc & _) Hx Hk HQ. unfold iput. wp_step. wp_step. wp_step. eapply (wp_get_inode dv start size sb K); [exact Hx|].
  assert ((i_ref (T ip) =? 1) && negb (i_valid (T ip) =? 0) && (i_nlink (T ip) =? 0) = false) as ->.
  { destruct (Z.eqb_spec (i_ref (T ip)) 1), (Z.eqb_spec (i_valid (T ip)) 0), (Z.eqb_spec (i_nlink (T ip)) 0); try done. naive_solver. }
  wp_step. wp_step. wp_step. eapply (wp_get_inode dv start size sb K); [exact Hx|].
  wp_step. eapply (wp_upd_inode dv start size sb K); [exact Hx|]. intros s2 Hx2. wp_steps. rewrite set_held_back by done. by apply HQ.
Qed.

(** ** With the table's invariant *)

Lemma core_locked pid V x : core (locked_inode pid V x) = if i_valid x =? 0 then dnode sb V (i_inum x) else core x.
Proof. unfold locked_inode. by case_match. Qed.

(** Locking keeps the references and loads the inode. *)
Lemma wp_ilock_tab pid c s T V D F ip inum (Q : cpu -> fsst -> unit -> Prop) :
  fcpu c -> curpid c = pid -> ftx pid s T V D F [] [] -> itab T V None -> entry T inum ip -> d_type (dnode sb V inum) <> 0 ->
  (forall c' s' T', same_cpu c c' -> ftx pid s' T' V D F [] [] -> itab T' V (Some ip) -> entry T' inum ip ->
     i_lock (T' ip) = mksleep 1 pid -> core (T' ip) = dnode sb V inum -> i_valid (T' ip) <> 0 -> i_ref (T' ip) = i_ref (T ip) ->
     (forall i, i <> ip -> T' i = T i) -> (forall j, irefs T' j = irefs T j) -> Q c' s' tt) ->
  wp (ilock (Some ip)) c s Q.
Proof.
  intros Hc Hp Hx Ht He Hty HQ. pose proof He as (Hi & Hr & E). subst inum.
  eapply wp_ilock; [done|done|exact Hx|exact Ht|done|done|done|done|]. intros c' s' T' Hcc Hx' HT Hne.
  assert (i_dev (T' ip) = i_dev (T ip) /\ i_inum (T' ip) = i_inum (T ip) /\ i_ref (T' ip) = i_ref (T ip) /\ i_lock (T' ip) = mksleep 1 pid /\ i_valid (T' ip) <> 0) as (H1 & H2 & H3 & H4 & H5).
  { rewrite HT. unfold locked_inode. destruct (Z.eqb_spec (i_valid (T ip)) 0); done. }
  assert (core (T' ip) = dnode sb V (i_inum (T ip))) as Hco.
  { rewrite HT, core_locked. destruct (Z.eqb_spec (i_valid (T ip)) 0); [done|]. by apply (it_valid _ _ _ Ht). }
  apply (HQ c' s' T'); try done.
  - eapply (itab_set T T' V None (Some ip) ip); try done; rewrite ?H3; try done. apply Ht.
  - split_and!; [done|lia|done].
  - intros j. rewrite (irefs_change T T' ip j Hi Hne). unfold contrib. rewrite H2, H3. lia.
Qed.

Lemma wp_iunlock_tab pid c s T V D F ip (Q : cpu -> fsst -> unit -> Prop) :
  fcpu c -> curpid c = pid -> ftx pid s T V D F [] [] -> itab T V (Some ip) -> (ip < NINODE)%nat -> 0 < i_ref (T ip) ->
  i_lock (T ip) = mksleep 1 pid ->
  (forall c' s' T', same_cpu c c' -> ftx pid s' T' V D F [] [] -> itab T' V None -> T' ip = set_ilock (mksleep 0 0) (T ip) ->
     (forall i, i <> ip -> T' i = T i) -> (forall j, irefs T' j = irefs T j) -> Q c' s' tt) ->
  wp (iunlock (Some ip)) c s Q.
Proof.
  intros Hc Hp Hx Ht Hi Hr Hl HQ. eapply wp_iunlock; [done|done|exact Hx|done|done|]. intros c' s' T' Hcc Hx' HT Hne.
  apply (HQ c' s' T'); try done.
  - eapply (itab_set T T' V (Some ip) None ip); try done; rewrite ?HT; simpl; try done; [apply Ht|intros _; by apply (it_valid _ _ _ Ht)|congruence].
  - intros j. rewrite (irefs_change T T' ip j Hi Hne). unfold contrib. rewrite HT. simpl. lia.
Qed.

Lemma wp_iput_tab pid c s T V D F ip (Q : cpu -> fsst -> unit -> Prop) :
  fcpu c -> ftx pid s T V D F [] [] -> itab T V None -> (ip < NINODE)%nat -> 0 < i_ref (T ip) ->
  i_ref (T ip) <> 1 \/ i_valid (T ip) = 0 \/ i_nlink (T ip) <> 0 ->
  (forall s' T', ftx pid s' T' V D F [] [] -> itab T' V None -> T' ip = set_ref (i_ref (T ip) - 1) (T ip) ->
     (forall i, i <> ip -> T' i = T i) -> (forall j, irefs T' j = irefs T j - if decide (j = i_inum (T ip)) then 1 else 0) -> Q c s' tt) ->
  wp (iput ip) c s Q.
Proof.
  intros Hc Hx Ht Hi Hr Hk HQ. eapply wp_iput_keep; [done|exact Hx|done|]. intros s' Hx'.
  assert (forall k, k <> ip -> upd_itable ip (set_ref (i_ref (T ip) - 1)) T k = T k) as Hne by (intros; by apply upd_itable_ne).
  pose proof (it_ref _ _ _ Ht ip) as Hb.
  apply (HQ s' _ Hx'); [|by rewrite upd_itable_eq|done|].
  - eapply (itab_set T _ V None None ip); try done; rewrite ?upd_itable_eq; simpl; try done; [lia|intros; by apply (it_valid _ _ _ Ht)|].
    intros. by apply (it_free _ _ _ Ht).
  - intros j. rewrite (irefs_change T _ ip j Hi Hne). unfold contrib. rewrite upd_itable_eq. simpl.
    destruct (Z.eqb_spec (i_inum (T ip)) j), (decide (j = i_inum (T ip))); try lia; congruence.
Qed.

Lemma wp_iunlockput pid c s T V D F ip (Q : cpu -> fsst -> unit -> Prop) :
  fcpu c -> curpid c = pid -> ftx pid s T V D F [] [] -> itab T V (Some ip) -> (ip < NINODE)%nat -> 0 < i_ref (T ip) ->
  i_lock (T ip) = mksleep 1 pid -> i_ref (T ip) <> 1 \/ i_valid (T ip) = 0 \/ i_nlink (T ip) <> 0 ->
  (forall c' s' T', same_cpu c c' -> ftx pid s' T' V D F [] [] -> itab T' V None ->
     T' ip = set_ref (i_ref (T ip) - 1) (set_ilock (mksleep 0 0) (T ip)) ->
     (forall i, i <> ip -> T' i = T i) -> (forall j, irefs T' j = irefs T j - if decide (j = i_inum (T ip)) then 1 else 0) -> Q c' s' tt) ->
  wp (iunlockput (Some ip)) c s Q.
Proof.
  intros Hc Hp Hx Ht Hi Hr Hl Hk HQ. unfold iunlockput. wp_step. eapply wp_iunlock_tab; [done|done|exact Hx|done|done|done|done|].
  intros c1 s1 T1 Hcc Hx1 Ht1 HT1 Hne1 Hr1. eapply wp_iput_tab; [by eapply same_fcpu|exact Hx1|done|done|by rewrite HT1|by rewrite HT1|].
  intros s2 T2 Hx2 Ht2 HT2 Hne2 Hr2. rewrite HT1 in HT2, Hr2. apply (HQ c1 s2 T2); try done.
  - intros i Hi'. by rewrite Hne2, Hne1.
  - intros j. rewrite Hr2, Hr1. done.
Qed.
End table.
