(* ===== verification/State.v ===== *)
(** The state of the kernel: the structures of kernel/proc.h, kernel/file.h, kernel/pipe.c,
    kernel/console.c and kernel/uart.c, and the lenses from the whole kernel to the
    components that are modelled on their own state. *)
From S2P Require Import Prelude Memory Riscv Kalloc Sleeplock Bio Log LogTxn Fs.

Definition NPROCS : nat := 64.
Definition NOFILE : Z := 16.
Definition NFILE : nat := 100.
Definition NDEV : Z := 10.
Definition CONSOLE : nat := 1.
Definition MAXARG : Z := 32.
Definition MAXPATH : Z := 128.

(** * Processes *)

Inductive procstate := UNUSED | USED | SLEEPING | RUNNABLE | RUNNING | ZOMBIE.
#[export] Instance procstate_eq_dec : EqDecision procstate.
Proof. solve_decision. Defined.

(** [struct proc]; a null [parent], file or directory is [None]. Of [context] only [ra] and
    [sp] are ever given values. *)
Record proc := mkproc {
  p_state : procstate; p_chan : option chan; p_killed : Z; p_xstate : Z; p_pid : Z;
  p_parent : option nat;
  p_kstack : Z; p_sz : Z; p_pagetable : Z; p_trapframe : Z; p_context : Z * Z;
  p_ofile : list (option nat); p_cwd : option nat; p_name : list Z; p_trace_mask : Z }.

(** * Files and pipes *)

Inductive ftype := FD_NONE | FD_PIPE | FD_INODE | FD_DEVICE.
#[export] Instance ftype_eq_dec : EqDecision ftype.
Proof. solve_decision. Defined.

Record file := mkfile {
  f_type : ftype; f_ref : Z; f_readable : Z; f_writable : Z; f_pipe : Z; f_ip : nat; f_off : Z; f_major : Z }.

(** The functions a [struct devsw] can point to. *)
Inductive devfn := ConsoleRead | ConsoleWrite.
Record devsw := mkdevsw { d_read : option devfn; d_write : option devfn }.

Record pipe := mkpipe {
  pi_data : list Z; pi_nread : Z; pi_nwrite : Z; pi_readopen : Z; pi_writeopen : Z }.

(** * Console and UART *)

Record console := mkcons { c_buf : list Z; c_r : Z; c_w : Z; c_e : Z }.

(** The driver's transmit buffer and the device behind it: bytes received and not yet read,
    bytes sent, how many more reads of the line status register find the transmitter busy
    ([u_delay n] is that number after the [n]th byte), and the writes to the other registers;
    with the flag [panicked] of kernel/printf.c, which stops all output. *)
Record uart := mkuart {
  u_buf : list Z; u_w : Z; u_r : Z; u_rx : list Z; u_out : list Z; u_busy : nat; u_delay : nat -> nat;
  u_cfg : list (Z * Z); u_panicked : Z }.

(** * The kernel *)

Record kst := mkkst {
  k_mem : kmem; k_procs : nat -> proc; k_nextpid : Z; k_initproc : option nat; k_fs : fsst;
  k_files : nat -> file; k_devsw : nat -> devsw; k_pipes : gmap Z pipe; k_ticks : Z; k_cons : console;
  k_uart : uart; k_first : bool }.

Definition set_kmem (x : kmem) (s : kst) : kst :=
  mkkst x (k_procs s) (k_nextpid s) (k_initproc s) (k_fs s) (k_files s) (k_devsw s) (k_pipes s) (k_ticks s) (k_cons s) (k_uart s) (k_first s).
Definition set_procs (x : nat -> proc) (s : kst) : kst :=
  mkkst (k_mem s) x (k_nextpid s) (k_initproc s) (k_fs s) (k_files s) (k_devsw s) (k_pipes s) (k_ticks s) (k_cons s) (k_uart s) (k_first s).
Definition set_nextpid (x : Z) (s : kst) : kst :=
  mkkst (k_mem s) (k_procs s) x (k_initproc s) (k_fs s) (k_files s) (k_devsw s) (k_pipes s) (k_ticks s) (k_cons s) (k_uart s) (k_first s).
Definition set_initproc (x : option nat) (s : kst) : kst :=
  mkkst (k_mem s) (k_procs s) (k_nextpid s) x (k_fs s) (k_files s) (k_devsw s) (k_pipes s) (k_ticks s) (k_cons s) (k_uart s) (k_first s).
Definition set_fs (x : fsst) (s : kst) : kst :=
  mkkst (k_mem s) (k_procs s) (k_nextpid s) (k_initproc s) x (k_files s) (k_devsw s) (k_pipes s) (k_ticks s) (k_cons s) (k_uart s) (k_first s).
Definition set_files (x : nat -> file) (s : kst) : kst :=
  mkkst (k_mem s) (k_procs s) (k_nextpid s) (k_initproc s) (k_fs s) x (k_devsw s) (k_pipes s) (k_ticks s) (k_cons s) (k_uart s) (k_first s).
Definition set_devsw (x : nat -> devsw) (s : kst) : kst :=
  mkkst (k_mem s) (k_procs s) (k_nextpid s) (k_initproc s) (k_fs s) (k_files s) x (k_pipes s) (k_ticks s) (k_cons s) (k_uart s) (k_first s).
Definition set_pipes (x : gmap Z pipe) (s : kst) : kst :=
  mkkst (k_mem s) (k_procs s) (k_nextpid s) (k_initproc s) (k_fs s) (k_files s) (k_devsw s) x (k_ticks s) (k_cons s) (k_uart s) (k_first s).
Definition set_ticks (x : Z) (s : kst) : kst :=
  mkkst (k_mem s) (k_procs s) (k_nextpid s) (k_initproc s) (k_fs s) (k_files s) (k_devsw s) (k_pipes s) x (k_cons s) (k_uart s) (k_first s).
Definition set_cons (x : console) (s : kst) : kst :=
  mkkst (k_mem s) (k_procs s) (k_nextpid s) (k_initproc s) (k_fs s) (k_files s) (k_devsw s) (k_pipes s) (k_ticks s) x (k_uart s) (k_first s).
Definition set_uart (x : uart) (s : kst) : kst :=
  mkkst (k_mem s) (k_procs s) (k_nextpid s) (k_initproc s) (k_fs s) (k_files s) (k_devsw s) (k_pipes s) (k_ticks s) (k_cons s) x (k_first s).
Definition set_first (x : bool) (s : kst) : kst :=
  mkkst (k_mem s) (k_procs s) (k_nextpid s) (k_initproc s) (k_fs s) (k_files s) (k_devsw s) (k_pipes s) (k_ticks s) (k_cons s) (k_uart s) x.

Definition mem_lens : lens kst kmem := mklens k_mem set_kmem.
Definition fs_lens : lens kst fsst := mklens k_fs set_fs.
Definition klog_lens : lens kst logst := mklens (fun s => fs_log (k_fs s)) (fun l s => set_fs (lset flog l (k_fs s)) s).
Definition cons_lens : lens kst console := mklens k_cons set_cons.
Definition uart_lens : lens kst uart := mklens k_uart set_uart.

#[export] Instance mem_lens_laws : LensLaws mem_lens.
Proof. by split; intros; destruct t. Qed.
#[export] Instance fs_lens_laws : LensLaws fs_lens.
Proof. by split; intros; destruct t. Qed.
#[export] Instance uart_lens_laws : LensLaws uart_lens.
Proof. by split; intros; destruct t. Qed.

(** Table updates. *)
Definition updn {A} (i : nat) (f : A -> A) (g : nat -> A) : nat -> A :=
  fun j => if decide (j = i) then f (g i) else g j.
Lemma updn_eq {A} i (f : A -> A) g : updn i f g i = f (g i).
Proof. unfold updn. by rewrite decide_True. Qed.
Lemma updn_ne {A} i (f : A -> A) g j : j <> i -> updn i f g j = g j.
Proof. intros. unfold updn. by rewrite decide_False. Qed.

Definition upd_proc (i : nat) (f : proc -> proc) : M kst unit := modify (fun s => set_procs (updn i f (k_procs s)) s).
Definition get_proc (i : nat) : M kst proc := gets (fun s => k_procs s i).
Definition upd_file (i : nat) (f : file -> file) : M kst unit := modify (fun s => set_files (updn i f (k_files s)) s).
Definition get_file (i : nat) : M kst file := gets (fun s => k_files s i).

(** Fields of [struct proc]. *)
Definition set_pstate (x : procstate) (p : proc) : proc :=
  mkproc x (p_chan p) (p_killed p) (p_xstate p) (p_pid p) (p_parent p) (p_kstack p) (p_sz p) (p_pagetable p) (p_trapframe p) (p_context p) (p_ofile p) (p_cwd p) (p_name p) (p_trace_mask p).
Definition set_chan (x : option chan) (p : proc) : proc :=
  mkproc (p_state p) x (p_killed p) (p_xstate p) (p_pid p) (p_parent p) (p_kstack p) (p_sz p) (p_pagetable p) (p_trapframe p) (p_context p) (p_ofile p) (p_cwd p) (p_name p) (p_trace_mask p).
Definition set_killed (x : Z) (p : proc) : proc :=
  mkproc (p_state p) (p_chan p) x (p_xstate p) (p_pid p) (p_parent p) (p_kstack p) (p_sz p) (p_pagetable p) (p_trapframe p) (p_context p) (p_ofile p) (p_cwd p) (p_name p) (p_trace_mask p).
Definition set_xstate (x : Z) (p : proc) : proc :=
  mkproc (p_state p) (p_chan p) (p_killed p) x (p_pid p) (p_parent p) (p_kstack p) (p_sz p) (p_pagetable p) (p_trapframe p) (p_context p) (p_ofile p) (p_cwd p) (p_name p) (p_trace_mask p).
Definition set_pid (x : Z) (p : proc) : proc :=
  mkproc (p_state p) (p_chan p) (p_killed p) (p_xstate p) x (p_parent p) (p_kstack p) (p_sz p) (p_pagetable p) (p_trapframe p) (p_context p) (p_ofile p) (p_cwd p) (p_name p) (p_trace_mask p).
Definition set_parent (x : option nat) (p : proc) : proc :=
  mkproc (p_state p) (p_chan p) (p_killed p) (p_xstate p) (p_pid p) x (p_kstack p) (p_sz p) (p_pagetable p) (p_trapframe p) (p_context p) (p_ofile p) (p_cwd p) (p_name p) (p_trace_mask p).
Definition set_kstack (x : Z) (p : proc) : proc :=
  mkproc (p_state p) (p_chan p) (p_killed p) (p_xstate p) (p_pid p) (p_parent p) x (p_sz p) (p_pagetable p) (p_trapframe p) (p_context p) (p_ofile p) (p_cwd p) (p_name p) (p_trace_mask p).
Definition set_psz (x : Z) (p : proc) : proc :=
  mkproc (p_state p) (p_chan p) (p_killed p) (p_xstate p) (p_pid p) (p_parent p) (p_kstack p) x (p_pagetable p) (p_trapframe p) (p_context p) (p_ofile p) (p_cwd p) (p_name p) (p_trace_mask p).
Definition set_pagetable (x : Z) (p : proc) : proc :=
  mkproc (p_state p) (p_chan p) (p_killed p) (p_xstate p) (p_pid p) (p_parent p) (p_kstack p) (p_sz p) x (p_trapframe p) (p_context p) (p_ofile p) (p_cwd p) (p_name p) (p_trace_mask p).
Definition set_trapframe (x : Z) (p : proc) : proc :=
  mkproc (p_state p) (p_chan p) (p_killed p) (p_xstate p) (p_pid p) (p_parent p) (p_kstack p) (p_sz p) (p_pagetable p) x (p_context p) (p_ofile p) (p_cwd p) (p_name p) (p_trace_mask p).
Definition set_context (x : Z * Z) (p : proc) : proc :=
  mkproc (p_state p) (p_chan p) (p_killed p) (p_xstate p) (p_pid p) (p_parent p) (p_kstack p) (p_sz p) (p_pagetable p) (p_trapframe p) x (p_ofile p) (p_cwd p) (p_name p) (p_trace_mask p).
Definition set_ofile (x : list (option nat)) (p : proc) : proc :=
  mkproc (p_state p) (p_chan p) (p_killed p) (p_xstate p) (p_pid p) (p_parent p) (p_kstack p) (p_sz p) (p_pagetable p) (p_trapframe p) (p_context p) x (p_cwd p) (p_name p) (p_trace_mask p).
Definition set_cwd (x : option nat) (p : proc) : proc :=
  mkproc (p_state p) (p_chan p) (p_killed p) (p_xstate p) (p_pid p) (p_parent p) (p_kstack p) (p_sz p) (p_pagetable p) (p_trapframe p) (p_context p) (p_ofile p) x (p_name p) (p_trace_mask p).
Definition set_name (x : list Z) (p : proc) : proc :=
  mkproc (p_state p) (p_chan p) (p_killed p) (p_xstate p) (p_pid p) (p_parent p) (p_kstack p) (p_sz p) (p_pagetable p) (p_trapframe p) (p_context p) (p_ofile p) (p_cwd p) x (p_trace_mask p).
Definition set_trace_mask (x : Z) (p : proc) : proc :=
  mkproc (p_state p) (p_chan p) (p_killed p) (p_xstate p) (p_pid p) (p_parent p) (p_kstack p) (p_sz p) (p_pagetable p) (p_trapframe p) (p_context p) (p_ofile p) (p_cwd p) (p_name p) x.

(** Fields of [struct file]. *)
Definition set_fref (x : Z) (f : file) : file :=
  mkfile (f_type f) x (f_readable f) (f_writable f) (f_pipe f) (f_ip f) (f_off f) (f_major f).
Definition set_ftype (x : ftype) (f : file) : file :=
  mkfile x (f_ref f) (f_readable f) (f_writable f) (f_pipe f) (f_ip f) (f_off f) (f_major f).
Definition set_foff (x : Z) (f : file) : file :=
  mkfile (f_type f) (f_ref f) (f_readable f) (f_writable f) (f_pipe f) (f_ip f) x (f_major f).

(** * Small states for the examples *)

(** A kernel state with nothing in it but a memory and the processes [x]. *)
Definition small_kst (m : kmem) (x : nat -> proc) : kst :=
  mkkst m x 2 (Some 0%nat) (mkfs (mksb 0 0 0 0 0 0 0 0) (fun _ => mkinode 0 0 0 (mksleep 0 0) 0 0 0 0 0 0 []) (boot_state (fun _ => [])))
    (fun _ => mkfile FD_NONE 0 0 0 0 0%nat 0 0) (fun _ => mkdevsw None None) ∅ 0
    (mkcons (replicate 128 0) 0 0 0) (mkuart (replicate 32 0) 0 0 [] [] 0 (fun _ => 0%nat) [] 0) false.
Definition small_proc (pid : Z) : proc :=
  mkproc RUNNING None 0 0 pid None 0 4096 0 0x87000000 (0, 0) (replicate 16 None) None (115 :: 104 :: replicate 14 0) 0.
Definition cpu3 : cpu := mkcpu [] 4 0 [] 3 [].
