(* ===== verification/SleepWake.v ===== *)
(** [sleep] against [wakeup] and the scheduler, kernel/proc.c, step by step.

    Any number of processes wait, with [acquire(lk); while(!cond) sleep(ch, lk); release(lk)],
    for a condition that others set, with [acquire(lk); cond = 1; wakeup(ch); release(lk)].
    Their steps, the scheduler's and those of [kill] interleave in every possible way; a step
    is a lock operation or one access to the shared state. Locks are what Spinlock.v shows
    them to be: [acquire] waits until the lock is free. *)
From S2P Require Import Prelude State.

Definition NP : nat := 64.

(** Where a process is: in the waiting loop (with the lines of [sleep] one by one), or in the
    code that sets the condition (with the lines of [wakeup] for table entry [i]). *)
Inductive point :=
| WStart | WCheck | SlAcquireP | SlReleaseLk | SlChan | SlState | SlSched | SlAsleep | SlTidy | SlReleaseP | SlAcquireLk | WRelease | WDone
| KStart | KSet | WkEntry (i : nat) | WkTest (i : nat) | WkReleaseP (i : nat) | KRelease | KDone.

Record world := mkworld {
  w_at : nat -> point; w_state : nat -> procstate; w_chan : nat -> bool;
  w_plock : nat -> option nat; w_lk : option nat; w_cond : bool }.

Definition wset {A} (i : nat) (v : A) (f : nat -> A) : nat -> A := fun j => if decide (j = i) then v else f j.
Definition goto (t : nat) (p : point) (w : world) : world := mkworld (wset t p (w_at w)) (w_state w) (w_chan w) (w_plock w) (w_lk w) (w_cond w).
Definition put_state (i : nat) (x : procstate) (w : world) : world := mkworld (w_at w) (wset i x (w_state w)) (w_chan w) (w_plock w) (w_lk w) (w_cond w).
Definition put_chan (i : nat) (x : bool) (w : world) : world := mkworld (w_at w) (w_state w) (wset i x (w_chan w)) (w_plock w) (w_lk w) (w_cond w).
Definition put_plock (i : nat) (x : option nat) (w : world) : world := mkworld (w_at w) (w_state w) (w_chan w) (wset i x (w_plock w)) (w_lk w) (w_cond w).
Definition put_lk (x : option nat) (w : world) : world := mkworld (w_at w) (w_state w) (w_chan w) (w_plock w) x (w_cond w).
Definition put_cond (w : world) : world := mkworld (w_at w) (w_state w) (w_chan w) (w_plock w) (w_lk w) true.

(** [acquire] of [lk] and of a process lock by [t]: not possible while it is taken. *)
Definition take_lk (t : nat) (w : world) : option world := match w_lk w with None => Some (put_lk (Some t) w) | Some _ => None end.
Definition take_plock (i t : nat) (w : world) : option world := match w_plock w i with None => Some (put_plock i (Some t) w) | Some _ => None end.

(** A line of [sleep], run by process [t] (its entry is [t]). [sched] switches to the
    scheduler, which releases the process's lock. *)
Definition sleep_step (t : nat) (w : world) : option world :=
  match w_at w t with
  | SlAcquireP => goto t SlReleaseLk <$> take_plock t t w
  | SlReleaseLk => Some (goto t SlChan (put_lk None w))
  | SlChan => Some (goto t SlState (put_chan t true w))
  | SlState => Some (goto t SlSched (put_state t SLEEPING w))
  | SlSched => Some (goto t SlAsleep (put_plock t None w))
  | SlTidy => Some (goto t SlReleaseP (put_chan t false w))
  | SlReleaseP => Some (goto t SlAcquireLk (put_plock t None w))
  | SlAcquireLk => goto t WCheck <$> take_lk t w
  | _ => None
  end.

(** A line of [wakeup], run by process [t]. *)
Definition wakeup_step (t : nat) (w : world) : option world :=
  match w_at w t with
  | WkEntry i =>
      if decide (i < NP)%nat then
        if decide (i = t) then Some (goto t (WkEntry (S i)) w) else goto t (WkTest i) <$> take_plock i t w
      else Some (goto t KRelease w)
  | WkTest i =>
      Some (goto t (WkReleaseP i) (if decide (w_state w i = SLEEPING /\ w_chan w i = true) then put_state i RUNNABLE w else w))
  | WkReleaseP i => Some (goto t (WkEntry (S i)) (put_plock i None w))
  | _ => None
  end.

(** The loops around them. *)
Definition client_step (t : nat) (w : world) : option world :=
  match w_at w t with
  | WStart => goto t WCheck <$> take_lk t w
  | WCheck => Some (goto t (if w_cond w then WRelease else SlAcquireP) w)
  | WRelease => Some (goto t WDone (put_lk None w))
  | KStart => goto t KSet <$> take_lk t w
  | KSet => Some (goto t (WkEntry 0) (put_cond w))
  | KRelease => Some (goto t KDone (put_lk None w))
  | _ => None
  end.

(** The scheduler looks at entry [p]: it takes a runnable process's lock and switches to it. *)
Definition scheduler_step (p : nat) (w : world) : option world :=
  match w_plock w p with
  | Some _ => None
  | None =>
      if decide (w_state w p = RUNNABLE) then
        match w_at w p with
        | SlAsleep => Some (goto p SlTidy (put_plock p (Some p) (put_state p RUNNING w)))
        | _ => None
        end
      else Some w
  end.

(** [kill] of process [p] holds its lock throughout. *)
Definition kill_step (p : nat) (w : world) : option world :=
  match w_plock w p with
  | Some _ => None
  | None => Some (if decide (w_state w p = SLEEPING) then put_state p RUNNABLE w else w)
  end.

Inductive step (w w' : world) : Prop :=
| step_sleep t : (t < NP)%nat -> sleep_step t w = Some w' -> step w w'
| step_wakeup t : (t < NP)%nat -> wakeup_step t w = Some w' -> step w w'
| step_client t : (t < NP)%nat -> client_step t w = Some w' -> step w w'
| step_scheduler p : (p < NP)%nat -> scheduler_step p w = Some w' -> step w w'
| step_kill p : (p < NP)%nat -> kill_step p w = Some w' -> step w w'.

(** Processes of which some wait and the others set the condition, before any has started. *)
Definition start (waker : nat -> bool) : world :=
  mkworld (fun t => if waker t then KStart else WStart) (fun _ => RUNNING) (fun _ => false) (fun _ => None) None false.

(** * The invariant *)

Definition has_lk (p : point) : bool :=
  match p with WCheck | SlAcquireP | SlReleaseLk | WRelease | KSet | WkEntry _ | WkTest _ | WkReleaseP _ | KRelease => true | _ => false end.
(** The process lock held at a point of process [t]. *)
Definition has_plock (t : nat) (p : point) : option nat :=
  match p with SlReleaseLk | SlChan | SlState | SlSched | SlTidy | SlReleaseP => Some t | WkTest i | WkReleaseP i => Some i | _ => None end.

(** Process [t], which is waking, has not come to entry [p] yet. *)
Definition not_past (w : world) (t p : nat) : Prop :=
  match w_at w t with WkEntry i | WkTest i => (i <= p)%nat | WkReleaseP i => (i < p)%nat | _ => False end.

Definition state_ok (p : point) (x : procstate) (ch : bool) : Prop :=
  match p with
  | SlState => x = RUNNING /\ ch = true
  | SlSched => x = SLEEPING /\ ch = true
  | SlAsleep => x = SLEEPING /\ ch = true \/ x = RUNNABLE
  | _ => x = RUNNING
  end.

(** About to sleep, or asleep, and not yet seen by a [wakeup]. *)
Definition going_down (p : point) (x : procstate) : Prop :=
  match p with SlChan | SlState | SlSched => True | SlAsleep => x = SLEEPING | _ => False end.

Record winv (w : world) : Prop := {
  wi_lk t : (t < NP)%nat -> w_lk w = Some t <-> has_lk (w_at w t) = true;
  wi_lk_in t : w_lk w = Some t -> (t < NP)%nat;
  wi_plock t p : (t < NP)%nat -> w_plock w p = Some t <-> has_plock t (w_at w t) = Some p;
  wi_plock_in t p : w_plock w p = Some t -> (t < NP)%nat /\ (p < NP)%nat;
  wi_state t : (t < NP)%nat -> state_ok (w_at w t) (w_state w t) (w_chan w t);
  wi_saw t : (t < NP)%nat -> w_at w t = SlAcquireP \/ w_at w t = SlReleaseLk -> w_cond w = false;
  wi_wake t : (t < NP)%nat -> w_cond w = true -> going_down (w_at w t) (w_state w t) -> exists k, (k < NP)%nat /\ not_past w k t;
}.

Lemma start_inv waker : winv (start waker).
Proof. split; cbn; try done; intros t; destruct (waker t); simpl; intros; try done; intuition congruence. Qed.

(** Process [t] moves on to [q]; what it needs of the locks, of its own entry and of the
    condition is in the premises, the entries of the other processes stay. *)
Lemma winv_move w w' t q : winv w -> (t < NP)%nat ->
  (forall j, w_at w' j = wset t q (w_at w) j) ->
  (forall j, j <> t -> w_state w' j = w_state w j /\ w_chan w' j = w_chan w j) ->
  (forall j, w_lk w' = Some j <-> if decide (j = t) then has_lk q = true else w_lk w = Some j) ->
  (forall j p, w_plock w' p = Some j <-> if decide (j = t) then has_plock t q = Some p else w_plock w p = Some j) ->
  (forall p, has_plock t q = Some p -> (p < NP)%nat) ->
  state_ok q (w_state w' t) (w_chan w' t) ->
  (w_cond w' = true -> w_cond w = true \/ has_lk (w_at w t) = true /\ not_past w' t 0) ->
  (q = SlAcquireP \/ q = SlReleaseLk -> w_cond w' = false) ->
  (w_cond w' = true -> going_down q (w_state w' t) -> exists k, (k < NP)%nat /\ k <> t /\ not_past w k t) ->
  (forall j, (j < NP)%nat -> j <> t -> w_cond w = true -> going_down (w_at w j) (w_state w j) -> not_past w t j -> not_past w' t j) ->
  winv w'.
Proof.
  intros [H1 H2 H3 H4 H5 H6 H7] Ht Hat Hst Hlk Hpl Hidx Hok Hcond Hsaw Hdown Hpast.
  assert (forall j, j <> t -> w_at w' j = w_at w j) as Hne by (intros j Hj; rewrite Hat; unfold wset; by rewrite decide_False).
  assert (w_at w' t = q) as He by (rewrite Hat; unfold wset; by rewrite decide_True).
  assert (forall k j, k <> t -> not_past w k j -> not_past w' k j) as Hnp by (intros k j Hk; unfold not_past; by rewrite Hne).
  split.
  - intros j Hj. rewrite Hlk. case_decide; [subst j; by rewrite He|]. rewrite Hne by done. by apply H1.
  - intros j. rewrite Hlk. case_decide; [by subst|]. apply H2.
  - intros j p Hj. rewrite Hpl. case_decide; [subst j; by rewrite He|]. rewrite Hne by done. by apply H3.
  - intros j p. rewrite Hpl. case_decide; [subst j; auto|]. apply H4.
  - intros j Hj. destruct (decide (j = t)) as [->|Hjt]; [by rewrite He|]. rewrite Hne by done. destruct (Hst j Hjt) as [-> ->]. by apply H5.
  - intros j Hj Hin. destruct (decide (j = t)) as [->|Hjt]; [rewrite He in Hin; auto|]. rewrite Hne in Hin by done. pose proof (H6 j Hj Hin) as Hf.
    destruct (w_cond w') eqn:Hc; [|done]. destruct Hcond as [?|[Hl _]]; [done|congruence|].
    apply (H1 t Ht) in Hl. assert (w_lk w = Some j) as Hl' by (apply (H1 j Hj); by destruct Hin as [-> | ->]). congruence.
  - intros j Hj Hc Hg. destruct (decide (j = t)) as [->|Hjt].
    + rewrite He in Hg. destruct (Hdown Hc Hg) as (k & Hk & Hkt & Hp). eauto.
    + rewrite Hne in Hg by done. destruct (Hst j Hjt) as [E _]. rewrite E in Hg. destruct (Hcond Hc) as [Hcw|[_ Hz]].
      * destruct (H7 j Hj Hcw Hg) as (k & Hk & Hp). exists k. split; [done|]. destruct (decide (k = t)) as [->|]; [by apply Hpast|by apply Hnp].
      * exists t. split; [done|]. revert Hz. unfold not_past. case_match; lia.
Qed.

(** The premises of [winv_move] on the locks: [w] changed at most the locks of [t]. *)
Ltac wlocks := let j := fresh "j" in intros j; unfold wset; cbn; unfold wset; repeat case_decide; subst; cbn; intuition congruence.
Ltac wplocks Hpl := let j := fresh "j" in let p := fresh "p" in
  intros j p; pose proof (Hpl p); unfold wset; cbn; unfold wset; repeat case_decide; subst; cbn; intuition congruence.

Ltac wmove w t q Hpl Hat := apply (winv_move w _ t q);
  [done|done|done|let j := fresh in let H := fresh in intros j H; cbn; unfold wset; rewrite ?decide_False by exact H; done
  |wlocks|wplocks Hpl|cbn; intros ? [= <-]; done|cbn; unfold wset; rewrite ?decide_True by done; try (intuition congruence)|cbn; try (by left)
  |cbn; try (intuition congruence)|cbn; try done|unfold not_past; cbn; unfold wset; rewrite ?decide_True by done; rewrite ?Hat; try done].

Lemma going_other w t : winv w -> (t < NP)%nat -> w_cond w = true -> going_down (w_at w t) (w_state w t) ->
  exists k, (k < NP)%nat /\ k <> t /\ not_past w k t.
Proof.
  intros Hi Ht Hc Hg. destruct (wi_wake w Hi t Ht Hc Hg) as (k & Hk & Hp). exists k. split_and!; [done| |done].
  intros ->. revert Hg Hp. unfold not_past. by destruct (w_at w t).
Qed.

Lemma sleep_inv t w w' : winv w -> (t < NP)%nat -> sleep_step t w = Some w' -> winv w'.
Proof.
  intros Hi Ht Hs. pose proof (wi_lk w Hi t Ht) as Hlk. pose proof (fun p => wi_plock w Hi t p Ht) as Hpl.
  pose proof (wi_state w Hi t Ht) as Hst. pose proof (wi_saw w Hi t Ht) as Hsaw. pose proof (going_other w t Hi Ht) as Hgo.
  unfold sleep_step, take_plock, take_lk in Hs. destruct (w_at w t) eqn:Hat; try discriminate Hs; cbn in Hlk, Hpl, Hst.
  - destruct (w_plock w t) eqn:Hp; [discriminate Hs|]. injection Hs as <-. wmove w t SlReleaseLk Hpl Hat.
  - injection Hs as <-. wmove w t SlChan Hpl Hat. intros Hc. rewrite Hsaw in Hc by (by right). done.
  - injection Hs as <-. wmove w t SlState Hpl Hat. all: intros Hc _; by apply Hgo.
  - injection Hs as <-. wmove w t SlSched Hpl Hat. all: intros Hc _; by apply Hgo.
  - injection Hs as <-. wmove w t SlAsleep Hpl Hat. all: intros Hc _; by apply Hgo.
  - injection Hs as <-. wmove w t SlReleaseP Hpl Hat.
  - injection Hs as <-. wmove w t SlAcquireLk Hpl Hat.
  - destruct (w_lk w) eqn:Hl; [discriminate Hs|]. injection Hs as <-. wmove w t WCheck Hpl Hat.
Qed.

Lemma client_inv t w w' : winv w -> (t < NP)%nat -> client_step t w = Some w' -> winv w'.
Proof.
  intros Hi Ht Hs. pose proof (wi_lk w Hi t Ht) as Hlk. pose proof (fun p => wi_plock w Hi t p Ht) as Hpl. pose proof (wi_state w Hi t Ht) as Hst.
  unfold client_step, take_lk in Hs. destruct (w_at w t) eqn:Hat; try discriminate Hs; cbn in Hlk, Hpl, Hst.
  - destruct (w_lk w) eqn:Hl; [discriminate Hs|]. injection Hs as <-. wmove w t WCheck Hpl Hat.
  - destruct (w_cond w) eqn:Hc; injection Hs as <-; [wmove w t WRelease Hpl Hat|wmove w t SlAcquireP Hpl Hat].
  - injection Hs as <-. wmove w t WDone Hpl Hat.
  - destruct (w_lk w) eqn:Hl; [discriminate Hs|]. injection Hs as <-. wmove w t KSet Hpl Hat.
  - injection Hs as <-. wmove w t (WkEntry 0) Hpl Hat. intros _. right. split; [by rewrite Hat|]. unfold not_past. cbn. unfold wset. rewrite decide_True by done. lia.
  - injection Hs as <-. wmove w t KDone Hpl Hat.
Qed.

(** A step that changes no point: entry [i] turns runnable. *)
Lemma winv_runnable i w : winv w -> (i < NP)%nat -> w_at w i = SlAsleep -> winv (put_state i RUNNABLE w).
Proof.
  intros [H1 H2 H3 H4 H5 H6 H7] Hin Hat. split; try done; cbn; unfold wset.
  - intros t Ht. case_decide; [subst t; rewrite Hat; by right|by apply H5].
  - intros t Ht Hc. case_decide; [subst t; by rewrite Hat|]. apply H7; done.
Qed.

(** Sleeping with its lock free, or held by another: asleep. *)
Lemma sleeping_asleep i w : winv w -> (i < NP)%nat -> w_state w i = SLEEPING -> w_plock w i <> Some i -> w_at w i = SlAsleep.
Proof.
  intros Hi Hin Hs Hp. pose proof (wi_state w Hi i Hin) as Hst. pose proof (wi_plock w Hi i i Hin) as Hpl. revert Hst Hpl. rewrite Hs.
  destruct (w_at w i); cbn; try done; intuition congruence.
Qed.

(** After its test, [wakeup] leaves no unseen sleeper at entry [i]. *)
Lemma wakeup_test t i w : winv w -> (t < NP)%nat -> (i < NP)%nat -> w_at w t = WkTest i ->
  let w1 := if decide (w_state w i = SLEEPING /\ w_chan w i = true) then put_state i RUNNABLE w else w in
  winv w1 /\ w_at w1 = w_at w /\ ~ going_down (w_at w1 i) (w_state w1 i).
Proof.
  intros Hi Ht Hin Hat w1. assert (w_plock w i = Some t) as Hp by (apply (wi_plock w Hi t i Ht); by rewrite Hat).
  pose proof (wi_state w Hi t Ht) as Hst. rewrite Hat in Hst. cbn in Hst. unfold w1. destruct (decide _) as [[Hs Hc]|Hno].
  - assert (w_at w i = SlAsleep) as Ha. { apply sleeping_asleep; [done|done|done|]. rewrite Hp. intros [= ->]. congruence. }
    split_and!; [by apply winv_runnable|done|]. cbn. unfold wset. rewrite Ha, decide_True by done. done.
  - split_and!; [done|done|]. pose proof (wi_state w Hi i Hin) as Hsi. pose proof (proj2 (wi_plock w Hi i i Hin)) as Hpi. revert Hsi Hpi.
    rewrite Hp. destruct (w_at w i) eqn:Hai; cbn; intros Hsi Hpi Hg; try done;
      first [specialize (Hpi eq_refl); congruence | apply Hno; intuition congruence].
Qed.

Lemma wakeup_inv t w w' : winv w -> (t < NP)%nat -> wakeup_step t w = Some w' -> winv w'.
Proof.
  intros Hi Ht Hs. pose proof (wi_lk w Hi t Ht) as Hlk. pose proof (fun p => wi_plock w Hi t p Ht) as Hpl. pose proof (wi_state w Hi t Ht) as Hst.
  unfold wakeup_step, take_plock in Hs. destruct (w_at w t) as [| | | | | | | | | | | | | | |i|i|i| |] eqn:Hat; try discriminate Hs; cbn in Hlk, Hpl, Hst.
  - destruct (decide (i < NP)%nat) as [Hin|Hout]; [destruct (decide (i = t)) as [->|Hne]|].
    + injection Hs as <-. wmove w t (WkEntry (S t)) Hpl Hat. intros j Hj Hjt _ _ Hle. lia.
    + destruct (w_plock w i) eqn:Hp; [discriminate Hs|]. injection Hs as <-. wmove w t (WkTest i) Hpl Hat.
    + injection Hs as <-. wmove w t KRelease Hpl Hat. intros j Hj Hjt _ _ Hle. lia.
  - destruct (wi_plock_in w Hi t i (proj2 (Hpl i) eq_refl)) as [_ Hin]. injection Hs as <-.
    destruct (wakeup_test t i w Hi Ht Hin Hat) as (Hi1 & Hat1 & Hng). set (w1 := if decide _ then _ else _) in *. clearbody w1.
    pose proof (fun p => wi_plock w1 Hi1 t p Ht) as Hpl1. pose proof (wi_lk w1 Hi1 t Ht) as Hlk1. pose proof (wi_state w1 Hi1 t Ht) as Hst1.
    rewrite <- Hat1 in Hat. rewrite Hat in Hlk1, Hst1. setoid_rewrite Hat in Hpl1. cbn in Hpl1, Hlk1, Hst1.
    wmove w1 t (WkReleaseP i) Hpl1 Hat. intros j Hj Hjt Hc Hg Hle.
    destruct (decide (j = i)) as [->|]; [done|lia].
  - injection Hs as <-. wmove w t (WkEntry (S i)) Hpl Hat.
Qed.

Lemma scheduler_inv p w w' : winv w -> (p < NP)%nat -> scheduler_step p w = Some w' -> winv w'.
Proof.
  intros Hi Hp Hs. pose proof (wi_lk w Hi p Hp) as Hlk. pose proof (fun i => wi_plock w Hi p i Hp) as Hpl.
  unfold scheduler_step in Hs. destruct (w_plock w p) eqn:Hl; [discriminate Hs|]. destruct (decide _) as [Hr|]; [|by injection Hs as <-].
  destruct (w_at w p) eqn:Hat; try discriminate Hs. injection Hs as <-. cbn in Hlk, Hpl. wmove w p SlTidy Hpl Hat.
Qed.

Lemma kill_inv p w w' : winv w -> (p < NP)%nat -> kill_step p w = Some w' -> winv w'.
Proof.
  intros Hi Hp Hs. unfold kill_step in Hs. destruct (w_plock w p) eqn:Hl; [discriminate Hs|]. injection Hs as <-.
  destruct (decide _); [|done]. apply winv_runnable; [done|done|]. apply sleeping_asleep; [done|done|done|congruence].
Qed.

Lemma step_inv w w' : winv w -> step w w' -> winv w'.
Proof.
  intros Hi [t Ht Hs|t Ht Hs|t Ht Hs|p Hp Hs|p Hp Hs];
    [by eapply sleep_inv|by eapply wakeup_inv|by eapply client_inv|by eapply scheduler_inv|by eapply kill_inv].
Qed.

Lemma world_inv waker w : rtc step (start waker) w -> winv w.
Proof.
  intros Hr. assert (winv (start waker)) as Hi by apply start_inv. revert Hi. induction Hr as [|w1 w2 w3 Hst Hr IH]; [done|].
  intros Hi. apply IH. by eapply step_inv.
Qed.

(** C5: No wakeup is lost. In every interleaving of waiting processes, of processes that
    set the condition, of the scheduler and of [kill]: once the condition is set and no
    [wakeup] for it is under way, no process is asleep on it, nor on its way to sleep. *)
Theorem no_lost_wakeup waker w : rtc step (start waker) w -> w_cond w = true ->
  (forall t, (t < NP)%nat -> match w_at w t with WkEntry _ | WkTest _ | WkReleaseP _ => False | _ => True end) ->
  forall t, (t < NP)%nat -> w_state w t <> SLEEPING /\
    match w_at w t with SlAcquireP | SlReleaseLk | SlChan | SlState | SlSched => False | _ => True end.
Proof.
  intros Hr Hc Hno t Ht. pose proof (world_inv waker w Hr) as Hi.
  assert (~ going_down (w_at w t) (w_state w t)) as Hng.
  { intros Hg. destruct (wi_wake w Hi t Ht Hc Hg) as (k & Hk & Hp). specialize (Hno k Hk). revert Hp Hno. unfold not_past. by destruct (w_at w k). }
  pose proof (wi_state w Hi t Ht) as Hst. pose proof (wi_saw w Hi t Ht) as Hsaw. revert Hng Hst Hsaw.
  destruct (w_at w t); cbn; rewrite ?Hc; intuition congruence.
Qed.

(** * Progress *)

(** Some process can make a step: one of its own, or being switched to after it was woken. *)
Definition moves (w : world) : Prop := exists t w', (t < NP)%nat /\
  (sleep_step t w = Some w' \/ wakeup_step t w = Some w' \/ client_step t w = Some w' \/
   scheduler_step t w = Some w' /\ w_at w t = SlAsleep /\ w_state w t = RUNNABLE).

Lemma plock_moves w p u : winv w -> w_plock w p = Some u -> moves w.
Proof.
  intros Hi Hp. destruct (wi_plock_in w Hi u p Hp) as [Hu _]. pose proof (proj1 (wi_plock w Hi u p Hu) Hp) as Hh. exists u.
  destruct (w_at w u) eqn:Hat; try discriminate Hh; eexists; (split; [done|]);
    first [left; unfold sleep_step; rewrite Hat; reflexivity | right; left; unfold wakeup_step; rewrite Hat; reflexivity].
Qed.

Lemma lk_moves w u : winv w -> w_lk w = Some u -> moves w.
Proof.
  intros Hi Hl. pose proof (wi_lk_in w Hi u Hl) as Hu. pose proof (proj1 (wi_lk w Hi u Hu) Hl) as Hh.
  destruct (w_at w u) as [| | | | | | | | | | | | | | |i|i|i| |] eqn:Hat; try discriminate Hh.
  - exists u. eexists. split; [done|]. do 2 right. left. unfold client_step. by rewrite Hat.
  - destruct (w_plock w u) eqn:Hp; [by eapply plock_moves|]. exists u. eexists. split; [done|]. left. unfold sleep_step, take_plock. by rewrite Hat, Hp.
  - exists u. eexists. split; [done|]. left. unfold sleep_step. by rewrite Hat.
  - exists u. eexists. split; [done|]. do 2 right. left. unfold client_step. by rewrite Hat.
  - exists u. eexists. split; [done|]. do 2 right. left. unfold client_step. by rewrite Hat.
  - destruct (w_plock w i) eqn:Hp; [by eapply plock_moves|]. exists u. unfold wakeup_step, take_plock. rewrite Hat, Hp.
    destruct (decide (i < NP)%nat); [destruct (decide (i = u))|]; eexists; split; first [done | right; left; reflexivity].
  - exists u. eexists. split; [done|]. right. left. unfold wakeup_step. by rewrite Hat.
  - exists u. eexists. split; [done|]. right. left. unfold wakeup_step. by rewrite Hat.
  - exists u. eexists. split; [done|]. do 2 right. left. unfold client_step. by rewrite Hat.
Qed.

(** C16: No deadlock. As long as the condition is set and some process has not finished,
    some process can move: the sleepers among them have been woken or are being woken. *)
Theorem wakeup_progress waker w t : rtc step (start waker) w -> w_cond w = true -> (t < NP)%nat ->
  w_at w t <> WDone -> w_at w t <> KDone -> moves w.
Proof.
  intros Hr Hc Ht Hd Hd'. pose proof (world_inv waker w Hr) as Hi. destruct (w_lk w) as [u|] eqn:Hl; [by eapply lk_moves|].
  pose proof (wi_lk w Hi t Ht) as Hlk. rewrite Hl in Hlk.
  destruct (has_lk (w_at w t)) eqn:Hh; [by destruct Hlk as [_ Hlk]; discriminate (Hlk eq_refl)|].
  destruct (has_plock t (w_at w t)) as [p|] eqn:Hp; [by eapply plock_moves, (wi_plock w Hi t p Ht)|].
  destruct (w_at w t) eqn:Hat; try discriminate; try done.
  - exists t. eexists. split; [done|]. do 2 right. left. unfold client_step, take_lk. by rewrite Hat, Hl.
  - destruct (w_plock w t) eqn:Hpl; [by eapply plock_moves|]. destruct (decide (w_state w t = RUNNABLE)) as [Hs|Hs].
    + exists t. eexists. split; [done|]. do 3 right. split; [|done]. unfold scheduler_step. by rewrite Hpl, decide_True, Hat.
    + pose proof (wi_state w Hi t Ht) as Hst. rewrite Hat in Hst. destruct Hst as [[Hst _]|Hst]; [|done].
      destruct (wi_wake w Hi t Ht Hc) as (k & Hk & Hnp); [by rewrite Hat|]. pose proof (wi_lk w Hi k Hk) as Hkl. rewrite Hl in Hkl. unfold not_past in Hnp.
      destruct (w_at w k); try done; destruct Hkl as [_ Hkl]; discriminate (Hkl eq_refl).
  - exists t. eexists. split; [done|]. left. unfold sleep_step, take_lk. by rewrite Hat, Hl.
  - exists t. eexists. split; [done|]. do 2 right. left. unfold client_step, take_lk. by rewrite Hat, Hl.
Qed.

(** * Witnesses *)

(** Process 1 waits, process 0 sets the condition, in turns. *)
Fixpoint run (sch : list (nat * nat)) (w : world) : option world :=
  match sch with
  | [] => Some w
  | (k, t) :: sch' =>
      let o := match k with 0%nat => client_step t w | 1%nat => sleep_step t w | 2%nat => wakeup_step t w | _ => scheduler_step t w end in
      match o with Some w' => run sch' w' | None => None end
  end.

Lemma run_reach sch w w' : forallb (fun x => Nat.ltb x.2 NP) sch = true -> run sch w = Some w' -> rtc step w w'.
Proof.
  revert w. induction sch as [|[k t] sch IH]; intros w Hall Hr; cbn [run forallb snd] in *; [injection Hr as ->; apply rtc_refl|].
  apply andb_true_iff in Hall as [Ht%Nat.ltb_lt Hall].
  destruct k as [|[|[|k]]]; (destruct (_ t w) as [w1|] eqn:Hs; [|discriminate Hr]); (eapply rtc_l; [|by apply IH]).
  - by eapply step_client.
  - by eapply step_sleep.
  - by eapply step_wakeup.
  - by eapply step_scheduler.
Qed.

Definition one_waker (t : nat) : bool := Nat.eqb t 0.
(** Process 1 goes to sleep; process 0 sets the condition and wakes it. *)
Definition demo_sched : list (nat * nat) :=
  [(0, 1); (0, 1); (1, 1); (1, 1); (1, 1); (1, 1); (1, 1); (0, 0); (0, 0); (2, 0); (2, 0); (2, 0); (2, 0)]%nat.
(** And goes through the rest of the table. *)
Definition demo_rest : list (nat * nat) := replicate 187 (2, 0)%nat.

Lemma no_lost_wakeup_witness : exists w, rtc step (start one_waker) w /\ w_at w 1 = SlAsleep /\ w_state w 1 <> SLEEPING.
Proof.
  destruct (run (demo_sched ++ demo_rest) (start one_waker)) as [w|] eqn:Hr; [|exfalso; vm_compute in Hr; discriminate Hr].
  assert (rtc step (start one_waker) w) as Hreach by (eapply run_reach; [|exact Hr]; vm_compute; reflexivity).
  assert (w_at <$> run (demo_sched ++ demo_rest) (start one_waker) = Some (w_at w)) as Hw by (by rewrite Hr).
  exists w. split; [done|]. assert (w_at w 1 = SlAsleep) as H1.
  { assert ((fun w => w_at w 1%nat) <$> run (demo_sched ++ demo_rest) (start one_waker) = Some SlAsleep) as H1 by (vm_compute; reflexivity).
    rewrite Hr in H1. injection H1 as H1. exact H1. }
  split; [done|]. apply (no_lost_wakeup one_waker w Hreach).
  - assert (w_cond <$> run (demo_sched ++ demo_rest) (start one_waker) = Some true) as Hc by (vm_compute; reflexivity).
    rewrite Hr in Hc. injection Hc as Hc. exact Hc.
  - intros t Ht.
    assert (match run (demo_sched ++ demo_rest) (start one_waker) with
      | Some w => forallb (fun t => match w_at w t with WkEntry _ | WkTest _ | WkReleaseP _ => false | _ => true end) (seq 0 NP)
      | None => false end = true) as Ha by (vm_compute; reflexivity).
    rewrite Hr in Ha. cbv beta iota in Ha. rewrite forallb_forall in Ha. specialize (Ha t). rewrite <- list_elem_of_In, elem_of_seq in Ha.
    specialize (Ha ltac:(lia)). by destruct (w_at w t).
  - vm_compute. lia.
Defined.

Lemma wakeup_progress_witness : exists w, rtc step (start one_waker) w /\ w_cond w = true /\ moves w.
Proof.
  destruct (run demo_sched (start one_waker)) as [w|] eqn:Hr; [|exfalso; vm_compute in Hr; discriminate Hr].
  assert (rtc step (start one_waker) w) as Hreach by (eapply run_reach; [|exact Hr]; vm_compute; reflexivity).
  assert ((fun w => (w_cond w, w_at w 1%nat)) <$> run demo_sched (start one_waker) = Some (true, SlAsleep)) as Hc by (vm_compute; reflexivity).
  rewrite Hr in Hc. injection Hc as Hc Ha.
  exists w. split_and!; [exact Hreach|exact Hc|]. apply (wakeup_progress one_waker w 1 Hreach Hc).
  - vm_compute. lia.
  - rewrite Ha. discriminate.
  - rewrite Ha. discriminate.
Defined.
