(* ===== verification/Process.v ===== *)
(** The process table, kernel/proc.c: allocation and freeing of processes and their page
    tables, [sleep] and [wakeup] on the table, [kill], and the copies to and from the memory
    of the current process. Creation and exit of processes are in ProcLife.v. *)
From S2P Require Import Prelude Memory Riscv Kalloc Vm Sleeplock Bio Log Fs State.

Section process.
Context `{Layout}.

(** [sizeof(p->name)] *)
Definition NAMELEN : Z := 16.

Definition procinit : M kst unit :=
  initlock LPid ;;
  initlock LWait ;;
  loop (S NPROCS) (fun p =>
    if Nat.ltb p NPROCS then
      initlock (LProc p) ;;
      upd_proc p (set_pstate UNUSED) ;;
      upd_proc p (set_kstack (KSTACK (Z.of_nat p))) ;;
      ret (inl (S p))
    else ret (inr tt)) 0%nat.

Definition myproc : M kst nat := getcpu me.

Definition allocpid : M kst Z :=
  acquire LPid ;;
  pid <- gets k_nextpid ;;
  modify (set_nextpid (s32 (pid + 1))) ;;
  release LPid ;;
  ret pid.

Definition proc_pagetable (p : nat) : M kst Z :=
  x <- get_proc p ;;
  zoom mem_lens (
    pagetable <- uvmcreate ;;
    if pagetable =? 0 then ret 0 else
    r <- mappages pagetable TRAMPOLINE PGSIZE trampoline (Z.lor PTE_R PTE_X) ;;
    if r <? 0 then uvmfree pagetable 0 ;; ret 0 else
    r <- mappages pagetable TRAPFRAME PGSIZE (p_trapframe x) (Z.lor PTE_R PTE_W) ;;
    if r <? 0 then
      uvmunmap pagetable TRAMPOLINE 1 false ;;
      uvmfree pagetable 0 ;;
      ret 0
    else ret pagetable).

Definition proc_freepagetable (pagetable sz : Z) : M kmem unit :=
  uvmunmap pagetable TRAMPOLINE 1 false ;;
  uvmunmap pagetable TRAPFRAME 1 false ;;
  uvmfree pagetable sz.

Definition freeproc (p : nat) : M kst unit :=
  x <- get_proc p ;;
  (if negb (p_trapframe x =? 0) then zoom mem_lens (kfree (p_trapframe x)) else ret tt) ;;
  upd_proc p (set_trapframe 0) ;;
  x <- get_proc p ;;
  (if negb (p_pagetable x =? 0) then zoom mem_lens (proc_freepagetable (p_pagetable x) (p_sz x)) else ret tt) ;;
  upd_proc p (set_pagetable 0) ;;
  upd_proc p (set_psz 0) ;;
  upd_proc p (set_pid 0) ;;
  upd_proc p (set_parent None) ;;
  upd_proc p (fun x => set_name (<[0%nat := 0]> (p_name x)) x) ;;
  upd_proc p (set_chan None) ;;
  upd_proc p (set_killed 0) ;;
  upd_proc p (set_xstate 0) ;;
  upd_proc p (set_trace_mask 0) ;;
  upd_proc p (set_pstate UNUSED).

Definition allocproc : M kst (option nat) :=
  r <- loop (S NPROCS) (fun p =>
    if Nat.ltb p NPROCS then
      acquire (LProc p) ;;
      x <- get_proc p ;;
      if decide (p_state x = UNUSED) then ret (inr (Some p))
      else release (LProc p) ;; ret (inl (S p))
    else ret (inr None)) 0%nat ;;
  match r with
  | None => ret None
  | Some p =>
      pid <- allocpid ;;
      upd_proc p (set_pid pid) ;;
      upd_proc p (set_pstate USED) ;;
      tf <- zoom mem_lens kalloc ;;
      upd_proc p (set_trapframe tf) ;;
      if tf =? 0 then freeproc p ;; release (LProc p) ;; ret None else
      pt <- proc_pagetable p ;;
      upd_proc p (set_pagetable pt) ;;
      if pt =? 0 then freeproc p ;; release (LProc p) ;; ret None else
      x <- get_proc p ;;
      upd_proc p (set_context (forkret_addr, p_kstack x + PGSIZE)) ;;
      ret (Some p)
  end.

Definition growproc (n : Z) : M kst Z :=
  p <- myproc ;;
  x <- get_proc p ;;
  if n >? 0 then
    sz <- zoom mem_lens (uvmalloc (p_pagetable x) (p_sz x) (u64 (p_sz x + n)) PTE_W) ;;
    if sz =? 0 then ret (-1) else upd_proc p (set_psz sz) ;; ret 0
  else if n <? 0 then
    sz <- zoom mem_lens (uvmdealloc (p_pagetable x) (p_sz x) (u64 (p_sz x + n))) ;;
    upd_proc p (set_psz sz) ;; ret 0
  else upd_proc p (set_psz (p_sz x)) ;; ret 0.

(** * Sleeping *)

(** [swtch] to the scheduler: the thread stops; it goes on when the scheduler switches back. *)
Definition swtch : M kst unit := fun c s =>
  let ch := default ChSched (p_chan (k_procs s (me c))) in
  match wakeups c with
  | O => Sleep ch c s (fun _ => Diverge)
  | S w => Sleep ch c s (fun s' => Ret (resumed w c) s' tt)
  end.

(** Interrupts are off whenever a spin lock is held, so the last check of [sched] cannot fire;
    saving and restoring [intena] is part of the context switch. *)
Definition sched : M kst unit :=
  p <- myproc ;;
  h <- holding (LProc p) ;;
  if negb h then panic "sched p->lock" else
  n <- getcpu (fun c => length (held c)) ;;
  if negb (Nat.eqb n 1) then panic "sched locks" else
  x <- get_proc p ;;
  if decide (p_state x = RUNNING) then panic "sched running" else
  swtch.

Definition yield : M kst unit :=
  p <- myproc ;;
  acquire (LProc p) ;;
  upd_proc p (set_pstate RUNNABLE) ;;
  sched ;;
  release (LProc p).

(** [sleep] and [wakeup] on the process table. *)
Definition ksleep (ch : chan) (lk : lockid) : M kst unit :=
  p <- myproc ;;
  acquire (LProc p) ;;
  release lk ;;
  upd_proc p (set_chan (Some ch)) ;;
  upd_proc p (set_pstate SLEEPING) ;;
  sched ;;
  upd_proc p (set_chan None) ;;
  release (LProc p) ;;
  acquire lk.

Definition kwakeup (ch : chan) : M kst unit :=
  wakeup ch ;;
  loop (S NPROCS) (fun p =>
    if Nat.ltb p NPROCS then
      m <- myproc ;;
      (if Nat.eqb p m then ret tt else
       acquire (LProc p) ;;
       x <- get_proc p ;;
       (if decide (p_state x = SLEEPING /\ p_chan x = Some ch) then upd_proc p (set_pstate RUNNABLE) else ret tt) ;;
       release (LProc p)) ;;
      ret (inl (S p))
    else ret (inr tt)) 0%nat.

Definition kill (pid : Z) : M kst Z :=
  loop (S NPROCS) (fun p =>
    if Nat.ltb p NPROCS then
      acquire (LProc p) ;;
      x <- get_proc p ;;
      if p_pid x =? pid then
        upd_proc p (set_killed 1) ;;
        (if decide (p_state x = SLEEPING) then upd_proc p (set_pstate RUNNABLE) else ret tt) ;;
        release (LProc p) ;;
        ret (inr 0)
      else
        release (LProc p) ;;
        ret (inl (S p))
    else ret (inr (-1))) 0%nat.

Definition setkilled (p : nat) : M kst unit :=
  acquire (LProc p) ;;
  upd_proc p (set_killed 1) ;;
  release (LProc p).

Definition killed (p : nat) : M kst Z :=
  acquire (LProc p) ;;
  x <- get_proc p ;;
  release (LProc p) ;;
  ret (p_killed x).

(** Caller must hold [wait_lock]. *)
Definition reparent (p : nat) : M kst unit :=
  loop (S NPROCS) (fun pp =>
    if Nat.ltb pp NPROCS then
      x <- get_proc pp ;;
      (if decide (p_parent x = Some p) then
         ini <- gets k_initproc ;;
         upd_proc pp (set_parent ini) ;;
         kwakeup (ChProc (default 0%nat ini))
       else ret tt) ;;
      ret (inl (S pp))
    else ret (inr tt)) 0%nat.

(** * Copies *)

(** Destinations and sources: a user address of the current process, or a kernel buffer,
    whose bytes are returned to the caller or given by it. *)
Inductive kdst := DUser (va : Z) | DKern.
Inductive ksrc := SUser (va : Z) | SKern (bytes : list Z).

(** Copy the first [len] bytes of [src]; the bytes that went to a kernel buffer are returned
    with the result. *)
Definition either_copyout (dst : kdst) (src : list Z) (len : Z) : M kst (Z * list Z) :=
  p <- myproc ;;
  x <- get_proc p ;;
  match dst with
  | DUser va => r <- zoom mem_lens (copyout (p_pagetable x) va src len) ;; ret (r, [])
  | DKern => ret (0, take (Z.to_nat len) src)
  end.

(** The result pairs the return value with the bytes written to the destination. *)
Definition either_copyin (src : ksrc) (len : Z) : M kst (Z * list Z) :=
  p <- myproc ;;
  x <- get_proc p ;;
  match src with
  | SUser va => zoom mem_lens (copyin (p_pagetable x) va len)
  | SKern bytes => ret (0, take (Z.to_nat len) bytes)
  end.

Definition state_name (st : procstate) : string :=
  match st with
  | UNUSED => "unused" | USED => "used" | SLEEPING => "sleep " | RUNNABLE => "runble"
  | RUNNING => "run   " | ZOMBIE => "zombie"
  end.

Definition procdump : M kst unit :=
  printf nl [] ;;
  loop (S NPROCS) (fun p =>
    if Nat.ltb p NPROCS then
      x <- get_proc p ;;
      (if decide (p_state x = UNUSED) then ret tt else
       printf "%d %s %s" [PInt (p_pid x); PStr (Some (bytes_of (state_name (p_state x)))); PStr (Some (p_name x))] ;;
       printf nl []) ;;
      ret (inl (S p))
    else ret (inr tt)) 0%nat.
End process.

(** * The trapframe *)

(** Offsets in [struct trapframe], a page of physical memory. *)
Definition TF_kernel_satp : Z := 0.
Definition TF_kernel_sp : Z := 8.
Definition TF_kernel_trap : Z := 16.
Definition TF_epc : Z := 24.
Definition TF_kernel_hartid : Z := 32.
Definition TF_sp : Z := 48.
Definition TF_a0 : Z := 112.
Definition TF_a1 : Z := 120.
Definition TF_a7 : Z := 168.
(** [sizeof(struct trapframe)] *)
Definition TF_size : Z := 288.

Definition tf_get (p : nat) (off : Z) : M kst Z :=
  x <- get_proc p ;; gets (fun s => load64 (kmem_mem (k_mem s)) (p_trapframe x + off)).
Definition tf_set (p : nat) (off v : Z) : M kst unit :=
  x <- get_proc p ;; zoom mem_lens (upd_mem (fun m => store64 m (p_trapframe x + off) v)).
