(* ===== verification/ProcSpace.v ===== *)
(** The address space of a process: the user pages with the trampoline and the trap frame
    above them, as [proc_pagetable] makes it and [proc_freepagetable] gives it back. *)
From S2P Require Import Prelude Memory Riscv Kalloc Vm VmTree VmMap VmUser VmCopy VmFree VmProps Sleeplock Bio Log Fs State Process.

Section space.
Context `{Layout}.

Definition PERM_TRAMP : Z := Z.lor PTE_R PTE_X.
Definition PERM_TF : Z := Z.lor PTE_R PTE_W.

Record aspace (m : kmem) (l : list Z) (root tf : Z) (N : gmap (list Z) Z) (us : list (Z * Z)) : Prop := {
  as_user : user_pages m l root N us;
  as_tramp : view (kmem_mem m) N TRAMPOLINE = mkpte trampoline PERM_TRAMP;
  as_tf : view (kmem_mem m) N TRAPFRAME = mkpte tf PERM_TF;
}.

Lemma trampoline_pa : pa_ok trampoline.
Proof.
  pose proof trampoline_range as Hr. pose proof etext_range as He. pose proof kend_range as Hk. split; [|apply trampoline_aligned].
  unfold KERNBASE, PGSIZE in *. rewrite PHYSTOP_val in Hk. change (2 ^ 56) with 72057594037927936. lia.
Qed.
Lemma TRAMPOLINE_val : TRAMPOLINE = 274877902848.
Proof. reflexivity. Qed.

(** The page at a fixed high address is a leaf entry. *)
Lemma high_leaf f va pa perm : pa_ok pa -> perm = PERM_TRAMP \/ perm = PERM_TF -> f va = mkpte pa perm -> mapped_to f va [pa].
Proof.
  intros Hpa Hp Hv i q Hq. apply list_lookup_singleton_Some in Hq as [-> <-]. rewrite Z.add_0_r, Hv.
  assert (0 <= perm < 1024) as Hr by (destruct Hp as [-> | ->]; vm_compute; done).
  split_and!; [by apply PTE2PA_mkpte|by apply tst_mkpte_V|]. rewrite PTE_FLAGS_mkpte by done. destruct Hp as [-> | ->]; vm_compute; done.
Qed.

(** A table that maps nothing below the trap frame, and nothing for the user above it. *)
Lemma user_pages_none m l root N : vm_inv m l root N ->
  (forall va, 0 <= va < TRAPFRAME -> view (kmem_mem m) N va = 0) -> (forall va, TRAPFRAME <= va < MAXVA -> tst (view (kmem_mem m) N va) PTE_U = false) ->
  user_pages m l root N [].
Proof. intros Hi Hlo Hhi. split; [done|intros i pa perm Hl; done|intros i pa perm Hl; done|constructor|exact Hlo|exact Hhi]. Qed.

Lemma mkpte_no_user pa perm : pa_ok pa -> perm = PERM_TRAMP \/ perm = PERM_TF -> tst (mkpte pa perm) PTE_U = false.
Proof.
  intros Hpa Hp. assert (0 <= perm < 1024) as Hr by (destruct Hp as [-> | ->]; vm_compute; done).
  unfold PTE_U. rewrite tst_mkpte by (done || lia). destruct Hp as [-> | ->]; reflexivity.
Qed.

(** [uvmfree(pagetable, 0)] of such a table, once the high pages are unmapped. *)
Lemma wp_uvmfree_none c m l root N (Q : cpu -> kmem -> unit -> Prop) : LKmem ∉ held c -> vm_inv m l root N ->
  (forall va, 0 <= va < MAXVA -> view (kmem_mem m) N va = 0) ->
  (forall m' l', kmem_inv m' l' -> l' ≡ₚ l ++ node_pages N -> frame_out (node_pages N) (kmem_mem m) (kmem_mem m') -> Q c m' tt) ->
  wp (uvmfree root 0) c m Q.
Proof.
  intros Hc Hi Hv HQ. rewrite MAXVA_val in Hv. eapply (wp_uvmfree root N m l []); [done| | | |].
  - apply user_pages_none; [done|intros va Hva; rewrite TRAPFRAME_val in Hva; apply Hv; lia|]. intros va Hva. rewrite TRAPFRAME_val, MAXVA_val in Hva. rewrite Hv by lia. apply tst_0.
  - split; [rewrite TRAPFRAME_val; lia|done].
  - intros va Hva. rewrite TRAPFRAME_val, MAXVA_val in Hva. rewrite Hv by lia. apply tst_0.
  - intros m' l' Hk Hl Hf. apply (HQ m' l'); [done| |].
    + rewrite Hl. unfold uv_pages. by rewrite app_nil_r.
    + eapply frame_out_mono; [|exact Hf]. set_solver.
Qed.

(** What building an address space does to the memory: pages come from the free list only. *)
Definition pt_post (m : kmem) (l : list Z) (tf : Z) (m' : kmem) (r : Z) : Prop :=
  frame_out l (kmem_mem m) (kmem_mem m') /\
  ((r = 0 /\ exists l', kmem_inv m' l' /\ l' ≡ₚ l) \/
   (exists l' N, page_ok r /\ aspace m' l' r tf N [] /\ l ≡ₚ l' ++ node_pages N)).

Lemma high_range va pa : pa_ok pa -> va = TRAMPOLINE \/ va = TRAPFRAME -> pa + PGSIZE <= 2 ^ 56 -> range_ok va 1 pa.
Proof.
  intros [Hpa Hal] Hva Hle. unfold range_ok. rewrite MAXVA_val. rewrite TRAMPOLINE_val, TRAPFRAME_val in Hva. unfold PGSIZE in *. destruct Hva as [-> | ->]; split_and!; try lia; try done.
Qed.

(** The new table with the two high pages. *)
Lemma pt_built m l tf pg l0 m1 m2 l2 N2 m3 l3 N3 : l = pg :: l0 -> page_ok tf -> page_ok pg ->
  vm_ext pg m1 l0 {[ [] := pg ]} m2 l2 N2 -> vm_ext pg m2 l2 N2 m3 l3 N3 ->
  frame_out l (kmem_mem m) (kmem_mem m3) ->
  (forall va, 0 <= va < MAXVA -> view (kmem_mem m3) N3 va = map_view (map_view (fun _ => 0) TRAMPOLINE 1 trampoline PERM_TRAMP) TRAPFRAME 1 tf PERM_TF va) ->
  pt_post m l tf m3 pg.
Proof.
  intros -> Htf Hpg He2 He3 Hf Hv. split; [exact Hf|]. right. exists l3, N3. pose proof (page_ok_pa _ Htf) as Hpa. pose proof trampoline_pa as Htr.
  rewrite MAXVA_val in Hv. unfold map_view in Hv. rewrite TRAPFRAME_val, TRAMPOLINE_val in Hv. unfold PGSIZE in Hv. split_and!; [done| |].
  - split.
    + apply user_pages_none; [apply He3| |].
      * intros va Hva. rewrite TRAPFRAME_val in Hva. rewrite Hv by lia. by rewrite !decide_False by lia.
      * intros va Hva. rewrite TRAPFRAME_val, MAXVA_val in Hva. rewrite Hv by lia. destruct (decide (_ <= va < _ + 1 * 4096)).
        -- replace (va / 4096 * 4096) with 274877898752 by dlia. rewrite Z.sub_diag, Z.add_0_r. apply mkpte_no_user; auto.
        -- rewrite decide_True by lia. replace (va / 4096 * 4096) with 274877902848 by dlia. rewrite Z.sub_diag, Z.add_0_r. apply mkpte_no_user; auto.
    + rewrite TRAMPOLINE_val, Hv by lia. rewrite decide_False, decide_True by lia. f_equal. change (274877902848 / 4096 * 4096) with 274877902848. lia.
    + rewrite TRAPFRAME_val, Hv by lia. rewrite decide_True by lia. f_equal. change (274877898752 / 4096 * 4096) with 274877898752. lia.
  - rewrite <- (ext_perm _ _ _ _ _ _ _ He3), <- (ext_perm _ _ _ _ _ _ _ He2). unfold node_pages. rewrite map_to_list_singleton. cbn. by rewrite Permutation_app_comm.
Qed.

(** Giving up: the new table goes back to the free list. *)
Lemma pt_undo c m m1 l l1 tf N1 pg (Q : cpu -> kmem -> Z -> Prop) : LKmem ∉ held c -> vm_inv m1 l1 pg N1 -> l ≡ₚ l1 ++ node_pages N1 ->
  frame_out l (kmem_mem m) (kmem_mem m1) -> (forall va, 0 <= va < MAXVA -> view (kmem_mem m1) N1 va = 0) ->
  (forall m' r, pt_post m l tf m' r -> Q c m' r) -> wp (uvmfree pg 0 ;; ret 0) c m1 Q.
Proof.
  intros Hc Hi Hp Hf Hv HQ. wp_step. eapply wp_uvmfree_none; [done|exact Hi|exact Hv|]. intros m2 l2 Hk2 Hl2 Hf2. wp_step. apply HQ. split.
  - eapply frame_out_trans; [exact Hf|]. eapply frame_out_mono; [|exact Hf2]. intros x Hx. rewrite Hp. set_solver.
  - left. split; [done|]. exists l2. split; [done|]. by rewrite Hl2, Hp.
Qed.

Lemma node_pages_singleton (pg : Z) : node_pages {[ [] := pg ]} = [pg].
Proof. unfold node_pages. by rewrite map_to_list_singleton. Qed.

Lemma wp_pagetable c m l tf (Q : cpu -> kmem -> Z -> Prop) : LKmem ∉ held c -> kmem_inv m l -> page_ok tf ->
  (forall m' r, pt_post m l tf m' r -> Q c m' r) ->
  wp (pagetable <- uvmcreate ;;
      if pagetable =? 0 then ret 0 else
      r <- mappages pagetable TRAMPOLINE PGSIZE trampoline (Z.lor PTE_R PTE_X) ;;
      if r <? 0 then uvmfree pagetable 0 ;; ret 0 else
      r <- mappages pagetable TRAPFRAME PGSIZE tf (Z.lor PTE_R PTE_W) ;;
      if r <? 0 then
        uvmunmap pagetable TRAMPOLINE 1 false ;;
        uvmfree pagetable 0 ;;
        ret 0
      else ret pagetable) c m Q.
Proof.
  intros Hc Hk Htf HQ. wp_step. eapply wp_uvmcreate; [done|exact Hk| |].
  { intros ->. cbn [Z.eqb]. wp_step. apply HQ. split; [apply frame_out_refl|]. left. split; [done|]. by exists []. }
  intros m1 pg l1 -> Hu1 Ho1. destruct Hk as (_ & Hnd & Hok). apply Forall_cons in Hok as [Hpg _]. pose proof (page_ok_pos _ Hpg) as Hpos. unfold KERNBASE in Hpos.
  rewrite (proj2 (Z.eqb_neq pg 0)) by lia. pose proof trampoline_pa as Htr. pose proof (page_ok_pa _ Htf) as Hpa.
  assert (frame_out (pg :: l1) (kmem_mem m) (kmem_mem m1)) as Hf1 by (eapply frame_out_page; [|exact Ho1]; set_solver).
  assert (trampoline + PGSIZE <= 2 ^ 56 /\ tf + PGSIZE <= 2 ^ 56) as [Htl Htfl].
  { pose proof trampoline_range. pose proof etext_range. pose proof kend_range. pose proof (page_ok_pos _ Htf). rewrite PHYSTOP_val in *. unfold PGSIZE in *. change (2 ^ 56) with 72057594037927936. lia. }
  wp_step. eapply wp_mappages1; [done|apply Hu1|done|apply high_range; auto|intros va _; rewrite empty_view; apply tst_0|].
  intros m2 r (l2 & N2 & k2 & He2 & Hk2 & Hv2 & Hr). assert (frame_out (pg :: l1) (kmem_mem m) (kmem_mem m2)) as Hf2.
  { eapply frame_out_trans; [exact Hf1|]. eapply frame_out_mono; [|by eapply vm_ext_frame_out]. rewrite node_pages_singleton. set_solver. }
  assert (pg :: l1 ≡ₚ l2 ++ node_pages N2) as Hp2 by (rewrite <- (ext_perm _ _ _ _ _ _ _ He2), node_pages_singleton; by rewrite Permutation_app_comm).
  destruct Hr as [[-> ->]|(-> & -> & Hlt)]; cbn [Z.ltb Z.compare].
  2: { assert (k2 = 0) as -> by lia. eapply (pt_undo c m m2 (pg :: l1) _ tf); [done|apply He2|exact Hp2|exact Hf2| |exact HQ]. intros va Hva. rewrite Hv2 by done. rewrite map_view_0. apply empty_view. }
  wp_step. eapply wp_mappages1; [done|apply He2|done|apply high_range; auto| |].
  { intros va Hva. rewrite TRAPFRAME_val in Hva. unfold PGSIZE in Hva. rewrite Hv2 by (rewrite MAXVA_val; lia). unfold map_view. rewrite TRAMPOLINE_val, decide_False by lia. rewrite empty_view. apply tst_0. }
  intros m3 r (l3 & N3 & k3 & He3 & Hk3 & Hv3 & Hr). assert (frame_out (pg :: l1) (kmem_mem m) (kmem_mem m3)) as Hf3.
  { eapply frame_out_trans; [exact Hf2|]. eapply frame_out_mono; [|by eapply vm_ext_frame_out]. intros x Hx. by rewrite Hp2. }
  assert (pg :: l1 ≡ₚ l3 ++ node_pages N3) as Hp3 by (by rewrite <- (ext_perm _ _ _ _ _ _ _ He3)).
  destruct Hr as [[-> ->]|(-> & -> & Hlt)]; cbn [Z.ltb Z.compare].
  - wp_step. apply HQ. eapply (pt_built m (pg :: l1) tf pg l1 m1 m2 l2 N2 m3 l3 N3); try done. intros va Hva. rewrite Hv3 by done. unfold map_view at 1 2. case_decide; [done|]. rewrite Hv2 by done. unfold map_view. by rewrite empty_view.
  - assert (k3 = 0) as -> by lia. wp_step. eapply (wp_uvmunmap pg TRAMPOLINE [trampoline] false c m3 [] N3); [done|apply He3|done|done|rewrite TRAMPOLINE_val, MAXVA_val; unfold PGSIZE; cbn; lia| |done|].
    { apply (high_leaf _ _ _ PERM_TRAMP); [done|by left|]. rewrite Hv3 by (rewrite TRAMPOLINE_val, MAXVA_val; lia). rewrite map_view_0, Hv2 by (rewrite TRAMPOLINE_val, MAXVA_val; lia).
      unfold map_view. rewrite TRAMPOLINE_val, decide_True by (unfold PGSIZE; lia). f_equal. change (274877902848 / 4096 * 4096) with 274877902848. lia. }
    intros m4 (Hi4 & Hv4 & Ho4). eapply (pt_undo c m m4 (pg :: l1) [] tf); [done|exact Hi4|exact Hp3| | |exact HQ].
    + intros b Hb. rewrite Ho4; [by apply Hf3| |].
      * intros (q & x & Hq & Hx). apply (Hb x); [|done]. rewrite Hp3, elem_of_app, elem_of_node_pages. eauto.
      * done.
    + intros va Hva. rewrite Hv4 by done. case_decide as Hd; [done|]. rewrite Hv3 by done. rewrite map_view_0, Hv2 by done. unfold map_view. cbn [length] in Hd. rewrite decide_False by lia. apply empty_view.
Qed.

(** Unmapping one of the high pages. *)
Lemma unmap_high m l root N us va pa m' : user_pages m l root N us -> va = TRAMPOLINE \/ va = TRAPFRAME -> unmap_post root m l N va [pa] false m' ->
  user_pages m' l root N us /\ frame_out (node_pages N) (kmem_mem m) (kmem_mem m') /\ view (kmem_mem m') N va = 0 /\
  (forall va', TRAPFRAME <= va' < MAXVA -> va' / 4096 <> va / 4096 -> view (kmem_mem m') N va' = view (kmem_mem m) N va').
Proof.
  intros Hu Hva (Hi & Hv & Ho). rewrite TRAMPOLINE_val, TRAPFRAME_val in Hva. rewrite MAXVA_val in Hv. unfold PGSIZE in Hv. cbn [length] in Hv. pose proof (up_bound _ _ _ _ _ Hu) as Hb. split_and!.
  - split; [exact Hi| |apply Hu|apply Hu| |].
    + intros i q perm Hq. pose proof (lookup_lt_Some _ _ _ Hq). unfold PGSIZE. rewrite Hv, decide_False by lia. by apply (up_map _ _ _ _ _ Hu).
    + intros va' Hva'. pose proof Hva' as Hr. rewrite TRAPFRAME_val in Hr. unfold PGSIZE in Hr. rewrite Hv, decide_False by lia. by apply (up_free _ _ _ _ _ Hu).
    + intros va' Hva'. pose proof Hva' as Hr. rewrite TRAPFRAME_val, MAXVA_val in Hr. rewrite Hv by lia. case_decide; [apply tst_0|by apply (up_high _ _ _ _ _ Hu)].
  - intros b Hb'. apply Ho; [|done]. intros (q & x & Hq & Hx). apply (Hb' x); [|done]. apply elem_of_node_pages. eauto.
  - rewrite Hv, decide_True by lia. done.
  - intros va' Hr Hne. rewrite TRAPFRAME_val, MAXVA_val in Hr. rewrite Hv, decide_False by dlia. done.
Qed.

Lemma wp_proc_freepagetable c m l root tf N us sz (Q : cpu -> kmem -> unit -> Prop) : LKmem ∉ held c -> aspace m l root tf N us -> pa_ok tf -> size_pages sz (length us) ->
  (forall m' l', kmem_inv m' l' -> l' ≡ₚ uv_pages l N us -> frame_out (node_pages N ++ us.*1) (kmem_mem m) (kmem_mem m') -> Q c m' tt) ->
  wp (proc_freepagetable root sz) c m Q.
Proof.
  intros Hc [Hu Htr Htf] Hpa Hsz HQ. unfold proc_freepagetable. pose proof trampoline_pa as Htp. wp_step.
  eapply (wp_uvmunmap root TRAMPOLINE [trampoline] false c m l N); [done|apply Hu|done|done|rewrite TRAMPOLINE_val, MAXVA_val; unfold PGSIZE; cbn; lia|by apply (high_leaf _ _ _ PERM_TRAMP); auto|done|].
  intros m1 Hm1. destruct (unmap_high _ _ _ _ _ _ _ _ Hu (or_introl eq_refl) Hm1) as (Hu1 & Hf1 & Hz1 & Hv1).
  wp_step. eapply (wp_uvmunmap root TRAPFRAME [tf] false c m1 l N); [done|apply Hu1|done|done|rewrite TRAPFRAME_val, MAXVA_val; unfold PGSIZE; cbn; lia| |done|].
  { apply (high_leaf _ _ _ PERM_TF); [done|by right|]. by rewrite Hv1 by done. }
  intros m2 Hm2. destruct (unmap_high _ _ _ _ _ _ _ _ Hu1 (or_intror eq_refl) Hm2) as (Hu2 & Hf2 & Hz2 & Hv2).
  eapply wp_uvmfree; [done|exact Hu2|exact Hsz| |].
  - intros va Hva. destruct (decide (va / 4096 = TRAPFRAME / 4096)) as [E|Hne]; [rewrite (view_page _ _ va TRAPFRAME E), Hz2; apply tst_0|]. rewrite Hv2 by done.
    rewrite (view_page _ _ va TRAMPOLINE), Hz1; [apply tst_0|]. rewrite TRAPFRAME_val, MAXVA_val in *. rewrite TRAMPOLINE_val. dlia.
  - intros m3 l3 Hk3 Hl3 Hf3. apply (HQ m3 l3); [done|done|]. eapply frame_out_trans; [|exact Hf3]. eapply frame_out_mono; [|eapply frame_out_trans; [exact Hf1|exact Hf2]]. set_solver.
Qed.
End space.
