(* ===== verification/FsFile.v ===== *)
(** The upper layers of the file system, kernel/fs.c: reading and writing the contents of an
    inode, directories, and path names. *)
From S2P Require Import Prelude Memory Riscv Kalloc Vm Sleeplock Bio Log Fs State Process.

(** * File contents *)

(** The result pairs the return value with the bytes that went to a kernel destination. The
    loop carries [tot], [off], [dst] and those bytes. *)
Definition readi (ip : nat) (dst : kdst) (off n : Z) : M kst (Z * list Z) :=
  x <- zoom fs_lens (get_inode ip) ;;
  if (off >? i_size x) || (u32 (off + n) <? off) then ret (0, []) else
  let n := if u32 (off + n) >? i_size x then u32 (i_size x - off) else n in
  loop (S (Z.to_nat n)) (fun st : Z * Z * kdst * list Z => let '(tot, off, dst, acc) := st in
    if tot <? n then
      addr <- zoom fs_lens (bmap ip (off / BSIZE)) ;;
      if addr =? 0 then ret (inr (s32 tot, acc)) else
      x <- zoom fs_lens (get_inode ip) ;;
      bp <- zoom fs_lens (fbread (i_dev x) addr) ;;
      let m := Z.min (n - tot) (BSIZE - off mod BSIZE) in
      d <- zoom fs_lens (fdata bp) ;;
      r <- either_copyout dst (drop (Z.to_nat (off mod BSIZE)) d) m ;;
      if fst r =? -1 then
        zoom fs_lens (fbrelse bp) ;;
        ret (inr (-1, acc))
      else
        zoom fs_lens (fbrelse bp) ;;
        let dst := match dst with DUser va => DUser (u64 (va + m)) | DKern => DKern end in
        ret (inl (u32 (tot + m), u32 (off + m), dst, acc ++ snd r))
    else ret (inr (s32 tot, acc))) (0, off, dst, []).

(** The loop carries [tot], [off] and [src], and leaves with the first two. The bytes a failed
    copy has already put in the buffer stay there. *)
Definition writei (ip : nat) (src : ksrc) (off n : Z) : M kst Z :=
  x <- zoom fs_lens (get_inode ip) ;;
  if (off >? i_size x) || (u32 (off + n) <? off) then ret (-1) else
  if u32 (off + n) >? MAXFILE * BSIZE then ret (-1) else
  r <- loop (S (Z.to_nat n)) (fun st : Z * Z * ksrc => let '(tot, off, src) := st in
    if tot <? n then
      addr <- zoom fs_lens (bmap ip (off / BSIZE)) ;;
      if addr =? 0 then ret (inr (tot, off)) else
      x <- zoom fs_lens (get_inode ip) ;;
      bp <- zoom fs_lens (fbread (i_dev x) addr) ;;
      let m := Z.min (n - tot) (BSIZE - off mod BSIZE) in
      r <- either_copyin src m ;;
      d <- zoom fs_lens (fdata bp) ;;
      zoom fs_lens (fstore bp (splice d (Z.to_nat (off mod BSIZE)) (snd r))) ;;
      if fst r =? -1 then
        zoom fs_lens (fbrelse bp) ;;
        ret (inr (tot, off))
      else
        zoom fs_lens (flog_write bp) ;;
        zoom fs_lens (fbrelse bp) ;;
        let src := match src with SUser va => SUser (u64 (va + m)) | SKern l => SKern (drop (Z.to_nat m) l) end in
        ret (inl (u32 (tot + m), u32 (off + m), src))
    else ret (inr (tot, off))) (0, off, src) ;;
  let '(tot, off) := r in
  x <- zoom fs_lens (get_inode ip) ;;
  (if off >? i_size x then zoom fs_lens (upd_inode ip (set_size off)) else ret tt) ;;
  zoom fs_lens (iupdate ip) ;;
  ret (s32 tot).

(** * Directories *)

(** [strncmp] and [strncpy] of kernel/string.c on character arrays; past its end an array
    reads as NUL. *)
Fixpoint strncmp_l (p q : list Z) (n : nat) : Z :=
  match n with
  | O => 0
  | S k =>
      let a := default 0 (head p) in
      let b := default 0 (head q) in
      if negb (a =? 0) && (a =? b) then strncmp_l (tail p) (tail q) k else u8 a - u8 b
  end.
Fixpoint strncpy_l (t : list Z) (n : nat) : list Z :=
  match n with
  | O => []
  | S k =>
      let a := default 0 (head t) in
      if a =? 0 then replicate (S k) 0 else a :: strncpy_l (tail t) k
  end.

Definition namecmp (s t : list Z) : Z := strncmp_l s t DIRSIZ.

(** [struct dirent]: a 16-bit inode number and the name. *)
Definition DIRENT : Z := 16.
Definition de_inum (de : list Z) : Z := get16 de 0.
Definition de_name (de : list Z) : list Z := take DIRSIZ (drop 2 de).
Definition mkdirent (inum : Z) (name : list Z) : list Z := u16 inum mod 256 :: u16 inum / 256 :: name.

(** [poff] is returned with the inode. *)
Definition dirlookup (dp : nat) (name : list Z) : M kst (option (nat * Z)) :=
  x <- zoom fs_lens (get_inode dp) ;;
  if negb (i_type x =? T_DIR) then panic "dirlookup not DIR" else
  loop (S (Z.to_nat (i_size x / DIRENT + 1))) (fun off =>
    x <- zoom fs_lens (get_inode dp) ;;
    if off <? i_size x then
      r <- readi dp DKern off DIRENT ;;
      let '(n, de) := r in
      if negb (n =? DIRENT) then panic "dirlookup read" else
      if de_inum de =? 0 then ret (inl (u32 (off + DIRENT))) else
      if namecmp name (de_name de) =? 0 then
        ip <- zoom fs_lens (iget (i_dev x) (de_inum de)) ;;
        ret (inr (Some (ip, off)))
      else ret (inl (u32 (off + DIRENT)))
    else ret (inr None)) 0.

Definition dirlink (dp : nat) (name : list Z) (inum : Z) : M kst Z :=
  r <- dirlookup dp name ;;
  match r with
  | Some (ip, _) => zoom fs_lens (iput ip) ;; ret (-1)
  | None =>
      x <- zoom fs_lens (get_inode dp) ;;
      off <- loop (S (Z.to_nat (i_size x / DIRENT + 1))) (fun off =>
        x <- zoom fs_lens (get_inode dp) ;;
        if off <? i_size x then
          r <- readi dp DKern off DIRENT ;;
          let '(n, de) := r in
          if negb (n =? DIRENT) then panic "dirlink read" else
          if de_inum de =? 0 then ret (inr off) else ret (inl (off + DIRENT))
        else ret (inr off)) 0 ;;
      n <- writei dp (SKern (mkdirent inum (strncpy_l name DIRSIZ))) off DIRENT ;;
      if negb (n =? DIRENT) then ret (-1) else ret 0
  end.

(** * Paths *)

Definition slash : Z := 47.

Fixpoint skip_slashes (path : list Z) : list Z :=
  match path with
  | c :: path' => if c =? slash then skip_slashes path' else path
  | [] => []
  end.

(** The characters up to the next slash or the end, and the rest. *)
Fixpoint span_elem (path : list Z) : list Z * list Z :=
  match path with
  | c :: path' => if (c =? slash) || (c =? 0) then ([], path)
                  else let '(e, r) := span_elem path' in (c :: e, r)
  | [] => ([], [])
  end.

(** [path] is a string, its end (or a NUL) the end of the path; [name] is the caller's array,
    of which only the bytes written change. *)
Definition skipelem (path name : list Z) : option (list Z * list Z) :=
  let path := skip_slashes path in
  if default 0 (head path) =? 0 then None else
  let '(s, path) := span_elem path in
  let len := length s in
  let name := if Nat.leb DIRSIZ len then take DIRSIZ s else s ++ 0 :: drop (S len) name in
  Some (skip_slashes path, name).

(** The inode with the final path element, when the parent is asked for. *)
Definition namex (path : list Z) (nameiparent : bool) (name : list Z) : M kst (option (nat * list Z)) :=
  ip <- (if default 0 (head path) =? slash then zoom fs_lens (iget ROOTDEV ROOTINO)
         else p <- myproc ;; x <- get_proc p ;; zoom fs_lens (idup (default 0%nat (p_cwd x)))) ;;
  loop (S (length path)) (fun st : nat * list Z * list Z => let '(ip, path, name) := st in
    match skipelem path name with
    | Some (path, name) =>
        zoom fs_lens (ilock (Some ip)) ;;
        x <- zoom fs_lens (get_inode ip) ;;
        if negb (i_type x =? T_DIR) then
          zoom fs_lens (iunlockput (Some ip)) ;;
          ret (inr None)
        else if nameiparent && (default 0 (head path) =? 0) then
          zoom fs_lens (iunlock (Some ip)) ;;
          ret (inr (Some (ip, name)))
        else
          r <- dirlookup ip name ;;
          match r with
          | None =>
              zoom fs_lens (iunlockput (Some ip)) ;;
              ret (inr None)
          | Some (next, _) =>
              zoom fs_lens (iunlockput (Some ip)) ;;
              ret (inl (next, path, name))
          end
    | None =>
        if nameiparent then
          zoom fs_lens (iput ip) ;;
          ret (inr None)
        else ret (inr (Some (ip, name)))
    end) (ip, path, name).

(** An uninitialised [char name[DIRSIZ]] holds anything; its contents are never read before
    they are written. *)
Definition name0 : list Z := replicate DIRSIZ 0.

Definition namei (path : list Z) : M kst (option nat) :=
  r <- namex path false name0 ;;
  ret (fst <$> r).

Definition nameiparent (path : list Z) : M kst (option (nat * list Z)) := namex path true name0.
