(* ===== verification/Mkfs.v ===== *)
(** mkfs/mkfs.c: the program that builds the file-system image on the host.

    The image is a file of sectors; a [struct] is here its values, which [put32] and [put16]
    store in the byte order of RISC-V, so that [xint] and [xshort] keep their low 32 and 16
    bits. A sector that was not written reads as zeros. *)
From S2P Require Import Prelude Sleeplock Bio Log Fs FsFile.

Definition FSSIZE : Z := 2000.
Definition NINODES : Z := 200.

Definition nbitmap : Z := FSSIZE / (BSIZE * 8) + 1.
Definition ninodeblocks : Z := NINODES / IPB + 1.
Definition nlog : Z := LOGSIZE.
(** Number of meta blocks (boot, sb, nlog, inode, bitmap), number of data blocks. *)
Definition nmeta : Z := 2 + nlog + ninodeblocks + nbitmap.
Definition nblocks : Z := FSSIZE - nmeta.
Definition zeroes : block := replicate (Z.to_nat BSIZE) 0.

(** The image file, its length in sectors, and the globals. *)
Record mkst := mkmk { m_img : Z -> block; m_secs : Z; m_sb : superblock; m_freeinode : Z; m_freeblock : Z }.

Definition xshort (x : Z) : Z := u16 x.
Definition xint (x : Z) : Z := u32 x.

Definition wsect (sec : Z) (buf : block) : M mkst unit :=
  modify (fun s => mkmk (dset (m_img s) sec buf) (Z.max (m_secs s) (sec + 1)) (m_sb s) (m_freeinode s) (m_freeblock s)).

(** Behind the end of the image [read] returns less than a sector. *)
Definition rsect (sec : Z) : M mkst block :=
  n <- gets m_secs ;;
  if sec <? n then gets (fun s => m_img s sec) else panic "read".

Definition winode (inum : Z) (ip : inode) : M mkst unit :=
  sb <- gets m_sb ;;
  let bn := IBLOCK inum sb in
  buf <- rsect bn ;;
  wsect bn (put_dinode buf (ioff inum) ip).

(** [struct dinode] of the disk is the last six fields of an [inode]. *)
Definition dino0 : inode := mkinode 0 0 0 (mksleep 0 0) 0 0 0 0 0 0 (replicate 13 0).

Definition rinode (inum : Z) : M mkst inode :=
  sb <- gets m_sb ;;
  buf <- rsect (IBLOCK inum sb) ;;
  ret (get_dinode buf (ioff inum) dino0).

Definition next_inode : M mkst Z :=
  x <- gets m_freeinode ;;
  modify (fun s => mkmk (m_img s) (m_secs s) (m_sb s) (u32 (x + 1)) (m_freeblock s)) ;;
  ret x.
Definition next_block : M mkst Z :=
  x <- gets m_freeblock ;;
  modify (fun s => mkmk (m_img s) (m_secs s) (m_sb s) (m_freeinode s) (u32 (x + 1))) ;;
  ret x.

Definition ialloc (type : Z) : M mkst Z :=
  inum <- next_inode ;;
  winode inum (set_size (xint 0) (set_nlink (xshort 1) (set_type (xshort type) dino0))) ;;
  ret inum.

(** The bitmap with the first [used] bits set. *)
Fixpoint bitmap (used : nat) : block :=
  match used with O => zeroes | S i => set_bit (bitmap i) (Z.of_nat i) end.

Definition balloc (used : Z) : M mkst unit :=
  if negb (used <? BSIZE * 8) then panic "assert" else
  sb <- gets m_sb ;;
  wsect (sb_bmapstart sb) (bitmap (Z.to_nat used)).

(** The block of the image for block [fbn] of a file, allocated if there is none; with the
    inode, which may have a new address. *)
Definition file_block (din : inode) (fbn : Z) : M mkst (inode * Z) :=
  if fbn <? NDIRECT then
    din <- (if xint (addr_at din fbn) =? 0 then b <- next_block ;; ret (set_addr fbn (xint b) din) else ret din) ;;
    ret (din, xint (addr_at din fbn))
  else
    din <- (if xint (addr_at din NDIRECT) =? 0 then b <- next_block ;; ret (set_addr NDIRECT (xint b) din) else ret din) ;;
    let ind := xint (addr_at din NDIRECT) in
    let k := (4 * Z.to_nat (fbn - NDIRECT))%nat in
    indirect <- rsect ind ;;
    indirect <- (if get32 indirect k =? 0 then
        b <- next_block ;;
        wsect ind (put32 indirect k (xint b)) ;;
        ret (put32 indirect k (xint b))
      else ret indirect) ;;
    ret (din, xint (get32 indirect k)).

(** The loop of [iappend]; [p] is what is left to append. *)
Definition append_body (st : inode * Z * list Z) : M mkst (inode * Z * list Z + inode * Z) :=
  let '(din, off, p) := st in
  if Z.of_nat (length p) >? 0 then
    let fbn := off / BSIZE in
    if negb (fbn <? MAXFILE) then panic "assert" else
    r <- file_block din fbn ;;
    let '(din, x) := r in
    let n1 := Z.min (Z.of_nat (length p)) ((fbn + 1) * BSIZE - off) in
    buf <- rsect x ;;
    wsect x (splice buf (Z.to_nat (off - fbn * BSIZE)) (take (Z.to_nat n1) p)) ;;
    ret (inl (din, off + n1, drop (Z.to_nat n1) p))
  else ret (inr (din, off)).

Definition iappend (inum : Z) (p : list Z) : M mkst unit :=
  din <- rinode inum ;;
  r <- loop (S (length p)) append_body (din, xint (i_size din), p) ;;
  let '(din, off) := r in
  winode inum (set_size (xint off) din).

(** * [main] *)

(** A file of the host: its path, and what the calls of [read] return, [None] if it cannot be
    opened. *)
Record hfile := mkhfile { h_path : list Z; h_reads : option (list (list Z)) }.

Definition user_slash : list Z := bytes_of "user/".

(** The name without [user/] and without a leading underscore. *)
Definition basename (path : list Z) : list Z := if strncmp_l path user_slash 5 =? 0 then drop 5 path else path.
Definition shortname (path : list Z) : list Z :=
  match basename path with c :: r => if c =? 95 then r else c :: r | [] => [] end.

(** [while((cc = read(fd, buf, sizeof(buf))) > 0)] *)
Fixpoint copy_file (inum : Z) (reads : list (list Z)) : M mkst unit :=
  match reads with
  | [] => ret tt
  | buf :: reads => if Z.of_nat (length buf) >? 0 then iappend inum buf ;; copy_file inum reads else ret tt
  end.

Definition add_file (rootino : Z) (f : hfile) : M mkst unit :=
  if existsb (fun c => c =? 47) (basename (h_path f)) then panic "assert" else
  match h_reads f with
  | None => panic "die"
  | Some reads =>
      inum <- ialloc T_FILE ;;
      iappend rootino (mkdirent (xshort inum) (strncpy_l (shortname (h_path f)) DIRSIZ)) ;;
      copy_file inum reads
  end.

Fixpoint add_files (rootino : Z) (files : list hfile) : M mkst unit :=
  match files with [] => ret tt | f :: files => add_file rootino f ;; add_files rootino files end.

(** [for(i = 0; i < FSSIZE; i++) wsect(i, zeroes);] *)
Fixpoint clear_image (n : nat) (i : Z) : M mkst unit :=
  match n with O => ret tt | S n => wsect i zeroes ;; clear_image n (i + 1) end.

Definition the_sb : superblock :=
  mksb FSMAGIC (xint FSSIZE) (xint nblocks) (xint NINODES) (xint nlog) (xint 2) (xint (2 + nlog)) (xint (2 + nlog + ninodeblocks)).

(** [memmove(buf, &sb, sizeof(sb))] *)
Definition put_sb (d : block) (sb : superblock) : block :=
  put_addrs d 0 [sb_magic sb; sb_size sb; sb_nblocks sb; sb_ninodes sb; sb_nlog sb; sb_logstart sb; sb_inodestart sb; sb_bmapstart sb].

(** A name of a directory entry that was filled with zeros. *)
Definition dot (name : list Z) : list Z := name ++ replicate (DIRSIZ - length name) 0.

(** The arguments behind the name of the image, which is open for writing and empty. *)
Definition main (files : list hfile) : M mkst unit :=
  modify (fun s => mkmk (m_img s) (m_secs s) the_sb (m_freeinode s) nmeta) ;;
  clear_image (Z.to_nat FSSIZE) 0 ;;
  wsect 1 (put_sb zeroes the_sb) ;;
  rootino <- ialloc T_DIR ;;
  if negb (rootino =? ROOTINO) then panic "assert" else
  iappend rootino (mkdirent (xshort rootino) (dot [46])) ;;
  iappend rootino (mkdirent (xshort rootino) (dot [46; 46])) ;;
  add_files rootino files ;;
  din <- rinode rootino ;;
  let off := xint (i_size din) in
  let off := (off / BSIZE + 1) * BSIZE in
  winode rootino (set_size (xint off) din) ;;
  used <- gets m_freeblock ;;
  balloc (s32 used).

(** Where the program starts. *)
Definition mkfs_start : mkst := mkmk (fun _ => zeroes) 0 (mksb 0 0 0 0 0 0 0 0) 1 0.
