(* ===== verification/FsPath.v ===== *)
(** Names and paths: what [namecmp] compares, and how [skipelem] splits a path. *)
From S2P Require Import Prelude Sleeplock Bio Log Fs State Process FsFile.

(** The string in a character array of size [n]: up to a NUL or the end. *)
Fixpoint cstr (n : nat) (l : list Z) : list Z :=
  match n, l with
  | S n', c :: l' => if c =? 0 then [] else c :: cstr n' l'
  | _, _ => []
  end.

Definition byte (c : Z) : Prop := 0 <= c < 256.

Lemma byte_u8 c : byte c -> u8 c = c.
Proof. apply u8_small. Qed.

(** [strncmp] is zero exactly on equal strings. *)
Lemma strncmp_l_eq n p q : Forall byte p -> Forall byte q -> strncmp_l p q n = 0 <-> cstr n p = cstr n q.
Proof.
  assert (byte 0) as H0 by (unfold byte; lia).
  revert p q. induction n as [|n IH]; intros p q Hp Hq; simpl; [by destruct p, q|].
  destruct p as [|a p], q as [|b q]; simpl; repeat match goal with H : Forall _ (_ :: _) |- _ => apply Forall_cons in H as [? ?] end;
    rewrite ?byte_u8 by done.
  - done.
  - destruct (Z.eqb_spec b 0) as [->|]; [done|]. split; [lia|done].
  - rewrite andb_comm. destruct (Z.eqb_spec a 0) as [->|]; simpl; [done|]. split; [lia|done].
  - destruct (Z.eqb_spec a 0) as [->|Ha]; simpl.
    + destruct (Z.eqb_spec b 0) as [->|Hb]; [done|]. split; [lia|done].
    + destruct (Z.eqb_spec a b) as [<-|Hab].
      * rewrite (proj2 (Z.eqb_neq a 0)), IH by done. split; [by intros ->|by intros [= ->]].
      * split; [lia|]. destruct (Z.eqb_spec b 0); [done|]. by intros [= -> _].
Qed.

Lemma cstr_length n l : (length (cstr n l) <= n)%nat.
Proof. revert l. induction n as [|n IH]; intros [|c l]; simpl; try lia. destruct (c =? 0); simpl; [lia|]. specialize (IH l). lia. Qed.

(** ** Paths *)

(** The pieces of a path between slashes, some of them empty. *)
Fixpoint path_words (p : list Z) : list (list Z) :=
  match p with
  | [] => [[]]
  | c :: p' =>
      if c =? 0 then [[]]
      else if c =? slash then [] :: path_words p'
      else match path_words p' with w :: ws => (c :: w) :: ws | [] => [[c]] end
  end.
(** The elements of a path: the pieces that are not empty, cut to the length of a name. *)
Definition elements (p : list Z) : list (list Z) := take DIRSIZ <$> filter (fun w => w <> []) (path_words p).

Lemma path_words_cons p : exists w ws, path_words p = w :: ws.
Proof.
  destruct p as [|c p]; simpl; [eauto|]. destruct (c =? 0); [eauto|]. destruct (c =? slash); [eauto|].
  destruct (path_words p); eauto.
Qed.

Lemma path_words_skip p : filter (fun w => w <> []) (path_words (skip_slashes p)) = filter (fun w => w <> []) (path_words p).
Proof.
  induction p as [|c p IH]; [done|]. cbn [skip_slashes path_words]. destruct (Z.eqb_spec c slash) as [->|Hc].
  2: { cbn [path_words]. by rewrite (proj2 (Z.eqb_neq c slash) Hc). }
  change (slash =? 0) with false. cbv iota. rewrite filter_cons_False by auto. done.
Qed.
Lemma elements_skip p : elements (skip_slashes p) = elements p.
Proof. unfold elements. by rewrite path_words_skip. Qed.

Lemma skip_slashes_length p : (length (skip_slashes p) <= length p)%nat.
Proof. induction p as [|c p IH]; simpl; [done|]. destruct (c =? slash); simpl; lia. Qed.

Lemma skip_slashes_head p : default 0 (head (skip_slashes p)) <> slash.
Proof. induction p as [|c p IH]; simpl; [done|]. destruct (Z.eqb_spec c slash); [done|]. done. Qed.

Lemma span_elem_words p e r : span_elem p = (e, r) ->
  exists ws, path_words p = e :: ws /\ (default 0 (head r) = slash \/ default 0 (head r) = 0) /\
    filter (fun w => w <> []) ws = filter (fun w => w <> []) (path_words r) /\ length p = (length e + length r)%nat.
Proof.
  revert e r. induction p as [|c p IH]; intros e r; simpl.
  - intros [= <- <-]. exists []. split_and!; try done. by right.
  - destruct (Z.eqb_spec c 0) as [->|Hc0].
    + rewrite orb_true_r. intros [= <- <-]. exists []. split_and!; try done. by right.
    + rewrite orb_false_r. destruct (Z.eqb_spec c slash) as [->|Hcs].
      * intros [= <- <-]. exists (path_words p). split_and!; [done|by left| |done]. cbn [path_words].
        change (slash =? 0) with false. change (slash =? slash) with true. cbv iota. by rewrite filter_cons_False by auto.
      * destruct (span_elem p) as [e' r'] eqn:E. intros [= <- <-]. destruct (IH e' r' eq_refl) as (ws & -> & H1 & H2 & H3).
        exists ws. split_and!; try done. simpl. lia.
Qed.

Lemma span_elem_clean p e r : span_elem p = (e, r) -> Forall (fun c => c <> 0) e.
Proof.
  revert e r. induction p as [|c p IH]; intros e r; simpl; [by intros [= <- <-]|].
  destruct (Z.eqb_spec c slash); simpl; [by intros [= <- <-]|]. destruct (Z.eqb_spec c 0); [by intros [= <- <-]|].
  destruct (span_elem p) as [e' r'] eqn:E. intros [= <- <-]. constructor; [done|]. by eapply IH.
Qed.

Lemma cstr_clean n e : Forall (fun c => c <> 0) e -> (n <= length e)%nat -> cstr n e = take n e.
Proof.
  revert e. induction n as [|n IH]; intros e He Hl; [done|]. destruct e as [|c e]; simpl in *; [lia|].
  apply Forall_cons in He as [Hc He]. rewrite (proj2 (Z.eqb_neq c 0)) by done. f_equal. apply IH; [done|lia].
Qed.
Lemma cstr_nul n e r : Forall (fun c => c <> 0) e -> (length e < n)%nat -> cstr n (e ++ 0 :: r) = e.
Proof.
  revert e. induction n as [|n IH]; intros e He Hl; [lia|]. destruct e as [|c e]; simpl in *; [done|].
  apply Forall_cons in He as [Hc He]. rewrite (proj2 (Z.eqb_neq c 0)) by done. f_equal. apply IH; [done|lia].
Qed.
Lemma cstr_take n e : cstr n (take n e) = cstr n e.
Proof. revert e. induction n as [|n IH]; intros [|c e]; simpl; try done. by rewrite IH. Qed.

(** [skipelem] takes the first element of the path and leaves a shorter path. *)
Lemma skipelem_spec p name :
  match skipelem p name with
  | None => elements p = []
  | Some (p', name') => elements p = cstr DIRSIZ name' :: elements p' /\ (length p' < length p)%nat /\
      default 0 (head p') <> slash
  end.
Proof.
  unfold skipelem. pose proof (elements_skip p) as Hes. pose proof (skip_slashes_head p) as Hh. pose proof (skip_slashes_length p) as Hl.
  destruct (Z.eqb_spec (default 0 (head (skip_slashes p))) 0) as [H0|H0].
  - rewrite <- Hes. unfold elements. destruct (skip_slashes p) as [|c q]; [done|]. simpl in H0. subst c. done.
  - destruct (span_elem (skip_slashes p)) as [e r] eqn:E. destruct (span_elem_words _ _ _ E) as (ws & Hw & Hr & Hf & Hlen).
    pose proof (span_elem_clean _ _ _ E) as Hc.
    assert (e <> []) as He. { intros ->. destruct (skip_slashes p) as [|c q]; [done|]. simpl in *.
      destruct (Z.eqb_spec c slash); [done|]. destruct (Z.eqb_spec c 0); [done|]. destruct (span_elem q). done. }
    split_and!; [|pose proof (skip_slashes_length r); destruct e; [done|]; simpl in *; lia|apply skip_slashes_head].
    rewrite <- Hes. unfold elements. rewrite Hw, filter_cons_True by done. rewrite fmap_cons, path_words_skip, Hf. f_equal.
    destruct (Nat.leb_spec DIRSIZ (length e)).
    + rewrite cstr_take. symmetry. by apply cstr_clean.
    + rewrite cstr_nul by done. by rewrite take_ge by lia.
Qed.

(** At the end of the path [*path] is NUL. *)
Lemma elements_end p : default 0 (head p) <> slash -> default 0 (head p) = 0 <-> elements p = [].
Proof.
  intros Hs. destruct p as [|c p]; simpl in *; [done|]. unfold elements. cbn [path_words]. destruct (Z.eqb_spec c 0) as [->|Hc]; [done|].
  rewrite (proj2 (Z.eqb_neq c slash)) by done. split; [done|]. destruct (path_words p) as [|w ws]; by rewrite filter_cons_True.
Qed.

Lemma skip_slashes_bytes p : Forall byte p -> Forall byte (skip_slashes p).
Proof. induction 1; simpl; [done|]. case_match; [done|by constructor]. Qed.
Lemma span_elem_bytes p : Forall byte p -> Forall byte (span_elem p).1 /\ Forall byte (span_elem p).2.
Proof.
  induction 1 as [|c p Hc Hp [IH1 IH2]]; simpl; [done|]. case_match; simpl; [split; [done|by constructor]|].
  destruct (span_elem p); simpl in *. split; [by constructor|done].
Qed.
Lemma skipelem_bytes p name p' name' : Forall byte p -> Forall byte name -> skipelem p name = Some (p', name') ->
  Forall byte p' /\ Forall byte name'.
Proof.
  intros Hp Hn. unfold skipelem. case_match; [done|]. pose proof (span_elem_bytes _ (skip_slashes_bytes _ Hp)) as [H1 H2].
  destruct (span_elem (skip_slashes p)) as [e r]. simpl in *. intros [= <- <-]. split; [by apply skip_slashes_bytes|].
  case_match; [by apply Forall_take|]. apply Forall_app. split; [done|]. constructor; [unfold byte; lia|by apply Forall_drop].
Qed.
