(* ===== verification/FsIo.v ===== *)
(** Reading and writing the contents of an inode: [readi] returns the bytes of the file,
    [writei] changes exactly the bytes it is asked to and nothing else. *)
From S2P Require Import Prelude Memory Riscv Kalloc Vm Sleeplock Bio BioInv BioSpec Log LogPure LogSpec LogTxn Fs FsTxn FsDisk FsAlloc FsGrow FsInode State Process FsFile.

#[local] Arguments loop : simpl never.

(** The [n] bytes of a file from [off]. *)
Definition fslice (V : Z -> block) (l : list Z) (off : Z) (n : nat) : list Z :=
  (fun p => fbyte V l (off + Z.of_nat p)) <$> seq 0 n.

Lemma length_fslice V l off n : length (fslice V l off n) = n.
Proof. unfold fslice. by rewrite length_fmap, length_seq. Qed.

Lemma lookup_fslice V l off n i : (i < n)%nat -> fslice V l off n !! i = Some (fbyte V l (off + Z.of_nat i)).
Proof. intros Hi. unfold fslice. by rewrite list_lookup_fmap, lookup_seq_lt by done. Qed.

Lemma fslice_app V l off n m : fslice V l off (n + m) = fslice V l off n ++ fslice V l (off + Z.of_nat n) m.
Proof.
  unfold fslice. rewrite seq_app, fmap_app. f_equal. rewrite Nat.add_0_l.
  rewrite <- (Nat.add_0_r n) at 1. rewrite <- fmap_add_seq, <- list_fmap_compose. apply list_fmap_ext. intros i x _. simpl. f_equal. lia.
Qed.

(** A piece within one block. *)
Lemma fslice_block V l off m : 0 <= off -> 0 <= m <= BSIZE - off mod BSIZE ->
  let a := slot V l (fslot (off / BSIZE)) in a <> 0 -> length (V a) = Z.to_nat BSIZE ->
  take (Z.to_nat m) (drop (Z.to_nat (off mod BSIZE)) (V a)) = fslice V l off (Z.to_nat m).
Proof.
  intros Hoff Hm a Ha Hl. pose proof (Z.mod_pos_bound off BSIZE ltac:(done)). change BSIZE with 1024 in *.
  apply list_eq. intros i. destruct (decide (i < Z.to_nat m)%nat) as [Hi|Hi].
  - rewrite lookup_take_lt, lookup_drop, lookup_fslice by lia. unfold fbyte. change BSIZE with 1024.
    replace ((off + Z.of_nat i) / 1024) with (off / 1024) by dlia. fold a. rewrite (proj2 (Z.eqb_neq a 0)) by done. unfold get8.
    replace (Z.to_nat ((off + Z.of_nat i) mod 1024)) with (Z.to_nat (off mod 1024) + i)%nat by dlia.
    destruct (lookup_lt_is_Some_2 (V a) (Z.to_nat (off mod 1024) + i)) as [y ->]; [rewrite Hl; lia|done].
  - rewrite lookup_take_ge by lia. symmetry. apply lookup_ge_None. rewrite length_fslice. lia.
Qed.

Lemma fbyte_same_block V l pos a : slot V l (fslot (pos / BSIZE)) = a -> a <> 0 -> fbyte V l pos = get8 (V a) (Z.to_nat (pos mod BSIZE)).
Proof. intros Hs Ha. unfold fbyte. rewrite Hs. by rewrite (proj2 (Z.eqb_neq a 0)). Qed.

(** File-system steps of the whole kernel. *)
Lemma wp_fs {A} (m : M fsst A) c f s (Q : cpu -> kst -> A -> Prop) :
  wp m c f (fun c' f' a => Q c' (set_fs f' s) a) -> wp (zoom fs_lens m) c (set_fs f s) Q.
Proof. intros H. apply wp_zoom. exact H. Qed.

Section io.
Context (dv start size : Z) (sb : superblock) (K : fconst) `{G : !FsGeo dv start size sb}.
Abbreviation ftx := (ftx dv start size sb K).
Abbreviation used := (used sb).
Abbreviation fsok := (fsok sb).
Abbreviation grow := (grow sb).

(** How many bytes [readi] reads. *)
Definition read_len (sz off n : Z) : Z :=
  if (off >? sz) || (off + n >=? 4294967296) then 0 else Z.min n (sz - off).

Lemma wp_readi pid c f s T V D F I ip inum off n (Q : cpu -> kst -> Z * list Z -> Prop) :
  lcpu c -> curpid c = pid -> ftx pid f T V D F [] [] -> fsok I V -> I inum = core (T ip) -> 0 <= inum < sb_ninodes sb ->
  i_dev (T ip) = dv -> 0 <= off < 4294967296 -> 0 <= n < 2147483648 ->
  let m := read_len (i_size (T ip)) off n in
  (forall c' f', same_cpu c c' -> ftx pid f' T V D F [] [] ->
     Q c' (set_fs f' s) (m, fslice V (i_addrs (T ip)) off (Z.to_nat m))) ->
  wp (readi ip DKern off n) c (set_fs f s) Q.
Proof.
  intros Hc Hp Hx Hok Hn Hi Hd Hoff Hnn m HQ. pose proof (geo_bounds sb) as Hg.
  pose proof (ok_node _ _ _ Hok inum Hi) as (_ & _ & _ & _ & Hsz & Hl & _). rewrite Hn in Hsz, Hl. cbn [core d_size d_addrs] in *.
  pose proof (ok_size _ _ _ Hok inum Hi) as Hmax. rewrite Hn in Hmax. cbn [core d_size] in Hmax.
  unfold readi. wp_step. apply wp_fs. eapply (wp_get_inode dv start size sb K); [exact Hx|].
  assert (Hr : ((off >? i_size (T ip)) || (u32 (off + n) <? off)) = ((off >? i_size (T ip)) || (off + n >=? 4294967296))).
  { destruct (Z.gtb_spec off (i_size (T ip))); [done|]. simpl. rewrite Z.geb_leb. destruct (Z.leb_spec 4294967296 (off + n)).
    - apply Z.ltb_lt. unfold u32. rewrite <- (Z.mod_add _ (-1)) by lia. rewrite Z.mod_small; lia.
    - rewrite u32_small by lia. apply Z.ltb_ge. lia. }
  rewrite Hr. unfold read_len in m. destruct ((off >? i_size (T ip)) || (off + n >=? 4294967296)) eqn:E.
  { wp_step. by apply HQ. }
  apply orb_false_elim in E as [E1 E2]. rewrite Z.gtb_ltb, Z.ltb_ge in E1. rewrite Z.geb_leb, Z.leb_gt in E2.
  rewrite (u32_small (off + n)) by lia.
  assert ((if off + n >? i_size (T ip) then u32 (i_size (T ip) - off) else n) = m) as ->.
  { unfold m. destruct (Z.gtb_spec (off + n) (i_size (T ip))); [rewrite u32_small by lia|]; lia. }
  assert (0 <= m < 2147483648 /\ off + m <= i_size (T ip)) as [Hm Hom] by lia. clearbody m. clear E2 Hr.
  eapply (wp_loop (fun st c' s' => exists tot f', st = (tot, off + tot, DKern, fslice V (i_addrs (T ip)) off (Z.to_nat tot)) /\
    0 <= tot <= m /\ same_cpu c c' /\ s' = set_fs f' s /\ ftx pid f' T V D F [] [])
    (fun st => Z.to_nat (m - st.1.1.1))); [|simpl; lia|].
  2: { exists 0, f. split_and!; try done; try lia. by rewrite Z.add_0_r. }
  intros st c1 s1 (tot & f1 & -> & Htot & Hcc & -> & Hx1). cbn [fst snd].
  assert (lcpu c1) as Hc1 by (by eapply same_lcpu). assert (curpid c1 = pid) as Hp1 by (destruct Hcc as (_ & -> & _); done).
  destruct (Z.ltb_spec tot m) as [Hlt|Hge].
  2: { replace tot with m by lia. wp_step. rewrite s32_small by lia. by apply HQ. }
  set (o := off + tot). change BSIZE with 1024 in *. change (MAXFILE * 1024) with 274432 in Hmax.
  assert (0 <= o / 1024 < MAXFILE) as Hbn by (change MAXFILE with 268; subst o; dlia).
  assert (slot V (i_addrs (T ip)) (fslot (o / 1024)) <> 0) as Hs.
  { pose proof (ok_holes _ _ _ Hok inum (o / 1024) Hi) as Hh. rewrite Hn in Hh. cbn [core d_size d_addrs] in Hh.
    apply Hh; [lia|]. change BSIZE with 1024. subst o. dlia. }
  wp_step. apply wp_fs. eapply (wp_bmap_found dv start size sb K); [done|done|exact Hx1|exact Hok|done|done|done|done|done|].
  intros c2 f2 Hcc2 Hx2. rewrite (proj2 (Z.eqb_neq _ _) Hs). set (a := slot V (i_addrs (T ip)) (fslot (o / 1024))) in *.
  assert (lcpu c2) as Hc2 by (by eapply same_lcpu). assert (curpid c2 = pid) as Hp2 by (destruct Hcc2 as (_ & -> & _); done).
  assert (refers sb I V inum (fslot (o / 1024)) a) as Hra.
  { destruct (fslot_range _ Hbn) as [? _]. split_and!; try done; try lia. by rewrite Hn. }
  destruct (ok_ref _ _ _ Hok _ _ _ Hra) as [Hrg _].
  wp_step. apply wp_fs. eapply (wp_get_inode dv start size sb K); [exact Hx2|]. rewrite Hd.
  wp_step. apply wp_fs. eapply (wp_fbread dv start size sb K); [done|done|exact Hx2|lia|apply not_elem_of_nil|simpl; lia|]. intros f3 i Hx3.
  wp_step. apply wp_fs. eapply (wp_fdata dv start size sb K); [exact Hx3|by left|].
  pose proof (Z.mod_pos_bound o 1024 ltac:(lia)) as Hmod. set (w := Z.min (m - tot) (1024 - o mod 1024)).
  unfold either_copyout, myproc, get_proc. wp_step. wp_step. wp_step. wp_step. wp_step. wp_step. cbn [fst snd Z.eqb].
  wp_step. apply wp_fs. eapply (wp_fbrelse dv start size sb K); [done|done|exact Hx3|apply not_elem_of_nil|]. intros c4 f4 Hcc4 Hx4. wp_step.
  rewrite !u32_small by lia. split; [|cbn [fst]; lia]. exists (tot + w), f4. split_and!; try lia; try done.
  - f_equal; [f_equal; f_equal; lia|]. 
    assert (take (Z.to_nat w) (drop (Z.to_nat (o mod 1024)) (V a)) = fslice V (i_addrs (T ip)) o (Z.to_nat w)) as ->
      by (apply fslice_block; [lia|change BSIZE with 1024; lia|done|apply Hok; change (sb_inodestart sb <= a); lia]).
    replace (Z.to_nat (tot + w)) with (Z.to_nat tot + Z.to_nat w)%nat by lia. rewrite fslice_app. do 2 f_equal. lia.
  - eapply same_cpu_trans; [done|]. by eapply same_cpu_trans.
Qed.

(** ** Writing *)

(** The number of blocks of a file a write of [n] bytes at [off] touches. *)
Definition touched (off n : Z) : Z := if n =? 0 then 0 else (off + n - 1) / BSIZE - off / BSIZE + 1.

(** The length of the piece of the write at [off + tot] in its block. *)
Definition piece (off n tot : Z) : Z := Z.min (n - tot) (BSIZE - (off + tot) mod BSIZE).

(** After the first [tot] of the [n] bytes [data]. *)
Record written (off n tot : Z) (data : list Z) (T : nat -> inode) (V : Z -> block) (F : list Z) (I : Z -> dinode) (ip : nat) (inum : Z)
    (T' : nat -> inode) (V' : Z -> block) (F' : list Z) (I' : Z -> dinode) : Prop := {
  wr_other j : j <> inum -> I' j = I j;
  wr_tab i : i <> ip -> T' i = T i;
  wr_node : exists l, T' ip = set_addrs l (T ip);
  wr_low b : b < sb_bmapstart sb -> V' b = V b;
  wr_bytes j pos : 0 <= j < sb_ninodes sb -> 0 <= pos < MAXFILE * BSIZE -> fbyte V' (d_addrs (I' j)) pos =
    if decide (j = inum /\ off <= pos < off + tot) then default 0 (data !! Z.to_nat (pos - off)) else fbyte V (d_addrs (I j)) pos;
  wr_slots j k : 0 <= j < sb_ninodes sb -> 0 <= k < NSLOTS -> slot V (d_addrs (I j)) k <> 0 -> slot V' (d_addrs (I' j)) k <> 0;
  wr_alloc bn : 0 < tot -> off / BSIZE <= bn -> bn * BSIZE < off + tot -> slot V' (d_addrs (I' inum)) (fslot bn) <> 0;
  wr_F : F ⊆ F';
  wr_tot : 0 <= tot <= n /\ (tot = 0 \/ tot = n \/ (off + tot) mod BSIZE = 0);
}.

Lemma written_0 off n data T V F I ip inum : 0 <= off -> 0 <= n -> written off n 0 data T V F I ip inum T V F I.
Proof.
  intros Hoff Hn. split; try done; try lia.
  - exists (i_addrs (T ip)). by rewrite set_addrs_id.
  - intros j pos Hj Hpos. rewrite decide_False; [done|lia].
Qed.

Lemma get8_splice d o l i : (o + length l <= length d)%nat ->
  get8 (splice d o l) i = if decide (o <= i < o + length l)%nat then default 0 (l !! (i - o)%nat) else get8 d i.
Proof.
  intros Hl. unfold get8, splice. case_decide as Hi.
  - rewrite lookup_app_r by (rewrite length_take; lia). rewrite length_take, Nat.min_l by lia. by rewrite lookup_app_l by lia.
  - destruct (decide (i < o)%nat) as [Hlt|Hge].
    + rewrite lookup_app_l by (rewrite length_take; lia). by rewrite lookup_take_lt.
    + rewrite lookup_app_r by (rewrite length_take; lia). rewrite length_take, Nat.min_l by lia.
      rewrite lookup_app_r by lia. rewrite lookup_drop. do 2 f_equal. lia.
Qed.
Lemma length_splice d o l : (o + length l <= length d)%nat -> length (splice d o l) = length d.
Proof. intros Hl. unfold splice. rewrite !length_app, length_take, length_drop. lia. Qed.

(** Positions in the block of [o]. *)
Lemma pos_in_block o m pos : 0 <= o -> 0 <= pos -> 0 < m <= BSIZE - o mod BSIZE -> pos / BSIZE = o / BSIZE ->
  ((Z.to_nat (o mod BSIZE) <= Z.to_nat (pos mod BSIZE) < Z.to_nat (o mod BSIZE) + Z.to_nat m)%nat <-> o <= pos < o + m) /\
  (o <= pos -> (Z.to_nat (pos mod BSIZE) - Z.to_nat (o mod BSIZE))%nat = Z.to_nat (pos - o)).
Proof.
  change BSIZE with 1024. intros Ho Hp Hm Hd. pose proof (Z.div_mod o 1024). pose proof (Z.div_mod pos 1024).
  pose proof (Z.mod_pos_bound o 1024). pose proof (Z.mod_pos_bound pos 1024). split; lia.
Qed.
Lemma pos_out_block o m pos : 0 <= o -> 0 <= pos -> 0 < m <= BSIZE - o mod BSIZE -> pos / BSIZE <> o / BSIZE -> ~ (o <= pos < o + m).
Proof.
  change BSIZE with 1024. intros Ho Hp Hm Hd Hin. apply Hd. pose proof (Z.div_mod o 1024). pose proof (Z.mod_pos_bound o 1024).
  symmetry. apply Z.div_unique with (r := pos - 1024 * (o / 1024)); lia.
Qed.
(** The blocks below the end of the new piece. *)
Lemma block_below off tot m bn : 0 <= off -> 0 <= tot -> 0 < m <= BSIZE - (off + tot) mod BSIZE -> off / BSIZE <= bn ->
  (tot = 0 \/ (off + tot) mod BSIZE = 0) -> bn * BSIZE < off + (tot + m) -> bn <> (off + tot) / BSIZE -> 0 < tot /\ bn * BSIZE < off + tot.
Proof.
  change BSIZE with 1024. intros Ho Ht Hm Hb Hal Hlt Hne. pose proof (Z.div_mod (off + tot) 1024). pose proof (Z.mod_pos_bound (off + tot) 1024).
  destruct Hal as [->|Hal]; [rewrite Z.add_0_r in *; lia|]. destruct (decide (tot = 0)) as [->|]; [rewrite Z.add_0_r in *; lia|]. lia.
Qed.

Lemma touched_step off n tot : 0 <= off -> 0 <= tot < n -> (tot = 0 \/ tot = n \/ (off + tot) mod BSIZE = 0) ->
  let m := piece off n tot in 0 < m /\ tot + m <= n /\ m <= BSIZE - (off + tot) mod BSIZE /\
  touched off (tot + m) = touched off tot + 1 /\ (tot + m = n \/ (off + (tot + m)) mod BSIZE = 0) /\
  (off + tot + m - 1) / BSIZE = (off + tot) / BSIZE.
Proof.
  intros Hoff Htot Hal m. assert (m = piece off n tot) as Hm by done. clearbody m. unfold piece in Hm. change BSIZE with 1024 in *.
  pose proof (Z.mod_pos_bound (off + tot) 1024 ltac:(lia)).
  assert (0 < m /\ tot + m <= n /\ m <= 1024 - (off + tot) mod 1024 /\ (m = n - tot \/ m = 1024 - (off + tot) mod 1024)) as (H1 & H2 & H3 & H4) by lia.
  clear Hm. assert ((off + tot + m - 1) / 1024 = (off + tot) / 1024) as H5.
  { symmetry. pose proof (Z.div_mod (off + tot) 1024). apply Z.div_unique with (r := (off + tot) mod 1024 + m - 1); lia. }
  split_and!; try done.
  - unfold touched. change BSIZE with 1024. replace (off + (tot + m) - 1) with (off + tot + m - 1) by lia.
    destruct (Z.eqb_spec (tot + m) 0); [lia|]. destruct (Z.eqb_spec tot 0) as [->|]; rewrite H5; [rewrite Z.add_0_r; lia|].
    assert ((off + tot - 1) / 1024 = (off + tot) / 1024 - 1) as ->; [|lia].
    symmetry. pose proof (Z.div_mod (off + tot) 1024). apply Z.div_unique with (r := 1023); lia.
  - destruct H4 as [?|H4]; [left; lia|right]. pose proof (Z.div_mod (off + tot) 1024).
    symmetry. apply Z.mod_unique with (q := (off + tot) / 1024 + 1); lia.
Qed.

Lemma written_step off n tot data T V F I ip inum T1 V1 F1 I1 T2 V2 F2 I2 a :
  written off n tot data T V F I ip inum T1 V1 F1 I1 -> 0 <= off -> off + n <= MAXFILE * BSIZE -> tot < n ->
  Z.of_nat (length data) = n -> 0 <= inum < sb_ninodes sb ->
  let o := off + tot in let m := piece off n tot in
  bmapped sb T1 V1 F1 I1 ip inum (o / BSIZE) T2 V2 F2 I2 a -> I2 inum = core (T2 ip) -> a <> 0 ->
  let V3 := fset V2 a (splice (V2 a) (Z.to_nat (o mod BSIZE)) (take (Z.to_nat m) (drop (Z.to_nat tot) data))) in
  written off n (tot + m) data T V F I ip inum T2 V3 (a :: F2) I2 /\ fsok I2 V3 /\
  sb_bmapstart sb < a < sb_size sb.
Proof.
  intros [W1 W2 [l1 W3] W4 W5 W6 W7 W8 [W9 W9']] Hoff Hmax Hlt Hdl Hi o m [B1 B2 B3 [l2 B4] [B5 B5'] B6 _] Hn2 Ha V3.
  pose proof (geo_bounds sb) as Hg. destruct (touched_step off n tot Hoff ltac:(lia) W9') as (M1 & M2 & M3 & M4 & M5 & M6). fold m in M1, M2, M3, M4, M5, M6. fold o in M3, M6.
  set (chunk := take (Z.to_nat m) (drop (Z.to_nat tot) data)) in *.
  assert (length chunk = Z.to_nat m) as Hcl by (unfold chunk; rewrite length_take, length_drop; lia).
  pose proof (gr_ok _ _ _ _ _ B1) as Hok2. 
  assert (slot V2 (d_addrs (I2 inum)) (fslot (o / BSIZE)) = a) as Hsa by (by rewrite Hn2, B6).
  assert (0 <= o mod BSIZE < BSIZE) as Hmod by (apply Z.mod_pos_bound; done).
  assert (0 <= o / BSIZE < MAXFILE) as Hbn. { split; [apply Z.div_pos; [lia|done]|]. apply Z.div_lt_upper_bound; [done|]. lia. }
  destruct (fslot_range _ Hbn) as [Hfr _].
  assert (refers sb I2 V2 inum (fslot (o / BSIZE)) a) as Hra by (split_and!; try done; lia).
  destruct (ok_ref _ _ _ Hok2 _ _ _ Hra) as [Hrg _]. pose proof (ok_len _ _ _ Hok2 a ltac:(lia)) as Hla.
  assert (Z.to_nat (o mod BSIZE) + length chunk <= length (V2 a))%nat as Hfit by (rewrite Hcl, Hla; lia).
  destruct (write_block dv start size sb I2 V2 inum (o / BSIZE) (splice (V2 a) (Z.to_nat (o mod BSIZE)) chunk)) as (K1 & K2 & K3 & K4);
    [done|done|done|by rewrite Hsa|by rewrite length_splice|]. rewrite Hsa in K1, K2, K3, K4. fold V3 in K1, K2, K3.
  split_and!; [|done|lia|lia]. split.
  - intros j Hj. by rewrite B2, W1.
  - intros j Hj. by rewrite B3, W2.
  - exists l2. by rewrite B4, W3.
  - intros b Hb. unfold V3. rewrite fset_ne by lia. rewrite (gr_low _ _ _ _ _ B1) by done. auto.
  - intros j pos Hj Hpos. rewrite K3 by done. rewrite (gr_bytes _ _ _ _ _ B1) by done. rewrite W5 by done.
    destruct (decide (j = inum)) as [->|Hne]; [|by rewrite !decide_False by naive_solver].
    destruct (decide (pos / BSIZE = o / BSIZE)) as [Hd|Hd]; [rewrite decide_True by done|rewrite decide_False by naive_solver].
    + destruct (pos_in_block o m pos) as [Hin Hix]; [lia|lia|lia|done|].
      rewrite get8_splice, Hcl by done. destruct (decide (o <= pos < o + m)) as [Hp|Hp].
      * rewrite decide_True by (by apply Hin). rewrite (Hix ltac:(apply Hp)).
        assert (off <= pos < off + (tot + m) /\ (Z.to_nat tot + Z.to_nat (pos - o))%nat = Z.to_nat (pos - off) /\ (Z.to_nat (pos - o) < Z.to_nat m)%nat)
          as (Hp1 & Hp2 & Hp3) by (clear - Hp Hoff W9 M1; subst o; lia).
        rewrite decide_True by done. f_equal. unfold chunk. by rewrite lookup_take_lt, lookup_drop, Hp2 by done.
      * rewrite decide_False by (by rewrite Hin). rewrite <- (fbyte_same_block V2 (d_addrs (I2 inum)) pos a); [|by rewrite Hd|done].
        rewrite (gr_bytes _ _ _ _ _ B1) by done. rewrite W5 by done. clear - Hp M1. repeat case_decide; try done; lia.
    + pose proof (pos_out_block o m pos ltac:(lia) ltac:(lia) ltac:(lia) Hd) as Hp. clear - Hp M1. repeat case_decide; try done; lia.
  - intros j k Hj Hk Hs. rewrite K2 by done. rewrite (gr_slots _ _ _ _ _ B1); auto.
  - intros bn _ Hb1 Hb2. rewrite K2 by done. destruct (decide (bn = o / BSIZE)) as [->|Hne]; [by rewrite Hsa|].
    assert (0 < tot /\ bn * BSIZE < off + tot) as [Hb3 Hb4]. { eapply block_below; try done; [lia|]. destruct W9' as [?|[?|?]]; [by left|lia|by right]. }
    assert (0 <= off / BSIZE) by (apply Z.div_pos; done).
    assert (0 <= fslot bn < NSLOTS). { apply fslot_range. change BSIZE with 1024 in *. change MAXFILE with 268 in *. lia. }
    rewrite (gr_slots _ _ _ _ _ B1); auto.
  - intros y Hy. right. auto.
  - split; [lia|]. tauto.
Qed.

(** [bmap] alone writes nothing. *)
Lemma written_bmap off n tot data T V F I ip inum T1 V1 F1 I1 bn T2 V2 F2 I2 a :
  written off n tot data T V F I ip inum T1 V1 F1 I1 -> bmapped sb T1 V1 F1 I1 ip inum bn T2 V2 F2 I2 a ->
  0 <= off -> off + n <= MAXFILE * BSIZE -> 0 <= inum < sb_ninodes sb -> written off n tot data T V F I ip inum T2 V2 F2 I2.
Proof.
  intros [W1 W2 [l1 W3] W4 W5 W6 W7 W8 W9] [B1 B2 B3 [l2 B4] [B5 B5'] B6 _] Hoff Hmax Hi. split.
  - intros j Hj. by rewrite B2, W1.
  - intros j Hj. by rewrite B3, W2.
  - exists l2. by rewrite B4, W3.
  - intros b Hb. rewrite (gr_low _ _ _ _ _ B1) by done. auto.
  - intros j pos Hj Hpos. rewrite (gr_bytes _ _ _ _ _ B1) by done. auto.
  - intros j k Hj Hk Hs. rewrite (gr_slots _ _ _ _ _ B1); auto.
  - intros bn' Ht Hb1 Hb2. assert (0 <= off / BSIZE) by (apply Z.div_pos; done).
    assert (0 <= fslot bn' < NSLOTS). { apply fslot_range. change BSIZE with 1024 in *. change MAXFILE with 268 in *. lia. }
    rewrite (gr_slots _ _ _ _ _ B1); auto.
  - set_solver.
  - done.
Qed.

(** A source of bytes: from position [pos] of [src] the bytes of [data] can be copied in, and
    that changes nothing. *)
Definition src_at (src : ksrc) (pos : Z) : ksrc :=
  match src with SUser va => SUser (u64 (va + pos)) | SKern l => SKern (drop (Z.to_nat pos) l) end.
Definition src_ok (c : cpu) (s : kst) (src : ksrc) (data : list Z) : Prop :=
  src_at src 0 = src /\
  forall c' f pos m, same_cpu c c' -> 0 <= pos -> 0 <= m -> pos + m <= Z.of_nat (length data) ->
    wp (either_copyin (src_at src pos) m) c' (set_fs f s)
      (fun c2 s2 r => c2 = c' /\ s2 = set_fs f s /\ r = (0, take (Z.to_nat m) (drop (Z.to_nat pos) data))).

Lemma src_at_add src pos m : 0 <= pos -> 0 <= m ->
  match src_at src pos with SUser va => SUser (u64 (va + m)) | SKern l => SKern (drop (Z.to_nat m) l) end = src_at src (pos + m).
Proof.
  intros Hp Hm. destruct src as [va|l]; simpl; f_equal.
  - unfold u64. rewrite Zplus_mod_idemp_l. f_equal. lia.
  - rewrite drop_drop. f_equal. lia.
Qed.

Lemma src_ok_kern c s l : src_ok c s (SKern l) l.
Proof.
  split; [done|]. intros c' f pos m Hcc Hp Hm Hl. unfold either_copyin, myproc, get_proc. by wp_steps.
Qed.

Lemma opened_more pid f T V D F F' I ip inum :
  opened dv start size sb K pid f T V D F I ip inum -> F ⊆ F' -> ftx pid f T V D F' [] [] -> opened dv start size sb K pid f T V D F' I ip inum.
Proof. intros [] HF Hx. split; try done; [intros x Hx0; by apply HF, op_bitmap|intros; by apply HF, op_ind]. Qed.

Lemma wp_write_loop pid c f s T V D F I ip inum src data off n (Q : cpu -> kst -> Z * Z -> Prop) :
  lcpu c -> curpid c = pid -> opened dv start size sb K pid f T V D F I ip inum -> src_ok c s src data ->
  Z.of_nat (length data) = n -> 0 <= off -> off + n <= MAXFILE * BSIZE -> Z.of_nat (length F) + 3 * touched off n <= size - 2 ->
  (forall c' f' T' V' F' I' tot, same_cpu c c' -> opened dv start size sb K pid f' T' V' D F' I' ip inum ->
     written off n tot data T V F I ip inum T' V' F' I' -> Z.of_nat (length F') <= Z.of_nat (length F) + 3 * touched off n -> (tot < n -> i_size (T ip) <= off + tot /\ forall b, 0 <= b < sb_size sb -> used V' b) ->
     Q c' (set_fs f' s) (tot, off + tot)) ->
  wp (loop (S (Z.to_nat n)) (fun st : Z * Z * ksrc => let '(tot, off, src) := st in
    if tot <? n then
      addr <- zoom fs_lens (bmap ip (off / BSIZE)) ;;
      if addr =? 0 then ret (inr (tot, off)) else
      x <- zoom fs_lens (get_inode ip) ;;
      bp <- zoom fs_lens (fbread (i_dev x) addr) ;;
      let m := Z.min (n - tot) (BSIZE - off mod BSIZE) in
      r <- either_copyin src m ;;
      d <- zoom fs_lens (fdata bp) ;;
      zoom fs_lens (fstore bp (splice d (Z.to_nat (off mod BSIZE)) (snd r))) ;;
      if fst r =? -1 then
        zoom fs_lens (fbrelse bp) ;;
        ret (inr (tot, off))
      else
        zoom fs_lens (flog_write bp) ;;
        zoom fs_lens (fbrelse bp) ;;
        let src := match src with SUser va => SUser (u64 (va + m)) | SKern l => SKern (drop (Z.to_nat m) l) end in
        ret (inl (u32 (tot + m), u32 (off + m), src))
    else ret (inr (tot, off))) (0, off, src)) c (set_fs f s) Q.
Proof.
  intros Hc Hp Ho [Hsrc0 Hsrc] Hdl Hoff Hmax Hroom HQ. pose proof (geo_bounds sb) as Hg. assert (0 <= n) as Hn0 by lia.
  assert (MAXFILE * BSIZE = 274432) as HMB by done.
  eapply (wp_loop (fun st c' s' => exists tot f' T' V' F' I', st = (tot, off + tot, src_at src tot) /\ same_cpu c c' /\ s' = set_fs f' s /\
    opened dv start size sb K pid f' T' V' D F' I' ip inum /\ written off n tot data T V F I ip inum T' V' F' I' /\
    Z.of_nat (length F') <= Z.of_nat (length F) + 3 * touched off tot)
    (fun st => Z.to_nat (n - st.1.1))); [|simpl; lia|].
  2: { exists 0, f, T, V, F, I. split_and!; try done; [by rewrite Z.add_0_r, Hsrc0|by apply written_0|unfold touched; simpl; lia]. }
  intros st c1 s1 (tot & f1 & T1 & V1 & F1 & I1 & -> & Hcc & -> & Ho1 & Hw1 & HF1'). cbn [fst snd].
  assert (lcpu c1) as Hc1 by (by eapply same_lcpu). assert (curpid c1 = pid) as Hp1 by (destruct Hcc as (_ & -> & _); done).
  pose proof (wr_tot _ _ _ _ _ _ _ _ _ _ _ _ _ _ Hw1) as [Htot Hal].
  destruct (Z.ltb_spec tot n) as [Hlt|Hge]; [|wp_step; eapply HQ; [done|exact Ho1|exact Hw1|replace tot with n in * by lia; lia|lia]].
  destruct (touched_step off n tot Hoff ltac:(lia) Hal) as (M1 & M2 & M3 & M4 & _ & M6).
  change (Z.min (n - tot) (BSIZE - (off + tot) mod BSIZE)) with (piece off n tot). set (m := piece off n tot) in *.
  assert (touched off (tot + m) <= touched off n) as Hto.
  { unfold touched. destruct (Z.eqb_spec (tot + m) 0); [lia|]. destruct (Z.eqb_spec n 0); [lia|].
    enough ((off + (tot + m) - 1) / BSIZE <= (off + n - 1) / BSIZE) by lia. apply Z.div_le_mono; [done|lia]. }
  pose proof (wr_F _ _ _ _ _ _ _ _ _ _ _ _ _ _ Hw1) as HF1.
  wp_step. apply wp_fs. eapply (wp_bmap dv start size sb K); [done|done|exact Ho1| |lia|].
  { split; [apply Z.div_pos; [lia|done]|]. apply Z.div_lt_upper_bound; [done|]. lia. }
  intros c2 f2 T2 V2 F2 I2 a Hcc2 Ho2 Hb2.
  assert (lcpu c2) as Hc2 by (by eapply same_lcpu). assert (curpid c2 = pid) as Hp2 by (destruct Hcc2 as (_ & -> & _); done).
  assert (same_cpu c c2) as Hcc02 by (by eapply same_cpu_trans).
  destruct (bm_F _ _ _ _ _ _ _ _ _ _ _ _ _ Hb2) as [HF2 HF2'].
  destruct (Z.eqb_spec a 0) as [Ha|Ha].
  { wp_step. eapply HQ; [done|exact Ho2| |lia|intros _; split; [|by apply (bm_full _ _ _ _ _ _ _ _ _ _ _ _ _ Hb2)]]; [eapply written_bmap; try done; apply Ho2|].
    destruct (decide (off + tot < i_size (T ip))) as [Hin|]; [exfalso|lia]. destruct Ho as [_ Hok Hn Hi _ _ _]. destruct (Ho2) as [_ _ Hn2 _ _ _ _].
    assert (0 <= (off + tot) / BSIZE < MAXFILE) as Hbn. { split; [apply Z.div_pos; [lia|done]|]. apply Z.div_lt_upper_bound; [done|]. lia. }
    pose proof (ok_holes _ _ _ Hok inum ((off + tot) / BSIZE) Hi ltac:(lia)) as Hh. rewrite Hn in Hh. specialize (Hh ltac:(cbn [core d_size]; change BSIZE with 1024 in *; dlia)). rewrite <- Hn in Hh. destruct (fslot_range _ Hbn) as [Hfr _].
    assert (slot V1 (d_addrs (I1 inum)) (fslot ((off + tot) / BSIZE)) <> 0) as H1 by (by apply (wr_slots _ _ _ _ _ _ _ _ _ _ _ _ _ _ Hw1)).
    pose proof (gr_slots _ _ _ _ _ (bm_grow _ _ _ _ _ _ _ _ _ _ _ _ _ Hb2) inum _ Hi Hfr H1) as H2. pose proof (bm_addr _ _ _ _ _ _ _ _ _ _ _ _ _ Hb2) as H3. rewrite Hn2 in H2. cbn [core d_addrs] in H2. congruence. }
  destruct (Ho2) as [Hx2 Hok2 Hn2 Hi2 [Hd2 Hd2'] HB2 Hind2].
  destruct (written_step off n tot data T V F I ip inum T1 V1 F1 I1 T2 V2 F2 I2 a Hw1 Hoff Hmax Hlt Hdl Hi2 Hb2 Hn2 Ha) as (Hw3 & Hok3 & Ha3).
  assert (F2 <> []) as Hne2 by (intros ->; apply (not_elem_of_nil (BBLOCK 0 sb)), HB2; lia).
  wp_step. apply wp_fs. eapply (wp_get_inode dv start size sb K); [exact Hx2|]. rewrite Hd2.
  pose proof (ftx_room dv start size sb K _ _ _ _ _ _ _ _ a Hx2 Hne2 ltac:(lia)) as Hx2'.
  wp_step. apply wp_fs. eapply (wp_fbread dv start size sb K); [done|done|exact Hx2'|lia|apply not_elem_of_nil|simpl; lia|]. intros f3 i Hx3.
  wp_step. eapply wp_mono; [apply Hsrc; [done|lia|lia|lia]|]. intros ? ? ? (-> & -> & ->). cbn [fst snd].
  wp_step. apply wp_fs. eapply (wp_fdata dv start size sb K); [exact Hx3|by left|].
  wp_step. apply wp_fs. eapply (wp_fstore dv start size sb K); [exact Hx3|by left|]. intros f4 Hx4. cbn [Z.eqb].
  wp_step. apply wp_fs. eapply (wp_flog_write dv start size sb K); [done|exact Hx4|by left|by left|apply (loggable_above dv start size sb); lia|]. intros f5 Hx5.
  wp_step. apply wp_fs. eapply (wp_fbrelse dv start size sb K); [done|done|exact Hx5|apply not_elem_of_nil|]. intros c6 f6 Hcc6 Hx6. wp_step.
  rewrite src_at_add by lia. rewrite !u32_small by lia. split; [|cbn [fst]; lia].
  eexists (tot + m), f6, T2, _, (a :: F2), I2. split_and!; [by rewrite Z.add_assoc|by eapply same_cpu_trans|done| |exact Hw3|simpl; lia].
  split; try done; [intros y Hy; right; by apply HB2|intros; right; by apply Hind2].
Qed.

(** What [writei] has done when it returns [r]. *)
Record wrote (off n r : Z) (data : list Z) (T : nat -> inode) (V : Z -> block) (I : Z -> dinode) (ip : nat) (inum : Z)
    (T' : nat -> inode) (V' : Z -> block) (I' : Z -> dinode) : Prop := {
  wo_r : 0 <= r <= n /\ (r < n -> forall b, 0 <= b < sb_size sb -> used V' b);
  wo_other j : j <> inum -> I' j = I j;
  wo_tab i : i <> ip -> T' i = T i;
  wo_node : exists l, T' ip = set_size (Z.max (i_size (T ip)) (off + r)) (set_addrs l (T ip));
  wo_disk j : 0 <= j < sb_ninodes sb -> dnode sb V' j = if decide (j = inum) then I' inum else dnode sb V j;
  wo_bytes j pos : 0 <= j < sb_ninodes sb -> 0 <= pos < MAXFILE * BSIZE -> fbyte V' (d_addrs (I' j)) pos =
    if decide (j = inum /\ off <= pos < off + r) then default 0 (data !! Z.to_nat (pos - off)) else fbyte V (d_addrs (I j)) pos;
  wo_whole : r = 0 \/ r = n \/ (off + r) mod BSIZE = 0;
  wo_in : r < n -> i_size (T ip) <= off + r;
}.

Lemma dnode_low V V' j : 0 <= j < sb_ninodes sb -> (forall b, b < sb_bmapstart sb -> V' b = V b) -> dnode sb V' j = dnode sb V j.
Proof. intros Hj He. destruct (IBLOCK_val sb j Hj) as [_ HB]. unfold dnode. by rewrite He by lia. Qed.

(** The inode after the loop, with its new size, still describes a well-formed file. *)
Lemma written_size off n tot data T V F I ip inum T' V' F' I' x :
  written off n tot data T V F I ip inum T' V' F' I' -> fsok I V -> fsok I' V' -> I inum = core (T ip) -> I' inum = core (T' ip) ->
  0 <= inum < sb_ninodes sb -> 0 <= off <= i_size (T ip) -> off + n <= MAXFILE * BSIZE ->
  x = set_size (Z.max (i_size (T ip)) (off + tot)) (T' ip) -> fsok (fset I' inum (core x)) V' /\ dino_ok (core x).
Proof.
  intros [W1 W2 [l W3] W4 W5 W6 W7 W8 [W9 W9']] Hok Hok' Hn Hn' Hi Hoff Hmax ->.
  pose proof (ok_size _ _ _ Hok inum Hi) as Hs. rewrite Hn in Hs. cbn [core d_size] in Hs. change (MAXFILE * BSIZE) with 274432 in *.
  assert (dino_ok (core (set_size (Z.max (i_size (T ip)) (off + tot)) (T' ip)))) as Hd.
  { pose proof (ok_node _ _ _ Hok' inum Hi) as Hno. rewrite Hn' in Hno. destruct Hno as (H1 & H2 & H3 & H4 & H5 & H6 & H7).
    unfold dino_ok. cbn [core set_size d_type d_major d_minor d_nlink d_size d_addrs i_type i_major i_minor i_nlink i_size i_addrs] in *.
    split_and!; try done; lia. }
  split; [|done]. apply fsok_node; try done.
  - by rewrite Hn'.
  - simpl. change (MAXFILE * BSIZE) with 274432. lia.
  - cbn [core set_size d_size d_addrs i_size i_addrs]. intros bn Hbn Hlt.
    replace (i_addrs (T' ip)) with (d_addrs (I' inum)) by (by rewrite Hn').
    destruct (decide (bn * BSIZE < i_size (T ip))) as [Hlow|Hhigh].
    + assert (0 <= fslot bn < NSLOTS). { apply fslot_range. change BSIZE with 1024 in *. change MAXFILE with 268 in *. lia. }
      apply W6; [done|lia|]. apply (ok_holes _ _ _ Hok); [done|done|]. by rewrite Hn.
    + apply W7; [lia| |lia]. change BSIZE with 1024 in *. apply Z.div_le_upper_bound; lia.
Qed.

Lemma set_size_id x : set_size (i_size x) x = x.
Proof. by destruct x. Qed.

Lemma wp_writei pid c f s T V D F I ip inum src data off n (Q : cpu -> kst -> Z -> Prop) :
  lcpu c -> curpid c = pid -> opened dv start size sb K pid f T V D F I ip inum -> src_ok c s src data ->
  Z.of_nat (length data) = n -> 0 <= off <= i_size (T ip) -> off + n <= MAXFILE * BSIZE ->
  IBLOCK inum sb ∈ F -> Z.of_nat (length F) + 3 * touched off n <= size - 2 ->
  (forall c' f' T' V' F' I' r, same_cpu c c' -> opened dv start size sb K pid f' T' V' D F' I' ip inum ->
     F ⊆ F' -> Z.of_nat (length F') <= Z.of_nat (length F) + 3 * touched off n ->
     wrote off n r data T V I ip inum T' V' I' -> Q c' (set_fs f' s) r) ->
  wp (writei ip src off n) c (set_fs f s) Q.
Proof.
  intros Hc Hp Ho Hsrc Hdl Hoff Hmax HIB Hroom HQ. pose proof (geo_bounds sb) as Hg. assert (MAXFILE * BSIZE = 274432) as HMB by done.
  destruct (Ho) as [Hx Hok Hn Hi [Hd Hd'] HBm Hind]. unfold writei.
  wp_step. apply wp_fs. eapply (wp_get_inode dv start size sb K); [exact Hx|]. rewrite u32_small by lia.
  rewrite Z.gtb_ltb, (proj2 (Z.ltb_ge _ _)) by lia. rewrite (proj2 (Z.ltb_ge (off + n) _)) by lia. cbn [orb].
  rewrite Z.gtb_ltb, (proj2 (Z.ltb_ge _ (off + n))) by lia.
  wp_step. eapply wp_write_loop; [done|done|exact Ho|exact Hsrc|done|lia|done|done|].
  intros c1 f1 T1 V1 F1 I1 tot Hcc Ho1 Hw1 HF1' Hfull.
  assert (lcpu c1) as Hc1 by (by eapply same_lcpu). assert (curpid c1 = pid) as Hp1 by (destruct Hcc as (_ & -> & _); done).
  destruct (Ho1) as [Hx1 Hok1 Hn1 _ [Hd1 Hd1'] HBm1 Hind1]. pose proof (wr_F _ _ _ _ _ _ _ _ _ _ _ _ _ _ Hw1) as HF1.
  pose proof (wr_tot _ _ _ _ _ _ _ _ _ _ _ _ _ _ Hw1) as [Htot Hwhole].
  destruct (wr_node _ _ _ _ _ _ _ _ _ _ _ _ _ _ Hw1) as [l Hl]. assert (i_size (T1 ip) = i_size (T ip)) as Hsz by (by rewrite Hl).
  set (x := set_size (Z.max (i_size (T ip)) (off + tot)) (T1 ip)).
  destruct (written_size _ _ _ _ _ _ _ _ _ _ _ _ _ _ x Hw1 Hok Hok1 Hn Hn1 Hi Hoff Hmax eq_refl) as [Hok2 Hdx].
  (* the store of the inode *)
  assert (forall c2 f2 T2, same_cpu c1 c2 -> ftx pid f2 T2 V1 D F1 [] [] -> T2 ip = x -> (forall i, i <> ip -> T2 i = T1 i) ->
    wp (zoom fs_lens (iupdate ip) ;; ret (s32 tot)) c2 (set_fs f2 s) Q) as Hfin.
  { intros c2 f2 T2 Hcc2 Hx2 HT2 HT2'. wp_step. apply wp_fs.
    eapply (wp_iupdate dv start size sb K); [by eapply same_lcpu|destruct Hcc2 as (_ & -> & _); done|exact Hx2|by rewrite HT2|by rewrite HT2; simpl; rewrite Hd1'|rewrite HT2; simpl; rewrite Hd1'; by apply HF1|].
    intros c3 f3 Hcc3 Hx3. wp_step. rewrite s32_small by lia. rewrite HT2 in Hx3.
    assert (i_inum x = inum) as Hix by exact Hd1'.
    destruct (stored_ok dv start size sb _ _ x Hok2 ltac:(by rewrite Hix)) as [Hok3 Hby].
    eapply (HQ c3 f3 T2 (stored sb V1 x) F1 (fset I1 inum (core x))); [eapply same_cpu_trans; [done|by eapply same_cpu_trans]| |done|done|].
    - split; try done; rewrite ?HT2, ?fset_eq; done.
    - split.
      + split; [lia|]. intros Hlt b Hb. destruct (BBLOCK_val sb b Hb) as [_ HB], (IBLOCK_val sb inum Hi) as [_ HB'].
        unfold FsDisk.used. rewrite stored_other by (rewrite Hix; lia). by apply Hfull.
      + intros j Hj. rewrite fset_ne by done. by apply (wr_other _ _ _ _ _ _ _ _ _ _ _ _ _ _ Hw1).
      + intros j Hj. rewrite HT2' by done. by apply (wr_tab _ _ _ _ _ _ _ _ _ _ _ _ _ _ Hw1).
      + exists l. rewrite HT2. unfold x. by rewrite Hl.
      + intros j Hj. rewrite (dnode_stored dv start size) by (done || apply Hok1 || by rewrite Hix). rewrite Hix, fset_eq. case_decide; [done|].
        apply dnode_low; [done|]. apply (wr_low _ _ _ _ _ _ _ _ _ _ _ _ _ _ Hw1).
      + intros j pos Hj Hpos. rewrite Hby by done. rewrite <- (wr_bytes _ _ _ _ _ _ _ _ _ _ _ _ _ _ Hw1) by done. f_equal.
        unfold fset. destruct (Z.eqb_spec j inum) as [->|]; [|done]. by rewrite Hn1.
      + done.
      + intros Hlt. by apply Hfull. }
  wp_step. apply wp_fs. eapply (wp_get_inode dv start size sb K); [exact Hx1|]. rewrite Hsz, Z.gtb_ltb.
  wp_step. destruct (Z.ltb_spec (i_size (T ip)) (off + tot)) as [Hlt|Hge].
  - apply wp_fs. eapply (wp_upd_inode dv start size sb K); [exact Hx1|]. intros f2 Hx2. apply (Hfin c1 f2 _ (same_cpu_refl c1) Hx2).
    + rewrite upd_itable_eq. unfold x. by rewrite Z.max_r by lia.
    + intros i Hne. by apply upd_itable_ne.
  - wp_step. apply (Hfin c1 f1 T1 (same_cpu_refl c1) Hx1); [|done]. unfold x. rewrite Z.max_l, <- Hsz by lia. by rewrite set_size_id.
Qed.

(** [writei] refuses to leave a hole or to exceed the largest file. *)
Lemma wp_writei_fail pid c f s T V D F ip src off n (Q : cpu -> kst -> Z -> Prop) :
  ftx pid f T V D F [] [] -> 0 <= off < 4294967296 -> 0 <= n < 4294967296 -> i_size (T ip) <= MAXFILE * BSIZE ->
  i_size (T ip) < off \/ MAXFILE * BSIZE < off + n -> Q c (set_fs f s) (-1) ->
  wp (writei ip src off n) c (set_fs f s) Q.
Proof.
  intros Hx Hoff Hn Hsz Hbad HQ. unfold writei. change (MAXFILE * BSIZE) with 274432 in *. wp_step. apply wp_fs.
  eapply (wp_get_inode dv start size sb K); [exact Hx|]. rewrite Z.gtb_ltb.
  destruct (Z.ltb_spec (i_size (T ip)) off); cbn [orb]; [by wp_step|].
  destruct (Z.ltb_spec (u32 (off + n)) off) as [|Hno]; [by wp_step|].
  assert (off + n < 4294967296) as Hlt.
  { destruct (decide (off + n < 4294967296)); [done|]. exfalso. unfold u32 in Hno. rewrite <- (Z.mod_add _ (-1)) in Hno by lia. rewrite Z.mod_small in Hno; lia. }
  rewrite u32_small by lia. rewrite Z.gtb_ltb, (proj2 (Z.ltb_lt _ _)) by lia. by wp_step.
Qed.
End io.
