(* ===== verification/FsDir.v ===== *)
(** Directories and path resolution: [dirlookup] finds the first entry with the name, and
    [namex] follows a path through the directories on disk. *)
From S2P Require Import Prelude Memory Riscv Kalloc Vm Sleeplock Bio BioInv BioSpec Log LogPure LogSpec LogTxn Fs FsTxn FsDisk FsAlloc FsGrow FsInode FsTable State Process FsFile FsPath FsIo.

#[local] Arguments loop : simpl never.

(** ** Directory contents *)

(** Entry [i] of a directory, as bytes, and all the entries: inode number and name. *)
Definition dent (V : Z -> block) (n : dinode) (i : nat) : list Z := fslice V (d_addrs n) (16 * Z.of_nat i) 16.
Definition entry_of (e : list Z) : Z * list Z := (de_inum e, cstr DIRSIZ (de_name e)).
Definition dents (V : Z -> block) (n : dinode) : list (Z * list Z) :=
  (fun i => entry_of (dent V n i)) <$> seq 0 (Z.to_nat (d_size n / 16)).

(** The first entry in use with the name: its position and inode number. *)
Definition matches (name : list Z) (e : Z * list Z) : Prop := e.1 <> 0 /\ e.2 = name.
#[global] Instance matches_dec name e : Decision (matches name e).
Proof. unfold matches. apply _. Defined.
Definition dir_find (V : Z -> block) (n : dinode) (name : list Z) : option (nat * (Z * list Z)) :=
  list_find (matches name) (dents V n).

Lemma dents_lookup V n i : (i < Z.to_nat (d_size n / 16))%nat -> dents V n !! i = Some (entry_of (dent V n i)).
Proof. intros Hi. unfold dents. by rewrite list_lookup_fmap, lookup_seq_lt. Qed.
Lemma length_dents V n : length (dents V n) = Z.to_nat (d_size n / 16).
Proof. unfold dents. by rewrite length_fmap, length_seq. Qed.

(** Disks whose blocks hold bytes. *)
Definition bytes_ok (V : Z -> block) : Prop := forall b, Forall byte (V b).

Lemma fbyte_byte V l pos : bytes_ok V -> byte (fbyte V l pos).
Proof.
  intros Hb. unfold fbyte, get8. case_match; [unfold byte; lia|]. set (a := slot _ _ _).
  destruct (V a !! Z.to_nat (pos mod BSIZE)) as [y|] eqn:E; simpl; [|unfold byte; lia].
  specialize (Hb a). rewrite Forall_lookup in Hb. by eapply Hb.
Qed.

Definition file_bytes (V : Z -> block) (n : dinode) : Prop := forall pos, 0 <= pos < d_size n -> byte (fbyte V (d_addrs n) pos).
Lemma dent_bytes V n i : file_bytes V n -> (i < Z.to_nat (d_size n / 16))%nat -> Forall byte (dent V n i).
Proof.
  intros Hb Hi. unfold dent, fslice. apply Forall_fmap, Forall_forall. intros p Hp%elem_of_seq. apply Hb. dlia.
Qed.

Section dir.
Context (dv start size : Z) (sb : superblock) (K : fconst) `{G : !FsGeo dv start size sb}.
Abbreviation ftx := (ftx dv start size sb K).
Abbreviation fsok := (fsok sb).
Abbreviation dnode := (dnode sb).

(** Directories have whole entries of bytes, and the entries in use are of allocated inodes
    with a link count. *)
Definition dir_ok (V : Z -> block) (n : dinode) : Prop :=
  d_size n mod 16 = 0 /\ forall e, e ∈ dents V n -> e.1 <> 0 ->
    0 <= e.1 < sb_ninodes sb /\ d_type (dnode V e.1) <> 0 /\ d_nlink (dnode V e.1) <> 0.
Record tree_ok (V : Z -> block) : Prop := {
  tr_fs : fsok (dnode V) V;
  tr_bytes j : 0 <= j < sb_ninodes sb -> d_type (dnode V j) = T_DIR -> file_bytes V (dnode V j);
  tr_dirs j : 0 <= j < sb_ninodes sb -> d_type (dnode V j) = T_DIR -> dir_ok V (dnode V j);
}.

(** Enough of the inode table is free for [iget]. *)
Definition has_room (T : nat -> inode) : Prop := exists i, (i < NINODE)%nat /\ i_ref (T i) = 0.

Lemma wp_dirlookup pid c f s T V D F ip inum name lk (Q : cpu -> kst -> option (nat * Z) -> Prop) :
  fcpu c -> curpid c = pid -> ftx pid f T V D F [] [] -> tree_ok V -> itab dv sb T V lk -> has_room T ->
  0 <= inum < sb_ninodes sb -> i_dev (T ip) = dv -> core (T ip) = dnode V inum -> d_type (dnode V inum) = T_DIR ->
  Forall byte name ->
  (forall c' f', same_cpu c c' -> ftx pid f' T V D F [] [] -> dir_find V (dnode V inum) (cstr DIRSIZ name) = None ->
     Q c' (set_fs f' s) None) ->
  (forall c' f' i e j, same_cpu c c' -> dir_find V (dnode V inum) (cstr DIRSIZ name) = Some (i, e) ->
     ftx pid f' (upd_itable j (got dv T e.1 j) T) V D F [] [] ->
     (entry T e.1 j \/ (j < NINODE)%nat /\ i_ref (T j) = 0 /\ forall k, ~ entry T e.1 k) ->
     Q c' (set_fs f' s) (Some (j, 16 * Z.of_nat i))) ->
  wp (dirlookup ip name) c (set_fs f s) Q.
Proof.
  intros Hc Hp Hx Htr Ht Hroom Hi Hd Hn Hty Hby Hnone Hsome. destruct (tr_dirs _ Htr inum Hi Hty) as [Hmod Hent].
  pose proof (ok_node _ _ _ (tr_fs _ Htr) inum Hi) as (_ & _ & _ & _ & Hsz & _). pose proof (ok_size _ _ _ (tr_fs _ Htr) inum Hi) as Hmax.
  change (MAXFILE * BSIZE) with 274432 in Hmax.
  assert (i_size (T ip) = d_size (dnode V inum)) as Hse by (by rewrite <- Hn).
  assert (i_type (T ip) = T_DIR) as Hte by (rewrite <- Hty, <- Hn; done).
  assert (i_addrs (T ip) = d_addrs (dnode V inum)) as Hae by (by rewrite <- Hn).
  set (n := dnode V inum) in *. unfold dirlookup. wp_step. apply wp_fs. eapply (wp_get_inode dv start size sb K); [exact Hx|].
  rewrite Hte. cbn [Z.eqb negb T_DIR]. change (negb (1 =? 1)) with false. cbv iota. change DIRENT with 16.
  eapply (wp_loop (fun off c' s' => exists i f', off = 16 * Z.of_nat i /\ (i <= Z.to_nat (d_size n / 16))%nat /\ same_cpu c c' /\
    s' = set_fs f' s /\ ftx pid f' T V D F [] [] /\ forall j e, (j < i)%nat -> dents V n !! j = Some e -> ~ matches (cstr DIRSIZ name) e)
    (fun off => Z.to_nat (i_size (T ip) / 16 + 1 - off / 16))); [|rewrite Z.div_0_l; lia|].
  2: { exists 0%nat, f. split_and!; try done; lia. }
  intros off c1 s1 (i & f1 & -> & Hle & Hcc & -> & Hx1 & Hno).
  assert (fcpu c1) as Hc1 by (by eapply same_fcpu). assert (curpid c1 = pid) as Hp1 by (by eapply same_pid).
  wp_step. apply wp_fs. eapply (wp_get_inode dv start size sb K); [exact Hx1|]. rewrite Hse.
  destruct (Z.ltb_spec (16 * Z.of_nat i) (d_size n)) as [Hlt|Hge].
  2: { wp_step. apply Hnone; [done|done|]. apply list_find_None, Forall_lookup. intros j e Hj. eapply (Hno j); [|done].
       apply lookup_lt_Some in Hj. rewrite length_dents in Hj. dlia. }
  assert (i < Z.to_nat (d_size n / 16))%nat as Hi' by dlia.
  wp_step. eapply (wp_readi dv start size sb K); [apply Hc1|done|exact Hx1|apply Htr|symmetry; exact Hn|done|done|lia|lia|].
  intros c2 f2 Hcc2 Hx2. assert (read_len (i_size (T ip)) (16 * Z.of_nat i) 16 = 16) as ->.
  { unfold read_len. rewrite Hse. rewrite Z.gtb_ltb, (proj2 (Z.ltb_ge _ _)) by lia. rewrite Z.geb_leb, (proj2 (Z.leb_gt _ _)) by lia.
    cbn [orb]. assert (d_size n - 16 * Z.of_nat i >= 16) by dlia. lia. }
  rewrite Hae. change (Z.to_nat 16) with 16%nat. change (fslice V (d_addrs n) (16 * Z.of_nat i) 16) with (dent V n i).
  cbn [Z.eqb negb Pos.eqb]. pose proof (dents_lookup V n i Hi') as Hlk'.
  pose proof (dent_bytes V n i (tr_bytes _ Htr inum Hi Hty) Hi') as Hdb.
  assert (same_cpu c c2) as Hcc02 by (by eapply same_cpu_trans).
  assert (fcpu c2) as Hc2 by (by eapply same_fcpu).
  assert (~ matches (cstr DIRSIZ name) (entry_of (dent V n i)) -> wp (ret (inl (u32 (16 * Z.of_nat i + 16)))) c2 (set_fs f2 s)
    (fun c' s' r => match r with
      | inl off' => (exists i f', off' = 16 * Z.of_nat i /\ (i <= Z.to_nat (d_size n / 16))%nat /\ same_cpu c c' /\
          s' = set_fs f' s /\ ftx pid f' T V D F [] [] /\ forall j e, (j < i)%nat -> dents V n !! j = Some e -> ~ matches (cstr DIRSIZ name) e) /\
          (Z.to_nat (d_size n / 16 + 1 - off' / 16) < Z.to_nat (d_size n / 16 + 1 - 16 * Z.of_nat i / 16))%nat
      | inr b => Q c' s' b end)) as Hnext.
  { intros Hm. wp_step. rewrite u32_small by lia. split; [|dlia]. exists (S i), f2. split_and!; try done; try lia.
    intros j e Hj He. destruct (decide (j = i)) as [->|]; [congruence|]. apply (Hno j); [lia|done]. }
  destruct (Z.eqb_spec (de_inum (dent V n i)) 0) as [H0|H0]; [apply Hnext; unfold matches; simpl; lia|].
  assert (namecmp name (de_name (dent V n i)) = 0 <-> matches (cstr DIRSIZ name) (entry_of (dent V n i))) as Hm.
  { unfold namecmp. rewrite strncmp_l_eq; [|done|unfold de_name; by apply Forall_take, Forall_drop].
    unfold matches. simpl. split; [by intros ->|by intros [_ ->]]. }
  destruct (Z.eqb_spec (namecmp name (de_name (dent V n i))) 0) as [E|E]; [|apply Hnext; by rewrite <- Hm].
  apply Hm in E. wp_step. apply wp_fs. rewrite Hd. destruct (Hent (entry_of (dent V n i))) as (Hr & _ & _); [by eapply list_elem_of_lookup_2|done|].
  eapply (wp_iget dv start size sb K); [done|exact Hx2|exact Ht|exact Hr| |].
  { destruct Hroom as (k & Hk & Hk'). exists k. split; [done|by left]. }
  intros f3 k Hx3 Hk. wp_step. eapply (Hsome _ _ i (entry_of (dent V n i)) k); [done| |exact Hx3|exact Hk].
  apply list_find_Some. split_and!; try done. intros j y Hj Hlt' Hmy. by apply (Hno j y).
Qed.

(** ** Paths *)

(** Following the elements [es] from inode [j]: the inode they lead to or, for the parent, the
    inode of the last directory with the last element. *)
Fixpoint walk_path (V : Z -> block) (parent : bool) (j : Z) (es : list (list Z)) : option (Z * list Z) :=
  match es with
  | [] => if parent then None else Some (j, [])
  | e :: es' =>
      if negb (d_type (dnode V j) =? T_DIR) then None
      else if parent && bool_decide (es' = []) then Some (j, e)
      else match dir_find V (dnode V j) e with
           | Some (_, (k, _)) => walk_path V parent k es'
           | None => None
           end
  end.

(** The entries in use stay where they are. *)
Definition keeps (T0 T : nat -> inode) : Prop := forall i j, entry T0 j i -> entry T j i.

Lemma keeps_refl T : keeps T T.
Proof. by intros i j. Qed.
Lemma keeps_same T0 T T' : keeps T0 T -> (forall i, i_ref (T' i) = i_ref (T i) /\ i_inum (T' i) = i_inum (T i)) -> keeps T0 T'.
Proof. intros Hk Hs i j (Hi & Hr & Hj)%Hk. destruct (Hs i) as [E1 E2]. split_and!; [done|by rewrite E1|by rewrite E2]. Qed.
Lemma keeps_got T0 T inum k : keeps T0 T -> (entry T inum k \/ i_ref (T k) = 0) -> keeps T0 (upd_itable k (got dv T inum k) T).
Proof.
  intros Hk Hc i j (Hi & Hr & Hj)%Hk. destruct (decide (i = k)) as [->|Hne]; [|unfold entry; by rewrite upd_itable_ne].
  unfold entry. rewrite upd_itable_eq. unfold got. rewrite decide_True by done. simpl. split_and!; [done|lia|done].
Qed.
Lemma keeps_drop T0 V0 lk0 T V lk T' ip : itab dv sb T0 V0 lk0 -> itab dv sb T V lk -> keeps T0 T -> (forall i, i <> ip -> T' i = T i) ->
  i_ref (T' ip) = i_ref (T ip) - 1 -> i_inum (T' ip) = i_inum (T ip) -> irefs T0 (i_inum (T ip)) < irefs T (i_inum (T ip)) -> keeps T0 T'.
Proof.
  intros Ht0 Ht Hk Hne Hr Hn Hlt i j He0. pose proof (Hk i j He0) as He. destruct (decide (i = ip)) as [->|Hi]; [|unfold entry; by rewrite Hne].
  pose proof (irefs_entry dv sb T0 V0 lk0 j ip Ht0 He0). pose proof (irefs_entry dv sb T V lk j ip Ht He). destruct He as (Hi & Hp & <-). destruct He0 as (_ & Hp0 & _).
  split_and!; [done|lia|done].
Qed.

(** The inode table with one more reference, to inode [j]. *)
Record one_more (T0 T : nat -> inode) (V : Z -> block) (j : Z) (ip : nat) : Prop := {
  om_tab : itab dv sb T V None;
  om_entry : entry T j ip;
  om_refs k : irefs T k = irefs T0 k + if decide (k = j) then 1 else 0;
  om_keep : keeps T0 T;
}.

(** What [namex] needs of the inode table and of the inode it starts from. *)
Record table_room (T0 : nat -> inode) (V : Z -> block) : Prop := {
  ro_tab : itab dv sb T0 V None;
  ro_held : (length (held_inums T0) + 2 <= NINODE)%nat;
  ro_refs j : irefs T0 j < 999990;
}.
Definition inode_ok (T0 : nat -> inode) (V : Z -> block) (j : Z) : Prop :=
  0 <= j < sb_ninodes sb /\ d_type (dnode V j) <> 0 /\ (d_nlink (dnode V j) <> 0 \/ 0 < irefs T0 j).

Lemma held_more T0 T V V0 j ip : itab dv sb T0 V0 None -> one_more T0 T V j ip -> (length (held_inums T) <= S (length (held_inums T0)))%nat.
Proof.
  intros Ht0 [Ht He Hrf _]. change (S (length (held_inums T0))) with (length (j :: held_inums T0)).
  apply (held_bound dv sb T V None); [done|]. intros k i Hk. destruct (decide (k = j)) as [->|Hne]; [by left|]. right.
  apply elem_held. pose proof (irefs_entry dv sb T V None k i Ht Hk) as Hi. rewrite Hrf, decide_False in Hi by done. destruct Hk as (_ & Hp & _).
  assert (0 < irefs T0 k) as Hpos by lia. destruct (decide (k ∈ held_inums T0)) as [|Hno]; [by apply elem_held|].
  exfalso. unfold irefs in Hpos. assert (forall l, (forall i, i ∈ l -> (i < NINODE)%nat) -> foldr Z.add 0 ((fun i => contrib (T0 i) k) <$> l) = 0) as Hz.
  { induction l as [|x l IH]; [done|]. intros Hl. rewrite fmap_cons. cbn [foldr]. rewrite IH by (intros; apply Hl; by right).
    unfold contrib. destruct (Z.eqb_spec (i_inum (T0 x)) k) as [E|]; [|done]. pose proof (it_ref _ _ _ _ _ Ht0 x).
    destruct (decide (0 < i_ref (T0 x))); [|lia]. destruct Hno. apply elem_held. exists x. split_and!; try done. apply Hl. by left. }
  rewrite Hz in Hpos; [lia|]. intros i' Hi'. apply elem_of_seq in Hi'. lia.
Qed.
Lemma room_more T0 T V j ip : table_room T0 V -> one_more T0 T V j ip -> has_room T /\ (forall i, i_ref (T i) < 999992 \/ (NINODE <= i)%nat).
Proof.
  intros [Ht0 Hh Hr] Hom. pose proof (held_more T0 T V V j ip Ht0 Hom) as Hl. destruct Hom as [Ht He Hrf _]. split; [apply (room_of_bound dv sb T V None Ht); lia|].
  intros i. destruct (decide (i < NINODE)%nat) as [Hi|]; [left|right; lia]. pose proof (it_ref _ _ _ _ _ Ht i).
  destruct (decide (0 < i_ref (T i))); [|lia]. rewrite <- (irefs_entry dv sb T V None (i_inum (T i)) i Ht) by done.
  rewrite Hrf. specialize (Hr (i_inum (T i))). case_decide; lia.
Qed.

(** One round of [namex]: the directory at [ip], looked up for [name]. *)
Lemma wp_namex_step pid c f s T0 T V D F ip inum name (Q : cpu -> kst -> nat * list Z * list Z + option (nat * list Z) -> Prop) path parent :
  fcpu c -> curpid c = pid -> ftx pid f T V D F [] [] -> tree_ok V -> table_room T0 V -> one_more T0 T V inum ip ->
  inode_ok T0 V inum -> Forall byte name ->
  (d_type (dnode V inum) <> T_DIR \/ d_type (dnode V inum) = T_DIR /\ ~ (parent = true /\ default 0 (head path) = 0) /\ dir_find V (dnode V inum) (cstr DIRSIZ name) = None ->
   forall c' f' T', same_cpu c c' -> ftx pid f' T' V D F [] [] -> itab dv sb T' V None -> (forall k, irefs T' k = irefs T0 k) -> keeps T0 T' -> Q c' (set_fs f' s) (inr None)) ->
  (d_type (dnode V inum) = T_DIR -> parent = true -> default 0 (head path) = 0 ->
   forall c' f' T', same_cpu c c' -> ftx pid f' T' V D F [] [] -> one_more T0 T' V inum ip -> Q c' (set_fs f' s) (inr (Some (ip, name)))) ->
  (forall i e, d_type (dnode V inum) = T_DIR -> ~ (parent = true /\ default 0 (head path) = 0) -> dir_find V (dnode V inum) (cstr DIRSIZ name) = Some (i, e) ->
   forall c' f' T' k, same_cpu c c' -> ftx pid f' T' V D F [] [] -> one_more T0 T' V e.1 k -> inode_ok T0 V e.1 -> Q c' (set_fs f' s) (inl (k, path, name))) ->
  wp (zoom fs_lens (ilock (Some ip)) ;;
      x <- zoom fs_lens (get_inode ip) ;;
      if negb (i_type x =? T_DIR) then zoom fs_lens (iunlockput (Some ip)) ;; ret (inr None)
      else if parent && (default 0 (head path) =? 0) then zoom fs_lens (iunlock (Some ip)) ;; ret (inr (Some (ip, name)))
      else r <- dirlookup ip name ;;
           match r with
           | None => zoom fs_lens (iunlockput (Some ip)) ;; ret (inr None)
           | Some (next, _) => zoom fs_lens (iunlockput (Some ip)) ;; ret (inl (next, path, name))
           end) c (set_fs f s) Q.
Proof.
  intros Hc Hp Hx Htr Hro Hom (Hi & Hty & Hnl) Hby HQn HQp HQs. pose proof Hom as [Ht He Hrf Hkp]. pose proof (ro_tab _ _ Hro) as Ht0.
  destruct (room_more _ _ _ _ _ Hro Hom) as [Hroom Hbnd].
  wp_step. apply wp_fs. eapply (wp_ilock_tab dv start size sb K); [done|done|exact Hx|done|exact He|done|].
  intros c1 f1 T1 Hcc Hx1 Ht1 He1 Hl1 Hco Hv1 Hr1 Hne1 Hrf1.
  assert (fcpu c1) as Hc1 by (by eapply same_fcpu). assert (curpid c1 = pid) as Hp1 by (by eapply same_pid).
  assert (i_type (T1 ip) = d_type (dnode V inum)) as Hte by (by rewrite <- Hco).
  assert (i_nlink (T1 ip) = d_nlink (dnode V inum)) as Hnle by (by rewrite <- Hco).
  destruct He1 as (Hlt & Hpos & Hin1).
  assert (i_ref (T1 ip) = irefs T0 inum + 1) as Hre.
  { rewrite Hr1, <- (irefs_entry dv sb T V None inum ip Ht He), Hrf, decide_True by done. done. }
  assert (keeps T0 T1) as Hkp1.
  { eapply keeps_same; [exact Hkp|]. intros i. destruct (decide (i = ip)) as [->|]; [|by rewrite Hne1]. split; [done|]. rewrite Hin1. symmetry. apply He. }
  assert (i_ref (T1 ip) <> 1 \/ i_valid (T1 ip) = 0 \/ i_nlink (T1 ip) <> 0) as Hkeep by (rewrite Hre, Hnle; destruct Hnl; [auto|left; lia]).
  wp_step. apply wp_fs. eapply (wp_get_inode dv start size sb K); [exact Hx1|]. rewrite Hte.
  (* giving the directory back with nothing found *)
  assert (forall c2 f2, same_cpu c1 c2 -> ftx pid f2 T1 V D F [] [] ->
    (d_type (dnode V inum) <> T_DIR \/ d_type (dnode V inum) = T_DIR /\ ~ (parent = true /\ default 0 (head path) = 0) /\ dir_find V (dnode V inum) (cstr DIRSIZ name) = None) ->
    wp (zoom fs_lens (iunlockput (Some ip)) ;; ret (inr None)) c2 (set_fs f2 s) Q) as Hgive.
  { intros c2 f2 Hcc2 Hx2 Hcase. wp_step. apply wp_fs.
    eapply (wp_iunlockput dv start size sb K); [by eapply same_fcpu|by eapply same_pid|exact Hx2|done|done|done|done|done|].
    intros c3 f3 T3 Hcc3 Hx3 Ht3 HT3 Hne3 Hr3. wp_step.
    apply (HQn Hcase c3 f3 T3); [eapply same_cpu_trans; [done|by eapply same_cpu_trans]|done|done|..].
    - intros k. rewrite Hr3, Hrf1, Hrf, Hin1. case_decide; lia.
    - eapply (keeps_drop T0 V None T1 V); [done|done|done|done|by rewrite HT3|by rewrite HT3|]. rewrite Hin1, Hrf1, Hrf, decide_True by done. lia. }
  destruct (Z.eqb_spec (d_type (dnode V inum)) T_DIR) as [Hdir|Hdir]; cbn [negb]; [|by apply Hgive; [| |left]].
  destruct (parent && (default 0 (head path) =? 0)) eqn:Epar.
  { apply andb_true_iff in Epar as [-> E0%Z.eqb_eq]. wp_step. apply wp_fs.
    eapply (wp_iunlock_tab dv start size sb K); [done|done|exact Hx1|done|done|done|done|]. intros c2 f2 T2 Hcc2 Hx2 Ht2 HT2 Hne2 Hr2. wp_step.
    apply (HQp Hdir eq_refl E0 c2 f2 T2); [by eapply same_cpu_trans|done|]. split; [done|split_and!; [done|by rewrite HT2|by rewrite HT2]|intros k; by rewrite Hr2, Hrf1, Hrf|].
    eapply keeps_same; [exact Hkp1|]. intros i. destruct (decide (i = ip)) as [->|]; [by rewrite HT2|by rewrite Hne2]. }
  assert (~ (parent = true /\ default 0 (head path) = 0)) as Hnp by (intros [-> E0]; by rewrite E0 in Epar).
  assert (has_room T1) as Hroom1.
  { destruct Hroom as (i & Hi' & E). exists i. split; [done|]. destruct (decide (i = ip)) as [->|]; [|by rewrite Hne1]. destruct He; lia. }
  wp_step. eapply (wp_dirlookup pid c1 f1 s T1 V D F ip inum name (Some ip)); [done|done|exact Hx1|done|done|done|done|by apply (it_dev _ _ _ _ _ Ht1)|done|done|done|..].
  { intros c2 f2 Hcc2 Hx2 Hnone. apply Hgive; [done|done|]. right. done. }
  intros c2 f2 i e j Hcc2 Hfind Hx2 Hj.
  pose proof Hfind as [Helem [Hne0 _]]%list_find_Some. apply list_elem_of_lookup_2 in Helem.
  destruct (tr_dirs _ Htr inum Hi Hdir) as [_ Hent]. destruct (Hent e Helem ltac:(apply Hne0)) as (Hek & Hekt & Hekn).
  assert (j < NINODE)%nat as Hjlt by (destruct Hj as [[]|[]]; done).
  set (T2 := upd_itable j (got dv T1 e.1 j) T1) in *.
  assert (i_ref (T1 j) + 1 < 1000000) as Hrj.
  { destruct (Hbnd j) as [?|?]; [|lia]. destruct (decide (j = ip)) as [->|]; [lia|rewrite Hne1 by done; lia]. }
  destruct (got_itab dv sb T1 V (Some ip) e.1 j Ht1 Hjlt Hek Hrj) as [Ht2 He2]; [naive_solver|]. fold T2 in Ht2, He2.
  assert (i_ref (T2 ip) = i_ref (T1 ip) + (if decide (j = ip) then 1 else 0) /\ i_lock (T2 ip) = mksleep 1 pid /\ i_nlink (T2 ip) = i_nlink (T1 ip) /\
    i_inum (T2 ip) = inum /\ (j = ip -> e.1 = inum)) as (Hr2 & Hl2 & Hn2 & Hi2 & Hje).
  { unfold T2. destruct (decide (j = ip)) as [->|Hne].
    - rewrite upd_itable_eq. unfold got. rewrite decide_True by done. cbn [set_ref i_ref i_lock i_nlink i_inum]. split_and!; try done.
      intros _. destruct Hj as [(_ & _ & <-)|(_ & E & _)]; [done|lia].
    - rewrite upd_itable_ne by done. split_and!; try done. lia. }
  pose proof (it_ref _ _ _ _ _ Ht1 ip) as Hb1.
  wp_step. apply wp_fs. eapply (wp_iunlockput dv start size sb K); [by eapply same_fcpu|by eapply same_pid|exact Hx2|done|done| |done| |].
  { rewrite Hr2. case_decide; lia. }
  { rewrite Hr2, Hn2. destruct Hkeep as [Hk|[Hk|Hk]]; [|done|auto]. left. case_decide; lia. }
  intros c3 f3 T3 Hcc3 Hx3 Ht3 HT3 Hne3 Hr3. wp_step.
  apply (HQs i e Hdir Hnp Hfind c3 f3 T3 j); [eapply same_cpu_trans; [done|by eapply same_cpu_trans]|done| |].
  - split; [done| | |].
    + destruct (decide (j = ip)) as [Hji|Hji].
      * split_and!; [done| |]; rewrite Hji, HT3; cbn [set_ref set_ilock i_ref i_inum]; [rewrite Hr2; lia|]. rewrite Hi2. symmetry. by apply Hje.
      * destruct He2 as (_ & Hp2 & E2). split_and!; [done|..]; by rewrite Hne3.
    + intros k. rewrite Hr3, Hi2. unfold T2. rewrite (irefs_got dv T1 e.1 j k Hjlt) by naive_solver. rewrite Hrf1, Hrf. repeat case_decide; lia.
    + eapply (keeps_drop T0 V None T2 V); [done|done|apply keeps_got; [done|naive_solver]|done|by rewrite HT3|by rewrite HT3|].
      rewrite Hi2. unfold T2. rewrite (irefs_got dv T1 e.1 j inum Hjlt) by naive_solver. rewrite Hrf1, Hrf. repeat case_decide; first [done|lia].
  - split_and!; try done; try lia.
Qed.

Lemma wp_namex_loop pid c f s T0 T V D F ip inum path name parent (Q : cpu -> kst -> option (nat * list Z) -> Prop) :
  fcpu c -> curpid c = pid -> ftx pid f T V D F [] [] -> tree_ok V -> table_room T0 V -> one_more T0 T V inum ip -> inode_ok T0 V inum ->
  Forall byte path -> Forall byte name ->
  (walk_path V parent inum (elements path) = None ->
   forall c' f' T', same_cpu c c' -> ftx pid f' T' V D F [] [] -> itab dv sb T' V None -> (forall k, irefs T' k = irefs T0 k) -> keeps T0 T' -> Q c' (set_fs f' s) None) ->
  (forall j e, walk_path V parent inum (elements path) = Some (j, e) ->
   forall c' f' T' k name', same_cpu c c' -> ftx pid f' T' V D F [] [] -> one_more T0 T' V j k -> (parent = true -> cstr DIRSIZ name' = e /\ Forall byte name') ->
     Q c' (set_fs f' s) (Some (k, name'))) ->
  wp (loop (S (length path)) (fun st : nat * list Z * list Z => let '(ip, path, name) := st in
    match skipelem path name with
    | Some (path, name) =>
        zoom fs_lens (ilock (Some ip)) ;;
        x <- zoom fs_lens (get_inode ip) ;;
        if negb (i_type x =? T_DIR) then zoom fs_lens (iunlockput (Some ip)) ;; ret (inr None)
        else if parent && (default 0 (head path) =? 0) then zoom fs_lens (iunlock (Some ip)) ;; ret (inr (Some (ip, name)))
        else r <- dirlookup ip name ;;
             match r with
             | None => zoom fs_lens (iunlockput (Some ip)) ;; ret (inr None)
             | Some (next, _) => zoom fs_lens (iunlockput (Some ip)) ;; ret (inl (next, path, name))
             end
    | None => if parent then zoom fs_lens (iput ip) ;; ret (inr None) else ret (inr (Some (ip, name)))
    end) (ip, path, name)) c (set_fs f s) Q.
Proof.
  intros Hc Hp Hx Htr Hro Hom Hok Hbp Hbn HQn HQs. remember (walk_path V parent inum (elements path)) as R eqn:HR. symmetry in HR.
  eapply (wp_loop (fun st c' s' => let '(ip, path, name) := st in exists f' T' inum, same_cpu c c' /\ s' = set_fs f' s /\
    ftx pid f' T' V D F [] [] /\ one_more T0 T' V inum ip /\ inode_ok T0 V inum /\ Forall byte path /\ Forall byte name /\
    walk_path V parent inum (elements path) = R) (fun st => length st.1.2)); [|simpl; lia|].
  2: { exists f, T, inum. done. }
  clear ip path name inum f T Hx Hom Hok Hbp Hbn HR. intros [[ip path] name] c1 s1 (f1 & T1 & inum & Hcc & -> & Hx & Hom & Hok & Hbp & Hbn & HR). cbn [fst snd].
  assert (fcpu c1) as Hc1 by (by eapply same_fcpu). assert (curpid c1 = pid) as Hp1 by (by eapply same_pid).
  pose proof (skipelem_spec path name) as Hsk. destruct (skipelem path name) as [[path' name']|] eqn:E.
  - destruct Hsk as (Hel & Hlen & Hhd). destruct (skipelem_bytes _ _ _ _ Hbp Hbn E) as [Hbp' Hbn'].
    rewrite Hel in HR. cbn [walk_path] in HR. pose proof (elements_end path' Hhd) as Hend.
    eapply (wp_namex_step pid c1 f1 s T0 T1 V D F ip inum name' _ path' parent); [done|done|exact Hx|done|done|done|done|done|..].
    + intros Hcase c' f' T' Hcc' Hx' Ht' Hr' Hk'. eapply HQn; [|by eapply same_cpu_trans|exact Hx'|done|done|done]. rewrite <- HR. clear HR.
      destruct Hcase as [Hd|(Hd & Hnp & Hf)]; [by rewrite (proj2 (Z.eqb_neq _ _) Hd)|]. rewrite (proj2 (Z.eqb_eq _ _) Hd), Hf. cbn [negb].
      destruct (parent && bool_decide (elements path' = [])) eqn:Ep; [|done]. apply andb_true_iff in Ep as [-> Ee%bool_decide_eq_true]. exfalso. apply Hnp. split; [done|by apply Hend].
    + intros Hd -> H0 c' f' T' Hcc' Hx' Hom'. apply Hend in H0. rewrite (proj2 (Z.eqb_eq _ _) Hd), (bool_decide_eq_true_2 _ H0) in HR. cbn in HR.
      eapply (HQs inum (cstr DIRSIZ name')); [by symmetry|by eapply same_cpu_trans|exact Hx'|done|done].
    + intros i e Hd Hnp Hf c' f' T' k Hcc' Hx' Hom' Hok'. split; [|cbn [fst snd]; lia]. exists f', T', e.1.
      do 5 (split; [first [by eapply same_cpu_trans | done]|]). do 2 (split; [done|]).
      rewrite (proj2 (Z.eqb_eq _ _) Hd), Hf in HR. cbn [negb] in HR.
      destruct (parent && bool_decide (elements path' = [])) eqn:Ep; [|by destruct e].
      apply andb_true_iff in Ep as [-> Ee%bool_decide_eq_true]. exfalso. apply Hnp. split; [done|by apply Hend].
  - rewrite Hsk in HR. cbn [walk_path] in HR. destruct parent.
    + pose proof Hom as [Ht He Hrf Hkp]. destruct He as (Hlt & Hpos & Hin). wp_step. apply wp_fs.
      eapply (wp_iput_tab dv start size sb K); [done|exact Hx|done|done|done| |].
      { destruct (decide (i_valid (T1 ip) = 0)); [auto|]. pose proof (it_valid _ _ _ _ _ Ht ip Hlt Hpos ltac:(done)) as Hco.
        destruct Hok as (_ & _ & [Hnl|Hr]).
        - right; right. replace (i_nlink (T1 ip)) with (d_nlink (core (T1 ip))) by done. by rewrite Hco, Hin.
        - left. rewrite <- (irefs_entry dv sb T1 V None inum ip Ht) by done. rewrite Hrf, decide_True by done. lia. }
      intros f2 T2 Hx2 Ht2 HT2 Hne2 Hr2. wp_step. apply (HQn ltac:(by symmetry) c1 f2 T2); try done; [intros k; rewrite Hr2, Hrf, Hin; case_decide; lia|].
      eapply (keeps_drop T0 V None T1 V); [apply Hro|done|done|done|by rewrite HT2|by rewrite HT2|]. rewrite Hin, Hrf, decide_True by done. lia.
    + wp_step. eapply (HQs inum []); [by symmetry|done|exact Hx|done|done].
Qed.

(** Where a path starts: at the root, or at the current directory of the process. *)
Definition starts_at (c : cpu) (s : kst) (T0 : nat -> inode) (path : list Z) (j : Z) : Prop :=
  if default 0 (head path) =? slash then dv = ROOTDEV /\ j = ROOTINO
  else exists k, p_cwd (k_procs s (me c)) = Some k /\ entry T0 j k.

Lemma wp_namex pid c f s T0 V D F j0 path name parent (Q : cpu -> kst -> option (nat * list Z) -> Prop) :
  fcpu c -> curpid c = pid -> ftx pid f T0 V D F [] [] -> tree_ok V -> table_room T0 V -> starts_at c s T0 path j0 -> inode_ok T0 V j0 ->
  Forall byte path -> Forall byte name ->
  (walk_path V parent j0 (elements path) = None ->
   forall c' f' T', same_cpu c c' -> ftx pid f' T' V D F [] [] -> itab dv sb T' V None -> (forall k, irefs T' k = irefs T0 k) -> keeps T0 T' -> Q c' (set_fs f' s) None) ->
  (forall j e, walk_path V parent j0 (elements path) = Some (j, e) ->
   forall c' f' T' k name', same_cpu c c' -> ftx pid f' T' V D F [] [] -> one_more T0 T' V j k -> (parent = true -> cstr DIRSIZ name' = e /\ Forall byte name') ->
     Q c' (set_fs f' s) (Some (k, name'))) ->
  wp (namex path parent name) c (set_fs f s) Q.
Proof.
  intros Hc Hp Hx Htr Hro Hst Hok Hbp Hbn HQn HQs. pose proof Hro as [Ht0 Hh Hr]. unfold namex, starts_at in *. wp_step.
  assert (forall i, i_ref (T0 i) + 1 < 1000000 \/ (NINODE <= i)%nat) as Hbnd.
  { intros i. destruct (decide (i < NINODE)%nat) as [Hi|]; [left|right; lia]. pose proof (it_ref _ _ _ _ _ Ht0 i).
    destruct (decide (0 < i_ref (T0 i))); [|lia]. rewrite <- (irefs_entry dv sb T0 V None (i_inum (T0 i)) i Ht0) by done. specialize (Hr (i_inum (T0 i))). lia. }
  destruct (Z.eqb_spec (default 0 (head path)) slash) as [Hs|Hs].
  - destruct Hst as [<- ->]. apply wp_fs. eapply (wp_iget dv start size sb K); [done|exact Hx|exact Ht0|apply Hok| |].
    { destruct (room_of_bound dv sb T0 V None Ht0) as (i & Hi & E); [lia|]. exists i. split; [done|by left]. }
    intros f1 i Hx1 Hi. assert (i < NINODE)%nat as Hilt by (destruct Hi as [[]|[]]; done).
    destruct (got_itab dv sb T0 V None ROOTINO i Ht0 Hilt) as [Ht1 He1]; [apply Hok|destruct (Hbnd i); lia|naive_solver|].
    eapply (wp_namex_loop pid c f1 s T0); [done|done|exact Hx1|done|done| |exact Hok|done|done|done|done].
    split; [done|done|intros k; apply irefs_got; [done|naive_solver]|]. apply keeps_got; [apply keeps_refl|naive_solver].
  - destruct Hst as (k & Hcwd & He). unfold myproc, get_proc. wp_step. wp_step. wp_step. wp_step. cbn [k_procs set_fs]. rewrite Hcwd. change (default 0%nat (Some k)) with k.
    apply wp_fs. eapply (wp_idup dv start size sb K); [done|exact Hx|]. intros f1 Hx1. pose proof He as (Hk & Hpos & Hin).
    assert (set_ref (i_ref (T0 k) + 1) = got dv T0 j0 k) as Hg by (unfold got; by rewrite decide_True).
    rewrite Hg in Hx1. destruct (got_itab dv sb T0 V None j0 k Ht0 Hk) as [Ht1 He1]; [apply Hok|destruct (Hbnd k); lia|by left|].
    eapply (wp_namex_loop pid c f1 s T0); [done|done|exact Hx1|done|done| |exact Hok|done|done|done|done].
    split; [done|done|intros j; apply irefs_got; [done|by left]|]. apply keeps_got; [apply keeps_refl|by left].
Qed.
End dir.
