(* ===== verification/Uart.v ===== *)
(** The 16550a UART driver, kernel/uart.c, on its transmit buffer and the device. *)
From S2P Require Import Prelude Riscv Sleeplock Bio Log Fs State.

(** Register numbers and bits. *)
Definition RHR : Z := 0.
Definition THR : Z := 0.
Definition IER : Z := 1.
Definition IER_RX_ENABLE : Z := Z.shiftl 1 0.
Definition IER_TX_ENABLE : Z := Z.shiftl 1 1.
Definition FCR : Z := 2.
Definition FCR_FIFO_ENABLE : Z := Z.shiftl 1 0.
Definition FCR_FIFO_CLEAR : Z := Z.shiftl 3 1.
Definition LCR : Z := 3.
Definition LCR_EIGHT_BITS : Z := Z.shiftl 3 0.
Definition LCR_BAUD_LATCH : Z := Z.shiftl 1 7.
Definition LSR_RX_READY : Z := Z.shiftl 1 0.
Definition LSR_TX_IDLE : Z := Z.shiftl 1 5.
Definition UART_TX_BUF_SIZE : Z := 32.

(** * The device *)

(** A read of LSR: input ready, transmitter idle. *)
Definition read_lsr : M uart Z := fun c s =>
  Ret c (mkuart (u_buf s) (u_w s) (u_r s) (u_rx s) (u_out s) (pred (u_busy s)) (u_delay s) (u_cfg s) (u_panicked s))
    (Z.lor (match u_rx s with [] => 0 | _ => LSR_RX_READY end) (match u_busy s with O => LSR_TX_IDLE | _ => 0 end)).
(** A read of RHR takes the next received byte. *)
Definition read_rhr : M uart Z := fun c s =>
  Ret c (mkuart (u_buf s) (u_w s) (u_r s) (tail (u_rx s)) (u_out s) (u_busy s) (u_delay s) (u_cfg s) (u_panicked s)) (default 0 (head (u_rx s))).
(** A write of THR sends a byte, after which the transmitter is busy for a while. *)
Definition write_thr (v : Z) : M uart unit :=
  modify (fun s => mkuart (u_buf s) (u_w s) (u_r s) (u_rx s) (u_out s ++ [u8 v]) (u_delay s (length (u_out s))) (u_delay s) (u_cfg s) (u_panicked s)).
Definition write_reg (r v : Z) : M uart unit :=
  modify (fun s => mkuart (u_buf s) (u_w s) (u_r s) (u_rx s) (u_out s) (u_busy s) (u_delay s) (u_cfg s ++ [(r, v)]) (u_panicked s)).

(** * The driver *)

(** While the baud latch is set, registers 0 and 1 are the divisor. *)
Definition uartinit : M uart unit :=
  write_reg IER 0 ;;
  write_reg LCR LCR_BAUD_LATCH ;;
  write_reg 0 3 ;;
  write_reg 1 0 ;;
  write_reg LCR LCR_EIGHT_BITS ;;
  write_reg FCR (Z.lor FCR_FIFO_ENABLE FCR_FIFO_CLEAR) ;;
  write_reg IER (Z.lor IER_TX_ENABLE IER_RX_ENABLE) ;;
  initlock LUartTx.

Definition set_tx (b : list Z) (w r : Z) (s : uart) : uart :=
  mkuart b w r (u_rx s) (u_out s) (u_busy s) (u_delay s) (u_cfg s) (u_panicked s).

(** Each round of the loop takes a byte off the buffer, which holds at most
    [UART_TX_BUF_SIZE]. *)
Definition uartstart : M uart unit :=
  loop (S (S (Z.to_nat UART_TX_BUF_SIZE))) (fun _ : unit =>
    s <- gets (fun s => s) ;;
    if u_w s =? u_r s then ret (inr tt) else
    lsr <- read_lsr ;;
    if Z.land lsr LSR_TX_IDLE =? 0 then ret (inr tt) else
    s <- gets (fun s => s) ;;
    let c := default 0 (u_buf s !! Z.to_nat (u_r s mod UART_TX_BUF_SIZE)) in
    modify (fun s => set_tx (u_buf s) (u_w s) (u64 (u_r s + 1)) s) ;;
    wakeup ChUartTx ;;
    write_thr c ;;
    ret (inl tt)) tt.

(** [for(;;);] does not end. *)
Definition uartputc (c : Z) : M uart unit :=
  acquire LUartTx ;;
  p <- gets u_panicked ;;
  if negb (p =? 0) then diverge else
  sleep_loop (fun _ : unit =>
    s <- gets (fun s => s) ;;
    if u_w s =? u64 (u_r s + UART_TX_BUF_SIZE) then sleep ChUartTx LUartTx ;; ret (inl tt)
    else ret (inr tt)) tt ;;
  modify (fun s => set_tx (<[Z.to_nat (u_w s mod UART_TX_BUF_SIZE) := u8 c]> (u_buf s)) (u_w s) (u_r s) s) ;;
  modify (fun s => set_tx (u_buf s) (u64 (u_w s + 1)) (u_r s) s) ;;
  uartstart ;;
  release LUartTx.

(** The wait ends after as many reads of LSR as the device is busy. *)
Definition uartputc_sync (c : Z) : M uart unit :=
  push_off ;;
  p <- gets u_panicked ;;
  if negb (p =? 0) then diverge else
  n <- gets u_busy ;;
  loop (S n) (fun _ : unit =>
    lsr <- read_lsr ;;
    if Z.land lsr LSR_TX_IDLE =? 0 then ret (inl tt) else ret (inr tt)) tt ;;
  write_thr c ;;
  pop_off.

Definition uartgetc : M uart Z :=
  lsr <- read_lsr ;;
  if negb (Z.land lsr 1 =? 0) then read_rhr else ret (-1).
