(* ===== verification/Console.v ===== *)
(** The console, kernel/console.c (and [uartintr] of kernel/uart.c, which feeds it). *)
From S2P Require Import Prelude Memory Riscv Kalloc Vm Sleeplock Bio Log Fs State Process Uart.

Definition BACKSPACE : Z := 0x100.
Definition ctrl (x : Z) : Z := x - 64.
Definition INPUT_BUF_SIZE : Z := 128.
Definition C_P : Z := ctrl 80.
Definition C_U : Z := ctrl 85.
Definition C_H : Z := ctrl 72.
Definition C_D : Z := ctrl 68.
Definition newline : Z := 10.
Definition carriage : Z := 13.
Definition delete_key : Z := 127.

Definition consputc (c : Z) : M uart unit :=
  if c =? BACKSPACE then
    uartputc_sync 8 ;;
    uartputc_sync 32 ;;
    uartputc_sync 8
  else uartputc_sync c.

Definition cbuf_at (s : console) (i : Z) : Z := default 0 (c_buf s !! Z.to_nat (i mod INPUT_BUF_SIZE)).

Section console.
Context `{Layout}.

Definition consolewrite (src : ksrc) (n : Z) : M kst Z :=
  loop (S (Z.to_nat n)) (fun st : Z * ksrc => let '(i, src) := st in
    if i <? n then
      r <- either_copyin src 1 ;;
      if fst r =? -1 then ret (inr i) else
      zoom uart_lens (uartputc (default 0 (head (snd r)))) ;;
      let src := match src with SUser va => SUser (u64 (va + 1)) | SKern l => SKern (tail l) end in
      ret (inl (i + 1, src))
    else ret (inr i)) (0, src).

(** The result pairs the return value with the bytes for a kernel destination. The inner loop
    leaves with [true] when input has come, with [false] when the process was killed. *)
Definition consoleread (dst : kdst) (n : Z) : M kst (Z * list Z) :=
  let target := u32 n in
  acquire LCons ;;
  r <- loop (S (Z.to_nat n)) (fun st : Z * kdst * list Z => let '(n, dst, acc) := st in
    if n >? 0 then
      b <- sleep_loop (fun _ : unit =>
        s <- gets k_cons ;;
        if c_r s =? c_w s then
          p <- myproc ;;
          k <- killed p ;;
          if negb (k =? 0) then ret (inr false) else
          ksleep ChCons LCons ;;
          ret (inl tt)
        else ret (inr true)) tt ;;
      if negb b then ret (inr None) else
      s <- gets k_cons ;;
      let c := cbuf_at s (c_r s) in
      zoom cons_lens (modify (fun s => mkcons (c_buf s) (u32 (c_r s + 1)) (c_w s) (c_e s))) ;;
      if c =? C_D then
        (if u32 n <? target then
           zoom cons_lens (modify (fun s => mkcons (c_buf s) (u32 (c_r s - 1)) (c_w s) (c_e s)))
         else ret tt) ;;
        ret (inr (Some (n, acc)))
      else
        r <- either_copyout dst [u8 c] 1 ;;
        if fst r =? -1 then ret (inr (Some (n, acc))) else
        let dst := match dst with DUser va => DUser (u64 (va + 1)) | DKern => DKern end in
        if c =? newline then ret (inr (Some (n - 1, acc ++ snd r)))
        else ret (inl (n - 1, dst, acc ++ snd r))
    else ret (inr (Some (n, acc)))) (n, dst, []) ;;
  release LCons ;;
  match r with
  | None => ret (-1, [])
  | Some (n, acc) => ret (s32 (target - n), acc)
  end.

(** The kill-line loop takes one character back per round. *)
Definition consoleintr (c : Z) : M kst unit :=
  acquire LCons ;;
  (if c =? C_P then procdump
   else if c =? C_U then
     loop (S (Z.to_nat INPUT_BUF_SIZE)) (fun _ : unit =>
       s <- gets k_cons ;;
       if negb (c_e s =? c_w s) && negb (cbuf_at s (u32 (c_e s - 1)) =? newline) then
         zoom cons_lens (modify (fun s => mkcons (c_buf s) (c_r s) (c_w s) (u32 (c_e s - 1)))) ;;
         zoom uart_lens (consputc BACKSPACE) ;;
         ret (inl tt)
       else ret (inr tt)) tt
   else if (c =? C_H) || (c =? delete_key) then
     s <- gets k_cons ;;
     if negb (c_e s =? c_w s) then
       zoom cons_lens (modify (fun s => mkcons (c_buf s) (c_r s) (c_w s) (u32 (c_e s - 1)))) ;;
       zoom uart_lens (consputc BACKSPACE)
     else ret tt
   else
     s <- gets k_cons ;;
     if negb (c =? 0) && (u32 (c_e s - c_r s) <? INPUT_BUF_SIZE) then
       let c := if c =? carriage then newline else c in
       zoom uart_lens (consputc c) ;;
       zoom cons_lens (modify (fun s =>
         mkcons (<[Z.to_nat (c_e s mod INPUT_BUF_SIZE) := u8 c]> (c_buf s)) (c_r s) (c_w s) (u32 (c_e s + 1)))) ;;
       s <- gets k_cons ;;
       if (c =? newline) || (c =? C_D) || (u32 (c_e s - c_r s) =? INPUT_BUF_SIZE) then
         zoom cons_lens (modify (fun s => mkcons (c_buf s) (c_r s) (c_e s) (c_e s))) ;;
         kwakeup ChCons
       else ret tt
     else ret tt) ;;
  release LCons.

Definition consoleinit : M kst unit :=
  initlock LCons ;;
  zoom uart_lens uartinit ;;
  modify (fun s => set_devsw (updn CONSOLE (fun d => mkdevsw (Some ConsoleRead) (d_write d)) (k_devsw s)) s) ;;
  modify (fun s => set_devsw (updn CONSOLE (fun d => mkdevsw (d_read d) (Some ConsoleWrite)) (k_devsw s)) s).

(** One round per byte received, and one more. *)
Definition uartintr : M kst unit :=
  n <- gets (fun s => length (u_rx (k_uart s))) ;;
  loop (S n) (fun _ : unit =>
    c <- zoom uart_lens uartgetc ;;
    if c =? -1 then ret (inr tt) else consoleintr c ;; ret (inl tt)) tt ;;
  zoom uart_lens (acquire LUartTx ;; uartstart ;; release LUartTx).
End console.
