(* ===== verification/Printf.v ===== *)
(** Formatted output to the console, kernel/printf.c. *)
From stdpp Require Import pretty.
From S2P Require Import Prelude Memory Riscv Kalloc Vm Sleeplock Bio Log Fs State Process Uart Console.

#[local] Arguments loop : simpl never.

(** * The code *)

(** [pr.locking] and the device, which has the flag [panicked]. *)
Record prst := mkprst { pr_locking : Z; pr_uart : uart }.
Definition pr_uart_lens : lens prst uart := mklens pr_uart (fun u s => mkprst (pr_locking s) u).

Definition digits : list Z := bytes_of "0123456789abcdef".
Definition digit (i : Z) : Z := default 0 (digits !! Z.to_nat i).

(** The [do] loop of [printint], with the part of [buf] that is filled; [x] is an [uint], so
    32 rounds are enough. *)
Fixpoint fill_digits (fuel : nat) (x base : Z) (buf : list Z) : list Z :=
  match fuel with
  | O => buf
  | S k =>
      let buf := buf ++ [digit (x mod base)] in
      if x / base =? 0 then buf else fill_digits k (x / base) base buf
  end.

Definition int_buf (xx base : Z) (sign : bool) : list Z :=
  let neg := sign && (xx <? 0) in
  let x := u32 (if neg then - xx else xx) in
  let buf := fill_digits 32 x base [] in
  if neg then buf ++ [45] else buf.

Fixpoint put_all (l : list Z) : M uart unit :=
  match l with
  | [] => ret tt
  | c :: l' => consputc c ;; put_all l'
  end.

(** The last loop goes from the end of [buf] to its start. *)
Definition printint (xx base : Z) (sign : bool) : M uart unit := put_all (reverse (int_buf xx base sign)).

Fixpoint put_nibbles (k : nat) (x : Z) : M uart unit :=
  match k with
  | O => ret tt
  | S k' => consputc (digit (Z.shiftr x 60)) ;; put_nibbles k' (u64 (Z.shiftl x 4))
  end.
Definition printptr (x : Z) : M uart unit := consputc 48 ;; consputc 120 ;; put_nibbles 16 x.

(** A string argument is printed up to its NUL. *)
Fixpoint put_str (s : list Z) : M uart unit :=
  match s with
  | [] => ret tt
  | c :: s' => if c =? 0 then ret tt else consputc c ;; put_str s'
  end.

(** The loop over the format; taking an argument that is not there or of another type is
    undefined behaviour. *)
Fixpoint printf_loop (fmt : list Z) (ap : list parg) : M uart unit :=
  match fmt with
  | [] => ret tt
  | c :: rest =>
      if c =? 0 then ret tt
      else if negb (c =? 37) then consputc c ;; printf_loop rest ap
      else match rest with
      | [] => ret tt
      | c :: rest =>
          if c =? 0 then ret tt
          else if c =? 100 then
            match ap with PInt x :: ap => printint (s32 x) 10 true ;; printf_loop rest ap | _ => panic "undefined: va_arg" end
          else if c =? 120 then
            match ap with PInt x :: ap => printint (s32 x) 16 true ;; printf_loop rest ap | _ => panic "undefined: va_arg" end
          else if c =? 112 then
            match ap with PPtr x :: ap => printptr x ;; printf_loop rest ap | _ => panic "undefined: va_arg" end
          else if c =? 115 then
            match ap with
            | PStr s :: ap => put_str (default (bytes_of "(null)") s) ;; printf_loop rest ap
            | _ => panic "undefined: va_arg"
            end
          else if c =? 37 then consputc 37 ;; printf_loop rest ap
          else consputc 37 ;; consputc c ;; printf_loop rest ap
      end
  end.

(** A null format is [None]. *)
Definition kprintf (fmt : option (list Z)) (ap : list parg) : M prst unit :=
  locking <- gets pr_locking ;;
  (if negb (locking =? 0) then acquire LPr else ret tt) ;;
  match fmt with
  | None => panic "null fmt"
  | Some fmt =>
      zoom pr_uart_lens (printf_loop fmt ap) ;;
      if negb (locking =? 0) then release LPr else ret tt
  end.

(** What [panic] does before it spins for ever. *)
Definition panic_report (s : option (list Z)) : M prst unit :=
  modify (fun x => mkprst 0 (pr_uart x)) ;;
  kprintf (Some (bytes_of "panic: ")) [] ;;
  kprintf s [] ;;
  kprintf (Some (bytes_of nl)) [] ;;
  zoom pr_uart_lens (modify (fun u => mkuart (u_buf u) (u_w u) (u_r u) (u_rx u) (u_out u) (u_busy u) (u_delay u) (u_cfg u) 1)).

Definition printfinit : M prst unit :=
  initlock LPr ;;
  modify (fun x => mkprst 1 (pr_uart x)).

(** * Sending to the device *)

(** The device was sent [l], and nothing else changed. *)
Record sent (l : list Z) (u u' : uart) : Prop := {
  se_out : u_out u' = u_out u ++ l;
  se_buf : u_buf u' = u_buf u; se_w : u_w u' = u_w u; se_r : u_r u' = u_r u; se_rx : u_rx u' = u_rx u;
  se_delay : u_delay u' = u_delay u; se_cfg : u_cfg u' = u_cfg u; se_panicked : u_panicked u' = u_panicked u;
}.

Lemma sent_nil u : sent [] u u.
Proof. split; try done. by rewrite app_nil_r. Qed.
Lemma sent_app l l' u u1 u2 : sent l u u1 -> sent l' u1 u2 -> sent (l ++ l') u u2.
Proof. intros [] []. split; try congruence. rewrite app_assoc. congruence. Qed.

Lemma lsr_idle x : Z.land (Z.lor x LSR_TX_IDLE) LSR_TX_IDLE <> 0.
Proof.
  intros He. assert (Z.testbit (Z.land (Z.lor x LSR_TX_IDLE) LSR_TX_IDLE) 5 = false) as Hb by (by rewrite He).
  rewrite Z.land_spec, Z.lor_spec in Hb. by rewrite orb_true_r in Hb.
Qed.

(** The wait for the transmitter ends, and the byte goes out. *)
Lemma wp_wait_tx n c u (Q : cpu -> uart -> unit -> Prop) :
  (u_busy u < n)%nat -> (forall u', sent [] u u' -> Q c u' tt) ->
  wp (loop n (fun _ : unit => lsr <- read_lsr ;; if Z.land lsr LSR_TX_IDLE =? 0 then ret (inl tt) else ret (inr tt)) tt) c u Q.
Proof.
  revert u. induction n as [|n IH]; intros u Hn HQ; [lia|]. rewrite loop_S. wp_step. wp_step. unfold read_lsr at 1. unfold wp at 1.
  assert (forall b, sent [] u (mkuart (u_buf u) (u_w u) (u_r u) (u_rx u) (u_out u) b (u_delay u) (u_cfg u) (u_panicked u))) as Hs.
  { intros b. split; try done. by rewrite app_nil_r. }
  destruct (u_busy u) as [|k] eqn:Hb.
  - rewrite (proj2 (Z.eqb_neq _ _) (lsr_idle _)). wp_steps. apply HQ, Hs.
  - rewrite Z.lor_0_r. assert (Z.land (match u_rx u with [] => 0 | _ => LSR_RX_READY end) LSR_TX_IDLE = 0) as -> by (by destruct (u_rx u)).
    cbn [Z.eqb]. wp_steps. apply IH; [simpl; lia|]. intros u' Hu'. apply HQ. apply (sent_app [] [] u _ u' (Hs _) Hu').
Qed.

Lemma wp_uartputc_sync x c u (Q : cpu -> uart -> unit -> Prop) :
  u_panicked u = 0 -> (forall u', sent [u8 x] u u' -> Q c u' tt) -> wp (uartputc_sync x) c u Q.
Proof.
  intros Hp HQ. unfold uartputc_sync. wp_step. unfold push_off at 1, wp at 1. wp_step. wp_step. rewrite Hp. cbn [Z.eqb negb]. wp_step. wp_step. wp_step. apply wp_wait_tx; [lia|]. intros u1 Hu1.
  unfold write_thr. wp_step. wp_step. unfold pop_off, wp. cbn [held set_held]. rewrite decide_True by set_solver. destruct c. apply HQ. apply (sent_app [] _ u u1); [done|by split].
Qed.

Lemma wp_consputc x c u (Q : cpu -> uart -> unit -> Prop) :
  u_panicked u = 0 -> 0 <= x < 256 -> (forall u', sent [x] u u' -> Q c u' tt) -> wp (consputc x) c u Q.
Proof.
  intros Hp Hx HQ. unfold consputc. rewrite (proj2 (Z.eqb_neq x BACKSPACE)) by (unfold BACKSPACE; lia).
  apply wp_uartputc_sync; [done|]. rewrite u8_small by done. exact HQ.
Qed.

(** After a panic nothing is sent any more. *)
Lemma consputc_panicked x c u : u_panicked u <> 0 -> consputc x c u = Diverge.
Proof.
  intros Hp. assert (forall x, uartputc_sync x c u = Diverge) as Hs.
  { intros y. unfold uartputc_sync, bind at 1, push_off. cbn [obind]. unfold bind at 1, gets at 1. cbn [obind]. by rewrite (proj2 (Z.eqb_neq _ _) Hp). }
  unfold consputc. destruct (x =? BACKSPACE); [unfold bind at 1; by rewrite Hs|apply Hs].
Qed.

Definition char (x : Z) : Prop := 0 <= x < 256.

Lemma wp_put_all l c u (Q : cpu -> uart -> unit -> Prop) :
  u_panicked u = 0 -> Forall char l -> (forall u', sent l u u' -> Q c u' tt) -> wp (put_all l) c u Q.
Proof.
  intros Hp Hl. revert u Hp. induction Hl as [|x l Hx Hl IH]; intros u Hp HQ; simpl; [wp_step; apply HQ, sent_nil|].
  wp_step. apply wp_consputc; [done..|]. intros u1 H1. apply IH; [by rewrite (se_panicked _ _ _ H1)|]. intros u2 H2. apply HQ. by apply (sent_app [x] l u u1).
Qed.

(** The characters of a string, up to its NUL. *)
Fixpoint until0 (s : list Z) : list Z :=
  match s with
  | [] => []
  | c :: s' => if c =? 0 then [] else c :: until0 s'
  end.

Lemma put_str_all s : put_str s = put_all (until0 s).
Proof. induction s as [|x s IH]; simpl; [done|]. destruct (x =? 0); simpl; [done|]. by rewrite IH. Qed.
Lemma until0_char s : Forall char s -> Forall char (until0 s).
Proof. induction 1 as [|x s Hx Hs IH]; simpl; [constructor|]. destruct (x =? 0); [constructor|]. by constructor. Qed.

(** * Numbers *)

(** The digits of a number, least significant first, as the loops that print numbers find them. *)
Fixpoint numeral (dig : Z -> Z) (fuel : nat) (x base : Z) : list Z :=
  match fuel with
  | O => []
  | S k => dig (x mod base) :: if x / base =? 0 then [] else numeral dig k (x / base) base
  end.

(** The [n] lowest hexadecimal digits, most significant first. *)
Definition hex_of (dig : Z -> Z) (n : nat) (x : Z) : list Z := (fun i => dig (x / 16 ^ (Z.of_nat n - 1 - i) mod 16)) <$> seqZ 0 (Z.of_nat n).
(** How many digits a number has without leading zeros. *)
Definition hex_len (x : Z) : nat := Z.to_nat (Z.log2 x / 4 + 1).

Section numerals.
Context (dig : Z -> Z).

Lemma hex_of_snoc n x : hex_of dig (S n) x = hex_of dig n (x / 16) ++ [dig (x mod 16)].
Proof.
  unfold hex_of. rewrite Nat2Z.inj_succ. unfold Z.succ. rewrite seqZ_app by lia. rewrite fmap_app. f_equal.
  - apply list_fmap_ext. intros i j Hj%list_elem_of_lookup_2%elem_of_seqZ. f_equal. f_equal.
    replace (Z.of_nat n + 1 - 1 - j) with (Z.succ (Z.of_nat n - 1 - j)) by lia. rewrite Z.pow_succ_r by lia. rewrite Z.div_div by (try apply Z.pow_pos_nonneg; lia). done.
  - change (seqZ (0 + Z.of_nat n) 1) with [Z.of_nat n]. cbn [fmap list_fmap]. replace (Z.of_nat n + 1 - 1 - Z.of_nat n) with 0 by lia. by rewrite Z.pow_0_r, Z.div_1_r.
Qed.

Lemma numeral_hex_len n x fuel : 0 <= x -> (0 < n)%nat -> x < 16 ^ Z.of_nat n -> (n = 1%nat \/ 16 ^ (Z.of_nat n - 1) <= x) -> (n <= fuel)%nat ->
  reverse (numeral dig fuel x 16) = hex_of dig n x.
Proof.
  intros Hx Hn. revert x Hx fuel. induction n as [|n IH]; intros x Hx fuel Hlt Hlow Hf; [lia|]. destruct fuel as [|fuel]; [lia|]. rewrite Nat2Z.inj_succ, Z.pow_succ_r in Hlt by lia.
  cbn [numeral]. rewrite hex_of_snoc, reverse_cons. f_equal. destruct (Z.eqb_spec (x / 16) 0) as [E|E].
  - assert (n = 0%nat) as ->; [|done]. destruct n as [|n]; [done|]. destruct Hlow as [|Hlow]; [done|]. replace (Z.of_nat (S (S n)) - 1) with (Z.succ (Z.of_nat n)) in Hlow by lia. rewrite Z.pow_succ_r in Hlow by lia.
    assert (0 < 16 ^ Z.of_nat n) by (apply Z.pow_pos_nonneg; lia). dlia.
  - destruct n as [|n]; [change (16 * 16 ^ Z.of_nat 0) with 16 in Hlt; dlia|]. apply IH; [lia|dlia|dlia| |lia].
    destruct n as [|n]; [by left|]. destruct Hlow as [|Hlow]; [done|right]. replace (Z.of_nat (S (S (S n))) - 1) with (Z.succ (Z.of_nat (S (S n)) - 1)) in Hlow by lia. rewrite Z.pow_succ_r in Hlow by lia. dlia.
Qed.

(** In base 16: no leading zeros. *)
Lemma numeral_hex y : 0 <= y < 4294967296 -> reverse (numeral dig 32 y 16) = hex_of dig (hex_len y) y.
Proof.
  intros Hr. pose proof (Z.log2_nonneg y) as H0. unfold hex_len. destruct (decide (y = 0)) as [->|Hy]; [done|].
  destruct (Z.log2_spec y) as [L1 L2]; [lia|]. assert (Z.log2 y < 32) as H32 by (apply Z.log2_lt_pow2; lia). apply numeral_hex_len; [lia|dlia| | |dlia].
  - rewrite Z2Nat.id by dlia. change 16 with (2 ^ 4). rewrite <- Z.pow_mul_r by dlia. eapply Z.lt_le_trans; [exact L2|]. apply Z.pow_le_mono_r; dlia.
  - right. rewrite Z2Nat.id by dlia. change 16 with (2 ^ 4). rewrite <- Z.pow_mul_r by dlia. etransitivity; [|exact L1]. apply Z.pow_le_mono_r; dlia.
Qed.

(** In base 10: decimal notation. *)
Context (Hdig : forall i, 0 <= i < 10 -> dig i = 48 + i).

Lemma pretty_digit i : 0 <= i < 10 -> Z.of_nat (Ascii.nat_of_ascii (pretty_N_char (Z.to_N i))) = dig i.
Proof.
  intros Hi. rewrite Hdig by done. assert (forallb (fun i => Z.of_nat (Ascii.nat_of_ascii (pretty_N_char (Z.to_N i))) =? 48 + i) (seqZ 0 10) = true) as Hf by (vm_compute; done).
  rewrite forallb_forall in Hf. apply Z.eqb_eq, Hf, list_elem_of_In, elem_of_seqZ. lia.
Qed.
Lemma numeral_pretty_go fuel x s : 0 < x < 10 ^ Z.of_nat fuel -> bytes_of (pretty_N_go (Z.to_N x) s) = reverse (numeral dig fuel x 10) ++ bytes_of s.
Proof.
  revert x s. induction fuel as [|n IH]; intros x s Hx; [cbn in Hx; lia|]. rewrite Nat2Z.inj_succ, Z.pow_succ_r in Hx by lia.
  rewrite pretty_N_go_step by lia. cbn [numeral]. rewrite reverse_cons, <- app_assoc. assert (0 <= x mod 10 < 10) as Hm by (apply Z.mod_pos_bound; lia).
  replace (Z.to_N x `div` 10)%N with (Z.to_N (x / 10)) by (rewrite Z2N.inj_div by lia; done). replace (Z.to_N x `mod` 10)%N with (Z.to_N (x mod 10)) by (rewrite Z2N.inj_mod by lia; done).
  destruct (Z.eqb_spec (x / 10) 0) as [E|E].
  - rewrite E. cbn [Z.to_N]. rewrite pretty_N_go_0. cbn. f_equal. by apply pretty_digit.
  - rewrite IH by dlia. f_equal. cbn. f_equal. by apply pretty_digit.
Qed.
Lemma numeral_pretty x : 0 <= x < 10 ^ 32 -> reverse (numeral dig 32 x 10) = bytes_of (pretty x).
Proof.
  intros Hx. destruct x as [|p|p]; [change (reverse (numeral dig 32 0 10)) with [dig 0]; by rewrite Hdig| |lia]. change (pretty (Zpos p)) with (pretty_N_go (Npos p) ""). change (Npos p) with (Z.to_N (Zpos p)).
  rewrite (numeral_pretty_go 32) by (change (Z.of_nat 32) with 32; lia). cbn [bytes_of]. by rewrite app_nil_r.
Qed.
Lemma pretty_neg x : x < 0 -> bytes_of (pretty x) = 45 :: bytes_of (pretty (- x)).
Proof. by destruct x as [|p|p]. Qed.
End numerals.

Lemma fill_digits_numeral fuel x base buf : fill_digits fuel x base buf = buf ++ numeral digit fuel x base.
Proof.
  revert x buf. induction fuel as [|k IH]; intros x buf; cbn [fill_digits numeral]; [by rewrite app_nil_r|]. destruct (_ =? 0); [done|].
  by rewrite IH, <- app_assoc.
Qed.

(** The character of a hexadecimal digit. *)
Definition hex_char (i : Z) : Z := if i <? 10 then 48 + i else 87 + i.
(** The text of an [int] in base 10 and base 16, and of a pointer. *)
Definition dec_text (x : Z) : list Z := bytes_of (pretty (s32 x)).
Definition hex_text (x : Z) : list Z :=
  let y := s32 x in (if y <? 0 then [45] else []) ++ hex_of hex_char (hex_len (Z.abs y)) (Z.abs y).
Definition ptr_text (x : Z) : list Z := 48 :: 120 :: hex_of hex_char 16 x.

Lemma digit_char i : 0 <= i < 16 -> digit i = hex_char i /\ char (hex_char i).
Proof.
  intros Hi. assert (forallb (fun i => (digit i =? hex_char i) && (0 <=? hex_char i) && (hex_char i <? 256)) (seqZ 0 16) = true) as Hf by (vm_compute; done).
  rewrite forallb_forall in Hf. specialize (Hf i). rewrite <- list_elem_of_In, elem_of_seqZ in Hf. unfold char. lia.
Qed.
Lemma hex_of_digit n x : hex_of digit n x = hex_of hex_char n x.
Proof. apply list_fmap_ext. intros i j _. apply digit_char, Z.mod_pos_bound. lia. Qed.
Lemma hex_of_char n x : Forall char (hex_of hex_char n x).
Proof. apply Forall_fmap, Forall_forall. intros i _. apply digit_char, Z.mod_pos_bound. lia. Qed.
Lemma bytes_of_char s : Forall char (bytes_of s).
Proof. apply Forall_fmap, Forall_forall. intros a _. unfold char. pose proof (Ascii.nat_ascii_bounded a). cbn. lia. Qed.

Lemma int_buf_dec x : reverse (int_buf (s32 x) 10 true) = dec_text x.
Proof.
  pose proof (s32_range x). unfold int_buf, dec_text. cbn [andb]. rewrite fill_digits_numeral. cbn [app].
  assert (forall y, 0 <= y < 4294967296 -> reverse (numeral digit 32 y 10) = bytes_of (pretty y)) as Hn.
  { intros y Hy. apply numeral_pretty; [|lia]. intros i Hi. rewrite (proj1 (digit_char i ltac:(lia))). unfold hex_char. by rewrite (proj2 (Z.ltb_lt i 10)) by lia. }
  destruct (Z.ltb_spec (s32 x) 0); rewrite u32_small by lia; [|by apply Hn; lia].
  rewrite reverse_snoc, pretty_neg by done. f_equal. apply Hn. lia.
Qed.
Lemma int_buf_hex x : reverse (int_buf (s32 x) 16 true) = hex_text x.
Proof.
  pose proof (s32_range x). unfold int_buf, hex_text. cbn [andb]. rewrite fill_digits_numeral. cbn [app]. rewrite <- hex_of_digit.
  destruct (Z.ltb_spec (s32 x) 0); rewrite u32_small by lia; [|rewrite Z.abs_eq by lia; by apply numeral_hex; lia].
  rewrite reverse_snoc. cbn [app]. f_equal. rewrite Z.abs_neq by lia. apply numeral_hex. lia.
Qed.

(** A number has at least one digit. *)
Lemma int_buf_nonempty x base : reverse (int_buf x base true) <> [].
Proof.
  unfold int_buf. rewrite fill_digits_numeral. cbn [app]. intros E%(f_equal length). rewrite length_reverse in E. destruct (_ && _); [rewrite length_app in E|]; cbn in E; lia.
Qed.
Lemma dec_text_nonempty x : dec_text x <> [].
Proof. rewrite <- int_buf_dec. apply int_buf_nonempty. Qed.
Lemma hex_text_nonempty x : hex_text x <> [].
Proof. rewrite <- int_buf_hex. apply int_buf_nonempty. Qed.

(** [printint] fills at most 11 of the 16 characters of its buffer. *)
Lemma numeral_length dig fuel x base k : 10 <= base -> 0 <= x < base ^ Z.of_nat k -> (0 < k)%nat -> (length (numeral dig fuel x base) <= k)%nat.
Proof.
  intros Hb. revert x fuel. induction k as [|k IH]; intros x fuel Hx Hk; [lia|]. destruct fuel as [|n]; cbn [numeral length]; [lia|].
  rewrite Nat2Z.inj_succ, Z.pow_succ_r in Hx by lia. destruct (Z.eqb_spec (x / base) 0) as [E|E]; cbn [length]; [lia|].
  assert (0 <= x / base < base ^ Z.of_nat k) as Hx' by (split; [apply Z.div_pos; lia|apply Z.div_lt_upper_bound; lia]).
  destruct k as [|k]; [cbn in Hx'; lia|]. specialize (IH _ n Hx' ltac:(lia)). lia.
Qed.
Lemma int_buf_fits x base : 10 <= base <= 16 -> (length (int_buf (s32 x) base true) <= 11)%nat.
Proof.
  intros Hb. pose proof (s32_range x). unfold int_buf. rewrite fill_digits_numeral. cbn [app andb].
  assert (forall y, 0 <= y <= 2147483648 -> (length (numeral digit 32 (u32 y) base) <= 10)%nat) as Hl.
  { intros y Hy. rewrite u32_small by lia. apply numeral_length; [lia| |lia]. split; [lia|]. apply Z.lt_le_trans with (10 ^ 10); [lia|]. apply Z.pow_le_mono_l. lia. }
  destruct (Z.ltb_spec (s32 x) 0); [rewrite length_app; specialize (Hl (- s32 x)); cbn [length]; lia|specialize (Hl (s32 x)); lia].
Qed.

(** * Format strings *)

(** A format string is a sequence of these, with the arguments they take. *)
Inductive piece := Lit (l : list Z) | Dec (x : Z) | Hex (x : Z) | Ptr (x : Z) | Str (s : option (list Z)) | Percent | Unknown (c : Z).

Definition piece_fmt (p : piece) : list Z :=
  match p with
  | Lit l => l | Dec _ => [37; 100] | Hex _ => [37; 120] | Ptr _ => [37; 112] | Str _ => [37; 115] | Percent => [37; 37] | Unknown c => [37; c]
  end.
Definition piece_arg (p : piece) : list parg :=
  match p with Dec x | Hex x => [PInt x] | Ptr x => [PPtr x] | Str s => [PStr s] | _ => [] end.
Definition piece_text (p : piece) : list Z :=
  match p with
  | Lit l => l | Dec x => dec_text x | Hex x => hex_text x | Ptr x => ptr_text x
  | Str None => bytes_of "(null)" | Str (Some s) => until0 s | Percent => [37] | Unknown c => [37; c]
  end.
Definition piece_ok (p : piece) : Prop :=
  match p with
  | Lit l => Forall (fun x => 0 < x < 256 /\ x <> 37) l
  | Ptr x => 0 <= x < 18446744073709551616
  | Str (Some s) => Forall char s
  | Unknown c => 0 < c < 256 /\ c ∉ bytes_of "dxps%"
  | _ => True
  end.

Lemma dec_text_char x : Forall char (dec_text x).
Proof. apply bytes_of_char. Qed.
Lemma hex_text_char x : Forall char (hex_text x).
Proof. unfold hex_text. apply Forall_app. split; [destruct (_ <? 0); repeat constructor; unfold char; lia|apply hex_of_char]. Qed.

Lemma nibble_shift x j : 1 <= j <= 15 -> u64 (x * 16) / 16 ^ j mod 16 = x / 16 ^ (j - 1) mod 16.
Proof.
  intros Hj. assert (0 < 16 ^ j) by (apply Z.pow_pos_nonneg; lia). unfold u64.
  replace 18446744073709551616 with (16 ^ j * 16 ^ (16 - j)) by (rewrite <- Z.pow_add_r by lia; by replace (j + (16 - j)) with 16 by lia).
  rewrite Z.rem_mul_r; [|lia|apply Z.pow_pos_nonneg; lia].
  rewrite (Z.mul_comm (16 ^ j)), Z.div_add, Z.div_small, Z.add_0_l by (try apply Z.mod_pos_bound; lia).
  rewrite Z.mod_mod_divide. 2: { exists (16 ^ (15 - j)). replace (16 - j) with (Z.succ (15 - j)) by lia. rewrite Z.pow_succ_r by lia. lia. }
  replace j with (Z.succ (j - 1)) at 1 by lia. rewrite Z.pow_succ_r, (Z.mul_comm 16) by lia.
  rewrite Z.div_mul_cancel_r; [done|apply Z.pow_nonzero; lia|done].
Qed.

(** The nibbles from bit 60 down. *)
Lemma wp_put_nibbles k x c u (Q : cpu -> uart -> unit -> Prop) : u_panicked u = 0 -> (k <= 16)%nat -> 0 <= x < 18446744073709551616 ->
  (forall u', sent ((fun i => hex_char (x / 16 ^ (15 - i) mod 16)) <$> seqZ 0 (Z.of_nat k)) u u' -> Q c u' tt) ->
  wp (put_nibbles k x) c u Q.
Proof.
  revert x u. induction k as [|k IH]; intros x u Hp Hk Hx HQ; cbn [put_nibbles]; [wp_step; apply HQ, sent_nil|].
  assert (0 <= Z.shiftr x 60 < 16) as Hs.
  { rewrite Z.shiftr_div_pow2 by lia. change (2 ^ 60) with 1152921504606846976. dlia. }
  destruct (digit_char _ Hs) as [-> Hch]. wp_step. apply wp_consputc; [done..|]. intros u1 H1. apply IH; [by rewrite (se_panicked _ _ _ H1)|lia|unfold u64; apply Z.mod_pos_bound; lia|].
  intros u2 H2. apply HQ. rewrite Nat2Z.inj_succ, seqZ_cons by lia. rewrite fmap_cons.
  assert (hex_char (Z.shiftr x 60) = hex_char (x / 16 ^ (15 - 0) mod 16)) as He.
  { rewrite Z.shiftr_div_pow2 in * by lia. change (16 ^ (15 - 0)) with (2 ^ 60). by rewrite (Z.mod_small _ 16). }
  rewrite <- He. apply (sent_app [_] _ u u1 u2 H1). replace (Z.pred (Z.succ (Z.of_nat k))) with (Z.of_nat k) by lia.
  change (Z.succ 0) with (1 + 0). rewrite <- (fmap_add_seqZ 1 0), <- list_fmap_compose.
  erewrite list_fmap_ext; [exact H2|]. intros j y Hj%list_elem_of_lookup_2%elem_of_seqZ. unfold compose. f_equal.
  rewrite Z.shiftl_mul_pow2 by lia. change (2 ^ 4) with 16. rewrite nibble_shift by lia. do 3 f_equal. lia.
Qed.

Lemma wp_printptr x c u (Q : cpu -> uart -> unit -> Prop) : u_panicked u = 0 -> 0 <= x < 18446744073709551616 ->
  (forall u', sent (ptr_text x) u u' -> Q c u' tt) -> wp (printptr x) c u Q.
Proof.
  intros Hp Hx HQ. unfold printptr. wp_step. apply wp_consputc; [done|lia|]. intros u1 H1. pose proof (se_panicked _ _ _ H1). wp_step. apply wp_consputc; [congruence|lia|]. intros u2 H2. pose proof (se_panicked _ _ _ H2).
  apply wp_put_nibbles; [congruence|lia|done|]. intros u3 H3. apply HQ. apply (sent_app [48] _ u u1 u3 H1), (sent_app [120] _ u1 u2 u3 H2 H3).
Qed.

Lemma printf_loop_lit l rest ap c u (Q : cpu -> uart -> unit -> Prop) : u_panicked u = 0 -> piece_ok (Lit l) ->
  (forall u', sent l u u' -> wp (printf_loop rest ap) c u' Q) -> wp (printf_loop (l ++ rest) ap) c u Q.
Proof.
  intros Hp0 Hl. revert u Hp0. induction Hl as [|x l [Hx Hp] Hl IH]; intros u Hp0 HQ; [apply HQ, sent_nil|]. cbn [app printf_loop].
  rewrite (proj2 (Z.eqb_neq x 0)), (proj2 (Z.eqb_neq x 37)) by lia. cbn [negb]. wp_step. apply wp_consputc; [done|lia|].
  intros u1 H1. apply IH; [by rewrite (se_panicked _ _ _ H1)|]. intros u2 H2. apply HQ. by apply (sent_app [x] l u u1).
Qed.

(** An unknown verb is printed as it is. *)
Lemma unknown_verb {A} u (d x p s q m : A) : u ∉ bytes_of "dxps%" ->
  (if u =? 100 then d else if u =? 120 then x else if u =? 112 then p else if u =? 115 then s else if u =? 37 then q else m) = m.
Proof.
  intros Hn. assert (forall v, v ∈ bytes_of "dxps%" -> (u =? v) = false) as Hne by (intros v Hv; apply Z.eqb_neq; by intros ->).
  by rewrite (Hne 100), (Hne 120), (Hne 112), (Hne 115), (Hne 37) by (vm_compute; set_solver).
Qed.

Lemma wp_printf_loop ps c u (Q : cpu -> uart -> unit -> Prop) : u_panicked u = 0 -> Forall piece_ok ps ->
  (forall u', sent (concat (piece_text <$> ps)) u u' -> Q c u' tt) ->
  wp (printf_loop (concat (piece_fmt <$> ps)) (concat (piece_arg <$> ps))) c u Q.
Proof.
  intros Hp0 Hps. revert u Hp0. induction Hps as [|p ps Hp Hps IH]; intros u Hp0 HQ; [simpl; wp_step; apply HQ, sent_nil|]. rewrite !fmap_cons in *. cbn [concat] in *.
  assert (forall u1, sent (piece_text p) u u1 ->
    wp (printf_loop (concat (piece_fmt <$> ps)) (concat (piece_arg <$> ps))) c u1 Q) as Hgo.
  { intros u1 H1. apply IH; [by rewrite (se_panicked _ _ _ H1)|]. intros u2 H2. apply HQ. by apply (sent_app _ _ u u1). }
  destruct p as [l|x|x|x|[s|]| |v]; cbn [piece_ok piece_fmt piece_arg piece_text app] in *; [by apply printf_loop_lit|..]; cbn [printf_loop Z.eqb Pos.eqb negb].
  - wp_step. unfold printint. rewrite int_buf_dec. apply wp_put_all; [done|apply dec_text_char|exact Hgo].
  - wp_step. unfold printint. rewrite int_buf_hex. apply wp_put_all; [done|apply hex_text_char|exact Hgo].
  - wp_step. by apply wp_printptr.
  - wp_step. rewrite put_str_all. apply wp_put_all; [done|by apply until0_char|exact Hgo].
  - wp_step. rewrite put_str_all. apply wp_put_all; [done|apply (until0_char (bytes_of "(null)")), bytes_of_char|exact Hgo].
  - wp_step. by apply wp_consputc.
  - destruct Hp as [Hv Hn]. rewrite (proj2 (Z.eqb_neq v 0)), unknown_verb by (done || lia). wp_step. apply wp_consputc; [done|lia|]. intros u1 H1.
    wp_step. apply wp_consputc; [by rewrite (se_panicked _ _ _ H1)|lia|]. intros u2 H2. apply Hgo. by apply (sent_app [37] [v] u u1).
Qed.

Lemma wp_kprintf ps c s (Q : cpu -> prst -> unit -> Prop) : u_panicked (pr_uart s) = 0 -> Forall piece_ok ps -> LPr ∉ held c ->
  (forall u', sent (concat (piece_text <$> ps)) (pr_uart s) u' -> Q c (mkprst (pr_locking s) u') tt) ->
  wp (kprintf (Some (concat (piece_fmt <$> ps))) (concat (piece_arg <$> ps))) c s Q.
Proof.
  intros Hp Hps Hc HQ. unfold kprintf. wp_step. wp_step. destruct (Z.eqb_spec (pr_locking s) 0); cbn [negb].
  - wp_steps. apply wp_zoom, wp_printf_loop; [done..|]. intros u' Hu'. wp_step. by apply HQ.
  - wp_steps. apply wp_zoom, wp_printf_loop; [done..|]. intros u' Hu'. wp_step. cbn [held set_held]. rewrite remove_lock_head by done. destruct c. by apply HQ.
Qed.

(** After a panic the first character does not return. *)
Lemma put_all_panicked {B} l (k : M uart B) c u : u_panicked u <> 0 -> l <> [] -> (put_all l ;; k) c u = Diverge.
Proof. intros Hp Hl. destruct l as [|x l]; [done|]. cbn [put_all]. unfold bind at 1 2. by rewrite consputc_panicked. Qed.

Lemma printf_loop_panicked ps c u : u_panicked u <> 0 -> Forall piece_ok ps -> concat (piece_text <$> ps) <> [] ->
  printf_loop (concat (piece_fmt <$> ps)) (concat (piece_arg <$> ps)) c u = Diverge.
Proof.
  intros Hp. induction 1 as [|p ps Hok Hps IH]; [done|]. rewrite !fmap_cons. cbn [concat]. intros Ht.
  assert (forall x (k : M uart unit), (consputc x ;; k) c u = Diverge) as Hc by (intros x k; unfold bind; by rewrite consputc_panicked).
  destruct p as [[|x l]|x|x|x|[s|]| |v]; cbn [piece_ok piece_fmt piece_arg piece_text app] in *; [by apply IH|..]; cbn [printf_loop Z.eqb Pos.eqb negb].
  - apply Forall_cons in Hok as [[Hx Hx'] _]. rewrite (proj2 (Z.eqb_neq x 0)), (proj2 (Z.eqb_neq x 37)) by lia. apply Hc.
  - unfold printint. rewrite int_buf_dec. apply put_all_panicked; [done|apply dec_text_nonempty].
  - unfold printint. rewrite int_buf_hex. apply put_all_panicked; [done|apply hex_text_nonempty].
  - unfold printptr. unfold bind at 1 2. by rewrite consputc_panicked.
  - rewrite put_str_all. cbn [default from_option id]. destruct (until0 s) as [|y l] eqn:E; [by apply IH|]. rewrite <- E. apply put_all_panicked; [done|by rewrite E].
  - by rewrite put_str_all, put_all_panicked.
  - apply Hc.
  - destruct Hok as [Hv Hn]. rewrite (proj2 (Z.eqb_neq v 0)), unknown_verb by (done || lia). apply Hc.
Qed.

(** * Properties *)

(** C24: [printf] of a format string sends the device exactly the literal text and the text
    of each argument, in order, waiting for the transmitter where it must, and gives back the
    lock it took. The text of [%d] is decimal notation with a minus sign for negative numbers, that of [%x] hexadecimal
    without leading zeros, also with a minus sign, that of [%p] sixteen hexadecimal digits after 0x, that of [%s] the
    string up to its NUL or (null) for a null pointer; an unknown verb is printed as it is. Once the kernel has
    panicked a call that would print something never returns, and a null format panics. *)
Theorem kprintf_correct ps ap c s : Forall piece_ok ps -> LPr ∉ held c ->
  let text := concat (piece_text <$> ps) in
  let run := kprintf (Some (concat (piece_fmt <$> ps))) (concat (piece_arg <$> ps)) c s in
  (u_panicked (pr_uart s) = 0 -> exists s', run = Ret c s' tt /\ sent text (pr_uart s) (pr_uart s') /\ pr_locking s' = pr_locking s) /\
  (u_panicked (pr_uart s) <> 0 -> text <> [] -> run = Diverge) /\
  kprintf None ap c s = Panic "null fmt".
Proof.
  intros Hps Hc text run. split_and!.
  - intros Hp. destruct (wp_run (kprintf (Some (concat (piece_fmt <$> ps))) (concat (piece_arg <$> ps))) c s
      (fun s' _ => sent text (pr_uart s) (pr_uart s') /\ pr_locking s' = pr_locking s)) as (s' & [] & Hr & Hs); [|by exists s'].
    apply wp_kprintf; [done..|]. intros u' Hu'. done.
  - intros Hp Ht. unfold run, kprintf, bind at 1, gets at 1. cbn [obind]. unfold bind at 1. destruct (negb (pr_locking s =? 0)).
    + unfold acquire. rewrite decide_False by done. cbn [obind]. unfold bind at 1, zoom. by rewrite printf_loop_panicked.
    + unfold ret. cbn [obind]. unfold bind at 1, zoom. by rewrite printf_loop_panicked.
  - unfold kprintf, bind at 1, gets at 1. cbn [obind]. unfold bind at 1. destruct (negb _); [|done]. unfold acquire. by rewrite decide_False.
Qed.

(** Testing that pieces are in order. *)
Definition piece_okb (p : piece) : bool :=
  match p with
  | Lit l => forallb (fun x => (0 <? x) && (x <? 256) && negb (x =? 37)) l
  | Ptr x => (0 <=? x) && (x <? 18446744073709551616)
  | Str (Some s) => forallb (fun x => (0 <=? x) && (x <? 256)) s
  | Unknown c => (0 <? c) && (c <? 256) && negb (bool_decide (c ∈ bytes_of "dxps%"))
  | _ => true
  end.
Lemma pieces_check ps : forallb piece_okb ps = true -> Forall piece_ok ps.
Proof.
  rewrite forallb_forall. intros Hf. apply Forall_forall. intros p Hp%list_elem_of_In%Hf.
  destruct p as [l|x|x|x|[s|]| |v]; cbn [piece_ok piece_okb] in *; try done; try (rewrite forallb_forall in Hp; apply Forall_forall; intros x Hx%list_elem_of_In%Hp; unfold char); try lia.
  apply andb_true_iff in Hp as [Hv Hn%negb_true_iff%bool_decide_eq_false]. split; [lia|done].
Qed.

Definition demo_uart : uart := mkuart (replicate 32 0) 0 0 [] [] 3 (fun n => Nat.modulo n 2) [] 0.

Lemma kprintf_correct_witness : exists s',
  kprintf (Some (bytes_of "%d: syscall %s -> %d%% %x %s%q")) [PInt 3; PStr (Some (bytes_of "read")); PInt (-1); PInt (-255); PStr None] (mkcpu [] 1 0 [] 0 []) (mkprst 1 demo_uart) = Ret (mkcpu [] 1 0 [] 0 []) s' tt /\
  u_out (pr_uart s') = bytes_of "3: syscall read -> -1% -ff (null)%q".
Proof.
  destruct (kprintf_correct [Dec 3; Lit (bytes_of ": syscall "); Str (Some (bytes_of "read")); Lit (bytes_of " -> "); Dec (-1); Percent; Lit [32]; Hex (-255); Lit [32]; Str None; Unknown 113]
    [] (mkcpu [] 1 0 [] 0 []) (mkprst 1 demo_uart)) as [Hk _].
  - by apply pieces_check.
  - apply not_elem_of_nil.
  - destruct (Hk eq_refl) as (s' & Hr & Hs & _). exists s'. split; [exact Hr|]. rewrite (se_out _ _ _ Hs). vm_compute. done.
Defined.
