(* ===== verification/Pipe.v ===== *)
(** Pipes, kernel/pipe.c. A pipe is a structure in a page of its own; the page's address [pi]
    names it. Using a pipe whose page was freed is undefined behaviour. *)
From S2P Require Import Prelude Memory Riscv Kalloc Vm Sleeplock Bio Log Fs State Process.

Definition PIPESIZE : Z := 512.

Definition get_pipe (pi : Z) : M kst pipe := fun c s =>
  match k_pipes s !! pi with
  | Some x => Ret c s x
  | None => Panic "undefined: pipe"
  end.
Definition upd_pipe (pi : Z) (f : pipe -> pipe) : M kst unit :=
  modify (fun s => set_pipes (alter f pi (k_pipes s)) s).

Section pipe.
Context `{Layout}.

Definition pipeclose (pi writable : Z) : M kst unit :=
  acquire (LPipe pi) ;;
  (if negb (writable =? 0) then
     upd_pipe pi (fun x => mkpipe (pi_data x) (pi_nread x) (pi_nwrite x) (pi_readopen x) 0) ;;
     kwakeup (ChPipeR pi)
   else
     upd_pipe pi (fun x => mkpipe (pi_data x) (pi_nread x) (pi_nwrite x) 0 (pi_writeopen x)) ;;
     kwakeup (ChPipeW pi)) ;;
  x <- get_pipe pi ;;
  if (pi_readopen x =? 0) && (pi_writeopen x =? 0) then
    release (LPipe pi) ;;
    zoom mem_lens (kfree pi) ;;
    modify (fun s => set_pipes (delete pi (k_pipes s)) s)
  else release (LPipe pi).

(** The loop leaves with [Some i] at its end or at a failed copy, with [None] when the reader is
    gone or the process was killed. A round either moves one byte or sleeps. *)
Definition pipewrite (pi addr n : Z) : M kst Z :=
  pr <- myproc ;;
  acquire (LPipe pi) ;;
  w <- getcpu wakeups ;;
  r <- loop (S (Z.to_nat n + w)) (fun i =>
    if i <? n then
      x <- get_pipe pi ;;
      k <- (if pi_readopen x =? 0 then ret true else k <- killed pr ;; ret (negb (k =? 0))) ;;
      if (k : bool) then release (LPipe pi) ;; ret (inr None) else
      x <- get_pipe pi ;;
      if pi_nwrite x =? u32 (pi_nread x + PIPESIZE) then
        kwakeup (ChPipeR pi) ;;
        ksleep (ChPipeW pi) (LPipe pi) ;;
        ret (inl i)
      else
        y <- get_proc pr ;;
        r <- zoom mem_lens (copyin (p_pagetable y) (u64 (addr + i)) 1) ;;
        if fst r =? -1 then ret (inr (Some i)) else
        upd_pipe pi (fun x => mkpipe (<[Z.to_nat (pi_nwrite x mod PIPESIZE) := default 0 (head (snd r))]> (pi_data x))
          (pi_nread x) (u32 (pi_nwrite x + 1)) (pi_readopen x) (pi_writeopen x)) ;;
        ret (inl (i + 1))
    else ret (inr (Some i))) 0 ;;
  match r with
  | None => ret (-1)
  | Some i =>
      kwakeup (ChPipeR pi) ;;
      release (LPipe pi) ;;
      ret i
  end.

Definition piperead (pi addr n : Z) : M kst Z :=
  pr <- myproc ;;
  acquire (LPipe pi) ;;
  ok <- sleep_loop (fun _ : unit =>
    x <- get_pipe pi ;;
    if (pi_nread x =? pi_nwrite x) && negb (pi_writeopen x =? 0) then
      k <- killed pr ;;
      if negb (k =? 0) then release (LPipe pi) ;; ret (inr false) else
      ksleep (ChPipeR pi) (LPipe pi) ;;
      ret (inl tt)
    else ret (inr true)) tt ;;
  if negb ok then ret (-1) else
  i <- loop (S (Z.to_nat n)) (fun i =>
    if i <? n then
      x <- get_pipe pi ;;
      if pi_nread x =? pi_nwrite x then ret (inr i) else
      let ch := default 0 (pi_data x !! Z.to_nat (pi_nread x mod PIPESIZE)) in
      upd_pipe pi (fun x => mkpipe (pi_data x) (u32 (pi_nread x + 1)) (pi_nwrite x) (pi_readopen x) (pi_writeopen x)) ;;
      y <- get_proc pr ;;
      r <- zoom mem_lens (copyout (p_pagetable y) (u64 (addr + i)) [ch] 1) ;;
      if r =? -1 then ret (inr i) else ret (inl (i + 1))
    else ret (inr i)) 0 ;;
  kwakeup (ChPipeW pi) ;;
  release (LPipe pi) ;;
  ret i.
End pipe.
