(* ===== verification/File.v ===== *)
(** The file table, kernel/file.c, with [pipealloc] of kernel/pipe.c, which needs it. *)
From S2P Require Import Prelude Memory Riscv Kalloc Vm Sleeplock Bio Log Fs State Process FsFile Uart Console Pipe.

Definition fileinit : M kst unit := initlock LFtable.

Definition filealloc : M kst (option nat) :=
  acquire LFtable ;;
  r <- loop (S NFILE) (fun f =>
    if Nat.ltb f NFILE then
      x <- get_file f ;;
      if f_ref x =? 0 then
        upd_file f (set_fref 1) ;;
        ret (inr (Some f))
      else ret (inl (S f))
    else ret (inr None)) 0%nat ;;
  release LFtable ;;
  ret r.

Definition filedup (f : nat) : M kst nat :=
  acquire LFtable ;;
  x <- get_file f ;;
  if f_ref x <? 1 then panic "filedup" else
  upd_file f (set_fref (f_ref x + 1)) ;;
  release LFtable ;;
  ret f.

Section file.
Context `{Layout}.

Definition fileclose (f : nat) : M kst unit :=
  acquire LFtable ;;
  x <- get_file f ;;
  if f_ref x <? 1 then panic "fileclose" else
  upd_file f (set_fref (f_ref x - 1)) ;;
  if f_ref x - 1 >? 0 then release LFtable else
  ff <- get_file f ;;
  upd_file f (set_fref 0) ;;
  upd_file f (set_ftype FD_NONE) ;;
  release LFtable ;;
  if decide (f_type ff = FD_PIPE) then pipeclose (f_pipe ff) (f_writable ff)
  else if decide (f_type ff = FD_INODE \/ f_type ff = FD_DEVICE) then
    zoom klog_lens begin_op ;;
    zoom fs_lens (iput (f_ip ff)) ;;
    zoom klog_lens end_op
  else ret tt.

(** The bytes of a [struct stat]: [dev], [ino], [type], [nlink], [size]. *)
Definition stat_bytes (st : stat) : list Z :=
  let d := replicate 24 0 in
  put32 (put32 (put16 (put16 (put32 (put32 d 0 (st_dev st)) 4 (st_ino st)) 8 (st_type st)) 10 (st_nlink st))
    16 (st_size st)) 20 0.

Definition filestat (f : nat) (addr : Z) : M kst Z :=
  p <- myproc ;;
  x <- get_file f ;;
  if decide (f_type x = FD_INODE \/ f_type x = FD_DEVICE) then
    zoom fs_lens (ilock (Some (f_ip x))) ;;
    st <- zoom fs_lens (stati (f_ip x)) ;;
    zoom fs_lens (iunlock (Some (f_ip x))) ;;
    y <- get_proc p ;;
    r <- zoom mem_lens (copyout (p_pagetable y) addr (stat_bytes st) 24) ;;
    if r <? 0 then ret (-1) else ret 0
  else ret (-1).

(** Calls through [devsw]. *)
Definition devcall (fn : devfn) (addr n : Z) : M kst Z :=
  match fn with
  | ConsoleRead => r <- consoleread (DUser addr) n ;; ret (fst r)
  | ConsoleWrite => consolewrite (SUser addr) n
  end.

Definition fileread (f : nat) (addr n : Z) : M kst Z :=
  x <- get_file f ;;
  if f_readable x =? 0 then ret (-1) else
  match f_type x with
  | FD_PIPE => piperead (f_pipe x) addr n
  | FD_DEVICE =>
      if (f_major x <? 0) || (f_major x >=? NDEV) then ret (-1) else
      d <- gets (fun s => k_devsw s (Z.to_nat (f_major x))) ;;
      match d_read d with
      | None => ret (-1)
      | Some fn => devcall fn addr n
      end
  | FD_INODE =>
      zoom fs_lens (ilock (Some (f_ip x))) ;;
      x <- get_file f ;;
      r <- readi (f_ip x) (DUser addr) (f_off x) (u32 n) ;;
      (if fst r >? 0 then upd_file f (fun y => set_foff (u32 (f_off y + fst r)) y) else ret tt) ;;
      zoom fs_lens (iunlock (Some (f_ip x))) ;;
      ret (fst r)
  | FD_NONE => panic "fileread"
  end.

(** [((MAXOPBLOCKS-1-1-2) / 2) * BSIZE] *)
Definition filewrite_max : Z := (MAXOPBLOCKS - 1 - 1 - 2) / 2 * BSIZE.

Definition filewrite (f : nat) (addr n : Z) : M kst Z :=
  x <- get_file f ;;
  if f_writable x =? 0 then ret (-1) else
  match f_type x with
  | FD_PIPE => pipewrite (f_pipe x) addr n
  | FD_DEVICE =>
      if (f_major x <? 0) || (f_major x >=? NDEV) then ret (-1) else
      d <- gets (fun s => k_devsw s (Z.to_nat (f_major x))) ;;
      match d_write d with
      | None => ret (-1)
      | Some fn => devcall fn addr n
      end
  | FD_INODE =>
      i <- loop (S (Z.to_nat n)) (fun i =>
        if i <? n then
          let n1 := n - i in
          let n1 := if n1 >? filewrite_max then filewrite_max else n1 in
          zoom klog_lens begin_op ;;
          zoom fs_lens (ilock (Some (f_ip x))) ;;
          y <- get_file f ;;
          r <- writei (f_ip x) (SUser (u64 (addr + i))) (f_off y) n1 ;;
          (if r >? 0 then upd_file f (fun y => set_foff (u32 (f_off y + r)) y) else ret tt) ;;
          zoom fs_lens (iunlock (Some (f_ip x))) ;;
          zoom klog_lens end_op ;;
          if negb (r =? n1) then ret (inr i) else ret (inl (i + r))
        else ret (inr i)) 0 ;;
      ret (if i =? n then n else -1)
  | FD_NONE => panic "filewrite"
  end.

(** * pipealloc *)

Definition pipe_end (rd wr pi : Z) (f : file) : file :=
  mkfile FD_PIPE (f_ref f) rd wr pi (f_ip f) (f_off f) (f_major f).

(** The new page holds what [kalloc] left there; only the fields are set. *)
Definition page_pipe (m : mem) (pi : Z) : pipe :=
  mkpipe (load_bytes m (pi + 24) (Z.to_nat PIPESIZE)) 0 0 1 1.

Definition pipealloc : M kst (option (nat * nat)) :=
  let close o := match o with Some f => fileclose f | None => ret tt end in
  f0 <- filealloc ;;
  f1 <- match f0 with Some _ => filealloc | None => ret None end ;;
  match f0, f1 with
  | Some a, Some b =>
      pi <- zoom mem_lens kalloc ;;
      if pi =? 0 then close f0 ;; close f1 ;; ret None else
      modify (fun s => set_pipes (<[pi := page_pipe (kmem_mem (k_mem s)) pi]> (k_pipes s)) s) ;;
      initlock (LPipe pi) ;;
      upd_file a (pipe_end 1 0 pi) ;;
      upd_file b (pipe_end 0 1 pi) ;;
      ret (Some (a, b))
  | _, _ => close f0 ;; close f1 ;; ret None
  end.
End file.
