(* ===== verification/ProcLife.v ===== *)
(** The life of processes, kernel/proc.c: the first process, [fork], [exit] and [wait]. *)
From S2P Require Import Prelude Memory Riscv Kalloc Vm Sleeplock Bio Log Fs State Process FsFile Uart Console Pipe File.

(** [safestrcpy] of kernel/string.c on character arrays, with [k] one less than the size of
    [s]: after a copied NUL another one is stored. *)
Fixpoint safestrcpy_l (s t : list Z) (k : nat) : list Z :=
  match k with
  | O => 0 :: tail s
  | S k' =>
      let c := default 0 (head t) in
      if c =? 0 then 0 :: 0 :: tail (tail s) else c :: safestrcpy_l (tail s) (tail t) k'
  end.

(** The 4 bytes of an [int]. *)
Definition int_bytes (x : Z) : list Z := put32 (replicate 4 0) 0 x.

(** The machine code of [initcode], which calls [exec("/init")]. *)
Definition initcode : list Z := [
  0x17; 0x05; 0x00; 0x00; 0x13; 0x05; 0x45; 0x02;
  0x97; 0x05; 0x00; 0x00; 0x93; 0x85; 0x35; 0x02;
  0x93; 0x08; 0x70; 0x00; 0x73; 0x00; 0x00; 0x00;
  0x93; 0x08; 0x20; 0x00; 0x73; 0x00; 0x00; 0x00;
  0xef; 0xf0; 0x9f; 0xff; 0x2f; 0x69; 0x6e; 0x69;
  0x74; 0x00; 0x00; 0x24; 0x00; 0x00; 0x00; 0x00;
  0x00; 0x00; 0x00; 0x00].

Section life.
Context `{Layout}.

(** A null result of [allocproc] is dereferenced. *)
Definition userinit : M kst unit :=
  r <- allocproc ;;
  modify (set_initproc r) ;;
  match r with
  | None => panic "undefined: userinit"
  | Some p =>
      x <- get_proc p ;;
      zoom mem_lens (uvmfirst (p_pagetable x) initcode (Z.of_nat (length initcode))) ;;
      upd_proc p (set_psz PGSIZE) ;;
      tf_set p TF_epc 0 ;;
      tf_set p TF_sp PGSIZE ;;
      upd_proc p (fun x => set_name (safestrcpy_l (p_name x) (bytes_of "initcode") 15) x) ;;
      cwd <- namei [slash] ;;
      upd_proc p (set_cwd cwd) ;;
      upd_proc p (set_pstate RUNNABLE) ;;
      release (LProc p)
  end.

Definition fork : M kst Z :=
  p <- myproc ;;
  r <- allocproc ;;
  match r with
  | None => ret (-1)
  | Some np =>
      x <- get_proc p ;;
      y <- get_proc np ;;
      r <- zoom mem_lens (uvmcopy (p_pagetable x) (p_pagetable y) (p_sz x)) ;;
      if r <? 0 then
        freeproc np ;;
        release (LProc np) ;;
        ret (-1)
      else
        upd_proc np (set_psz (p_sz x)) ;;
        zoom mem_lens (upd_mem (fun m => memmove m (p_trapframe y) (p_trapframe x) TF_size)) ;;
        tf_set np TF_a0 0 ;;
        loop (S (Z.to_nat NOFILE)) (fun i =>
          if Z.of_nat i <? NOFILE then
            x <- get_proc p ;;
            match p_ofile x !! i with
            | Some (Some f) =>
                f <- filedup f ;;
                upd_proc np (fun y => set_ofile (<[i := Some f]> (p_ofile y)) y)
            | _ => ret tt
            end ;;
            ret (inl (S i))
          else ret (inr tt)) 0%nat ;;
        x <- get_proc p ;;
        cwd <- zoom fs_lens (idup (default 0%nat (p_cwd x))) ;;
        upd_proc np (set_cwd (Some cwd)) ;;
        upd_proc np (set_trace_mask (p_trace_mask x)) ;;
        upd_proc np (fun y => set_name (safestrcpy_l (p_name y) (p_name x) 15) y) ;;
        y <- get_proc np ;;
        let pid := p_pid y in
        release (LProc np) ;;
        acquire LWait ;;
        upd_proc np (set_parent (Some p)) ;;
        release LWait ;;
        acquire (LProc np) ;;
        upd_proc np (set_pstate RUNNABLE) ;;
        release (LProc np) ;;
        ret pid
  end.

(** [exit] does not return: it stops in [sched] as a zombie. *)
Definition exit {A} (status : Z) : M kst A :=
  p <- myproc ;;
  ini <- gets k_initproc ;;
  if decide (ini = Some p) then panic "init exiting" else
  loop (S (Z.to_nat NOFILE)) (fun fd =>
    if Z.of_nat fd <? NOFILE then
      x <- get_proc p ;;
      match p_ofile x !! fd with
      | Some (Some f) =>
          fileclose f ;;
          upd_proc p (fun x => set_ofile (<[fd := None]> (p_ofile x)) x)
      | _ => ret tt
      end ;;
      ret (inl (S fd))
    else ret (inr tt)) 0%nat ;;
  zoom klog_lens begin_op ;;
  x <- get_proc p ;;
  zoom fs_lens (iput (default 0%nat (p_cwd x))) ;;
  zoom klog_lens end_op ;;
  upd_proc p (set_cwd None) ;;
  acquire LWait ;;
  reparent p ;;
  x <- get_proc p ;;
  kwakeup (ChProc (default 0%nat (p_parent x))) ;;
  acquire (LProc p) ;;
  upd_proc p (set_xstate status) ;;
  upd_proc p (set_pstate ZOMBIE) ;;
  release LWait ;;
  sched ;;
  panic "zombie exit".

(** One scan of the table: the result of [wait] if it returns, otherwise whether there are
    children. *)
Definition wait_scan (p : nat) (addr : Z) : M kst (Z + bool) :=
  loop (S NPROCS) (fun st : nat * bool => let '(pp, havekids) := st in
    if Nat.ltb pp NPROCS then
      x <- get_proc pp ;;
      if decide (p_parent x = Some p) then
        acquire (LProc pp) ;;
        x <- get_proc pp ;;
        if decide (p_state x = ZOMBIE) then
          let pid := p_pid x in
          y <- get_proc p ;;
          r <- (if negb (addr =? 0) then zoom mem_lens (copyout (p_pagetable y) addr (int_bytes (p_xstate x)) 4)
                else ret 0) ;;
          if r <? 0 then
            release (LProc pp) ;;
            release LWait ;;
            ret (inr (inl (-1)))
          else
            freeproc pp ;;
            release (LProc pp) ;;
            release LWait ;;
            ret (inr (inl pid))
        else
          release (LProc pp) ;;
          ret (inl (S pp, true))
      else ret (inl (S pp, havekids))
    else ret (inr (inr havekids))) (0%nat, false).

Definition wait (addr : Z) : M kst Z :=
  p <- myproc ;;
  acquire LWait ;;
  sleep_loop (fun _ : unit =>
    r <- wait_scan p addr ;;
    match r with
    | inl pid => ret (inr pid)
    | inr havekids =>
        k <- (if (havekids : bool) then killed p else ret 1) ;;
        if negb (k =? 0) then
          release LWait ;;
          ret (inr (-1))
        else
          ksleep (ChProc p) LWait ;;
          ret (inl tt)
    end) tt.
End life.
