(* ===== verification/ProcProps.v ===== *)
(** The process table: [wakeup], [sleep], [kill] and [reparent]. *)
From S2P Require Import Prelude Memory Riscv Kalloc Vm Sleeplock Bio BioSpec Log LogTxn Fs State Process FsFile Uart Console Pipe File ProcLife.

#[local] Arguments loop : simpl never.

(** [s'] is [s] with the table changed by [f]. *)
Record ptable (f : nat -> proc -> proc) (s s' : kst) : Prop := {
  pt_procs i : k_procs s' i = f i (k_procs s i);
  pt_rest : set_procs (k_procs s) s' = s;
}.

(** [killed] reads the flag. *)
Lemma killed_run p c s : LProc p ∉ held c -> killed p c s = Ret c s (p_killed (k_procs s p)).
Proof.
  intros Hc. unfold killed, get_proc, gets, bind, acquire, release. rewrite decide_False by done. cbn [obind held set_held].
  rewrite decide_True by (by left). cbn [obind]. by rewrite set_held_back.
Qed.

(** Loops over the table, as [for(p = proc; p < &proc[NPROC]; p++)] writes them: a body that
    changes at most its own entry, to [f i] of it. *)
Lemma wp_ptable {A} (body : nat -> M kst (nat + A)) (f : nat -> proc -> proc) (c : cpu) (s : kst) (a : A) (Q : cpu -> kst -> A -> Prop) :
  (forall i s', (i < NPROCS)%nat -> ptable (fun j x => if decide (j < i)%nat then f j x else x) s s' ->
     wp (body i) c s' (fun c' s2 r => c' = c /\ r = inl (S i) /\ ptable (fun j x => if decide (j = i) then f i x else x) s' s2)) ->
  (forall s', wp (body NPROCS) c s' (fun c' s2 r => c' = c /\ s2 = s' /\ r = inr a)) ->
  (forall s', ptable (fun j x => if decide (j < NPROCS)%nat then f j x else x) s s' -> Q c s' a) ->
  wp (loop (S NPROCS) body 0%nat) c s Q.
Proof.
  intros Hbody Hend HQ.
  eapply (wp_loop (fun i c' s' => (i <= NPROCS)%nat /\ c' = c /\ ptable (fun j x => if decide (j < i)%nat then f j x else x) s s')
    (fun i => (NPROCS - i)%nat)); [|lia|].
  - intros i c' s' (Hi & -> & Ht). destruct (decide (i = NPROCS)) as [->|Hne].
    + eapply wp_mono; [apply Hend|]. intros c' s2 r (-> & -> & ->). by apply HQ.
    + eapply wp_mono; [apply (Hbody i s'); [lia|done]|]. intros c' s2 r (-> & -> & Ht2). split_and!; try lia; try done.
      destruct Ht as [Hp Hr], Ht2 as [Hp2 Hr2]. split.
      * intros j. rewrite Hp2, Hp. repeat case_decide; subst; try lia; done.
      * rewrite <- Hr, <- Hr2. by destruct s2.
  - split_and!; [lia|done|]. split; [|by destruct s]. intros i. by rewrite decide_False by lia.
Qed.

Lemma ptable_refl s : ptable (fun _ x => x) s s.
Proof. split; [done|by destruct s]. Qed.
Lemma ptable_upd p g s : ptable (fun j x => if decide (j = p) then g x else x) s (set_procs (updn p g (k_procs s)) s).
Proof. split; [|by destruct s]. intros i. cbn. unfold updn. by destruct (decide (i = p)) as [->|]. Qed.
Lemma ptable_ext f g s s' : ptable f s s' -> (forall i, f i (k_procs s i) = g i (k_procs s i)) -> ptable g s s'.
Proof. intros [Hp Hr] He. split; [|done]. intros i. by rewrite Hp. Qed.
Lemma ptable_trans f g s s1 s2 : ptable f s s1 -> ptable g s1 s2 -> ptable (fun i x => g i (f i x)) s s2.
Proof. intros [Hp Hr] [Hp2 Hr2]. split; [intros i; by rewrite Hp2, Hp|]. rewrite <- Hr, <- Hr2. by destruct s2. Qed.

(** * [wakeup] *)

(** What a [wakeup] by process [m] does to entry [i]. *)
Definition woken_by (ch : chan) (m i : nat) (x : proc) : proc :=
  if decide (i <> m /\ p_state x = SLEEPING /\ p_chan x = Some ch) then set_pstate RUNNABLE x else x.

(** No process lock is held, the own one apart. *)
Definition pcpu (c : cpu) : Prop := forall i, i <> me c -> LProc i ∉ held c.

Lemma wp_kwakeup ch c s (Q : cpu -> kst -> unit -> Prop) : pcpu c ->
  (forall s', ptable (fun i x => if decide (i < NPROCS)%nat then woken_by ch (me c) i x else x) s s' -> Q (set_woken (ch :: woken c) c) s' tt) ->
  wp (kwakeup ch) c s Q.
Proof.
  intros Hc HQ. unfold kwakeup. wp_step. wp_step. set (c1 := set_woken _ c).
  assert (forall i, i <> me c -> LProc i ∉ held c1) as Hc1 by exact Hc.
  apply (wp_ptable _ (woken_by ch (me c)) c1 s tt); [| |exact HQ].
  - intros i s' Hi _. rewrite (proj2 (Nat.ltb_lt i NPROCS)) by done. unfold myproc, get_proc, upd_proc. wp_step. wp_step. wp_step. change (me c1) with (me c).
    destruct (Nat.eqb_spec i (me c)) as [->|Hne].
    + wp_steps. split_and!; try done. eapply ptable_ext; [apply ptable_refl|]. intros j. unfold woken_by. repeat case_decide; subst; naive_solver.
    + wp_step. apply wp_acquire; [by apply Hc1|]. wp_step. wp_step. wp_step. destruct (decide (_ /\ _)) as [[Hs Hch]|Hno].
      * wp_steps. rewrite remove_lock_head by (by apply Hc1). split_and!; [by destruct c|done|].
        eapply ptable_ext; [apply (ptable_upd i (set_pstate RUNNABLE))|]. intros j. unfold woken_by. repeat case_decide; subst; naive_solver.
      * wp_steps. rewrite remove_lock_head by (by apply Hc1). split_and!; [by destruct c|done|].
        eapply ptable_ext; [apply ptable_refl|]. intros j. unfold woken_by. repeat case_decide; subst; naive_solver.
  - intros s'. rewrite Nat.ltb_irrefl. by wp_step.
Qed.

(** [wakeup(ch)] makes runnable exactly the other processes that sleep on [ch]; every
    other field of every process stays as it was, and the locks taken are given back. *)
Lemma kwakeup_correct ch c s : pcpu c ->
  exists s', kwakeup ch c s = Ret (set_woken (ch :: woken c) c) s' tt /\ set_procs (k_procs s) s' = s /\
    forall i, k_procs s' i =
      if decide ((i < NPROCS)%nat /\ i <> me c /\ p_state (k_procs s i) = SLEEPING /\ p_chan (k_procs s i) = Some ch)
      then set_pstate RUNNABLE (k_procs s i) else k_procs s i.
Proof.
  intros Hc. destruct (wp_elim (kwakeup ch) c s (fun c' s' _ => c' = set_woken (ch :: woken c) c /\
    ptable (fun i x => if decide (i < NPROCS)%nat then woken_by ch (me c) i x else x) s s')) as (c' & s' & [] & Hr & -> & [Hp Hrest]).
  { by apply wp_kwakeup. }
  exists s'. split_and!; [exact Hr|done|]. intros i. rewrite Hp. unfold woken_by. repeat case_decide; naive_solver.
Qed.

(** * [sleep] *)

Lemma sched_run c s : held c = [LProc (me c)] -> p_state (k_procs s (me c)) <> RUNNING -> sched c s = swtch c s.
Proof.
  intros Hh Hs. unfold sched, myproc, holding, getcpu, get_proc, gets, bind. cbn [obind].
  rewrite bool_decide_true by (rewrite Hh; by left). cbn [negb obind]. rewrite Hh. cbn [length Nat.eqb negb]. by rewrite decide_False.
Qed.

(** The checks of [sched]: it switches only when the process's own lock is the one
    lock held and the process is no longer marked running; otherwise it panics. *)
Lemma sched_guards c s :
  (LProc (me c) ∉ held c -> sched c s = Panic "sched p->lock") /\
  (LProc (me c) ∈ held c -> length (held c) <> 1%nat -> sched c s = Panic "sched locks") /\
  (LProc (me c) ∈ held c -> length (held c) = 1%nat -> p_state (k_procs s (me c)) = RUNNING -> sched c s = Panic "sched running") /\
  (held c = [LProc (me c)] -> p_state (k_procs s (me c)) <> RUNNING -> sched c s = swtch c s).
Proof.
  split_and!; [..|by apply sched_run]; unfold sched, myproc, holding, getcpu, get_proc, gets, bind; cbn [obind].
  - intros Hn. by rewrite bool_decide_false.
  - intros Hi Hl. rewrite bool_decide_true by done. cbn [negb obind]. by rewrite (proj2 (Nat.eqb_neq _ _) Hl).
  - intros Hi Hl Hr. rewrite bool_decide_true by done. cbn [negb obind]. rewrite Hl. cbn [Nat.eqb negb]. by rewrite decide_True.
Qed.

(** What [sleep] stores in the process's entry before it gives up the CPU. *)
Definition asleep (ch : chan) (x : proc) : proc := set_pstate SLEEPING (set_chan (Some ch) x).

Lemma ksleep_run ch lk c s w : held c = [lk] -> lk <> LProc (me c) -> wakeups c = S w ->
  exists s1 k, ksleep ch lk c s = Sleep ch (set_held [LProc (me c)] c) s1 k /\
    k_procs s1 (me c) = asleep ch (k_procs s (me c)) /\ (forall i, i <> me c -> k_procs s1 i = k_procs s i) /\ set_procs (k_procs s) s1 = s /\
    forall s2, exists s3, k s2 = Ret (resumed w c) s3 tt /\
      k_procs s3 (me c) = set_chan None (k_procs s2 (me c)) /\ (forall i, i <> me c -> k_procs s3 i = k_procs s2 i) /\ set_procs (k_procs s2) s3 = s2.
Proof.
  intros Hh Hne Hw. set (p := me c). assert (LProc p <> lk) as Hpl by (intros E; by apply Hne). set (s1 := set_procs (updn p (set_pstate SLEEPING) (k_procs (set_procs (updn p (set_chan (Some ch)) (k_procs s)) s))) s).
  assert (k_procs s1 p = asleep ch (k_procs s p)) as Hp by (cbn; rewrite updn_eq; cbn; by rewrite updn_eq).
  assert (ksleep ch lk c s = obind (swtch (set_held [LProc p] c) s1) (fun _ =>
    upd_proc p (set_chan None) ;; release (LProc p) ;; acquire lk)) as Hk.
  { unfold ksleep, myproc, getcpu, bind at 1. cbn [obind]. fold p. unfold bind at 1. unfold acquire at 1. rewrite Hh.
    rewrite decide_False by (by rewrite list_elem_of_singleton). cbn [obind]. unfold bind at 1, release at 1. cbn [held set_held].
    rewrite decide_True by set_solver. cbn [obind]. assert (remove_lock lk [LProc p; lk] = [LProc p]) as ->.
    { unfold remove_lock. rewrite filter_cons_True by (intros E; by apply Hpl). by rewrite filter_cons_False by auto. }
    unfold bind at 1, upd_proc at 1, modify. cbn [obind]. unfold bind at 1, upd_proc at 1, modify. cbn [obind].
    unfold bind at 1. change (set_held [LProc p] (set_held [LProc p; lk] c)) with (set_held [LProc p] c).
    rewrite sched_run; [done|done|]. change (p_state (k_procs s1 p) <> RUNNING). by rewrite Hp. }
  assert (swtch (set_held [LProc p] c) s1 = Sleep ch (set_held [LProc p] c) s1 (fun s' => Ret (resumed w (set_held [LProc p] c)) s' tt)) as Hsw.
  { unfold swtch. change (me (set_held [LProc p] c)) with p. change (wakeups (set_held [LProc p] c)) with (wakeups c). rewrite Hp, Hw. done. }
  exists s1. rewrite Hk, Hsw. cbn [obind].
  eexists. split; [reflexivity|]. split_and!; [done| |by destruct s|].
  - intros i Hi. cbn. rewrite updn_ne by done. cbn. by rewrite updn_ne.
  - intros s2. exists (set_procs (updn p (set_chan None) (k_procs s2)) s2).
    split_and!; [|apply updn_eq|intros i Hi; by apply updn_ne|by destruct s2].
    unfold bind, upd_proc, modify. cbn [obind]. unfold release. cbn [held resumed set_held]. rewrite decide_True by set_solver. cbn [obind].
    unfold acquire. cbn [held set_held]. rewrite decide_False by (unfold remove_lock; rewrite filter_cons_False by auto; apply not_elem_of_nil).
    assert (remove_lock (LProc p) [LProc p] = []) as -> by (unfold remove_lock; by rewrite filter_cons_False by auto).
    destruct c. cbn in *. by subst.
Qed.

(** [sleep(ch, lk)] with [lk] the only lock held gives up the CPU with the process
    marked as sleeping on [ch], [lk] free and only the process's own lock held, which the
    scheduler releases; when it is resumed, from whatever state [s2] it then finds, it clears
    the channel and returns with [lk] held again, as at the call. *)
Lemma ksleep_correct ch lk c s w : held c = [lk] -> lk <> LProc (me c) -> wakeups c = S w ->
  exists s1 k, ksleep ch lk c s = Sleep ch (set_held [LProc (me c)] c) s1 k /\
    k_procs s1 (me c) = asleep ch (k_procs s (me c)) /\ (forall i, i <> me c -> k_procs s1 i = k_procs s i) /\ set_procs (k_procs s) s1 = s /\
    forall s2, exists s3, k s2 = Ret (resumed w c) s3 tt /\
      k_procs s3 (me c) = set_chan None (k_procs s2 (me c)) /\ (forall i, i <> me c -> k_procs s3 i = k_procs s2 i) /\ set_procs (k_procs s2) s3 = s2.
Proof. apply ksleep_run. Qed.

(** * [kill] *)

Definition kill_entry (x : proc) : proc :=
  let y := set_killed 1 x in if decide (p_state x = SLEEPING) then set_pstate RUNNABLE y else y.

(** [kill(pid)] marks the first process with that pid as killed, and wakes it if it
    sleeps so that it notices; no other process changes. Without such a process it returns -1
    and changes nothing. *)
Lemma kill_correct pid c s : (forall i, LProc i ∉ held c) ->
  (kill pid c s = Ret c s (-1) /\ forall i, (i < NPROCS)%nat -> p_pid (k_procs s i) <> pid) \/
  exists s' i, kill pid c s = Ret c s' 0 /\ (i < NPROCS)%nat /\ p_pid (k_procs s i) = pid /\
    (forall j, (j < i)%nat -> p_pid (k_procs s j) <> pid) /\ k_procs s' i = kill_entry (k_procs s i) /\
    (forall j, j <> i -> k_procs s' j = k_procs s j) /\ set_procs (k_procs s) s' = s.
Proof.
  intros Hc. destruct (wp_elim (kill pid) c s (fun c' s' r => c' = c /\
    ((r = -1 /\ s' = s /\ forall i, (i < NPROCS)%nat -> p_pid (k_procs s i) <> pid) \/
     (r = 0 /\ exists i, (i < NPROCS)%nat /\ p_pid (k_procs s i) = pid /\ (forall j, (j < i)%nat -> p_pid (k_procs s j) <> pid) /\
       k_procs s' i = kill_entry (k_procs s i) /\ (forall j, j <> i -> k_procs s' j = k_procs s j) /\ set_procs (k_procs s) s' = s))))
    as (c' & s' & r & Hr & -> & [(-> & -> & Hno)|(-> & i & Hi)]); [|left; split; [exact Hr|exact Hno]|right; exists s', i; split; [exact Hr|exact Hi]].
  unfold kill. eapply (wp_loop (fun i c' s' => (i <= NPROCS)%nat /\ c' = c /\ s' = s /\ forall j, (j < i)%nat -> p_pid (k_procs s j) <> pid)
    (fun i => (NPROCS - i)%nat)); [|lia|split_and!; [lia|done|done|intros; lia]].
  intros i c' s' (Hi & -> & -> & Hb). destruct (Nat.ltb_spec i NPROCS) as [Hlt|Hge].
  - unfold get_proc, upd_proc. wp_step. apply wp_acquire; [apply Hc|]. wp_step. wp_step. destruct (Z.eqb_spec (p_pid (k_procs s i)) pid) as [Hp|Hp].
    + wp_step. wp_step. wp_step.
      destruct (decide (p_state (k_procs s i) = SLEEPING)) as [Hs|Hs]; wp_step.
      * cbn [k_procs set_procs]. wp_step. wp_steps. rewrite set_held_back by apply Hc. split; [done|]. right. split; [done|]. exists i.
        split_and!; try done; [|intros j Hj; cbn; by rewrite !updn_ne by done|by destruct s]. cbn. rewrite !updn_eq. unfold kill_entry. by rewrite decide_True.
      * wp_steps. rewrite set_held_back by apply Hc. split; [done|]. right. split; [done|]. exists i.
        split_and!; try done; [|intros j Hj; cbn; by rewrite !updn_ne by done|by destruct s]. cbn. rewrite !updn_eq. unfold kill_entry. by rewrite decide_False.
    + wp_steps. rewrite set_held_back by apply Hc. split_and!; try lia; try done. intros j Hj. destruct (decide (j = i)) as [->|]; [done|apply Hb; lia].
  - wp_step. split; [done|]. left. split_and!; try done. intros j Hj. apply Hb. lia.
Qed.

(** * [reparent] *)

(** What [reparent p] by process [m] does to entry [i]. *)
Definition reparented (p : nat) (ini : option nat) (x : proc) : proc :=
  if decide (p_parent x = Some p) then set_parent ini x else x.

Lemma woken_parent ch m i x : p_parent (woken_by ch m i x) = p_parent x.
Proof. unfold woken_by. by case_decide. Qed.
Lemma woken_idem ch m i x : woken_by ch m i (woken_by ch m i x) = woken_by ch m i x.
Proof. unfold woken_by. repeat case_decide; naive_solver. Qed.
Lemma woken_set_parent ch m i x o : woken_by ch m i (set_parent o x) = set_parent o (woken_by ch m i x).
Proof. unfold woken_by. repeat case_decide; try done; naive_solver. Qed.

(** [reparent(p)] gives every child of [p] to the first process and leaves the parent
    of every other process alone; if there was a child, it wakes the first process, which may
    be waiting for one. *)
Lemma reparent_correct p ini c s : pcpu c -> k_initproc s = Some ini ->
  let kids := existsb (fun i => bool_decide (p_parent (k_procs s i) = Some p)) (seq 0 NPROCS) in
  exists c' s', reparent p c s = Ret c' s' tt /\ same_cpu c c' /\ set_procs (k_procs s) s' = s /\
    forall i, k_procs s' i = if decide (i < NPROCS)%nat then
        reparented p (Some ini) (if kids then woken_by (ChProc ini) (me c) i (k_procs s i) else k_procs s i)
      else k_procs s i.
Proof.
  intros Hc Hini kids.
  set (f n i x := if decide (i < NPROCS)%nat then
    (if decide (i < n)%nat then reparented p (Some ini) else id)
      (if existsb (fun i => bool_decide (p_parent (k_procs s i) = Some p)) (seq 0 n) then woken_by (ChProc ini) (me c) i x else x) else x).
  destruct (wp_elim (reparent p) c s (fun c' s' _ => same_cpu c c' /\ ptable (f NPROCS) s s')) as (c' & s' & [] & Hr & Hcc & [Hp Hrest]).
  2: { exists c', s'. split_and!; [exact Hr|done|done|]. intros i. rewrite Hp. unfold f. by case_decide. }
  unfold reparent. eapply (wp_loop (fun n c' s' => (n <= NPROCS)%nat /\ same_cpu c c' /\ ptable (f n) s s') (fun n => (NPROCS - n)%nat)); [|lia|].
  2: { split_and!; [lia|done|]. eapply ptable_ext; [apply ptable_refl|]. intros i. unfold f. simpl. by case_decide. }
  intros n c1 s1 (Hn & Hcc & Ht). destruct (Nat.ltb_spec n NPROCS) as [Hlt|Hge].
  2: { wp_step. split; [done|]. by replace NPROCS with n by lia. }
  assert (p_parent (k_procs s1 n) = p_parent (k_procs s n)) as Hpn.
  { rewrite (pt_procs _ _ _ Ht). unfold f. rewrite decide_True, (decide_False (P := (n < n)%nat)) by lia. case_match; [apply woken_parent|done]. }
  assert (forall i x, f (S n) i x = let w := if bool_decide (p_parent (k_procs s n) = Some p) && bool_decide (i < NPROCS)%nat then woken_by (ChProc ini) (me c) i else id in
    (if decide (i = n) then reparented p (Some ini) else id) (w (f n i x))) as Hf.
  { intros i x. unfold f. rewrite seq_S, existsb_app. cbn [existsb]. rewrite orb_false_r. simpl.
    destruct (decide (i < NPROCS)%nat) as [Hi|Hi].
    2: { rewrite (bool_decide_false (i < NPROCS)%nat) by done. rewrite andb_false_r. unfold id. by rewrite decide_False by lia. }
    rewrite (bool_decide_true (i < NPROCS)%nat) by done. rewrite andb_true_r.
    destruct (existsb _ (seq 0 n)), (bool_decide (p_parent (k_procs s n) = Some p)); simpl; unfold id, reparented;
    repeat case_decide; subst; rewrite ?woken_set_parent, ?woken_idem, ?woken_parent in *; try lia; try done. }
  unfold get_proc, upd_proc. wp_step. wp_step. wp_step. rewrite Hpn. destruct (decide (p_parent (k_procs s n) = Some p)) as [Hch|Hch].
  - wp_step. wp_step. wp_step. wp_step. assert (k_initproc s1 = Some ini) as Hi1 by (rewrite <- Hini, <- (pt_rest _ _ _ Ht); by destruct s1).
    rewrite Hi1. cbn [default from_option id].
    assert (pcpu c1) as Hc1 by (destruct Hcc as (Hh & _ & Hm); unfold pcpu; by rewrite Hh, Hm).
    apply wp_kwakeup; [done|]. intros s2 Ht2. wp_step. split_and!; try lia; [by eapply same_cpu_trans|].
    eapply ptable_ext; [eapply ptable_trans; [exact Ht|eapply ptable_trans; [apply (ptable_upd n (set_parent (Some ini)))|exact Ht2]]|].
    intros i. rewrite Hf. destruct Hcc as (_ & _ & ->). rewrite (bool_decide_true (_ = Some p)) by done.
    set (y := f n i (k_procs s i)).
    assert (i = n -> p_parent y = Some p) as Hy by (intros ->; unfold y; by rewrite <- (pt_procs _ _ _ Ht), Hpn).
    destruct (decide (i < NPROCS)%nat) as [Hi|Hi]; [rewrite (bool_decide_true (i < NPROCS)%nat) by done|rewrite (bool_decide_false (i < NPROCS)%nat) by done; rewrite !(decide_False (P := i = n)) by lia; done].
    cbn [andb]. destruct (decide (i = n)) as [->|]; [|done]. rewrite woken_set_parent. unfold reparented. rewrite woken_parent, decide_True by auto. done.
  - wp_steps. split_and!; try lia; [done|]. eapply ptable_ext; [exact Ht|]. intros i. rewrite Hf, (bool_decide_false (_ = Some p)) by done. cbn [andb]. unfold id.
    destruct (decide (i = n)) as [->|]; [|done]. unfold reparented. by rewrite decide_False by (by rewrite <- (pt_procs _ _ _ Ht), Hpn).
Qed.

(** * Witnesses *)

(** Process 0 is the first process, 3 is the running one, 4 and 5 are its children, asleep. *)
Definition family (i : nat) : proc :=
  let x := small_proc (Z.of_nat i + 1) in
  match i with
  | 4%nat => set_parent (Some 3%nat) (asleep (ChProc 3) x)
  | 5%nat => set_parent (Some 3%nat) (asleep ChTicks x)
  | 0%nat => asleep (ChProc 0) x
  | _ => x
  end.
Definition family_kst : kst := small_kst (mkkmem (fun _ => 0) 0) family.

Lemma pcpu_nil p w : pcpu (mkcpu [] p w [] 3 []).
Proof. intros i _. apply not_elem_of_nil. Qed.

Lemma kwakeup_correct_witness : exists s', kwakeup ChTicks cpu3 family_kst = Ret (set_woken [ChTicks] cpu3) s' tt /\
  p_state (k_procs s' 5) = RUNNABLE /\ p_state (k_procs s' 4) = SLEEPING.
Proof.
  destruct (kwakeup_correct ChTicks cpu3 family_kst) as (s' & Hr & _ & Hp); [apply pcpu_nil|].
  exists s'. split; [exact Hr|]. rewrite !Hp. clear Hr Hp. split; reflexivity.
Defined.

Lemma ksleep_correct_witness : exists s1 k, ksleep ChTicks LTicks (mkcpu [LTicks] 4 2 [] 3 []) family_kst = Sleep ChTicks (mkcpu [LProc 3] 4 2 [] 3 []) s1 k /\
  p_state (k_procs s1 3) = SLEEPING /\ exists s3, k s1 = Ret (mkcpu [LTicks] 4 1 [] 3 []) s3 tt.
Proof.
  destruct (ksleep_correct ChTicks LTicks (mkcpu [LTicks] 4 2 [] 3 []) family_kst 1) as (s1 & k & Hr & Hp & _ & _ & Hk); [done|done|done|].
  exists s1, k. split; [exact Hr|]. split; [change 3%nat with (me (mkcpu [LTicks] 4 2 [] 3 [])); rewrite Hp; reflexivity|].
  destruct (Hk s1) as (s3 & Hk3 & _). exists s3. exact Hk3.
Defined.

Lemma kill_correct_witness : exists s', kill 6 cpu3 family_kst = Ret cpu3 s' 0 /\ p_killed (k_procs s' 5) = 1 /\ p_state (k_procs s' 5) = RUNNABLE.
Proof.
  destruct (kill_correct 6 cpu3 family_kst) as [[_ Hno]|(s' & i & Hr & Hi & Hp & Hf & He & _)]; [intros; apply not_elem_of_nil| |].
  - exfalso. apply (Hno 5%nat); [vm_compute; lia|reflexivity].
  - assert (i = 5%nat) as ->.
    { assert (p_pid (k_procs family_kst i) = Z.of_nat i + 1) as E by (unfold family_kst, family; simpl; repeat case_match; reflexivity). lia. }
    exists s'. split; [exact Hr|]. rewrite He. clear. split; reflexivity.
Defined.

Lemma reparent_correct_witness : exists c' s', reparent 3 cpu3 family_kst = Ret c' s' tt /\
  p_parent (k_procs s' 4) = Some 0%nat /\ p_parent (k_procs s' 5) = Some 0%nat /\ p_state (k_procs s' 0) = RUNNABLE.
Proof.
  destruct (reparent_correct 3 0 cpu3 family_kst) as (c' & s' & Hr & _ & _ & Hp); [apply pcpu_nil|reflexivity|].
  exists c', s'. split; [exact Hr|]. rewrite !Hp. clear. split_and!; reflexivity.
Defined.
