(* ===== verification/ProcFork.v ===== *)
(** Creating and reaping processes: [allocproc], [freeproc], [fork] and [wait]. *)
From S2P Require Import Prelude Memory Riscv Kalloc Vm VmTree VmMap VmUser VmCopy VmFree VmProps Sleeplock Bio Log Fs State Process ProcSpace FsFile Uart Console Pipe File ProcLife.

#[local] Arguments loop : simpl never.

Section life.
Context `{Layout}.

(** Nothing but memory, the process table and the next pid differs. *)
Definition kmp (s s' : kst) : Prop := s' = set_nextpid (k_nextpid s') (set_procs (k_procs s') (set_kmem (k_mem s') s)).

Lemma kmp_refl s : kmp s s.
Proof. by destruct s. Qed.
Lemma kmp_trans s1 s2 s3 : kmp s1 s2 -> kmp s2 s3 -> kmp s1 s3.
Proof. unfold kmp. intros -> ->. by destruct s1. Qed.
Lemma kmp_mem s m : kmp s (set_kmem m s).
Proof. by destruct s. Qed.
Lemma kmp_procs s P : kmp s (set_procs P s).
Proof. by destruct s. Qed.

(** The pages a process owns: its trap frame and its address space, as far as it has them. *)
Inductive holds (m : kmem) (l : list Z) : Z -> Z -> Z -> list Z -> Prop :=
| holds_none sz : holds m l 0 0 sz []
| holds_tf tf sz : page_ok tf -> tf ∉ l -> holds m l tf 0 sz [tf]
| holds_all tf root sz N us : page_ok tf -> tf ∉ l -> not_node N tf -> tf ∉ us.*1 -> page_ok root -> aspace m l root tf N us -> size_pages sz (length us) ->
    holds m l tf root sz (tf :: node_pages N ++ us.*1).

Lemma aspace_frame P m l root tf N us m' l' : aspace m l root tf N us -> kmem_inv m' l' -> frame_out P (kmem_mem m) (kmem_mem m') -> Forall page_ok P ->
  (forall pa, pa ∈ P -> not_node N pa) -> (forall pa, pa ∈ l' -> (pa ∉ us.*1) /\ not_node N pa) -> aspace m' l' root tf N us.
Proof.
  intros [Hu Htr Htf] Hk Hf HP Hn Hl. pose proof (up_inv _ _ _ _ _ Hu) as (_ & Hr & _).
  assert (same_nodes N (kmem_mem m) (kmem_mem m')) as Hs by (eapply frame_out_nodes; [exact Hf|done|exact Hr|]; intros p x Hp HinP; by eapply (Hn x)).
  split; [by eapply user_pages_frame|by rewrite (same_nodes_view N _ _ _ Hs)|by rewrite (same_nodes_view N _ _ _ Hs)].
Qed.

Lemma aspace_disj m l root tf N us pa : aspace m l root tf N us -> pa ∈ l -> (pa ∉ us.*1) /\ not_node N pa.
Proof.
  intros [Hu _ _] Hin. split; [intros Hpu; by destruct (up_elem _ _ _ _ _ _ Hu Hpu) as (_ & ? & _)|].
  intros p x Hp ->. destruct (up_inv _ _ _ _ _ Hu) as (_ & _ & Hd). by eapply Hd.
Qed.

(** What [freeproc] leaves of an entry. *)
Definition freed (x : proc) : proc :=
  mkproc UNUSED None 0 0 0 None (p_kstack x) 0 0 0 (p_context x) (p_ofile x) (p_cwd x) (<[0%nat := 0]> (p_name x)) 0.

Record freed_post (s : kst) (p : nat) (l P : list Z) (s' : kst) : Prop := {
  fr_kmp : kmp s s';
  fr_pid : k_nextpid s' = k_nextpid s;
  fr_own : k_procs s' p = freed (k_procs s p);
  fr_other i : i <> p -> k_procs s' i = k_procs s i;
  fr_frame : frame_out P (kmem_mem (k_mem s)) (kmem_mem (k_mem s'));
  fr_list : exists l', kmem_inv (k_mem s') l' /\ l' ≡ₚ P ++ l;
}.

(** The two halves of [freeproc] on memory. *)
Inductive holds_pt (m : kmem) (l : list Z) : Z -> Z -> list Z -> Prop :=
| holds_pt_none sz : holds_pt m l 0 sz []
| holds_pt_all tf root sz N us : pa_ok tf -> page_ok root -> aspace m l root tf N us -> size_pages sz (length us) -> holds_pt m l root sz (node_pages N ++ us.*1).

Lemma holds_free_tf m l tf pt sz P c (Q : cpu -> kmem -> unit -> Prop) : LKmem ∉ held c -> kmem_inv m l -> holds m l tf pt sz P ->
  (forall m' l' P1 P2, kmem_inv m' l' -> P = P1 ++ P2 -> l' ≡ₚ P1 ++ l -> frame_out P (kmem_mem m) (kmem_mem m') -> holds_pt m' l' pt sz P2 -> Q c m' tt) ->
  wp (if negb (tf =? 0) then kfree tf else ret tt) c m Q.
Proof.
  intros Hc Hk Hh HQ. destruct Hh as [sz|tf sz Htf Hnl|tf root sz N us Htf Hnl Hnn Hnu Hroot Has Hsz].
  - apply wp_ret, (HQ m l [] []); try done. constructor.
  - pose proof (page_ok_pos _ Htf) as Hpos. unfold KERNBASE in Hpos. rewrite (proj2 (Z.eqb_neq tf 0)) by lia.
    eapply wp_kfree; [done|exact Hk|done|done|]. intros m1 Hk1 Ho1. apply (HQ m1 (tf :: l) [tf] []); [done|done|done| |constructor]. eapply frame_out_page; [|exact Ho1]. set_solver.
  - pose proof (page_ok_pos _ Htf) as Hpos. unfold KERNBASE in Hpos. rewrite (proj2 (Z.eqb_neq tf 0)) by lia.
    eapply wp_kfree; [done|exact Hk|done|done|]. intros m1 Hk1 Ho1. apply (HQ m1 (tf :: l) [tf] (node_pages N ++ us.*1)); [done|done|done|eapply frame_out_page; [|exact Ho1]; set_solver|].
    apply (holds_pt_all _ _ tf); [by apply page_ok_pa|done| |done].
    eapply (aspace_frame [tf]); [exact Has|exact Hk1|eapply frame_out_page; [|exact Ho1]; set_solver|by constructor|by intros pa ->%list_elem_of_singleton|].
    intros pa [->|Hpa]%elem_of_cons; [done|by eapply aspace_disj].
Qed.

Lemma holds_free_pt m l pt sz P c (Q : cpu -> kmem -> unit -> Prop) : LKmem ∉ held c -> kmem_inv m l -> holds_pt m l pt sz P ->
  (forall m' l', kmem_inv m' l' -> l' ≡ₚ P ++ l -> frame_out P (kmem_mem m) (kmem_mem m') -> Q c m' tt) ->
  wp (if negb (pt =? 0) then proc_freepagetable pt sz else ret tt) c m Q.
Proof.
  intros Hc Hk Hh HQ. destruct Hh as [sz|tf root sz N us Htf Hroot Has Hsz]; [by apply wp_ret, (HQ m l)|].
  pose proof (page_ok_pos _ Hroot) as Hpos. unfold KERNBASE in Hpos. rewrite (proj2 (Z.eqb_neq root 0)) by lia.
  eapply wp_proc_freepagetable; [done|exact Has|done|exact Hsz|]. intros m2 l2 Hk2 Hl2 Hf2. apply (HQ m2 l2); [done| |done].
  rewrite Hl2. unfold uv_pages. by rewrite Permutation_app_comm, <- app_assoc.
Qed.

(** A step on memory alone inside the kernel. *)
Lemma wp_ifmem (b : bool) (m : M kmem unit) c s (Q : cpu -> kst -> unit -> Prop) :
  wp (if b then m else ret tt) c (k_mem s) (fun c' m' _ => Q c' (set_kmem m' s) tt) -> wp (if b then zoom mem_lens m else ret tt) c s Q.
Proof. destruct b; intros Hw; [apply wp_zoom; eapply wp_mono; [exact Hw|]; by intros c' m' []|]. unfold wp, ret in *. by destruct s. Qed.

Lemma wp_freeproc c s p l P (Q : cpu -> kst -> unit -> Prop) : LKmem ∉ held c -> kmem_inv (k_mem s) l ->
  holds (k_mem s) l (p_trapframe (k_procs s p)) (p_pagetable (k_procs s p)) (p_sz (k_procs s p)) P ->
  (forall s', freed_post s p l P s' -> Q c s' tt) -> wp (freeproc p) c s Q.
Proof.
  intros Hc Hk Hh HQ. unfold freeproc, get_proc, upd_proc. wp_step. wp_step. wp_step. apply wp_ifmem.
  eapply holds_free_tf; [done|exact Hk|exact Hh|]. intros m1 l1 P1 P2 Hk1 -> Hl1 Hf1 Hp1. wp_step. wp_step. wp_step. wp_step. wp_step. cbn [k_procs set_procs set_kmem]. rewrite updn_eq. apply wp_ifmem.
  change (p_pagetable (set_trapframe 0 (k_procs s p))) with (p_pagetable (k_procs s p)). change (p_sz (set_trapframe 0 (k_procs s p))) with (p_sz (k_procs s p)).
  eapply holds_free_pt; [done|exact Hk1|exact Hp1|]. intros m2 l2 Hk2 Hl2 Hf2. wp_steps. apply HQ. split; cbn [k_mem k_nextpid set_procs set_kmem k_procs]; [by destruct s|done| | | |].
  - by rewrite !updn_eq.
  - intros i Hi. by rewrite !updn_ne.
  - eapply frame_out_trans; [exact Hf1|]. eapply frame_out_mono; [|exact Hf2]. set_solver.
  - exists l2. split; [done|]. rewrite Hl2, Hl1. solve_Permutation.
Qed.

(** * [allocproc] *)

(** The entries that are not in use own nothing and have no open files. *)
Definition unused_clean (s : kst) : Prop :=
  forall i, (i < NPROCS)%nat -> p_state (k_procs s i) = UNUSED ->
    p_trapframe (k_procs s i) = 0 /\ p_pagetable (k_procs s i) = 0 /\ p_sz (k_procs s i) = 0 /\ p_ofile (k_procs s i) = replicate 16 None.

(** No process is created: at most one entry that was not in use was touched and is not in use
    again, and the free list has the pages it had. *)
Record no_proc (s : kst) (l : list Z) (s' : kst) : Prop := {
  np_kmp : kmp s s';
  np_procs i : k_procs s' i = k_procs s i \/ (i < NPROCS)%nat /\ p_state (k_procs s i) = UNUSED /\ p_state (k_procs s' i) = UNUSED;
  np_frame : frame_out l (kmem_mem (k_mem s)) (kmem_mem (k_mem s'));
  np_list : exists l', kmem_inv (k_mem s') l' /\ l' ≡ₚ l;
}.

(** A new process in entry [p], with an empty address space. *)
Record new_proc (s : kst) (l : list Z) (p : nat) (s' : kst) (l' : list Z) (N : gmap (list Z) Z) : Prop := {
  nw_kmp : kmp s s';
  nw_pid : k_nextpid s' = s32 (k_nextpid s + 1);
  nw_slot : (p < NPROCS)%nat /\ p_state (k_procs s p) = UNUSED;
  nw_other i : i <> p -> k_procs s' i = k_procs s i;
  nw_own : exists tf root, k_procs s' p = set_context (forkret_addr, p_kstack (k_procs s p) + PGSIZE) (set_pagetable root (set_trapframe tf (set_pstate USED (set_pid (k_nextpid s) (k_procs s p)))));
  nw_frame : frame_out l (kmem_mem (k_mem s)) (kmem_mem (k_mem s'));
  nw_tf : page_ok (p_trapframe (k_procs s' p));
  nw_root : page_ok (p_pagetable (k_procs s' p));
  nw_space : aspace (k_mem s') l' (p_pagetable (k_procs s' p)) (p_trapframe (k_procs s' p)) N [];
  nw_list : l ≡ₚ p_trapframe (k_procs s' p) :: l' ++ node_pages N;
}.

(** The search for an entry: with the lock of the first one that is not in use. *)
Lemma wp_find_unused {A} (k : option nat -> M kst A) c s (Q : cpu -> kst -> A -> Prop) : (forall i, LProc i ∉ held c) ->
  ((forall i, (i < NPROCS)%nat -> p_state (k_procs s i) <> UNUSED) -> wp (k None) c s Q) ->
  (forall p, (p < NPROCS)%nat -> p_state (k_procs s p) = UNUSED -> (forall i, (i < p)%nat -> p_state (k_procs s i) <> UNUSED) -> wp (k (Some p)) (set_held (LProc p :: held c) c) s Q) ->
  wp (r <- loop (S NPROCS) (fun p =>
    if Nat.ltb p NPROCS then
      acquire (LProc p) ;;
      x <- get_proc p ;;
      if decide (p_state x = UNUSED) then ret (inr (Some p))
      else release (LProc p) ;; ret (inl (S p))
    else ret (inr None)) 0%nat ;; k r) c s Q.
Proof.
  intros Hc Hno Hyes. wp_step. eapply (wp_loop (fun i c' s' => (i <= NPROCS)%nat /\ c' = c /\ s' = s /\ forall j, (j < i)%nat -> p_state (k_procs s j) <> UNUSED) (fun i => (NPROCS - i)%nat)); [|lia|split_and!; [lia|done|done|lia]].
  intros i c' s' (Hi & -> & -> & Hb). destruct (Nat.ltb_spec i NPROCS) as [Hlt|Hge].
  - unfold get_proc. wp_step. apply wp_acquire; [apply Hc|]. wp_step. wp_step. destruct (decide (p_state (k_procs s i) = UNUSED)) as [Hu|Hu].
    + wp_step. by apply Hyes.
    + wp_steps. rewrite set_held_back by apply Hc. split_and!; try lia; try done. intros j Hj. destruct (decide (j = i)) as [->|]; [done|apply Hb; lia].
  - wp_step. apply Hno. intros j Hj. apply Hb. lia.
Qed.

(** [freeproc] of the entry [allocproc] could not complete. *)
Lemma wp_alloc_fail c s s0 p l l1 P (Q : cpu -> kst -> option nat -> Prop) : (forall i, LProc i ∉ held c) -> LKmem ∉ held c -> kmp s0 s ->
  (p < NPROCS)%nat -> p_state (k_procs s0 p) = UNUSED -> (forall i, i <> p -> k_procs s i = k_procs s0 i) ->
  kmem_inv (k_mem s) l1 -> P ++ l1 ≡ₚ l -> holds (k_mem s) l1 (p_trapframe (k_procs s p)) (p_pagetable (k_procs s p)) (p_sz (k_procs s p)) P ->
  frame_out l (kmem_mem (k_mem s0)) (kmem_mem (k_mem s)) ->
  (forall s', no_proc s0 l s' -> Q c s' None) ->
  wp (freeproc p ;; release (LProc p) ;; ret None) (set_held (LProc p :: held c) c) s Q.
Proof.
  intros Hc Hkm Hkmp Hp Hun Hoth Hk HP Hh Hf HQ. wp_step. eapply wp_freeproc; [set_solver|exact Hk|exact Hh|]. intros s1 [F1 F2 F3 F4 F5 (l2 & F6 & F7)]. wp_steps. rewrite set_held_back by apply Hc.
  apply HQ. split.
  - by eapply kmp_trans.
  - intros i. destruct (decide (i = p)) as [->|Hne]; [right; rewrite F3; done|left; rewrite F4, Hoth by done; done].
  - eapply frame_out_trans; [exact Hf|]. eapply frame_out_mono; [|exact F5]. intros x Hx. rewrite <- HP. set_solver.
  - exists l2. split; [done|]. by rewrite F7, HP.
Qed.

Lemma wp_allocproc c s l (Q : cpu -> kst -> option nat -> Prop) : (forall i, LProc i ∉ held c) -> LPid ∉ held c -> LKmem ∉ held c -> kmem_inv (k_mem s) l -> unused_clean s ->
  (forall s', no_proc s l s' -> Q c s' None) ->
  (forall p s' l' N, new_proc s l p s' l' N -> Q (set_held (LProc p :: held c) c) s' (Some p)) ->
  wp allocproc c s Q.
Proof.
  intros Hc Hpid Hkm Hk Hcl HN HS. unfold allocproc. apply wp_find_unused; [exact Hc| |].
  { intros _. wp_step. apply HN. split; [apply kmp_refl|by left|apply frame_out_refl|by exists l]. }
  intros p Hp Hun _. destruct (Hcl p Hp Hun) as (Htf0 & Hpt0 & _ & _). unfold allocpid, upd_proc, get_proc. set (c1 := set_held (LProc p :: held c) c).
  assert ((LPid ∉ held c1) /\ (LKmem ∉ held c1)) as [Hpid1 Hkm1] by (unfold c1; cbn; set_solver). wp_steps. lazymatch goal with |- wp _ ?cc _ _ => assert (cc = c1) as -> by exact (set_held_back LPid c1 Hpid1) end. apply wp_zoom.
  eapply wp_kalloc; [exact Hkm1|exact Hk|]. intros m1 tf Hpost. wp_steps. cbn [k_procs set_procs set_kmem set_nextpid lset mem_lens].
  destruct l as [|tf' l1]; cbn [kalloc_post] in Hpost.
  { destruct Hpost as [-> ->]. cbn [Z.eqb]. eapply (wp_alloc_fail c _ s p [] [] []); [exact Hc|exact Hkm|by destruct s|exact Hp|exact Hun| |exact Hk|done| |apply frame_out_refl|exact HN].
    - intros i Hi. cbn. by rewrite !updn_ne.
    - cbn. rewrite !updn_eq. cbn. rewrite Hpt0. constructor. }
  destruct Hpost as (-> & Hk1 & Ho1 & _). destruct Hk as (_ & Hnd & Hok). apply Forall_cons in Hok as [Htf _]. apply NoDup_cons in Hnd as [Htl _]. pose proof (page_ok_pos _ Htf) as Hpos. unfold KERNBASE in Hpos. rewrite (proj2 (Z.eqb_neq tf' 0)) by lia.
  wp_step. unfold proc_pagetable, get_proc. wp_step. wp_step. apply wp_zoom. cbn [k_procs set_procs set_kmem set_nextpid lget mem_lens k_mem]. rewrite updn_eq.
  eapply wp_pagetable; [exact Hkm1|exact Hk1|exact Htf|]. intros m2 root [Hf2 Hres]. wp_steps. cbn [k_procs set_procs set_kmem lset mem_lens].
  assert (frame_out (tf' :: l1) (kmem_mem (k_mem s)) (kmem_mem m2)) as Hf.
  { eapply frame_out_trans; [eapply frame_out_page; [|exact Ho1]; set_solver|]. eapply frame_out_mono; [|exact Hf2]. set_solver. }
  destruct Hres as [[-> (l2 & Hk2 & Hl2)]|(l2 & N & Hroot & Has & Hl2)].
  - cbn [Z.eqb]. eapply (wp_alloc_fail c _ s p (tf' :: l1) l2 [tf']); [exact Hc|exact Hkm|by destruct s|exact Hp|exact Hun| |exact Hk2| | |exact Hf|exact HN].
    + intros i Hi. cbn. by rewrite !updn_ne.
    + cbn. by rewrite Hl2.
    + cbn. rewrite !updn_eq. cbn. constructor; [done|]. by rewrite Hl2.
  - pose proof (page_ok_pos _ Hroot) as Hpos'. unfold KERNBASE in Hpos'. rewrite (proj2 (Z.eqb_neq root 0)) by lia. wp_steps. cbn [k_procs set_procs set_kmem]. rewrite !updn_eq. apply (HS p _ l2 N). split; cbn [k_mem set_procs set_kmem set_nextpid k_procs k_nextpid].
    + by destruct s.
    + done.
    + done.
    + intros i Hi. by rewrite !updn_ne.
    + exists tf', root. by rewrite !updn_eq.
    + exact Hf.
    + by rewrite !updn_eq.
    + by rewrite !updn_eq.
    + rewrite !updn_eq. exact Has.
    + rewrite !updn_eq. cbn. by rewrite Hl2.
Qed.

(** * [fork] *)

(** How many descriptors refer to a file. *)
Definition uses (f : nat) (ofile : list (option nat)) : Z := Z.of_nat (length (filter (fun o => o = Some f) ofile)).
Definition more_refs (ofile : list (option nat)) (F : nat -> file) : nat -> file := fun f => set_fref (f_ref (F f) + uses f ofile) (F f).

Lemma uses_snoc f l o : uses f (l ++ [o]) = uses f l + if decide (o = Some f) then 1 else 0.
Proof. unfold uses. rewrite filter_app, length_app. destruct (decide (o = Some f)); [rewrite filter_cons_True by done|rewrite filter_cons_False by done]; cbn; lia. Qed.

(** The loop that copies the descriptors. *)
Lemma wp_dup_files p np c s x (Q : cpu -> kst -> unit -> Prop) : p <> np -> LFtable ∉ held c -> k_procs s p = x -> length (p_ofile x) = 16%nat -> p_ofile (k_procs s np) = replicate 16 None ->
  (forall f, Some f ∈ p_ofile x -> 1 <= f_ref (k_files s f)) ->
  (forall F P, (forall f, F f = more_refs (p_ofile x) (k_files s) f) -> P np = set_ofile (p_ofile x) (k_procs s np) -> (forall i, i <> np -> P i = k_procs s i) -> Q c (set_files F (set_procs P s)) tt) ->
  wp (loop (S (Z.to_nat NOFILE)) (fun i =>
    if Z.of_nat i <? NOFILE then
      x <- get_proc p ;;
      match p_ofile x !! i with
      | Some (Some f) =>
          f <- filedup f ;;
          upd_proc np (fun y => set_ofile (<[i := Some f]> (p_ofile y)) y)
      | _ => ret tt
      end ;;
      ret (inl (S i))
    else ret (inr tt)) 0%nat) c s Q.
Proof.
  intros Hne Hc Hx Hlen Hnone Href HQ.
  eapply (wp_loop (fun i c' s' => (i <= 16)%nat /\ c' = c /\ exists F P, s' = set_files F (set_procs P s) /\ (forall f, F f = more_refs (take i (p_ofile x)) (k_files s) f) /\
    P np = set_ofile (take i (p_ofile x) ++ replicate (16 - i) None) (k_procs s np) /\ (forall j, j <> np -> P j = k_procs s j)) (fun i => (16 - i)%nat)); [|change (Z.to_nat NOFILE) with 16%nat; lia|].
  2: { split_and!; [lia|done|]. exists (k_files s), (k_procs s). split_and!; [by destruct s| | |done].
       - intros f. unfold more_refs, uses. cbn. rewrite Z.add_0_r. by destruct (k_files s f).
       - change (take 0 (p_ofile x) ++ replicate (16 - 0) None) with (replicate 16 (@None nat)). rewrite <- Hnone. by destruct (k_procs s np). }
  intros i c' s' (Hi & -> & F & P & -> & HF & Hnp & Hoth). unfold NOFILE. destruct (Z.ltb_spec (Z.of_nat i) 16) as [Hlt|Hge].
  2: { wp_step. assert (i = 16%nat) as -> by lia. rewrite take_ge in HF, Hnp by lia. cbn [replicate Nat.sub] in Hnp. rewrite app_nil_r in Hnp. by apply HQ. }
  unfold get_proc, upd_proc. wp_step. wp_step. wp_step. cbn [k_procs set_files set_procs]. rewrite Hoth, Hx by done.
  destruct (lookup_lt_is_Some_2 (p_ofile x) i) as [o Ho]; [lia|]. rewrite Ho. assert (take (S i) (p_ofile x) = take i (p_ofile x) ++ [o]) as Ht by (by apply take_S_r).
  assert (forall v, <[i := v]> (take i (p_ofile x) ++ replicate (16 - i) None) = take i (p_ofile x) ++ v :: replicate (16 - S i) None) as Hins.
  { intros v. rewrite insert_app_r_alt by (rewrite length_take; lia). rewrite length_take, Nat.min_l, Nat.sub_diag by lia. replace (16 - i)%nat with (S (16 - S i)) by lia. done. }
  destruct o as [f|].
  - unfold filedup, get_file, upd_file. wp_steps. cbn [k_files set_files]. assert (1 <= f_ref (F f)) as Hf.
    { rewrite HF. unfold more_refs, uses. cbn. pose proof (Href f (list_elem_of_lookup_2 _ _ _ Ho)). lia. }
    rewrite (proj2 (Z.ltb_ge _ 1)) by lia. wp_steps. rewrite set_held_back by exact Hc. split_and!; [lia|done| |lia]. eexists _, _. split_and!; [by destruct s| | |].
    + intros g. cbn [k_files set_files]. rewrite Ht. unfold more_refs. rewrite uses_snoc. destruct (decide (g = f)) as [->|Hgf].
      * rewrite updn_eq, HF, decide_True by done. unfold more_refs, set_fref. cbn. f_equal; lia.
      * rewrite updn_ne, HF, decide_False by congruence. by rewrite Z.add_0_r.
    + cbn [k_procs set_files set_procs]. rewrite updn_eq, Hnp. cbn [p_ofile set_ofile]. rewrite Hins, Ht, <- app_assoc. done.
    + intros j Hj. cbn [k_procs set_files set_procs]. by rewrite updn_ne, Hoth.
  - wp_steps. split_and!; [lia|done| |lia]. exists F, P. split_and!; [done| | |exact Hoth].
    + intros g. rewrite HF, Ht. unfold more_refs. rewrite uses_snoc, decide_False by done. by rewrite Z.add_0_r.
    + rewrite Hnp, Ht, <- app_assoc. replace (16 - i)%nat with (S (16 - S i)) by lia. done.
Qed.

(** The entry of the child, from that of the parent and the new one. *)
Definition child (p : nat) (x y : proc) : proc :=
  set_pstate RUNNABLE (set_parent (Some p) (set_name (safestrcpy_l (p_name y) (p_name x) 15) (set_trace_mask (p_trace_mask x) (set_cwd (p_cwd x) (set_ofile (p_ofile x) (set_psz (p_sz x) y)))))).
(** The trap frame of the child: a copy, with 0 in [a0]. *)
Definition child_mem (m : mem) (tfx tfy : Z) : mem := store64 (memmove m tfy tfx TF_size) (tfy + TF_a0) 0.
(** Everything but memory, processes, the next pid, files and inodes is as it was. *)
Definition kmpf (s s' : kst) : Prop := s' = set_fs (k_fs s') (set_files (k_files s') (set_nextpid (k_nextpid s') (set_procs (k_procs s') (set_kmem (k_mem s') s)))).

Record finished (s : kst) (p np k : nat) (s' : kst) : Prop := {
  fi_rest : kmpf s s';
  fi_pid : k_nextpid s' = k_nextpid s;
  fi_mem : k_mem s' = set_mem (child_mem (kmem_mem (k_mem s)) (p_trapframe (k_procs s p)) (p_trapframe (k_procs s np))) (k_mem s);
  fi_child : k_procs s' np = child p (k_procs s p) (k_procs s np);
  fi_other i : i <> np -> k_procs s' i = k_procs s i;
  fi_files f : k_files s' f = more_refs (p_ofile (k_procs s p)) (k_files s) f;
  fi_inodes : k_fs s' = mkfs (fs_sb (k_fs s)) (upd_itable k (set_ref (i_ref (fs_itable (k_fs s) k) + 1)) (fs_itable (k_fs s))) (fs_log (k_fs s));
}.

(** The part of [fork] after the memory has been copied. *)
Lemma wp_fork_finish p np k c s (Q : cpu -> kst -> Z -> Prop) : p <> np -> held c = [] -> length (p_ofile (k_procs s p)) = 16%nat -> p_ofile (k_procs s np) = replicate 16 None ->
  (forall f, Some f ∈ p_ofile (k_procs s p) -> 1 <= f_ref (k_files s f)) -> p_cwd (k_procs s p) = Some k ->
  (forall s', finished s p np k s' -> Q c s' (p_pid (k_procs s np))) ->
  wp (upd_proc np (set_psz (p_sz (k_procs s p))) ;;
      zoom mem_lens (upd_mem (fun m => memmove m (p_trapframe (k_procs s np)) (p_trapframe (k_procs s p)) TF_size)) ;;
      tf_set np TF_a0 0 ;;
      loop (S (Z.to_nat NOFILE)) (fun i =>
        if Z.of_nat i <? NOFILE then
          x <- get_proc p ;;
          match p_ofile x !! i with
          | Some (Some f) =>
              f <- filedup f ;;
              upd_proc np (fun y => set_ofile (<[i := Some f]> (p_ofile y)) y)
          | _ => ret tt
          end ;;
          ret (inl (S i))
        else ret (inr tt)) 0%nat ;;
      x <- get_proc p ;;
      cwd <- zoom fs_lens (idup (default 0%nat (p_cwd x))) ;;
      upd_proc np (set_cwd (Some cwd)) ;;
      upd_proc np (set_trace_mask (p_trace_mask x)) ;;
      upd_proc np (fun y => set_name (safestrcpy_l (p_name y) (p_name x) 15) y) ;;
      y <- get_proc np ;;
      let pid := p_pid y in
      release (LProc np) ;;
      acquire LWait ;;
      upd_proc np (set_parent (Some p)) ;;
      release LWait ;;
      acquire (LProc np) ;;
      upd_proc np (set_pstate RUNNABLE) ;;
      release (LProc np) ;;
      ret pid) (set_held [LProc np] c) s Q.
Proof.
  intros Hne Hh Hlen Hnone Href Hcwd HQ. unfold upd_proc at 1. wp_step. wp_step. wp_step. apply wp_zoom. unfold upd_mem at 1. wp_step. wp_step. unfold tf_set, get_proc at 1. wp_step. wp_step. apply wp_zoom. unfold upd_mem at 1. wp_step.
  cbn [lget lset mem_lens k_procs set_kmem set_procs k_mem]. rewrite updn_eq. cbn [p_trapframe set_psz]. wp_step.
  eapply (wp_dup_files p np _ _ (k_procs s p)); [done|cbn; set_solver|cbn; by rewrite updn_ne|done|cbn; by rewrite updn_eq|exact Href|]. intros F P HF HP Hoth. cbn [k_procs set_kmem set_procs k_files] in HF, HP, Hoth. rewrite updn_eq in HP.
  assert (P p = k_procs s p) as Hpp by (rewrite Hoth, updn_ne by done; done).
  unfold get_proc, upd_proc. wp_step. wp_step. wp_step. cbn [k_procs set_files set_procs]. rewrite Hpp, Hcwd. cbn [default from_option id]. apply wp_zoom. unfold idup, get_inode, upd_inode.
  wp_step. apply wp_acquire_on; [set_solver|]. do 5 wp_step. apply wp_release_on; [set_solver|]. do 10 wp_step.
  apply (wp_release_on (LProc np) []); [apply not_elem_of_nil|]. wp_step. apply wp_acquire_on; [apply not_elem_of_nil|]. do 3 wp_step. apply wp_release_on; [apply not_elem_of_nil|].
  wp_step. apply wp_acquire_on; [apply not_elem_of_nil|]. do 3 wp_step. apply wp_release_on; [apply not_elem_of_nil|]. wp_step.
  assert (set_held [] c = c) as -> by (destruct c; cbn in *; by subst). cbn [k_procs set_files set_procs set_fs lset fs_lens k_fs]. rewrite !updn_eq. cbn. rewrite HP. apply HQ.
  split; cbn [k_mem k_nextpid k_procs k_files k_fs set_kmem set_procs set_files set_fs set_mem].
  - by destruct s.
  - done.
  - done.
  - rewrite !updn_eq, HP. unfold child. by rewrite Hcwd.
  - intros i Hi. by rewrite !updn_ne, Hoth, updn_ne by done.
  - exact HF.
  - done.
Qed.

(** The process that calls [fork], with its address space, its open files and its directory. *)
Record running (s : kst) (l : list Z) (p k : nat) (N : gmap (list Z) Z) (us : list (Z * Z)) : Prop := {
  rn_used : p_state (k_procs s p) <> UNUSED;
  rn_space : aspace (k_mem s) l (p_pagetable (k_procs s p)) (p_trapframe (k_procs s p)) N us;
  rn_tf : page_ok (p_trapframe (k_procs s p)) /\ (p_trapframe (k_procs s p) ∉ l) /\ not_node N (p_trapframe (k_procs s p)) /\ (p_trapframe (k_procs s p) ∉ us.*1);
  rn_size : size_pages (p_sz (k_procs s p)) (length us);
  rn_len : length (p_ofile (k_procs s p)) = 16%nat;
  rn_files f : Some f ∈ p_ofile (k_procs s p) -> 1 <= f_ref (k_files s f);
  rn_cwd : p_cwd (k_procs s p) = Some k;
}.

(** The child in entry [np]: [N'] are the pages of its page table and [cs] its user pages. *)
Record forked (s : kst) (l : list Z) (p k : nat) (N : gmap (list Z) Z) (us : list (Z * Z)) (s' : kst) (np : nat) (l' : list Z) (N' : gmap (list Z) Z) (cs : list (Z * Z)) : Prop := {
  fk_rest : kmpf s s';
  fk_slot : (np < NPROCS)%nat /\ p_state (k_procs s np) = UNUSED;
  fk_other i : i <> np -> k_procs s' i = k_procs s i;
  fk_state : p_state (k_procs s' np) = RUNNABLE /\ p_parent (k_procs s' np) = Some p /\ p_pid (k_procs s' np) = k_nextpid s /\ k_nextpid s' = s32 (k_nextpid s + 1);
  fk_same : p_sz (k_procs s' np) = p_sz (k_procs s p) /\ p_ofile (k_procs s' np) = p_ofile (k_procs s p) /\ p_cwd (k_procs s' np) = p_cwd (k_procs s p) /\
    p_trace_mask (k_procs s' np) = p_trace_mask (k_procs s p) /\ p_name (k_procs s' np) = safestrcpy_l (p_name (k_procs s np)) (p_name (k_procs s p)) 15;
  fk_start : p_context (k_procs s' np) = (forkret_addr, p_kstack (k_procs s np) + PGSIZE);
  fk_frame : frame_out l (kmem_mem (k_mem s)) (kmem_mem (k_mem s'));
  fk_pages : l ≡ₚ p_trapframe (k_procs s' np) :: l' ++ node_pages N' ++ cs.*1;
  fk_parent : aspace (k_mem s') l' (p_pagetable (k_procs s p)) (p_trapframe (k_procs s p)) N us;
  fk_child : aspace (k_mem s') l' (p_pagetable (k_procs s' np)) (p_trapframe (k_procs s' np)) N' cs;
  fk_copy : length cs = length us /\ forall va, 0 <= va < Z.of_nat (length us) * PGSIZE ->
    ubyte (k_mem s') N' va = ubyte (k_mem s) N va /\ PTE_FLAGS (uview (k_mem s') N' va) = PTE_FLAGS (uview (k_mem s) N va);
  fk_a0 : load64 (kmem_mem (k_mem s')) (p_trapframe (k_procs s' np) + TF_a0) = 0;
  fk_regs off : 0 <= off <= 280 -> off <= 104 \/ 120 <= off ->
    load64 (kmem_mem (k_mem s')) (p_trapframe (k_procs s' np) + off) = load64 (kmem_mem (k_mem s)) (p_trapframe (k_procs s p) + off);
  fk_refs f : k_files s' f = more_refs (p_ofile (k_procs s p)) (k_files s) f;
  fk_inode : k_fs s' = mkfs (fs_sb (k_fs s)) (upd_itable k (set_ref (i_ref (fs_itable (k_fs s) k) + 1)) (fs_itable (k_fs s))) (fs_log (k_fs s));
}.

Lemma child_mem_outside m tfx tfy : outside_page tfy m (child_mem m tfx tfy).
Proof. intros b Hb. unfold child_mem, TF_a0, TF_size, PGSIZE in *. rewrite load8_store64 by lia. rewrite load8_memmove by lia. by rewrite decide_False by lia. Qed.

(** The parent's pages are not on the free list. *)
Lemma running_apart s l p k N us pa : running s l p k N us -> pa ∈ l -> pa <> p_trapframe (k_procs s p) /\ (pa ∉ us.*1) /\ not_node N pa.
Proof. intros Hr Hin. split; [intros ->; by destruct (rn_tf _ _ _ _ _ _ Hr) as (_ & ? & _)|]. by eapply aspace_disj; [apply Hr|]. Qed.

Lemma running_space s l p k N us m' l' : running s l p k N us -> Forall page_ok l -> kmem_inv m' l' -> l' ⊆ l -> frame_out l (kmem_mem (k_mem s)) (kmem_mem m') ->
  aspace m' l' (p_pagetable (k_procs s p)) (p_trapframe (k_procs s p)) N us.
Proof.
  intros Hr Hok Hk Hl Hf. eapply (aspace_frame l); [apply Hr|exact Hk|exact Hf|exact Hok| |]; intros pa Hpa; [|apply Hl in Hpa]; by destruct (running_apart _ _ _ _ _ _ pa Hr Hpa) as (_ & ? & ?).
Qed.

(** The memory of the two processes when [fork] has copied the pages and the trap frame. *)
Lemma fork_memory s l p k N us s1 np l1 N1 m2 l2 N2 cs : running s l p k N us -> kmem_inv (k_mem s) l -> new_proc s l np s1 l1 N1 ->
  uv_grow (p_pagetable (k_procs s1 np)) [] (k_mem s1) l1 N1 m2 l2 N2 cs -> copies (kmem_mem (k_mem s1)) (kmem_mem m2) us cs ->
  let tfx := p_trapframe (k_procs s p) in let tfy := p_trapframe (k_procs s1 np) in
  let m3 := set_mem (child_mem (kmem_mem m2) tfx tfy) m2 in
  frame_out l (kmem_mem (k_mem s)) (kmem_mem m3) /\ l ≡ₚ tfy :: l2 ++ node_pages N2 ++ cs.*1 /\
  aspace m3 l2 (p_pagetable (k_procs s p)) tfx N us /\ aspace m3 l2 (p_pagetable (k_procs s1 np)) tfy N2 cs /\
  copies (kmem_mem (k_mem s)) (kmem_mem m3) us cs /\ load64 (kmem_mem m3) (tfy + TF_a0) = 0 /\
  (forall off, 0 <= off <= 280 -> off <= 104 \/ 120 <= off -> load64 (kmem_mem m3) (tfy + off) = load64 (kmem_mem (k_mem s)) (tfx + off)).
Proof.
  intros Hr (_ & Hnd & Hok) Hn Hg Hcp tfx tfy m3. pose proof (nw_list _ _ _ _ _ _ Hn) as Hl1. fold tfy in Hl1. pose proof (ug_perm _ _ _ _ _ _ _ _ _ Hg) as Hl2.
  assert (l ≡ₚ tfy :: l2 ++ node_pages N2 ++ cs.*1) as Hl by (by rewrite Hl1, Hl2). pose proof (nw_tf _ _ _ _ _ _ Hn) as Htfy. fold tfy in Htfy.
  assert (frame_out l (kmem_mem (k_mem s)) (kmem_mem m2)) as Hf2.
  { eapply frame_out_trans; [apply Hn|]. eapply frame_out_mono; [|apply Hg]. intros x Hx. rewrite Hl1. set_solver. }
  assert (outside_page tfy (kmem_mem m2) (kmem_mem m3)) as Ho by apply child_mem_outside.
  assert (frame_out l (kmem_mem (k_mem s)) (kmem_mem m3)) as Hf3.
  { eapply frame_out_trans; [exact Hf2|]. eapply frame_out_page; [|exact Ho]. rewrite Hl. set_solver. }
  pose proof Hnd as Hnd'. rewrite Hl in Hnd'. apply NoDup_cons in Hnd' as [Hty _].
  assert (kmem_inv m3 l2) as Hk3. { eapply kmem_inv_set_mem; [apply (ug_user _ _ _ _ _ _ _ _ _ Hg)|exact Htfy|set_solver|exact Ho]. }
  assert (l2 ⊆ l) as Hsub by (intros x Hx; rewrite Hl; set_solver).
  destruct (rn_tf _ _ _ _ _ _ Hr) as (Htx & Htxl & _ & _).
  split_and!; [exact Hf3|exact Hl|by eapply running_space| | | |].
  - assert (not_node N2 tfy) as Hnn by (intros q x Hq ->; apply Hty; rewrite !elem_of_app, elem_of_node_pages; eauto).
    eapply (aspace_frame [tfy] m2 l2); [|exact Hk3|eapply frame_out_page; [|exact Ho]; set_solver|by constructor|by intros pa ->%list_elem_of_singleton|].
    + destruct (nw_space _ _ _ _ _ _ Hn) as [_ S2 S3]. split; [exact (ug_user _ _ _ _ _ _ _ _ _ Hg)|rewrite (ug_high _ _ _ _ _ _ _ _ _ Hg) by done; exact S2|rewrite (ug_high _ _ _ _ _ _ _ _ _ Hg) by done; exact S3].
    + intros pa Hpa. split; [intros Hin; by destruct (up_elem _ _ _ _ _ _ (ug_user _ _ _ _ _ _ _ _ _ Hg) Hin) as (_ & ? & _)|].
      intros q x Hq ->. destruct (up_inv _ _ _ _ _ (ug_user _ _ _ _ _ _ _ _ _ Hg)) as (_ & _ & Hd). by eapply Hd.
  - apply Forall2_same_length_lookup in Hcp as [Hlen Hcp]. apply Forall2_same_length_lookup. split; [done|]. intros i u d Hi Hd. destruct (Hcp i u d Hi Hd) as [Hco Hp]. split; [|exact Hp].
    apply list_elem_of_lookup_2, (list_elem_of_fmap_2 fst) in Hi. apply list_elem_of_lookup_2, (list_elem_of_fmap_2 fst) in Hd.
    destruct (up_elem _ _ _ _ _ _ (as_user _ _ _ _ _ _ (rn_space _ _ _ _ _ _ Hr)) Hi) as (Hpu & Hpl & _). destruct (up_elem _ _ _ _ _ _ (ug_user _ _ _ _ _ _ _ _ _ Hg) Hd) as (Hpd & _ & _).
    intros j Hj. rewrite (frame_out_load [tfy] (kmem_mem m2) _ d.1); [|eapply frame_out_page; [|exact Ho]; set_solver|by constructor|done| |lia].
    + rewrite Hco by done. apply (frame_out_load l _ _ u.1); [apply Hn|done|done|done|lia].
    + intros E%list_elem_of_singleton. apply Hty. rewrite <- E. set_solver.
  - unfold m3, child_mem. cbn. by apply load64_store64.
  - intros off Hoff Hd. apply load64_shift. intros j Hj. unfold m3, child_mem. cbn [kmem_mem set_mem]. rewrite load8_store64 by (unfold TF_a0; lia). rewrite load8_memmove, decide_True by (unfold TF_size; lia).
    replace (tfx + (tfy + off + j - tfy)) with (tfx + off + j) by lia. apply (frame_out_load l _ _ tfx); [exact Hf2|done|done|done|unfold PGSIZE; lia].
Qed.

(** [fork] that returned -1: no process, no page and no reference more than before. *)
Definition not_forked (s : kst) (l : list Z) (p : nat) (N : gmap (list Z) Z) (us : list (Z * Z)) (s' : kst) : Prop :=
  no_proc s l s' /\ k_procs s' p = k_procs s p /\
  exists l', l' ≡ₚ l /\ aspace (k_mem s') l' (p_pagetable (k_procs s p)) (p_trapframe (k_procs s p)) N us.

Lemma no_proc_not_forked s l p k N us s' : running s l p k N us -> kmem_inv (k_mem s) l -> no_proc s l s' -> not_forked s l p N us s'.
Proof.
  intros Hr (_ & _ & Hok) Hn. split; [done|]. split.
  - destruct (np_procs _ _ _ Hn p) as [E|(_ & Hu & _)]; [done|]. by destruct (rn_used _ _ _ _ _ _ Hr).
  - destruct (np_list _ _ _ Hn) as (l' & Hk & Hl). exists l'. split; [done|]. eapply running_space; [done|done|done|intros x Hx; by rewrite <- Hl|apply Hn].
Qed.

(** [freeproc] of a child whose memory could not be copied. *)
Lemma wp_fork_fail c s l p k N us s1 np l1 N1 m2 l2 N2 (Q : cpu -> kst -> Z -> Prop) : held c = [] -> running s l p k N us -> kmem_inv (k_mem s) l -> unused_clean s -> new_proc s l np s1 l1 N1 ->
  uv_grow (p_pagetable (k_procs s1 np)) [] (k_mem s1) l1 N1 m2 l2 N2 [] ->
  (forall s', not_forked s l p N us s' -> Q c s' (-1)) ->
  wp (freeproc np ;; release (LProc np) ;; ret (-1)) (set_held [LProc np] c) (set_kmem m2 s1) Q.
Proof.
  intros Hh Hr Hk Hcl Hn Hg HQ. pose proof Hk as (_ & Hnd & Hok). destruct (nw_slot _ _ _ _ _ _ Hn) as [Hlt Hun]. destruct (Hcl np Hlt Hun) as (_ & _ & Hsz0 & _). destruct (nw_own _ _ _ _ _ _ Hn) as (tf0 & root0 & Hown).
  pose proof (nw_list _ _ _ _ _ _ Hn) as Hl1. pose proof (ug_perm _ _ _ _ _ _ _ _ _ Hg) as Hl2. cbn in Hl2. rewrite app_nil_r in Hl2. set (tfy := p_trapframe (k_procs s1 np)) in *.
  assert (l ≡ₚ tfy :: node_pages N2 ++ [] ++ l2) as Hl by (rewrite Hl1, Hl2; cbn; by rewrite (Permutation_app_comm l2)). rewrite Hl in Hnd. apply NoDup_cons in Hnd as [Hty _].
  pose proof (ug_user _ _ _ _ _ _ _ _ _ Hg) as Hu2. wp_step. eapply (wp_freeproc _ _ np l2 (tfy :: node_pages N2 ++ [])); [cbn; set_solver|apply Hu2| |].
  - cbn [k_procs set_kmem k_mem]. apply (holds_all m2 l2 tfy _ _ N2 []).
    + apply Hn.
    + set_solver.
    + intros q x Hq ->. apply Hty. rewrite elem_of_app, elem_of_node_pages. eauto.
    + apply not_elem_of_nil.
    + apply Hn.
    + destruct (nw_space _ _ _ _ _ _ Hn) as [_ S2 S3]. split; [exact Hu2|rewrite (ug_high _ _ _ _ _ _ _ _ _ Hg) by done; exact S2|rewrite (ug_high _ _ _ _ _ _ _ _ _ Hg) by done; exact S3].
    + rewrite Hown. cbn. rewrite Hsz0. split; [rewrite TRAPFRAME_val; lia|done].
  - intros s2 [F1 F2 F3 F4 F5 (l3 & F6 & F7)]. wp_step. apply (wp_release_on (LProc np) []); [apply not_elem_of_nil|]. wp_step. assert (set_held [] c = c) as -> by (destruct c; cbn in *; by subst).
    apply HQ. eapply no_proc_not_forked; [exact Hr|done|]. split.
    + eapply kmp_trans; [apply Hn|]. eapply kmp_trans; [apply kmp_mem|exact F1].
    + intros i. destruct (decide (i = np)) as [->|Hne]; [right; rewrite F3; done|left]. rewrite F4 by done. cbn. by apply Hn.
    + eapply frame_out_trans; [apply Hn|]. eapply frame_out_trans; [eapply frame_out_mono; [|apply Hg]; intros x Hx; rewrite Hl1; set_solver|]. eapply frame_out_mono; [|exact F5]. intros x Hx. rewrite Hl. set_solver.
    + exists l3. split; [done|]. rewrite F7, Hl. cbn. by rewrite app_nil_r.
Qed.

Lemma wp_fork c s l k N us (Q : cpu -> kst -> Z -> Prop) : let p := me c in held c = [] -> running s l p k N us -> kmem_inv (k_mem s) l -> unused_clean s ->
  (forall s', not_forked s l p N us s' -> Q c s' (-1)) -> (forall s' np l' N' cs, forked s l p k N us s' np l' N' cs -> Q c s' (k_nextpid s)) ->
  wp fork c s Q.
Proof.
  intros p Hh Hr Hk Hcl HN HF. unfold fork, myproc. wp_step. wp_step. fold p. wp_step.
  eapply wp_allocproc; [rewrite Hh; intros; apply not_elem_of_nil|rewrite Hh; apply not_elem_of_nil|rewrite Hh; apply not_elem_of_nil|exact Hk|exact Hcl| |].
  { intros s1 Hn. wp_step. apply HN. by eapply no_proc_not_forked. }
  intros np s1 l1 N1 Hn. rewrite Hh. destruct (nw_slot _ _ _ _ _ _ Hn) as [Hlt Hun]. assert (p <> np) as Hne by (intros <-; by destruct (rn_used _ _ _ _ _ _ Hr)).
  pose proof (nw_other _ _ _ _ _ _ Hn p Hne) as Hpx. pose proof (nw_list _ _ _ _ _ _ Hn) as Hl1. pose proof Hk as (_ & _ & Hok).
  assert (aspace (k_mem s1) l1 (p_pagetable (k_procs s p)) (p_trapframe (k_procs s p)) N us) as Hsp1.
  { eapply running_space; [exact Hr|exact Hok|apply (as_user _ _ _ _ _ _ (nw_space _ _ _ _ _ _ Hn))|intros x Hx; rewrite Hl1; set_solver|apply Hn]. }
  unfold get_proc at 1 2. do 4 wp_step. rewrite Hpx. wp_step. apply wp_zoom.
  eapply (wp_uvmcopy (p_pagetable (k_procs s p)) (p_pagetable (k_procs s1 np)) (k_mem s1) l1 N N1 us); [apply Hsp1|apply Hn| |cbn; set_solver|apply Hr|].
  { intros pa Hpa. assert (pa ∈ l) as Hin by (rewrite Hl1; set_solver). by destruct (running_apart _ _ _ _ _ _ pa Hr Hin) as (_ & ? & ?). }
  intros m2 r (l2 & N2 & cs & Hg & Hu2 & [[-> Hcp]|[-> ->]]); cbn [Z.ltb Z.compare lset mem_lens].
  2: { eapply wp_fork_fail; [exact Hh|exact Hr|exact Hk|exact Hcl|exact Hn|exact Hg|exact HN]. }
  destruct (nw_own _ _ _ _ _ _ Hn) as (tf0 & root0 & Hown). destruct (Hcl np Hlt Hun) as (_ & _ & _ & Hof). set (s2 := set_kmem m2 s1).
  assert (k_procs s2 p = k_procs s p) as E2 by exact Hpx. rewrite <- E2.
  change (p_trapframe (k_procs s1 np)) with (p_trapframe (k_procs s2 np)).
  assert (k_files s2 = k_files s /\ k_fs s2 = k_fs s) as [Ef Efs] by (unfold s2; rewrite (nw_kmp _ _ _ _ _ _ Hn); done).
  apply (wp_fork_finish p np k c s2); [done|exact Hh|rewrite E2; apply Hr| |rewrite E2, Ef; apply Hr|rewrite E2; apply Hr|].
  { change (k_procs s2 np) with (k_procs s1 np). rewrite Hown. exact Hof. }
  intros s' Hfin. pose proof (fork_memory _ _ _ _ _ _ _ _ _ _ _ _ _ _ Hr Hk Hn Hg Hcp) as (M1 & M2 & M3 & M4 & M5 & M6 & M7). destruct Hfin as [R1 R2 R3 R4 R5 R6 R7]. rewrite E2 in R3, R4, R6. rewrite Ef in R6. rewrite Efs in R7.
  change (k_procs s2) with (k_procs s1) in R3, R4, R5. change (k_mem s2) with m2 in R3. rewrite <- R3 in M1, M3, M4, M5, M6, M7.
  assert (p_trapframe (k_procs s' np) = p_trapframe (k_procs s1 np) /\ p_pagetable (k_procs s' np) = p_pagetable (k_procs s1 np)) as [Et Ep] by (rewrite R4; done).
  assert (p_pid (k_procs s1 np) = k_nextpid s) as Epid by (rewrite Hown; done). change (p_pid (k_procs s2 np)) with (p_pid (k_procs s1 np)). rewrite Epid.
  apply (HF s' np l2 N2 cs). split; rewrite ?Et, ?Ep; try done.
  - unfold kmpf in *. rewrite R1. unfold s2. rewrite (nw_kmp _ _ _ _ _ _ Hn). by destruct s.
  - intros i Hi. rewrite R5 by done. by apply Hn.
  - split_and!; [by rewrite R4|by rewrite R4|rewrite R4; exact Epid|rewrite R2; apply Hn].
  - split_and!; rewrite R4; try done. rewrite Hown. done.
  - rewrite R4, Hown. done.
  - split; [symmetry; by eapply Forall2_length|]. intros va Hva. eapply (copies_bytes (k_mem s) (k_mem s') l l2); [apply Hr|apply M4|exact M5|exact Hva].
Qed.
End life.

(** C27: [fork], called by a process with an address space, open files and a directory, returns
    in every case. If it returns a pid, that is the next one, and a process that was not in use
    is now a runnable child of the caller: its memory has the caller's bytes and permissions at
    every address, in pages that were free; its trap frame is the caller's but for [a0], which
    is 0; it has the caller's size, descriptors, directory and trace mask, and every file and
    inode it now refers to is counted once more. If it returns -1, no process was created and
    the free list has the pages it had. The caller, its memory and all other processes are as
    before. *)
Theorem fork_correct `{Layout} c s l k N us : held c = [] -> running s l (me c) k N us -> kmem_inv (k_mem s) l -> unused_clean s ->
  exists s' r, fork c s = Ret c s' r /\
    (r = -1 /\ not_forked s l (me c) N us s' \/
     r = k_nextpid s /\ exists np l' N' cs, forked s l (me c) k N us s' np l' N' cs).
Proof.
  intros Hh Hr Hk Hcl. apply wp_run. eapply wp_fork; [done|exact Hr|exact Hk|exact Hcl| |].
  - intros s' Hn. split; [done|]. by left.
  - intros s' np l' N' cs Hf. split; [done|]. right. eauto 10.
Qed.

(** * An example *)

(** A process of one page: its trap frame and its page table, then the page. *)
Definition demo_make : M kmem (Z * Z) :=
  tf <- kalloc ;;
  root <- (pagetable <- uvmcreate ;;
    if pagetable =? 0 then ret 0 else
    r <- mappages pagetable TRAMPOLINE PGSIZE trampoline (Z.lor PTE_R PTE_X) ;;
    if r <? 0 then uvmfree pagetable 0 ;; ret 0 else
    r <- mappages pagetable TRAPFRAME PGSIZE tf (Z.lor PTE_R PTE_W) ;;
    if r <? 0 then uvmunmap pagetable TRAMPOLINE 1 false ;; uvmfree pagetable 0 ;; ret 0 else ret pagetable) ;;
  ret (tf, root).
Definition demo_tf : Z := 0x87ff0000.
Definition demo_pt : Z := 0x87ff1000.
Definition demo_user : M kmem Z := demo_make ;; uvmalloc demo_pt 0 4096 PTE_W.

Lemma demo_make_run m l tf root : kmem_inv m l -> l <> [] -> result_of (demo_make cpu0 m) = Some (tf, root) -> root <> 0 ->
  exists m' l' N, demo_make cpu0 m = Ret cpu0 m' (tf, root) /\ frame_out l (kmem_mem m) (kmem_mem m') /\ aspace m' l' root tf N [] /\
  page_ok tf /\ page_ok root /\ l ≡ₚ tf :: l' ++ node_pages N.
Proof.
  intros Hk Hl0 Hv Hr0. destruct (wp_run demo_make cpu0 m (fun m' x => x.2 <> 0 -> frame_out l (kmem_mem m) (kmem_mem m') /\ exists l' N, aspace m' l' x.2 x.1 N [] /\ page_ok x.1 /\ page_ok x.2 /\ l ≡ₚ x.1 :: l' ++ node_pages N)) as (m' & x & Hr & HP).
  2: { rewrite Hr in Hv. injection Hv as ->. destruct (HP Hr0) as (Hf & l' & N & HH). exists m', l', N. exact (conj Hr (conj Hf HH)). }
  clear Hv. unfold demo_make. wp_step. eapply wp_kalloc; [apply cpu0_unlocked|exact Hk|]. intros m1 tf' Hp. pose proof Hk as (_ & Hnd & Hok). destruct l as [|pg l0]; [done|]. destruct Hp as (-> & Hk1 & Ho & _).
  apply Forall_cons in Hok as [Htf _]. wp_step. eapply wp_pagetable; [apply cpu0_unlocked|exact Hk1|exact Htf|]. intros m2 r [Hf2 Hres]. wp_step. split; [done|]. cbn [fst snd]. intros Hr.
  destruct Hres as [[E _]|(l' & N & Hrt & Has & Hl)]; [done|]. split; [eapply frame_out_trans; [by eapply frame_out_page; [|exact Ho]; apply list_elem_of_here|eapply frame_out_mono; [|exact Hf2]; set_solver]|].
  exists l', N. by rewrite <- Hl.
Qed.

Lemma not_in_parts l l' tf N : NoDup l -> l ≡ₚ tf :: l' ++ node_pages N -> (tf ∉ l') /\ not_node N tf.
Proof.
  intros Hnd Hl. rewrite Hl in Hnd. apply NoDup_cons in Hnd as [[Hn1 Hn2]%not_elem_of_app _]. split; [done|]. intros q x Hq ->. apply Hn2, elem_of_node_pages. eauto.
Qed.

Lemma demo_process : exists m l N us, demo_user cpu0 demo_kmem = Ret cpu0 m 4096 /\ aspace m l demo_pt demo_tf N us /\
  page_ok demo_tf /\ (demo_tf ∉ l) /\ not_node N demo_tf /\ (demo_tf ∉ us.*1) /\ size_pages 4096 (length us).
Proof.
  assert (result_of (demo_make cpu0 demo_kmem) = Some (demo_tf, demo_pt)) as Hv by (vm_compute; reflexivity).
  destruct (demo_make_run demo_kmem demo_pages demo_tf demo_pt demo_kmem_inv ltac:(discriminate) Hv ltac:(discriminate)) as (m1 & l1 & N1 & Hr1 & _ & [Hu1 Ht1 Hf1] & Htf & _ & Hl1). clear Hv.
  destruct (not_in_parts _ _ _ _ (proj1 (proj2 demo_kmem_inv)) Hl1) as [Hnl Hnn]. clear Hl1.
  destruct (wp_run (uvmalloc demo_pt 0 4096 PTE_W) cpu0 m1 (uvmalloc_post demo_pt [] m1 l1 N1 4096 (Z.lor (Z.lor PTE_R PTE_U) PTE_W))) as (m2 & r & Hr2 & (l2 & N2 & ps & Hg & _ & Hres)).
  { apply (wp_uvmalloc demo_pt m1 l1 N1 [] 0 4096 PTE_W cpu0).
    - apply cpu0_unlocked.
    - exact Hu1.
    - change PTE_W with 4. lia.
    - split; [rewrite TRAPFRAME_val; lia|reflexivity].
    - lia.
    - intros m2 r Hp. split; [reflexivity|exact Hp]. }
  assert (demo_user cpu0 demo_kmem = Ret cpu0 m2 r) as Hd by (unfold demo_user, bind; rewrite Hr1; exact Hr2).
  assert (result_of (demo_user cpu0 demo_kmem) = Some 4096) as Hc by (vm_compute; reflexivity). rewrite Hd in Hc. injection Hc as ->.
  pose proof (ug_perm _ _ _ _ _ _ _ _ _ Hg) as Hperm. assert (demo_tf ∉ l2 ++ node_pages N2 ++ (with_perm (Z.lor (Z.lor PTE_R PTE_U) PTE_W) ps).*1) as Hno.
  { rewrite <- Hperm, elem_of_app, elem_of_node_pages. intros [Hin|[q Hq]]; [exact (Hnl Hin)|exact (Hnn _ _ Hq eq_refl)]. }
  clear Hr1 Hr2. exists m2, l2, N2, (with_perm (Z.lor (Z.lor PTE_R PTE_U) PTE_W) ps). split; [exact Hd|]. clear Hd. apply not_elem_of_app in Hno as [Hno1 [Hno2 Hno3]%not_elem_of_app]. refine (conj _ (conj Htf (conj Hno1 (conj _ (conj Hno3 _))))).
  - split; [exact (ug_user _ _ _ _ _ _ _ _ _ Hg)|rewrite (ug_high _ _ _ _ _ _ _ _ _ Hg) by (split; [discriminate|reflexivity]); exact Ht1|rewrite (ug_high _ _ _ _ _ _ _ _ _ Hg) by (split; [discriminate|reflexivity]); exact Hf1].
  - intros q x Hq ->. apply Hno2, elem_of_node_pages. by exists q.
  - destruct Hres as [[_ Hres]|[E _]]; [|discriminate E]. split; [rewrite TRAPFRAME_val; lia|]. rewrite Hres. unfold with_perm. rewrite length_fmap. reflexivity.
Qed.

(** Process 3 has that memory, file 5 open twice, inode 2 as its directory and traces system
    call 1; entry 4 is free. *)
Definition demo_table (i : nat) : proc :=
  match i with
  | 3%nat => set_trace_mask 2 (set_cwd (Some 2%nat) (set_ofile (Some 5%nat :: Some 5%nat :: replicate 14 None) (set_trapframe demo_tf (set_pagetable demo_pt (small_proc 7)))))
  | 4%nat => set_psz 0 (set_trapframe 0 (set_pstate UNUSED (small_proc 0)))
  | _ => small_proc (Z.of_nat i + 10)
  end.
Definition demo_kst (m : kmem) : kst := set_files (fun _ => mkfile FD_INODE 1 1 1 0 0%nat 0 0) (small_kst m demo_table).
Definition demo_cpu : cpu := mkcpu [] 7 0 [] 3 [].

Lemma fork_correct_witness : exists m s' r, fork demo_cpu (demo_kst m) = Ret demo_cpu s' r /\ (r = -1 /\ k_procs s' 3 = demo_table 3 \/
  r = 2 /\ p_state (k_procs s' 4) = RUNNABLE /\ p_parent (k_procs s' 4) = Some 3%nat /\ p_trace_mask (k_procs s' 4) = 2 /\ f_ref (k_files s' 5) = 3).
Proof.
  destruct demo_process as (m & l & N & us & Hd & Has & Htf & Htl & Htn & Htu & Hsz). exists m.
  destruct (fork_correct demo_cpu (demo_kst m) l 2 N us) as (s' & r & Hr & Hres); [reflexivity| |apply Has| |].
  - split; [discriminate|exact Has|split_and!; [exact Htf|exact Htl|exact Htn|exact Htu]|exact Hsz|reflexivity|cbn; lia|reflexivity].
  - clear. intros i Hi Hu. destruct (decide (i = 4%nat)) as [->|Hne]; [done|]. exfalso. do 4 (destruct i as [|i]; [done|]). destruct i as [|i]; done.
  - exists s', r. split; [exact Hr|]. clear Hr Hd. destruct Hres as [(-> & _ & Hp & _)|[-> (np & l' & N' & cs & Hf)]]; [left; split; [reflexivity|exact Hp]|right]. destruct (fk_slot _ _ _ _ _ _ _ _ _ _ _ Hf) as [_ Hu].
    assert (np = 4%nat) as -> by (clear - Hu; do 4 (destruct np as [|np]; [discriminate Hu|]); destruct np; [reflexivity|discriminate Hu]).
    destruct (fk_state _ _ _ _ _ _ _ _ _ _ _ Hf) as (S1 & S2 & _ & _). destruct (fk_same _ _ _ _ _ _ _ _ _ _ _ Hf) as (_ & _ & _ & S3 & _).
    split_and!; [reflexivity|exact S1|exact S2|exact S3|rewrite (fk_refs _ _ _ _ _ _ _ _ _ _ _ Hf); reflexivity].
Defined.
