(* ===== verification/ProcWait.v ===== *)
(** [wait] of kernel/proc.c: reaping a child, and what becomes of its pages. *)
From S2P Require Import Prelude Memory Riscv Kalloc Vm VmTree VmMap VmUser VmCopy VmFree VmProps UserMem Sleeplock Bio Log Fs State Process ProcSpace FsFile Uart Console Pipe File ProcLife ProcProps ProcFork.

#[local] Arguments loop : simpl never.

Lemma bind_run {St A B} (m : M St A) (f : A -> M St B) c s c1 s1 a : m c s = Ret c1 s1 a -> bind m f c s = f a c1 s1.
Proof. intros E. unfold bind. by rewrite E. Qed.
Lemma bind_sleep {St A B} (m : M St A) (f : A -> M St B) c s ch c1 s1 : (exists k, m c s = Sleep ch c1 s1 k) -> exists k, bind m f c s = Sleep ch c1 s1 k.
Proof. intros [k E]. unfold bind. rewrite E. cbn [obind]. eauto. Qed.

Section wait.
Context `{Layout}.

Lemma holds_pages m l tf pt sz P : holds m l tf pt sz P -> Forall page_ok P.
Proof.
  intros [sz'|tf' sz' Htf _|tf' root sz' N us Htf _ _ _ _ Has _]; [constructor|by constructor|]. constructor; [done|]. apply Forall_app. split; [eapply nodes_page_ok; apply (as_user _ _ _ _ _ _ Has)|eapply up_forall; apply Has].
Qed.

Lemma holds_disj m l tf pt sz P pa : holds m l tf pt sz P -> pa ∈ P -> pa ∉ l.
Proof.
  intros [sz'|tf' sz' _ Hn|tf' root sz' N us _ Hn _ _ _ Has _] Hin; [by apply not_elem_of_nil in Hin|by apply list_elem_of_singleton in Hin as ->|].
  intros Hl. destruct (aspace_disj _ _ _ _ _ _ _ Has Hl) as [Hu Hnn]. apply elem_of_cons in Hin as [->|[(q & Hq)%elem_of_node_pages|Hin]%elem_of_app]; [done|by eapply Hnn|done].
Qed.

(** Writes elsewhere do not matter to what a process holds. *)
Lemma holds_frame R m l tf pt sz P m' : holds m l tf pt sz P -> kmem_inv m' l -> frame_out R (kmem_mem m) (kmem_mem m') -> Forall page_ok R -> (forall pa, pa ∈ R -> pa ∉ P) -> holds m' l tf pt sz P.
Proof.
  intros [sz'|tf' sz' Htf Hn|tf' root sz' N us Htf Hn Hnn Hnu Hroot Has Hsz] Hk Hf HR Hd; [constructor|by constructor|]. constructor; try done.
  eapply (aspace_frame R); [exact Has|exact Hk|exact Hf|exact HR| |].
  - intros pa Hpa q x Hq ->. apply (Hd pa Hpa). apply elem_of_cons. right. apply elem_of_app. left. apply elem_of_node_pages. eauto.
  - intros pa Hpa. by eapply aspace_disj.
Qed.

Definition zombie_of (s : kst) (p i : nat) : Prop := p_parent (k_procs s i) = Some p /\ p_state (k_procs s i) = ZOMBIE.
#[export] Instance zombie_of_dec s p i : Decision (zombie_of s p i).
Proof. unfold zombie_of. apply _. Defined.

(** What a successful [wait] for [pp] leaves. *)
Record reaped (s : kst) (l : list Z) (p pp : nat) (addr : Z) (P : list Z) (N : gmap (list Z) Z) (us : list (Z * Z)) (s' : kst) : Prop := {
  re_kmp : kmp s s';
  re_pid : k_nextpid s' = k_nextpid s;
  re_child : k_procs s' pp = freed (k_procs s pp);
  re_other i : i <> pp -> k_procs s' i = k_procs s i;
  re_pages : exists l', l' ≡ₚ P ++ l /\ user_pages (k_mem s') l' (p_pagetable (k_procs s p)) N us;
  re_status : addr <> 0 -> ubytes (k_mem s') N addr 4 = int_bytes (p_xstate (k_procs s pp));
  re_memory a : 0 <= a -> addr = 0 \/ a < addr \/ addr + 4 <= a -> accessible false (uview (k_mem s) N) a = true -> ubyte (k_mem s') N a = ubyte (k_mem s) N a;
}.

(** What the search does with a zombie. *)
Definition reap (p pp : nat) (addr : Z) (s : kst) : M kst (nat * bool + (Z + bool)) :=
  let pid := p_pid (k_procs s pp) in
  y <- get_proc p ;;
  r <- (if negb (addr =? 0) then zoom mem_lens (copyout (p_pagetable y) addr (int_bytes (p_xstate (k_procs s pp))) 4) else ret 0) ;;
  if r <? 0 then release (LProc pp) ;; release LWait ;; ret (inr (inl (-1))) else
  freeproc pp ;; release (LProc pp) ;; release LWait ;; ret (inr (inl pid)).

(** The search: the first zombie, or whether there are children at all. *)
Lemma wp_wait_search p addr c s (Q : cpu -> kst -> Z + bool -> Prop) : (forall i, LProc i ∉ held c) ->
  ((forall i, (i < NPROCS)%nat -> ~ zombie_of s p i) -> Q c s (inr (existsb (fun i => bool_decide (p_parent (k_procs s i) = Some p)) (seq 0 NPROCS)))) ->
  (forall pp, (pp < NPROCS)%nat -> zombie_of s p pp -> (forall i, (i < pp)%nat -> ~ zombie_of s p i) ->
    wp (reap p pp addr s) (set_held (LProc pp :: held c) c) s (fun c' s' r => match r with inl _ => False | inr b => Q c' s' b end)) ->
  wp (wait_scan p addr) c s Q.
Proof.
  intros Hc Hno Hyes. unfold wait_scan.
  eapply (wp_loop (fun (st : nat * bool) c' s' => (st.1 <= NPROCS)%nat /\ c' = c /\ s' = s /\ (forall j, (j < st.1)%nat -> ~ zombie_of s p j) /\
    st.2 = existsb (fun i => bool_decide (p_parent (k_procs s i) = Some p)) (seq 0 st.1)) (fun st => (NPROCS - st.1)%nat)); [|cbn [fst]; lia|split_and!; [cbn [fst]; lia|done|done|intros j Hj; cbn in Hj; lia|done]].
  intros [i kids] c' s' (Hi & -> & -> & Hb & Hk). cbn [fst snd] in *. destruct (Nat.ltb_spec i NPROCS) as [Hlt|Hge].
  2: { assert (i = NPROCS) as -> by lia. wp_step. rewrite Hk. apply Hno. exact Hb. }
  assert (forall b, b = bool_decide (p_parent (k_procs s i) = Some p) -> (kids || b)%bool = existsb (fun i => bool_decide (p_parent (k_procs s i) = Some p)) (seq 0 (S i))) as Hkids.
  { intros b ->. rewrite seq_S, existsb_app. cbn [existsb]. by rewrite orb_false_r, Hk. }
  unfold get_proc at 1. wp_step. wp_step. destruct (decide (p_parent (k_procs s i) = Some p)) as [Hpar|Hpar].
  - wp_step. apply wp_acquire; [apply Hc|]. unfold get_proc at 1. wp_step. wp_step. destruct (decide (p_state (k_procs s i) = ZOMBIE)) as [Hz|Hz].
    + eapply wp_mono; [exact (Hyes i Hlt (conj Hpar Hz) Hb)|]. by intros c' s' [|].
    + wp_steps. rewrite set_held_back by apply Hc. split; [|cbn [fst]; lia]. cbn [fst snd]. split_and!; [lia|done|done| |].
      * intros j Hj. destruct (decide (j = i)) as [->|]; [intros [_ ?]; done|apply Hb; lia].
      * rewrite <- (Hkids true); [by rewrite orb_true_r|]. by rewrite bool_decide_true.
  - wp_step. split; [|cbn [fst]; lia]. cbn [fst snd]. split_and!; [lia|done|done| |].
    + intros j Hj. destruct (decide (j = i)) as [->|]; [intros [? _]; done|apply Hb; lia].
    + rewrite <- (Hkids false); [by rewrite orb_false_r|]. by rewrite bool_decide_false.
Qed.

(** Pages that are neither user pages nor pages of the table do not matter to user memory. *)
Lemma ubyte_frame P s l root N us s' a : user_pages s l root N us -> frame_out P (kmem_mem s) (kmem_mem s') -> Forall page_ok P ->
  (forall pa, pa ∈ P -> (pa ∉ us.*1) /\ not_node N pa) -> 0 <= a -> accessible false (uview s N) a = true -> ubyte s' N a = ubyte s N a.
Proof.
  intros Hu Hf HP Hd Ha Hacc. destruct (up_inv _ _ _ _ _ Hu) as (_ & Hr & _). pose proof (accessible_elem _ _ _ _ _ _ _ Hu Ha Hacc) as Hin.
  assert (same_nodes N (kmem_mem s) (kmem_mem s')) as Hs by (eapply frame_out_nodes; [exact Hf|done|exact Hr|]; intros q x Hq HinP; by eapply (proj2 (Hd x HinP))).
  unfold ubyte. replace (uaddr (uview s' N) a) with (uaddr (uview s N) a) by (unfold uaddr, uview; by rewrite (same_nodes_view N _ _ _ Hs)).
  apply Hf. intros q Hq. destruct (up_elem _ _ _ _ _ _ Hu Hin) as (Hok & _). rewrite Forall_forall in HP.
  destruct (pages_apart q (PTE2PA (uview s N a)) (HP q Hq) Hok) as [Hlt|Hlt]; [by intros ->; apply (Hd _ Hq)| |]; unfold uaddr, PGSIZE in *; dlia.
Qed.

Lemma int_bytes_range x : Forall (fun v => 0 <= v < 256) (int_bytes x).
Proof.
  pose proof (u32_range x). unfold int_bytes, put32. cbn [replicate insert list_insert Nat.add]. repeat constructor; dlia.
Qed.

(** The waiting process [p] and the zombie [pp]: their pages are different ones. *)
Record wait_pair (s : kst) (l : list Z) (p pp : nat) (P : list Z) (N : gmap (list Z) Z) (us : list (Z * Z)) : Prop := {
  wt_parent : user_pages (k_mem s) l (p_pagetable (k_procs s p)) N us;
  wt_child : holds (k_mem s) l (p_trapframe (k_procs s pp)) (p_pagetable (k_procs s pp)) (p_sz (k_procs s pp)) P;
  wt_apart pa : pa ∈ P -> (pa ∉ us.*1) /\ not_node N pa;
}.

Lemma wp_reap c s l p pp addr P N us (Q : cpu -> kst -> nat * bool + (Z + bool) -> Prop) :
  held c = [LProc pp; LWait] -> wait_pair s l p pp P N us -> addr = 0 \/ uok true (k_mem s) N addr 4 ->
  (forall s', reaped s l p pp addr P N us s' -> Q (set_held [] c) s' (inr (inl (p_pid (k_procs s pp))))) ->
  wp (reap p pp addr s) c s Q.
Proof.
  intros Hh [Hu Hch Hap] Hok HQ. unfold reap, get_proc. wp_step. wp_step. wp_step.
  assert (forall m1 d, uwrote (k_mem s) l (p_pagetable (k_procs s p)) N us addr d m1 -> (addr <> 0 -> d = int_bytes (p_xstate (k_procs s pp))) -> (addr = 0 -> d = []) ->
    wp (freeproc pp ;; release (LProc pp) ;; release LWait ;; ret (inr (inl (p_pid (k_procs s pp))))) c (set_kmem m1 s) Q) as Hgo.
  { intros m1 d Hw Hd1 Hd0. pose proof (uw_pages _ _ _ _ _ _ _ _ Hw) as Hu1. pose proof (holds_pages _ _ _ _ _ _ Hch) as HP. destruct (up_inv _ _ _ _ _ Hu1) as (Hk1 & _).
    wp_step. eapply (wp_freeproc _ _ pp l P); [rewrite Hh; set_solver|exact Hk1| |].
    { cbn. eapply (holds_frame us.*1); [exact Hch|exact Hk1|apply Hw|by eapply up_forall|]. intros pa Hpa HinP. by apply (Hap pa HinP). }
    intros s' [F1 F2 F3 F4 F5 (l' & F6 & F7)]. cbn in F3, F4, F5. replace c with (set_held [LProc pp; LWait] c) by (rewrite <- Hh; by destruct c).
    wp_step. apply (wp_release_on (LProc pp) [LWait]); [set_solver|]. wp_step. apply (wp_release_on LWait []); [set_solver|]. wp_step. apply HQ.
    assert (forall a, 0 <= a -> accessible false (uview (k_mem s) N) a = true -> ubyte (k_mem s') N a = ubyte m1 N a) as Hby.
    { intros a Ha Hacc. eapply ubyte_frame; [exact Hu1|exact F5|exact HP|exact Hap|exact Ha|]. unfold accessible in *. by rewrite (uw_view _ _ _ _ _ _ _ _ Hw). }
    split; [eapply kmp_trans; [apply kmp_mem|exact F1]|exact F2|exact F3|exact F4| | |].
    - exists l'. split; [done|]. eapply (user_pages_frame P); [exact Hu1|exact F6|exact F5|exact HP|intros pa Hpa; by apply Hap|].
      intros pa Hpa. rewrite F7 in Hpa. apply elem_of_app in Hpa as [Hpa|Hpa]; [by apply Hap|]. split; [intros Hin; by destruct (up_elem _ _ _ _ _ _ Hu Hin) as (_ & ? & _)|].
      intros q x Hq ->. destruct (up_inv _ _ _ _ _ Hu) as (_ & _ & Hdd). by eapply Hdd.
    - intros Hne. destruct Hok as [|(O1 & O2 & O3)]; [done|]. rewrite <- (Hd1 Hne). rewrite <- (uwrote_bytes _ _ _ _ _ _ _ _ Hw).
      + rewrite (Hd1 Hne). unfold ubytes. apply list_fmap_ext. intros i j [-> Hi]%lookup_seq. apply Hby; [lia|]. apply accessible_weaken, O3. done.
      + rewrite (Hd1 Hne). apply int_bytes_range.
    - intros a Ha Hout Hacc. rewrite Hby by done. apply (uw_other _ _ _ _ _ _ _ _ Hw); [done| |done]. destruct (decide (addr = 0)) as [E|Hne]; [|rewrite (Hd1 Hne); destruct Hout as [|Hout]; [done|exact Hout]].
      rewrite (Hd0 E). cbn. lia. }
  destruct (Z.eqb_spec addr 0) as [->|Hne]; cbn [negb].
  - wp_step. change (0 <? 0) with false. cbn match. pose proof (Hgo (k_mem s) [] (uwrote_nil _ _ _ _ _ _ Hu)) as Hg. assert (set_kmem (k_mem s) s = s) as E by (by destruct s). rewrite E in Hg. by apply Hg.
  - destruct Hok as [|Hok]; [done|]. apply wp_zoom. change 4 with (Z.of_nat (length (int_bytes (p_xstate (k_procs s pp))))). apply (wp_copyout_ok _ l N us); [exact Hu|exact Hok|].
    intros m1 Hw. change (0 <? 0) with false. cbn match. by apply (Hgo m1 _ Hw).
Qed.

Lemma wp_wait_body addr c s (Q : cpu -> kst -> Z -> Prop) : held c = [] ->
  wp (wait_scan (me c) addr) (set_held [LWait] c) s (fun c1 s1 r => match r with inl pid => Q c1 s1 pid | inr kids =>
    c1 = set_held [LWait] c /\ (kids = false \/ p_killed (k_procs s1 (me c)) <> 0) /\ Q (set_held [] c) s1 (-1) end) ->
  wp (wait addr) c s Q.
Proof.
  intros Hh Hw. unfold wait, myproc, sleep_loop. wp_step. wp_step. wp_step. apply wp_acquire; [rewrite Hh; apply not_elem_of_nil|]. rewrite Hh. wp_step. wp_step.
  eapply (wp_loop (fun _ c' s' => c' = set_held [LWait] c /\ s' = s) (fun _ => 0%nat)); [|lia|done].
  intros [] c' s' [-> ->]. wp_step. eapply wp_mono; [exact Hw|]. intros c1 s1 [pid|kids]; [intros HQ; by wp_step|]. intros (-> & Hk & HQ). wp_step.
  assert (forall k, k <> 0 -> wp (if negb (k =? 0) then release LWait ;; ret (inr (-1)) else ksleep (ChProc (me c)) LWait ;; ret (inl tt)) (set_held [LWait] c) s1
    (fun c' s' r => match r with inl a' => (c' = set_held [LWait] c /\ s' = s) /\ (0 < 0)%nat | inr b => Q c' s' b end)) as Hgo.
  { intros k Hk0. rewrite (proj2 (Z.eqb_neq _ _)) by done. cbn [negb]. wp_step. apply (wp_release_on LWait []); [apply not_elem_of_nil|]. wp_step. exact HQ. }
  destruct kids; [|wp_step; by apply Hgo]. destruct Hk as [|Hk]; [done|]. unfold wp at 1. rewrite killed_run by (cbn; set_solver). by apply Hgo.
Qed.

Lemma wp_wait_reaps addr c s l pp P N us (Q : cpu -> kst -> Z -> Prop) : let p := me c in held c = [] -> (pp < NPROCS)%nat -> zombie_of s p pp -> (forall i, (i < pp)%nat -> ~ zombie_of s p i) ->
  wait_pair s l p pp P N us -> addr = 0 \/ uok true (k_mem s) N addr 4 ->
  (forall s', reaped s l p pp addr P N us s' -> Q c s' (p_pid (k_procs s pp))) -> wp (wait addr) c s Q.
Proof.
  intros p Hh Hlt Hz Hb Hp Hok HQ. apply wp_wait_body; [done|]. assert (set_held [] c = c) as Hc by (destruct c; cbn in *; by subst).
  apply wp_wait_search; [cbn; set_solver|intros Hno; by destruct (Hno pp Hlt)|]. intros i Hi Hzi Hbi. assert (i = pp) as ->.
  { destruct (Nat.lt_trichotomy i pp) as [Hl|[E|Hl]]; [by destruct (Hb i Hl)|done|by destruct (Hbi pp Hl)]. }
  eapply wp_reap; [done|exact Hp|exact Hok|]. intros s' Hr. cbn. replace (set_held [] (set_held _ _)) with c by (by rewrite <- Hc at 1; destruct c). by apply HQ.
Qed.

Lemma wait_scan_none addr c s p : (forall i, LProc i ∉ held c) -> (forall i, (i < NPROCS)%nat -> ~ zombie_of s p i) ->
  wait_scan p addr c s = Ret c s (inr (existsb (fun i => bool_decide (p_parent (k_procs s i) = Some p)) (seq 0 NPROCS))).
Proof.
  intros Hc Hno. destruct (wp_elim (wait_scan p addr) c s (fun c' s' r => c' = c /\ s' = s /\ r = inr (existsb (fun i => bool_decide (p_parent (k_procs s i) = Some p)) (seq 0 NPROCS)))) as (c' & s' & r & Hr & -> & -> & ->); [|done].
  apply wp_wait_search; [done|done|]. intros pp Hlt Hz. by destruct (Hno pp Hlt).
Qed.

Lemma wait_sleeps addr c s w j : let p := me c in held c = [] -> wakeups c = S w -> (forall i, (i < NPROCS)%nat -> ~ zombie_of s p i) ->
  (j < NPROCS)%nat -> p_parent (k_procs s j) = Some p -> p_killed (k_procs s p) = 0 ->
  exists s1 k, wait addr c s = Sleep (ChProc p) (set_held [LProc p] c) s1 k /\ k_procs s1 p = asleep (ChProc p) (k_procs s p) /\
    (forall i, i <> p -> k_procs s1 i = k_procs s i) /\ set_procs (k_procs s) s1 = s.
Proof.
  intros p Hh Hw Hno Hj Hpar Hkil. set (c1 := set_held [LWait] c).
  assert (wait_scan p addr c1 s = Ret c1 s (inr true)) as Hscan.
  { rewrite wait_scan_none; [|cbn; set_solver|done]. do 2 f_equal. apply existsb_exists. exists j. split; [apply in_seq; lia|]. by rewrite bool_decide_true. }
  assert (killed p c1 s = Ret c1 s 0) as Hkr by (rewrite killed_run; [by rewrite Hkil|cbn; set_solver]).
  destruct (ksleep_run (ChProc p) LWait c1 s w) as (s1 & k & Hs & H1 & H2 & H3 & _); [done|done|done|].
  assert (acquire LWait c s = Ret c1 s tt) as Ha. { unfold acquire. rewrite Hh. done. }
  enough (exists k', wait addr c s = Sleep (ChProc p) (set_held [LProc p] c) s1 k') as (k' & Hk') by (by exists s1, k').
  unfold wait. rewrite (bind_run _ _ _ _ _ _ _ eq_refl : bind myproc _ c s = _). rewrite (bind_run _ _ _ _ _ _ _ Ha). unfold sleep_loop. rewrite (bind_run _ _ _ _ _ _ _ eq_refl : bind (getcpu wakeups) _ _ s = _).
  rewrite loop_S. apply bind_sleep. fold p. rewrite (bind_run _ _ _ _ _ _ _ Hscan), (bind_run _ _ _ _ _ _ _ Hkr). cbn [Z.eqb negb]. apply bind_sleep. eauto.
Qed.

Lemma wait_fails addr c s : let p := me c in held c = [] -> (forall i, (i < NPROCS)%nat -> ~ zombie_of s p i) ->
  (forall i, (i < NPROCS)%nat -> p_parent (k_procs s i) <> Some p) \/ p_killed (k_procs s p) <> 0 -> wait addr c s = Ret c s (-1).
Proof.
  intros p Hh Hno Hk. destruct (wp_elim (wait addr) c s (fun c' s' r => c' = c /\ s' = s /\ r = -1)) as (c' & s' & r & Hr & -> & -> & ->); [|done].
  apply wp_wait_body; [done|]. apply wp_wait_search; [cbn; set_solver| |intros pp Hlt Hz; by destruct (Hno pp Hlt)]. intros _. split_and!; [done| |by destruct c; cbn in *; subst|done|done].
  destruct Hk as [Hk|Hk]; [left|by right]. apply not_true_is_false. intros (i & Hi%in_seq & Hp%bool_decide_eq_true)%existsb_exists. apply (Hk i); [lia|done].
Qed.
End wait.

(** C28: [wait(addr)]. If the caller has a zombie child, the first one in the process table is
    reaped: its entry becomes unused, its trap frame, its page table and its memory go back to the free
    list, its pid is returned and, unless [addr] is 0, its exit status is the four bytes at
    [addr]; no other process and no other byte of the caller's memory changes. If the caller has no
    zombie child, and no children at all or has been killed, [wait] returns -1 having changed nothing. Otherwise
    it sleeps on its own process, holding only its own lock. *)
Theorem wait_correct `{Layout} addr c s : held c = [] ->
  (forall l pp P N us, (pp < NPROCS)%nat -> zombie_of s (me c) pp -> (forall i, (i < pp)%nat -> ~ zombie_of s (me c) i) ->
     wait_pair s l (me c) pp P N us -> addr = 0 \/ uok true (k_mem s) N addr 4 ->
     exists s', wait addr c s = Ret c s' (p_pid (k_procs s pp)) /\ reaped s l (me c) pp addr P N us s') /\
  ((forall i, (i < NPROCS)%nat -> ~ zombie_of s (me c) i) ->
     ((forall i, (i < NPROCS)%nat -> p_parent (k_procs s i) <> Some (me c)) \/ p_killed (k_procs s (me c)) <> 0 -> wait addr c s = Ret c s (-1)) /\
     (forall j w, (j < NPROCS)%nat -> p_parent (k_procs s j) = Some (me c) -> p_killed (k_procs s (me c)) = 0 -> wakeups c = S w ->
        exists s1 k, wait addr c s = Sleep (ChProc (me c)) (set_held [LProc (me c)] c) s1 k /\ k_procs s1 (me c) = asleep (ChProc (me c)) (k_procs s (me c)) /\
          (forall i, i <> me c -> k_procs s1 i = k_procs s i) /\ set_procs (k_procs s) s1 = s)).
Proof.
  intros Hh. split; [|intros Hno; split].
  - intros l pp P N us Hlt Hz Hb Hp Hok. destruct (wp_run (wait addr) c s (fun s' r => r = p_pid (k_procs s pp) /\ reaped s l (me c) pp addr P N us s')) as (s' & r & Hr & -> & Hre); [|eauto].
    eapply wp_wait_reaps; [done|exact Hlt|done|done|exact Hp|exact Hok|]. done.
  - by apply wait_fails.
  - intros j w Hj Hp Hk Hw. by eapply wait_sleeps.
Qed.

(** * An example *)

(** Process 3 has two pages; its child, process 4, is a zombie with exit status 5. *)
Definition wait_tf : Z := 0x87ff5000.
Definition wait_pt : Z := 0x87ff6000.
Definition wait_table (i : nat) : proc :=
  match i with
  | 3%nat => set_pagetable demo_root (small_proc 7)
  | 4%nat => set_psz 0 (set_xstate 5 (set_pstate ZOMBIE (set_parent (Some 3%nat) (set_trapframe wait_tf (set_pagetable wait_pt (small_proc 9))))))
  | _ => small_proc (Z.of_nat i + 10)
  end.

Lemma wait_memory : exists m l P N us, wait_pair (small_kst m wait_table) l 3 4 P N us /\ uok true m N 4090 10 /\ wait_tf ∈ P.
Proof.
  destruct demo_space_run as (m & l & N & us & Hd & Hu & Hok). pose proof (up_inv _ _ _ _ _ Hu) as (Hk & Hrep & Hdn).
  assert (result_of ((demo_grow ;; demo_make) cpu0 demo_kmem) = Some (wait_tf, wait_pt)) as Hv by (vm_compute; reflexivity).
  assert (result_of ((demo_grow ;; kalloc) cpu0 demo_kmem) = Some wait_tf) as Hv2 by (vm_compute; reflexivity).
  unfold bind in Hv, Hv2. rewrite Hd in Hv, Hv2. cbn [obind] in Hv, Hv2. clear Hd.
  assert (l <> []) as Hl0.
  { intros ->. destruct (wp_elim kalloc cpu0 m (fun _ _ r => r = 0)) as (? & ? & ? & E & ->); [eapply wp_kalloc; [apply cpu0_unlocked|exact Hk|]; by intros ? ? [-> _]|]. rewrite E in Hv2. discriminate Hv2. }
  destruct (demo_make_run m l wait_tf wait_pt Hk Hl0 Hv ltac:(discriminate)) as (m' & l' & N' & _ & Hf & Has & Htf & Hpt & Hl). clear Hv Hv2.
  pose proof Hk as (_ & Hnd & HP). destruct (not_in_parts _ _ _ _ Hnd Hl) as [Htl Htn].
  assert (forall pa, pa ∈ wait_tf :: node_pages N' -> pa ∈ l) as Hsub by (intros pa Hpa; rewrite Hl; set_solver).
  assert (forall pa, pa ∈ l -> (pa ∉ us.*1) /\ not_node N pa) as Hap.
  { intros pa Hpa. split; [intros Hin; by destruct (up_elem _ _ _ _ _ _ Hu Hin) as (_ & ? & _)|]. intros q x Hq ->. by eapply Hdn. }
  exists m', l', (wait_tf :: node_pages N' ++ ([] : list (Z * Z)).*1), N, us. split; [split|split; [|apply list_elem_of_here]].
  - eapply (user_pages_frame l); [exact Hu|apply (as_user _ _ _ _ _ _ Has)|exact Hf|exact HP|intros pa Hpa; by apply Hap|]. intros pa Hpa. apply Hap. rewrite Hl. set_solver.
  - apply (holds_all m' l' wait_tf wait_pt 0 N' []); [exact Htf|exact Htl|exact Htn|apply not_elem_of_nil|exact Hpt|exact Has|split; [rewrite TRAPFRAME_val; lia|reflexivity]].
  - intros pa Hpa. cbn in Hpa. rewrite app_nil_r in Hpa. by apply Hap, Hsub.
  - eapply uok_view; [|exact Hok]. intros a. unfold uview. apply same_nodes_view. eapply frame_out_nodes; [exact Hf|exact HP|exact Hrep|]. intros q x Hq Hin. by eapply Hdn.
Qed.

Lemma wait_correct_witness : exists m s', wait 4092 demo_cpu (small_kst m wait_table) = Ret demo_cpu s' 9 /\ p_state (k_procs s' 4) = UNUSED /\
  (exists N, ubytes (k_mem s') N 4092 4 = [5; 0; 0; 0]) /\ exists l, kmem_inv (k_mem s') l /\ wait_tf ∈ l.
Proof.
  destruct wait_memory as (m & l & P & N & us & Hp & Hok & Hin). exists m.
  destruct (wait_correct 4092 demo_cpu (small_kst m wait_table) eq_refl) as [Hw _].
  destruct (Hw l 4%nat P N us) as (s' & Hr & Hre).
  - unfold NPROCS. lia.
  - split; reflexivity.
  - intros i Hi [E _]. do 4 (destruct i as [|i]; [discriminate E|]). lia.
  - exact Hp.
  - right. apply (uok_sub true _ _ 4090 10 2 4 Hok). lia.
  - exists s'. destruct Hre as [_ _ R3 _ (l' & R5 & R6) R7 _]. split; [exact Hr|]. clear Hr. refine (conj _ (conj _ _)).
    + rewrite R3. reflexivity.
    + exists N. rewrite R7; [reflexivity|discriminate].
    + exists l'. split; [apply (proj1 (up_inv _ _ _ _ _ R6))|]. rewrite R5. apply elem_of_app. by left.
Defined.
