(* ===== verification/PipeProps.v ===== *)
(** Pipes are queues of at most 512 bytes. *)
From S2P Require Import Prelude Memory Riscv Kalloc Vm VmTree VmMap VmUser VmCopy VmProps UserMem Sleeplock Bio BioSpec Log Fs State Process FsFile Uart Console Pipe File ProcLife ProcProps.

#[local] Arguments loop : simpl never.

(** * The ring as a queue *)

Definition pipe_len (x : pipe) : Z := u32 (pi_nwrite x - pi_nread x).
Record pipe_ok (x : pipe) : Prop := {
  po_data : length (pi_data x) = 512%nat;
  po_read : 0 <= pi_nread x < 4294967296;
  po_write : 0 <= pi_nwrite x < 4294967296;
  po_len : pipe_len x <= 512;
}.
(** The bytes written and not yet read, oldest first. *)
Definition pipe_q (x : pipe) : list Z :=
  (fun i => default 0 (pi_data x !! Z.to_nat ((pi_nread x + i) mod PIPESIZE))) <$> seqZ 0 (pipe_len x).

(** The stores of one round of [pipewrite] and of [piperead]. *)
Definition push (b : Z) (x : pipe) : pipe :=
  mkpipe (<[Z.to_nat (pi_nwrite x mod PIPESIZE) := b]> (pi_data x)) (pi_nread x) (u32 (pi_nwrite x + 1)) (pi_readopen x) (pi_writeopen x).
Definition pop (x : pipe) : pipe := mkpipe (pi_data x) (u32 (pi_nread x + 1)) (pi_nwrite x) (pi_readopen x) (pi_writeopen x).

Lemma pipe_len_range x : 0 <= pipe_len x < 4294967296.
Proof. unfold pipe_len, u32. apply Z.mod_pos_bound. lia. Qed.
Lemma length_pipe_q x : length (pipe_q x) = Z.to_nat (pipe_len x).
Proof. unfold pipe_q. by rewrite length_fmap, length_seqZ. Qed.

(** [nwrite] is [nread] plus the length, modulo 2^32; the two cases of the wrap-around. *)
Lemma nwrite_eq x : pipe_ok x -> pi_nwrite x = pi_nread x + pipe_len x \/ pi_nwrite x = pi_nread x + pipe_len x - 4294967296.
Proof.
  intros [_ Hr Hw _]. unfold pipe_len, u32. destruct (decide (pi_nread x <= pi_nwrite x)).
  - left. rewrite Z.mod_small; lia.
  - right. rewrite <- (Z.mod_add _ 1), Z.mod_small by lia. lia.
Qed.

Lemma mod_wrap a : (a - 4294967296) mod 512 = a mod 512.
Proof. rewrite <- (Z.mod_add _ 8388608) by lia. f_equal. lia. Qed.
Lemma u32_mod512 a : u32 a mod 512 = a mod 512.
Proof. unfold u32. apply Z.mod_mod_divide. exists 8388608. lia. Qed.

Lemma pipe_full x : pipe_ok x -> (pi_nwrite x =? u32 (pi_nread x + PIPESIZE)) = (pipe_len x =? 512).
Proof.
  intros Hok. pose proof Hok as [_ Hr Hw Hl]. pose proof (pipe_len_range x) as Hn. unfold PIPESIZE.
  assert (u32 (pi_nread x + 512) = pi_nread x + 512 \/ u32 (pi_nread x + 512) = pi_nread x + 512 - 4294967296 /\ 4294967296 <= pi_nread x + 512) as Hu.
  { unfold u32. destruct (decide (pi_nread x + 512 < 4294967296)); [left; rewrite Z.mod_small; lia|right]. split; [|lia].
    rewrite <- (Z.mod_add _ (-1)), Z.mod_small by lia. lia. }
  assert (0 <= u32 (pi_nread x + 512) < 4294967296) by (unfold u32; apply Z.mod_pos_bound; lia).
  apply eq_true_iff_eq. rewrite !Z.eqb_eq. destruct (nwrite_eq x Hok); lia.
Qed.

Lemma pipe_empty x : pipe_ok x -> (pi_nread x =? pi_nwrite x) = (pipe_len x =? 0).
Proof.
  intros Hok. pose proof Hok as [_ Hr Hw Hl]. pose proof (pipe_len_range x) as Hn. apply eq_true_iff_eq. rewrite !Z.eqb_eq. destruct (nwrite_eq x Hok); lia.
Qed.

Lemma u32_shift a b d : u32 (u32 (a + d) - b) = u32 (a - b + d).
Proof. unfold u32. rewrite Zminus_mod_idemp_l. f_equal. lia. Qed.
Lemma u32_shift_r a b d : u32 (a - u32 (b + d)) = u32 (a - b - d).
Proof. unfold u32. rewrite Zminus_mod_idemp_r. f_equal. lia. Qed.
Lemma u32_len x d : pipe_ok x -> 0 <= pipe_len x + d < 4294967296 -> u32 (pi_nwrite x - pi_nread x + d) = pipe_len x + d.
Proof. intros _ Hd. unfold pipe_len in *. unfold u32 in *. rewrite <- Zplus_mod_idemp_l. by apply Z.mod_small. Qed.

Lemma push_spec b x : pipe_ok x -> pipe_len x < 512 -> pipe_ok (push b x) /\ pipe_q (push b x) = pipe_q x ++ [b].
Proof.
  intros Hok Hlt. pose proof Hok as [Hd Hr Hw Hl]. pose proof (pipe_len_range x) as Hn.
  assert (pipe_len (push b x) = pipe_len x + 1) as Hlen by (unfold pipe_len at 1; cbn; rewrite u32_shift; apply u32_len; [done|lia]).
  assert (pi_nwrite x mod 512 = (pi_nread x + pipe_len x) mod 512) as Hm by (destruct (nwrite_eq x Hok) as [-> | ->]; [done|apply mod_wrap]).
  split.
  - split; [cbn; by rewrite length_insert|done|cbn; unfold u32; apply Z.mod_pos_bound; lia|lia].
  - unfold pipe_q. rewrite Hlen, seqZ_app by lia. rewrite fmap_app. cbn [pi_data pi_nread push]. unfold PIPESIZE. f_equal.
    + apply list_fmap_ext. intros i y Hi%list_elem_of_lookup_2%elem_of_seqZ. rewrite list_lookup_insert_ne; [done|]. rewrite Hm. intros E.
      apply Z2Nat.inj in E; [|apply Z.mod_pos_bound; lia|apply Z.mod_pos_bound; lia]. clear - Hi Hlt E. dlia.
    + rewrite (Z.add_0_l (pipe_len x)). assert (seqZ (pipe_len x) 1 = [pipe_len x]) as -> by (unfold seqZ; cbn; f_equal; lia).
      cbn [fmap list_fmap]. rewrite <- Hm. rewrite list_lookup_insert_eq; [done|]. rewrite Hd. pose proof (Z.mod_pos_bound (pi_nwrite x) 512). lia.
Qed.

Lemma pop_spec x : pipe_ok x -> 0 < pipe_len x ->
  pipe_ok (pop x) /\ pipe_q x = default 0 (pi_data x !! Z.to_nat (pi_nread x mod PIPESIZE)) :: pipe_q (pop x).
Proof.
  intros Hok Hlt. pose proof Hok as [Hd Hr Hw Hl].
  assert (pipe_len (pop x) = pipe_len x - 1) as Hlen.
  { unfold pipe_len at 1. cbn. rewrite u32_shift_r. replace (pi_nwrite x - pi_nread x - 1) with (pi_nwrite x - pi_nread x + -1) by lia.
    rewrite u32_len; [lia|done|]. pose proof (pipe_len_range x). lia. }
  split; [split; [done|cbn; unfold u32; apply Z.mod_pos_bound; lia|done|lia]|].
  unfold pipe_q at 1. rewrite seqZ_cons by lia. rewrite fmap_cons, Z.add_0_r. f_equal. unfold pipe_q. rewrite Hlen. cbn [pi_data pi_nread pop].
  change (Z.succ 0) with (1 + 0). rewrite <- fmap_add_seqZ, <- list_fmap_compose. replace (Z.pred (pipe_len x)) with (pipe_len x - 1) by lia.
  apply list_fmap_ext. intros i y _. unfold compose, PIPESIZE. do 3 f_equal. rewrite <- (Zplus_mod_idemp_l (u32 _)), u32_mod512, Zplus_mod_idemp_l. f_equal. lia.
Qed.

Definition push_all (l : list Z) (x : pipe) : pipe := foldl (fun x b => push b x) x l.
Lemma push_all_spec l x : pipe_ok x -> pipe_len x + Z.of_nat (length l) <= 512 ->
  pipe_ok (push_all l x) /\ pipe_q (push_all l x) = pipe_q x ++ l /\ pi_readopen (push_all l x) = pi_readopen x /\ pi_writeopen (push_all l x) = pi_writeopen x.
Proof.
  revert x. induction l as [|b l IH]; intros x Hok Hl; [by rewrite app_nil_r|]. cbn [length] in Hl.
  destruct (push_spec b x Hok ltac:(lia)) as [Hok' Hq].
  assert (pipe_len (push b x) = pipe_len x + 1) as Hlen.
  { pose proof (f_equal length Hq) as E. rewrite length_app, !length_pipe_q in E. cbn in E. pose proof (pipe_len_range x). pose proof (pipe_len_range (push b x)). lia. }
  destruct (IH (push b x) Hok' ltac:(lia)) as (H1 & H2 & H3 & H4). cbn [push_all foldl]. fold (push_all l (push b x)).
  split_and!; [done| |done|done]. by rewrite H2, Hq, <- app_assoc.
Qed.

Definition set_pipe (pi : Z) (x : pipe) (s : kst) : kst := set_pipes (<[pi := x]> (k_pipes s)) s.
Lemma set_pipe_twice pi x y s : set_pipe pi x (set_pipe pi y s) = set_pipe pi x s.
Proof. unfold set_pipe. cbn. by rewrite insert_insert_eq. Qed.
Lemma set_pipe_id pi x s : k_pipes s !! pi = Some x -> set_pipe pi x s = s.
Proof. intros Hx. unfold set_pipe. rewrite insert_id by done. by destruct s. Qed.

(** A loop that went round [k] times. *)
Lemma loop_inl {St A B} n (body : A -> M St (A + B)) a a' c s c' s' : body a c s = Ret c' s' (inl a') -> loop (S n) body a c s = loop n body a' c' s'.
Proof. intros Hb. rewrite loop_S. unfold bind. by rewrite Hb. Qed.
Lemma loop_inr {St A B} n (body : A -> M St (A + B)) a b c s c' s' : body a c s = Ret c' s' (inr b) -> loop (S n) body a c s = Ret c' s' b.
Proof. intros Hb. rewrite loop_S. unfold bind. by rewrite Hb. Qed.

(** * Writing *)

Section pipe.
Context `{Layout}.

(** The bodies of the loops of [pipewrite] and [piperead]. *)
Definition wbody (pi addr n : Z) (pr : nat) (i : Z) : M kst (Z + option Z) :=
  if i <? n then
    x <- get_pipe pi ;;
    k <- (if pi_readopen x =? 0 then ret true else k <- killed pr ;; ret (negb (k =? 0))) ;;
    if (k : bool) then release (LPipe pi) ;; ret (inr None) else
    x <- get_pipe pi ;;
    if pi_nwrite x =? u32 (pi_nread x + PIPESIZE) then
      kwakeup (ChPipeR pi) ;;
      ksleep (ChPipeW pi) (LPipe pi) ;;
      ret (inl i)
    else
      y <- get_proc pr ;;
      r <- zoom mem_lens (copyin (p_pagetable y) (u64 (addr + i)) 1) ;;
      if fst r =? -1 then ret (inr (Some i)) else
      upd_pipe pi (push (default 0 (head (snd r)))) ;;
      ret (inl (i + 1))
  else ret (inr (Some i)).
Definition wafter (pi : Z) (r : option Z) : M kst Z :=
  match r with
  | None => ret (-1)
  | Some i => kwakeup (ChPipeR pi) ;; release (LPipe pi) ;; ret i
  end.
Definition rbody (pi addr n : Z) (pr : nat) (i : Z) : M kst (Z + Z) :=
  if i <? n then
    x <- get_pipe pi ;;
    if pi_nread x =? pi_nwrite x then ret (inr i) else
    let ch := default 0 (pi_data x !! Z.to_nat (pi_nread x mod PIPESIZE)) in
    upd_pipe pi pop ;;
    y <- get_proc pr ;;
    r <- zoom mem_lens (copyout (p_pagetable y) (u64 (addr + i)) [ch] 1) ;;
    if r =? -1 then ret (inr i) else ret (inl (i + 1))
  else ret (inr i).

Lemma pipewrite_loop pi addr n : pipewrite pi addr n =
  (pr <- myproc ;; acquire (LPipe pi) ;; w <- getcpu wakeups ;; r <- loop (S (Z.to_nat n + w)) (wbody pi addr n pr) 0 ;; wafter pi r).
Proof. reflexivity. Qed.

(** The lock the caller of a loop body holds, and nothing else. *)
Definition in_pipe (pi : Z) (c : cpu) : cpu := set_held [LPipe pi] c.

Lemma get_pipe_run pi x c s : k_pipes s !! pi = Some x -> get_pipe pi c s = Ret c s x.
Proof. intros Hx. unfold get_pipe. by rewrite Hx. Qed.


Lemma wp_get_pipe pi x c s (Q : cpu -> kst -> pipe -> Prop) : k_pipes s !! pi = Some x -> Q c s x -> wp (get_pipe pi) c s Q.
Proof. intros Hx HQ. unfold wp. by rewrite (get_pipe_run pi x). Qed.

Lemma wp_killed p c s (Q : cpu -> kst -> Z -> Prop) : LProc p ∉ held c -> Q c s (p_killed (k_procs s p)) -> wp (killed p) c s Q.
Proof. intros Hc HQ. unfold killed, get_proc. wp_step. apply wp_acquire; [done|]. wp_steps. by rewrite set_held_back. Qed.

Section write.
Context (pi addr : Z) (n : nat) (c : cpu) (s : kst) (l : list Z) (N : gmap (list Z) Z) (us : list (Z * Z)).
Hypothesis Hc : held c = [LPipe pi].
Hypothesis Hlive : p_killed (k_procs s (me c)) = 0.
Hypothesis Hu : user_pages (k_mem s) l (p_pagetable (k_procs s (me c))) N us.
Hypothesis Hok : uok false (k_mem s) N addr n.
Abbreviation data := (ubytes (k_mem s) N addr n).

Lemma no_proc p : LProc p ∉ held c.
Proof. rewrite Hc. by intros ?%list_elem_of_singleton. Qed.

Lemma wbody_push x i b : pi_readopen x <> 0 -> pipe_ok x -> pipe_len x < 512 -> data !! i = Some b ->
  wbody pi addr (Z.of_nat n) (me c) (Z.of_nat i) c (set_pipe pi x s) = Ret c (set_pipe pi (push b x) s) (inl (Z.of_nat (S i))).
Proof.
  intros Hro Hx Hlt Hb. pose proof (lookup_lt_Some _ _ _ Hb) as Hi. rewrite length_ubytes in Hi.
  enough (wp (wbody pi addr (Z.of_nat n) (me c) (Z.of_nat i)) c (set_pipe pi x s) (fun c' s' r => c' = c /\ s' = set_pipe pi (push b x) s /\ r = inl (Z.of_nat (S i)))) as Hw.
  { apply wp_elim in Hw as (c' & s' & r & -> & -> & -> & ->). done. }
  assert (k_pipes (set_pipe pi x s) !! pi = Some x) as Hl by apply lookup_insert_eq.
  unfold wbody. rewrite (proj2 (Z.ltb_lt _ _)) by lia. wp_step. eapply wp_get_pipe; [exact Hl|]. wp_step.
  rewrite (proj2 (Z.eqb_neq _ 0) Hro). wp_step. apply wp_killed; [apply no_proc|]. wp_step. cbn [k_procs set_pipe set_pipes]. rewrite Hlive. cbn [Z.eqb negb].
  wp_step. eapply wp_get_pipe; [exact Hl|]. rewrite pipe_full, (proj2 (Z.eqb_neq _ 512)) by (done || lia).
  unfold get_proc, upd_pipe. wp_step. wp_step. wp_step. apply wp_zoom. cbn [lget mem_lens k_mem k_procs set_pipe set_pipes].
  destruct Hok as (Ha & Hlim & _). rewrite u64_small by lia.
  eapply wp_copyin_ok; [exact Hu|apply (uok_sub _ _ _ _ n); [done|lia]|lia|]. cbn [fst snd Z.eqb]. wp_steps.
  split_and!; [done| |do 2 f_equal; lia]. change (Z.to_nat 1) with 1%nat.
  assert (default 0 (head (ubytes (k_mem s) N (addr + Z.of_nat i) 1)) = b) as ->.
  { rewrite lookup_ubytes in Hb by done. injection Hb as <-. cbn. by rewrite Z.add_0_r. }
  unfold set_pipe. cbn. by rewrite alter_insert_eq.
Qed.

(** The first [k] rounds, while there is room. *)
Lemma write_fill k fuel x : pi_readopen x <> 0 -> pipe_ok x -> (k <= n)%nat -> pipe_len x + Z.of_nat k <= 512 ->
  loop (k + fuel) (wbody pi addr (Z.of_nat n) (me c)) 0 c (set_pipe pi x s) =
  loop fuel (wbody pi addr (Z.of_nat n) (me c)) (Z.of_nat k) c (set_pipe pi (push_all (take k data) x) s).
Proof.
  intros Hro Hx. revert fuel. induction k as [|k IH]; intros fuel Hk Hl; [by rewrite take_0|].
  replace (S k + fuel)%nat with (k + S fuel)%nat by lia. rewrite IH by lia.
  destruct (lookup_lt_is_Some_2 data k) as [b Hb]; [rewrite length_ubytes; lia|]. rewrite (take_S_r _ _ b Hb).
  unfold push_all at 2. rewrite foldl_app. cbn [foldl]. fold (push_all (take k data) x).
  destruct (push_all_spec (take k data) x Hx) as (H1 & H2 & H3 & _); [rewrite length_take, length_ubytes; lia|].
  apply loop_inl. apply wbody_push; [by rewrite H3|done| |done].
  pose proof (f_equal length H2) as E. rewrite length_app, !length_pipe_q, length_take, length_ubytes in E.
  pose proof (pipe_len_range x). pose proof (pipe_len_range (push_all (take k data) x)). lia.
Qed.
End write.

(** [s'] is [s] with [l] added to the queue of pipe [pi], and maybe other process states. *)
Record queued (pi : Z) (x : pipe) (l : list Z) (s s' : kst) : Prop := {
  qd_pipe : exists x', k_pipes s' = <[pi := x']> (k_pipes s) /\ pipe_ok x' /\ pipe_q x' = pipe_q x ++ l /\
    pi_readopen x' = pi_readopen x /\ pi_writeopen x' = pi_writeopen x;
  qd_rest : set_pipes (k_pipes s) (set_procs (k_procs s) s') = s;
}.
Definition woke (ch : chan) (c : cpu) (s s' : kst) : Prop :=
  forall i, (i < NPROCS)%nat -> i <> me c -> p_state (k_procs s i) = SLEEPING -> p_chan (k_procs s i) = Some ch -> p_state (k_procs s' i) = RUNNABLE.

Lemma woke_ptable ch c s s' x pi : ptable (fun i y => if decide (i < NPROCS)%nat then woken_by ch (me c) i y else y) (set_pipe pi x s) s' -> woke ch c s s'.
Proof. intros [Hp _] i Hi Hne Hs Hch. rewrite Hp, decide_True by done. unfold woken_by. by rewrite decide_True. Qed.

Lemma queued_ptable pi x l s s' f : pipe_ok x -> pipe_len x + Z.of_nat (length l) <= 512 ->
  ptable f (set_pipe pi (push_all l x) s) s' -> queued pi x l s s'.
Proof.
  intros Hok Hl [_ Hr]. destruct (push_all_spec l x Hok Hl) as (H1 & H2 & H3 & H4). split.
  - exists (push_all l x). split_and!; try done. exact (f_equal k_pipes Hr).
  - transitivity (set_pipes (k_pipes s) (set_pipe pi (push_all l x) s)); [|by destruct s]. rewrite <- Hr. by destruct s'.
Qed.

(** What [pipewrite] needs: a pipe in order, a live process, readable memory. *)
Record can_write (pi addr : Z) (n : nat) (c : cpu) (s : kst) (x : pipe) (N : gmap (list Z) Z) : Prop := {
  cw_held : held c = [];
  cw_pipe : k_pipes s !! pi = Some x;
  cw_ok : pipe_ok x;
  cw_open : pi_readopen x <> 0;
  cw_live : p_killed (k_procs s (me c)) = 0;
  cw_mem : exists l us, user_pages (k_mem s) l (p_pagetable (k_procs s (me c))) N us;
  cw_src : uok false (k_mem s) N addr n;
}.

Lemma pipewrite_start pi addr n c s x N k : can_write pi addr n c s x N -> (k <= n)%nat -> pipe_len x + Z.of_nat k <= 512 ->
  let data := ubytes (k_mem s) N addr n in
  pipewrite pi addr (Z.of_nat n) c s =
  obind (loop (S (n - k + wakeups c)) (wbody pi addr (Z.of_nat n) (me c)) (Z.of_nat k) (in_pipe pi c) (set_pipe pi (push_all (take k data) x) s)) (wafter pi).
Proof.
  intros [Hh Hx Hok Hro Hlive (l & us & Hu) Hsrc] Hk Hl data. rewrite pipewrite_loop. unfold myproc, getcpu, bind at 1. cbn [obind].
  unfold bind at 1, acquire. rewrite Hh, decide_False by apply not_elem_of_nil. cbn [obind]. fold (in_pipe pi c). unfold bind at 1. cbn [obind]. unfold bind at 1. f_equal.
  rewrite Nat2Z.id. replace (S (n + wakeups (in_pipe pi c))) with (k + S (n - k + wakeups c))%nat by (cbn; lia).
  rewrite <- (set_pipe_id pi x s Hx) at 1. by rewrite (write_fill pi addr n (in_pipe pi c) s l N us).
Qed.

(** C21: A write to a pipe with room for all of it appends the bytes to the queue, wakes the
    readers and returns the number of bytes. *)
Theorem pipewrite_appends pi addr n c s x N : can_write pi addr n c s x N -> pipe_len x + Z.of_nat n <= 512 ->
  exists s', pipewrite pi addr (Z.of_nat n) c s = Ret (set_woken (ChPipeR pi :: woken c) c) s' (Z.of_nat n) /\
    queued pi x (ubytes (k_mem s) N addr n) s s' /\ woke (ChPipeR pi) c s s'.
Proof.
  intros Hcw Hl. rewrite (pipewrite_start pi addr n c s x N n Hcw) by lia. pose proof Hcw as [Hh _ Hok _ _ _ _].
  rewrite take_ge by (rewrite length_ubytes; lia). set (data := ubytes _ _ _ _). set (s1 := set_pipe pi (push_all data x) s).
  rewrite (loop_inr _ _ _ (Some (Z.of_nat n)) _ s1 (in_pipe pi c) s1) by (unfold wbody; by rewrite Z.ltb_irrefl). cbn [obind].
  destruct (wp_elim (wafter pi (Some (Z.of_nat n))) (in_pipe pi c) s1 (fun c' s' r => c' = set_woken (ChPipeR pi :: woken c) c /\ r = Z.of_nat n /\
    queued pi x data s s' /\ woke (ChPipeR pi) c s s')) as (c' & s' & r & Hr & -> & -> & Hq); [|exists s'; split; [exact Hr|exact Hq]].
  unfold wafter. wp_step. apply wp_kwakeup; [intros i _; by intros ?%list_elem_of_singleton|]. intros s' Ht. wp_steps.
  rewrite (remove_lock_head _ []) by apply not_elem_of_nil. split_and!; [destruct c; cbn in *; by subst|done| |by eapply woke_ptable].
  eapply queued_ptable; [done| |exact Ht]. unfold data. rewrite length_ubytes. lia.
Qed.

(** A write that does not fit fills the pipe, wakes the readers and sleeps until one of
    them has made room, with the pipe's lock free. *)
Lemma pipewrite_blocks pi addr n c s x N w : can_write pi addr n c s x N -> 512 < pipe_len x + Z.of_nat n -> wakeups c = S w ->
  let room := Z.to_nat (512 - pipe_len x) in
  exists s' k, pipewrite pi addr (Z.of_nat n) c s = Sleep (ChPipeW pi) (set_held [LProc (me c)] (set_woken (ChPipeR pi :: woken c) c)) s' k /\
    queued pi x (take room (ubytes (k_mem s) N addr n)) s s' /\ woke (ChPipeR pi) c s s' /\
    k_procs s' (me c) = asleep (ChPipeW pi) (k_procs s (me c)).
Proof.
  intros Hcw Hl Hw room. pose proof Hcw as [Hh _ Hok Hro Hlive _ _]. pose proof (po_len x Hok) as Hlen.
  pose proof (pipe_len_range x) as Hrg. assert (room <= n)%nat as Hroom by (unfold room; lia).
  rewrite (pipewrite_start pi addr n c s x N room Hcw) by (unfold room; lia). set (data := ubytes _ _ _ _).
  set (x1 := push_all (take room data) x). set (s1 := set_pipe pi x1 s). set (c1 := in_pipe pi c).
  assert (Z.of_nat (length (take room data)) = 512 - pipe_len x) as Hld by (rewrite length_take; unfold data; rewrite length_ubytes; unfold room; lia).
  destruct (push_all_spec (take room data) x Hok ltac:(lia)) as (H1 & H2 & H3 & _).
  assert (pipe_len x1 = 512) as Hfull.
  { pose proof (f_equal length H2) as E. rewrite length_app, !length_pipe_q in E. pose proof (pipe_len_range (push_all (take room data) x)). fold x1 in E, H. lia. }
  assert (k_pipes s1 !! pi = Some x1) as Hx1 by apply lookup_insert_eq.
  destruct (wp_elim (kwakeup (ChPipeR pi)) c1 s1 (fun c' s' _ => c' = set_woken (ChPipeR pi :: woken c) c1 /\
    ptable (fun i y => if decide (i < NPROCS)%nat then woken_by (ChPipeR pi) (me c) i y else y) s1 s')) as (c2 & s2 & [] & Hr2 & -> & Ht).
  { apply wp_kwakeup; [intros i _; by intros ?%list_elem_of_singleton|]. done. }
  destruct (ksleep_run (ChPipeW pi) (LPipe pi) (set_woken (ChPipeR pi :: woken c) c1) s2 w) as (s3 & k & Hr3 & Hme & Hoth & Hrest & _); [done|done|exact Hw|].
  assert (k_procs s1 = k_procs s) as Hps by done.
  assert (forall f : Z + option Z -> M kst (option Z), exists k', bind (wbody pi addr (Z.of_nat n) (me c) (Z.of_nat room)) f c1 s1 =
    Sleep (ChPipeW pi) (set_held [LProc (me c)] (set_woken (ChPipeR pi :: woken c) c)) s3 k') as Hb.
  { intros f. unfold wbody. rewrite (proj2 (Z.ltb_lt _ _)) by lia. unfold bind at 1 2. rewrite (get_pipe_run pi x1) by done. cbn [obind].
    unfold x1 at 1. rewrite H3, (proj2 (Z.eqb_neq _ 0) Hro). unfold bind at 1 2. rewrite killed_run by (by intros ?%list_elem_of_singleton).
    cbn [obind]. rewrite Hps, Hlive. cbn [Z.eqb negb ret obind]. unfold ret at 1. cbn [obind]. unfold bind at 1. rewrite (get_pipe_run pi x1) by done. cbn [obind].
    rewrite pipe_full, Hfull by done. cbn [Z.eqb Pos.eqb]. unfold bind at 1. rewrite Hr2. cbn [obind]. unfold bind at 1. rewrite Hr3. cbn [obind]. eexists. reflexivity. }
  rewrite loop_S. destruct (Hb (fun r => match r with inl a' => loop (n - room + wakeups c) (wbody pi addr (Z.of_nat n) (me c)) a' | inr b => ret b end)) as [k' ->].
  cbn [obind]. exists s3. eexists. split; [reflexivity|]. cbn [me c1 in_pipe set_held set_woken] in Hme, Hoth.
  assert (ptable (fun i y => if decide (i = me c) then asleep (ChPipeW pi) y else y) s2 s3) as Ht3.
  { split; [|done]. intros i. case_decide; [subst i; exact Hme|by apply Hoth]. }
  split_and!.
  - eapply queued_ptable; [done|lia|]. eapply ptable_trans; [exact Ht|exact Ht3].
  - intros i Hi Hne Hs Hch. rewrite Hoth by done. by apply (woke_ptable (ChPipeR pi) c s s2 x1 pi Ht).
  - rewrite Hme, (pt_procs _ _ _ Ht). unfold woken_by. f_equal. case_decide; [|done]. by rewrite decide_False by naive_solver.
Qed.

(** A write to a pipe with no reader left, or by a process that was killed, fails and
    changes nothing. *)
Lemma pipewrite_fails pi addr n c s x : held c = [] -> k_pipes s !! pi = Some x -> 0 < n ->
  pi_readopen x = 0 \/ p_killed (k_procs s (me c)) <> 0 -> pipewrite pi addr n c s = Ret c s (-1).
Proof.
  intros Hh Hx Hn Hf. rewrite pipewrite_loop. unfold myproc, getcpu, bind at 1. cbn [obind].
  unfold bind at 1, acquire. rewrite Hh, decide_False by apply not_elem_of_nil. cbn [obind]. unfold bind at 1. cbn [obind]. unfold bind at 1.
  rewrite (loop_inr _ _ _ None _ _ c s); [done|]. unfold wbody. rewrite (proj2 (Z.ltb_lt _ _)) by lia. unfold bind at 1. rewrite (get_pipe_run pi x) by done. cbn [obind].
  assert (release (LPipe pi) (set_held [LPipe pi] c) s = Ret c s tt) as Hrel.
  { unfold release. cbn [held set_held]. rewrite decide_True by (by left). rewrite (remove_lock_head _ []) by apply not_elem_of_nil. destruct c. cbn in *. by subst. }
  destruct (Z.eqb_spec (pi_readopen x) 0) as [|Hro]; unfold bind at 1.
  - unfold ret at 1. cbn [obind]. unfold bind. by rewrite Hrel.
  - destruct Hf as [|Hk]; [done|]. unfold bind at 1. rewrite killed_run by (by intros ?%list_elem_of_singleton). cbn [obind me set_held].
    rewrite (proj2 (Z.eqb_neq _ 0) Hk). unfold ret at 1. cbn [negb obind]. unfold bind. by rewrite Hrel.
Qed.

(** * Reading *)

(** The wait at the start of [piperead]. *)
Definition rwait (pi : Z) (pr : nat) (_ : unit) : M kst (unit + bool) :=
  x <- get_pipe pi ;;
  if (pi_nread x =? pi_nwrite x) && negb (pi_writeopen x =? 0) then
    k <- killed pr ;;
    if negb (k =? 0) then release (LPipe pi) ;; ret (inr false) else
    ksleep (ChPipeR pi) (LPipe pi) ;;
    ret (inl tt)
  else ret (inr true).

Lemma piperead_loop pi addr n : piperead pi addr n =
  (pr <- myproc ;; acquire (LPipe pi) ;; ok <- sleep_loop (rwait pi pr) tt ;;
   if negb ok then ret (-1) else
   i <- loop (S (Z.to_nat n)) (rbody pi addr n pr) 0 ;; kwakeup (ChPipeW pi) ;; release (LPipe pi) ;; ret i).
Proof. reflexivity. Qed.

(** What [piperead] needs: a pipe in order and memory to write to. *)
Record can_read (pi addr : Z) (n : nat) (c : cpu) (s : kst) (x : pipe) (l : list Z) (N : gmap (list Z) Z) (us : list (Z * Z)) : Prop := {
  cr_held : held c = [];
  cr_pipe : k_pipes s !! pi = Some x;
  cr_ok : pipe_ok x;
  cr_mem : user_pages (k_mem s) l (p_pagetable (k_procs s (me c))) N us;
  cr_dst : uok true (k_mem s) N addr n;
}.

(** After [i] rounds. *)
Definition read_some (pi addr : Z) (s : kst) (x : pipe) l root N us (i : nat) (s' : kst) : Prop :=
  exists m x', s' = set_kmem m (set_pipe pi x' s) /\ uwrote (k_mem s) l root N us addr (take i (pipe_q x)) m /\
    pipe_ok x' /\ pipe_q x' = drop i (pipe_q x) /\ pi_readopen x' = pi_readopen x /\ pi_writeopen x' = pi_writeopen x.

Lemma wp_read_loop pi addr n c s x l N us (Q : cpu -> kst -> Z -> Prop) : can_read pi addr n (set_held [] c) s x l N us -> held c = [LPipe pi] ->
  let k := Nat.min n (length (pipe_q x)) in
  (forall s', read_some pi addr s x l (p_pagetable (k_procs s (me c))) N us k s' -> Q c s' (Z.of_nat k)) ->
  wp (loop (S n) (rbody pi addr (Z.of_nat n) (me c)) 0) c s Q.
Proof.
  intros [_ Hx Hok Hu Hdst] Hh k HQ. cbn [me set_held] in Hu.
  eapply (wp_loop (fun i c' s' => exists j, i = Z.of_nat j /\ (j <= k)%nat /\ c' = c /\ read_some pi addr s x l (p_pagetable (k_procs s (me c))) N us j s') (fun i => (n - Z.to_nat i)%nat)); [|lia|].
  2: { exists 0%nat. split_and!; [done|lia|done|]. exists (k_mem s), x. split_and!; try done. rewrite set_pipe_id by done. by destruct s. }
  intros i c' s' (j & -> & Hj & -> & (m & x' & -> & Hw & Hok' & Hq' & Hro & Hwo)). set (s' := set_kmem m (set_pipe pi x' s)). fold s'.
  assert (pipe_len x' = Z.of_nat (length (pipe_q x) - j)) as Hlen.
  { pose proof (f_equal length Hq') as E. rewrite length_pipe_q, length_drop in E. pose proof (pipe_len_range x'). lia. }
  unfold rbody. destruct (Z.ltb_spec (Z.of_nat j) (Z.of_nat n)) as [Hlt|Hge].
  2: { wp_step. replace k with j in * by lia. apply HQ. exists m, x'. done. }
  wp_step. apply (wp_get_pipe pi x'); [apply lookup_insert_eq|]. rewrite pipe_empty by done. destruct (Z.eqb_spec (pipe_len x') 0) as [He|He].
  { wp_step. replace k with j in * by lia. apply HQ. exists m, x'. done. }
  destruct (pop_spec x' Hok') as [Hok2 Hpop]; [lia|]. set (b := default 0 _) in *.
  assert (pipe_q x !! j = Some b) as Hb by (rewrite <- (Nat.add_0_r j), <- lookup_drop, <- Hq', Hpop; done).
  unfold upd_pipe, get_proc. wp_step. wp_step. wp_step. wp_step. wp_step. apply wp_zoom. cbn [lget mem_lens k_mem set_pipes k_procs s' set_kmem set_pipe].
  pose proof Hdst as (Ha & Hlim & _). rewrite (u64_small (addr + Z.of_nat j)) by lia. assert ((length (take j (pipe_q x))) = j) as Hlt' by (rewrite length_take; lia).
  eapply (wp_copyout_ok _ l N us c m (addr + Z.of_nat j) [b]); [apply Hw|eapply uok_view; [apply Hw|by apply (uok_sub _ _ _ _ n); [|simpl; lia]]|].
  intros m2 Hw2. cbn [Z.eqb]. wp_step. split; [|lia]. exists (S j). split_and!; [lia|lia|done|]. exists m2, (pop x'). split_and!; try done.
  - cbn [lset mem_lens]. unfold set_pipe, s'. cbn. by rewrite alter_insert_eq.
  - rewrite (take_S_r _ _ b Hb). eapply uwrote_app; [|exact Hw|rewrite Hlt'; exact Hw2]. rewrite Hlt'.
    replace addr with (addr + Z.of_nat 0) by lia. by apply (uok_sub _ _ _ _ n); [|lia].
  - rewrite (drop_S (pipe_q x) b j Hb) in Hq'. rewrite Hpop in Hq'. by injection Hq'.
Qed.

Lemma release_pipe pi c (s : kst) : held c = [] -> release (LPipe pi) (in_pipe pi c) s = Ret c s tt.
Proof.
  intros Hh. unfold release. cbn [held in_pipe set_held]. rewrite decide_True by (by left). rewrite (remove_lock_head _ []) by apply not_elem_of_nil.
  destruct c. cbn in *. by subst.
Qed.

(** C22: A read from a pipe that has bytes, or no writer left, takes the oldest bytes, up to
    the number asked for, writes them to the reader's memory in order and changes nothing else
    there, wakes the writers and returns how many there were (0 at the end of the stream). *)
Theorem piperead_takes pi addr n c s x l N us : can_read pi addr n c s x l N us -> pipe_q x <> [] \/ pi_writeopen x = 0 ->
  let k := Nat.min n (length (pipe_q x)) in
  exists s' m x', piperead pi addr (Z.of_nat n) c s = Ret (set_woken (ChPipeW pi :: woken c) c) s' (Z.of_nat k) /\
    k_mem s' = m /\ uwrote (k_mem s) l (p_pagetable (k_procs s (me c))) N us addr (take k (pipe_q x)) m /\
    k_pipes s' = <[pi := x']> (k_pipes s) /\ pipe_ok x' /\ pipe_q x' = drop k (pipe_q x) /\ pi_readopen x' = pi_readopen x /\ pi_writeopen x' = pi_writeopen x /\
    woke (ChPipeW pi) c s s'.
Proof.
  intros Hcr Hav k. pose proof Hcr as [Hh Hx Hok Hu Hdst].
  set (P s' := exists m x', k_mem s' = m /\ uwrote (k_mem s) l (p_pagetable (k_procs s (me c))) N us addr (take k (pipe_q x)) m /\
    k_pipes s' = <[pi := x']> (k_pipes s) /\ pipe_ok x' /\ pipe_q x' = drop k (pipe_q x) /\ pi_readopen x' = pi_readopen x /\ pi_writeopen x' = pi_writeopen x /\
    woke (ChPipeW pi) c s s').
  destruct (wp_elim (piperead pi addr (Z.of_nat n)) c s (fun c' s' r => c' = set_woken (ChPipeW pi :: woken c) c /\ r = Z.of_nat k /\ P s'))
    as (c' & s' & r & Hr & -> & -> & (m & x' & HP)); [|exists s', m, x'; split; [exact Hr|exact HP]].
  rewrite piperead_loop. unfold myproc. wp_step. wp_step. wp_step. apply wp_acquire; [rewrite Hh; apply not_elem_of_nil|]. rewrite Hh. fold (in_pipe pi c).
  unfold sleep_loop. wp_step. wp_step. wp_step. rewrite loop_S. wp_step. unfold rwait at 1. wp_step. apply (wp_get_pipe pi x); [done|].
  assert ((pi_nread x =? pi_nwrite x) && negb (pi_writeopen x =? 0) = false) as ->.
  { rewrite pipe_empty by done. destruct Hav as [Hq|Hwo]; [|rewrite Hwo; by rewrite andb_false_r].
    rewrite (proj2 (Z.eqb_neq _ 0)); [done|]. intros E. apply Hq. apply length_zero_iff_nil. rewrite length_pipe_q, E. done. }
  wp_step. wp_step. cbn [negb]. wp_step. rewrite Nat2Z.id. change (me c) with (me (in_pipe pi c)) at 1.
  eapply (wp_read_loop pi addr n (in_pipe pi c) s x l N us); [by split|done|]. intros s1 (m & x' & -> & Hw & Hok' & Hq & Hro & Hwo).
  wp_step. apply wp_kwakeup; [intros i _; by intros ?%list_elem_of_singleton|]. intros s2 Ht. wp_step. unfold wp at 1.
  change (set_woken (ChPipeW pi :: woken (in_pipe pi c)) (in_pipe pi c)) with (in_pipe pi (set_woken (ChPipeW pi :: woken c) c)).
  rewrite release_pipe by exact Hh. wp_step. split_and!; [done|done|]. exists m, x'. pose proof (pt_rest _ _ _ Ht) as Hrest.
  split_and!; try done.
  - exact (f_equal k_mem Hrest).
  - exact (f_equal k_pipes Hrest).
  - intros i Hi Hne Hs Hch. rewrite (pt_procs _ _ _ Ht), decide_True by done. unfold woken_by. by rewrite decide_True.
Qed.

(** A read from an empty pipe that still has a writer sleeps until there is something,
    with the pipe's lock free and the pipe as it was. *)
Lemma piperead_blocks pi addr n c s x w : held c = [] -> k_pipes s !! pi = Some x -> pipe_ok x -> pipe_q x = [] -> pi_writeopen x <> 0 ->
  p_killed (k_procs s (me c)) = 0 -> wakeups c = S w ->
  exists s' k, piperead pi addr n c s = Sleep (ChPipeR pi) (set_held [LProc (me c)] c) s' k /\
    k_procs s' (me c) = asleep (ChPipeR pi) (k_procs s (me c)) /\ (forall i, i <> me c -> k_procs s' i = k_procs s i) /\ set_procs (k_procs s) s' = s.
Proof.
  intros Hh Hx Hok Hq Hwo Hlive Hw.
  destruct (ksleep_run (ChPipeR pi) (LPipe pi) (in_pipe pi c) s w) as (s' & k & Hr & Hme & Hoth & Hrest & _); [done|done|exact Hw|].
  assert (pipe_len x = 0) as Hl by (pose proof (length_pipe_q x) as E; rewrite Hq in E; cbn in E; pose proof (pipe_len_range x); lia).
  exists s'. rewrite piperead_loop. unfold myproc, getcpu, bind at 1. cbn [obind]. unfold bind at 1, acquire. rewrite Hh, decide_False by apply not_elem_of_nil. cbn [obind].
  fold (in_pipe pi c). unfold bind at 1. unfold sleep_loop, getcpu. unfold bind at 1. cbn [obind]. rewrite loop_S. unfold bind at 1. unfold rwait at 1.
  unfold bind at 1. rewrite (get_pipe_run pi x) by done. cbn [obind]. rewrite pipe_empty, Hl, (proj2 (Z.eqb_neq _ 0) Hwo) by done. cbn [Z.eqb negb andb].
  unfold bind at 1. rewrite killed_run by (by intros ?%list_elem_of_singleton). cbn [obind]. rewrite Hlive. cbn [Z.eqb negb].
  unfold bind at 1. rewrite Hr. cbn [obind]. eexists. split; [reflexivity|]. done.
Qed.
End pipe.

(** * Witnesses *)

Definition demo_reader : proc := set_pagetable demo_root (small_proc 4).
(** A pipe at 0x87000000 whose ring is about to wrap around, with the bytes [l] in it. *)
Definition demo_pipe (l : list Z) : pipe := push_all l (mkpipe (replicate 512 0) 4294967290 4294967290 1 1).
Definition pipe_kst (m : kmem) (x : pipe) : kst := set_pipe 0x87000000 x (small_kst m (fun i => if Nat.eqb i 3 then demo_reader else asleep (ChPipeR 0x87000000) (small_proc 9))).

Lemma demo_pipe_ok l : (length l <= 512)%nat -> pipe_ok (demo_pipe l) /\ pipe_q (demo_pipe l) = l /\ pipe_len (demo_pipe l) = Z.of_nat (length l) /\
  pi_readopen (demo_pipe l) = 1 /\ pi_writeopen (demo_pipe l) = 1.
Proof.
  intros Hl. destruct (push_all_spec l (mkpipe (replicate 512 0) 4294967290 4294967290 1 1)) as (H1 & H2 & H3 & H4); [by split; vm_compute; intuition congruence|change (0 + Z.of_nat (length l) <= 512); lia|].
  assert (pipe_q (demo_pipe l) = l) as Hq by exact H2. split_and!; try done.
  pose proof (length_pipe_q (demo_pipe l)) as E. rewrite Hq in E. pose proof (pipe_len_range (demo_pipe l)). lia.
Qed.

Lemma demo_can_write m l N us q : user_pages m l demo_root N us -> uok true m N 4090 10 -> (length q <= 512)%nat ->
  can_write 0x87000000 4090 10 cpu3 (pipe_kst m (demo_pipe q)) (demo_pipe q) N.
Proof.
  intros Hu Hok Hq. destruct (demo_pipe_ok q Hq) as (H1 & _ & _ & H4 & _).
  split; [done|apply lookup_insert_eq|exact H1|rewrite H4; discriminate|reflexivity|by exists l, us|by apply uok_weaken].
Qed.

Lemma pipewrite_appends_witness : exists m s', pipewrite 0x87000000 4090 10 cpu3 (pipe_kst m (demo_pipe [1; 2])) = Ret (set_woken [ChPipeR 0x87000000] cpu3) s' 10 /\
  p_state (k_procs s' 7) = RUNNABLE.
Proof.
  destruct demo_space as (m & l & N & us & Hu & Hok). destruct (demo_pipe_ok [1; 2] ltac:(simpl; lia)) as (_ & _ & Hl & _).
  destruct (pipewrite_appends 0x87000000 4090 10 cpu3 (pipe_kst m (demo_pipe [1; 2])) (demo_pipe [1; 2]) N) as (s' & Hr & _ & Hw).
  - by eapply demo_can_write; [exact Hu|exact Hok|simpl; lia].
  - rewrite Hl. simpl. lia.
  - exists m, s'. split; [exact Hr|]. apply Hw; [vm_compute; lia|done|reflexivity|reflexivity].
Defined.

Lemma pipewrite_blocks_witness : exists m s' k,
  pipewrite 0x87000000 4090 10 (mkcpu [] 4 1 [] 3 []) (pipe_kst m (demo_pipe (replicate 505 1))) =
  Sleep (ChPipeW 0x87000000) (mkcpu [LProc 3] 4 1 [ChPipeR 0x87000000] 3 []) s' k.
Proof.
  destruct demo_space as (m & l & N & us & Hu & Hok). destruct (demo_pipe_ok (replicate 505 1)) as (_ & _ & Hl & _); [rewrite length_replicate; lia|].
  destruct (pipewrite_blocks 0x87000000 4090 10 (mkcpu [] 4 1 [] 3 []) (pipe_kst m (demo_pipe (replicate 505 1))) (demo_pipe (replicate 505 1)) N 0) as (s' & k & Hr & _).
  - destruct (demo_can_write m l N us (replicate 505 1) Hu Hok) as [H1 H2 H3 H4 H5 H6 H7]; [rewrite length_replicate; lia|].
    split; [done|exact H2|exact H3|exact H4|exact H5|exact H6|exact H7].
  - rewrite Hl, length_replicate. lia.
  - reflexivity.
  - exists m, s', k. exact Hr.
Defined.

Lemma piperead_takes_witness : exists m s', piperead 0x87000000 4090 10 cpu3 (pipe_kst m (demo_pipe [5; 6; 7])) = Ret (set_woken [ChPipeW 0x87000000] cpu3) s' 3.
Proof.
  destruct demo_space as (m & l & N & us & Hu & Hok). destruct (demo_pipe_ok [5; 6; 7] ltac:(simpl; lia)) as (H1 & Hq & _).
  destruct (piperead_takes 0x87000000 4090 10 cpu3 (pipe_kst m (demo_pipe [5; 6; 7])) (demo_pipe [5; 6; 7]) l N us) as (s' & m' & x' & Hr & _).
  - split; [done|apply lookup_insert_eq|exact H1|exact Hu|exact Hok].
  - left. by rewrite Hq.
  - exists m, s'. rewrite Hq in Hr. exact Hr.
Defined.

Lemma piperead_blocks_witness : exists s' k, piperead 0x87000000 4090 10 (mkcpu [] 4 1 [] 3 []) (pipe_kst demo_kmem (demo_pipe [])) =
  Sleep (ChPipeR 0x87000000) (mkcpu [LProc 3] 4 1 [] 3 []) s' k.
Proof.
  destruct (demo_pipe_ok [] ltac:(simpl; lia)) as (H1 & Hq & _).
  destruct (piperead_blocks 0x87000000 4090 10 (mkcpu [] 4 1 [] 3 []) (pipe_kst demo_kmem (demo_pipe [])) (demo_pipe []) 0) as (s' & k & Hr & _).
  - reflexivity.
  - apply lookup_insert_eq.
  - exact H1.
  - exact Hq.
  - discriminate.
  - reflexivity.
  - reflexivity.
  - exists s', k. exact Hr.
Defined.
