(* ===== verification/Exec.v ===== *)
(** [exec], kernel/exec.c, with the structures of kernel/elf.h. *)
From S2P Require Import Prelude Memory Riscv Kalloc Vm Sleeplock Bio Log Fs State Process FsFile Uart Console Pipe File ProcLife.

Definition ELF_MAGIC : Z := 0x464C457F.
Definition ELF_PROG_LOAD : Z := 1.

Definition get64 (d : list Z) (off : nat) : Z := get32 d off + 4294967296 * get32 d (off + 4).

(** The fields of [struct elfhdr] that [exec] uses, at their offsets in the 64-byte header. *)
Definition ELFHDR : Z := 64.
Definition elf_magic (d : list Z) : Z := get32 d 0.
Definition elf_entry (d : list Z) : Z := get64 d 24.
Definition elf_phoff (d : list Z) : Z := get64 d 32.
Definition elf_phnum (d : list Z) : Z := get16 d 56.
(** [struct proghdr], 56 bytes. *)
Definition PROGHDR : Z := 56.
Definition ph_type (d : list Z) : Z := get32 d 0.
Definition ph_flags (d : list Z) : Z := get32 d 4.
Definition ph_off (d : list Z) : Z := get64 d 8.
Definition ph_vaddr (d : list Z) : Z := get64 d 16.
Definition ph_filesz (d : list Z) : Z := get64 d 32.
Definition ph_memsz (d : list Z) : Z := get64 d 40.

Definition flags2perm (flags : Z) : Z :=
  let perm := if negb (Z.land flags 1 =? 0) then PTE_X else 0 in
  if negb (Z.land flags 2 =? 0) then Z.lor perm PTE_W else perm.

Section exec.
Context `{Layout}.

Definition loadseg (pagetable va : Z) (ip : nat) (offset sz : Z) : M kst Z :=
  loop (S (Z.to_nat (sz / PGSIZE + 1))) (fun i =>
    if i <? sz then
      pa <- zoom mem_lens (walkaddr pagetable (u64 (va + i))) ;;
      if pa =? 0 then panic "loadseg: address should exist" else
      let n := if sz - i <? PGSIZE then sz - i else PGSIZE in
      r <- readi ip DKern (u32 (offset + i)) n ;;
      zoom mem_lens (upd_mem (fun m => store_bytes m pa (snd r))) ;;
      if negb (fst r =? n) then ret (inr (-1)) else ret (inl (u32 (i + PGSIZE)))
    else ret (inr 0)) 0.

(** The length of the string at a kernel address, which ends within a page. *)
Definition kstrlen (a : Z) : M kst Z := fun c s =>
  match strlen (kmem_mem (k_mem s)) a (S (Z.to_nat PGSIZE)) with
  | Some n => Ret c s n
  | None => Diverge
  end.

(** The bytes of an array of [uint64]. *)
Definition le64 (v : Z) : list Z := (fun i => v / 256 ^ Z.of_nat i mod 256) <$> seq 0 8.

(** The last path element: [last] after the loop over the path. *)
Fixpoint last_elem (s last : list Z) : list Z :=
  match s with
  | [] => last
  | c :: s' => if c =? 0 then last else if c =? slash then last_elem s' s' else last_elem s' last
  end.

(** [goto bad] *)
Definition exec_bad (pagetable sz : Z) (ip : option nat) : M kst Z :=
  (if negb (pagetable =? 0) then zoom mem_lens (proc_freepagetable pagetable sz) else ret tt) ;;
  match ip with
  | Some _ =>
      zoom fs_lens (iunlockput ip) ;;
      zoom klog_lens end_op
  | None => ret tt
  end ;;
  ret (-1).

(** The loop over the program headers: [inr sz] at its end, [inl sz] to give up. *)
Definition exec_load (pagetable : Z) (ip : nat) (elf : list Z) : M kst (Z + Z) :=
  loop (S (Z.to_nat (elf_phnum elf))) (fun st : Z * Z * Z => let '(i, off, sz) := st in
    if i <? elf_phnum elf then
      r <- readi ip DKern (u32 off) PROGHDR ;;
      let ph := snd r in
      if negb (fst r =? PROGHDR) then ret (inr (inl sz)) else
      if negb (ph_type ph =? ELF_PROG_LOAD) then ret (inl (i + 1, s32 (off + PROGHDR), sz)) else
      if ph_memsz ph <? ph_filesz ph then ret (inr (inl sz)) else
      if u64 (ph_vaddr ph + ph_memsz ph) <? ph_vaddr ph then ret (inr (inl sz)) else
      if negb (ph_vaddr ph mod PGSIZE =? 0) then ret (inr (inl sz)) else
      sz1 <- zoom mem_lens (uvmalloc pagetable sz (u64 (ph_vaddr ph + ph_memsz ph)) (flags2perm (s32 (ph_flags ph)))) ;;
      if sz1 =? 0 then ret (inr (inl sz)) else
      r <- loadseg pagetable (ph_vaddr ph) ip (u32 (ph_off ph)) (u32 (ph_filesz ph)) ;;
      if r <? 0 then ret (inr (inl sz1)) else ret (inl (i + 1, s32 (off + PROGHDR), sz1))
    else ret (inr (inr sz))) (0, s32 (elf_phoff elf), 0).

(** The loop over the arguments: [Some (argc, sp, ustack)] at its end, [None] to give up. [argv]
    lists the addresses of the strings, without the final null pointer. *)
Definition exec_args (pagetable : Z) (argv : list Z) (sz stackbase : Z) : M kst (option (Z * Z * list Z)) :=
  loop (S (length argv)) (fun st : nat * Z * list Z => let '(argc, sp, ustack) := st in
    match argv !! argc with
    | Some a =>
        if Z.of_nat argc >=? MAXARG then ret (inr None) else
        n <- kstrlen a ;;
        let sp := u64 (sp - (n + 1)) in
        let sp := sp - sp mod 16 in
        if sp <? stackbase then ret (inr None) else
        bytes <- gets (fun s => load_bytes (kmem_mem (k_mem s)) a (Z.to_nat (n + 1))) ;;
        r <- zoom mem_lens (copyout pagetable sp bytes (n + 1)) ;;
        if r <? 0 then ret (inr None) else
        ret (inl (S argc, sp, ustack ++ [sp]))
    | None => ret (inr (Some (Z.of_nat argc, sp, ustack)))
    end) (0%nat, sz, []).

Definition exec (path : list Z) (argv : list Z) : M kst Z :=
  p <- myproc ;;
  zoom klog_lens begin_op ;;
  r <- namei path ;;
  match r with
  | None => zoom klog_lens end_op ;; ret (-1)
  | Some ip =>
      zoom fs_lens (ilock (Some ip)) ;;
      r <- readi ip DKern 0 ELFHDR ;;
      let elf := snd r in
      if negb (fst r =? ELFHDR) then exec_bad 0 0 (Some ip) else
      if negb (elf_magic elf =? ELF_MAGIC) then exec_bad 0 0 (Some ip) else
      pagetable <- proc_pagetable p ;;
      if pagetable =? 0 then exec_bad 0 0 (Some ip) else
      r <- exec_load pagetable ip elf ;;
      match r with
      | inl sz => exec_bad pagetable sz (Some ip)
      | inr sz =>
          zoom fs_lens (iunlockput (Some ip)) ;;
          zoom klog_lens end_op ;;
          x <- get_proc p ;;
          let oldsz := p_sz x in
          let sz := PGROUNDUP sz in
          sz1 <- zoom mem_lens (uvmalloc pagetable sz (u64 (sz + 2 * PGSIZE)) PTE_W) ;;
          if sz1 =? 0 then exec_bad pagetable sz None else
          let sz := sz1 in
          zoom mem_lens (uvmclear pagetable (sz - 2 * PGSIZE)) ;;
          let stackbase := sz - PGSIZE in
          r <- exec_args pagetable argv sz stackbase ;;
          match r with
          | None => exec_bad pagetable sz None
          | Some (argc, sp, ustack) =>
              let ustack := ustack ++ [0] in
              let sp := u64 (sp - (argc + 1) * 8) in
              let sp := sp - sp mod 16 in
              if sp <? stackbase then exec_bad pagetable sz None else
              r <- zoom mem_lens (copyout pagetable sp (concat (le64 <$> ustack)) ((argc + 1) * 8)) ;;
              if r <? 0 then exec_bad pagetable sz None else
              tf_set p TF_a1 sp ;;
              upd_proc p (fun x => set_name (safestrcpy_l (p_name x) (last_elem path path) 15) x) ;;
              x <- get_proc p ;;
              let oldpagetable := p_pagetable x in
              upd_proc p (set_pagetable pagetable) ;;
              upd_proc p (set_psz sz) ;;
              tf_set p TF_epc (elf_entry elf) ;;
              tf_set p TF_sp sp ;;
              zoom mem_lens (proc_freepagetable oldpagetable oldsz) ;;
              ret argc
          end
      end
  end.
End exec.
