(* ===== verification/Syscall.v ===== *)
(** System calls: argument fetching and dispatch (kernel/syscall.c), the handlers of
    kernel/sysproc.c and kernel/sysfile.c. *)
From S2P Require Import Prelude Memory Riscv Kalloc Vm Sleeplock Bio Log Fs State Process FsFile Uart Console Pipe File ProcLife Exec.

(** kernel/fcntl.h *)
Definition O_RDONLY : Z := 0.
Definition O_WRONLY : Z := 1.
Definition O_RDWR : Z := 2.
Definition O_CREATE : Z := 0x200.
Definition O_TRUNC : Z := 0x400.

(** [strlen] of a character array. *)
Fixpoint strlen_l (s : list Z) : Z :=
  match s with
  | [] => 0
  | c :: s' => if c =? 0 then 0 else 1 + strlen_l s'
  end.

Section syscall.
Context `{Layout}.

(** * Arguments *)

Definition fetchaddr (addr : Z) : M kst (Z * Z) :=
  p <- myproc ;;
  x <- get_proc p ;;
  if (addr >=? p_sz x) || (u64 (addr + 8) >? p_sz x) then ret (-1, 0) else
  r <- zoom mem_lens (copyin (p_pagetable x) addr 8) ;;
  if negb (fst r =? 0) then ret (-1, 0) else ret (0, get64 (snd r) 0).

(** The result pairs the return value with what was written to [buf]. *)
Definition fetchstr (addr max : Z) : M kst (Z * list Z) :=
  p <- myproc ;;
  x <- get_proc p ;;
  r <- zoom mem_lens (copyinstr (p_pagetable x) addr max) ;;
  if fst r <? 0 then ret (-1, snd r) else ret (strlen_l (snd r), snd r).

Definition argraw (n : Z) : M kst Z :=
  p <- myproc ;;
  if (0 <=? n) && (n <=? 5) then tf_get p (TF_a0 + 8 * n) else panic "argraw".

Definition argint (n : Z) : M kst Z := x <- argraw n ;; ret (s32 x).
Definition argaddr (n : Z) : M kst Z := argraw n.
Definition argstr (n max : Z) : M kst (Z * list Z) := addr <- argaddr n ;; fetchstr addr max.

(** * kernel/sysproc.c *)

Definition sys_exit : M kst Z := n <- argint 0 ;; exit n.
Definition sys_getpid : M kst Z := p <- myproc ;; x <- get_proc p ;; ret (p_pid x).
Definition sys_fork : M kst Z := fork.
Definition sys_wait : M kst Z := a <- argaddr 0 ;; wait a.

Definition sys_sbrk : M kst Z :=
  n <- argint 0 ;;
  p <- myproc ;;
  x <- get_proc p ;;
  let addr := p_sz x in
  r <- growproc n ;;
  if r <? 0 then ret (-1) else ret addr.

Definition sys_sleep : M kst Z :=
  n <- argint 0 ;;
  let n := if n <? 0 then 0 else n in
  acquire LTicks ;;
  ticks0 <- gets k_ticks ;;
  r <- sleep_loop (fun _ : unit =>
    ticks <- gets k_ticks ;;
    if u32 (ticks - ticks0) <? n then
      p <- myproc ;;
      k <- killed p ;;
      if negb (k =? 0) then ret (inr (-1)) else
      ksleep ChTicks LTicks ;;
      ret (inl tt)
    else ret (inr 0)) tt ;;
  release LTicks ;;
  ret r.

Definition sys_kill : M kst Z := pid <- argint 0 ;; kill pid.

Definition sys_uptime : M kst Z :=
  acquire LTicks ;;
  x <- gets k_ticks ;;
  release LTicks ;;
  ret x.

Definition sys_trace : M kst Z :=
  mask <- argint 0 ;;
  p <- myproc ;;
  upd_proc p (set_trace_mask mask) ;;
  ret 0.

(** * kernel/sysfile.c *)

(** The descriptor and the file, or [None] for -1. *)
Definition argfd (n : Z) : M kst (option (Z * nat)) :=
  fd <- argint n ;;
  if (fd <? 0) || (fd >=? NOFILE) then ret None else
  p <- myproc ;;
  x <- get_proc p ;;
  match p_ofile x !! Z.to_nat fd with
  | Some (Some f) => ret (Some (fd, f))
  | _ => ret None
  end.

Definition set_fd (fd : Z) (f : option nat) : M kst unit :=
  p <- myproc ;;
  upd_proc p (fun x => set_ofile (<[Z.to_nat fd := f]> (p_ofile x)) x).

Definition fdalloc (f : nat) : M kst Z :=
  p <- myproc ;;
  loop (S (Z.to_nat NOFILE)) (fun fd =>
    if fd <? NOFILE then
      x <- get_proc p ;;
      match p_ofile x !! Z.to_nat fd with
      | Some None =>
          upd_proc p (fun x => set_ofile (<[Z.to_nat fd := Some f]> (p_ofile x)) x) ;;
          ret (inr fd)
      | _ => ret (inl (fd + 1))
      end
    else ret (inr (-1))) 0.

Definition sys_dup : M kst Z :=
  r <- argfd 0 ;;
  match r with
  | None => ret (-1)
  | Some (_, f) =>
      fd <- fdalloc f ;;
      if fd <? 0 then ret (-1) else
      filedup f ;;
      ret fd
  end.

Definition sys_read : M kst Z :=
  p <- argaddr 1 ;;
  n <- argint 2 ;;
  r <- argfd 0 ;;
  match r with
  | None => ret (-1)
  | Some (_, f) => fileread f p n
  end.

Definition sys_write : M kst Z :=
  p <- argaddr 1 ;;
  n <- argint 2 ;;
  r <- argfd 0 ;;
  match r with
  | None => ret (-1)
  | Some (_, f) => filewrite f p n
  end.

Definition sys_close : M kst Z :=
  r <- argfd 0 ;;
  match r with
  | None => ret (-1)
  | Some (fd, f) =>
      set_fd fd None ;;
      fileclose f ;;
      ret 0
  end.

Definition sys_fstat : M kst Z :=
  st <- argaddr 1 ;;
  r <- argfd 0 ;;
  match r with
  | None => ret (-1)
  | Some (_, f) => filestat f st
  end.

(** [goto bad] in [sys_link] *)
Definition link_bad (ip : nat) : M kst Z :=
  zoom fs_lens (ilock (Some ip)) ;;
  zoom fs_lens (upd_inode ip (fun x => set_nlink (s16 (i_nlink x - 1)) x)) ;;
  zoom fs_lens (iupdate ip) ;;
  zoom fs_lens (iunlockput (Some ip)) ;;
  zoom klog_lens end_op ;;
  ret (-1).

Definition sys_link : M kst Z :=
  old <- argstr 0 MAXPATH ;;
  if fst old <? 0 then ret (-1) else
  new <- argstr 1 MAXPATH ;;
  if fst new <? 0 then ret (-1) else
  zoom klog_lens begin_op ;;
  r <- namei (snd old) ;;
  match r with
  | None => zoom klog_lens end_op ;; ret (-1)
  | Some ip =>
      zoom fs_lens (ilock (Some ip)) ;;
      x <- zoom fs_lens (get_inode ip) ;;
      if i_type x =? T_DIR then
        zoom fs_lens (iunlockput (Some ip)) ;;
        zoom klog_lens end_op ;;
        ret (-1)
      else
        zoom fs_lens (upd_inode ip (fun x => set_nlink (s16 (i_nlink x + 1)) x)) ;;
        zoom fs_lens (iupdate ip) ;;
        zoom fs_lens (iunlock (Some ip)) ;;
        r <- nameiparent (snd new) ;;
        match r with
        | None => link_bad ip
        | Some (dp, name) =>
            zoom fs_lens (ilock (Some dp)) ;;
            d <- zoom fs_lens (get_inode dp) ;;
            x <- zoom fs_lens (get_inode ip) ;;
            r <- (if negb (i_dev d =? i_dev x) then ret (-1) else dirlink dp name (i_inum x)) ;;
            if r <? 0 then
              zoom fs_lens (iunlockput (Some dp)) ;;
              link_bad ip
            else
              zoom fs_lens (iunlockput (Some dp)) ;;
              zoom fs_lens (iput ip) ;;
              zoom klog_lens end_op ;;
              ret 0
        end
  end.

Definition isdirempty (dp : nat) : M kst Z :=
  x <- zoom fs_lens (get_inode dp) ;;
  loop (S (Z.to_nat (i_size x / DIRENT + 1))) (fun off =>
    x <- zoom fs_lens (get_inode dp) ;;
    if off <? i_size x then
      r <- readi dp DKern off DIRENT ;;
      if negb (fst r =? DIRENT) then panic "isdirempty: readi" else
      if negb (de_inum (snd r) =? 0) then ret (inr 0) else ret (inl (off + DIRENT))
    else ret (inr 1)) (2 * DIRENT).

(** [goto bad] in [sys_unlink] *)
Definition unlink_bad (dp : nat) : M kst Z :=
  zoom fs_lens (iunlockput (Some dp)) ;;
  zoom klog_lens end_op ;;
  ret (-1).

Definition sys_unlink : M kst Z :=
  path <- argstr 0 MAXPATH ;;
  if fst path <? 0 then ret (-1) else
  zoom klog_lens begin_op ;;
  r <- nameiparent (snd path) ;;
  match r with
  | None => zoom klog_lens end_op ;; ret (-1)
  | Some (dp, name) =>
      zoom fs_lens (ilock (Some dp)) ;;
      if (namecmp name (bytes_of ".") =? 0) || (namecmp name (bytes_of "..") =? 0) then unlink_bad dp else
      r <- dirlookup dp name ;;
      match r with
      | None => unlink_bad dp
      | Some (ip, off) =>
          zoom fs_lens (ilock (Some ip)) ;;
          x <- zoom fs_lens (get_inode ip) ;;
          if i_nlink x <? 1 then panic "unlink: nlink < 1" else
          e <- (if i_type x =? T_DIR then isdirempty ip else ret 1) ;;
          if e =? 0 then
            zoom fs_lens (iunlockput (Some ip)) ;;
            unlink_bad dp
          else
            n <- writei dp (SKern (replicate (Z.to_nat DIRENT) 0)) off DIRENT ;;
            if negb (n =? DIRENT) then panic "unlink: writei" else
            x <- zoom fs_lens (get_inode ip) ;;
            (if i_type x =? T_DIR then
               zoom fs_lens (upd_inode dp (fun d => set_nlink (s16 (i_nlink d - 1)) d)) ;;
               zoom fs_lens (iupdate dp)
             else ret tt) ;;
            zoom fs_lens (iunlockput (Some dp)) ;;
            zoom fs_lens (upd_inode ip (fun x => set_nlink (s16 (i_nlink x - 1)) x)) ;;
            zoom fs_lens (iupdate ip) ;;
            zoom fs_lens (iunlockput (Some ip)) ;;
            zoom klog_lens end_op ;;
            ret 0
      end
  end.

(** [goto fail] in [create] *)
Definition create_fail (ip dp : nat) : M kst (option nat) :=
  zoom fs_lens (upd_inode ip (set_nlink 0)) ;;
  zoom fs_lens (iupdate ip) ;;
  zoom fs_lens (iunlockput (Some ip)) ;;
  zoom fs_lens (iunlockput (Some dp)) ;;
  ret None.

Definition create (path : list Z) (type major minor : Z) : M kst (option nat) :=
  r <- nameiparent path ;;
  match r with
  | None => ret None
  | Some (dp, name) =>
      zoom fs_lens (ilock (Some dp)) ;;
      r <- dirlookup dp name ;;
      match r with
      | Some (ip, _) =>
          zoom fs_lens (iunlockput (Some dp)) ;;
          zoom fs_lens (ilock (Some ip)) ;;
          x <- zoom fs_lens (get_inode ip) ;;
          if (type =? T_FILE) && ((i_type x =? T_FILE) || (i_type x =? T_DEVICE)) then ret (Some ip) else
          zoom fs_lens (iunlockput (Some ip)) ;;
          ret None
      | None =>
          d <- zoom fs_lens (get_inode dp) ;;
          r <- zoom fs_lens (ialloc (i_dev d) type) ;;
          match r with
          | None => zoom fs_lens (iunlockput (Some dp)) ;; ret None
          | Some ip =>
              zoom fs_lens (ilock (Some ip)) ;;
              zoom fs_lens (upd_inode ip (set_devno major minor)) ;;
              zoom fs_lens (upd_inode ip (set_nlink 1)) ;;
              zoom fs_lens (iupdate ip) ;;
              x <- zoom fs_lens (get_inode ip) ;;
              d <- zoom fs_lens (get_inode dp) ;;
              ok <- (if type =? T_DIR then
                       r <- dirlink ip (bytes_of ".") (i_inum x) ;;
                       if r <? 0 then ret false else
                       r <- dirlink ip (bytes_of "..") (i_inum d) ;;
                       ret (negb (r <? 0))
                     else ret true) ;;
              if negb ok then create_fail ip dp else
              r <- dirlink dp name (i_inum x) ;;
              if r <? 0 then create_fail ip dp else
              (if type =? T_DIR then
                 zoom fs_lens (upd_inode dp (fun d => set_nlink (s16 (i_nlink d + 1)) d)) ;;
                 zoom fs_lens (iupdate dp)
               else ret tt) ;;
              zoom fs_lens (iunlockput (Some dp)) ;;
              ret (Some ip)
          end
      end
  end.

(** The paths out of [sys_open] that give the inode up. *)
Definition open_bad (ip : nat) : M kst Z :=
  zoom fs_lens (iunlockput (Some ip)) ;;
  zoom klog_lens end_op ;;
  ret (-1).

Definition sys_open : M kst Z :=
  omode <- argint 1 ;;
  path <- argstr 0 MAXPATH ;;
  if fst path <? 0 then ret (-1) else
  zoom klog_lens begin_op ;;
  (* The locked inode, or [None] once -1 is decided. *)
  r <- (if negb (Z.land omode O_CREATE =? 0) then
          r <- create (snd path) T_FILE 0 0 ;;
          match r with
          | None => zoom klog_lens end_op ;; ret None
          | Some ip => ret (Some ip)
          end
        else
          r <- namei (snd path) ;;
          match r with
          | None => zoom klog_lens end_op ;; ret None
          | Some ip =>
              zoom fs_lens (ilock (Some ip)) ;;
              x <- zoom fs_lens (get_inode ip) ;;
              if (i_type x =? T_DIR) && negb (omode =? O_RDONLY) then open_bad ip ;; ret None
              else ret (Some ip)
          end) ;;
  match r with
  | None => ret (-1)
  | Some ip =>
      x <- zoom fs_lens (get_inode ip) ;;
      if (i_type x =? T_DEVICE) && ((i_major x <? 0) || (i_major x >=? NDEV)) then open_bad ip else
      f <- filealloc ;;
      match f with
      | None => open_bad ip
      | Some f =>
          fd <- fdalloc f ;;
          if fd <? 0 then fileclose f ;; open_bad ip else
          (if i_type x =? T_DEVICE then
             upd_file f (fun y => mkfile FD_DEVICE (f_ref y) (f_readable y) (f_writable y) (f_pipe y) (f_ip y) (f_off y) (i_major x))
           else
             upd_file f (fun y => mkfile FD_INODE (f_ref y) (f_readable y) (f_writable y) (f_pipe y) (f_ip y) 0 (f_major y))) ;;
          upd_file f (fun y => mkfile (f_type y) (f_ref y) (if Z.land omode O_WRONLY =? 0 then 1 else 0)
            (if (Z.land omode O_WRONLY =? 0) && (Z.land omode O_RDWR =? 0) then 0 else 1) (f_pipe y) ip (f_off y) (f_major y)) ;;
          (if negb (Z.land omode O_TRUNC =? 0) && (i_type x =? T_FILE) then zoom fs_lens (itrunc ip) else ret tt) ;;
          zoom fs_lens (iunlock (Some ip)) ;;
          zoom klog_lens end_op ;;
          ret fd
      end
  end.

Definition sys_mkdir : M kst Z :=
  zoom klog_lens begin_op ;;
  path <- argstr 0 MAXPATH ;;
  ip <- (if fst path <? 0 then ret None else create (snd path) T_DIR 0 0) ;;
  match ip with
  | None => zoom klog_lens end_op ;; ret (-1)
  | Some ip =>
      zoom fs_lens (iunlockput (Some ip)) ;;
      zoom klog_lens end_op ;;
      ret 0
  end.

(** [major] and [minor] are passed as [short]s. *)
Definition sys_mknod : M kst Z :=
  zoom klog_lens begin_op ;;
  major <- argint 1 ;;
  minor <- argint 2 ;;
  path <- argstr 0 MAXPATH ;;
  ip <- (if fst path <? 0 then ret None else create (snd path) T_DEVICE (s16 major) (s16 minor)) ;;
  match ip with
  | None => zoom klog_lens end_op ;; ret (-1)
  | Some ip =>
      zoom fs_lens (iunlockput (Some ip)) ;;
      zoom klog_lens end_op ;;
      ret 0
  end.

Definition sys_chdir : M kst Z :=
  p <- myproc ;;
  zoom klog_lens begin_op ;;
  path <- argstr 0 MAXPATH ;;
  ip <- (if fst path <? 0 then ret None else namei (snd path)) ;;
  match ip with
  | None => zoom klog_lens end_op ;; ret (-1)
  | Some ip =>
      zoom fs_lens (ilock (Some ip)) ;;
      x <- zoom fs_lens (get_inode ip) ;;
      if negb (i_type x =? T_DIR) then
        zoom fs_lens (iunlockput (Some ip)) ;;
        zoom klog_lens end_op ;;
        ret (-1)
      else
        zoom fs_lens (iunlock (Some ip)) ;;
        y <- get_proc p ;;
        zoom fs_lens (iput (default 0%nat (p_cwd y))) ;;
        zoom klog_lens end_op ;;
        upd_proc p (set_cwd (Some ip)) ;;
        ret 0
  end.

(** The loop fills [argv]; [true] when the null pointer was reached. *)
Definition exec_fetch (uargv : Z) : M kst (bool * list Z) :=
  loop (S (S (Z.to_nat MAXARG))) (fun st : Z * list Z => let '(i, argv) := st in
    if i >=? MAXARG then ret (inr (false, argv)) else
    r <- fetchaddr (u64 (uargv + 8 * i)) ;;
    if fst r <? 0 then ret (inr (false, argv)) else
    if snd r =? 0 then ret (inr (true, argv)) else
    pg <- zoom mem_lens kalloc ;;
    if pg =? 0 then ret (inr (false, argv)) else
    s <- fetchstr (snd r) PGSIZE ;;
    zoom mem_lens (upd_mem (fun m => store_bytes m pg (snd s))) ;;
    if fst s <? 0 then ret (inr (false, argv ++ [pg])) else ret (inl (i + 1, argv ++ [pg]))) (0, []).

Fixpoint kfree_all (l : list Z) : M kmem unit :=
  match l with
  | [] => ret tt
  | a :: l' => kfree a ;; kfree_all l'
  end.

Definition sys_exec : M kst Z :=
  uargv <- argaddr 1 ;;
  path <- argstr 0 MAXPATH ;;
  if fst path <? 0 then ret (-1) else
  r <- exec_fetch uargv ;;
  let '(ok, argv) := r in
  if (ok : bool) then
    r <- exec (snd path) argv ;;
    zoom mem_lens (kfree_all argv) ;;
    ret r
  else
    zoom mem_lens (kfree_all argv) ;;
    ret (-1).

Definition sys_pipe : M kst Z :=
  p <- myproc ;;
  fdarray <- argaddr 0 ;;
  r <- pipealloc ;;
  match r with
  | None => ret (-1)
  | Some (rf, wf) =>
      fd0 <- fdalloc rf ;;
      fd1 <- (if fd0 <? 0 then ret (-1) else fdalloc wf) ;;
      if fd1 <? 0 then
        (if fd0 >=? 0 then set_fd fd0 None else ret tt) ;;
        fileclose rf ;;
        fileclose wf ;;
        ret (-1)
      else
        x <- get_proc p ;;
        r <- zoom mem_lens (copyout (p_pagetable x) fdarray (int_bytes fd0) 4) ;;
        r <- (if r <? 0 then ret r else zoom mem_lens (copyout (p_pagetable x) (u64 (fdarray + 4)) (int_bytes fd1) 4)) ;;
        if r <? 0 then
          set_fd fd0 None ;;
          set_fd fd1 None ;;
          fileclose rf ;;
          fileclose wf ;;
          ret (-1)
        else ret 0
  end.

(** * Dispatch *)

(** kernel/syscall.h, and the table [syscalls]. *)
Definition syscalls (num : Z) : option (M kst Z) :=
  match num with
  | 1 => Some sys_fork | 2 => Some sys_exit | 3 => Some sys_wait | 4 => Some sys_pipe
  | 5 => Some sys_read | 6 => Some sys_kill | 7 => Some sys_exec | 8 => Some sys_fstat
  | 9 => Some sys_chdir | 10 => Some sys_dup | 11 => Some sys_getpid | 12 => Some sys_sbrk
  | 13 => Some sys_sleep | 14 => Some sys_uptime | 15 => Some sys_open | 16 => Some sys_write
  | 17 => Some sys_mknod | 18 => Some sys_unlink | 19 => Some sys_link | 20 => Some sys_mkdir
  | 21 => Some sys_close | 22 => Some sys_trace
  | _ => None
  end.

Definition syscall_names (num : Z) : string :=
  match num with
  | 1 => "fork" | 2 => "exit" | 3 => "wait" | 4 => "pipe" | 5 => "read" | 6 => "kill" | 7 => "exec"
  | 8 => "fstat" | 9 => "chdir" | 10 => "dup" | 11 => "getpid" | 12 => "sbrk" | 13 => "sleep"
  | 14 => "uptime" | 15 => "open" | 16 => "write" | 17 => "mknod" | 18 => "unlink" | 19 => "link"
  | 20 => "mkdir" | 21 => "close" | 22 => "trace" | _ => "(null)"
  end.

(** The [uint64] a handler returns is stored as such. *)
Definition syscall : M kst unit :=
  p <- myproc ;;
  a7 <- tf_get p TF_a7 ;;
  let num := s32 a7 in
  match (if num >? 0 then syscalls num else None) with
  | Some f =>
      r <- f ;;
      tf_set p TF_a0 (u64 r) ;;
      x <- get_proc p ;;
      if negb (Z.land (Z.shiftr (p_trace_mask x) num) 1 =? 0) then
        a0 <- tf_get p TF_a0 ;;
        printf ("%d: syscall %s -> %d" +:+ nl) [PInt (p_pid x); PStr (Some (bytes_of (syscall_names num))); PInt a0]
      else ret tt
  | None =>
      x <- get_proc p ;;
      printf ("%d %s: unknown sys call %d" +:+ nl) [PInt (p_pid x); PStr (Some (p_name x)); PInt num] ;;
      tf_set p TF_a0 (u64 (-1))
  end.
End syscall.
