(* ===== verification/SyscallProps.v ===== *)
(** System calls: dispatch and tracing. *)
From S2P Require Import Prelude Memory Riscv Kalloc Vm Sleeplock Bio Log LogTxn Fs State Process FsFile Uart Console Printf Pipe File ProcLife Exec Syscall.

#[local] Arguments loop : simpl never.

(** The value of a register the process saved at its trap. *)
Definition saved (s : kst) (p : nat) (off : Z) : Z := load64 (kmem_mem (k_mem s)) (p_trapframe (k_procs s p) + off).

(** [s'] is [s] with the register [a0] of process [p] set. *)
Record a0_set (p : nat) (v : Z) (s s' : kst) : Prop := {
  as_a0 : saved s' p TF_a0 = v;
  as_mem b : ~ (p_trapframe (k_procs s p) + TF_a0 <= b < p_trapframe (k_procs s p) + TF_a0 + 8) ->
    load8 (kmem_mem (k_mem s')) b = load8 (kmem_mem (k_mem s)) b;
  as_free : freelist (k_mem s') = freelist (k_mem s);
  as_rest : set_kmem (k_mem s) s' = s;
}.

Lemma a0_set_procs p v s s' : a0_set p v s s' -> k_procs s' = k_procs s.
Proof. intros [_ _ _ Hr]. exact (f_equal k_procs Hr). Qed.

(** The message prints as the text [l], in a kernel that has not panicked. *)
Definition prints (m : kmsg) (l : list Z) : Prop := forall c s, LPr ∉ held c -> u_panicked (pr_uart s) = 0 ->
  exists s', kprintf (Some (bytes_of (m_fmt m))) (m_args m) c s = Ret c s' tt /\ sent l (pr_uart s) (pr_uart s').

Lemma pieces_print m ps l : bytes_of (m_fmt m) = concat (piece_fmt <$> ps) -> m_args m = concat (piece_arg <$> ps) ->
  Forall piece_ok ps -> concat (piece_text <$> ps) = l -> prints m l.
Proof.
  intros Hf Ha Hok <- c s Hc Hp. rewrite Hf, Ha.
  destruct (wp_run (kprintf (Some (concat (piece_fmt <$> ps))) (concat (piece_arg <$> ps))) c s
    (fun s' _ => sent (concat (piece_text <$> ps)) (pr_uart s) (pr_uart s'))) as (s' & [] & Hr & Hs); [|by exists s'].
  by apply wp_kprintf.
Qed.

(** A number and its low 64 bits print the same. *)
Lemma dec_text_u64 x : dec_text (u64 x) = dec_text x.
Proof.
  unfold dec_text. assert (s32 (u64 x) = s32 x) as ->; [|done]. unfold s32, u64.
  rewrite <- Zplus_mod_idemp_l, Z.mod_mod_divide by (exists 4294967296; reflexivity). by rewrite Zplus_mod_idemp_l.
Qed.

(** [pid: syscall name -> result] *)
Definition trace_line (pid num r : Z) : list Z :=
  dec_text pid ++ bytes_of ": syscall " ++ bytes_of (syscall_names num) ++ bytes_of " -> " ++ dec_text r ++ bytes_of nl.
Definition unknown_line (pid : Z) (name : list Z) (num : Z) : list Z :=
  dec_text pid ++ bytes_of " " ++ until0 name ++ bytes_of ": unknown sys call " ++ dec_text num ++ bytes_of nl.

Lemma syscall_names_text num : forallb (fun x => (0 <? x) && (x <? 256)) (bytes_of (syscall_names num)) = true.
Proof. unfold syscall_names. repeat case_match; vm_compute; done. Qed.

Lemma until0_id l : forallb (fun x => (0 <? x) && (x <? 256)) l = true -> until0 l = l /\ Forall char l.
Proof.
  induction l as [|x l IH]; cbn [forallb until0]; [done|]. intros [[Hx Hx']%andb_true_iff Hl]%andb_true_iff. destruct (IH Hl) as [-> Hc].
  rewrite (proj2 (Z.eqb_neq x 0)) by lia. split; [done|]. apply Forall_cons. unfold char. split; [lia|done].
Qed.

Lemma trace_prints pid num r : prints (mkmsg ("%d: syscall %s -> %d" +:+ nl) [PInt pid; PStr (Some (bytes_of (syscall_names num))); PInt (u64 r)]) (trace_line pid num r).
Proof.
  destruct (until0_id _ (syscall_names_text num)) as [Hu Hc].
  eapply (pieces_print _ [Dec pid; Lit (bytes_of ": syscall "); Str (Some (bytes_of (syscall_names num))); Lit (bytes_of " -> "); Dec (u64 r); Lit (bytes_of nl)]).
  - vm_compute. done.
  - done.
  - rewrite !Forall_cons. split_and!; try done; by apply (Forall_inv (P:=piece_ok) (l:=[])), pieces_check.
  - unfold trace_line. cbn [fmap list_fmap concat piece_text]. by rewrite Hu, dec_text_u64, app_nil_r.
Qed.

Lemma unknown_prints pid name num : Forall char name ->
  prints (mkmsg ("%d %s: unknown sys call %d" +:+ nl) [PInt pid; PStr (Some name); PInt num]) (unknown_line pid name num).
Proof.
  intros Hc. eapply (pieces_print _ [Dec pid; Lit (bytes_of " "); Str (Some name); Lit (bytes_of ": unknown sys call "); Dec num; Lit (bytes_of nl)]).
  - vm_compute. done.
  - done.
  - rewrite !Forall_cons. split_and!; try done; by apply (Forall_inv (P:=piece_ok) (l:=[])), pieces_check.
  - unfold unknown_line. cbn [fmap list_fmap concat piece_text]. by rewrite app_nil_r.
Qed.

Section syscall.
Context `{Layout}.

Lemma tf_set_a0 p v c s : 0 <= v < 18446744073709551616 -> exists s', tf_set p TF_a0 v c s = Ret c s' tt /\ a0_set p v s s'.
Proof.
  intros Hv. exists (set_kmem (set_mem (store64 (kmem_mem (k_mem s)) (p_trapframe (k_procs s p) + TF_a0) v) (k_mem s)) s).
  split; [reflexivity|]. split; cbn [k_mem k_procs set_kmem kmem_mem set_mem freelist].
  - unfold saved. cbn [k_mem k_procs set_kmem kmem_mem set_mem]. by apply load64_store64.
  - intros b Hb. by apply load8_store64.
  - reflexivity.
  - by destruct s as [[]].
Qed.

Lemma mask_bit m n : 0 <= n -> negb (Z.land (Z.shiftr m n) 1 =? 0) = Z.testbit m n.
Proof.
  intros Hn. rewrite (Z.land_ones _ 1) by lia. rewrite <- Z.bit0_mod, Z.shiftr_spec, Z.add_0_l by lia. by destruct (Z.testbit m n).
Qed.

Lemma syscall_run c s num f c1 s1 r :
  num = s32 (saved s (me c) TF_a7) -> 0 < num -> syscalls num = Some f -> f c s = Ret c1 s1 r ->
  let x := k_procs s1 (me c) in
  exists s' msg, syscall c s = Ret (if Z.testbit (p_trace_mask x) num then set_printed (msg :: printed c1) c1 else c1) s' tt /\
    a0_set (me c) (u64 r) s1 s' /\ prints msg (trace_line (p_pid x) num r).
Proof.
  intros Hn Hpos Hf Hrun x. destruct (tf_set_a0 (me c) (u64 r) c1 s1) as (s' & Hs' & Ha).
  { unfold u64. apply Z.mod_pos_bound. lia. }
  exists s', (mkmsg ("%d: syscall %s -> %d" +:+ nl) [PInt (p_pid x); PStr (Some (bytes_of (syscall_names num))); PInt (u64 r)]).
  split_and!; [|done|apply trace_prints].
  unfold syscall, myproc, getcpu, bind at 1. cbn [obind]. unfold tf_get at 1. unfold bind at 1 2, get_proc, gets. cbn [obind].
  fold (saved s (me c) TF_a7). rewrite <- Hn. cbv zeta. rewrite (proj2 (Z.gtb_lt num 0)) by lia. rewrite Hf.
  unfold bind at 1. rewrite Hrun. cbn [obind]. unfold bind at 1. rewrite Hs'. cbn [obind]. unfold bind at 1. cbn [obind].
  rewrite (a0_set_procs _ _ _ _ Ha). fold x.
  rewrite mask_bit by lia. destruct (Z.testbit _ _); [|done].
  unfold tf_get, bind, get_proc, gets. cbn [obind]. fold (saved s' (me c) TF_a0). by rewrite (as_a0 _ _ _ _ Ha).
Qed.

(** C23: Dispatch and tracing. The call whose number is in [a7] runs; its result goes to the
    saved [a0] and nothing else changes. A line is printed exactly when the bit of the call's
    number is set in the process's mask as the call left it, and the line is
    [pid: syscall name -> result]. *)
Theorem syscall_traced c s num f c1 s1 r :
  num = s32 (saved s (me c) TF_a7) -> 0 < num -> syscalls num = Some f -> f c s = Ret c1 s1 r ->
  let x := k_procs s1 (me c) in
  exists s' msg, syscall c s = Ret (if Z.testbit (p_trace_mask x) num then set_printed (msg :: printed c1) c1 else c1) s' tt /\
    a0_set (me c) (u64 r) s1 s' /\ prints msg (trace_line (p_pid x) num r).
Proof. apply syscall_run. Qed.

(** C37: A call with a number that is not in the table changes nothing but the saved [a0],
    which becomes -1, and prints a line that says so. *)
Theorem syscall_unknown c s num :
  num = s32 (saved s (me c) TF_a7) -> num <= 0 \/ 22 < num -> Forall char (p_name (k_procs s (me c))) ->
  let x := k_procs s (me c) in
  exists s' msg, syscall c s = Ret (set_printed (msg :: printed c) c) s' tt /\
    a0_set (me c) 18446744073709551615 s s' /\ prints msg (unknown_line (p_pid x) (p_name x) num).
Proof.
  intros Hn Hout Hnm x. set (msg := mkmsg ("%d %s: unknown sys call %d" +:+ nl) [PInt (p_pid x); PStr (Some (p_name x)); PInt num]).
  destruct (tf_set_a0 (me c) 18446744073709551615 (set_printed (msg :: printed c) c) s) as (s' & Hs' & Ha); [lia|].
  exists s', msg. split_and!; [|done|by apply unknown_prints].
  assert ((if num >? 0 then syscalls num else None) = None) as Hno.
  { destruct (Z.gtb_spec num 0); [|done]. assert (22 < num) as Hbig by lia. unfold syscalls. repeat (case_match; try lia; try done). }
  unfold syscall, myproc, getcpu, bind at 1. cbn [obind]. unfold tf_get at 1. unfold bind at 1 2, get_proc, gets. cbn [obind].
  fold (saved s (me c) TF_a7). rewrite <- Hn. cbv zeta. rewrite Hno. exact Hs'.
Qed.

(** C38: The call [trace(mask)] sets the mask of the calling process to the low 32 bits of its
    argument and returns 0, and nothing else changes: no other process, no other field of the caller, no other saved
    register or byte of memory, no file, pipe or block. The new mask already decides whether the
    call itself is traced. *)
Theorem trace_sets_mask c s : s32 (saved s (me c) TF_a7) = 22 ->
  let mask := s32 (saved s (me c) TF_a0) in
  exists s' msg, syscall c s = Ret (if Z.testbit mask 22 then set_printed (msg :: printed c) c else c) s' tt /\
    a0_set (me c) 0 (set_procs (updn (me c) (set_trace_mask mask) (k_procs s)) s) s' /\
    prints msg (trace_line (p_pid (k_procs s (me c))) 22 0).
Proof.
  intros Hn mask. set (s1 := set_procs (updn (me c) (set_trace_mask mask) (k_procs s)) s).
  assert (k_procs s1 (me c) = set_trace_mask mask (k_procs s (me c))) as Hx by apply updn_eq.
  destruct (syscall_run c s 22 sys_trace c s1 0) as (s' & msg & Hrun & Ha & Hp); [done|lia|done|done|].
  rewrite Hx in Hrun, Hp. by exists s', msg.
Qed.
End syscall.

(** * Witnesses *)

Definition caller (mask : Z) : proc := set_trace_mask mask (small_proc 7).
(** Call number [num] with first argument [a]. *)
Definition calling (num a mask : Z) : kst :=
  small_kst (mkkmem (store64 (store64 (fun _ => 0) (0x87000000 + TF_a7) num) (0x87000000 + TF_a0) a) 0) (fun _ => caller mask).

Lemma saved_a7 num a mask : 0 <= num < 18446744073709551616 -> saved (calling num a mask) 3 TF_a7 = num.
Proof.
  intros Hn. unfold saved, calling. cbn [k_mem small_kst kmem_mem k_procs caller small_proc set_trace_mask p_trapframe].
  rewrite load64_store64_ne by (unfold TF_a0, TF_a7; lia). by apply load64_store64.
Qed.

Lemma syscall_traced_witness : exists s' msg,
  syscall cpu3 (calling 11 0 2048) = Ret (set_printed [msg] cpu3) s' tt /\ prints msg (bytes_of "7: syscall getpid -> 7" ++ [10]).
Proof.
  destruct (syscall_traced cpu3 (calling 11 0 2048) 11 sys_getpid cpu3 (calling 11 0 2048) 7) as (s' & msg & Hr & _ & Hp).
  - change (me cpu3) with 3%nat. by rewrite saved_a7 by lia.
  - lia.
  - reflexivity.
  - reflexivity.
  - exists s', msg. split; [exact Hr|exact Hp].
Defined.

Lemma syscall_unknown_witness : exists s' msg,
  syscall cpu3 (calling 23 0 0) = Ret (set_printed [msg] cpu3) s' tt /\ prints msg (bytes_of "7 sh: unknown sys call 23" ++ [10]).
Proof.
  destruct (syscall_unknown cpu3 (calling 23 0 0) 23) as (s' & msg & Hr & _ & Hp).
  - change (me cpu3) with 3%nat. by rewrite saved_a7 by lia.
  - lia.
  - cbn. repeat (apply Forall_cons; split; [unfold char; lia|]). apply Forall_nil_2.
  - exists s', msg. split; [exact Hr|exact Hp].
Defined.

Lemma trace_sets_mask_witness : exists s' c', syscall cpu3 (calling 22 2147483647 0) = Ret c' s' tt /\
  p_trace_mask (k_procs s' 3) = 2147483647 /\ k_files s' = k_files (calling 22 2147483647 0).
Proof.
  destruct (trace_sets_mask cpu3 (calling 22 2147483647 0)) as (s' & msg & Hr & Ha & _).
  - change (me cpu3) with 3%nat. by rewrite saved_a7 by lia.
  - eexists s', _. split; [exact Hr|]. split; [|exact (f_equal k_files (as_rest _ _ _ _ Ha))].
    rewrite (a0_set_procs _ _ _ _ Ha). cbn [k_procs set_procs]. change (updn (me cpu3)) with (updn (A := proc) 3). rewrite updn_eq. cbn [set_trace_mask p_trace_mask]. unfold saved, calling. cbn [k_mem small_kst kmem_mem k_procs caller small_proc set_trace_mask p_trapframe me cpu3].
    rewrite load64_store64 by lia. reflexivity.
Defined.
