(* ===== verification/Virtio.v ===== *)
(** The virtio disk driver, kernel/virtio_disk.c.

    The state holds [struct disk] with its descriptor table and rings, the fields of the
    buffers the driver uses, the memory-mapped registers, and the disk. Addresses stored in
    descriptors name what they point to. The device, and the driver's threads and interrupt
    handler running beside it, are in VirtioSys.v. *)
From S2P Require Import Prelude Memory Riscv Kalloc Sleeplock Bio.

Definition NUM : nat := 8.
Definition VRING_DESC_F_NEXT : Z := 1.
Definition VRING_DESC_F_WRITE : Z := 2.
Definition VIRTIO_BLK_T_IN : Z := 0.
Definition VIRTIO_BLK_T_OUT : Z := 1.

(** Register offsets. *)
Definition MMIO_MAGIC_VALUE : Z := 0x000.
Definition MMIO_VERSION : Z := 0x004.
Definition MMIO_DEVICE_ID : Z := 0x008.
Definition MMIO_VENDOR_ID : Z := 0x00c.
Definition MMIO_DEVICE_FEATURES : Z := 0x010.
Definition MMIO_DRIVER_FEATURES : Z := 0x020.
Definition MMIO_QUEUE_SEL : Z := 0x030.
Definition MMIO_QUEUE_NUM_MAX : Z := 0x034.
Definition MMIO_QUEUE_NUM : Z := 0x038.
Definition MMIO_QUEUE_READY : Z := 0x044.
Definition MMIO_QUEUE_NOTIFY : Z := 0x050.
Definition MMIO_INTERRUPT_STATUS : Z := 0x060.
Definition MMIO_INTERRUPT_ACK : Z := 0x064.
Definition MMIO_STATUS : Z := 0x070.
Definition MMIO_QUEUE_DESC_LOW : Z := 0x080.
Definition MMIO_QUEUE_DESC_HIGH : Z := 0x084.
Definition MMIO_DRIVER_DESC_LOW : Z := 0x090.
Definition MMIO_DRIVER_DESC_HIGH : Z := 0x094.
Definition MMIO_DEVICE_DESC_LOW : Z := 0x0a0.
Definition MMIO_DEVICE_DESC_HIGH : Z := 0x0a4.

Definition S_ACKNOWLEDGE : Z := 1.
Definition S_DRIVER : Z := 2.
Definition S_DRIVER_OK : Z := 4.
Definition S_FEATURES_OK : Z := 8.

(** The feature bits the driver refuses. *)
Definition refused : list Z := [5; 7; 11; 12; 27; 29; 28].

Inductive vaddr := VNull | VOps (i : nat) | VData (b : nat) | VStatus (i : nat).
Record vdesc := mkvdesc { vd_addr : vaddr; vd_len : Z; vd_flags : Z; vd_next : Z }.
Record vreq := mkvreq { vr_type : Z; vr_reserved : Z; vr_sector : Z }.
(** The fields of [struct buf] the driver uses. *)
Record vbuf := mkvbuf { vb_disk : Z; vb_blockno : Z; vb_data : list Z }.

Record vdisk := mkvdisk {
  v_desc : nat -> vdesc; v_ring : nat -> Z; v_avail_idx : Z; v_used_ring : nat -> Z; v_dev_used_idx : Z;
  v_free : nat -> Z; v_used_idx : Z; v_info_b : nat -> option nat; v_status : nat -> Z; v_ops : nat -> vreq;
  v_bufs : nat -> vbuf;
  (** the device: registers as read, the writes to them, how far it has read the available
      ring, and the disk, by 1024-byte blocks *)
  v_mmio : Z -> Z; v_writes : list (Z * Z); v_seen : Z; v_store : Z -> list Z }.

Definition upd {A} (g : nat -> A) (i : nat) (v : A) : nat -> A := fun j => if decide (j = i) then v else g j.

Definition set_desc (g : nat -> vdesc) (s : vdisk) : vdisk :=
  mkvdisk g (v_ring s) (v_avail_idx s) (v_used_ring s) (v_dev_used_idx s) (v_free s) (v_used_idx s) (v_info_b s) (v_status s) (v_ops s) (v_bufs s) (v_mmio s) (v_writes s) (v_seen s) (v_store s).
Definition set_avail (r : nat -> Z) (i : Z) (s : vdisk) : vdisk :=
  mkvdisk (v_desc s) r i (v_used_ring s) (v_dev_used_idx s) (v_free s) (v_used_idx s) (v_info_b s) (v_status s) (v_ops s) (v_bufs s) (v_mmio s) (v_writes s) (v_seen s) (v_store s).
Definition set_free (g : nat -> Z) (s : vdisk) : vdisk :=
  mkvdisk (v_desc s) (v_ring s) (v_avail_idx s) (v_used_ring s) (v_dev_used_idx s) g (v_used_idx s) (v_info_b s) (v_status s) (v_ops s) (v_bufs s) (v_mmio s) (v_writes s) (v_seen s) (v_store s).
Definition set_used_idx (n : Z) (s : vdisk) : vdisk :=
  mkvdisk (v_desc s) (v_ring s) (v_avail_idx s) (v_used_ring s) (v_dev_used_idx s) (v_free s) n (v_info_b s) (v_status s) (v_ops s) (v_bufs s) (v_mmio s) (v_writes s) (v_seen s) (v_store s).
Definition set_info (b : nat -> option nat) (st : nat -> Z) (s : vdisk) : vdisk :=
  mkvdisk (v_desc s) (v_ring s) (v_avail_idx s) (v_used_ring s) (v_dev_used_idx s) (v_free s) (v_used_idx s) b st (v_ops s) (v_bufs s) (v_mmio s) (v_writes s) (v_seen s) (v_store s).
Definition set_ops (g : nat -> vreq) (s : vdisk) : vdisk :=
  mkvdisk (v_desc s) (v_ring s) (v_avail_idx s) (v_used_ring s) (v_dev_used_idx s) (v_free s) (v_used_idx s) (v_info_b s) (v_status s) g (v_bufs s) (v_mmio s) (v_writes s) (v_seen s) (v_store s).
Definition set_vbufs (g : nat -> vbuf) (s : vdisk) : vdisk :=
  mkvdisk (v_desc s) (v_ring s) (v_avail_idx s) (v_used_ring s) (v_dev_used_idx s) (v_free s) (v_used_idx s) (v_info_b s) (v_status s) (v_ops s) g (v_mmio s) (v_writes s) (v_seen s) (v_store s).
Definition set_writes (l : list (Z * Z)) (s : vdisk) : vdisk :=
  mkvdisk (v_desc s) (v_ring s) (v_avail_idx s) (v_used_ring s) (v_dev_used_idx s) (v_free s) (v_used_idx s) (v_info_b s) (v_status s) (v_ops s) (v_bufs s) (v_mmio s) l (v_seen s) (v_store s).
Definition set_mmio (g : Z -> Z) (s : vdisk) : vdisk :=
  mkvdisk (v_desc s) (v_ring s) (v_avail_idx s) (v_used_ring s) (v_dev_used_idx s) (v_free s) (v_used_idx s) (v_info_b s) (v_status s) (v_ops s) (v_bufs s) g (v_writes s) (v_seen s) (v_store s).
(** The device's own steps: what it has taken, what it has finished, what it has transferred. *)
Definition set_seen (seen : Z) (s : vdisk) : vdisk :=
  mkvdisk (v_desc s) (v_ring s) (v_avail_idx s) (v_used_ring s) (v_dev_used_idx s) (v_free s) (v_used_idx s) (v_info_b s) (v_status s) (v_ops s) (v_bufs s) (v_mmio s) (v_writes s) seen (v_store s).
Definition set_used (used : nat -> Z) (uidx : Z) (st : nat -> Z) (s : vdisk) : vdisk :=
  mkvdisk (v_desc s) (v_ring s) (v_avail_idx s) used uidx (v_free s) (v_used_idx s) (v_info_b s) st (v_ops s) (v_bufs s) (v_mmio s) (v_writes s) (v_seen s) (v_store s).
Definition set_store (store : Z -> list Z) (s : vdisk) : vdisk :=
  mkvdisk (v_desc s) (v_ring s) (v_avail_idx s) (v_used_ring s) (v_dev_used_idx s) (v_free s) (v_used_idx s) (v_info_b s) (v_status s) (v_ops s) (v_bufs s) (v_mmio s) (v_writes s) (v_seen s) store.

(** What a write does to the registers as read later: InterruptACK clears bits of
    InterruptStatus, and QueueNotify, which is only written, is 1 until the device has looked
    at the queue. *)
Definition reg_write (r v : Z) (g : Z -> Z) : Z -> Z :=
  if r =? MMIO_INTERRUPT_ACK then fun x => if x =? MMIO_INTERRUPT_STATUS then Z.land (g x) (Z.lnot v) else g x
  else if r =? MMIO_QUEUE_NOTIFY then fun x => if x =? MMIO_QUEUE_NOTIFY then 1 else g x
  else g.

Definition read_mmio (r : Z) : M vdisk Z := gets (fun s => v_mmio s r).
Definition write_mmio (r v : Z) : M vdisk unit := 
  modify (fun s => set_mmio (reg_write r v (v_mmio s)) (set_writes ((r, v) :: v_writes s) s)).

(** [__sync_synchronize()]: it changes nothing, and separates what the device sees before from
    what it sees after. *)
Definition fence : M vdisk unit := ret tt.

Definition set_desc_at (i : nat) (f : vdesc -> vdesc) : M vdisk unit :=
  modify (fun s => set_desc (upd (v_desc s) i (f (v_desc s i))) s).

(** * Descriptors *)

Definition alloc_desc : M vdisk Z :=
  loop (S NUM) (fun i =>
    if Nat.ltb i NUM then
      f <- gets (fun s => v_free s i) ;;
      if negb (f =? 0) then
        modify (fun s => set_free (upd (v_free s) i 0) s) ;;
        ret (inr (Z.of_nat i))
      else ret (inl (S i))
    else ret (inr (-1))) 0%nat.

Definition free_desc (i : Z) : M vdisk unit :=
  if i >=? Z.of_nat NUM then panic "free_desc 1" else
  let i := Z.to_nat i in
  f <- gets (fun s => v_free s i) ;;
  if negb (f =? 0) then panic "free_desc 2" else
  set_desc_at i (fun _ => mkvdesc VNull 0 0 0) ;;
  modify (fun s => set_free (upd (v_free s) i 1) s) ;;
  wakeup ChDiskFree.

(** A chain has at most [NUM] descriptors: freeing one twice panics. *)
Definition free_chain (i : Z) : M vdisk unit :=
  loop (S NUM) (fun i =>
    d <- gets (fun s => v_desc s (Z.to_nat i)) ;;
    free_desc i ;;
    if negb (Z.land (vd_flags d) VRING_DESC_F_NEXT =? 0) then ret (inl (vd_next d)) else ret (inr tt)) i.

(** [idx] on success; on failure what was allocated is given back. *)
Definition alloc3_desc : M vdisk (option (Z * Z * Z)) :=
  a <- alloc_desc ;;
  if a <? 0 then ret None else
  b <- alloc_desc ;;
  if b <? 0 then free_desc a ;; ret None else
  c <- alloc_desc ;;
  if c <? 0 then free_desc a ;; free_desc b ;; ret None else
  ret (Some (a, b, c)).

(** * Requests

    The pieces of [virtio_disk_rw] and [virtio_disk_intr] between the points where the lock is
    released or the device's writes matter; VirtioSys.v puts them together. *)

(** [virtio_disk_rw] formats the three descriptors, and says which buffer they are for. *)
Definition format (idx : Z * Z * Z) (b : nat) (write : bool) (sector : Z) : M vdisk unit :=
  let '(i0, i1, i2) := idx in
  let n0 := Z.to_nat i0 in
  modify (fun s => set_ops (upd (v_ops s) n0 (mkvreq (if write then VIRTIO_BLK_T_OUT else VIRTIO_BLK_T_IN) 0 sector)) s) ;;
  set_desc_at n0 (fun _ => mkvdesc (VOps n0) 16 VRING_DESC_F_NEXT i1) ;;
  set_desc_at (Z.to_nat i1) (fun _ => mkvdesc (VData b) BSIZE
    (Z.lor (if write then 0 else VRING_DESC_F_WRITE) VRING_DESC_F_NEXT) i2) ;;
  modify (fun s => set_info (v_info_b s) (upd (v_status s) n0 0xff) s) ;;
  set_desc_at (Z.to_nat i2) (fun _ => mkvdesc (VStatus n0) 1 VRING_DESC_F_WRITE 0) ;;
  modify (fun s => set_vbufs (upd (v_bufs s) b (mkvbuf 1 (vb_blockno (v_bufs s b)) (vb_data (v_bufs s b)))) s) ;;
  modify (fun s => set_info (upd (v_info_b s) n0 (Some b)) (v_status s) s).

(** [disk.avail->ring[disk.avail->idx % NUM] = idx[0]] *)
Definition put_avail (idx : Z * Z * Z) : M vdisk unit :=
  modify (fun s => set_avail (upd (v_ring s) (Z.to_nat (v_avail_idx s mod Z.of_nat NUM)) (fst (fst idx))) (v_avail_idx s) s).

(** [disk.avail->idx += 1] *)
Definition bump_avail : M vdisk unit :=
  modify (fun s => set_avail (v_ring s) (u16 (v_avail_idx s + 1)) s).

Definition notify : M vdisk unit := write_mmio MMIO_QUEUE_NOTIFY 0.

Definition rw_sector (blockno : Z) : Z := u32 (blockno * (BSIZE / 512)).

(** The end of [virtio_disk_rw], before the lock is released. *)
Definition rw_finish (idx : Z * Z * Z) : M vdisk unit :=
  modify (fun s => set_info (upd (v_info_b s) (Z.to_nat (fst (fst idx))) None) (v_status s) s) ;;
  free_chain (fst (fst idx)).

(** [disk.used_idx != disk.used->idx] *)
Definition intr_more : M vdisk bool := gets (fun s => negb (v_used_idx s =? v_dev_used_idx s)).

(** The completion of one request by the interrupt handler. *)
Definition intr_one : M vdisk unit :=
  s <- gets (fun s => s) ;;
  let id := Z.to_nat (v_used_ring s (Z.to_nat (v_used_idx s mod Z.of_nat NUM))) in
  if negb (v_status s id =? 0) then panic "virtio_disk_intr status" else
  match v_info_b s id with
  | None => panic "undefined: virtio_disk_intr"
  | Some b =>
      modify (fun s => set_vbufs (upd (v_bufs s) b (mkvbuf 0 (vb_blockno (v_bufs s b)) (vb_data (v_bufs s b)))) s) ;;
      wakeup (ChBuf b) ;;
      modify (fun s => set_used_idx (u16 (v_used_idx s + 1)) s)
  end.

(** At most [NUM] requests are in flight, so as many completions are pending. *)
Definition virtio_disk_intr : M vdisk unit :=
  acquire LVdisk ;;
  st <- read_mmio MMIO_INTERRUPT_STATUS ;;
  write_mmio MMIO_INTERRUPT_ACK (Z.land st 3) ;;
  fence ;;
  loop (S NUM) (fun _ : unit =>
    m <- intr_more ;;
    if m then fence ;; intr_one ;; ret (inl tt) else ret (inr tt)) tt ;;
  release LVdisk.

(** * Initialisation *)

Definition clear_bits (x : Z) (l : list Z) : Z := foldl (fun x b => Z.land x (Z.lnot (Z.shiftl 1 b))) x l.

Definition kdisk_mem : lens (kmem * vdisk) kmem := mklens fst (fun x s => (x, snd s)).
Definition kdisk_dev : lens (kmem * vdisk) vdisk := mklens snd (fun x s => (fst s, x)).

Section init.
Context `{Layout}.

(** The three queue pages are zeroed: all descriptors, ring entries and indices are 0. *)
Definition virtio_disk_init : M (kmem * vdisk) unit :=
  initlock LVdisk ;;
  m <- zoom kdisk_dev (read_mmio MMIO_MAGIC_VALUE) ;;
  v <- zoom kdisk_dev (read_mmio MMIO_VERSION) ;;
  d <- zoom kdisk_dev (read_mmio MMIO_DEVICE_ID) ;;
  n <- zoom kdisk_dev (read_mmio MMIO_VENDOR_ID) ;;
  if negb (m =? 0x74726976) || negb (v =? 2) || negb (d =? 2) || negb (n =? 0x554d4551)
  then panic "could not find virtio disk" else
  zoom kdisk_dev (write_mmio MMIO_STATUS 0) ;;
  zoom kdisk_dev (write_mmio MMIO_STATUS S_ACKNOWLEDGE) ;;
  zoom kdisk_dev (write_mmio MMIO_STATUS (Z.lor S_ACKNOWLEDGE S_DRIVER)) ;;
  features <- zoom kdisk_dev (read_mmio MMIO_DEVICE_FEATURES) ;;
  zoom kdisk_dev (write_mmio MMIO_DRIVER_FEATURES (u32 (clear_bits features refused))) ;;
  zoom kdisk_dev (write_mmio MMIO_STATUS (Z.lor (Z.lor S_ACKNOWLEDGE S_DRIVER) S_FEATURES_OK)) ;;
  status <- zoom kdisk_dev (read_mmio MMIO_STATUS) ;;
  if Z.land status S_FEATURES_OK =? 0 then panic "virtio disk FEATURES_OK unset" else
  zoom kdisk_dev (write_mmio MMIO_QUEUE_SEL 0) ;;
  r <- zoom kdisk_dev (read_mmio MMIO_QUEUE_READY) ;;
  if negb (r =? 0) then panic "virtio disk should not be ready" else
  max <- zoom kdisk_dev (read_mmio MMIO_QUEUE_NUM_MAX) ;;
  if max =? 0 then panic "virtio disk has no queue 0" else
  if max <? Z.of_nat NUM then panic "virtio disk max queue too short" else
  desc <- zoom kdisk_mem kalloc ;;
  avail <- zoom kdisk_mem kalloc ;;
  used <- zoom kdisk_mem kalloc ;;
  if (desc =? 0) || (avail =? 0) || (used =? 0) then panic "virtio disk kalloc" else
  zoom kdisk_mem (upd_mem (fun m => memset m desc 0 PGSIZE)) ;;
  zoom kdisk_mem (upd_mem (fun m => memset m avail 0 PGSIZE)) ;;
  zoom kdisk_mem (upd_mem (fun m => memset m used 0 PGSIZE)) ;;
  zoom kdisk_dev (modify (fun s => mkvdisk (fun _ => mkvdesc VNull 0 0 0) (fun _ => 0) 0 (fun _ => 0) 0 (v_free s) (v_used_idx s)
    (v_info_b s) (v_status s) (v_ops s) (v_bufs s) (v_mmio s) (v_writes s) (v_seen s) (v_store s))) ;;
  zoom kdisk_dev (write_mmio MMIO_QUEUE_NUM (Z.of_nat NUM)) ;;
  zoom kdisk_dev (write_mmio MMIO_QUEUE_DESC_LOW (u32 desc)) ;;
  zoom kdisk_dev (write_mmio MMIO_QUEUE_DESC_HIGH (Z.shiftr desc 32)) ;;
  zoom kdisk_dev (write_mmio MMIO_DRIVER_DESC_LOW (u32 avail)) ;;
  zoom kdisk_dev (write_mmio MMIO_DRIVER_DESC_HIGH (Z.shiftr avail 32)) ;;
  zoom kdisk_dev (write_mmio MMIO_DEVICE_DESC_LOW (u32 used)) ;;
  zoom kdisk_dev (write_mmio MMIO_DEVICE_DESC_HIGH (Z.shiftr used 32)) ;;
  zoom kdisk_dev (write_mmio MMIO_QUEUE_READY 1) ;;
  zoom kdisk_dev (loop (S NUM) (fun i =>
    if Nat.ltb i NUM then modify (fun s => set_free (upd (v_free s) i 1) s) ;; ret (inl (S i)) else ret (inr tt)) 0%nat) ;;
  zoom kdisk_dev (write_mmio MMIO_STATUS (Z.lor status S_DRIVER_OK)).
End init.
