(* ===== verification/VirtioSys.v ===== *)
(** The disk driver at work: any number of threads in [virtio_disk_rw], the interrupt handler
    [virtio_disk_intr], and the device, all running beside each other on the shared rings.

    A thread is a program counter; between two of them it runs a segment of the code of
    kernel/virtio_disk.c with [vdisk_lock] held. The cuts are the fences and the places where
    the lock is released. A segment touches memory the device is using at most once (one index,
    one register), so a device step in the middle of it is also one before or after it.

    The device is what the VIRTIO specification asks of a block device, and no more: it may
    look at the queue at any time, finish requests in any order, leave the target of an
    unfinished transfer in any state, fail any request, and do anything at all when a chain
    is not well formed. *)
From S2P Require Import Prelude Memory Riscv Kalloc Sleeplock Bio Virtio.

(** * Threads *)

Inductive pc :=
| TIdle
(** in the loop around [alloc3_desc], asleep on [&disk.free[0]] unless [awake] *)
| TDesc (b : nat) (write : bool) (sector : Z) (awake : bool)
(** at the fence after the ring entry is written *)
| TRing (idx : Z * Z * Z) (b : nat)
(** at the fence after [disk.avail->idx] is incremented *)
| TAvail (idx : Z * Z * Z) (b : nat)
(** in the loop [while(b->disk == 1)], asleep on [b] unless [awake] *)
| TWait (idx : Z * Z * Z) (b : nat) (awake : bool)
(** in the handler: InterruptStatus has been read; at the test of the loop; in its body *)
| TAck (st : Z)
| TLoop
| TOne.

(** The test of [while(b->disk == 1)], and what follows the loop. *)
Definition rw_check (idx : Z * Z * Z) (b : nat) : M vdisk pc :=
  d <- gets (fun s => vb_disk (v_bufs s b)) ;;
  if d =? 1 then ret (TWait idx b false) else rw_finish idx ;; ret TIdle.

(** The code from one program counter to the next. *)
Definition segment (p : pc) : M vdisk pc :=
  match p with
  | TIdle => ret TIdle
  | TDesc b write sector _ =>
      r <- alloc3_desc ;;
      match r with
      | None => ret (TDesc b write sector false)
      | Some idx => format idx b write sector ;; put_avail idx ;; ret (TRing idx b)
      end
  | TRing idx b => bump_avail ;; ret (TAvail idx b)
  | TAvail idx b => notify ;; rw_check idx b
  | TWait idx b _ => rw_check idx b
  | TAck st => write_mmio MMIO_INTERRUPT_ACK (Z.land st 3) ;; ret TLoop
  | TLoop => m <- intr_more ;; ret (if m then TOne else TIdle)
  | TOne => intr_one ;; ret TLoop
  end.

(** The thread has [vdisk_lock] between this segment and the next. *)
Definition holds (p : pc) : bool :=
  match p with TRing _ _ | TAvail _ _ | TAck _ | TLoop | TOne => true | _ => false end.

(** The buffer of the thread's call to [virtio_disk_rw]. *)
Definition uses (p : pc) : option nat :=
  match p with TDesc b _ _ _ | TRing _ b | TAvail _ b | TWait _ b _ => Some b | _ => None end.

Definition handler (p : pc) : bool := match p with TAck _ | TLoop | TOne => true | _ => false end.

(** [wakeup] on each of the channels [w]. *)
Definition wake (w : list chan) (g : nat -> pc) : nat -> pc := fun t =>
  match g t with
  | TDesc b write sector false => TDesc b write sector (bool_decide (ChDiskFree ∈ w))
  | TWait idx b false => TWait idx b (bool_decide (ChBuf b ∈ w))
  | p => p
  end.

Definition rouse (p : pc) : pc :=
  match p with
  | TDesc b write sector _ => TDesc b write sector true
  | TWait idx b _ => TWait idx b true
  | p => p
  end.

(** [y_taken]: the heads the device has taken from the available ring and not finished. *)
Record dsys := mkdsys { y_vd : vdisk; y_taken : list nat; y_pc : nat -> pc; y_lock : option nat; y_panicked : bool }.

(** What happens: a call of [virtio_disk_rw] and its return, with the number and the contents of
    the buffer; a change of a buffer that is not in a call; a wakeup from elsewhere, such as
    [kill]; an interrupt, wanted by the device or not; the device looking at the queue without
    being notified; the device failing a request; any other step of the device or a thread; and
    a panic. *)
Inductive event :=
| ECall (t b : nat) (write : bool)
| ERet (t b : nat) (blockno : Z) (data : list Z)
| ESet (b : nat) (blockno : Z) (data : list Z)
| EKill (t : nat)
| EIntr (wanted : bool)
| EPoll
| EFail
| ETau
| EPanic.

(** * The device *)

(** The request with head [h]: written or read, block, buffer, and where the status goes; none if
    the chain is not a well-formed one (VIRTIO 1.1, 2.6.5 and 5.2.6). The disk is seen by
    1024-byte blocks, so a request has to start at an even sector. *)
Definition request_of (s : vdisk) (h : nat) : option (bool * Z * nat * nat) :=
  let d0 := v_desc s h in
  let d1 := v_desc s (Z.to_nat (vd_next d0)) in
  let d2 := v_desc s (Z.to_nat (vd_next d1)) in
  match vd_addr d0, vd_addr d1, vd_addr d2 with
  | VOps o, VData b, VStatus st =>
      let q := v_ops s o in
      let out := vr_type q =? VIRTIO_BLK_T_OUT in
      if (vd_len d0 =? 16) && (vd_flags d0 =? VRING_DESC_F_NEXT) &&
         (vd_len d1 =? BSIZE) && (vd_flags d1 =? Z.lor (if out then 0 else VRING_DESC_F_WRITE) VRING_DESC_F_NEXT) &&
         (vd_len d2 =? 1) && (vd_flags d2 =? VRING_DESC_F_WRITE) &&
         (out || (vr_type q =? VIRTIO_BLK_T_IN)) && (vr_sector q mod 2 =? 0)
      then Some (out, vr_sector q / 2, b, st) else None
  | _, _, _ => None
  end.

Definition notified (s : vdisk) : bool := negb (v_mmio s MMIO_QUEUE_NOTIFY =? 0).
Definition irq (s : vdisk) : bool := Z.testbit (v_mmio s MMIO_INTERRUPT_STATUS) 0.

Definition put_data (b : nat) (d : list Z) (s : vdisk) : vdisk :=
  set_vbufs (upd (v_bufs s) b (mkvbuf (vb_disk (v_bufs s b)) (vb_blockno (v_bufs s b)) d)) s.

(** The target of a request gets the contents [d]: the block if [out], else the buffer. *)
Definition put_target (out : bool) (blk : Z) (b : nat) (d : list Z) (s : vdisk) : vdisk :=
  if out then set_store (dset (v_store s) blk d) s else put_data b d s.

(** The source of a request. *)
Definition get_source (out : bool) (blk : Z) (b : nat) (s : vdisk) : list Z :=
  if out then vb_data (v_bufs s b) else v_store s blk.

(** The request with head [h] goes to the used ring with the status byte [v], and the device asks
    for an interrupt. *)
Definition complete (h st : nat) (v : Z) (s : vdisk) : vdisk :=
  set_mmio (fun x => if x =? MMIO_INTERRUPT_STATUS then Z.lor (v_mmio s x) 1 else v_mmio s x)
    (set_used (upd (v_used_ring s) (Z.to_nat (v_dev_used_idx s mod Z.of_nat NUM)) (Z.of_nat h))
       (u16 (v_dev_used_idx s + 1)) (upd (v_status s) st v) s).

Inductive device : vdisk -> list nat -> event -> vdisk -> list nat -> Prop :=
| dv_fetch s taken : v_seen s <> v_avail_idx s ->
    device s taken (if notified s then ETau else EPoll)
      (set_seen (u16 (v_seen s + 1)) s) (taken ++ [Z.to_nat (v_ring s (Z.to_nat (v_seen s mod Z.of_nat NUM)))])
| dv_rest s taken : v_seen s = v_avail_idx s ->
    device s taken ETau (set_mmio (fun x => if x =? MMIO_QUEUE_NOTIFY then 0 else v_mmio s x) s) taken
| dv_work s taken h out blk b st d : h ∈ taken -> request_of s h = Some (out, blk, b, st) ->
    device s taken ETau (put_target out blk b d s) taken
| dv_done s t1 h t2 out blk b st : request_of s h = Some (out, blk, b, st) ->
    device s (t1 ++ h :: t2) ETau (complete h st 0 (put_target out blk b (get_source out blk b s) s)) (t1 ++ t2)
| dv_fail s t1 h t2 out blk b st v : request_of s h = Some (out, blk, b, st) -> v <> 0 ->
    device s (t1 ++ h :: t2) EFail (complete h st v s) (t1 ++ t2)
| dv_wild s taken h s' taken' : h ∈ taken -> request_of s h = None ->
    device s taken ETau s' taken'.

(** * The system *)

(** The context of a segment: [vdisk_lock] is held. *)
Definition kctx : cpu := mkcpu [LVdisk] 0 0 [] 0 [].

(** The thread can run its next segment. *)
Definition ready (t : nat) (y : dsys) : Prop :=
  match y_pc y t with
  | TDesc _ _ _ true | TWait _ _ true => y_lock y = None
  | p => holds p = true /\ y_lock y = Some t
  end.

Definition event_of (t : nat) (p p' : pc) (s : vdisk) : event :=
  match uses p, p' with
  | Some b, TIdle => ERet t b (vb_blockno (v_bufs s b)) (vb_data (v_bufs s b))
  | _, _ => ETau
  end.

(** The thread [t] has gone on to [p], having woken the channels [w]. *)
Definition moved (t : nat) (p : pc) (w : list chan) (s : vdisk) (y : dsys) : dsys :=
  mkdsys s (y_taken y) (upd (wake w (y_pc y)) t p) (if holds p then Some t else None) (y_panicked y).

(** The caller of [virtio_disk_rw] has the buffer locked, and no other buffer is for the same
    block; the block is on a disk of less than two terabytes. *)
Definition available (y : dsys) (b : nat) : Prop :=
  0 <= vb_blockno (v_bufs (y_vd y) b) < 2 ^ 31 /\
  forall t b', uses (y_pc y t) = Some b' -> b' <> b /\ vb_blockno (v_bufs (y_vd y) b') <> vb_blockno (v_bufs (y_vd y) b).

Inductive dstep : dsys -> event -> dsys -> Prop :=
| ds_run y t c s p : ready t y -> segment (y_pc y t) kctx (y_vd y) = Ret c s p ->
    dstep y (event_of t (y_pc y t) p s) (moved t p (woken c) s y)
| ds_panic y t msg : ready t y -> segment (y_pc y t) kctx (y_vd y) = Panic msg ->
    dstep y EPanic (mkdsys (y_vd y) (y_taken y) (y_pc y) (y_lock y) true)
| ds_call y t b write : y_pc y t = TIdle -> available y b ->
    dstep y (ECall t b write)
      (mkdsys (y_vd y) (y_taken y) (upd (y_pc y) t (TDesc b write (rw_sector (vb_blockno (v_bufs (y_vd y) b))) true)) (y_lock y) (y_panicked y))
| ds_intr y t : y_pc y t = TIdle -> y_lock y = None ->
    dstep y (EIntr (irq (y_vd y)))
      (mkdsys (y_vd y) (y_taken y) (upd (y_pc y) t (TAck (v_mmio (y_vd y) MMIO_INTERRUPT_STATUS))) (Some t) (y_panicked y))
| ds_set y b blockno data : (forall t, uses (y_pc y t) <> Some b) ->
    dstep y (ESet b blockno data)
      (mkdsys (set_vbufs (upd (v_bufs (y_vd y)) b (mkvbuf (vb_disk (v_bufs (y_vd y) b)) blockno data)) (y_vd y)) (y_taken y) (y_pc y) (y_lock y) (y_panicked y))
| ds_kill y t :
    dstep y (EKill t) (mkdsys (y_vd y) (y_taken y) (upd (y_pc y) t (rouse (y_pc y t))) (y_lock y) (y_panicked y))
| ds_dev y e s taken : device (y_vd y) (y_taken y) e s taken ->
    dstep y e (mkdsys s taken (y_pc y) (y_lock y) (y_panicked y)).

(** Runs; nothing happens after a panic. *)
Inductive dsteps : dsys -> list event -> dsys -> Prop :=
| dsteps_nil y : dsteps y [] y
| dsteps_cons y e y1 l y2 : y_panicked y = false -> dstep y e y1 -> dsteps y1 l y2 -> dsteps y (e :: l) y2.

(** The driver after [virtio_disk_init], with nothing in flight. *)
Definition booted (s : vdisk) : Prop :=
  (forall i, (i < NUM)%nat -> v_free s i <> 0) /\
  v_avail_idx s = 0 /\ v_seen s = 0 /\ v_used_idx s = 0 /\ v_dev_used_idx s = 0.

Definition dsys0 (s : vdisk) : dsys := mkdsys s [] (fun _ => TIdle) None false.

(** * The contract

    What bio.c and log.c rely on: each call takes effect at one moment between its start and its
    return, as [Bio.virtio_disk_rw]. *)

Inductive apc := AIdle | APend (b : nat) (write : bool) | ADone (b : nat).
Record asys := mkasys { a_bio : bio; a_pc : nat -> apc }.

Definition auses (p : apc) : option nat := match p with AIdle => None | APend b _ | ADone b => Some b end.

Definition set_content (blockno : Z) (data : block) (b : buf) : buf :=
  mkbuf (b_valid b) (b_disk b) (b_dev b) blockno (b_lock b) (b_refcnt b) (b_prev b) (b_next b) data.

Inductive astep : asys -> list event -> asys -> Prop :=
| as_call a t b write : a_pc a t = AIdle ->
    (forall t' b', auses (a_pc a t') = Some b' -> b' <> b /\ b_blockno (bufs (a_bio a) b') <> b_blockno (bufs (a_bio a) b)) ->
    astep a [ECall t b write] (mkasys (a_bio a) (upd (a_pc a) t (APend b write)))
| as_commit a t b write c sb : a_pc a t = APend b write -> virtio_disk_rw b write c (a_bio a) = Ret c sb tt ->
    astep a [] (mkasys sb (upd (a_pc a) t (ADone b)))
| as_ret a t b : a_pc a t = ADone b ->
    astep a [ERet t b (b_blockno (bufs (a_bio a) b)) (b_data (bufs (a_bio a) b))] (mkasys (a_bio a) (upd (a_pc a) t AIdle))
| as_set a b blockno data : (forall t, auses (a_pc a t) <> Some b) ->
    astep a [ESet b blockno data]
      (mkasys (mkbio (upd_bufs b (set_content blockno data) (bufs (a_bio a))) (dsk (a_bio a)) (dwrites (a_bio a))) (a_pc a)).

Inductive asteps : asys -> list event -> asys -> Prop :=
| asteps_nil a : asteps a [] a
| asteps_cons a l a1 l' a2 : astep a l a1 -> asteps a1 l' a2 -> asteps a (l ++ l') a2.

Definition asys0 (sb : bio) : asys := mkasys sb (fun _ => AIdle).

(** The calls, returns and buffer changes of a run. *)
Definition visible (e : event) : bool := match e with ECall _ _ _ | ERet _ _ _ _ | ESet _ _ _ => true | _ => false end.

(** The disk and the buffers as the buffer cache sees them. *)
Definition sees (sb : bio) (s : vdisk) : Prop :=
  (forall x, dsk sb x = v_store s x) /\
  forall i, b_blockno (bufs sb i) = vb_blockno (v_bufs s i) /\ b_data (bufs sb i) = vb_data (v_bufs s i).

(** Steps that need nothing from outside: no new call, no stray wakeup or interrupt, no device
    that looks at the queue unasked or fails. *)
Definition unaided (e : event) : bool := match e with ERet _ _ _ _ | EIntr true | ETau => true | _ => false end.
