(* ===== verification/VirtioProps.v ===== *)
(** The disk driver and the device: requests in flight, the invariant of the system, the
    refinement of the atomic transfers the buffer cache relies on, and progress. *)
From S2P Require Import Prelude Memory Riscv Kalloc Sleeplock Bio Virtio VirtioSys.

#[local] Arguments loop : simpl never.

Lemma upd_eq {A} (g : nat -> A) i v : upd g i v i = v.
Proof. unfold upd. by rewrite decide_True. Qed.
Lemma upd_ne {A} (g : nat -> A) i v j : j <> i -> upd g i v j = g j.
Proof. intros. unfold upd. by rewrite decide_False. Qed.

Lemma upd3_ne {A} (g : nat -> A) i j k u v w x : x ∉ [i; j; k] -> upd (upd (upd g i u) j v) k w x = g x.
Proof. rewrite !not_elem_of_cons. intros (? & ? & ? & _). by rewrite !upd_ne. Qed.
Lemma upd3_in {A} (g : nat -> A) i j k v x : x ∈ [i; j; k] -> upd (upd (upd g i v) j v) k v x = v.
Proof. intros Hx. unfold upd. repeat (case_decide; [done|]). by rewrite !elem_of_cons, elem_of_nil in Hx; naive_solver. Qed.

(** * Requests in flight *)

(** A request: the thread that made it, its three descriptors, its buffer, the direction and the
    block. *)
Record vr := mkvr { r_t : nat; r_h : nat; r_d1 : nat; r_d2 : nat; r_b : nat; r_wr : bool; r_blk : Z }.
#[global] Instance vr_eq_dec : EqDecision vr.
Proof. solve_decision. Defined.
Definition own (r : vr) : list nat := [r_h r; r_d1 r; r_d2 r].
Definition idx_of (r : vr) : Z * Z * Z := (Z.of_nat (r_h r), Z.of_nat (r_d1 r), Z.of_nat (r_d2 r)).

(** The descriptors and the request header, as the driver formats them. *)
Record chain_ok (s : vdisk) (r : vr) : Prop := {
  ch_d0 : v_desc s (r_h r) = mkvdesc (VOps (r_h r)) 16 VRING_DESC_F_NEXT (Z.of_nat (r_d1 r));
  ch_d1 : v_desc s (r_d1 r) = mkvdesc (VData (r_b r)) BSIZE (Z.lor (if r_wr r then 0 else VRING_DESC_F_WRITE) VRING_DESC_F_NEXT) (Z.of_nat (r_d2 r));
  ch_d2 : v_desc s (r_d2 r) = mkvdesc (VStatus (r_h r)) 1 VRING_DESC_F_WRITE 0;
  ch_ops : v_ops s (r_h r) = mkvreq (if r_wr r then VIRTIO_BLK_T_OUT else VIRTIO_BLK_T_IN) 0 (2 * r_blk r);
  ch_blk : vb_blockno (v_bufs s (r_b r)) = r_blk r;
  ch_nodup : NoDup (own r);
  ch_lt i : i ∈ own r -> (i < NUM)%nat;
}.

(** The requests by stage. *)
Record flight := mkflight {
  f_form : list vr;  (** in the ring, but not yet counted in [avail->idx] *)
  f_pend : list vr;  (** in the available ring *)
  f_taken : list vr; (** with the device *)
  f_don : list vr;   (** in the used ring *)
  f_ack : list vr    (** seen by the interrupt handler, descriptors not yet free *) }.

Definition published (f : flight) : list vr := f_pend f ++ f_taken f ++ f_don f.
Definition all (f : flight) : list vr := f_form f ++ published f ++ f_ack f.

(** The rings, the descriptors and the bookkeeping of the driver hold the requests [f]. *)
Record vinv (s : vdisk) (f : flight) : Prop := {
  vi_nodup : NoDup (all f);
  vi_disj r r' i : r ∈ all f -> r' ∈ all f -> i ∈ own r -> i ∈ own r' -> r = r';
  vi_bufs r r' : r ∈ all f -> r' ∈ all f -> r_b r = r_b r' -> r = r';
  vi_free i : (i < NUM)%nat -> v_free s i <> 0 <-> (forall r, r ∈ all f -> i ∉ own r);
  vi_chain r : r ∈ all f -> chain_ok s r;
  vi_busy r : r ∈ f_form f ++ published f -> vb_disk (v_bufs s (r_b r)) = 1 /\ v_info_b s (r_h r) = Some (r_b r);
  vi_ack r : r ∈ f_ack f -> vb_disk (v_bufs s (r_b r)) = 0;
  vi_form r : r ∈ f_form f -> f_form f = [r] /\ v_ring s (Z.to_nat (v_avail_idx s mod 8)) = Z.of_nat (r_h r);
  vi_pend i r : f_pend f !! i = Some r -> v_ring s (Z.to_nat ((v_seen s + Z.of_nat i) mod 8)) = Z.of_nat (r_h r);
  vi_avail : v_avail_idx s = u16 (v_seen s + Z.of_nat (length (f_pend f)));
  vi_don i r : f_don f !! i = Some r -> v_used_ring s (Z.to_nat ((v_used_idx s + Z.of_nat i) mod 8)) = Z.of_nat (r_h r);
  vi_used : v_dev_used_idx s = u16 (v_used_idx s + Z.of_nat (length (f_don f)));
  vi_range : 0 <= v_seen s < 65536 /\ 0 <= v_used_idx s < 65536;
}.

Lemma u16_mod8 a : u16 a mod 8 = a mod 8.
Proof. unfold u16. apply Z.mod_mod_divide. exists 8192. lia. Qed.
Lemma u16_add_mod8 a b : (u16 a + b) mod 8 = (a + b) mod 8.
Proof. rewrite <- Zplus_mod_idemp_l, u16_mod8, Zplus_mod_idemp_l. done. Qed.
Lemma u16_u16 a b : u16 (u16 a + b) = u16 (a + b).
Proof. unfold u16. apply Zplus_mod_idemp_l. Qed.
Lemma u16_ne a n : 0 <= a < 65536 -> 0 < n < 65536 -> u16 (a + n) <> a.
Proof. intros Ha Hn. unfold u16. intros He. dlia. Qed.
Lemma slot_ne a i j : 0 <= i < 8 -> 0 <= j < 8 -> i <> j -> Z.to_nat ((a + i) mod 8) <> Z.to_nat ((a + j) mod 8).
Proof.
  intros Hi Hj Hne He. apply Z2Nat.inj in He; [|apply Z.mod_pos_bound; lia|apply Z.mod_pos_bound; lia]. dlia.
Qed.

Lemma own_concat (rs : list vr) s : NoDup rs -> (forall r, r ∈ rs -> chain_ok s r) ->
  (forall r r' i, r ∈ rs -> r' ∈ rs -> i ∈ own r -> i ∈ own r' -> r = r') ->
  NoDup (concat (own <$> rs)) /\ forall i, i ∈ concat (own <$> rs) -> (i < NUM)%nat.
Proof.
  intros Hnd. induction Hnd as [|r rs Hr Hnd IH]; intros Hc Hd; [split; [apply NoDup_nil_2|by intros i ?%elem_of_nil]|].
  destruct IH as [IH1 IH2]; [intros; apply Hc; set_solver|intros; eapply Hd; set_solver|]. rewrite fmap_cons. cbn [concat]. split.
  - apply NoDup_app. split_and!; [apply (ch_nodup _ _ (Hc r ltac:(set_solver)))| |done].
    intros i Hir Hirs. apply list_elem_of_In, in_concat in Hirs as (l & Hl%list_elem_of_In & Hil%list_elem_of_In). apply list_elem_of_fmap in Hl as (r' & -> & Hr').
    assert (r = r') by (eapply Hd; set_solver). by subst.
  - intros i [Hir|Hirs]%elem_of_app; [by apply (ch_lt _ _ (Hc r ltac:(set_solver)))|by apply IH2].
Qed.

Lemma own_length (rs : list vr) : length (concat (own <$> rs)) = (3 * length rs)%nat.
Proof. induction rs as [|r rs IH]; [done|]. rewrite fmap_cons. cbn [concat]. rewrite length_app, IH. cbn. lia. Qed.

(** Each request has three of the eight descriptors. *)
Lemma vinv_few s f : vinv s f -> (length (all f) <= 2)%nat.
Proof.
  intros Hi. destruct (own_concat (all f) s) as [Hn Hlt]; [apply Hi..|].
  assert (length (concat (own <$> all f)) <= length (seq 0 NUM))%nat as Hle.
  { apply submseteq_length, NoDup_submseteq; [done|]. intros i Hin. apply elem_of_seq. pose proof (Hlt i Hin). lia. }
  rewrite own_length, length_seq in Hle. unfold NUM in Hle. lia.
Qed.

Lemma few_lengths s f : vinv s f -> (length (f_form f) + length (f_pend f) + length (f_taken f) + length (f_don f) + length (f_ack f) <= 2)%nat.
Proof. intros Hi. pose proof (vinv_few _ _ Hi) as H. unfold all, published in H. rewrite !length_app in H. lia. Qed.

Lemma chain_ok_same s s' r : chain_ok s r -> (forall i, i ∈ own r -> v_desc s' i = v_desc s i) -> v_ops s' (r_h r) = v_ops s (r_h r) ->
  vb_blockno (v_bufs s' (r_b r)) = vb_blockno (v_bufs s (r_b r)) -> chain_ok s' r.
Proof.
  intros [H0 H1 H2 Ho Hb Hn Hl] Hd Hops Hblk. assert (r_h r ∈ own r /\ r_d1 r ∈ own r /\ r_d2 r ∈ own r) as (E0 & E1 & E2) by (unfold own; set_solver).
  split; try done; [by rewrite Hd..|by rewrite Hops|by rewrite Hblk].
Qed.

(** The state has changed in nothing that the requests in flight depend on. *)
Record same_rings (s s' : vdisk) (f : flight) : Prop := {
  sr_desc : v_desc s' = v_desc s; sr_ring : v_ring s' = v_ring s; sr_avail : v_avail_idx s' = v_avail_idx s;
  sr_used_ring : v_used_ring s' = v_used_ring s; sr_dev_used : v_dev_used_idx s' = v_dev_used_idx s; sr_free : v_free s' = v_free s;
  sr_used : v_used_idx s' = v_used_idx s; sr_info : v_info_b s' = v_info_b s; sr_ops : v_ops s' = v_ops s; sr_seen : v_seen s' = v_seen s;
  sr_bufs r : r ∈ all f -> vb_disk (v_bufs s' (r_b r)) = vb_disk (v_bufs s (r_b r)) /\ vb_blockno (v_bufs s' (r_b r)) = vb_blockno (v_bufs s (r_b r)) }.

Lemma vinv_same s s' f : same_rings s s' f -> vinv s f -> vinv s' f.
Proof.
  intros [E1 E2 E3 E4 E5 E6 E7 E8 E9 E10 Eb] [H1 H2 H3 H4 H5 H6 H7 H8 H9 H10 H11 H12 H13].
  split; try done; rewrite ?E2, ?E3, ?E4, ?E5, ?E6, ?E7, ?E8, ?E10; try done.
  - intros r Hr. eapply chain_ok_same; [by apply H5|by rewrite E1|by rewrite E9|by apply Eb].
  - intros r Hr. destruct (Eb r) as [-> _]; [unfold all; set_solver|by apply H6].
  - intros r Hr. destruct (Eb r) as [-> _]; [unfold all; set_solver|by apply H7].
Qed.

(** * The stages of a request *)

Lemma in_all f r : r ∈ all f <-> r ∈ f_form f \/ r ∈ f_pend f \/ r ∈ f_taken f \/ r ∈ f_don f \/ r ∈ f_ack f.
Proof. unfold all, published. rewrite !elem_of_app. tauto. Qed.
Lemma in_published f r : r ∈ published f <-> r ∈ f_pend f \/ r ∈ f_taken f \/ r ∈ f_don f.
Proof. unfold published. rewrite !elem_of_app. tauto. Qed.

(** A request in two places would be in flight twice. *)
Lemma nodup_mid (r : vr) l1 l2 l : NoDup l -> (l ≡ₚ r :: (l1 ++ l2)) -> (r ∉ l1) /\ (r ∉ l2).
Proof. intros Hn Hp. rewrite Hp in Hn. apply NoDup_cons in Hn as [Hn _]. set_solver. Qed.

(** [disk.avail->idx += 1] *)
Definition bumped (s : vdisk) : vdisk := set_avail (v_ring s) (u16 (v_avail_idx s + 1)) s.

Lemma bump_vinv s r P T D A : vinv s (mkflight [r] P T D A) -> vinv (bumped s) (mkflight [] (P ++ [r]) T D A).
Proof.
  intros Hi. set (f := mkflight [r] P T D A) in *. set (f' := mkflight [] (P ++ [r]) T D A).
  assert (all f' ≡ₚ all f) as Hp by (unfold all, published, f, f'; cbn; solve_Permutation).
  assert (forall x, x ∈ all f' <-> x ∈ all f) as Hin by (intros x; by rewrite Hp).
  destruct (vi_form _ _ Hi r) as [_ Hring]; [cbn; set_solver|].
  destruct Hi as [H1 H2 H3 H4 H5 H6 H7 H8 H9 H10 H11 H12 H13].
  split; try (setoid_rewrite Hin); try done.
  - by rewrite Hp.
  - intros x Hx. eapply chain_ok_same; [by apply H5|done..].
  - intros x Hx. apply H6. cbn in *. unfold published in *. cbn in *. set_solver.
  - by intros x ?%elem_of_nil.
  - intros i x Hx. cbn in *. apply lookup_snoc_Some in Hx as [[Hlt Hx]|[-> <-]]; [by apply H9|]. rewrite H10, u16_mod8 in Hring. done.
  - cbn in *. rewrite H10, u16_u16, length_app. f_equal. cbn. lia.
Qed.

(** The device takes the first request of the available ring. *)
Lemma fetch_vinv s F r P T D A : vinv s (mkflight F (r :: P) T D A) ->
  vinv (set_seen (u16 (v_seen s + 1)) s) (mkflight F P (T ++ [r]) D A) /\
  v_seen s <> v_avail_idx s /\ v_ring s (Z.to_nat (v_seen s mod 8)) = Z.of_nat (r_h r).
Proof.
  intros Hi. set (f := mkflight F (r :: P) T D A) in *. set (f' := mkflight F P (T ++ [r]) D A).
  assert (all f' ≡ₚ all f) as Hp by (unfold all, published, f, f'; cbn; solve_Permutation).
  assert (forall x, x ∈ all f' <-> x ∈ all f) as Hin by (intros x; by rewrite Hp).
  pose proof (few_lengths _ _ Hi) as Hfew. cbn in Hfew.
  destruct Hi as [H1 H2 H3 H4 H5 H6 H7 H8 H9 H10 H11 H12 H13]. cbn in H9, H10. split_and!.
  - split; try (setoid_rewrite Hin); try done.
    + by rewrite Hp.
    + intros x Hx. eapply chain_ok_same; [by apply H5|done..].
    + intros x Hx. apply H6. unfold published in *. cbn in *. set_solver.
    + intros i x Hx. cbn in *. rewrite u16_add_mod8. replace (v_seen s + 1 + Z.of_nat i) with (v_seen s + Z.of_nat (S i)) by lia. by apply (H9 (S i)).
    + cbn. rewrite H10, u16_u16. f_equal. lia.
    + cbn. split; [apply u16_range|apply H13].
  - rewrite H10. apply not_eq_sym, u16_ne; [apply H13|lia].
  - specialize (H9 0%nat r eq_refl). by rewrite Z.add_0_r in H9.
Qed.

(** The device finishes one of the requests it has. *)
Lemma complete_vinv s v F P T1 r T2 D A : vinv s (mkflight F P (T1 ++ r :: T2) D A) ->
  vinv (complete (r_h r) (r_h r) v s) (mkflight F P (T1 ++ T2) (D ++ [r]) A).
Proof.
  intros Hi. set (f := mkflight F P (T1 ++ r :: T2) D A) in *. set (f' := mkflight F P (T1 ++ T2) (D ++ [r]) A).
  assert (all f' ≡ₚ all f) as Hp by (unfold all, published, f, f'; cbn; solve_Permutation).
  assert (forall x, x ∈ all f' <-> x ∈ all f) as Hin by (intros x; by rewrite Hp).
  pose proof (few_lengths _ _ Hi) as Hfew. cbn in Hfew. rewrite length_app in Hfew. cbn in Hfew.
  destruct Hi as [H1 H2 H3 H4 H5 H6 H7 H8 H9 H10 H11 H12 H13]. cbn in H11, H12.
  split; try (setoid_rewrite Hin); try done.
  - by rewrite Hp.
  - intros x Hx. eapply chain_ok_same; [by apply H5|done..].
  - intros x Hx. apply H6. unfold published in *. cbn in *. set_solver.
  - intros i x Hx. cbn in *. change (Z.of_nat NUM) with 8. rewrite H12, u16_mod8. apply lookup_snoc_Some in Hx as [[Hlt Hx]|[-> <-]].
    + rewrite upd_ne by (apply slot_ne; lia). by apply H11.
    + by rewrite upd_eq.
  - cbn. rewrite H12, u16_u16, length_app. f_equal. cbn. lia.
Qed.

(** The interrupt handler sees the first request of the used ring. *)
Definition acked (b : nat) (s : vdisk) : vdisk :=
  set_used_idx (u16 (v_used_idx s + 1)) (set_vbufs (upd (v_bufs s) b (mkvbuf 0 (vb_blockno (v_bufs s b)) (vb_data (v_bufs s b)))) s).

Lemma acked_data b s b' : vb_data (v_bufs (acked b s) b') = vb_data (v_bufs s b') /\ vb_blockno (v_bufs (acked b s) b') = vb_blockno (v_bufs s b').
Proof. cbn. unfold upd. by case_decide; [subst|]. Qed.

Lemma ack_vinv s F P T r D A : vinv s (mkflight F P T (r :: D) A) -> vinv (acked (r_b r) s) (mkflight F P T D (A ++ [r])).
Proof.
  intros Hi. set (f := mkflight F P T (r :: D) A) in *. set (f' := mkflight F P T D (A ++ [r])).
  assert (all f' ≡ₚ all f) as Hp by (unfold all, published, f, f'; cbn; solve_Permutation).
  assert (forall x, x ∈ all f' <-> x ∈ all f) as Hin by (intros x; by rewrite Hp).
  assert (r ∈ all f) as Hr by (apply in_all; cbn; set_solver).
  assert (forall x, x ∈ f_form f' ++ published f' -> x ∈ f_form f ++ published f /\ r_b x <> r_b r) as Hne.
  { intros x Hx. split; [unfold published in *; cbn in *; set_solver|]. intros E.
    assert (x = r) as -> by (apply (vi_bufs _ _ Hi); [apply Hin; unfold all; set_solver|done|done]).
    destruct (nodup_mid r (F ++ P ++ T ++ D) A _ (vi_nodup _ _ Hi)) as [Hn _]; [unfold all, published; cbn; solve_Permutation|].
    apply Hn. unfold published in Hx. exact Hx. }
  destruct Hi as [H1 H2 H3 H4 H5 H6 H7 H8 H9 H10 H11 H12 H13]. cbn in H11, H12.
  split; try (setoid_rewrite Hin); try done.
  - by rewrite Hp.
  - intros x Hx. eapply chain_ok_same; [by apply H5|done|done|apply acked_data].
  - intros x [Hx Hb]%Hne. cbn. rewrite upd_ne by done. by apply H6.
  - intros x [Hx|Hx]%elem_of_app.
    + cbn. unfold upd. case_decide; [done|by apply H7].
    + apply list_elem_of_singleton in Hx as ->. cbn. by rewrite upd_eq.
  - intros i x Hx. cbn in *. rewrite u16_add_mod8. replace (v_used_idx s + 1 + Z.of_nat i) with (v_used_idx s + Z.of_nat (S i)) by lia. by apply (H11 (S i)).
  - cbn. rewrite H12, u16_u16. f_equal. cbn [length]. lia.
  - cbn. split; [apply H13|apply u16_range].
Qed.

(** The descriptors of a request are given back. *)
Definition freed (i : nat) (s : vdisk) : vdisk :=
  set_free (upd (v_free s) i 1) (set_desc (upd (v_desc s) i (mkvdesc VNull 0 0 0)) s).
Definition retired (r : vr) (s : vdisk) : vdisk :=
  freed (r_d2 r) (freed (r_d1 r) (freed (r_h r) (set_info (upd (v_info_b s) (r_h r) None) (v_status s) s))).

Lemma retired_vinv r s F P T D A1 A2 : vinv s (mkflight F P T D (A1 ++ r :: A2)) -> vinv (retired r s) (mkflight F P T D (A1 ++ A2)).
Proof.
  intros Hi. set (f := mkflight F P T D (A1 ++ r :: A2)) in *. set (f' := mkflight F P T D (A1 ++ A2)).
  assert (all f ≡ₚ r :: all f') as Hp by (unfold all, published, f, f'; cbn; solve_Permutation).
  assert (forall x, x ∈ all f <-> x = r \/ x ∈ all f') as Hin by (intros x; rewrite Hp; by rewrite elem_of_cons).
  destruct Hi as [H1 H2 H3 H4 H5 H6 H7 H8 H9 H10 H11 H12 H13]. rewrite Hp in H1. apply NoDup_cons in H1 as [Hr H1].
  assert (forall x i, x ∈ all f' -> i ∈ own x -> i ∉ own r) as Hapart.
  { intros x i Hx Hix Hir. apply Hr. rewrite (H2 r x i); auto; apply Hin; auto. }
  assert (forall x, r_h x ∈ own x) as Hh by (intros x; unfold own; set_solver).
  split; try done.
  - intros x x' i Hx Hx'. apply H2; apply Hin; auto.
  - intros x x' Hx Hx'. apply H3; apply Hin; auto.
  - intros i Hi. cbn. destruct (decide (i ∈ own r)) as [Hir|Hir].
    + rewrite upd3_in by done. split; [|done]. intros _ x Hx Hix. by apply (Hapart x i).
    + rewrite upd3_ne by done. rewrite H4 by done. setoid_rewrite Hin. split; [auto|]. intros Hall x [->|Hx]; auto.
  - intros x Hx. eapply chain_ok_same; [apply H5, Hin; by right| |done|done]. intros i Hix. cbn. rewrite upd3_ne; [done|]. by apply (Hapart x).
  - intros x Hx. cbn. rewrite upd_ne; [by apply H6|]. intros E. apply (Hapart x (r_h x)); [unfold all; set_solver|done|]. by rewrite E.
  - intros x Hx. apply H7. cbn in *. set_solver.
Qed.

(** * Allocating descriptors *)

Lemma fresh8 (l : list nat) : (length l < NUM)%nat -> exists i, (i < NUM)%nat /\ i ∉ l.
Proof.
  intros Hl. destruct (decide (Exists (fun i => i ∉ l) (seq 0 NUM))) as [He|Hn].
  - apply Exists_exists in He as (i & Hi%elem_of_seq & Hni). exists i. split; [lia|done].
  - exfalso. assert (length (seq 0 NUM) <= length l)%nat as Hle.
    { apply submseteq_length, NoDup_submseteq; [apply NoDup_seq|]. intros i Hi. destruct (decide (i ∈ l)) as [|Hni]; [done|].
      exfalso. apply Hn, Exists_exists. eauto. }
    rewrite length_seq in Hle. lia.
Qed.

Lemma alloc_desc_run c s : (exists i, (i < NUM)%nat /\ v_free s i <> 0) ->
  exists i, (i < NUM)%nat /\ v_free s i <> 0 /\ alloc_desc c s = Ret c (set_free (upd (v_free s) i 0) s) (Z.of_nat i).
Proof.
  intros (i0 & Hi0 & Hf0). destruct (wp_elim alloc_desc c s (fun c' s' r => c' = c /\ exists i, (i < NUM)%nat /\ v_free s i <> 0 /\
    s' = set_free (upd (v_free s) i 0) s /\ r = Z.of_nat i)) as (c' & s' & r & Hr & -> & i & Hi & Hf & -> & ->); [|by exists i].
  unfold alloc_desc. eapply (wp_loop (fun j c' s' => c' = c /\ s' = s /\ (j <= i0)%nat) (fun j => (NUM - j)%nat)); [|lia|split_and!; [done|done|lia]].
  intros j c' s' (-> & -> & Hj). rewrite (proj2 (Nat.ltb_lt j NUM)) by lia. wp_step. wp_step. destruct (Z.eqb_spec (v_free s j) 0) as [He|He]; cbn [negb].
  - wp_step. split_and!; try done; try lia. destruct (decide (j = i0)) as [->|]; [done|lia].
  - wp_steps. split; [done|]. exists j. split_and!; [lia|done..].
Qed.

Lemma alloc_desc_none c s : (forall i, (i < NUM)%nat -> v_free s i = 0) -> alloc_desc c s = Ret c s (-1).
Proof.
  intros Hf. destruct (wp_elim alloc_desc c s (fun c' s' r => c' = c /\ s' = s /\ r = -1)) as (c' & s' & r & Hr & -> & -> & ->); [|done].
  unfold alloc_desc. eapply (wp_loop (fun j c' s' => c' = c /\ s' = s) (fun j => (NUM - j)%nat)); [|lia|done].
  intros j c' s' (-> & ->). destruct (Nat.ltb_spec j NUM) as [Hj|Hj].
  - wp_step. wp_step. rewrite Hf by done. cbn [Z.eqb negb]. wp_step. split_and!; [done..|lia].
  - wp_step. done.
Qed.

Lemma free_desc_run i c s : (i < NUM)%nat -> v_free s i = 0 ->
  free_desc (Z.of_nat i) c s = Ret (set_woken (ChDiskFree :: woken c) c) (freed i s) tt.
Proof.
  intros Hi Hf. unfold free_desc. rewrite Z.geb_leb, (proj2 (Z.leb_gt _ _)) by lia. unfold bind at 1, gets at 1. cbn [obind]. rewrite Nat2Z.id, Hf. reflexivity.
Qed.

(** The descriptors in use. *)
Definition in_use (f : flight) : list nat := concat (own <$> all f).

Lemma in_use_spec f i : i ∈ in_use f <-> exists r, r ∈ all f /\ i ∈ own r.
Proof.
  unfold in_use. rewrite list_elem_of_In, in_concat. split.
  - intros (l & Hl%list_elem_of_In & Hi%list_elem_of_In). apply list_elem_of_fmap in Hl as (r & -> & Hr). eauto.
  - intros (r & Hr & Hi). exists (own r). split; apply list_elem_of_In; [apply list_elem_of_fmap; eauto|done].
Qed.
Lemma free_not_in_use s f i : vinv s f -> (i < NUM)%nat -> v_free s i <> 0 <-> i ∉ in_use f.
Proof. intros Hi Hl. rewrite (vi_free _ _ Hi) by done. rewrite in_use_spec. naive_solver. Qed.

(** Two descriptors taken, when at most six are in use. *)
Lemma alloc2_run c s f : vinv s f -> exists i j, (i < NUM)%nat /\ (j < NUM)%nat /\ i <> j /\ (i ∉ in_use f) /\ (j ∉ in_use f) /\
  alloc_desc c s = Ret c (set_free (upd (v_free s) i 0) s) (Z.of_nat i) /\
  alloc_desc c (set_free (upd (v_free s) i 0) s) = Ret c (set_free (upd (upd (v_free s) i 0) j 0) s) (Z.of_nat j).
Proof.
  intros Hi. pose proof (vinv_few _ _ Hi) as Hfew. pose proof (own_length (all f)) as Hlen. fold (in_use f) in Hlen.
  destruct (fresh8 (in_use f)) as (i0 & Hi0 & Hni0); [unfold NUM; lia|].
  destruct (alloc_desc_run c s) as (i & Hil & Hfi & Hri); [exists i0; split; [done|by eapply free_not_in_use]|].
  destruct (fresh8 (i :: in_use f)) as (j0 & Hj0 & [Hji Hnj0]%not_elem_of_cons); [unfold NUM; cbn; lia|].
  destruct (alloc_desc_run c (set_free (upd (v_free s) i 0) s)) as (j & Hjl & Hfj & Hrj).
  { exists j0. split; [done|]. cbn. rewrite upd_ne by done. by eapply free_not_in_use. }
  cbn in Hfj. assert (j <> i) as Hne by (intros ->; by rewrite upd_eq in Hfj). rewrite upd_ne in Hfj by done.
  exists i, j. split_and!; try done; by eapply free_not_in_use.
Qed.

Lemma alloc3_run c s f : vinv s f -> (length (all f) <= 1)%nat ->
  exists i j k, NoDup [i; j; k] /\ (forall x, x ∈ [i; j; k] -> (x < NUM)%nat /\ x ∉ in_use f) /\
    alloc3_desc c s = Ret c (set_free (upd (upd (upd (v_free s) i 0) j 0) k 0) s) (Some (Z.of_nat i, Z.of_nat j, Z.of_nat k)).
Proof.
  intros Hi Hfew. pose proof (own_length (all f)) as Hlen. fold (in_use f) in Hlen.
  destruct (alloc2_run c s f Hi) as (i & j & Hil & Hjl & Hij & Hni & Hnj & Hri & Hrj).
  destruct (fresh8 (i :: j :: in_use f)) as (k0 & Hk0 & [Hki [Hkj Hnk0]%not_elem_of_cons]%not_elem_of_cons); [unfold NUM; simpl; lia|].
  destruct (alloc_desc_run c (set_free (upd (upd (v_free s) i 0) j 0) s)) as (k & Hkl & Hfk & Hrk).
  { exists k0. split; [done|]. cbn. rewrite !upd_ne by done. by eapply free_not_in_use. }
  cbn in Hfk. assert (k <> j) as Hne2 by (intros ->; by rewrite upd_eq in Hfk). rewrite upd_ne in Hfk by done.
  assert (k <> i) as Hne3 by (intros ->; by rewrite upd_eq in Hfk). rewrite upd_ne in Hfk by done.
  exists i, j, k. split_and!.
  - repeat (apply NoDup_cons; split); [set_solver|set_solver|set_solver|apply NoDup_nil_2].
  - intros x Hx. rewrite !elem_of_cons, elem_of_nil in Hx. destruct Hx as [->|[->|[->|[]]]]; [done|done|]. split; [done|by eapply free_not_in_use].
  - unfold alloc3_desc, bind at 1. rewrite Hri. cbn [obind]. rewrite (proj2 (Z.ltb_ge _ 0)) by lia. unfold bind at 1. rewrite Hrj. cbn [obind].
    rewrite (proj2 (Z.ltb_ge _ 0)) by lia. unfold bind at 1. rewrite Hrk. cbn [obind]. by rewrite (proj2 (Z.ltb_ge _ 0)) by lia.
Qed.

(** With two requests in flight, [alloc3_desc] takes the other two descriptors and gives them
    back, which wakes the threads that wait for descriptors. *)
Lemma alloc3_full c s f : vinv s f -> length (all f) = 2%nat ->
  exists i j, (i < NUM)%nat /\ (j < NUM)%nat /\ (i ∉ in_use f) /\ (j ∉ in_use f) /\
    alloc3_desc c s = Ret (set_woken (ChDiskFree :: ChDiskFree :: woken c) c) (freed j (freed i (set_free (upd (upd (v_free s) i 0) j 0) s))) None.
Proof.
  intros Hi Hfew. pose proof (own_length (all f)) as Hlen. fold (in_use f) in Hlen.
  destruct (alloc2_run c s f Hi) as (i & j & Hil & Hjl & Hij & Hni & Hnj & Hri & Hrj).
  exists i, j. split_and!; [done|done|done|done|]. unfold alloc3_desc, bind at 1. rewrite Hri. cbn [obind]. rewrite (proj2 (Z.ltb_ge _ 0)) by lia. unfold bind at 1. rewrite Hrj. cbn [obind].
  rewrite (proj2 (Z.ltb_ge _ 0)) by lia. unfold bind at 1. rewrite alloc_desc_none.
  - cbn [obind Z.ltb Z.compare]. unfold bind at 1. rewrite free_desc_run; [|done|cbn; rewrite upd_ne, upd_eq by done; done]. cbn [obind]. unfold bind at 1.
    rewrite free_desc_run; [reflexivity|done|]. cbn. rewrite upd_ne by done. by rewrite upd_eq.
  - intros x Hx. cbn. destruct (decide (x = j)) as [->|Hxj]; [by rewrite upd_eq|]. rewrite upd_ne by done.
    destruct (decide (x = i)) as [->|Hxi]; [by rewrite upd_eq|]. rewrite upd_ne by done.
    destruct (decide (v_free s x = 0)) as [|Hf]; [done|]. exfalso. apply (free_not_in_use s f) in Hf; [|done..].
    destruct (own_concat (all f) s) as [Hn Hlt]; [apply Hi..|]. fold (in_use f) in Hn, Hlt.
    assert (length (x :: i :: j :: in_use f) <= length (seq 0 NUM))%nat as Hle.
    { apply submseteq_length, NoDup_submseteq; [repeat (apply NoDup_cons; split; [set_solver|]); done|].
      intros y Hy. apply elem_of_seq. rewrite !elem_of_cons in Hy. destruct Hy as [->|[->|[->|Hy]]]; [lia..|]. pose proof (Hlt y Hy). lia. }
    rewrite length_seq in Hle. cbn in Hle. unfold NUM in Hle. lia.
Qed.

Lemma alloc3_full_vinv i j s f : vinv s f -> i ∉ in_use f -> j ∉ in_use f -> (i < NUM)%nat -> (j < NUM)%nat ->
  vinv (freed j (freed i (set_free (upd (upd (v_free s) i 0) j 0) s))) f.
Proof.
  intros Hi Hni Hnj Hil Hjl. pose proof (free_not_in_use s f i Hi Hil) as Hfi. pose proof (free_not_in_use s f j Hi Hjl) as Hfj.
  destruct Hi as [H1 H2 H3 H4 H5 H6 H7 H8 H9 H10 H11 H12 H13]. split; try done.
  - intros x Hx. cbn. unfold upd. destruct (decide (x = j)) as [->|]; [rewrite <- H4, Hfj by done; done|].
    destruct (decide (x = i)) as [->|]; [rewrite <- H4, Hfi by done; done|]. by apply H4.
  - intros r Hr. eapply chain_ok_same; [by apply H5| |done|done]. intros x Hx. cbn.
    assert (x ∈ in_use f) by (apply in_use_spec; eauto). rewrite !upd_ne; [done|intros ->; done..].
Qed.

(** * The segments *)

(** What a segment of the driver leaves alone: the disk, the contents of the buffers, and the
    status bytes of the requests in flight. *)
Record kept (s s' : vdisk) (f : flight) : Prop := {
  kp_store : v_store s' = v_store s;
  kp_data b : vb_data (v_bufs s' b) = vb_data (v_bufs s b);
  kp_blk b : vb_blockno (v_bufs s' b) = vb_blockno (v_bufs s b);
  kp_status r : r ∈ all f -> v_status s' (r_h r) = v_status s (r_h r) }.

(** The state after the descriptors are formatted and the ring entry is written, by field. *)
Lemma format_run i j k b wr sec c s : exists s',
  (format (Z.of_nat i, Z.of_nat j, Z.of_nat k) b wr sec ;; put_avail (Z.of_nat i, Z.of_nat j, Z.of_nat k)) c s = Ret c s' tt /\
  v_desc s' = upd (upd (upd (v_desc s) i (mkvdesc (VOps i) 16 VRING_DESC_F_NEXT (Z.of_nat j)))
    j (mkvdesc (VData b) BSIZE (Z.lor (if wr then 0 else VRING_DESC_F_WRITE) VRING_DESC_F_NEXT) (Z.of_nat k)))
    k (mkvdesc (VStatus i) 1 VRING_DESC_F_WRITE 0) /\
  v_ops s' = upd (v_ops s) i (mkvreq (if wr then VIRTIO_BLK_T_OUT else VIRTIO_BLK_T_IN) 0 sec) /\
  v_bufs s' = upd (v_bufs s) b (mkvbuf 1 (vb_blockno (v_bufs s b)) (vb_data (v_bufs s b))) /\
  v_info_b s' = upd (v_info_b s) i (Some b) /\ v_status s' = upd (v_status s) i 0xff /\
  v_ring s' = upd (v_ring s) (Z.to_nat (v_avail_idx s mod 8)) (Z.of_nat i) /\ v_avail_idx s' = v_avail_idx s /\
  v_free s' = v_free s /\ v_used_ring s' = v_used_ring s /\ v_dev_used_idx s' = v_dev_used_idx s /\
  v_used_idx s' = v_used_idx s /\ v_seen s' = v_seen s /\ v_store s' = v_store s /\ v_mmio s' = v_mmio s.
Proof.
  unfold format, put_avail, set_desc_at. eexists. split; [reflexivity|]. cbn. rewrite !Nat2Z.id. done.
Qed.

(** The request is in the ring, behind the ones the device may look at. *)
Lemma format_vinv t i j k b wr blk c s P T D A (f := mkflight [] P T D A) (r := mkvr t i j k b wr blk) :
  vinv s f -> (length (all f) <= 1)%nat -> (forall x, x ∈ [i; j; k] -> (x < NUM)%nat /\ x ∉ in_use f) -> NoDup [i; j; k] ->
  vb_blockno (v_bufs s b) = blk -> (forall r, r ∈ all f -> r_b r <> b) ->
  exists s', (format (idx_of r) b wr (2 * blk) ;; put_avail (idx_of r)) c (set_free (upd (upd (upd (v_free s) i 0) j 0) k 0) s) = Ret c s' tt /\
    vinv s' (mkflight [r] P T D A) /\ kept s s' f /\ v_mmio s' = v_mmio s.
Proof.
  intros Hi Hfew Hijk Hnd Hblk Hbuf.
  destruct (format_run i j k b wr (2 * blk) c (set_free (upd (upd (upd (v_free s) i 0) j 0) k 0) s))
    as (s' & Hrun & Hd & Ho & Hb & Hinf & Hst & Hrg & Hav & Hfr & Hur & Hdu & Hui & Hse & Hsto & Hmm).
  cbn in Hd, Ho, Hb, Hinf, Hst, Hrg, Hav, Hfr, Hur, Hdu, Hui, Hse, Hsto, Hmm. exists s'. split; [exact Hrun|].
  assert (own r = [i; j; k]) as Hown by done.
  assert (forall x i', x ∈ all f -> i' ∈ own x -> i' ∉ own r) as Hapart.
  { intros x i' Hx Hi' Hr. rewrite Hown in Hr. destruct (Hijk i' Hr) as [Hlt Hf]. apply Hf, in_use_spec. eauto. }
  assert (forall x, x ∈ all f -> r_h x <> i) as Hhd.
  { intros x Hx E. apply (Hapart x (r_h x) Hx); [unfold own; set_solver|]. rewrite Hown, E. set_solver. }
  assert (forall b', vb_data (v_bufs s' b') = vb_data (v_bufs s b') /\ vb_blockno (v_bufs s' b') = vb_blockno (v_bufs s b')) as Hsd.
  { intros b'. rewrite Hb. unfold upd. by case_decide; [subst|]. }
  assert (kept s s' f) as Hkp.
  { split; [exact Hsto|intros b'; apply Hsd|intros b'; apply Hsd|]. intros x Hx. rewrite Hst. apply upd_ne. by apply Hhd. }
  split; [|split; [exact Hkp|exact Hmm]]. clear Hkp Hrun Hmm Hsto.
  apply NoDup_cons in Hnd as Hnd'. destruct Hnd' as [Hni Hnd1]. apply NoDup_cons in Hnd1 as [Hnj _].
  apply not_elem_of_cons in Hni as [Hij Hik%not_elem_of_cons%proj1]. apply not_elem_of_cons in Hnj as [Hjk _].
  set (f' := mkflight [r] P T D A). assert (forall x, x ∈ all f' <-> x = r \/ x ∈ all f) as Hin by (intros x; unfold all, published; cbn; set_solver).
  assert (r ∉ all f) as Hrn by (intros Hr; by apply (Hbuf r Hr)).
  assert (chain_ok s' r) as Hcr.
  { split; cbn; try done.
    - rewrite Hd. rewrite !upd_ne, upd_eq by done. done.
    - rewrite Hd. rewrite upd_ne, upd_eq by done. done.
    - by rewrite Hd, upd_eq.
    - by rewrite Ho, upd_eq.
    - destruct (Hsd b) as [_ ->]. done.
    - intros x Hx. by apply Hijk. }
  pose proof (few_lengths _ _ Hi) as Hfw. cbn in Hfw. destruct Hi as [H1 H2 H3 H4 H5 H6 H7 H8 H9 H10 H11 H12 H13]. cbn in H9, H10, H11, H12.
  split; rewrite ?Hav, ?Hse, ?Hur, ?Hui, ?Hdu; try done.
  - apply NoDup_cons. split; [exact Hrn|exact H1].
  - intros x x' i' [->|Hx]%Hin [->|Hx']%Hin Hi1 Hi2; [done|by destruct (Hapart x' i')|by destruct (Hapart x i')|by apply (H2 x x' i')].
  - intros x x' [->|Hx]%Hin [->|Hx']%Hin Hbb; [done|by destruct (Hbuf x')|by destruct (Hbuf x)|by apply H3].
  - intros x Hx. rewrite Hfr. setoid_rewrite Hin. destruct (decide (x ∈ [i; j; k])) as [Hx3|Hx3].
    + split; [|intros Hall; exfalso; apply (Hall r); auto]. intros Hne. exfalso. by apply Hne, upd3_in.
    + rewrite upd3_ne by done. rewrite H4 by done. split; [intros Hall y [->|Hy]; [done|by apply Hall]|auto].
  - intros x [->|Hx]%Hin; [done|]. eapply chain_ok_same; [by apply H5| | |apply Hsd].
    + intros i' Hi'. pose proof (Hapart x i' Hx Hi') as Hno. rewrite Hown in Hno. by rewrite Hd, upd3_ne.
    + rewrite Ho, upd_ne; [done|by apply Hhd].
  - intros x Hx. rewrite Hb, Hinf. destruct (decide (x = r)) as [->|Hxr]; [cbn; by rewrite !upd_eq|].
    assert (x ∈ published f) as Hx1 by (unfold published in *; cbn in *; set_solver). assert (x ∈ all f) as Hx2 by (unfold all; set_solver).
    rewrite !upd_ne by auto. by apply H6.
  - intros x Hx. rewrite Hb, upd_ne; [by apply H7|]. apply Hbuf. unfold all. set_solver.
  - intros x Hx. apply list_elem_of_singleton in Hx as ->. split; [done|]. rewrite Hrg, upd_eq. done.
  - intros n x Hx. cbn in Hx. rewrite Hrg, H10, u16_mod8. apply lookup_lt_Some in Hx as Hlt. rewrite upd_ne by (apply slot_ne; lia). by apply H9.
Qed.

Lemma free_chain_run r c s : chain_ok s r -> (forall i, i ∈ own r -> v_free s i = 0) ->
  free_chain (Z.of_nat (r_h r)) c s = Ret (set_woken (ChDiskFree :: ChDiskFree :: ChDiskFree :: woken c) c) (freed (r_d2 r) (freed (r_d1 r) (freed (r_h r) s))) tt.
Proof.
  intros [H0 H1 H2 _ _ Hn Hl] Hf. unfold own in *. apply NoDup_cons in Hn as [[Hij [Hik _]%not_elem_of_cons]%not_elem_of_cons Hn]. apply NoDup_cons in Hn as [[Hjk _]%not_elem_of_cons _].
  unfold free_chain, NUM. rewrite loop_S. unfold bind at 1 2, gets at 1. cbn [obind]. rewrite Nat2Z.id, H0. unfold bind at 1. rewrite free_desc_run by (first [apply Hl|apply Hf]; set_solver).
  cbn [obind vd_flags vd_next]. change (negb (Z.land VRING_DESC_F_NEXT VRING_DESC_F_NEXT =? 0)) with true. cbn [ret obind].
  rewrite loop_S. unfold bind at 1 2, gets at 1. cbn [obind]. rewrite Nat2Z.id. cbn [freed v_desc set_desc set_free]. rewrite upd_ne, H1 by done. unfold bind at 1.
  rewrite free_desc_run; [|apply Hl; set_solver|cbn; rewrite upd_ne by done; apply Hf; set_solver].
  cbn [obind vd_flags vd_next]. replace (negb (Z.land (Z.lor (if r_wr r then 0 else VRING_DESC_F_WRITE) VRING_DESC_F_NEXT) VRING_DESC_F_NEXT =? 0)) with true by (by destruct (r_wr r)). cbn [ret obind].
  rewrite loop_S. unfold bind at 1 2, gets at 1. cbn [obind]. rewrite Nat2Z.id. cbn [freed v_desc set_desc set_free]. rewrite !upd_ne, H2 by done. unfold bind at 1.
  rewrite free_desc_run; [|apply Hl; set_solver|cbn; rewrite !upd_ne by done; apply Hf; set_solver]. reflexivity.
Qed.

(** What the thread [t] at [TDesc] does: it gets three descriptors and formats them. *)
Lemma segment_try t b wr w s P T D A (f := mkflight [] P T D A) (blk := vb_blockno (v_bufs s b)) :
  vinv s f -> (length (all f) <= 1)%nat -> (forall r, r ∈ all f -> r_b r <> b) ->
  exists r s', r_t r = t /\ r_b r = b /\ r_wr r = wr /\ r_blk r = blk /\
    segment (TDesc b wr (2 * blk) w) kctx s = Ret kctx s' (TRing (idx_of r) b) /\
    vinv s' (mkflight [r] P T D A) /\ kept s s' f /\ v_mmio s' = v_mmio s.
Proof.
  intros Hi Hfew Hb. destruct (alloc3_run kctx s f Hi Hfew) as (i & j & k & Hnd & Hijk & Hal).
  destruct (format_vinv t i j k b wr blk kctx s P T D A Hi Hfew Hijk Hnd eq_refl Hb) as (s' & Hrun & Hi' & Hk & Hm).
  exists (mkvr t i j k b wr blk), s'. split_and!; [done..| |exact Hi'|exact Hk|exact Hm].
  cbn [segment]. unfold bind at 1. rewrite Hal. cbn [obind]. unfold bind at 1 in Hrun. unfold bind at 1 2. unfold idx_of in Hrun |- *. cbn [r_h r_d1 r_d2] in Hrun |- *. unfold obind in *.
  destruct (format _ _ _ _ _ _) as [c1 s1 []| | |]; [|done..]. by rewrite Hrun.
Qed.

(** Or, with two requests in flight, it goes to sleep. *)
Lemma segment_full b wr sec w s f : vinv s f -> length (all f) = 2%nat ->
  exists s', segment (TDesc b wr sec w) kctx s = Ret (set_woken [ChDiskFree; ChDiskFree] kctx) s' (TDesc b wr sec false) /\
    vinv s' f /\ kept s s' f /\ v_mmio s' = v_mmio s.
Proof.
  intros Hi Hfew. destruct (alloc3_full kctx s f Hi Hfew) as (i & j & Hil & Hjl & Hni & Hnj & Hal). eexists. split_and!.
  - cbn [segment]. unfold bind at 1. rewrite Hal. reflexivity.
  - by apply alloc3_full_vinv.
  - done.
  - done.
Qed.

Lemma rw_check_busy idx b s : vb_disk (v_bufs s b) = 1 -> rw_check idx b kctx s = Ret kctx s (TWait idx b false).
Proof. intros Hd. unfold rw_check, bind at 1, gets at 1. cbn [obind]. by rewrite Hd. Qed.

(** A thread whose request is done frees its descriptors and wakes those that wait for some. *)
Lemma rw_check_done r s f : vinv s f -> r ∈ f_ack f ->
  rw_check (idx_of r) (r_b r) kctx s = Ret (set_woken [ChDiskFree; ChDiskFree; ChDiskFree] kctx) (retired r s) TIdle.
Proof.
  intros Hi Hr. assert (r ∈ all f) as Hra by (apply in_all; auto). unfold rw_check, bind at 1, gets at 1. cbn [obind]. rewrite (vi_ack _ _ Hi) by done. cbn [Z.eqb].
  unfold rw_finish, bind at 1 2, modify at 1. cbn [obind fst idx_of]. rewrite Nat2Z.id. rewrite free_chain_run.
  - reflexivity.
  - eapply chain_ok_same; [by apply (vi_chain _ _ Hi)|done..].
  - intros x Hx. cbn. destruct (decide (v_free s x = 0)) as [|Hne]; [done|]. exfalso.
    refine (proj1 (vi_free _ _ Hi x _) Hne r Hra Hx). apply (ch_lt s r); [by apply (vi_chain _ _ Hi)|done].
Qed.

Lemma retired_kept r s f : kept s (retired r s) f.
Proof. done. Qed.

(** The handler completes the first request of the used ring, or panics if it failed. *)
Lemma segment_one s F P T r D A : vinv s (mkflight F P T (r :: D) A) ->
  segment TOne kctx s = if v_status s (r_h r) =? 0 then Ret (set_woken [ChBuf (r_b r)] kctx) (acked (r_b r) s) TLoop else Panic "virtio_disk_intr status".
Proof.
  intros Hi. cbn [segment]. unfold intr_one, bind at 1 2, gets at 1. cbn [obind]. change (Z.of_nat NUM) with 8.
  pose proof (vi_don _ _ Hi 0%nat r eq_refl) as Hu. rewrite Z.add_0_r in Hu. rewrite Hu, Nat2Z.id.
  destruct (v_status s (r_h r) =? 0); [|reflexivity]. cbn [negb].
  destruct (vi_busy _ _ Hi r) as [_ ->]; [unfold published; cbn; set_solver|]. reflexivity.
Qed.

Lemma segment_loop s f : vinv s f -> segment TLoop kctx s = Ret kctx s (match f_don f with [] => TIdle | _ => TOne end).
Proof.
  intros Hi. cbn [segment]. unfold intr_more, bind at 1, gets at 1. cbn [obind]. pose proof (few_lengths _ _ Hi) as Hfew. rewrite (vi_used _ _ Hi).
  pose proof (proj2 (vi_range _ _ Hi)) as Hr. destruct (f_don f) as [|r D]; cbn [length] in *.
  - rewrite Z.add_0_r, (u16_small (v_used_idx s)) by done. rewrite Z.eqb_refl. done.
  - rewrite (proj2 (Z.eqb_neq _ _)); [done|]. apply not_eq_sym, u16_ne; [done|lia].
Qed.

Lemma request_of_chain s r : chain_ok s r -> request_of s (r_h r) = Some (r_wr r, r_blk r, r_b r, r_h r).
Proof.
  intros [H0 H1 H2 Ho Hb _ _]. unfold request_of. rewrite H0. cbn [vd_addr vd_next]. rewrite Nat2Z.id, H1. cbn [vd_addr vd_next]. rewrite Nat2Z.id, H2. cbn [vd_addr vd_len vd_flags].
  rewrite Ho. cbn [vr_type vr_sector]. rewrite (Z.mul_comm 2), Z.mod_mul, Z.div_mul by lia. by destruct (r_wr r).
Qed.

(** * Threads and requests *)

(** The descriptors and the buffer of a thread that has made its request. *)
Definition chained (p : pc) : option (Z * Z * Z * nat) :=
  match p with TRing idx b | TAvail idx b | TWait idx b _ => Some (idx, b) | _ => None end.

Abbreviation blk s b := (vb_blockno (v_bufs s b)).

Definition lock_ok (g : nat -> pc) (lk : option nat) : Prop := forall t, holds (g t) = true <-> lk = Some t.

(** No two calls are about the same buffer or the same block. *)
Definition apart (s : vdisk) (g : nat -> pc) : Prop := forall t t' b b', uses (g t) = Some b -> uses (g t') = Some b' -> t <> t' ->
  b <> b' /\ blk s b <> blk s b'.

(** Each request belongs to a thread that is where the stage of the request says, and nobody is
    asleep or unnoticed without a reason. *)
Record tinv (s : vdisk) (g : nat -> pc) (lk : option nat) (f : flight) : Prop := {
  ti_form r : r ∈ f_form f -> g (r_t r) = TRing (idx_of r) (r_b r);
  ti_out r : r ∈ published f -> g (r_t r) = TAvail (idx_of r) (r_b r) \/ exists w, g (r_t r) = TWait (idx_of r) (r_b r) w;
  ti_ack r : r ∈ f_ack f -> g (r_t r) = TWait (idx_of r) (r_b r) true;
  ti_chain t ib : chained (g t) = Some ib -> exists r, r ∈ all f /\ r_t r = t;
  ti_lock : lock_ok g lk;
  ti_apart : apart s g;
  ti_desc t b wr sec w : g t = TDesc b wr sec w -> sec = 2 * blk s b;
  ti_one t : g t = TOne -> f_don f <> [];
  ti_full t b wr sec : g t = TDesc b wr sec false -> length (all f) = 2%nat;
  ti_kick : f_pend f <> [] -> notified s = true \/ exists t idx b, g t = TAvail idx b;
  ti_irq : f_don f <> [] -> irq s = true \/ exists t, handler (g t) = true }.

Lemma ti_all s g lk f r : tinv s g lk f -> r ∈ all f -> chained (g (r_t r)) = Some (idx_of r, r_b r).
Proof.
  intros Ht Hr. unfold all in Hr. apply elem_of_app in Hr as [Hr|[Hr|Hr]%elem_of_app].
  - by rewrite (ti_form _ _ _ _ Ht).
  - destruct (ti_out _ _ _ _ Ht r Hr) as [->|[w ->]]; done.
  - by rewrite (ti_ack _ _ _ _ Ht).
Qed.

Lemma chained_uses p idx b : chained p = Some (idx, b) -> uses p = Some b.
Proof. destruct p; naive_solver. Qed.

Lemma ti_uses s g lk f r : tinv s g lk f -> r ∈ all f -> uses (g (r_t r)) = Some (r_b r).
Proof. intros Ht Hr. eapply chained_uses. by eapply ti_all. Qed.

Lemma idx_of_inj r r' : idx_of r = idx_of r' -> r_h r = r_h r' /\ r_d1 r = r_d1 r' /\ r_d2 r = r_d2 r'.
Proof. unfold idx_of. intros [= ? ? ?]. lia. Qed.

(** A thread has one request. *)
Lemma ti_uniq s g lk f r r' : vinv s f -> tinv s g lk f -> r ∈ all f -> r' ∈ all f -> r_t r = r_t r' -> r = r'.
Proof.
  intros Hv Ht Hr Hr' E. pose proof (ti_all _ _ _ _ r Ht Hr) as H1. pose proof (ti_all _ _ _ _ r' Ht Hr') as H2. rewrite E in H1. rewrite H1 in H2.
  injection H2 as Hh _ _ _. apply (vi_disj _ _ Hv r r' (r_h r)); [done|done|unfold own; set_solver|]. unfold own. assert (r_h r = r_h r') as -> by lia. set_solver.
Qed.

(** The requests of different threads are for different buffers and blocks. *)
Lemma ti_distinct s g lk f r r' : vinv s f -> tinv s g lk f -> r ∈ all f -> r' ∈ all f -> r <> r' -> r_b r <> r_b r' /\ r_blk r <> r_blk r'.
Proof.
  intros Hv Ht Hr Hr' Hne. assert (r_t r <> r_t r') as Htne by (intros E; apply Hne; by eapply ti_uniq).
  destruct (ti_apart _ _ _ _ Ht _ _ _ _ (ti_uses _ _ _ _ _ Ht Hr) (ti_uses _ _ _ _ _ Ht Hr') Htne) as [Hb Hk].
  split; [done|]. by rewrite <- (ch_blk _ _ (vi_chain _ _ Hv r Hr)), <- (ch_blk _ _ (vi_chain _ _ Hv r' Hr')).
Qed.

(** The request of a thread that waits for the device, or is about to. *)
Lemma ti_request s g lk f t idx b : tinv s g lk f -> chained (g t) = Some (idx, b) ->
  exists r, r ∈ all f /\ r_t r = t /\ idx = idx_of r /\ b = r_b r.
Proof.
  intros Ht Hc. destruct (ti_chain _ _ _ _ Ht t _ Hc) as (r & Hr & <-). exists r. rewrite (ti_all _ _ _ _ r Ht Hr) in Hc. by simplify_eq.
Qed.

(** Waking threads up. *)
Definition rouses (g g' : nat -> pc) : Prop := forall t, g' t = g t \/ g' t = rouse (g t).

Lemma wake_rouses w g : rouses g (wake w g).
Proof. intros t. unfold wake. destruct (g t) as [|? ? ? []| | |? ? []| | |]; try (by left); case_bool_decide; auto. Qed.

Lemma rouse_views p p' : p' = p \/ p' = rouse p -> chained p' = chained p /\ uses p' = uses p /\ holds p' = holds p /\ handler p' = handler p.
Proof. intros [->| ->]; [done|]. by destruct p. Qed.

Lemma rouse_keeps p p' : p' = p \/ p' = rouse p -> (forall q, p' = q -> (forall b wr sec, q <> TDesc b wr sec true) -> (forall idx b, q <> TWait idx b true) -> p = q).
Proof. intros [->| ->] q Hq H1 H2; [done|]. destruct p; cbn in Hq; subst q; try done; exfalso; [by eapply H1|by eapply H2]. Qed.

Lemma tinv_rouses s g g' lk f : rouses g g' -> tinv s g lk f -> tinv s g' lk f.
Proof.
  intros Hg [H1 H2 H3 H4 H5 H6 H7 H8 H9 H10 H11].
  assert (forall t, chained (g' t) = chained (g t) /\ uses (g' t) = uses (g t) /\ holds (g' t) = holds (g t) /\ handler (g' t) = handler (g t)) as Hv by (intros t; by apply rouse_views).
  split.
  - intros r Hr. specialize (H1 r Hr). destruct (Hg (r_t r)) as [->| ->]; [done|]. by rewrite H1.
  - intros r Hr. destruct (Hg (r_t r)) as [->| ->]; [by apply H2|]. destruct (H2 r Hr) as [->|[w ->]]; eauto.
  - intros r Hr. destruct (Hg (r_t r)) as [->| ->]; [by apply H3|]. by rewrite H3.
  - intros t ib. destruct (Hv t) as (-> & _). apply H4.
  - intros t. destruct (Hv t) as (_ & _ & -> & _). apply H5.
  - intros t t' b b'. destruct (Hv t) as (_ & -> & _). destruct (Hv t') as (_ & -> & _). apply H6.
  - intros t b wr sec w. destruct (Hg t) as [->| ->]; [apply H7|]. intros E. destruct (g t) eqn:Hgt; try done. cbn in E. simplify_eq. by eapply H7.
  - intros t E. apply (H8 t). eapply rouse_keeps; [apply Hg|exact E|done|done].
  - intros t b wr sec E. eapply (H9 t). eapply rouse_keeps; [apply Hg|exact E|by intros ? ? ? [=]|done].
  - intros Hp. destruct (H10 Hp) as [|(t & idx & b & Ht)]; [by left|right]. exists t, idx, b. destruct (Hg t) as [->| ->]; by rewrite Ht.
  - intros Hd. destruct (H11 Hd) as [|(t & Ht)]; [by left|right]. exists t. destruct (Hv t) as (_ & _ & _ & ->). done.
Qed.

(** A thread that goes from one program counter to the next. *)
Lemma lock_move g lk t p : lock_ok g lk -> lk = None \/ lk = Some t -> lock_ok (upd g t p) (if holds p then Some t else None).
Proof.
  intros Hl Hlk x. destruct (decide (x = t)) as [->|Hx]; [rewrite upd_eq; by destruct (holds p)|]. rewrite upd_ne by done. rewrite (Hl x).
  destruct (holds p); destruct Hlk as [->| ->]; naive_solver.
Qed.

Lemma apart_move s s' g t p : (forall b, blk s' b = blk s b) -> uses p = uses (g t) \/ uses p = None -> apart s g -> apart s' (upd g t p).
Proof.
  intros Hb Hp Ha x x' b b'. rewrite !Hb. destruct (decide (x = t)) as [->|Hx], (decide (x' = t)) as [->|Hx']; rewrite ?upd_eq, ?upd_ne by done; [done| | |apply Ha].
  - intros H1 H2. destruct Hp as [E|E]; rewrite E in H1; [|done]. by apply Ha.
  - intros H1 H2. destruct Hp as [E|E]; rewrite E in H2; [|done]. by apply Ha.
Qed.

(** The threads other than [t]. *)
Lemma other_threads s g lk f t r : vinv s f -> tinv s g lk f -> chained (g t) = None -> r ∈ all f -> r_t r <> t.
Proof. intros Hv Ht Hc Hr E. pose proof (ti_all _ _ _ _ r Ht Hr) as H. rewrite E in H. by rewrite H in Hc. Qed.

(** A step of the state that the threads do not notice. *)
Lemma tinv_frame s s' g lk f : (forall t b, uses (g t) = Some b -> blk s' b = blk s b) ->
  (f_pend f <> [] -> notified s = true -> notified s' = true) ->
  (f_don f <> [] -> irq s = true -> irq s' = true \/ exists t, handler (g t) = true) -> tinv s g lk f -> tinv s' g lk f.
Proof.
  intros Hb Hn Hq [H1 H2 H3 H4 H5 H6 H7 H8 H9 H10 H11]. split; try done.
  - intros t t' b b' E E'. rewrite (Hb _ _ E), (Hb _ _ E'). by apply H6.
  - intros t b wr sec w E. rewrite (Hb t b) by (by rewrite E). by eapply H7.
  - intros Hp. destruct (H10 Hp); auto.
  - intros Hd. destruct (H11 Hd); auto.
Qed.

(** A step of a thread that has no request before or after it. *)
Lemma tinv_free s g lk lk' f t p : vinv s f -> tinv s g lk f -> chained (g t) = None -> chained p = None ->
  lock_ok (upd g t p) lk' -> apart s (upd g t p) ->
  (forall b wr sec w, p = TDesc b wr sec w -> sec = 2 * blk s b /\ (w = false -> length (all f) = 2%nat)) ->
  (p = TOne -> f_don f <> []) -> (f_don f <> [] -> handler (g t) = true -> handler p = true) -> tinv s (upd g t p) lk' f.
Proof.
  intros Hv Ht Hg Hp Hlk Hap Hd Ho Hh. pose proof (fun r => other_threads _ _ _ _ t r Hv Ht Hg) as Hot.
  destruct Ht as [H1 H2 H3 H4 H5 H6 H7 H8 H9 H10 H11]. split; try done.
  - intros r Hr. rewrite upd_ne; [by apply H1|]. apply Hot. unfold all. set_solver.
  - intros r Hr. rewrite upd_ne; [by apply H2|]. apply Hot. unfold all. set_solver.
  - intros r Hr. rewrite upd_ne; [by apply H3|]. apply Hot. unfold all. set_solver.
  - intros x ib. unfold upd. case_decide; [by rewrite Hp|apply H4].
  - intros x b wr sec w. unfold upd. case_decide; [intros E; by destruct (Hd _ _ _ _ E)|apply H7].
  - intros x. unfold upd. case_decide; [done|apply H8].
  - intros x b wr sec. unfold upd. case_decide; [intros E; by destruct (Hd _ _ _ _ E); auto|apply H9].
  - intros Hpe. destruct (H10 Hpe) as [|(x & idx & b & Hx)]; [by left|right]. exists x, idx, b. rewrite upd_ne; [done|]. intros ->. by rewrite Hx in Hg.
  - intros Hdo. destruct (H11 Hdo) as [|(x & Hx)]; [by left|right]. exists x. unfold upd. case_decide; [subst; auto|done].
Qed.

(** A thread gets its descriptors. *)
Lemma tinv_form s s' g f t b wr sec w r P T D A : f = mkflight [] P T D A -> vinv s f -> tinv s g None f ->
  g t = TDesc b wr sec w -> (length (all f) <= 1)%nat -> r_t r = t -> r_b r = b -> (forall b, blk s' b = blk s b) -> v_mmio s' = v_mmio s ->
  tinv s' (upd g t (TRing (idx_of r) b)) (Some t) (mkflight [r] P T D A).
Proof.
  intros -> Hv Ht Hg Hfew Hrt Hrb Hblk Hm. pose proof (fun r => other_threads _ _ _ _ t r Hv Ht ltac:(by rewrite Hg)) as Hot.
  destruct Ht as [H1 H2 H3 H4 H5 H6 H7 H8 H9 H10 H11]. split.
  - intros x Hx. apply list_elem_of_singleton in Hx as ->. by rewrite Hrt, Hrb, upd_eq.
  - intros x Hx. rewrite upd_ne; [by apply H2|]. apply Hot. unfold all, published in *. cbn in *. set_solver.
  - intros x Hx. rewrite upd_ne; [by apply H3|]. apply Hot. unfold all. set_solver.
  - intros x ib. unfold upd. case_decide; [intros _; subst x; exists r; unfold all; cbn; set_solver|]. intros E. destruct (H4 x ib E) as (r' & Hr' & <-). exists r'. unfold all in *. cbn in *. set_solver.
  - exact (lock_move g None t (TRing (idx_of r) b) H5 (or_introl eq_refl)).
  - apply (apart_move s); [done|left; by rewrite Hg|done].
  - intros x b' wr' sec' w'. rewrite Hblk. unfold upd. case_decide; [done|apply H7].
  - intros x. unfold upd. case_decide; [done|apply H8].
  - intros x b' wr' sec'. unfold upd. case_decide; [done|]. intros E. pose proof (H9 _ _ _ _ E). lia.
  - intros Hpe. unfold notified. rewrite Hm. destruct (H10 Hpe) as [|(x & idx & b' & Hx)]; [by left|right]. exists x, idx, b'. rewrite upd_ne; [done|]. intros ->. by rewrite Hx in Hg.
  - intros Hd. unfold irq. rewrite Hm. destruct (H11 Hd) as [|(x & Hx)]; [by left|right]. exists x. rewrite upd_ne; [done|]. intros ->. by rewrite Hg in Hx.
Qed.

(** A thread publishes its request. *)
Lemma tinv_bump s s' g lk t idx b r P T D A (f := mkflight [r] P T D A) (f' := mkflight [] (P ++ [r]) T D A) : vinv s f -> tinv s g lk f ->
  g t = TRing idx b -> lk = Some t -> (forall b, blk s' b = blk s b) -> v_mmio s' = v_mmio s ->
  tinv s' (upd g t (TAvail idx b)) (Some t) f'.
Proof.
  intros Hv Ht Hg -> Hblk Hm. destruct (ti_request _ _ _ _ t idx b Ht ltac:(by rewrite Hg)) as (r' & Hr' & Hrt & -> & ->).
  assert (r' = r) as ->.
  { unfold all in Hr'. apply elem_of_app in Hr' as [Hr'|[Hr'|Hr']%elem_of_app]; [by apply list_elem_of_singleton in Hr'| |].
    - destruct (ti_out _ _ _ _ Ht r' Hr') as [E|[w E]]; rewrite Hrt, Hg in E; done.
    - pose proof (ti_ack _ _ _ _ Ht r' Hr') as E. by rewrite Hrt, Hg in E. }
  assert (forall x, x ∈ all f' <-> x ∈ all f) as Hin by (intros x; unfold all, published, f, f'; cbn; set_solver).
  assert (forall x, x ∈ all f -> r_t x = t -> x = r) as Huq by (intros x Hx E; eapply ti_uniq; [done|done|done|done|congruence]).
  assert (length (all f') = length (all f)) as Hlen by (unfold all, published; cbn; rewrite !length_app; cbn; lia).
  assert (r ∉ T ++ D ++ A ++ P) as Hnr.
  { pose proof (vi_nodup _ _ Hv) as Hn. unfold all, published in Hn. cbn in Hn. apply NoDup_cons in Hn as [Hn _]. set_solver. }
  destruct Ht as [H1 H2 H3 H4 H5 H6 H7 H8 H9 H10 H11]. split.
  - by intros x ?%elem_of_nil.
  - intros x Hx. destruct (decide (x = r)) as [->|Hxr]; [left; by rewrite Hrt, upd_eq|].
    assert (x ∈ published f) as Hx' by (unfold published, f, f' in *; cbn in *; set_solver). rewrite upd_ne; [by apply H2|]. intros E. apply Hxr, Huq; [unfold all; set_solver|done].
  - intros x Hx. rewrite upd_ne; [by apply H3|]. intros E. assert (x = r) as -> by (apply Huq; [unfold all; set_solver|done]). cbn in Hx. set_solver.
  - intros x ib. unfold upd. case_decide; [intros _; subst x; exists r; by rewrite Hin|]. intros E. destruct (H4 x ib E) as (r' & Hr'' & <-). exists r'. by rewrite Hin.
  - exact (lock_move g _ t (TAvail (idx_of r) (r_b r)) H5 (or_intror eq_refl)).
  - apply (apart_move s); [done|left; by rewrite Hg|done].
  - intros x b' wr' sec' w'. rewrite Hblk. unfold upd. case_decide; [done|apply H7].
  - intros x. unfold upd. case_decide; [done|apply H8].
  - intros x b' wr' sec'. unfold upd. case_decide; [done|]. rewrite Hlen. apply H9.
  - intros _. right. exists t, (idx_of r), (r_b r). by rewrite upd_eq.
  - intros Hd. unfold irq. rewrite Hm. destruct (H11 Hd) as [|(x & Hx)]; [by left|right]. exists x. rewrite upd_ne; [done|]. intros ->. by rewrite Hg in Hx.
Qed.

(** A thread goes to sleep until its request is done. *)
Lemma tinv_wait s g lk t r w f : vinv s f -> tinv s g lk f -> r ∈ published f -> r_t r = t -> lk = None \/ lk = Some t ->
  g t = TAvail (idx_of r) (r_b r) \/ g t = TWait (idx_of r) (r_b r) w ->
  (f_pend f <> [] -> notified s = true \/ exists t' idx b, t' <> t /\ g t' = TAvail idx b) ->
  tinv s (upd g t (TWait (idx_of r) (r_b r) false)) None f.
Proof.
  intros Hv Ht Hr Hrt Hlk Hg Hk. assert (r ∈ all f) as Hra by (unfold all; set_solver).
  assert (forall x, x ∈ all f -> r_t x = t -> x = r) as Huq by (intros x Hx E; eapply ti_uniq; [done|done|done|done|congruence]).
  assert (handler (g t) = false) as Hgh by (by destruct Hg as [->| ->]).
  pose proof (vi_nodup _ _ Hv) as Hn.
  assert ((r ∉ f_form f) /\ (r ∉ f_ack f)) as [Hnf Hna].
  { unfold all in Hn. apply NoDup_app in Hn as (_ & Hn1 & Hn). apply NoDup_app in Hn as (_ & Hn2 & _). split; [intros E; apply (Hn1 r E); set_solver|by apply Hn2]. }
  destruct Ht as [H1 H2 H3 H4 H5 H6 H7 H8 H9 H10 H11]. split; try done.
  - intros x Hx. rewrite upd_ne; [by apply H1|]. intros E. assert (x = r) as -> by (apply Huq; [unfold all; set_solver|done]). done.
  - intros x Hx. destruct (decide (x = r)) as [->|Hxr]; [right; exists false; by rewrite Hrt, upd_eq|].
    rewrite upd_ne; [by apply H2|]. intros E. apply Hxr, Huq; [unfold all; set_solver|done].
  - intros x Hx. rewrite upd_ne; [by apply H3|]. intros E. assert (x = r) as -> by (apply Huq; [unfold all; set_solver|done]). done.
  - intros x ib. unfold upd. case_decide; [intros _; subst x; eauto|apply H4].
  - exact (lock_move g lk t (TWait (idx_of r) (r_b r) false) H5 Hlk).
  - apply (apart_move s); [done|left; by destruct Hg as [->| ->]|done].
  - intros x b' wr' sec' w'. unfold upd. case_decide; [done|apply H7].
  - intros x. unfold upd. case_decide; [done|apply H8].
  - intros x b' wr' sec'. unfold upd. case_decide; [done|]. apply H9.
  - intros Hp. destruct (Hk Hp) as [|(x & idx & b & Hx & Ha)]; [by left|right]. exists x, idx, b. by rewrite upd_ne.
  - intros Hd. destruct (H11 Hd) as [|(x & Hx)]; [by left|right]. exists x. rewrite upd_ne; [done|]. intros ->. by rewrite Hgh in Hx.
Qed.

(** A thread returns. *)
Lemma tinv_retire s s' g t r A1 A2 F P T D (f := mkflight F P T D (A1 ++ r :: A2)) (f' := mkflight F P T D (A1 ++ A2)) :
  vinv s f -> tinv s g None f -> r_t r = t -> (forall b, blk s' b = blk s b) -> v_mmio s' = v_mmio s ->
  (forall x b wr sec, g x <> TDesc b wr sec false) -> tinv s' (upd g t TIdle) None f'.
Proof.
  intros Hv Ht Hrt Hblk Hm Hd. assert (r ∈ all f) as Hra by (apply in_all; cbn; set_solver).
  pose proof (ti_ack _ _ _ _ Ht r ltac:(cbn; set_solver)) as Hg. rewrite Hrt in Hg.
  assert (all f ≡ₚ r :: all f') as Hp by (unfold all, published, f, f'; cbn; solve_Permutation).
  assert (forall x, x ∈ all f <-> x = r \/ x ∈ all f') as Hin by (intros x; rewrite Hp; by rewrite elem_of_cons).
  assert (r ∉ all f') as Hrn by (pose proof (vi_nodup _ _ Hv) as Hn; rewrite Hp in Hn; by apply NoDup_cons in Hn as [Hn _]).
  assert (forall x, x ∈ all f' -> r_t x <> t) as Hot.
  { intros x Hx E. apply Hrn. assert (r = x) as -> by (eapply ti_uniq; [done|done|done|apply Hin; auto|congruence]). done. }
  destruct Ht as [H1 H2 H3 H4 H5 H6 H7 H8 H9 H10 H11]. split.
  - intros x Hx. rewrite upd_ne; [by apply H1|]. apply Hot. unfold all. set_solver.
  - intros x Hx. rewrite upd_ne; [by apply H2|]. apply Hot. unfold all. set_solver.
  - intros x Hx. rewrite upd_ne; [apply H3; cbn in *; set_solver|]. apply Hot. unfold all. set_solver.
  - intros x ib. unfold upd. case_decide as Hxt; [done|]. intros E. destruct (H4 x ib E) as (r' & Hr' & <-). exists r'. apply Hin in Hr' as [->|Hr']; [done|]. done.
  - exact (lock_move g None t TIdle H5 (or_introl eq_refl)).
  - apply (apart_move s); [done|by right|done].
  - intros x b' wr' sec' w'. rewrite Hblk. unfold upd. case_decide; [done|apply H7].
  - intros x. unfold upd. case_decide; [done|apply H8].
  - intros x b' wr' sec'. unfold upd. case_decide; [done|]. intros E. by destruct (Hd _ _ _ _ E).
  - intros Hpe. unfold notified. rewrite Hm. destruct (H10 Hpe) as [|(x & idx & b' & Hx)]; [by left|right]. exists x, idx, b'. rewrite upd_ne; [done|]. intros ->. by rewrite Hx in Hg.
  - intros Hdo. unfold irq. rewrite Hm. destruct (H11 Hdo) as [|(x & Hx)]; [by left|right]. exists x. rewrite upd_ne; [done|]. intros ->. by rewrite Hg in Hx.
Qed.

(** A request goes from one stage to a later one. *)
Lemma tinv_stage s s' g lk f f' : (all f' ≡ₚ all f) -> f_form f' = f_form f ->
  (forall r, r ∈ published f' -> r ∈ published f) ->
  (forall r, r ∈ f_ack f' -> r ∈ f_ack f \/ g (r_t r) = TWait (idx_of r) (r_b r) true) ->
  (f_don f' <> [] \/ forall t, g t <> TOne) ->
  (f_pend f' <> [] -> f_pend f <> []) ->
  (f_don f' <> [] -> irq s' = true \/ exists t, handler (g t) = true) ->
  (forall b, blk s' b = blk s b) -> notified s' = notified s -> tinv s g lk f -> tinv s' g lk f'.
Proof.
  intros Hp Hf Hpub Hak Hdo Hpe Hq Hblk Hn [H1 H2 H3 H4 H5 H6 H7 H8 H9 H10 H11]. split; rewrite ?Hf; try done.
  - auto.
  - intros r [Hr|Hr]%Hak; auto.
  - intros t ib E. destruct (H4 t ib E) as (r & Hr & <-). exists r. by rewrite Hp.
  - intros t t' b b'. rewrite !Hblk. apply H6.
  - intros t b wr sec w. rewrite Hblk. apply H7.
  - intros t E. destruct Hdo as [|Hdo]; [done|by destruct (Hdo t)].
  - intros t b wr sec E. rewrite Hp. by eapply H9.
  - intros Hpe'. rewrite Hn. auto.
Qed.

Lemma tinv_fetch s s' g lk F r P T D A : (forall b, blk s' b = blk s b) -> v_mmio s' = v_mmio s ->
  tinv s g lk (mkflight F (r :: P) T D A) -> tinv s' g lk (mkflight F P (T ++ [r]) D A).
Proof.
  intros Hblk Hm Ht. eapply tinv_stage; [..|exact Ht]; try done.
  - unfold all, published; cbn; solve_Permutation.
  - intros x. unfold published. cbn. set_solver.
  - intros x Hx. by left.
  - cbn. destruct (decide (D = [])) as [->|]; [right|by left]. intros t E. by apply (ti_one _ _ _ _ Ht t E).
  - intros Hd. unfold irq. rewrite Hm. by apply (ti_irq _ _ _ _ Ht).
  - unfold notified. by rewrite Hm.
Qed.

Lemma tinv_complete s s' g lk F P T1 r T2 D A : (forall b, blk s' b = blk s b) -> irq s' = true -> notified s' = notified s ->
  tinv s g lk (mkflight F P (T1 ++ r :: T2) D A) -> tinv s' g lk (mkflight F P (T1 ++ T2) (D ++ [r]) A).
Proof.
  intros Hblk Hq Hn Ht. eapply tinv_stage; [..|exact Ht]; try done; auto.
  - unfold all, published; cbn; solve_Permutation.
  - intros x. unfold published. cbn. set_solver.
  - left. cbn. by destruct D.
Qed.

Lemma tinv_ack s s' g lk F P T r D A : (forall b, blk s' b = blk s b) -> v_mmio s' = v_mmio s -> (forall t, g t <> TOne) ->
  g (r_t r) = TWait (idx_of r) (r_b r) true ->
  tinv s g lk (mkflight F P T (r :: D) A) -> tinv s' g lk (mkflight F P T D (A ++ [r])).
Proof.
  intros Hblk Hm Hone Hg Ht. eapply tinv_stage; [..|exact Ht]; try done; auto.
  - unfold all, published; cbn; solve_Permutation.
  - intros x. unfold published. cbn. set_solver.
  - intros x [Hx|Hx]%elem_of_app; [by left|]. apply list_elem_of_singleton in Hx as ->. by right.
  - intros Hd. unfold irq. rewrite Hm. by apply (ti_irq _ _ _ _ Ht).
  - unfold notified. by rewrite Hm.
Qed.

(** * The atomic disk *)

(** The target of the request is in the hands of the device, or was left as it was by a failed
    transfer. *)
Definition dirty (s : vdisk) (f : flight) (r : vr) : Prop := r ∈ f_taken f \/ (r ∈ f_don f /\ v_status s (r_h r) <> 0).

(** A call has taken effect when the device has finished its request; what the device is not
    writing is as the atomic operations say. *)
Record ainv (a : asys) (s : vdisk) (g : nat -> pc) (f : flight) : Prop := {
  ai_pend r : r ∈ f_form f ++ f_pend f ++ f_taken f -> a_pc a (r_t r) = APend (r_b r) (r_wr r);
  ai_don r : r ∈ f_don f -> a_pc a (r_t r) = if v_status s (r_h r) =? 0 then ADone (r_b r) else APend (r_b r) (r_wr r);
  ai_ack r : r ∈ f_ack f -> a_pc a (r_t r) = ADone (r_b r);
  ai_desc t b wr sec w : g t = TDesc b wr sec w -> a_pc a t = APend b wr;
  ai_idle t : uses (g t) = None -> a_pc a t = AIdle;
  ai_blk b : b_blockno (bufs (a_bio a) b) = blk s b;
  ai_data b : (forall r, dirty s f r -> r_wr r = false -> r_b r <> b) -> b_data (bufs (a_bio a) b) = vb_data (v_bufs s b);
  ai_store x : (forall r, dirty s f r -> r_wr r = true -> r_blk r <> x) -> dsk (a_bio a) x = v_store s x }.

Lemma ainv_auses a s g lk f t : tinv s g lk f -> ainv a s g f -> auses (a_pc a t) = uses (g t).
Proof.
  intros Ht Ha. destruct (chained (g t)) as [[idx b]|] eqn:Hc.
  - destruct (ti_request _ _ _ _ _ _ _ Ht Hc) as (r & Hr & <- & -> & ->). rewrite (ti_uses _ _ _ _ r Ht Hr). apply in_all in Hr as Hr'.
    destruct (decide (r ∈ f_don f)) as [Hd|Hd]; [rewrite (ai_don _ _ _ _ Ha r Hd); by destruct (_ =? 0)|].
    destruct (decide (r ∈ f_ack f)) as [Hk|Hk]; [by rewrite (ai_ack _ _ _ _ Ha r Hk)|]. rewrite (ai_pend _ _ _ _ Ha); [done|]. rewrite !elem_of_app. tauto.
  - destruct (uses (g t)) as [b|] eqn:Hu; [|by rewrite (ai_idle _ _ _ _ Ha t Hu)]. destruct (g t) eqn:Hg; try done. cbn in Hu. simplify_eq. by rewrite (ai_desc _ _ _ _ Ha _ _ _ _ _ Hg).
Qed.

(** Threads move, requests change their stage, but nothing is transferred and no call starts
    or ends. *)
Lemma ainv_quiet a s s' g g' f f' : v_store s' = v_store s ->
  (forall b, vb_data (v_bufs s' b) = vb_data (v_bufs s b) /\ blk s' b = blk s b) ->
  (forall r, r ∈ f_form f' ++ f_pend f' ++ f_taken f' -> a_pc a (r_t r) = APend (r_b r) (r_wr r)) ->
  (forall r, r ∈ f_don f' -> r ∈ f_don f /\ v_status s' (r_h r) = v_status s (r_h r)) ->
  (forall r, r ∈ f_ack f' -> a_pc a (r_t r) = ADone (r_b r)) ->
  (forall r, dirty s f r -> dirty s' f' r) ->
  (forall t b wr sec w, g' t = TDesc b wr sec w -> g t = g' t \/ exists w', g t = TDesc b wr sec w') ->
  (forall t, uses (g' t) = None -> uses (g t) = None) -> ainv a s g f -> ainv a s' g' f'.
Proof.
  intros Hst Hb Hp Hdo Hak Hdi Hd Hu [H1 H2 H3 H4 H5 H6 H7 H8]. split; try done.
  - intros r [Hr ->]%Hdo. by apply H2.
  - intros t b wr sec w E. destruct (Hd _ _ _ _ _ E) as [E'|[w' E']]; [rewrite E in E'|]; by eapply H4.
  - auto.
  - intros b. destruct (Hb b) as [_ ->]. apply H6.
  - intros b Hall. destruct (Hb b) as [-> _]. apply H7. auto.
  - intros x Hall. rewrite Hst. apply H8. auto.
Qed.

Lemma ainv_threads a s s' g g' f : v_store s' = v_store s -> v_status s' = v_status s ->
  (forall b, vb_data (v_bufs s' b) = vb_data (v_bufs s b) /\ blk s' b = blk s b) ->
  (forall t b wr sec w, g' t = TDesc b wr sec w -> g t = g' t \/ exists w', g t = TDesc b wr sec w') ->
  (forall t, uses (g' t) = None -> uses (g t) = None) -> ainv a s g f -> ainv a s' g' f.
Proof.
  intros Hst Hs Hb Hd Hu Ha. eapply ainv_quiet; [exact Hst|exact Hb| | | | |exact Hd|exact Hu|exact Ha].
  - apply Ha.
  - by rewrite Hs.
  - apply Ha.
  - intros r. unfold dirty. by rewrite Hs.
Qed.

Lemma rouses_ainv a s g g' f : rouses g g' -> ainv a s g f -> ainv a s g' f.
Proof.
  intros Hg. apply ainv_threads; try done.
  - intros t b wr sec w E. destruct (Hg t) as [E'|E']; [auto|]. right. rewrite E in E'. destruct (g t); try done. cbn in E'. simplify_eq. eauto.
  - intros t. destruct (rouse_views (g t) (g' t) (Hg t)) as (_ & -> & _). done.
Qed.

(** The request of a thread that had waited for descriptors. *)
Lemma ainv_form a s s' g t b wr sec w r P T D A (f := mkflight [] P T D A) : kept s s' f -> r_t r = t -> r_b r = b -> r_wr r = wr ->
  g t = TDesc b wr sec w -> ainv a s g f -> ainv a s' (upd g t (TRing (idx_of r) b)) (mkflight [r] P T D A).
Proof.
  intros Hk Hrt Hrb Hrw Hg Ha. eapply ainv_quiet; [apply Hk|split; apply Hk| | | | | | |exact Ha].
  - intros x Hx. cbn in Hx. apply elem_of_cons in Hx as [->|Hx]; [|by apply (ai_pend _ _ _ _ Ha)]. rewrite Hrt, Hrb, Hrw. by eapply (ai_desc _ _ _ _ Ha).
  - intros x Hx. split; [done|]. apply Hk. apply in_all. cbn in *. auto.
  - apply (ai_ack _ _ _ _ Ha).
  - intros x [Hx|[Hx Hs]]; [by left|right]. split; [done|]. rewrite (kp_status _ _ _ Hk); [done|]. apply in_all. cbn in *. auto.
  - intros x b' wr' sec' w'. unfold upd. case_decide; [done|auto].
  - intros x. unfold upd. case_decide; [done|auto].
Qed.

(** A call starts. *)
Lemma ainv_call a s g f t b wr sec : (forall r, r ∈ all f -> r_t r <> t) -> ainv a s g f ->
  ainv (mkasys (a_bio a) (upd (a_pc a) t (APend b wr))) s (upd g t (TDesc b wr sec true)) f.
Proof.
  intros Hot [H1 H2 H3 H4 H5 H6 H7 H8]. split; try done; cbn.
  - intros r Hr. rewrite upd_ne; [auto|]. apply Hot, in_all. rewrite !elem_of_app in Hr. tauto.
  - intros r Hr. rewrite upd_ne; [auto|]. apply Hot, in_all. auto.
  - intros r Hr. rewrite upd_ne; [auto|]. apply Hot, in_all. auto.
  - intros x b' wr' sec' w'. unfold upd. case_decide; [naive_solver|apply H4].
  - intros x. unfold upd. case_decide; [done|apply H5].
Qed.

(** A call returns. *)
Lemma ainv_retire a s s' g t r A1 A2 F P T D (f := mkflight F P T D (A1 ++ r :: A2)) (f' := mkflight F P T D (A1 ++ A2)) :
  kept s s' f -> (forall x, x ∈ all f' -> r_t x <> t) -> ainv a s g f ->
  ainv (mkasys (a_bio a) (upd (a_pc a) t AIdle)) s' (upd g t TIdle) f'.
Proof.
  intros Hk Hot [H1 H2 H3 H4 H5 H6 H7 H8].
  assert (forall x, x ∈ D -> v_status s' (r_h x) = v_status s (r_h x)) as Hst by (intros x Hx; apply Hk, in_all; cbn; auto).
  assert (forall x, dirty s f x -> dirty s' f' x) as Hdi by (intros x [Hx|[Hx Hs]]; [by left|right; by rewrite Hst]).
  split; cbn.
  - intros x Hx. rewrite upd_ne; [auto|]. apply Hot, in_all. rewrite !elem_of_app in Hx. cbn. tauto.
  - intros x Hx. rewrite upd_ne; [rewrite Hst by done; auto|]. apply Hot, in_all. auto.
  - intros x Hx. rewrite upd_ne; [apply H3; cbn; set_solver|]. apply Hot, in_all. auto.
  - intros x b' wr' sec' w'. unfold upd. case_decide; [done|apply H4].
  - intros x. unfold upd. case_decide; [done|apply H5].
  - intros b. rewrite (kp_blk _ _ _ Hk). apply H6.
  - intros b Hall. rewrite (kp_data _ _ _ Hk). apply H7. auto.
  - intros x Hall. rewrite (kp_store _ _ _ Hk). apply H8. auto.
Qed.

(** The owner of a buffer changes it. *)
Lemma ainv_set a s g lk f b bn d : tinv s g lk f -> (forall t, uses (g t) <> Some b) -> ainv a s g f ->
  ainv (mkasys (mkbio (upd_bufs b (set_content bn d) (bufs (a_bio a))) (dsk (a_bio a)) (dwrites (a_bio a))) (a_pc a))
    (set_vbufs (upd (v_bufs s) b (mkvbuf (vb_disk (v_bufs s b)) bn d)) s) g f.
Proof.
  intros Ht Hb [H1 H2 H3 H4 H5 H6 H7 H8]. split; try done; cbn.
  - intros x. unfold upd, upd_bufs. case_decide; [done|apply H6].
  - intros x Hall. unfold upd, upd_bufs. case_decide; [done|by apply H7].
Qed.

Lemma ainv_fetch a s s' g F r P T D A (f := mkflight F (r :: P) T D A) : kept s s' f ->
  ainv a s g f -> ainv a s' g (mkflight F P (T ++ [r]) D A).
Proof.
  intros Hk Ha. assert (forall x, x ∈ D -> v_status s' (r_h x) = v_status s (r_h x)) as Hst by (intros x Hx; apply Hk, in_all; cbn; auto).
  eapply ainv_quiet; [apply Hk|split; apply Hk| | | | | | |exact Ha].
  - intros x Hx. apply (ai_pend _ _ _ _ Ha). cbn in *. set_solver.
  - intros x Hx. auto.
  - apply (ai_ack _ _ _ _ Ha).
  - intros x [Hx|[Hx Hs]]; [left; cbn in *; set_solver|right]. by rewrite Hst.
  - auto.
  - auto.
Qed.

Lemma ainv_ack a s g F P T r D A (f := mkflight F P T (r :: D) A) : v_status s (r_h r) = 0 ->
  ainv a s g f -> ainv a (acked (r_b r) s) g (mkflight F P T D (A ++ [r])).
Proof.
  intros Hs Ha. eapply (ainv_quiet a s); [done|exact (acked_data (r_b r) s)| | | | | | |exact Ha].
  - apply (ai_pend _ _ _ _ Ha).
  - intros x Hx. split; [cbn in *; set_solver|done].
  - intros x [Hx|Hx]%elem_of_app; [by apply (ai_ack _ _ _ _ Ha)|]. apply list_elem_of_singleton in Hx as ->. rewrite (ai_don _ _ _ _ Ha) by (cbn; set_solver). by rewrite Hs.
  - intros x [Hx|[Hx Hn]]; [by left|right]. cbn in Hx. apply elem_of_cons in Hx as [->|Hx]; [done|]. done.
  - auto.
  - auto.
Qed.

(** The device writes the target of a request it has taken. *)
Lemma ainv_work a s g f r d : r ∈ f_taken f -> ainv a s g f -> ainv a (put_target (r_wr r) (r_blk r) (r_b r) d s) g f.
Proof.
  intros Hr [H1 H2 H3 H4 H5 H6 H7 H8]. assert (dirty s f r) as Hdr by (by left). destruct (r_wr r) eqn:Hw; unfold put_target, put_data; split; cbn; try done.
  - intros x Hall. unfold dset. rewrite (proj2 (Z.eqb_neq _ _)); [by apply H8|]. intros ->. by apply (Hall r).
  - intros b. unfold upd. case_decide; [subst|]; apply H6.
  - intros b Hall. rewrite upd_ne; [by apply H7|]. intros ->. by apply (Hall r).
Qed.

(** Finishing [r] changes the status byte of no other request. *)
Lemma complete_status s0 s g lk f r x v : vinv s f -> tinv s g lk f -> r ∈ all f -> x ∈ all f -> x <> r -> v_status s0 = v_status s ->
  v_status (complete (r_h r) (r_h r) v s0) (r_h x) = v_status s (r_h x).
Proof.
  intros Hv Ht Hr Hx Hne Hs. cbn. rewrite Hs. apply upd_ne. intros E. apply Hne. apply (vi_disj _ _ Hv x r (r_h x)); [done|done|unfold own; set_solver|]. rewrite E. unfold own. set_solver.
Qed.

Section finish.
Context (a : asys) (s : vdisk) (g : nat -> pc) (lk : option nat) (F P T1 : list vr) (r : vr) (T2 D A : list vr).
Let f := mkflight F P (T1 ++ r :: T2) D A.
Let f' := mkflight F P (T1 ++ T2) (D ++ [r]) A.
Hypothesis Hv : vinv s f.
Hypothesis Ht : tinv s g lk f.
Hypothesis Ha : ainv a s g f.

Lemma finish_in : r ∈ all f.
Proof. apply in_all. cbn. set_solver. Qed.

Lemma finish_others x : x ∈ F ++ P ++ (T1 ++ T2) ++ D ++ A -> x ∈ all f /\ x <> r.
Proof.
  intros Hx. assert (all f ≡ₚ r :: (F ++ P ++ (T1 ++ T2) ++ D ++ A)) as Hp by (unfold all, published, f; cbn; solve_Permutation).
  split; [rewrite Hp, elem_of_cons; by right|]. intros ->. pose proof (vi_nodup _ _ Hv) as Hn. rewrite Hp in Hn. by apply NoDup_cons in Hn as [Hn _].
Qed.

Lemma finish_thread x : x ∈ F ++ P ++ (T1 ++ T2) ++ D ++ A -> r_t x <> r_t r.
Proof. intros [Hx Hne]%finish_others E. apply Hne. eapply ti_uniq; [exact Hv|exact Ht|done|apply finish_in|done]. Qed.

Lemma finish_dirty v s0 x : v_status s0 = v_status s -> dirty s f x -> x <> r -> dirty (complete (r_h r) (r_h r) v s0) f' x.
Proof.
  intros Hs [Hx|[Hx Hne]] Hxr; [left; cbn in *; set_solver|right]. split; [cbn in *; set_solver|].
  rewrite (complete_status s0 s g lk f); try done; [apply finish_in|]. apply in_all. auto.
Qed.

(** A request fails: its call does not take effect. *)
Lemma ainv_fail v : v <> 0 -> ainv a (complete (r_h r) (r_h r) v s) g f'.
Proof.
  intros Hv0. assert (v_status (complete (r_h r) (r_h r) v s) (r_h r) = v) as Hr by (cbn; apply upd_eq).
  assert (forall x, dirty s f x -> dirty (complete (r_h r) (r_h r) v s) f' x) as Hdi.
  { intros x Hx. destruct (decide (x = r)) as [->|]; [right; split; [cbn; set_solver|by rewrite Hr]|by apply finish_dirty]. }
  pose proof finish_in as Hin. destruct Ha as [H1 H2 H3 H4 H5 H6 H7 H8]. split; try done.
  - intros x Hx. apply H1. cbn in *. set_solver.
  - intros x [Hx|Hx]%elem_of_app.
    + destruct (finish_others x) as [Hxa Hxr]; [set_solver|]. rewrite (complete_status s s g lk f) by done. by apply H2.
    + apply list_elem_of_singleton in Hx as ->. rewrite Hr, (proj2 (Z.eqb_neq v 0)) by done. apply H1. cbn. set_solver.
  - intros b Hall. apply H7. auto.
  - intros x Hall. apply H8. auto.
Qed.

(** A request succeeds: its call takes effect. *)
Lemma ainv_done s' sb : s' = complete (r_h r) (r_h r) 0 (put_target (r_wr r) (r_blk r) (r_b r) (get_source (r_wr r) (r_blk r) (r_b r) s) s) ->
  virtio_disk_rw (r_b r) (r_wr r) kctx (a_bio a) = Ret kctx sb tt -> ainv (mkasys sb (upd (a_pc a) (r_t r) (ADone (r_b r)))) s' g f'.
Proof.
  intros Es Hsb. unfold virtio_disk_rw, modify in Hsb. injection Hsb as Hsb. pose proof finish_in as Hin.
  assert (v_status s' (r_h r) = 0) as Hr by (subst s'; cbn; apply upd_eq).
  assert (forall x, dirty s f x -> x <> r -> dirty s' f' x) as Hdi by (intros x Hx Hne; subst s'; apply finish_dirty; try done; by destruct (r_wr r)).
  assert (forall x, x ∈ D -> v_status s' (r_h x) = v_status s (r_h x)) as Hst.
  { intros x Hx. destruct (finish_others x) as [Hxa Hxr]; [set_solver|]. subst s'. apply (complete_status _ s g lk f); try done. by destruct (r_wr r). }
  assert (forall x, x ∈ all f -> x <> r -> r_b x <> r_b r /\ r_blk x <> r_blk r) as Hdis by (intros x Hx Hne; by eapply ti_distinct).
  assert (forall x, dirty s f x -> x ∈ all f) as Hda by (intros x [?|[? _]]; apply in_all; auto).
  assert (b_blockno (bufs (a_bio a) (r_b r)) = r_blk r) as Hblk by (rewrite (ai_blk _ _ _ _ Ha); apply (vi_chain _ _ Hv r Hin)).
  pose proof finish_thread as Hth. destruct Ha as [H1 H2 H3 H4 H5 H6 H7 H8]. split; cbn [a_pc a_bio].
  - intros x Hx. cbn in Hx. rewrite upd_ne by (apply Hth; set_solver). apply H1. cbn. set_solver.
  - intros x [Hx|Hx]%elem_of_app.
    + rewrite upd_ne by (apply Hth; set_solver). rewrite Hst by done. by apply H2.
    + apply list_elem_of_singleton in Hx as ->. by rewrite Hr, upd_eq.
  - intros x Hx. cbn in Hx. rewrite upd_ne by (apply Hth; set_solver). by apply H3.
  - intros t b wr sec w Hg. rewrite upd_ne; [by eapply H4|]. intros ->. pose proof (ti_all _ _ _ _ r Ht Hin) as E. by rewrite Hg in E.
  - intros t Hg. rewrite upd_ne; [by apply H5|]. intros ->. pose proof (ti_uses _ _ _ _ r Ht Hin) as E. by rewrite Hg in E.
  - intros b. subst s' sb. destruct (r_wr r); unfold put_target, put_data; cbn; unfold upd, upd_bufs; repeat case_decide; subst; apply H6.
  - intros b Hall. subst s' sb. destruct (r_wr r) eqn:Hw; unfold put_target, put_data, get_source; cbn; unfold upd_bufs.
    + replace (b_data _) with (b_data (bufs (a_bio a) b)) by (by case_decide; [subst|]). apply H7. intros x Hx Hxw. apply Hall; [apply Hdi; [done|congruence]|done].
    + case_decide; [subst b; rewrite upd_eq; cbn; rewrite Hblk|rewrite upd_ne by done].
      * apply H8. intros x Hx Hxw. apply Hdis; [auto|congruence].
      * apply H7. intros x Hx Hxw. destruct (decide (x = r)) as [->|]; [auto|]. by apply Hall; [apply Hdi|].
  - intros x Hall. subst s' sb. destruct (r_wr r) eqn:Hw; unfold put_target, put_data, get_source; cbn; unfold dset.
    + rewrite Hblk. destruct (Z.eqb_spec x (r_blk r)) as [->|Hne].
      * apply H7. intros y Hy Hyw. apply Hdis; [auto|congruence].
      * apply H8. intros y Hy Hyw. destruct (decide (y = r)) as [->|]; [auto|]. by apply Hall; [apply Hdi|].
    + apply H8. intros y Hy Hyw. apply Hall; [apply Hdi; [done|congruence]|done].
Qed.
End finish.

(** * The system *)

(** [failed]: the device has failed a request. *)
Record sysinv (failed : Prop) (a : asys) (y : dsys) (f : flight) : Prop := {
  si_v : vinv (y_vd y) f;
  si_t : tinv (y_vd y) (y_pc y) (y_lock y) f;
  si_a : ainv a (y_vd y) (y_pc y) f;
  si_taken : y_taken y = r_h <$> f_taken f;
  si_ok r : r ∈ f_don f -> v_status (y_vd y) (r_h r) <> 0 -> failed }.

Lemma unlocked s g f t : tinv s g None f -> holds (g t) = false.
Proof. intros Ht. destruct (holds (g t)) eqn:E; [|done]. by apply (ti_lock _ _ _ _ Ht) in E. Qed.

Lemma unlocked_form s g f : tinv s g None f -> f_form f = [].
Proof.
  intros Ht. destruct (f_form f) as [|r F] eqn:E; [done|]. pose proof (ti_form _ _ _ _ Ht r ltac:(rewrite E; set_solver)) as Hr.
  pose proof (unlocked _ _ _ (r_t r) Ht) as H. by rewrite Hr in H.
Qed.

Lemma kept_bufs s s' f b : kept s s' f -> vb_data (v_bufs s' b) = vb_data (v_bufs s b) /\ blk s' b = blk s b.
Proof. intros Hk. split; apply Hk. Qed.

Section segments.
Context (fl : Prop) (a : asys) (y : dsys) (f : flight) (t : nat).
Hypothesis Hy : sysinv fl a y f.
Let s := y_vd y.
Let g := y_pc y.

(** A thread gets its descriptors. *)
Lemma run_try b wr sec : g t = TDesc b wr sec true -> y_lock y = None -> (length (all f) <= 1)%nat ->
  exists s' r, segment (g t) kctx s = Ret kctx s' (TRing (idx_of r) b) /\ r_t r = t /\
    sysinv fl a (moved t (TRing (idx_of r) b) [] s' y) (mkflight [r] (f_pend f) (f_taken f) (f_don f) (f_ack f)).
Proof.
  intros Hg Hlk Hfew. destruct Hy as [Hv Ht Ha Htk Hok]. fold s g in Hv, Ht, Ha, Hok. rewrite Hlk in Ht. pose proof (unlocked_form _ _ _ Ht) as Hf0.
  destruct f as [F P T D A]. cbn in Hf0. subst F. cbn [f_pend f_taken f_don f_ack].
  destruct (segment_try t b wr true s P T D A Hv Hfew) as (r & s' & Hrt & Hrb & Hrw & Hrk & Hrun & Hv' & Hk & Hm).
  { intros r Hr E. pose proof (ti_uses _ _ _ _ r Ht Hr) as Hu. rewrite E in Hu. assert (r_t r <> t) as Hne by (eapply other_threads; [done|done|by rewrite Hg|done]).
    destruct (ti_apart _ _ _ _ Ht (r_t r) t b b) as [Hn _]; [done|by rewrite Hg|done|done]. }
  exists s', r. rewrite Hg, (ti_desc _ _ _ _ Ht _ _ _ _ _ Hg). split; [exact Hrun|]. split; [done|].
  pose proof (tinv_rouses _ _ _ _ _ (wake_rouses [] (y_pc y)) Ht) as Ht1. pose proof (rouses_ainv _ _ _ _ _ (wake_rouses [] (y_pc y)) Ha) as Ha1.
  assert (wake [] (y_pc y) t = TDesc b wr sec true) as Hg1 by (unfold wake; fold g; by rewrite Hg).
  split; cbn [moved y_vd y_pc y_lock y_taken holds]; [done| | |exact Htk|].
  - eapply (tinv_form s); [done|exact Hv|exact Ht1|exact Hg1|exact Hfew|done|done|apply Hk|exact Hm].
  - eapply ainv_form; [exact Hk|exact Hrt|exact Hrb|exact Hrw|exact Hg1|exact Ha1].
  - intros x Hx. cbn in Hx. rewrite (kp_status _ _ _ Hk); [by apply Hok|]. apply in_all. cbn. auto.
Qed.

(** A thread finds too few descriptors. *)
Lemma run_full b wr sec : g t = TDesc b wr sec true -> y_lock y = None -> length (all f) = 2%nat ->
  exists c s', segment (g t) kctx s = Ret c s' (TDesc b wr sec false) /\ sysinv fl a (moved t (TDesc b wr sec false) (woken c) s' y) f.
Proof.
  intros Hg Hlk Hfew. destruct Hy as [Hv Ht Ha Htk Hok]. fold s g in Hv, Ht, Ha, Hok. rewrite Hlk in Ht.
  destruct (segment_full b wr sec true s f Hv Hfew) as (s' & Hrun & Hv' & Hk & Hm). rewrite Hg. do 2 eexists. split; [exact Hrun|]. cbn [woken set_woken].
  set (w := [ChDiskFree; ChDiskFree]). pose proof (tinv_rouses _ _ _ _ _ (wake_rouses w (y_pc y)) Ht) as Ht1. pose proof (rouses_ainv _ _ _ _ _ (wake_rouses w (y_pc y)) Ha) as Ha1.
  assert (wake w (y_pc y) t = TDesc b wr sec true) as Hg1 by (unfold wake; fold g; by rewrite Hg).
  split; cbn [moved y_vd y_pc y_lock y_taken holds]; [done| | |exact Htk|].
  - apply (tinv_frame s); [intros; apply Hk|unfold notified; by rewrite Hm|unfold irq; rewrite Hm; auto|].
    eapply tinv_free; [exact Hv|exact Ht1|by rewrite Hg1|done|..].
    + exact (lock_move _ None t (TDesc b wr sec false) (ti_lock _ _ _ _ Ht1) (or_introl eq_refl)).
    + apply (apart_move s); [done|left; by rewrite Hg1|apply Ht1].
    + intros b' wr' sec' w' [= -> -> -> ->]. split; [by eapply (ti_desc _ _ _ _ Ht1)|done].
    + done.
    + intros _. by rewrite Hg1.
  - eapply (ainv_quiet a s); [apply Hk|intros b'; by eapply kept_bufs|..]; [| | | | | |exact Ha1].
    + apply Ha.
    + intros r Hr. split; [done|]. apply Hk, in_all. auto.
    + apply Ha.
    + intros r [Hr|[Hr Hs]]; [by left|right]. rewrite (kp_status _ _ _ Hk); [done|]. apply in_all. auto.
    + intros x b' wr' sec' w'. unfold upd at 1. case_decide; [subst x; intros [= -> -> -> ->]; right; eauto|]. unfold upd. rewrite decide_False by done. auto.
    + intros x. unfold upd. case_decide; [done|auto].
  - intros x Hx. rewrite (kp_status _ _ _ Hk); [by apply Hok|]. apply in_all. auto.
Qed.

(** A thread publishes its request. *)
Lemma run_bump idx b : g t = TRing idx b -> y_lock y = Some t ->
  exists s' r, segment (g t) kctx s = Ret kctx s' (TAvail idx b) /\ f_form f = [r] /\
    sysinv fl a (moved t (TAvail idx b) [] s' y) (mkflight [] (f_pend f ++ [r]) (f_taken f) (f_don f) (f_ack f)).
Proof.
  intros Hg Hlk. destruct Hy as [Hv Ht Ha Htk Hok]. fold s g in Hv, Ht, Ha, Hok. rewrite Hlk in Ht.
  destruct (ti_request _ _ _ _ t idx b Ht ltac:(by rewrite Hg)) as (r & Hr & Hrt & -> & ->).
  assert (r ∈ f_form f) as Hrf.
  { unfold all in Hr. apply elem_of_app in Hr as [Hr|[Hr|Hr]%elem_of_app]; [done| |].
    - destruct (ti_out _ _ _ _ Ht r Hr) as [E|[w E]]; rewrite Hrt, Hg in E; done.
    - pose proof (ti_ack _ _ _ _ Ht r Hr) as E. by rewrite Hrt, Hg in E. }
  destruct (vi_form _ _ Hv r Hrf) as [Hf1 _]. destruct f as [F P T D A]. cbn in Hf1. subst F. cbn [f_pend f_taken f_don f_ack f_form].
  exists (bumped s), r. split; [by rewrite Hg|]. split; [done|].
  pose proof (tinv_rouses _ _ _ _ _ (wake_rouses [] (y_pc y)) Ht) as Ht1. pose proof (rouses_ainv _ _ _ _ _ (wake_rouses [] (y_pc y)) Ha) as Ha1.
  assert (wake [] (y_pc y) t = TRing (idx_of r) (r_b r)) as Hg1 by (unfold wake; fold g; by rewrite Hg).
  split; cbn [moved y_vd y_pc y_lock y_taken holds].
  - by apply bump_vinv.
  - eapply (tinv_bump s); [exact Hv|exact Ht1|exact Hg1|done|done|done].
  - eapply (ainv_quiet a s); [done|done| | | | | | |exact Ha1].
    + intros x Hx. apply (ai_pend _ _ _ _ Ha). cbn in *. set_solver.
    + done.
    + apply Ha.
    + done.
    + intros x b' wr' sec' w'. unfold upd. case_decide; [done|auto].
    + intros x. unfold upd. case_decide; [done|auto].
  - exact Htk.
  - exact Hok.
Qed.

Lemma request_published idx b : g t = TAvail idx b -> exists r, r ∈ published f /\ r_t r = t /\ idx = idx_of r /\ b = r_b r.
Proof.
  intros Hg. pose proof (si_t _ _ _ _ Hy) as Ht. fold s g in Ht. destruct (ti_request _ _ _ _ t idx b Ht ltac:(by rewrite Hg)) as (r & Hr & Hrt & Hi & Hb). exists r. split; [|done].
  unfold all in Hr. apply elem_of_app in Hr as [Hr|[Hr|Hr]%elem_of_app]; [|done|].
  - pose proof (ti_form _ _ _ _ Ht r Hr) as E. by rewrite Hrt, Hg in E.
  - pose proof (ti_ack _ _ _ _ Ht r Hr) as E. by rewrite Hrt, Hg in E.
Qed.

Lemma published_busy r : r ∈ published f -> vb_disk (v_bufs s (r_b r)) = 1.
Proof. intros Hr. apply (vi_busy _ _ (si_v _ _ _ _ Hy) r). set_solver. Qed.

(** A thread tells the device and goes to sleep. *)
Lemma run_avail idx b : g t = TAvail idx b -> y_lock y = Some t ->
  exists s', segment (g t) kctx s = Ret kctx s' (TWait idx b false) /\ sysinv fl a (moved t (TWait idx b false) [] s' y) f.
Proof.
  intros Hg Hlk. destruct (request_published idx b Hg) as (r & Hr & Hrt & -> & ->). pose proof (published_busy r Hr) as Hbusy.
  destruct Hy as [Hv Ht Ha Htk Hok]. fold s g in Hv, Ht, Ha, Hok. rewrite Hlk in Ht.
  set (s' := set_mmio (reg_write MMIO_QUEUE_NOTIFY 0 (v_mmio s)) (set_writes ((MMIO_QUEUE_NOTIFY, 0) :: v_writes s) s)).
  exists s'. split; [rewrite Hg; cbn [segment]; unfold notify, write_mmio, bind at 1, modify at 1; cbn [obind]; fold s'; by apply rw_check_busy|].
  assert (vinv s' f) as Hv' by (apply (vinv_same s); [split; try done|done]). assert (notified s' = true) as Hn by done.
  assert (tinv s' g (Some t) f) as Ht' by (apply (tinv_frame s); [done|done|auto|done]).
  pose proof (tinv_rouses _ _ _ _ _ (wake_rouses [] (y_pc y)) Ht') as Ht1.
  assert (wake [] (y_pc y) t = TAvail (idx_of r) (r_b r)) as Hg1 by (unfold wake; fold g; by rewrite Hg).
  split; cbn [moved y_vd y_pc y_lock y_taken holds]; [done| | |exact Htk|exact Hok].
  - eapply (tinv_wait s' _ (Some t) t r true); [done|exact Ht1|done|done|by right|by left|auto].
  - eapply (ainv_threads a s); [done|done|done| | |exact (rouses_ainv _ _ _ _ _ (wake_rouses [] (y_pc y)) Ha)].
    + intros x b wr sec w. unfold upd. case_decide; [done|auto].
    + intros x. unfold upd. case_decide; [done|auto].
Qed.

(** A thread is woken, but its request is not done. *)
Lemma run_busy idx b r : g t = TWait idx b true -> y_lock y = None -> r ∈ published f -> r_t r = t ->
  segment (g t) kctx s = Ret kctx s (TWait idx b false) /\ sysinv fl a (moved t (TWait idx b false) [] s y) f.
Proof.
  intros Hg Hlk Hr Hrt. pose proof (published_busy r Hr) as Hbusy. destruct Hy as [Hv Ht Ha Htk Hok]. fold s g in Hv, Ht, Ha, Hok. rewrite Hlk in Ht.
  pose proof (ti_all _ _ _ _ r Ht ltac:(unfold all; set_solver)) as Hc. rewrite Hrt, Hg in Hc. cbn in Hc. simplify_eq.
  split; [rewrite Hg; cbn [segment]; by apply rw_check_busy|].
  pose proof (tinv_rouses _ _ _ _ _ (wake_rouses [] (y_pc y)) Ht) as Ht1.
  assert (wake [] (y_pc y) (r_t r) = TWait (idx_of r) (r_b r) true) as Hg1 by (unfold wake; fold g; by rewrite Hg).
  split; cbn [moved y_vd y_pc y_lock y_taken holds]; [done| | |exact Htk|exact Hok].
  - eapply (tinv_wait s _ None (r_t r) r true); [done|exact Ht1|done|done|by left|by right|].
    intros Hp. destruct (ti_kick _ _ _ _ Ht1 Hp) as [|(x & idx & b & Hx)]; [by left|right]. exists x, idx, b. split; [|done]. intros ->. by rewrite Hx in Hg1.
  - eapply (ainv_threads a s); [done|done|done| | |exact (rouses_ainv _ _ _ _ _ (wake_rouses [] (y_pc y)) Ha)].
    + intros x b wr sec w. unfold upd. case_decide; [done|auto].
    + intros x. unfold upd. case_decide; [done|auto].
Qed.

Lemma wake_desc w x b wr sec : ChDiskFree ∈ w -> wake w g x <> TDesc b wr sec false.
Proof. intros Hw E. unfold wake in E. destruct (g x) as [|? ? ? []| | |? ? []| | |]; try done. rewrite bool_decide_true in E by done. done. Qed.

(** A thread whose request is done returns. *)
Lemma run_return idx b r : g t = TWait idx b true -> y_lock y = None -> r ∈ f_ack f -> r_t r = t ->
  exists c A1 A2, segment (g t) kctx s = Ret c (retired r s) TIdle /\ b = r_b r /\ f_ack f = A1 ++ r :: A2 /\
    sysinv fl (mkasys (a_bio a) (upd (a_pc a) t AIdle)) (moved t TIdle (woken c) (retired r s) y)
      (mkflight (f_form f) (f_pend f) (f_taken f) (f_don f) (A1 ++ A2)) /\
    (forall x b wr sec, wake (woken c) g x <> TDesc b wr sec false).
Proof.
  intros Hg Hlk Hr Hrt. pose proof wake_desc as Hwd. destruct Hy as [Hv Ht Ha Htk Hok]. fold s g in Hv, Ht, Ha, Hok. rewrite Hlk in Ht.
  pose proof (ti_ack _ _ _ _ Ht r Hr) as Hg'. rewrite Hrt, Hg in Hg'. injection Hg' as -> ->. rewrite Hg. cbn [segment]. rewrite (rw_check_done r s f) by done.
  destruct (list_elem_of_split _ _ Hr) as (A1 & A2 & HA). set (w := [ChDiskFree; ChDiskFree; ChDiskFree]). exists (set_woken w kctx), A1, A2. split; [done|]. split; [done|]. split; [done|].
  assert (ChDiskFree ∈ w) as Hw by (unfold w; set_solver). split; [|intros; by apply Hwd].
  destruct f as [F P T D A]. cbn in HA. subst A. cbn [f_form f_pend f_taken f_don].
  pose proof (tinv_rouses _ _ _ _ _ (wake_rouses w (y_pc y)) Ht) as Ht1. pose proof (rouses_ainv _ _ _ _ _ (wake_rouses w (y_pc y)) Ha) as Ha1.
  split; cbn [moved y_vd y_pc y_lock y_taken holds woken set_woken]; [by apply retired_vinv| | |exact Htk|exact Hok].
  - eapply (tinv_retire s); [exact Hv|exact Ht1|exact Hrt|done|done|intros; by apply Hwd].
  - eapply (ainv_retire a s); [apply retired_kept| |exact Ha1]. intros x Hx E.
    assert (all (mkflight F P T D (A1 ++ r :: A2)) ≡ₚ r :: all (mkflight F P T D (A1 ++ A2))) as Hp by (unfold all, published; cbn; solve_Permutation).
    pose proof (vi_nodup _ _ Hv) as Hn. rewrite Hp in Hn. apply NoDup_cons in Hn as [Hn _]. apply Hn.
    replace r with x; [done|]. eapply ti_uniq; [exact Hv|exact Ht|rewrite Hp, elem_of_cons; by right|rewrite Hp, elem_of_cons; by left|congruence].
Qed.

(** The handler goes from one program counter to the next, and the requests stay where they are. *)
Lemma run_handler s' p : handler (g t) = true -> y_lock y = Some t -> same_rings s s' f -> v_store s' = v_store s -> v_status s' = v_status s ->
  v_bufs s' = v_bufs s -> notified s' = notified s -> (handler p = true \/ f_don f = [] /\ p = TIdle) -> (p = TOne -> f_don f <> []) ->
  (irq s' = irq s \/ handler p = true) -> sysinv fl a (moved t p [] s' y) f.
Proof.
  intros Hh Hlk Hsr Hst Hs Hb Hn Hp Ho Hq. destruct Hy as [Hv Ht Ha Htk Hok]. fold s g in Hv, Ht, Ha, Hok. rewrite Hlk in Ht.
  pose proof (tinv_rouses _ _ _ _ _ (wake_rouses [] (y_pc y)) Ht) as Ht1. pose proof (rouses_ainv _ _ _ _ _ (wake_rouses [] (y_pc y)) Ha) as Ha1.
  assert (wake [] (y_pc y) t = g t) as Hg1 by (unfold wake; fold g; by destruct (g t)).
  assert (chained p = None /\ uses p = None /\ uses (g t) = None /\ chained (g t) = None) as (Hc & Hup & Hug & Hcg).
  { split_and!; [destruct Hp as [Hp|[_ ->]]; [by destruct p|done]|destruct Hp as [Hp|[_ ->]]; [by destruct p|done]|by destruct (g t)|by destruct (g t)]. }
  split; cbn [moved y_vd y_pc y_lock y_taken holds]; [by apply (vinv_same s)| | |exact Htk|by rewrite Hs].
  - apply (tinv_frame s); [by rewrite Hb|by rewrite Hn| |].
    + intros _ Hi. destruct Hq as [->|Hq]; [by left|right]. exists t. by rewrite upd_eq.
    + eapply tinv_free; [exact Hv|exact Ht1|by rewrite Hg1|done|..].
      * exact (lock_move _ _ t p (ti_lock _ _ _ _ Ht1) (or_intror eq_refl)).
      * apply (apart_move s); [done|by right|apply Ht1].
      * intros b wr sec w ->. done.
      * done.
      * intros Hd _. destruct Hp as [|[Hp _]]; done.
  - eapply (ainv_threads a s); [done|done|by rewrite Hb| | |exact Ha1].
    + intros x b wr sec w. unfold upd. case_decide; [intros ->; done|auto].
    + intros x. unfold upd. case_decide; [subst; by rewrite Hg1|auto].
Qed.

Lemma run_ack st : g t = TAck st -> y_lock y = Some t ->
  exists s', segment (g t) kctx s = Ret kctx s' TLoop /\ sysinv fl a (moved t TLoop [] s' y) f.
Proof.
  intros Hg Hlk. rewrite Hg. eexists. split; [reflexivity|]. apply run_handler; try done; auto. by rewrite Hg.
Qed.

Lemma run_loop : g t = TLoop -> y_lock y = Some t ->
  exists p, segment (g t) kctx s = Ret kctx s p /\ p = (match f_don f with [] => TIdle | _ => TOne end) /\ sysinv fl a (moved t p [] s y) f.
Proof.
  intros Hg Hlk. rewrite Hg. eexists. split; [apply (segment_loop s f), Hy|]. split; [done|]. apply run_handler; try done; auto.
  - by rewrite Hg.
  - destruct (f_don f); auto.
  - by destruct (f_don f).
Qed.

(** The handler completes a request, and the thread that waits for it is woken. *)
Lemma run_one r D : g t = TOne -> y_lock y = Some t -> f_don f = r :: D -> v_status s (r_h r) = 0 ->
  segment (g t) kctx s = Ret (set_woken [ChBuf (r_b r)] kctx) (acked (r_b r) s) TLoop /\
  sysinv fl a (moved t TLoop [ChBuf (r_b r)] (acked (r_b r) s) y) (mkflight (f_form f) (f_pend f) (f_taken f) D (f_ack f ++ [r])).
Proof.
  intros Hg Hlk HD Hst. destruct Hy as [Hv Ht Ha Htk Hok]. fold s g in Hv, Ht, Ha, Hok. rewrite Hlk in Ht. destruct f as [F P T D0 A]. cbn in HD. subst D0. cbn [f_form f_pend f_taken f_ack].
  split; [rewrite Hg; rewrite (segment_one s F P T r D A Hv); by rewrite Hst|]. set (w := [ChBuf (r_b r)]).
  pose proof (tinv_rouses _ _ _ _ _ (wake_rouses w (y_pc y)) Ht) as Ht1. pose proof (rouses_ainv _ _ _ _ _ (wake_rouses w (y_pc y)) Ha) as Ha1.
  assert (wake w (y_pc y) t = TOne) as Hg1 by (unfold wake; fold g; by rewrite Hg).
  assert (tinv s (upd (wake w (y_pc y)) t TLoop) (Some t) (mkflight F P T (r :: D) A)) as Ht2.
  { eapply tinv_free; [exact Hv|exact Ht1|by rewrite Hg1|done| | |done|done|done].
    - exact (lock_move _ _ t TLoop (ti_lock _ _ _ _ Ht1) (or_intror eq_refl)).
    - apply (apart_move s); [done|by right|apply Ht1]. }
  assert (forall x, holds (g x) = true -> x = t) as Hone by (intros x Hx; apply (ti_lock _ _ _ _ Ht) in Hx; congruence).
  assert (r ∈ published (mkflight F P T (r :: D) A)) as Hr by (apply in_published; cbn; set_solver).
  split; cbn [moved y_vd y_pc y_lock y_taken holds]; [by apply ack_vinv| | |exact Htk|].
  - apply (tinv_ack s); [intros b; apply acked_data|done| | |exact Ht2].
    + intros x. unfold upd. case_decide as Hxt; [done|]. intros E. apply Hxt, Hone. unfold wake in E. fold g in E. destruct (g x) as [|? ? ? []| | |? ? []| | |]; done.
    + assert (r_t r <> t) as Hrt by (intros E; destruct (ti_out _ _ _ _ Ht r Hr) as [E'|[? E']]; rewrite E, Hg in E'; done). rewrite upd_ne by done.
      unfold wake. fold g. destruct (ti_out _ _ _ _ Ht r Hr) as [E|[[] E]]; rewrite E; [|done|by rewrite bool_decide_true by (unfold w; set_solver)].
      exfalso. apply Hrt, Hone. by rewrite E.
  - apply ainv_ack; [done|]. eapply (ainv_threads a s); [done|done|done| | |exact Ha1].
    + intros x b wr sec w'. unfold upd. case_decide; [done|auto].
    + intros x. unfold upd. case_decide; [subst; by rewrite Hg1|auto].
  - intros x Hx. apply Hok. cbn in *. set_solver.
Qed.
End segments.

(** * The device *)

Lemma sysinv_weaken (fl fl' : Prop) a y f : (fl -> fl') -> sysinv fl a y f -> sysinv fl' a y f.
Proof. intros H [H1 H2 H3 H4 H5]. split; eauto. Qed.

Lemma put_target_same out bk b d s f : same_rings s (put_target out bk b d s) f.
Proof. destruct out; split; try done. intros r _. unfold put_target, put_data. cbn. unfold upd. by case_decide; [subst|]. Qed.
Lemma put_target_blk out bk b d s b' : blk (put_target out bk b d s) b' = blk s b'.
Proof. destruct out; [done|]. cbn. unfold upd. by case_decide; [subst|]. Qed.
Lemma put_target_regs out bk b d s : v_mmio (put_target out bk b d s) = v_mmio s /\ v_status (put_target out bk b d s) = v_status s.
Proof. by destruct out. Qed.

Lemma complete_blk h st v s b : blk (complete h st v s) b = blk s b.
Proof. done. Qed.
Lemma complete_irq h st v s : irq (complete h st v s) = true.
Proof. change (Z.testbit (Z.lor (v_mmio s MMIO_INTERRUPT_STATUS) 1) 0 = true). by rewrite Z.lor_spec, orb_true_r. Qed.

Section dev.
Context (fl : Prop) (a : asys) (y : dsys) (f : flight) (p : bool).
Hypothesis Hy : sysinv fl a y f.
Let s := y_vd y.

Lemma taken_request h : h ∈ y_taken y -> exists r, r ∈ f_taken f /\ h = r_h r /\ request_of s h = Some (r_wr r, r_blk r, r_b r, r_h r).
Proof.
  intros Hh. rewrite (si_taken _ _ _ _ Hy) in Hh. apply list_elem_of_fmap in Hh as (r & -> & Hr). exists r. split_and!; [done..|].
  apply request_of_chain, (vi_chain _ _ (si_v _ _ _ _ Hy)), in_all. auto.
Qed.

Lemma dev_fetch : v_seen s <> v_avail_idx s -> exists r P, f_pend f = r :: P /\
  sysinv fl a (mkdsys (set_seen (u16 (v_seen s + 1)) s) (y_taken y ++ [Z.to_nat (v_ring s (Z.to_nat (v_seen s mod Z.of_nat NUM)))]) (y_pc y) (y_lock y) p)
    (mkflight (f_form f) P (f_taken f ++ [r]) (f_don f) (f_ack f)).
Proof.
  intros Hne. destruct Hy as [Hv Ht Ha Htk Hok]. fold s in Hv, Ht, Ha, Hok. destruct f as [F [|r P] T D A].
  { exfalso. apply Hne. rewrite (vi_avail _ _ Hv). cbn. rewrite Z.add_0_r. symmetry. apply u16_small, (vi_range _ _ Hv). }
  exists r, P. split; [done|]. destruct (fetch_vinv s F r P T D A Hv) as (Hv' & _ & Hring). cbn [f_form f_taken f_don f_ack].
  split; cbn [y_vd y_pc y_lock y_taken]; [done|by apply (tinv_fetch s)|by apply (ainv_fetch a s)| |exact Hok].
  cbn in Htk. change (Z.of_nat NUM) with 8. cbn [f_taken]. by rewrite Hring, Nat2Z.id, Htk, fmap_app.
Qed.

Lemma dev_rest : v_seen s = v_avail_idx s ->
  sysinv fl a (mkdsys (set_mmio (fun x => if x =? MMIO_QUEUE_NOTIFY then 0 else v_mmio s x) s) (y_taken y) (y_pc y) (y_lock y) p) f.
Proof.
  intros He. destruct Hy as [Hv Ht Ha Htk Hok]. fold s in Hv, Ht, Ha, Hok. assert (f_pend f = []) as Hp.
  { pose proof (few_lengths _ _ Hv) as Hfew. destruct (f_pend f) as [|r P] eqn:E; [done|]. exfalso. symmetry in He. revert He. rewrite (vi_avail _ _ Hv), E. cbn [length] in *.
    apply u16_ne; [apply Hv|]. lia. }
  split; cbn [y_vd y_pc y_lock y_taken]; [by apply (vinv_same s)| | |exact Htk|exact Hok].
  - apply (tinv_frame s); [done|by rewrite Hp| |done]. auto.
  - eapply (ainv_threads a s); try done; auto.
Qed.

Lemma dev_work h out bk b st d : h ∈ y_taken y -> request_of s h = Some (out, bk, b, st) ->
  sysinv fl a (mkdsys (put_target out bk b d s) (y_taken y) (y_pc y) (y_lock y) p) f.
Proof.
  intros Hh Hq. destruct (taken_request h Hh) as (r & Hr & -> & Hq'). rewrite Hq' in Hq. injection Hq as <- <- <- <-.
  destruct Hy as [Hv Ht Ha Htk Hok]. fold s in Hv, Ht, Ha, Hok. destruct (put_target_regs (r_wr r) (r_blk r) (r_b r) d s) as [Hm Hst].
  split; cbn [y_vd y_pc y_lock y_taken]; [apply (vinv_same s); [apply put_target_same|done]| |by apply ainv_work|exact Htk|by rewrite Hst].
  apply (tinv_frame s); [intros; apply put_target_blk|unfold notified; by rewrite Hm|unfold irq; rewrite Hm; auto|done].
Qed.

(** The requests the device has, around one of them. *)
Lemma taken_split t1 h t2 : y_taken y = t1 ++ h :: t2 -> exists T1 r T2, f_taken f = T1 ++ r :: T2 /\ h = r_h r /\ t1 ++ t2 = r_h <$> (T1 ++ T2) /\
  request_of s h = Some (r_wr r, r_blk r, r_b r, r_h r).
Proof.
  intros Hh. pose proof (taken_request h ltac:(rewrite Hh; set_solver)) as (r0 & _ & _ & Hq). rewrite (si_taken _ _ _ _ Hy) in Hh.
  apply fmap_app_inv in Hh as (T1 & T' & -> & H2 & E). symmetry in H2. apply fmap_cons_inv in H2 as (r & T2 & -> & -> & ->).
  exists T1, r, T2. split_and!; [done|done|by rewrite fmap_app|]. apply request_of_chain, (vi_chain _ _ (si_v _ _ _ _ Hy)), in_all. rewrite E. set_solver.
Qed.

Lemma dev_fail t1 h t2 out bk b st v : y_taken y = t1 ++ h :: t2 -> request_of s h = Some (out, bk, b, st) -> v <> 0 ->
  exists f', sysinv True a (mkdsys (complete h st v s) (t1 ++ t2) (y_pc y) (y_lock y) p) f'.
Proof.
  intros Hh Hq Hv0. destruct (taken_split t1 h t2 Hh) as (T1 & r & T2 & HT & -> & Htk' & Hq'). rewrite Hq' in Hq. injection Hq as <- <- <- <-.
  destruct Hy as [Hv Ht Ha Htk Hok]. fold s in Hv, Ht, Ha, Hok. destruct f as [F P T D A]. cbn in HT. subst T.
  exists (mkflight F P (T1 ++ T2) (D ++ [r]) A). split; cbn [y_vd y_pc y_lock y_taken]; [by apply complete_vinv| | |done|done].
  - eapply (tinv_complete s); [done|apply complete_irq|done|exact Ht].
  - by eapply ainv_fail.
Qed.

Lemma dev_done t1 h t2 out bk b st : y_taken y = t1 ++ h :: t2 -> request_of s h = Some (out, bk, b, st) ->
  exists a' T1 r T2, f_taken f = T1 ++ r :: T2 /\ astep a [] a' /\
    sysinv fl a' (mkdsys (complete h st 0 (put_target out bk b (get_source out bk b s) s)) (t1 ++ t2) (y_pc y) (y_lock y) p)
      (mkflight (f_form f) (f_pend f) (T1 ++ T2) (f_don f ++ [r]) (f_ack f)).
Proof.
  intros Hh Hq. destruct (taken_split t1 h t2 Hh) as (T1 & r & T2 & HT & -> & Htk' & Hq'). rewrite Hq' in Hq. injection Hq as <- <- <- <-.
  destruct Hy as [Hv Ht Ha Htk Hok]. fold s in Hv, Ht, Ha, Hok. destruct f as [F P T D A]. cbn in HT. subst T. cbn [f_form f_pend f_don f_ack].
  set (s1 := put_target (r_wr r) (r_blk r) (r_b r) (get_source (r_wr r) (r_blk r) (r_b r) s) s). destruct (put_target_regs (r_wr r) (r_blk r) (r_b r) (get_source (r_wr r) (r_blk r) (r_b r) s) s) as [Hm Hst].
  assert (exists sb, virtio_disk_rw (r_b r) (r_wr r) kctx (a_bio a) = Ret kctx sb tt) as [sb Hsb] by (eexists; reflexivity).
  eexists _, T1, r, T2. split; [done|]. split; [eapply as_commit; [|exact Hsb]; apply (ai_pend _ _ _ _ Ha); cbn; set_solver|].
  split; cbn [y_vd y_pc y_lock y_taken]; [apply complete_vinv, (vinv_same s); [apply put_target_same|done]| | |done|].
  - eapply (tinv_complete s); [intros b; rewrite complete_blk; apply put_target_blk|apply complete_irq|change (negb (v_mmio s1 MMIO_QUEUE_NOTIFY =? 0) = notified s); unfold s1, notified; by rewrite Hm|exact Ht].
  - by eapply ainv_done.
  - intros x [Hx|Hx]%elem_of_app.
    + rewrite (complete_status s1 s (y_pc y) (y_lock y) (mkflight F P (T1 ++ r :: T2) D A)); [by apply Hok|done|done|apply in_all; cbn; set_solver|apply in_all; auto| |done].
      eapply finish_others; [exact Hv|]. set_solver.
    + apply list_elem_of_singleton in Hx as ->. cbn. by rewrite upd_eq.
Qed.
End dev.

(** * Refinement *)

Definition vis (e : event) : list event := if visible e then [e] else [].

Lemma asteps_one a l a' : astep a l a' -> asteps a l a'.
Proof. intros H. rewrite <- (app_nil_r l). eapply asteps_cons; [exact H|apply asteps_nil]. Qed.

Lemma asteps_app a l a1 l' a2 : asteps a l a1 -> asteps a1 l' a2 -> asteps a (l ++ l') a2.
Proof. induction 1 as [|a l a1 l1 a' H _ IH]; intros H2; [done|]. rewrite <- app_assoc. eapply asteps_cons; eauto. Qed.

Lemma ack_not_dirty s f r r' : vinv s f -> r ∈ f_ack f -> dirty s f r' -> r' <> r.
Proof.
  intros Hv Hr Hd ->. pose proof (vi_nodup _ _ Hv) as Hn. unfold all in Hn. rewrite app_assoc in Hn. apply NoDup_app in Hn as (_ & Hn & _).
  apply (Hn r); [|done]. apply elem_of_app. right. apply in_published. destruct Hd as [?|[? _]]; auto.
Qed.

(** The call of a thread that returns has taken effect. *)
Lemma sim_return fl a y f r : sysinv fl a y f -> r ∈ f_ack f ->
  astep a [ERet (r_t r) (r_b r) (blk (y_vd y) (r_b r)) (vb_data (v_bufs (y_vd y) (r_b r)))] (mkasys (a_bio a) (upd (a_pc a) (r_t r) AIdle)).
Proof.
  intros [Hv Ht Ha _ _] Hr. rewrite <- (ai_blk _ _ _ _ Ha), <- (ai_data _ _ _ _ Ha (r_b r)).
  - apply as_ret. by apply (ai_ack _ _ _ _ Ha).
  - intros r' Hd _. pose proof (ack_not_dirty _ _ _ _ Hv Hr Hd) as Hne. eapply ti_distinct; [done|done| |by apply in_all; auto|done]. apply in_all. destruct Hd as [?|[? _]]; auto.
Qed.

(** A segment does what one step of the atomic disk does, or nothing, or it panics about a failed
    request. *)
Lemma sim_run fl a y f t : sysinv fl a y f -> ready t y ->
  (exists msg, segment (y_pc y t) kctx (y_vd y) = Panic msg /\ fl) \/
  exists c s p a' f', segment (y_pc y t) kctx (y_vd y) = Ret c s p /\ asteps a (vis (event_of t (y_pc y t) p s)) a' /\ sysinv fl a' (moved t p (woken c) s y) f'.
Proof.
  intros Hy Hrd. unfold ready in Hrd. pose proof (si_v _ _ _ _ Hy) as Hv. pose proof (si_t _ _ _ _ Hy) as Ht. destruct (y_pc y t) as [|b wr sec []|idx b|idx b|idx b []|st| |] eqn:Hg; try (by destruct Hrd);
    match type of Hrd with _ /\ _ => destruct Hrd as [_ Hlk] | _ => rename Hrd into Hlk end.
  - right. pose proof (vinv_few _ _ Hv) as Hfew. destruct (decide (length (all f) = 2%nat)) as [E|E].
    + destruct (run_full fl a y f t Hy b wr sec) as (c & s' & Hrun & Hy'); [done..|]. rewrite Hg in Hrun. exists c, s', (TDesc b wr sec false), a, f. split_and!; [done|apply asteps_nil|done].
    + destruct (run_try fl a y f t Hy b wr sec) as (s' & r & Hrun & _ & Hy'); [done|done|lia|]. rewrite Hg in Hrun. do 5 eexists. split_and!; [exact Hrun|apply asteps_nil|exact Hy'].
  - right. destruct (run_bump fl a y f t Hy idx b) as (s' & r & Hrun & _ & Hy'); [done..|]. rewrite Hg in Hrun. do 5 eexists. split_and!; [exact Hrun|apply asteps_nil|exact Hy'].
  - right. destruct (run_avail fl a y f t Hy idx b) as (s' & Hrun & Hy'); [done..|]. rewrite Hg in Hrun. do 5 eexists. split_and!; [exact Hrun|apply asteps_nil|exact Hy'].
  - right. destruct (ti_request _ _ _ _ t idx b Ht ltac:(by rewrite Hg)) as (r & Hr & Hrt & -> & ->). unfold all in Hr. apply elem_of_app in Hr as [Hr|[Hr|Hr]%elem_of_app].
    + pose proof (ti_form _ _ _ _ Ht r Hr) as E. by rewrite Hrt, Hg in E.
    + destruct (run_busy fl a y f t Hy (idx_of r) (r_b r) r) as [Hrun Hy']; [done..|]. rewrite Hg in Hrun. do 5 eexists. split_and!; [exact Hrun|apply asteps_nil|exact Hy'].
    + destruct (run_return fl a y f t Hy (idx_of r) (r_b r) r) as (c & A1 & A2 & Hrun & _ & _ & Hy' & _); [done..|]. rewrite Hg in Hrun. do 5 eexists. split_and!; [exact Hrun| |exact Hy'].
      apply asteps_one. rewrite <- Hrt. exact (sim_return fl a y f r Hy Hr).
  - right. destruct (run_ack fl a y f t Hy st) as (s' & Hrun & Hy'); [done..|]. rewrite Hg in Hrun. do 5 eexists. split_and!; [exact Hrun|apply asteps_nil|exact Hy'].
  - right. destruct (run_loop fl a y f t Hy) as (p & Hrun & Hp & Hy'); [done..|]. rewrite Hg in Hrun. do 5 eexists. split_and!; [exact Hrun|apply asteps_nil|exact Hy'].
  - destruct (f_don f) as [|r D] eqn:HD; [by destruct (ti_one _ _ _ _ Ht t Hg)|]. destruct (decide (v_status (y_vd y) (r_h r) = 0)) as [E|E].
    + right. destruct (run_one fl a y f t Hy r D) as (Hrun & Hy'); [done..|]. rewrite Hg in Hrun. do 5 eexists. split_and!; [exact Hrun|apply asteps_nil|exact Hy'].
    + left. exists "virtio_disk_intr status". destruct f as [F P T D' A]. cbn in HD. subst D'. rewrite (segment_one _ F P T r D A Hv), (proj2 (Z.eqb_neq _ _)) by done. split; [done|].
      apply (si_ok _ _ _ _ Hy r); [cbn; set_solver|done].
Qed.

Lemma sim_call fl a y f t b wr : sysinv fl a y f -> y_pc y t = TIdle -> available y b ->
  exists a', astep a [ECall t b wr] a' /\
    sysinv fl a' (mkdsys (y_vd y) (y_taken y) (upd (y_pc y) t (TDesc b wr (rw_sector (blk (y_vd y) b)) true)) (y_lock y) (y_panicked y)) f.
Proof.
  intros Hy Hg [Hrg Hav]. destruct Hy as [Hv Ht Ha Htk Hok]. eexists. split.
  - apply as_call; [apply (ai_idle _ _ _ _ Ha); by rewrite Hg|]. intros t' b'. rewrite (ainv_auses _ _ _ _ _ _ Ht Ha), !(ai_blk _ _ _ _ Ha). apply Hav.
  - split; cbn [y_vd y_pc y_lock y_taken]; [done| | |exact Htk|exact Hok].
    + eapply tinv_free; [exact Hv|exact Ht|by rewrite Hg|done|..].
      * intros x. unfold upd. case_decide as E; [|apply (ti_lock _ _ _ _ Ht)]. subst x. rewrite <- (ti_lock _ _ _ _ Ht t), Hg. done.
      * intros x x' b1 b2. unfold upd. repeat case_decide; subst; try done; intros H1 H2 Hne; [injection H1 as <-|injection H2 as <-|].
        -- destruct (Hav _ _ H2). auto.
        -- destruct (Hav _ _ H1). auto.
        -- by eapply (ti_apart _ _ _ _ Ht).
      * intros b' wr' sec' w' [= <- <- <- <-]. split; [|done]. unfold rw_sector. change (BSIZE / 512) with 2. rewrite u32_small by lia. lia.
      * done.
      * by rewrite Hg.
    + apply ainv_call; [|done]. intros r Hr. eapply other_threads; [exact Hv|exact Ht|by rewrite Hg|done].
Qed.

Lemma sim_intr fl a y f t p : sysinv fl a y f -> y_pc y t = TIdle -> y_lock y = None ->
  sysinv fl a (mkdsys (y_vd y) (y_taken y) (upd (y_pc y) t (TAck (v_mmio (y_vd y) MMIO_INTERRUPT_STATUS))) (Some t) p) f.
Proof.
  intros [Hv Ht Ha Htk Hok] Hg Hlk. rewrite Hlk in Ht. split; cbn [y_vd y_pc y_lock y_taken]; [done| | |exact Htk|exact Hok].
  - eapply tinv_free; [exact Hv|exact Ht|by rewrite Hg|done| | |done|done|done].
    + exact (lock_move _ _ t (TAck _) (ti_lock _ _ _ _ Ht) (or_introl eq_refl)).
    + apply (apart_move (y_vd y)); [done|by right|apply Ht].
  - eapply (ainv_threads a (y_vd y)); [done|done|done| | |exact Ha].
    + intros x b wr sec w'. unfold upd. case_decide; [done|auto].
    + intros x. unfold upd. case_decide; [subst; by rewrite Hg|auto].
Qed.

Lemma sim_set fl a y f b bn d p : sysinv fl a y f -> (forall t, uses (y_pc y t) <> Some b) ->
  exists a', astep a [ESet b bn d] a' /\
    sysinv fl a' (mkdsys (set_vbufs (upd (v_bufs (y_vd y)) b (mkvbuf (vb_disk (v_bufs (y_vd y) b)) bn d)) (y_vd y)) (y_taken y) (y_pc y) (y_lock y) p) f.
Proof.
  intros [Hv Ht Ha Htk Hok] Hb. eexists. split; [apply as_set; intros t; by rewrite (ainv_auses _ _ _ _ _ _ Ht Ha)|].
  assert (forall t b', uses (y_pc y t) = Some b' -> b' <> b) as Hne by (intros t b' Hu ->; by apply (Hb t)).
  split; cbn [y_vd y_pc y_lock y_taken]; [| |by eapply ainv_set|exact Htk|exact Hok].
  - apply (vinv_same (y_vd y)); [split; try done|done]. intros r Hr. cbn. rewrite upd_ne; [done|]. eapply Hne, ti_uses; [exact Ht|done].
  - apply (tinv_frame (y_vd y)); [|done|auto|done]. intros t b' Hu. cbn. rewrite upd_ne; [done|by eapply Hne].
Qed.

Lemma sim_step fl a y f e y' : sysinv fl a y f -> dstep y e y' ->
  exists a' f', asteps a (vis e) a' /\ sysinv (fl \/ e = EFail) a' y' f' /\ (y_panicked y' = true -> y_panicked y = true \/ fl).
Proof.
  intros Hy Hst. assert (forall a' y2 f', sysinv fl a' y2 f' -> sysinv (fl \/ e = EFail) a' y2 f') as Hw by (intros a' y2 f'; apply sysinv_weaken; auto). destruct Hst as [y t c s p Hr Hrun|y t msg Hr Hrun|y t b wr Hg Hav|y t Hg Hlk|y b bn d Hb|y t|y e s tk Hd].
  - destruct (sim_run fl a y f t Hy Hr) as [(msg & E & _)|(c' & s' & p' & a' & f' & E & Has & Hy')]; rewrite Hrun in E; [done|]. injection E as <- <- <-. exists a', f'. split_and!; [done|by apply Hw|by left].
  - destruct (sim_run fl a y f t Hy Hr) as [(msg' & E & Hfl)|(c' & s' & p' & a' & f' & E & _)]; rewrite Hrun in E; [|done]. exists a, f. split_and!; [apply asteps_nil| |by right].
    apply Hw. by destruct Hy.
  - destruct (sim_call fl a y f t b wr Hy Hg Hav) as (a' & Has & Hy'). exists a', f. split_and!; [by apply asteps_one|by apply Hw|by left].
  - exists a, f. split_and!; [apply asteps_nil|by apply Hw, sim_intr|by left].
  - destruct (sim_set fl a y f b bn d (y_panicked y) Hy Hb) as (a' & Has & Hy'). exists a', f. split_and!; [by apply asteps_one|by apply Hw|by left].
  - exists a, f. split_and!; [apply asteps_nil| |by left]. apply Hw. destruct Hy as [Hv Ht Ha Htk Hok].
    assert (rouses (y_pc y) (upd (y_pc y) t (rouse (y_pc y t)))) as Hro by (intros x; unfold upd; case_decide; [subst; by right|by left]).
    split; cbn [y_vd y_pc y_lock y_taken]; [done|by eapply tinv_rouses|by eapply rouses_ainv|done|done].
  - remember (y_vd y) as s0 eqn:Es. remember (y_taken y) as tk0 eqn:Et. destruct Hd as [s tk Hne|s tk He|s tk h out bk b st d Hh Hq|s t1 h t2 out bk b st Hq|s t1 h t2 out bk b st v Hq Hv0|s tk h s' tk' Hh Hq]; subst.
    + destruct (dev_fetch fl a y f (y_panicked y) Hy Hne) as (r & P & _ & Hy'). exists a. eexists. split_and!; [by destruct (notified _); apply asteps_nil|by apply Hw|by left].
    + exists a, f. split_and!; [apply asteps_nil|by apply Hw, dev_rest|by left].
    + exists a, f. split_and!; [apply asteps_nil|apply Hw; by eapply dev_work|by left].
    + destruct (dev_done fl a y f (y_panicked y) Hy t1 h t2 out bk b st) as (a' & T1 & r & T2 & _ & Has & Hy'); [done|done|]. do 2 eexists. split_and!; [by apply asteps_one|by apply Hw|by left].
    + destruct (dev_fail fl a y f (y_panicked y) Hy t1 h t2 out bk b st v) as (f' & Hy'); [done..|]. exists a, f'. split_and!; [apply asteps_nil|eapply sysinv_weaken; [|exact Hy']; auto|by left].
    + destruct (taken_request fl a y f Hy h Hh) as (r & _ & _ & E). congruence.
Qed.

Lemma sim_steps fl a y f l y' : sysinv fl a y f -> dsteps y l y' ->
  exists a' f', asteps a (List.filter visible l) a' /\ sysinv (fl \/ EFail ∈ l) a' y' f' /\ (y_panicked y' = true -> y_panicked y = true \/ fl \/ EFail ∈ l).
Proof.
  intros Hy Hl. revert fl a f Hy. induction Hl as [y|y e y1 l y2 Hp Hst _ IH]; intros fl a f Hy.
  - exists a, f. split_and!; [apply asteps_nil| |by left]. eapply sysinv_weaken; [|exact Hy]. auto.
  - destruct (sim_step fl a y f e y1 Hy Hst) as (a1 & f1 & Has & Hy1 & Hp1). destruct (IH _ _ _ Hy1) as (a2 & f2 & Has2 & Hy2 & Hp2). exists a2, f2. split_and!.
    + replace (List.filter visible (e :: l)) with (vis e ++ List.filter visible l) by (cbn; unfold vis; by destruct (visible e)). by eapply asteps_app.
    + eapply sysinv_weaken; [|exact Hy2]. rewrite elem_of_cons. naive_solver.
    + rewrite elem_of_cons. naive_solver.
Qed.

Lemma sim_boot s sb : booted s -> sees sb s -> sysinv False (asys0 sb) (dsys0 s) (mkflight [] [] [] [] []).
Proof.
  intros (Hf & Ha & Hs & Hu & Hd) [Hst Hb]. split; cbn.
  - split; cbn; rewrite ?Ha, ?Hs, ?Hu, ?Hd; try (by intros ? ?%elem_of_nil); try (by intros ? ? ?%elem_of_nil); try (by intros ? ? ? ?%elem_of_nil); try done.
    + apply NoDup_nil_2.
    + intros i Hi. split; [|intros _; by apply Hf]. intros _ r ?%elem_of_nil. done.
  - split; cbn; try (by intros ? ?%elem_of_nil); try done.
  - split; cbn; try (by intros ? ?%elem_of_nil); try done.
    + intros b. apply Hb.
    + intros b _. apply Hb.
  - done.
  - by intros ? ?%elem_of_nil.
Qed.

(** * Progress *)

Definition returned (l : list event) (t b : nat) : Prop := exists n d, ERet t b n d ∈ l.

(** Every outstanding call has returned, or is still outstanding and has not lost its request. *)
Definition keeps (y : dsys) (l : list event) (y' : dsys) : Prop := forall t b, uses (y_pc y t) = Some b ->
  returned l t b \/ (uses (y_pc y' t) = Some b /\ (chained (y_pc y t) <> None -> chained (y_pc y' t) <> None)).

(** A run without help from outside. *)
Definition goes (y : dsys) (l : list event) (y' : dsys) : Prop :=
  dsteps y l y' /\ Forall (fun e => unaided e = true) l /\ keeps y l y'.

(** No request has failed, and only finitely many threads are in the driver. *)
Record good (y : dsys) (f : flight) : Prop := {
  gd_inv : exists a, sysinv False a y f;
  gd_live : y_panicked y = false;
  gd_idle : exists n, forall t, (n <= t)%nat -> y_pc y t = TIdle }.

Lemma goes_refl y : goes y [] y.
Proof. split_and!; [apply dsteps_nil|done|]. intros t b Hb. by right. Qed.

Lemma dsteps_app y l y1 l' y2 : dsteps y l y1 -> dsteps y1 l' y2 -> dsteps y (l ++ l') y2.
Proof. induction 1; [done|]. intros. cbn. eapply dsteps_cons; eauto. Qed.

Lemma returned_app l l' t b : returned (l ++ l') t b <-> returned l t b \/ returned l' t b.
Proof. unfold returned. setoid_rewrite elem_of_app. naive_solver. Qed.

Lemma goes_trans y l y1 l' y2 : goes y l y1 -> goes y1 l' y2 -> goes y (l ++ l') y2.
Proof.
  intros (H1 & H2 & H3) (H4 & H5 & H6). split_and!; [by eapply dsteps_app|by apply Forall_app|]. intros t b Hb. rewrite returned_app.
  destruct (H3 t b Hb) as [|[Hb1 Hc1]]; [auto|]. destruct (H6 t b Hb1) as [|[Hb2 Hc2]]; [auto|]. right. auto.
Qed.

Lemma wake_idle w g n : (forall t, (n <= t)%nat -> g t = TIdle) -> forall t, (n <= t)%nat -> wake w g t = TIdle.
Proof. intros H t Ht. unfold wake. by rewrite H. Qed.

Lemma idle_upd (g : nat -> pc) t p : (exists n, forall t, (n <= t)%nat -> g t = TIdle) -> exists n, forall t', (n <= t')%nat -> upd g t p t' = TIdle.
Proof. intros [n Hn]. exists (max n (S t)). intros t' Ht. rewrite upd_ne by lia. apply Hn. lia. Qed.

Lemma dstep_idle y e y' : dstep y e y' -> (exists n, forall t, (n <= t)%nat -> y_pc y t = TIdle) -> exists n, forall t, (n <= t)%nat -> y_pc y' t = TIdle.
Proof.
  intros Hst Hn. destruct Hst; cbn; try done; try (by apply idle_upd). apply idle_upd. destruct Hn as [n Hn]. exists n. by apply wake_idle.
Qed.

Lemma dsteps_idle y l y' : dsteps y l y' -> (exists n, forall t, (n <= t)%nat -> y_pc y t = TIdle) -> exists n, forall t, (n <= t)%nat -> y_pc y' t = TIdle.
Proof. induction 1; [done|]. intros. eauto using dstep_idle. Qed.

(** A thread runs a segment. *)
Lemma goes_run y f f' a t c s p : good y f -> ready t y -> segment (y_pc y t) kctx (y_vd y) = Ret c s p ->
  (uses p = uses (y_pc y t) /\ (chained (y_pc y t) <> None -> chained p <> None)) \/ p = TIdle ->
  sysinv False a (moved t p (woken c) s y) f' ->
  goes y [event_of t (y_pc y t) p s] (moved t p (woken c) s y) /\ good (moved t p (woken c) s y) f'.
Proof.
  intros [_ Hl Hid] Hr Hrun Hp Hy'. pose proof (ds_run y t c s p Hr Hrun) as Hst. split.
  - split_and!.
    + eapply dsteps_cons; [done|exact Hst|apply dsteps_nil].
    + apply Forall_singleton. unfold event_of. destruct (uses (y_pc y t)); [destruct p|]; reflexivity.
    + intros x b Hb. cbn [moved y_pc]. unfold upd. case_decide as Hxt; [subst x|].
      * destruct Hp as [[Hu Hc]| ->]; [right; by rewrite Hu|left]. unfold event_of. rewrite Hb. do 2 eexists. by apply list_elem_of_singleton.
      * right. destruct (rouse_views _ _ (wake_rouses (woken c) (y_pc y) x)) as (-> & -> & _). done.
  - split; [eauto|done|]. by eapply dstep_idle.
Qed.

Lemma goes_dev y f f' a s tk : good y f -> device (y_vd y) (y_taken y) ETau s tk ->
  sysinv False a (mkdsys s tk (y_pc y) (y_lock y) (y_panicked y)) f' ->
  goes y [ETau] (mkdsys s tk (y_pc y) (y_lock y) (y_panicked y)) /\ good (mkdsys s tk (y_pc y) (y_lock y) (y_panicked y)) f'.
Proof.
  intros [_ Hl Hid] Hd Hy'. split; [|split; [eauto|done|done]]. split_and!; [eapply dsteps_cons; [done|by apply ds_dev|apply dsteps_nil]|by apply Forall_singleton|].
  intros t b Hb. by right.
Qed.

(** The device takes what is in the available ring. *)
Lemma goes_fetch P : forall y F T D A, good y (mkflight F P T D A) -> y_lock y = None ->
  exists l y', goes y l y' /\ good y' (mkflight F [] (T ++ P) D A) /\ y_lock y' = None.
Proof.
  induction P as [|r P IH]; intros y F T D A Hy Hlk; [exists [], y; rewrite app_nil_r; split_and!; [apply goes_refl|done|done]|].
  destruct (gd_inv _ _ Hy) as [a Ha]. destruct (fetch_vinv _ _ _ _ _ _ _ (si_v _ _ _ _ Ha)) as (_ & Hne & _).
  destruct (dev_fetch False a y _ (y_panicked y) Ha Hne) as (r' & P' & E & Hy1). cbn in E. injection E as <- <-. cbn [f_form f_taken f_don f_ack] in Hy1.
  assert (notified (y_vd y) = true) as Hn.
  { destruct (ti_kick _ _ _ _ (si_t _ _ _ _ Ha)) as [|(t & idx & b & Hg)]; [done|done|]. pose proof (si_t _ _ _ _ Ha) as Ht. rewrite Hlk in Ht. pose proof (unlocked _ _ _ t Ht) as Hh. by rewrite Hg in Hh. }
  pose proof (dv_fetch (y_vd y) (y_taken y) Hne) as Hd. rewrite Hn in Hd. destruct (goes_dev _ _ _ _ _ _ Hy Hd Hy1) as [Hg1 Hy1'].
  destruct (IH _ _ _ _ _ Hy1' Hlk) as (l & y' & Hg2 & Hy2 & Hlk2). exists ([ETau] ++ l), y'. rewrite <- app_assoc in Hy2. split_and!; [by eapply goes_trans|done|done].
Qed.

(** The device does what it has taken. *)
Lemma goes_serve n : forall y F T D A, length T = n -> good y (mkflight F [] T D A) -> y_lock y = None ->
  exists l y' D', goes y l y' /\ good y' (mkflight F [] [] D' A) /\ y_lock y' = None.
Proof.
  induction n as [|n IH]; intros y F T D A Hn Hy Hlk; [destruct T; [|done]; exists [], y, D; split_and!; [apply goes_refl|done|done]|].
  destruct T as [|r T]; [done|]. destruct (gd_inv _ _ Hy) as [a Ha]. pose proof (si_taken _ _ _ _ Ha) as Htk. cbn in Htk.
  destruct (taken_request False a y _ Ha (r_h r)) as (r' & _ & _ & Hq); [rewrite Htk; set_solver|].
  destruct (dev_done False a y _ (y_panicked y) Ha [] (r_h r) (r_h <$> T) _ _ _ _ Htk Hq) as (a' & T1 & r1 & T2 & HT & _ & Hy1). pose proof (f_equal length HT) as Hlen. rewrite length_app in Hlen. cbn in Hlen, Hn.
  pose proof (dv_done (y_vd y) [] (r_h r) (r_h <$> T) _ _ _ _ Hq) as Hd. cbn [app] in Hd. rewrite <- Htk in Hd. destruct (goes_dev _ _ _ _ _ _ Hy Hd Hy1) as [Hg1 Hy1'].
  destruct (IH _ _ (T1 ++ T2) _ _ ltac:(rewrite length_app; lia) Hy1' Hlk) as (l & y' & D' & Hg2 & Hy2 & Hlk2).
  exists ([ETau] ++ l), y', D'. split_and!; [by eapply goes_trans|done|done].
Qed.

(** The handler sees everything in the used ring. *)
Lemma goes_handler D : forall y F P T A t, good y (mkflight F P T D A) -> y_pc y t = TLoop -> y_lock y = Some t ->
  exists l y', goes y l y' /\ good y' (mkflight F P T [] (A ++ D)) /\ y_lock y' = None.
Proof.
  induction D as [|r D IH]; intros y F P T A t Hy Hg Hlk; destruct (gd_inv _ _ Hy) as [a Ha]; destruct (run_loop False a y _ t Ha Hg Hlk) as (p & Hrun & Hp & Hy1); cbn in Hp; subst p.
  - destruct (goes_run y _ _ a t kctx _ _ Hy ltac:(unfold ready; by rewrite Hg) Hrun (or_intror eq_refl) Hy1) as [Hg1 Hy1']. do 2 eexists. split_and!; [exact Hg1|by rewrite app_nil_r|done].
  - destruct (goes_run y _ _ a t kctx _ _ Hy ltac:(unfold ready; by rewrite Hg) Hrun ltac:(left; by rewrite Hg) Hy1) as [Hg1 Hy1']. cbn [woken kctx] in *.
    assert (v_status (y_vd y) (r_h r) = 0) as Hst by (destruct (decide (v_status (y_vd y) (r_h r) = 0)) as [|Hne]; [done|exfalso; apply (si_ok _ _ _ _ Ha r); [cbn; set_solver|done]]).
    set (y1 := moved t TOne [] (y_vd y) y) in *. assert (y_pc y1 t = TOne) as Hpc by (cbn; apply upd_eq).
    destruct (run_one False a y1 _ t Hy1 r D Hpc eq_refl eq_refl Hst) as [Hrun2 Hy2].
    destruct (goes_run y1 _ _ a t _ _ _ Hy1' ltac:(unfold ready; by rewrite Hpc) Hrun2 ltac:(left; by rewrite Hpc) Hy2) as [Hg2 Hy2']. cbn [woken set_woken f_form f_pend f_taken f_ack] in *.
    destruct (IH _ _ _ _ _ t Hy2' ltac:(cbn; apply upd_eq) eq_refl) as (l & y' & Hg3 & Hy3 & Hlk3). rewrite <- app_assoc in Hy3. eexists _, y'. split_and!; [|exact Hy3|done].
    eapply goes_trans; [exact Hg1|]. eapply goes_trans; [exact Hg2|exact Hg3].
Qed.

(** The interrupt comes, and the handler runs. *)
Lemma goes_intr y F P T D A : good y (mkflight F P T D A) -> y_lock y = None ->
  exists l y', goes y l y' /\ good y' (mkflight F P T [] (A ++ D)) /\ y_lock y' = None.
Proof.
  intros Hy Hlk. destruct (decide (D = [])) as [->|HD]; [exists [], y; rewrite app_nil_r; split_and!; [apply goes_refl|done|done]|].
  destruct (gd_inv _ _ Hy) as [a Ha]. destruct (gd_idle _ _ Hy) as [t Hid]. specialize (Hid t ltac:(lia)). pose proof (si_t _ _ _ _ Ha) as Ht. rewrite Hlk in Ht.
  assert (irq (y_vd y) = true) as Hq.
  { destruct (ti_irq _ _ _ _ Ht) as [|(x & Hx)]; [done|done|]. pose proof (unlocked _ _ _ x Ht) as Hh. by destruct (y_pc y x). }
  pose proof (sim_intr False a y _ t (y_panicked y) Ha Hid Hlk) as Hy1. pose proof (ds_intr y t Hid Hlk) as Hst. rewrite Hq in Hst. set (y1 := mkdsys _ _ _ (Some t) _) in *.
  assert (goes y [EIntr true] y1 /\ good y1 (mkflight F P T D A)) as [Hg1 Hy1'].
  { split; [|split; [eauto|apply Hy|by eapply dstep_idle; [exact Hst|apply Hy]]]. split_and!; [eapply dsteps_cons; [apply Hy|exact Hst|apply dsteps_nil]|by apply Forall_singleton|].
    intros x b Hb. right. cbn. unfold upd. case_decide; [subst; by rewrite Hid in Hb|done]. }
  assert (y_pc y1 t = TAck (v_mmio (y_vd y) MMIO_INTERRUPT_STATUS)) as Hpc by (cbn; apply upd_eq).
  destruct (run_ack False a y1 _ t Hy1 _ Hpc eq_refl) as (s2 & Hrun & Hy2).
  destruct (goes_run y1 _ _ a t kctx _ _ Hy1' ltac:(unfold ready; by rewrite Hpc) Hrun ltac:(left; by rewrite Hpc) Hy2) as [Hg2 Hy2'].
  destruct (goes_handler D _ _ _ _ _ t Hy2' ltac:(cbn; apply upd_eq) eq_refl) as (l & y' & Hg3 & Hy3 & Hlk3). eexists _, y'. split_and!; [|exact Hy3|done].
  eapply goes_trans; [exact Hg1|]. eapply goes_trans; [exact Hg2|exact Hg3].
Qed.

(** The threads whose requests are done return. *)
Lemma goes_return n : forall y F P T D A, length A = n -> good y (mkflight F P T D A) -> y_lock y = None ->
  exists l y', goes y l y' /\ good y' (mkflight F P T D []) /\ y_lock y' = None.
Proof.
  induction n as [|n IH]; intros y F P T D A Hn Hy Hlk; [destruct A; [|done]; exists [], y; split_and!; [apply goes_refl|done|done]|].
  destruct A as [|r A]; [done|]. destruct (gd_inv _ _ Hy) as [a Ha]. assert (r ∈ r :: A) as Hr by set_solver.
  pose proof (ti_ack _ _ _ _ (si_t _ _ _ _ Ha) r Hr) as Hg.
  destruct (run_return False a y _ (r_t r) Ha _ _ r Hg Hlk Hr eq_refl) as (c & A1 & A2 & Hrun & _ & HA & Hy1 & _). pose proof (f_equal length HA) as Hlen. rewrite length_app in Hlen. cbn in Hlen, Hn.
  destruct (goes_run y _ _ _ (r_t r) c _ _ Hy ltac:(unfold ready; by rewrite Hg) Hrun (or_intror eq_refl) Hy1) as [Hg1 Hy1'].
  destruct (IH _ _ _ _ _ (A1 ++ A2) ltac:(rewrite length_app; lia) Hy1' eq_refl) as (l & y' & Hg2 & Hy2 & Hlk2). eexists _, y'. split_and!; [by eapply goes_trans|done|done].
Qed.

(** All requests are completed, when nobody has the lock. *)
Lemma goes_drain y f : good y f -> y_lock y = None ->
  exists l y', goes y l y' /\ good y' (mkflight [] [] [] [] []) /\ y_lock y' = None.
Proof.
  intros Hy Hlk. destruct (gd_inv _ _ Hy) as [a Ha]. pose proof (si_t _ _ _ _ Ha) as Ht. rewrite Hlk in Ht. pose proof (unlocked_form _ _ _ Ht) as Hf. destruct f as [F P T D A]. cbn in Hf. subst F.
  destruct (goes_fetch P y [] T D A Hy Hlk) as (l1 & y1 & Hg1 & Hy1 & Hlk1). destruct (goes_serve _ y1 [] (T ++ P) D A eq_refl Hy1 Hlk1) as (l2 & y2 & D2 & Hg2 & Hy2 & Hlk2).
  destruct (goes_intr y2 _ _ _ _ _ Hy2 Hlk2) as (l3 & y3 & Hg3 & Hy3 & Hlk3). destruct (goes_return _ y3 [] [] [] [] (A ++ D2) eq_refl Hy3 Hlk3) as (l4 & y4 & Hg4 & Hy4 & Hlk4).
  eexists _, y4. split_and!; [|exact Hy4|exact Hlk4]. eapply goes_trans; [exact Hg1|]. eapply goes_trans; [exact Hg2|]. eapply goes_trans; [exact Hg3|exact Hg4].
Qed.

(** A thread with its descriptors ready sends its request and releases the lock. *)
Lemma goes_send y f t idx b : good y f -> y_pc y t = TRing idx b -> y_lock y = Some t ->
  exists l y' f', goes y l y' /\ good y' f' /\ y_lock y' = None.
Proof.
  intros Hy Hg Hlk. destruct (gd_inv _ _ Hy) as [a Ha]. destruct (run_bump False a y f t Ha idx b Hg Hlk) as (s1 & r & Hrun & _ & Hy1).
  destruct (goes_run y _ _ a t kctx _ _ Hy ltac:(unfold ready; by rewrite Hg) Hrun ltac:(left; by rewrite Hg) Hy1) as [Hg1 Hy1']. set (y1 := moved t _ _ s1 y) in *.
  assert (y_pc y1 t = TAvail idx b) as Hpc by (cbn; apply upd_eq). destruct (run_avail False a y1 _ t Hy1 idx b Hpc eq_refl) as (s2 & Hrun2 & Hy2).
  destruct (goes_run y1 _ _ a t kctx _ _ Hy1' ltac:(unfold ready; by rewrite Hpc) Hrun2 ltac:(left; by rewrite Hpc) Hy2) as [Hg2 Hy2'].
  do 3 eexists. split_and!; [eapply goes_trans; [exact Hg1|exact Hg2]|exact Hy2'|done].
Qed.

(** Whoever has the lock releases it. *)
Lemma goes_unlock y f : good y f -> exists l y' f', goes y l y' /\ good y' f' /\ y_lock y' = None.
Proof.
  intros Hy. destruct (y_lock y) as [t|] eqn:Hlk; [|exists [], y, f; split_and!; [apply goes_refl|done|done]].
  destruct (gd_inv _ _ Hy) as [a Ha]. pose proof (proj2 (ti_lock _ _ _ _ (si_t _ _ _ _ Ha) t) Hlk) as Hh. destruct f as [F P T D A].
  destruct (y_pc y t) as [| |idx b|idx b| |st| |] eqn:Hg; try done.
  - by eapply goes_send.
  - destruct (run_avail False a y _ t Ha idx b Hg Hlk) as (s1 & Hrun & Hy1).
    destruct (goes_run y _ _ a t kctx _ _ Hy ltac:(unfold ready; by rewrite Hg) Hrun ltac:(left; by rewrite Hg) Hy1) as [Hg1 Hy1']. do 3 eexists. split_and!; [exact Hg1|exact Hy1'|done].
  - destruct (run_ack False a y _ t Ha st Hg Hlk) as (s1 & Hrun & Hy1).
    destruct (goes_run y _ _ a t kctx _ _ Hy ltac:(unfold ready; by rewrite Hg) Hrun ltac:(left; by rewrite Hg) Hy1) as [Hg1 Hy1'].
    destruct (goes_handler D _ _ _ _ _ t Hy1' ltac:(cbn; apply upd_eq) eq_refl) as (l & y' & Hg2 & Hy2 & Hlk2). do 3 eexists. split_and!; [eapply goes_trans; [exact Hg1|exact Hg2]|exact Hy2|done].
  - destruct (goes_handler D y F P T A t Hy Hg Hlk) as (l & y' & Hg2 & Hy2 & Hlk2). eauto 10.
  - destruct D as [|r D]; [by destruct (ti_one _ _ _ _ (si_t _ _ _ _ Ha) t Hg)|].
    assert (v_status (y_vd y) (r_h r) = 0) as Hst by (destruct (decide (v_status (y_vd y) (r_h r) = 0)) as [|Hne]; [done|exfalso; apply (si_ok _ _ _ _ Ha r); [cbn; set_solver|done]]).
    destruct (run_one False a y _ t Ha r D Hg Hlk eq_refl Hst) as [Hrun Hy1].
    destruct (goes_run y _ _ a t _ _ _ Hy ltac:(unfold ready; by rewrite Hg) Hrun ltac:(left; by rewrite Hg) Hy1) as [Hg1 Hy1']. cbn [woken set_woken f_form f_pend f_taken f_ack] in *.
    destruct (goes_handler D _ _ _ _ _ t Hy1' ltac:(cbn; apply upd_eq) eq_refl) as (l & y' & Hg2 & Hy2 & Hlk2). do 3 eexists. split_and!; [eapply goes_trans; [exact Hg1|exact Hg2]|exact Hy2|done].
Qed.

Lemma empty_chained y t : good y (mkflight [] [] [] [] []) -> chained (y_pc y t) = None.
Proof.
  intros Hy. destruct (gd_inv _ _ Hy) as [a Ha]. destruct (chained (y_pc y t)) as [ib|] eqn:Hc; [|done]. destruct (ti_chain _ _ _ _ (si_t _ _ _ _ Ha) t ib Hc) as (r & Hr & _). by apply elem_of_nil in Hr.
Qed.

(** Every outstanding call can return. *)
Lemma call_returns y f t b : good y f -> uses (y_pc y t) = Some b ->
  exists l y', dsteps y l y' /\ Forall (fun e => unaided e = true) l /\ returned l t b.
Proof.
  intros Hy Hb. destruct (goes_unlock y f Hy) as (l0 & y0 & f0 & Hg0 & Hy0 & Hlk0). destruct (goes_drain y0 f0 Hy0 Hlk0) as (l1 & y1 & Hg1 & Hy1 & Hlk1).
  destruct (goes_trans _ _ _ _ _ Hg0 Hg1) as (Hd & Hu & Hk). destruct (Hk t b Hb) as [Hr|[Hb1 _]]; [eauto 10|].
  pose proof (empty_chained y1 t Hy1) as Hc. destruct (gd_inv _ _ Hy1) as [a Ha]. destruct (y_pc y1 t) as [|b' wr sec w| | | | | |] eqn:Hg; try done. cbn in Hb1. injection Hb1 as ->.
  destruct w; [|pose proof (ti_full _ _ _ _ (si_t _ _ _ _ Ha) t b wr sec Hg); done].
  destruct (run_try False a y1 _ t Ha b wr sec Hg Hlk1) as (s2 & r & Hrun & _ & Hy2); [cbn; lia|].
  destruct (goes_run y1 _ _ a t kctx _ _ Hy1 ltac:(unfold ready; by rewrite Hg) Hrun ltac:(left; by rewrite Hg) Hy2) as [Hg2 Hy2']. set (y2 := moved t _ _ s2 y1) in *.
  assert (y_pc y2 t = TRing (idx_of r) b) as Hpc by (cbn; apply upd_eq).
  destruct (goes_send y2 _ t _ b Hy2' Hpc eq_refl) as (l3 & y3 & f3 & Hg3 & Hy3 & Hlk3). destruct (goes_drain y3 f3 Hy3 Hlk3) as (l4 & y4 & Hg4 & Hy4 & Hlk4).
  destruct (goes_trans _ _ _ _ _ Hg3 Hg4) as (Hd34 & Hu34 & Hk34). destruct Hg2 as (Hd2 & Hu2 & _).
  assert (returned (l3 ++ l4) t b) as Hr.
  { destruct (Hk34 t b ltac:(by rewrite Hpc)) as [|[_ Hn]]; [done|]. exfalso. apply Hn; [by rewrite Hpc|]. by apply empty_chained. }
  exists ((l0 ++ l1) ++ [event_of t (TDesc b wr sec true) (TRing (idx_of r) b) s2] ++ (l3 ++ l4)), y4. rewrite Hg in Hd2, Hu2. split_and!.
  - eapply dsteps_app; [exact Hd|]. eapply dsteps_app; [exact Hd2|exact Hd34].
  - apply Forall_app. split; [exact Hu|]. apply Forall_app. split; [exact Hu2|exact Hu34].
  - apply returned_app. right. apply returned_app. right. exact Hr.
Qed.

(** * Initialisation *)

(** The registers of a virtio disk that is ready to be set up. *)
Definition disk_present (g : Z -> Z) : Prop :=
  g MMIO_MAGIC_VALUE = 0x74726976 /\ g MMIO_VERSION = 2 /\ g MMIO_DEVICE_ID = 2 /\ g MMIO_VENDOR_ID = 0x554d4551 /\
  Z.land (g MMIO_STATUS) S_FEATURES_OK <> 0 /\ g MMIO_QUEUE_READY = 0 /\ 8 <= g MMIO_QUEUE_NUM_MAX.

(** What the writes to the configuration registers leave alone. *)
Definition still (g : Z -> Z) (a : option Z) (s : vdisk) : Prop :=
  v_mmio s = g /\ v_used_idx s = 0 /\ v_seen s = 0 /\ (forall x, a = Some x -> v_avail_idx s = x /\ v_dev_used_idx s = x).

Lemma wp_config r v g a c k s (Q : cpu -> kmem * vdisk -> unit -> Prop) : still g a s -> r <> MMIO_INTERRUPT_ACK -> r <> MMIO_QUEUE_NOTIFY ->
  (forall s', still g a s' -> Q c (k, s') tt) -> wp (zoom kdisk_dev (write_mmio r v)) c (k, s) Q.
Proof.
  intros (H1 & H2) Hr1 Hr2 HQ. apply wp_zoom. unfold write_mmio. wp_step. apply HQ. unfold reg_write. rewrite (proj2 (Z.eqb_neq _ _) Hr1), (proj2 (Z.eqb_neq _ _) Hr2). by split.
Qed.

Lemma wp_register r c k s (Q : cpu -> kmem * vdisk -> Z -> Prop) : Q c (k, s) (v_mmio s r) -> wp (zoom kdisk_dev (read_mmio r)) c (k, s) Q.
Proof. intros HQ. apply wp_zoom. unfold read_mmio. by wp_step. Qed.

Lemma wp_page `{Layout} c k s p l (Q : cpu -> kmem * vdisk -> Z -> Prop) : LKmem ∉ held c -> kmem_inv k (p :: l) ->
  (forall k', kmem_inv k' l -> Q c (k', s) p) -> wp (zoom kdisk_mem kalloc) c (k, s) Q.
Proof. intros Hc Hk HQ. apply wp_zoom. eapply wp_kalloc; [done|exact Hk|]. intros k' r (-> & Hk' & _). by apply HQ. Qed.

Lemma wp_zeroed m c k s (Q : cpu -> kmem * vdisk -> unit -> Prop) : (forall k', Q c (k', s) tt) -> wp (zoom kdisk_mem (upd_mem m)) c (k, s) Q.
Proof. intros HQ. apply wp_zoom. unfold upd_mem. wp_step. apply HQ. Qed.

Ltac config_step := wp_step; eapply wp_config; [eassumption|done|done|]; let s' := fresh "s" in let H := fresh "Hs" in intros s' H.

(** [virtio_disk_init] finds the disk and three pages, and leaves the driver with nothing in
    flight. *)
Lemma virtio_disk_init_booted `{Layout} c k s p1 p2 p3 l : LKmem ∉ held c -> kmem_inv k (p1 :: p2 :: p3 :: l) ->
  disk_present (v_mmio s) -> v_used_idx s = 0 -> v_seen s = 0 ->
  wp virtio_disk_init c (k, s) (fun _ ks _ => booted (snd ks)).
Proof.
  intros Hc Hk (Hm & Hv & Hd & Hn & Hst & Hr & Hmax) Hu Hse. unfold virtio_disk_init. assert (still (v_mmio s) None s) as Hs by done.
  do 2 wp_step. do 4 (wp_step; apply wp_register). rewrite Hm, Hv, Hd, Hn. cbn [Z.eqb Pos.eqb negb orb]. do 3 config_step.
  wp_step. apply wp_register. do 2 config_step. wp_step. apply wp_register. destruct Hs4 as (E & Hs4'). rewrite E, (proj2 (Z.eqb_neq _ 0) Hst).
  assert (still (v_mmio s) None s4) as Hs4 by done. config_step. wp_step. apply wp_register. rewrite (proj1 Hs5), Hr. cbn [Z.eqb negb].
  wp_step. apply wp_register. rewrite (proj1 Hs5). rewrite (proj2 (Z.eqb_neq _ 0)) by lia. rewrite (proj2 (Z.ltb_ge _ _)) by (unfold NUM; lia).
  assert (0 < p1 /\ 0 < p2 /\ 0 < p3) as (H1 & H2 & H3).
  { destruct Hk as (_ & _ & Hok). rewrite !Forall_cons in Hok. destruct Hok as (P1 & P2 & P3 & _). apply page_ok_pos in P1, P2, P3. unfold KERNBASE in *. lia. }
  assert (LKmem ∉ remove_lock LVdisk (held c)) as Hc' by (intros E'; apply Hc; unfold remove_lock in E'; apply list_elem_of_filter in E'; tauto).
  wp_step. eapply wp_page; [exact Hc'|exact Hk|]. intros k1 Hk1. wp_step. eapply wp_page; [exact Hc'|exact Hk1|]. intros k2 Hk2. wp_step. eapply wp_page; [exact Hc'|exact Hk2|]. intros k3 _.
  rewrite !(proj2 (Z.eqb_neq _ 0)) by lia. cbn [orb]. do 3 (wp_step; apply wp_zeroed; intros ?). wp_step. apply wp_zoom. wp_step. cbn [lset kdisk_dev fst lget snd].
  match goal with |- wp _ _ (_, ?x) _ => set (s6 := x) end.
  assert (still (v_mmio s) (Some 0) s6) as Hs6 by (destruct Hs5 as (? & ? & ? & _); split_and!; try done; by intros z [= <-]). clearbody s6. do 8 config_step. destruct Hs14 as (_ & Hui & Hsn & Hx). destruct (Hx 0 eq_refl) as [Hav Hdu]. wp_step. apply wp_zoom.
  eapply (wp_loop (fun i _ s' => (i <= NUM)%nat /\ (forall j, (j < i)%nat -> v_free s' j <> 0) /\ v_avail_idx s' = 0 /\ v_seen s' = 0 /\ v_used_idx s' = 0 /\ v_dev_used_idx s' = 0) (fun i => (NUM - i)%nat)).
  - intros i c' s' (Hi & Hf & Ha & Hs' & Hui' & Hdu'). destruct (Nat.ltb_spec i NUM) as [Hlt|Hge].
    + wp_steps. split_and!; [lia| |done..|lia]. intros j Hj. cbn. unfold upd. case_decide; [done|]. apply Hf. lia.
    + wp_steps. apply wp_zoom. unfold write_mmio. wp_step. cbn. split_and!; try done. intros j Hj. apply Hf. lia.
  - lia.
  - split_and!; try done; [lia|]. intros j Hj. lia.
Qed.

(** * The contract *)

(** C4: The disk driver implements the contract the buffer cache is verified against, with any
    number of threads in [virtio_disk_rw], interrupts and stray wakeups at any time, and a device
    that looks at the queue when it likes, finishes requests in any order and fails any of them.
    In every run from a freshly initialised driver: it panics only after a request has failed;
    the calls, their returns with the contents of the buffer, and the changes of buffers by their
    owners are those of a disk on which each call takes effect at one moment between its start
    and its return, as [Bio.virtio_disk_rw], and the buffers and blocks that no call is about are
    as that disk has them; and as long as no request has failed, every call that has not returned
    can still return without a stray wakeup, a stray interrupt or an unasked look at the queue. *)
Theorem virtio_refines_disk_rw s0 sb0 l y : booted s0 -> sees sb0 s0 -> dsteps (dsys0 s0) l y ->
  (y_panicked y = true -> EFail ∈ l) /\
  (exists a, asteps (asys0 sb0) (List.filter visible l) a /\
    (forall b, (forall t, uses (y_pc y t) <> Some b) ->
       b_blockno (bufs (a_bio a) b) = vb_blockno (v_bufs (y_vd y) b) /\ b_data (bufs (a_bio a) b) = vb_data (v_bufs (y_vd y) b)) /\
    (forall x, (forall t b, uses (y_pc y t) = Some b -> vb_blockno (v_bufs (y_vd y) b) <> x) -> dsk (a_bio a) x = v_store (y_vd y) x)) /\
  (EFail ∉ l -> forall t b, uses (y_pc y t) = Some b ->
    exists l' y' blockno data, dsteps y l' y' /\ Forall (fun e => unaided e = true) l' /\ ERet t b blockno data ∈ l').
Proof.
  intros Hs Hsb Hl. destruct (sim_steps _ _ _ _ _ _ (sim_boot s0 sb0 Hs Hsb) Hl) as (a & f & Has & Hy & Hp). split_and!.
  - intros E. destruct (Hp E) as [|[|]]; done.
  - exists a. destruct Hy as [Hv Ht Ha _ _]. assert (forall r, dirty (y_vd y) f r -> r ∈ all f) as Hd by (intros r [?|[? _]]; apply in_all; auto). split_and!; [done| |].
    + intros b Hb. split; [apply (ai_blk _ _ _ _ Ha)|]. apply (ai_data _ _ _ _ Ha). intros r Hr%Hd _ <-. apply (Hb (r_t r)). by eapply ti_uses.
    + intros x Hx. apply (ai_store _ _ _ _ Ha). intros r Hr%Hd _ <-. apply (Hx (r_t r) (r_b r)); [by eapply ti_uses|apply (vi_chain _ _ Hv r Hr)].
  - intros Hne t b Hb. destruct (call_returns y f t b) as (l' & y' & Hl' & Hu & n & d & Hr); [|done|eauto 10]. split.
    + exists a. eapply sysinv_weaken; [|exact Hy]. tauto.
    + destruct (y_panicked y) eqn:E; [|done]. destruct (Hp eq_refl) as [|[|]]; done.
    + eapply dsteps_idle; [exact Hl|]. by exists 0%nat.
Qed.

Definition idle_disk : vdisk := mkvdisk (fun _ => mkvdesc VNull 0 0 0) (fun _ => 0) 0 (fun _ => 0) 0 (fun _ => 1) 0 (fun _ => None) (fun _ => 0)
  (fun _ => mkvreq 0 0 0) (fun i => mkvbuf 0 (Z.of_nat i) (replicate 1024 7)) (fun _ => 0) [] 0 (fun _ => replicate 1024 0).
Definition idle_bio : bio := mkbio (fun i => mkbuf 0 0 0 (Z.of_nat i) (mksleep 0 0) 0 0 0 (replicate 1024 7)) (fun _ => replicate 1024 0) [].

(** Thread 0 has called [virtio_disk_rw] to write buffer 5, and thread 1 to read into buffer 6. *)
Definition two_calls : dsys := mkdsys idle_disk []
  (upd (upd (fun _ => TIdle) 0 (TDesc 5 true (rw_sector 5) true)) 1 (TDesc 6 false (rw_sector 6) true)) None false.

Lemma virtio_refines_disk_rw_witness :
  dsteps (dsys0 idle_disk) [ECall 0 5 true; ECall 1 6 false] two_calls /\
  (exists a, asteps (asys0 idle_bio) [ECall 0 5 true; ECall 1 6 false] a) /\
  exists l' y' blockno data, dsteps two_calls l' y' /\ Forall (fun e => unaided e = true) l' /\ ERet 1 6 blockno data ∈ l'.
Proof.
  assert (dsteps (dsys0 idle_disk) [ECall 0 5 true; ECall 1 6 false] two_calls) as Hd.
  { eapply dsteps_cons; [done|apply (ds_call (dsys0 idle_disk) 0 5 true); [done|]|].
    - split; [cbn; lia|done].
    - eapply dsteps_cons; [done|eapply (ds_call _ 1 6 false); [done|]|apply dsteps_nil].
      split; [cbn; lia|]. cbn. intros t b. unfold upd. case_decide; [|done]. intros [= <-]. done. }
  destruct (virtio_refines_disk_rw idle_disk idle_bio _ _ ltac:(done) ltac:(done) Hd) as (_ & (a & Ha & _) & Hp).
  split; [exact Hd|]. split; [exists a; exact Ha|]. apply Hp; [|done]. rewrite !not_elem_of_cons. split_and!; [done|done|apply not_elem_of_nil].
Defined.
