(* ===== verification/Trap.v ===== *)
(** Traps, interrupts and the return to user space: kernel/trap.c, kernel/plic.c, and
    [forkret] of kernel/proc.c.

    The state adds to the kernel the control and status registers of the hart, the interrupt
    controller, and the disk driver. *)
From S2P Require Import Prelude Memory Riscv Kalloc Vm Sleeplock Bio Log Fs State Process FsFile Uart Console Pipe File ProcLife Exec Syscall Virtio.

(** The control and status registers the code reads and writes; [x_tp] is the hart number. *)
Record csr := mkcsr {
  x_sstatus : Z; x_scause : Z; x_sepc : Z; x_stval : Z; x_stvec : Z; x_sip : Z; x_satp : Z; x_tp : Z }.

(** The interrupts the PLIC has pending for this hart, and the writes to its registers. *)
Record tst := mktst { t_k : kst; t_csr : csr; t_irqs : list Z; t_plic : list (Z * Z); t_disk : vdisk }.

Definition tk : lens tst kst := mklens t_k (fun x s => mktst x (t_csr s) (t_irqs s) (t_plic s) (t_disk s)).
Definition tdisk : lens tst vdisk := mklens t_disk (fun x s => mktst (t_k s) (t_csr s) (t_irqs s) (t_plic s) x).
Definition set_csr (f : csr -> csr) : M tst unit :=
  modify (fun s => mktst (t_k s) (f (t_csr s)) (t_irqs s) (t_plic s) (t_disk s)).

Definition w_sstatus (v : Z) : M tst unit :=
  set_csr (fun x => mkcsr v (x_scause x) (x_sepc x) (x_stval x) (x_stvec x) (x_sip x) (x_satp x) (x_tp x)).
Definition w_sepc (v : Z) : M tst unit :=
  set_csr (fun x => mkcsr (x_sstatus x) (x_scause x) v (x_stval x) (x_stvec x) (x_sip x) (x_satp x) (x_tp x)).
Definition w_stvec (v : Z) : M tst unit :=
  set_csr (fun x => mkcsr (x_sstatus x) (x_scause x) (x_sepc x) (x_stval x) v (x_sip x) (x_satp x) (x_tp x)).
Definition w_sip (v : Z) : M tst unit :=
  set_csr (fun x => mkcsr (x_sstatus x) (x_scause x) (x_sepc x) (x_stval x) (x_stvec x) v (x_satp x) (x_tp x)).
Definition rcsr {A} (f : csr -> A) : M tst A := gets (fun s => f (t_csr s)).

(** Enabling and disabling interrupts. *)
Definition csr_intr_on : M tst unit := x <- rcsr x_sstatus ;; w_sstatus (Z.lor x SSTATUS_SIE).
Definition csr_intr_off : M tst unit := x <- rcsr x_sstatus ;; w_sstatus (Z.land x (Z.lnot SSTATUS_SIE)).

(** * kernel/plic.c *)

Definition PLIC_SENABLE (hart : Z) : Z := PLIC + 0x2080 + hart * 0x100.
Definition PLIC_SPRIORITY (hart : Z) : Z := PLIC + 0x201000 + hart * 0x2000.
Definition PLIC_SCLAIM (hart : Z) : Z := PLIC + 0x201004 + hart * 0x2000.

Definition w_plic (a v : Z) : M tst unit :=
  modify (fun s => mktst (t_k s) (t_csr s) (t_irqs s) ((a, v) :: t_plic s) (t_disk s)).

Definition plicinit : M tst unit :=
  w_plic (PLIC + UART0_IRQ * 4) 1 ;;
  w_plic (PLIC + VIRTIO0_IRQ * 4) 1.

Definition plicinithart : M tst unit :=
  hart <- rcsr x_tp ;;
  w_plic (PLIC_SENABLE hart) (Z.lor (Z.shiftl 1 UART0_IRQ) (Z.shiftl 1 VIRTIO0_IRQ)) ;;
  w_plic (PLIC_SPRIORITY hart) 0.

(** Reading the claim register takes the next pending interrupt, 0 if there is none. *)
Definition plic_claim : M tst Z := fun c s =>
  Ret c (mktst (t_k s) (t_csr s) (tail (t_irqs s)) (t_plic s) (t_disk s)) (default 0 (head (t_irqs s))).

Definition plic_complete (irq : Z) : M tst unit :=
  hart <- rcsr x_tp ;;
  w_plic (PLIC_SCLAIM hart) irq.

(** * kernel/trap.c *)

Definition trapinit : M tst unit := initlock LTicks.

Definition clockintr : M kst unit :=
  acquire LTicks ;;
  t <- gets k_ticks ;;
  modify (set_ticks (u32 (t + 1))) ;;
  kwakeup ChTicks ;;
  release LTicks.

Section trap.
Context `{Layout}.

Definition trapinithart : M tst unit := w_stvec kernelvec_addr.

Definition devintr : M tst Z :=
  scause <- rcsr x_scause ;;
  if negb (Z.land scause 0x8000000000000000 =? 0) && (Z.land scause 0xff =? 9) then
    irq <- plic_claim ;;
    (if irq =? UART0_IRQ then zoom tk uartintr
     else if irq =? VIRTIO0_IRQ then zoom tdisk virtio_disk_intr
     else if negb (irq =? 0) then printf ("unexpected interrupt irq=%d" +:+ nl) [PInt irq]
     else ret tt) ;;
    (if negb (irq =? 0) then plic_complete irq else ret tt) ;;
    ret 1
  else if scause =? 0x8000000000000001 then
    id <- rcsr x_tp ;;
    (if id =? 0 then zoom tk clockintr else ret tt) ;;
    sip <- rcsr x_sip ;;
    w_sip (Z.land sip (Z.lnot 2)) ;;
    ret 2
  else ret 0.

(** The result is the argument of [userret]: the hart then runs the trampoline. *)
Definition usertrapret : M tst Z :=
  p <- zoom tk myproc ;;
  csr_intr_off ;;
  w_stvec (TRAMPOLINE + (uservec_addr - trampoline)) ;;
  satp <- rcsr x_satp ;;
  zoom tk (tf_set p TF_kernel_satp satp) ;;
  x <- zoom tk (get_proc p) ;;
  zoom tk (tf_set p TF_kernel_sp (p_kstack x + PGSIZE)) ;;
  zoom tk (tf_set p TF_kernel_trap usertrap_addr) ;;
  tp <- rcsr x_tp ;;
  zoom tk (tf_set p TF_kernel_hartid tp) ;;
  st <- rcsr x_sstatus ;;
  w_sstatus (Z.lor (Z.land st (Z.lnot SSTATUS_SPP)) SSTATUS_SPIE) ;;
  epc <- zoom tk (tf_get p TF_epc) ;;
  w_sepc epc ;;
  ret (MAKE_SATP (p_pagetable x)).

Definition usertrap : M tst Z :=
  st <- rcsr x_sstatus ;;
  if negb (Z.land st SSTATUS_SPP =? 0) then panic "usertrap: not from user mode" else
  w_stvec kernelvec_addr ;;
  p <- zoom tk myproc ;;
  sepc <- rcsr x_sepc ;;
  zoom tk (tf_set p TF_epc sepc) ;;
  scause <- rcsr x_scause ;;
  which_dev <-
    (if scause =? 8 then
       k <- zoom tk (killed p) ;;
       (if negb (k =? 0) then zoom tk (exit (-1)) else ret tt) ;;
       epc <- zoom tk (tf_get p TF_epc) ;;
       zoom tk (tf_set p TF_epc (u64 (epc + 4))) ;;
       csr_intr_on ;;
       zoom tk syscall ;;
       ret 0
     else
       d <- devintr ;;
       if negb (d =? 0) then ret d else
       x <- zoom tk (get_proc p) ;;
       printf ("usertrap(): unexpected scause %p pid=%d" +:+ nl) [PPtr scause; PInt (p_pid x)] ;;
       sepc <- rcsr x_sepc ;;
       stval <- rcsr x_stval ;;
       printf ("            sepc=%p stval=%p" +:+ nl) [PPtr sepc; PPtr stval] ;;
       zoom tk (setkilled p) ;;
       ret 0) ;;
  k <- zoom tk (killed p) ;;
  (if negb (k =? 0) then zoom tk (exit (-1)) else ret tt) ;;
  (if which_dev =? 2 then zoom tk yield else ret tt) ;;
  usertrapret.

(** [intr_get()] *)
Definition csr_intr_get : M tst bool := x <- rcsr x_sstatus ;; ret (negb (Z.land x SSTATUS_SIE =? 0)).

(** [has_proc] is [myproc() != 0]: whether the interrupted thread is a process. *)
Definition kerneltrap (has_proc : bool) : M tst unit :=
  sepc <- rcsr x_sepc ;;
  sstatus <- rcsr x_sstatus ;;
  scause <- rcsr x_scause ;;
  if Z.land sstatus SSTATUS_SPP =? 0 then panic "kerneltrap: not from supervisor mode" else
  on <- csr_intr_get ;;
  if (on : bool) then panic "kerneltrap: interrupts enabled" else
  which_dev <- devintr ;;
  if which_dev =? 0 then
    printf ("scause %p" +:+ nl) [PPtr scause] ;;
    sepc <- rcsr x_sepc ;;
    stval <- rcsr x_stval ;;
    printf ("sepc=%p stval=%p" +:+ nl) [PPtr sepc; PPtr stval] ;;
    panic "kerneltrap"
  else
    p <- zoom tk myproc ;;
    x <- zoom tk (get_proc p) ;;
    (if (which_dev =? 2) && has_proc && bool_decide (p_state x = RUNNING) then zoom tk yield else ret tt) ;;
    w_sepc sepc ;;
    w_sstatus sstatus.

Definition forkret : M tst Z :=
  p <- zoom tk myproc ;;
  zoom tk (release (LProc p)) ;;
  first <- gets (fun s => k_first (t_k s)) ;;
  (if (first : bool) then
     zoom tk (zoom fs_lens (fsinit ROOTDEV)) ;;
     zoom tk (modify (set_first false))
   else ret tt) ;;
  usertrapret.
End trap.
