(* ===== verification/FsSys.v ===== *)
(** Writing a file as a system call: [filewrite] splits the write into transactions, each of
    which is atomic on disk. *)
From S2P Require Import Prelude Memory Riscv Kalloc Vm Sleeplock Bio BioInv BioSpec Log LogPure LogSpec LogTxn Fs FsTxn FsDisk FsAlloc FsGrow FsInode FsTable State Process FsFile FsPath FsIo Uart Console Pipe File.

#[local] Arguments loop : simpl never.

(** * Files as lists of bytes *)

Record afile := mkafile { af_type : Z; af_major : Z; af_minor : Z; af_nlink : Z; af_data : list Z }.

(** The file that inode [j] of the disk stands for. *)
Definition absfile (sb : superblock) (D : Z -> block) (j : Z) : afile :=
  let n := dnode sb D j in mkafile (d_type n) (d_major n) (d_minor n) (d_nlink n) (fbytes D n).

(** The file with [l] written at [off]. *)
Definition write_at (off : nat) (l : list Z) (x : afile) : afile :=
  mkafile (af_type x) (af_major x) (af_minor x) (af_nlink x) (splice (af_data x) off l).

Lemma fbytes_fslice V n : fbytes V n = fslice V (d_addrs n) 0 (Z.to_nat (d_size n)).
Proof. done. Qed.

(** Bytes changed from [off] on, the size growing as needed, is [splice]. *)
Lemma fslice_splice V V' l l' off sz data : 0 <= off <= sz -> sz <= MAXFILE * BSIZE -> off + Z.of_nat (length data) <= MAXFILE * BSIZE ->
  (forall pos, 0 <= pos < MAXFILE * BSIZE -> fbyte V' l' pos =
     if decide (off <= pos < off + Z.of_nat (length data)) then default 0 (data !! Z.to_nat (pos - off)) else fbyte V l pos) ->
  fslice V' l' 0 (Z.to_nat (Z.max sz (off + Z.of_nat (length data)))) = splice (fslice V l 0 (Z.to_nat sz)) (Z.to_nat off) data.
Proof.
  intros Hoff Hsz Hmax Hby. set (n := Z.of_nat (length data)) in *. apply list_eq. intros i. unfold splice.
  destruct (decide (i < Z.to_nat off)%nat) as [H1|H1].
  - rewrite lookup_app_l by (rewrite length_take, length_fslice; lia). rewrite lookup_take_lt, !lookup_fslice by lia.
    rewrite Hby, decide_False by lia. done.
  - rewrite lookup_app_r by (rewrite length_take, length_fslice; lia). rewrite length_take, length_fslice, Nat.min_l by lia.
    destruct (decide (i < Z.to_nat off + length data)%nat) as [H2|H2].
    + rewrite lookup_app_l by lia. rewrite lookup_fslice by lia. rewrite Hby, decide_True by lia.
      replace (Z.to_nat (0 + Z.of_nat i - off)) with (i - Z.to_nat off)%nat by lia.
      destruct (lookup_lt_is_Some_2 data (i - Z.to_nat off)) as [y ->]; [lia|done].
    + rewrite lookup_app_r, lookup_drop by lia. replace (Z.to_nat off + length data + (i - Z.to_nat off - length data))%nat with i by lia.
      destruct (decide (i < Z.to_nat sz)%nat) as [H3|H3].
      * rewrite !lookup_fslice by lia. rewrite Hby, decide_False by lia. done.
      * rewrite !(proj2 (lookup_ge_None _ _)); [done|rewrite length_fslice; lia..].
Qed.

Section sys.
Context (dv start size : Z) (sb : superblock) `{G : !FsGeo dv start size sb}.
Abbreviation ftx := (ftx dv start size sb).
Abbreviation fsok := (fsok sb).
Abbreviation dnode := (dnode sb).
Abbreviation txn := (txn dv start size).
Abbreviation opened := (opened dv start size sb).

Lemma fsok_ext_node I I' V : fsok I V -> (forall j, 0 <= j < sb_ninodes sb -> I' j = I j) -> fsok I' V.
Proof.
  intros [H1 H2 H3 H4 H5 H6 H7] He.
  assert (forall j k b, refers sb I' V j k b -> refers sb I V j k b) as Hr.
  { intros j k b (Hj & Hk & Hs & Hb). rewrite He in Hs by done. exact (conj Hj (conj Hk (conj Hs Hb))). }
  split; try done.
  - intros j Hj. rewrite He by done. auto.
  - intros j k b Hjk%Hr. eauto.
  - intros j k j' k' b Ha%Hr Hb%Hr. eauto.
  - intros j Hj. rewrite He by done. auto.
  - intros j bn Hj. rewrite He by done. auto.
Qed.

(** The disk holds a well-formed file system. *)
Definition disk_fs (D : Z -> block) : Prop := fsok (dnode D) D.

Lemma disk_fs_ext D D' : disk_fs D -> (forall b, sb_inodestart sb <= b -> D' b = D b) -> disk_fs D'.
Proof.
  intros Hok He. eapply fsok_ext_node; [by apply (fsok_ext sb (dnode D) D)|]. intros j Hj. by apply (dnode_ext sb D D').
Qed.

Lemma absfile_ext D D' j : disk_fs D -> (forall b, sb_inodestart sb <= b -> D' b = D b) -> 0 <= j < sb_ninodes sb ->
  absfile sb D' j = absfile sb D j.
Proof.
  intros Hok He Hj. unfold absfile. rewrite (dnode_ext sb D D' j He Hj). f_equal. unfold fbytes. apply list_fmap_ext.
  intros i p Hp. apply lookup_seq in Hp as [-> Hp]. pose proof (ok_size _ _ _ Hok j Hj).
  apply (fbyte_ext_ok sb (dnode D)); [done|done|done|lia].
Qed.

(** Between system calls: nothing in the log, the cache agrees with the disk. *)
Record quiet (f : fsst) (T : nat -> inode) (D : Z -> block) : Prop := {
  q_sb : fs_sb f = sb;
  q_tab : fs_itable f = T;
  q_txn : exists V, txn (fs_log f) [] V D 0;
}.

Lemma quiet_home b : sb_inodestart sb <= b -> home start size b.
Proof. intros Hb. pose proof (geo_bounds sb). unfold home. lia. Qed.

(** ** Beginning and ending *)

Lemma wp_kbegin pid c f s T D F (Q : cpu -> kst -> unit -> Prop) :
  lcpu c -> quiet f T D -> Z.of_nat (length F) <= size - 2 ->
  (forall f', ftx (mkfconst 1 (dwrites (lbio (fs_log f)))) pid f' T D D F [] [] -> Q c (set_fs f' s) tt) ->
  wp (zoom klog_lens begin_op) c (set_fs f s) Q.
Proof.
  intros Hc [Hsb Htab (V & Ht)] HF HQ. apply wp_zoom. cbn [lget klog_lens k_fs set_fs].
  eapply (wp_begin_op dv start size geo_dv geo_start geo_end geo_size); [done|exact Ht|by change LOGSIZE with 30|].
  intros l' Ht' Hw. apply (HQ (mkfs (fs_sb f) (fs_itable f) l')).
  assert (forall b, V b = D b) as HV by (intros b; apply (tx_clean _ _ _ _ _ _ _ _ Ht'), not_elem_of_nil).
  destruct Ht' as [Hat Hsz Hlh Htr Hlen Ho Hcm Hst Hcln Hhdr Hhl]. split; simpl; try done.
  - exists []. split_and!; try done; [|set_solver]. eapply bst_ext; [exact Hst|done|done|..].
    + intros b. rewrite (uses_out [] b) by apply not_elem_of_nil. lia.
    + intros b. apply locks_out, not_elem_of_nil.
  - split; [apply NoDup_nil_2|lia].
  - intros b i Hin. by apply not_elem_of_nil in Hin.
Qed.

Lemma wp_kend pid c f s T V D F w (Q : cpu -> kst -> unit -> Prop) :
  lcpu c -> ftx (mkfconst 1 w) pid f T V D F [] [] ->
  (forall c' f' D' W, same_cpu c c' -> quiet f' T D' -> dwrites (lbio (fs_log f')) = reverse W ++ w -> crash_step start size D W D' ->
     (forall b, sb_inodestart sb <= b -> D' b = V b) -> Q c' (set_fs f' s) tt) ->
  wp (zoom klog_lens end_op) c (set_fs f s) Q.
Proof.
  intros Hc [Hsb Htab (bs & Hat & Hsz & Hlh & Htr & Hlen & Ho & Hcm & Hst & Hcln & HF & Hdw) Hrm Hu Hl Hd [Hh Hh']] HQ.
  apply wp_zoom. cbn [lget klog_lens k_fs set_fs].
  assert (txn (fs_log f) bs V D 1) as Ht.
  { split; try done; [|intros b Hb; apply Hcln; [done|apply not_elem_of_nil]]. eapply bst_ext; [exact Hst|done|done|..]; intros b.
    - cbn beta. rewrite (uses_out [] b) by apply not_elem_of_nil. lia.
    - symmetry. apply locks_out, not_elem_of_nil. }
  eapply (wp_end_op dv start size geo_dv geo_start geo_end geo_size); [done|exact Ht|lia|].
  intros c' l' bs' V' D' W Hcc Ht' Hw Hcr HV HD. cbn in HD. destruct HD as [-> HD].
  apply (HQ c' (mkfs (fs_sb f) (fs_itable f) l') D' W); try done.
  - split; [done|done|]. by exists V'.
  - simpl. by rewrite Hw, Hdw.
  - intros b Hb. by apply HD, quiet_home.
Qed.

(** ** One transaction of [filewrite] *)

(** The file system between system calls. *)
Record idle (f : fsst) (T : nat -> inode) (D : Z -> block) : Prop := {
  id_quiet : quiet f T D;
  id_fs : disk_fs D;
  id_tab : itab dv sb T D None;
}.

(** The blocks a write to inode [inum] may log besides the file's: the inode's and the bitmap. *)
Definition bitmap_blocks : list Z := (fun i => sb_bmapstart sb + Z.of_nat i) <$> seq 0 (Z.to_nat (sb_size sb / BPB + 1)).
Definition write_bound (D : Z -> block) (inum : Z) : list Z :=
  IBLOCK inum sb :: addr_l (d_addrs (dnode D inum)) NDIRECT :: bitmap_blocks.

Lemma length_write_bound D inum : Z.of_nat (length (write_bound D inum)) = sb_size sb / BPB + 3.
Proof.
  pose proof (geo_bounds sb). unfold write_bound, bitmap_blocks. cbn [length]. rewrite length_fmap, length_seq. lia.
Qed.

Lemma bitmap_in_bound D inum : bitmap_in sb (write_bound D inum).
Proof.
  intros b Hb. destruct (BBLOCK_val sb b Hb) as [-> _]. right; right. unfold bitmap_blocks. apply list_elem_of_fmap.
  exists (Z.to_nat (b / BPB)). assert (0 <= b / BPB <= sb_size sb / BPB) by (split; [apply Z.div_pos; [lia|done]|apply Z.div_le_mono; [done|lia]]).
  split; [lia|]. apply elem_of_seq. lia.
Qed.

Lemma touched_max off n : 0 <= off -> 0 <= n <= filewrite_max -> touched off n <= 4.
Proof.
  change filewrite_max with 3072. intros Hoff Hn. unfold touched. change BSIZE with 1024. case_match; [lia|]. dlia.
Qed.

(** The table after the write: only the entry of the inode has changed, with the inode. *)
Lemma itab_after T T' D D' ip inum : itab dv sb T D None -> entry T inum ip -> (forall i, i <> ip -> T' i = T i) ->
  (forall j, 0 <= j < sb_ninodes sb -> j <> inum -> dnode D' j = dnode D j) ->
  i_dev (T' ip) = i_dev (T ip) -> i_inum (T' ip) = inum -> i_ref (T' ip) = i_ref (T ip) -> core (T' ip) = dnode D' inum ->
  sl_locked (i_lock (T' ip)) = 0 -> itab dv sb T' D' None.
Proof.
  intros [H1 H2 H3 H4 H5] (Hip & Hpos & Hin) Hne Hdn Hd Hi Hr Hco Hl.
  assert (forall k, i_dev (T' k) = i_dev (T k) /\ i_inum (T' k) = i_inum (T k) /\ i_ref (T' k) = i_ref (T k)) as Hall.
  { intros k. destruct (decide (k = ip)) as [->|Hk]; [split_and!; congruence|]. by rewrite Hne. }
  split.
  - intros i Hi' Hp. destruct (Hall i) as (-> & -> & E). rewrite E in Hp. auto.
  - intros i Hi' Hp Hv. destruct (decide (i = ip)) as [->|Hk]; [by rewrite Hi|]. rewrite Hne in * by done. rewrite Hdn; auto.
    + by apply H1.
    + intros E. destruct Hk. apply H3; try done. congruence.
  - intros i j Hi' Hj' Hpi Hpj E. destruct (Hall i) as (_ & Ei & Ri), (Hall j) as (_ & Ej & Rj). rewrite Ei, Ej in E. rewrite Ri in Hpi. rewrite Rj in Hpj. auto.
  - intros i. destruct (Hall i) as (_ & _ & ->). auto.
  - intros i Hi'. destruct (decide (i = ip)) as [->|Hk]; [done|]. rewrite Hne by done. auto.
Qed.

(** What one transaction has done when [writei] returned [r]. *)
Record chunk_done (T : nat -> inode) (D : Z -> block) (ip : nat) (inum off n r : Z) (data : list Z)
    (T' : nat -> inode) (D' : Z -> block) : Prop := {
  cd_r : 0 <= r <= n /\ (r < n -> forall b, 0 <= b < sb_size sb -> used sb D' b);
  cd_entry : entry T' inum ip;
  cd_file : absfile sb D' inum = write_at (Z.to_nat off) (take (Z.to_nat r) data) (absfile sb D inum);
  cd_size : d_size (dnode D' inum) = Z.max (d_size (dnode D inum)) (off + r);
  cd_type : d_type (dnode D' inum) = d_type (dnode D inum);
  cd_other j : 0 <= j < sb_ninodes sb -> j <> inum -> absfile sb D' j = absfile sb D j;
}.

(** From the result of [writei] to the files on disk. *)
Lemma wrote_abs T1 V ip inum off n r data T2 V2 D I2 :
  wrote sb off n r data T1 V (dnode V) ip inum T2 V2 I2 -> disk_fs V -> fsok I2 V2 -> I2 inum = core (T2 ip) -> core (T1 ip) = dnode V inum ->
  0 <= inum < sb_ninodes sb -> 0 <= off <= d_size (dnode V inum) -> off + n <= MAXFILE * BSIZE -> Z.of_nat (length data) = n ->
  (forall b, sb_inodestart sb <= b -> D b = V2 b) ->
  disk_fs D /\ dnode D inum = core (T2 ip) /\ (forall j, 0 <= j < sb_ninodes sb -> j <> inum -> dnode D j = dnode V j /\ absfile sb D j = absfile sb V j) /\
  absfile sb D inum = write_at (Z.to_nat off) (take (Z.to_nat r) data) (absfile sb V inum) /\
  d_size (dnode D inum) = Z.max (d_size (dnode V inum)) (off + r) /\ d_type (dnode D inum) = d_type (dnode V inum).
Proof.
  intros [[Hr Hfull] Ho Ht [l Hl] Hd Hby _ _] Hok Hok2 Hn2 Hco Hi Hoff Hmax Hdl He.
  assert (forall j, 0 <= j < sb_ninodes sb -> dnode V2 j = I2 j) as HI.
  { intros j Hj. rewrite Hd by done. case_decide; [by subst|]. symmetry. by apply Ho. }
  assert (disk_fs V2) as Hok2' by (eapply fsok_ext_node; [exact Hok2|done]).
  assert (i_size (T1 ip) = d_size (dnode V inum)) as Hs1 by (by rewrite <- Hco).
  assert (dnode D inum = core (T2 ip)) as HDn by (rewrite (dnode_ext sb V2 D inum) by done; by rewrite HI, Hn2).
  assert (dnode V inum = core (T1 ip)) as Hco' by done.
  split_and!.
  - by eapply (disk_fs_ext V2).
  - done.
  - intros j Hj Hne. assert (dnode D j = dnode V j) as Edn.
    { rewrite (dnode_ext sb V2 D j) by done. rewrite Hd by done. by rewrite decide_False. }
    split; [done|]. rewrite (absfile_ext V2 D j) by done. unfold absfile. rewrite HI, Ho by done. f_equal. unfold fbytes.
    apply list_fmap_ext. intros i p Hp. apply lookup_seq in Hp as [-> Hp]. pose proof (ok_size _ _ _ Hok j Hj).
    rewrite <- (Ho j Hne) at 1. rewrite Hby by lia. by rewrite decide_False by naive_solver.
  - rewrite (absfile_ext V2 D inum) by done. unfold absfile, write_at. rewrite HI by done. rewrite Hn2. cbn [af_type af_major af_minor af_nlink af_data].
    rewrite Hl, Hco'. cbn [core set_size set_addrs d_type d_major d_minor d_nlink i_type i_major i_minor i_nlink]. f_equal.
    rewrite !fbytes_fslice. cbn [core set_size set_addrs d_size d_addrs i_size i_addrs].
    assert (Z.of_nat (length (take (Z.to_nat r) data)) = r) as Hlr by (rewrite length_take; lia).
    rewrite <- Hlr at 1. pose proof (ok_size _ _ _ Hok inum Hi). apply fslice_splice; rewrite ?Hlr; try lia.
    intros pos Hpos. specialize (Hby inum pos Hi Hpos). rewrite Hn2, Hl in Hby. cbn [core set_size set_addrs d_addrs i_addrs] in Hby. rewrite Hby, Hco'.
    destruct (decide (off <= pos < off + r)); [rewrite decide_True by done|rewrite decide_False by naive_solver; done].
    by rewrite lookup_take_lt by lia.
  - by rewrite HDn, Hl, Hco'.
  - by rewrite HDn, Hl, Hco'.
Qed.

Lemma wp_write_chunk {B} pid c f s T D ip inum fi src data off n (kont : Z -> M kst B) (Q : cpu -> kst -> B -> Prop) :
  fcpu c -> curpid c = pid -> idle f T D -> entry T inum ip -> d_type (dnode D inum) <> 0 -> sb_size sb / BPB + 17 <= size ->
  f_off (k_files s fi) = off -> (forall c1, same_cpu c c1 -> src_ok c1 s src data) -> Z.of_nat (length data) = n -> 0 <= n <= filewrite_max ->
  0 <= off <= d_size (dnode D inum) -> off + n <= MAXFILE * BSIZE ->
  (forall c' f' T' D' W r, same_cpu c c' -> idle f' T' D' -> dwrites (lbio (fs_log f')) = reverse W ++ dwrites (lbio (fs_log f)) ->
     crash_step start size D W D' -> chunk_done T D ip inum off n r data T' D' ->
     wp (kont r) c' (set_fs f' (if r >? 0 then set_files (updn fi (fun y => set_foff (u32 (f_off y + r)) y) (k_files s)) s else s)) Q) ->
  wp (zoom klog_lens begin_op ;; zoom fs_lens (ilock (Some ip)) ;; y <- get_file fi ;; r <- writei ip src (f_off y) n ;;
      (if r >? 0 then upd_file fi (fun y => set_foff (u32 (f_off y + r)) y) else ret tt) ;;
      zoom fs_lens (iunlock (Some ip)) ;; zoom klog_lens end_op ;; kont r) c (set_fs f s) Q.
Proof.
  intros Hc Hp [Hq Hok Ht] He Hty Hsz Hof Hsrc Hdl Hn Hoff Hmax HQ. pose proof He as (Hip & Hpos & Hin).
  destruct (it_dev _ _ _ _ _ Ht ip Hip Hpos) as [Hdev Hrg]. rewrite Hin in Hrg.
  pose proof (touched_max off n ltac:(lia) Hn) as Htm. pose proof (length_write_bound D inum) as HlF.
  set (K := mkfconst 1 (dwrites (lbio (fs_log f)))).
  wp_step. eapply (wp_kbegin pid c f s T D (write_bound D inum)); [apply Hc|done|lia|]. intros f1 Hx1.
  wp_step. apply wp_fs. eapply (wp_ilock_tab dv start size sb K); [done|done|exact Hx1|done|exact He|done|].
  intros c2 f2 T2 Hcc2 Hx2 Ht2 (_ & Hpos2 & Hin2) Hlk2 Hco2 _ Href2 Hne2 _.
  assert (fcpu c2) as Hc2 by (by eapply same_fcpu). assert (curpid c2 = pid) as Hp2 by (by eapply same_pid).
  assert (i_dev (T2 ip) = dv) as Hdev2 by (by apply (it_dev _ _ _ _ _ Ht2)).
  unfold get_file. wp_step. wp_step. cbn [k_files set_fs]. rewrite Hof.
  assert (opened K pid f2 T2 D D (write_bound D inum) (dnode D) ip inum) as Hop.
  { split; try done; [apply bitmap_in_bound|]. intros _. unfold addr_at. replace (i_addrs (T2 ip)) with (d_addrs (dnode D inum)) by (by rewrite <- Hco2). right. by left. }
  wp_step. eapply (wp_writei dv start size sb K); [apply Hc2|done|exact Hop|by apply Hsrc|done| |done|by left|lia|].
  { replace (i_size (T2 ip)) with (d_size (dnode D inum)) by (by rewrite <- Hco2). done. }
  intros c3 f3 T3 V3 F3 I3 r Hcc3 Hop3 _ _ Hw. pose proof Hop3 as [Hx3 Hok3 Hn3 _ [Hdev3 Hin3] _ _]. pose proof Hw as [[Hr Hfull] Ho3 Ht3 [l3 Hl3] Hd3 _ _].
  assert (fcpu c3) as Hc3 by (by eapply same_fcpu). assert (curpid c3 = pid) as Hp3 by (by eapply same_pid).
  set (s1 := if r >? 0 then set_files (updn fi (fun y => set_foff (u32 (f_off y + r)) y) (k_files s)) s else s).
  assert (forall m, wp m c3 (set_fs f3 s1) Q -> wp ((if r >? 0 then upd_file fi (fun y => set_foff (u32 (f_off y + r)) y) else ret tt) ;; m) c3 (set_fs f3 s) Q) as Hupd.
  { intros m Hm. unfold s1 in Hm. wp_step. destruct (r >? 0); unfold upd_file; wp_step; exact Hm. }
  apply Hupd. clear Hupd. wp_step. apply wp_fs.
  eapply (wp_iunlock dv start size sb K); [done|done|exact Hx3|by rewrite Hl3|by rewrite Hl3|].
  intros c4 f4 T4 Hcc4 Hx4 HT4 Hne4. wp_step.
  eapply (wp_kend pid c4 f4 s1 T4 V3 D); [eapply same_lcpu; [exact Hcc4|apply Hc3]|exact Hx4|].
  intros c5 f5 D5 W Hcc5 Hq5 Hw5 Hcr5 HD5.
  destruct (wrote_abs T2 D ip inum off n r data T3 V3 D5 I3 Hw Hok Hok3 Hn3 Hco2 Hrg Hoff Hmax Hdl HD5) as (R1 & R2 & R3 & R4 & R5 & R6).
  assert (core (T4 ip) = dnode D5 inum) as Hco4 by (rewrite HT4; symmetry; exact R2).
  eapply (HQ c5 f5 T4 D5 W r); [do 3 (eapply same_cpu_trans; [eassumption|]); done| |done|done|].
  - split; [done|done|]. eapply (itab_after T T4 D D5 ip inum); try done.
    + intros i Hi. by rewrite Hne4, Ht3, Hne2.
    + intros j Hj Hne. by apply R3.
    + rewrite HT4. cbn. congruence.
    + rewrite HT4. cbn. done.
    + rewrite HT4, Hl3. cbn. done.
    + by rewrite HT4.
  - split; try done.
    + split; [done|]. intros Hlt b Hb. destruct (BBLOCK_val sb b Hb) as [_ HB]. pose proof (geo_bounds sb). unfold used. rewrite HD5 by lia. by apply Hfull.
    + split_and!; [done|by rewrite HT4, Hl3|by rewrite HT4].
    + intros j Hj Hne. by apply R3.
Qed.

(** ** The whole write *)

(** After a crash at any of the writes [W] from disk [D], recovery finds a disk with [P]. *)
Definition crash_all (D : Z -> block) (W : list (Z * block)) (P : (Z -> block) -> Prop) : Prop :=
  forall k, disk_ok start size (fsets D (take k W)) /\
    exists R, P R /\ forall b, home start size b -> logical start (fsets D (take k W)) b = R b.

Lemma crash_all_step D W D' (P : (Z -> block) -> Prop) : crash_step start size D W D' -> P D -> P D' -> crash_all D W P.
Proof. intros [_ Hst] H1 H2 k. destruct (Hst k) as [Hok [[_ Hd]|Hd]]; (split; [done|]); eauto. Qed.

Lemma crash_all_mono D W (P P' : (Z -> block) -> Prop) : (forall R, P R -> P' R) -> crash_all D W P -> crash_all D W P'.
Proof. intros HP Hc k. destruct (Hc k) as (Hok & R & HR & Hd). eauto. Qed.

Lemma crash_all_app D W1 D1 W2 P : (forall b, fsets D W1 b = D1 b) -> crash_all D W1 P -> crash_all D1 W2 P -> crash_all D (W1 ++ W2) P.
Proof.
  intros He H1 H2 k. destruct (decide (k <= length W1)%nat) as [Hk|Hk].
  - rewrite take_app_le by lia. apply H1.
  - destruct (H2 (k - length W1)%nat) as (Hok & R & HR & Hd).
    assert (forall x, fsets D1 (take (k - length W1) W2) x = fsets D (take k (W1 ++ W2)) x) as Hx.
    { intros x. rewrite take_app, (take_ge W1) by lia. rewrite fsets_app. symmetry. by apply fsets_ext. }
    split; [by eapply disk_ok_ext|]. exists R. split; [done|]. intros b Hb. rewrite <- (logical_ext start _ _ b Hx). auto.
Qed.

(** The disk [R] is [D] with the first [m] of the bytes written to the file. *)
Definition partly (D : Z -> block) (inum off : Z) (data : list Z) (m : nat) (R : Z -> block) : Prop :=
  disk_fs R /\ absfile sb R inum = write_at (Z.to_nat off) (take m data) (absfile sb D inum) /\
  forall j, 0 <= j < sb_ninodes sb -> j <> inum -> absfile sb R j = absfile sb D j.

Lemma splice_splice l off a b : (off <= length l)%nat -> splice (splice l off a) (off + length a) b = splice l off (a ++ b).
Proof.
  intros Hl. unfold splice. rewrite length_app. rewrite take_app_ge by (rewrite length_take; lia).
  rewrite length_take, Nat.min_l by lia. rewrite take_app_le by lia. replace (off + length a - off)%nat with (length a) by lia.
  rewrite (take_ge a) by done. rewrite drop_app_ge by (rewrite length_take; lia). rewrite length_take, Nat.min_l by lia.
  rewrite drop_app_ge by lia. rewrite drop_drop, <- !app_assoc. do 4 f_equal. lia.
Qed.

Lemma partly_step D D1 D2 T1 T2 ip inum off i n r data : partly D inum off data (Z.to_nat i) D1 ->
  chunk_done T1 D1 ip inum (off + i) n r (take (Z.to_nat n) (drop (Z.to_nat i) data)) T2 D2 -> disk_fs D2 -> disk_fs D ->
  0 <= inum < sb_ninodes sb -> 0 <= off <= d_size (dnode D inum) -> 0 <= i -> i + n <= Z.of_nat (length data) ->
  partly D inum off data (Z.to_nat (i + r)) D2.
Proof.
  intros (_ & Hf & Ho) [[Hr _] _ Hf2 _ _ Ho2] Hok2 Hok Hi Hoff Hi0 Hn. split_and!; [done| |].
  - rewrite Hf2, Hf. unfold write_at. cbn [af_type af_major af_minor af_nlink af_data]. f_equal.
    replace (Z.to_nat (off + i)) with (Z.to_nat off + length (take (Z.to_nat i) data))%nat by (rewrite length_take; lia).
    rewrite splice_splice by (unfold absfile; cbn; rewrite fbytes_fslice, length_fslice; lia). f_equal.
    rewrite take_take, Nat.min_l by lia. replace (Z.to_nat (i + r)) with (Z.to_nat i + Z.to_nat r)%nat by lia. by rewrite take_take_drop.
  - intros j Hj Hne. rewrite Ho2, Ho; done.
Qed.

(** The bytes [data] can be read from address [addr] of the process. *)
Definition user_source (c : cpu) (s : kst) (addr : Z) (data : list Z) : Prop :=
  forall c' s' pos m, same_cpu c c' -> k_mem s' = k_mem s -> k_procs s' = k_procs s -> 0 <= pos -> 0 <= m -> pos + m <= Z.of_nat (length data) ->
    wp (either_copyin (SUser (u64 (addr + pos))) m) c' s'
      (fun c2 s2 r => c2 = c' /\ s2 = s' /\ r = (0, take (Z.to_nat m) (drop (Z.to_nat pos) data))).

Lemma source_piece c s addr data i n c1 s1 : user_source c s addr data -> same_cpu c c1 -> k_mem s1 = k_mem s -> k_procs s1 = k_procs s ->
  0 <= i -> 0 <= n -> i + n <= Z.of_nat (length data) -> src_ok c1 s1 (SUser (u64 (addr + i))) (take (Z.to_nat n) (drop (Z.to_nat i) data)).
Proof.
  intros Hs Hcc Hm Hp Hi Hn Hl. split.
  - simpl. rewrite Z.add_0_r. unfold u64. by rewrite Z.mod_mod.
  - intros c' f pos m Hcc' Hp' Hm' Hlen. rewrite length_take, length_drop in Hlen.
    assert (src_at (SUser (u64 (addr + i))) pos = SUser (u64 (addr + (i + pos)))) as ->.
    { simpl. unfold u64. rewrite Zplus_mod_idemp_l. do 2 f_equal. lia. }
    eapply wp_mono; [apply (Hs c' (set_fs f s1) (i + pos) m); try done; try lia; by eapply same_cpu_trans|].
    intros c2 s2 r (-> & -> & ->). split_and!; try done. f_equal.
    apply list_eq. intros q. destruct (decide (q < Z.to_nat m)%nat); [|by rewrite !lookup_take_ge by lia].
    rewrite !lookup_take_lt, !lookup_drop by lia. rewrite lookup_take_lt, lookup_drop by lia. f_equal. lia.
Qed.

Record filewrite_post (c : cpu) (s : kst) (f : fsst) (D : Z -> block) (fi ip : nat) (inum off n : Z) (data : list Z) (c' : cpu) (s' : kst) (r : Z) : Prop := {
  fw_cpu : same_cpu c c';
  fw_done : exists f' T' D' W m s1, s' = set_fs f' s1 /\ idle f' T' D' /\ entry T' inum ip /\
    dwrites (lbio (fs_log f')) = reverse W ++ dwrites (lbio (fs_log f)) /\ 0 <= m <= n /\
    (r = n /\ m = n \/ r = -1 /\ m < n /\ forall b, 0 <= b < sb_size sb -> used sb D' b) /\
    partly D inum off data (Z.to_nat m) D' /\ f_off (k_files s1 fi) = off + m /\
    crash_all D W (fun R => exists m', 0 <= m' <= m /\ partly D inum off data (Z.to_nat m') R);
}.

Lemma wp_filewrite pid c f s T D fi ip inum off addr n data :
  fcpu c -> curpid c = pid -> idle f T D -> entry T inum ip -> d_type (dnode D inum) <> 0 -> sb_size sb / BPB + 17 <= size ->
  f_writable (k_files s fi) <> 0 -> f_type (k_files s fi) = FD_INODE -> f_ip (k_files s fi) = ip -> f_off (k_files s fi) = off ->
  user_source c s addr data -> Z.of_nat (length data) = n -> 0 <= off <= d_size (dnode D inum) -> off + n <= MAXFILE * BSIZE ->
  wp (filewrite fi addr n) c (set_fs f s) (filewrite_post c s f D fi ip inum off n data).
Proof.
  intros Hc Hp Hid He Hty Hsz Hwr Hft Hfip Hfo Hsrc Hdl Hoff Hmax. pose proof He as (Hip & Hpos & Hin).
  assert (0 <= inum < sb_ninodes sb) as Hrg by (rewrite <- Hin; by apply (it_dev _ _ _ _ _ (id_tab _ _ _ Hid))).
  assert (MAXFILE * BSIZE = 274432) as HMB by done. assert (filewrite_max = 3072) as Hfm by done.
  unfold filewrite, get_file at 1. wp_step. wp_step. cbn [k_files set_fs]. rewrite (proj2 (Z.eqb_neq _ _) Hwr), Hft, Hfip. cbv iota.
  wp_step.
  eapply (wp_loop (fun i c' s' => exists f' T' D' W s1, 0 <= i <= n /\ s' = set_fs f' s1 /\ same_cpu c c' /\ idle f' T' D' /\ entry T' inum ip /\
      k_mem s1 = k_mem s /\ k_procs s1 = k_procs s /\ f_off (k_files s1 fi) = off + i /\
      dwrites (lbio (fs_log f')) = reverse W ++ dwrites (lbio (fs_log f)) /\ partly D inum off data (Z.to_nat i) D' /\
      (forall b, fsets D W b = D' b) /\ d_size (dnode D' inum) = Z.max (d_size (dnode D inum)) (off + i) /\ d_type (dnode D' inum) = d_type (dnode D inum) /\
      crash_all D W (fun R => exists m', 0 <= m' <= i /\ partly D inum off data (Z.to_nat m') R))
    (fun i => Z.to_nat (n - i))); [|lia|].
  2: { exists f, T, D, [], s. pose proof (id_fs _ _ _ Hid) as Hfs. assert (partly D inum off data (Z.to_nat 0) D) as Hp0.
       { split_and!; [done| |done]. unfold write_at, splice. change (Z.to_nat 0) with 0%nat. rewrite take_0. cbn [length app]. rewrite Nat.add_0_r, take_drop. by destruct (absfile sb D inum). }
       split_and!; try done; try lia.
       destruct (q_txn _ _ _ (id_quiet _ _ _ Hid)) as (V & Ht). destruct Ht as [_ _ _ _ _ _ _ _ _ Hh Hhl].
       eapply crash_all_step; [by apply (crash_step_nil start size geo_size)|..]; exists 0; split; try done; lia. }
  intros i c1 s' (f1 & T1 & D1 & W1 & s1 & Hi & -> & Hcc & Hid1 & He1 & Hm1 & Hp1 & Hfo1 & Hw1 & Hpa1 & Hall1 & Hsz1 & Hty1 & Hcr1).
  destruct (Z.ltb_spec i n) as [Hlt|Hge].
  2: { replace i with n in * by lia. wp_step. wp_step. rewrite Z.eqb_refl. split; [done|].
       exists f1, T1, D1, W1, n, s1. split_and!; try done; try lia. }
  set (n1 := if n - i >? filewrite_max then filewrite_max else n - i).
  assert (0 < n1 <= filewrite_max /\ i + n1 <= n) as [Hn1 Hin1].
  { unfold n1. rewrite Z.gtb_ltb. destruct (Z.ltb_spec filewrite_max (n - i)); lia. }
  pose proof (id_fs _ _ _ Hid) as Hfs. pose proof Hpa1 as (Hfs1 & Habs1 & _).
  eapply (wp_write_chunk pid c1 f1 s1 T1 D1 ip inum fi _ (take (Z.to_nat n1) (drop (Z.to_nat i) data)) (off + i) n1); try done; try lia.
  { by eapply same_fcpu. }
  { by eapply same_pid. }
  { intros c2 Hcc2. eapply (source_piece c s); try done; try lia. by eapply same_cpu_trans. }
  { rewrite length_take, length_drop. lia. }
  intros c2 f2 T2 D2 W2 r Hcc2 Hid2 Hw2 Hcr2 Hcd2. pose proof Hcd2 as [[Hr Hfull] He2 _ Hsz2 Hty2 _].
  pose proof (partly_step D D1 D2 T1 T2 ip inum off i n1 r data Hpa1 Hcd2 (id_fs _ _ _ Hid2) Hfs Hrg Hoff ltac:(lia) ltac:(lia)) as Hpa2.
  set (s2 := if r >? 0 then set_files (updn fi (fun y => set_foff (u32 (f_off y + r)) y) (k_files s1)) s1 else s1).
  assert (k_mem s2 = k_mem s /\ k_procs s2 = k_procs s /\ f_off (k_files s2 fi) = off + (i + r)) as (Hm2 & Hp2 & Hfo2).
  { unfold s2. rewrite Z.gtb_ltb. destruct (Z.ltb_spec 0 r); [|split_and!; try done; lia]. cbn [k_mem k_procs k_files set_files]. split_and!; try done.
    rewrite updn_eq. cbn [set_foff f_off]. rewrite Hfo1, u32_small by lia. lia. }
  assert (dwrites (lbio (fs_log f2)) = reverse (W1 ++ W2) ++ dwrites (lbio (fs_log f))) as Hw12 by (by rewrite Hw2, Hw1, reverse_app, app_assoc).
  assert (crash_all D (W1 ++ W2) (fun R => exists m', 0 <= m' <= i + r /\ partly D inum off data (Z.to_nat m') R)) as Hcr12.
  { eapply crash_all_app; [exact Hall1|eapply crash_all_mono; [|exact Hcr1]; intros R (m' & ? & ?); exists m'; split; [lia|done]|].
    eapply crash_all_step; [exact Hcr2|exists i; split; [lia|done]|exists (i + r); split; [lia|done]]. }
  assert (same_cpu c c2) as Hcc02 by (by eapply same_cpu_trans).
  destruct (Z.eqb_spec r n1) as [->|Hne]; cbn [negb].
  - wp_step. split; [|lia]. exists f2, T2, D2, (W1 ++ W2), s2. split_and!; try done; try lia.
    intros b. rewrite fsets_app. destruct Hcr2 as [Hall2 _]. rewrite <- Hall2. by apply fsets_ext.
  - wp_step. wp_step. rewrite (proj2 (Z.eqb_neq i n)) by lia. split; [done|].
    exists f2, T2, D2, (W1 ++ W2), (i + r), s2. split_and!; try done; try lia.
    right. split_and!; [done|lia|]. apply Hfull. lia.
Qed.
End sys.
