(* ===== verification/FsAbs.v ===== *)
(** The file system as files of bytes: directories are files whose bytes are entries, paths are
    walked from file to file. The tree that the kernel sees on disk is this one; adding a name
    for a file is described on it. *)
From S2P Require Import Prelude Memory Riscv Kalloc Vm Sleeplock Bio BioInv BioSpec Log LogPure LogSpec LogTxn Fs FsTxn FsDisk FsAlloc FsGrow FsInode FsTable State Process FsFile FsPath FsIo FsDir Uart Console Pipe File FsSys.

(** * Directories as bytes *)

Definition data_ents (d : list Z) : list (Z * list Z) := (fun i => entry_of (take 16 (drop (16 * i) d))) <$> seq 0 (length d / 16).

Lemma length_data_ents d : length (data_ents d) = (length d / 16)%nat.
Proof. unfold data_ents. by rewrite length_fmap, length_seq. Qed.
Lemma data_ents_lookup d i : (i < length d / 16)%nat -> data_ents d !! i = Some (entry_of (take 16 (drop (16 * i) d))).
Proof. intros Hi. unfold data_ents. by rewrite list_lookup_fmap, lookup_seq_lt. Qed.

Lemma fslice_sub V l n off m : (off + m <= n)%nat -> take m (drop off (fslice V l 0 n)) = fslice V l (Z.of_nat off) m.
Proof.
  intros Hle. apply list_eq. intros i. destruct (decide (i < m)%nat) as [Hi|Hi].
  - rewrite lookup_take_lt, lookup_drop, !lookup_fslice by lia. do 2 f_equal. lia.
  - rewrite lookup_take_ge by lia. symmetry. apply lookup_ge_None. rewrite length_fslice. lia.
Qed.
Lemma dents_abs V n : 0 <= d_size n -> dents V n = data_ents (fbytes V n).
Proof.
  intros Hn. unfold dents, data_ents. rewrite fbytes_fslice, length_fslice.
  replace (Z.to_nat (d_size n) / 16)%nat with (Z.to_nat (d_size n / 16)) by (rewrite Z2Nat.inj_div by lia; done).
  apply list_fmap_ext. intros i k [-> Hk]%lookup_seq. unfold dent. rewrite fslice_sub by dlia. by rewrite Nat2Z.inj_mul.
Qed.

(** * Trees *)

Definition afind (A : Z -> afile) (j : Z) (name : list Z) : option (nat * (Z * list Z)) := list_find (matches name) (data_ents (af_data (A j))).

Fixpoint walk_abs (A : Z -> afile) (parent : bool) (j : Z) (es : list (list Z)) : option (Z * list Z) :=
  match es with
  | [] => if parent then None else Some (j, [])
  | e :: es' =>
      if negb (af_type (A j) =? T_DIR) then None
      else if parent && bool_decide (es' = []) then Some (j, e)
      else match afind A j e with Some (_, (k, _)) => walk_abs A parent k es' | None => None end
  end.

Section tree.
Context (dv start size : Z) (sb : superblock) `{G : !FsGeo dv start size sb}.

Definition alloc (A : Z -> afile) (j : Z) : Prop := 0 <= j < sb_ninodes sb /\ af_type (A j) <> 0 /\ af_nlink (A j) <> 0.
(** Directories have whole entries of bytes, and the entries in use are of files with a link
    count. *)
Record adir (A : Z -> afile) (x : afile) : Prop := {
  ad_whole : (length (af_data x) mod 16 = 0)%nat;
  ad_bytes : Forall byte (af_data x);
  ad_ents e : e ∈ data_ents (af_data x) -> e.1 <> 0 -> alloc A e.1;
}.
Definition atree (A : Z -> afile) : Prop := forall j, 0 <= j < sb_ninodes sb -> af_type (A j) = T_DIR -> adir A (A j).

Lemma size_nonneg V j : disk_fs sb V -> 0 <= j < sb_ninodes sb -> 0 <= d_size (dnode sb V j).
Proof. intros Hok Hj. by destruct (ok_node _ _ _ Hok j Hj) as (_ & _ & _ & _ & [? _] & _). Qed.

Lemma tree_abs V : tree_ok sb V <-> disk_fs sb V /\ atree (absfile sb V).
Proof.
  assert (forall j, disk_fs sb V -> 0 <= j < sb_ninodes sb -> length (af_data (absfile sb V j)) = Z.to_nat (d_size (dnode sb V j))) as Hlen by (intros j _ _; cbn; by rewrite fbytes_fslice, length_fslice).
  split.
  - intros [Hfs Hb Hd]. split; [done|]. intros j Hj Ht. pose proof (size_nonneg V j Hfs Hj) as H0. destruct (Hd j Hj Ht) as [Hm He]. split.
    + rewrite Hlen by done. change 16%nat with (Z.to_nat 16). rewrite <- Z2Nat.inj_mod by lia. by rewrite Hm.
    + cbn [af_data absfile]. apply Forall_fmap, Forall_forall. intros p Hp%elem_of_seq. apply (Hb j Hj Ht). lia.
    + cbn [af_data absfile]. rewrite <- dents_abs by done. exact He.
  - intros [Hfs Ha]. split; [done| |].
    + intros j Hj Ht pos Hpos. pose proof (ad_bytes _ _ (Ha j Hj Ht)) as Hb. rewrite Forall_forall in Hb. apply Hb. cbn [af_data absfile]. apply list_elem_of_fmap. exists (Z.to_nat pos).
      rewrite Z2Nat.id by lia. split; [done|]. apply elem_of_seq. lia.
    + intros j Hj Ht. pose proof (size_nonneg V j Hfs Hj) as H0. destruct (Ha j Hj Ht) as [Hm _ He]. split.
      * rewrite Hlen in Hm by done. change 16%nat with (Z.to_nat 16) in Hm. rewrite <- Z2Nat.inj_mod in Hm by lia. pose proof (Z.mod_pos_bound (d_size (dnode sb V j)) 16). lia.
      * rewrite dents_abs by done. exact He.
Qed.

Lemma afind_alloc A j name i e : atree A -> 0 <= j < sb_ninodes sb -> af_type (A j) = T_DIR -> afind A j name = Some (i, e) -> alloc A e.1.
Proof. intros Ha Hj Ht (Hl & [H0 _] & _)%list_find_Some. apply (ad_ents _ _ (Ha j Hj Ht)); [by eapply list_elem_of_lookup_2|done]. Qed.

Lemma walk_path_abs V parent j es : tree_ok sb V -> 0 <= j < sb_ninodes sb -> walk_path sb V parent j es = walk_abs (absfile sb V) parent j es.
Proof.
  intros Htr. pose proof (proj1 (tree_abs V) Htr) as [Hfs Ha]. revert j. induction es as [|e es IH]; intros j Hj; [done|]. cbn [walk_path walk_abs].
  change (af_type (absfile sb V j)) with (d_type (dnode sb V j)). destruct (Z.eqb_spec (d_type (dnode sb V j)) T_DIR) as [Ht|]; [|done]. cbn [negb]. case_match; [done|].
  unfold dir_find. rewrite dents_abs by (by apply size_nonneg). change (list_find (matches e) (data_ents (fbytes V (dnode sb V j)))) with (afind (absfile sb V) j e). destruct (afind (absfile sb V) j e) as [[i [k nm]]|] eqn:Hf; [|done].
  apply IH, (afind_alloc _ _ _ _ _ Ha Hj Ht Hf).
Qed.

(** What a path leads to is a file with a link count, if it starts from one. *)
Lemma walk_alloc A parent j es k e : atree A -> alloc A j -> walk_abs A parent j es = Some (k, e) -> alloc A k.
Proof.
  intros Ha. revert j. induction es as [|x es IH]; intros j Hj; cbn [walk_abs]; [destruct parent; [done|by intros [= <- _]]|].
  destruct (Z.eqb_spec (af_type (A j)) T_DIR) as [Ht|]; [|done]. cbn [negb]. case_match; [by intros [= <- _]|].
  destruct (afind A j x) as [[i [k' nm]]|] eqn:Hf; [|done]. apply IH. eapply (afind_alloc A j x i (k', nm)); [done|apply Hj|done|done].
Qed.

(** Names depend on the types and the contents. *)
Definition like (A A' : Z -> afile) : Prop := forall k, 0 <= k < sb_ninodes sb ->
  af_type (A' k) = af_type (A k) /\ af_data (A' k) = af_data (A k) /\ (af_nlink (A k) <> 0 -> af_nlink (A' k) <> 0).
Lemma atree_like A A' : atree A -> like A A' -> atree A'.
Proof.
  intros Ha He j Hj. destruct (He j Hj) as (E1 & E2 & _). rewrite E1. intros Ht. destruct (Ha j Hj Ht) as [H1 H2 H3]. split; rewrite ?E2; [done|done|].
  intros e Hin H0. destruct (H3 e Hin H0) as (Hr & ? & ?). destruct (He _ Hr) as (E & _ & Hn). split; [done|]. rewrite E. auto.
Qed.
Lemma walk_abs_like A A' parent j es : atree A -> like A A' -> 0 <= j < sb_ninodes sb -> walk_abs A' parent j es = walk_abs A parent j es.
Proof.
  intros Ha He. revert j. induction es as [|e es IH]; intros j Hj; [done|]. cbn [walk_abs]. unfold afind. destruct (He j Hj) as (-> & -> & _). fold (afind A j e).
  destruct (Z.eqb_spec (af_type (A j)) T_DIR) as [Ht|]; [|done]. cbn [negb]. case_match; [done|]. destruct (afind A j e) as [[i [k nm]]|] eqn:Hf; [|done].
  apply IH, (afind_alloc _ _ _ _ _ Ha Hj Ht Hf).
Qed.
(** The directory of a last element is one. *)
Lemma walk_pos A parent j es k e : atree A -> alloc A j -> 0 < j -> walk_abs A parent j es = Some (k, e) -> 0 < k.
Proof.
  intros Ha. revert j. induction es as [|x es IH]; intros j Hj Hp; cbn [walk_abs]; [destruct parent; [done|by intros [= <- _]]|].
  destruct (Z.eqb_spec (af_type (A j)) T_DIR) as [Ht|]; [|done]. cbn [negb]. case_match; [by intros [= <- _]|].
  destruct (afind A j x) as [[i [k' nm]]|] eqn:Hf; [|done]. pose proof (afind_alloc A j x i (k', nm) Ha (proj1 Hj) Ht Hf) as Hal. apply IH; [done|].
  apply list_find_Some in Hf as (_ & [H0 _] & _). destruct Hal as [Hr _]. cbn in *. lia.
Qed.
Lemma walk_parent_dir A j es k e : walk_abs A true j es = Some (k, e) -> af_type (A k) = T_DIR.
Proof.
  revert j. induction es as [|x es IH]; intros j; [done|]. cbn [walk_abs]. destruct (Z.eqb_spec (af_type (A j)) T_DIR) as [Ht|]; [|done]. cbn [negb andb].
  case_bool_decide; [by intros [= <- _]|]. destruct (afind A j x) as [[i [k' nm]]|]; [|done]. apply IH.
Qed.

(** Only the files matter. *)
Lemma like_ext A A' : (forall j, 0 <= j < sb_ninodes sb -> A' j = A j) -> like A A'.
Proof. intros He k Hk. by rewrite He. Qed.
End tree.

(** * Adding a name *)

(** A name as it is stored, padded with NULs. *)
Definition pad_name (e : list Z) : list Z := e ++ replicate (DIRSIZ - length e) 0.
Definition clean (e : list Z) : Prop := Forall (fun c => c <> 0 /\ byte c) e /\ (length e <= DIRSIZ)%nat.

Lemma cstr_clean_of n l : Forall byte l -> Forall (fun c => c <> 0 /\ byte c) (cstr n l).
Proof.
  revert l. induction n as [|n IH]; intros [|c l] Hl; cbn [cstr]; [constructor..|]. apply Forall_cons in Hl as [Hc Hl]. destruct (Z.eqb_spec c 0); constructor; auto.
Qed.
Lemma strncpy_cstr l n : strncpy_l l n = cstr n l ++ replicate (n - length (cstr n l)) 0.
Proof.
  revert l. induction n as [|n IH]; intros [|c l]; try done; cbn [strncpy_l cstr head default from_option]; unfold id.
  destruct (Z.eqb_spec c 0) as [->|Hc]; [done|]. cbn [tail app length]. by rewrite IH.
Qed.
Lemma length_pad e : (length e <= DIRSIZ)%nat -> length (pad_name e) = DIRSIZ.
Proof. intros Hl. unfold pad_name. rewrite length_app, length_replicate. lia. Qed.
Lemma entry_of_dirent j e : 0 <= j < 65536 -> clean e -> entry_of (mkdirent j (pad_name e)) = (j, e).
Proof.
  intros Hj [Hc Hl]. assert (de_name (mkdirent j (pad_name e)) = pad_name e) as Hn by (apply (take_ge (pad_name e)); rewrite length_pad by done; done).
  unfold entry_of. rewrite Hn. unfold mkdirent, de_inum, get16, get8. rewrite u16_small by lia. cbn [lookup list_lookup default from_option Nat.add]. unfold id. f_equal; [dlia|]. unfold pad_name.
  assert (Forall (fun c => c <> 0) e) as Hz by (eapply Forall_impl; [exact Hc|by intros ? [? _]]). destruct (decide (length e = DIRSIZ)) as [E|E].
  - rewrite E, Nat.sub_diag. cbn [replicate]. rewrite app_nil_r. rewrite cstr_clean by (done || lia). by rewrite take_ge by lia.
  - replace (DIRSIZ - length e)%nat with (S (DIRSIZ - length e - 1)) by lia. cbn [replicate]. apply cstr_nul; [done|lia].
Qed.

Definition free_slot (l : list (Z * list Z)) : nat := default (length l) (fst <$> list_find (fun e => e.1 = 0) l).
Definition add_name (j : Z) (e : list Z) (x : afile) : afile :=
  write_at (16 * free_slot (data_ents (af_data x))) (mkdirent j (pad_name e)) x.
Definition add_links (n : Z) (x : afile) : afile := mkafile (af_type x) (af_major x) (af_minor x) (af_nlink x + n) (af_data x).

Lemma add_links_back n x : add_links (- n) (add_links n x) = x.
Proof. destruct x as [ty mj mn nl d]. unfold add_links. cbn [af_type af_major af_minor af_nlink af_data]. f_equal. lia. Qed.

Lemma free_slot_le l : (free_slot l <= length l)%nat.
Proof. unfold free_slot. destruct (list_find _ l) as [[i e]|] eqn:E; cbn; [|lia]. apply list_find_Some in E as (?%lookup_lt_Some & _). lia. Qed.
Lemma free_slot_free l e : l !! free_slot l = Some e -> e.1 = 0.
Proof.
  unfold free_slot. destruct (list_find _ l) as [[i x]|] eqn:E; cbn; [apply list_find_Some in E as (Hl & Hx & _); congruence|].
  intros H%lookup_lt_Some. lia.
Qed.

Lemma data_ents_splice d i b : (length d mod 16 = 0)%nat -> (i <= length d / 16)%nat -> length b = 16%nat ->
  data_ents (splice d (16 * i) b) = take i (data_ents d) ++ entry_of b :: drop (S i) (data_ents d).
Proof.
  intros Hd Hi Hb. assert (16 * i <= length d)%nat as Hid by (pose proof (Nat.div_mod_eq (length d) 16); lia). assert (length (splice d (16 * i) b) = Nat.max (length d) (16 * i + 16)) as Hls by (unfold splice; rewrite !length_app, length_take, length_drop; dlia).
  apply list_eq. intros k. destruct (decide (k < length (splice d (16 * i) b) / 16)%nat) as [Hk|Hk].
  - rewrite data_ents_lookup by done. rewrite Hls in Hk. assert (i < k -> k < length d / 16)%nat as Hki.
    { intros Hlt. destruct (Nat.max_spec (length d) (16 * i + 16)) as [[? E]|[? E]]; rewrite E in Hk; [|done]. replace (16 * i + 16)%nat with ((i + 1) * 16)%nat in Hk by lia. rewrite Nat.div_mul in Hk; lia. }
    unfold splice. destruct (decide (k < i)%nat) as [H1|H1]; [|destruct (decide (k = i)) as [->|H2]].
    + rewrite lookup_app_l by (rewrite length_take, length_data_ents; lia). rewrite lookup_take_lt, data_ents_lookup by dlia. do 2 f_equal.
      rewrite drop_app_le by (rewrite length_take; dlia). rewrite take_app_le by (rewrite length_drop, length_take; dlia). rewrite !take_drop_commute, take_take. do 2 f_equal. lia.
    + rewrite lookup_app_r by (rewrite length_take, length_data_ents; lia). rewrite length_take, length_data_ents, Nat.min_l, Nat.sub_diag by dlia. cbn [lookup list_lookup]. do 2 f_equal.
      rewrite drop_app_length' by (rewrite length_take; dlia). by rewrite take_app_length'.
    + rewrite lookup_app_r by (rewrite length_take, length_data_ents; lia). rewrite length_take, length_data_ents, Nat.min_l by dlia. rewrite lookup_cons_ne_0 by lia.
      rewrite lookup_drop. replace (S i + pred (k - i))%nat with k by lia. rewrite data_ents_lookup by (apply Hki; lia). do 2 f_equal.
      rewrite drop_app_ge by (rewrite length_take; dlia). rewrite length_take, Nat.min_l by dlia. rewrite drop_app_ge by lia. rewrite drop_drop. f_equal. f_equal. lia.
  - rewrite !(proj2 (lookup_ge_None _ _)); [done| |rewrite length_data_ents; lia]. rewrite length_app, length_take. cbn [length]. rewrite length_drop, !length_data_ents. rewrite Hls in Hk.
    destruct (Nat.max_spec (length d) (16 * i + 16)) as [[? E]|[? E]]; rewrite E in Hk; pose proof (Nat.div_mod_eq (length d) 16);
      [replace (16 * i + 16)%nat with ((i + 1) * 16)%nat in Hk by lia; rewrite Nat.div_mul in Hk by lia|]; set (q := (length d / 16)%nat) in *; lia.
Qed.
Lemma add_name_ents j e x : (length (af_data x) mod 16 = 0)%nat -> 0 <= j < 65536 -> clean e ->
  let l := data_ents (af_data x) in data_ents (af_data (add_name j e x)) = take (free_slot l) l ++ (j, e) :: drop (S (free_slot l)) l.
Proof.
  intros Hd Hj He l. unfold add_name, write_at. cbn [af_data]. fold l. rewrite data_ents_splice; [by rewrite entry_of_dirent|done| |].
  - pose proof (free_slot_le l) as Hle. unfold l in *. by rewrite length_data_ents in Hle.
  - unfold mkdirent. cbn [length]. rewrite length_pad by apply He. done.
Qed.

(** The files after [link]: one more link to [j], and a name for it in the directory [jd]. *)
Definition link_files (A : Z -> afile) (j jd : Z) (e : list Z) (k : Z) : afile :=
  if k =? j then add_links 1 (A j) else if k =? jd then add_name j e (A jd) else A k.

(** The first entry that matches, without its place. *)
Lemma find_filter {A} (P : A -> Prop) `{!forall x, Decision (P x)} l : snd <$> list_find P l = head (filter P l).
Proof.
  induction l as [|x l IH]; [done|]. cbn [list_find]. destruct (decide (P x)); [by rewrite filter_cons_True|]. rewrite filter_cons_False by done. rewrite <- IH. by destruct (list_find P l) as [[]|].
Qed.
Lemma filter_around {A} (P : A -> Prop) `{!forall x, Decision (P x)} l i : (forall y, l !! i = Some y -> ~ P y) -> filter P l = filter P (take i l) ++ filter P (drop (S i) l).
Proof.
  intros Hi. rewrite <- (take_drop i l) at 1. rewrite filter_app. f_equal. destruct (l !! i) as [y|] eqn:E.
  - rewrite (drop_S l y i E), filter_cons_False by auto. done.
  - apply lookup_ge_None in E. by rewrite !drop_ge by lia.
Qed.

(** Looking up a name in a directory with one more. *)
Lemma find_link l j e x : j <> 0 -> (x = e -> list_find (matches e) l = None) ->
  snd <$> list_find (matches x) (take (free_slot l) l ++ (j, e) :: drop (S (free_slot l)) l) = if decide (x = e) then Some (j, e) else snd <$> list_find (matches x) l.
Proof.
  intros Hj Hn. rewrite !find_filter, filter_app. assert (filter (matches x) l = filter (matches x) (take (free_slot l) l) ++ filter (matches x) (drop (S (free_slot l)) l)) as Hf.
  { apply filter_around. intros y Hy [H0 _]. by apply free_slot_free in Hy. }
  case_decide as E.
  - subst x. assert (filter (matches e) l = []) as H0. { pose proof (find_filter (matches e) l) as Hh. rewrite (Hn eq_refl) in Hh. by destruct (filter (matches e) l). }
    rewrite H0 in Hf. symmetry in Hf. apply app_eq_nil in Hf as [-> _]. by rewrite filter_cons_True.
  - rewrite filter_cons_False by (intros [_ ?]; cbn in *; congruence). by rewrite Hf.
Qed.

Section link.
Context (dv start size : Z) (sb : superblock) `{G : !FsGeo dv start size sb}.
Abbreviation atree := (atree sb).
Abbreviation alloc := (alloc sb).
Context (A : Z -> afile) (j jd : Z) (e : list Z).
Hypothesis Ha : atree A.
Hypothesis Hj : alloc A j /\ 0 < j < 65536 /\ af_type (A j) <> T_DIR /\ af_nlink (A j) + 1 <> 0.
Hypothesis Hjd : alloc A jd /\ af_type (A jd) = T_DIR.
Hypothesis He : clean e.
Hypothesis Hnew : afind A jd e = None.
Abbreviation A' := (link_files A j jd e).

Lemma link_ne : jd <> j.
Proof. intros E. destruct Hj as (_ & _ & Ht & _), Hjd as [_ Ht']. congruence. Qed.
Lemma link_type k : af_type (A' k) = af_type (A k).
Proof. unfold link_files. destruct (Z.eqb_spec k j) as [->|]; [done|]. by destruct (Z.eqb_spec k jd) as [->|]. Qed.
Lemma link_alloc k : alloc A k -> alloc A' k.
Proof.
  intros (Hr & Ht & Hn). split; [done|]. split; [by rewrite link_type|]. unfold link_files. destruct (Z.eqb_spec k j) as [->|]; [apply Hj|]. by destruct (Z.eqb_spec k jd) as [->|].
Qed.

Lemma pad_bytes : Forall byte (mkdirent j (pad_name e)).
Proof.
  destruct He as [Hc Hl]. unfold mkdirent. rewrite u16_small by lia. unfold byte in *. repeat (constructor; [dlia|]). apply Forall_app. split; [eapply Forall_impl; [exact Hc|by intros ? [_ ?]]|]. by apply Forall_replicate.
Qed.
Lemma splice_Forall {B} (P : B -> Prop) (d l : list B) off : Forall P d -> Forall P l -> Forall P (take off d ++ l ++ drop (off + length l) d).
Proof. intros Hd Hl. rewrite !Forall_app. split_and!; [by apply Forall_take|done|by apply Forall_drop]. Qed.

Lemma atree_link : atree A'.
Proof.
  intros k Hk. rewrite link_type. intros Ht. destruct (Ha k Hk Ht) as [H1 H2 H3].
  assert (k <> j) as Hkj by (destruct Hj as (_ & _ & Hnt & _); congruence). unfold link_files at 2. rewrite (proj2 (Z.eqb_neq k j)) by done. destruct (Z.eqb_spec k jd) as [->|Hne].
  2: { split; [done|done|]. intros x Hx H0. by apply link_alloc, H3. }
  pose proof (add_name_ents j e (A jd) H1 ltac:(lia) He) as Hents. cbv zeta in Hents. split.
  - pose proof (f_equal length Hents) as Hlen. unfold add_name, write_at. cbn [af_data]. unfold splice. set (l := data_ents (af_data (A jd))) in *.
    pose proof (free_slot_le l) as Hle. unfold l in Hle. rewrite length_data_ents in Hle. fold l in Hle.
    rewrite !length_app, length_take, length_drop. assert (length (mkdirent j (pad_name e)) = 16%nat) as -> by (unfold mkdirent; cbn [length]; rewrite length_pad by apply He; done).
    pose proof (Nat.div_mod_eq (length (af_data (A jd))) 16). set (q := (length (af_data (A jd)) / 16)%nat) in *. rewrite Nat.min_l by lia.
    destruct (decide (free_slot l = q)) as [E|E].
    + replace (16 * free_slot l + (16 + (length (af_data (A jd)) - (16 * free_slot l + 16))))%nat with ((q + 1) * 16)%nat by lia. apply Nat.Div0.mod_mul.
    + replace (16 * free_slot l + (16 + (length (af_data (A jd)) - (16 * free_slot l + 16))))%nat with (length (af_data (A jd))) by lia. done.
  - apply splice_Forall; [done|]. apply pad_bytes.
  - rewrite Hents. intros x Hx H0. apply link_alloc. apply elem_of_app in Hx as [Hx|Hx]; [apply elem_of_take in Hx as (n & Hx & _); apply H3; [by eapply list_elem_of_lookup_2|done]|].
    apply elem_of_cons in Hx as [->|Hx]; [apply Hj|]. apply list_elem_of_lookup in Hx as [n Hx]. rewrite lookup_drop in Hx. apply H3; [by eapply list_elem_of_lookup_2|done].
Qed.

Lemma afind_link k x : 0 <= k < sb_ninodes sb -> af_type (A k) = T_DIR -> snd <$> afind A' k x = if decide (k = jd /\ x = e) then Some (j, e) else snd <$> afind A k x.
Proof.
  intros Hk Ht. assert (k <> j) as Hkj by (destruct Hj as (_ & _ & Hnt & _); congruence). unfold afind at 1, link_files. rewrite (proj2 (Z.eqb_neq k j)) by done. destruct (Z.eqb_spec k jd) as [->|Hne].
  - rewrite add_name_ents by (apply (Ha jd Hk Ht) || lia || done). rewrite find_link by (lia || by intros ->). repeat case_decide; naive_solver.
  - rewrite decide_False by naive_solver. done.
Qed.

(** The new path leads to the file. *)
Lemma walk_link k es : 0 <= k < sb_ninodes sb -> walk_abs A true k es = Some (jd, e) -> walk_abs A' false k es = Some (j, []).
Proof.
  revert k. induction es as [|x es IH]; intros k Hk; [done|]. cbn [walk_abs]. rewrite link_type. destruct (Z.eqb_spec (af_type (A k)) T_DIR) as [Ht|]; [|done]. cbn [negb andb].
  pose proof (afind_link k x Hk Ht) as Hf. case_bool_decide as Hes.
  - intros [= -> ->]. subst es. rewrite decide_True in Hf by done. destruct (afind A' jd e) as [[i y]|]; [|done]. cbn in Hf. injection Hf as ->. done.
  - destruct (afind A k x) as [[i [k' nm]]|] eqn:E; [|done]. assert (~ (k = jd /\ x = e)) as Hne by (intros [-> ->]; congruence). rewrite decide_False in Hf by done.
    intros Hw. destruct (afind A' k x) as [[i' y]|]; [|done]. cbn in Hf. injection Hf as ->. apply IH; [|done]. eapply (afind_alloc sb A k x i (k', nm)); done.
Qed.
End link.
