(* ===== verification/FsNames.v ===== *)
(** Names and links: in a file system in order every directory has its two dots, a directory has
    one name, and the link counts are the numbers of names. Adding and removing a name keep this. *)
From S2P Require Import Prelude Memory Riscv Kalloc Vm Sleeplock Bio BioInv BioSpec Log LogPure LogSpec LogTxn Fs FsTxn FsDisk FsAlloc FsGrow FsInode FsTable State Process FsFile FsPath FsIo FsDir Uart Console Pipe File FsSys FsAbs.

(** * Counting *)

Section count.
Context {A : Type} (P : A -> Prop) `{!forall x, Decision (P x)}.

Definition one_if (b : Prop) `{!Decision b} : Z := if decide b then 1 else 0.
Definition count (l : list A) : Z := Z.of_nat (length (filter P l)).

Lemma count_nonneg l : 0 <= count l.
Proof. unfold count. lia. Qed.
Lemma count_cons x l : count (x :: l) = one_if (P x) + count l.
Proof. unfold count, one_if. rewrite filter_cons. case_decide; cbn [length]; lia. Qed.
Lemma count_app l k : count (l ++ k) = count l + count k.
Proof. unfold count. rewrite filter_app, length_app. lia. Qed.
Lemma count_insert l i x y : l !! i = Some x -> count (<[i := y]> l) = count l - one_if (P x) + one_if (P y).
Proof.
  revert i. induction l as [|z l IH]; intros [|i] Hi; [done..| |].
  - injection Hi as ->. cbn. rewrite !count_cons. lia.
  - cbn in Hi |- *. rewrite !count_cons, IH by done. lia.
Qed.
Lemma count_none l : (forall i x, l !! i = Some x -> ~ P x) -> count l = 0.
Proof.
  induction l as [|x l IH]; intros Hno; [done|]. rewrite count_cons, IH by (intros i y Hi; by apply (Hno (S i))). unfold one_if. rewrite decide_False; [done|]. by apply (Hno 0%nat).
Qed.
Lemma count_pos l i x : l !! i = Some x -> P x -> 1 <= count l.
Proof.
  intros Hi Hx. rewrite <- (take_drop_middle l i x Hi), count_app, count_cons. unfold one_if. rewrite decide_True by done.
  pose proof (count_nonneg (take i l)). pose proof (count_nonneg (drop (S i) l)). lia.
Qed.
Lemma count_two l i k x y : l !! i = Some x -> l !! k = Some y -> i <> k -> P x -> P y -> 2 <= count l.
Proof.
  revert i k. induction l as [|z l IH]; intros [|i] [|k] Hi Hk Hne Hx Hy; try done; cbn in Hi, Hk; rewrite count_cons; unfold one_if.
  - injection Hi as ->. rewrite decide_True by done. pose proof (count_pos l k y Hk Hy). lia.
  - injection Hk as ->. rewrite decide_True by done. pose proof (count_pos l i x Hi Hx). lia.
  - specialize (IH i k Hi Hk ltac:(congruence) Hx Hy). case_decide; lia.
Qed.
End count.
Lemma count_ext {A} (P P' : A -> Prop) `{!forall x, Decision (P x), !forall x, Decision (P' x)} l : (forall i x, l !! i = Some x -> P x <-> P' x) -> count P l = count P' l.
Proof.
  induction l as [|x l IH]; intros He; [done|]. rewrite !count_cons. f_equal.
  - unfold one_if. pose proof (He 0%nat x eq_refl). repeat case_decide; naive_solver.
  - apply IH. intros i y Hi. by apply (He (S i)).
Qed.

(** * Removing a name *)

Definition cut_name (i : nat) (x : afile) : afile := write_at (16 * i) (replicate 16 0) x.

Lemma cut_name_ents i x : (length (af_data x) mod 16 = 0)%nat -> (i < length (af_data x) / 16)%nat -> data_ents (af_data (cut_name i x)) = <[i := (0, [])]> (data_ents (af_data x)).
Proof.
  intros Hd Hi. unfold cut_name, write_at. cbn [af_data]. rewrite data_ents_splice by (done || lia). rewrite insert_take_drop by (by rewrite length_data_ents). done.
Qed.
Lemma cut_name_length i x : (length (af_data x) mod 16 = 0)%nat -> (i < length (af_data x) / 16)%nat -> length (af_data (cut_name i x)) = length (af_data x).
Proof.
  intros Hd Hi. unfold cut_name, write_at, splice. cbn [af_data]. rewrite !length_app, length_take, length_drop, length_replicate.
  pose proof (Nat.div_mod_eq (length (af_data x)) 16). set (q := (length (af_data x) / 16)%nat) in *. lia.
Qed.

(** * The invariant *)

Definition ents (A : Z -> afile) (k : Z) : list (Z * list Z) := data_ents (af_data (A k)).
(** Entries of a directory that name [j]. *)
Definition names_in (x : afile) (j : Z) : Z := if af_type x =? T_DIR then count (fun e : Z * list Z => e.1 = j) (data_ents (af_data x)) else 0.

Section names.
Context (sb : superblock).

Definition isdir (A : Z -> afile) (k : Z) : Prop := 0 < k < sb_ninodes sb /\ af_type (A k) = T_DIR.
(** How many names [j] has. *)
Definition names (A : Z -> afile) (j : Z) : Z := foldr Z.add 0 ((fun k => names_in (A (Z.of_nat k)) j) <$> seq 0 (Z.to_nat (sb_ninodes sb))).
(** The subdirectories of a directory. *)
Definition subdirs (A : Z -> afile) (d : Z) : Z := count (fun e : Z * list Z => e.1 <> 0 /\ af_type (A e.1) = T_DIR) (drop 2 (ents A d)).

Record names_ok (A : Z -> afile) : Prop := {
  nm_zero : af_type (A 0) = 0;
  nm_dots k : isdir A k -> exists p rest, ents A k = (k, [46]) :: (p, [46; 46]) :: rest /\ isdir A p;
  nm_self k i e : isdir A k -> ents A k !! i = Some e -> (2 <= i)%nat -> e.1 <> k;
  nm_parent k p x : isdir A k -> ents A k !! 1%nat = Some (p, x) -> p <> k -> exists i y, (2 <= i)%nat /\ ents A p !! i = Some (k, y);
  nm_uniq k d1 i1 x1 d2 i2 x2 : isdir A k -> isdir A d1 -> isdir A d2 -> (2 <= i1)%nat -> (2 <= i2)%nat ->
    ents A d1 !! i1 = Some (k, x1) -> ents A d2 !! i2 = Some (k, x2) -> d1 = d2 /\ i1 = i2;
  nm_links j : 0 < j < sb_ninodes sb -> af_type (A j) <> 0 -> af_type (A j) <> T_DIR -> af_nlink (A j) = names A j;
  nm_dlinks d : isdir A d -> af_nlink (A d) = 1 + subdirs A d;
}.

Lemma names_ext A A' j : (forall k, 0 <= k < sb_ninodes sb -> names_in (A' k) j = names_in (A k) j) -> names A' j = names A j.
Proof. intros He. unfold names. f_equal. apply list_fmap_ext. intros i k [-> Hk]%lookup_seq. apply He. lia. Qed.
Lemma names_change A A' j d : 0 <= d < sb_ninodes sb -> (forall k, k <> d -> names_in (A' k) j = names_in (A k) j) -> names A' j = names A j - names_in (A d) j + names_in (A' d) j.
Proof.
  intros Hd He. unfold names. rewrite (sum_change (fun k => names_in (A (Z.of_nat k)) j) (fun k => names_in (A' (Z.of_nat k)) j) (Z.to_nat d)).
  - by rewrite Z2Nat.id by lia.
  - apply NoDup_seq.
  - apply elem_of_seq. lia.
  - intros k Hk. apply He. lia.
Qed.

Lemma names_in_nonneg x j : 0 <= names_in x j.
Proof. unfold names_in. case_match; [apply count_nonneg|lia]. Qed.
Lemma names_two A j d d' : 0 <= d < sb_ninodes sb -> 0 <= d' < sb_ninodes sb -> d <> d' -> names_in (A d) j + names_in (A d') j <= names A j.
Proof.
  intros Hd Hd' Hne. set (B := fset A d (mkafile 0 0 0 0 [])). set (B' := fset B d' (mkafile 0 0 0 0 [])).
  pose proof (names_change A B j d Hd) as H1. pose proof (names_change B B' j d' Hd') as H2. unfold B', B in H1, H2.
  rewrite H1 in H2 by (intros k Hk; by rewrite fset_ne). rewrite !fset_eq, fset_ne in H2 by done. specialize (H2 ltac:(intros k Hk; by rewrite fset_ne)).
  assert (0 <= names B' j) as H0. { unfold names. generalize (seq 0 (Z.to_nat (sb_ninodes sb))). intros l. induction l as [|k l IH]; [done|]. rewrite fmap_cons. cbn [foldr]. pose proof (names_in_nonneg (B' (Z.of_nat k)) j). lia. }
  unfold B', B in H0. rewrite H2 in H0. change (names_in (mkafile 0 0 0 0 []) j) with 0 in H0. lia.
Qed.
Lemma names_one A j d : 0 <= d < sb_ninodes sb -> names_in (A d) j <= names A j.
Proof.
  intros Hd. destruct (decide (1 < sb_ninodes sb)) as [H1|H1]; [destruct (decide (d = 0)) as [->|H0]|].
  - pose proof (names_two A j 0 1 Hd ltac:(lia) ltac:(done)). pose proof (names_in_nonneg (A 1) j). lia.
  - pose proof (names_two A j 0 d ltac:(lia) Hd ltac:(done)). pose proof (names_in_nonneg (A 0) j). lia.
  - assert (sb_ninodes sb = 1) as E by lia. assert (d = 0) as -> by lia. unfold names. rewrite E. change (names_in (A 0) j <= names_in (A 0) j + 0). lia.
Qed.

(** ** Removing *)

(** The files after [unlink]: entry [i] of directory [jd], which named [j], is free; [j] has one link
    less and is freed if [last]. *)
Definition unlink_files (A : Z -> afile) (j jd : Z) (i : nat) (last : bool) (k : Z) : afile :=
  if k =? j then (if last then mkafile 0 (af_major (A j)) (af_minor (A j)) 0 [] else add_links (-1) (A j))
  else if k =? jd then (if af_type (A j) =? T_DIR then add_links (-1) (cut_name i (A jd)) else cut_name i (A jd)) else A k.

Section unlink.
Context (A : Z -> afile) (j jd : Z) (i : nat) (e : list Z) (last : bool).
Hypothesis Ha : atree sb A.
Hypothesis Hn : names_ok A.
Hypothesis Hjd : isdir A jd.
Hypothesis Hi : (2 <= i)%nat.
Hypothesis He : ents A jd !! i = Some (j, e).
Hypothesis Hj0 : j <> 0.
Hypothesis Hlast : last = true -> af_nlink (A j) = 1.
Hypothesis Hdir : af_type (A j) = T_DIR -> last = true /\ forall k x, ents A j !! k = Some x -> (2 <= k)%nat -> x.1 = 0.
Abbreviation A' := (unlink_files A j jd i last).

Lemma unlink_j : alloc sb A j /\ 0 < j /\ j <> jd.
Proof.
  destruct Hjd as [Hr Ht]. pose proof (ad_ents _ _ _ (Ha jd ltac:(lia) Ht) (j, e) ltac:(by eapply list_elem_of_lookup_2) Hj0) as Hal. split_and!; [done|destruct Hal as [? _]; cbn in *; lia|].
  by apply (nm_self _ Hn jd i (j, e)).
Qed.
Lemma unlink_other k : k <> j -> k <> jd -> A' k = A k.
Proof. intros H1 H2. unfold unlink_files. by rewrite (proj2 (Z.eqb_neq _ _) H1), (proj2 (Z.eqb_neq _ _) H2). Qed.
Lemma unlink_ents k : k <> j -> ents A' k = if decide (k = jd) then <[i := (0, [])]> (ents A k) else ents A k.
Proof.
  intros H1. unfold ents, unlink_files. rewrite (proj2 (Z.eqb_neq _ _) H1). destruct (Z.eqb_spec k jd) as [->|H2]; [rewrite decide_True by done|by rewrite decide_False by done].
  destruct Hjd as [Hr Ht]. rewrite <- cut_name_ents; [by case_match|apply (Ha jd ltac:(lia) Ht)|]. rewrite <- length_data_ents. by eapply lookup_lt_Some.
Qed.
Lemma unlink_type k : k <> j -> af_type (A' k) = af_type (A k).
Proof. intros H1. unfold unlink_files. rewrite (proj2 (Z.eqb_neq _ _) H1). destruct (Z.eqb_spec k jd) as [->|]; [|done]. by case_match. Qed.
(** A directory afterwards was one before, and is not [j]. *)
Lemma unlink_isdir k : isdir A' k -> isdir A k /\ k <> j.
Proof.
  intros [Hr Ht]. destruct (decide (k = j)) as [->|H1]; [|rewrite unlink_type in Ht by done; done]. exfalso. revert Ht. unfold unlink_files. rewrite Z.eqb_refl. destruct last eqn:El; [done|]. cbn. intros Ht. by destruct (Hdir Ht).
Qed.
Lemma unlink_isdir' k : isdir A k -> k <> j -> isdir A' k.
Proof. intros [Hr Ht] H1. split; [done|]. by rewrite unlink_type. Qed.

(** No directory that stays has the removed directory as its parent or a name for it. *)
Lemma unlink_entry k n x : isdir A' k -> ents A' k !! n = Some (j, x) -> af_type (A j) <> T_DIR /\ (2 <= names A j).
Proof.
  intros Hk Hx. destruct (unlink_isdir k Hk) as [Hkd Hkj]. destruct unlink_j as (Hal & Hjp & Hne). rewrite unlink_ents in Hx by done. 
  assert (ents A k !! n = Some (j, x) /\ (k = jd -> n <> i)) as [Hx' Hni].
  { case_decide as E; [|done]. subst k. destruct (decide (n = i)) as [->|H1]; [|by rewrite list_lookup_insert_ne in Hx by done]. rewrite list_lookup_insert_eq in Hx by (by eapply lookup_lt_Some). congruence. }
  destruct (nm_dots _ Hn k Hkd) as (p & rest & Hents & Hp).
  assert (af_type (A j) <> T_DIR) as Hnd.
  { intros Htj. assert (isdir A j) as Hjdir by (split; [destruct Hal; lia|done]). destruct (Hdir Htj) as [_ Hempty]. destruct n as [|[|n]].
    - rewrite Hents in Hx'. cbn in Hx'. congruence.
    - rewrite Hents in Hx'. cbn in Hx'. injection Hx' as -> _. destruct (nm_parent _ Hn k j [46; 46] Hkd ltac:(by rewrite Hents) ltac:(done)) as (n & y & Hn2 & Hy). specialize (Hempty n _ Hy Hn2). cbn in Hempty. destruct Hkd. lia.
    - destruct (nm_uniq _ Hn j k (S (S n)) x jd i e Hjdir Hkd Hjd ltac:(lia) Hi Hx' He) as [E1 E2]. by apply Hni. }
  split; [done|]. assert (names_in (A jd) j = count (fun e => e.1 = j) (ents A jd) /\ names_in (A k) j = count (fun e => e.1 = j) (ents A k)) as [E1 E2] by (unfold names_in; destruct Hjd as [_ ->], Hkd as [_ ->]; done).
  destruct (decide (k = jd)) as [->|Hkd'].
  - pose proof (count_two (fun e : Z * list Z => e.1 = j) _ n i _ _ Hx' He (Hni eq_refl) eq_refl eq_refl) as H2.
    pose proof (names_one A j jd ltac:(destruct Hjd; lia)). lia.
  - pose proof (count_pos (fun e : Z * list Z => e.1 = j) _ n _ Hx' eq_refl). pose proof (count_pos (fun e : Z * list Z => e.1 = j) _ i _ He eq_refl).
    pose proof (names_two A j k jd ltac:(destruct Hkd; lia) ltac:(destruct Hjd; lia) Hkd'). lia.
Qed.

Lemma unlink_nlink_dir : af_nlink (A' jd) = af_nlink (A jd) - if af_type (A j) =? T_DIR then 1 else 0.
Proof. destruct unlink_j as (_ & _ & Hne). unfold unlink_files. rewrite (proj2 (Z.eqb_neq jd j)), Z.eqb_refl by done. case_match; cbn; lia. Qed.

Lemma unlink_alloc k x : isdir A' k -> x ∈ ents A' k -> x.1 <> 0 -> alloc sb A' x.1.
Proof.
  intros Hk [n Hx]%list_elem_of_lookup H0. destruct x as [m y]. cbn [fst] in *. destruct (unlink_isdir k Hk) as [[Hkr Hkt] Hkj]. destruct unlink_j as (Hal & Hjp & Hne).
  assert (alloc sb A m) as Ham.
  { apply (ad_ents _ _ _ (Ha k ltac:(lia) Hkt) (m, y)); [|done]. rewrite unlink_ents in Hx by done. case_decide; [|by eapply list_elem_of_lookup_2]. apply list_lookup_insert_Some in Hx as [(_ & ? & _)|[_ Hx]]; [congruence|by eapply list_elem_of_lookup_2]. }
  destruct (decide (m = j)) as [->|Hmj].
  - destruct (unlink_entry k n y Hk Hx) as [Hnd H2]. destruct Ham as (Hr & Ht & Hl). rewrite <- (nm_links _ Hn j ltac:(lia) Ht Hnd) in H2.
    split; [done|]. unfold unlink_files. rewrite Z.eqb_refl. destruct last; [pose proof (Hlast eq_refl); lia|]. cbn. split; [done|lia].
  - destruct Ham as (Hr & Ht & Hl). split; [done|]. rewrite unlink_type by done. split; [done|]. destruct (decide (m = jd)) as [->|Hmd]; [|by rewrite unlink_other].
    rewrite unlink_nlink_dir. case_match eqn:E; [|lia]. apply Z.eqb_eq in E. rewrite (nm_dlinks _ Hn jd Hjd). unfold subdirs.
    pose proof (count_pos (fun e : Z * list Z => e.1 <> 0 /\ af_type (A e.1) = T_DIR) (drop 2 (ents A jd)) (i - 2) (j, e)) as Hc. rewrite lookup_drop in Hc. replace (2 + (i - 2))%nat with i in Hc by lia. specialize (Hc He (conj Hj0 E)). lia.
Qed.

Lemma atree_unlink : atree sb A'.
Proof.
  intros k Hk Ht. assert (isdir A' k) as Hd.
  { split; [|done]. destruct (decide (k = 0)) as [->|]; [|lia]. destruct unlink_j as (_ & ? & _). rewrite unlink_type, (nm_zero _ Hn) in Ht by lia. done. }
  destruct (unlink_isdir k Hd) as [[Hkr Hkt] Hkj]. destruct (Ha k Hk Hkt) as [H1 H2 H3].
  assert (af_data (A' k) = if decide (k = jd) then af_data (cut_name i (A jd)) else af_data (A k)) as Hdat.
  { unfold unlink_files. rewrite (proj2 (Z.eqb_neq _ _) Hkj). destruct (Z.eqb_spec k jd) as [->|]; [rewrite decide_True by done; by case_match|by rewrite decide_False]. }
  assert (k = jd -> i < length (af_data (A jd)) / 16)%nat as Hlt by (intros _; rewrite <- length_data_ents; by eapply lookup_lt_Some).
  split.
  - rewrite Hdat. case_decide as E; [|done]. subst k. rewrite cut_name_length; auto.
  - rewrite Hdat. case_decide as E; [|done]. subst k. unfold cut_name, write_at, splice. cbn [af_data]. apply splice_Forall; [done|]. apply Forall_replicate. unfold byte. lia.
  - intros x Hx. by apply (unlink_alloc k).
Qed.

(** Entries afterwards were there before; those before stay, but for the removed one. *)
Lemma unlink_old k n m y : k <> j -> ents A' k !! n = Some (m, y) -> m <> 0 -> ents A k !! n = Some (m, y) /\ ~ (k = jd /\ n = i).
Proof.
  intros Hk. rewrite unlink_ents by done. case_decide as E; [|intros H1 H2; split; [done|tauto]]. intros [(-> & [= -> _] & _)|[Hne Hx]]%list_lookup_insert_Some H0; [done|]. split; [done|]. intros [_ ->]. done.
Qed.
Lemma unlink_keep k n m y : k <> j -> ents A k !! n = Some (m, y) -> ~ (k = jd /\ n = i) -> ents A' k !! n = Some (m, y).
Proof. intros Hk Hx Hne. rewrite unlink_ents by done. case_decide as E; [|done]. rewrite list_lookup_insert_ne; [done|]. intros <-. by apply Hne. Qed.

Lemma unlink_links m : 0 < m < sb_ninodes sb -> af_type (A' m) <> 0 -> af_type (A' m) <> T_DIR -> af_nlink (A' m) = names A' m.
Proof.
  intros Hm Ht0 Htd. destruct unlink_j as (Hal & Hjp & Hne). assert (af_type (A jd) = T_DIR) as Htjd by apply Hjd.
  assert (isdir A' jd) as Hjd' by (by apply unlink_isdir'). assert (af_type (A' jd) = T_DIR) as Htjd' by apply Hjd'.
  assert (names_in (A' jd) m = names_in (A jd) m - if decide (m = j) then 1 else 0) as Hin.
  { unfold names_in. rewrite Htjd, Htjd', Z.eqb_refl. fold (ents A' jd). fold (ents A jd). rewrite unlink_ents, decide_True by done. rewrite (count_insert _ _ i (j, e) (0, []) He). unfold one_if. cbn [fst]. rewrite (decide_False (P := 0 = m)) by lia. repeat case_decide; lia. }
  assert (forall k, 0 <= k < sb_ninodes sb -> k <> jd -> names_in (A' k) m = names_in (A k) m) as Hoth.
  { intros k Hk Hkd. destruct (decide (k = j)) as [->|Hkj]; [|by rewrite unlink_other]. unfold names_in at 1. destruct (decide (af_type (A j) = T_DIR)) as [Htj|Htj].
    - destruct (Hdir Htj) as [El Hz]. assert (af_type (A' j) = 0) as -> by (unfold unlink_files; by rewrite Z.eqb_refl, El). cbn. unfold names_in. rewrite Htj, Z.eqb_refl. fold (ents A j).
      assert (isdir A j) as Hjdir by (destruct Hal; split; [lia|done]). destruct (nm_dots _ Hn j Hjdir) as (p & rest & Hents & Hp).
      assert (m <> j /\ m <> p) as [Hmj Hmp]. { split; intros ->; [unfold unlink_files in Ht0; by rewrite Z.eqb_refl, El in Ht0|]. destruct (decide (p = j)) as [->|Hpj]; [unfold unlink_files in Ht0; by rewrite Z.eqb_refl, El in Ht0|]. rewrite unlink_type in Htd by done. by destruct Hp. }
      symmetry. apply count_none. intros n x Hx E. destruct (decide (2 <= n)%nat) as [H2|H2]; [rewrite (Hz n x Hx H2) in E; lia|].
      rewrite Hents in Hx. destruct n as [|[|n]]; [| |lia]; injection Hx as <-; cbn in E; congruence.
    - assert (af_type (A' j) <> T_DIR) as Htj' by (unfold unlink_files; rewrite Z.eqb_refl; destruct last; [done|exact Htj]). unfold names_in. by rewrite (proj2 (Z.eqb_neq _ _) Htj), (proj2 (Z.eqb_neq _ _) Htj'). }
  assert (names A' m = names A m - if decide (m = j) then 1 else 0) as Hnm.
  { pose (B := fun k => if decide (0 <= k < sb_ninodes sb) then A' k else A k). rewrite <- (names_ext A' B) by (intros k Hk; unfold B; by rewrite decide_True). rewrite (names_change A B m jd).
    - unfold B. rewrite decide_True by (destruct Hjd; lia). rewrite Hin. lia.
    - destruct Hjd. lia.
    - intros k Hk. unfold B. destruct (decide (0 <= k < sb_ninodes sb)); [by apply Hoth|done]. }
  rewrite Hnm. case_decide as E.
  - subst m. unfold unlink_files in *. rewrite Z.eqb_refl in *. destruct last; [done|]. cbn in *. rewrite (nm_links _ Hn j) by (lia || done). lia.
  - rewrite unlink_type in Ht0, Htd by done. destruct (decide (m = jd)) as [->|Hmd]; [done|]. rewrite unlink_other, (nm_links _ Hn m) by done. lia.
Qed.

Lemma unlink_dlinks d : isdir A' d -> af_nlink (A' d) = 1 + subdirs A' d.
Proof.
  intros Hd'. destruct (unlink_isdir d Hd') as [Hd Hdj]. destruct unlink_j as (Hal & Hjp & Hne). pose proof (nm_dlinks _ Hn d Hd) as Hl.
  assert (count (fun e : Z * list Z => e.1 <> 0 /\ af_type (A' e.1) = T_DIR) (drop 2 (ents A' d)) = count (fun e : Z * list Z => e.1 <> 0 /\ af_type (A e.1) = T_DIR) (drop 2 (ents A' d))) as Hc.
  { apply count_ext. intros n [m y] Hx. cbn [fst]. rewrite lookup_drop in Hx. destruct (decide (m = j)) as [->|Hmj]; [|by rewrite unlink_type]. destruct (unlink_entry d (2 + n) y Hd' Hx) as [Hnd _].
    split; [|by intros [_ ?]]. intros [_ Ht]. unfold unlink_files in Ht. rewrite Z.eqb_refl in Ht. destruct last; [done|]. by destruct Hnd. }
  unfold subdirs. rewrite Hc. rewrite unlink_ents by done. case_decide as E.
  - subst d. rewrite unlink_nlink_dir, Hl. unfold subdirs. rewrite drop_insert_ge by lia. rewrite (count_insert _ _ (i - 2) (j, e) (0, [])) by (rewrite lookup_drop; replace (2 + (i - 2))%nat with i by lia; done).
    unfold one_if. cbn [fst]. rewrite (decide_False (P := 0 <> 0 /\ _)) by tauto. destruct (Z.eqb_spec (af_type (A j)) T_DIR); case_decide; try lia; tauto.
  - rewrite unlink_other by done. exact Hl.
Qed.

Lemma names_unlink : names_ok A'.
Proof.
  destruct unlink_j as (Hal & Hjp & Hne). assert (forall k n y, isdir A' k -> ents A' k !! n = Some (j, y) -> ~ isdir A j) as Hnoj by (intros k n y Hk Hx [_ Ht]; by destruct (unlink_entry k n y Hk Hx)).
  split.
  - rewrite unlink_type by lia. apply Hn.
  - intros k Hk. destruct (unlink_isdir k Hk) as [Hk0 Hkj]. destruct (nm_dots _ Hn k Hk0) as (p & rest & Hents & Hp).
    assert (ents A' k !! 0%nat = Some (k, [46]) /\ ents A' k !! 1%nat = Some (p, [46; 46])) as [H0 H1] by (split; apply unlink_keep; try done; rewrite ?Hents; try done; lia).
    assert (p <> j) as Hpj by (intros ->; by apply (Hnoj k 1%nat [46; 46])).
    exists p, (drop 2 (ents A' k)). split; [|by apply unlink_isdir']. revert H0 H1. generalize (ents A' k). intros [|a [|b l]] H0 H1; try done. cbn in H0, H1. injection H0 as ->. injection H1 as ->. done.
  - intros k n [m y] Hk Hx H2. destruct (unlink_isdir k Hk) as [Hk0 Hkj]. cbn. intros ->. apply unlink_old in Hx as [Hx _]; [|done|destruct Hk0; lia]. by apply (nm_self _ Hn k n (k, y) Hk0 Hx H2).
  - intros k p x Hk Hx Hpk. destruct (unlink_isdir k Hk) as [Hk0 Hkj]. destruct (decide (p = 0)) as [->|Hp0].
    { destruct (nm_dots _ Hn k Hk0) as (p & rest & Hents & Hp). rewrite (unlink_keep k 1 p [46; 46]) in Hx by (try done; rewrite ?Hents; try done; lia). injection Hx as -> _. destruct Hp. lia. }
    apply unlink_old in Hx as [Hx _]; [|done|done]. destruct (nm_parent _ Hn k p x Hk0 Hx Hpk) as (n & y & Hn2 & Hy). exists n, y. split; [done|]. apply unlink_keep; [|done|].
    + intros ->. destruct (nm_dots _ Hn k Hk0) as (p & rest & Hents & Hp). assert (p = j) as -> by (rewrite Hents in Hx; by injection Hx). apply (Hnoj k 1%nat [46; 46]); [done| |done]. apply unlink_keep; [done|by rewrite Hents|lia].
    + intros [-> ->]. rewrite He in Hy. congruence.
  - intros k d1 i1 x1 d2 i2 x2 Hk Hd1 Hd2 H1 H2 Hx1 Hx2. destruct (unlink_isdir k Hk) as [Hk0 Hkj], (unlink_isdir d1 Hd1) as [Hd10 Hdj1], (unlink_isdir d2 Hd2) as [Hd20 Hdj2].
    apply unlink_old in Hx1 as [Hx1 _]; [|done|destruct Hk0; lia]. apply unlink_old in Hx2 as [Hx2 _]; [|done|destruct Hk0; lia]. by apply (nm_uniq _ Hn k d1 i1 x1 d2 i2 x2).
  - apply unlink_links.
  - apply unlink_dlinks.
Qed.
End unlink.

(** ** Adding *)

Lemma count_around {B} (P : B -> Prop) `{!forall x, Decision (P x)} l i x : (forall y, l !! i = Some y -> ~ P y) -> count P (take i l ++ x :: drop (S i) l) = count P l + one_if (P x).
Proof. intros Hi. rewrite count_app, count_cons. unfold count at 3. rewrite (filter_around P l i Hi), length_app. unfold count. lia. Qed.
Lemma lookup_around {B} (l : list B) i x n : (i <= length l)%nat -> (take i l ++ x :: drop (S i) l) !! n = if decide (n = i) then Some x else l !! n.
Proof.
  intros Hi. case_decide as E; [subst n|destruct (decide (n < i)%nat)].
  - by rewrite list_lookup_middle by (rewrite length_take; lia).
  - rewrite lookup_app_l, lookup_take_lt by (rewrite ?length_take; lia). done.
  - rewrite lookup_app_r by (rewrite length_take; lia). rewrite length_take, Nat.min_l by lia. rewrite lookup_cons_ne_0 by lia. rewrite lookup_drop. f_equal. lia.
Qed.

Section link.
Context (A : Z -> afile) (j jd : Z) (e : list Z).
Hypothesis Ha : atree sb A.
Hypothesis Hn : names_ok A.
Hypothesis Hj : alloc sb A j /\ 0 < j < 65536 /\ af_type (A j) <> T_DIR /\ af_nlink (A j) + 1 <> 0.
Hypothesis Hjd : isdir A jd.
Hypothesis He : clean e.
Abbreviation A' := (link_files A j jd e).

Lemma link_isdir k : isdir A' k <-> isdir A k.
Proof. unfold isdir. by rewrite link_type. Qed.
Lemma link_not_j k : isdir A k -> k <> j.
Proof. intros [_ Ht] ->. by destruct Hj as (_ & _ & ? & _). Qed.
Lemma link_slot : (2 <= free_slot (ents A jd))%nat.
Proof.
  destruct (nm_dots _ Hn jd Hjd) as (p & rest & -> & Hp). unfold free_slot. destruct Hjd as [H1 _], Hp as [H2 _]. cbn [list_find fst]. rewrite !decide_False by (cbn; lia). cbn [fmap option_fmap option_map length].
  destruct (list_find _ rest) as [[n x]|]; cbn; lia.
Qed.
Lemma link_ents k : isdir A k -> ents A' k = if decide (k = jd) then take (free_slot (ents A jd)) (ents A jd) ++ (j, e) :: drop (S (free_slot (ents A jd))) (ents A jd) else ents A k.
Proof.
  intros Hk. pose proof (link_not_j k Hk) as Hkj. unfold ents, link_files. rewrite (proj2 (Z.eqb_neq _ _) Hkj). destruct (Z.eqb_spec k jd) as [->|]; [rewrite decide_True by done|by rewrite decide_False].
  destruct Hjd as [Hr Ht]. apply add_name_ents; [apply (Ha jd ltac:(lia) Ht)|lia|done].
Qed.
Lemma link_lookup k n x : isdir A k -> ents A' k !! n = Some x -> x = (j, e) /\ k = jd /\ (2 <= n)%nat \/ ents A k !! n = Some x.
Proof.
  intros Hk. rewrite link_ents by done. case_decide as E; [|by right]. subst k. rewrite lookup_around by apply free_slot_le. case_decide as En; [|by right]. subst n. intros [= <-]. left. split_and!; [done|done|apply link_slot].
Qed.
Lemma link_old k n m x : isdir A k -> ents A k !! n = Some (m, x) -> m <> 0 -> ents A' k !! n = Some (m, x).
Proof.
  intros Hk Hx H0. rewrite link_ents by done. case_decide as E; [|done]. subst k. rewrite lookup_around by apply free_slot_le. case_decide as En; [|done]. subst n. by apply free_slot_free in Hx.
Qed.

Lemma link_links m : 0 < m < sb_ninodes sb -> af_type (A' m) <> 0 -> af_type (A' m) <> T_DIR -> af_nlink (A' m) = names A' m.
Proof.
  intros Hm. rewrite link_type. intros Ht0 Htd. destruct Hj as (Hal & Hjr & Hjt & _). assert (jd <> j) as Hne by (by apply link_not_j). pose proof (link_ents jd Hjd) as Hents. rewrite decide_True in Hents by done. destruct Hjd as [Hr Ht].
  rewrite (names_change A A' m jd).
  - assert (names_in (A' jd) m = names_in (A jd) m + if decide (j = m) then 1 else 0) as ->.
    { unfold names_in. rewrite link_type, Ht, Z.eqb_refl. fold (ents A' jd). fold (ents A jd). rewrite Hents, count_around; [done|]. intros y Hy%free_slot_free E. cbn in E. lia. }
    unfold link_files. destruct (Z.eqb_spec m j) as [->|Hmj]; [rewrite decide_True by done|rewrite decide_False by done].
    + cbn. rewrite (nm_links _ Hn j) by (lia || done). lia.
    + destruct (Z.eqb_spec m jd) as [->|]; [done|]. rewrite (nm_links _ Hn m) by done. lia.
  - lia.
  - intros k Hk. unfold link_files. destruct (Z.eqb_spec k j) as [->|]; [done|]. by rewrite (proj2 (Z.eqb_neq _ _) Hk).
Qed.

Lemma names_link : names_ok A'.
Proof.
  destruct Hj as (Hal & Hjr & Hjt & _). assert (forall k, isdir A k -> k <> j) as Hnj by apply link_not_j. split.
  - rewrite link_type. apply Hn.
  - intros k Hk%link_isdir. destruct (nm_dots _ Hn k Hk) as (p & rest & Hents & Hp).
    assert (ents A' k !! 0%nat = Some (k, [46]) /\ ents A' k !! 1%nat = Some (p, [46; 46])) as [H0 H1] by (split; apply link_old; try done; rewrite ?Hents; try done; destruct Hk, Hp; lia).
    exists p, (drop 2 (ents A' k)). split; [|by apply link_isdir]. revert H0 H1. generalize (ents A' k). intros [|a [|b l]] H0 H1; try done. cbn in H0, H1. injection H0 as ->. injection H1 as ->. done.
  - intros k n x Hk%link_isdir Hx H2. apply link_lookup in Hx as [(-> & -> & _)|Hx]; [cbn; by apply not_eq_sym, Hnj|by apply (nm_self _ Hn k n x)|done].
  - intros k p x Hk%link_isdir Hx Hpk. apply link_lookup in Hx as [(_ & _ & ?)|Hx]; [lia| |done]. destruct (nm_parent _ Hn k p x Hk Hx Hpk) as (n & y & Hn2 & Hy). exists n, y. split; [done|].
    destruct (nm_dots _ Hn k Hk) as (p' & rest & Hents & Hp). rewrite Hents in Hx. injection Hx as -> _. apply link_old; [done|done|destruct Hk; lia].
  - intros k d1 i1 x1 d2 i2 x2 Hk%link_isdir Hd1%link_isdir Hd2%link_isdir H1 H2 Hx1 Hx2. pose proof (Hnj k Hk) as Hkj.
    apply link_lookup in Hx1 as [([= -> _] & _)|Hx1]; [done| |done]. apply link_lookup in Hx2 as [([= -> _] & _)|Hx2]; [done| |done]. by apply (nm_uniq _ Hn k d1 i1 x1 d2 i2 x2).
  - apply link_links.
  - intros d Hd%link_isdir. unfold subdirs. rewrite (count_ext _ (fun e : Z * list Z => e.1 <> 0 /\ af_type (A e.1) = T_DIR)) by (intros n x _; by rewrite link_type).
    assert (af_nlink (A' d) = af_nlink (A d)) as ->. { unfold link_files. rewrite (proj2 (Z.eqb_neq _ _) (Hnj d Hd)). by destruct (Z.eqb_spec d jd) as [->|]. }
    rewrite (nm_dlinks _ Hn d Hd). unfold subdirs. f_equal. rewrite link_ents by done. case_decide as E; [|done]. subst d. pose proof link_slot as H2. pose proof (free_slot_le (ents A jd)) as Hle. set (l := ents A jd) in *.
    rewrite drop_app_le by (rewrite length_take; lia). assert (drop 2 (take (free_slot l) l) = take (free_slot l - 2) (drop 2 l)) as -> by (rewrite take_drop_commute; do 2 f_equal; lia). replace (drop (S (free_slot l)) l) with (drop (S (free_slot l - 2)) (drop 2 l)) by (rewrite drop_drop; f_equal; lia).
    rewrite count_around.
    + unfold one_if. rewrite decide_False; [lia|]. cbn. tauto.
    + intros y Hy [E _]. rewrite lookup_drop in Hy. replace (2 + (free_slot l - 2))%nat with (free_slot l) in Hy by lia. by apply free_slot_free in Hy.
Qed.
End link.

(** Only the inodes of the file system matter. *)
Lemma names_ok_ext A A' : atree sb A -> 0 < sb_ninodes sb -> (forall k, 0 <= k < sb_ninodes sb -> A' k = A k) -> names_ok A -> names_ok A'.
Proof.
  intros Ha H0 He Hn. assert (forall k, isdir A' k <-> isdir A k) as Hd by (intros k; unfold isdir; split; intros [? Ht]; (split; [done|]); [rewrite He in Ht by lia|rewrite He by lia]; done).
  assert (forall k, isdir A k -> ents A' k = ents A k) as Hents by (intros k [? _]; unfold ents; by rewrite He by lia). split.
  - rewrite He by lia. apply Hn.
  - intros k Hk%Hd. rewrite Hents by done. destruct (nm_dots _ Hn k Hk) as (p & rest & ? & Hp). exists p, rest. split; [done|by apply Hd].
  - intros k i e Hk%Hd. rewrite Hents by done. by apply Hn.
  - intros k p x Hk%Hd. rewrite Hents by done. intros Hx Hpk. destruct (nm_parent _ Hn k p x Hk Hx Hpk) as (i & y & Hi & Hy). exists i, y. rewrite Hents; [done|]. destruct (nm_dots _ Hn k Hk) as (p' & rest & E & Hp). rewrite E in Hx. by injection Hx as -> _.
  - intros k d1 i1 x1 d2 i2 x2 Hk%Hd Hd1%Hd Hd2%Hd. rewrite !Hents by done. by apply (nm_uniq _ Hn).
  - intros j Hj. rewrite He by lia. intros H1 H2. rewrite (names_ext A A') by (intros k Hk; by rewrite He). by apply Hn.
  - intros d Hdd%Hd. pose proof Hdd as [Hr Ht]. rewrite He by lia. rewrite (nm_dlinks _ Hn d Hdd). unfold subdirs. rewrite Hents by done. f_equal. apply count_ext. intros i [m x] Hx. cbn [fst]. rewrite lookup_drop in Hx.
    destruct (decide (m = 0)) as [->|Hm]; [tauto|]. rewrite He; [done|]. by apply (ad_ents _ _ _ (Ha d ltac:(lia) Ht) (m, x) ltac:(by eapply list_elem_of_lookup_2) Hm).
Qed.
End names.
