(* ===== verification/FsMount.v ===== *)
(** Mounting the file system at boot: buffer cache, inode table, super block, log recovery;
    and a small disk as mkfs lays it out, for the examples. *)
From S2P Require Import Prelude Memory Sleeplock Bio BioInv BioSpec Log LogPure LogSpec LogTxn Fs FsTxn FsDisk FsAlloc FsGrow FsInode FsTable State FsPath FsIo FsDir FsSys.

#[local] Arguments loop : simpl never.

(** The memory of a machine that has just been switched on with the disk [D]. *)
Definition bss_inode : inode := mkinode 0 0 0 unlocked 0 0 0 0 0 0 (replicate 13 0).
Definition fs_boot_state (D : Z -> block) : fsst := mkfs (mksb 0 0 0 0 0 0 0 0) (fun _ => bss_inode) (boot_state D).

(** [binit] and [iinit] in [main], [fsinit] in the first process. *)
Definition mount (dev : Z) : M fsst unit := zoom fbio binit ;; iinit ;; fsinit dev.

Lemma wp_iinit c f (Q : cpu -> fsst -> unit -> Prop) :
  LItable ∉ held c -> (forall i, LSleepInode i ∉ held c) -> (forall i, fs_itable f i = bss_inode) ->
  (forall T, (forall i, T i = bss_inode) -> Q c (mkfs (fs_sb f) T (fs_log f)) tt) -> wp iinit c f Q.
Proof.
  intros Hl Hi HT HQ. unfold iinit. wp_step. wp_step. rewrite set_held_id by done.
  eapply (wp_loop (fun (i : nat) c' f' => c' = c /\ fs_sb f' = fs_sb f /\ fs_log f' = fs_log f /\ forall j, fs_itable f' j = bss_inode)
    (fun i => (NINODE - i)%nat)); [|lia|done].
  intros i c' [sb1 T1 l1] (-> & Hs & Hlg & HT'). simpl in Hs, Hlg, HT'. subst sb1 l1. destruct (Nat.ltb_spec i NINODE).
  - wp_step. apply wp_zoom. unfold initsleeplock. wp_steps. rewrite set_held_id by done. split; [|lia].
    split_and!; [done..|]. intros j. cbn [fs_itable lset ilock_lens]. unfold upd_itable. destruct (decide (j = i)) as [->|]; [|by apply HT'].
    rewrite HT'. done.
  - wp_step. apply HQ. done.
Qed.

Section mount.
Context (dv start size : Z) (sb : superblock) `{G : !FsGeo dv start size sb}.

Lemma wp_readsb c f D (Q : cpu -> fsst -> unit -> Prop) :
  cpu_ok c -> bst dv (lbio (fs_log f)) D D (fun _ => 0) nolock ->
  (forall c' b', same_cpu c c' -> bst dv b' D D (fun _ => 0) nolock -> dwrites b' = dwrites (lbio (fs_log f)) ->
     Q c' (mkfs (decode_sb (D 1)) (fs_itable f) (mklogst (lg (fs_log f)) b')) tt) ->
  wp (readsb dv) c f Q.
Proof.
  intros [Hc Hcb] Hst HQ. pose proof geo_dv as Hdv. unfold readsb, fbread, fdata, set_sb, fbrelse. wp_step. apply wp_zoom.
  rewrite (u32_small dv) by lia. change (u32 1) with 1. cbn [lget fbio].
  eapply (wp_bread' dv c _ _ _ _ _ Hst Hc Hcb 1 []); [done|done|intros b Hb; lia|right; change NBUF with 30%nat; simpl; lia|].
  intros s1 i Hst1 Hl1 _ Hw1. wp_steps. cbn [lbio fs_log fbio lset fs_itable fs_sb]. rewrite (loaded_content dv _ _ _ Hl1), (bst_content _ _ _ _ _ _ _ Hst1).
  apply wp_zoom. cbn [lget fbio fs_log lbio].
  eapply (wp_brelse' dv c _ _ _ _ _ Hst1 Hc Hcb 1); [exact Hl1|by rewrite fset_eq|by rewrite fset_eq|done|].
  intros c2 s2 Hcc2 Hst2 _ Hw2. cbn [lset fbio fs_sb fs_itable fs_log lg]. apply HQ; [done| |by rewrite Hw2, Hw1].
  eapply bst_ext; [exact Hst2|done|done|..]; intros b;
    (destruct (decide (b = 1)) as [->|]; [rewrite ?fset_eq|rewrite ?fset_ne by done]); done.
Qed.

(** Mounting a disk whose log holds a committed transaction, or none, gives the file system as
    that transaction leaves it, with no inode in use. *)
Record mounted (D : Z -> block) (f : fsst) (D' : Z -> block) : Prop := {
  mo_idle : idle dv start size sb f (fs_itable f) D';
  mo_refs i : fs_itable f i = bss_inode;
  mo_disk b : home start size b -> D' b = logical start D b;
  mo_writes : dwrites (lbio (fs_log f)) = reverse (recover_writes start D);
  mo_last b : fsets D (recover_writes start D) b = D' b;
}.

Lemma bss_itab T D : (forall i, T i = bss_inode) -> itab dv sb T D None.
Proof. intros HT. split; intros i; rewrite ?HT; simpl; intros; lia. Qed.

Lemma wp_mount D p n w :
  decode_sb (D 1) = sb -> sb_magic sb = FSMAGIC -> sb_logstart sb = start -> sb_nlog sb = size -> disk_ok start size D ->
  disk_fs sb (logical start D) ->
  wp (mount dv) (mkcpu [] p n w 0 []) (fs_boot_state D) (fun c' f _ => same_cpu (mkcpu [] p n w 0 []) c' /\ exists D', mounted D f D').
Proof.
  intros Hsb Hmg Hls Hnl Hok Hfs. pose proof geo_dv as Hdv. unfold mount. wp_step. apply wp_zoom.
  destruct (binit_run D p n w) as (b1 & Hrun & Hd1 & Hw1 & Hbufs). unfold wp at 1. cbn [lget fbio fs_boot_state fs_log lbio boot_state].
  rewrite Hrun. clear Hrun. cbn [lset fbio fs_sb fs_itable fs_log lg]. wp_step.
  pose proof (boot_bst dv b1 D ltac:(lia) Hd1 Hbufs) as Hst.
  apply wp_iinit; [apply not_elem_of_nil|intros; apply not_elem_of_nil|done|]. intros T HT. unfold fsinit. wp_step.
  eapply wp_readsb; [split; [|intros i]; apply not_elem_of_nil|exact Hst|]. intros c1 b2 Hcc1 Hst2 Hw2.
  cbn [fs_itable fs_log lg]. unfold get_sb. wp_steps. cbn [fs_sb]. rewrite Hsb, Hmg. cbn [Z.eqb negb Pos.eqb FSMAGIC].
  apply wp_zoom. cbn [lget flog fs_log].
  eapply (wp_initlog dv start size geo_dv geo_start geo_end geo_size sb D); try done.
  - eapply same_lcpu; [exact Hcc1|]. split; [split|]; simpl; intros; apply not_elem_of_nil.
  - intros c2 s2 D2 Hcc2 (V & Ht & _ & HD) Hw HD2. split; [by eapply same_cpu_trans|]. exists D2. cbn [lset flog fs_sb fs_itable].
    cbn [a_blocks a_out a_cur a_stable] in *. split; cbn [fs_itable fs_log]; try done.
    + split; [split; [done|done|by exists V]| |by apply bss_itab].
      eapply (disk_fs_ext dv start size sb); [exact Hfs|]. intros b Hb. apply HD. by apply (quiet_home dv start size sb).
    + rewrite Hw. cbn [lbio]. rewrite Hw2. simpl. by rewrite Hw1, app_nil_r.
Qed.
End mount.

(** * An example disk: a root directory and the file [f] in it *)

Definition img_sb : superblock := mksb FSMAGIC 2000 1954 200 30 2 32 45.
#[export] Instance img_geo : FsGeo 1 2 30 img_sb.
Proof. split; [split|..]; vm_compute; intuition congruence. Qed.

Definition zeros : block := replicate 1024 0.
Definition img_inode (ty nlink sz blk : Z) : inode := mkinode 0 0 0 unlocked 0 ty 0 0 nlink sz (blk :: replicate 12 0).
Definition img_dirent (inum : Z) (name : list Z) : list Z := [inum; 0] ++ name ++ replicate (14 - length name) 0.

(** Inode 1 is the root, with the entries [.], [..] and [f]; inode 2 is [f]. *)
Definition img (b : Z) : block :=
  if b =? 1 then foldl (fun d x => put32 d x.1 x.2) zeros
    [(0%nat, FSMAGIC); (4%nat, 2000); (8%nat, 1954); (12%nat, 200); (16%nat, 30); (20%nat, 2); (24%nat, 32); (28%nat, 45)]
  else if b =? 32 then put_dinode (put_dinode zeros 64 (img_inode T_DIR 1 48 46)) 128 (img_inode T_FILE 1 5 47)
  else if b =? 45 then splice zeros 0 (replicate 6 255)
  else if b =? 46 then splice zeros 0 (img_dirent 1 [46] ++ img_dirent 1 [46; 46] ++ img_dirent 2 [102])
  else if b =? 47 then splice zeros 0 [104; 101; 108; 108; 111]
  else zeros.

Definition zero_node : dinode := mkdino 0 0 0 0 0 (replicate 13 0).
Definition img_node (j : Z) : dinode :=
  if j =? 1 then mkdino T_DIR 0 0 1 48 (46 :: replicate 12 0)
  else if j =? 2 then mkdino T_FILE 0 0 1 5 (47 :: replicate 12 0) else zero_node.

(** A property of the numbers of a range, by testing them all. *)
Lemma range_forall (P : Z -> bool) n k : forallb P (seqZ 0 n) = true -> 0 <= k < n -> P k = true.
Proof. intros Hf Hk. rewrite forallb_forall in Hf. apply Hf, list_elem_of_In, elem_of_seqZ. lia. Qed.

#[local] Instance dinode_eq_dec : EqDecision dinode.
Proof. solve_decision. Defined.

Lemma img_dnode j : 0 <= j < 200 -> dnode img_sb img j = img_node j.
Proof.
  intros Hj. apply (bool_decide_unpack _). apply Is_true_true. 
  apply (range_forall (fun j => bool_decide (dnode img_sb img j = img_node j)) 200 j); [vm_compute; done|done].
Qed.
Lemma img_sb_read : decode_sb (img 1) = img_sb.
Proof. vm_compute. done. Qed.
Lemma img_header : disk_ok 2 30 img.
Proof. change (header_ok 2 30 zeros). apply header_ok_nil; [lia|reflexivity|reflexivity]. Qed.

Lemma img_slot j k : 0 <= j < 200 -> 0 <= k < NSLOTS -> slot img (d_addrs (img_node j)) k = if (k =? 0) && ((j =? 1) || (j =? 2)) then j + 45 else 0.
Proof.
  intros Hj Hk. unfold slot, img_node.
  assert (forall x k, 0 <= k -> addr_l (x :: replicate 12 0) k = if k =? 0 then x else 0) as Ha.
  { clear. intros x k Hk. unfold addr_l. destruct (Z.eqb_spec k 0) as [->|]; [done|]. destruct (Z.to_nat k) as [|i] eqn:E; [lia|]. simpl.
    destruct (_ !! i) as [y|] eqn:Ey; [|done]. by apply (lookup_replicate 12 0 y i) in Ey as [-> _]. }
  change (replicate 13 0) with (0 :: replicate 12 0). unfold zero_node. change (replicate 13 0) with (0 :: replicate 12 0). 
  destruct (Z.eqb_spec j 1) as [->|]; [|destruct (Z.eqb_spec j 2) as [->|]]; cbn [d_addrs]; rewrite !Ha by (unfold NDIRECT; lia); cbn [NDIRECT Z.eqb orb andb].
  all: unfold NDIRECT; destruct (Z.leb_spec k 12), (Z.eqb_spec k 0); try lia; done.
Qed.

Lemma img_fs : disk_fs img_sb img.
Proof.
  apply (fsok_ext_node img_sb img_node); [|intros j Hj; by apply img_dnode].
  assert (forall j k b, refers img_sb img_node img j k b -> k = 0 /\ (j = 1 \/ j = 2) /\ b = j + 45) as Hr.
  { intros j k b (Hj & Hk & Hs & Hb). rewrite img_slot in Hs by done.
    destruct (Z.eqb_spec k 0), (Z.eqb_spec j 1), (Z.eqb_spec j 2); simpl in Hs; lia. }
  split.
  - intros b _. unfold img. repeat case_match; done.
  - intros b Hb. apply (range_forall (fun b => bit_set (img (BBLOCK b img_sb)) (b mod BPB)) 46 b); [vm_compute; done|exact Hb].
  - intros j _. unfold img_node, dino_ok, zero_node, T_DIR, T_FILE. repeat case_match; simpl; split_and!; try lia; repeat (apply Forall_cons; split; [lia|]); apply Forall_nil_2.
  - intros j k b (-> & [-> | ->] & ->)%Hr; (split; [vm_compute; intuition congruence|vm_compute; done]).
  - intros j k j' k' b (-> & Hj & ->)%Hr (-> & Hj' & Hb)%Hr. lia.
  - intros j _. unfold img_node. repeat case_match; vm_compute; congruence.
  - intros j bn Hj Hbn Hlt. assert (bn = 0 /\ (j = 1 \/ j = 2)) as [-> Hc].
    { unfold img_node, BSIZE in Hlt. destruct (Z.eqb_spec j 1), (Z.eqb_spec j 2); simpl in Hlt; lia. }
    destruct Hc as [-> | ->]; vm_compute; congruence.
Qed.

Lemma bytes_check l : forallb (fun x => (0 <=? x) && (x <? 256)) l = true -> Forall byte l.
Proof. intros Hl. rewrite forallb_forall in Hl. apply Forall_forall. intros x Hx%list_elem_of_In%Hl. unfold byte. lia. Qed.

Lemma img_bytes : bytes_ok img.
Proof. intros b. unfold img. repeat case_match; apply bytes_check; vm_compute; done. Qed.

Lemma img_tree : tree_ok img_sb img.
Proof.
  split; [apply img_fs|intros j _ _ pos _; apply fbyte_byte, img_bytes|]. intros j Hj. rewrite img_dnode by done. intros Ht.
  assert (j = 1) as ->. { unfold img_node in Ht. destruct (Z.eqb_spec j 1); [done|]. destruct (Z.eqb_spec j 2); discriminate. }
  split; [done|]. assert (dents img (img_node 1) = [(1, [46]); (1, [46; 46]); (2, [102])]) as -> by (vm_compute; done).
  intros e He _. repeat (apply elem_of_cons in He as [-> |He]; [by vm_compute|]). by apply elem_of_nil in He.
Qed.
