(* ===== verification/FsProps.v ===== *)
(** The file system's properties at the level of system calls, with concrete instances. *)
From S2P Require Import Prelude Memory Riscv Kalloc Vm VmTree VmMap VmUser VmCopy VmProps UserMem Sleeplock Bio BioInv BioSpec Log LogPure LogSpec LogTxn LogProps Fs FsTxn FsDisk FsAlloc FsGrow FsInode FsTable State Process FsFile FsPath FsIo FsDir Uart Console Pipe File FsSys FsMount.

#[local] Arguments loop : simpl never.

Lemma set_fs_id s : set_fs (k_fs s) s = s.
Proof. by destruct s. Qed.

(** The disk under the kernel's state. *)
Definition kdisk (s : kst) : Z -> block := dsk (lbio (fs_log (k_fs s))).
(** The disk writes of a kernel state, oldest first. *)
Definition kwrites (s : kst) : list (Z * block) := reverse (dwrites (lbio (fs_log (k_fs s)))).

Lemma ubytes_drop s N addr i n : (i <= n)%nat -> drop i (ubytes s N addr n) = ubytes s N (addr + Z.of_nat i) (n - i).
Proof. intros Hi. replace n with (i + (n - i))%nat at 1 by lia. rewrite ubytes_app, drop_app_length' by (by rewrite length_ubytes). done. Qed.
Lemma ubytes_take s N addr i n : (i <= n)%nat -> take i (ubytes s N addr n) = ubytes s N addr i.
Proof. intros Hi. replace n with (i + (n - i))%nat by lia. rewrite ubytes_app, take_app_length' by (by rewrite length_ubytes). done. Qed.

(** User memory that is mapped readable is a source for [either_copyin]. *)
Lemma user_source_pages `{Layout} c s l N us addr n :
  user_pages (k_mem s) l (p_pagetable (k_procs s (me c))) N us -> 0 <= addr -> addr + Z.of_nat n < 18446744073709551616 ->
  (forall i, (i < n)%nat -> accessible false (uview (k_mem s) N) (addr + Z.of_nat i) = true) ->
  user_source c s addr (ubytes (k_mem s) N addr n).
Proof.
  intros Hu Ha Hlim Hacc c' s' pos m (_ & _ & Hme) Hm Hp Hpos Hm0 Hlen. rewrite length_ubytes in Hlen.
  rewrite u64_small by lia. unfold either_copyin, myproc, get_proc. wp_steps. rewrite Hme, Hp. apply wp_zoom. cbn [lget mem_lens]. rewrite Hm.
  eapply wp_copyin; [exact Hu|lia|lia|]. intros r bs (k & Hk & -> & _ & Hr). cbn [lset mem_lens].
  split_and!; [done|rewrite <- Hm; by destruct s'|].
  destruct Hr as [(-> & ->)|(_ & Hk' & Hno)].
  - rewrite ubytes_drop, ubytes_take by lia. by rewrite Z2Nat.id by lia.
  - exfalso. specialize (Hacc (Z.to_nat pos + k)%nat ltac:(lia)).
    replace (addr + Z.of_nat (Z.to_nat pos + k)) with (addr + pos + Z.of_nat k) in Hacc by lia. congruence.
Qed.

Section props.
Context `{Layout} (dv start size : Z) (sb : superblock) `{G : !FsGeo dv start size sb}.
Abbreviation idle := (idle dv start size sb).
Abbreviation absfile := (absfile sb).

Lemma idle_dsk f T D b : idle f T D -> dsk (lbio (fs_log f)) b = D b.
Proof. intros [[_ _ (V & Ht)] _ _]. apply (st_dsk _ _ _ _ _ _ (tx_bst _ _ _ _ _ _ _ _ Ht)). Qed.

Lemma itab_ext T D D' : itab dv sb T D None -> (forall b, sb_inodestart sb <= b -> D' b = D b) -> itab dv sb T D' None.
Proof.
  intros [H1 H2 H3 H4 H5] HD. split; try done. intros i Hi Hri Hv. rewrite H2 by done.
  symmetry. apply (dnode_ext sb D D'); [done|by apply H1].
Qed.

Lemma idle_ext f T D D' : idle f T D -> (forall b, D' b = D b) -> idle f T D'.
Proof.
  intros [[H1 H2 (V & Ht)] H4 H5] HD. split; [split; [done|done|exists V]| |].
  - destruct Ht. split; try done; [by eapply bst_ext|intros b Hb; rewrite HD; auto|by rewrite HD..].
  - eapply (disk_fs_ext dv start size sb); [exact H4|]. intros b _. apply HD.
  - by eapply itab_ext.
Qed.

(** Rebooting from a disk whose log is in order. *)
Lemma boot_recovers D p n w : sb_logstart sb = start -> sb_nlog sb = size -> disk_ok start size D ->
  exists c' s', boot dv sb (mkcpu [] p n w 0 []) (boot_state D) = Ret c' s' tt /\
    forall b, home start size b -> dsk (lbio s') b = logical start D b.
Proof.
  intros H1 H2 Hok. destruct (wp_elim (boot dv sb) (mkcpu [] p n w 0 []) (boot_state D) (fun c' s' _ =>
    forall b, home start size b -> dsk (lbio s') b = logical start D b)) as (c' & s' & [] & Hr & Hd); [|by eauto].
  eapply wp_mono; [by apply (wp_boot dv start size geo_dv geo_start geo_end geo_size)|].
  intros c' s' [] (_ & D' & (V & Ht & _ & HD) & _) b Hb. cbn [a_stable] in HD.
  rewrite (st_dsk _ _ _ _ _ _ (tx_bst _ _ _ _ _ _ _ _ Ht)). auto.
Qed.

Lemma partly_ext D inum off data m R R' : partly sb D inum off data m R -> (forall b, sb_inodestart sb <= b -> R' b = R b) -> 0 <= inum < sb_ninodes sb ->
  partly sb D inum off data m R'.
Proof.
  intros (H1 & H2 & H3) He Hi. split_and!.
  - by eapply (disk_fs_ext dv start size sb).
  - by rewrite (absfile_ext dv start size sb R R').
  - intros j Hj Hne. rewrite (absfile_ext dv start size sb R R') by done. auto.
Qed.

(** Mounting a disk: with a log header in order and a file system behind it that is
    well-formed once the committed transaction is installed, boot installs it, empties the log,
    and leaves the kernel with exactly that file system and no inode in use. *)
Lemma mount_recovers D p n w :
  decode_sb (D 1) = sb -> sb_magic sb = FSMAGIC -> sb_logstart sb = start -> sb_nlog sb = size ->
  disk_ok start size D -> disk_fs sb (logical start D) ->
  exists c' f D', mount dv (mkcpu [] p n w 0 []) (fs_boot_state D) = Ret c' f tt /\ mounted dv start size sb D f D'.
Proof.
  intros H1 H2 H3 H4 H5 H6. pose proof (wp_mount dv start size sb D p n w H1 H2 H3 H4 H5 H6) as Hwp.
  apply wp_elim in Hwp as (c' & f & [] & Hrun & _ & D' & Hm). exists c', f, D'. exact (conj Hrun Hm).
Qed.

(** C2: Writing [n] bytes of user memory to an open file either writes all of them at the
    file's offset and returns [n], or, when the disk is full, writes a prefix and returns -1;
    no other file changes. If the machine stops after any number of the disk writes, rebooting
    recovers a well-formed file system in which the file holds a prefix of the data and every
    other file is untouched. *)
Theorem filewrite_crash_safe c s T l N us fi ip inum off addr n p' n' w' :
  let D := kdisk s in
  let data := ubytes (k_mem s) N addr n in
  sb_logstart sb = start -> sb_nlog sb = size -> sb_size sb / BPB + 17 <= size ->
  fcpu c -> idle (k_fs s) T D -> entry T inum ip -> d_type (dnode sb D inum) <> 0 ->
  f_writable (k_files s fi) <> 0 -> f_type (k_files s fi) = FD_INODE -> f_ip (k_files s fi) = ip -> f_off (k_files s fi) = off ->
  0 <= off <= d_size (dnode sb D inum) -> off + Z.of_nat n <= MAXFILE * BSIZE ->
  user_pages (k_mem s) l (p_pagetable (k_procs s (me c))) N us -> 0 <= addr -> addr + Z.of_nat n < 18446744073709551616 ->
  (forall i, (i < n)%nat -> accessible false (uview (k_mem s) N) (addr + Z.of_nat i) = true) ->
  exists c' s' r m T' W, filewrite fi addr (Z.of_nat n) c s = Ret c' s' r /\
    idle (k_fs s') T' (kdisk s') /\ kwrites s' = kwrites s ++ W /\ (m <= n)%nat /\
    (r = Z.of_nat n /\ m = n \/ r = -1 /\ (m < n)%nat /\ forall b, 0 <= b < sb_size sb -> used sb (kdisk s') b) /\
    f_off (k_files s' fi) = off + Z.of_nat m /\ partly sb D inum off data m (kdisk s') /\
    forall k, exists m' c2 s2, (m' <= m)%nat /\
      boot dv sb (mkcpu [] p' n' w' 0 []) (boot_state (fsets D (take k W))) = Ret c2 s2 tt /\
      partly sb D inum off data m' (dsk (lbio s2)).
Proof.
  intros D data Hls Hnl Hsz Hc Hid He Hty Hw Hft Hfi Hfo Hoff Hmax Hu Ha Hlim Hacc.
  assert (0 <= inum < sb_ninodes sb) as Hrg.
  { pose proof He as (Hip & Hpos & <-). by apply (it_dev _ _ _ _ _ (id_tab _ _ _ _ _ _ _ Hid)). }
  pose proof (wp_filewrite dv start size sb (curpid c) c (k_fs s) s T D fi ip inum off addr (Z.of_nat n) data Hc eq_refl Hid He Hty Hsz Hw Hft Hfi Hfo
    (user_source_pages c s l N us addr n Hu Ha Hlim Hacc) ltac:(unfold data; by rewrite length_ubytes) Hoff Hmax) as Hwp.
  rewrite set_fs_id in Hwp. apply wp_elim in Hwp as (c' & s' & r & Hrun & [Hcc (f' & T' & D' & W & m & s1 & -> & Hid' & He' & Hdw & Hm & Hr & Hp & Hf' & Hcr)]).
  assert (forall b, kdisk (set_fs f' s1) b = D' b) as HD' by (intros b; apply (idle_dsk f' T' D' b Hid')).
  exists c', (set_fs f' s1), r, (Z.to_nat m), T', W. split_and!; try done.
  - by eapply idle_ext.
  - unfold kwrites. cbn [k_fs set_fs]. by rewrite Hdw, reverse_app, reverse_involutive.
  - lia.
  - destruct Hr as [[-> ->]|(-> & ? & Hfull)]; [left; split; [done|lia]|right]. split_and!; [done|lia|]. intros b Hb. unfold used. rewrite HD'. by apply Hfull.
  - cbn [k_files set_fs]. rewrite Z2Nat.id by lia. exact Hf'.
  - eapply partly_ext; [exact Hp|intros b _; apply HD'|done].
  - intros k. destruct (Hcr k) as (Hok & R & (m' & Hm' & HR) & Hlg).
    destruct (boot_recovers (fsets D (take k W)) p' n' w' Hls Hnl Hok) as (c2 & s2 & Hb & Hd).
    exists (Z.to_nat m'), c2, s2. split_and!; [lia|exact Hb|]. eapply partly_ext; [exact HR| |done].
    intros b Hge. rewrite Hd, Hlg by (by apply (quiet_home dv start size sb)). done.
Qed.

(** ** Path names *)

Lemma dents_ext V V' j : disk_fs sb V -> (forall b, sb_inodestart sb <= b -> V' b = V b) -> 0 <= j < sb_ninodes sb ->
  dents V' (dnode sb V j) = dents V (dnode sb V j).
Proof.
  intros Hok He Hj. apply list_fmap_ext. intros i p [-> Hp]%lookup_seq. f_equal. unfold dent, fslice. apply list_fmap_ext.
  intros i' p' [-> Hp']%lookup_seq. pose proof (ok_size _ _ _ Hok j Hj). pose proof (ok_node _ _ _ Hok j Hj) as (_ & _ & _ & _ & Hs & _).
  apply (fbyte_ext_ok sb (dnode sb V)); [done|done|done|]. assert (Z.of_nat i < d_size (dnode sb V j) / 16) by lia. dlia.
Qed.

Lemma tree_ok_ext V V' : tree_ok sb V -> (forall b, sb_inodestart sb <= b -> V' b = V b) -> tree_ok sb V'.
Proof.
  intros [Hfs Hb Hd] He. split; [by apply (disk_fs_ext dv start size sb V)|intros j Hj|intros j Hj].
  { rewrite (dnode_ext sb V V' j He Hj). intros Ht pos Hpos. pose proof (ok_size _ _ _ Hfs j Hj). rewrite (fbyte_ext_ok sb (dnode sb V) V V'); [by apply Hb|done..|lia]. }
   rewrite (dnode_ext sb V V' j He Hj).
  intros Ht. destruct (Hd j Hj Ht) as [Hm Hall]. split; [done|]. rewrite dents_ext by done. intros e Hin Hne.
  destruct (Hall e Hin Hne) as (Hr & Ht' & Hn). by rewrite (dnode_ext sb V V' _ He Hr).
Qed.

Lemma walk_path_ext V V' parent j es : tree_ok sb V -> (forall b, sb_inodestart sb <= b -> V' b = V b) -> 0 <= j < sb_ninodes sb ->
  walk_path sb V' parent j es = walk_path sb V parent j es.
Proof.
  intros Htr He. revert j. induction es as [|e es IH]; intros j Hj; [done|]. cbn [walk_path]. rewrite (dnode_ext sb V V' j He Hj).
  destruct (Z.eqb_spec (d_type (dnode sb V j)) T_DIR) as [Ht|]; [|done]. cbn [negb]. case_match; [done|].
  unfold dir_find. rewrite dents_ext; [|apply Htr|done|done].
  destruct (list_find _ _) as [[i [k nm]]|] eqn:Hf; [|done]. apply list_find_Some in Hf as (Hl & [Hk _] & _).
  apply IH. destruct (tr_dirs _ _ Htr j Hj Ht) as [_ Hd]. eapply (Hd (k, nm)); [by eapply list_elem_of_lookup_2|done].
Qed.

(** A name lookup as a system call runs it. *)
Definition in_op {A} (m : M kst A) : M kst A :=
  zoom klog_lens begin_op ;; r <- m ;; zoom klog_lens end_op ;; ret r.

(** What a lookup leaves behind: the same files, and references to the inodes of [js] more. *)
Record looked_up (s : kst) (T : nat -> inode) (js : option Z) (c' : cpu) (s' : kst) (T' : nat -> inode) : Prop := {
  lu_idle : idle (k_fs s') T' (kdisk s');
  lu_files j : 0 <= j < sb_ninodes sb -> absfile (kdisk s') j = absfile (kdisk s) j;
  lu_refs k : irefs T' k = irefs T k + if decide (js = Some k) then 1 else 0;
}.

Lemma wp_lookup c s T path parent name j0 :
  let D := kdisk s in
  fcpu c -> idle (k_fs s) T D -> tree_ok sb D -> table_room dv sb T D -> starts_at dv c s T path j0 -> inode_ok sb T D j0 ->
  Forall byte path -> Forall byte name -> wp (in_op (namex path parent name)) c s (fun c' s' r => exists T',
    match walk_path sb D parent j0 (elements path) with
    | Some (j, e) => looked_up s T (Some j) c' s' T' /\ exists ip name', r = Some (ip, name') /\ entry T' j ip /\ (parent = true -> cstr DIRSIZ name' = e)
    | None => looked_up s T None c' s' T' /\ r = None
    end).
Proof.
  intros D Hc Hid Htr Hro Hst Hok Hbp Hbn. unfold in_op. rewrite <- (set_fs_id s) at 1. wp_step.
  pose proof (geo_size (dv:=dv) (start:=start)) as Hgs.
  eapply (wp_kbegin dv start size sb (curpid c) c (k_fs s) s T D []); [apply Hc|apply Hid|simpl; lia|]. intros f1 Hx1. wp_step.
  assert (forall c1 f2 T2 V2 js r (Q : cpu -> kst -> option (nat * list Z) -> Prop), same_cpu c c1 ->
    ftx dv start size sb (mkfconst 1 (dwrites (lbio (fs_log (k_fs s))))) (curpid c) f2 T2 D V2 [] [] [] -> itab dv sb T2 D None ->
    (forall k, irefs T2 k = irefs T k + if decide (js = Some k) then 1 else 0) ->
    (forall c' s' , looked_up s T js c' s' T2 -> Q c' s' r) ->
    wp (zoom klog_lens end_op ;; ret r) c1 (set_fs f2 s) Q) as Hend.
  { intros c1 f2 T2 V2 js r Q Hcc Hx2 Ht2 Hrf HQ. wp_step.
    eapply (wp_kend dv start size sb (curpid c)); [eapply same_lcpu; [exact Hcc|apply Hc]|exact Hx2|].
    intros c2 f3 D3 W Hcc2 Hq _ _ HD. wp_step. apply HQ.
    assert (idle f3 T2 D3) as Hid3.
    { split; [done|eapply (disk_fs_ext dv start size sb); [apply Hid|done]|by eapply itab_ext]. }
    split; [eapply idle_ext; [exact Hid3|intros b; apply (idle_dsk f3 T2 D3 b Hid3)]| |done].
    intros j Hj. apply (absfile_ext dv start size sb); [apply Hid| |done]. intros b Hb. unfold kdisk at 1. cbn [k_fs set_fs].
    rewrite (idle_dsk f3 T2 D3 b Hid3). by apply HD. }
  eapply (wp_namex dv start size sb _ (curpid c) c f1 s T D); try done.
  - intros Hn c1 f2 T2 Hcc Hx2 Ht2 Hrf _. eapply (Hend c1 f2 T2 _ None); [done|exact Hx2|done|intros k; rewrite Hrf, decide_False by done; lia|].
    intros c' s' Hl. exists T2. rewrite Hn. done.
  - intros j e Hs c1 f2 T2 k name' Hcc Hx2 [Ht2 He2 Hrf _] Hnm. eapply (Hend c1 f2 T2 _ (Some j)); [done|exact Hx2|done| |].
    + intros k'. rewrite Hrf. f_equal. repeat case_decide; congruence.
    + intros c' s' Hl. exists T2. rewrite Hs. split; [done|]. exists k, name'. split_and!; [done|done|]. by intros [? _]%Hnm.
Qed.

Lemma in_op_map {A B} (g : A -> B) (m : M kst A) c s c' s' r :
  in_op m c s = Ret c' s' r -> in_op (x <- m ;; ret (g x)) c s = Ret c' s' (g r).
Proof.
  unfold in_op, bind. destruct (zoom klog_lens begin_op c s) as [c1 s1 []|?|????|]; try done. simpl.
  destruct (m c1 s1) as [c2 s2 r2|?|????|]; try done. simpl.
  destruct (zoom klog_lens end_op c2 s2) as [c3 s3 []|?|????|]; try done. simpl. unfold ret. congruence.
Qed.

Lemma name0_bytes : Forall byte name0.
Proof. apply Forall_replicate. unfold byte. lia. Qed.

(** C8: [namei] finds the inode that walking the path's elements through the directories on
    disk finds, and fails exactly when that walk does; it takes one reference to the result,
    gives back every other one, and changes no file. *)
Theorem namei_correct c s T path j0 :
  let D := kdisk s in
  fcpu c -> idle (k_fs s) T D -> tree_ok sb D -> table_room dv sb T D -> starts_at dv c s T path j0 -> inode_ok sb T D j0 ->
  Forall byte path ->
  exists c' s' r T', in_op (namei path) c s = Ret c' s' r /\
    match walk_path sb D false j0 (elements path) with
    | Some (j, _) => looked_up s T (Some j) c' s' T' /\ exists ip, r = Some ip /\ entry T' j ip
    | None => looked_up s T None c' s' T' /\ r = None
    end.
Proof.
  intros D Hc Hid Htr Hro Hst Hok Hbp.
  pose proof (wp_lookup c s T path false name0 j0 Hc Hid Htr Hro Hst Hok Hbp name0_bytes) as Hwp.
  apply wp_elim in Hwp as (c' & s' & r & Hrun & T' & Hpost). exists c', s', (fst <$> r), T'.
  split; [exact (in_op_map _ _ _ _ _ _ _ Hrun)|].
  destruct (walk_path _ _ _ _ _) as [[j e]|]; [|by destruct Hpost as [? ->]].
  destruct Hpost as (Hl & ip & name' & -> & He & _). split; [done|]. by exists ip.
Qed.

(** [nameiparent] finds the directory that holds the last element of the path, together
    with that element; it fails on a path with no element and when the walk to the directory
    fails. It takes one reference to the directory, gives back every other one, and changes no
    file. *)
Lemma nameiparent_correct c s T path j0 :
  let D := kdisk s in
  fcpu c -> idle (k_fs s) T D -> tree_ok sb D -> table_room dv sb T D -> starts_at dv c s T path j0 -> inode_ok sb T D j0 ->
  Forall byte path ->
  exists c' s' r T', in_op (nameiparent path) c s = Ret c' s' r /\
    match walk_path sb D true j0 (elements path) with
    | Some (j, e) => looked_up s T (Some j) c' s' T' /\
        exists ip name, r = Some (ip, name) /\ entry T' j ip /\ cstr DIRSIZ name = e
    | None => looked_up s T None c' s' T' /\ r = None
    end.
Proof.
  intros D Hc Hid Htr Hro Hst Hok Hbp.
  pose proof (wp_lookup c s T path true name0 j0 Hc Hid Htr Hro Hst Hok Hbp name0_bytes) as Hwp.
  apply wp_elim in Hwp as (c' & s' & r & Hrun & T' & Hpost). exists c', s', r, T'. split; [exact Hrun|].
  destruct (walk_path _ _ _ _ _) as [[j e]|]; [|done].
  destruct Hpost as (Hl & ip & name' & -> & He & Hn). split; [done|]. exists ip, name'. auto.
Qed.
End props.

(** * Witnesses *)

(** The example file system, mounted, with the file [f] open and the root as working directory. *)
Definition demo_itable (i : nat) : inode :=
  if Nat.eqb i 0 then mkinode 1 2 1 unlocked 0 0 0 0 0 0 (replicate 13 0)
  else if Nat.eqb i 1 then mkinode 1 1 1 unlocked 0 0 0 0 0 0 (replicate 13 0) else bss_inode.
Definition demo_proc : proc :=
  mkproc RUNNING None 0 0 1 None 0 8192 demo_root 0 (0, 0) (Some 0%nat :: replicate 15 None) (Some 1%nat) [] 0.
Definition demo_kst (m : kmem) (f : fsst) : kst :=
  mkkst m (fun _ => demo_proc) 2 (Some 0%nat) (mkfs (fs_sb f) demo_itable (fs_log f))
    (fun _ => mkfile FD_INODE 1 1 1 0 0%nat 5 0) (fun _ => mkdevsw None None) ∅ 0
    (mkcons (replicate 128 0) 0 0 0) (mkuart (replicate 32 0) 0 0 [] [] 0 (fun _ => 0%nat) [] 0) false.

Lemma demo_itab D : itab 1 img_sb demo_itable D None.
Proof.
  split; unfold demo_itable.
  - intros i _ Hr. destruct i as [|[|i]]; simpl in *; try lia.
  - intros i _ Hr Hv. by destruct i as [|[|i]].
  - intros i j _ _ Hi Hj He. destruct i as [|[|i]], j as [|[|j]]; simpl in *; try lia.
  - intros i. destruct i as [|[|i]]; simpl; lia.
  - intros i _. by destruct i as [|[|i]].
Qed.

Lemma img_logical b : logical 2 img b = img b.
Proof. apply logical_empty. vm_compute. done. Qed.
Lemma img_logical_fs : disk_fs img_sb (logical 2 img).
Proof. eapply (disk_fs_ext 1 2 30 img_sb); [apply img_fs|intros; apply img_logical]. Qed.

Lemma mount_recovers_witness : exists c' f D', mount 1 (mkcpu [] 1 0 [] 0 []) (fs_boot_state img) = Ret c' f tt /\
  mounted 1 2 30 img_sb img f D'.
Proof.
  exact (mount_recovers 1 2 30 img_sb img 1 0 [] img_sb_read eq_refl eq_refl eq_refl img_header img_logical_fs).
Defined.

Lemma demo_idle m : exists f, idle 1 2 30 img_sb (k_fs (demo_kst m f)) demo_itable (kdisk (demo_kst m f)) /\
  (forall b, sb_inodestart img_sb <= b -> kdisk (demo_kst m f) b = img b).
Proof.
  destruct (wp_elim (mount 1) (mkcpu [] 1 0 [] 0 []) (fs_boot_state img) (fun _ f _ => exists D', mounted 1 2 30 img_sb img f D'))
    as (c' & f & [] & _ & D' & [[Hq Hf Ht] Hr Hd Hw Hl]).
  { eapply wp_mono; [apply (wp_mount 1 2 30 img_sb img); [apply img_sb_read|done..|apply img_header|exact img_logical_fs]|]. by intros c' f [] (_ & ?). }
  exists f. assert (forall b, kdisk (demo_kst m f) b = D' b) as HD.
  { intros b. destruct Hq as [_ _ (V & Hx)]. apply (st_dsk _ _ _ _ _ _ (tx_bst _ _ _ _ _ _ _ _ Hx)). }
  split_and!.
  - apply (idle_ext 1 2 30 img_sb _ _ D'); [|exact HD]. split; [split; [apply Hq|done|apply Hq]|done|apply demo_itab].
  - intros b Hb. rewrite HD, Hd, img_logical by (by apply (quiet_home 1 2 30 img_sb)). done.
Qed.

Lemma demo_tree m f : (forall b, sb_inodestart img_sb <= b -> kdisk (demo_kst m f) b = img b) ->
  tree_ok img_sb (kdisk (demo_kst m f)).
Proof. intros He. by apply (tree_ok_ext 1 2 30 img_sb img); [apply img_tree|]. Qed.

Lemma demo_dnode m f j : (forall b, sb_inodestart img_sb <= b -> kdisk (demo_kst m f) b = img b) -> 0 <= j < 200 ->
  dnode img_sb (kdisk (demo_kst m f)) j = img_node j.
Proof. intros He Hj. rewrite (dnode_ext img_sb img _ j He Hj). by apply img_dnode. Qed.

Lemma demo_walk m f parent path r : (forall b, sb_inodestart img_sb <= b -> kdisk (demo_kst m f) b = img b) ->
  walk_path img_sb img parent 1 (elements path) = r -> walk_path img_sb (kdisk (demo_kst m f)) parent 1 (elements path) = r.
Proof. intros He <-. apply (walk_path_ext 1 2 30 img_sb); [apply img_tree|exact He|done]. Qed.

Lemma demo_room D : table_room 1 img_sb demo_itable D.
Proof.
  split; [apply demo_itab|vm_compute; lia|]. intros j. unfold irefs, contrib, NINODE. cbn -[Z.eqb Z.lt].
  destruct (2 =? j), (1 =? j), (0 =? j); by vm_compute.
Qed.

Lemma cpu0_fcpu : fcpu cpu0.
Proof. repeat split; intros; apply not_elem_of_nil. Qed.

Lemma filewrite_crash_safe_witness : exists m f c' s' r,
  filewrite 3 4090 10 cpu0 (demo_kst m f) = Ret c' s' r.
Proof.
  destruct demo_space as (m & l & N & us & Hu & (_ & _ & Hacc)%uok_weaken). destruct (demo_idle m) as (f & Hid & He).
  destruct (filewrite_crash_safe 1 2 30 img_sb cpu0 (demo_kst m f) demo_itable l N us 3 0 2 5 4090 10 1 0 [])
    as (c' & s' & r & _ & _ & _ & Hrun & _).
  - done.
  - done.
  - vm_compute. congruence.
  - apply cpu0_fcpu.
  - exact Hid.
  - split_and!; [vm_compute; lia|done|done].
  - by rewrite demo_dnode.
  - done.
  - done.
  - done.
  - done.
  - rewrite demo_dnode by done. simpl. lia.
  - vm_compute. congruence.
  - exact Hu.
  - done.
  - done.
  - exact Hacc.
  - exists m, f, c', s', r. exact Hrun.
Defined.

Lemma demo_lookup m f path j0 : (forall b, sb_inodestart img_sb <= b -> kdisk (demo_kst m f) b = img b) ->
  j0 = 1 -> starts_at 1 cpu0 (demo_kst m f) demo_itable path j0 /\ inode_ok img_sb demo_itable (kdisk (demo_kst m f)) j0.
Proof.
  intros He ->. split.
  - unfold starts_at. destruct (_ =? slash); [done|]. exists 1%nat. split; [done|]. split_and!; [vm_compute; lia|done|done].
  - split; [done|]. rewrite demo_dnode by done. split; [done|by left].
Qed.

(** [f//], from the root. *)
Lemma namei_correct_witness : exists m f c' s' r,
  in_op (namei [102; 47; 47; 0]) cpu0 (demo_kst m f) = Ret c' s' (Some r) /\ i_inum (fs_itable (k_fs s') r) = 2.
Proof.
  destruct (demo_idle demo_kmem) as (f & Hid & He). pose proof (demo_tree _ _ He) as Htr.
  destruct (demo_lookup demo_kmem f [102; 47; 47; 0] 1 He eq_refl) as [Hst Hok].
  destruct (namei_correct 1 2 30 img_sb cpu0 (demo_kst demo_kmem f) demo_itable [102; 47; 47; 0] 1)
    as (c' & s' & r & T' & Hrun & Hpost).
  - apply cpu0_fcpu.
  - exact Hid.
  - exact Htr.
  - apply demo_room.
  - exact Hst.
  - exact Hok.
  - apply bytes_check; vm_compute; done.
  - rewrite (demo_walk demo_kmem f false [102; 47; 47; 0] (Some (2, [])) He ltac:(vm_compute; reflexivity)) in Hpost.
    destruct Hpost as (Hl & ip & -> & (_ & _ & Hi)). exists demo_kmem, f, c', s', ip. split; [exact Hrun|].
    destruct Hl as [[[_ Ht _] _ _] _ _]. by rewrite Ht.
Defined.

(** [/f/x] has no parent directory, [/g] has. *)
Lemma nameiparent_correct_witness : exists m f c' s' c2 s2 r,
  in_op (nameiparent [47; 102; 47; 120; 0]) cpu0 (demo_kst m f) = Ret c' s' None /\
  in_op (nameiparent [47; 103; 0]) cpu0 (demo_kst m f) = Ret c2 s2 (Some r) /\ cstr DIRSIZ r.2 = [103].
Proof.
  destruct (demo_idle demo_kmem) as (f & Hid & He). pose proof (demo_tree _ _ He) as Htr.
  exists demo_kmem, f.
  destruct (demo_lookup demo_kmem f [47; 102; 47; 120; 0] 1 He eq_refl) as [Hst Hok].
  destruct (demo_lookup demo_kmem f [47; 103; 0] 1 He eq_refl) as [Hst' _].
  destruct (nameiparent_correct 1 2 30 img_sb cpu0 (demo_kst demo_kmem f) demo_itable [47; 102; 47; 120; 0] 1
    cpu0_fcpu Hid Htr (demo_room _) Hst Hok (bytes_check [47; 102; 47; 120; 0] eq_refl)) as (c' & s' & r & T' & Hrun & Hpost).
  destruct (nameiparent_correct 1 2 30 img_sb cpu0 (demo_kst demo_kmem f) demo_itable [47; 103; 0] 1
    cpu0_fcpu Hid Htr (demo_room _) Hst' Hok (bytes_check [47; 103; 0] eq_refl)) as (c2 & s2 & r2 & T2 & Hrun2 & Hpost2).
  rewrite (demo_walk demo_kmem f true [47; 102; 47; 120; 0] None He ltac:(vm_compute; reflexivity)) in Hpost.
  rewrite (demo_walk demo_kmem f true [47; 103; 0] (Some (1, [103])) He ltac:(vm_compute; reflexivity)) in Hpost2.
  destruct Hpost as [_ ->]. destruct Hpost2 as (_ & ip & name & -> & _ & Hn).
  exists c', s', c2, s2, (ip, name). split_and!; [exact Hrun|exact Hrun2|exact Hn].
Defined.
