(* ===== verification/FsLink.v ===== *)
(** Names for files: [dirlink] adds an entry to a directory, and [sys_link] gives a file one more
    name, atomically. *)
From S2P Require Import Prelude Memory Riscv Kalloc Vm VmTree VmMap VmUser VmCopy VmProps UserMem Sleeplock Bio BioInv BioSpec Log LogPure LogSpec LogTxn LogProps Fs FsTxn FsDisk FsAlloc FsGrow FsInode FsTable State Process FsFile FsPath FsIo FsDir Uart Console Pipe File ProcLife Exec Syscall FsSys FsAbs FsNames FsMount FsProps.

#[local] Arguments loop : simpl never.

Section dirlink.
Context (dv start size : Z) (sb : superblock) (K : fconst) `{G : !FsGeo dv start size sb}.
Abbreviation ftx := (ftx dv start size sb K).
Abbreviation fsok := (fsok sb).
Abbreviation dnode := (dnode sb).
Abbreviation absfile := (absfile sb).
Abbreviation disk_fs := (disk_fs sb).
Abbreviation itab := (itab dv sb).

(** The table after a change of an inode that is stored on disk as well. *)
Lemma itab_store T T' V V' lk ip inum : itab T V lk -> entry T inum ip -> (forall i, i <> ip -> T' i = T i) ->
  (forall j, 0 <= j < sb_ninodes sb -> j <> inum -> dnode V' j = dnode V j) ->
  i_dev (T' ip) = i_dev (T ip) -> i_inum (T' ip) = inum -> i_ref (T' ip) = i_ref (T ip) -> core (T' ip) = dnode V' inum ->
  i_lock (T' ip) = i_lock (T ip) -> itab T' V' lk.
Proof.
  intros [H1 H2 H3 H4 H5] (Hip & Hpos & Hin) Hne Hdn Hd Hi Hr Hco Hl.
  assert (forall k, i_dev (T' k) = i_dev (T k) /\ i_inum (T' k) = i_inum (T k) /\ i_ref (T' k) = i_ref (T k) /\ i_lock (T' k) = i_lock (T k)) as Hall.
  { intros k. destruct (decide (k = ip)) as [->|Hk]; [split_and!; congruence|]. by rewrite Hne. }
  split.
  - intros i Hi' Hp. destruct (Hall i) as (-> & -> & E & _). rewrite E in Hp. auto.
  - intros i Hi' Hp Hv. destruct (decide (i = ip)) as [->|Hk]; [by rewrite Hi|]. rewrite Hne in * by done. rewrite Hdn; auto.
    + by apply H1.
    + intros E. destruct Hk. apply H3; try done. congruence.
  - intros i j Hi' Hj' Hpi Hpj E. destruct (Hall i) as (_ & Ei & Ri & _), (Hall j) as (_ & Ej & Rj & _). rewrite Ei, Ej in E. rewrite Ri in Hpi. rewrite Rj in Hpj. auto.
  - intros i. destruct (Hall i) as (_ & _ & -> & _). auto.
  - intros i Hi'. destruct (Hall i) as (_ & _ & _ & ->). auto.
Qed.

(** Entries that are not in use do not matter. *)
Lemma itab_unused T T' V lk : itab T V lk -> (forall i, 0 < i_ref (T i) -> T' i = T i) -> (forall i, i_ref (T' i) = i_ref (T i) /\ i_lock (T' i) = i_lock (T i)) -> itab T' V lk.
Proof.
  intros [H1 H2 H3 H4 H5] Hs Hr. split.
  - intros i Hi Hp. rewrite (proj1 (Hr i)) in Hp. rewrite Hs by done. auto.
  - intros i Hi Hp Hv. rewrite (proj1 (Hr i)) in Hp. rewrite Hs in * by done. auto.
  - intros i j Hi Hj Hpi Hpj. rewrite (proj1 (Hr i)) in Hpi. rewrite (proj1 (Hr j)) in Hpj. rewrite !Hs by done. auto.
  - intros i. rewrite (proj1 (Hr i)). auto.
  - intros i Hi. rewrite (proj2 (Hr i)). auto.
Qed.

(** ** Link counts *)

(** The files after the link count of [inum] has changed by [d]. *)
Definition relinked (V V' : Z -> block) (inum d : Z) : Prop :=
  forall k, 0 <= k < sb_ninodes sb -> absfile V' k = if decide (k = inum) then add_links d (absfile V inum) else absfile V k.

(** Storing an inode whose contents stay. *)
Lemma stored_meta V x y : disk_fs V -> 0 <= i_inum x < sb_ninodes sb -> core x = dnode V (i_inum x) -> i_inum y = i_inum x -> i_addrs y = i_addrs x -> i_size y = i_size x -> dino_ok (core y) ->
  let V' := stored sb V y in
  disk_fs V' /\ (forall k, 0 <= k < sb_ninodes sb -> dnode V' k = if decide (k = i_inum x) then core y else dnode V k) /\
  forall k, 0 <= k < sb_ninodes sb -> absfile V' k = if decide (k = i_inum x) then mkafile (i_type y) (i_major y) (i_minor y) (i_nlink y) (af_data (absfile V k)) else absfile V k.
Proof.
  intros Hok Hi Hco Hyi Hya Hys Hdy V'.
  assert (forall k, 0 <= k < sb_ninodes sb -> dnode V' k = if decide (k = i_inum x) then core y else dnode V k) as Hdn by (intros k Hk; rewrite <- Hyi in *; apply (dnode_stored dv start size sb V y k); [apply Hok|done..]).
  destruct (stored_ok dv start size sb (dnode V) V y Hok ltac:(by rewrite Hyi)) as [Hok' Hby]. fold V' in Hok', Hby.
  assert (d_addrs (core y) = d_addrs (dnode V (i_inum x)) /\ d_size (core y) = d_size (dnode V (i_inum x))) as [Ea Es] by (rewrite <- Hco; cbn; by rewrite Hya, Hys).
  split_and!; [|done|].
  - eapply (fsok_ext_node sb (fset (dnode V) (i_inum x) (core y))).
    + apply fsok_node; [done|done|done|done| |].
      * rewrite Es. by apply (ok_size _ _ _ Hok).
      * intros bn Hbn. rewrite Ea, Es. by apply (ok_holes _ _ _ Hok' (i_inum x) bn Hi Hbn).
    + intros k Hk. rewrite Hdn by done. unfold fset. destruct (Z.eqb_spec k (i_inum x)); case_decide; done.
  - intros k Hk. unfold FsSys.absfile. rewrite Hdn by done.
    assert (fbytes V' (if decide (k = i_inum x) then core y else dnode V k) = fbytes V (dnode V k)) as Hb.
    { pose proof (ok_size _ _ _ Hok k Hk). assert (d_size (if decide (k = i_inum x) then core y else dnode V k) = d_size (dnode V k) /\ d_addrs (if decide (k = i_inum x) then core y else dnode V k) = d_addrs (dnode V k)) as [E1 E2] by (case_decide; by subst).
      unfold fbytes. rewrite E1, E2. apply list_fmap_ext. intros i p [-> Hp]%lookup_seq. apply Hby; [done|lia]. }
    rewrite Hb. by case_decide.
Qed.

Lemma stored_relinked V x d : disk_fs V -> 0 <= i_inum x < sb_ninodes sb -> core x = dnode V (i_inum x) -> -32768 <= i_nlink x + d < 32768 ->
  let V' := stored sb V (set_nlink (i_nlink x + d) x) in
  disk_fs V' /\ dnode V' (i_inum x) = core (set_nlink (i_nlink x + d) x) /\ (forall k, 0 <= k < sb_ninodes sb -> k <> i_inum x -> dnode V' k = dnode V k) /\ relinked V V' (i_inum x) d.
Proof.
  intros Hok Hi Hco Hn V'. pose proof (ok_node _ _ _ Hok _ Hi) as Hd. rewrite <- Hco in Hd.
  destruct (stored_meta V x (set_nlink (i_nlink x + d) x) Hok Hi Hco eq_refl eq_refl eq_refl) as (H1 & H2 & H3).
  { destruct Hd as (D1 & D2 & D3 & D4 & D5 & D6 & D7). cbn in *. split_and!; cbn; try done; lia. }
  split_and!; [done|by rewrite H2, decide_True|intros k Hk Hne; by rewrite H2, decide_False|].
  intros k Hk. rewrite H3 by done. case_decide; [|done]. subst k. unfold add_links. cbn [af_type af_major af_minor af_nlink af_data FsSys.absfile]. by rewrite <- Hco.
Qed.

Lemma wp_nlink {B} pid c f s T V D F ip inum d (kont : M kst B) (Q : cpu -> kst -> B -> Prop) :
  fcpu c -> curpid c = pid -> ftx pid f T V D F [] [] -> disk_fs V -> itab T V (Some ip) -> entry T inum ip -> core (T ip) = dnode V inum -> IBLOCK inum sb ∈ F ->
  -32768 <= i_nlink (T ip) + d < 32768 ->
  (forall c' f' T' V', same_cpu c c' -> ftx pid f' T' V' D F [] [] -> disk_fs V' -> itab T' V' (Some ip) -> T' ip = set_nlink (i_nlink (T ip) + d) (T ip) -> (forall i, i <> ip -> T' i = T i) ->
     dnode V' inum = core (T' ip) -> (forall k, 0 <= k < sb_ninodes sb -> k <> inum -> dnode V' k = dnode V k) -> (forall b, sb_bmapstart sb <= b -> V' b = V b) -> relinked V V' inum d -> wp kont c' (set_fs f' s) Q) ->
  wp (zoom fs_lens (upd_inode ip (fun x => set_nlink (s16 (i_nlink x + d)) x)) ;; zoom fs_lens (iupdate ip) ;; kont) c (set_fs f s) Q.
Proof.
  intros Hc Hp Hx Hok Ht He Hco HF Hn HQ. pose proof He as (Hi & Hr & Hin). destruct (it_dev _ _ _ _ _ Ht ip Hi Hr) as [Hd Hrg]. rewrite <- Hin in Hco.
  wp_step. apply wp_fs. eapply (wp_upd_inode dv start size sb K); [exact Hx|]. intros f1 Hx1. set (T1 := upd_itable ip _ T) in *.
  assert (T1 ip = set_nlink (i_nlink (T ip) + d) (T ip)) as HT1 by (unfold T1; rewrite upd_itable_eq, s16_small by done; done).
  assert (forall i, i <> ip -> T1 i = T i) as Hne1 by (intros i Hni; by apply upd_itable_ne).
  destruct (stored_relinked V (T ip) d Hok Hrg Hco Hn) as (R1 & R2 & R3 & R4). rewrite <- HT1, Hin in *.
  wp_step. apply wp_fs. eapply (wp_iupdate dv start size sb K); [apply Hc|done|exact Hx1|by rewrite HT1|by rewrite HT1; cbn; rewrite Hin|by rewrite HT1; cbn; rewrite Hin|].
  intros c2 f2 Hcc Hx2. assert (forall b, sb_bmapstart sb <= b -> stored sb V (T1 ip) b = V b) as Hbm.
  { intros b Hb. apply stored_other. destruct (IBLOCK_val sb _ Hrg) as [_ HB]. rewrite HT1. cbn. rewrite ?Hin. lia. }
  eapply (HQ c2 f2 T1 _ Hcc Hx2); try done. eapply (itab_store T T1 V _ (Some ip) ip inum); try done; rewrite HT1; done.
Qed.

(** ** The free place in a directory *)

Lemma wp_free_entry pid c f s T V D F dp jd (Q : cpu -> kst -> Z -> Prop) :
  fcpu c -> curpid c = pid -> ftx pid f T V D F [] [] -> tree_ok sb V -> 0 <= jd < sb_ninodes sb -> i_dev (T dp) = dv -> core (T dp) = dnode V jd -> d_type (dnode V jd) = T_DIR ->
  (forall c' f', same_cpu c c' -> ftx pid f' T V D F [] [] -> Q c' (set_fs f' s) (16 * Z.of_nat (free_slot (dents V (dnode V jd))))) ->
  wp (loop (S (Z.to_nat (i_size (T dp) / DIRENT + 1))) (fun off =>
        x <- zoom fs_lens (get_inode dp) ;;
        if off <? i_size x then
          r <- readi dp DKern off DIRENT ;;
          let '(n, de) := r in
          if negb (n =? DIRENT) then panic "dirlink read" else
          if de_inum de =? 0 then ret (inr off) else ret (inl (off + DIRENT))
        else ret (inr off)) 0) c (set_fs f s) Q.
Proof.
  intros Hc Hp Hx Htr Hi Hd Hn Hty HQ. destruct (tr_dirs _ _ Htr jd Hi Hty) as [Hmod _].
  pose proof (ok_node _ _ _ (tr_fs _ _ Htr) jd Hi) as (_ & _ & _ & _ & Hsz & _). pose proof (ok_size _ _ _ (tr_fs _ _ Htr) jd Hi) as Hmax.
  change (MAXFILE * BSIZE) with 274432 in Hmax. assert (i_size (T dp) = d_size (dnode V jd)) as Hse by (by rewrite <- Hn). assert (i_addrs (T dp) = d_addrs (dnode V jd)) as Hae by (by rewrite <- Hn).
  set (n := dnode V jd) in *. set (l := dents V n) in *. change DIRENT with 16. rewrite Hse.
  assert (length l = Z.to_nat (d_size n / 16)) as Hll by apply length_dents.
  assert (forall i, (i <= length l)%nat -> (forall k e, (k < i)%nat -> l !! k = Some e -> e.1 <> 0) -> (forall e, l !! i = Some e -> e.1 = 0) -> free_slot l = i) as Hfs.
  { intros i Hi' Hno Hat. unfold free_slot. destruct (l !! i) as [e|] eqn:E.
    - assert (list_find (fun e => e.1 = 0) l = Some (i, e)) as ->; [|done]. apply list_find_Some. split_and!; [done|by apply Hat|]. intros k y Hk Hlt. eapply Hno; [exact Hlt|done].
    - apply lookup_ge_None in E. assert (list_find (fun e : Z * list Z => e.1 = 0) l = None) as ->; [|cbn; lia]. apply list_find_None, Forall_lookup. intros k y Hk. eapply Hno; [|exact Hk]. apply lookup_lt_Some in Hk. lia. }
  eapply (wp_loop (fun off c' s' => exists i f', off = 16 * Z.of_nat i /\ (i <= length l)%nat /\ same_cpu c c' /\
    s' = set_fs f' s /\ ftx pid f' T V D F [] [] /\ forall k e, (k < i)%nat -> l !! k = Some e -> e.1 <> 0)
    (fun off => Z.to_nat (d_size n / 16 + 1 - off / 16))); [|rewrite Z.div_0_l; lia|].
  2: { exists 0%nat, f. split_and!; try done; lia. }
  intros off c1 s1 (i & f1 & -> & Hle & Hcc & -> & Hx1 & Hno). assert (fcpu c1) as Hc1 by (by eapply same_fcpu). assert (curpid c1 = pid) as Hp1 by (by eapply same_pid).
  wp_step. apply wp_fs. eapply (wp_get_inode dv start size sb K); [exact Hx1|]. rewrite Hse. destruct (Z.ltb_spec (16 * Z.of_nat i) (d_size n)) as [Hlt|Hge].
  2: { wp_step. assert (i = length l) as -> by dlia. rewrite <- (Hfs (length l)); [by apply HQ|done|done|]. intros e He%lookup_lt_Some. lia. }
  assert (i < Z.to_nat (d_size n / 16))%nat as Hi' by dlia.
  wp_step. eapply (wp_readi dv start size sb K); [apply Hc1|done|exact Hx1|apply Htr|symmetry; exact Hn|done|done|lia|lia|].
  intros c2 f2 Hcc2 Hx2. assert (read_len (i_size (T dp)) (16 * Z.of_nat i) 16 = 16) as ->.
  { unfold read_len. rewrite Hse. rewrite Z.gtb_ltb, (proj2 (Z.ltb_ge _ _)) by lia. rewrite Z.geb_leb, (proj2 (Z.leb_gt _ _)) by lia.
    cbn [orb]. assert (d_size n - 16 * Z.of_nat i >= 16) by dlia. lia. }
  rewrite Hae. change (Z.to_nat 16) with 16%nat. change (fslice V (d_addrs n) (16 * Z.of_nat i) 16) with (dent V n i). cbn [Z.eqb negb Pos.eqb].
  pose proof (dents_lookup V n i Hi') as Hlk. fold l in Hlk. assert (same_cpu c c2) as Hcc02 by (by eapply same_cpu_trans). destruct (Z.eqb_spec (de_inum (dent V n i)) 0) as [H0|H0]; wp_step.
  - rewrite <- (Hfs i); [by apply HQ|lia|done|]. intros e He. rewrite Hlk in He. injection He as <-. done.
  - split; [|dlia]. exists (S i), f2. split_and!; try done; try lia. intros k e Hk He. destruct (decide (k = i)) as [->|]; [rewrite Hlk in He; by injection He as <-|]. apply (Hno k); [lia|done].
Qed.

(** ** dirlink *)

(** What a transaction may log to add a name to directory [jd], at [dp] of the table. *)
Record may_grow (F : list Z) (T : nat -> inode) (dp : nat) (jd : Z) : Prop := {
  mg_inode : IBLOCK jd sb ∈ F;
  mg_bitmap : bitmap_in sb F;
  mg_ind : addr_at (T dp) NDIRECT <> 0 -> addr_at (T dp) NDIRECT ∈ F;
  mg_room : Z.of_nat (length F) + 3 <= size - 2;
}.

(** Why there is no place for a name: no block is free, or the directory has its largest size. *)
Definition no_place (V : Z -> block) (x : afile) : Prop :=
  (forall b, 0 <= b < sb_size sb -> used sb V b) \/ MAXFILE * BSIZE < 16 * Z.of_nat (free_slot (data_ents (af_data x))) + 16.
(** What adding the name [e] for inode [j] does to the files; [r] says whether it succeeded. *)
Definition named (V V' : Z -> block) (jd j : Z) (e : list Z) (r : Z) : Prop :=
  (r = 0 /\ absfile V' jd = add_name j e (absfile V jd) \/ r = -1 /\ absfile V' jd = absfile V jd /\ no_place V' (absfile V jd)) /\
  forall k, 0 <= k < sb_ninodes sb -> k <> jd -> absfile V' k = absfile V k.

Lemma touched_entry i : 0 <= i -> touched (16 * i) 16 = 1.
Proof. intros Hi. unfold touched. change BSIZE with 1024. change (16 =? 0) with false. cbv iota. dlia. Qed.

Lemma wp_dirlink pid c f s T V D F dp jd name j (Q : cpu -> kst -> Z -> Prop) :
  let e := cstr DIRSIZ name in
  fcpu c -> curpid c = pid -> ftx pid f T V D F [] [] -> tree_ok sb V -> itab T V (Some dp) -> has_room T -> entry T jd dp -> core (T dp) = dnode V jd -> d_type (dnode V jd) = T_DIR ->
  Forall byte name -> 0 <= j < 65536 -> may_grow F T dp jd ->
  (forall c' f' T', same_cpu c c' -> dir_find V (dnode V jd) e <> None -> ftx pid f' T' V D F [] [] -> itab T' V (Some dp) ->
     (forall i, 0 < i_ref (T i) -> T' i = T i) -> (forall i, i_ref (T' i) = i_ref (T i)) -> Q c' (set_fs f' s) (-1)) ->
  (forall c' f' T' V' F' r, same_cpu c c' -> dir_find V (dnode V jd) e = None -> ftx pid f' T' V' D F' [] [] -> disk_fs V' -> itab T' V' (Some dp) ->
     (exists l sz, T' dp = set_size sz (set_addrs l (T dp))) -> (forall i, i <> dp -> T' i = T i) -> dnode V' jd = core (T' dp) -> (forall k, 0 <= k < sb_ninodes sb -> k <> jd -> dnode V' k = dnode V k) ->
     F ⊆ F' -> Z.of_nat (length F') <= Z.of_nat (length F) + 3 -> named V V' jd j e r -> Q c' (set_fs f' s) r) ->
  wp (dirlink dp name j) c (set_fs f s) Q.
Proof.
  intros e Hc Hp Hx Htr Ht Hroom He Hco Hty Hby Hj [G1 G2 G3 G4] HQ1 HQ2. pose proof He as (Hdp & Hpos & Hin). destruct (it_dev _ _ _ _ _ Ht dp Hdp Hpos) as [Hdev Hrg]. rewrite Hin in Hrg.
  pose proof (tr_fs _ _ Htr) as Hok. unfold dirlink. wp_step. eapply (wp_dirlookup dv start size sb K pid c f s T V D F dp jd name (Some dp)); try done.
  - intros c1 f1 Hcc1 Hx1 Hnone. assert (fcpu c1) as Hc1 by (by eapply same_fcpu). assert (curpid c1 = pid) as Hp1 by (by eapply same_pid).
    wp_step. apply wp_fs. eapply (wp_get_inode dv start size sb K); [exact Hx1|]. wp_step. eapply (wp_free_entry pid c1 f1 s T V D F dp jd); try done.
    intros c2 f2 Hcc2 Hx2. assert (fcpu c2) as Hc2 by (by eapply same_fcpu). assert (curpid c2 = pid) as Hp2 by (by eapply same_pid). assert (same_cpu c c2) as Hcc02 by (by eapply same_cpu_trans).
    set (sl := free_slot (dents V (dnode V jd))). pose proof (free_slot_le (dents V (dnode V jd))) as Hsl. fold sl in Hsl. rewrite length_dents in Hsl.
    destruct (tr_dirs _ _ Htr jd Hrg Hty) as [Hmod _]. pose proof (size_nonneg sb V jd Hok Hrg) as H0. pose proof (ok_size _ _ _ Hok jd Hrg) as Hmax. change (MAXFILE * BSIZE) with 274432 in Hmax.
    assert (i_size (T dp) = d_size (dnode V jd)) as Hse by (by rewrite <- Hco).
    assert (mkdirent j (strncpy_l name DIRSIZ) = mkdirent j (pad_name e)) as -> by (by rewrite strncpy_cstr).
    assert (Z.of_nat (length (mkdirent j (pad_name e))) = 16) as Hlen by (unfold mkdirent; cbn [length]; rewrite length_pad by apply cstr_length; done).
    change DIRENT with 16. wp_step. destruct (decide (16 * Z.of_nat sl + 16 <= 274432)) as [Hfit|Hbig].
    + eapply (wp_writei dv start size sb K pid c2 f2 s T V D F (dnode V) dp jd _ (mkdirent j (pad_name e))); try done.
      * apply Hc2.
      * rewrite Hse. dlia.
      * rewrite touched_entry by lia. lia.
      * intros c3 f3 T3 V3 F3 I3 r Hcc3 Hop HF HF' Hw. rewrite touched_entry in HF' by lia. destruct Hop as [Hx3 Hok3 Hn3 _ [Hd3 Hi3] _ _].
        pose proof (wo_r _ _ _ _ _ _ _ _ _ _ _ _ _ Hw) as [Hr Hfull]. pose proof (wo_whole _ _ _ _ _ _ _ _ _ _ _ _ _ Hw) as Hwh. change BSIZE with 1024 in Hwh.
        assert (r = 0 \/ r = 16) as Hrr by dlia.
        pose proof (wrote_abs dv start size sb T V dp jd (16 * Z.of_nat sl) 16 r (mkdirent j (pad_name e)) T3 V3 V3 I3 Hw Hok Hok3 Hn3 Hco Hrg ltac:(dlia) Hfit Hlen ltac:(done)) as (R1 & R2 & R3 & R4 & R5 & R6).
        destruct (wo_node _ _ _ _ _ _ _ _ _ _ _ _ _ Hw) as [l Hl].
        assert (itab T3 V3 (Some dp)) as Ht3. { eapply (itab_store T T3 V V3 (Some dp) dp jd); try done; [by apply Hw|intros k Hk Hne; by apply R3|by rewrite Hl..]. }
        assert (forall r', (r' = 0 /\ r = 16) \/ (r' = -1 /\ r = 0) -> Q c3 (set_fs f3 s) r') as Hfin; [|destruct Hrr as [-> | ->]; cbn [Z.eqb negb Pos.eqb]; wp_step; apply Hfin; auto].
        intros r' Hr'. eapply (HQ2 c3 f3 T3 V3 F3); try done; [by eapply same_cpu_trans|by eauto|by apply Hw|intros k Hk Hne; by apply R3|].
        split; [|intros k Hk Hne; by apply R3]. destruct Hr' as [[-> ->]|[-> ->]]; [left|right]; (split; [done|]); [|split; [|left; apply Hfull; lia]]; rewrite R4; unfold write_at.
        -- rewrite take_ge by lia. unfold add_name, write_at. cbn [af_type af_major af_minor af_nlink af_data FsSys.absfile]. rewrite <- dents_abs by done. fold sl. do 2 f_equal. lia.
        -- assert (take (Z.to_nat 0) (mkdirent j (pad_name e)) = []) as -> by done. unfold splice. rewrite app_nil_l, Nat.add_0_r, take_drop. by destruct (FsSys.absfile sb V jd).
    + eapply (wp_writei_fail dv start size sb K pid c2 f2 s T V D F dp); [exact Hx2|dlia|lia|rewrite Hse; exact Hmax|right; change (MAXFILE * BSIZE) with 274432; lia|].
      cbn [Z.eqb negb]. wp_step. eapply (HQ2 c2 f2 T V F (-1)); try done; [by exists (i_addrs (T dp)), (i_size (T dp)); rewrite set_addrs_id, set_size_id|lia|]. split; [right; split_and!; [done..|]|done].
      right. cbn [af_data FsSys.absfile]. rewrite <- dents_abs by done. fold sl. change (MAXFILE * BSIZE) with 274432. lia.
  - intros c1 f1 i x k Hcc1 Hfind Hx1 Hk. assert (fcpu c1) as Hc1 by (by eapply same_fcpu). wp_step. apply wp_fs.
    set (T1 := upd_itable k (got dv T x.1 k) T) in *. assert (T1 k = got dv T x.1 k (T k)) as HT1 by (unfold T1; by rewrite upd_itable_eq).
    eapply (wp_iput_keep dv start size sb K); [done|exact Hx1| |].
    { rewrite HT1. unfold got. destruct Hk as [(_ & ? & _)|(_ & E & _)]; [rewrite decide_True by done; left; cbn; lia|rewrite decide_False by lia; right; left; done]. }
    intros f2 Hx2. wp_step. set (T2 := upd_itable k (set_ref (i_ref (T1 k) - 1)) T1) in *.
    assert (forall m, m <> k -> T2 m = T m) as Hne by (intros m Hm; unfold T2, T1; by rewrite !upd_itable_ne).
    assert (T2 k = set_ref (i_ref (T1 k) - 1) (T1 k)) as HT2 by (unfold T2; by rewrite upd_itable_eq).
    assert (forall m, 0 < i_ref (T m) -> T2 m = T m) as Hused.
    { intros m Hm. destruct (decide (m = k)) as [->|Hmk]; [|by apply Hne]. rewrite HT2, HT1. unfold got. rewrite decide_True by done. unfold set_ref. destruct (T k). cbn. f_equal. lia. }
    assert (forall m, i_ref (T2 m) = i_ref (T m) /\ i_lock (T2 m) = i_lock (T m)) as Hsame.
    { intros m. destruct (decide (m = k)) as [->|Hmk]; [|by rewrite Hne]. rewrite HT2, HT1. unfold got. case_decide; cbn; [split; [lia|done]|]. pose proof (it_ref _ _ _ _ _ Ht k). split; [lia|done]. }
    eapply (HQ1 c1 f2 T2); [done|unfold e; by rewrite Hfind|exact Hx2|by eapply itab_unused|done|by intros m; apply Hsame].
Qed.
End dirlink.

(** * The system call *)

Section call.
Context (dv start size : Z) (sb : superblock) `{G : !FsGeo dv start size sb}.
Abbreviation ftx := (ftx dv start size sb).
Abbreviation dnode := (dnode sb).
Abbreviation absfile := (absfile sb).
Abbreviation disk_fs := (disk_fs sb).
Abbreviation itab := (itab dv sb).
Abbreviation idle := (idle dv start size sb).
Abbreviation one_more := (one_more dv sb).

(** The constants of the transaction that begins in [f]. *)
Definition one_op (f : fsst) : fconst := mkfconst 1 (dwrites (lbio (fs_log f))).

(** A system call that is one transaction, from the disk [D] to [D'], has ended with the same references. *)
Record call_done (c : cpu) (f : fsst) (s : kst) (T : nat -> inode) (D : Z -> block) (c' : cpu) (s' : kst) (D' : Z -> block) : Prop := {
  cd_cpu : same_cpu c c';
  cd_disk : D' = kdisk s';
  cd_state : exists f' T' W, s' = set_fs f' s /\ idle f' T' D' /\ (forall k, irefs T' k = irefs T k) /\ keeps T T' /\
    dwrites (lbio (fs_log f')) = reverse W ++ dwrites (lbio (fs_log f)) /\ crash_step start size D W D';
}.

Lemma wp_call_end {B} c f s T D c1 f1 T1 V F (r : B) (Q : cpu -> kst -> B -> Prop) :
  fcpu c -> same_cpu c c1 -> ftx (one_op f) (curpid c) f1 T1 V D F [] [] -> disk_fs V -> itab T1 V None -> (forall k, irefs T1 k = irefs T k) -> keeps T T1 ->
  (forall c' s' D', call_done c f s T D c' s' D' -> (forall b, sb_inodestart sb <= b -> D' b = V b) -> Q c' s' r) ->
  wp (zoom klog_lens end_op ;; ret r) c1 (set_fs f1 s) Q.
Proof.
  intros Hc Hcc Hx Hok Ht Hr Hk HQ. wp_step. eapply (wp_kend dv start size sb (curpid c)); [eapply same_lcpu; [exact Hcc|apply Hc]|exact Hx|].
  intros c2 f2 D' W Hcc2 Hq Hw Hcr HD. wp_step.
  assert (idle f2 T1 D') as Hid by (split; [done|by eapply (disk_fs_ext dv start size sb V)|by eapply (itab_ext dv start size sb T1 V)]).
  assert (forall b, kdisk (set_fs f2 s) b = D' b) as HD2 by (intros b; by apply (idle_dsk dv start size sb f2 T1)).
  apply (HQ c2 (set_fs f2 s) (kdisk (set_fs f2 s))); [|intros b Hb; rewrite HD2; by apply HD]. split; [by eapply same_cpu_trans|done|]. exists f2, T1, W. split_and!; try done.
  - by eapply (idle_ext dv start size sb).
  - destruct Hcr as [H1 H2]. split; [intros b; by rewrite H1, HD2|]. intros k. destruct (H2 k) as [H3 [H4|H4]]; (split; [done|]); [by left|right]. intros b Hb. by rewrite H4, HD2.
Qed.

(** ** References *)

(** The entries in use have the same inodes and counts. *)
Definition same_refs (T T' : nat -> inode) : Prop := forall i, i_ref (T' i) = i_ref (T i) /\ (0 < i_ref (T i) -> i_inum (T' i) = i_inum (T i)).

Lemma same_refs_trans T1 T2 T3 : same_refs T1 T2 -> same_refs T2 T3 -> same_refs T1 T3.
Proof. intros H1 H2 i. destruct (H1 i) as [E1 F1], (H2 i) as [E2 F2]. split; [congruence|]. intros Hp. rewrite F2, F1 by (rewrite ?E1; done). done. Qed.
Lemma same_refs_keeps T0 T T' : keeps T0 T -> same_refs T T' -> keeps T0 T'.
Proof. intros Hk Hs i j (Hi & Hr & Hj)%Hk. destruct (Hs i) as [E1 E2]. split_and!; [done|by rewrite E1|by rewrite E2]. Qed.
Lemma same_refs_irefs T T' V lk k : itab T V lk -> same_refs T T' -> irefs T' k = irefs T k.
Proof.
  intros Ht Hs. unfold irefs. f_equal. apply list_fmap_ext. intros _ i _. unfold contrib. destruct (Hs i) as [E1 E2]. rewrite E1. pose proof (it_ref _ _ _ _ _ Ht i).
  destruct (decide (0 < i_ref (T i))); [by rewrite E2|]. replace (i_ref (T i)) with 0 by lia. by repeat case_match.
Qed.
Lemma one_more_same T0 T T' V V' j ip : one_more T0 T V j ip -> itab T' V' None -> same_refs T T' -> one_more T0 T' V' j ip.
Proof.
  intros [Ht He Hr Hk] Ht' Hs. split; [done| |intros k; by rewrite (same_refs_irefs T T' V None k Ht Hs)|by eapply same_refs_keeps].
  destruct He as (Hi & Hp & E), (Hs ip) as [E1 E2]. unfold entry. by rewrite E1, E2.
Qed.
(** A reference that is taken and given back. *)
Lemma one_more_keeps T0 T T' V V' j ip : one_more T0 T V j ip -> itab T' V' None -> (forall k, irefs T' k = irefs T k) -> keeps T T' -> one_more T0 T' V' j ip.
Proof. intros [Ht He Hr Hk] Ht' Hr' Hk'. split; [done|by apply Hk'|intros k; by rewrite Hr'|]. intros i k Hi. by apply Hk', Hk. Qed.

(** Unlocking the inode of [one_more] and giving its reference back. *)
Lemma wp_put_back {B} K pid c f s T1 V1 T2 V2 T4 V4 D F dp jd (kont : M kst B) (Q : cpu -> kst -> B -> Prop) :
  fcpu c -> curpid c = pid -> itab T1 V1 None -> one_more T1 T2 V2 jd dp -> same_refs T2 T4 -> ftx K pid f T4 V4 D F [] [] -> itab T4 V4 (Some dp) -> i_lock (T4 dp) = mksleep 1 pid -> i_nlink (T4 dp) <> 0 ->
  (forall c' f' T', same_cpu c c' -> ftx K pid f' T' V4 D F [] [] -> itab T' V4 None -> (forall k, irefs T' k = irefs T1 k) -> keeps T1 T' -> (forall i, i <> dp -> T' i = T4 i) -> wp kont c' (set_fs f' s) Q) ->
  wp (zoom fs_lens (iunlockput (Some dp)) ;; kont) c (set_fs f s) Q.
Proof.
  intros Hc Hp Ht1 [Ht2 He2 Hr2 Hk2] Hs Hx Ht Hlk Hnl HQ. destruct (Hs dp) as [E1 E2]. pose proof He2 as (Hdp & Hpos & Hin). rewrite <- E1 in Hpos. specialize (E2 ltac:(lia)).
  wp_step. apply wp_fs. eapply (wp_iunlockput dv start size sb K); [done|done|exact Hx|done|done|done|done|by auto|].
  intros c' f' T' Hcc Hx' Ht' HT' Hne Hr'. assert (i_inum (T4 dp) = jd) as Hi4 by (by rewrite E2). pose proof (same_refs_irefs T2 T4 V2 None) as Hsr.
  eapply (HQ c' f' T'); try done.
  - intros k. rewrite Hr', (Hsr k Ht2 Hs), Hr2, Hi4. case_decide; lia.
  - eapply (keeps_drop dv sb T1 V1 None T4 V4 (Some dp)); [done|done|by eapply same_refs_keeps|done|by rewrite HT'|by rewrite HT'|]. rewrite Hi4, (Hsr jd Ht2 Hs), Hr2, decide_True by done. lia.
Qed.

(** [goto bad]: the link count goes back to what it was, and no file has changed. *)
Lemma wp_link_bad c f s T D c1 f1 T1 V F ip j (Q : cpu -> kst -> Z -> Prop) :
  fcpu c -> same_cpu c c1 -> itab T D None -> ftx (one_op f) (curpid c) f1 T1 V D F [] [] -> disk_fs V -> one_more T T1 V j ip -> IBLOCK j sb ∈ F ->
  d_type (dnode V j) <> 0 -> 1 < d_nlink (dnode V j) ->
  (forall k, 0 <= k < sb_ninodes sb -> absfile V k = if decide (k = j) then add_links 1 (absfile D j) else absfile D k) ->
  (forall c' s' D', call_done c f s T D c' s' D' -> (forall k, 0 <= k < sb_ninodes sb -> absfile D' k = absfile D k) -> (forall b, sb_bmapstart sb <= b -> D' b = V b) -> Q c' s' (-1)) ->
  wp (link_bad ip) c1 (set_fs f1 s) Q.
Proof.
  intros Hc Hcc HT Hx Hok Hom HF Hty Hnl Hab HQ. pose proof Hom as [Ht He Hr Hk]. unfold link_bad. assert (fcpu c1) as Hc1 by (by eapply same_fcpu). assert (curpid c1 = curpid c) as Hp1 by (by eapply same_pid).
  wp_step. apply wp_fs. eapply (wp_ilock_tab dv start size sb (one_op f)); [done|done|exact Hx|done|exact He|done|].
  intros c2 f2 T2 Hcc2 Hx2 Ht2 He2 Hlk Hco Hv Hr2 Hne2 Hrf2. assert (fcpu c2) as Hc2 by (by eapply same_fcpu). assert (curpid c2 = curpid c) as Hp2 by (by eapply same_pid).
  pose proof (it_dev _ _ _ _ _ Ht2 ip ltac:(apply He2) ltac:(apply He2)) as [_ Hrg]. pose proof He2 as (Hip & Hpos & Hin). rewrite Hin in Hrg.
  pose proof (ok_node _ _ _ Hok j Hrg) as (_ & _ & _ & Hnr & _). assert (i_nlink (T2 ip) = d_nlink (dnode V j)) as Hnn by (by rewrite <- Hco).
  eapply (wp_nlink dv start size sb (one_op f) (curpid c) c2 f2 s T2 V D F ip j (-1)); try done; [lia|].
  intros c3 f3 T3 V3 Hcc3 Hx3 Hok3 Ht3 HT3 Hne3 Hd3 Hd3' Hbm Hrl. assert (fcpu c3) as Hc3 by (by eapply same_fcpu). assert (curpid c3 = curpid c) as Hp3 by (by eapply same_pid).
  assert (same_refs T1 T3) as Hs3.
  { intros i. destruct (decide (i = ip)) as [->|Hi]; [|by rewrite Hne3, Hne2]. rewrite HT3. cbn. split; [done|]. intros _. rewrite Hin. symmetry. apply He. }
  eapply (wp_put_back (one_op f) (curpid c) c3 f3 s T D T1 V T3 V3 D F ip j); [done|done|done|exact Hom|done|exact Hx3|done|by rewrite HT3|rewrite HT3; cbn; lia|].
  intros c4 f4 T4 Hcc4 Hx4 Ht4 Hr4 Hk4 _. assert (same_cpu c c4) as Hcc04 by (do 3 (eapply same_cpu_trans; [eassumption|]); done).
  eapply (wp_call_end c f s T D c4 f4 T4 V3 F); [done|done|exact Hx4|done|done|done|done|].
  intros c' s' D' Hdone HD'. eapply HQ; [exact Hdone| |].
  - intros k Hkr. rewrite (absfile_ext dv start size sb V3 D' k) by done. rewrite Hrl, !Hab by done. case_decide; [|done]. subst k. rewrite decide_True by done. apply (add_links_back 1).
  - intros b Hb. rewrite HD'; [by apply Hbm|]. pose proof (geo_bounds sb). lia.
Qed.

(** ** The second path *)

Section new.
Context (c : cpu) (f : fsst) (s : kst) (T : nat -> inode) (D : Z -> block) (j j1 : Z) (new : list Z) (F : list Z).
Abbreviation A := (absfile D).
Hypothesis Hc : fcpu c.
Hypothesis Ht : itab T D None.
Hypothesis Htr : tree_ok sb D.
Hypothesis Hheld : (length (held_inums T) + 3 <= NINODE)%nat.
Hypothesis Hrefs : forall k, irefs T k < 999989.
Hypothesis Hst : starts_at dv c s T new j1.
Hypothesis Hj1 : alloc sb A j1.
Hypothesis Hnew : Forall byte new.
Hypothesis Hj : 0 <= j < sb_ninodes sb /\ 0 < j < 65536 /\ af_type (A j) <> 0 /\ af_type (A j) <> T_DIR /\ 0 < af_nlink (A j) < 32767.
Hypothesis HFj : IBLOCK j sb ∈ F.
Hypothesis HFd : forall jd e, walk_abs A true j1 (elements new) = Some (jd, e) -> IBLOCK jd sb ∈ F /\ addr_l (d_addrs (dnode D jd)) NDIRECT ∈ F.
Hypothesis HFb : bitmap_in sb F /\ Z.of_nat (length F) + 3 <= size - 2.

(** What the call ends with. *)
Definition link_failed (D' : Z -> block) : Prop :=
  (forall k, 0 <= k < sb_ninodes sb -> absfile D' k = A k) /\
  (walk_abs A true j1 (elements new) = None \/ exists jd e, walk_abs A true j1 (elements new) = Some (jd, e) /\ (afind A jd e <> None \/ no_place sb D' (A jd))).
Definition link_made (D' : Z -> block) : Prop :=
  exists jd e, walk_abs A true j1 (elements new) = Some (jd, e) /\ afind A jd e = None /\ clean e /\ forall k, 0 <= k < sb_ninodes sb -> absfile D' k = link_files A j jd e k.

(** With one link more to [j] on the way to the disk. *)
Record linking (V : Z -> block) : Prop := {
  lk_fs : disk_fs V;
  lk_files k : 0 <= k < sb_ninodes sb -> absfile V k = if decide (k = j) then add_links 1 (A j) else A k;
  lk_nodes k : 0 <= k < sb_ninodes sb -> k <> j -> dnode V k = dnode D k;
}.
Lemma linking_like V : linking V -> like sb A (absfile V).
Proof.
  intros [_ H _] k Hk. rewrite H by done. case_decide; [|done]. subst k. cbn [add_links af_type af_data af_nlink]. split_and!; [done|done|]. lia.
Qed.
Lemma linking_tree V : linking V -> tree_ok sb V.
Proof. intros Hl. apply (tree_abs sb). split; [apply Hl|]. eapply atree_like; [|by apply linking_like]. by apply (tree_abs sb). Qed.

Lemma linking_node V : linking V -> d_type (dnode V j) = af_type (A j) /\ d_nlink (dnode V j) = af_nlink (A j) + 1.
Proof. intros Hl. pose proof (lk_files _ Hl j (proj1 Hj)) as E. rewrite decide_True in E by done. split; [exact (f_equal af_type E)|exact (f_equal af_nlink E)]. Qed.

(** The end of the call, with the directory still locked. *)
Definition link_tail (ip dp : nat) (r : Z) : M kst Z :=
  if r <? 0 then zoom fs_lens (iunlockput (Some dp)) ;; link_bad ip
  else zoom fs_lens (iunlockput (Some dp)) ;; zoom fs_lens (iput ip) ;; zoom klog_lens end_op ;; ret 0.

Lemma wp_link_tail c3 f3 T1 V1 T2 V2 T4 V4 F4 ip dp jd r (Q : cpu -> kst -> Z -> Prop) :
  same_cpu c c3 -> one_more T T1 V1 j ip -> one_more T1 T2 V2 jd dp -> same_refs T2 T4 -> ftx (one_op f) (curpid c) f3 T4 V4 D F4 [] [] -> itab T4 V4 (Some dp) ->
  i_lock (T4 dp) = mksleep 1 (curpid c) -> i_nlink (T4 dp) <> 0 -> F ⊆ F4 -> disk_fs V4 -> absfile V4 j = add_links 1 (A j) ->
  (r = -1 /\ (forall k, 0 <= k < sb_ninodes sb -> absfile V4 k = if decide (k = j) then add_links 1 (A j) else A k) /\ (forall D', (forall b, sb_bmapstart sb <= b -> D' b = V4 b) -> (forall k, 0 <= k < sb_ninodes sb -> absfile D' k = A k) -> link_failed D') \/ r = 0 /\ link_made V4) ->
  (forall c' s' D', call_done c f s T D c' s' D' -> link_failed D' -> Q c' s' (-1)) -> (forall c' s' D', call_done c f s T D c' s' D' -> link_made D' -> Q c' s' 0) ->
  wp (link_tail ip dp r) c3 (set_fs f3 s) Q.
Proof.
  intros Hcc Hom Hom2 Hs Hx Ht4 Hlk Hnl HF4 Hok4 Habs Hr HQ1 HQ2. assert (fcpu c3) as Hc3 by (by eapply same_fcpu). assert (curpid c3 = curpid c) as Hp3 by (by eapply same_pid).
  pose proof (f_equal af_type Habs) as Hty4. pose proof (f_equal af_nlink Habs) as Hnl4. change (d_type (dnode V4 j) = af_type (A j)) in Hty4. change (d_nlink (dnode V4 j) = af_nlink (A j) + 1) in Hnl4.
  destruct Hj as (Hjr & Hj' & Hjt & Hjd & Hjn). unfold link_tail.
  destruct Hr as [(-> & Hl4 & Hfail)|(-> & Hmade)]; cbn [Z.ltb Z.compare]; (eapply (wp_put_back (one_op f) (curpid c) c3 f3 s T1 V1 T2 V2 T4 V4 D F4 dp jd); [done|done|apply Hom|done|done|exact Hx|done|done|done|]);
    intros c5 f5 T5 Hcc5 Hx5 Ht5 Hr5 Hk5 Hne5; pose proof (one_more_keeps T T1 T5 V1 V4 j ip Hom Ht5 Hr5 Hk5) as Hom5; assert (same_cpu c c5) as Hcc05 by (by eapply same_cpu_trans).
  - eapply (wp_link_bad c f s T D c5 f5 T5 V4 F4 ip j); [done|done|done|exact Hx5|done|done|by apply HF4|by rewrite Hty4|lia|done|]. intros c' s' D' Hd Hsame Hb. apply (HQ1 c' s' D' Hd). by apply Hfail.
  - destruct Hom5 as [_ He5 Hr5' Hk5']. assert (fcpu c5) as Hc5 by (by eapply same_fcpu). wp_step. apply wp_fs. pose proof He5 as (Hip & Hpos & Hin).
    eapply (wp_iput_tab dv start size sb (one_op f)); [done|exact Hx5|done|done|done| |].
    { destruct (decide (i_valid (T5 ip) = 0)) as [|Hv]; [by auto|]. right; right. pose proof (it_valid _ _ _ _ _ Ht5 ip Hip Hpos Hv) as Hco. rewrite Hin in Hco. change (i_nlink (T5 ip)) with (d_nlink (core (T5 ip))). rewrite Hco, Hnl4. lia. }
    intros f6 T6 Hx6 Ht6 HT6 Hne6 Hr6. eapply (wp_call_end c f s T D c5 f6 T6 V4 F4); [done|done|exact Hx6|done|done|..].
    + intros k. rewrite Hr6, Hr5', Hin. case_decide; lia.
    + eapply (keeps_drop dv sb T D None T5 V4 None T6 ip); [done|done|done|done|by rewrite HT6|by rewrite HT6|]. rewrite Hin, Hr5', decide_True by done. lia.
    + intros c' s' D' Hd HD'. apply (HQ2 c' s' D' Hd). destruct Hmade as (jd' & e & Hw & Hf & Hcl & Hfiles). exists jd', e. split_and!; [done..|]. intros k Hk. rewrite (absfile_ext dv start size sb V4 D' k) by done. by apply Hfiles.
Qed.

(** In the directory that [nameiparent] found. *)
Definition link_in (ip dp : nat) (name : list Z) : M kst Z :=
  zoom fs_lens (ilock (Some dp)) ;;
  d <- zoom fs_lens (get_inode dp) ;;
  x <- zoom fs_lens (get_inode ip) ;;
  r <- (if negb (i_dev d =? i_dev x) then ret (-1) else dirlink dp name (i_inum x)) ;;
  link_tail ip dp r.

Lemma wp_link_in c2 f2 T1 V1 T2 ip dp jd e name (Q : cpu -> kst -> Z -> Prop) :
  same_cpu c c2 -> table_room dv sb T1 V1 -> linking V1 -> one_more T T1 V1 j ip -> one_more T1 T2 V1 jd dp -> ftx (one_op f) (curpid c) f2 T2 V1 D F [] [] ->
  walk_abs A true j1 (elements new) = Some (jd, e) -> cstr DIRSIZ name = e -> Forall byte name ->
  (forall c' s' D', call_done c f s T D c' s' D' -> link_failed D' -> Q c' s' (-1)) -> (forall c' s' D', call_done c f s T D c' s' D' -> link_made D' -> Q c' s' 0) ->
  wp (link_in ip dp name) c2 (set_fs f2 s) Q.
Proof.
  intros Hcc2 Hro Hl1 Hom Hom2 Hx2 Hw Hne Hnb HQ1 HQ2. assert (fcpu c2) as Hc2 by (by eapply same_fcpu). assert (curpid c2 = curpid c) as Hp2 by (by eapply same_pid).
  pose proof (linking_tree V1 Hl1) as Htr1. pose proof (linking_like V1 Hl1) as Hlk1. pose proof (proj1 (tree_abs sb D) Htr) as [_ Ha].
  pose proof (walk_parent_dir A j1 _ jd e Hw) as Hdir. pose proof (walk_alloc sb A true j1 _ jd e Ha Hj1 Hw) as (Hjdr & _ & Hjdn). assert (jd <> j) as Hjj by (intros ->; by destruct Hj as (_ & _ & _ & ? & _)).
  assert (absfile V1 jd = A jd) as Habd. { rewrite (lk_files _ Hl1) by done. by rewrite decide_False. }
  assert (d_type (dnode V1 jd) = T_DIR) as Hty1. { rewrite <- Hdir. exact (f_equal af_type Habd). }
  assert (dir_find V1 (dnode V1 jd) e = afind A jd e) as Hdf. { unfold dir_find, afind. rewrite dents_abs by (by apply size_nonneg; [apply Hl1|]). by rewrite <- Habd. }
  pose proof (om_entry _ _ _ _ _ _ _ Hom2) as He2. pose proof (om_keep _ _ _ _ _ _ _ Hom2 _ _ (om_entry _ _ _ _ _ _ _ Hom)) as Hej.
  assert (ip <> dp) as Hip by (intros ->; destruct He2 as (_ & _ & ?), Hej as (_ & _ & ?); congruence).
  unfold link_in. wp_step. apply wp_fs. eapply (wp_ilock_tab dv start size sb (one_op f)); [done|done|exact Hx2|apply Hom2|exact He2|by rewrite Hty1|].
  intros c3 f3 T3 Hcc3 Hx3 Ht3 He3 Hlk Hco Hv Hr3 Hne3 Hrf3. assert (same_cpu c c3) as Hcc03 by (by eapply same_cpu_trans). assert (fcpu c3) as Hc3 by (by eapply same_fcpu). assert (curpid c3 = curpid c) as Hp3 by (by eapply same_pid).
  assert (i_nlink (T3 dp) <> 0) as Hnl3. { change (i_nlink (T3 dp)) with (d_nlink (core (T3 dp))). rewrite Hco, (lk_nodes _ Hl1) by done. exact Hjdn. }
  assert (same_refs T2 T3) as Hs3. { intros i. destruct (decide (i = dp)) as [->|Hi]; [|by rewrite Hne3]. split; [done|]. intros _. destruct He2 as (_ & _ & ->). apply He3. }
  wp_step. apply wp_fs. eapply (wp_get_inode dv start size sb (one_op f)); [exact Hx3|]. wp_step. apply wp_fs. eapply (wp_get_inode dv start size sb (one_op f)); [exact Hx3|]. rewrite (Hne3 ip Hip).
  destruct (it_dev _ _ _ _ _ Ht3 dp) as [-> _]; [apply He3..|]. destruct (it_dev _ _ _ _ _ (om_tab _ _ _ _ _ _ _ Hom2) ip) as [-> _]; [apply Hej..|]. rewrite Z.eqb_refl. cbn [negb].
  destruct Hej as (_ & _ & ->). destruct (HFd jd e Hw) as [HF1 HF2]. destruct HFb as [HF3 HF4]. assert (has_room T3) as Hroom. { destruct (room_more dv sb T1 T2 V1 jd dp Hro Hom2) as [(i & Hi & E) _]. exists i. split; [done|]. by rewrite (proj1 (Hs3 i)). }
  wp_step. eapply (wp_dirlink dv start size sb (one_op f) (curpid c) c3 f3 s T3 V1 D F dp jd name j); [done|done|exact Hx3|done|done|done|done|done|done|done|lia| | |].
  { split; [done|done| |done]. intros _. change (addr_at (T3 dp) NDIRECT) with (addr_l (d_addrs (core (T3 dp))) NDIRECT). rewrite Hco, (lk_nodes _ Hl1) by done. done. }
  - rewrite Hne, Hdf. intros c4 f4 T4 Hcc4 Hf4 Hx4 Ht4 Hold Hrf4. assert (T4 dp = T3 dp) as HT4 by (apply Hold, He3).
    eapply (wp_link_tail c4 f4 T1 V1 T2 V1 T4 V1 F ip dp jd (-1)); [by eapply same_cpu_trans|done|done| |exact Hx4|done|by rewrite HT4|by rewrite HT4|done|apply Hl1|by rewrite (lk_files _ Hl1), decide_True by (done || apply Hj)| |done|done].
    + eapply same_refs_trans; [exact Hs3|]. intros i. split; [done|]. intros Hp. by rewrite Hold.
    + left. split_and!; [done|apply Hl1|]. intros D' _ Hsame. split; [done|]. right. exists jd, e. auto.
  - rewrite Hne, Hdf. intros c4 f4 T4 V4 F4 r Hcc4 Hf4 Hx4 Hok4 Ht4 (l & sz & HT4) Hne4 Hd4 Hd4' HF HF' [Hres Hoth].
    assert (absfile V4 j = add_links 1 (A j)) as Habs by (rewrite Hoth by (done || apply Hj); by rewrite (lk_files _ Hl1), decide_True by (done || apply Hj)).
    eapply (wp_link_tail c4 f4 T1 V1 T2 V1 T4 V4 F4 ip dp jd r); [by eapply same_cpu_trans|done|done| |exact Hx4|done|by rewrite HT4|by rewrite HT4|done|done|done| |done|done].
    + eapply same_refs_trans; [exact Hs3|]. intros i. destruct (decide (i = dp)) as [->|Hi]; [by rewrite HT4|by rewrite Hne4].
    + destruct Hres as [[-> Hadd]|(-> & Hsame & Hno)]; [right|left]; (split; [done|]).
      * exists jd, e. split_and!; [done|done|split; rewrite <- Hne; [by apply cstr_clean_of|apply cstr_length]|]. intros k Hk. unfold link_files. destruct (Z.eqb_spec k j) as [->|Hkj]; [done|]. destruct (Z.eqb_spec k jd) as [->|Hkd]; [by rewrite Hadd, Habd|]. rewrite Hoth, (lk_files _ Hl1), decide_False by done. done.
      * split.
        -- intros k Hk. destruct (decide (k = jd)) as [->|]; [by rewrite Hsame, (lk_files _ Hl1)|]. rewrite Hoth by done. by apply Hl1.
        -- intros D' HD' Hsame'. split; [done|]. right. exists jd, e. split; [done|]. right. rewrite <- Habd. destruct Hno as [Hno|Hno]; [left|by right]. intros b Hb. unfold used. rewrite HD'; [by apply Hno|]. pose proof (BBLOCK_val sb b Hb). lia.
Qed.

Lemma wp_link_new c1 f1 T1 V1 ip (Q : cpu -> kst -> Z -> Prop) :
  same_cpu c c1 -> ftx (one_op f) (curpid c) f1 T1 V1 D F [] [] -> linking V1 -> one_more T T1 V1 j ip ->
  (forall c' s' D', call_done c f s T D c' s' D' -> link_failed D' -> Q c' s' (-1)) -> (forall c' s' D', call_done c f s T D c' s' D' -> link_made D' -> Q c' s' 0) ->
  wp (r <- nameiparent new ;; match r with None => link_bad ip | Some (dp, name) => link_in ip dp name end) c1 (set_fs f1 s) Q.
Proof.
  intros Hcc1 Hx1 Hl1 Hom HQ1 HQ2. assert (fcpu c1) as Hc1 by (by eapply same_fcpu). assert (curpid c1 = curpid c) as Hp1 by (by eapply same_pid).
  pose proof (linking_tree V1 Hl1) as Htr1. pose proof (linking_like V1 Hl1) as Hlk1. pose proof (proj1 (tree_abs sb D) Htr) as [_ Ha].
  pose proof Hom as [Ht1 He1 Hr1 Hk1]. destruct (linking_node V1 Hl1) as [Hty Hnl]. destruct Hj as (Hjr & Hj' & Hjt & Hjd & Hjn).
  assert (table_room dv sb T1 V1) as Hro.
  { split; [done| |]. - pose proof (held_more dv sb T T1 V1 D j ip Ht Hom). lia. - intros k. rewrite Hr1. specialize (Hrefs k). case_decide; lia. }
  assert (starts_at dv c1 s T1 new j1) as Hst1.
  { unfold starts_at in *. destruct (default 0 (head new) =? slash); [done|]. destruct Hst as (k & Hcw & Hek). exists k. destruct Hcc1 as (_ & _ & ->). split; [done|by apply Hk1]. }
  assert (inode_ok sb T1 V1 j1) as Hok1. { destruct Hj1 as (Hr & H1 & H2). destruct (Hlk1 j1 Hr) as (E1 & _ & E2). split; [done|]. split; [by rewrite <- E1 in H1|left; by apply E2]. }
  assert (walk_path sb V1 true j1 (elements new) = walk_abs A true j1 (elements new)) as Hw.
  { rewrite (walk_path_abs sb) by (done || apply Hj1). by apply (walk_abs_like sb); [| |apply Hj1]. }
  wp_step. unfold nameiparent. eapply (wp_namex dv start size sb (one_op f) (curpid c) c1 f1 s T1 V1 D F j1 new name0 true); [done|done|exact Hx1|done|done|done|done|done|apply name0_bytes|..].
  - rewrite Hw. intros Hnone c2 f2 T2 Hcc2 Hx2 Ht2 Hr2 Hk2. 
    eapply (wp_link_bad c f s T D c2 f2 T2 V1 F ip j); [done|by eapply same_cpu_trans|done|exact Hx2|apply Hl1|by eapply one_more_keeps|done|by rewrite Hty|rewrite Hnl; lia|..].
    + apply Hl1.
    + intros c' s' D' Hd Hsame _. apply (HQ1 c' s' D' Hd). split; [done|by left].
  - rewrite Hw. intros jd e Hsome c2 f2 T2 dp name Hcc2 Hx2 Hom2 Hnm. destruct (Hnm eq_refl) as [Hne Hnb].
    eapply (wp_link_in c2 f2 T1 V1 T2 ip dp jd e name); [by eapply same_cpu_trans|done|done|done|done|exact Hx2|done..].
Qed.
End new.

(** ** The arguments *)

(** Argument [n] of the system call, and the path it points to in user memory. *)
Definition syscall_arg (c : cpu) (s : kst) (n : Z) : Z := load64 (kmem_mem (k_mem s)) (p_trapframe (k_procs s (me c)) + (TF_a0 + 8 * n)).
Definition arg_path `{Layout} (c : cpu) (s : kst) (N : gmap (list Z) Z) (n : Z) (p : option (list Z)) : Prop :=
  match p with
  | Some path => exists k, Z.of_nat k < MAXPATH /\ ustring_at (k_mem s) N (syscall_arg c s n) k /\ path = ubytes (k_mem s) N (syscall_arg c s n) (S k)
  | None => forall k, Z.of_nat k < MAXPATH -> ~ ustring_at (k_mem s) N (syscall_arg c s n) k
  end.

Lemma ustring_uniq m N va k k' : ustring_at m N va k -> ustring_at m N va k' -> k = k'.
Proof.
  intros (H0 & _ & Hl) (H0' & _ & Hl'). destruct (lt_eq_lt_dec k k') as [[Hlt|]|Hlt]; [|done|].
  - by destruct (Hl' k Hlt).
  - by destruct (Hl k' Hlt).
Qed.
Lemma strlen_l_nonneg l : 0 <= strlen_l l.
Proof. induction l as [|x l IH]; cbn; [lia|]. case_match; lia. Qed.
Lemma arg_path_bytes `{Layout} c s N n path : arg_path c s N n (Some path) -> Forall byte path.
Proof. intros (k & _ & _ & ->). unfold ubytes. apply Forall_fmap, Forall_true. intros i. cbn. unfold byte. pose proof (load8_range (kmem_mem (k_mem s)) (uaddr (uview (k_mem s) N) (syscall_arg c s n + Z.of_nat i))). lia. Qed.

Lemma wp_argstr `{Layout} c s l N us n p (Q : cpu -> kst -> Z * list Z -> Prop) :
  user_pages (k_mem s) l (p_pagetable (k_procs s (me c))) N us -> 0 <= n <= 5 -> arg_path c s N n p ->
  (forall r bs, match p with Some path => 0 <= r /\ bs = path | None => r = -1 end -> Q c s (r, bs)) -> wp (argstr n MAXPATH) c s Q.
Proof.
  intros Hu Hn Hp HQ. unfold argstr, argaddr, argraw, fetchstr, myproc, get_proc, tf_get. wp_steps. rewrite (proj2 (Z.leb_le 0 n)), (proj2 (Z.leb_le n 5)) by lia. cbn [andb]. wp_steps.
  unfold get_proc. wp_steps. cbv beta. wp_steps. cbv beta. apply wp_zoom. cbn [lget mem_lens]. fold (syscall_arg c s n).
  destruct (copyinstr_correct c (k_mem s) l (p_pagetable (k_procs s (me c))) N us (syscall_arg c s n) MAXPATH Hu) as (r & dst & Hrun & Hr); [exact (load_le_range (kmem_mem (k_mem s)) _ 8)|done|].
  apply wp_unfold. exists c, (k_mem s), (r, dst). split; [exact Hrun|]. cbn [lset mem_lens fst snd]. assert (set_kmem (k_mem s) s = s) as -> by (by destruct s).
  destruct Hr as [(k & Hk & Hs & -> & ->)|(Hno & -> & _)]; cbn [Z.ltb Z.compare]; wp_step; apply HQ; destruct p as [path|]; try done.
  - split; [apply strlen_l_nonneg|]. destruct Hp as (k' & _ & Hs' & ->). by rewrite (ustring_uniq _ _ _ _ _ Hs Hs').
  - by destruct (Hp k).
  - destruct Hp as (k & Hk & Hs & _). by destruct (Hno k Hk).
Qed.

Lemma arg_path_run `{Layout} c s l N us n a path : user_pages (k_mem s) l (p_pagetable (k_procs s (me c))) N us -> syscall_arg c s n = a -> 0 <= a < 18446744073709551616 ->
  copyinstr (p_pagetable (k_procs s (me c))) a MAXPATH c (k_mem s) = Ret c (k_mem s) (0, path) -> arg_path c s N n (Some path).
Proof.
  intros Hu Ea Hr Hrun. destruct (copyinstr_correct c (k_mem s) l _ N us a MAXPATH Hu Hr ltac:(done)) as (r & dst & Hrun' & Hres). rewrite Hrun in Hrun'. injection Hrun' as <- <-.
  destruct Hres as [(k & Hk & Hs & _ & ->)|(_ & ? & _)]; [|done]. exists k. by rewrite Ea.
Qed.

(** ** The call *)

(** Where the walk of a path starts, for a process with working directory [cwd]. *)
Definition start_of (cwd : Z) (path : list Z) : Z := if default 0 (head path) =? slash then ROOTINO else cwd.

(** A process with a working directory that can call [link]. *)
Record link_ready (c : cpu) (s : kst) (T : nat -> inode) (D : Z -> block) (cwd : Z) : Prop := {
  lr_cpu : fcpu c;
  lr_idle : idle (k_fs s) T D;
  lr_tree : tree_ok sb D;
  lr_held : (length (held_inums T) + 3 <= NINODE)%nat;
  lr_refs k : irefs T k < 999989;
  lr_root : dv = ROOTDEV /\ alloc sb (absfile D) ROOTINO;
  lr_cwd : alloc sb (absfile D) cwd /\ 0 < cwd /\ exists k, p_cwd (k_procs s (me c)) = Some k /\ entry T cwd k;
  lr_links k : alloc sb (absfile D) k -> 0 < af_nlink (absfile D k) < 32767;
  lr_sizes : sb_ninodes sb <= 65536 /\ sb_size sb / BPB + 9 <= size;
}.
Lemma start_ok c s T D cwd path : link_ready c s T D cwd -> starts_at dv c s T path (start_of cwd path) /\ alloc sb (absfile D) (start_of cwd path) /\ 0 < start_of cwd path.
Proof. intros [_ _ _ _ _ [Hd Hr] (Hc & Hp & Hcw) _ _]. unfold starts_at, start_of. destruct (_ =? slash); split_and!; done. Qed.

Definition same_files (D D' : Z -> block) : Prop := forall k, 0 <= k < sb_ninodes sb -> absfile D' k = absfile D k.
(** What [link(old, new)] returns and leaves on the disk. *)
Definition link_result (D : Z -> block) (cwd : Z) (old new : list Z) (r : Z) (D' : Z -> block) : Prop :=
  match walk_abs (absfile D) false (start_of cwd old) (elements old) with
  | None => r = -1 /\ same_files D D'
  | Some (j, _) =>
      if decide (af_type (absfile D j) = T_DIR) then r = -1 /\ same_files D D'
      else r = -1 /\ link_failed D (start_of cwd new) new D' \/ r = 0 /\ link_made D j (start_of cwd new) new D'
  end.

Lemma same_ext D D' : disk_fs D -> (forall b, sb_inodestart sb <= b -> D' b = D b) -> same_files D D'.
Proof. intros Hok HD k Hk. by apply (absfile_ext dv start size sb D D' k). Qed.

(** The blocks the call may log, besides the one the directory's new entry is in. *)
Definition link_bound (D : Z -> block) (cwd : Z) (old new : list Z) : list Z :=
  IBLOCK (default 0 (fst <$> walk_abs (absfile D) false (start_of cwd old) (elements old))) sb ::
  write_bound sb D (default 0 (fst <$> walk_abs (absfile D) true (start_of cwd new) (elements new))).

(** With the file of the first path found. *)
Definition link_found (new : list Z) (ip : nat) : M kst Z :=
  zoom fs_lens (ilock (Some ip)) ;;
  x <- zoom fs_lens (get_inode ip) ;;
  if i_type x =? T_DIR then
    zoom fs_lens (iunlockput (Some ip)) ;;
    zoom klog_lens end_op ;;
    ret (-1)
  else
    zoom fs_lens (upd_inode ip (fun x => set_nlink (s16 (i_nlink x + 1)) x)) ;;
    zoom fs_lens (iupdate ip) ;;
    zoom fs_lens (iunlock (Some ip)) ;;
    r <- nameiparent new ;;
    match r with None => link_bad ip | Some (dp, name) => link_in ip dp name end.

Lemma wp_link_found c s T D cwd old new c2 f2 T2 ip j e :
  link_ready c s T D cwd -> Forall byte new -> walk_abs (absfile D) false (start_of cwd old) (elements old) = Some (j, e) ->
  same_cpu c c2 -> ftx (one_op (k_fs s)) (curpid c) f2 T2 D D (link_bound D cwd old new) [] [] -> one_more T T2 D j ip ->
  wp (link_found new ip) c2 (set_fs f2 s) (fun c' s' r => exists D', call_done c (k_fs s) s T D c' s' D' /\ link_result D cwd old new r D').
Proof.
  intros Hr Hbn Hw Hcc2 Hx2 Hom2. pose proof Hr as [Hc Hid Htr Hheld Hrefs _ _ Hlinks [Hni Hsz]]. destruct (start_ok c s T D cwd old Hr) as (_ & Hao & Hpo). destruct (start_ok c s T D cwd new Hr) as (Hsn & Han & _).
  pose proof (proj1 (tree_abs sb D) Htr) as [Hfs Ha]. pose proof (id_tab _ _ _ _ _ _ _ Hid) as Ht. set (F := link_bound D cwd old new) in *.
  assert (IBLOCK j sb ∈ F) as HFj by (unfold F, link_bound; rewrite Hw; by left).
  pose proof (walk_alloc sb (absfile D) _ _ _ _ _ Ha Hao Hw) as Haj. pose proof Haj as (Hjr & Hjt & _). pose proof (walk_pos sb (absfile D) _ _ _ _ _ Ha Hao Hpo Hw) as Hjp. pose proof (Hlinks j Haj) as Hjn.
  assert (fcpu c2) as Hc2 by (by eapply same_fcpu). assert (curpid c2 = curpid c) as Hp2 by (by eapply same_pid). pose proof (om_entry _ _ _ _ _ _ _ Hom2) as He2.
  unfold link_found. wp_step. apply wp_fs. eapply (wp_ilock_tab dv start size sb (one_op (k_fs s))); [done|done|exact Hx2|apply Hom2|exact He2|done|].
  intros c3 f3 T3 Hcc3 Hx3 Ht3 He3 Hlk Hco Hv Hr3 Hne3 Hrf3. assert (same_cpu c c3) as Hcc03 by (by eapply same_cpu_trans). assert (fcpu c3) as Hc3 by (by eapply same_fcpu). assert (curpid c3 = curpid c) as Hp3 by (by eapply same_pid).
  assert (same_refs T2 T3) as Hs3. { intros i. destruct (decide (i = ip)) as [->|Hi]; [|by rewrite Hne3]. split; [done|]. intros _. destruct He2 as (_ & _ & ->). apply He3. }
  assert (i_type (T3 ip) = af_type (absfile D j)) as Hty3 by (change (i_type (T3 ip)) with (d_type (core (T3 ip))); by rewrite Hco). assert (i_nlink (T3 ip) = af_nlink (absfile D j)) as Hnl3 by (change (i_nlink (T3 ip)) with (d_nlink (core (T3 ip))); by rewrite Hco).
  wp_step. apply wp_fs. eapply (wp_get_inode dv start size sb (one_op (k_fs s))); [exact Hx3|]. rewrite Hty3. destruct (Z.eqb_spec (af_type (absfile D j)) T_DIR) as [Hdir|Hdir].
  - eapply (wp_put_back (one_op (k_fs s)) (curpid c) c3 f3 s T D T2 D T3 D D F ip j); [done|done|done|exact Hom2|done|exact Hx3|done|done|rewrite Hnl3; lia|]. intros c4 f4 T4 Hcc4 Hx4 Ht4 Hr4 Hk4 _.
    eapply (wp_call_end c (k_fs s) s T D c4 f4 T4 D F); [done|by eapply same_cpu_trans|exact Hx4|done|done|done|done|]. intros c' s' D' Hd HD'. exists D'. split; [exact Hd|]. unfold link_result. rewrite Hw, decide_True by done. split; [done|]. by apply same_ext.
  - eapply (wp_nlink dv start size sb (one_op (k_fs s)) (curpid c) c3 f3 s T3 D D F ip j 1); try done; [rewrite Hnl3; lia|].
    intros c4 f4 T4 V4 Hcc4 Hx4 Hok4 Ht4 HT4 Hne4 Hd4 Hd4' _ Hrl. assert (fcpu c4) as Hc4 by (by eapply same_fcpu). assert (curpid c4 = curpid c) as Hp4 by (by eapply same_pid).
    wp_step. apply wp_fs. eapply (wp_iunlock_tab dv start size sb (one_op (k_fs s))); [done|done|exact Hx4|done|apply He3|rewrite HT4; apply He3|by rewrite HT4|].
    intros c5 f5 T5 Hcc5 Hx5 Ht5 HT5 Hne5 _. assert (same_refs T2 T5) as Hs5.
    { eapply same_refs_trans; [exact Hs3|]. intros i. destruct (decide (i = ip)) as [->|Hi]; [by rewrite HT5, HT4|by rewrite Hne5, Hne4]. }
    assert (same_cpu c c5) as Hcc05 by (do 2 (eapply same_cpu_trans; [eassumption|]); done).
    apply (wp_link_new c (k_fs s) s T D j (start_of cwd new) new F Hc Ht Htr Hheld Hrefs Hsn Han Hbn) with (V1 := V4) (T1 := T5); try done; [split_and!; try done; lia| | |by eapply one_more_same| |].
    + intros jd x Hwn. unfold F, link_bound. rewrite Hwn. cbn. set_solver.
    + split; [intros b Hb; right; by apply (bitmap_in_bound dv start size sb)|]. unfold F, link_bound. cbn [length]. rewrite Nat2Z.inj_succ, (length_write_bound dv start size sb). lia.
    + intros c' s' D' Hd Hfail. exists D'. split; [exact Hd|]. unfold link_result. rewrite Hw, decide_False by done. by left.
    + intros c' s' D' Hd Hmade. exists D'. split; [exact Hd|]. unfold link_result. rewrite Hw, decide_False by done. by right.
Qed.

(** The body of [sys_link] with its two arguments. *)
Definition link_paths (old new : list Z) : M kst Z :=
  zoom klog_lens begin_op ;;
  r <- namei old ;;
  match r with None => zoom klog_lens end_op ;; ret (-1) | Some ip => link_found new ip end.
Lemma sys_link_paths : sys_link = (old <- argstr 0 MAXPATH ;; if fst old <? 0 then ret (-1) else new <- argstr 1 MAXPATH ;; if fst new <? 0 then ret (-1) else link_paths (snd old) (snd new)).
Proof. reflexivity. Qed.

Lemma wp_link_paths c s T D cwd old new :
  link_ready c s T D cwd -> Forall byte old -> Forall byte new ->
  wp (link_paths old new) c (set_fs (k_fs s) s) (fun c' s' r => exists D', call_done c (k_fs s) s T D c' s' D' /\ link_result D cwd old new r D').
Proof.
  intros Hr Hbo Hbn. pose proof Hr as [Hc Hid Htr Hheld Hrefs _ _ Hlinks [Hni Hsz]]. destruct (start_ok c s T D cwd old Hr) as (Hso & Hao & _).
  pose proof (id_tab _ _ _ _ _ _ _ Hid) as Ht. set (F := link_bound D cwd old new).
  unfold link_paths. wp_step. eapply (wp_kbegin dv start size sb (curpid c) c (k_fs s) s T D F); [apply Hc|apply Hid|unfold F, link_bound; cbn [length]; rewrite Nat2Z.inj_succ, (length_write_bound dv start size sb); lia|].
  intros f1 Hx1. fold (one_op (k_fs s)) in Hx1.
  wp_step. unfold namei. wp_step. eapply (wp_namex dv start size sb (one_op (k_fs s)) (curpid c) c f1 s T D D F (start_of cwd old) old name0 false); [done|done|exact Hx1|done|split; [done|lia|]|done| |done|apply name0_bytes|..].
  { intros k. specialize (Hrefs k). lia. }
  { destruct Hao as (? & ? & ?). split; [done|]. split; [done|by left]. }
  - rewrite (walk_path_abs sb) by (done || apply Hao). intros Hw c2 f2 T2 Hcc2 Hx2 Ht2 Hr2 Hk2. wp_steps. cbn [fmap option_fmap option_map].
    eapply (wp_call_end c (k_fs s) s T D c2 f2 T2 D F); [done|done|exact Hx2|apply Htr|done|done|done|]. intros c' s' D' Hd HD'. exists D'. split; [exact Hd|]. unfold link_result. rewrite Hw. split; [done|]. by apply same_ext; [apply Htr|].
  - rewrite (walk_path_abs sb) by (done || apply Hao). intros j e Hw c2 f2 T2 ip name Hcc2 Hx2 Hom2 _. wp_step. cbn [fmap option_fmap option_map fst]. by eapply wp_link_found.
Qed.

(** ** Afterwards *)

Lemma walk_false_nil A j es k e : walk_abs A false j es = Some (k, e) -> e = [].
Proof.
  revert j. induction es as [|x es IH]; intros j; cbn [walk_abs]; [by intros [= _ <-]|]. case_match; [done|]. cbn [andb]. destruct (afind A j x) as [[i [k' nm]]|]; [|done]. apply IH.
Qed.

Lemma same_tree D D' : tree_ok sb D -> disk_fs D' -> same_files D D' -> tree_ok sb D'.
Proof. intros [_ Ha]%(tree_abs sb) Hok Hs. apply (tree_abs sb). split; [done|]. eapply atree_like; [exact Ha|]. by apply like_ext. Qed.

(** The file system is well-formed after the call, and the new path leads where the old one did. *)
Lemma link_result_tree c s T D cwd old new r D' : link_ready c s T D cwd -> disk_fs D' -> link_result D cwd old new r D' ->
  tree_ok sb D' /\ (names_ok sb (absfile D) -> names_ok sb (absfile D')) /\
  (r = -1 /\ same_files D D' \/ r = 0 /\ walk_path sb D' false (start_of cwd new) (elements new) = walk_path sb D false (start_of cwd old) (elements old)).
Proof.
  intros Hr Hok'. pose proof Hr as [_ _ Htr _ _ _ _ Hlinks [Hni _]]. destruct (start_ok c s T D cwd old Hr) as (_ & Hao & Hpo). destruct (start_ok c s T D cwd new Hr) as (_ & Han & Hnp).
  pose proof (proj1 (tree_abs sb D) Htr) as [Hfs Ha]. unfold link_result.
  assert (0 < sb_ninodes sb) as Hn0 by (destruct Hao; lia).
  assert (forall P : Prop, r = -1 /\ same_files D D' -> tree_ok sb D' /\ (names_ok sb (absfile D) -> names_ok sb (absfile D')) /\ (r = -1 /\ same_files D D' \/ P)) as Hfail.
  { intros P [-> Hs]. split_and!; [by eapply same_tree|by apply names_ok_ext|by left]. }
  destruct (walk_abs _ false _ (elements old)) as [[j e0]|] eqn:Hw; [|apply Hfail]. case_decide as Hdir; [apply Hfail|]. intros [(-> & Hs & _)|(-> & jd & e & Hwn & Hf & Hcl & Hfiles)]; [by apply Hfail|].
  pose proof (walk_alloc sb (absfile D) _ _ _ _ _ Ha Hao Hw) as Haj. pose proof (walk_pos sb (absfile D) _ _ _ _ _ Ha Hao Hpo Hw) as Hjp. pose proof (Hlinks j Haj) as Hjn.
  assert (alloc sb (absfile D) j /\ 0 < j < 65536 /\ af_type (absfile D j) <> T_DIR /\ af_nlink (absfile D j) + 1 <> 0) as Hj. { split; [done|]. destruct Haj as ([_ ?] & _). split_and!; try done; lia. }
  assert (atree sb (link_files (absfile D) j jd e)) as Ha'. { by apply atree_link. }
  assert (like sb (link_files (absfile D) j jd e) (absfile D')) as Hl' by (by apply like_ext).
  assert (tree_ok sb D') as Htr'. { apply (tree_abs sb). split; [done|]. by eapply atree_like. }
  pose proof (walk_pos sb (absfile D) _ _ _ _ _ Ha Han Hnp Hwn) as Hjdp. pose proof (walk_alloc sb (absfile D) _ _ _ _ _ Ha Han Hwn) as Hajd. pose proof (walk_parent_dir _ _ _ _ _ Hwn) as Htjd.
  assert (isdir sb (absfile D) jd) as Hisd by (destruct Hajd; split; [lia|done]).
  split; [done|]. split; [intros Hnm; eapply (names_ok_ext sb _ _ Ha' Hn0 Hfiles), names_link; done|]. right. split; [done|]. rewrite !(walk_path_abs sb) by (done || apply Hao || apply Han). rewrite (walk_abs_like sb _ _ _ _ _ Ha' Hl') by apply Han.
  rewrite Hw, (walk_false_nil _ _ _ _ _ Hw). eapply (walk_link sb _ _ jd e); [done|done|split; [by eapply (walk_alloc sb _ _ _ _ _ _ Ha Han)|by eapply walk_parent_dir]|done|done|apply Han|done].
Qed.

Lemma wp_sys_link `{Layout} c s T D l N us cwd old new :
  link_ready c s T D cwd -> user_pages (k_mem s) l (p_pagetable (k_procs s (me c))) N us -> arg_path c s N 0 old -> arg_path c s N 1 new ->
  wp sys_link c s (fun c' s' r => match old, new with
    | Some po, Some pn => exists D', call_done c (k_fs s) s T D c' s' D' /\ link_result D cwd po pn r D'
    | _, _ => c' = c /\ s' = s /\ r = -1
    end).
Proof.
  intros Hr Hu Ho Hn. rewrite sys_link_paths. wp_step. eapply (wp_argstr c s l N us 0 old); [done|lia|done|]. intros r1 b1 H1. cbn [fst snd].
  destruct old as [po|]; [|rewrite H1; cbn [Z.ltb Z.compare]; by wp_step]. destruct H1 as [H1 ->]. rewrite (proj2 (Z.ltb_ge r1 0)) by done.
  wp_step. eapply (wp_argstr c s l N us 1 new); [done|lia|done|]. intros r2 b2 H2. cbn [fst snd].
  destruct new as [pn|]; [|rewrite H2; cbn [Z.ltb Z.compare]; by wp_step]. destruct H2 as [H2 ->]. rewrite (proj2 (Z.ltb_ge r2 0)) by done.
  rewrite <- (set_fs_id s) at 1. apply wp_link_paths; [done|by eapply arg_path_bytes..].
Qed.

Lemma call_none c s T : idle (k_fs s) T (kdisk s) -> call_done c (k_fs s) s T (kdisk s) c s (kdisk s).
Proof.
  intros Hid. split; [by split_and!|done|]. exists (k_fs s), T, []. split_and!; [by rewrite set_fs_id|done|done|apply keeps_refl|done|]. destruct (q_txn _ _ _ _ _ _ _ (id_quiet _ _ _ _ _ _ _ Hid)) as (V & Ht). destruct Ht as [_ _ _ _ _ _ _ _ _ Hh Hhl]. by apply (crash_step_nil start size geo_size).
Qed.

(** After a crash at any disk write of the call, boot finds the files of before or of after. *)
Lemma link_crash c s T D c' s' D' : sb_logstart sb = start -> sb_nlog sb = size -> tree_ok sb D -> tree_ok sb D' -> call_done c (k_fs s) s T D c' s' D' ->
  exists T' W, idle (k_fs s') T' D' /\ (forall k, irefs T' k = irefs T k) /\ kwrites s' = kwrites s ++ W /\
    forall k p n w, exists c2 s2, boot dv sb (mkcpu [] p n w 0 []) (boot_state (fsets D (take k W))) = Ret c2 s2 tt /\
      tree_ok sb (dsk (lbio s2)) /\ (same_files D (dsk (lbio s2)) \/ same_files D' (dsk (lbio s2))).
Proof.
  intros Hls Hnl Htr Htr' [_ _ (f' & T' & W & -> & Hid & Hr & _ & Hw & Hcr)]. exists T', W. split_and!; [done|done|unfold kwrites; cbn [k_fs set_fs]; by rewrite Hw, reverse_app, reverse_involutive|].
  intros k p n w. destruct Hcr as [_ Hcr]. destruct (Hcr k) as [Hok Hlog]. destruct (boot_recovers dv start size sb (fsets D (take k W)) p n w Hls Hnl Hok) as (c2 & s2 & Hb & Hd).
  exists c2, s2. split; [exact Hb|].
  destruct Hlog as [[_ Hlog]|Hlog]; (assert (forall b, sb_inodestart sb <= b -> dsk (lbio s2) b = _) as He by (intros b Hge; rewrite Hd, Hlog by (by apply (quiet_home dv start size sb)); reflexivity)).
  - split; [by apply (tree_ok_ext dv start size sb D)|left; by apply same_ext; [apply Htr|]].
  - split; [by apply (tree_ok_ext dv start size sb D')|right; by apply same_ext; [apply Htr'|]].
Qed.

End call.

(** * The example *)

(** [link("f", "g")] on the example file system: the arguments and the strings are in the
    process's first page. *)
Definition demo_call : M kmem Z :=
  demo_grow ;; copyout demo_root 112 ([144; 0; 0; 0; 0; 0; 0; 0; 146; 0; 0; 0; 0; 0; 0; 0] ++ replicate 16 0 ++ [102; 0; 103; 0]) 36.

Lemma demo_args : exists m l N us, user_pages m l demo_root N us /\ load64 (kmem_mem m) 0x87ff1070 = 144 /\ load64 (kmem_mem m) 0x87ff1078 = 146 /\
  copyinstr demo_root 144 MAXPATH cpu0 m = Ret cpu0 m (0, [102; 0]) /\ copyinstr demo_root 146 MAXPATH cpu0 m = Ret cpu0 m (0, [103; 0]).
Proof.
  destruct demo_grown as (_ & _ & m0 & l & N & us & _ & _ & Hd & Hu & _). set (data := [144; 0; 0; 0; 0; 0; 0; 0; 146; 0; 0; 0; 0; 0; 0; 0] ++ replicate 16 0 ++ [102; 0; 103; 0]).
  destruct (copyout_correct cpu0 m0 l demo_root N us 112 data Hu ltac:(lia)) as (m & r & _ & Hrun & Hu' & _). exists m, l, N, us.
  assert (demo_call cpu0 demo_kmem = Ret cpu0 m r) as Hc by (unfold demo_call, bind; rewrite Hd; exact Hrun).
  assert (result_of ((demo_call ;; gets (fun m => load64 (kmem_mem m) 0x87ff1070)) cpu0 demo_kmem) = Some 144) as H1 by (vm_compute; reflexivity).
  assert (result_of ((demo_call ;; gets (fun m => load64 (kmem_mem m) 0x87ff1078)) cpu0 demo_kmem) = Some 146) as H2 by (vm_compute; reflexivity).
  assert (result_of ((demo_call ;; copyinstr demo_root 144 MAXPATH) cpu0 demo_kmem) = Some (0, [102; 0])) as H3 by (vm_compute; reflexivity).
  assert (result_of ((demo_call ;; copyinstr demo_root 146 MAXPATH) cpu0 demo_kmem) = Some (0, [103; 0])) as H4 by (vm_compute; reflexivity).
  unfold bind in H1, H2, H3, H4. rewrite Hc in H1, H2, H3, H4. cbn [obind gets result_of] in H1, H2. simpl obind in H3. simpl obind in H4.
  destruct (copyinstr_correct cpu0 m l demo_root N us 144 MAXPATH Hu' ltac:(lia) ltac:(done)) as (r1 & d1 & E1 & _). rewrite E1 in H3. injection H3 as -> ->.
  destruct (copyinstr_correct cpu0 m l demo_root N us 146 MAXPATH Hu' ltac:(lia) ltac:(done)) as (r2 & d2 & E2 & _). rewrite E2 in H4. injection H4 as -> ->.
  split_and!; congruence || done.
Qed.

(** The calling process, with its trapframe at the example's arguments. *)
Definition demo_caller : proc := set_trapframe 0x87ff1000 demo_proc.
Definition demo_lst (m : kmem) (f : fsst) : kst := set_procs (fun _ => demo_caller) (demo_kst m f).

Lemma demo_ready m f : idle 1 2 30 img_sb (k_fs (demo_kst m f)) demo_itable (kdisk (demo_kst m f)) -> (forall b, sb_inodestart img_sb <= b -> kdisk (demo_kst m f) b = img b) ->
  link_ready 1 2 30 img_sb cpu0 (demo_lst m f) demo_itable (kdisk (demo_kst m f)) 1.
Proof.
  intros Hid He. pose proof (demo_room (kdisk (demo_kst m f))) as Hro. assert (alloc img_sb (absfile img_sb (kdisk (demo_kst m f))) 1) as H1.
  { split; [done|]. unfold absfile. cbn [af_type af_nlink]. by rewrite demo_dnode. }
  split; try done.
  - apply cpu0_fcpu.
  - by apply demo_tree.
  - vm_compute. lia.
  - intros k. unfold irefs, contrib, NINODE. cbn -[Z.eqb Z.lt]. destruct (2 =? k), (1 =? k), (0 =? k); by vm_compute.
  - split_and!; [done..|lia|]. exists 1%nat. split; [reflexivity|]. split; [unfold NINODE; lia|]. split; [cbn; lia|reflexivity].
  - intros k (Hk & H2 & H3). unfold absfile in *. cbn [af_type af_nlink] in *. rewrite demo_dnode in * by done. unfold img_node in *. repeat case_match; cbn in *; try lia; done.
Qed.

