(* ===== verification/FsTrunc.v ===== *)
(** Freeing files: [itrunc] gives the blocks of an inode back, and [iput] of the last reference to
    a file without names frees the inode. *)
From S2P Require Import Prelude Memory Riscv Kalloc Vm VmTree VmMap VmUser VmCopy VmProps UserMem Sleeplock Bio BioInv BioSpec Log LogPure LogSpec LogTxn LogProps Fs FsTxn FsDisk FsAlloc FsGrow FsInode FsTable State Process FsFile FsPath FsIo FsDir Uart Console Pipe File ProcLife Exec Syscall FsSys FsAbs FsMount FsProps FsLink.

#[local] Arguments loop : simpl never.

Section trunc.
Context (dv start size : Z) (sb : superblock) (K : fconst) `{G : !FsGeo dv start size sb}.
Abbreviation ftx := (ftx dv start size sb K).
Abbreviation fsok := (fsok sb).
Abbreviation dnode := (dnode sb).
Abbreviation absfile := (absfile sb).
Abbreviation disk_fs := (disk_fs sb).
Abbreviation itab := (itab dv sb).
Abbreviation used := (used sb).
Abbreviation dstart := (dstart sb).

(** ** Unmarking blocks *)

(** [V'] is [V] with the blocks of [S] unmarked. *)
Record freed (V V' : Z -> block) (S : Z -> Prop) : Prop := {
  fr_len : blocks_ok sb V';
  fr_used x : 0 <= x < sb_size sb -> used V' x <-> used V x /\ ~ S x;
  fr_other x : ~ (sb_bmapstart sb <= x < dstart) -> V' x = V x;
}.
Lemma freed_nil V (S : Z -> Prop) : blocks_ok sb V -> (forall x, ~ S x) -> freed V V S.
Proof. intros Hl HS. split; [done| |done]. intros x _. naive_solver. Qed.
Lemma freed_iff V V' (S S' : Z -> Prop) : freed V V' S -> (forall x, S x <-> S' x) -> freed V V' S'.
Proof. intros [H1 H2 H3] HS. split; [done| |done]. intros x Hx. by rewrite H2, HS. Qed.

Lemma free_view_used V b x : blocks_ok sb V -> dstart <= b < sb_size sb -> 0 <= x < sb_size sb -> used (free_view sb V b) x <-> used V x /\ x <> b.
Proof.
  intros Hl Hb Hx. pose proof (geo_bounds sb) as Hg. unfold FsDisk.used.
  destruct (BBLOCK_val sb x Hx) as [_ HBx], (BBLOCK_val sb b ltac:(lia)) as [_ HBb]. unfold free_view.
  pose proof (bit_in_block b ltac:(lia)) as Hi. pose proof (Z.mod_pos_bound b BPB ltac:(done)). pose proof (Z.mod_pos_bound x BPB ltac:(done)).
  destruct (decide (BBLOCK x sb = BBLOCK b sb)) as [He|He].
  - rewrite He, fset_eq, bit_set_clear by (rewrite ?Hl by lia; lia). destruct (Z.eqb_spec (b mod BPB) (x mod BPB)) as [Hm|Hm]; cbn [negb andb].
    + assert (b = x) by (by apply (bit_inj dv start size sb); try lia). naive_solver.
    + split; [|by intros [? _]]. intros ?. split; [done|]. by intros ->.
  - rewrite fset_ne by done. split; [|by intros [? _]]. intros ?. split; [done|]. by intros ->.
Qed.

Lemma freed_step V V1 (S : Z -> Prop) b : freed V V1 S -> dstart <= b < sb_size sb -> freed V (free_view sb V1 b) (fun x => S x \/ x = b).
Proof.
  intros [H1 H2 H3] Hb. pose proof (geo_bounds sb) as Hg. destruct (BBLOCK_val sb b ltac:(lia)) as [_ HB]. split.
  - intros x Hx. unfold free_view, fset. case_match; [rewrite length_clear_bit; apply H1; lia|by apply H1].
  - intros x Hx. rewrite free_view_used, H2 by done. naive_solver.
  - intros x Hx. unfold free_view. rewrite fset_ne by lia. by apply H3.
Qed.

(** Unmarking blocks that no inode refers to. *)
Lemma fsok_freed I V V' (S : Z -> Prop) : fsok I V -> freed V V' S -> (forall x, S x -> dstart <= x) -> (forall j k b, refers sb I V j k b -> ~ S b) ->
  fsok I V' /\ (forall j k, 0 <= j < sb_ninodes sb -> slot V' (d_addrs (I j)) k = slot V (d_addrs (I j)) k) /\
  (forall j pos, 0 <= j < sb_ninodes sb -> 0 <= pos < MAXFILE * BSIZE -> fbyte V' (d_addrs (I j)) pos = fbyte V (d_addrs (I j)) pos).
Proof.
  intros Hok [F1 F2 F3] HS Hno. pose proof (geo_bounds sb) as Hg.
  assert (forall j k, 0 <= j < sb_ninodes sb -> slot V' (d_addrs (I j)) k = slot V (d_addrs (I j)) k) as Hs.
  { apply (slot_keep sb). intros j Hj Ha. apply F3. pose proof (ok_ref _ _ _ Hok _ _ _ (refers_ind sb I V j Hj Ha)). lia. }
  assert (forall j k b, refers sb I V' j k b -> refers sb I V j k b) as Hr.
  { intros j k b (Hj & Hk & <- & Hb). split_and!; try done; try lia; by rewrite <- Hs. }
  split_and!; [|done|].
  - destruct Hok as [H1 H2 H3 H4 H5 H6 H7]. split; try done.
    + intros b Hb. apply F2; [lia|]. split; [auto|]. intros Hsb%HS. lia.
    + intros j k b Hjk%Hr. destruct (H4 j k b Hjk). split; [done|]. apply F2; [lia|]. split; [done|]. by eapply Hno.
    + intros j k j' k' b Ha%Hr Hb%Hr. eauto.
    + intros j bn Hj Hbn Hsz. rewrite Hs by done. auto.
  - intros j pos Hj Hpos. apply fbyte_ext. cbn zeta. rewrite Hs by done. split; [done|]. intros Hne.
    destruct (pos_slot pos Hpos) as [Hk _].
    assert (refers sb I V j (fslot (pos / BSIZE)) (slot V (d_addrs (I j)) (fslot (pos / BSIZE)))) as Hrf by (split_and!; try done; lia).
    apply F3. pose proof (ok_ref _ _ _ Hok _ _ _ Hrf). lia.
Qed.

(** ** itrunc *)

(** The blocks at the slots [P] of an inode with block pointers [l]. *)
Definition at_slots (V : Z -> block) (l : list Z) (P : Z -> Prop) (x : Z) : Prop := exists k, 0 <= k < NSLOTS /\ P k /\ x = slot V l k /\ x <> 0.

Section inode.
Context (V : Z -> block) (inum : Z).
Hypothesis Hok : disk_fs V.
Hypothesis Hi : 0 <= inum < sb_ninodes sb.
Abbreviation l := (d_addrs (dnode V inum)).

Lemma slot_refers k : 0 <= k < NSLOTS -> slot V l k <> 0 -> refers sb (dnode V) V inum k (slot V l k).
Proof. intros Hk Hs. split_and!; try done; lia. Qed.
Lemma at_slots_data P x : at_slots V l P x -> dstart <= x < sb_size sb.
Proof. intros (k & Hk & _ & -> & Hs). by apply (ok_ref _ _ _ Hok inum k), slot_refers. Qed.

Lemma wp_free_slot pid c s T V1 D F hs (P : Z -> Prop) k (Q : cpu -> fsst -> unit -> Prop) :
  lcpu c -> curpid c = pid -> ftx pid s T V1 D F hs [] -> freed V V1 (at_slots V l P) -> data_held sb V1 hs -> bitmap_in sb F -> 0 <= k < NSLOTS -> ~ P k -> slot V l k <> 0 ->
  (forall c' s' V', same_cpu c c' -> ftx pid s' T V' D F hs [] -> freed V V' (at_slots V l (fun k' => P k' \/ k' = k)) -> Q c' s' tt) ->
  wp (bfree dv (slot V l k)) c s Q.
Proof.
  intros Hc Hp Hx Hf Hh HF Hk HP Hs HQ. pose proof (slot_refers k Hk Hs) as Hr. destruct (ok_ref _ _ _ Hok _ _ _ Hr) as [Hb Hu]. pose proof (geo_bounds sb) as Hg.
  eapply (wp_bfree dv start size sb K); [done|done|exact Hx|done|done|lia| |].
  - apply (fr_used _ _ _ Hf); [lia|]. split; [done|]. intros (k' & Hk' & HP' & E & _). assert (refers sb (dnode V) V inum k' (slot V l k)) as Hr' by (rewrite E; apply slot_refers; [done|congruence]).
    destruct (ok_inj _ _ _ Hok _ _ _ _ _ Hr Hr') as [_ ->]. done.
  - intros c' s' Hcc Hx'. eapply HQ; [done|exact Hx'|]. eapply freed_iff; [by apply freed_step|]. intros x. unfold at_slots. split.
    + intros [(k' & ? & ? & ? & ?)| ->]; [exists k'|exists k]; auto.
    + intros (k' & ? & [?| ->] & ? & ?); [left; exists k'; auto|by right].
Qed.

Lemma wp_trunc_direct pid c s T D F ip (Q : cpu -> fsst -> unit -> Prop) :
  lcpu c -> curpid c = pid -> ftx pid s T V D F [] [] -> i_dev (T ip) = dv -> core (T ip) = dnode V inum -> bitmap_in sb F ->
  (forall c' s' T' V', same_cpu c c' -> ftx pid s' T' V' D F [] [] -> T' ip = set_addrs (replicate 12 0 ++ drop 12 l) (T ip) -> (forall i, i <> ip -> T' i = T i) ->
     freed V V' (at_slots V l (fun k => k < NDIRECT)) -> Q c' s' tt) ->
  wp (loop (S (Z.to_nat NDIRECT)) (fun i =>
    if i <? NDIRECT then
      x <- get_inode ip ;;
      (if negb (addr_at x i =? 0) then
         bfree (i_dev x) (addr_at x i) ;;
         upd_inode ip (set_addr i 0)
       else ret tt) ;;
      ret (inl (i + 1))
    else ret (inr tt)) 0) c s Q.
Proof.
  intros Hc Hp Hx Hd Hco HF HQ. pose proof (ok_node _ _ _ Hok _ Hi) as (_ & _ & _ & _ & _ & Hlen & _). assert (i_addrs (T ip) = l) as Hl by (by rewrite <- Hco).
  eapply (wp_loop (fun i c' s' => 0 <= i <= NDIRECT /\ exists T1 V1, same_cpu c c' /\ ftx pid s' T1 V1 D F [] [] /\ T1 ip = set_addrs (replicate (Z.to_nat i) 0 ++ drop (Z.to_nat i) l) (T ip) /\ (forall k, k <> ip -> T1 k = T k) /\
    freed V V1 (at_slots V l (fun k => k < i))) (fun i => Z.to_nat (NDIRECT - i))); [|change NDIRECT with 12; lia|].
  2: { split; [done|]. exists T, V. split_and!; try done; [by rewrite drop_0, <- Hl; destruct (T ip)|]. apply freed_nil; [apply Hok|]. intros x (k & ? & ? & _). lia. }
  intros i c1 s1 (Hir & T1 & V1 & Hcc & Hx1 & HT1 & Hne & Hf). assert (lcpu c1) as Hc1 by (by eapply same_lcpu). assert (curpid c1 = pid) as Hp1 by (by eapply same_pid).
  change NDIRECT with 12 in *. destruct (Z.ltb_spec i 12) as [Hlt|Hge].
  2: { wp_step. assert (i = 12) as -> by lia. by eapply (HQ c1 s1 T1 V1). }
  wp_step. eapply (wp_get_inode dv start size sb K); [exact Hx1|]. assert (addr_at (T1 ip) i = slot V l i) as Ha.
  { rewrite HT1. unfold addr_at, slot, addr_l. cbn [set_addrs i_addrs]. rewrite lookup_app_r by (rewrite length_replicate; lia). rewrite length_replicate, Nat.sub_diag, lookup_drop, Nat.add_0_r. change NDIRECT with 12. rewrite (proj2 (Z.leb_le i 12)) by lia. done. }
  assert (i_dev (T1 ip) = dv) as Hd1 by (by rewrite HT1). rewrite Ha, Hd1.
  destruct (lookup_lt_is_Some_2 l (Z.to_nat i)) as [a Hla]; [lia|]. assert (slot V l i = a) as Hsa. { unfold slot, addr_l. change NDIRECT with 12. rewrite (proj2 (Z.leb_le i 12)) by lia. by rewrite Hla. }
  assert (Z.to_nat (i + 1) = S (Z.to_nat i)) as Hi1 by lia. assert (replicate (Z.to_nat (i + 1)) 0 = replicate (Z.to_nat i) 0 ++ [0]) as Hrep by (rewrite Hi1; apply replicate_S_end).
  destruct (Z.eqb_spec (slot V l i) 0) as [H0|H0]; cbn [negb].
  - wp_step. wp_step. split; [|lia]. split; [lia|]. exists T1, V1. split_and!; try done.
    + rewrite HT1, Hrep, <- app_assoc, Hi1. f_equal. f_equal. rewrite (drop_S l a) by done. by rewrite <- H0, Hsa.
    + eapply freed_iff; [exact Hf|]. intros x. split; intros (k & ? & ? & -> & ?); exists k; split_and!; try done; try lia. destruct (decide (k = i)) as [->|]; [done|lia].
  - wp_step. wp_step. eapply (wp_free_slot pid c1 s1 T1 V1 D F [] (fun k => k < i) i); [done|done|exact Hx1|done|split; [cbn; lia|by intros b ?%not_elem_of_nil]|done|change NSLOTS with 269; lia|lia|done|].
    intros c2 s2 V2 Hcc2 Hx2 Hf2. eapply (wp_upd_inode dv start size sb K); [exact Hx2|]. intros s3 Hx3. wp_step. split; [|lia]. split; [lia|]. eexists _, V2. split_and!; [by eapply same_cpu_trans|exact Hx3| | |].
    + rewrite upd_itable_eq, HT1. unfold set_addr. cbn [set_addrs i_addrs]. rewrite insert_app_r_alt by (rewrite length_replicate; lia). rewrite length_replicate, Nat.sub_diag, (drop_S l a) by done. cbn. by rewrite Hrep, <- app_assoc, Hi1.
    + intros k Hk. rewrite upd_itable_ne by done. auto.
    + eapply freed_iff; [exact Hf2|]. intros x. split; intros (k & ? & ? & -> & ?); exists k; split_and!; try done; lia.
Qed.

(** The blocks an indirect block points to. *)
Lemma wp_trunc_indirect pid c s T V1 D F bp (Q : cpu -> fsst -> unit -> Prop) :
  let a := addr_l l NDIRECT in
  lcpu c -> curpid c = pid -> a <> 0 -> ftx pid s T V1 D F [(a, bp)] [] -> freed V V1 (at_slots V l (fun k => k < NDIRECT)) -> bitmap_in sb F ->
  (forall c' s' V', same_cpu c c' -> ftx pid s' T V' D F [(a, bp)] [] -> freed V V' (at_slots V l (fun k => k <> NDIRECT)) -> Q c' s' tt) ->
  wp (loop (S (Z.to_nat NINDIRECT)) (fun j =>
       if j <? NINDIRECT then
         a <- fdata bp ;;
         (if negb (get32 a (4 * Z.to_nat j) =? 0) then bfree dv (get32 a (4 * Z.to_nat j)) else ret tt) ;;
         ret (inl (j + 1))
       else ret (inr tt)) 0) c s Q.
Proof.
  intros a Hc Hp Ha Hx Hf HF HQ. pose proof (slot_refers NDIRECT ltac:(done) Ha) as Hr. destruct (ok_ref _ _ _ Hok _ _ _ Hr) as [Hab Hau]. change (slot V l NDIRECT) with a in *. pose proof (geo_bounds sb) as Hg.
  eapply (wp_loop (fun j c' s' => 0 <= j <= NINDIRECT /\ exists V2, same_cpu c c' /\ ftx pid s' T V2 D F [(a, bp)] [] /\ freed V V2 (at_slots V l (fun k => k < NDIRECT \/ NDIRECT < k < NDIRECT + 1 + j)))
    (fun j => Z.to_nat (NINDIRECT - j))); [|change NINDIRECT with 256; lia|].
  2: { split; [done|]. exists V1. split_and!; try done. eapply freed_iff; [exact Hf|]. intros x. split; intros (k & ? & ? & -> & ?); exists k; split_and!; try done; lia. }
  intros j c1 s1 (Hjr & V2 & Hcc & Hx1 & Hf1). assert (lcpu c1) as Hc1 by (by eapply same_lcpu). assert (curpid c1 = pid) as Hp1 by (by eapply same_pid).
  change NINDIRECT with 256 in *. destruct (Z.ltb_spec j 256) as [Hlt|Hge].
  2: { wp_step. assert (j = 256) as -> by lia. eapply (HQ c1 s1 V2); try done. eapply freed_iff; [exact Hf1|]. change NDIRECT with 12. intros x. split; intros (k & Hk & ? & -> & ?); exists k; change NSLOTS with 269 in *; split_and!; try done; lia. }
  wp_step. eapply (wp_fdata dv start size sb K); [exact Hx1|by left|]. assert (V2 a = V a) as HV2 by (apply (fr_other _ _ _ Hf1); lia). rewrite HV2.
  assert (get32 (V a) (4 * Z.to_nat j) = slot V l (13 + j)) as Hs.
  { unfold slot. change NDIRECT with 12. rewrite (proj2 (Z.leb_gt _ _)) by lia. change (addr_l l 12) with a. rewrite (proj2 (Z.eqb_neq a 0) Ha). do 2 f_equal. lia. }
  rewrite Hs. destruct (Z.eqb_spec (slot V l (13 + j)) 0) as [H0|H0]; cbn [negb].
  - wp_step. wp_step. wp_step. split; [|lia]. split; [lia|]. exists V2. split_and!; try done. eapply freed_iff; [exact Hf1|]. change NDIRECT with 12. intros x. split; intros (k & ? & ? & -> & ?); exists k; split_and!; try done; try lia. destruct (decide (k = 13 + j)) as [->|]; [done|lia].
  - wp_step. eapply (wp_free_slot pid c1 s1 T V2 D F [(a, bp)] _ (13 + j)); [done|done|exact Hx1|exact Hf1| |done|change NSLOTS with 269; lia|cbv beta; change NDIRECT with 12; lia|done|].
    + split; [cbn; lia|]. intros b [->|?%not_elem_of_nil]%elem_of_cons; [|done]. split; [done|]. apply (fr_used _ _ _ Hf1); [cbn; lia|]. split; [done|]. intros (k & Hk & HP & E & _). change (a = slot V l k) in E.
      assert (refers sb (dnode V) V inum k a) as Hr' by (rewrite E; apply slot_refers; [done|by rewrite <- E]). destruct (ok_inj _ _ _ Hok _ _ _ _ _ Hr Hr') as [_ <-]. change NDIRECT with 12 in HP. lia.
    + intros c2 s2 V3 Hcc2 Hx2 Hf2. wp_step. split; [|lia]. split; [lia|]. exists V3. split_and!; [by eapply same_cpu_trans|exact Hx2|]. eapply freed_iff; [exact Hf2|]. change NDIRECT with 12. intros x. split; intros (k & ? & ? & -> & ?); exists k; split_and!; try done; lia.
Qed.

(** The inode after [itrunc]. *)
Definition emptied (x : inode) : inode := set_size 0 (set_addrs (replicate 13 0) x).

Lemma emptied_ok V1 x : freed V V1 (at_slots V l (fun _ => True)) -> i_inum x = inum -> core x = dnode V inum ->
  let V' := stored sb V1 (emptied x) in
  disk_fs V' /\ dnode V' inum = core (emptied x) /\ (forall k, 0 <= k < sb_ninodes sb -> k <> inum -> dnode V' k = dnode V k) /\
  (forall k, 0 <= k < sb_ninodes sb -> k <> inum -> absfile V' k = absfile V k).
Proof.
  intros Hf Hin Hco V'. pose proof (ok_node _ _ _ Hok _ Hi) as Hd. rewrite <- Hco in Hd. set (y := emptied x) in *. pose proof (geo_bounds sb) as Hg.
  assert (dino_ok (core y)) as Hdy. { destruct Hd as (H1 & H2 & H3 & H4 & H5 & H6 & H7). split; [exact H1|]. split; [exact H2|]. split; [exact H3|]. split; [exact H4|]. split; [done|]. split; [done|]. apply Forall_replicate. lia. }
  set (I := fset (dnode V) inum (core y)). assert (forall k, I inum = core y /\ (k <> inum -> I k = dnode V k)) as HI by (intros k; unfold I, fset; rewrite Z.eqb_refl; split; [done|]; intros Hk; by rewrite (proj2 (Z.eqb_neq _ _) Hk)).
  assert (forall k, slot V (d_addrs (core y)) k = 0) as Hz.
  { intros k. unfold slot, addr_l. cbn [core d_addrs y emptied set_size set_addrs i_addrs]. change (default 0 (replicate 13 0 !! Z.to_nat NDIRECT)) with 0. cbn [Z.eqb]. case_match; [|done]. destruct (replicate 13 0 !! Z.to_nat k) as [z|] eqn:E; [|done]. apply lookup_replicate in E as [-> _]. done. }
  assert (forall j k b, refers sb I V j k b -> j <> inum /\ refers sb (dnode V) V j k b) as Hr.
  { intros j k b (Hj & Hk & Hs & Hb). destruct (decide (j = inum)) as [->|Hne]; [rewrite (proj1 (HI 0)), Hz in Hs; congruence|]. rewrite (proj2 (HI j)) in Hs by done. split; [done|]. split_and!; try done; lia. }
  assert (fsok I V) as HokI.
  { destruct Hok as [H1 H2 H3 H4 H5 H6 H7]. split; try done.
    - intros j Hj. destruct (decide (j = inum)) as [->|Hne]; [by rewrite (proj1 (HI 0))|]. rewrite (proj2 (HI j)) by done. auto.
    - intros j k b [_ ?]%Hr. eauto.
    - intros j k j' k' b [_ Ha]%Hr [_ Hb]%Hr. eauto.
    - intros j Hj. destruct (decide (j = inum)) as [->|Hne]; [by rewrite (proj1 (HI 0))|]. rewrite (proj2 (HI j)) by done. auto.
    - intros j bn Hj Hbn. destruct (decide (j = inum)) as [->|Hne]; [rewrite (proj1 (HI 0)); cbn; change BSIZE with 1024; lia|]. rewrite (proj2 (HI j)) by done. auto. }
  destruct (fsok_freed I V V1 _ HokI Hf) as (Hok1 & _ & Hby1).
  { intros z Hz'. apply at_slots_data in Hz'. lia. }
  { intros j k b [Hne Hjk]%Hr (k' & Hk' & _ & -> & Hs). destruct (ok_inj _ _ _ Hok _ _ _ _ _ Hjk (slot_refers k' Hk' Hs)). done. }
  assert (i_inum y = inum) as Hiy by done. destruct (stored_ok dv start size sb I V1 y Hok1 ltac:(by rewrite Hiy)) as [Hok2 Hby2]. fold V' in Hok2, Hby2.
  assert (forall k, 0 <= k < sb_ninodes sb -> dnode V1 k = dnode V k) as Hd1. { intros k Hk. unfold FsDisk.dnode. rewrite (fr_other _ _ _ Hf); [done|]. pose proof (IBLOCK_val sb k Hk). lia. }
  assert (forall k, 0 <= k < sb_ninodes sb -> dnode V' k = I k) as Hdn.
  { intros k Hk. unfold V'. rewrite (dnode_stored dv start size sb V1 y k) by (done || (by rewrite Hiy) || apply Hf). rewrite Hiy. case_decide as E; [by rewrite E, (proj1 (HI 0))|]. by rewrite (proj2 (HI k)), Hd1. }
  split_and!; [eapply (fsok_ext_node sb I); [done|by intros j Hj; rewrite Hdn]|by rewrite Hdn, (proj1 (HI 0))|intros k Hk Hne; by rewrite Hdn, (proj2 (HI k))|].
  intros k Hk Hne. assert (dnode V' k = dnode V k) as E by (by rewrite Hdn, (proj2 (HI k))). unfold FsSys.absfile. rewrite E. f_equal. unfold fbytes. apply list_fmap_ext. intros i p [-> Hp]%lookup_seq.
  pose proof (ok_size _ _ _ Hok k Hk). specialize (Hby1 k (Z.of_nat i) Hk ltac:(lia)). specialize (Hby2 k (Z.of_nat i) Hk ltac:(lia)). rewrite (proj2 (HI k) Hne) in Hby1, Hby2. change (fbyte V' (d_addrs (dnode V k)) (Z.of_nat i) = fbyte V (d_addrs (dnode V k)) (Z.of_nat i)). congruence.
Qed.

Lemma wp_itrunc pid c s T D F ip (Q : cpu -> fsst -> unit -> Prop) :
  lcpu c -> curpid c = pid -> ftx pid s T V D F [] [] -> i_dev (T ip) = dv -> i_inum (T ip) = inum -> core (T ip) = dnode V inum -> bitmap_in sb F -> IBLOCK inum sb ∈ F ->
  (forall c' s' T' V1, same_cpu c c' -> ftx pid s' T' (stored sb V1 (emptied (T ip))) D F [] [] -> T' ip = emptied (T ip) -> (forall i, i <> ip -> T' i = T i) ->
     freed V V1 (at_slots V l (fun _ => True)) -> Q c' s' tt) ->
  wp (itrunc ip) c s Q.
Proof.
  intros Hc Hp Hx Hd Hin Hco HF HFi HQ. pose proof (ok_node _ _ _ Hok _ Hi) as (_ & _ & _ & _ & _ & Hlen & _). pose proof (geo_bounds sb) as Hg.
  assert (forall c' s' T' V1, same_cpu c c' -> ftx pid s' T' V1 D F [] [] -> T' ip = set_addrs (replicate 13 0) (T ip) -> (forall i, i <> ip -> T' i = T i) -> freed V V1 (at_slots V l (fun _ => True)) ->
    wp (upd_inode ip (set_size 0) ;; iupdate ip) c' s' Q) as Hend.
  { intros c1 s1 T1 V1 Hcc Hx1 HT1 Hne Hf. wp_step. eapply (wp_upd_inode dv start size sb K); [exact Hx1|]. intros s2 Hx2. set (T2 := upd_itable ip _ T1) in *. assert (T2 ip = emptied (T ip)) as HT2 by (unfold T2; by rewrite upd_itable_eq, HT1).
    eapply (wp_iupdate dv start size sb K); [by eapply same_lcpu|by eapply same_pid|exact Hx2|by rewrite HT2|by rewrite HT2; cbn; rewrite Hin|by rewrite HT2; cbn; rewrite Hin|].
    intros c3 s3 Hcc3 Hx3. rewrite HT2 in Hx3. eapply (HQ c3 s3 T2 V1); [by eapply same_cpu_trans|exact Hx3|done| |done]. intros i Hii. unfold T2. rewrite upd_itable_ne by done. auto. }
  assert (forall y, replicate 12 0 ++ y :: drop 13 l = replicate 12 0 ++ [y]) as Hl13 by (intros y; rewrite drop_ge by lia; done).
  unfold itrunc. wp_step. eapply wp_trunc_direct; [done|done|exact Hx|done|done|done|]. intros c1 s1 T1 V1 Hcc1 Hx1 HT1 Hne1 Hf1. assert (lcpu c1) as Hc1 by (by eapply same_lcpu). assert (curpid c1 = pid) as Hp1 by (by eapply same_pid).
  destruct (lookup_lt_is_Some_2 l 12%nat) as [a Hla]; [lia|]. assert (addr_l l NDIRECT = a) as Ha by (unfold addr_l; change (Z.to_nat NDIRECT) with 12%nat; by rewrite Hla).
  assert (drop 12 l = [a]) as Hdr by (rewrite (drop_S l a 12) by done; by rewrite drop_ge by lia). rewrite Hdr in HT1.
  wp_step. eapply (wp_get_inode dv start size sb K); [exact Hx1|]. assert (addr_at (T1 ip) NDIRECT = a) as -> by (by rewrite HT1). assert (i_dev (T1 ip) = dv) as -> by (by rewrite HT1).
  destruct (Z.eqb_spec a 0) as [->|Hne]; cbn [negb].
  - wp_step. wp_step. eapply (Hend c1 s1 T1 V1); try done. eapply freed_iff; [exact Hf1|]. intros x. split; intros (k & Hk & ? & -> & Hs); exists k; split_and!; try done; try lia. destruct (decide (k < NDIRECT)) as [|Hge]; [done|]. destruct Hs. unfold slot. rewrite Ha, Z.eqb_refl. case_match eqn:E; [|done]. apply Z.leb_le in E. assert (k = NDIRECT) as -> by lia. exact Ha.
  - pose proof (slot_refers NDIRECT ltac:(done) ltac:(unfold slot; cbn; rewrite <- Ha in Hne; exact Hne)) as Hr. change (slot V l NDIRECT) with (addr_l l NDIRECT) in Hr. destruct (ok_ref _ _ _ Hok _ _ _ Hr) as [Hab Hau]. rewrite Ha in *.
    wp_step. wp_step. eapply (wp_fbread dv start size sb K); [done|done|exact Hx1|lia|apply not_elem_of_nil|cbn; lia|]. intros s2 bp Hx2. rewrite <- Ha in Hx2.
    wp_step. eapply (wp_trunc_indirect pid c1 s2 T1 V1 D F bp); [done|done|by rewrite Ha|exact Hx2|done|done|]. intros c3 s3 V3 Hcc3 Hx3 Hf3. assert (lcpu c3) as Hc3 by (by eapply same_lcpu). assert (curpid c3 = pid) as Hp3 by (by eapply same_pid).
    wp_step. eapply (wp_fbrelse dv start size sb K); [done|done|exact Hx3|apply not_elem_of_nil|]. intros c4 s4 Hcc4 Hx4. wp_step. rewrite <- Ha. change (addr_l l NDIRECT) with (slot V l NDIRECT).
    eapply (wp_free_slot pid c4 s4 T1 V3 D F [] (fun k => k <> NDIRECT) NDIRECT); [by eapply same_lcpu|by eapply same_pid|exact Hx4|done|split; [cbn; lia|by intros b ?%not_elem_of_nil]|done|done|by intros ?|by change (slot V l NDIRECT) with (addr_l l NDIRECT); rewrite Ha|].
    intros c5 s5 V5 Hcc5 Hx5 Hf5. eapply (wp_upd_inode dv start size sb K); [exact Hx5|]. intros s6 Hx6. eapply (Hend c5 s6 _ V5); [by do 3 (eapply same_cpu_trans; [eassumption|]) | exact Hx6|by rewrite upd_itable_eq, HT1|intros i Hii; rewrite upd_itable_ne by done; auto|].
    eapply freed_iff; [exact Hf5|]. intros x. split; intros (k & Hk & ? & -> & Hs); exists k; split_and!; try done; try lia.
Qed.
End inode.

(** ** The last reference to a file without names *)

Definition no_file (x : afile) : afile := mkafile 0 (af_major x) (af_minor x) (af_nlink x) [].
Definition gone (V V' : Z -> block) (inum : Z) : Prop := forall k, 0 <= k < sb_ninodes sb -> absfile V' k = if decide (k = inum) then no_file (absfile V k) else absfile V k.

(** What [itrunc] and the [iupdate] of a free inode leave on the disk. *)
Lemma removed_ok V V1 x : disk_fs V -> 0 <= i_inum x < sb_ninodes sb -> core x = dnode V (i_inum x) -> freed V V1 (at_slots V (d_addrs (dnode V (i_inum x))) (fun _ => True)) ->
  let V' := stored sb (stored sb V1 (emptied x)) (set_type 0 (emptied x)) in
  disk_fs V' /\ (forall k, 0 <= k < sb_ninodes sb -> k <> i_inum x -> dnode V' k = dnode V k) /\ gone V V' (i_inum x).
Proof.
  intros Hok Hi Hco Hf V'. destruct (emptied_ok V (i_inum x) Hok Hi V1 x Hf eq_refl Hco) as (E1 & E2 & E3 & E4). set (V2 := stored sb V1 (emptied x)) in *.
  pose proof (ok_node _ _ _ E1 _ Hi) as Hd. rewrite E2 in Hd.
  destruct (stored_meta dv start size sb V2 (emptied x) (set_type 0 (emptied x)) E1 Hi (eq_sym E2) eq_refl eq_refl eq_refl) as (M1 & M2 & M3).
  { destruct Hd as (D1 & D2 & D3 & D4 & D5 & D6 & D7). split; [done|]. split; [exact D2|]. split; [exact D3|]. split; [exact D4|]. split; [exact D5|]. split; [exact D6|exact D7]. }
  change (i_inum (emptied x)) with (i_inum x) in *. split_and!; [exact M1|intros k Hk Hne; unfold V'; rewrite M2, decide_False by done; by apply E3|].
  intros k Hk. unfold V'. rewrite M3 by done. case_decide as E; [|by apply E4]. subst k. unfold no_file. cbn [i_type i_major i_minor i_nlink set_type emptied set_size set_addrs].
  assert (af_data (absfile V2 (i_inum x)) = []) as -> by (unfold FsSys.absfile; rewrite E2; done). unfold FsSys.absfile. cbn [af_major af_minor af_nlink]. by rewrite <- Hco.
Qed.

Lemma wp_iput_free pid c s T V D F ip inum (Q : cpu -> fsst -> unit -> Prop) :
  fcpu c -> curpid c = pid -> ftx pid s T V D F [] [] -> disk_fs V -> itab T V None -> entry T inum ip -> i_ref (T ip) = 1 -> i_valid (T ip) <> 0 -> i_nlink (T ip) = 0 ->
  bitmap_in sb F -> IBLOCK inum sb ∈ F ->
  (forall c' s' T' V', same_cpu c c' -> ftx pid s' T' V' D F [] [] -> disk_fs V' -> itab T' V' None -> i_ref (T' ip) = 0 -> (forall i, i <> ip -> T' i = T i) ->
     (forall j, irefs T' j = irefs T j - if decide (j = inum) then 1 else 0) -> gone V V' inum -> Q c' s' tt) ->
  wp (iput ip) c s Q.
Proof.
  intros Hc Hp Hx Hok Ht He Hr1 Hv Hn HF HFi HQ. pose proof He as (Hip & Hpos & Hin). destruct (it_dev _ _ _ _ _ Ht ip Hip Hpos) as [Hd Hrg]. pose proof (it_valid _ _ _ _ _ Ht ip Hip Hpos Hv) as Hco.
  pose proof (it_free _ _ _ _ _ Ht ip ltac:(done)) as Hul. pose proof Hc as (Hlc & Hti & Hsl). rewrite Hin in *.
  unfold iput. wp_step. wp_step. wp_step. eapply (wp_get_inode dv start size sb K); [exact Hx|]. rewrite Hr1, Hn, (proj2 (Z.eqb_neq _ _) Hv). cbn [Z.eqb Pos.eqb negb andb].
  wp_step. wp_step. eapply (wp_lock_ip dv start size sb K); [exact Hx|]. apply wp_acquiresleep; [cbn; apply not_elem_of_cons; split; [done|apply Hsl]|done|]. intros s1 Hx1.
  wp_step. wp_step. rewrite set_held_back by done. set (T1 := upd_itable ip _ T) in *. assert (T1 ip = set_ilock (mksleep 1 (curpid c)) (T ip)) as HT1 by (unfold T1; by rewrite upd_itable_eq).
  wp_step. eapply (wp_itrunc V inum Hok Hrg pid c s1 T1 D F ip); [done|done|exact Hx1|by rewrite HT1|by rewrite HT1|by rewrite HT1|done|done|]. intros c2 s2 T2 V1 Hcc2 Hx2 HT2 Hne2 Hf2.
  assert (fcpu c2) as Hc2 by (by eapply same_fcpu). assert (i_inum (T1 ip) = inum) as Hin1 by (by rewrite HT1).
  wp_step. eapply (wp_upd_inode dv start size sb K); [exact Hx2|]. intros s3 Hx3. set (T3 := upd_itable ip _ T2) in *. assert (T3 ip = set_type 0 (emptied (T1 ip))) as HT3 by (unfold T3; by rewrite upd_itable_eq, HT2).
  wp_step. eapply (wp_iupdate dv start size sb K); [apply Hc2|by eapply same_pid|exact Hx3|by rewrite HT3, HT1|by rewrite HT3, HT1; cbn; rewrite Hin|by rewrite HT3, HT1; cbn; rewrite Hin|].
  intros c4 s4 Hcc4 Hx4. rewrite HT3 in Hx4. destruct (removed_ok V V1 (T1 ip) Hok ltac:(by rewrite Hin1) ltac:(rewrite Hin1, HT1; exact Hco) ltac:(by rewrite Hin1)) as (R1 & R2 & R3). rewrite Hin1 in R2, R3. set (V' := stored sb _ (set_type 0 _)) in *.
  assert (fcpu c4) as Hc4 by (by eapply same_fcpu). pose proof Hc4 as (_ & Hti4 & Hsl4). assert (same_cpu c c4) as Hcc04 by (by eapply same_cpu_trans).
  wp_step. eapply (wp_upd_inode dv start size sb K); [exact Hx4|]. intros s5 Hx5. wp_step. eapply (wp_lock_ip dv start size sb K); [exact Hx5|]. apply wp_releasesleep; [apply Hsl4|]. intros s6 Hx6. set (c5 := set_woken _ c4). assert (LItable ∉ held c5) as Hti5 by exact Hti4. assert (same_cpu c c5) as Hcc05 by exact Hcc04. clearbody c5.
  wp_step. wp_step. eapply (wp_get_inode dv start size sb K); [exact Hx6|]. wp_step. eapply (wp_upd_inode dv start size sb K); [exact Hx6|]. intros s7 Hx7. wp_step. rewrite set_held_back by done. match type of Hx7 with FsTxn.ftx _ _ _ _ _ _ _ ?X _ _ _ _ _ => set (T7 := X) in * end.
  assert (i_ref (T7 ip) = 0 /\ i_inum (T7 ip) = inum /\ sl_locked (i_lock (T7 ip)) = 0) as (H71 & H72 & H73). { unfold T7. rewrite !upd_itable_eq. rewrite HT3, HT1. cbn. rewrite Hr1. done. }
  assert (forall i, i <> ip -> T7 i = T i) as Hne7. { intros i Hii. unfold T7. rewrite !upd_itable_ne by done. unfold T3. rewrite upd_itable_ne by done. rewrite Hne2 by done. unfold T1. by apply upd_itable_ne. }
  eapply (HQ c5 s7 T7 V'); [exact Hcc05|exact Hx7|done| |done|done| |done].
  - destruct Ht as [I1 I2 I3 I4 I5]. split.
    + intros i Hi Hpi. destruct (decide (i = ip)) as [->|Hii]; [lia|]. rewrite Hne7 in * by done. auto.
    + intros i Hi Hpi Hvi. destruct (decide (i = ip)) as [->|Hii]; [lia|]. rewrite Hne7 in * by done. rewrite R2; [auto|by apply I1|]. intros E. destruct Hii. apply I3; try done. congruence.
    + intros i k Hi Hk Hpi Hpk. destruct (decide (i = ip)) as [->|Hii]; [lia|]. destruct (decide (k = ip)) as [->|Hkk]; [lia|]. rewrite !Hne7 in * by done. auto.
    + intros i. destruct (decide (i = ip)) as [->|Hii]; [lia|]. rewrite Hne7 by done. auto.
    + intros i _. destruct (decide (i = ip)) as [->|Hii]; [done|]. rewrite Hne7 by done. by apply I5.
  - intros k. rewrite (irefs_change T T7 ip k Hip Hne7). unfold contrib. rewrite H71, H72, Hr1, Hin. destruct (Z.eqb_spec inum k), (decide (k = inum)); try lia; congruence.
Qed.
End trunc.
