(* ===== verification/MkfsProps.v ===== *)
(** mkfs builds a file system: the image it writes is well-formed, holds the files it was given
    under their names, and the kernel boots from it. *)
From S2P Require Import Prelude Memory Sleeplock Bio BioInv BioSpec Log LogPure LogSpec LogTxn Fs FsTxn FsDisk FsAlloc FsGrow FsInode FsTable State Process FsFile FsPath FsIo FsDir FsSys FsMount Mkfs.

#[local] Arguments loop : simpl never.
#[local] Abbreviation sb := img_sb.
#[local] Abbreviation zeros := FsAlloc.zeros.

(** * Blocks of bytes *)

Lemma byte_0 : byte 0.
Proof. unfold byte. lia. Qed.

Lemma zeros_bytes : Forall byte zeros.
Proof. apply Forall_replicate, byte_0. Qed.

Lemma put8_bytes d i v : Forall byte d -> Forall byte (put8 d i v).
Proof. intros. apply Forall_insert; [done|]. apply u8_range. Qed.

Lemma put16_bytes d i v : Forall byte d -> Forall byte (put16 d i v).
Proof. intros. pose proof (u16_range v). repeat apply Forall_insert; try done; unfold byte; dlia. Qed.

Lemma put32_bytes d i v : Forall byte d -> Forall byte (put32 d i v).
Proof. intros. unfold put32. pose proof (u32_range v). repeat apply Forall_insert; try done; unfold byte; dlia. Qed.

Lemma put_addrs_bytes l d off : Forall byte d -> Forall byte (put_addrs d off l).
Proof. revert d off. induction l as [|a l IH]; intros d off Hd; [done|]. cbn. by apply IH, put32_bytes. Qed.

Lemma put_dinode_bytes d off x : Forall byte d -> Forall byte (put_dinode d off x).
Proof. intros. unfold put_dinode. by apply put_addrs_bytes, put32_bytes, put16_bytes, put16_bytes, put16_bytes, put16_bytes. Qed.

Lemma splice_bytes d o l : Forall byte d -> Forall byte l -> Forall byte (splice d o l).
Proof. intros. unfold splice. rewrite !Forall_app. split_and!; [by apply Forall_take|done|by apply Forall_drop]. Qed.

Lemma bytes_ok_fset V b d : bytes_ok V -> Forall byte d -> bytes_ok (fset V b d).
Proof. intros HV Hd x. unfold fset. case_match; [done|apply HV]. Qed.

(** * The bitmap *)

Lemma length_bitmap n : length (bitmap n) = Z.to_nat BSIZE.
Proof. induction n as [|n IH]; [apply length_replicate|]. cbn [bitmap]. by rewrite length_set_bit. Qed.

Lemma bitmap_bytes n : Forall byte (bitmap n).
Proof. induction n as [|n IH]; [apply zeros_bytes|]. cbn [bitmap]. by apply put8_bytes. Qed.

Lemma bit_set_bitmap n b : Z.of_nat n <= 8192 -> 0 <= b -> bit_set (bitmap n) b = (b <? Z.of_nat n).
Proof.
  intros Hn Hb. induction n as [|n IH].
  - rewrite bit_set_testbit by done. cbn [bitmap]. unfold get8, zeroes. destruct (_ !! _) as [y|] eqn:E; cbn.
    + apply lookup_replicate in E as [-> _]. rewrite Z.bits_0. symmetry. apply Z.ltb_ge. lia.
    + rewrite Z.bits_0. symmetry. apply Z.ltb_ge. lia.
  - cbn [bitmap]. rewrite bit_set_set; [|lia|lia|]. 2: { rewrite length_bitmap. change BSIZE with 1024. dlia. }
    rewrite IH by lia. destruct (Z.eqb_spec (Z.of_nat n) b), (Z.ltb_spec b (Z.of_nat n)), (Z.ltb_spec b (Z.of_nat (S n))); cbn; lia.
Qed.

Lemma bitmap_next z : 0 <= z -> bitmap (Z.to_nat (z + 1)) = set_bit (bitmap (Z.to_nat z)) z.
Proof. intros Hz. rewrite Z2Nat.inj_add, Nat.add_1_r by lia. cbn [bitmap]. by rewrite Z2Nat.id. Qed.

(** * The state of the program *)

(** Blocks a file of [sz] bytes takes, the indirect one included. *)
Definition nblk (sz : Z) : Z := (sz + 1023) / 1024 + (if 12 * 1024 <? sz then 1 else 0).

(** What is before the inodes: the super block. *)
Definition boot_blocks (b : Z) : block := if b =? 1 then put_sb zeroes the_sb else zeros.

(** [V] is the image with the bitmap that [balloc] will write, [I] the inodes, of which the one
    being appended to is in memory. *)
Record mki (s : mkst) (V : Z -> block) (I : Z -> dinode) : Prop := {
  k_sb : m_sb s = sb;
  k_secs : m_secs s = 2000;
  k_view b : V b = if b =? 45 then bitmap (Z.to_nat (m_freeblock s)) else m_img s b;
  k_fb : 46 <= m_freeblock s <= 2000;
  k_ok : fsok sb I V;
  k_bytes : bytes_ok V;
  k_free b : m_freeblock s <= b -> V b = zeros;
  k_boot b : b < 32 -> V b = boot_blocks b;
  k_end j pos : 0 <= j < 200 -> d_size (I j) <= pos < MAXFILE * BSIZE -> fbyte V (d_addrs (I j)) pos = 0;
}.

Lemma k_used s V I b : mki s V I -> 0 <= b < 2000 -> used sb V b <-> b < m_freeblock s.
Proof.
  intros Hk Hb. pose proof (k_fb _ _ _ Hk). unfold used. change (BBLOCK b sb) with (u32 (b / 8192 + 45)). change BPB with 8192.
  rewrite Z.div_small, Z.mod_small by lia. rewrite (k_view _ _ _ Hk). change (u32 (0 + 45) =? 45) with true. cbv iota.
  rewrite bit_set_bitmap by lia. rewrite Z2Nat.id by lia. apply Z.ltb_lt.
Qed.

Lemma BBLOCK_img b : 0 <= b < 2000 -> BBLOCK b sb = 45 /\ b mod BPB = b.
Proof.
  intros Hb. change (BBLOCK b sb) with (u32 (b / 8192 + 45)). change BPB with 8192. rewrite Z.div_small, Z.mod_small by lia. done.
Qed.

(** Taking the next block. *)
Definition bump (s : mkst) : mkst := mkmk (m_img s) (m_secs s) (m_sb s) (m_freeinode s) (m_freeblock s + 1).

Lemma alloc_view_img s V I b : mki s V I -> m_freeblock s < 2000 ->
  alloc_view sb V (m_freeblock s) b = if b =? 45 then bitmap (Z.to_nat (m_freeblock s + 1)) else m_img s b.
Proof.
  intros Hk Hfb. pose proof (k_fb _ _ _ Hk). destruct (BBLOCK_img (m_freeblock s)) as [HB Hm]; [lia|]. unfold alloc_view. rewrite HB, Hm. unfold fset.
  destruct (Z.eqb_spec b (m_freeblock s)) as [->|Hne].
  - rewrite (proj2 (Z.eqb_neq _ 45)) by lia. pose proof (k_free _ _ _ Hk (m_freeblock s) ltac:(lia)) as Hz. rewrite (k_view _ _ _ Hk) in Hz.
    rewrite (proj2 (Z.eqb_neq _ 45)) in Hz by lia. done.
  - destruct (Z.eqb_spec b 45) as [->|]; [|rewrite (k_view _ _ _ Hk); by rewrite (proj2 (Z.eqb_neq b 45))].
    rewrite (k_view _ _ _ Hk). cbn [Z.eqb Pos.eqb]. symmetry. apply bitmap_next. lia.
Qed.

(** * Growing a file *)

Record grown (inum : Z) (s : mkst) (V : Z -> block) (I : Z -> dinode) (s' : mkst) (V' : Z -> block) (I' : Z -> dinode) : Prop := {
  gw_inv : mki s' V' I';
  gw_grow : grow sb I V I' V';
  gw_fi : m_freeinode s' = m_freeinode s;
  gw_other j : j <> inum -> I' j = I j;
  gw_size j : d_size (I' j) = d_size (I j);
  gw_tail m : 0 <= m < 12 -> d_size (I inum) < m * 1024 -> addr_l (d_addrs (I' inum)) m = addr_l (d_addrs (I inum)) m;
}.

Lemma grown_refl inum s V I : mki s V I -> grown inum s V I s V I.
Proof. intros Hk. split; try done. apply grow_refl, Hk. Qed.

Lemma grown_trans inum s V I s1 V1 I1 s2 V2 I2 : grown inum s V I s1 V1 I1 -> grown inum s1 V1 I1 s2 V2 I2 -> grown inum s V I s2 V2 I2.
Proof.
  intros [A1 A2 A3 A4 A5 A6] [B1 B2 B3 B4 B5 B6]. split; [done|by eapply grow_trans|congruence| | |].
  - intros j Hj. by rewrite B4, A4.
  - intros j. by rewrite B5, A5.
  - intros m Hm Hlt. by rewrite B6, A6 by (rewrite ?A5; done).
Qed.

(** What [grow] and the bookkeeping of the program leave of the invariant. *)
Lemma mki_grow s V I s' V' I' : mki s V I -> grow sb I V I' V' -> m_sb s' = sb -> m_secs s' = 2000 ->
  (forall b, V' b = if b =? 45 then bitmap (Z.to_nat (m_freeblock s')) else m_img s' b) -> 46 <= m_freeblock s' <= 2000 -> bytes_ok V' ->
  (forall b, m_freeblock s' <= b -> V' b = zeros) -> (forall j, d_size (I' j) = d_size (I j)) -> mki s' V' I'.
Proof.
  intros Hk Hg Hsb Hsec Hv Hfb Hby Hfr Hsz. split; try done; [apply Hg| |].
  - intros b Hb. rewrite (gr_low _ _ _ _ _ Hg) by (change (sb_bmapstart sb) with 45; lia). by apply Hk.
  - intros j pos Hj Hpos. rewrite Hsz in Hpos. pose proof (ok_node _ _ _ (k_ok _ _ _ Hk) j Hj) as (_ & _ & _ & _ & [? _] & _).
    rewrite (gr_bytes _ _ _ _ _ Hg) by (done || lia). by apply Hk.
Qed.

Lemma alloc_view_bytes V b : bytes_ok V -> bytes_ok (alloc_view sb V b).
Proof. intros HV. unfold alloc_view. apply bytes_ok_fset; [apply bytes_ok_fset; [done|by apply put8_bytes]|apply zeros_bytes]. Qed.

Lemma alloc_view_free s V I b : mki s V I -> m_freeblock s < 2000 -> m_freeblock s + 1 <= b -> alloc_view sb V (m_freeblock s) b = zeros.
Proof.
  intros Hk Hfb Hb. pose proof (k_fb _ _ _ Hk). destruct (BBLOCK_img (m_freeblock s)) as [HB _]; [lia|]. rewrite alloc_view_other by lia. apply Hk. lia.
Qed.

Lemma unused_next s V I : mki s V I -> m_freeblock s < 2000 -> ~ used sb V (m_freeblock s).
Proof. intros Hk Hfb Hu. pose proof (k_fb _ _ _ Hk). apply (k_used _ _ _ _ Hk) in Hu; lia. Qed.

Lemma grown_direct inum s V I x k : mki s V I -> 0 <= inum < 200 -> I inum = core x -> 0 <= k <= NDIRECT -> addr_l (i_addrs x) k = 0 -> (k < 12 -> k * 1024 <= d_size (I inum)) -> m_freeblock s < 2000 ->
  grown inum s V I (bump s) (alloc_view sb V (m_freeblock s)) (fset I inum (core (set_addr k (m_freeblock s) x))).
Proof.
  intros Hk Hi Hx Hkr H0 Hend Hfb. pose proof (k_fb _ _ _ Hk) as Hf. pose proof (link_direct 1 2 30 sb I V inum x k (m_freeblock s) (k_ok _ _ _ Hk) Hi Hx Hkr H0 ltac:(change (dstart sb) with 46; change (sb_size sb) with 2000; lia) (unused_next _ _ _ Hk Hfb)) as Hg.
  assert (forall j, d_size (fset I inum (core (set_addr k (m_freeblock s) x)) j) = d_size (I j)) as Hsz.
  { intros j. unfold fset. destruct (Z.eqb_spec j inum) as [->|]; [by rewrite Hx|done]. }
  split; [|done|done|intros j Hj; by apply fset_ne|done|].
  2: { intros m Hm Hlt. rewrite fset_eq, Hx. unfold addr_l. cbn. rewrite list_lookup_insert_ne; [done|]. change NDIRECT with 12 in Hkr. lia. }
  eapply mki_grow; [exact Hk|exact Hg|apply Hk|apply Hk|intros b; exact (alloc_view_img s V I b Hk Hfb)|cbn; lia|apply alloc_view_bytes, Hk|intros b Hb; exact (alloc_view_free s V I b Hk Hfb Hb)|done].
Qed.

Definition set_img (D : Z -> block) (s : mkst) : mkst := mkmk D (m_secs s) (m_sb s) (m_freeinode s) (m_freeblock s).

Lemma grown_indirect inum s V I a k : mki s V I -> 0 <= inum < 200 -> addr_l (d_addrs (I inum)) NDIRECT = a -> a <> 0 -> NDIRECT < k < NSLOTS -> slot V (d_addrs (I inum)) k = 0 -> m_freeblock s < 2000 ->
  let d := put32 (V a) (4 * Z.to_nat (k - NDIRECT - 1)) (m_freeblock s) in
  exists V', grown inum s V I (set_img (fset (m_img s) a d) (bump s)) V' I /\ slot V' (d_addrs (I inum)) k = m_freeblock s /\ 46 <= a < m_freeblock s.
Proof.
  intros Hk Hi Ha Hne Hkr He Hfb d. pose proof (k_fb _ _ _ Hk) as Hf.
  destruct (link_indirect 1 2 30 sb I V inum a k (m_freeblock s) (k_ok _ _ _ Hk) Hi Ha Hne Hkr He ltac:(change (dstart sb) with 46; change (sb_size sb) with 2000; lia) (unused_next _ _ _ Hk Hfb)) as (HV1 & Hg & Hs).
  assert (46 <= a < m_freeblock s) as Har.
  { assert (refers sb I V inum NDIRECT a) as Hr by (rewrite <- Ha in Hne |- *; by apply refers_ind). destruct (ok_ref _ _ _ (k_ok _ _ _ Hk) _ _ _ Hr) as [H1 H2].
    change (dstart sb) with 46 in H1. change (sb_size sb) with 2000 in H1. apply (k_used _ _ _ _ Hk) in H2; lia. }
  rewrite HV1 in Hg, Hs. fold d in Hg, Hs. set (V2 := fset _ a d) in Hg, Hs. exists V2. split_and!; [|done|lia|lia]. split; [|done|done|done|done|done].
  assert (forall b, V2 b = if b =? 45 then bitmap (Z.to_nat (m_freeblock s + 1)) else fset (m_img s) a d b) as Hv.
  { intros b. unfold V2, fset at 1. destruct (Z.eqb_spec b a) as [->|Hb]; [rewrite (proj2 (Z.eqb_neq a 45)) by lia; by rewrite fset_eq|]. rewrite fset_ne by done. by eapply alloc_view_img. }
  eapply mki_grow; [exact Hk|exact Hg|apply Hk|apply Hk|exact Hv|cbn; lia| | |done].
  - apply bytes_ok_fset; [apply alloc_view_bytes, Hk|]. apply put32_bytes, Hk.
  - intros b Hb. cbn in Hb. unfold V2. rewrite fset_ne by lia. by eapply alloc_view_free.
Qed.

(** The fields of an inode that appending does not change. *)
Definition meta (x : inode) : Z * Z * Z * Z := (i_type x, i_major x, i_minor x, i_nlink x).

Lemma get32_range d off : Forall byte d -> 0 <= get32 d off < 4294967296.
Proof.
  intros Hd. assert (forall k, 0 <= default 0 (d !! k) < 256) as Hb.
  { intros k. destruct (d !! k) as [y|] eqn:E; [|cbn; lia]. rewrite Forall_lookup in Hd. by apply Hd in E. }
  unfold get32. pose proof (Hb off). pose proof (Hb (off + 1)%nat). pose proof (Hb (off + 2)%nat). pose proof (Hb (off + 3)%nat). lia.
Qed.

Lemma addr_range n k : dino_ok n -> 0 <= addr_l (d_addrs n) k < 4294967296.
Proof.
  intros (_ & _ & _ & _ & _ & _ & Hf). unfold addr_l. destruct (_ !! _) as [y|] eqn:E; [|cbn; lia]. rewrite Forall_lookup in Hf. by apply Hf in E.
Qed.

Lemma nblk_step off : 0 <= off -> off mod 1024 = 0 -> nblk (off + 1) = nblk off + (if off =? 12 * 1024 then 2 else 1).
Proof.
  intros H0 Hm. unfold nblk. destruct (Z.eqb_spec off (12 * 1024)), (Z.ltb_spec (12 * 1024) (off + 1)), (Z.ltb_spec (12 * 1024) off); dlia.
Qed.
Lemma nblk_mono a b : 0 <= a <= b -> nblk a <= nblk b.
Proof. intros H. unfold nblk. destruct (Z.ltb_spec (12 * 1024) a), (Z.ltb_spec (12 * 1024) b); dlia. Qed.

(** A block of an image in use can be read and written. *)
Lemma wp_rsect s V I b c (Q : cpu -> mkst -> block -> Prop) : mki s V I -> b <> 45 -> b < 2000 -> Q c s (V b) -> wp (rsect b) c s Q.
Proof.
  intros Hk Hb Hlt HQ. unfold rsect. wp_steps. rewrite (k_secs _ _ _ Hk), (proj2 (Z.ltb_lt _ _)) by done. wp_steps.
  rewrite (k_view _ _ _ Hk) in HQ. by rewrite (proj2 (Z.eqb_neq b 45)) in HQ.
Qed.

Lemma wp_wsect s V I b d c (Q : cpu -> mkst -> unit -> Prop) : mki s V I -> b < 2000 -> Q c (set_img (fset (m_img s) b d) s) tt -> wp (wsect b d) c s Q.
Proof.
  intros Hk Hlt HQ. unfold wsect. wp_steps. rewrite (k_secs _ _ _ Hk), Z.max_l by lia. unfold set_img in HQ. by rewrite (k_secs _ _ _ Hk) in HQ.
Qed.

Lemma wp_next_block s V I c (Q : cpu -> mkst -> Z -> Prop) : mki s V I -> Q c (bump s) (m_freeblock s) -> wp next_block c s Q.
Proof.
  intros Hk HQ. pose proof (k_fb _ _ _ Hk). unfold next_block. wp_steps. by rewrite u32_small by lia.
Qed.

(** A block a file refers to. *)
Lemma slot_block s V I inum k : mki s V I -> 0 <= inum < 200 -> 0 <= k < NSLOTS -> slot V (d_addrs (I inum)) k <> 0 -> 46 <= slot V (d_addrs (I inum)) k < 2000.
Proof.
  intros Hk Hi Hkr Hne. destruct (ok_ref _ _ _ (k_ok _ _ _ Hk) inum k (slot V (d_addrs (I inum)) k)) as [H _]; [exact (conj Hi (conj Hkr (conj eq_refl Hne)))|]. exact H.
Qed.

(** No block where the file ends: it ends at the beginning of a block. *)
Lemma hole_end s V I inum fbn : mki s V I -> 0 <= inum < 200 -> 0 <= fbn -> slot V (d_addrs (I inum)) (fslot fbn) = 0 -> d_size (I inum) <= fbn * 1024.
Proof.
  intros Hk Hi Hb H0. destruct (Z.lt_ge_cases (fbn * BSIZE) (d_size (I inum))) as [Hlt|]; [|done]. by destruct (ok_holes _ _ _ (k_ok _ _ _ Hk) inum fbn Hi Hb Hlt).
Qed.

(** The entry of the indirect block. *)
Lemma wp_entry inum fbn din c s V I (Q : cpu -> mkst -> inode * Z -> Prop) : mki s V I -> 0 <= inum < 200 -> 12 <= fbn < MAXFILE -> addr_l (d_addrs (I inum)) NDIRECT <> 0 ->
  (slot V (d_addrs (I inum)) (fbn + 1) = 0 -> m_freeblock s < 2000) ->
  (forall s' V' x, grown inum s V I s' V' I -> x = slot V' (d_addrs (I inum)) (fbn + 1) -> x <> 0 ->
     m_freeblock s' <= m_freeblock s + (if slot V (d_addrs (I inum)) (fbn + 1) =? 0 then 1 else 0) -> Q c s' (din, x)) ->
  wp (let ind := addr_l (d_addrs (I inum)) NDIRECT in
      let k := (4 * Z.to_nat (fbn - NDIRECT))%nat in
      indirect <- rsect ind ;;
      indirect <- (if get32 indirect k =? 0 then
          b <- next_block ;;
          wsect ind (put32 indirect k (xint b)) ;;
          ret (put32 indirect k (xint b))
        else ret indirect) ;;
      ret (din, xint (get32 indirect k))) c s Q.
Proof.
  intros Hk Hi Hb Hind Hfb HQ. cbv zeta. set (a := addr_l (d_addrs (I inum)) NDIRECT) in *. change MAXFILE with 268 in Hb. pose proof (k_fb _ _ _ Hk) as Hf.
  assert (46 <= a < 2000) as Ha by (apply (slot_block s V I inum NDIRECT Hk Hi); [change NSLOTS with 269; change NDIRECT with 12; lia|exact Hind]).
  assert (slot V (d_addrs (I inum)) (fbn + 1) = get32 (V a) (4 * Z.to_nat (fbn - NDIRECT))) as Hsl.
  { unfold slot. change NDIRECT with 12 in *. rewrite (proj2 (Z.leb_gt _ _)) by lia. fold a. rewrite (proj2 (Z.eqb_neq a 0)) by done. do 2 f_equal. lia. }
  wp_step. eapply wp_rsect; [exact Hk|lia|lia|]. rewrite Hsl in Hfb, HQ. destruct (Z.eqb_spec (get32 (V a) (4 * Z.to_nat (fbn - NDIRECT))) 0) as [H0|H0].
  - wp_step. wp_step. eapply wp_next_block; [exact Hk|]. wp_step.
    destruct (grown_indirect inum s V I a (fbn + 1) Hk Hi eq_refl Hind) as (V' & Hg & Hs & _); [change NSLOTS with 269; change NDIRECT with 12; lia|by rewrite Hsl|by apply Hfb|].
    replace (fbn + 1 - NDIRECT - 1) with (fbn - NDIRECT) in Hg by lia. unfold xint. rewrite (u32_small (m_freeblock s)) by lia.
    unfold wsect. wp_steps. cbn [m_secs bump m_img m_sb m_freeinode m_freeblock]. rewrite (k_secs _ _ _ Hk), Z.max_l by lia.
    assert (length (V a) = 1024%nat) as Hl by (apply (ok_len _ _ _ (k_ok _ _ _ Hk)); change (sb_inodestart sb) with 32; lia).
    rewrite get32_put32 by (rewrite Hl; change NDIRECT with 12; lia). rewrite !(u32_small (m_freeblock s)) by lia.
    unfold set_img, bump in Hg. cbn [m_secs m_img m_sb m_freeinode m_freeblock] in Hg. rewrite (k_secs _ _ _ Hk) in Hg. eapply HQ; [exact Hg|by rewrite Hs|lia|cbn; lia].
  - wp_steps. unfold xint. rewrite u32_small by (apply get32_range, Hk). eapply HQ; [by apply grown_refl|done|done|lia].
Qed.

Lemma wp_file_block inum off din c s V I (Q : cpu -> mkst -> inode * Z -> Prop) : mki s V I -> 0 <= inum < 200 -> I inum = core (set_size off din) -> 0 <= off < MAXFILE * BSIZE ->
  m_freeblock s + (nblk (off + 1) - nblk off) <= 2000 ->
  (forall s' V' I' din' x, grown inum s V I s' V' I' -> I' inum = core (set_size off din') -> meta din' = meta din -> x = slot V' (d_addrs (I' inum)) (fslot (off / BSIZE)) -> x <> 0 ->
     m_freeblock s' <= m_freeblock s + (nblk (off + 1) - nblk off) -> Q c s' (din', x)) ->
  wp (file_block din (off / BSIZE)) c s Q.
Proof.
  intros Hk Hi HI Hoff Hfb HQ. pose proof (k_fb _ _ _ Hk) as Hf. pose proof (ok_node _ _ _ (k_ok _ _ _ Hk) inum Hi) as Hno. pose proof (nblk_mono off (off + 1) ltac:(lia)) as Hmono.
  assert (forall k, addr_at din k = addr_l (d_addrs (I inum)) k) as Hat by (intros k; by rewrite HI).
  assert (d_size (I inum) = off) as Hsz by (by rewrite HI). change MAXFILE with 268 in Hoff. change BSIZE with 1024 in *. set (fbn := off / 1024) in *. assert (0 <= fbn < 268 /\ fbn * 1024 <= off < fbn * 1024 + 1024) as [Hfbn Hin] by (unfold fbn; dlia). clearbody fbn.
  assert (slot V (d_addrs (I inum)) (fslot fbn) = 0 -> off = fbn * 1024) as Hhole by (intros H0; pose proof (hole_end _ _ _ _ _ Hk Hi (proj1 Hfbn) H0); lia).
  assert (off = fbn * 1024 -> nblk (off + 1) = nblk off + (if fbn =? 12 then 2 else 1)) as Hstep.
  { intros E. rewrite nblk_step by (try lia; rewrite E; apply Z.mod_mul; lia). destruct (Z.eqb_spec fbn 12), (Z.eqb_spec off (12 * 1024)); lia. }
  unfold file_block. change NDIRECT with 12. destruct (Z.ltb_spec fbn 12) as [Hd|Hd].
  - assert (fslot fbn = fbn) as Hfs by (unfold fslot; by rewrite (proj2 (Z.ltb_lt _ _))). assert (slot V (d_addrs (I inum)) fbn = addr_l (d_addrs (I inum)) fbn) as Hsl by (unfold slot; by rewrite (proj2 (Z.leb_le _ _)) by (change NDIRECT with 12; lia)).
    rewrite Hfs in *. rewrite Hat. unfold xint. rewrite u32_small by (by apply addr_range). destruct (Z.eqb_spec (addr_l (d_addrs (I inum)) fbn) 0) as [H0|H0].
    + rewrite Hsl in Hhole. specialize (Hstep (Hhole H0)). rewrite (proj2 (Z.eqb_neq fbn 12)) in Hstep by lia. do 2 wp_step. eapply wp_next_block; [exact Hk|]. wp_steps. rewrite (u32_small (m_freeblock s)) by lia.
      rewrite HI in H0. pose proof (grown_direct inum s V I (set_size off din) fbn Hk Hi HI ltac:(change NDIRECT with 12; lia) H0 ltac:(lia) ltac:(lia)) as Hg.
      assert (length (i_addrs din) = 13%nat) as Hl by (rewrite HI in Hno; apply Hno).
      assert (addr_at (set_addr fbn (m_freeblock s) din) fbn = m_freeblock s) as Ha by (unfold addr_at; cbn; by rewrite list_lookup_insert_eq by lia).
      rewrite Ha, u32_small by lia. eapply HQ; [exact Hg|by rewrite fset_eq|done| |lia|cbn; lia].
      rewrite fset_eq. cbn [core d_addrs set_addr set_addrs set_size i_addrs]. unfold slot. rewrite (proj2 (Z.leb_le _ _)) by (change NDIRECT with 12; lia). symmetry. exact Ha.
    + wp_steps. rewrite Hat, u32_small by (by apply addr_range). eapply HQ; [by apply grown_refl|done|done|by rewrite Hsl|done|lia].
  - assert (fslot fbn = fbn + 1) as Hfs by (unfold fslot; by rewrite (proj2 (Z.ltb_ge _ _))). rewrite Hfs in *. rewrite Hat. unfold xint at 1. rewrite u32_small by (by apply addr_range).
    destruct (Z.eqb_spec (addr_l (d_addrs (I inum)) 12) 0) as [H0|H0].
    + assert (forall k, 12 < k -> slot V (d_addrs (I inum)) k = 0) as Hz by (intros k Hkk; unfold slot; change NDIRECT with 12; rewrite (proj2 (Z.leb_gt _ _)) by lia; by rewrite H0).
      assert (fbn = 12) as -> by (pose proof (hole_end _ _ _ _ 12 Hk Hi ltac:(lia) (Hz 13 ltac:(lia))); lia). specialize (Hstep (Hhole (Hz 13 ltac:(lia)))). change (12 =? 12) with true in Hstep. cbv iota in Hstep.
      do 2 wp_step. eapply wp_next_block; [exact Hk|]. wp_step. replace (xint (m_freeblock s)) with (m_freeblock s) by (symmetry; apply u32_small; lia). rewrite HI in H0.
      pose proof (grown_direct inum s V I (set_size off din) 12 Hk Hi HI ltac:(change NDIRECT with 12; lia) H0 ltac:(lia) ltac:(lia)) as Hg. set (I1 := fset I inum _) in Hg. set (din1 := set_addr 12 (m_freeblock s) din).
      assert (I1 inum = core (set_size off din1)) as HI1 by (unfold I1; by rewrite fset_eq). assert (length (i_addrs din) = 13%nat) as Hl by (rewrite HI in Hno; apply Hno).
      assert (addr_l (d_addrs (I1 inum)) 12 = m_freeblock s) as Ha by (rewrite HI1; unfold addr_l; cbn; by rewrite list_lookup_insert_eq by (rewrite Hl; lia)).
      replace (xint (addr_at din1 12)) with (addr_l (d_addrs (I1 inum)) 12) by (change (addr_at din1 12) with (addr_l (d_addrs (core (set_size off din1))) 12); rewrite <- HI1; unfold xint; rewrite u32_small; [done|lia]).
      eapply (wp_entry inum 12 din1 c _ _ _ Q (gw_inv _ _ _ _ _ _ _ Hg) Hi); [change MAXFILE with 268; lia|change NDIRECT with 12; rewrite Ha; lia|intros _; cbn; lia|].
      intros s' V' x Hg' Hx Hne Hle. eapply HQ; [by eapply grown_trans|done|done|done|done|]. cbn in Hle. destruct (_ =? 0) in Hle; lia.
    + wp_step. wp_step. rewrite ?Hat. replace (xint (addr_l (d_addrs (I inum)) 12)) with (addr_l (d_addrs (I inum)) 12) by (symmetry; apply u32_small; by apply addr_range).
      eapply (wp_entry inum fbn din c _ _ _ Q Hk Hi); [change MAXFILE with 268; lia|done|intros H1; specialize (Hstep (Hhole H1)); destruct (fbn =? 12); lia|].
      intros s' V' x Hg' Hx Hne Hle. eapply HQ; [exact Hg'|done|done|done|done|].
      destruct (Z.eqb_spec (slot V (d_addrs (I inum)) (fbn + 1)) 0) as [H1|]; [|lia]. specialize (Hstep (Hhole H1)). destruct (fbn =? 12); lia.
Qed.

(** * [iappend] *)

Record appended (inum : Z) (data : list Z) (s : mkst) (V : Z -> block) (I : Z -> dinode) (s' : mkst) (V' : Z -> block) (I' : Z -> dinode) : Prop := {
  ap_inv : mki s' V' I';
  ap_fi : m_freeinode s' = m_freeinode s;
  ap_other j : j <> inum -> I' j = I j;
  ap_size : d_size (I' inum) = d_size (I inum) + Z.of_nat (length data);
  ap_bytes j pos : 0 <= j < 200 -> 0 <= pos < MAXFILE * BSIZE -> fbyte V' (d_addrs (I' j)) pos =
    if decide (j = inum /\ d_size (I inum) <= pos < d_size (I inum) + Z.of_nat (length data)) then default 0 (data !! Z.to_nat (pos - d_size (I inum)))
    else fbyte V (d_addrs (I j)) pos;
  ap_fb : m_freeblock s' <= m_freeblock s + (nblk (d_size (I' inum)) - nblk (d_size (I inum)));
  ap_low b : b < 45 -> V' b = V b;
  ap_tail m : 0 <= m < 12 -> d_size (I' inum) <= m * 1024 -> addr_l (d_addrs (I' inum)) m = addr_l (d_addrs (I inum)) m;
}.

Lemma appended_refl inum s V I : mki s V I -> appended inum [] s V I s V I.
Proof. intros Hk. split; try done; [cbn; lia| |cbn; lia]. intros j pos _ _. rewrite decide_False; [done|cbn; lia]. Qed.

Lemma appended_trans inum d1 d2 s V I s1 V1 I1 s2 V2 I2 : 0 <= d_size (I inum) -> appended inum d1 s V I s1 V1 I1 -> appended inum d2 s1 V1 I1 s2 V2 I2 ->
  appended inum (d1 ++ d2) s V I s2 V2 I2.
Proof.
  intros H0 [A1 A2 A3 A4 A5 A6 A7 A8] [B1 B2 B3 B4 B5 B6 B7 B8]. rewrite A4 in *. split; [done|congruence| | | | | |].
  - intros j Hj. by rewrite B3, A3.
  - rewrite length_app. lia.
  - intros j pos Hj Hpos. rewrite B5, A5, length_app by done. repeat case_decide; try done; try lia.
    + rewrite lookup_app_r by lia. do 2 f_equal. lia.
    + by rewrite lookup_app_l by lia.
  - lia.
  - intros b Hb. by rewrite B7, A7.
  - intros m Hm Hle. rewrite B8, A8 by (done || lia). done.
Qed.

Section piece.
Context (inum off : Z) (din : inode) (data : list Z) (s : mkst) (V : Z -> block) (I : Z -> dinode).
#[local] Abbreviation n := (Z.of_nat (length data)).
#[local] Abbreviation x := (slot V (d_addrs (I inum)) (fslot (off / BSIZE))).
#[local] Abbreviation d := (splice (V x) (Z.to_nat (off mod BSIZE)) data).
Hypothesis Hk : mki s V I.
Hypothesis Hi : 0 <= inum < 200.
Hypothesis HI : I inum = core (set_size off din).
Hypothesis Hoff : 0 <= off.
Hypothesis Hlen : 0 < n <= BSIZE - off mod BSIZE.
Hypothesis Hmax : off + n <= MAXFILE * BSIZE.
Hypothesis Hby : Forall byte data.
Hypothesis Hx : x <> 0.

Lemma piece_bn : 0 <= off / BSIZE < MAXFILE.
Proof. split; [by apply Z.div_pos|apply Z.div_lt_upper_bound; [done|lia]]. Qed.

Lemma piece_block : 46 <= x < m_freeblock s /\ length (V x) = Z.to_nat BSIZE /\ (Z.to_nat (off mod BSIZE) + length data <= length (V x))%nat.
Proof.
  pose proof piece_bn as Hbn. pose proof (Z.mod_pos_bound off BSIZE ltac:(done)). assert (46 <= x < 2000) as Hxr by (apply (slot_block s); [done|done|by apply fslot_range|done]).
  assert (length (V x) = Z.to_nat BSIZE) as Hl by (apply (ok_len _ _ _ (k_ok _ _ _ Hk)); change (sb_inodestart sb) with 32; lia). split_and!; [lia| |done|rewrite Hl; lia].
  apply (k_used _ _ _ _ Hk); [lia|]. apply (ok_ref _ _ _ (k_ok _ _ _ Hk) inum (fslot (off / BSIZE))). exact (conj Hi (conj (proj1 (fslot_range _ Hbn)) (conj eq_refl Hx))).
Qed.

(** One piece of the data, written to its block. *)
Lemma piece_bytes : fsok sb I (fset V x d) /\ (forall j k, 0 <= j < 200 -> slot (fset V x d) (d_addrs (I j)) k = slot V (d_addrs (I j)) k) /\
  forall j pos, 0 <= j < 200 -> 0 <= pos < MAXFILE * BSIZE -> fbyte (fset V x d) (d_addrs (I j)) pos =
    if decide (j = inum /\ off <= pos < off + n) then default 0 (data !! Z.to_nat (pos - off)) else fbyte V (d_addrs (I j)) pos.
Proof.
  destruct piece_block as (Hxr & Hl & Hfit). destruct (write_block 1 2 30 sb I V inum (off / BSIZE) d (k_ok _ _ _ Hk) Hi piece_bn Hx) as (K1 & K2 & K3 & _); [by rewrite length_splice|].
  split_and!; [done|done|]. intros j pos Hj Hpos. rewrite K3 by done. destruct (decide (j = inum)) as [->|Hne]; [|by rewrite !decide_False by naive_solver].
  destruct (decide (pos / BSIZE = off / BSIZE)) as [Hd|Hd]; [rewrite decide_True by done|rewrite decide_False by naive_solver].
  - destruct (pos_in_block off n pos) as [Hin Hix]; [lia|lia|lia|done|]. rewrite get8_splice by done. destruct (decide (off <= pos < off + n)) as [Hp|Hp].
    + rewrite decide_True by (apply Hin in Hp; lia). rewrite decide_True by done. by rewrite (Hix ltac:(apply Hp)).
    + rewrite decide_False by (intros H; apply Hp, Hin; lia). rewrite decide_False by naive_solver. symmetry. apply fbyte_same_block; [by rewrite Hd|done].
  - pose proof (pos_out_block off n pos ltac:(lia) ltac:(lia) ltac:(lia) Hd). by rewrite decide_False by naive_solver.
Qed.

Lemma piece_size : fsok sb (fset I inum (core (set_size (off + n) din))) (fset V x d).
Proof.
  destruct piece_bytes as (K1 & K2 & _). pose proof (ok_node _ _ _ (k_ok _ _ _ Hk) inum Hi) as Hno. rewrite HI in Hno. change (MAXFILE * BSIZE) with 274432 in *.
  apply fsok_node; [done|done| |by rewrite HI|cbn; change (MAXFILE * BSIZE) with 274432; lia|].
  - destruct Hno as (H1 & H2 & H3 & H4 & H5 & H6 & H7). unfold dino_ok. cbn [core set_size d_type d_major d_minor d_nlink d_size d_addrs i_type i_major i_minor i_nlink i_size i_addrs] in *. split_and!; try done; lia.
  - intros bn Hbn Hlt. cbn [core set_size d_size d_addrs i_size i_addrs] in *. replace (i_addrs din) with (d_addrs (I inum)) by (by rewrite HI). rewrite K2 by done.
    destruct (decide (bn = off / BSIZE)) as [->|Hne]; [done|]. apply (ok_holes _ _ _ (k_ok _ _ _ Hk)); [done|done|]. rewrite HI. cbn. change BSIZE with 1024 in *. dlia.
Qed.

Lemma appended_piece : appended inum data s V I (set_img (fset (m_img s) x d) s) (fset V x d) (fset I inum (core (set_size (off + n) din))).
Proof.
  destruct piece_block as (Hxr & Hl & Hfit), piece_bytes as (K1 & K2 & K3). pose proof (k_fb _ _ _ Hk) as Hf. set (I' := fset I inum _).
  assert (forall j, d_addrs (I' j) = d_addrs (I j)) as Ha by (intros j; unfold I', fset; destruct (Z.eqb_spec j inum) as [->|]; [by rewrite HI|done]).
  assert (d_size (I inum) = off) as Hsz by (by rewrite HI). assert (forall j, d_size (I' j) = if decide (j = inum) then off + n else d_size (I j)) as Hs'.
  { intros j. unfold I'. case_decide; [subst; by rewrite fset_eq|by rewrite fset_ne]. }
  split; [split|done| | | | | |].
  - apply Hk.
  - apply Hk.
  - intros b. cbn. unfold fset. destruct (Z.eqb_spec b x) as [->|]; [by rewrite (proj2 (Z.eqb_neq _ 45)) by lia|apply Hk].
  - done.
  - apply piece_size.
  - apply bytes_ok_fset; [apply Hk|]. apply splice_bytes; [apply Hk|done].
  - intros b Hb. cbn in Hb. rewrite fset_ne by lia. by apply Hk.
  - intros b Hb. rewrite fset_ne by lia. by apply Hk.
  - intros j pos Hj. rewrite Hs', Ha. intros Hpos. pose proof (ok_node _ _ _ (k_ok _ _ _ Hk) j Hj) as (_ & _ & _ & _ & [? _] & _).
    rewrite K3 by (done || (case_decide; lia)). case_decide; [subst j; rewrite decide_False by lia; apply Hk; [done|lia]|]. rewrite decide_False by naive_solver. by apply Hk.
  - intros j Hj. by apply fset_ne.
  - rewrite Hs', decide_True, Hsz by done. done.
  - intros j pos Hj Hpos. rewrite Ha, Hsz. by apply K3.
  - rewrite Hs', decide_True, Hsz by done. cbn. pose proof (nblk_mono off (off + n) ltac:(lia)). lia.
  - intros b Hb. apply fset_ne. lia.
  - intros m _ _. by rewrite Ha.
Qed.
End piece.

Lemma appended_step inum data s V I s1 V1 I1 s2 V2 I2 : 0 <= inum < 200 -> 0 <= d_size (I inum) -> grown inum s V I s1 V1 I1 ->
  m_freeblock s1 <= m_freeblock s + (nblk (d_size (I inum) + 1) - nblk (d_size (I inum))) -> appended inum data s1 V1 I1 s2 V2 I2 -> m_freeblock s2 = m_freeblock s1 -> (0 < length data)%nat ->
  appended inum data s V I s2 V2 I2.
Proof.
  intros Hi H0 [G1 G2 G3 G4 G5 G6] Hfb [A1 A2 A3 A4 A5 A6 A7 A8] Hf2 Hl. rewrite G5 in *. split; [done|congruence| |done| | | |].
  - intros j Hj. by rewrite A3, G4.
  - intros j pos Hj Hpos. rewrite A5 by done. case_decide; [done|]. by apply (gr_bytes _ _ _ _ _ G2).
  - rewrite A4. pose proof (nblk_mono (d_size (I inum) + 1) (d_size (I inum) + Z.of_nat (length data)) ltac:(lia)). lia.
  - intros b Hb. rewrite A7 by done. by apply (gr_low _ _ _ _ _ G2).
  - intros m Hm Hle. rewrite A8, G6 by (done || lia). done.
Qed.

Lemma wp_append_body inum off din p c s V I (Q : cpu -> mkst -> inode * Z * list Z + inode * Z -> Prop) : mki s V I -> 0 <= inum < 200 -> I inum = core (set_size off din) ->
  0 <= off -> (0 < length p)%nat -> off + Z.of_nat (length p) <= MAXFILE * BSIZE -> Forall byte p -> m_freeblock s + (nblk (off + Z.of_nat (length p)) - nblk off) <= 2000 ->
  (forall s' V' I' din' p1 p2, p = p1 ++ p2 -> (0 < length p1)%nat -> appended inum p1 s V I s' V' I' -> I' inum = core (set_size (off + Z.of_nat (length p1)) din') -> meta din' = meta din ->
     Q c s' (inl (din', off + Z.of_nat (length p1), p2))) ->
  wp (append_body (din, off, p)) c s Q.
Proof.
  intros Hk Hi HI Hoff Hlen Hmax Hby Hfb HQ. unfold append_body. rewrite (proj2 (Z.gtb_lt _ _)) by lia. assert (d_size (I inum) = off) as Hsz by (by rewrite HI).
  assert (0 <= off / BSIZE < MAXFILE) as Hbn by (split; [by apply Z.div_pos|apply Z.div_lt_upper_bound; [done|lia]]). rewrite (proj2 (Z.ltb_lt _ _)) by lia. cbn [negb].
  pose proof (nblk_mono (off + 1) (off + Z.of_nat (length p)) ltac:(lia)). wp_step. eapply (wp_file_block inum off din); [exact Hk|done|done|lia|lia|]. intros s1 V1 I1 din1 x Hg HI1 Hm Hx Hne Hf1.
  pose proof (gw_inv _ _ _ _ _ _ _ Hg) as Hk1. assert (46 <= x < 2000) as Hxr by (rewrite Hx in *; apply (slot_block s1); [done|done|by apply fslot_range|done]).
  set (n1 := Z.min (Z.of_nat (length p)) ((off / BSIZE + 1) * BSIZE - off)). assert (off = off / BSIZE * BSIZE + off mod BSIZE /\ 0 <= off mod BSIZE < BSIZE) as [Hdm Hmod] by (change BSIZE with 1024; dlia).
  assert (0 < n1 /\ n1 <= Z.of_nat (length p) /\ n1 <= BSIZE - off mod BSIZE) as (Hn0 & Hn1 & Hn2) by (unfold n1; lia).
  assert (Z.of_nat (length (take (Z.to_nat n1) p)) = n1) as Hl1 by (rewrite length_take; lia). wp_step. eapply wp_rsect; [exact Hk1|lia|lia|]. wp_step. eapply wp_wsect; [exact Hk1|lia|]. wp_steps.
  replace (off - off / BSIZE * BSIZE) with (off mod BSIZE) by lia. rewrite <- Hl1 at 2. rewrite Hx in Hne |- *.
  pose proof (appended_piece inum off din1 (take (Z.to_nat n1) p) s1 V1 I1 Hk1 Hi HI1 Hoff ltac:(lia) ltac:(lia) ltac:(by apply Forall_take) Hne) as Hap.
  eapply HQ; [by rewrite take_drop|lia| |by rewrite fset_eq|done]. eapply (appended_step _ _ _ _ _ s1 V1 I1); [done|lia|done|by rewrite Hsz|exact Hap|done|lia].
Qed.

(** The inodes in the image. *)
Definition on_disk (V : Z -> block) (I : Z -> dinode) : Prop := forall j, 0 <= j < 200 -> dnode sb V j = I j.

Definition with_inum (inum : Z) (x : inode) : inode :=
  mkinode (i_dev x) inum (i_ref x) (i_lock x) (i_valid x) (i_type x) (i_major x) (i_minor x) (i_nlink x) (i_size x) (i_addrs x).

Lemma IBLOCK_img j : 0 <= j < 200 -> 32 <= IBLOCK j sb < 45.
Proof. intros Hj. by destruct (IBLOCK_val sb j Hj) as [_ HB]. Qed.

(** Storing inode [inum], which is [I inum] from now on. *)
Lemma wp_winode inum x c s V I I' (Q : cpu -> mkst -> unit -> Prop) : mki s V I -> 0 <= inum < 200 -> dino_ok (core x) -> mki s V I' ->
  (forall s' V', mki s' V' I' -> m_freeinode s' = m_freeinode s -> m_freeblock s' = m_freeblock s ->
     (forall j, 0 <= j < 200 -> dnode sb V' j = if decide (j = inum) then core x else dnode sb V j) ->
     (forall j pos, 0 <= j < 200 -> 0 <= pos < MAXFILE * BSIZE -> fbyte V' (d_addrs (I' j)) pos = fbyte V (d_addrs (I' j)) pos) -> Q c s' tt) ->
  wp (winode inum x) c s Q.
Proof.
  intros Hk Hi Hx Hk' HQ. pose proof (IBLOCK_img inum Hi) as HB. unfold winode. wp_steps. rewrite (k_sb _ _ _ Hk). eapply wp_rsect; [exact Hk|lia|lia|]. eapply wp_wsect; [exact Hk|lia|].
  set (V' := stored sb V (with_inum inum x)). destruct (stored_ok 1 2 30 sb I' V (with_inum inum x) (k_ok _ _ _ Hk') Hi) as [Hok Hb]. fold V' in Hok, Hb.
  apply (HQ _ V'); [split|done|done| |done].
  - apply Hk.
  - apply Hk.
  - intros b. unfold V', stored. cbn [i_inum with_inum]. unfold fset. cbn [m_img set_img m_freeblock]. destruct (Z.eqb_spec b (IBLOCK inum sb)) as [->|]; [by rewrite (proj2 (Z.eqb_neq _ 45)) by lia|]. apply Hk.
  - apply Hk.
  - done.
  - apply bytes_ok_fset; [apply Hk|]. apply put_dinode_bytes, Hk.
  - intros b Hfb. unfold V', stored. cbn [i_inum with_inum]. cbn in Hfb. pose proof (k_fb _ _ _ Hk). rewrite fset_ne by lia. by apply Hk.
  - intros b Hlt. unfold V', stored. cbn [i_inum with_inum]. rewrite fset_ne by lia. by apply Hk.
  - intros j pos Hj Hpos. pose proof (ok_node _ _ _ (k_ok _ _ _ Hk') j Hj) as (_ & _ & _ & _ & [? _] & _). rewrite Hb by (done || lia). by apply Hk'.
  - intros j Hj. apply (dnode_stored 1 2 30 sb V (with_inum inum x)); [apply Hk|done|done|done].
Qed.

Lemma wp_rinode inum c s V I (Q : cpu -> mkst -> inode -> Prop) : mki s V I -> on_disk V I -> 0 <= inum < 200 -> (forall din, core din = I inum -> Q c s din) -> wp (rinode inum) c s Q.
Proof.
  intros Hk Hd Hi HQ. pose proof (IBLOCK_img inum Hi) as HB. unfold rinode. wp_steps. rewrite (k_sb _ _ _ Hk). eapply wp_rsect; [exact Hk|lia|lia|]. wp_steps. apply HQ. rewrite core_get_dinode. by apply Hd.
Qed.

Lemma wp_append_loop inum off din p c s V I (Q : cpu -> mkst -> inode * Z -> Prop) : mki s V I -> 0 <= inum < 200 -> I inum = core (set_size off din) ->
  0 <= off -> off + Z.of_nat (length p) <= MAXFILE * BSIZE -> Forall byte p -> m_freeblock s + (nblk (off + Z.of_nat (length p)) - nblk off) <= 2000 ->
  (forall s' V' I' din', appended inum p s V I s' V' I' -> I' inum = core (set_size (off + Z.of_nat (length p)) din') -> meta din' = meta din -> Q c s' (din', off + Z.of_nat (length p))) ->
  wp (loop (S (length p)) append_body (din, off, p)) c s Q.
Proof.
  intros Hk Hi HI Hoff Hmax Hby Hfb HQ. assert (d_size (I inum) = off) as Hsz by (by rewrite HI).
  apply (wp_loop (fun (st : inode * Z * list Z) c' s' => c' = c /\ exists done V' I', p = done ++ st.2 /\ st.1.2 = off + Z.of_nat (length done) /\ appended inum done s V I s' V' I' /\
    I' inum = core (set_size st.1.2 st.1.1) /\ meta st.1.1 = meta din) (fun st => length st.2)); [|cbn; lia|].
  2: { split; [done|]. exists [], V, I. split_and!; [done|cbn; lia|by apply appended_refl|done|done]. }
  intros [[din1 off1] p1] c' s1 (-> & done1 & V1 & I1 & Hp & Ho & Hap & HI1 & Hm). cbn [fst snd] in *. destruct p1 as [|y p1].
  - unfold append_body. cbn. wp_steps. rewrite app_nil_r in Hp. subst done1. rewrite Ho. eapply HQ; [exact Hap|by rewrite <- Ho|done].
  - assert (Z.of_nat (length p) = Z.of_nat (length done1) + Z.of_nat (length (y :: p1))) as Hlp by (rewrite Hp, length_app; lia).
    pose proof (ap_fb _ _ _ _ _ _ _ _ Hap) as Hf1. rewrite (ap_size _ _ _ _ _ _ _ _ Hap), Hsz, <- Ho in Hf1.
    eapply wp_append_body; [apply Hap|done|exact HI1|lia|cbn; lia|lia|rewrite Hp in Hby; by apply Forall_app in Hby as [_ ?]|replace (off1 + Z.of_nat (length (y :: p1))) with (off + Z.of_nat (length p)) by lia; lia|].
    intros s2 V2 I2 din2 q1 q2 Hq Hl2 Hap2 HI2 Hm2. cbn [fst snd]. rewrite Hq in *. rewrite length_app. split; [|cbn; lia]. split; [done|]. exists (done1 ++ q1), V2, I2. split_and!; [by rewrite Hp, app_assoc|rewrite length_app; lia| |done|congruence].
    eapply appended_trans; [lia|done|done].
Qed.

(** * Between the calls *)

Lemma mki_ext_node s V I I' : mki s V I -> (forall j, 0 <= j < 200 -> I' j = I j) -> mki s V I'.
Proof.
  intros Hk He. split; try apply Hk; [by eapply (fsok_ext_node sb), He; apply Hk|]. intros j pos Hj. rewrite He by done. by apply Hk.
Qed.

(** All inodes are in the image. *)
Definition mk (s : mkst) (V : Z -> block) : Prop := mki s V (dnode sb V).

Lemma mk_on_disk s V I : mki s V I -> on_disk V I -> mk s V.
Proof. intros Hk Hd. eapply mki_ext_node; [exact Hk|done]. Qed.

Definition af_size (f : afile) : Z := Z.of_nat (length (af_data f)).
Definition with_data (f : afile) (l : list Z) : afile := mkafile (af_type f) (af_major f) (af_minor f) (af_nlink f) (af_data f ++ l).

Lemma length_fbytes V n : length (fbytes V n) = Z.to_nat (d_size n).
Proof. unfold fbytes. by rewrite length_fmap, length_seq. Qed.

Lemma mk_size s V j : mk s V -> 0 <= j < 200 -> d_size (dnode sb V j) = af_size (absfile sb V j) /\ 0 <= d_size (dnode sb V j) <= MAXFILE * BSIZE.
Proof.
  intros Hk Hj. pose proof (ok_node _ _ _ (k_ok _ _ _ Hk) j Hj) as (_ & _ & _ & _ & [? _] & _). pose proof (ok_size _ _ _ (k_ok _ _ _ Hk) j Hj).
  unfold af_size, absfile. cbn [af_data]. rewrite length_fbytes. lia.
Qed.

(** The same bytes. *)
Lemma fbytes_same V V' n n' : d_size n' = d_size n -> (forall pos, 0 <= pos < d_size n -> fbyte V' (d_addrs n') pos = fbyte V (d_addrs n) pos) -> fbytes V' n' = fbytes V n.
Proof. intros Hs Hb. unfold fbytes. rewrite Hs. apply list_fmap_ext. intros i k Hk. apply lookup_seq in Hk as [-> Hk]. apply Hb. lia. Qed.

Lemma fbytes_append V V' n n' data : 0 <= d_size n -> d_size n' = d_size n + Z.of_nat (length data) ->
  (forall pos, 0 <= pos < d_size n' -> fbyte V' (d_addrs n') pos = if decide (d_size n <= pos < d_size n') then default 0 (data !! Z.to_nat (pos - d_size n)) else fbyte V (d_addrs n) pos) ->
  fbytes V' n' = fbytes V n ++ data.
Proof.
  intros H0 Hs Hb. rewrite !fbytes_fslice, Hs. rewrite Z2Nat.inj_add, Nat2Z.id, fslice_app by lia. f_equal.
  - apply list_eq. intros i. destruct (decide (i < Z.to_nat (d_size n))%nat) as [Hi|Hi]; [|by rewrite !(proj2 (lookup_ge_None _ _)) by (rewrite length_fslice; lia)].
    rewrite !lookup_fslice by lia. f_equal. rewrite Hb by lia. by rewrite decide_False by lia.
  - apply list_eq. intros i. destruct (decide (i < length data)%nat) as [Hi|Hi]; [|by rewrite !(proj2 (lookup_ge_None _ _)) by (rewrite ?length_fslice; lia)].
    rewrite lookup_fslice by lia. rewrite Hb by lia. rewrite decide_True by lia. destruct (lookup_lt_is_Some_2 data i Hi) as [y Hy].
    replace (Z.to_nat (0 + Z.of_nat (Z.to_nat (d_size n)) + Z.of_nat i - d_size n)) with i by lia. by rewrite Hy.
Qed.

(** Inode [j] and its file are as they were. *)
Definition same_inode (V V' : Z -> block) (j : Z) : Prop := dnode sb V' j = dnode sb V j /\ absfile sb V' j = absfile sb V j.

Lemma wp_iappend inum data c s V (Q : cpu -> mkst -> unit -> Prop) : mk s V -> 0 <= inum < 200 -> Forall byte data ->
  let sz := af_size (absfile sb V inum) in let sz' := sz + Z.of_nat (length data) in
  sz' <= MAXFILE * BSIZE -> m_freeblock s + (nblk sz' - nblk sz) <= 2000 ->
  (forall s' V', mk s' V' -> m_freeinode s' = m_freeinode s -> m_freeblock s' <= m_freeblock s + (nblk sz' - nblk sz) ->
     absfile sb V' inum = with_data (absfile sb V inum) data -> (forall j, 0 <= j < 200 -> j <> inum -> same_inode V V' j) ->
     (forall m, 0 <= m < 12 -> sz' <= m * 1024 -> addr_l (d_addrs (dnode sb V' inum)) m = addr_l (d_addrs (dnode sb V inum)) m) -> Q c s' tt) ->
  wp (iappend inum data) c s Q.
Proof.
  intros Hk Hi Hby sz sz' Hmax Hfb HQ. destruct (mk_size s V inum Hk Hi) as [Hsz Hszr]. fold sz in Hsz. unfold iappend. wp_step. eapply wp_rinode; [exact Hk|by intros j|done|]. intros din Hdin.
  change (MAXFILE * BSIZE) with 274432 in *. assert (i_size din = sz) as Hds by (rewrite <- Hsz, <- Hdin; done). wp_step. unfold xint at 1. rewrite u32_small, Hds by lia.
  eapply wp_append_loop; [exact Hk|done|rewrite <- Hdin, <- Hds; by rewrite set_size_id|lia|done|done|done|]. intros s1 V1 I1 din1 Hap HI1 Hm. fold sz'. fold sz' in HI1. unfold xint. rewrite u32_small by lia.
  pose proof (ap_inv _ _ _ _ _ _ _ _ Hap) as Hk1. pose proof (ap_size _ _ _ _ _ _ _ _ Hap) as Hs1. rewrite Hsz in Hs1. fold sz' in Hs1. pose proof (ap_fb _ _ _ _ _ _ _ _ Hap) as Hf1. rewrite Hs1, Hsz in Hf1.
  eapply wp_winode; [exact Hk1|done|rewrite <- HI1; by apply (ok_node _ _ _ (k_ok _ _ _ Hk1))|exact Hk1|]. intros s2 V2 Hk2 Hfi2 Hfb2 Hd2 Hb2.
  assert (on_disk V2 I1) as Hon. { intros j Hj. rewrite Hd2 by done. case_decide as E; [by subst|]. rewrite (ap_other _ _ _ _ _ _ _ _ Hap j E). unfold dnode. rewrite (ap_low _ _ _ _ _ _ _ _ Hap); [done|]. pose proof (IBLOCK_img j Hj). lia. }
  apply (HQ s2 V2); [by eapply mk_on_disk|rewrite Hfi2; apply Hap|lia| | |intros m Hmr Hle; rewrite (Hon inum Hi); apply (ap_tail _ _ _ _ _ _ _ _ Hap); [done|lia]].
  - unfold absfile, with_data. cbn [af_type af_major af_minor af_nlink af_data]. rewrite (Hon inum Hi). assert (meta din1 = meta din) as Hm' by done. injection Hm' as E1 E2 E3 E4. rewrite <- Hdin, HI1. cbn [core set_size d_type d_major d_minor d_nlink i_type i_major i_minor i_nlink]. rewrite E1, E2, E3, E4. f_equal.
    rewrite Hdin, <- HI1. apply fbytes_append; [lia|rewrite Hs1; lia|]. intros pos Hpos. rewrite Hb2 by (change (MAXFILE * BSIZE) with 274432; lia). rewrite (ap_bytes _ _ _ _ _ _ _ _ Hap) by (change (MAXFILE * BSIZE) with 274432; lia).
    rewrite Hs1, Hsz. fold sz'. repeat case_decide; done || tauto.
  - intros j Hj Hne. split; [rewrite (Hon j Hj); by apply (ap_other _ _ _ _ _ _ _ _ Hap)|]. unfold absfile. rewrite (Hon j Hj), (ap_other _ _ _ _ _ _ _ _ Hap j Hne). f_equal. apply fbytes_same; [done|]. intros pos Hpos. destruct (mk_size s V j Hk Hj) as [_ Hjr]. change (MAXFILE * BSIZE) with 274432 in Hjr.
    rewrite <- (ap_other _ _ _ _ _ _ _ _ Hap j Hne) at 1. rewrite Hb2 by (change (MAXFILE * BSIZE) with 274432; lia). rewrite (ap_bytes _ _ _ _ _ _ _ _ Hap) by (change (MAXFILE * BSIZE) with 274432; lia). by rewrite decide_False by naive_solver.
Qed.

(** * [ialloc] *)

(** Inodes that are not allocated are zero. *)
Definition fresh (s : mkst) (V : Z -> block) : Prop := forall j, 0 <= j < 200 -> j = 0 \/ m_freeinode s <= j -> dnode sb V j = zero_node.

Lemma fresh_same s V s' V' inum : fresh s V -> m_freeinode s' = m_freeinode s -> 0 < inum < m_freeinode s -> (forall j, 0 <= j < 200 -> j <> inum -> same_inode V V' j) -> fresh s' V'.
Proof. intros Hf Hfi Hi Hs j Hj Hjr. rewrite Hfi in Hjr. destruct (Hs j Hj ltac:(lia)) as [-> _]. auto. Qed.

Lemma wp_ialloc type c s V (Q : cpu -> mkst -> Z -> Prop) : mk s V -> fresh s V -> 1 <= m_freeinode s < 200 -> 0 <= type < 32768 ->
  (forall s' V', mk s' V' -> m_freeinode s' = m_freeinode s + 1 -> m_freeblock s' = m_freeblock s -> absfile sb V' (m_freeinode s) = mkafile type 0 0 1 [] ->
     (forall j, 0 <= j < 200 -> j <> m_freeinode s -> same_inode V V' j) -> d_addrs (dnode sb V' (m_freeinode s)) = d_addrs zero_node -> Q c s' (m_freeinode s)) ->
  wp (ialloc type) c s Q.
Proof.
  intros Hk Hf Hfi Hty HQ. set (inum := m_freeinode s) in *. pose proof (Hf inum ltac:(lia) ltac:(right; done)) as Hz. unfold ialloc, next_inode. wp_steps. fold inum. unfold xshort, xint. rewrite (u32_small (inum + 1)), (u16_small type) by lia.
  change (u16 1) with 1. change (u32 0) with 0. set (x := set_size 0 _). set (s0 := mkmk _ _ _ _ _). assert (mki s0 V (dnode sb V)) as Hk0 by (split; apply Hk). set (I' := fset (dnode sb V) inum (core x)).
  assert (dino_ok (core x)) as Hx by (unfold dino_ok; cbn; split_and!; try lia; repeat (apply Forall_cons; split; [lia|]); by apply Forall_nil).
  assert (forall j, d_addrs (I' j) = d_addrs (dnode sb V j) /\ (j <> inum -> I' j = dnode sb V j)) as Ha by (intros j; unfold I', fset; destruct (Z.eqb_spec j inum) as [->|]; [by rewrite Hz|done]).
  assert (mki s0 V I') as Hk'.
  { split; try apply Hk0; [apply fsok_node; [apply Hk0|change (sb_ninodes sb) with 200; lia|done|by rewrite Hz|done|intros bn H1 H2; cbn in H2; change BSIZE with 1024 in H2; lia]|].
    intros j pos Hj Hpos. destruct (Ha j) as [-> Hne]. apply (k_end _ _ _ Hk0); [done|]. destruct (decide (j = inum)) as [->|E]; [|by rewrite <- Hne]. unfold I' in Hpos. rewrite fset_eq in Hpos. by rewrite Hz. }
  eapply wp_winode; [exact Hk0|lia|exact Hx|exact Hk'|]. intros s' V' Hk2 Hfi2 Hfb2 Hd Hb. wp_steps. assert (on_disk V' I') as Hon.
  { intros j Hj. rewrite Hd by done. unfold I'. case_decide; [subst; by rewrite fset_eq|by rewrite fset_ne]. }
  apply (HQ s' V'); [by eapply mk_on_disk|done|done| | |rewrite (Hon inum) by lia; unfold I'; by rewrite fset_eq].
  - unfold absfile. rewrite (Hon inum) by lia. unfold I'. rewrite fset_eq. done.
  - intros j Hj Hne. destruct (Ha j) as [_ Hj']. split; [rewrite Hon by done; by apply Hj'|]. unfold absfile. rewrite (Hon j Hj), (Hj' Hne). f_equal. apply fbytes_same; [done|]. intros pos Hpos. pose proof (proj2 (mk_size s V j Hk Hj)).
    rewrite <- (Hj' Hne) at 1 2. apply Hb; [done|lia].
Qed.

(** * The files *)

(** A file of the host that mkfs accepts: every read but the last returns something. *)
Record file_ok (f : hfile) (reads : list (list Z)) : Prop := {
  fo_reads : h_reads f = Some reads;
  fo_some : Forall (fun r => (0 < length r)%nat) reads;
  fo_bytes : Forall byte (concat reads);
  fo_size : Z.of_nat (length (concat reads)) <= MAXFILE * BSIZE;
  fo_path : Forall byte (h_path f);
  fo_slash : existsb (fun c => c =? 47) (basename (h_path f)) = false;
}.

Definition dirent_of (inum : Z) (path : list Z) : list Z := mkdirent inum (strncpy_l (shortname path) DIRSIZ).

(** The entries of the root directory for the files from inode [i] on. *)
Fixpoint entries (i : Z) (files : list (hfile * list (list Z))) : list Z :=
  match files with [] => [] | f :: files => dirent_of i (h_path f.1) ++ entries (i + 1) files end.
(** The blocks of the files. *)
Fixpoint file_blocks (files : list (hfile * list (list Z))) : Z :=
  match files with [] => 0 | f :: files => nblk (Z.of_nat (length (concat f.2))) + file_blocks files end.

Lemma length_strncpy t n : length (strncpy_l t n) = n.
Proof. revert t. induction n as [|n IH]; intros t; [done|]. cbn [strncpy_l]. destruct (_ =? 0); [by rewrite length_replicate|]. cbn. by rewrite IH. Qed.
Lemma strncpy_bytes t n : Forall byte t -> Forall byte (strncpy_l t n).
Proof.
  revert t. induction n as [|n IH]; intros t Ht; [by apply Forall_nil|]. cbn [strncpy_l]. destruct (_ =? 0); [apply Forall_replicate, byte_0|]. apply Forall_cons. destruct t as [|a t]; cbn; [split; [apply byte_0|by apply IH]|].
  apply Forall_cons in Ht as [Ha Ht]. split; [done|by apply IH].
Qed.

Lemma length_mkdirent inum name : length name = DIRSIZ -> length (mkdirent inum name) = 16%nat.
Proof. intros H. cbn. by rewrite H. Qed.
Lemma mkdirent_bytes inum name : Forall byte name -> Forall byte (mkdirent inum name).
Proof. intros. unfold mkdirent. pose proof (u16_range inum). repeat (apply Forall_cons; split; [unfold byte; dlia|]). done. Qed.

Lemma shortname_bytes p : Forall byte p -> Forall byte (shortname p).
Proof.
  intros Hp. unfold shortname. assert (Forall byte (basename p)) as Hb by (unfold basename; case_match; [by apply Forall_drop|done]).
  destruct (basename p) as [|c r]; [done|]. case_match; [by apply Forall_cons in Hb as [_ ?]|done].
Qed.

Lemma length_dirent_of i p : length (dirent_of i p) = 16%nat.
Proof. apply length_mkdirent, length_strncpy. Qed.
Lemma dirent_of_bytes i p : Forall byte p -> Forall byte (dirent_of i p).
Proof. intros. by apply mkdirent_bytes, strncpy_bytes, shortname_bytes. Qed.
Lemma length_entries files i : length (entries i files) = (16 * length files)%nat.
Proof. revert i. induction files as [|f files IH]; intros i; [done|]. cbn [entries length]. rewrite length_app, length_dirent_of, IH. lia. Qed.

Lemma with_data_nil f : with_data f [] = f.
Proof. destruct f. unfold with_data. cbn. by rewrite app_nil_r. Qed.
Lemma with_data_app f a b : with_data (with_data f a) b = with_data f (a ++ b).
Proof. unfold with_data. cbn. by rewrite app_assoc. Qed.
Lemma af_size_with f l : af_size (with_data f l) = af_size f + Z.of_nat (length l).
Proof. unfold af_size, with_data. cbn. rewrite length_app. lia. Qed.

Lemma same_trans V V1 V2 j : same_inode V V1 j -> same_inode V1 V2 j -> same_inode V V2 j.
Proof. intros [? ?] [? ?]. split; congruence. Qed.

Lemma wp_copy_file inum reads c s V (Q : cpu -> mkst -> unit -> Prop) : mk s V -> 0 <= inum < 200 -> Forall (fun r => (0 < length r)%nat) reads -> Forall byte (concat reads) ->
  let sz := af_size (absfile sb V inum) in let sz' := sz + Z.of_nat (length (concat reads)) in
  sz' <= MAXFILE * BSIZE -> m_freeblock s + (nblk sz' - nblk sz) <= 2000 ->
  (forall s' V', mk s' V' -> m_freeinode s' = m_freeinode s -> m_freeblock s' <= m_freeblock s + (nblk sz' - nblk sz) ->
     absfile sb V' inum = with_data (absfile sb V inum) (concat reads) -> (forall j, 0 <= j < 200 -> j <> inum -> same_inode V V' j) -> Q c s' tt) ->
  wp (copy_file inum reads) c s Q.
Proof.
  revert s V. induction reads as [|r reads IH]; intros s V Hk Hi Hsome Hby sz sz' Hmax Hfb HQ; cbn [copy_file concat] in *.
  - wp_steps. apply (HQ s V); [done|done|unfold sz'; cbn; rewrite Z.add_0_r; lia|by rewrite with_data_nil|by intros].
  - apply Forall_cons in Hsome as [Hr Hsome]. apply Forall_app in Hby as [Hb1 Hb2]. rewrite (proj2 (Z.gtb_lt _ _)) by lia. unfold sz' in *. rewrite length_app in *.
    assert (0 <= sz) by (unfold sz, af_size; lia). set (sz1 := sz + Z.of_nat (length r)). pose proof (nblk_mono sz sz1 ltac:(lia)). pose proof (nblk_mono sz1 (sz + Z.of_nat (length r + length (concat reads))) ltac:(lia)).
    wp_step. eapply wp_iappend; [exact Hk|done|done|fold sz; lia|fold sz; fold sz1; lia|]. fold sz. fold sz1. intros s1 V1 Hk1 Hfi1 Hfb1 Ha1 Hs1 _.
    assert (af_size (absfile sb V1 inum) = sz1) as Hz1 by (by rewrite Ha1, af_size_with).
    eapply IH; [exact Hk1|done|done|done|rewrite Hz1; lia|rewrite Hz1; replace (sz1 + Z.of_nat (length (concat reads))) with (sz + Z.of_nat (length r + length (concat reads))) by lia; lia|].
    rewrite Hz1. replace (sz1 + Z.of_nat (length (concat reads))) with (sz + Z.of_nat (length r + length (concat reads))) by lia. intros s2 V2 Hk2 Hfi2 Hfb2 Ha2 Hs2.
    apply (HQ s2 V2); [done|congruence|lia|by rewrite Ha2, Ha1, with_data_app|]. intros j Hj Hne. eapply same_trans; [by apply Hs1|by apply Hs2].
Qed.

(** The root directory and the files from inode [i] on are in the image. *)
Record built (s : mkst) (V : Z -> block) (root : list Z) (fi : Z) : Prop := {
  bt_mk : mk s V;
  bt_fresh : fresh s V;
  bt_fi : m_freeinode s = fi;
  bt_fir : 2 <= fi <= 200;
  bt_root : absfile sb V 1 = mkafile T_DIR 0 0 1 root;
  bt_tail m : 0 <= m < 12 -> Z.of_nat (length root) <= m * 1024 -> addr_l (d_addrs (dnode sb V 1)) m = 0;
}.

Lemma wp_add_file f reads c s V root fi (Q : cpu -> mkst -> unit -> Prop) : built s V root fi -> fi < 200 -> file_ok f reads ->
  let r := Z.of_nat (length root) in let n := Z.of_nat (length (concat reads)) in
  r + 16 <= MAXFILE * BSIZE -> m_freeblock s + (nblk (r + 16) - nblk r) + nblk n <= 2000 ->
  (forall s' V', built s' V' (root ++ dirent_of fi (h_path f)) (fi + 1) -> m_freeblock s' <= m_freeblock s + (nblk (r + 16) - nblk r) + nblk n ->
     absfile sb V' fi = mkafile T_FILE 0 0 1 (concat reads) -> (forall j, 2 <= j < fi -> same_inode V V' j) -> Q c s' tt) ->
  wp (add_file ROOTINO f) c s Q.
Proof.
  intros [Hk Hfr Hfi Hfir Hroot Htail] Hlt [F1 F2 F3 F4 F5 F6] r n Hmax Hfb HQ. unfold add_file. rewrite F6, F1. wp_step. eapply wp_ialloc; [exact Hk|exact Hfr|lia|done|]. rewrite Hfi. intros s1 V1 Hk1 Hfi1 Hfb1 Ha1 Hs1 _.
  change ROOTINO with 1. unfold xshort. rewrite u16_small by lia. change (mkdirent fi (strncpy_l (shortname (h_path f)) DIRSIZ)) with (dirent_of fi (h_path f)).
  assert (absfile sb V1 1 = mkafile T_DIR 0 0 1 root) as Hr1 by (rewrite (proj2 (Hs1 1 ltac:(lia) ltac:(lia))); done). assert (nblk 0 = 0) as Hn0 by done. assert (0 <= n) as Hn by (unfold n; lia). pose proof (nblk_mono 0 n ltac:(lia)).
  wp_step. eapply wp_iappend; [exact Hk1|lia|by apply dirent_of_bytes|rewrite Hr1, length_dirent_of; exact Hmax|rewrite Hr1, length_dirent_of; change (af_size (mkafile T_DIR 0 0 1 root)) with r; change (Z.of_nat 16) with 16; lia|].
  rewrite Hr1, length_dirent_of. change (af_size (mkafile T_DIR 0 0 1 root)) with r. change (Z.of_nat 16) with 16. intros s2 V2 Hk2 Hfi2 Hfb2 Ha2 Hs2 Ht2.
  assert (absfile sb V2 fi = mkafile T_FILE 0 0 1 []) as Hf2 by (rewrite (proj2 (Hs2 fi ltac:(lia) ltac:(lia))); done).
  eapply wp_copy_file; [exact Hk2|lia|done|done|rewrite Hf2; exact F4|rewrite Hf2; change (af_size (mkafile T_FILE 0 0 1 [])) with 0; rewrite Z.add_0_l; fold n; lia|].
  rewrite Hf2. change (af_size (mkafile T_FILE 0 0 1 [])) with 0. rewrite Z.add_0_l. fold n. intros s3 V3 Hk3 Hfi3 Hfb3 Ha3 Hs3.
  assert (forall j, 0 <= j < 200 -> j <> 1 -> j <> fi -> same_inode V V3 j) as Hsame by (intros j Hj H1 H2; eapply same_trans; [by apply Hs1|eapply same_trans; [by apply Hs2|by apply Hs3]]).
  apply (HQ s3 V3); [split|lia|done|intros j Hj; apply Hsame; lia].
  - done.
  - intros j Hj Hjr. rewrite Hfi3, Hfi2, Hfi1 in Hjr. rewrite (proj1 (Hsame j Hj ltac:(lia) ltac:(lia))). apply Hfr; [done|lia].
  - lia.
  - lia.
  - rewrite (proj2 (Hs3 1 ltac:(lia) ltac:(lia))). done.
  - intros m Hm Hle. rewrite length_app, length_dirent_of in Hle. rewrite (proj1 (Hs3 1 ltac:(lia) ltac:(lia))), Ht2, (proj1 (Hs1 1 ltac:(lia) ltac:(lia))) by (done || lia). apply Htail; [done|lia].
Qed.

Lemma wp_add_files files c s V root fi (Q : cpu -> mkst -> unit -> Prop) : built s V root fi -> fi + Z.of_nat (length files) <= 200 -> Forall (fun f => file_ok f.1 f.2) files ->
  let r := Z.of_nat (length root) in let r' := r + 16 * Z.of_nat (length files) in
  r' <= MAXFILE * BSIZE -> m_freeblock s + (nblk r' - nblk r) + file_blocks files <= 2000 ->
  (forall s' V', built s' V' (root ++ entries fi files) (fi + Z.of_nat (length files)) ->
     (forall i f, files !! i = Some f -> absfile sb V' (fi + Z.of_nat i) = mkafile T_FILE 0 0 1 (concat f.2)) -> (forall j, 2 <= j < fi -> same_inode V V' j) -> Q c s' tt) ->
  wp (add_files ROOTINO files.*1) c s Q.
Proof.
  revert s V root fi. induction files as [|f files IH]; intros s V root fi Hb Hn Hok r r' Hmax Hfb HQ; cbn [add_files fmap list_fmap entries file_blocks length] in *.
  - wp_steps. apply (HQ s V); [by rewrite app_nil_r, Z.add_0_r|by intros ? ? ?|by intros].
  - apply Forall_cons in Hok as [Hf Hok]. pose proof (bt_fir _ _ _ _ Hb). assert (0 <= r) by lia. set (n := nblk (Z.of_nat (length (concat f.2)))) in *. assert (0 <= n) by (unfold n; pose proof (nblk_mono 0 (Z.of_nat (length (concat f.2))) ltac:(lia)) as H'; change (nblk 0) with 0 in H'; lia).
    assert (0 <= file_blocks files) as Hfp. { clear. induction files as [|g files IH]; cbn; [lia|]. pose proof (nblk_mono 0 (Z.of_nat (length (concat g.2))) ltac:(lia)) as H'. change (nblk 0) with 0 in H'. lia. }
    pose proof (nblk_mono r (r + 16) ltac:(lia)). pose proof (nblk_mono (r + 16) r' ltac:(lia)). wp_step. eapply wp_add_file; [exact Hb|lia|exact Hf|fold r; lia|fold r; fold n; lia|]. fold r. fold n. intros s1 V1 Hb1 Hfb1 Ha1 Hs1.
    assert (Z.of_nat (length (root ++ dirent_of fi (h_path f.1))) = r + 16) as Hr1 by (rewrite length_app, length_dirent_of; lia).
    eapply IH; [exact Hb1|lia|done|rewrite Hr1; lia|rewrite Hr1; replace (r + 16 + 16 * Z.of_nat (length files)) with r' by lia; lia|]. intros s2 V2 Hb2 Ha2 Hs2. apply (HQ s2 V2).
    + rewrite <- app_assoc in Hb2. replace (fi + Z.of_nat (S (length files))) with (fi + 1 + Z.of_nat (length files)) by lia. done.
    + intros [|i] g Hg; cbn in Hg; [injection Hg as <-; rewrite Z.add_0_r; rewrite (proj2 (Hs2 fi ltac:(lia))); done|]. replace (fi + Z.of_nat (S i)) with (fi + 1 + Z.of_nat i) by lia. by apply Ha2.
    + intros j Hj. eapply same_trans; [apply Hs1; lia|apply Hs2; lia].
Qed.

(** * The empty image *)

Lemma wp_clear_image n i c s (Q : cpu -> mkst -> unit -> Prop) : (forall b, m_img s b = zeros) -> (0 < n)%nat -> m_secs s <= i ->
  (forall s', (forall b, m_img s' b = zeros) -> m_secs s' = i + Z.of_nat n -> m_sb s' = m_sb s -> m_freeinode s' = m_freeinode s -> m_freeblock s' = m_freeblock s -> Q c s' tt) ->
  wp (clear_image n i) c s Q.
Proof.
  revert i s. induction n as [|n IH]; intros i s Hz Hn Hi HQ; [lia|]. cbn [clear_image]. unfold wsect. wp_steps. set (s1 := mkmk _ _ _ _ _).
  assert (forall b, m_img s1 b = zeros) as Hz1 by (intros b; cbn; unfold dset; case_match; [done|apply Hz]). destruct n as [|n].
  - cbn [clear_image]. wp_steps. apply HQ; [done|cbn; lia|done..].
  - apply IH; [done|lia|cbn; lia|]. intros s' H1 H2 H3 H4 H5. apply HQ; [done|lia|done..].
Qed.

Definition empty_view (b : Z) : block := if b =? 45 then bitmap 46 else boot_blocks b.

Lemma get16_zeros off : get16 zeros off = 0.
Proof.
  unfold get16, get8. assert (forall k, default 0 (zeros !! k) = 0) as Hz; [|by rewrite !Hz].
  intros k. destruct (zeros !! k) as [y|] eqn:E; [|done]. by apply lookup_replicate in E as [-> _].
Qed.

Lemma dget_zeros off : dget zeros off = zero_node.
Proof.
  unfold dget, core, get_dinode, get_addrs. cbn [i_type i_major i_minor i_nlink i_size i_addrs]. rewrite !get16_zeros, get32_zeros. unfold zero_node. f_equal. cbn [seq fmap list_fmap]. by rewrite !get32_zeros.
Qed.

Lemma empty_dnode j : 0 <= j < 200 -> dnode sb empty_view j = zero_node.
Proof.
  intros Hj. pose proof (IBLOCK_img j Hj). unfold dnode, empty_view, boot_blocks. rewrite !(proj2 (Z.eqb_neq _ _)) by lia. apply dget_zeros.
Qed.

Lemma zero_slot V k : 0 <= k -> slot V (d_addrs zero_node) k = 0.
Proof.
  intros Hk. assert (forall k, addr_l (d_addrs zero_node) k = 0) as Ha.
  { intros i. unfold addr_l, zero_node. cbn [d_addrs]. destruct (_ !! _) as [y|] eqn:E; [|done]. by apply lookup_replicate in E as [-> _]. }
  unfold slot. rewrite !Ha. by case_match.
Qed.

Lemma empty_ok : fsok sb (fun _ => zero_node) empty_view.
Proof.
  assert (forall j k b, ~ refers sb (fun _ => zero_node) empty_view j k b) as Hr by (intros j k b (_ & Hk & Hs & Hb); rewrite zero_slot in Hs by lia; lia).
  split.
  - intros b Hb. change (sb_inodestart sb) with 32 in Hb. unfold empty_view, boot_blocks. case_match; [apply length_bitmap|]. by rewrite (proj2 (Z.eqb_neq b 1)) by lia.
  - intros b Hb. change (dstart sb) with 46 in Hb. destruct (BBLOCK_img b ltac:(lia)) as [HB Hm]. unfold used. rewrite HB, Hm. change (empty_view 45) with (bitmap 46). rewrite bit_set_bitmap by lia. apply Z.ltb_lt. lia.
  - intros j _. unfold dino_ok, zero_node. cbn. split_and!; try lia. repeat (apply Forall_cons; split; [lia|]). by apply Forall_nil.
  - intros j k b H. by destruct (Hr j k b).
  - intros j k j' k' b H. by destruct (Hr j k b).
  - intros j _. cbn. change MAXFILE with 268. change BSIZE with 1024. lia.
  - intros j bn _ Hbn Hlt. cbn in Hlt. change BSIZE with 1024 in Hlt. lia.
Qed.

Lemma empty_mk s : m_sb s = sb -> m_secs s = 2000 -> m_freeblock s = 46 -> (forall b, m_img s b = boot_blocks b) -> mk s empty_view.
Proof.
  intros H1 H2 H3 H4. unfold mk. apply (mki_ext_node s empty_view (fun _ => zero_node)); [|intros; by apply empty_dnode]. split; [done|done| |rewrite H3; lia|apply empty_ok| | | |].
  - intros b. rewrite H3, H4. done.
  - intros b. unfold empty_view, boot_blocks. case_match; [apply bitmap_bytes|]. case_match; [apply put_addrs_bytes|]; apply zeros_bytes.
  - intros b Hb. rewrite H3 in Hb. unfold empty_view, boot_blocks. by rewrite !(proj2 (Z.eqb_neq _ _)) by lia.
  - intros b Hb. unfold empty_view. by rewrite (proj2 (Z.eqb_neq b 45)) by lia.
  - intros j pos _ [Hpos _]. unfold fbyte. cbn in Hpos. destruct (pos / BSIZE) eqn:E; rewrite zero_slot by (unfold fslot; case_match; change NDIRECT with 12 in *; change BSIZE with 1024 in *; dlia); done.
Qed.

(** * The end *)

(** The root directory with its size rounded up. *)
Definition rounded (n : Z) : Z := (n / BSIZE + 1) * BSIZE.

(** The image after [balloc]. *)
Record finished (V : Z -> block) (root : list Z) (fi : Z) (D : Z -> block) : Prop := {
  fn_fs : disk_fs sb D;
  fn_bytes : bytes_ok D;
  fn_boot b : b < 32 -> D b = boot_blocks b;
  fn_root : absfile sb D 1 = mkafile T_DIR 0 0 1 (root ++ replicate (Z.to_nat (rounded (Z.of_nat (length root)) - Z.of_nat (length root))) 0);
  fn_files j : 2 <= j < fi -> absfile sb D j = absfile sb V j;
  fn_free j : 0 <= j < 200 -> j = 0 \/ fi <= j -> d_type (dnode sb D j) = 0;
}.

Lemma rounded_ok s V root fi din : built s V root fi -> Z.of_nat (length root) mod 1024 <> 0 -> core din = dnode sb V 1 ->
  mki s V (fset (dnode sb V) 1 (core (set_size (rounded (Z.of_nat (length root))) din))) /\ Z.of_nat (length root) < rounded (Z.of_nat (length root)) <= MAXFILE * BSIZE /\ d_size (dnode sb V 1) = Z.of_nat (length root).
Proof.
  intros [Hk _ _ _ Hroot _] Hmod Hdin. destruct (mk_size s V 1 Hk ltac:(lia)) as [Hsz Hr]. rewrite Hroot in Hsz. change (af_size _) with (Z.of_nat (length root)) in Hsz. set (n := Z.of_nat (length root)) in *.
  change (MAXFILE * BSIZE) with 274432 in *. assert (n < rounded n <= 274432 /\ rounded n = n / 1024 * 1024 + 1024) as [Hro Hre] by (unfold rounded; change BSIZE with 1024; dlia). split_and!; [|lia|lia|done].
  pose proof (ok_node _ _ _ (k_ok _ _ _ Hk) 1 ltac:(change (sb_ninodes sb) with 200; lia)) as Hno. rewrite <- Hdin in Hno. assert (d_size (core din) = n) as Hdn by (by rewrite Hdin).
  split; try apply Hk.
  - apply fsok_node; [apply Hk|change (sb_ninodes sb) with 200; lia| |by rewrite <- Hdin|cbn; change (MAXFILE * BSIZE) with 274432; lia|].
    + destruct Hno as (H1 & H2 & H3 & H4 & H5 & H6 & H7). unfold dino_ok. cbn [core set_size d_type d_major d_minor d_nlink d_size d_addrs i_type i_major i_minor i_nlink i_size i_addrs] in *. split_and!; try done; lia.
    + intros bn Hbn Hlt. cbn [core set_size d_size d_addrs i_size i_addrs] in *. change (i_addrs din) with (d_addrs (core din)). rewrite Hdin. apply (ok_holes _ _ _ (k_ok _ _ _ Hk)); [change (sb_ninodes sb) with 200; lia|done|]. rewrite Hsz. change BSIZE with 1024 in *. dlia.
  - intros j pos Hj Hpos. unfold fset in *. destruct (Z.eqb_spec j 1) as [->|]; [|by apply (k_end _ _ _ Hk)]. cbn [core set_size d_size d_addrs i_size i_addrs] in *. change (i_addrs din) with (d_addrs (core din)). rewrite Hdin. apply (k_end _ _ _ Hk); [lia|rewrite Hsz; lia].
Qed.

Definition finish : M mkst unit :=
  din <- rinode ROOTINO ;;
  let off := xint (i_size din) in
  let off := (off / BSIZE + 1) * BSIZE in
  winode ROOTINO (set_size (xint off) din) ;;
  used <- gets m_freeblock ;;
  balloc (s32 used).

Lemma wp_finish s V root fi c (Q : cpu -> mkst -> unit -> Prop) : built s V root fi -> Z.of_nat (length root) mod 1024 <> 0 ->
  (forall s', finished V root fi (m_img s') -> Q c s' tt) -> wp finish c s Q.
Proof.
  intros Hb Hmod HQ. pose proof Hb as [Hk Hfr Hfi Hfir Hroot _]. unfold finish. change ROOTINO with 1. wp_step. eapply wp_rinode; [exact Hk|by intros j|lia|]. intros din Hdin.
  destruct (rounded_ok s V root fi din Hb Hmod Hdin) as (Hk' & Hro & Hsz). set (n := Z.of_nat (length root)) in *. change (MAXFILE * BSIZE) with 274432 in *. assert (i_size din = n) as Hds by (rewrite <- Hsz, <- Hdin; done).
  unfold xint. rewrite Hds, (u32_small n) by lia. fold (rounded n). rewrite u32_small by lia. set (I' := fset _ 1 _) in Hk'.
  wp_step. eapply wp_winode; [exact Hk|lia| |exact Hk'|]. { pose proof (ok_node _ _ _ (k_ok _ _ _ Hk') 1 ltac:(change (sb_ninodes sb) with 200; lia)) as H. unfold I' in H. by rewrite fset_eq in H. }
  intros s2 V2 Hk2 Hfi2 Hfb2 Hd2 Hb2. assert (on_disk V2 I') as Hon. { intros j Hj. rewrite Hd2 by done. unfold I'. case_decide; [subst; by rewrite fset_eq|by rewrite fset_ne]. }
  wp_steps. pose proof (k_fb _ _ _ Hk2). unfold balloc. rewrite s32_small by lia. change (BSIZE * 8) with 8192. rewrite (proj2 (Z.ltb_lt _ _)) by lia. cbn [negb]. wp_steps. rewrite (k_sb _ _ _ Hk2). change (sb_bmapstart sb) with 45.
  eapply wp_wsect; [exact Hk2|lia|]. apply HQ. cbn [m_img set_img]. set (D := fset (m_img s2) 45 _).
  assert (forall b, D b = V2 b) as HD by (intros b; rewrite (k_view _ _ _ Hk2); unfold D, fset; by case_match). pose proof (mk_on_disk _ _ _ Hk2 Hon) as Hmk.
  assert (forall j, 0 <= j < 200 -> absfile sb D j = absfile sb V2 j) as Habs by (intros j Hj; apply (absfile_ext 1 2 30 sb); [apply Hmk|intros b _; apply HD|done]).
  assert (forall j, 0 <= j < 200 -> j <> 1 -> dnode sb V2 j = dnode sb V j) as Hoth by (intros j Hj Hne; rewrite Hon by done; unfold I'; by rewrite fset_ne).
  split.
  - eapply (disk_fs_ext 1 2 30 sb); [apply Hmk|intros b _; apply HD].
  - intros b. rewrite HD. apply Hk2.
  - intros b Hlt. rewrite HD. by apply Hk2.
  - rewrite Habs by lia. pose proof (f_equal af_type Hroot) as E1. pose proof (f_equal af_major Hroot) as E2. pose proof (f_equal af_minor Hroot) as E3. pose proof (f_equal af_nlink Hroot) as E4. pose proof (f_equal af_data Hroot) as E5.
    change (d_type (dnode sb V 1) = T_DIR) in E1. change (d_major (dnode sb V 1) = 0) in E2. change (d_minor (dnode sb V 1) = 0) in E3. change (d_nlink (dnode sb V 1) = 1) in E4. change (fbytes V (dnode sb V 1) = root) in E5.
    unfold absfile. rewrite (Hon 1) by lia. unfold I'. rewrite fset_eq. cbn [core set_size d_type d_major d_minor d_nlink i_type i_major i_minor i_nlink]. rewrite <- Hdin in E1, E2, E3, E4. cbn [core d_type d_major d_minor d_nlink] in E1, E2, E3, E4. rewrite E1, E2, E3, E4. f_equal.
    fold n. rewrite <- E5 at 1. apply fbytes_append; [lia|rewrite Hsz, length_replicate; cbn [core set_size d_size i_size]; fold n; lia|]. intros pos Hpos. cbn [core set_size d_size d_addrs i_size i_addrs] in Hpos |- *. rewrite Hsz.
    pose proof (Hb2 1 pos ltac:(lia) ltac:(change (MAXFILE * BSIZE) with 274432; lia)) as E. unfold I' in E. rewrite fset_eq in E. cbn [core set_size d_addrs i_addrs] in E. rewrite E. change (i_addrs din) with (d_addrs (core din)). rewrite Hdin.
    case_decide; [|done]. rewrite (k_end _ _ _ Hk 1 pos) by (try lia; change (MAXFILE * BSIZE) with 274432; lia). symmetry. destruct (replicate _ 0 !! _) as [y|] eqn:Ey; [|done]. by apply lookup_replicate in Ey as [-> _].
  - intros j Hj. rewrite Habs by lia. unfold absfile. rewrite Hoth by lia. f_equal. apply fbytes_same; [done|]. intros pos Hpos. pose proof (proj2 (mk_size s V j Hk ltac:(lia))). 
    pose proof (Hb2 j pos ltac:(lia) ltac:(lia)) as E. unfold I' in E. by rewrite fset_ne in E by lia.
  - intros j Hj Hjr. rewrite (dnode_ext sb V2 D j) by (done || (intros; apply HD)). rewrite Hoth by lia. rewrite Hfr; [done|done|lia].
Qed.

(** * The root directory *)

Lemma dent_fbytes V n i : 0 <= d_size n -> 16 * (Z.of_nat i + 1) <= d_size n -> dent V n i = take 16 (drop (16 * i) (fbytes V n)).
Proof.
  intros H0 Hi. unfold dent. rewrite fbytes_fslice. replace (Z.to_nat (d_size n)) with (16 * i + (16 + (Z.to_nat (d_size n) - 16 * i - 16)))%nat by lia.
  rewrite fslice_app, drop_app_length' by (by rewrite length_fslice). rewrite fslice_app, take_app_length' by (by rewrite length_fslice). f_equal. lia.
Qed.

Lemma take_drop_concat (L : list (list Z)) i e : Forall (fun l => length l = 16%nat) L -> L !! i = Some e -> take 16 (drop (16 * i) (concat L)) = e.
Proof.
  revert i. induction L as [|l L IH]; intros i HL Hi; [done|]. apply Forall_cons in HL as [Hl HL]. destruct i as [|i]; cbn [concat].
  - injection Hi as ->. rewrite Nat.mul_0_r, drop_0. by apply take_app_length'.
  - replace (16 * S i)%nat with (length l + 16 * i)%nat by lia. rewrite <- drop_drop, drop_app_length. by apply IH.
Qed.

(** A directory whose bytes are whole entries. *)
Lemma dents_concat V n (L : list (list Z)) : 0 <= d_size n -> fbytes V n = concat L -> Forall (fun l => length l = 16%nat) L -> dents V n = entry_of <$> L.
Proof.
  intros H0 Hb HL. assert (d_size n = 16 * Z.of_nat (length L)) as Hs.
  { apply (f_equal length) in Hb. rewrite length_fbytes in Hb. assert (length (concat L) = (16 * length L)%nat) as E; [|lia]. clear -HL. induction HL as [|l L Hl HL IH]; [done|]. cbn. rewrite length_app, IH. lia. }
  apply list_eq. intros i. rewrite list_lookup_fmap. destruct (L !! i) as [e|] eqn:Ei.
  - apply lookup_lt_Some in Ei as Hlt. rewrite dents_lookup by (rewrite Hs; dlia). apply (f_equal (fun x => Some (entry_of x))). rewrite dent_fbytes by lia. rewrite Hb. by apply take_drop_concat.
  - apply lookup_ge_None in Ei. apply lookup_ge_None. rewrite length_dents, Hs. dlia.
Qed.

Lemma cstr_strncpy n t : cstr n (strncpy_l t n) = cstr n t.
Proof.
  revert t. induction n as [|n IH]; intros [|a t]; [done..|]. simpl. destruct (Z.eqb_spec a 0) as [->|Ha]; [done|]. simpl. by rewrite (proj2 (Z.eqb_neq a 0) Ha), IH.
Qed.

Lemma entry_mkdirent inum name : 0 <= inum < 65536 -> length name = DIRSIZ -> entry_of (mkdirent inum name) = (inum, cstr DIRSIZ name).
Proof.
  intros Hi Hl. unfold entry_of, de_inum, de_name, mkdirent. rewrite u16_small by lia. f_equal; [change (inum mod 256 + 256 * (inum / 256) = inum); dlia|]. rewrite skipn_cons, skipn_cons, drop_0, take_ge by lia. done.
Qed.

(** The entries mkfs makes. *)
Fixpoint root_entries (i : Z) (files : list (hfile * list (list Z))) : list (Z * list Z) :=
  match files with [] => [] | f :: files => (i, cstr DIRSIZ (shortname (h_path f.1))) :: root_entries (i + 1) files end.

Lemma entries_concat files i : 0 <= i -> i + Z.of_nat (length files) < 65536 ->
  exists L, entries i files = concat L /\ Forall (fun l => length l = 16%nat) L /\ entry_of <$> L = root_entries i files.
Proof.
  revert i. induction files as [|f files IH]; intros i Hi Hn; [by exists []|]. cbn [length] in Hn. destruct (IH (i + 1)) as (L & He & HL & Hr); [lia|lia|]. exists (dirent_of i (h_path f.1) :: L). cbn [entries concat root_entries]. rewrite He. split_and!; [done| |].
  - apply Forall_cons. split; [apply length_dirent_of|done].
  - rewrite fmap_cons, Hr. f_equal. unfold dirent_of. rewrite entry_mkdirent by (lia || apply length_strncpy). by rewrite cstr_strncpy.
Qed.

Lemma root_entries_in files i e : e ∈ root_entries i files -> exists k, files !! k <> None /\ e.1 = i + Z.of_nat k.
Proof.
  revert i. induction files as [|f files IH]; intros i; [by intros ?%not_elem_of_nil|]. cbn [root_entries]. intros [->|He]%elem_of_cons; [exists 0%nat; cbn; split; [done|lia]|].
  destruct (IH _ He) as (k & Hk & E). exists (S k). split; [done|lia].
Qed.

Definition dots : list Z := mkdirent 1 (dot [46]) ++ mkdirent 1 (dot [46; 46]).

(** The directory of a finished image. *)
Lemma finished_dents V files fi D : finished V (dots ++ entries 2 files) fi D -> 2 + Z.of_nat (length files) < 65536 ->
  let n := (length files + 2)%nat in
  dents D (dnode sb D 1) = (1, [46]) :: (1, [46; 46]) :: root_entries 2 files ++ replicate (Z.to_nat (rounded (16 * Z.of_nat n) / 16) - n) (0, []).
Proof.
  intros Hf Hn n. destruct (entries_concat files 2) as (L & He & HL & Hr); [lia|lia|]. pose proof (f_equal af_data (fn_root _ _ _ _ Hf)) as Hd. cbn [af_data absfile] in Hd.
  assert (length (dots ++ entries 2 files) = 16 * n)%nat as Hlen by (rewrite length_app, length_entries; unfold n; change (length dots) with 32%nat; lia). rewrite Hlen in Hd.
  set (m := (Z.to_nat (rounded (16 * Z.of_nat n) / 16) - n)%nat). assert (Z.to_nat (rounded (Z.of_nat (16 * n)) - Z.of_nat (16 * n)) = 16 * m)%nat as Hm.
  { unfold m, rounded. change BSIZE with 1024. replace (Z.of_nat (16 * n)) with (16 * Z.of_nat n) by lia. replace ((16 * Z.of_nat n / 1024 + 1) * 1024 / 16) with ((16 * Z.of_nat n / 1024 + 1) * 64) by dlia. dlia. }
  rewrite Hm in Hd. assert (forall k, replicate (16 * k) 0 = concat (replicate k (replicate 16 0))) as Hz by (induction k as [|k IH]; [done|]; replace (16 * S k)%nat with (16 + 16 * k)%nat by lia; rewrite replicate_add, IH; done).
  rewrite (dents_concat D _ (mkdirent 1 (dot [46]) :: mkdirent 1 (dot [46; 46]) :: L ++ replicate m (replicate 16 0))).
  - rewrite !fmap_cons, fmap_app, Hr, fmap_replicate. done.
  - apply (ok_node _ _ _ (fn_fs _ _ _ _ Hf) 1). change (sb_ninodes sb) with 200. lia.
  - rewrite Hd, Hz, He. cbn [concat]. rewrite concat_app. unfold dots. by rewrite <- !app_assoc.
  - repeat (apply Forall_cons; split; [done|]). apply Forall_app. split; [done|]. by apply Forall_replicate.
Qed.

(** A finished image is a tree the kernel can walk. *)
Lemma finished_tree V files D : finished V (dots ++ entries 2 files) (2 + Z.of_nat (length files)) D -> Z.of_nat (length files) <= 198 ->
  (forall i f, files !! i = Some f -> absfile sb D (2 + Z.of_nat i) = mkafile T_FILE 0 0 1 (concat f.2)) -> tree_ok sb D.
Proof.
  intros Hf Hn Hfiles. split; [apply Hf|intros j _ _ pos _; apply fbyte_byte, Hf|]. intros j Hj Hty. change (sb_ninodes sb) with 200 in Hj. pose proof (fn_root _ _ _ _ Hf) as Hroot.
  assert (j = 1) as ->.
  { destruct (decide (j = 1)) as [|H1]; [done|]. destruct (decide (2 <= j < 2 + Z.of_nat (length files))) as [H2|H2]; [|rewrite (fn_free _ _ _ _ Hf) in Hty by lia; done].
    destruct (lookup_lt_is_Some_2 files (Z.to_nat (j - 2))) as [f Hl]; [lia|]. apply Hfiles in Hl. replace (2 + Z.of_nat (Z.to_nat (j - 2))) with j in Hl by lia.
    apply (f_equal af_type) in Hl. change (d_type (dnode sb D j) = T_FILE) in Hl. rewrite Hty in Hl. done. }
  split.
  - apply (f_equal (fun f => length (af_data f))) in Hroot. cbn [af_data absfile] in Hroot. rewrite length_fbytes, length_app, length_replicate in Hroot.
    pose proof (ok_node _ _ _ (fn_fs _ _ _ _ Hf) 1 ltac:(change (sb_ninodes sb) with 200; lia)) as (_ & _ & _ & _ & [H0 _] & _). set (l := length (dots ++ entries 2 files)) in *.
    assert (d_size (dnode sb D 1) = rounded (Z.of_nat l)) as -> by (unfold rounded in *; change BSIZE with 1024 in *; dlia). unfold rounded. change BSIZE with 1024. dlia.
  - rewrite (finished_dents _ _ _ _ Hf) by lia. change (sb_ninodes sb) with 200. intros e He Hne. assert (e.1 = 1 \/ exists k, files !! k <> None /\ e.1 = 2 + Z.of_nat k) as [->|(k & Hk & ->)].
    { apply elem_of_cons in He as [->|He]; [by left|]. apply elem_of_cons in He as [->|He]; [by left|]. apply elem_of_app in He as [He|He]; [right; by apply root_entries_in|].
      apply elem_of_replicate in He as [-> _]. done. }
    + split; [lia|]. pose proof (f_equal af_type Hroot) as E1. pose proof (f_equal af_nlink Hroot) as E2. change (d_type (dnode sb D 1) = T_DIR) in E1. change (d_nlink (dnode sb D 1) = 1) in E2. by rewrite E1, E2.
    + destruct (files !! k) as [f|] eqn:Ek; [|done]. apply lookup_lt_Some in Ek as Hlt. apply Hfiles in Ek. split; [lia|].
      pose proof (f_equal af_type Ek) as E1. pose proof (f_equal af_nlink Ek) as E2. change (d_type (dnode sb D (2 + Z.of_nat k)) = T_FILE) in E1. change (d_nlink (dnode sb D (2 + Z.of_nat k)) = 1) in E2. by rewrite E1, E2.
Qed.

(** The kernel mounts it; the log is empty. *)
Lemma finished_mounts V root fi D p n w : finished V root fi D ->
  exists c' f D', mount 1 (mkcpu [] p n w 0 []) (fs_boot_state D) = Ret c' f tt /\ mounted 1 2 30 sb D f D' /\ forall b, 32 <= b -> D' b = D b.
Proof.
  intros Hf. pose proof (fn_boot _ _ _ _ Hf) as Hb. assert (hdr (D 2) = []) as Hh by (rewrite Hb by lia; done).
  assert (forall b, logical 2 D b = D b) as Hlog by (intros b; unfold logical; by rewrite Hh).
  pose proof (wp_mount 1 2 30 sb D p n w) as Hwp. apply wp_elim in Hwp as (c' & f & [] & Hrun & _ & D' & Hm).
  - exists c', f, D'. split_and!; [exact Hrun|exact Hm|]. intros b Hlt. rewrite (mo_disk _ _ _ _ _ _ _ Hm) by (unfold home; lia). apply Hlog.
  - rewrite Hb by lia. vm_compute. reflexivity.
  - done.
  - done.
  - done.
  - unfold disk_ok. rewrite Hb by lia. change (boot_blocks 2) with zeros. apply header_ok_nil; [lia|reflexivity|reflexivity].
  - eapply (disk_fs_ext 1 2 30 sb); [apply Hf|]. intros b _. apply Hlog.
Qed.

(** The beginning of [main]: the root directory with its two entries. *)
Lemma wp_begin (k : Z -> M mkst unit) c (Q : cpu -> mkst -> unit -> Prop) :
  (forall s V, built s V dots 2 -> m_freeblock s <= 47 -> wp (k ROOTINO) c s Q) ->
  wp (modify (fun s => mkmk (m_img s) (m_secs s) the_sb (m_freeinode s) nmeta) ;;
      clear_image (Z.to_nat FSSIZE) 0 ;;
      wsect 1 (put_sb zeroes the_sb) ;;
      rootino <- ialloc T_DIR ;;
      if negb (rootino =? ROOTINO) then panic "assert" else
      iappend rootino (mkdirent (xshort rootino) (dot [46])) ;;
      iappend rootino (mkdirent (xshort rootino) (dot [46; 46])) ;;
      k rootino) c mkfs_start Q.
Proof.
  intros HQ. wp_step. wp_step. wp_step. apply wp_clear_image; [done|unfold FSSIZE; lia|cbn; lia|]. intros s1 Hz1 Hsec1 Hsb1 Hfi1 Hfb1. cbn in Hsb1, Hfi1, Hfb1. change (0 + Z.of_nat (Z.to_nat FSSIZE)) with 2000 in Hsec1.
  unfold wsect. wp_steps. set (s2 := mkmk _ _ _ _ _). assert (mk s2 empty_view) as Hk2.
  { apply empty_mk; [cbn; rewrite Hsb1; by vm_compute|cbn; lia|cbn; rewrite Hfb1; by vm_compute|]. intros b. cbn. unfold dset, boot_blocks. case_match; [done|apply Hz1]. }
  assert (m_freeinode s2 = 1) as Hf2 by (cbn; by rewrite Hfi1). eapply wp_ialloc; [exact Hk2|intros j Hj _; by apply empty_dnode|lia|done|]. rewrite Hf2. intros s3 V3 Hk3 Hfi3 Hfb3 Ha3 Hs3 Hz3. change (negb (1 =? ROOTINO)) with false. cbv iota.
  assert (m_freeblock s3 = 46) as Hb3 by (rewrite Hfb3; cbn; rewrite Hfb1; by vm_compute). change (xshort 1) with 1.
  assert (forall x, length x = DIRSIZ -> Forall byte x -> Forall byte (mkdirent 1 x) /\ length (mkdirent 1 x) = 16%nat) as Hmd by (intros; split; [by apply mkdirent_bytes|by apply length_mkdirent]).
  destruct (Hmd (dot [46]) ltac:(done) ltac:(repeat (apply Forall_cons; split; [unfold byte; lia|]); by apply Forall_nil)) as [B1 L1]. destruct (Hmd (dot [46; 46]) ltac:(done) ltac:(repeat (apply Forall_cons; split; [unfold byte; lia|]); by apply Forall_nil)) as [B2 L2].
  change (nblk (0 + 16) - nblk 0) with 1 in *. wp_step. eapply wp_iappend; [exact Hk3|lia|exact B1|rewrite Ha3, L1; by vm_compute|rewrite Ha3, L1, Hb3; by vm_compute|]. rewrite Ha3, L1, Hb3. intros s4 V4 Hk4 Hfi4 Hfb4 Ha4 Hs4 Ht4. change (nblk _ - nblk _) with 1 in Hfb4.
  wp_step. eapply wp_iappend; [exact Hk4|lia|exact B2|rewrite Ha4, L2; by vm_compute|rewrite Ha4, L2; change (nblk _ - nblk _) with 0; lia|]. rewrite Ha4, L2. intros s5 V5 Hk5 Hfi5 Hfb5 Ha5 Hs5 Ht5. change (nblk _ - nblk _) with 0 in Hfb5.
  apply (HQ s5 V5); [|lia]. split; [done| |lia|lia|by rewrite Ha5|].
  - intros j Hj Hjr. rewrite Hfi5, Hfi4, Hfi3 in Hjr. rewrite (proj1 (Hs5 j Hj ltac:(lia))), (proj1 (Hs4 j Hj ltac:(lia))), (proj1 (Hs3 j Hj ltac:(lia))). by apply empty_dnode.
  - intros m Hm Hle. change (Z.of_nat (length dots)) with 32 in Hle. rewrite Ht5, Ht4, Hz3 by (try change (af_size _) with 16; try change (af_size _) with 0; lia). destruct m as [|m|m]; [done| |lia]. pose proof (zero_slot V3 (Zpos m) ltac:(lia)) as Hsl. unfold slot in Hsl. by rewrite (proj2 (Z.leb_le _ _)) in Hsl by (change NDIRECT with 12; lia).
Qed.

(** C9: mkfs makes a disk the kernel boots from. Given host files whose names have no slash,
    of which there are at most 198 and not 62 or 126 or 190, and whose blocks fit on the disk,
    it ends, and its image is a well-formed file system: the root directory has exactly the
    entries [.], [..] and one for each file, each file has the bytes of the host's file, and
    mounting the image succeeds and leaves the disk as mkfs wrote it. *)
Theorem mkfs_boots files c p n w : Forall (fun f => file_ok f.1 f.2) files ->
  let k := Z.of_nat (length files) + 2 in k <= 200 -> k mod 64 <> 0 -> 46 + nblk (16 * k) + file_blocks files <= FSSIZE ->
  exists s', main files.*1 c mkfs_start = Ret c s' tt /\
    let D := m_img s' in
    tree_ok sb D /\
    dents D (dnode sb D ROOTINO) = (1, [46]) :: (1, [46; 46]) :: root_entries 2 files ++ replicate (Z.to_nat (rounded (16 * k) / 16 - k)) (0, []) /\
    (forall i f, files !! i = Some f -> absfile sb D (2 + Z.of_nat i) = mkafile T_FILE 0 0 1 (concat f.2)) /\
    exists c' f D', mount 1 (mkcpu [] p n w 0 []) (fs_boot_state D) = Ret c' f tt /\ mounted 1 2 30 sb D f D' /\ forall b, 32 <= b -> D' b = D b.
Proof.
  intros Hok k Hk Hmod Hfit. destruct (wp_run (main files.*1) c mkfs_start (fun s' _ => exists V, finished V (dots ++ entries 2 files) k (m_img s') /\
    forall i f, files !! i = Some f -> absfile sb (m_img s') (2 + Z.of_nat i) = mkafile T_FILE 0 0 1 (concat f.2))) as (s' & [] & Hrun & V & Hf & Hfiles).
  - apply wp_begin. intros s V Hb Hfb. change (length dots) with 32%nat. wp_step. assert (Z.of_nat (length (dots ++ entries 2 files)) = 16 * k) as Hl by (rewrite length_app, length_entries; change (length dots) with 32%nat; lia).
    eapply wp_add_files; [exact Hb|lia|done|change (length dots) with 32%nat; change (MAXFILE * BSIZE) with 274432; lia| |].
    { change (length dots) with 32%nat. replace (Z.of_nat 32 + 16 * Z.of_nat (length files)) with (16 * k) by lia. change (nblk (Z.of_nat 32)) with 1. unfold FSSIZE in Hfit. lia. }
    intros s2 V2 Hb2 Ha2 _. apply (wp_finish _ _ _ _ _ _ Hb2); [rewrite Hl; dlia|]. intros s3 Hf3. split; [done|]. exists V2. replace (2 + Z.of_nat (length files)) with k in Hf3 by lia. split; [done|].
    intros i f Hi. apply lookup_lt_Some in Hi as Hlt. rewrite (fn_files _ _ _ _ Hf3) by lia. by apply Ha2.
  - exists s'. split; [done|]. cbv zeta. replace k with (2 + Z.of_nat (length files)) in Hf by lia. split_and!; [by eapply finished_tree; [exact Hf|lia|]| |done|by eapply finished_mounts].
    change ROOTINO with 1. rewrite (finished_dents _ _ _ _ Hf) by lia. do 3 f_equal. replace (Z.of_nat (length files + 2)) with k by lia. f_equal. unfold rounded. change BSIZE with 1024. dlia.
Qed.

(** The program [cat], as [user/_cat], and a text of two lines, read in two pieces. *)
Definition demo_files : list (hfile * list (list Z)) :=
  [(mkhfile (bytes_of "user/_cat") (Some [[127; 69; 76; 70]]), [[127; 69; 76; 70]]);
   (mkhfile (bytes_of "README") (Some [[104; 105; 10]; [120; 118; 54; 10]]), [[104; 105; 10]; [120; 118; 54; 10]])].

Lemma mkfs_boots_witness : exists s', main demo_files.*1 (mkcpu [] 1 0 [] 0 []) mkfs_start = Ret (mkcpu [] 1 0 [] 0 []) s' tt /\ tree_ok sb (m_img s') /\
  absfile sb (m_img s') 3 = mkafile T_FILE 0 0 1 [104; 105; 10; 120; 118; 54; 10].
Proof.
  destruct (mkfs_boots demo_files (mkcpu [] 1 0 [] 0 []) 1 0 []) as (s' & Hrun & Ht & _ & Hf & _).
  - repeat (apply Forall_cons; split); [..|by apply Forall_nil]; (split; [done|repeat (apply Forall_cons; split; [cbn; lia|]); by apply Forall_nil|apply bytes_check; reflexivity|by vm_compute|apply bytes_check; reflexivity|reflexivity]).
  - done.
  - done.
  - by vm_compute.
  - exists s'. split_and!; [exact Hrun|exact Ht|]. exact (Hf 1%nat _ eq_refl).
Defined.

(** * A root directory that ends with its block *)

(** The size is rounded up by a whole block, for which there is no block of the disk. *)
Lemma wp_finish_hole s V root fi c (Q : cpu -> mkst -> unit -> Prop) : built s V root fi -> Z.of_nat (length root) mod 1024 = 0 -> Z.of_nat (length root) < 12 * 1024 ->
  (forall s', let n := dnode sb (m_img s') 1 in d_size n = Z.of_nat (length root) + 1024 -> addr_l (d_addrs n) (Z.of_nat (length root) / 1024) = 0 -> Q c s' tt) -> wp finish c s Q.
Proof.
  intros Hb Hmod Hlt HQ. pose proof Hb as [Hk _ _ _ Hroot Htail]. destruct (mk_size s V 1 Hk ltac:(lia)) as [Hsz _]. rewrite Hroot in Hsz. change (af_size _) with (Z.of_nat (length root)) in Hsz. set (n := Z.of_nat (length root)) in *.
  unfold finish. change ROOTINO with 1. wp_step. eapply wp_rinode; [exact Hk|by intros j|lia|]. intros din Hdin. assert (i_size din = n) as Hds by (rewrite <- Hsz, <- Hdin; done).
  unfold xint. rewrite Hds, (u32_small n) by lia. change BSIZE with 1024. replace ((n / 1024 + 1) * 1024) with (n + 1024) by dlia. rewrite u32_small by lia. set (x := set_size (n + 1024) din).
  pose proof (ok_node _ _ _ (k_ok _ _ _ Hk) 1 ltac:(change (sb_ninodes sb) with 200; lia)) as Hno. rewrite <- Hdin in Hno.
  assert (dino_ok (core x)) as Hx. { destruct Hno as (H1 & H2 & H3 & H4 & H5 & H6 & H7). unfold dino_ok, x. cbn [core set_size d_type d_major d_minor d_nlink d_size d_addrs i_type i_major i_minor i_nlink i_size i_addrs] in *. split_and!; try done; lia. }
  pose proof (IBLOCK_img 1 ltac:(lia)) as HB. wp_step. unfold winode. wp_steps. rewrite (k_sb _ _ _ Hk). eapply wp_rsect; [exact Hk|lia|lia|]. eapply wp_wsect; [exact Hk|lia|].
  wp_steps. cbn [m_freeblock set_img]. pose proof (k_fb _ _ _ Hk). unfold balloc. rewrite s32_small by lia. change (1024 * 8) with 8192. change (BSIZE * 8) with 8192. rewrite (proj2 (Z.ltb_lt _ _)) by lia. cbn [negb]. unfold wsect. wp_steps. cbn [m_sb set_img]. rewrite (k_sb _ _ _ Hk). change (sb_bmapstart sb) with 45.
  match goal with |- Q _ ?s' _ => assert (dnode sb (m_img s') 1 = core x) as Hd end.
  { cbn [m_img set_img]. unfold dnode, dset. rewrite (proj2 (Z.eqb_neq _ 45)), fset_eq by lia. apply dget_put_dinode; [|done].
    rewrite (ok_len _ _ _ (k_ok _ _ _ Hk)) by (change (sb_inodestart sb) with 32; lia). apply ioff_bound. }
  apply HQ; rewrite Hd; [done|]. change (addr_l (d_addrs (core din)) (n / 1024) = 0). rewrite Hdin. apply Htail; dlia.
Qed.

(** C40: When the entries of the root directory (its two own ones and one for each file) fill whole blocks, that is
    with 62, 126 or 190 files, mkfs still rounds the size up by one block. For any files that it
    accepts it ends and leaves a root directory that is one block longer than its entries, with no block
    of the disk for that part; so the image is not a well-formed file system. *)
Theorem mkfs_root_hole files c : Forall (fun f => file_ok f.1 f.2) files ->
  let k := Z.of_nat (length files) + 2 in k <= 200 -> k mod 64 = 0 -> 46 + nblk (16 * k) + file_blocks files <= FSSIZE ->
  exists s', main files.*1 c mkfs_start = Ret c s' tt /\
    let n := dnode sb (m_img s') ROOTINO in
    d_size n = 16 * k + BSIZE /\ slot (m_img s') (d_addrs n) (fslot (k / 64)) = 0 /\ ~ disk_fs sb (m_img s').
Proof.
  intros Hok k Hk Hmod Hfit. destruct (wp_run (main files.*1) c mkfs_start (fun s' _ => let n := dnode sb (m_img s') 1 in d_size n = 16 * k + 1024 /\ addr_l (d_addrs n) (k / 64) = 0)) as (s' & [] & Hrun & Hsz & Hsl).
  - apply wp_begin. intros s V Hb Hfb. change (length dots) with 32%nat. wp_step. assert (Z.of_nat (length (dots ++ entries 2 files)) = 16 * k) as Hl by (rewrite length_app, length_entries; change (length dots) with 32%nat; lia).
    eapply wp_add_files; [exact Hb|lia|done|change (length dots) with 32%nat; change (MAXFILE * BSIZE) with 274432; lia| |].
    { change (length dots) with 32%nat. replace (Z.of_nat 32 + 16 * Z.of_nat (length files)) with (16 * k) by lia. change (nblk (Z.of_nat 32)) with 1. unfold FSSIZE in Hfit. lia. }
    intros s2 V2 Hb2 _ _. apply (wp_finish_hole _ _ _ _ _ _ Hb2); [rewrite Hl; dlia|rewrite Hl; lia|]. rewrite Hl. replace (16 * k / 1024) with (k / 64) by dlia. done.
  - exists s'. split; [done|]. cbv zeta. change ROOTINO with 1. assert (slot (m_img s') (d_addrs (dnode sb (m_img s') 1)) (fslot (k / 64)) = 0) as H0.
    { unfold slot, fslot. change NDIRECT with 12. rewrite (proj2 (Z.ltb_lt _ _)), (proj2 (Z.leb_le _ _)) by dlia. done. }
    split_and!; [exact Hsz|exact H0|]. intros Hfs. apply (ok_holes _ _ _ Hfs 1 (k / 64)); [change (sb_ninodes sb) with 200; lia|dlia| |exact H0]. rewrite Hsz. change BSIZE with 1024. dlia.
Qed.

(** 62 empty files. *)
Definition empty_file (i : nat) : hfile * list (list Z) := (mkhfile [102; 97 + Z.of_nat i] (Some []), []).
Definition many_files : list (hfile * list (list Z)) := empty_file <$> seq 0 62.

Lemma empty_file_ok i : (i < 62)%nat -> file_ok (empty_file i).1 (empty_file i).2.
Proof.
  intros Hi. split; [done|by apply Forall_nil|by apply Forall_nil|cbn; change (MAXFILE * BSIZE) with 274432; lia| |].
  - repeat (apply Forall_cons; split; [unfold byte; lia|]). by apply Forall_nil.
  - cbn [empty_file fst h_path]. assert (basename [102; 97 + Z.of_nat i] = [102; 97 + Z.of_nat i]) as -> by done. cbn [existsb]. rewrite (proj2 (Z.eqb_neq (97 + Z.of_nat i) 47)) by lia. done.
Qed.

Lemma mkfs_root_hole_witness : exists s', main many_files.*1 (mkcpu [] 1 0 [] 0 []) mkfs_start = Ret (mkcpu [] 1 0 [] 0 []) s' tt /\ d_size (dnode sb (m_img s') ROOTINO) = 2048.
Proof.
  destruct (mkfs_root_hole many_files (mkcpu [] 1 0 [] 0 [])) as (s' & Hrun & Hsz & _).
  - apply Forall_fmap, Forall_forall. intros i Hi%elem_of_seq. apply empty_file_ok. lia.
  - vm_compute. discriminate.
  - vm_compute. reflexivity.
  - vm_compute. discriminate.
  - exists s'. split; [exact Hrun|]. etransitivity; [exact Hsz|]. vm_compute. reflexivity.
Defined.
