(* ===== verification/User.v ===== *)
(** User processes: the system calls as a program sees them, and the library of user/ulib.c.

    A process has its memory and its open files. Reading a file takes from what is left of its
    contents as many bytes as the kernel chooses to deliver, at most as many as asked for: the
    sizes come from [u_sizes], one per call, where [None] is an error. What is written to a
    descriptor is recorded. *)
From S2P Require Import Prelude Memory.

Record ust := mkust {
  u_mem : mem; u_in : Z -> list Z; u_sizes : list (option nat); u_out : Z -> list Z }.

Definition set_umem (m : mem) (s : ust) : ust := mkust m (u_in s) (u_sizes s) (u_out s).
Definition umod (f : mem -> mem) : M ust unit := modify (fun s => set_umem (f (u_mem s)) s).
Definition fput (f : Z -> list Z) (fd : Z) (l : list Z) : Z -> list Z := fun x => if x =? fd then l else f x.

(** How many bytes a read delivers: none at the end of the file or for an empty buffer,
    otherwise at least one. *)
Definition deliver (size avail want : nat) : nat := Nat.min (S size) (Nat.min avail want).

Definition read (fd a n : Z) : M ust Z := fun c s =>
  match u_sizes s with
  | [] => Diverge
  | None :: szs => Ret c (mkust (u_mem s) (u_in s) szs (u_out s)) (-1)
  | Some size :: szs =>
      let k := deliver size (length (u_in s fd)) (Z.to_nat n) in
      Ret c (mkust (store_bytes (u_mem s) a (take k (u_in s fd))) (fput (u_in s) fd (drop k (u_in s fd))) szs (u_out s)) (Z.of_nat k)
  end.

Definition write (fd a n : Z) : M ust Z := fun c s =>
  Ret c (mkust (u_mem s) (u_in s) (u_sizes s) (fput (u_out s) fd (u_out s fd ++ load_bytes (u_mem s) a (Z.to_nat n)))) n.

(** [write] of a string constant. *)
Definition put (fd : Z) (l : list Z) : M ust unit :=
  modify (fun s => mkust (u_mem s) (u_in s) (u_sizes s) (fput (u_out s) fd (u_out s fd ++ l))).

(** A loop over the memory that found its end. *)
Definition scan {A} (f : mem -> option A) : M ust A := fun c s =>
  match f (u_mem s) with Some x => Ret c s x | None => Diverge end.

(** * user/ulib.c

    The loops over strings look at no more than [fuel] bytes; [None] is a string without its
    NUL there. A [char] is unsigned on RISC-V. *)

Fixpoint strcpy (m : mem) (s t : Z) (fuel : nat) : option mem :=
  match fuel with
  | O => None
  | S k => let m' := store8 m s (load8 m t) in
           if load8 m t =? 0 then Some m' else strcpy m' (s + 1) (t + 1) k
  end.

Fixpoint strcmp (m : mem) (p q : Z) (fuel : nat) : option Z :=
  match fuel with
  | O => None
  | S k => if negb (load8 m p =? 0) && (load8 m p =? load8 m q) then strcmp m (p + 1) (q + 1) k
           else Some (load8 m p - load8 m q)
  end.

(** [for(n = 0; s[n]; n++) ;] *)
Fixpoint strlen_from (m : mem) (s n : Z) (fuel : nat) : option Z :=
  match fuel with
  | O => None
  | S k => if load8 m (s + n) =? 0 then Some n else strlen_from m s (n + 1) k
  end.
Definition strlen (m : mem) (s : Z) (fuel : nat) : option Z := strlen_from m s 0 fuel.

Fixpoint memset_from (m : mem) (cdst c i : Z) (k : nat) : mem :=
  match k with O => m | S k' => memset_from (store8 m (cdst + i) c) cdst c (i + 1) k' end.
Definition memset (m : mem) (dst c n : Z) : mem := memset_from m dst c 0 (Z.to_nat n).

(** The address of the first [c] in the string, 0 if there is none. *)
Fixpoint strchr (m : mem) (s c : Z) (fuel : nat) : option Z :=
  match fuel with
  | O => None
  | S k => if load8 m s =? 0 then Some 0 else if load8 m s =? c then Some s else strchr m (s + 1) c k
  end.

Fixpoint atoi_from (m : mem) (s n : Z) (fuel : nat) : option Z :=
  match fuel with
  | O => None
  | S k => if (48 <=? load8 m s) && (load8 m s <=? 57) then atoi_from m (s + 1) (s32 (n * 10 + load8 m s - 48)) k else Some n
  end.
Definition atoi (m : mem) (s : Z) (fuel : nat) : option Z := atoi_from m s 0 fuel.

Definition memmove (m : mem) (vdst vsrc n : Z) : mem :=
  if vsrc >? vdst then memmove_up m vdst vsrc (Z.to_nat n)
  else memmove_down m (vdst + n) (vsrc + n) (Z.to_nat n).

Fixpoint memcmp_from (m : mem) (p1 p2 : Z) (n : nat) : Z :=
  match n with
  | O => 0
  | S k => if negb (load8 m p1 =? load8 m p2) then load8 m p1 - load8 m p2 else memcmp_from m (p1 + 1) (p2 + 1) k
  end.
Definition memcmp (m : mem) (s1 s2 n : Z) : Z := memcmp_from m s1 s2 (Z.to_nat n).

Definition memcpy (m : mem) (dst src n : Z) : mem := memmove m dst src n.

(** The byte read is the local [c] at address [ca]. *)
Definition ugets (ca buf max : Z) : M ust Z :=
  i <- loop (S (Z.to_nat max)) (fun i =>
    if i + 1 <? max then
      cc <- read 0 ca 1 ;;
      if cc <? 1 then ret (inr i) else
      c <- gets (fun s => load8 (u_mem s) ca) ;;
      umod (fun m => store8 m (buf + i) c) ;;
      if (c =? 10) || (c =? 13) then ret (inr (i + 1)) else ret (inl (i + 1))
    else ret (inr i)) 0 ;;
  umod (fun m => store8 m (buf + i) 0) ;;
  ret buf.

(** * Lemmas *)

Lemma wp_scan {A} (f : mem -> option A) x c s (Q : cpu -> ust -> A -> Prop) : f (u_mem s) = Some x -> Q c s x -> wp (scan f) c s Q.
Proof. intros Hf HQ. unfold wp, scan. by rewrite Hf. Qed.

Lemma wp_read fd a n c s size szs (Q : cpu -> ust -> Z -> Prop) : u_sizes s = Some size :: szs ->
  (forall k, k = deliver size (length (u_in s fd)) (Z.to_nat n) ->
    Q c (mkust (store_bytes (u_mem s) a (take k (u_in s fd))) (fput (u_in s) fd (drop k (u_in s fd))) szs (u_out s)) (Z.of_nat k)) ->
  wp (read fd a n) c s Q.
Proof. intros Hs HQ. unfold wp, read. rewrite Hs. by apply HQ. Qed.

(** Enough calls of [read] succeed. *)
Definition reads_ok (n : nat) (s : ust) : Prop := (n <= length (u_sizes s))%nat /\ Forall is_Some (u_sizes s).

Lemma reads_ok_cons n s : reads_ok (S n) s -> exists size szs, u_sizes s = Some size :: szs /\ (n <= length szs)%nat /\ Forall is_Some szs.
Proof.
  intros [Hl Hf]. destruct (u_sizes s) as [|o szs]; cbn in Hl; [lia|]. apply Forall_cons in Hf as [[size ->] Hf]. exists size, szs. split_and!; [done|lia|done].
Qed.

(** The string at [s] is [l]. *)
Definition cstr_at (m : mem) (s : Z) (l : list Z) : Prop :=
  Forall (fun x => 0 < x < 256) l /\ load_bytes m s (length l) = l /\ load8 m (s + Z.of_nat (length l)) = 0.

Lemma cstr_at_nil m s : cstr_at m s [] <-> load8 m s = 0.
Proof. unfold cstr_at. cbn. rewrite Z.add_0_r. split; [by intros (_ & _ & ?)|]. intros. split_and!; [by constructor|done..]. Qed.

Lemma cstr_at_cons m s x l : cstr_at m s (x :: l) <-> 0 < x < 256 /\ load8 m s = x /\ cstr_at m (s + 1) l.
Proof.
  unfold cstr_at. cbn [length load_bytes]. replace (s + 1 + Z.of_nat (length l)) with (s + Z.of_nat (S (length l))) by lia. rewrite Forall_cons. split.
  - intros ([? ?] & [= ? ?] & ?). done.
  - intros (? & <- & ? & ? & ?). split; [done|]. split; [by f_equal|done].
Qed.

Lemma cstr_at_fun m s l l' : cstr_at m s l -> cstr_at m s l' -> l = l'.
Proof.
  revert s l'. induction l as [|x l IH]; intros s [|x' l']; rewrite ?cstr_at_nil, ?cstr_at_cons; try done; [lia|lia|].
  intros (_ & <- & H1) (_ & <- & H2). f_equal. by apply (IH (s + 1)).
Qed.

Lemma cstr_at_ext m m' s l : (forall b, s <= b <= s + Z.of_nat (length l) -> load8 m' b = load8 m b) -> cstr_at m s l -> cstr_at m' s l.
Proof.
  intros He (H1 & H2 & H3). split_and!; [done| |rewrite He by lia; done].
  rewrite <- H2 at 2. apply load_bytes_ext. intros b Hb. apply He. lia.
Qed.

(** [strchr] finds the first occurrence. *)
Lemma strchr_found m s c l l' fuel : 0 < c -> c ∉ l -> cstr_at m s (l ++ c :: l') -> (length l < fuel)%nat -> strchr m s c fuel = Some (s + Z.of_nat (length l)).
Proof.
  intros Hc. revert s fuel. induction l as [|x l IH]; intros s [|fuel] Hn Hs Hf; cbn [length] in *; try lia; cbn [strchr app] in *; apply cstr_at_cons in Hs as (Hx & Hl & Hs).
  - rewrite Hl, (proj2 (Z.eqb_neq c 0)), Z.eqb_refl by lia. f_equal. lia.
  - apply not_elem_of_cons in Hn as [Hxc Hn]. rewrite Hl, !(proj2 (Z.eqb_neq x _)) by first [done|lia]. rewrite (IH (s + 1) fuel Hn Hs) by lia. f_equal. lia.
Qed.

Lemma strchr_none m s c l fuel : c ∉ l -> cstr_at m s l -> (length l < fuel)%nat -> strchr m s c fuel = Some 0.
Proof.
  revert s fuel. induction l as [|x l IH]; intros s [|fuel] Hn Hs Hf; cbn [length] in *; try lia; cbn [strchr].
  - by apply cstr_at_nil in Hs as ->.
  - apply cstr_at_cons in Hs as (Hx & Hl & Hs). apply not_elem_of_cons in Hn as [Hxc Hn]. rewrite Hl, !(proj2 (Z.eqb_neq x _)) by first [done|lia]. apply IH; [done..|lia].
Qed.

(** [memmove] copies for every overlap. *)
Lemma load8_umemmove m dst src n b : 0 <= n ->
  load8 (memmove m dst src n) b = if decide (dst <= b < dst + n) then load8 m (src + (b - dst)) else load8 m b.
Proof.
  intros. unfold memmove. destruct (Z.gtb_spec src dst).
  - rewrite memmove_up_spec by lia. repeat case_decide; done || lia.
  - rewrite memmove_down_spec by lia. repeat case_decide; try lia; f_equal; lia.
Qed.

(** The string [strcpy] copies. *)
Lemma strcpy_spec m s t l fuel : cstr_at m t l -> (length l < fuel)%nat -> s + Z.of_nat (length l) < t \/ t + Z.of_nat (length l) < s ->
  exists m', strcpy m s t fuel = Some m' /\ cstr_at m' s l /\ forall b, ~ s <= b <= s + Z.of_nat (length l) -> load8 m' b = load8 m b.
Proof.
  revert m s t fuel. induction l as [|x l IH]; intros m s t [|fuel] Hs Hf Hd; cbn [length] in *; try lia; cbn [strcpy].
  - apply cstr_at_nil in Hs as ->. cbn [Z.eqb]. eexists. split_and!; [reflexivity|apply cstr_at_nil, load8_store8_eq|]. intros b Hb. apply load8_store8_ne. lia.
  - apply cstr_at_cons in Hs as (Hx & Hl & Hs). rewrite Hl, (proj2 (Z.eqb_neq x 0)) by lia.
    destruct (IH (store8 m s x) (s + 1) (t + 1) fuel) as (m' & Hr & Hc & Ho); [|lia|lia|].
    { eapply cstr_at_ext; [|exact Hs]. intros b Hb. apply load8_store8_ne. lia. }
    exists m'. split_and!; [done| |].
    + apply cstr_at_cons. split_and!; [lia|lia| |done]. rewrite Ho by lia. rewrite load8_store8_eq. apply u8_small. lia.
    + intros b Hb. rewrite Ho by lia. apply load8_store8_ne. lia.
Qed.

(** [strcmp] is 0 exactly for equal strings. *)
Lemma strcmp_spec m p q lp lq fuel : cstr_at m p lp -> cstr_at m q lq -> (length lp < fuel)%nat ->
  exists r, strcmp m p q fuel = Some r /\ (r = 0 <-> lp = lq).
Proof.
  revert p q lq fuel. induction lp as [|x lp IH]; intros p q [|y lq] [|fuel] Hp Hq Hf; cbn [length] in *; try lia; cbn [strcmp].
  - apply cstr_at_nil in Hp, Hq. rewrite Hp, Hq. eexists. split; [reflexivity|]. done.
  - apply cstr_at_nil in Hp. apply cstr_at_cons in Hq as (Hy & -> & _). rewrite Hp. eexists. split; [reflexivity|]. split; [lia|done].
  - apply cstr_at_nil in Hq. apply cstr_at_cons in Hp as (Hx & -> & _). rewrite Hq, !(proj2 (Z.eqb_neq x _)) by lia. eexists. split; [reflexivity|]. split; [lia|done].
  - apply cstr_at_cons in Hp as (Hx & -> & Hp), Hq as (Hy & -> & Hq). rewrite (proj2 (Z.eqb_neq x 0)) by lia. cbn [negb andb]. destruct (Z.eqb_spec x y) as [->|Hne].
    + destruct (IH (p + 1) (q + 1) lq fuel Hp Hq) as (r & Hr & Hiff); [lia|]. exists r. split; [done|]. rewrite Hiff. split; [by intros ->|by intros [= ->]].
    + eexists. split; [reflexivity|]. split; [lia|by intros [= ->]].
Qed.

Lemma strlen_spec m s l fuel : cstr_at m s l -> (length l < fuel)%nat -> strlen m s fuel = Some (Z.of_nat (length l)).
Proof.
  unfold strlen. assert (forall k n, cstr_at m (s + n) k -> (length k < fuel)%nat -> strlen_from m s n fuel = Some (n + Z.of_nat (length k))) as Hg.
  { induction fuel as [|fuel IH]; intros k n Hs Hf; [lia|]. cbn [strlen_from]. destruct k as [|x k].
    - apply cstr_at_nil in Hs. rewrite Hs. cbn. f_equal. lia.
    - apply cstr_at_cons in Hs as (Hx & -> & Hs). rewrite (proj2 (Z.eqb_neq x 0)) by lia. rewrite (IH k (n + 1)); [cbn [length]; f_equal; lia| |cbn [length] in Hf; lia].
      by rewrite Z.add_assoc. }
  intros Hs Hf. rewrite (Hg l 0); [done| |done]. by rewrite Z.add_0_r.
Qed.

(** * Lines of input *)

(** What [gets] takes: up to a newline or a carriage return, at most [k] bytes. *)
Fixpoint getline (k : nat) (inp : list Z) : list Z :=
  match k, inp with
  | S k, x :: inp => if (x =? 10) || (x =? 13) then [x] else x :: getline k inp
  | _, _ => []
  end.

(** The state of [gets] after [i] bytes. *)
Record got (ca buf max : Z) (s : ust) (i : Z) (s' : ust) : Prop := {
  g_range : 0 <= i < max;
  g_in fd : fd <> 0 -> u_in s' fd = u_in s fd;
  g_out : u_out s' = u_out s;
  g_mem b : ~ buf <= b < buf + max -> b <> ca -> load8 (u_mem s') b = load8 (u_mem s) b;
}.

(** What [gets] leaves: the line and its NUL. *)
Definition gets_post (ca buf max : Z) (s s' : ust) : Prop :=
  let l := getline (Z.to_nat (max - 1)) (u_in s 0) in
  cstr_at (u_mem s') buf l /\ u_in s' 0 = drop (length l) (u_in s 0) /\ (forall fd, fd <> 0 -> u_in s' fd = u_in s fd) /\ u_out s' = u_out s /\
  forall b, ~ buf <= b < buf + max -> b <> ca -> load8 (u_mem s') b = load8 (u_mem s) b.

Lemma got_end ca buf max s i s' : got ca buf max s i s' -> Forall (fun x => 0 < x < 256) (u_in s 0) ->
  (exists l, load_bytes (u_mem s') buf (length l) = l /\ Z.of_nat (length l) = i /\ getline (Z.to_nat (max - 1)) (u_in s 0) = l /\ u_in s' 0 = drop (length l) (u_in s 0)) ->
  gets_post ca buf max s (set_umem (store8 (u_mem s') (buf + i) 0) s').
Proof.
  intros Hg Hb (l & Hm & Hi & Hl & Hr). pose proof (g_range _ _ _ _ _ _ Hg). unfold gets_post. rewrite Hl. split_and!; cbn; [|done|apply Hg|apply Hg|].
  - split_and!; [|rewrite <- Hm at 2; apply load_bytes_ext; intros b Hb'; apply load8_store8_ne; lia|rewrite Hi; by rewrite load8_store8_eq].
    rewrite <- Hl. clear -Hb. revert Hb. generalize (u_in s 0), (Z.to_nat (max - 1)). intros inp k. revert inp. induction k as [|k IH]; intros [|x inp]; cbn; [done..|]. intros [Hx Hb]%Forall_cons.
    destruct (_ || _); apply Forall_cons; split; [done|constructor|done|auto].
  - intros b Hb1 Hb2. rewrite load8_store8_ne by lia. by apply Hg.
Qed.

(** After [i] bytes, none of them the end of the line. *)
Definition so_far (buf max : Z) (s : ust) (i : Z) (s' : ust) (l rest : list Z) : Prop :=
  u_in s 0 = l ++ rest /\ Z.of_nat (length l) = i /\ load_bytes (u_mem s') buf (length l) = l /\ u_in s' 0 = rest /\
  getline (Z.to_nat (max - 1)) (u_in s 0) = l ++ getline (Z.to_nat (max - 1 - i)) rest.

(** One byte more. *)
Lemma got_byte ca buf max s i s' l x rest szs : got ca buf max s i s' -> so_far buf max s i s' l (x :: rest) -> i + 1 < max -> 0 < x < 256 -> ~ buf <= ca < buf + max ->
  let s1 := mkust (store8 (store8 (u_mem s') ca x) (buf + i) x) (fput (u_in s') 0 rest) szs (u_out s') in
  got ca buf max s (i + 1) s1 /\ load_bytes (u_mem s1) buf (length (l ++ [x])) = l ++ [x].
Proof.
  intros Hg (Hin & Hl & Hm & Hrest & _) Hlt Hx Hca s1. pose proof (g_range _ _ _ _ _ _ Hg) as Hi. split; [split; cbn|].
  - lia.
  - intros fd Hfd. unfold fput. rewrite (proj2 (Z.eqb_neq _ _) Hfd). by apply Hg.
  - apply Hg.
  - intros b Hb Hne. rewrite !load8_store8_ne by lia. by apply Hg.
  - rewrite length_app, load_bytes_app, Hl. cbn. rewrite load8_store8_eq, u8_small by lia. f_equal. rewrite <- Hm at 2. apply load_bytes_ext. intros b Hb. rewrite !load8_store8_ne by lia. done.
Qed.

Lemma wp_ugets ca buf max c s (Q : cpu -> ust -> Z -> Prop) : 1 <= max -> reads_ok (Z.to_nat max) s -> Forall (fun x => 0 < x < 256) (u_in s 0) -> ~ buf <= ca < buf + max ->
  (forall s', gets_post ca buf max s s' -> Q c s' buf) -> wp (ugets ca buf max) c s Q.
Proof.
  intros Hmax Hr Hb Hca HQ. unfold ugets. wp_step.
  apply (wp_loop (fun i c' s' => c' = c /\ got ca buf max s i s' /\ (exists l rest, so_far buf max s i s' l rest) /\ reads_ok (Z.to_nat (max - i)) s') (fun i => Z.to_nat (max - i))); [|lia|].
  2: { split_and!; [done|by split; [lia|..]| |by rewrite Z.sub_0_r]. exists [], (u_in s 0). split_and!; [done..|]. by rewrite Z.sub_0_r. }
  intros i c' s' (-> & Hg & (l & rest & Hso) & Hrd). pose proof Hso as (Hin & Hl & Hm & Hrest & Hline). pose proof (g_range _ _ _ _ _ _ Hg) as Hi.
  destruct (Z.ltb_spec (i + 1) max) as [Hlt|Hge].
  2: { wp_steps. unfold umod. wp_steps. apply HQ, got_end; [done|done|]. exists l. replace (Z.to_nat (max - 1 - i)) with 0%nat in Hline by lia. cbn in Hline. rewrite app_nil_r in Hline.
       split_and!; [done..|]. by rewrite Hin, drop_app_length. }
  wp_step. destruct (reads_ok_cons (Z.to_nat (max - i - 1)) s') as (size & szs & Hs & Hn & Hf); [replace (S (Z.to_nat (max - i - 1))) with (Z.to_nat (max - i)) by lia; done|].
  eapply wp_read; [exact Hs|]. intros k ->. rewrite Hrest. replace (Z.to_nat (max - 1 - i)) with (S (Z.to_nat (max - 1 - (i + 1)))) in Hline by lia. destruct rest as [|x rest]; unfold deliver; cbn [length].
  - rewrite Nat.min_0_l, Nat.min_0_r. cbn. unfold umod. wp_steps. apply HQ, (got_end _ _ _ _ _ (mkust (u_mem s') (fput (u_in s') 0 []) szs (u_out s'))); [|done|].
    + split; try apply Hg. intros fd Hfd; cbn; unfold fput; rewrite (proj2 (Z.eqb_neq _ _) Hfd); by apply Hg.
    + exists l. cbn in Hline. rewrite app_nil_r in Hline. split_and!; [done..|]. cbn. by rewrite Hin, drop_app_length.
  - pose proof Hb as Hb0. rewrite Hin in Hb. apply Forall_app in Hb as [Hb1 Hb2]. apply Forall_cons in Hb2 as [Hx Hb2]. destruct (got_byte _ _ _ _ _ _ _ _ _ szs Hg Hso Hlt Hx Hca) as [Hg1 Hm1].
    change (Z.to_nat 1) with 1%nat. rewrite Nat.min_r, Nat.min_r by lia. change (Z.of_nat 1 <? 1) with false. unfold umod. wp_steps. cbn [take drop u_mem set_umem store_bytes].
    rewrite ?take_0, ?drop_0. cbn [store_bytes]. rewrite load8_store8_eq, (u8_small x) by lia. cbn [getline] in Hline.
    destruct ((x =? 10) || (x =? 13)); wp_steps.
    + apply HQ, (got_end _ _ _ _ _ _ Hg1); [done|]. exists (l ++ [x]). split_and!; [done|rewrite length_app; cbn; lia|done|]. cbn [u_in]. rewrite Hin. replace (l ++ x :: rest) with ((l ++ [x]) ++ rest) by (by rewrite <- app_assoc). by rewrite drop_app_length.
    + split_and!; [done|done| |split; [cbn; lia|done]|lia]. exists (l ++ [x]), rest. split_and!; [by rewrite <- app_assoc|rewrite length_app; cbn; lia|done|done|by rewrite <- app_assoc].
Qed.
