(* ===== verification/Grep.v ===== *)
(** user/grep.c: the pattern matcher against the language a pattern denotes, and the program
    that prints the matching lines of a file. A string is the list of its bytes before the
    NUL. *)
From S2P Require Import Prelude Memory User.

(** * The matcher *)

(** [here] is [matchhere(re, _)]. *)
Fixpoint matchstar (here : list Z -> bool) (c : Z) (text : list Z) : bool :=
  if here text then true else
  match text with
  | [] => false
  | x :: text => if (x =? c) || (c =? 46) then matchstar here c text else false
  end.

Fixpoint matchhere (re text : list Z) : bool :=
  match re with
  | [] => true
  | c :: re1 =>
      let one :=
        if (c =? 36) && bool_decide (re1 = []) then bool_decide (text = []) else
        match text with
        | [] => false
        | x :: text => if (c =? 46) || (c =? x) then matchhere re1 text else false
        end in
      match re1 with
      | d :: re2 => if d =? 42 then matchstar (matchhere re2) c text else one
      | [] => one
      end
  end.

(** The [do]-[while] of [match]. *)
Fixpoint match_any (re text : list Z) : bool :=
  if matchhere re text then true else
  match text with [] => false | _ :: text => match_any re text end.

Definition match_ (re text : list Z) : bool :=
  match re with
  | c :: re1 => if c =? 94 then matchhere re1 text else match_any re text
  | [] => match_any re text
  end.

(** * What a pattern means *)

Inductive item := Chr (c : Z) | Star (c : Z).

(** The items of a pattern, and whether it ends with the end-of-line anchor. *)
Fixpoint items (re : list Z) : list item * bool :=
  match re with
  | [] => ([], false)
  | c :: re1 =>
      let one := if (c =? 36) && bool_decide (re1 = []) then ([], true) else (Chr c :: (items re1).1, (items re1).2) in
      match re1 with
      | d :: re2 => if d =? 42 then (Star c :: (items re2).1, (items re2).2) else one
      | [] => one
      end
  end.

(** The dot stands for any character. *)
Definition accepts (c x : Z) : Prop := c = 46 \/ c = x.

Inductive in_lang : list item -> list Z -> Prop :=
| in_nil : in_lang [] []
| in_chr c x its w : accepts c x -> in_lang its w -> in_lang (Chr c :: its) (x :: w)
| in_star c u its w : Forall (accepts c) u -> in_lang its w -> in_lang (Star c :: its) (u ++ w).

(** [text] has, at its start, a word of the pattern, up to the end of [text] if anchored. *)
Definition starts (re text : list Z) : Prop :=
  exists w post, text = w ++ post /\ in_lang (items re).1 w /\ ((items re).2 = true -> post = []).

Definition matches (re text : list Z) : Prop :=
  match re with
  | c :: re1 => if decide (c = 94) then starts re1 text else exists pre rest, text = pre ++ rest /\ starts re rest
  | [] => exists pre rest, text = pre ++ rest /\ starts re rest
  end.

Lemma accepts_b c x : (c =? 46) || (c =? x) = true <-> accepts c x.
Proof. rewrite orb_true_iff, !Z.eqb_eq. done. Qed.

Lemma matchstar_spec here (P : list Z -> Prop) c text : (forall t, here t = true <-> P t) ->
  matchstar here c text = true <-> exists u rest, text = u ++ rest /\ Forall (accepts c) u /\ P rest.
Proof.
  intros Hh. induction text as [|x text IH]; cbn [matchstar]; destruct (here _) eqn:He.
  - apply Hh in He. split; [|done]. intros _. by exists [], [].
  - split; [done|]. intros (u & rest & Hu & _ & Hp). destruct u; [|done]. cbn in Hu. subst rest. apply Hh in Hp. congruence.
  - apply Hh in He. split; [|done]. intros _. by exists [], (x :: text).
  - assert ((x =? c) || (c =? 46) = (c =? 46) || (c =? x)) as -> by (rewrite orb_comm; f_equal; apply Z.eqb_sym).
    destruct ((c =? 46) || (c =? x)) eqn:Ha.
    + apply accepts_b in Ha. rewrite IH. split.
      * intros (u & rest & -> & Hu & Hp). exists (x :: u), rest. by split_and!; [|constructor|].
      * intros (u & rest & Hu & Hf & Hp). destruct u as [|y u]; cbn in Hu; [subst rest; apply Hh in Hp; congruence|].
        injection Hu as -> ->. apply Forall_cons in Hf as [_ Hf]. eauto 10.
    + split; [done|]. intros (u & rest & Hu & Hf & Hp). destruct u as [|y u]; cbn in Hu; [subst rest; apply Hh in Hp; congruence|].
      injection Hu as -> ->. apply Forall_cons in Hf as [Hy _]. apply accepts_b in Hy. congruence.
Qed.

Lemma starts_star c re text : starts (c :: 42 :: re) text <-> exists u rest, text = u ++ rest /\ Forall (accepts c) u /\ starts re rest.
Proof.
  unfold starts. cbn [items fst snd]. split.
  - intros (w & post & -> & Hl & Hp). inversion Hl as [| |? u its w' Hu Hw]; subst. exists u, (w' ++ post). rewrite <- app_assoc. eauto 10.
  - intros (u & rest & -> & Hu & w & post & -> & Hl & Hp). exists (u ++ w), post. rewrite app_assoc. split_and!; [done|by constructor|done].
Qed.

Lemma starts_end text : starts [36] text <-> text = [].
Proof.
  unfold starts. cbn. split.
  - intros (w & post & -> & Hl & Hp). inversion Hl. by rewrite Hp.
  - intros ->. exists [], []. split_and!; [done|constructor|done].
Qed.

Lemma starts_chr c re text : head re <> Some 42 -> ~ (c = 36 /\ re = []) ->
  starts (c :: re) text <-> exists x rest, text = x :: rest /\ accepts c x /\ starts re rest.
Proof.
  intros Hh Hd. assert (items (c :: re) = (Chr c :: (items re).1, (items re).2)) as He.
  { cbn [items]. assert ((c =? 36) && bool_decide (re = []) = false) as Hf by (apply andb_false_iff; rewrite Z.eqb_neq, bool_decide_eq_false; destruct (decide (c = 36)); naive_solver).
    rewrite Hf. destruct re as [|x re]; [done|]. cbn in Hh. rewrite (proj2 (Z.eqb_neq x 42)) by congruence. done. }
  unfold starts. rewrite He. cbn [fst snd]. split.
  - intros (w & post & -> & Hl & Hp). inversion Hl as [|? x its w' Hx Hw|]; subst. exists x, (w' ++ post). eauto 10.
  - intros (x & rest & -> & Hx & w & post & -> & Hl & Hp). exists (x :: w), post. split_and!; [done|by constructor|done].
Qed.

Lemma starts_nil text : starts [] text.
Proof. exists [], text. split_and!; [done|constructor|done]. Qed.

Lemma matchhere_spec re text : matchhere re text = true <-> starts re text.
Proof.
  revert text. induction re as [re IH] using (induction_ltof1 _ (@length Z)). unfold ltof in IH. intros text.
  destruct re as [|c re1]; [split; [intros _; apply starts_nil|done]|].
  assert (head re1 <> Some 42 -> (if (c =? 36) && bool_decide (re1 = []) then bool_decide (text = []) else
    match text with [] => false | x :: text => if (c =? 46) || (c =? x) then matchhere re1 text else false end) = true <-> starts (c :: re1) text) as Hone.
  { intros Hh. destruct ((c =? 36) && bool_decide (re1 = [])) eqn:Hd.
    - apply andb_true_iff in Hd as [->%Z.eqb_eq ->%bool_decide_eq_true]. rewrite starts_end. apply bool_decide_eq_true.
    - rewrite starts_chr; [|done|]. 2: { intros [-> ->]. done. }
      destruct text as [|x text]; [split; [done|by intros (? & ? & ? & _)]|]. destruct ((c =? 46) || (c =? x)) eqn:Ha.
      + rewrite (IH re1) by (cbn; lia). apply accepts_b in Ha. split; [by exists x, text|]. intros (? & ? & [= -> ->] & _ & ?). done.
      + split; [done|]. intros (? & ? & [= -> ->] & Hb & _). apply accepts_b in Hb. congruence. }
  cbn [matchhere]. destruct re1 as [|d re2]; [by apply Hone|]. destruct (Z.eqb_spec d 42) as [->|Hne]; [|apply Hone; cbn; congruence].
  rewrite starts_star. apply matchstar_spec. intros t. apply IH. cbn. lia.
Qed.

Lemma match_any_spec re text : match_any re text = true <-> exists pre rest, text = pre ++ rest /\ starts re rest.
Proof.
  induction text as [|x text IH]; cbn [match_any]; destruct (matchhere re _) eqn:Hm.
  - apply matchhere_spec in Hm. split; [|done]. by exists [], [].
  - split; [done|]. intros (pre & rest & Hp & Hs). destruct pre; [|done]. cbn in Hp. subst rest. apply matchhere_spec in Hs. congruence.
  - apply matchhere_spec in Hm. split; [|done]. by exists [], (x :: text).
  - rewrite IH. split; [intros (pre & rest & -> & Hs); by exists (x :: pre), rest|].
    intros (pre & rest & Hp & Hs). destruct pre as [|y pre]; cbn in Hp; [subst rest; apply matchhere_spec in Hs; congruence|]. injection Hp as -> ->. eauto.
Qed.

Lemma match_spec re text : match_ re text = true <-> matches re text.
Proof.
  unfold match_, matches. destruct re as [|c re1]; [apply match_any_spec|].
  destruct (Z.eqb_spec c 94); [rewrite decide_True by done; apply matchhere_spec|rewrite decide_False by done; apply match_any_spec].
Qed.

#[export] Instance matches_dec re text : Decision (matches re text).
Proof. destruct (match_ re text) eqn:Hm; [left; by apply match_spec|right; rewrite <- match_spec; congruence]. Defined.

(** C17: [match] accepts a text exactly when the text contains a word of the language the
    pattern denotes, at its start if the pattern begins with the start anchor and at its end
    if it ends with the end anchor; the recursion always ends. *)
Theorem match_correct re text : match_ re text = true <-> matches re text.
Proof. apply match_spec. Qed.

(** A byte of a string. *)
Definition okbyte (x : Z) : Prop := 0 < x < 256.

(** * The program *)

Section grep.
(** The address of the static [buf]. *)
Context (buf : Z).

(** The loop over the lines in [buf]: where the rest that is not a whole line begins. *)
Definition grep_lines (pattern : list Z) : M ust Z :=
  loop 1025 (fun p =>
    q <- scan (fun x => strchr x p 10 1025) ;;
    if q =? 0 then ret (inr p) else
    umod (fun x => store8 x q 0) ;;
    text <- gets (fun s => bstr (u_mem s) p 1025) ;;
    (if match_ pattern text then
       umod (fun x => store8 x q 10) ;;
       write 1 p (q + 1 - p) ;; ret tt
     else ret tt) ;;
    ret (inl (q + 1))) buf.

(** One round per read; each but the last takes something from the file. *)
Definition grep (pattern : list Z) (fd : Z) : M ust unit :=
  fuel <- gets (fun s => length (u_in s fd)) ;;
  loop (S (S fuel)) (fun m =>
    n <- read fd (buf + m) (1024 - m - 1) ;;
    if n >? 0 then
      let m := m + n in
      umod (fun x => store8 x (buf + m) 0) ;;
      p <- grep_lines pattern ;;
      if m >? 0 then
        let m := m - (p - buf) in
        umod (fun x => memmove x buf p m) ;;
        ret (inl m)
      else ret (inl m)
    else ret (inr tt)) 0.
End grep.

(** The lines of a file, without their newlines; what follows the last newline is none. *)
Fixpoint lines (cur data : list Z) : list (list Z) :=
  match data with
  | [] => []
  | x :: data => if x =? 10 then cur :: lines [] data else lines (cur ++ [x]) data
  end.

Lemma lines_cur cur a d : 10 ∉ a -> lines cur (a ++ 10 :: d) = (cur ++ a) :: lines [] d.
Proof.
  revert cur. induction a as [|x a IH]; intros cur Hn; cbn [app lines]; [by rewrite Z.eqb_refl, app_nil_r|].
  apply not_elem_of_cons in Hn as [Hx Hn]. rewrite (proj2 (Z.eqb_neq x 10)) by done. rewrite IH by done. by rewrite <- app_assoc.
Qed.

Lemma lines_none cur a : 10 ∉ a -> lines cur a = [].
Proof.
  revert cur. induction a as [|x a IH]; intros cur Hn; [done|]. apply not_elem_of_cons in Hn as [Hx Hn]. cbn [lines]. rewrite (proj2 (Z.eqb_neq x 10)) by done. auto.
Qed.

(** Either no newline, or the first one. *)
Lemma first_newline (l : list Z) : 10 ∉ l \/ exists a b, l = a ++ 10 :: b /\ 10 ∉ a.
Proof.
  induction l as [|x l IH]; [left; apply not_elem_of_nil|]. destruct (decide (x = 10)) as [->|Hx]; [right; exists [], l; split; [done|apply not_elem_of_nil]|].
  destruct IH as [IH|(a & b & -> & Ha)]; [left|right; exists (x :: a), b; split; [done|]]; apply not_elem_of_cons; split; congruence.
Qed.

(** What is printed for the lines. *)
Definition printout (re : list Z) (ls : list (list Z)) : list Z := concat ((fun l => l ++ [10]) <$> filter (matches re) ls).

Lemma printout_app re a b : printout re (a ++ b) = printout re a ++ printout re b.
Proof. unfold printout. by rewrite filter_app, fmap_app, concat_app. Qed.

Lemma printout_one re l : printout re [l] = if match_ re l then l ++ [10] else [].
Proof.
  unfold printout. destruct (match_ re l) eqn:Hm.
  - rewrite filter_cons_True by (by apply match_spec). cbn. by rewrite app_nil_r.
  - rewrite filter_cons_False; [done|]. rewrite <- match_spec. congruence.
Qed.

Lemma bstr_cstr m p l n : cstr_at m p l -> (length l < n)%nat -> bstr m p n = l.
Proof.
  revert p n. induction l as [|x l IH]; intros p [|n] Hs Hn; cbn [length] in *; try lia; cbn [bstr].
  - by apply cstr_at_nil in Hs as ->.
  - apply cstr_at_cons in Hs as (Hx & -> & Hs). rewrite (proj2 (Z.eqb_neq x 0)) by lia. f_equal. apply IH; [done|lia].
Qed.

Lemma cstr_at_app m p a b : Forall (fun x => 0 < x < 256) a -> cstr_at m p (a ++ b) <-> load_bytes m p (length a) = a /\ cstr_at m (p + Z.of_nat (length a)) b.
Proof.
  intros Ha. revert p. induction Ha as [|x a Hx Ha IH]; intros p; cbn [app length load_bytes]; [rewrite Z.add_0_r; naive_solver|].
  rewrite cstr_at_cons, IH. replace (p + 1 + Z.of_nat (length a)) with (p + Z.of_nat (S (length a))) by lia. split.
  - intros (_ & -> & -> & ?). done.
  - intros ([= -> ->] & ?). done.
Qed.

Section grep_lines.
Context (buf : Z) (Hbuf : 0 < buf) (re : list Z).

(** What the state keeps while lines are printed. *)
Definition printed_to (out : list Z) (s s' : ust) : Prop :=
  u_in s' = u_in s /\ u_sizes s' = u_sizes s /\ u_out s' 1 = u_out s 1 ++ out.

Lemma grep_line p a b c s (Q : cpu -> ust -> Z + Z -> Prop) : 0 < p -> cstr_at (u_mem s) p (a ++ 10 :: b) -> 10 ∉ a -> Z.of_nat (length (a ++ 10 :: b)) <= 1023 ->
  (forall s', cstr_at (u_mem s') (p + Z.of_nat (length a) + 1) b -> printed_to (printout re [a]) s s' -> Q c s' (inl (p + Z.of_nat (length a) + 1))) ->
  wp (q <- scan (fun x => strchr x p 10 1025) ;;
    if q =? 0 then ret (inr p) else
    umod (fun x => store8 x q 0) ;;
    text <- gets (fun s => bstr (u_mem s) p 1025) ;;
    (if match_ re text then
       umod (fun x => store8 x q 10) ;;
       write 1 p (q + 1 - p) ;; ret tt
     else ret tt) ;;
    ret (inl (q + 1))) c s Q.
Proof.
  intros Hp Hs Hn Hl HQ. rewrite length_app in Hl. cbn [length] in Hl. set (q := p + Z.of_nat (length a)) in *.
  wp_step. eapply wp_scan; [apply (strchr_found _ p 10 a b); [lia|done|done|lia]|]. fold q. rewrite (proj2 (Z.eqb_neq q 0)) by lia. unfold umod. wp_steps.
  assert (Forall (fun x => 0 < x < 256) a) as Ha by (destruct Hs as [Hs _]; by apply Forall_app in Hs as [Hs _]).
  apply cstr_at_app in Hs as [Hla Hs]; [|done]. fold q in Hs. apply cstr_at_cons in Hs as (_ & Hq & Hs).
  set (m1 := store8 (u_mem s) q 0). assert (cstr_at m1 p a) as Hc1.
  { rewrite <- (app_nil_r a). apply cstr_at_app; [done|]. fold q. split; [|apply cstr_at_nil, load8_store8_eq].
    rewrite <- Hla at 2. apply load_bytes_ext. intros x Hx. apply load8_store8_ne. lia. }
  cbn [u_mem set_umem]. rewrite (bstr_cstr m1 p a) by (done || lia). rewrite printout_one in HQ. subst m1. apply wp_if; intros Hm; rewrite Hm in HQ; wp_steps; apply HQ.
  - cbn. eapply cstr_at_ext; [|exact Hs]. intros x Hx. rewrite !load8_store8_ne by lia. done.
  - unfold printed_to. cbn. split_and!; [done|done|]. unfold fput. cbn. f_equal. replace (Z.to_nat (q + 1 - p)) with (length a + 1)%nat by lia.
    rewrite load_bytes_app. f_equal.
    + rewrite <- Hla at 2. apply load_bytes_ext. intros x Hx. rewrite !load8_store8_ne by lia. done.
    + cbn. fold q. by rewrite load8_store8_eq.
  - cbn. eapply cstr_at_ext; [|exact Hs]. intros x Hx. rewrite !load8_store8_ne by lia. done.
  - unfold printed_to. cbn. by rewrite app_nil_r.
Qed.

Lemma wp_grep_lines l c s (Q : cpu -> ust -> Z -> Prop) : cstr_at (u_mem s) buf l -> (length l <= 1023)%nat ->
  (forall a b s', l = a ++ b -> 10 ∉ b -> (forall d, lines [] (l ++ d) = lines [] l ++ lines [] (b ++ d)) -> cstr_at (u_mem s') (buf + Z.of_nat (length a)) b ->
    printed_to (printout re (lines [] l)) s s' -> Q c s' (buf + Z.of_nat (length a))) ->
  wp (grep_lines buf re) c s Q.
Proof.
  intros Hs Hl HQ. unfold grep_lines.
  eapply (wp_loop (fun p c' s' => c' = c /\ exists a b L, l = a ++ b /\ p = buf + Z.of_nat (length a) /\ (forall d, lines [] (l ++ d) = L ++ lines [] (b ++ d)) /\
      cstr_at (u_mem s') p b /\ printed_to (printout re L) s s') (fun p => Z.to_nat (buf + Z.of_nat (length l) - p))).
  2: { lia. }
  2: { split; [done|]. exists [], l, []. split_and!; [done|cbn; lia|done|done|]. unfold printed_to. by rewrite app_nil_r. }
  intros p c' s' (-> & a & b & L & -> & -> & HL & Hc & Hpr). destruct (first_newline b) as [Hn|(x & y & -> & Hx)].
  - wp_step. eapply wp_scan; [eapply (strchr_none _ _ _ b); [done|done|rewrite length_app in Hl; lia]|]. cbn [Z.eqb]. wp_steps.
    assert (lines [] (a ++ b) = L) as HLe. { pose proof (HL []) as H0. rewrite !app_nil_r in H0. rewrite H0, (lines_none [] b) by done. by rewrite app_nil_r. }
    apply (HQ a b); [done|done| |done|by rewrite HLe]. intros d. by rewrite HL, HLe.
  - eapply (grep_line _ x y); [lia|done|done| |].
    { repeat rewrite length_app in Hl. rewrite length_app. cbn [length] in *. lia. }
    intros s2 Hs2 (Hp1 & Hp2 & Hp3). split; [|repeat rewrite length_app in *; cbn [length] in *; lia]. split; [done|].
    exists (a ++ x ++ [10]), y, (L ++ [x]). split_and!.
    + by rewrite <- !app_assoc.
    + rewrite !length_app. cbn [length]. lia.
    + intros d. rewrite HL, <- (app_assoc x), <- app_assoc. cbn [app]. by rewrite lines_cur.
    + done.
    + destruct Hpr as (E1 & E2 & E3). unfold printed_to. rewrite Hp1, Hp2, Hp3, E3, printout_app, app_assoc. done.
Qed.
End grep_lines.

Section correct.
Context (buf : Z) (Hbuf : 0 < buf) (re : list Z) (fd : Z).

(** After a read of [new] behind the rest [pre] of the last line. *)
Lemma buffer_filled m pre new : Forall okbyte (pre ++ new) -> load_bytes m buf (length pre) = pre ->
  cstr_at (store8 (store_bytes m (buf + Z.of_nat (length pre)) new) (buf + (Z.of_nat (length pre) + Z.of_nat (length new))) 0) buf (pre ++ new).
Proof.
  intros Hb Hp. split_and!; [done| |].
  - rewrite length_app, load_bytes_app. f_equal.
    + etransitivity; [|exact Hp]. apply load_bytes_ext. intros b Hx. rewrite load8_store8_ne by lia. apply load8_store_bytes_out. lia.
    + etransitivity; [|apply (load_store_bytes m (buf + Z.of_nat (length pre)) new)].
      * apply load_bytes_ext. intros b Hx. apply load8_store8_ne. lia.
      * apply Forall_app in Hb as [_ Hb]. eapply Forall_impl; [exact Hb|]. intros x Hx. unfold okbyte in Hx. lia.
  - rewrite length_app, Nat2Z.inj_add. apply load8_store8_eq.
Qed.

(** A file of which every line fits the buffer. *)
Record grep_input (s : ust) : Prop := {
  gi_bytes : Forall okbyte (u_in s fd);
  gi_lines : Forall (fun l => (length l <= 1022)%nat) (lines [] (u_in s fd));
  gi_reads : reads_ok (S (length (u_in s fd))) s;
}.

(** The state between two reads: [pre] is in the buffer. *)
Definition grep_inv (s : ust) (m : Z) (s' : ust) : Prop :=
  exists pre L, m = Z.of_nat (length pre) /\ (length pre <= 1023)%nat /\ (10 ∉ pre) /\ Forall okbyte (pre ++ u_in s' fd) /\
    load_bytes (u_mem s') buf (length pre) = pre /\ lines [] (u_in s fd) = L ++ lines [] (pre ++ u_in s' fd) /\
    u_out s' 1 = u_out s 1 ++ printout re L /\ reads_ok (S (length (u_in s' fd))) s'.

Lemma grep_end s pre L rest : Forall (fun l => (length l <= 1022)%nat) (lines [] (u_in s fd)) -> lines [] (u_in s fd) = L ++ lines [] (pre ++ rest) ->
  10 ∉ pre -> rest = [] \/ (1023 <= length pre)%nat -> lines [] (u_in s fd) = L.
Proof.
  intros Hl He Hn Hor. rewrite He. destruct Hor as [->|Hlong]; [rewrite app_nil_r, lines_none by done; by rewrite app_nil_r|].
  destruct (first_newline rest) as [Hr|(a & b & -> & Ha)]; [rewrite lines_none; [by rewrite app_nil_r|]; rewrite elem_of_app; naive_solver|].
  exfalso. rewrite app_assoc, lines_cur in He by (rewrite elem_of_app; naive_solver). rewrite He in Hl. apply Forall_app in Hl as [_ Hl].
  apply Forall_cons in Hl as [Hl _]. cbn [app] in Hl. rewrite length_app in Hl. lia.
Qed.

Lemma wp_grep c s (Q : cpu -> ust -> unit -> Prop) : grep_input s ->
  (forall s', u_out s' 1 = u_out s 1 ++ printout re (lines [] (u_in s fd)) -> Q c s' tt) -> wp (grep buf re fd) c s Q.
Proof.
  intros [Hb Hl Hr] HQ. unfold grep. wp_step. wp_step.
  eapply (wp_loop_st (fun m c' s' => c' = c /\ grep_inv s m s') (fun m s' => length (u_in s' fd))); [|lia|].
  2: { split; [done|]. exists [], []. split_and!; try done; [cbn; lia|apply not_elem_of_nil|by rewrite app_nil_r]. }
  intros m c' s' (-> & pre & L & -> & Hpl & Hn & Hby & Hld & Hli & Hout & Hrd). destruct (reads_ok_cons _ _ Hrd) as (size & szs & Hsz & Hlen & Hsome).
  wp_step. eapply wp_read; [exact Hsz|]. intros k Hk. set (rest := u_in s' fd) in *. unfold deliver in Hk. destruct (Z.gtb_spec (Z.of_nat k) 0) as [Hk0|Hk0].
  - set (new := take k rest). assert (length new = k) as Hnew by (unfold new; rewrite length_take; lia).
    assert (rest = new ++ drop k rest) as Hsplit by (unfold new; by rewrite take_drop).
    unfold umod. wp_step. wp_step. cbn [u_mem set_umem]. rewrite <- Hnew. wp_step.
    eapply (wp_grep_lines buf Hbuf re (pre ++ new)).
    { cbn [u_mem]. apply buffer_filled; [|done]. rewrite Hsplit, app_assoc in Hby. by apply Forall_app in Hby as [Hby _]. }
    { rewrite length_app. lia. }
    intros a b s2 Hab Hb2 HL2 Hc2 (E1 & E2 & E3). cbn in E1, E2, E3.
    rewrite (proj2 (Z.gtb_lt _ _)) by lia. unfold umod. wp_steps.
    assert (Z.of_nat (length pre) + Z.of_nat (length new) - (buf + Z.of_nat (length a) - buf) = Z.of_nat (length b)) as ->.
    { apply (f_equal length) in Hab. rewrite !length_app in Hab. lia. }
    assert (u_in s2 fd = drop k rest) as Hin by (rewrite E1; unfold fput; rewrite Z.eqb_refl, Hnew; done).
    split; [split; [done|]|cbn; rewrite Hin, length_drop; lia].
    exists b, (L ++ lines [] (pre ++ new)). cbn. rewrite Hin. assert (pre ++ rest = (pre ++ new) ++ drop k rest) as Hpr by (rewrite Hsplit at 1; by rewrite app_assoc). rewrite Hpr in Hby, Hli. split_and!; try done.
    + apply (f_equal length) in Hab. rewrite !length_app in Hab. lia.
    + apply Forall_app in Hby as [Hb1 Hb3]. rewrite Hab in Hb1. apply Forall_app in Hb1 as [_ Hb1]. by apply Forall_app.
    + destruct Hc2 as (_ & Hc2 & _). etransitivity; [|exact Hc2]. apply list_eq. intros i. destruct (decide (i < length b)%nat) as [Hi|Hi].
      * rewrite !lookup_load_bytes by done. rewrite load8_umemmove by lia. rewrite decide_True by lia. do 2 f_equal. lia.
      * rewrite !lookup_ge_None_2; [done|rewrite length_load_bytes; lia..].
    + rewrite Hli, HL2, <- app_assoc. done.
    + by rewrite E3, Hout, <- app_assoc, printout_app.
    + split; [cbn; rewrite E2; rewrite length_drop; lia|cbn; by rewrite E2].
  - wp_steps. apply HQ. cbn. rewrite Hout. f_equal. f_equal. symmetry. eapply grep_end; [done|exact Hli|done|]. destruct (decide (length rest = 0%nat)) as [?%nil_length_inv|]; [by left|right; lia].
Qed.
End correct.

(** C18: [grep] prints exactly the lines of a file that match the pattern, in order, however
    the reads cut the file into pieces; what follows the last newline is not printed. Lines
    have to fit the buffer, and a text file has no NUL. *)
Theorem grep_correct buf re fd c s : 0 < buf -> grep_input fd s ->
  exists s', grep buf re fd c s = Ret c s' tt /\ u_out s' 1 = u_out s 1 ++ printout re (lines [] (u_in s fd)).
Proof.
  intros Hbuf Hi. destruct (wp_elim (grep buf re fd) c s (fun c' s' _ => c' = c /\ u_out s' 1 = u_out s 1 ++ printout re (lines [] (u_in s fd))))
    as (c' & s' & [] & Hr & -> & Ho); [|by exists s'].
  apply (wp_grep buf Hbuf re fd); [done|]. intros s' Ho. done.
Qed.

(** The file "ab\nxb\nb", read a byte or two at a time, and the pattern "^.b$". *)
Definition grep_demo : ust := mkust (fun _ => 0) (fun _ => [97; 98; 10; 120; 98; 10; 98]) (replicate 8 (Some 1%nat)) (fun _ => []).

Lemma grep_correct_witness : exists s', grep 4096 [94; 46; 98; 36] 3 (mkcpu [] 1 0 [] 0 []) grep_demo = Ret (mkcpu [] 1 0 [] 0 []) s' tt /\ u_out s' 1 = [97; 98; 10; 120; 98; 10].
Proof.
  destruct (grep_correct 4096 [94; 46; 98; 36] 3 (mkcpu [] 1 0 [] 0 []) grep_demo) as (s' & Hr & Ho).
  - lia.
  - split; [| |split].
    + cbn. repeat (apply Forall_cons; split); [unfold okbyte; lia..|by apply Forall_nil].
    + cbn. repeat (apply Forall_cons; split); [cbn; lia..|by apply Forall_nil].
    + cbn. lia.
    + apply Forall_replicate. by eexists.
  - exists s'. split; [exact Hr|]. rewrite Ho. vm_compute. reflexivity.
Defined.
