(* ===== verification/Sh.v ===== *)
(** user/sh.c: the parser of the shell.

    A pointer into the command line is the rest of the line from there on; the end of the
    line is the empty rest, where the C code reads the NUL. The parsed command keeps the
    offsets of its strings in the line, as the C code keeps pointers. *)
From S2P Require Import Prelude.

(** * Results

    [Fail] is [panic], with the text it and what comes before it print: the child exits. [NoFuel] is a recursion or
    a loop that did not end within its fuel. *)
Inductive res (A : Type) := Ok (a : A) | Fail (msg : list Z) | NoFuel.
Arguments Ok {A} a.
Arguments Fail {A} msg.
Arguments NoFuel {A}.

Definition rbind {A B} (m : res A) (f : A -> res B) : res B :=
  match m with Ok a => f a | Fail msg => Fail msg | NoFuel => NoFuel end.
Declare Scope sh_scope.
Notation "'let!' x := m 'in' k" := (rbind m (fun x => k)) (at level 10, x pattern, m at level 100, k at level 200) : sh_scope.
#[local] Open Scope sh_scope.

(** * Commands *)

Definition O_RDONLY : Z := 0x000.
Definition O_WRONLY : Z := 0x001.
Definition O_CREATE : Z := 0x200.
Definition O_TRUNC : Z := 0x400.
Definition MAXARGS : nat := 10.

Inductive cmd :=
| EXEC (argv : list (nat * nat))
| REDIR (c : cmd) (file efile : nat) (mode fd : Z)
| PIPE (left right : cmd)
| LIST (left right : cmd)
| BACK (c : cmd).

Definition redircmd (c : cmd) (r : nat * nat * Z * Z) : cmd :=
  let '(file, efile, mode, fd) := r in REDIR c file efile mode fd.

(** * Tokens *)

Definition whitespace : list Z := [32; 9; 13; 10; 11].
Definition symbols : list Z := [60; 124; 62; 38; 59; 40; 41].

(** [strchr(l, c)], for a character that is not the NUL. *)
Definition inset (l : list Z) (c : Z) : bool := bool_decide (c ∈ l).

(** [while(s < es && strchr(whitespace, *s)) s++;] *)
Fixpoint skip_ws (s : list Z) : list Z :=
  match s with c :: s' => if inset whitespace c then skip_ws s' else s | [] => [] end.

(** [while(s < es && !strchr(whitespace, *s) && !strchr(symbols, *s)) s++;] *)
Fixpoint skip_word (s : list Z) : list Z :=
  match s with c :: s' => if negb (inset whitespace c) && negb (inset symbols c) then skip_word s' else s | [] => [] end.

(** The token, where it begins and ends, and the place behind it. *)
Definition gettoken (ps : list Z) : Z * list Z * list Z * list Z :=
  let s := skip_ws ps in
  let q := s in
  let '(ret, s) :=
    match s with
    | [] => (0, s)
    | c :: s1 =>
        if c =? 0 then (0, s)
        else if inset [124; 40; 41; 59; 38; 60] c then (c, s1)
        else if c =? 62 then
          match s1 with
          | d :: s2 => if d =? 62 then (43, s2) else (c, s1)
          | [] => (c, s1)
          end
        else (97, skip_word s)
    end in
  (ret, q, s, skip_ws s).

Definition peek (ps toks : list Z) : bool * list Z :=
  let s := skip_ws ps in
  (match s with c :: _ => negb (c =? 0) && inset toks c | [] => false end, s).

(** * The parser *)

Section parse.
(** The length of the line, to turn a pointer into an offset. *)
Context (len : nat).
Definition off (s : list Z) : nat := (len - length s)%nat.

(** The redirections, the first one innermost. *)
Fixpoint parseredirs (n : nat) (rs : list (nat * nat * Z * Z)) (ps : list Z) : res (list (nat * nat * Z * Z) * list Z) :=
  match n with
  | O => NoFuel
  | S n =>
      let '(b, ps) := peek ps [60; 62] in
      if b then
        let '(tok, _, _, ps) := gettoken ps in
        let '(tok2, q, eq, ps) := gettoken ps in
        if negb (tok2 =? 97) then Fail (bytes_of "missing file for redirection") else
        let rs :=
          if tok =? 60 then rs ++ [(off q, off eq, O_RDONLY, 0)]
          else if tok =? 62 then rs ++ [(off q, off eq, Z.lor (Z.lor O_WRONLY O_CREATE) O_TRUNC, 1)]
          else if tok =? 43 then rs ++ [(off q, off eq, Z.lor O_WRONLY O_CREATE, 1)]
          else rs in
        parseredirs n rs ps
      else Ok (rs, ps)
  end.

(** The loop of [parseexec] over the arguments; [ret] is the command under construction with
    the redirections [rs] around it. *)
Fixpoint parseargs (n : nat) (argv : list (nat * nat)) (rs : list (nat * nat * Z * Z)) (ps : list Z)
    : res (list (nat * nat) * list (nat * nat * Z * Z) * list Z) :=
  match n with
  | O => NoFuel
  | S n =>
      let '(b, ps) := peek ps [124; 41; 38; 59] in
      if b then Ok (argv, rs, ps) else
      let '(tok, q, eq, ps) := gettoken ps in
      if tok =? 0 then Ok (argv, rs, ps) else
      if negb (tok =? 97) then Fail (bytes_of "syntax") else
      let argv := argv ++ [(off q, off eq)] in
      if bool_decide (MAXARGS <= length argv)%nat then Fail (bytes_of "too many args") else
      let! (rs, ps) := parseredirs (S (length ps)) rs ps in
      parseargs n argv rs ps
  end.

(** [while(peek(ps, es, "&"))] *)
Fixpoint parseback (n : nat) (c : cmd) (ps : list Z) : res (cmd * list Z) :=
  match n with
  | O => NoFuel
  | S n =>
      let '(b, ps) := peek ps [38] in
      if b then
        let '(_, _, _, ps) := gettoken ps in
        parseback n (BACK c) ps
      else Ok (c, ps)
  end.

Fixpoint parseline (n : nat) (ps : list Z) : res (cmd * list Z) :=
  match n with
  | O => NoFuel
  | S n =>
      let! (c, ps) := parsepipe n ps in
      let! (c, ps) := parseback (S (length ps)) c ps in
      let '(b, ps) := peek ps [59] in
      if b then
        let '(_, _, _, ps) := gettoken ps in
        let! (c2, ps) := parseline n ps in
        Ok (LIST c c2, ps)
      else Ok (c, ps)
  end
with parsepipe (n : nat) (ps : list Z) : res (cmd * list Z) :=
  match n with
  | O => NoFuel
  | S n =>
      let! (c, ps) := parseexec n ps in
      let '(b, ps) := peek ps [124] in
      if b then
        let '(_, _, _, ps) := gettoken ps in
        let! (c2, ps) := parsepipe n ps in
        Ok (PIPE c c2, ps)
      else Ok (c, ps)
  end
with parseexec (n : nat) (ps : list Z) : res (cmd * list Z) :=
  match n with
  | O => NoFuel
  | S n =>
      let '(b, ps) := peek ps [40] in
      if b then parseblock n ps else
      let! (rs, ps) := parseredirs (S (length ps)) [] ps in
      let! (argv, rs, ps) := parseargs (S (length ps)) [] rs ps in
      Ok (foldl redircmd (EXEC argv) rs, ps)
  end
with parseblock (n : nat) (ps : list Z) : res (cmd * list Z) :=
  match n with
  | O => NoFuel
  | S n =>
      let '(b, ps) := peek ps [40] in
      if negb b then Fail (bytes_of "parseblock") else
      let '(_, _, _, ps) := gettoken ps in
      let! (c, ps) := parseline n ps in
      let '(b, ps) := peek ps [41] in
      if negb b then Fail (bytes_of "syntax - missing )") else
      let '(_, _, _, ps) := gettoken ps in
      let! (rs, ps) := parseredirs (S (length ps)) [] ps in
      Ok (foldl redircmd c rs, ps)
  end.
End parse.

(** The NULs that end the strings of a command, written into the line. *)
Fixpoint nulterminate (c : cmd) (buf : list Z) : list Z :=
  match c with
  | EXEC argv => foldl (fun buf a => <[a.2 := 0]> buf) buf argv
  | REDIR c _ efile _ _ => <[efile := 0]> (nulterminate c buf)
  | PIPE l r | LIST l r => nulterminate r (nulterminate l buf)
  | BACK c => nulterminate c buf
  end.

(** The command and the line, of which the NUL is a part. The recursion goes through four
    functions per character. *)
Definition parsecmd (s : list Z) : res (cmd * list Z) :=
  let! (c, ps) := parseline (length s) (4 * length s + 4) s in
  let '(_, ps) := peek ps [] in
  if bool_decide (ps <> []) then Fail (bytes_of "leftovers: " ++ ps ++ [10] ++ bytes_of "syntax") else
  Ok (c, nulterminate c (s ++ [0])).
