(* ===== verification/ShProps.v ===== *)
(** The shell's parser: it ends on every line, what it records are the words of the line, and
    it reads back every command that is printed. *)
From S2P Require Import Prelude Sh.

(** * Tokens *)

(** A character of a word. *)
Definition wordc (c : Z) : bool := negb (inset whitespace c) && negb (inset symbols c).

Lemma skip_ws_spec s : exists w, s = w ++ skip_ws s /\ Forall (fun c => inset whitespace c = true) w /\
  forall c, head (skip_ws s) = Some c -> inset whitespace c = false.
Proof.
  induction s as [|c s (w & Hs & Hw & Hh)]; cbn [skip_ws]; [by exists []|]. destruct (inset whitespace c) eqn:Hc.
  - exists (c :: w). split_and!; [cbn; by f_equal|by constructor|done].
  - exists []. split_and!; [done|constructor|by intros ? [= <-]].
Qed.

Lemma skip_word_spec s : exists w, s = w ++ skip_word s /\ Forall (fun c => wordc c = true) w /\
  forall c, head (skip_word s) = Some c -> wordc c = false.
Proof.
  induction s as [|c s (w & Hs & Hw & Hh)]; cbn [skip_word]; [by exists []|]. fold (wordc c). destruct (wordc c) eqn:Hc.
  - exists (c :: w). split_and!; [cbn; by f_equal|by constructor|done].
  - exists []. split_and!; [done|constructor|by intros ? [= <-]].
Qed.

(** The token [w1] between the whitespace [w0] and [w2]. *)
Record token (ps : list Z) (ret : Z) (q eq ps' : list Z) : Prop := {
  tk_split : exists w0 w1 w2, ps = w0 ++ q /\ q = w1 ++ eq /\ eq = w2 ++ ps' /\ (ret <> 0 -> w1 <> []) /\
    (ret = 97 -> Forall (fun c => wordc c = true) w1 /\ forall c, head eq = Some c -> wordc c = false);
}.

Lemma gettoken_token ps ret q eq ps' : gettoken ps = (ret, q, eq, ps') -> token ps ret q eq ps'.
Proof.
  unfold gettoken. destruct (skip_ws_spec ps) as (w0 & Hw0 & _ & Hh). set (s := skip_ws ps) in *.
  assert (forall r e w1, s = w1 ++ e -> (r <> 0 -> w1 <> []) -> (r = 97 -> Forall (fun c => wordc c = true) w1 /\ forall c, head e = Some c -> wordc c = false) ->
    (r, s, e, skip_ws e) = (ret, q, eq, ps') -> token ps ret q eq ps') as Hgo.
  { intros r e w1 Hs Hr Hw [= <- <- <- <-]. constructor. destruct (skip_ws_spec e) as (w2 & He & _ & _). exists w0, w1, w2. done. }
  destruct s as [|c s1] eqn:Es; [apply (Hgo _ _ []); [done|done|done]|].
  destruct (c =? 0); [apply (Hgo _ _ []); [done|done|done]|]. destruct (inset _ c) eqn:Hin.
  { apply (Hgo _ _ [c]); [done|done|]. intros ->. by apply bool_decide_eq_true in Hin; set_solver. }
  destruct (Z.eqb_spec c 62) as [->|Hne].
  { destruct s1 as [|d s2]; [by apply (Hgo _ _ [62])|]. destruct (Z.eqb_spec d 62) as [->|]; [by apply (Hgo _ _ [62; 62])|by apply (Hgo _ _ [62])]. }
  destruct (skip_word_spec (c :: s1)) as (w1 & Hs & Hw & He). apply (Hgo _ _ w1); [done| |done].
  intros _ ->. cbn [app] in Hs. pose proof (He c) as Hc. rewrite <- Hs in Hc. specialize (Hc eq_refl). unfold wordc in Hc.
  rewrite (Hh c eq_refl) in Hc. cbn in Hc. apply negb_false_iff, bool_decide_eq_true in Hc. apply bool_decide_eq_false in Hin.
  unfold symbols in Hc. set_solver.
Qed.

(** * Every line *)

Section safe.
Context (text : list Z).
#[local] Abbreviation len := (length text).

(** The part of the line from [q] to [e] is a whole word, up to where words end. *)
Definition slice (q e : nat) : list Z := take (e - q) (drop q text).
Record wordtok (q e : nat) : Prop := {
  wt_lt : (q < e <= len)%nat;
  wt_word : Forall (fun c => wordc c = true) (slice q e);
  wt_end : forall c, text !! e = Some c -> wordc c = false;
}.

Fixpoint good (c : cmd) : Prop :=
  match c with
  | EXEC argv => (length argv < MAXARGS)%nat /\ Forall (fun a => wordtok a.1 a.2) argv
  | REDIR c file efile _ _ => good c /\ wordtok file efile
  | PIPE l r | LIST l r => good l /\ good r
  | BACK c => good c
  end.
Definition good_redir (r : nat * nat * Z * Z) : Prop := wordtok r.1.1.1 r.1.1.2.

Lemma off_app pre s : text = pre ++ s -> off len s = length pre.
Proof. intros Ht. unfold off. rewrite Ht, length_app. lia. Qed.

Lemma token_suffix ps ret q eq ps' : token ps ret q eq ps' -> ps' `suffix_of` ps /\ (ret <> 0 -> (length ps' < length ps)%nat).
Proof.
  intros [(w0 & w1 & w2 & -> & -> & -> & Hr & _)]. split; [exists (w0 ++ w1 ++ w2); by rewrite <- !app_assoc|].
  intros Hne. specialize (Hr Hne). rewrite !length_app. destruct w1; [done|]. cbn. lia.
Qed.

Lemma token_word ps q eq ps' : ps `suffix_of` text -> token ps 97 q eq ps' -> wordtok (off len q) (off len eq).
Proof.
  intros [pre Ht] [(w0 & w1 & w2 & -> & -> & -> & Hr & Hw)]. destruct (Hw eq_refl) as [Hf Hh].
  rewrite (off_app (pre ++ w0)) by (by rewrite Ht, <- !app_assoc). rewrite (off_app (pre ++ w0 ++ w1)) by (by rewrite Ht, <- !app_assoc).
  assert (w1 <> []) as Hne by (by apply Hr). split.
  - rewrite Ht, !length_app. destruct w1; [done|]. cbn [length]. lia.
  - unfold slice. assert (text = (pre ++ w0) ++ w1 ++ w2 ++ ps') as -> by (by rewrite Ht, <- !app_assoc). rewrite drop_app_length. replace (_ - _)%nat with (length w1) by (rewrite !length_app; lia). by rewrite take_app_length.
  - intros c Hc. apply Hh. assert (text = (pre ++ w0 ++ w1) ++ w2 ++ ps') as -> by (by rewrite Ht, <- !app_assoc). rewrite lookup_app_r in Hc by lia.
    rewrite Nat.sub_diag in Hc. destruct (w2 ++ ps'); [done|]. exact Hc.
Qed.

Lemma peek_suffix ps toks b s : peek ps toks = (b, s) -> s `suffix_of` ps /\ s = skip_ws ps.
Proof. intros [= _ <-]. split; [|done]. destruct (skip_ws_spec ps) as (w & Hw & _). by exists w. Qed.

Lemma skip_ws_idem s : skip_ws (skip_ws s) = skip_ws s.
Proof. destruct (skip_ws_spec s) as (_ & _ & _ & Hh). destruct (skip_ws s) as [|c s']; [done|]. cbn. by rewrite (Hh c eq_refl). Qed.

(** What [peek] saw, [gettoken] takes. *)
Lemma peek_token ps toks s ret q eq ps' : peek ps toks = (true, s) -> gettoken s = (ret, q, eq, ps') -> ret <> 0.
Proof.
  intros [= Hb <-]. unfold gettoken. rewrite skip_ws_idem. destruct (skip_ws ps) as [|c s]; [done|]. apply andb_true_iff in Hb as [Hc%negb_true_iff _].
  rewrite Hc. apply Z.eqb_neq in Hc. destruct (inset _ c); [by intros [= <- _ _ _]|]. destruct (c =? 62); [|by intros [= <- _ _ _]].
  destruct s as [|d s]; [by intros [= <- _ _ _]|]. by destruct (d =? 62); intros [= <- _ _ _].
Qed.

(** A part of the line was parsed: a result of which [P] holds and the rest, or an error. *)
Definition post {A} (P : A -> Prop) (ps : list Z) (r : res (A * list Z)) : Prop :=
  match r with Ok (a, ps') => P a /\ ps' `suffix_of` ps | Fail _ => True | NoFuel => False end.

Lemma post_suffix {A} (P : A -> Prop) ps ps' r : ps' `suffix_of` ps -> post P ps' r -> post P ps r.
Proof. intros Hs. destruct r as [[a p]| |]; [|done..]. intros [? ?]. split; [done|by trans ps']. Qed.

Lemma post_bind {A B} (P : A -> Prop) (Q : B -> Prop) ps (r : res (A * list Z)) f : post P ps r ->
  (forall a ps', P a -> ps' `suffix_of` ps -> post Q ps (f (a, ps'))) -> post Q ps (rbind r f).
Proof. destruct r as [[a p]| |]; [|done..]. intros [Ha Hp] Hf. by apply Hf. Qed.

(** A step over a token that [peek] has seen. *)
Lemma peek_gettoken ps toks s : peek ps toks = (true, s) -> ps `suffix_of` text -> exists tok q eq s', gettoken s = (tok, q, eq, s') /\
  s' `suffix_of` text /\ s' `suffix_of` ps /\ (length s' < length ps)%nat.
Proof.
  intros Hp Hs. destruct (peek_suffix _ _ _ _ Hp) as [Hsuf _]. destruct (gettoken s) as [[[tok q] eq] s'] eqn:Hg. pose proof (peek_token _ _ _ _ _ _ _ Hp Hg) as Hne.
  apply gettoken_token, token_suffix in Hg as [Hs1 Hl1]. specialize (Hl1 Hne). pose proof (suffix_length _ _ Hsuf).
  exists tok, q, eq, s'. split_and!; [done|trans s; [done|by trans ps]|by trans s|lia].
Qed.

Lemma parseredirs_post n rs ps : (length ps < n)%nat -> ps `suffix_of` text -> Forall good_redir rs -> post (Forall good_redir) ps (parseredirs len n rs ps).
Proof.
  revert rs ps. induction n as [|n IH]; intros rs ps Hn Hs Hrs; [lia|]. cbn [parseredirs]. destruct (peek ps [60; 62]) as [b s] eqn:Hp.
  destruct b; [|split; [done|by apply peek_suffix in Hp as [? _]]].
  destruct (peek_gettoken _ _ _ Hp Hs) as (tok & q0 & eq0 & s1 & -> & Hst & Hs1 & Hl1).
  destruct (gettoken s1) as [[[tok2 q] eq] s2] eqn:Hg2. apply gettoken_token in Hg2. destruct (Z.eqb_spec tok2 97) as [->|]; [|done]. cbn [negb].
  pose proof (token_word _ _ _ _ Hst Hg2) as Hw. apply token_suffix in Hg2 as [Hs2 _]. pose proof (suffix_length _ _ Hs2).
  assert (forall rs', Forall good_redir rs' -> post (Forall good_redir) ps (parseredirs len n rs' s2)) as Hgo.
  { intros rs' Hrs'. apply (post_suffix _ _ s2); [by trans s1|]. apply IH; [lia|by trans s1|done]. }
  repeat case_match; apply Hgo; try done; (apply Forall_app; split; [done|]; by apply Forall_singleton).
Qed.

(** The arguments and redirections of a simple command. *)
Definition good_args (r : list (nat * nat) * list (nat * nat * Z * Z)) : Prop :=
  (length r.1 < MAXARGS)%nat /\ Forall (fun a => wordtok a.1 a.2) r.1 /\ Forall good_redir r.2.

Lemma parseargs_post n argv rs ps : (length ps < n)%nat -> ps `suffix_of` text -> good_args (argv, rs) -> post good_args ps (parseargs len n argv rs ps).
Proof.
  revert argv rs ps. induction n as [|n IH]; intros argv rs ps Hn Hs Hg; [lia|]. cbn [parseargs]. destruct (peek ps _) as [b s] eqn:Hp.
  destruct (peek_suffix _ _ _ _ Hp) as [Hsuf _]. destruct b; [by split|].
  destruct (gettoken s) as [[[tok q] eq] s1] eqn:Ht. apply gettoken_token in Ht. destruct (token_suffix _ _ _ _ _ Ht) as [Hs1 Hl1].
  destruct (Z.eqb_spec tok 0) as [|Hne]; [split; [done|by trans s]|]. specialize (Hl1 Hne). destruct (Z.eqb_spec tok 97) as [->|]; [|done]. cbn [negb].
  case_bool_decide as Hmax; [done|]. pose proof (suffix_length _ _ Hsuf). assert (s `suffix_of` text) as Hst by (by trans ps).
  apply (post_suffix _ _ s1); [by trans s|]. destruct Hg as (Hl & Ha & Hrs). cbn [fst snd] in *.
  eapply post_bind; [apply parseredirs_post; [lia|by trans s|done]|]. intros rs2 s2 Hrs2 Hs2. pose proof (suffix_length _ _ Hs2).
  apply (post_suffix _ _ s2); [done|]. apply IH; [lia|trans s1; [done|by trans s]|]. split_and!; [cbn [fst]; lia| |done].
  apply Forall_app. split; [done|]. apply Forall_singleton. cbn [fst snd]. by eapply token_word.
Qed.

Lemma good_wrap c rs : good c -> Forall good_redir rs -> good (foldl redircmd c rs).
Proof.
  intros Hc Hrs. revert c Hc. induction Hrs as [|[[[f e] m] d] rs Hr Hrs IH]; intros c Hc; [done|]. cbn. apply IH. by split.
Qed.

Lemma parseback_post n c ps : (length ps < n)%nat -> ps `suffix_of` text -> good c -> post good ps (parseback n c ps).
Proof.
  revert c ps. induction n as [|n IH]; intros c ps Hn Hs Hc; [lia|]. cbn [parseback]. destruct (peek ps _) as [b s] eqn:Hp.
  destruct b; [|split; [done|by apply peek_suffix in Hp as [? _]]]. destruct (peek_gettoken _ _ _ Hp Hs) as (tok & q & eq & s1 & -> & Hst & Hs1 & Hl1).
  apply (post_suffix _ _ s1); [done|]. apply IH; [lia|done|done].
Qed.

Lemma parse_post n : forall ps, ps `suffix_of` text ->
  ((4 * length ps + 4 <= n)%nat -> post good ps (parseline len n ps)) /\
  ((4 * length ps + 3 <= n)%nat -> post good ps (parsepipe len n ps)) /\
  ((4 * length ps + 2 <= n)%nat -> post good ps (parseexec len n ps)) /\
  ((4 * length ps + 1 <= n)%nat -> post good ps (parseblock len n ps)).
Proof.
  induction n as [|n IH]; intros ps Hs; [split_and!; lia|]. split_and!; intros Hn; cbn [parseline parsepipe parseexec parseblock].
  - eapply post_bind; [apply IH; [done|lia]|]. intros c s1 Hc Hs1. apply (post_suffix _ _ s1); [done|]. pose proof (suffix_length _ _ Hs1).
    eapply post_bind; [apply parseback_post; [lia|by trans ps|done]|]. intros c2 s2 Hc2 Hs2. apply (post_suffix _ _ s2); [done|]. pose proof (suffix_length _ _ Hs2).
    destruct (peek s2 _) as [b s3] eqn:Hp. destruct b; [|split; [done|by apply peek_suffix in Hp as [? _]]].
    destruct (peek_gettoken _ _ _ Hp) as (tok & q & eq & s4 & -> & Hst & Hs4 & Hl4); [trans s1; [done|by trans ps]|].
    apply (post_suffix _ _ s4); [done|]. eapply post_bind; [apply IH; [done|lia]|]. intros c5 s5 Hc5 Hs5. by split.
  - eapply post_bind; [apply IH; [done|lia]|]. intros c s1 Hc Hs1. apply (post_suffix _ _ s1); [done|]. pose proof (suffix_length _ _ Hs1).
    destruct (peek s1 _) as [b s3] eqn:Hp. destruct b; [|split; [done|by apply peek_suffix in Hp as [? _]]].
    destruct (peek_gettoken _ _ _ Hp) as (tok & q & eq & s4 & -> & Hst & Hs4 & Hl4); [by trans ps|].
    apply (post_suffix _ _ s4); [done|]. eapply post_bind; [apply IH; [done|lia]|]. intros c5 s5 Hc5 Hs5. by split.
  - destruct (peek ps _) as [b s] eqn:Hp. destruct (peek_suffix _ _ _ _ Hp) as [Hsuf _]. apply (post_suffix _ _ s); [done|]. pose proof (suffix_length _ _ Hsuf).
    destruct b; [apply IH; [by trans ps|lia]|]. eapply post_bind; [apply parseredirs_post; [lia|by trans ps|constructor]|]. intros rs s1 Hrs Hs1.
    apply (post_suffix _ _ s1); [done|]. pose proof (suffix_length _ _ Hs1).
    eapply post_bind; [apply parseargs_post; [lia|trans s; [done|by trans ps]|]|]; [split_and!; [cbn; unfold MAXARGS; lia|constructor|done]|].
    intros [argv rs2] s2 (Hl & Ha & Hrs2) Hs2. split; [by apply good_wrap|done].
  - destruct (peek ps _) as [b s] eqn:Hp. destruct b; [|done]. cbn [negb].
    destruct (peek_gettoken _ _ _ Hp Hs) as (tok & q & eq & s4 & -> & Hst & Hs4 & Hl4). apply (post_suffix _ _ s4); [done|].
    eapply post_bind; [apply IH; [done|lia]|]. intros c s5 Hc Hs5. apply (post_suffix _ _ s5); [done|]. pose proof (suffix_length _ _ Hs5).
    destruct (peek s5 _) as [b s6] eqn:Hp2. destruct b; [|done]. cbn [negb].
    destruct (peek_gettoken _ _ _ Hp2) as (tok2 & q2 & eq2 & s7 & -> & Hst7 & Hs7 & Hl7); [by trans s4|]. apply (post_suffix _ _ s7); [done|].
    eapply post_bind; [apply parseredirs_post; [lia|done|constructor]|]. intros rs s8 Hrs Hs8. split; [by apply good_wrap|done].
Qed.
End safe.

(** * The strings of a command *)

(** A command with its strings. *)
Inductive tree :=
| TExec (argv : list (list Z))
| TRedir (t : tree) (file : list Z) (mode fd : Z)
| TPipe (left right : tree)
| TList (left right : tree)
| TBack (t : tree).

(** The string at the head of a buffer. *)
Fixpoint cstring (l : list Z) : list Z :=
  match l with c :: l' => if c =? 0 then [] else c :: cstring l' | [] => [] end.

(** The command with its strings read by [f], from where they begin and where they end. *)
Fixpoint fill (f : nat -> nat -> list Z) (c : cmd) : tree :=
  match c with
  | EXEC argv => TExec ((fun a => f a.1 a.2) <$> argv)
  | REDIR c file efile mode fd => TRedir (fill f c) (f file efile) mode fd
  | PIPE l r => TPipe (fill f l) (fill f r)
  | LIST l r => TList (fill f l) (fill f r)
  | BACK c => TBack (fill f c)
  end.
(** What [runcmd] sees: NUL-terminated strings in the line. *)
Definition strings (buf : list Z) : cmd -> tree := fill (fun q _ => cstring (drop q buf)).

Fixpoint ends (c : cmd) : list nat :=
  match c with
  | EXEC argv => argv.*2
  | REDIR c _ efile _ _ => ends c ++ [efile]
  | PIPE l r | LIST l r => ends l ++ ends r
  | BACK c => ends c
  end.

Lemma foldl_nul es buf i : foldl (fun b e => <[e := 0]> b) buf es !! i = if decide (i ∈ es /\ (i < length buf)%nat) then Some 0 else buf !! i.
Proof.
  revert buf. induction es as [|e es IH]; intros buf; cbn [foldl]; [by rewrite decide_False by (intros [?%elem_of_nil _]; done)|].
  rewrite IH, length_insert. destruct (decide (i ∈ es /\ (i < length buf)%nat)) as [[Hi Hl]|Hn].
  - by rewrite decide_True by (split; [by apply elem_of_cons; right|done]).
  - destruct (decide (i = e)) as [->|Hne].
    + destruct (decide (e < length buf)%nat).
      * rewrite list_lookup_insert_eq by done. by rewrite decide_True by (split; [by apply elem_of_cons; left|done]).
      * rewrite list_insert_ge by lia. by rewrite decide_False by lia.
    + rewrite list_lookup_insert_ne by done. rewrite decide_False; [done|]. rewrite elem_of_cons. naive_solver.
Qed.

Lemma nulterminate_ends c buf : nulterminate c buf = foldl (fun b e => <[e := 0]> b) buf (ends c).
Proof.
  revert buf. induction c as [argv|c IH f e m d|l IHl r IHr|l IHl r IHr|c IH]; intros buf; cbn [nulterminate ends]; rewrite ?foldl_app; cbn.
  - revert buf. induction argv as [|a argv IH]; intros buf; [done|]. cbn. apply IH.
  - by rewrite IH.
  - by rewrite IHl, IHr.
  - by rewrite IHl, IHr.
  - apply IH.
Qed.

Section strings.
Context (text : list Z) (Hnul : 0 ∉ text).

Lemma cstring_word w b q : Forall (fun c => c <> 0) w -> (forall i, (i < length w)%nat -> b !! (q + i)%nat = w !! i) -> b !! (q + length w)%nat = Some 0 -> cstring (drop q b) = w.
Proof.
  intros Hw. revert q. induction Hw as [|c w Hc Hw IH]; intros q Hi He; cbn [length] in He.
  - rewrite Nat.add_0_r in He. by rewrite (drop_S _ _ _ He).
  - pose proof (Hi 0%nat ltac:(cbn; lia)) as H0. rewrite Nat.add_0_r in H0. rewrite (drop_S _ _ _ H0). cbn [cstring]. rewrite (proj2 (Z.eqb_neq c 0)) by done.
    f_equal. apply IH; [|by replace (S q + length w)%nat with (q + S (length w))%nat by lia]. intros i Hl. replace (S q + i)%nat with (q + S i)%nat by lia. apply (Hi (S i)). cbn. lia.
Qed.

(** The line with NULs at [es], none of them inside a word. *)
Definition nulled (es : list nat) (b : list Z) : Prop :=
  (forall i c, text !! i = Some c -> wordc c = true -> b !! i = Some c) /\ forall e, e ∈ es -> b !! e = Some 0.

Lemma slice_lookup q e i : (e <= length text)%nat -> (i < e - q)%nat -> slice text q e !! i = text !! (q + i)%nat.
Proof. intros. unfold slice. rewrite lookup_take_lt by done. apply lookup_drop. Qed.

Lemma nulled_word es b q e : nulled es b -> wordtok text q e -> e ∈ es -> cstring (drop q b) = slice text q e.
Proof.
  intros [Hb He] [Hl Hw _] Hin. assert (length (slice text q e) = e - q)%nat as Hsl by (unfold slice; rewrite length_take, length_drop; lia). apply cstring_word.
  - apply Forall_forall. intros c Hc ->. apply Hnul. apply elem_of_take in Hc as (i & Hi & _). rewrite lookup_drop in Hi. by eapply list_elem_of_lookup_2.
  - intros i Hi. rewrite slice_lookup by lia. destruct (text !! (q + i)%nat) as [c|] eqn:Hc; [|apply lookup_ge_None in Hc; lia]. apply Hb; [done|].
    refine (Forall_lookup_1 _ _ i c Hw _). rewrite slice_lookup; [exact Hc|lia|lia].
  - rewrite Hsl. replace (q + (e - q))%nat with e by lia. by apply He.
Qed.

Lemma nulled_strings es b c : nulled es b -> good text c -> (forall e, e ∈ ends c -> e ∈ es) -> strings b c = fill (slice text) c.
Proof.
  intros Hb. unfold strings. induction c as [argv|c IH f e m d|l IHl r IHr|l IHl r IHr|c IH]; cbn [good ends fill]; intros Hg He.
  - f_equal. destruct Hg as [_ Hg]. apply list_fmap_ext. intros i [q e] Hi. cbn [fst snd]. eapply nulled_word; [exact Hb| |].
    + exact (Forall_lookup_1 _ _ _ _ Hg Hi).
    + apply He, list_elem_of_fmap. exists (q, e). split; [done|]. by eapply list_elem_of_lookup_2.
  - destruct Hg as [Hg Hw]. rewrite IH by (done || (intros; apply He, elem_of_app; auto)). f_equal. eapply nulled_word; [exact Hb|exact Hw|]. apply He, elem_of_app. right. by apply list_elem_of_singleton.
  - destruct Hg as [H1 H2]. rewrite IHl, IHr by (done || (intros; apply He, elem_of_app; auto)). done.
  - destruct Hg as [H1 H2]. rewrite IHl, IHr by (done || (intros; apply He, elem_of_app; auto)). done.
  - by rewrite IH.
Qed.

Lemma good_ends c e : good text c -> e ∈ ends c -> exists q, wordtok text q e.
Proof.
  induction c as [argv|c IH f e' m d|l IHl r IHr|l IHl r IHr|c IH]; cbn [good ends]; rewrite ?elem_of_app.
  - intros [_ Hg] (a & -> & Ha)%list_elem_of_fmap. rewrite Forall_forall in Hg. eexists. by apply Hg.
  - intros [Hg Hw] [Hin| ->%list_elem_of_singleton]; [auto|by eexists].
  - intros [H1 H2] [Hin|Hin]; auto.
  - intros [H1 H2] [Hin|Hin]; auto.
  - auto.
Qed.

(** The NULs fall behind the words, so every string is a word of the line. *)
Lemma nulterminate_strings c : good text c -> strings (nulterminate c (text ++ [0])) c = fill (slice text) c.
Proof.
  intros Hg. apply (nulled_strings (ends c)); [|done|done]. rewrite nulterminate_ends. split.
  - intros i x Hi Hx. rewrite foldl_nul, decide_False; [by apply lookup_app_l_Some|]. intros [Hin _]. destruct (good_ends c i Hg Hin) as [q [_ _ Hend]]. specialize (Hend x Hi). congruence.
  - intros e Hin. rewrite foldl_nul, decide_True; [done|]. split; [done|]. destruct (good_ends c e Hg Hin) as [q [Hl _ _]]. rewrite length_app. cbn. lia.
Qed.

Lemma parsecmd_good : match parsecmd text with
  | Ok (c, buf) => good text c /\ buf = nulterminate c (text ++ [0])
  | Fail _ => True
  | NoFuel => False
  end.
Proof.
  unfold parsecmd. destruct (parse_post text (4 * length text + 4) text) as (Hp & _); [done|]. specialize (Hp ltac:(lia)).
  destruct (parseline _ _ _) as [[c ps]| |]; [|done..]. destruct Hp as [Hg _]. cbn [rbind]. destruct (peek ps []) as [b s]. by case_bool_decide.
Qed.
End strings.

(** C19: On every command line the shell's parser ends, with a command or a message. A command
    it returns has at most nine arguments per program, each string in it is a whole word
    inside the line, and after [nulterminate] each reads as exactly that word: no NUL falls
    into another string. *)
Theorem parsecmd_safe text : 0 ∉ text ->
  match parsecmd text with
  | Ok (c, buf) => good text c /\ length buf = S (length text) /\ strings buf c = fill (slice text) c
  | Fail _ => True
  | NoFuel => False
  end.
Proof.
  intros Hnul. pose proof (parsecmd_good text) as Hp. destruct (parsecmd text) as [[c buf]| |]; [|done..]. destruct Hp as [Hg ->]. split_and!; [done| |by apply nulterminate_strings].
  rewrite nulterminate_ends. assert (forall es b, length (foldl (fun b e => <[e := 0]> b) b es) = length b) as Hl by (induction es as [|e es IH]; intros b; [done|]; cbn; by rewrite IH, length_insert).
  rewrite Hl, length_app. cbn. lia.
Qed.

(** * Printing and parsing back *)

Inductive tok := Word (w : list Z) | Sym (c : Z) | Append.

Definition tok_text (t : tok) : list Z := match t with Word w => w | Sym c => [c] | Append => [62; 62] end.
Definition okword (w : list Z) : Prop := w <> [] /\ Forall (fun c => wordc c = true /\ c <> 0) w.
Definition tok_ok (t : tok) : Prop := match t with Word w => okword w | Sym c => c ∈ symbols | Append => True end.
(** Where a token ends: a word goes on as long as it can, and two [>] are one token. *)
Definition sep (t : tok) (rest : list Z) : Prop :=
  match t with
  | Word _ => forall c, head rest = Some c -> wordc c = false
  | Sym c => c = 62 -> head rest <> Some 62
  | Append => True
  end.

(** A text that is these tokens, with whitespace between them. *)
Inductive layout : list tok -> list Z -> Prop :=
| lay_nil ws : Forall (fun c => inset whitespace c = true) ws -> layout [] ws
| lay_cons t ts ws rest : Forall (fun c => inset whitespace c = true) ws -> tok_ok t -> layout ts rest -> sep t rest ->
    layout (t :: ts) (ws ++ tok_text t ++ rest).

(** The tokens of a command: parentheses where a line, a background command or a pipeline is
    part of something that binds tighter. *)
Definition par (b : bool) (ts : list tok) : list tok := if b then Sym 40 :: ts ++ [Sym 41] else ts.
Definition redir_toks (file : list Z) (mode : Z) : list tok :=
  [if mode =? O_RDONLY then Sym 60 else if mode =? Z.lor O_WRONLY O_CREATE then Append else Sym 62; Word file].
Fixpoint show (t : tree) (level : nat) : list tok :=
  match t with
  | TExec argv => Word <$> argv
  | TRedir t file mode _ => show t 3 ++ redir_toks file mode
  | TPipe l r => par (Nat.ltb 2 level) (show l 3 ++ Sym 124 :: show r 2)
  | TList l r => par (Nat.ltb 0 level) (show l 1 ++ Sym 59 :: show r 0)
  | TBack t => par (Nat.ltb 1 level) (show t 1 ++ [Sym 38])
  end.

(** The commands the shell has: few enough arguments, words that are words, and the three
    kinds of redirection. *)
Definition redir_kind (mode fd : Z) : Prop :=
  (mode = O_RDONLY /\ fd = 0) \/ (mode = Z.lor (Z.lor O_WRONLY O_CREATE) O_TRUNC /\ fd = 1) \/ (mode = Z.lor O_WRONLY O_CREATE /\ fd = 1).
Fixpoint ok_tree (t : tree) : Prop :=
  match t with
  | TExec argv => (length argv < MAXARGS)%nat /\ Forall okword argv
  | TRedir t file mode fd => ok_tree t /\ okword file /\ redir_kind mode fd
  | TPipe l r | TList l r => ok_tree l /\ ok_tree r
  | TBack t => ok_tree t
  end.

Lemma skip_ws_app ws s : Forall (fun c => inset whitespace c = true) ws -> skip_ws (ws ++ s) = skip_ws s.
Proof. induction 1 as [|c ws Hc Hw IH]; [done|]. cbn. by rewrite Hc. Qed.

Lemma tok_head t : tok_ok t -> exists c w, tok_text t = c :: w /\ inset whitespace c = false /\ c <> 0.
Proof.
  destruct t as [w|c|]; cbn.
  - intros [Hne Hw]. destruct w as [|c w]; [done|]. apply Forall_cons in Hw as [[Hc H0] _]. exists c, w. split_and!; [done| |done]. unfold wordc in Hc. by destruct (inset whitespace c).
  - intros Hc. exists c, []. unfold symbols in Hc. rewrite !elem_of_cons, elem_of_nil in Hc. split; [done|]. naive_solver.
  - intros _. by exists 62, [62].
Qed.

Lemma layout_skip ts s : layout ts s -> layout ts (skip_ws s) /\ match ts with t :: ts' => exists rest, skip_ws s = tok_text t ++ rest /\ tok_ok t /\ sep t rest /\ layout ts' rest | [] => skip_ws s = [] end.
Proof.
  intros [ws Hw|t ts' ws rest Hw Ht Hl Hs].
  - rewrite <- (app_nil_r ws), skip_ws_app by done. split; [|done]. by constructor.
  - rewrite skip_ws_app by done. destruct (tok_head t Ht) as (c & w & Htt & Hc & _). assert (skip_ws (tok_text t ++ rest) = tok_text t ++ rest) as ->.
    { rewrite Htt. cbn. by rewrite Hc. }
    split; [apply (lay_cons t ts' []); try done|]. by exists rest.
Qed.

Definition tok_code (t : tok) : Z := match t with Word _ => 97 | Sym c => c | Append => 43 end.

Lemma skip_word_app w rest : Forall (fun c => wordc c = true /\ c <> 0) w -> (forall c, head rest = Some c -> wordc c = false) -> skip_word (w ++ rest) = rest.
Proof.
  intros Hw Hr. induction Hw as [|c w [Hc _] Hw IH]; cbn [app skip_word].
  - destruct rest as [|c rest]; [done|]. cbn. fold (wordc c). by rewrite (Hr c eq_refl).
  - fold (wordc c). by rewrite Hc.
Qed.

Lemma gettoken_layout t ts s : layout (t :: ts) s -> exists rest s', gettoken s = (tok_code t, tok_text t ++ rest, rest, s') /\
  layout ts s' /\ s' = skip_ws rest /\ tok_text t ++ rest `suffix_of` s /\ sep t rest /\ tok_ok t.
Proof.
  intros Hl. destruct (layout_skip _ _ Hl) as (_ & rest & Hs & Ht & Hsep & Hl'). exists rest, (skip_ws rest). split_and!; try done; [|by apply layout_skip|].
  2: { destruct (skip_ws_spec s) as (w & Hw & _). rewrite Hs in Hw. by exists w. }
  unfold gettoken. rewrite Hs. destruct t as [w|c|]; cbn [tok_text tok_code].
  - destruct Ht as [Hne Hw]. destruct w as [|c w]; [done|]. cbn [app]. apply Forall_cons in Hw as Hw1. destruct Hw1 as [[Hc H0] _].
    rewrite (proj2 (Z.eqb_neq c 0)) by done. unfold wordc in Hc. apply andb_true_iff in Hc as [_ Hc%negb_true_iff%bool_decide_eq_false].
    unfold symbols in Hc. rewrite !not_elem_of_cons in Hc. destruct Hc as (? & ? & ? & ? & ? & ? & ? & _).
    assert (inset [124; 40; 41; 59; 38; 60] c = false) as -> by (apply bool_decide_eq_false; rewrite !not_elem_of_cons; split_and!; try done; apply not_elem_of_nil).
    rewrite (proj2 (Z.eqb_neq c 62)) by done. change (c :: w ++ rest) with ((c :: w) ++ rest). by rewrite (skip_word_app (c :: w) rest).
  - cbn [app]. unfold tok_ok, symbols in Ht. rewrite !elem_of_cons, elem_of_nil in Ht. destruct Ht as [->|[->|[->|[->|[->|[->|[->|[]]]]]]]]; cbn; try done.
    destruct rest as [|d rest]; [done|]. destruct (Z.eqb_spec d 62) as [->|]; [|done]. by destruct Hsep.
  - done.
Qed.

(** Whether the next token is one of these symbols. *)
Definition next_in (ts : list tok) (toks : list Z) : bool :=
  match ts with Sym c :: _ => inset toks c | Append :: _ => inset toks 62 | _ => false end.

Lemma peek_layout ts s toks : (forall c, c ∈ toks -> c ∈ symbols) -> layout ts s ->
  exists s', peek s toks = (next_in ts toks, s') /\ layout ts s' /\ s' `suffix_of` s.
Proof.
  intros Hsub Hl. destruct (layout_skip _ _ Hl) as [Hl' Hs]. exists (skip_ws s). split_and!; [|done|by destruct (skip_ws_spec s) as (w & ? & _); exists w].
  unfold peek. f_equal. destruct ts as [|t ts]; [by rewrite Hs|]. destruct Hs as (rest & -> & Ht & _ & _).
  destruct (tok_head t Ht) as (c & w & Htt & _ & Hc0). rewrite Htt. cbn [app]. rewrite (proj2 (Z.eqb_neq c 0)) by done. cbn [negb andb].
  destruct t as [w'|c'|]; cbn in *.
  - subst w'. destruct Ht as [_ Hw]. apply Forall_cons in Hw as [[Hc _] _]. apply bool_decide_eq_false. intros Hin%Hsub.
    unfold wordc in Hc. apply andb_true_iff in Hc as [_ Hc%negb_true_iff%bool_decide_eq_false]. done.
  - by injection Htt as -> _.
  - by injection Htt as <- _.
Qed.

Section roundtrip.
Context (text : list Z).
#[local] Abbreviation len := (length text).

(** The result of a part of the parser on [t] followed by the tokens [k]. *)
Definition parsed (k : list tok) (s : list Z) (t : tree) (r : res (cmd * list Z)) : Prop :=
  exists c s', r = Ok (c, s') /\ layout k s' /\ s' `suffix_of` s /\ fill (slice text) c = t.

Lemma word_slice w rest : w ++ rest `suffix_of` text -> slice text (off len (w ++ rest)) (off len rest) = w.
Proof.
  intros [pre Ht]. rewrite (off_app text pre) by done. rewrite (off_app text (pre ++ w)) by (by rewrite <- app_assoc).
  unfold slice. rewrite Ht, drop_app_length, length_app. replace (_ - _)%nat with (length w) by lia. by rewrite take_app_length.
Qed.

(** A step over a token. *)
Lemma take_token t ts s : layout (t :: ts) s -> exists q eq s', gettoken s = (tok_code t, q, eq, s') /\ layout ts s' /\ s' `suffix_of` s /\ (length s' < length s)%nat /\
  (s `suffix_of` text -> forall w, t = Word w -> slice text (off len q) (off len eq) = w).
Proof.
  intros Hl. destruct (gettoken_layout t ts s Hl) as (rest & s' & Hg & Hl' & Hs' & Hsuf & _ & Ht). exists (tok_text t ++ rest), rest, s'.
  assert (s' `suffix_of` rest) as Hsr by (subst s'; destruct (skip_ws_spec rest) as (w & ? & _); by exists w).
  destruct (tok_head t Ht) as (c & w & Htt & _). pose proof (suffix_length _ _ Hsuf) as Hlen. pose proof (suffix_length _ _ Hsr). rewrite Htt in Hlen. cbn in Hlen. rewrite length_app in Hlen.
  split_and!; [done|done| |lia|].
  - trans rest; [done|]. trans (tok_text t ++ rest); [by exists (tok_text t)|done].
  - intros Hst w' ->. apply word_slice. by trans s.
Qed.

Definition tredir (t : tree) (r : list Z * Z * Z) : tree := TRedir t r.1.1 r.1.2 r.2.
Definition redirs_toks (rs : list (list Z * Z * Z)) : list tok := concat ((fun r => redir_toks r.1.1 r.1.2) <$> rs).
Definition okredir (r : list Z * Z * Z) : Prop := okword r.1.1 /\ redir_kind r.1.2 r.2.
Definition fill_redir (r : nat * nat * Z * Z) : list Z * Z * Z := (slice text r.1.1.1 r.1.1.2, r.1.2, r.2).

Lemma fill_redirs c rs : fill (slice text) (foldl redircmd c rs) = foldl tredir (fill (slice text) c) (fill_redir <$> rs).
Proof. revert c. induction rs as [|[[[f e] m] d] rs IH]; intros c; [done|]. cbn. by rewrite IH. Qed.

Lemma parse_redirs rs k n crs s : Forall okredir rs -> layout (redirs_toks rs ++ k) s -> next_in k [60; 62] = false -> s `suffix_of` text -> (length s < n)%nat ->
  exists crs' s', parseredirs len n crs s = Ok (crs ++ crs', s') /\ layout k s' /\ s' `suffix_of` s /\ fill_redir <$> crs' = rs.
Proof.
  intros Hok. revert n crs s. induction Hok as [|[[file mode] fd] rs [Hf Hk] Hok IH]; intros n crs s Hl Hn Hs Hlen; (destruct n as [|n]; [lia|]); cbn [parseredirs].
  - destruct (peek_layout k s [60; 62]) as (s1 & -> & Hl1 & Hs1); [unfold symbols; set_solver|exact Hl|]. rewrite Hn. exists [], s1. by rewrite app_nil_r.
  - cbn in Hf, Hk. set (t := if mode =? O_RDONLY then Sym 60 else if mode =? Z.lor O_WRONLY O_CREATE then Append else Sym 62).
    change (layout (t :: Word file :: redirs_toks rs ++ k) s) in Hl.
    destruct (peek_layout _ s [60; 62] ltac:(unfold symbols; set_solver) Hl) as (s1 & -> & Hl1 & Hs1).
    assert (next_in (t :: Word file :: redirs_toks rs ++ k) [60; 62] = true) as Hni by (unfold t; by repeat case_match). rewrite Hni.
    destruct (take_token _ _ s1 Hl1) as (q1 & e1 & s2 & -> & Hl2 & Hs2 & Hlt2 & _). destruct (take_token _ _ s2 Hl2) as (q & e & s3 & -> & Hl3 & Hs3 & Hlt3 & Hw). cbn [tok_code Z.eqb Pos.eqb negb].
    assert (s2 `suffix_of` text) as Hst2 by (trans s1; [done|by trans s]). specialize (Hw Hst2 file eq_refl). pose proof (suffix_length _ _ Hs1).
    destruct (IH n (crs ++ [(off len q, off len e, mode, fd)]) s3 Hl3 Hn) as (crs' & s4 & Hr & Hl4 & Hs4 & Hcr); [by trans s2|lia|].
    exists ((off len q, off len e, mode, fd) :: crs'), s4. split_and!; [|done|trans s3; [done|]; trans s2; [done|]; by trans s1|].
    + rewrite <- app_assoc in Hr. cbn [app] in Hr. rewrite <- Hr. unfold t. destruct Hk as [[-> ->]|[[-> ->]|[-> ->]]]; reflexivity.
    + rewrite fmap_cons, Hcr. unfold fill_redir. cbn [fst snd]. by rewrite Hw.
Qed.

(** After a simple command: the end, or a symbol that ends it. *)
Definition follow (k : list tok) (l : list Z) : Prop := k = [] \/ exists c k', k = Sym c :: k' /\ c ∈ l.

Lemma follow_redir k : follow k [124; 41; 38; 59] -> next_in k [60; 62] = false.
Proof. intros [->|(c & k' & -> & Hc)]; [done|]. cbn. apply bool_decide_eq_false. set_solver. Qed.

Lemma parse_args_end k n argv crs s : follow k [124; 41; 38; 59] -> layout k s -> exists s', parseargs len (S n) argv crs s = Ok (argv, crs, s') /\ layout k s' /\ s' `suffix_of` s.
Proof.
  intros Hk Hl. cbn [parseargs]. destruct (peek_layout k s [124; 41; 38; 59]) as (s1 & -> & Hl1 & Hs1); [unfold symbols; set_solver|done|].
  destruct Hk as [->|(c & k' & -> & Hc)].
  - cbn [next_in]. destruct (layout_skip _ _ Hl1) as [_ Hnil]. unfold gettoken. rewrite Hnil. cbn. exists []. split_and!; [done|by constructor|]. exists s. by rewrite app_nil_r.
  - cbn [next_in]. rewrite (bool_decide_eq_true_2 _ Hc : inset [124; 41; 38; 59] c = true). by exists s1.
Qed.

Lemma parse_args ws rs k n argv crs s : Forall okword ws -> Forall okredir rs -> ws <> [] -> (length argv + length ws < MAXARGS)%nat ->
  layout ((Word <$> ws) ++ redirs_toks rs ++ k) s -> follow k [124; 41; 38; 59] -> s `suffix_of` text -> (length s < n)%nat ->
  exists argv' crs' s', parseargs len n argv crs s = Ok (argv ++ argv', crs ++ crs', s') /\ layout k s' /\ s' `suffix_of` s /\
    (fun a => slice text a.1 a.2) <$> argv' = ws /\ fill_redir <$> crs' = rs.
Proof.
  intros Hws Hrs. revert n argv crs s. induction Hws as [|w ws Hw Hws IH]; intros n argv crs s Hne Hmax Hl Hk Hs Hn; [done|]. destruct n as [|n]; [lia|]. cbn [parseargs].
  destruct (peek_layout _ s [124; 41; 38; 59] ltac:(unfold symbols; set_solver) Hl) as (s1 & -> & Hl1 & Hs1). cbn [fmap list_fmap app next_in].
  destruct (take_token _ _ s1 Hl1) as (q & e & s2 & -> & Hl2 & Hs2 & Hlt2 & Hsl). cbn [tok_code Z.eqb Pos.eqb negb].
  assert (s1 `suffix_of` text) as Hst1 by (by trans s). specialize (Hsl Hst1 w eq_refl). pose proof (suffix_length _ _ Hs1). cbn [length] in Hmax.
  rewrite bool_decide_eq_false_2 by (rewrite length_app; cbn; lia). set (a := (off len q, off len e)) in *.
  destruct ws as [|w2 ws].
  - destruct (parse_redirs rs k (S (length s2)) crs s2 Hrs Hl2) as (crs' & s3 & -> & Hl3 & Hs3 & Hcr); [by apply follow_redir|by trans s1|lia|]. cbn [rbind].
    destruct n as [|n]; [lia|]. destruct (parse_args_end k n (argv ++ [a]) (crs ++ crs') s3 Hk Hl3) as (s4 & -> & Hl4 & Hs4).
    exists [a], crs', s4. split_and!; [done|done| |unfold a; rewrite fmap_cons; cbn [fst snd]; by rewrite Hsl|done]. trans s3; [done|]. trans s2; [done|]. by trans s1.
  - destruct (parse_redirs [] ((Word <$> w2 :: ws) ++ redirs_toks rs ++ k) (S (length s2)) crs s2 ltac:(constructor) Hl2) as (crs' & s3 & -> & Hl3 & Hs3 & Hcr); [done|by trans s1|lia|].
    apply fmap_nil_inv in Hcr. subst crs'. rewrite app_nil_r. cbn [rbind]. pose proof (suffix_length _ _ Hs3).
    destruct (IH n (argv ++ [a]) crs s3) as (argv' & crs' & s4 & -> & Hl4 & Hs4 & Ha & Hc); [done|rewrite length_app; cbn [length] in *; lia|done|done|trans s2; [done|]; by trans s1|lia|].
    exists (a :: argv'), crs', s4. rewrite <- app_assoc. split_and!; [done|done| |unfold a; rewrite fmap_cons; cbn [fst snd]; by rewrite Hsl, Ha|done].
    trans s3; [done|]. trans s2; [done|]. by trans s1.
Qed.

(** What the four functions of the parser do with a command printed at their level. *)
Definition Lp (t : tree) : Prop := forall n k s, layout (show t 0 ++ k) s -> follow k [41] -> s `suffix_of` text -> (4 * length s + 4 <= n)%nat ->
  parsed k s t (parseline len n s).
Definition Pp (t : tree) : Prop := forall n k s, layout (show t 2 ++ k) s -> follow k [41; 38; 59] -> s `suffix_of` text -> (4 * length s + 3 <= n)%nat ->
  parsed k s t (parsepipe len n s).
Definition Ep (t : tree) : Prop := forall rs n k s, Forall okredir rs -> layout (show t 3 ++ redirs_toks rs ++ k) s -> follow k [124; 41; 38; 59] ->
  s `suffix_of` text -> (4 * length s + 2 <= n)%nat -> parsed k s (foldl tredir t rs) (parseexec len n s).
Definition Ap (t : tree) : Prop := forall n k s, layout (show t 1 ++ k) s -> follow k [41; 38; 59] -> s `suffix_of` text -> (4 * length s + 3 <= n)%nat ->
  exists c0 s0, parsepipe len n s = Ok (c0, s0) /\ forall m, (length s0 < m)%nat ->
    exists m' c s1, parseback m c0 s0 = parseback m' c s1 /\ (length s1 < m')%nat /\ layout k s1 /\ s1 `suffix_of` s /\ s0 `suffix_of` s /\ fill (slice text) c = t.

Lemma follow_weaken k l l' : follow k l -> (forall c, c ∈ l -> c ∈ l') -> follow k l'.
Proof. intros [->|(c & k' & -> & Hc)] Hl; [by left|right; eauto]. Qed.
Lemma follow_next k l toks : follow k l -> (forall c, c ∈ l -> c ∉ toks) -> next_in k toks = false.
Proof. intros [->|(c & k' & -> & Hc)] Hl; [done|]. apply bool_decide_eq_false. auto. Qed.

(** [peek] does not see what does not follow. *)
Lemma peek_not k s l toks : follow k l -> (forall c, c ∈ l -> c ∉ toks) -> (forall c, c ∈ toks -> c ∈ symbols) -> layout k s ->
  exists s', peek s toks = (false, s') /\ layout k s' /\ s' `suffix_of` s.
Proof. intros Hf Hl Hsub Hlay. rewrite <- (follow_next k l toks Hf Hl). by apply peek_layout. Qed.

(** [peek] sees a symbol and [gettoken] takes it. *)
Lemma peek_take c k s toks : c ∈ toks -> (forall x, x ∈ toks -> x ∈ symbols) -> layout (Sym c :: k) s ->
  exists s1 q e s2, peek s toks = (true, s1) /\ gettoken s1 = (c, q, e, s2) /\ layout k s2 /\ s2 `suffix_of` s /\ (length s2 < length s)%nat.
Proof.
  intros Hc Hsub Hl. destruct (peek_layout _ s toks Hsub Hl) as (s1 & Hp & Hl1 & Hs1). cbn [next_in] in Hp. rewrite (bool_decide_eq_true_2 _ Hc : inset toks c = true) in Hp.
  destruct (take_token _ _ s1 Hl1) as (q & e & s2 & Hg & Hl2 & Hs2 & Hlt & _). pose proof (suffix_length _ _ Hs1). exists s1, q, e, s2. split_and!; [done|done|done|by trans s1|lia].
Qed.

Lemma E_P t : show t 2 = show t 3 -> Ep t -> Pp t.
Proof.
  intros Hsh HE n k s Hl Hk Hs Hn. destruct n as [|n]; [lia|]. cbn [parsepipe]. rewrite Hsh in Hl.
  assert (follow k [124; 41; 38; 59]) as Hk' by (eapply follow_weaken; [exact Hk|set_solver]).
  destruct (HE [] n k s ltac:(constructor) Hl Hk' Hs ltac:(lia)) as (c & s1 & -> & Hl1 & Hs1 & Hf). cbn [rbind foldl] in *.
  destruct (peek_not k s1 _ [124] Hk) as (s2 & -> & Hl2 & Hs2); [set_solver|unfold symbols; set_solver|done|]. exists c, s2. split_and!; [done|done|by trans s1|done].
Qed.

Lemma P_A t : show t 1 = show t 2 -> Pp t -> Ap t.
Proof.
  intros Hsh HP n k s Hl Hk Hs Hn. rewrite Hsh in Hl. destruct (HP n k s Hl Hk Hs Hn) as (c & s1 & Hr & Hl1 & Hs1 & Hf).
  exists c, s1. split; [done|]. intros m Hm. exists m, c, s1. done.
Qed.

Lemma A_L t : show t 0 = show t 1 -> Ap t -> Lp t.
Proof.
  intros Hsh HA n k s Hl Hk Hs Hn. destruct n as [|n]; [lia|]. cbn [parseline]. rewrite Hsh in Hl.
  assert (follow k [41; 38; 59]) as Hk' by (eapply follow_weaken; [exact Hk|set_solver]).
  destruct (HA n k s Hl Hk' Hs ltac:(lia)) as (c0 & s0 & -> & Hb). cbn [rbind].
  destruct (Hb (S (length s0)) ltac:(lia)) as (m & c & s1 & -> & Hm & Hl1 & Hs1 & _ & Hf). destruct m as [|m]; [lia|]. cbn [parseback].
  destruct (peek_not k s1 _ [38] Hk) as (s2 & -> & Hl2 & Hs2); [set_solver|unfold symbols; set_solver|done|]. cbn [rbind].
  destruct (peek_not k s2 _ [59] Hk) as (s3 & -> & Hl3 & Hs3); [set_solver|unfold symbols; set_solver|done|].
  exists c, s3. split_and!; [done|done| |done]. trans s2; [done|]. by trans s1.
Qed.

Lemma L_E t : show t 3 = Sym 40 :: show t 0 ++ [Sym 41] -> Lp t -> Ep t.
Proof.
  intros Hsh HL rs n k s Hrs Hl Hk Hs Hn. destruct n as [|n]; [lia|]. cbn [parseexec]. rewrite Hsh in Hl. cbn [app] in Hl. rewrite <- app_assoc in Hl. cbn [app] in Hl.
  destruct (peek_layout _ s [40] ltac:(unfold symbols; set_solver) Hl) as (s1 & -> & Hl1 & Hs1). change (next_in _ _) with true. pose proof (suffix_length _ _ Hs1).
  destruct n as [|n]; [lia|]. cbn [parseblock]. destruct (peek_take 40 _ s1 [40] ltac:(set_solver) ltac:(unfold symbols; set_solver) Hl1) as (s2 & q & e & s3 & -> & -> & Hl3 & Hs3 & Hlt). cbn [negb].
  destruct (HL n (Sym 41 :: redirs_toks rs ++ k) s3 Hl3) as (c & s4 & -> & Hl4 & Hs4 & Hf); [right; eexists _, _; split; [done|set_solver]|trans s1; [done|by trans s]|lia|]. cbn [rbind].
  destruct (peek_take 41 _ s4 [41] ltac:(set_solver) ltac:(unfold symbols; set_solver) Hl4) as (s5 & q' & e' & s6 & -> & -> & Hl6 & Hs6 & Hlt6). cbn [negb].
  assert (s6 `suffix_of` s) as Hs6' by (trans s4; [done|]; trans s3; [done|]; by trans s1).
  destruct (parse_redirs rs k (S (length s6)) [] s6 Hrs Hl6) as (crs & s7 & -> & Hl7 & Hs7 & Hc); [by apply follow_redir|by trans s|lia|]. cbn [rbind app].
  exists (foldl redircmd c crs), s7. split_and!; [done|done|by trans s6|]. by rewrite fill_redirs, Hf, Hc.
Qed.

Lemma exec_E ws : (length ws < MAXARGS)%nat -> Forall okword ws -> Ep (TExec ws).
Proof.
  intros Hmax Hws rs n k s Hrs Hl Hk Hs Hn. destruct n as [|n]; [lia|]. cbn [parseexec show] in *.
  assert (next_in ((Word <$> ws) ++ redirs_toks rs ++ k) [40] = false) as Hno.
  { destruct ws as [|w ws]; [|done]. cbn [fmap list_fmap app]. destruct rs as [|[[f m] d] rs].
    2: { unfold redirs_toks. cbn [fmap list_fmap concat fst snd app redir_toks]. destruct (m =? O_RDONLY); [done|]. by destruct (m =? Z.lor O_WRONLY O_CREATE). }
    cbn. eapply follow_next; [exact Hk|]. set_solver. }
  destruct (peek_layout _ s [40] ltac:(unfold symbols; set_solver) Hl) as (s1 & -> & Hl1 & Hs1). rewrite Hno. assert (s1 `suffix_of` text) as Hst by (by trans s).
  destruct ws as [|w ws].
  - destruct (parse_redirs rs k (S (length s1)) [] s1 Hrs Hl1) as (crs & s2 & -> & Hl2 & Hs2 & Hc); [by apply follow_redir|done|lia|]. cbn [rbind app].
    destruct (parse_args_end k (length s2) [] crs s2 Hk Hl2) as (s3 & -> & Hl3 & Hs3). cbn [rbind].
    exists (foldl redircmd (EXEC []) crs), s3. split_and!; [done|done|trans s2; [done|by trans s1]|]. by rewrite fill_redirs, Hc.
  - destruct (parse_redirs [] ((Word <$> w :: ws) ++ redirs_toks rs ++ k) (S (length s1)) [] s1 ltac:(constructor) Hl1) as (crs & s2 & -> & Hl2 & Hs2 & Hc); [done|done|lia|].
    apply fmap_nil_inv in Hc. subst crs. cbn [rbind app].
    destruct (parse_args (w :: ws) rs k (S (length s2)) [] [] s2 Hws Hrs) as (argv & crs & s3 & -> & Hl3 & Hs3 & Ha & Hc); [done|cbn [length] in *; lia|done|done|by trans s1|lia|].
    cbn [rbind app]. exists (foldl redircmd (EXEC argv) crs), s3. split_and!; [done|done|trans s2; [done|by trans s1]|]. rewrite fill_redirs, Hc. cbn [fill]. by rewrite Ha.
Qed.

Lemma pipe_P l r : Ep l -> Pp r -> Pp (TPipe l r).
Proof.
  intros HE HP n k s Hl Hk Hs Hn. destruct n as [|n]; [lia|]. cbn [parsepipe]. cbn [show par Nat.ltb Nat.leb] in Hl. rewrite <- app_assoc in Hl. cbn [app] in Hl.
  destruct (HE [] n (Sym 124 :: show r 2 ++ k) s ltac:(constructor) Hl) as (c & s1 & -> & Hl1 & Hs1 & Hf); [right; eexists _, _; split; [done|set_solver]|done|lia|]. cbn [rbind foldl] in *.
  destruct (peek_take 124 _ s1 [124] ltac:(set_solver) ltac:(unfold symbols; set_solver) Hl1) as (s2 & q & e & s3 & -> & -> & Hl3 & Hs3 & Hlt). pose proof (suffix_length _ _ Hs1).
  destruct (HP n k s3 Hl3 Hk) as (c2 & s4 & -> & Hl4 & Hs4 & Hf2); [trans s1; [done|by trans s]|lia|]. cbn [rbind].
  exists (PIPE c c2), s4. split_and!; [done|done|trans s3; [done|by trans s1]|]. cbn. by rewrite Hf, Hf2.
Qed.

Lemma back_A t : Ap t -> Ap (TBack t).
Proof.
  intros HA n k s Hl Hk Hs Hn. cbn [show par Nat.ltb Nat.leb] in Hl. rewrite <- app_assoc in Hl. cbn [app] in Hl.
  destruct (HA n (Sym 38 :: k) s Hl) as (c0 & s0 & Hr & Hb); [right; eexists _, _; split; [done|set_solver]|done|done|]. exists c0, s0. split; [done|]. intros m Hm.
  destruct (Hb m Hm) as (m1 & c & s1 & -> & Hm1 & Hl1 & Hs1 & Hs0 & Hf). destruct m1 as [|m1]; [lia|]. cbn [parseback].
  destruct (peek_take 38 _ s1 [38] ltac:(set_solver) ltac:(unfold symbols; set_solver) Hl1) as (s2 & q & e & s3 & -> & -> & Hl3 & Hs3 & Hlt).
  exists m1, (BACK c), s3. split_and!; [done|lia|done|by trans s1|done|]. cbn. by rewrite Hf.
Qed.

Lemma list_L l r : Ap l -> Lp r -> Lp (TList l r).
Proof.
  intros HA HL n k s Hl Hk Hs Hn. destruct n as [|n]; [lia|]. cbn [parseline]. cbn [show par Nat.ltb Nat.leb] in Hl. rewrite <- app_assoc in Hl. cbn [app] in Hl.
  destruct (HA n (Sym 59 :: show r 0 ++ k) s Hl) as (c0 & s0 & -> & Hb); [right; eexists _, _; split; [done|set_solver]|done|lia|]. cbn [rbind].
  destruct (Hb (S (length s0)) ltac:(lia)) as (m & c & s1 & -> & Hm & Hl1 & Hs1 & _ & Hf). destruct m as [|m]; [lia|]. cbn [parseback].
  destruct (peek_layout _ s1 [38] ltac:(unfold symbols; set_solver) Hl1) as (s2 & -> & Hl2 & Hs2). change (next_in _ _) with false. cbn [rbind].
  destruct (peek_take 59 _ s2 [59] ltac:(set_solver) ltac:(unfold symbols; set_solver) Hl2) as (s3 & q & e & s4 & -> & -> & Hl4 & Hs4 & Hlt).
  pose proof (suffix_length _ _ Hs1). pose proof (suffix_length _ _ Hs2). assert (s4 `suffix_of` s) as Hs4' by (trans s2; [done|]; by trans s1).
  destruct (HL n k s4 Hl4 Hk) as (c2 & s5 & -> & Hl5 & Hs5 & Hf2); [by trans s|lia|]. cbn [rbind].
  exists (LIST c c2), s5. split_and!; [done|done|by trans s4|]. cbn. by rewrite Hf, Hf2.
Qed.

Lemma redir_E t file mode fd : okword file -> redir_kind mode fd -> Ep t -> Ep (TRedir t file mode fd).
Proof.
  intros Hf Hk HE rs n k s Hrs Hl. apply (HE ((file, mode, fd) :: rs) n k s); [by constructor|]. cbn [show] in Hl. rewrite <- app_assoc in Hl. exact Hl.
Qed.

Lemma show_parses t : ok_tree t -> Lp t /\ Ap t /\ Pp t /\ Ep t.
Proof.
  induction t as [argv|t IH file mode fd|l IHl r IHr|l IHl r IHr|t IH]; cbn [ok_tree].
  - intros [Hmax Hw]. pose proof (exec_E argv Hmax Hw) as HE. pose proof (E_P (TExec argv) eq_refl HE) as HP. pose proof (P_A (TExec argv) eq_refl HP) as HA. split_and!; [by apply A_L|done..].
  - intros (Ht & Hf & Hk). destruct (IH Ht) as (_ & _ & _ & HE0). pose proof (redir_E t file mode fd Hf Hk HE0) as HE. set (t' := TRedir t file mode fd) in *.
    pose proof (E_P t' eq_refl HE) as HP. pose proof (P_A t' eq_refl HP) as HA. split_and!; [by apply A_L|done..].
  - intros [Hl Hr]. destruct (IHl Hl) as (_ & _ & _ & HE0), (IHr Hr) as (_ & _ & HP0 & _). pose proof (pipe_P l r HE0 HP0) as HP. set (t' := TPipe l r) in *.
    pose proof (P_A t' eq_refl HP) as HA. pose proof (A_L t' eq_refl HA) as HL. split_and!; [done|done|done|by apply L_E].
  - intros [Hl Hr]. destruct (IHl Hl) as (_ & HA0 & _ & _), (IHr Hr) as (HL0 & _ & _ & _). pose proof (list_L l r HA0 HL0) as HL. set (t' := TList l r) in *.
    pose proof (L_E t' eq_refl HL) as HE. pose proof (E_P t' eq_refl HE) as HP. split_and!; [done|by apply P_A|done|done].
  - intros Ht. destruct (IH Ht) as (_ & HA0 & _ & _). pose proof (back_A t HA0) as HA. set (t' := TBack t) in *.
    pose proof (A_L t' eq_refl HA) as HL. pose proof (L_E t' eq_refl HL) as HE. split_and!; [done|done|by apply E_P|done].
Qed.
End roundtrip.

Lemma layout_nul ts s : layout ts s -> 0 ∉ s.
Proof.
  induction 1 as [ws Hw|t ts ws rest Hw Ht Hl IH Hs]; rewrite ?not_elem_of_app.
  - intros Hin. rewrite Forall_forall in Hw. by specialize (Hw 0 Hin).
  - split_and!; [intros Hin; rewrite Forall_forall in Hw; by specialize (Hw 0 Hin)| |done]. destruct t as [w|c|]; cbn in *.
    + destruct Ht as [_ Ht]. intros Hin. rewrite Forall_forall in Ht. by destruct (Ht 0 Hin).
    + unfold symbols in Ht. set_solver.
    + set_solver.
Qed.

Lemma show_parsecmd t text : ok_tree t -> layout (show t 0) text ->
  exists c buf, parsecmd text = Ok (c, buf) /\ strings buf c = t.
Proof.
  intros Ht Hl. pose proof (layout_nul _ _ Hl) as Hnul. pose proof (parsecmd_good text) as Hg. unfold parsecmd in *.
  destruct (show_parses text t Ht) as (HL & _). destruct (HL (4 * length text + 4)%nat [] text) as (c & s & Hr & Hl' & _ & Hf); [by rewrite app_nil_r|by left|done|lia|].
  rewrite Hr in *. cbn [rbind] in *. destruct (layout_skip _ _ Hl') as [_ Hnil]. unfold peek in *. rewrite Hnil in *. rewrite bool_decide_eq_false_2 in * by auto.
  destruct Hg as [Hg _]. eexists _, _. split; [reflexivity|]. by rewrite nulterminate_strings.
Qed.

(** C10: The shell's parser reads back every command: printed with any whitespace between its
    tokens, a command parses to itself, with every argument and file name a NUL-terminated
    string of the line. *)
Theorem parse_show t text : ok_tree t -> layout (show t 0) text ->
  exists c buf, parsecmd text = Ok (c, buf) /\ strings buf c = t.
Proof. apply show_parsecmd. Qed.

(** [(a|b >>c;d)&] *)
Definition demo_tree : tree := TBack (TList (TPipe (TExec [[97]]) (TRedir (TExec [[98]]) [99] (Z.lor O_WRONLY O_CREATE) 1)) (TExec [[100]])).

Lemma lay_step t ts ws rest s : s = ws ++ tok_text t ++ rest -> Forall (fun c => inset whitespace c = true) ws -> tok_ok t -> sep t rest -> layout ts rest -> layout (t :: ts) s.
Proof. intros ->. by constructor. Qed.
(** The next token, after the whitespace [ws]. *)
Ltac lay_token ws :=
  eapply (lay_step _ _ ws); [reflexivity|solve [repeat constructor]|solve [cbn; first [done|unfold symbols; set_solver|split; [done|by repeat constructor]]]|solve [cbn; first [done|by intros ? [= <-]]]|].

Lemma parse_show_witness : exists c buf, parsecmd [40; 97; 124; 98; 32; 62; 62; 99; 59; 100; 41; 38; 10] = Ok (c, buf) /\ strings buf c = demo_tree.
Proof.
  apply parse_show.
  - cbn. unfold MAXARGS, okword, redir_kind. split_and!; try lia; try done; try (by repeat constructor).
  - change (show demo_tree 0) with [Sym 40; Word [97]; Sym 124; Word [98]; Append; Word [99]; Sym 59; Word [100]; Sym 41; Sym 38]. lay_token (@nil Z). lay_token (@nil Z). lay_token (@nil Z). lay_token (@nil Z). lay_token [32]. lay_token (@nil Z). lay_token (@nil Z). lay_token (@nil Z). lay_token (@nil Z). lay_token (@nil Z).
    apply lay_nil. by repeat constructor.
Defined.

(** [echo hi;ls] *)
Definition demo_line : list Z := [101; 99; 104; 111; 32; 104; 105; 59; 108; 115; 10].

Lemma parsecmd_safe_witness : exists c buf, parsecmd demo_line = Ok (c, buf) /\ length buf = 12%nat /\ strings buf c = TList (TExec [[101; 99; 104; 111]; [104; 105]]) (TExec [[108; 115]]).
Proof.
  pose proof (parsecmd_safe demo_line ltac:(unfold demo_line; set_solver)) as Hp.
  assert (parsecmd demo_line = Ok (LIST (EXEC [(0, 4); (5, 7)]%nat) (EXEC [(8, 10)]%nat), [101; 99; 104; 111; 0; 104; 105; 0; 108; 115; 0; 0])) as He by (vm_compute; reflexivity).
  rewrite He in Hp. destruct Hp as (_ & Hl & Hs). eexists _, _. split; [exact He|]. split; [exact Hl|]. rewrite Hs. vm_compute. reflexivity.
Defined.
