(* ===== verification/ShRun.v ===== *)
(** user/sh.c: running a parsed command.

    A process of the shell is the tree of what it does: it forks, waits, prints, replaces itself
    by a program with [exec], or exits, each with the file descriptors it has then; where the
    kernel may refuse ([fork], [exec], [chdir]) the tree has both branches. A pipe is named by
    the place in the tree where it is made. *)
From S2P Require Import Prelude Memory User Sh ShProps.

Definition NOFILE : nat := 16.

Inductive fobj :=
| Console
| File (path : list Z) (mode : Z)
| ReadEnd (pipe : list nat)
| WriteEnd (pipe : list nat)
| Inherited (n : nat).
#[export] Instance fobj_eq_dec : EqDecision fobj.
Proof. solve_decision. Defined.

(** The descriptors of a process. *)
Definition fds : Type := list (option fobj).
Definition fd_get (F : fds) (fd : nat) : option fobj := mjoin (F !! fd).

(** [fdalloc]: the lowest descriptor that is free. *)
Fixpoint fdalloc (f : fobj) (F : fds) : option (nat * fds) :=
  match F with
  | [] => None
  | None :: F => Some (0%nat, Some f :: F)
  | Some g :: F => match fdalloc f F with Some (fd, F') => Some (S fd, Some g :: F') | None => None end
  end.

Definition close (fd : nat) (F : fds) : fds := <[fd := None]> F.
Definition dup (fd : nat) (F : fds) : fds :=
  match fd_get F fd with Some f => match fdalloc f F with Some (_, F') => F' | None => F end | None => F end.

Inductive proc :=
| PExit (status : Z) (F : fds)
| PExec (argv : list (list Z)) (F : fds) (fails : proc)
| PFork (child parent fails : proc)
| PWait (F : fds) (next : proc)
| PPrint (msg : list Z) (next : proc)
| PChdir (dir msg : list Z) (next : proc).

(** [panic]: a line to standard error and [exit(1)]. *)
Definition panic (msg : list Z) (F : fds) : proc := PPrint (msg ++ [10]) (PExit 1 F).

(** [fork1()]: both processes, or a panic when there is no child. *)
Definition fork1 (F : fds) (child parent : proc) : proc := PFork child parent (panic (bytes_of "fork") F).

Section run.
(** Whether the kernel opens a file. *)
Context (can_open : list Z -> Z -> bool).

Definition open (path : list Z) (mode : Z) (F : fds) : option (nat * fds) :=
  if can_open path mode then fdalloc (File path mode) F else None.

Fixpoint runcmd (t : tree) (here : list nat) (F : fds) : proc :=
  match t with
  | TExec argv =>
      match argv with
      | [] => PExit 1 F
      | arg0 :: _ => PExec argv F (PPrint (bytes_of "exec " ++ arg0 ++ bytes_of " failed" ++ [10]) (PExit 0 F))
      end
  | TRedir t file mode fd =>
      let F := close (Z.to_nat fd) F in
      match open file mode F with
      | None => PPrint (bytes_of "open " ++ file ++ bytes_of " failed" ++ [10]) (PExit 1 F)
      | Some (_, F) => runcmd t (0%nat :: here) F
      end
  | TList l r => fork1 F (runcmd l (0%nat :: here) F) (PWait F (runcmd r (1%nat :: here) F))
  | TPipe l r =>
      match fdalloc (ReadEnd here) F with
      | None => panic (bytes_of "pipe") F
      | Some (p0, F1) =>
          match fdalloc (WriteEnd here) F1 with
          | None => panic (bytes_of "pipe") F
          | Some (p1, F2) =>
              fork1 F2 (runcmd l (0%nat :: here) (close p1 (close p0 (dup p1 (close 1 F2)))))
                (fork1 F2 (runcmd r (1%nat :: here) (close p1 (close p0 (dup p0 (close 0 F2)))))
                  (let F := close p1 (close p0 F2) in PWait F (PWait F (PExit 0 F))))
          end
      end
  | TBack t => fork1 F (runcmd t (0%nat :: here) F) (PExit 0 F)
  end.

(** The loop of [main] that opens the console until three descriptors are in use. Opening it
    fails only when no descriptor is left. *)
Fixpoint open_console (fuel : nat) (F : fds) : fds :=
  match fuel with
  | O => F
  | S n =>
      match fdalloc Console F with
      | None => F
      | Some (fd, F) => if Nat.leb 3 fd then close fd F else open_console n F
      end
  end.

(** The prompt and a line of input; [ca] is where [gets] keeps the byte it reads. *)
Definition getcmd (ca buf nbuf : Z) : M ust Z :=
  put 2 (bytes_of "$ ") ;;
  umod (fun m => memset m buf 0 nbuf) ;;
  ugets ca buf nbuf ;;
  c <- gets (fun s => load8 (u_mem s) buf) ;;
  if c =? 0 then ret (-1) else ret 0.

(** The loop of [main] over the lines [getcmd] leaves in [buf]: [cd] in the shell itself,
    anything else in a child. The newline that [gets] keeps is cut off for [cd]. *)
Definition is_cd (buf : list Z) : bool := bool_decide (take 3 buf = [99; 100; 32]).
Fixpoint commands (lines : list (list Z)) (F : fds) : proc :=
  match lines with
  | [] => PExit 0 F
  | buf :: lines =>
      if bool_decide (buf = []) then PExit 0 F else
      if is_cd buf then
        let dir := drop 3 (take (length buf - 1) buf) in
        PChdir dir (bytes_of "cannot cd " ++ dir ++ [10]) (commands lines F)
      else
      fork1 F
        (match parsecmd buf with
         | Ok (c, buf) => runcmd (strings buf c) [] F
         | Fail msg => panic msg F
         | NoFuel => PExit 1 F
         end)
        (PWait F (commands lines F))
  end.

(** The lines [getcmd] finds in the input, up to the empty one at its end. *)
Fixpoint typed (n : nat) (inp : list Z) : list (list Z) :=
  match n with
  | O => []
  | S n => let l := getline 99 inp in l :: if bool_decide (l = []) then [] else typed n (drop (length l) inp)
  end.

Definition main (inp : list Z) (F : fds) : proc := commands (typed (S (length inp)) inp) (open_console (S NOFILE) F).
End run.

(** A call of [getcmd] leaves the next of these lines in the buffer. *)
Lemma getcmd_typed ca buf c s : reads_ok 100 s -> Forall (fun x => 0 < x < 256) (u_in s 0) -> ~ buf <= ca < buf + 100 ->
  wp (getcmd ca buf 100) c s (fun c' s' r => let l := getline 99 (u_in s 0) in
    c' = c /\ cstr_at (u_mem s') buf l /\ u_in s' 0 = drop (length l) (u_in s 0) /\ u_out s' 2 = u_out s 2 ++ bytes_of "$ " /\ r = if bool_decide (l = []) then -1 else 0).
Proof.
  intros Hr Hb Hca. unfold getcmd, put, umod. wp_steps. eapply wp_ugets; [lia|exact Hr|exact Hb|done|]. intros s' (Hl & Hin & _ & Hout & _). cbn in Hin, Hout. change (Z.to_nat (100 - 1)) with 99%nat in *.
  wp_steps. cbn [u_in set_umem] in Hl. destruct (getline 99 (u_in s 0)) as [|x l] eqn:El.
  - pose proof Hl as E. apply cstr_at_nil in E as ->. cbn. wp_steps. split_and!; [done|done|done|by rewrite Hout|done].
  - pose proof Hl as (Hx & E & _)%cstr_at_cons. rewrite E, (proj2 (Z.eqb_neq x 0)) by lia. wp_steps. split_and!; [done|done|done|by rewrite Hout|done].
Qed.

Lemma typed_line text : text <> [] -> getline 99 text = text -> typed (S (length text)) text = [text; []].
Proof.
  intros Hne Hl. cbn [typed]. rewrite Hl, bool_decide_eq_false_2, drop_all by done. destruct text; [done|]. reflexivity.
Qed.

(** * What a command means *)

(** The programs a process and its children run, with their descriptors. *)
Fixpoint programs (p : proc) : list (list (list Z) * fds) :=
  match p with
  | PExit _ _ => []
  | PExec argv F _ => [(argv, F)]
  | PFork child parent _ => programs child ++ programs parent
  | PWait _ p | PPrint _ p | PChdir _ _ p => programs p
  end.

(** The descriptors with which a process of the shell itself waits or exits. *)
Fixpoint shells (p : proc) : list fds :=
  match p with
  | PExit _ F => [F]
  | PExec _ F fails => shells fails
  | PFork child parent _ => shells child ++ shells parent
  | PWait F p => F :: shells p
  | PPrint _ p | PChdir _ _ p => shells p
  end.

(** The programs of a command and what is behind their descriptors. *)
Section wiring.
Context (can_open : list Z -> Z -> bool).
Fixpoint wiring (t : tree) (here : list nat) (F : fds) : list (list (list Z) * fds) :=
  match t with
  | TExec argv => if bool_decide (argv = []) then [] else [(argv, F)]
  | TRedir t file mode fd => if can_open file mode then wiring t (0%nat :: here) (<[Z.to_nat fd := Some (File file mode)]> F) else []
  | TList l r => wiring l (0%nat :: here) F ++ wiring r (1%nat :: here) F
  | TPipe l r => wiring l (0%nat :: here) (<[1%nat := Some (WriteEnd here)]> F) ++ wiring r (1%nat :: here) (<[0%nat := Some (ReadEnd here)]> F)
  | TBack t => wiring t (0%nat :: here) F
  end.

(** Standard input, output and error, and nothing else. *)
Definition std (a b c : fobj) : fds := Some a :: Some b :: Some c :: replicate (NOFILE - 3) None.

(** After [pipe], before the children are forked. *)
Definition piped (here : list nat) (a b c : fobj) : fds :=
  Some a :: Some b :: Some c :: Some (ReadEnd here) :: Some (WriteEnd here) :: replicate (NOFILE - 5) None.

(** Apart from the three descriptors nothing is open. *)
Definition tidy (F : fds) : Prop := drop 3 F = replicate (NOFILE - 3) None.

Lemma runcmd_std t here a b c : ok_tree t ->
  programs (runcmd can_open t here (std a b c)) = wiring t here (std a b c) /\ Forall tidy (shells (runcmd can_open t here (std a b c))).
Proof.
  revert here a b c. induction t as [argv|t IH file mode fd|l IHl r IHr|l IHl r IHr|t IH]; intros here a b c Hok; cbn [ok_tree] in Hok.
  - destruct argv; [by split; [|repeat constructor]|]. by split; [|repeat constructor].
  - destruct Hok as (Ht & _ & Hk). cbn [runcmd wiring]. unfold open. destruct (can_open file mode).
    + destruct Hk as [[_ ->]|[[_ ->]|[_ ->]]]; cbn; by apply IH.
    + destruct Hk as [[_ ->]|[[_ ->]|[_ ->]]]; cbn; by split; [|repeat constructor].
  - destruct Hok as [Hl Hr]. destruct (IHl (0%nat :: here) a (WriteEnd here) c Hl) as [El Fl], (IHr (1%nat :: here) (ReadEnd here) b c Hr) as [Er Fr].
    change (runcmd can_open (TPipe l r) here (std a b c)) with (fork1 (piped here a b c) (runcmd can_open l (0%nat :: here) (std a (WriteEnd here) c))
      (fork1 (piped here a b c) (runcmd can_open r (1%nat :: here) (std (ReadEnd here) b c)) (PWait (std a b c) (PWait (std a b c) (PExit 0 (std a b c)))))).
    cbn [fork1 programs shells wiring]. rewrite El, Er, app_nil_r. split; [done|]. rewrite !Forall_app. split_and!; [done|done|by repeat constructor].
  - destruct Hok as [Hl Hr]. destruct (IHl (0%nat :: here) a b c Hl) as [El Fl], (IHr (1%nat :: here) a b c Hr) as [Er Fr].
    cbn [runcmd fork1 programs shells wiring]. rewrite El, Er. split; [done|]. rewrite Forall_app, Forall_cons. done.
  - destruct (IH (0%nat :: here) a b c Hok) as [E F]. cbn [runcmd fork1 programs shells wiring]. rewrite E, app_nil_r. split; [done|]. rewrite Forall_app. split; [done|by repeat constructor].
Qed.

Lemma wiring_tidy t here a b c : ok_tree t -> Forall (fun x => tidy x.2) (wiring t here (std a b c)).
Proof.
  revert here a b c. induction t as [argv|t IH file mode fd|l IHl r IHr|l IHl r IHr|t IH]; intros here a b c Hok; cbn [ok_tree wiring] in *.
  - case_bool_decide; [constructor|]. by apply Forall_singleton.
  - destruct Hok as (Ht & _ & Hk). destruct (can_open file mode); [|constructor]. destruct Hk as [[_ ->]|[[_ ->]|[_ ->]]]; by apply IH.
  - destruct Hok as [Hl Hr]. apply Forall_app. split; [by apply (IHl (0%nat :: here) a (WriteEnd here) c)|by apply (IHr (1%nat :: here) (ReadEnd here) b c)].
  - destruct Hok as [Hl Hr]. apply Forall_app. auto.
  - auto.
Qed.
End wiring.

(** C11: The shell runs what is typed. Started with no file open, it opens the console as
    standard input, output and error; for a line of input that prints a command it forks a child
    that starts exactly the programs of the command, each with its redirections and its ends of
    the pipes on descriptors 0 and 1 and nothing else open, and no process of the shell keeps a
    pipe open. *)
Theorem shell_runs can_open t text : ok_tree t -> layout (show t 0) text -> is_cd text = false -> text <> [] -> getline 99 text = text ->
  let p := main can_open text (replicate NOFILE None) in
  programs p = wiring can_open t [] (std Console Console Console) /\ Forall tidy (shells p) /\ Forall (fun x => tidy x.2) (programs p).
Proof.
  intros Ht Hl Hcd Hne Hline. cbv zeta. change (main can_open text (replicate NOFILE None)) with (commands can_open (typed (S (length text)) text) (std Console Console Console)).
  rewrite (typed_line text) by done. destruct (show_parsecmd t text Ht Hl) as (c & buf & Hp & Hs). cbn [commands]. rewrite bool_decide_eq_false_2 by done. rewrite Hcd, Hp, Hs.
  destruct (runcmd_std can_open t [] Console Console Console Ht) as [E F]. cbn. rewrite app_nil_r, E. split_and!; [done| |by apply wiring_tidy].
  apply Forall_app. split; [done|by repeat constructor].
Qed.

(** [a|b >f], with the newline. *)
Definition demo_pipe_tree : tree := TPipe (TExec [[97]]) (TRedir (TExec [[98]]) [102] (Z.lor (Z.lor O_WRONLY O_CREATE) O_TRUNC) 1).

Lemma shell_runs_witness :
  programs (main (fun _ _ => true) [97; 124; 98; 32; 62; 102; 10] (replicate NOFILE None)) =
    [([[97]], std Console (WriteEnd []) Console); ([[98]], std (ReadEnd []) (File [102] 0x601) Console)].
Proof.
  destruct (shell_runs (fun _ _ => true) demo_pipe_tree [97; 124; 98; 32; 62; 102; 10]) as (E & _ & _).
  - cbn. unfold MAXARGS, okword, redir_kind. split_and!; try lia; try done; by repeat constructor.
  - change (show demo_pipe_tree 0) with [Word [97]; Sym 124; Word [98]; Sym 62; Word [102]].
    lay_token (@nil Z). lay_token (@nil Z). lay_token (@nil Z). lay_token [32]. lay_token (@nil Z). apply lay_nil. by repeat constructor.
  - reflexivity.
  - done.
  - reflexivity.
  - rewrite E. reflexivity.
Defined.
