(* ===== verification/Umalloc.v ===== *)
(** user/umalloc.c: the allocator of user programs.

    The memory of the heap is an array of [Header] units of 16 bytes, as the C code addresses
    it; a pointer to a [Header] is the index of its unit. *)
From S2P Require Import Prelude.

Record hdr := mkhdr { h_ptr : Z; h_size : Z }.

(** The heap, the static [freep] (0 before the first call), the end of the heap as a byte
    address, and how far the kernel lets it grow. *)
Record um := mkum { hm : Z -> hdr; freep : Z; brk : Z; brk_limit : Z }.

Definition hset (m : Z -> hdr) (a : Z) (h : hdr) : Z -> hdr := fun x => if x =? a then h else m x.
Definition set_hm (m : Z -> hdr) (s : um) : um := mkum m (freep s) (brk s) (brk_limit s).
Definition set_freep (p : Z) (s : um) : um := mkum (hm s) p (brk s) (brk_limit s).

Definition get_ptr (p : Z) : M um Z := gets (fun s => h_ptr (hm s p)).
Definition get_size (p : Z) : M um Z := gets (fun s => h_size (hm s p)).
Definition set_ptr (p q : Z) : M um unit := modify (fun s => set_hm (hset (hm s) p (mkhdr q (h_size (hm s p)))) s).
Definition set_size (p n : Z) : M um unit := modify (fun s => set_hm (hset (hm s) p (mkhdr (h_ptr (hm s p)) n)) s).

(** The system call: the old end of the heap, or -1. Its argument is an [int]; shrinking by more
    than there is changes nothing. *)
Definition sbrk (n : Z) : M um Z := fun c s =>
  let n := s32 n in
  if n >? 0 then
    if brk s + n <=? brk_limit s then Ret c (mkum (hm s) (freep s) (brk s + n) (brk_limit s)) (brk s) else Ret c s (-1)
  else if (n <? 0) && (0 <=? brk s + n) then Ret c (mkum (hm s) (freep s) (brk s + n) (brk_limit s)) (brk s)
  else Ret c s (brk s).

Section malloc.
(** The address of the static [base]. *)
Context (base : Z).

(** The free list has at most one block per unit of the heap, and [base]. *)
Definition list_bound (s : um) : nat := Z.to_nat (brk s / 16 - base).

(** Where [free] puts a block: the loop over the list. *)
Definition find_place (bp : Z) : M um Z :=
  n <- gets list_bound ;;
  p <- gets freep ;;
  loop (S n) (fun p =>
    q <- get_ptr p ;;
    if (bp >? p) && (bp <? q) then ret (inr p) else
    if (p >=? q) && ((bp >? p) || (bp <? q)) then ret (inr p) else
    ret (inl q)) p.

Definition free (ap : Z) : M um unit :=
  let bp := ap - 1 in
  p <- find_place bp ;;
  sz <- get_size bp ;;
  q <- get_ptr p ;;
  (if bp + sz =? q then
     qsz <- get_size q ;;
     set_size bp (u32 (sz + qsz)) ;;
     qq <- get_ptr q ;;
     set_ptr bp qq
   else set_ptr bp q) ;;
  psz <- get_size p ;;
  (if p + psz =? bp then
     bsz <- get_size bp ;;
     set_size p (u32 (psz + bsz)) ;;
     bq <- get_ptr bp ;;
     set_ptr p bq
   else set_ptr p bp) ;;
  modify (set_freep p).

Definition morecore (nu : Z) : M um Z :=
  let nu := if nu <? 4096 then 4096 else nu in
  p <- sbrk (nu * 16) ;;
  if p =? -1 then ret 0 else
  let hp := p / 16 in
  set_size hp nu ;;
  free (hp + 1) ;;
  gets freep.

Definition units (nbytes : Z) : Z := u32 ((nbytes + 16 - 1) / 16 + 1).

(** Twice round the list, the second time with the new block. *)
Definition malloc (nbytes : Z) : M um Z :=
  let nunits := units nbytes in
  fp <- gets freep ;;
  prevp <- (if fp =? 0 then
      set_ptr base base ;; modify (set_freep base) ;; set_size base 0 ;; ret base
    else ret fp) ;;
  p <- get_ptr prevp ;;
  n <- gets list_bound ;;
  loop (2 * n + 3) (fun st : Z * Z => let '(prevp, p) := st in
    sz <- get_size p ;;
    if sz >=? nunits then
      r <- (if sz =? nunits then
          q <- get_ptr p ;; set_ptr prevp q ;; ret p
        else
          set_size p (u32 (sz - nunits)) ;;
          set_size (p + (sz - nunits)) nunits ;;
          ret (p + (sz - nunits))) ;;
      modify (set_freep prevp) ;;
      ret (inr (r + 1))
    else
      fp <- gets freep ;;
      if p =? fp then
        r <- morecore nunits ;;
        if r =? 0 then ret (inr 0) else
        q <- get_ptr r ;;
        ret (inl (r, q))
      else
        q <- get_ptr p ;;
        ret (inl (p, q))) (prevp, p).
End malloc.
