(* ===== verification/UmallocProps.v ===== *)
(** The allocator of user programs: whatever a program allocates, frees and writes, its blocks
    are its own, and the heap is exactly the free and the allocated blocks. *)
From stdpp Require Import sorting.
From S2P Require Import Prelude Umalloc.

(** A block: its header and its length in units, header included. *)
#[local] Abbreviation blk := (Z * Z)%type.

(** How many blocks have a unit. *)
Definition covers (b : blk) (u : Z) : Z := if (b.1 <=? u) && (u <? b.1 + b.2) then 1 else 0.
Fixpoint cover (l : list blk) (u : Z) : Z := match l with [] => 0 | b :: l => covers b u + cover l u end.

Lemma covers_cases b u : (b.1 <= u < b.1 + b.2 /\ covers b u = 1) \/ (~ b.1 <= u < b.1 + b.2 /\ covers b u = 0).
Proof. unfold covers. destruct (Z.leb_spec b.1 u), (Z.ltb_spec u (b.1 + b.2)); cbn; lia. Qed.

Lemma cover_app l1 l2 u : cover (l1 ++ l2) u = cover l1 u + cover l2 u.
Proof. induction l1 as [|b l1 IH]; cbn; [done|]. lia. Qed.

Lemma cover_nonneg l u : 0 <= cover l u.
Proof. induction l as [|b l IH]; cbn; [lia|]. destruct (covers_cases b u); lia. Qed.

Lemma cover_elem l b u : b ∈ l -> b.1 <= u < b.1 + b.2 -> 1 <= cover l u.
Proof.
  intros (l1 & l2 & ->)%list_elem_of_split Hu. rewrite cover_app. cbn. pose proof (cover_nonneg l1 u). pose proof (cover_nonneg l2 u). destruct (covers_cases b u); lia.
Qed.

(** The blocks are the units from [lo] to [hi], each once. *)
Definition tiles (l : list blk) (lo hi : Z) : Prop := forall u, cover l u = if (lo <=? u) && (u <? hi) then 1 else 0.

Lemma tiles_in l lo hi b : tiles l lo hi -> b ∈ l -> 1 <= b.2 -> lo <= b.1 /\ b.1 + b.2 <= hi.
Proof.
  intros Ht Hb Hz. pose proof (cover_elem l b b.1 Hb ltac:(lia)) as H1. pose proof (cover_elem l b (b.1 + b.2 - 1) Hb ltac:(lia)) as H2.
  rewrite Ht in H1, H2. destruct (Z.leb_spec lo b.1), (Z.ltb_spec b.1 hi), (Z.leb_spec lo (b.1 + b.2 - 1)), (Z.ltb_spec (b.1 + b.2 - 1) hi); cbn in *; lia.
Qed.

(** A unit has one block. *)
Lemma tiles_one l1 l2 lo hi b u : tiles (l1 ++ b :: l2) lo hi -> b.1 <= u < b.1 + b.2 -> forall b', b' ∈ l1 ++ l2 -> ~ b'.1 <= u < b'.1 + b'.2.
Proof.
  intros Ht Hu b' Hb' Hu'. pose proof (cover_elem _ _ _ Hb' Hu') as H1. rewrite cover_app in H1. specialize (Ht u). rewrite cover_app in Ht. cbn in Ht.
  destruct (covers_cases b u); [|lia]. destruct ((lo <=? u) && (u <? hi)); lia.
Qed.

(** * The free list *)

(** The blocks follow each other by their pointers, the last one to [e]. *)
Definition next (l : list blk) (e : Z) : Z := match l with [] => e | b :: _ => b.1 end.
Fixpoint chain (m : Z -> hdr) (l : list blk) (e : Z) : Prop :=
  match l with [] => True | b :: l => m b.1 = mkhdr (next l e) b.2 /\ chain m l e end.
(** A gap between two blocks: neighbours are merged. *)
Definition above (b b' : blk) : Prop := b.1 + b.2 < b'.1.

Lemma next_app l1 l2 e : next (l1 ++ l2) e = next l1 (next l2 e).
Proof. by destruct l1. Qed.

Lemma chain_app m l1 l2 e : chain m (l1 ++ l2) e <-> chain m l1 (next l2 e) /\ chain m l2 e.
Proof. induction l1 as [|x l1 IH]; cbn [app chain]; [naive_solver|]. rewrite IH, next_app. naive_solver. Qed.

Lemma chain_frame m m' l e : (forall b, b ∈ l -> m' b.1 = m b.1) -> chain m l e -> chain m' l e.
Proof.
  induction l as [|x l IH]; cbn [chain]; [done|]. intros Hm [Hx Hl]. split; [rewrite Hm by (by apply elem_of_cons; left); done|]. apply IH; [|done]. intros b Hb. apply Hm. by apply elem_of_cons; right.
Qed.

Lemma filter_le {A} (P Q : A -> Prop) `{!forall x, Decision (P x), !forall x, Decision (Q x)} (l : list A) :
  (forall x, x ∈ l -> P x -> Q x) -> (length (filter P l) <= length (filter Q l))%nat.
Proof.
  induction l as [|x l IH]; intros HPQ; [done|]. assert (length (filter P l) <= length (filter Q l))%nat by (apply IH; intros y Hy; apply HPQ; by apply elem_of_cons; right).
  destruct (decide (P x)) as [Hp|Hp].
  - rewrite (filter_cons_True P), (filter_cons_True Q) by (done || (apply HPQ; [by apply elem_of_cons; left|done])). cbn. lia.
  - rewrite (filter_cons_False P) by done. destruct (decide (Q x)); [rewrite filter_cons_True by done; cbn; lia|by rewrite filter_cons_False].
Qed.

Lemma filter_lt {A} (P Q : A -> Prop) `{!forall x, Decision (P x), !forall x, Decision (Q x)} (l : list A) x :
  (forall x, x ∈ l -> P x -> Q x) -> x ∈ l -> Q x -> ~ P x -> (length (filter P l) < length (filter Q l))%nat.
Proof.
  intros HPQ (l1 & l2 & ->)%list_elem_of_split Hq Hp. rewrite !filter_app, !length_app, (filter_cons_True Q), (filter_cons_False P) by done. cbn.
  pose proof (filter_le P Q l1 ltac:(intros y Hy; apply HPQ; set_solver)). pose proof (filter_le P Q l2 ltac:(intros y Hy; apply HPQ; set_solver)). lia.
Qed.

(** * The state between calls *)

Section inv.
Context (base h0 : Z).
#[local] Abbreviation nodes fl := ((base, 0) :: fl).

Record minv (s : um) (fl al : list blk) : Prop := {
  mi_base : 0 < base < h0;
  mi_brk : brk s mod 16 = 0 /\ brk s <= brk_limit s <= 2 ^ 35 /\ h0 <= brk s / 16;
  mi_chain : chain (hm s) (nodes fl) base;
  mi_sorted : StronglySorted above (nodes fl);
  mi_pos : Forall (fun b : blk => 1 <= b.2) (fl ++ al);
  mi_tiles : tiles (fl ++ al) h0 (brk s / 16);
  mi_size b : b ∈ al -> h_size (hm s b.1) = b.2;
  mi_freep : exists z, (freep s, z) ∈ nodes fl;
}.

Lemma pos_elem (fl al : list blk) (b : blk) : Forall (fun b : blk => 1 <= b.2) (fl ++ al) -> b ∈ fl \/ b ∈ al -> 1 <= b.2.
Proof. rewrite Forall_forall. intros H Hb. apply H. by apply elem_of_app. Qed.

Lemma minv_in s fl al b : minv s fl al -> b ∈ fl \/ b ∈ al -> 1 <= b.2 /\ h0 <= b.1 /\ b.1 + b.2 <= brk s / 16.
Proof.
  intros Hi Hb. assert (1 <= b.2) by (eapply pos_elem; [apply Hi|done]). split; [done|]. eapply tiles_in; [apply Hi|by apply elem_of_app|done].
Qed.

Lemma sorted_length (b : blk) (l : list blk) hi : StronglySorted above (b :: l) -> (forall x, x ∈ b :: l -> 0 <= x.2 /\ x.1 < hi) -> Z.of_nat (length (b :: l)) <= hi - b.1.
Proof.
  revert b. induction l as [|x l IH]; intros b Hs Hx.
  - pose proof (Hx b ltac:(set_solver)). cbn. lia.
  - apply StronglySorted_cons in Hs as [Hf Hs]. specialize (IH x Hs ltac:(intros y Hy; apply Hx; set_solver)). apply Forall_cons in Hf as [Hf _]. unfold above in Hf.
    pose proof (Hx b ltac:(set_solver)). cbn [length] in *. lia.
Qed.

Lemma minv_length s fl al : minv s fl al -> (length (nodes fl) <= list_bound base s)%nat.
Proof.
  intros Hi. unfold list_bound. pose proof (sorted_length (base, 0) fl (brk s / 16) (mi_sorted _ _ _ Hi)) as Hl. cbn [fst] in Hl.
  enough (Z.of_nat (length (nodes fl)) <= brk s / 16 - base) by lia. apply Hl. intros x [->|Hx]%elem_of_cons.
  - cbn. pose proof (mi_base _ _ _ Hi). pose proof (mi_brk _ _ _ Hi). lia.
  - destruct (minv_in _ _ _ x Hi (or_introl Hx)). lia.
Qed.

(** The pointer of a block of the list. *)
Lemma chain_at s fl al l1 p l2 : minv s fl al -> nodes fl = l1 ++ p :: l2 -> hm s p.1 = mkhdr (next l2 base) p.2.
Proof. intros Hi He. pose proof (mi_chain _ _ _ Hi) as Hc. rewrite He in Hc. by apply chain_app in Hc as [_ [Hc _]]. Qed.

Lemma sorted_at fl l1 p l2 : StronglySorted above (nodes fl) -> Forall (fun b : blk => 1 <= b.2) fl -> nodes fl = l1 ++ p :: l2 ->
  (forall x, x ∈ l1 -> x.1 < p.1) /\ (forall x, x ∈ l2 -> p.1 < x.1) /\ 0 <= p.2.
Proof.
  intros Hs Hp He. assert (forall x, x ∈ nodes fl -> 0 <= x.2) as Hnn.
  { intros x [->|Hx]%elem_of_cons; [done|]. rewrite Forall_forall in Hp. specialize (Hp x Hx). lia. }
  rewrite He in Hs, Hnn. apply StronglySorted_app in Hs as (H1 & H2 & H3). apply StronglySorted_cons in H3 as [H3 _]. rewrite Forall_forall in H3. unfold above in *.
  split_and!; [|intros x Hx; specialize (H3 x Hx); pose proof (Hnn p ltac:(set_solver)); lia|apply Hnn; set_solver].
  intros x Hx. specialize (H1 x p Hx ltac:(set_solver)). pose proof (Hnn x ltac:(set_solver)). lia.
Qed.

(** How far the search of [free] still has to go from [p]. *)
Definition between (lo hi : Z) (l : list blk) : nat := length (filter (fun b : blk => lo < b.1 < hi) l).
Definition to_go (fl : list blk) (bp p : Z) : nat :=
  if p <? bp then between p bp (nodes fl) else (between p (2 ^ 64) (nodes fl) + between 0 bp (nodes fl) + 1)%nat.

Lemma between_lt lo hi lo' hi' (l : list blk) x : lo' <= lo -> hi <= hi' -> x ∈ l -> lo' < x.1 < hi' -> ~ lo < x.1 < hi -> (between lo hi l < between lo' hi' l)%nat.
Proof. intros ? ? Hx Hin Hout. apply (filter_lt _ _ _ x); [intros; lia|done|done|done]. Qed.

Lemma between_sum lo (l : list blk) bp : bp <= lo -> (between lo (2 ^ 64) l + between 0 bp l <= length l)%nat.
Proof.
  intros Hlo. unfold between. induction l as [|x l IH]; [done|]. cbn [length]. rewrite !filter_cons. repeat case_decide; cbn [length]; lia.
Qed.

Lemma between_sum_lt (l : list blk) x bp : bp <= x.1 -> x ∈ l -> (between x.1 (2 ^ 64) l + between 0 bp l < length l)%nat.
Proof.
  intros Hbp (l1 & l2 & ->)%list_elem_of_split. pose proof (between_sum x.1 l1 bp Hbp). pose proof (between_sum x.1 l2 bp Hbp). unfold between in *.
  rewrite !filter_app, !filter_cons_False, !length_app by lia. cbn [length]. lia.
Qed.

Lemma head_base fl l1 p l2 : StronglySorted above (nodes fl) -> Forall (fun b : blk => 1 <= b.2) fl -> nodes fl = l1 ++ p :: l2 -> base <= p.1.
Proof.
  intros Hs Hp He. destruct (sorted_at _ _ _ _ Hs Hp He) as (Hl1 & _ & _). destruct l1 as [|x l1]; injection He as <- He; [done|]. specialize (Hl1 (base, 0) ltac:(set_solver)). cbn in Hl1. lia.
Qed.

Lemma wp_find_place bp c s fl al (Q : cpu -> um -> Z -> Prop) : minv s fl al -> base < bp -> (forall b, b ∈ fl -> b.1 <> bp) ->
  (forall l1 p l2, nodes fl = l1 ++ p :: l2 -> p.1 < bp -> (forall x, x ∈ l2 -> bp < x.1) -> Q c s p.1) ->
  wp (find_place base bp) c s Q.
Proof.
  intros Hi Hbp Hne HQ. pose proof (mi_sorted _ _ _ Hi) as Hs. pose proof (mi_pos _ _ _ Hi) as Hpos. apply Forall_app in Hpos as [Hpos _].
  assert (forall x, x ∈ nodes fl -> 0 < x.1 < 2 ^ 64) as Hrange.
  { pose proof (mi_base _ _ _ Hi). pose proof (mi_brk _ _ _ Hi). intros x [->|Hx]%elem_of_cons; cbn; [dlia|]. destruct (minv_in _ _ _ x Hi (or_introl Hx)). dlia. }
  unfold find_place. wp_step. wp_step. wp_step. wp_step.
  eapply (wp_loop (fun p c' s' => c' = c /\ s' = s /\ exists z, (p, z) ∈ nodes fl) (to_go fl bp)).
  3: { split_and!; [done|done|apply Hi]. }
  - intros p c' s' (-> & -> & z & Hin). pose proof Hin as Hin'. apply list_elem_of_split in Hin as (l1 & l2 & He). destruct (sorted_at _ _ _ _ Hs Hpos He) as (Hl1 & Hl2 & _). cbn [fst] in *.
    pose proof (chain_at _ _ _ _ _ _ Hi He) as Hat. cbn [fst snd] in Hat. unfold get_ptr. wp_step. wp_step. rewrite Hat. cbn [h_ptr].
    assert (p <> bp) as Hpb by (apply elem_of_cons in Hin' as [[= -> _]|Hin']; [lia|by apply (Hne _ Hin')]).
    destruct l2 as [|[q qz] l2]; cbn [next fst].
    + rewrite (proj2 (Z.ltb_ge bp base)), andb_false_r by lia. pose proof (head_base _ _ _ _ Hs Hpos He) as Hb. cbn in Hb. rewrite (proj2 (Z.geb_le p base)), orb_false_r by lia. cbn [andb].
      destruct (Z.gtb_spec bp p) as [Hgt|Hle]; wp_steps; [apply (HQ l1 (p, z) []); [done|done|by intros ? ?%elem_of_nil]|].
      split; [split_and!; [done|done|]|]; [exists 0; apply elem_of_cons; by left|]. unfold to_go. rewrite (proj2 (Z.ltb_lt base bp)), (proj2 (Z.ltb_ge p bp)) by lia.
      pose proof (mi_base _ _ _ Hi). pose proof (between_lt base bp 0 bp (nodes fl) (base, 0) ltac:(lia) ltac:(lia) ltac:(set_solver) ltac:(cbn; lia) ltac:(cbn; lia)). lia.
    + assert ((q, qz) ∈ nodes fl) as Hq by (rewrite He; set_solver). assert (q <> bp) as Hqb by (apply elem_of_cons in Hq as [[= -> _]|Hq']; [lia|by apply (Hne _ Hq')]).
      pose proof (Hl2 (q, qz) ltac:(set_solver)) as Hpq. cbn in Hpq.
      assert ((p >=? q) = false) as -> by (rewrite Z.geb_leb; apply Z.leb_gt; lia). cbn [andb]. destruct (Z.gtb_spec bp p) as [Hgt|Hle], (Z.ltb_spec bp q) as [Hlt|Hge]; cbn [andb]; wp_steps.
      * apply (HQ l1 (p, z) ((q, qz) :: l2)); [done|done|]. intros x [->|Hx]%elem_of_cons; [done|].
        assert (nodes fl = (l1 ++ [(p, z)]) ++ (q, qz) :: l2) as He2 by (by rewrite <- app_assoc). destruct (sorted_at _ _ _ _ Hs Hpos He2) as (_ & Hl3 & _). specialize (Hl3 x Hx). cbn in Hl3. lia.
      * split; [by eauto|]. unfold to_go. rewrite (proj2 (Z.ltb_lt q bp)), (proj2 (Z.ltb_lt p bp)) by lia. apply (between_lt _ _ _ _ _ (q, qz)); [lia|lia|done|cbn; lia|cbn; lia].
      * split; [by eauto|]. unfold to_go. rewrite (proj2 (Z.ltb_ge q bp)), (proj2 (Z.ltb_ge p bp)) by lia.
        pose proof (Hrange _ Hq) as Hqr. cbn in Hqr. pose proof (between_lt q (2 ^ 64) p (2 ^ 64) (nodes fl) (q, qz) ltac:(lia) ltac:(lia) Hq ltac:(cbn; lia) ltac:(cbn; lia)). lia.
      * lia.
  - pose proof (minv_length _ _ _ Hi) as Hlen. destruct (mi_freep _ _ _ Hi) as [z Hf]. unfold to_go. destruct (Z.ltb_spec (freep s) bp).
    + unfold between. pose proof (length_filter (fun b : blk => freep s < b.1 < bp) (nodes fl)). lia.
    + pose proof (between_sum_lt (nodes fl) (freep s, z) bp ltac:(cbn; lia) Hf) as Hlt. cbn [fst] in Hlt. lia.
Qed.

(** * [free] *)

Lemma hset_eq m a h : hset m a h a = h.
Proof. unfold hset. by rewrite Z.eqb_refl. Qed.
Lemma hset_ne m a h x : x <> a -> hset m a h x = m x.
Proof. intros. unfold hset. by rewrite (proj2 (Z.eqb_neq x a)). Qed.

Lemma covers_merge a z1 z2 u : 0 <= z1 -> 0 <= z2 -> covers (a, z1 + z2) u = covers (a, z1) u + covers (a + z1, z2) u.
Proof. intros. destruct (covers_cases (a, z1 + z2) u), (covers_cases (a, z1) u), (covers_cases (a + z1, z2) u); cbn [fst snd] in *; lia. Qed.

(** Where a block fits between its neighbours. *)
Lemma place_gap s fl al1 al2 b l1 p l2 : minv s fl (al1 ++ b :: al2) -> nodes fl = l1 ++ p :: l2 -> p.1 < b.1 -> (forall x, x ∈ l2 -> b.1 < x.1) ->
  p.1 + p.2 <= b.1 /\ (forall x, x ∈ l2 -> b.1 + b.2 <= x.1).
Proof.
  intros Hi He Hp Hl2. pose proof (minv_in _ _ _ b Hi ltac:(right; set_solver)) as (Hb & Hb1 & _). pose proof (mi_tiles _ _ _ Hi) as Ht.
  assert (forall x, x ∈ fl -> ~ x.1 <= b.1 < x.1 + x.2 /\ ~ b.1 <= x.1 < b.1 + b.2) as Hd.
  { intros x Hx. pose proof (minv_in _ _ _ x Hi (or_introl Hx)) as (Hxp & _). rewrite app_assoc in Ht. split.
    - apply (tiles_one _ _ _ _ b b.1 Ht); [lia|set_solver].
    - intros Hc. by apply (tiles_one _ _ _ _ b x.1 Ht Hc x ltac:(set_solver)); lia. }
  split.
  - destruct l1 as [|y l1]; injection He as <- He; [cbn in *; pose proof (mi_base _ _ _ Hi); lia|]. destruct (Hd p ltac:(rewrite He; set_solver)) as [H1 _]. lia.
  - intros x Hx. specialize (Hl2 x Hx). destruct (Hd x) as [_ H2]; [|lia]. destruct l1 as [|y l1]; injection He as <- ->; set_solver.
Qed.

(** The list with the block [b], merged with its neighbours where they touch. *)
Definition merge_next (b : blk) (l : list blk) : blk * list blk :=
  match l with q :: l' => if b.1 + b.2 =? q.1 then ((b.1, b.2 + q.2), l') else (b, l) | [] => (b, []) end.
Definition merged (b p : blk) (l2 : list blk) : list blk :=
  let '(b, l) := merge_next b l2 in
  if p.1 + p.2 =? b.1 then (p.1, p.2 + b.2) :: l else p :: b :: l.

Lemma merge_next_spec b l : StronglySorted above l -> (forall x, x ∈ l -> 1 <= x.2 /\ b.1 + b.2 <= x.1) -> 1 <= b.2 ->
  let '(b', l') := merge_next b l in b'.1 = b.1 /\ b.2 <= b'.2 /\ (forall x, x ∈ l' -> x ∈ l) /\ StronglySorted above (b' :: l') /\ forall u, covers b' u + cover l' u = covers b u + cover l u.
Proof.
  intros Hs Hl Hb. unfold merge_next. destruct l as [|q l]; [split_and!; [done|done|done|by repeat constructor|done]|].
  destruct (Hl q ltac:(set_solver)) as [Hq Hbq]. apply StronglySorted_cons in Hs as [Hf Hs]. rewrite Forall_forall in Hf. destruct (Z.eqb_spec (b.1 + b.2) q.1) as [He|Hne]; cbn [fst snd].
  - split_and!; [done|lia|set_solver| |].
    + apply StronglySorted_cons. split; [|done]. apply Forall_forall. intros x Hx. specialize (Hf x Hx). unfold above in *. cbn. lia.
    + intros u. cbn [cover]. rewrite covers_merge by lia. rewrite He. destruct b, q; cbn. lia.
  - split_and!; [done|lia|done| |done]. apply StronglySorted_cons. split.
    + apply Forall_forall. intros x Hx. destruct (Hl x Hx). unfold above. apply elem_of_cons in Hx as [->|Hx]; [lia|]. specialize (Hf x Hx). unfold above in Hf. lia.
    + apply StronglySorted_cons. split; [by apply Forall_forall|done].
Qed.

(** Headers of different blocks are different units. *)
Lemma other_header s fl al b x : minv s fl al -> b ∈ al -> x ∈ fl -> b.1 <> x.1.
Proof.
  intros Hi Hb (f1 & f2 & ->)%list_elem_of_split E. pose proof (mi_tiles _ _ _ Hi) as Ht. rewrite <- app_assoc in Ht. cbn [app] in Ht.
  pose proof (minv_in _ _ _ b Hi (or_intror Hb)) as (? & _). pose proof (minv_in _ _ _ x Hi ltac:(left; set_solver)) as (? & _).
  apply (tiles_one _ _ _ _ x x.1 Ht ltac:(lia) b ltac:(set_solver)). lia.
Qed.

Lemma other_alloc s fl al1 b al2 x : minv s fl (al1 ++ b :: al2) -> x ∈ al1 ++ al2 -> x.1 <> b.1.
Proof.
  intros Hi Hx E. pose proof (mi_tiles _ _ _ Hi) as Ht. rewrite app_assoc in Ht. assert (x ∈ al1 ++ b :: al2) as Hx' by set_solver.
  pose proof (minv_in _ _ _ b Hi ltac:(right; set_solver)) as (? & _). pose proof (minv_in _ _ _ x Hi (or_intror Hx')) as (? & _).
  apply (tiles_one _ _ _ _ b b.1 Ht ltac:(lia) x ltac:(set_solver)). lia.
Qed.

Lemma sorted_base fl y : StronglySorted above (nodes fl) -> y ∈ fl -> base < y.1.
Proof. intros [Hf _]%StronglySorted_cons Hy. rewrite Forall_forall in Hf. specialize (Hf y Hy). unfold above in Hf. cbn in Hf. lia. Qed.

(** The headers [free] writes. *)
Definition freed_mem (m : Z -> hdr) (b p : blk) (l2 : list blk) : Z -> hdr :=
  let '(b', l) := merge_next b l2 in
  let m1 := hset m b.1 (mkhdr (next l base) b'.2) in
  if p.1 + p.2 =? b.1 then hset m1 p.1 (mkhdr (next l base) (p.2 + b'.2)) else hset m1 p.1 (mkhdr b.1 p.2).

Lemma merged_chain s fl al1 al2 b l1 p l2 : minv s fl (al1 ++ b :: al2) -> nodes fl = l1 ++ p :: l2 -> p.1 < b.1 -> (forall x, x ∈ l2 -> b.1 < x.1) ->
  chain (freed_mem (hm s) b p l2) (l1 ++ merged b p l2) base.
Proof.
  intros Hi He Hp Hl2. pose proof (mi_chain _ _ _ Hi) as Hc. rewrite He in Hc. apply chain_app in Hc as [Hc1 [Hpc Hc2]]. cbn [next] in Hc1.
  pose proof (mi_pos _ _ _ Hi) as Hpos. apply Forall_app in Hpos as [Hpos _]. destruct (sorted_at _ _ _ _ (mi_sorted _ _ _ Hi) Hpos He) as (Hl1 & Hl2p & _).
  assert (forall h1 h2 l, (forall x, x ∈ l -> x ∈ l2) -> chain (hm s) l base -> chain (hset (hset (hm s) b.1 h1) p.1 h2) l base) as Hfr2.
  { intros h1 h2 l Hl Hcl. eapply chain_frame; [|exact Hcl]. intros x Hx. specialize (Hl2 x (Hl x Hx)). rewrite !hset_ne by lia. done. }
  assert (forall h1 h2, chain (hset (hset (hm s) b.1 h1) p.1 h2) l1 p.1) as Hfr1.
  { intros h1 h2. eapply chain_frame; [|exact Hc1]. intros x Hx. specialize (Hl1 x Hx). rewrite !hset_ne by lia. done. }
  unfold freed_mem, merged. destruct (merge_next b l2) as [b' l] eqn:Hm. assert (b'.1 = b.1 /\ (forall x, x ∈ l -> x ∈ l2) /\ chain (hm s) l base) as (Hb' & Hl & Hcl).
  { unfold merge_next in Hm. destruct l2 as [|q l2]; [by injection Hm as <- <-|]. destruct (_ =? _); injection Hm as <- <-; [|done]. split_and!; [done|set_solver|by destruct Hc2]. }
  rewrite Hb'. destruct (Z.eqb_spec (p.1 + p.2) b.1) as [Ht|Ht]; apply chain_app; (split; [cbn [next fst]; apply Hfr1|]); cbn [chain fst snd next].
  - split; [by rewrite hset_eq|by apply Hfr2].
  - rewrite Hb'. split_and!; [by rewrite hset_eq|by rewrite hset_ne, hset_eq by lia|by apply Hfr2].
Qed.

Lemma merged_spec b p l2 : StronglySorted above (p :: l2) -> (forall x, x ∈ l2 -> 1 <= x.2 /\ b.1 + b.2 <= x.1) -> 1 <= b.2 -> 0 <= p.2 -> p.1 + p.2 <= b.1 -> p.1 < b.1 ->
  StronglySorted above (merged b p l2) /\ (forall y, y ∈ merged b p l2 -> p.1 <= y.1 /\ (1 <= y.2 \/ y = p)) /\
  (forall u, cover (merged b p l2) u = covers p u + covers b u + cover l2 u) /\ (exists z, (p.1, z) ∈ merged b p l2) /\ exists y, y ∈ merged b p l2 /\ b.2 <= y.2 /\ 1 <= y.2.
Proof.
  intros Hs Hl Hb Hp Hpb Hlt. apply StronglySorted_cons in Hs as [Hf Hs]. rewrite Forall_forall in Hf. pose proof (merge_next_spec b l2 Hs Hl Hb) as Hm. unfold merged.
  destruct (merge_next b l2) as [b' l]. destruct Hm as (Hb1 & Hb2 & Hsub & Hso & Hcov). apply StronglySorted_cons in Hso as Hso'. destruct Hso' as [Hfb Hsl]. rewrite Forall_forall in Hfb.
  rewrite Hb1. destruct (Z.eqb_spec (p.1 + p.2) b.1) as [He|Hne].
  - split_and!.
    + apply StronglySorted_cons. split; [|done]. apply Forall_forall. intros x Hx. specialize (Hfb x Hx). unfold above in *. cbn. lia.
    + intros y [->|Hy]%elem_of_cons; cbn; [lia|]. destruct (Hl y (Hsub y Hy)). lia.
    + intros u. cbn [cover]. specialize (Hcov u). rewrite covers_merge by lia. rewrite He. rewrite <- Hb1. destruct b', p; cbn [fst snd] in *. lia.
    + eexists. apply elem_of_cons. by left.
    + eexists. split; [apply elem_of_cons; by left|]. cbn. lia.
  - split_and!.
    + apply StronglySorted_cons. split; [|done]. apply Forall_forall. intros x [->|Hx]%elem_of_cons; [unfold above; lia|]. specialize (Hfb x Hx). unfold above in *. lia.
    + intros y [->|[->|Hy]%elem_of_cons]%elem_of_cons; [split; [lia|by right]|lia|]. destruct (Hl y (Hsub y Hy)). lia.
    + intros u. cbn [cover]. specialize (Hcov u). lia.
    + exists p.2. apply elem_of_cons. left. by destruct p.
    + exists b'. split; [set_solver|]. lia.
Qed.

Lemma merged_inv s fl al1 al2 b l1 p l2 m' : minv s fl (al1 ++ b :: al2) -> nodes fl = l1 ++ p :: l2 -> p.1 < b.1 -> (forall x, x ∈ l2 -> b.1 < x.1) ->
  (forall x, m' x = freed_mem (hm s) b p l2 x) -> exists fl', nodes fl' = l1 ++ merged b p l2 /\ minv (mkum m' p.1 (brk s) (brk_limit s)) fl' (al1 ++ al2).
Proof.
  intros Hi He Hp Hl2 Hm'. destruct (place_gap _ _ _ _ _ _ _ _ Hi He Hp Hl2) as [Hgp Hg2]. pose proof (merged_chain _ _ _ _ _ _ _ _ Hi He Hp Hl2) as Hc.
  pose proof (mi_pos _ _ _ Hi) as Hpos. pose proof Hpos as Hpos'. apply Forall_app in Hpos as [Hpos _]. destruct (sorted_at _ _ _ _ (mi_sorted _ _ _ Hi) Hpos He) as (Hl1 & Hl2p & Hp0).
  assert (exists fl', nodes fl' = l1 ++ merged b p l2) as [fl' Hfl'].
  { destruct l1 as [|y l1]; injection He as <- He; [|by eexists (l1 ++ merged b p l2)]. cbn in Hp, Hgp. unfold merged. destruct (merge_next b l2) as [b' l] eqn:Hm.
    assert (b'.1 = b.1) as -> by (unfold merge_next in Hm; destruct l2 as [|q l2]; [by injection Hm as <- _|]; destruct (_ =? _); by injection Hm as <- _).
    cbn [fst snd]. rewrite (proj2 (Z.eqb_neq _ _)) by lia. by eexists. }
  exists fl'. split; [done|]. pose proof (mi_sorted _ _ _ Hi) as Hs. rewrite He in Hs. apply StronglySorted_app in Hs as (Hs1 & Hs2 & Hs3). apply StronglySorted_cons in Hs3 as [Hf3 Hs3].
  assert (1 <= b.2) as Hb1 by (apply (minv_in _ _ _ b Hi); right; set_solver).
  assert (forall x, x ∈ l2 -> x ∈ fl) as Hl2f by (intros x Hx; destruct l1 as [|y l1]; injection He as _ ->; set_solver).
  destruct (merged_spec b p l2) as (Ms & My & Mc & Mf & _); [by apply StronglySorted_cons| |done|done|done|done|].
  { intros x Hx. split; [|by apply Hg2]. apply (minv_in _ _ _ x Hi). left. auto. }
  assert (forall u, cover fl' u = cover l1 u + cover (merged b p l2) u) as Hcf by (intros u; rewrite <- cover_app, <- Hfl'; cbn; destruct (covers_cases (base, 0) u); cbn in *; lia).
  assert (forall u, cover fl u = cover l1 u + (covers p u + cover l2 u)) as Hcf0 by (intros u; pose proof (cover_app l1 (p :: l2) u) as E; rewrite <- He in E; cbn in E; destruct (covers_cases (base, 0) u); cbn in *; lia).
  assert (forall u, cover (fl' ++ al1 ++ al2) u = cover (fl ++ al1 ++ b :: al2) u) as Hcov by (intros u; rewrite !cover_app, Hcf, Hcf0, Mc; cbn [cover]; lia).
  assert (StronglySorted above (nodes fl')) as Hso.
  { rewrite Hfl'. apply StronglySorted_app. split_and!; [|done|done]. intros x y Hx Hy. specialize (Hs1 x p Hx ltac:(set_solver)). destruct (My y Hy) as [Hy1 _]. unfold above in *. lia. }
  assert (forall y, y ∈ l1 ++ [p] -> y ∈ nodes fl) as Hin by (intros y Hy; rewrite He; set_solver).
  split; cbn [hm freep brk brk_limit].
  - apply Hi.
  - apply Hi.
  - rewrite Hfl'. eapply chain_frame; [|exact Hc]. intros x _. apply Hm'.
  - done.
  - rewrite Forall_app in Hpos' |- *. destruct Hpos' as [_ Ha]. split; [|rewrite !Forall_app, Forall_cons in *; naive_solver]. apply Forall_forall. intros y Hy. pose proof (sorted_base fl' y Hso Hy) as Hyb.
    assert (y ∈ nodes fl -> 1 <= y.2) as Hy1 by (intros [->|Hy1]%elem_of_cons; [cbn in Hyb; lia|]; apply (minv_in _ _ _ y Hi); by left).
    assert (y ∈ l1 ++ merged b p l2) as [Hyl|Hym]%elem_of_app by (rewrite <- Hfl'; by apply elem_of_cons; right); [apply Hy1, Hin; set_solver|].
    destruct (My y Hym) as [_ [? | ->]]; [done|]. apply Hy1, Hin. set_solver.
  - intros u. rewrite Hcov. apply (mi_tiles _ _ _ Hi).
  - intros x Hx. assert (x ∈ al1 ++ b :: al2) as Hx' by set_solver. rewrite Hm'. assert (x.1 <> p.1) as Hxp.
    { pose proof (minv_in _ _ _ x Hi (or_intror Hx')) as (_ & Hx0 & _). pose proof (mi_base _ _ _ Hi). assert (p ∈ nodes fl) as [->|Hpf]%elem_of_cons by (apply Hin; set_solver); [cbn; lia|].
      by apply (other_header _ _ _ _ _ Hi). }
    pose proof (other_alloc _ _ _ _ _ _ Hi Hx). unfold freed_mem. destruct (merge_next b l2). destruct (_ =? _); rewrite !hset_ne by done; by apply (mi_size _ _ _ Hi).
  - destruct Mf as [z Mf]. exists z. rewrite Hfl'. apply elem_of_app. by right.
Qed.

Lemma hset_hset m a h h' x : hset (hset m a h) a h' x = hset m a h' x.
Proof. unfold hset. by destruct (x =? a). Qed.
Lemma hset_ext m m' a h x : (forall y, m y = m' y) -> hset m a h x = hset m' a h x.
Proof. intros. unfold hset. by destruct (x =? a). Qed.

(** Look up headers that were just written. *)
Ltac hsimp :=
  repeat first [rewrite hset_eq|rewrite hset_hset|match goal with |- context [hset ?m ?a ?h ?y] => rewrite (hset_ne m a h y) by lia end]; cbn [h_ptr h_size].

(** What [free] does to the headers, with its place found. *)
Definition free_at (bp p : Z) : M um unit :=
  sz <- get_size bp ;;
  q <- get_ptr p ;;
  (if bp + sz =? q then
     qsz <- get_size q ;;
     set_size bp (u32 (sz + qsz)) ;;
     qq <- get_ptr q ;;
     set_ptr bp qq
   else set_ptr bp q) ;;
  psz <- get_size p ;;
  (if p + psz =? bp then
     bsz <- get_size bp ;;
     set_size p (u32 (psz + bsz)) ;;
     bq <- get_ptr bp ;;
     set_ptr p bq
   else set_ptr p bp) ;;
  modify (set_freep p).

Lemma wp_free_at b c s fl al1 al2 l1 p l2 (Q : cpu -> um -> unit -> Prop) : minv s fl (al1 ++ b :: al2) -> nodes fl = l1 ++ p :: l2 -> p.1 < b.1 -> (forall x, x ∈ l2 -> b.1 < x.1) ->
  (forall m', (forall x, m' x = freed_mem (hm s) b p l2 x) -> Q c (mkum m' p.1 (brk s) (brk_limit s)) tt) -> wp (free_at b.1 p.1) c s Q.
Proof.
  intros Hi He Hp Hl2 HQ. destruct (place_gap _ _ _ _ _ _ _ _ Hi He Hp Hl2) as [Hgp Hg2]. pose proof (mi_brk _ _ _ Hi) as (_ & Hbrk & _). pose proof (mi_base _ _ _ Hi) as Hbase.
  pose proof (minv_in _ _ _ b Hi ltac:(right; set_solver)) as (Hb1 & Hb2 & Hb3). assert (brk s / 16 <= 2 ^ 31) as Hbr by dlia.
  pose proof (mi_pos _ _ _ Hi) as Hpos. apply Forall_app in Hpos as [Hpos _]. destruct (sorted_at _ _ _ _ (mi_sorted _ _ _ Hi) Hpos He) as (Hl1 & Hl2p & Hp0). pose proof (head_base _ _ _ _ (mi_sorted _ _ _ Hi) Hpos He) as Hpb.
  pose proof (chain_at _ _ _ _ _ _ Hi He) as Hpat. assert (h_size (hm s b.1) = b.2) as Hbs by (apply (mi_size _ _ _ Hi); set_solver).
  unfold freed_mem in HQ. unfold free_at, get_size, get_ptr, set_size, set_ptr. wp_step. wp_step. wp_step. wp_step. rewrite Hbs, Hpat. cbn [h_ptr].
  destruct l2 as [|q l2]; cbn [next merge_next] in *.
  - rewrite (proj2 (Z.eqb_neq _ base)) by lia. wp_steps. cbn [hm set_hm]. rewrite hset_ne, Hpat by lia. cbn [h_size].
    destruct (Z.eqb_spec (p.1 + p.2) b.1) as [Ht|Ht]; wp_steps; apply HQ; intros x; cbn [hm set_hm]; hsimp; rewrite ?Hbs, ?Hpat; hsimp.
    + rewrite u32_small by lia. hsimp. done.
    + done.
  - assert (hm s q.1 = mkhdr (next l2 base) q.2) as Hqat by (apply (chain_at _ _ _ (l1 ++ [p]) _ _ Hi); by rewrite He, <- app_assoc).
    assert (q ∈ fl) as Hqf by (destruct l1 as [|y l1]; injection He as _ ->; set_solver). pose proof (minv_in _ _ _ q Hi (or_introl Hqf)) as (Hq1 & Hq2 & Hq3).
    specialize (Hg2 q ltac:(set_solver)). specialize (Hl2p q ltac:(set_solver)).
    destruct (Z.eqb_spec (b.1 + b.2) q.1) as [Hn|Hn]; cbn [fst snd] in *; wp_steps; cbn [hm set_hm]; hsimp; rewrite ?Hpat, ?Hqat, ?Hbs; cbn [h_size h_ptr]; rewrite ?(u32_small (b.2 + q.2)) by lia.
    + destruct (Z.eqb_spec (p.1 + p.2) b.1) as [Ht|Ht]; wp_steps; apply HQ; intros x; cbn [hm set_hm]; hsimp; rewrite ?Hbs, ?Hpat, ?Hqat; hsimp.
      * rewrite u32_small by lia. apply hset_ext. intros y. apply hset_hset.
      * apply hset_ext. intros y. apply hset_hset.
    + destruct (Z.eqb_spec (p.1 + p.2) b.1) as [Ht|Ht]; wp_steps; apply HQ; intros x; cbn [hm set_hm]; hsimp; rewrite ?Hbs, ?Hpat, ?Hqat; hsimp.
      * rewrite u32_small by lia. hsimp. done.
      * done.
Qed.

(** Nothing but the headers of free blocks and of [b] is written. *)
Definition only_headers (fl : list blk) (s s' : um) : Prop :=
  brk s' = brk s /\ brk_limit s' = brk_limit s /\ forall u, (forall x, x ∈ nodes fl -> u <> x.1) -> hm s' u = hm s u.

Lemma wp_free b c s fl al1 al2 (Q : cpu -> um -> unit -> Prop) : minv s fl (al1 ++ b :: al2) ->
  (forall fl' s', minv s' fl' (al1 ++ al2) -> only_headers (b :: fl) s s' -> (exists y, y ∈ fl' /\ b.2 <= y.2) -> (length fl' <= S (length fl))%nat -> Q c s' tt) ->
  wp (free base (b.1 + 1)) c s Q.
Proof.
  intros Hi HQ. pose proof (mi_base _ _ _ Hi). pose proof (minv_in _ _ _ b Hi ltac:(right; set_solver)) as (Hb1 & Hb2 & _). unfold free. replace (b.1 + 1 - 1) with b.1 by lia.
  wp_step. eapply wp_find_place; [exact Hi|lia| |].
  { intros x Hx E. apply (other_header _ _ _ b x Hi); [set_solver|done|done]. }
  intros l1 p l2 He Hp Hl2. change (wp (free_at b.1 p.1) c s Q). eapply wp_free_at; [exact Hi|exact He|done|done|]. intros m' Hm'.
  destruct (merged_inv _ _ _ _ _ _ _ _ m' Hi He Hp Hl2 Hm') as (fl' & Hfl' & Hi'). apply (HQ fl'); [done| | |].
  - split_and!; [done|done|]. intros u Hu. cbn. rewrite Hm'. unfold freed_mem. destruct (merge_next b l2). assert (u <> b.1 /\ u <> p.1) as [? ?].
    { split; apply Hu; [set_solver|]. assert (p ∈ nodes fl) as [->|Hpf]%elem_of_cons by (rewrite He; set_solver); set_solver. }
    destruct (_ =? _); by rewrite !hset_ne.
  - destruct (place_gap _ _ _ _ _ _ _ _ Hi He Hp Hl2) as [Hgp Hg2]. pose proof (mi_pos _ _ _ Hi) as Hpos. apply Forall_app in Hpos as [Hpos _].
    destruct (sorted_at _ _ _ _ (mi_sorted _ _ _ Hi) Hpos He) as (_ & _ & Hp0). pose proof (mi_sorted _ _ _ Hi) as Hs. rewrite He in Hs. apply StronglySorted_app in Hs as (_ & _ & Hs).
    destruct (merged_spec b p l2 Hs) as (_ & _ & _ & _ & y & Hy & Hyb & Hy1); [|done|done|done|done|].
    { intros x Hx. split; [|by apply Hg2]. apply (minv_in _ _ _ x Hi). left. destruct l1 as [|z l1]; injection He as _ ->; set_solver. }
    exists y. split; [|done]. assert (y ∈ nodes fl') as [->|?]%elem_of_cons by (rewrite Hfl'; set_solver); [cbn in Hy1; lia|done].
  - apply (f_equal length) in He, Hfl'. cbn [length] in He, Hfl'. rewrite length_app in He, Hfl'. cbn [length] in He. unfold merged, merge_next in Hfl'.
    destruct l2 as [|q l2]; [|destruct (_ =? q.1)]; destruct (_ =? _); cbn [length] in *; lia.
Qed.

(** * [morecore] *)

Lemma tiles_grow l lo hi n : 0 <= n -> lo <= hi -> tiles l lo hi -> tiles (l ++ [(hi, n)]) lo (hi + n).
Proof.
  intros Hn Hlo Ht u. rewrite cover_app, Ht. cbn [cover]. destruct (covers_cases (hi, n) u); cbn [fst snd] in *; destruct (Z.leb_spec lo u), (Z.ltb_spec u hi), (Z.ltb_spec u (hi + n)); cbn; lia.
Qed.

Lemma wp_morecore nu c s fl al (Q : cpu -> um -> Z -> Prop) : minv s fl al -> 0 <= nu < 2 ^ 27 ->
  (brk_limit s < brk s + Z.max nu 4096 * 16 -> Q c s 0) ->
  (forall fl' s', minv s' fl' al -> brk_limit s' = brk_limit s -> (exists y, y ∈ fl' /\ nu <= y.2) -> (length fl' <= S (length fl))%nat ->
    (forall u, u < brk s / 16 -> (forall x, x ∈ nodes fl -> u <> x.1) -> hm s' u = hm s u) -> freep s' <> 0 -> Q c s' (freep s')) ->
  wp (morecore base nu) c s Q.
Proof.
  intros Hi Hnu HQ0 HQ. unfold morecore. set (n := if nu <? 4096 then 4096 else nu). assert (n = Z.max nu 4096) as Hn by (unfold n; destruct (Z.ltb_spec nu 4096); lia).
  pose proof (mi_brk _ _ _ Hi) as (Hmod & Hlim & Hh0). pose proof (mi_base _ _ _ Hi) as Hb. wp_step. unfold wp at 1, sbrk. rewrite s32_small by lia. rewrite (proj2 (Z.gtb_lt _ _)) by lia.
  destruct (Z.leb_spec (brk s + n * 16) (brk_limit s)) as [Hok|Hno]; [|cbn; apply HQ0; lia].
  rewrite (proj2 (Z.eqb_neq (brk s) (-1))) by dlia. unfold set_size. wp_steps. cbn [hm set_hm].
  set (hp := brk s / 16). set (s1 := set_hm _ _). assert (minv s1 fl (al ++ [(hp, n)])) as Hi1.
  { assert (brk s1 = brk s + n * 16) as Hb1 by done. assert (brk s1 / 16 = hp + n) as Hdiv by (rewrite Hb1, Z.div_add by lia; done).
    assert (forall x, x ∈ nodes fl \/ x ∈ al -> x.1 <> hp) as Hne.
    { intros x Hx. assert (x = (base, 0) \/ x ∈ fl \/ x ∈ al) as [->|Hx'] by (rewrite elem_of_cons in Hx; tauto); [cbn; unfold hp; lia|]. destruct (minv_in _ _ _ x Hi Hx'). unfold hp. lia. }
    split; [done| | |apply Hi| | | |apply Hi].
    - rewrite Hdiv, Hb1. cbn [brk_limit s1 set_hm]. split_and!; [|lia|lia|unfold hp; lia]. by rewrite Z.mod_add.
    - eapply chain_frame; [|apply (mi_chain _ _ _ Hi)]. intros x Hx. cbn. apply hset_ne. by apply Hne; left.
    - rewrite app_assoc. apply Forall_app. split; [apply Hi|]. apply Forall_singleton. cbn. lia.
    - rewrite app_assoc, Hdiv. apply tiles_grow; [lia|done|apply Hi].
    - intros x [Hx|Hx]%elem_of_app; cbn; [rewrite hset_ne by (by apply Hne; right); by apply (mi_size _ _ _ Hi)|]. apply list_elem_of_singleton in Hx as ->. cbn. by rewrite hset_eq. }
  change (hp + 1) with ((hp, n).1 + 1). eapply wp_free; [exact Hi1|]. rewrite app_nil_r. intros fl' s' Hi' (Ho1 & Ho2 & Ho3) (y & Hy & Hy2) Hlen. wp_steps. apply (HQ fl'); [done|by rewrite Ho2|exists y; cbn in Hy2; split; [done|lia]|done| |].
  - intros u Hu Hx. rewrite Ho3; [cbn; rewrite hset_ne by (unfold hp; lia); done|]. intros x. rewrite !elem_of_cons. intros [->|[->|Hxf]]; [apply Hx; set_solver|cbn; unfold hp; lia|apply Hx; set_solver].
  - destruct (mi_freep _ _ _ Hi') as [z [[= -> _]|Hz]%elem_of_cons]; [lia|]. destruct (minv_in _ _ _ _ Hi' (or_introl Hz)) as (_ & Hz1 & _). cbn in Hz1. lia.
Qed.

(** * [malloc] *)

(** The units of the allocated blocks are as they were. *)
Definition kept (al : list blk) (s s' : um) : Prop := forall b u, b ∈ al -> b.1 <= u < b.1 + b.2 -> hm s' u = hm s u.

Lemma kept_trans al s s1 s2 : kept al s s1 -> kept al s1 s2 -> kept al s s2.
Proof. intros H1 H2 b u Hb Hu. rewrite (H2 b u Hb Hu). by apply (H1 b u). Qed.

Lemma alloc_not_header s fl al b u x : minv s fl al -> b ∈ al -> b.1 <= u < b.1 + b.2 -> x ∈ nodes fl -> u <> x.1.
Proof.
  intros Hi Hb Hu [->|Hx]%elem_of_cons E.
  - destruct (minv_in _ _ _ b Hi (or_intror Hb)) as (_ & H1 & _). pose proof (mi_base _ _ _ Hi). cbn in E. lia.
  - apply list_elem_of_split in Hx as (f1 & f2 & ->). pose proof (mi_tiles _ _ _ Hi) as Ht. rewrite <- app_assoc in Ht. cbn [app] in Ht.
    pose proof (minv_in _ _ _ x Hi ltac:(left; set_solver)) as (? & _). apply (tiles_one _ _ _ _ x x.1 Ht ltac:(lia) b ltac:(set_solver)). lia.
Qed.

(** What is left of a round: the blocks from [p] to the one [freep] points to. *)
Record walk (s : um) (fl : list blk) (nu prevp p : Z) (todo : list blk) : Prop := {
  wk_head : exists z rest, todo = (p, z) :: rest;
  wk_chain : exists e, chain (hm s) todo e;
  wk_last : exists z, last todo = Some (freep s, z);
  wk_dup : NoDup todo;
  wk_in x : x ∈ todo -> x ∈ nodes fl;
  wk_fits x : x ∈ nodes fl -> nu <= x.2 -> x ∈ todo;
  wk_prev : exists z, (prevp, z) ∈ nodes fl /\ h_ptr (hm s prevp) = p;
}.

Lemma nodes_dup s fl al : minv s fl al -> NoDup (nodes fl).*1.
Proof.
  intros Hi. pose proof (mi_sorted _ _ _ Hi) as Hs. assert (forall x, x ∈ nodes fl -> 0 <= x.2) as Hn.
  { intros x [->|Hx]%elem_of_cons; [done|]. destruct (minv_in _ _ _ x Hi (or_introl Hx)). lia. }
  clear Hi. induction (nodes fl) as [|x l IH]; [apply NoDup_nil_2|]. apply StronglySorted_cons in Hs as [Hf Hs]. rewrite fmap_cons. apply NoDup_cons. split; [|apply IH; [done|intros; apply Hn; set_solver]].
  intros (y & E & Hy)%list_elem_of_fmap. rewrite Forall_forall in Hf. specialize (Hf y Hy). unfold above in Hf. pose proof (Hn x ltac:(set_solver)). lia.
Qed.

Lemma nodes_inj s fl al x y : minv s fl al -> x ∈ nodes fl -> y ∈ nodes fl -> x.1 = y.1 -> x = y.
Proof.
  intros Hi Hx Hy E. pose proof (nodes_dup _ _ _ Hi) as Hd. apply list_elem_of_lookup_1 in Hx as [i Hx], Hy as [j Hy]. assert (i = j) as ->; [|congruence].
  eapply NoDup_lookup; [exact Hd| |]; rewrite list_lookup_fmap; [by rewrite Hx|by rewrite Hy, E].
Qed.

Lemma walk_start s fl al nu : minv s fl al -> exists todo, walk s fl nu (freep s) (h_ptr (hm s (freep s))) todo /\ (length todo <= S (length fl))%nat.
Proof.
  intros Hi. destruct (mi_freep _ _ _ Hi) as [z Hf]. pose proof Hf as Hf'. apply list_elem_of_split in Hf as (l1 & l2 & He). exists (l2 ++ l1 ++ [(freep s, z)]).
  pose proof (mi_chain _ _ _ Hi) as Hc. rewrite He in Hc. apply chain_app in Hc as [Hc1 [Hcf Hc2]]. cbn [fst snd next] in *. rewrite Hcf. cbn [h_ptr].
  assert (next (l1 ++ [(freep s, z)]) (next l2 base) = base) as Hhd by (destruct l1 as [|y l1]; injection He as <- _; cbn; congruence).
  assert (l2 ++ l1 ++ [(freep s, z)] ≡ₚ nodes fl) as Hperm by (rewrite He, app_assoc; solve_Permutation).
  split; [|apply Permutation_length in Hperm; rewrite Hperm; done]. split.
  - destruct l2 as [|[q qz] l2]; [|by eexists _, _]. cbn [next app] in *. destruct (l1 ++ [(freep s, z)]) as [|[y yz] l]; [cbn in Hhd; by eexists _, _|]. cbn in Hhd. subst. by eexists _, _.
  - exists (next l2 base). apply chain_app. rewrite Hhd. split; [done|]. apply chain_app. split; [done|]. cbn. by rewrite Hcf.
  - exists z. rewrite app_assoc. apply last_snoc.
  - rewrite Hperm. eapply NoDup_fmap_1. apply (nodes_dup _ _ _ Hi).
  - intros x. by rewrite Hperm.
  - intros x Hx _. by rewrite Hperm.
  - exists z. split; [done|]. by rewrite Hcf.
Qed.

Lemma cover_perm l l' u : l ≡ₚ l' -> cover l u = cover l' u.
Proof. induction 1 as [|x l l' _ IH|x y l|l l' l'' _ IH1 _ IH2]; cbn; lia. Qed.

Lemma addr_mid (l1 l2 : list blk) b x : NoDup (l1 ++ b :: l2).*1 -> x ∈ l1 ++ l2 -> x.1 <> b.1.
Proof.
  rewrite fmap_app, fmap_cons. intros Hd Hx E. rewrite <- Permutation_middle in Hd. apply NoDup_cons in Hd as [Hd _]. apply Hd. rewrite <- E, <- fmap_app. apply list_elem_of_fmap. eauto.
Qed.

(** A block that fits exactly leaves the list. *)
Lemma take_all s fl al prevp p z m' : minv s fl al -> (p, z) ∈ nodes fl -> 1 <= z -> (exists zp, (prevp, zp) ∈ nodes fl) -> h_ptr (hm s prevp) = p ->
  (forall x, m' x = hset (hm s) prevp (mkhdr (h_ptr (hm s p)) (h_size (hm s prevp))) x) ->
  exists fl', minv (mkum m' prevp (brk s) (brk_limit s)) fl' ((p, z) :: al) /\ kept al s (mkum m' prevp (brk s) (brk_limit s)).
Proof.
  intros Hi Hp Hz [zp Hpr] Hptr Hm'. pose proof Hpr as Hpr'. apply list_elem_of_split in Hpr as (c & d & He). pose proof (chain_at _ _ _ _ _ _ Hi He) as Hat. cbn [fst snd] in Hat.
  assert (p <> base) as Hpb. { apply elem_of_cons in Hp as [[= -> ->]|Hp]; [lia|]. apply (sorted_base _ _ (mi_sorted _ _ _ Hi)) in Hp. cbn in Hp. lia. }
  rewrite Hat in Hptr. cbn [h_ptr] in Hptr. destruct d as [|[p' z'] d]; [done|]. cbn in Hptr. subst p'.
  assert (z' = z) as -> by (assert ((p, z') = (p, z)) as [=] by (apply (nodes_inj _ _ _ _ _ Hi); [rewrite He; set_solver|done|done]); done).
  assert (nodes fl = (c ++ [(prevp, zp)]) ++ (p, z) :: d) as He2 by (by rewrite <- app_assoc). pose proof (chain_at _ _ _ _ _ _ Hi He2) as Hpat. cbn [fst snd] in Hpat.
  assert (exists fl', nodes fl' = c ++ (prevp, zp) :: d) as [fl' Hfl'] by (destruct c as [|y c]; [injection He as <- <- He; by exists d|injection He as <- He; by exists (c ++ (prevp, zp) :: d)]).
  assert (forall x, x ∈ nodes fl' -> x ∈ nodes fl) as Hsub by (intros x; rewrite Hfl', He; set_solver).
  assert (fl ≡ₚ (p, z) :: fl') as Hperm.
  { apply (Permutation_cons_inv (a := (base, 0))). rewrite He. transitivity ((p, z) :: nodes fl'); [rewrite Hfl'; solve_Permutation|solve_Permutation]. }
  assert (fl ++ al ≡ₚ fl' ++ (p, z) :: al) as Hall by (rewrite Hperm; solve_Permutation).
  pose proof (mi_chain _ _ _ Hi) as Hc. rewrite He in Hc. apply chain_app in Hc as [Hc1 [_ [_ Hc2]]]. pose proof (nodes_dup _ _ _ Hi) as Hd. rewrite He in Hd.
  exists fl'. assert (forall b u, b ∈ al -> b.1 <= u < b.1 + b.2 -> m' u = hm s u) as Hkept.
  { intros b u Hb Hu. rewrite Hm'. apply hset_ne. exact (alloc_not_header _ _ _ _ _ (prevp, zp) Hi Hb Hu Hpr'). }
  split; [|exact Hkept]. split; cbn [hm freep brk brk_limit].
  - apply Hi.
  - apply Hi.
  - rewrite Hfl'. apply chain_app. cbn [chain next fst snd] in *. split_and!; [|rewrite Hm', hset_eq, Hat, Hpat; done|];
      (eapply chain_frame; [|done]); intros x Hx; rewrite Hm'; apply hset_ne; apply (addr_mid _ _ _ x Hd); set_solver.
  - rewrite Hfl'. pose proof (mi_sorted _ _ _ Hi) as Hs. rewrite He in Hs. apply StronglySorted_app in Hs as (H1 & H2 & H3). apply StronglySorted_cons in H3 as [H3 [_ H4]%StronglySorted_cons].
    apply StronglySorted_app. split_and!; [intros x y Hx Hy; apply H1; set_solver|done|]. apply StronglySorted_cons. by apply Forall_cons in H3 as [_ H3].
  - rewrite <- Hall. apply Hi.
  - intros u. rewrite <- (mi_tiles _ _ _ Hi u). by apply cover_perm.
  - intros b [->|Hb]%elem_of_cons; cbn [fst snd]; [rewrite Hm', hset_ne, Hpat; [done|]; apply (addr_mid c ((p, z) :: d) (prevp, zp) (p, z) Hd); set_solver|]. rewrite (Hkept b b.1 Hb); [by apply (mi_size _ _ _ Hi)|]. destruct (minv_in _ _ _ b Hi (or_intror Hb)). lia.
  - exists zp. rewrite Hfl'. set_solver.
Qed.

(** The tail of a larger block is cut off. *)
Lemma take_tail s fl al prevp p z nu m' h : minv s fl al -> (p, z) ∈ nodes fl -> 1 <= nu < z -> (exists zp, (prevp, zp) ∈ nodes fl) -> h_size h = nu ->
  (forall x, m' x = hset (hset (hm s) p (mkhdr (h_ptr (hm s p)) (z - nu))) (p + (z - nu)) h x) ->
  exists fl', minv (mkum m' prevp (brk s) (brk_limit s)) fl' ((p + (z - nu), nu) :: al) /\ kept al s (mkum m' prevp (brk s) (brk_limit s)).
Proof.
  intros Hi Hp Hz [zp Hpr] Hh Hm'. pose proof Hp as Hp'. apply elem_of_cons in Hp as [[= -> ->]|Hpf]; [lia|]. apply list_elem_of_split in Hpf as (a & b & He).
  set (r := p + (z - nu)) in *. set (fl' := a ++ (p, z - nu) :: b). exists fl'. pose proof (nodes_dup _ _ _ Hi) as Hd. pose proof (mi_chain _ _ _ Hi) as Hc. rewrite He in Hc.
  change (chain (hm s) (((base, 0) :: a) ++ (p, z) :: b) base) in Hc. apply chain_app in Hc as [Hc1 [Hpc Hc2]]. cbn [fst snd next] in *.
  assert (p <= r < p + z) as Hr by (unfold r; lia). rewrite He in Hd. change (NoDup (((base, 0) :: a) ++ (p, z) :: b).*1) in Hd.
  assert (forall x, x ∈ nodes (a ++ b) -> x.1 <> p /\ x.1 <> r) as Hne.
  { intros x Hx. split; [exact (addr_mid ((base, 0) :: a) b (p, z) x Hd Hx)|]. pose proof (mi_tiles _ _ _ Hi) as Ht. rewrite He, <- app_assoc in Ht. cbn [app] in Ht.
    apply elem_of_cons in Hx as [->|Hx]; [destruct (minv_in _ _ _ (p, z) Hi ltac:(left; rewrite He; set_solver)) as (_ & H1 & _); pose proof (mi_base _ _ _ Hi); cbn in *; lia|].
    intros E. destruct (minv_in _ _ _ x Hi ltac:(left; rewrite He; set_solver)) as (Hx1 & _). apply (tiles_one a _ _ _ (p, z) r Ht Hr x); [set_solver|lia]. }
  assert (forall x, x ∈ al -> forall u, x.1 <= u < x.1 + x.2 -> u <> p /\ u <> r) as Hna.
  { intros x Hx u Hu. split; [exact (alloc_not_header _ _ _ _ _ (p, z) Hi Hx Hu Hp')|]. intros ->. pose proof (mi_tiles _ _ _ Hi) as Ht. rewrite He, <- app_assoc in Ht. cbn [app] in Ht.
    apply (tiles_one a _ _ _ (p, z) r Ht Hr x); [set_solver|done]. }
  assert (forall x u, x ∈ al -> x.1 <= u < x.1 + x.2 -> m' u = hm s u) as Hkept by (intros x u Hx Hu; destruct (Hna x Hx u Hu); rewrite Hm', !hset_ne by done; done).
  split; [|exact Hkept]. split; cbn [hm freep brk brk_limit].
  - apply Hi.
  - apply Hi.
  - change (chain m' (((base, 0) :: a) ++ (p, z - nu) :: b) base). apply chain_app. split; [change (chain m' (nodes a) p)|cbn [chain fst snd]; split].
    + eapply chain_frame; [|exact Hc1]. intros x Hx. destruct (Hne x ltac:(set_solver)). by rewrite Hm', !hset_ne.
    + rewrite Hm', hset_ne, hset_eq by (unfold r; lia). by rewrite Hpc.
    + eapply chain_frame; [|exact Hc2]. intros x Hx. destruct (Hne x ltac:(set_solver)). by rewrite Hm', !hset_ne.
  - pose proof (mi_sorted _ _ _ Hi) as Hs. rewrite He in Hs. change (StronglySorted above (((base, 0) :: a) ++ (p, z) :: b)) in Hs. change (StronglySorted above (((base, 0) :: a) ++ (p, z - nu) :: b)).
    apply StronglySorted_app in Hs as (H1 & H2 & H3). apply StronglySorted_cons in H3 as [H3 H4]. apply StronglySorted_app. split_and!; [|done|].
    + intros x y Hx [->|Hy]%elem_of_cons; [apply (H1 x (p, z)); set_solver|apply H1; set_solver].
    + apply StronglySorted_cons. split; [|done]. eapply Forall_impl; [exact H3|]. intros x Hx. unfold above in *. cbn in *. lia.
  - pose proof (mi_pos _ _ _ Hi) as Hpos. rewrite He in Hpos. unfold fl'. rewrite !Forall_app, !Forall_cons in *. cbn [fst snd] in *. naive_solver lia.
  - intros u. rewrite <- (mi_tiles _ _ _ Hi u), He. unfold fl'. rewrite !cover_app. cbn [cover]. pose proof (covers_merge p (z - nu) nu u ltac:(lia) ltac:(lia)) as Hcv. fold r in Hcv.
    replace (z - nu + nu) with z in Hcv by lia. lia.
  - intros x [->|Hx]%elem_of_cons; cbn [fst snd]; [by rewrite Hm', hset_eq|]. rewrite (Hkept x x.1 Hx); [by apply (mi_size _ _ _ Hi)|]. destruct (minv_in _ _ _ x Hi (or_intror Hx)). lia.
  - rewrite He in Hpr. destruct (decide (prevp = p)) as [->|Hnp]; [exists (z - nu); unfold fl'; set_solver|]. exists zp. unfold fl'. set_solver.
Qed.

(** The body of the loop of [malloc]. *)
Definition malloc_body (nunits : Z) (st : Z * Z) : M um (Z * Z + Z) :=
  let '(prevp, p) := st in
  sz <- get_size p ;;
  if sz >=? nunits then
    r <- (if sz =? nunits then
        q <- get_ptr p ;; set_ptr prevp q ;; ret p
      else
        set_size p (u32 (sz - nunits)) ;;
        set_size (p + (sz - nunits)) nunits ;;
        ret (p + (sz - nunits))) ;;
    modify (set_freep prevp) ;;
    ret (inr (r + 1))
  else
    fp <- gets freep ;;
    if p =? fp then
      r <- morecore base nunits ;;
      if r =? 0 then ret (inr 0) else
      q <- get_ptr r ;;
      ret (inl (r, q))
    else
      q <- get_ptr p ;;
      ret (inl (p, q)).

Lemma walk_size s fl al nu prevp p z rest : minv s fl al -> walk s fl nu prevp p ((p, z) :: rest) -> hm s p = mkhdr (next rest (h_ptr (hm s p))) z /\ (p, z) ∈ nodes fl.
Proof.
  intros Hi Hw. assert ((p, z) ∈ nodes fl) as Hin by (apply (wk_in _ _ _ _ _ _ Hw); set_solver). split; [|done].
  destruct (wk_chain _ _ _ _ _ _ Hw) as [e [Hc _]]. cbn in Hc. rewrite Hc. cbn. by destruct rest.
Qed.

(** A block is taken. *)
Lemma wp_fit_take nu c s fl al prevp p z rest (Q : cpu -> um -> Z * Z + Z -> Prop) : minv s fl al -> walk s fl nu prevp p ((p, z) :: rest) -> 1 <= nu <= z ->
  (forall fl' s' b, minv s' fl' (b :: al) -> kept al s s' -> b.2 = nu -> brk_limit s' = brk_limit s -> Q c s' (inr (b.1 + 1))) -> wp (malloc_body nu (prevp, p)) c s Q.
Proof.
  intros Hi Hw Hz HQ. destruct (walk_size _ _ _ _ _ _ _ _ Hi Hw) as [Hat Hin]. destruct (wk_prev _ _ _ _ _ _ Hw) as (zp & Hpr & Hptr).
  assert (0 <= z < 2 ^ 32) as Hzr. { apply elem_of_cons in Hin as [[= -> ->]|Hin]; [lia|]. pose proof (minv_in _ _ _ _ Hi (or_introl Hin)) as (H1 & H2 & H3). cbn in *. pose proof (mi_brk _ _ _ Hi). pose proof (mi_base _ _ _ Hi). dlia. }
  unfold malloc_body, get_size, get_ptr, set_size, set_ptr. wp_step. wp_step. rewrite Hat. cbn [h_size]. rewrite Z.geb_leb, (proj2 (Z.leb_le nu z)) by lia. destruct (Z.eqb_spec z nu) as [->|Hne].
  - wp_steps. cbn [set_hm hm set_freep freep brk brk_limit]. destruct (take_all s fl al prevp p nu _ Hi Hin ltac:(lia) (ex_intro _ zp Hpr) Hptr (fun x => eq_refl)) as (fl' & Hi' & Hk). exact (HQ fl' _ (p, nu) Hi' Hk eq_refl eq_refl).
  - wp_steps. cbn [set_hm hm set_freep freep brk brk_limit]. rewrite u32_small by lia.
    match goal with |- Q c (set_freep _ (set_hm ?m _)) _ => destruct (take_tail s fl al prevp p z nu m (m (p + (z - nu))) Hi Hin ltac:(lia) (ex_intro _ zp Hpr)) as (fl' & Hi' & Hk) end;
      [by rewrite hset_eq|intros x; by rewrite hset_eq|].
    exact (HQ fl' _ (p + (z - nu), nu) Hi' Hk eq_refl eq_refl).
Qed.

(** One step further. *)
Lemma walk_step s fl al nu prevp p z rest : minv s fl al -> walk s fl nu prevp p ((p, z) :: rest) -> z < nu -> p <> freep s ->
  exists q zq rest', rest = (q, zq) :: rest' /\ h_ptr (hm s p) = q /\ walk s fl nu p q rest.
Proof.
  intros Hi Hw Hz Hne. destruct (walk_size _ _ _ _ _ _ _ _ Hi Hw) as [Hat Hin]. destruct Hw as [_ [e Hc] [zl Hl] Hd Hin' Hfit _]. destruct rest as [|[q zq] rest]; [cbn in Hl; congruence|].
  assert (h_ptr (hm s p) = q) as Hq by (by rewrite Hat). exists q, zq, rest. split_and!; [done|done|]. apply NoDup_cons in Hd as [_ Hd]. split; [by eexists _, _|exists e; apply Hc|by exists zl|done| | |].
  - intros x Hx. apply Hin'. set_solver.
  - intros x Hx Hnu. apply (Hfit x Hx) in Hnu as Hx'. apply elem_of_cons in Hx' as [->|Hx']; [cbn in Hnu; lia|done].
  - by exists z.
Qed.

(** The round is over: no block fits. *)
Lemma walk_end s fl al nu prevp p z rest : minv s fl al -> walk s fl nu prevp p ((p, z) :: rest) -> z < nu -> p = freep s -> forall x, x ∈ nodes fl -> x.2 < nu.
Proof.
  intros Hi Hw Hz Hp x Hx. destruct (Z.lt_ge_cases x.2 nu) as [|Hge]; [done|exfalso]. apply (wk_fits _ _ _ _ _ _ Hw x Hx) in Hge as Hin.
  destruct (wk_last _ _ _ _ _ _ Hw) as [zl Hl]. destruct rest as [|y rest]; [apply list_elem_of_singleton in Hin as ->; cbn in Hge; lia|].
  rewrite last_cons_cons in Hl. apply last_Some in Hl as (l' & Hl). pose proof (wk_dup _ _ _ _ _ _ Hw) as [Hnd _]%NoDup_cons. apply Hnd.
  assert ((p, z) = (freep s, zl)) as ->; [|rewrite Hl; set_solver]. apply (nodes_inj _ _ _ _ _ Hi); [|..|done]; apply (wk_in _ _ _ _ _ _ Hw); [set_solver|rewrite Hl; set_solver].
Qed.

Lemma geb_false a b : a < b -> (a >=? b) = false.
Proof. intros. rewrite Z.geb_leb. by apply Z.leb_gt. Qed.

(** What a call of [malloc] gives: a new block of [nu] units, the others untouched; or 0, when
    no free block is long enough and the kernel refuses to grow the heap. *)
Definition malloc_post (nu : Z) (s : um) (fl al : list blk) (s' : um) (r : Z) : Prop :=
  brk_limit s' = brk_limit s /\
  ((exists fl' b, minv s' fl' (b :: al) /\ kept al s s' /\ b.2 = nu /\ r = b.1 + 1) \/
   (r = 0 /\ s' = s /\ (forall x, x ∈ fl -> x.2 < nu) /\ brk_limit s < brk s + Z.max nu 4096 * 16)).

(** The part of a round after a block long enough was added. *)
Lemma wp_search_found nu al todo : 1 <= nu -> forall fuel c s fl prevp p (Q : cpu -> um -> Z -> Prop), minv s fl al -> walk s fl nu prevp p todo -> (exists y, y ∈ nodes fl /\ nu <= y.2) ->
  (length todo <= fuel)%nat -> (forall fl' s' b, minv s' fl' (b :: al) -> kept al s s' -> b.2 = nu -> brk_limit s' = brk_limit s -> Q c s' (b.1 + 1)) ->
  wp (loop fuel (malloc_body nu) (prevp, p)) c s Q.
Proof.
  intros Hnu. induction todo as [|x rest IH]; intros fuel c s fl prevp p Q Hi Hw Hy Hf HQ; [destruct (wk_head _ _ _ _ _ _ Hw) as (? & ? & ?); done|].
  destruct (wk_head _ _ _ _ _ _ Hw) as (z & rest' & [= -> ->]). destruct fuel as [|fuel]; [cbn in Hf; lia|]. rewrite loop_S. wp_step. destruct (Z.le_gt_cases nu z) as [Hz|Hz].
  - eapply wp_fit_take; [done|exact Hw|lia|]. intros fl' s' b Hi' Hk Hb Hl. wp_steps. by apply (HQ fl' s' b).
  - destruct (walk_size _ _ _ _ _ _ _ _ Hi Hw) as [Hat _]. destruct (decide (p = freep s)) as [Hp|Hp].
    + destruct Hy as (y & Hy & Hny). pose proof (walk_end _ _ _ _ _ _ _ _ Hi Hw ltac:(lia) Hp y Hy). lia.
    + destruct (walk_step _ _ _ _ _ _ _ _ Hi Hw ltac:(lia) Hp) as (q & zq & r & -> & Hq & Hw'). unfold malloc_body at 1, get_size, get_ptr. wp_steps. rewrite Hat. cbn [h_size h_ptr]. rewrite geb_false by lia. wp_steps. rewrite (proj2 (Z.eqb_neq _ _) Hp). wp_steps. rewrite Hat.
      cbn [next fst h_ptr] in *. eapply IH; [exact Hi|exact Hw'|done|cbn in *; lia|done].
Qed.

(** The first round. *)
Lemma wp_fit_search nu al todo : 1 <= nu < 2 ^ 27 -> forall fuel c s fl prevp p (Q : cpu -> um -> Z -> Prop), minv s fl al -> walk s fl nu prevp p todo ->
  (length todo + S (S (length fl)) <= fuel)%nat -> (forall s' r, malloc_post nu s fl al s' r -> Q c s' r) -> wp (loop fuel (malloc_body nu) (prevp, p)) c s Q.
Proof.
  intros Hnu. induction todo as [|x rest IH]; intros fuel c s fl prevp p Q Hi Hw Hf HQ; [destruct (wk_head _ _ _ _ _ _ Hw) as (? & ? & ?); done|].
  destruct (wk_head _ _ _ _ _ _ Hw) as (z & rest' & [= -> ->]). destruct fuel as [|fuel]; [cbn in Hf; lia|]. rewrite loop_S. wp_step. destruct (Z.le_gt_cases nu z) as [Hz|Hz].
  - eapply wp_fit_take; [done|exact Hw|lia|]. intros fl' s' b Hi' Hk Hb Hl. wp_steps. apply HQ. split; [done|]. left. by exists fl', b.
  - destruct (walk_size _ _ _ _ _ _ _ _ Hi Hw) as [Hat _]. unfold malloc_body at 1, get_size, get_ptr. wp_steps. rewrite Hat. cbn [h_size h_ptr]. rewrite geb_false by lia. wp_steps. destruct (Z.eqb_spec p (freep s)) as [Hp|Hp].
    + wp_step. eapply wp_morecore; [done|lia| |].
      * intros Hlim. wp_steps. apply HQ. split; [done|]. right. split_and!; [done|done| |done]. intros y Hy. eapply walk_end; [exact Hi|exact Hw|lia|done|set_solver].
      * intros fl' s' Hi' Hlim (y & Hy & Hny) Hlen Hkeep Hfp. rewrite (proj2 (Z.eqb_neq _ _) Hfp). wp_steps. destruct (walk_start s' fl' al nu Hi') as (todo & Hw' & Hlen').
        eapply wp_search_found; [lia|exact Hi'|exact Hw'|exists y; split; [set_solver|done]|cbn in *; lia|]. intros fl2 s2 b Hi2 Hk Hb Hl. apply HQ. split; [congruence|]. left. exists fl2, b. split_and!; [done| |done|done].
        eapply kept_trans; [|exact Hk]. intros b' u Hb' Hu. apply Hkeep; [destruct (minv_in _ _ _ b' Hi (or_intror Hb')); lia|]. intros x Hx. by apply (alloc_not_header s fl al b').
    + destruct (walk_step _ _ _ _ _ _ _ _ Hi Hw ltac:(lia) Hp) as (q & zq & r & -> & Hq & Hw'). wp_steps. rewrite Hat. cbn [next fst h_ptr] in *. eapply IH; [exact Hi|exact Hw'|cbn in *; lia|done].
Qed.

(** A state of a program that has not called [malloc] yet: the heap is empty. *)
Definition heap_start (s : um) : Prop := freep s = 0 /\ 0 < base < h0 /\ brk s = 16 * h0 /\ brk s <= brk_limit s <= 2 ^ 35.

Definition heap_ok (s : um) (al : list blk) : Prop := (exists fl, minv s fl al) \/ (heap_start s /\ al = []).

(** The first call makes [base] the only block of the list. *)
Lemma heap_init s : heap_start s -> minv (set_hm (hset (hset (hm s) base (mkhdr base (h_size (hm s base)))) base (mkhdr base 0)) (set_freep base s)) [] [].
Proof.
  intros (Hf & Hb & Hbrk & Hlim). assert (brk s / 16 = h0) as Hd by (rewrite Hbrk, Z.mul_comm, Z.div_mul; lia). split; cbn.
  - done.
  - rewrite Hd. split_and!; [|lia|lia|lia]. rewrite Hbrk, Z.mul_comm. apply Z.mod_mul. lia.
  - by rewrite hset_eq.
  - apply StronglySorted_cons. split; [by apply Forall_nil|constructor].
  - by apply Forall_nil.
  - intros u. rewrite Hd. cbn. destruct (Z.leb_spec h0 u), (Z.ltb_spec u h0); cbn; lia.
  - set_solver.
  - exists 0. set_solver.
Qed.

Lemma fuel_enough s fl al (todo : list blk) : minv s fl al -> (length todo <= S (length fl))%nat -> (length todo + S (S (length fl)) <= 2 * list_bound base s + 3)%nat.
Proof. intros Hi Hl. pose proof (minv_length _ _ _ Hi) as H. cbn [length] in H. lia. Qed.

(** The whole call, the first one or a later one. *)
Lemma wp_malloc nbytes c s al (Q : cpu -> um -> Z -> Prop) : heap_ok s al -> 1 <= units nbytes < 2 ^ 27 ->
  (forall s' r, brk_limit s' = brk_limit s -> kept al s s' ->
     (exists b, heap_ok s' (b :: al) /\ b.2 = units nbytes /\ r = b.1 + 1) \/
     (r = 0 /\ heap_ok s' al /\ brk_limit s < brk s + Z.max (units nbytes) 4096 * 16) -> Q c s' r) ->
  wp (malloc base nbytes) c s Q.
Proof.
  intros Hok Hnu HQ. unfold malloc. set (nu := units nbytes) in *. wp_steps. destruct Hok as [[fl Hi]|[Hst ->]].
  - assert (freep s <> 0) as Hf.
    { pose proof (mi_base _ _ _ Hi). destruct (mi_freep _ _ _ Hi) as [z [[= -> _]|Hz]%elem_of_cons]; [lia|]. destruct (minv_in _ _ _ _ Hi (or_introl Hz)) as (_ & Hz1 & _). cbn in Hz1. lia. }
    rewrite (proj2 (Z.eqb_neq _ _) Hf). unfold get_ptr. wp_steps. destruct (walk_start s fl al nu Hi) as (todo & Hw & Hl).
    eapply wp_fit_search; [lia|exact Hi|exact Hw|by eapply fuel_enough|]. intros s' r (Hlim & [(fl' & b & Hi' & Hk & Hb & Hr)|(Hr & -> & _ & Hno)]); apply HQ; [done|done| |done|done|].
    + left. exists b. split_and!; [left; by exists fl'|done|done].
    + right. split_and!; [done|left; by exists fl|done].
  - pose proof Hst as (Hf & _). rewrite Hf. cbn [Z.eqb]. unfold set_ptr, set_size, get_ptr. wp_steps. pose proof (heap_init s Hst) as Hi. set (s0 := set_hm _ (set_freep base s)) in Hi.
    match goal with |- wp _ _ ?s1 _ => replace s1 with s0 by (unfold s0; cbn; unfold set_hm; cbn; by rewrite hset_eq) end.
    destruct (walk_start s0 [] [] nu Hi) as (todo & Hw & Hl). cbn [freep] in Hw. wp_steps.
    eapply wp_fit_search; [lia|exact Hi|exact Hw|by eapply fuel_enough|]. intros s' r (Hlim & [(fl' & b & Hi' & Hk & Hb & Hr)|(Hr & -> & _ & Hno)]); apply HQ; [done|by intros ???%not_elem_of_nil| |done|by intros ???%not_elem_of_nil|].
    + left. exists b. split_and!; [left; by exists fl'|done|done].
    + right. split_and!; [done|left; by exists []|done].
Qed.

(** What is in a block, its header apart, is the program's. *)
Lemma store_ok s al b u h : heap_ok s al -> b ∈ al -> b.1 < u < b.1 + b.2 -> heap_ok (set_hm (hset (hm s) u h) s) al.
Proof.
  intros [[fl Hi]|[_ ->]] Hb Hu; [|by apply not_elem_of_nil in Hb]. left. exists fl. assert (forall x, x ∈ nodes fl -> x.1 <> u) as Hne.
  { intros x Hx E. apply (alloc_not_header s fl al b u x Hi Hb); [lia|done|done]. }
  split; try apply Hi.
  - eapply chain_frame; [|apply (mi_chain _ _ _ Hi)]. intros x Hx. cbn. apply hset_ne. by apply Hne.
  - intros x Hx. cbn. rewrite hset_ne; [by apply (mi_size _ _ _ Hi)|]. intros E. apply list_elem_of_split in Hb as (a1 & a2 & ->).
    pose proof (mi_tiles _ _ _ Hi) as Ht. rewrite app_assoc in Ht. destruct (minv_in _ _ _ x Hi (or_intror Hx)) as (Hx1 & _).
    apply elem_of_app in Hx as [Hx|[->|Hx]%elem_of_cons]; [|lia|]; apply (tiles_one _ _ _ _ b u Ht ltac:(lia) x); (set_solver || lia).
Qed.

Lemma wp_free_ok b c s al1 al2 (Q : cpu -> um -> unit -> Prop) : heap_ok s (al1 ++ b :: al2) ->
  (forall s', heap_ok s' (al1 ++ al2) -> kept (al1 ++ al2) s s' -> brk s' = brk s -> Q c s' tt) -> wp (free base (b.1 + 1)) c s Q.
Proof.
  intros [[fl Hi]|[_ E]] HQ; [|by destruct al1]. eapply wp_free; [exact Hi|]. intros fl' s' Hi' (Hb & Hl & Ho) _ _. apply HQ; [left; by exists fl'| |done].
  intros x u Hx Hu. apply Ho. intros y. rewrite !elem_of_cons. intros [->|[->|Hy]]; [apply (alloc_not_header s fl _ x u (base, 0) Hi); set_solver| |apply (alloc_not_header s fl _ x u y Hi); set_solver].
  intros ->. pose proof (mi_tiles _ _ _ Hi) as Ht. rewrite app_assoc in Ht. destruct (minv_in _ _ _ b Hi ltac:(right; set_solver)) as (Hb1 & _).
  apply (tiles_one _ _ _ _ b b.1 Ht ltac:(lia) x); [set_solver|done].
Qed.

(** Two blocks of a program have no unit in common, and lie in its heap. *)
Lemma heap_ok_disjoint s b al : heap_ok s (b :: al) -> h0 <= b.1 /\ (b.1 + b.2) * 16 <= brk s <= brk_limit s /\ forall x u, x ∈ al -> b.1 <= u < b.1 + b.2 -> ~ x.1 <= u < x.1 + x.2.
Proof.
  intros [[fl Hi]|[_ ?]]; [|done]. destruct (minv_in _ _ _ b Hi ltac:(right; set_solver)) as (_ & H1 & H2). split; [done|split].
  - pose proof (Z.mul_div_le (brk s) 16 ltac:(lia)). pose proof (mi_brk _ _ _ Hi). lia.
  - intros x u Hx Hu. pose proof (mi_tiles _ _ _ Hi) as Ht. by apply (tiles_one _ _ _ _ b u Ht Hu x ltac:(set_solver)).
Qed.

(** What the kernel lets the heap grow to may change from call to call. *)
Definition set_limit (l : Z) (s : um) : um := mkum (hm s) (freep s) (brk s) l.
Lemma limit_ok s al l : heap_ok s al -> brk s <= l <= 2 ^ 35 -> heap_ok (set_limit l s) al.
Proof.
  intros [[fl []]|[(Hf & Hb & Hbrk & _) ->]] Hl.
  - left. exists fl. split; try done. cbn. tauto.
  - by right.
Qed.

(** Requests whose length in bytes, with the header, fits the [int] that [sbrk] takes. *)
Definition small_request (nbytes : Z) : Prop := 0 <= nbytes <= 2 ^ 31 - 32.
Lemma small_units nbytes : small_request nbytes -> 1 <= units nbytes < 2 ^ 27.
Proof. unfold small_request, units. intros Hn. rewrite u32_small by dlia. dlia. Qed.

(** The states a program gets to by calling [malloc] and [free] and by writing to its blocks,
    with the blocks it has. *)
Inductive uses : um -> list blk -> Prop :=
| uses_start s : heap_start s -> uses s []
| uses_malloc s al c nbytes c' s' r : uses s al -> small_request nbytes -> malloc base nbytes c s = Ret c' s' r ->
    uses s' (if r =? 0 then al else (r - 1, units nbytes) :: al)
| uses_free s al1 b al2 c c' s' : uses s (al1 ++ b :: al2) -> free base (b.1 + 1) c s = Ret c' s' tt -> uses s' (al1 ++ al2)
| uses_store s al b u h : uses s al -> b ∈ al -> b.1 < u < b.1 + b.2 -> uses (set_hm (hset (hm s) u h) s) al
| uses_kernel s al l : uses s al -> brk s <= l <= 2 ^ 35 -> uses (set_limit l s) al.

Lemma heap_ok_base s al : heap_ok s al -> 0 < h0.
Proof. intros [[fl Hi]|[(_ & H & _) _]]; [pose proof (mi_base _ _ _ Hi)|]; lia. Qed.

Lemma uses_ok s al : uses s al -> heap_ok s al.
Proof.
  induction 1 as [s Hs|s al c n c' s' r _ IH Hn Hm|s al1 b al2 c c' s' _ IH Hf|s al b u h _ IH Hb Hu|s al l _ IH Hl].
  - by right.
  - eapply (wp_inv _ _ _ (fun _ s' r => heap_ok s' (if r =? 0 then al else (r - 1, units n) :: al))); [|exact Hm]. eapply wp_malloc; [exact IH|by apply small_units|]. intros s1 r1 _ _ [(b & Hok & Hb & ->)|(-> & Hok & _)]; [|done].
    destruct (heap_ok_disjoint _ _ _ Hok) as (H1 & _). pose proof (heap_ok_base _ _ Hok). rewrite (proj2 (Z.eqb_neq _ _)) by lia. rewrite <- Hb. replace (b.1 + 1 - 1) with b.1 by lia. by destruct b.
  - eapply (wp_inv _ _ _ (fun _ s' _ => heap_ok s' (al1 ++ al2))); [|exact Hf]. eapply wp_free_ok; [exact IH|]. done.
  - by eapply store_ok.
  - by apply limit_ok.
Qed.
End inv.

(** C7: The allocator of user programs (K&R's, with a circular list of free blocks). In every
    state a program gets to by allocating, freeing and writing to its blocks: a call of [malloc]
    of at most 2^31 - 32 bytes returns, and gives a block of the length asked for inside the heap that overlaps no block the
    program has, or 0, and that only when the kernel refuses to grow the heap, which it may decide anew
    at every call; a call of [free] returns; and neither changes anything in the blocks that stay
    allocated. (Longer requests overflow the [int] that [sbrk] takes.) *)
Theorem malloc_free_correct base h0 s al c : uses base h0 s al ->
  (forall nbytes, small_request nbytes -> exists s' r, malloc base nbytes c s = Ret c s' r /\ kept al s s' /\
     ((r = 0 /\ brk_limit s < brk s + Z.max (units nbytes) 4096 * 16) \/
      (h0 < r /\ (r - 1 + units nbytes) * 16 <= brk s' <= brk_limit s /\
       forall x u, x ∈ al -> r - 1 <= u < r - 1 + units nbytes -> ~ x.1 <= u < x.1 + x.2))) /\
  (forall al1 b al2, al = al1 ++ b :: al2 -> exists s', free base (b.1 + 1) c s = Ret c s' tt /\ kept (al1 ++ al2) s s' /\ brk s' = brk s).
Proof.
  intros Hok%uses_ok. split.
  - intros n Hn. apply wp_run. eapply wp_malloc; [exact Hok|by apply small_units|]. intros s' r Hl Hk Hr. split_and!; [done|done|]. destruct Hr as [(b & Hb & Hz & ->)|(-> & _ & Hr)]; [right|by left].
    destruct (heap_ok_disjoint _ _ _ _ _ Hb) as (H1 & H2 & H3). replace (b.1 + 1 - 1) with b.1 by lia. rewrite <- Hz, <- Hl. split_and!; [lia|apply H2|apply H2|done].
  - intros al1 b al2 ->. destruct (wp_run (free base (b.1 + 1)) c s (fun s' _ => kept (al1 ++ al2) s s' /\ brk s' = brk s)) as (s' & [] & Hs' & H); [|by exists s'].
    eapply wp_free_ok; [exact Hok|]. done.
Qed.

(** A program that allocates twice, writes to its blocks and frees the first. *)
Definition user_cpu : cpu := mkcpu [] 1 0 [] 0 [].
Definition demo_start : um := mkum (fun _ => mkhdr 0 0) 0 32 (2 ^ 20).
Definition ran {A} (m : M um A) (s : um) : um := match m user_cpu s with Ret _ s' _ => s' | _ => s end.
Definition result {A} (m : M um A) (s : um) : option A := match m user_cpu s with Ret _ _ a => Some a | _ => None end.
Definition left_cpu {A} (m : M um A) (s : um) : cpu := match m user_cpu s with Ret c _ _ => c | _ => user_cpu end.

Lemma ran_eq {A} (m : M um A) s a : result m s = Some a -> m user_cpu s = Ret (left_cpu m s) (ran m s) a.
Proof. unfold result, left_cpu, ran. destruct (m user_cpu s); congruence. Qed.

Definition demo_one : um := ran (malloc 1 100) demo_start.
Definition demo_two : um := ran (malloc 1 20) demo_one.
Definition demo_written : um := set_hm (hset (hm demo_two) 4088 (mkhdr 7 7)) demo_two.
Definition demo_freed : um := ran (free 1 4091) demo_written.

Lemma malloc_free_correct_witness : uses 1 2 demo_freed [(4087, 3)] /\
  exists s' r, malloc 1 5000 user_cpu demo_freed = Ret user_cpu s' r /\ kept [(4087, 3)] demo_freed s'.
Proof.
  assert (uses 1 2 demo_freed [(4087, 3)]) as H.
  { refine (uses_free 1 2 demo_written [(4087, 3)] (4090, 8) [] user_cpu _ _ _ (ran_eq _ _ _ _)); [|vm_compute; reflexivity].
    refine (uses_store 1 2 demo_two [(4087, 3); (4090, 8)] (4087, 3) 4088 (mkhdr 7 7) _ _ _); [|set_solver|cbn; lia].
    refine (uses_malloc 1 2 demo_one [(4090, 8)] user_cpu 20 _ _ 4088 _ _ (ran_eq _ _ _ _)); [|unfold small_request; lia|vm_compute; reflexivity].
    refine (uses_malloc 1 2 demo_start [] user_cpu 100 _ _ 4091 _ _ (ran_eq _ _ _ _)); [|unfold small_request; lia|vm_compute; reflexivity].
    apply uses_start. by vm_compute. }
  split; [exact H|]. destruct (malloc_free_correct 1 2 _ _ user_cpu H) as [Hm _]. destruct (Hm 5000) as (s' & r & Hr & Hk & _); [unfold small_request; lia|]. exists s', r. exact (conj Hr Hk).
Defined.

(** * Requests that are too long *)

(** The [int] that [sbrk] gets is at most 16: it returns the end of the heap without growing it
    by more than one unit. *)
Lemma wp_sbrk_wrapped nu c s (Q : cpu -> um -> Z -> Prop) : 2 ^ 27 <= nu <= 2 ^ 28 + 1 -> brk s + 16 <= brk_limit s ->
  (forall e, e <= brk s + 16 -> Q c (mkum (hm s) (freep s) e (brk_limit s)) (brk s)) -> wp (sbrk (nu * 16)) c s Q.
Proof.
  intros Hnu Hlim HQ. unfold wp, sbrk. assert (s32 (nu * 16) = nu * 16 - 2 ^ 32) as -> by (unfold s32; dlia). destruct (Z.gtb_spec (nu * 16 - 2 ^ 32) 0).
  - assert (nu = 2 ^ 28 + 1) as -> by lia. rewrite (proj2 (Z.leb_le _ _)) by lia. apply HQ. lia.
  - destruct ((nu * 16 - 2 ^ 32 <? 0) && _); [apply HQ; lia|]. destruct s. apply HQ. cbn. lia.
Qed.

Section overflow.
Context (base h0 : Z) (Hbase : 0 < base < h0).

(** A heap whose list has only [base]. *)
Definition empty_list (s : um) : Prop := freep s = base /\ hm s base = mkhdr base 0.

Lemma wp_find_place_empty s c (Q : cpu -> um -> Z -> Prop) : empty_list s -> Q c s base -> wp (find_place base h0) c s Q.
Proof.
  intros [Hf Hb] HQ. unfold find_place, get_ptr. wp_step. wp_step. wp_step. wp_step. rewrite loop_S, Hf. wp_steps. rewrite Hb. cbn [h_ptr].
  rewrite !Z.gtb_ltb, Z.geb_leb, (proj2 (Z.ltb_lt base h0)), (proj2 (Z.ltb_ge h0 base)), Z.leb_refl by lia. cbn [andb orb]. wp_steps. exact HQ.
Qed.

(** The new block and [base] are the list. *)
Lemma wp_morecore_wrapped nu c s (Q : cpu -> um -> Z -> Prop) : empty_list s -> brk s = 16 * h0 -> 2 ^ 27 <= nu <= 2 ^ 28 + 1 -> brk s + 16 <= brk_limit s ->
  (forall m e, m base = mkhdr h0 0 -> m h0 = mkhdr base nu -> e <= brk s + 16 -> Q c (mkum m base e (brk_limit s)) base) ->
  wp (morecore base nu) c s Q.
Proof.
  intros [Hf Hb] Hbrk Hnu Hlim HQ. unfold morecore. rewrite (proj2 (Z.ltb_ge nu 4096)) by lia. wp_step. apply wp_sbrk_wrapped; [done..|]. intros e He.
  rewrite (proj2 (Z.eqb_neq (brk s) (-1))) by lia. assert (brk s / 16 = h0) as -> by (rewrite Hbrk, Z.mul_comm, Z.div_mul; lia). unfold set_size. wp_steps. cbn [hm set_hm].
  unfold free. replace (h0 + 1 - 1) with h0 by lia. wp_step. apply wp_find_place_empty; [split; [done|]; cbn; by rewrite hset_ne by lia|]. unfold get_size, get_ptr, set_ptr, set_size. wp_steps.
  cbn [hm set_hm]. rewrite hset_eq, hset_ne, Hb by lia. cbn [h_size h_ptr]. rewrite (proj2 (Z.eqb_neq (h0 + nu) base)) by lia. wp_steps. cbn [hm set_hm]. rewrite !hset_ne, Hb by lia. cbn [h_size].
  rewrite Z.add_0_r, (proj2 (Z.eqb_neq base h0)) by lia. wp_steps. cbn [hm set_hm freep set_freep brk brk_limit]. apply HQ; [| |done].
  - cbn. by rewrite hset_eq, !hset_ne, Hb by lia.
  - cbn. by rewrite hset_ne, !hset_eq by lia.
Qed.

Lemma wp_malloc_wrapped nbytes c s (Q : cpu -> um -> Z -> Prop) : heap_start base h0 s -> 2 ^ 27 <= units nbytes <= 2 ^ 28 + 1 -> brk s + 16 <= brk_limit s ->
  (forall m e, m base = mkhdr base 0 -> h_size (m h0) = units nbytes -> e <= brk s + 16 -> Q c (mkum m base e (brk_limit s)) (h0 + 1)) ->
  wp (malloc base nbytes) c s Q.
Proof.
  intros (Hf & _ & Hbrk & _) Hnu Hlim HQ. unfold malloc. set (nu := units nbytes) in *. wp_steps. rewrite Hf. cbn [Z.eqb]. unfold get_ptr, get_size, set_ptr, set_size. wp_steps. cbn [hm set_hm set_freep freep]. rewrite !hset_eq. cbn [h_ptr].
  set (s1 := set_hm _ _). assert (empty_list s1) as He1 by (split; [done|]; cbn; by rewrite hset_eq). pose proof He1 as [Hf1 Hb1].  rewrite Nat.add_comm. cbn [Nat.add].
  rewrite loop_S. wp_steps. rewrite Hb1. cbn [h_size]. rewrite (geb_false 0) by lia. wp_steps. rewrite Hf1, Z.eqb_refl. wp_step. eapply wp_morecore_wrapped; [done|done|done|done|]. intros m e Hm1 Hm2 He.
  rewrite (proj2 (Z.eqb_neq base 0)) by lia. wp_steps. cbn [hm]. rewrite Hm1. cbn [h_ptr]. rewrite loop_S. wp_steps. cbn [hm]. rewrite Hm2. cbn [h_size]. rewrite Z.geb_leb, Z.leb_refl, Z.eqb_refl. wp_steps.
  apply HQ; [cbn; by rewrite hset_eq, Hm1, Hm2|cbn; by rewrite hset_ne, Hm2 by lia|done].
Qed.
End overflow.


