(* ===== verification/Uprog.v ===== *)
(** User programs: what a program does, as a tree of system calls (kernel/syscall.h,
    user/user.h), and how processes that run such programs interact.

    The system calls are given by what they promise a process: descriptors onto open files,
    directories found by the path walk that [namei] is proved to do, pipes of 512 bytes that
    block and report the end of file, [fork], [exec], [exit] and [wait]. The scheduler picks any
    process at every call; [fork] and [exec] may fail whenever the kernel chooses; a console delivers
    as much input as it likes. A program that is started with [exec] runs on its own until it
    exits with a status of its choice. *)
From S2P Require Import Prelude Memory Sleeplock Bio Log Fs State Process FsFile FsPath.

(** * Programs *)

Inductive call : Type -> Type :=
| Fork : call Z
| Wait : call (Z * Z)
| Pipe : call (Z * (Z * Z))
| Write (fd : Z) (buf : list Z) : call Z
| Read (fd n : Z) : call (Z * list Z)
| Close (fd : Z) : call Z
| Kill (pid : Z) : call Z
| Exec (path : list Z) (argv : list (list Z)) : call Z
| Open (path : list Z) (omode : Z) : call Z
| Fstat (fd : Z) : call (Z * stat)
| Unlink (path : list Z) : call Z
| Link (old new : list Z) : call Z
| Mkdir (path : list Z) : call Z
| Dup (fd : Z) : call Z
| Getpid : call Z
| Pause (n : Z) : call Z.

(** [Iter body s k] runs [body s], again with the next state as long as it returns one, and
    continues with [k] when it returns a result. *)
Inductive prog (A : Type) : Type :=
| Return (a : A)
| Exit (status : Z)
| Sys {X : Type} (c : call X) (k : X -> prog A)
| Iter {S B : Type} (body : S -> prog (S + B)) (s : S) (k : B -> prog A).
Arguments Return {A} _.
Arguments Exit {A} _.
Arguments Sys {A X} _ _.
Arguments Iter {A S B} _ _ _.

Fixpoint pbind {A B} (p : prog A) (f : A -> prog B) : prog B :=
  match p with
  | Return a => f a
  | Exit st => Exit st
  | Sys c k => Sys c (fun x => pbind (k x) f)
  | Iter body s k => Iter body s (fun b => pbind (k b) f)
  end.

(** One round of a loop. *)
Definition unroll {A S B} (body : S -> prog (S + B)) (s : S) (k : B -> prog A) : prog A :=
  pbind (body s) (fun r => match r with inl s' => Iter body s' k | inr b => k b end).

(** A call, then the rest of the program. *)
Definition seq_call {X A} (c : call X) (p : prog A) : prog A := Sys c (fun _ => p).

(** * Files *)

(** What an inode number stands for. *)
Record fnode := mkfnode { n_type : Z; n_nlink : Z; n_data : list Z }.

(** The entries of a directory, 16 bytes each, with their names as strings. *)
Definition dirent_at (d : list Z) (i : nat) : list Z := take 16 (drop (16 * i) d).
Definition dirents (d : list Z) : list (Z * list Z) :=
  (fun i => (de_inum (dirent_at d i), cstr DIRSIZ (de_name (dirent_at d i)))) <$> seq 0 (length d / 16).
Definition dir_entry (d : list Z) (name : list Z) : option Z :=
  match filter (fun e => e.1 <> 0 /\ e.2 = name) (dirents d) with e :: _ => Some e.1 | [] => None end.

(** Following the elements of a path from inode [j]. *)
Fixpoint walk (fs : Z -> option fnode) (j : Z) (es : list (list Z)) : option Z :=
  match es with
  | [] => Some j
  | e :: es =>
      match fs j with
      | Some n => if n_type n =? T_DIR then match dir_entry (n_data n) e with Some j => walk fs j es | None => None end else None
      | None => None
      end
  end.
Definition ROOT : Z := 1.
Definition resolve (fs : Z -> option fnode) (cwd : Z) (path : list Z) : option Z :=
  walk fs (if bool_decide (head path = Some slash) then ROOT else cwd) (elements path).

(** * Processes *)

(** An open file: a stream such as the console, an inode with an offset, or an end of a pipe. *)
Inductive ofile :=
| OStream (n : nat)
| OInode (inum off : Z)
| ORead (pipe : nat)
| OWrite (pipe : nat).

(** What programs have asked of the kernel that these processes do not see the effect of. *)
Inductive event :=
| EExec (pid : Z) (path : list Z) (argv : list (list Z))
| EKill (pid r : Z)
| EUnlink (path : list Z) (r : Z)
| ELink (old new : list Z) (r : Z)
| EMkdir (path : list Z) (r : Z)
| EPause (n r : Z).

Record world := mkworld {
  w_fs : Z -> option fnode;
  w_files : gmap nat ofile;
  w_pipes : gmap nat (list Z);
  w_next : nat;
  w_in : gmap nat (list Z);
  w_out : gmap nat (list Z);
  w_log : list event;
  w_pid : Z }.

Inductive pstate :=
| Runs (p : prog unit)
| Command (path : list Z) (argv : list (list Z))
| Zombie (status : Z).
Record process := mkprocess { pr_state : pstate; pr_fds : list (option nat); pr_cwd : Z; pr_parent : option Z }.
Record config := mkconfig { procs : gmap Z process; wd : world }.

Definition PIPESIZE : Z := 512.

Definition set_state (st : pstate) (x : process) : process := mkprocess st (pr_fds x) (pr_cwd x) (pr_parent x).
Definition set_fds (F : list (option nat)) (x : process) : process := mkprocess (pr_state x) F (pr_cwd x) (pr_parent x).
Definition set_files (t : gmap nat ofile) (w : world) : world := mkworld (w_fs w) t (w_pipes w) (w_next w) (w_in w) (w_out w) (w_log w) (w_pid w).
Definition set_pipes (t : gmap nat (list Z)) (w : world) : world := mkworld (w_fs w) (w_files w) t (w_next w) (w_in w) (w_out w) (w_log w) (w_pid w).
Definition set_next (n : nat) (w : world) : world := mkworld (w_fs w) (w_files w) (w_pipes w) n (w_in w) (w_out w) (w_log w) (w_pid w).
Definition set_in (n : nat) (l : list Z) (w : world) : world := mkworld (w_fs w) (w_files w) (w_pipes w) (w_next w) (<[n := l]> (w_in w)) (w_out w) (w_log w) (w_pid w).
Definition add_out (n : nat) (l : list Z) (w : world) : world := mkworld (w_fs w) (w_files w) (w_pipes w) (w_next w) (w_in w) (alter (fun o => o ++ l) n (w_out w)) (w_log w) (w_pid w).
Definition add_log (e : event) (w : world) : world := mkworld (w_fs w) (w_files w) (w_pipes w) (w_next w) (w_in w) (w_out w) (w_log w ++ [e]) (w_pid w).
Definition set_pid (n : Z) (w : world) : world := mkworld (w_fs w) (w_files w) (w_pipes w) (w_next w) (w_in w) (w_out w) (w_log w) n.

(** Descriptors are the places of a list; the lowest that is free is given out. *)
Definition fd_slot (F : list (option nat)) (fd : Z) : option nat := if decide (0 <= fd) then mjoin (F !! Z.to_nat fd) else None.
Definition file_of (F : list (option nat)) (w : world) (fd : Z) : option ofile := i ← fd_slot F fd; w_files w !! i.
Definition fd_file (x : process) (w : world) (fd : Z) : option ofile := file_of (pr_fds x) w fd.
Fixpoint fd_put (i : nat) (F : list (option nat)) : option (Z * list (option nat)) :=
  match F with
  | [] => None
  | None :: F => Some (0, Some i :: F)
  | o :: F => match fd_put i F with Some (fd, F') => Some (fd + 1, o :: F') | None => None end
  end.

(** Whether some process has the file open. *)
Definition is_open (f : ofile) (c : config) : Prop :=
  exists pid x i, procs c !! pid = Some x /\ Some i ∈ pr_fds x /\ w_files (wd c) !! i = Some f.

(** Process [pid] goes on as [x] in the world [w]. *)
Definition goes (pid : Z) (x : process) (w : world) (c : config) : config := mkconfig (<[pid := x]> (procs c)) w.

(** A child whose parent exits has none. *)
Definition orphan (pid : Z) (x : process) : process :=
  if decide (pr_parent x = Some pid) then mkprocess (pr_state x) (pr_fds x) (pr_cwd x) None else x.
Definition exits (pid : Z) (st : Z) (x : process) (c : config) : config :=
  mkconfig (<[pid := mkprocess (Zombie st) [] (pr_cwd x) (pr_parent x)]> (orphan pid <$> procs c)) (wd c).

(** What the call [f] of process [pid], whose entry is [x], may lead to; [k] is the rest of the
    program. A call that leads nowhere blocks. *)
Definition call_step {X} (f : call X) (k : X -> prog unit) (pid : Z) (x : process) (c c' : config) : Prop :=
  let w := wd c in
  let back (r : X) (w : world) := goes pid (set_state (Runs (k r)) x) w c in
  match f in call X return (X -> prog unit) -> (X -> world -> config) -> Prop with
  | Fork => fun k back =>
      c' = back (-1) w \/
      let np := w_pid w in
      c' = mkconfig (<[np := mkprocess (Runs (k 0)) (pr_fds x) (pr_cwd x) (Some pid)]> (procs (back np w))) (set_pid (np + 1) w)
  | Wait => fun k back =>
      (exists q y st, procs c !! q = Some y /\ pr_parent y = Some pid /\ pr_state y = Zombie st /\
         c' = mkconfig (delete q (procs (back (q, st) w))) w) \/
      ((forall q y, procs c !! q = Some y -> pr_parent y <> Some pid) /\ c' = back (-1, 0) w)
  | Pipe => fun k back =>
      let i := w_next w in
      match fd_put i (pr_fds x) with
      | None => exists junk, c' = back (-1, junk) w
      | Some (fd0, F) =>
          match fd_put (S i) F with
          | None => exists junk, c' = back (-1, junk) w
          | Some (fd1, F) =>
              c' = goes pid (set_fds F (set_state (Runs (k (0, (fd0, fd1)))) x))
                     (set_next (S (S i)) (set_files (<[i := ORead i]> (<[S i := OWrite i]> (w_files w))) (set_pipes (<[i := []]> (w_pipes w)) w))) c
          end
      end
  | Write fd buf => fun k back =>
      match fd_file x w fd with
      | Some (OStream n) => c' = back (Z.of_nat (length buf)) (add_out n buf w)
      | Some (OWrite p) =>
          let q := default [] (w_pipes w !! p) in
          let m := Nat.min (Z.to_nat PIPESIZE - length q) (length buf) in
          (~ is_open (ORead p) c /\ buf <> [] /\ c' = back (-1) w) \/
          (buf = [] /\ c' = back 0 w) \/
          (is_open (ORead p) c /\ (0 < m)%nat /\
           let w := set_pipes (<[p := q ++ take m buf]> (w_pipes w)) w in
           c' = if Nat.eqb m (length buf) then back (Z.of_nat m) w
                else goes pid (set_state (Runs (Sys (Write fd (drop m buf)) (fun r => k (if r <? 0 then -1 else Z.of_nat m + r)))) x) w c)
      | Some (OInode _ _) => exists r, -1 <= r <= Z.of_nat (length buf) /\ c' = back r w
      | _ => c' = back (-1) w
      end
  | Read fd n => fun k back =>
      match fd_slot (pr_fds x) fd, fd_file x w fd with
      | Some _, Some (OStream i) =>
          let inp := default [] (w_in w !! i) in
          exists m, (m <= Nat.min (Z.to_nat n) (length inp))%nat /\ (m = 0%nat -> inp = [] \/ n <= 0) /\
            c' = back (Z.of_nat m, take m inp) (set_in i (drop m inp) w)
      | Some i, Some (OInode j off) =>
          let d := match w_fs w j with Some f => drop (Z.to_nat off) (n_data f) | None => [] end in
          let m := Nat.min (Z.to_nat n) (length d) in
          c' = back (Z.of_nat m, take m d) (set_files (<[i := OInode j (off + Z.of_nat m)]> (w_files w)) w)
      | Some _, Some (ORead p) =>
          let q := default [] (w_pipes w !! p) in
          let m := Nat.min (Z.to_nat n) (length q) in
          (q <> [] \/ ~ is_open (OWrite p) c) /\ c' = back (Z.of_nat m, take m q) (set_pipes (<[p := drop m q]> (w_pipes w)) w)
      | _, _ => c' = back (-1, []) w
      end
  | Close fd => fun k back =>
      match fd_file x w fd with
      | Some _ => c' = goes pid (set_fds (<[Z.to_nat fd := None]> (pr_fds x)) (set_state (Runs (k 0)) x)) w c
      | None => c' = back (-1) w
      end
  | Exec path argv => fun k back =>
      c' = back (-1) w \/ c' = goes pid (set_state (Command path argv) x) (add_log (EExec pid path argv) w) c
  | Open path omode => fun k back =>
      match (if omode =? 0 then resolve (w_fs w) (pr_cwd x) path else None) with
      | Some j =>
          match w_fs w j, fd_put (w_next w) (pr_fds x) with
          | Some _, Some (fd, F) =>
              c' = goes pid (set_fds F (set_state (Runs (k fd)) x)) (set_next (S (w_next w)) (set_files (<[w_next w := OInode j 0]> (w_files w)) w)) c
          | _, _ => c' = back (-1) w
          end
      | None => c' = back (-1) w
      end
  | Fstat fd => fun k back =>
      match fd_file x w fd with
      | Some (OInode j _) =>
          match w_fs w j with
          | Some n => c' = back (0, mkstat 1 j (n_type n) (n_nlink n) (Z.of_nat (length (n_data n)))) w
          | None => c' = back (-1, mkstat 0 0 0 0 0) w
          end
      | Some (OStream _) => exists st, c' = back (0, st) w
      | _ => c' = back (-1, mkstat 0 0 0 0 0) w
      end
  | Dup fd => fun k back =>
      match fd_slot (pr_fds x) fd, fd_file x w fd with
      | Some i, Some _ =>
          match fd_put i (pr_fds x) with
          | Some (fd', F) => c' = goes pid (set_fds F (set_state (Runs (k fd')) x)) w c
          | None => c' = back (-1) w
          end
      | _, _ => c' = back (-1) w
      end
  | Getpid => fun k back => c' = back pid w
  | Kill q => fun k back => exists r, (r = 0 \/ r = -1) /\ c' = back r (add_log (EKill q r) w)
  | Unlink p => fun k back => exists r, (r = 0 \/ r = -1) /\ c' = back r (add_log (EUnlink p r) w)
  | Link a b => fun k back => exists r, (r = 0 \/ r = -1) /\ c' = back r (add_log (ELink a b r) w)
  | Mkdir p => fun k back => exists r, (r = 0 \/ r = -1) /\ c' = back r (add_log (EMkdir p r) w)
  | Pause n => fun k back => exists r, (r = 0 \/ r = -1) /\ c' = back r (add_log (EPause n r) w)
  end k back.

(** What process [pid] may do next. *)
Definition proc_step (pid : Z) (x : process) (c c' : config) : Prop :=
  match pr_state x with
  | Runs (Return _) => c' = exits pid 0 x c
  | Runs (Exit st) => c' = exits pid st x c
  | Runs (Sys f k) => call_step f k pid x c c'
  | Runs (Iter body s k) => c' = goes pid (set_state (Runs (unroll body s k)) x) (wd c) c
  | Command _ _ => exists st, c' = exits pid st x c
  | Zombie _ => False
  end.
Definition step (c c' : config) : Prop := exists pid x, procs c !! pid = Some x /\ proc_step pid x c c'.

(** Every run from [c] ends, with all processes gone or zombies, in a state with [P]. *)
Inductive ends (P : config -> Prop) (c : config) : Prop :=
| ends_done : (forall pid x, procs c !! pid = Some x -> exists st, pr_state x = Zombie st) -> P c -> ends P c
| ends_step : (exists c', step c c') -> (forall c', step c c' -> ends P c') -> ends P c.

Lemma ends_mono (P Q : config -> Prop) c : (forall c, P c -> Q c) -> ends P c -> ends Q c.
Proof. intros H. induction 1 as [c Hf HP|c Hex Hall IH]; [apply ends_done; auto|by apply ends_step]. Qed.

(** * One process on its own *)

Section alone.
Context (pid cwd : Z) (par : option Z).

Definition alone (p : prog unit) (F : list (option nat)) (w : world) : config := mkconfig {[ pid := mkprocess (Runs p) F cwd par ]} w.

Lemma goes_alone st F p F0 w0 w : goes pid (mkprocess (Runs p) F cwd par) w (mkconfig {[ pid := mkprocess st F0 cwd par ]} w0) = alone p F w.
Proof. unfold goes, alone. cbn [procs]. by rewrite insert_singleton_eq. Qed.

Lemma goes_alone' p0 F p F0 w0 w : goes pid (mkprocess (Runs p) F cwd par) w (alone p0 F0 w0) = alone p F w.
Proof. apply goes_alone. Qed.

Lemma ends_alone P p F w : let x := mkprocess (Runs p) F cwd par in
  (exists c', proc_step pid x (alone p F w) c') -> (forall c', proc_step pid x (alone p F w) c' -> ends P c') -> ends P (alone p F w).
Proof.
  intros x [c1 H1] Hall. apply ends_step; [exists c1, pid, x; split; [apply lookup_singleton_eq|done]|].
  intros c' (q & y & Hq & Hs). cbn in Hq. apply lookup_singleton_Some in Hq as [<- <-]. by apply Hall.
Qed.

(** A call with one outcome. *)
Lemma ends_call1 P {X} (f : call X) k F w p1 F1 w1 :
  (forall c', call_step f k pid (mkprocess (Runs (Sys f k)) F cwd par) (alone (Sys f k) F w) c' <-> c' = alone p1 F1 w1) ->
  ends P (alone p1 F1 w1) -> ends P (alone (Sys f k) F w).
Proof. intros Hs He. apply ends_alone; cbn [proc_step pr_state]; [exists (alone p1 F1 w1); by apply Hs|]. by intros c' ->%Hs. Qed.

Lemma alone_iter P {S B} (body : S -> prog (S + B)) s k F w : ends P (alone (unroll body s k) F w) -> ends P (alone (Iter body s k) F w).
Proof.
  intros He. apply ends_alone; cbn [proc_step pr_state set_state pr_fds pr_cwd pr_parent]; [eauto|]. intros c' ->. unfold set_state. cbn [pr_fds pr_cwd pr_parent]. by rewrite goes_alone'.
Qed.

Lemma alone_exit (P : config -> Prop) st F w : P (mkconfig {[ pid := mkprocess (Zombie st) [] cwd par ]} w) -> par <> Some pid -> ends P (alone (Exit st) F w).
Proof.
  intros HP Hpar. apply ends_alone; cbn [proc_step pr_state]; [eauto|]. intros c' ->. unfold exits, alone. cbn [procs wd pr_cwd pr_parent]. rewrite map_fmap_singleton, insert_singleton_eq. apply ends_done; [|done].
  cbn. intros q y Hq. apply lookup_singleton_Some in Hq as [<- <-]. cbn. eauto.
Qed.

Lemma wd_alone p F w : wd (alone p F w) = w.
Proof. done. Qed.
Ltac norm := unfold call_step, set_state, set_fds, fd_file; cbv beta zeta; cbn [pr_state pr_fds pr_cwd pr_parent]; rewrite ?wd_alone, ?goes_alone'.
Ltac one := intros; eapply ends_call1; [intros c'; norm|].

Lemma alone_write P fd n l k F w : file_of F w fd = Some (OStream n) -> ends P (alone (k (Z.of_nat (length l))) F (add_out n l w)) -> ends P (alone (Sys (Write fd l) k) F w).
Proof. intros Hf He. one; [|exact He]. rewrite Hf, ?goes_alone'. done. Qed.
Lemma alone_getpid P k F w : ends P (alone (k pid) F w) -> ends P (alone (Sys Getpid k) F w).
Proof. intros He. one; [|exact He]. rewrite ?goes_alone'. done. Qed.
Lemma alone_close P fd k F w f : file_of F w fd = Some f -> ends P (alone (k 0) (<[Z.to_nat fd := None]> F) w) -> ends P (alone (Sys (Close fd) k) F w).
Proof. intros Hf He. one; [|exact He]. rewrite Hf, ?goes_alone'. done. Qed.
Lemma alone_open P path k F w j nd fd F' : resolve (w_fs w) cwd path = Some j -> w_fs w j = Some nd -> fd_put (w_next w) F = Some (fd, F') ->
  ends P (alone (k fd) F' (set_next (S (w_next w)) (set_files (<[w_next w := OInode j 0]> (w_files w)) w))) -> ends P (alone (Sys (Open path 0) k) F w).
Proof. intros Hr Hj Hf He. one; [|exact He]. rewrite Z.eqb_refl, Hr, Hj, Hf, ?goes_alone'. done. Qed.
Lemma alone_open_none P path k F w : resolve (w_fs w) cwd path ≫= w_fs w = None -> ends P (alone (k (-1)) F w) -> ends P (alone (Sys (Open path 0) k) F w).
Proof.
  intros Hr He. one; [|exact He]. rewrite Z.eqb_refl. destruct (resolve (w_fs w) cwd path) as [j|]; cbn in Hr; [rewrite Hr|]; by rewrite ?goes_alone'.
Qed.
Lemma alone_fstat P fd k F w j off nd : file_of F w fd = Some (OInode j off) -> w_fs w j = Some nd ->
  ends P (alone (k (0, mkstat 1 j (n_type nd) (n_nlink nd) (Z.of_nat (length (n_data nd))))) F w) -> ends P (alone (Sys (Fstat fd) k) F w).
Proof. intros Hf Hj He. one; [|exact He]. rewrite Hf, Hj, ?goes_alone'. done. Qed.
Lemma alone_read P fd k F w i j off nd n : fd_slot F fd = Some i -> w_files w !! i = Some (OInode j off) -> w_fs w j = Some nd ->
  let d := drop (Z.to_nat off) (n_data nd) in let m := Nat.min (Z.to_nat n) (length d) in
  ends P (alone (k (Z.of_nat m, take m d)) F (set_files (<[i := OInode j (off + Z.of_nat m)]> (w_files w)) w)) -> ends P (alone (Sys (Read fd n) k) F w).
Proof. intros Hs Hf Hj d m He. one; [|exact He]. unfold file_of. rewrite Hs. cbn [mbind option_bind]. rewrite Hf, Hj, ?goes_alone'. done. Qed.
Lemma alone_read_stream P fd k F w n i inp : file_of F w fd = Some (OStream i) -> w_in w !! i = Some inp -> 0 < n ->
  (forall m, (m <= Nat.min (Z.to_nat n) (length inp))%nat -> (m = 0%nat -> inp = []) -> ends P (alone (k (Z.of_nat m, take m inp)) F (set_in i (drop m inp) w))) ->
  ends P (alone (Sys (Read fd n) k) F w).
Proof.
  intros Hf Hi Hn He. assert (exists s, fd_slot F fd = Some s) as [s Hs] by (unfold file_of in Hf; destruct (fd_slot F fd); [eauto|done]).
  apply ends_alone; unfold proc_step; norm; rewrite Hs, Hf, Hi; cbn [default].
  - destruct inp as [|b inp]; [exists (goes pid (mkprocess (Runs (k (0, []))) F cwd par) (set_in i [] w) (alone (Sys (Read fd n) k) F w)), 0%nat|
      exists (goes pid (mkprocess (Runs (k (1, [b]))) F cwd par) (set_in i inp w) (alone (Sys (Read fd n) k) F w)), 1%nat]; (split; [cbn; lia|]); (split; [intros; auto; lia|]); cbn; by rewrite ?take_0, ?drop_0.
  - intros c' (m & Hm & H0 & ->). rewrite ?goes_alone, ?goes_alone'. apply He; [done|]. intros E. destruct (H0 E); [done|lia].
Qed.
End alone.
