(* ===== verification/Uprintf.v ===== *)
(** Formatted output of user programs, user/printf.c. Every character is a [write] of its
    own; the functions take the rest of the program as their last argument. *)
From stdpp Require Import pretty.
From S2P Require Import Prelude Memory Sleeplock Bio Log Fs State Process FsFile FsPath Uart Console Printf Uprog.

(** * The code *)

Definition digits : list Z := bytes_of "0123456789ABCDEF".
Definition digit (i : Z) : Z := default 0 (digits !! Z.to_nat i).

Definition putc {A} (fd c : Z) (k : prog A) : prog A := Sys (Write fd [u8 c]) (fun _ => k).

(** The [do] loop of [printint]; [x] is an [uint], so 32 rounds are enough. *)
Fixpoint fill_digits (fuel : nat) (x base : Z) (buf : list Z) : list Z :=
  match fuel with
  | O => buf
  | S n =>
      let buf := buf ++ [digit (x mod base)] in
      if negb (x / base =? 0) then fill_digits n (x / base) base buf else buf
  end.
Definition int_buf (xx base : Z) (sgn : bool) : list Z :=
  let neg := sgn && (xx <? 0) in
  let x := u32 (if neg then - xx else xx) in
  let buf := fill_digits 32 x base [] in
  if neg then buf ++ [45] else buf.

(** [while(--i >= 0) putc(fd, buf[i]);] *)
Fixpoint put_rev {A} (fd : Z) (i : nat) (buf : list Z) (k : prog A) : prog A :=
  match i with
  | O => k
  | S i => putc fd (default 0 (buf !! i)) (put_rev fd i buf k)
  end.
Definition printint {A} (fd xx base : Z) (sgn : bool) (k : prog A) : prog A :=
  let buf := int_buf xx base sgn in put_rev fd (length buf) buf k.

Fixpoint put_nibbles {A} (n : nat) (fd x : Z) (k : prog A) : prog A :=
  match n with
  | O => k
  | S n => putc fd (digit (Z.shiftr x 60)) (put_nibbles n fd (u64 (Z.shiftl x 4)) k)
  end.
Definition printptr {A} (fd x : Z) (k : prog A) : prog A := putc fd 48 (putc fd 120 (put_nibbles 16 fd x k)).

(** A string argument up to its NUL. *)
Fixpoint put_str {A} (fd : Z) (s : list Z) (k : prog A) : prog A :=
  match s with
  | [] => k
  | c :: s => if c =? 0 then k else putc fd c (put_str fd s k)
  end.

(** The arguments; a null string is [None]. Taking one that is not there or of another kind is
    undefined: the program is taken to hang. *)
Inductive arg := AInt (x : Z) | AStr (s : option (list Z)).
Definition undefined {A} : prog A := Iter (B := unit) (fun _ : unit => Return (inl tt)) tt (fun _ => Exit 0).

(** [pct] is the local [state]: whether the last character was a percent sign. *)
Fixpoint vprintf_from {A} (fd : Z) (pct : bool) (fmt : list Z) (ap : list arg) (k : prog A) : prog A :=
  match fmt with
  | [] => k
  | c :: fmt =>
      if c =? 0 then k
      else if negb pct then
        if c =? 37 then vprintf_from fd true fmt ap k
        else putc fd c (vprintf_from fd false fmt ap k)
      else if c =? 100 then
        match ap with AInt x :: ap => printint fd (s32 x) 10 true (vprintf_from fd false fmt ap k) | _ => undefined end
      else if c =? 108 then
        match ap with AInt x :: ap => printint fd (s32 x) 10 false (vprintf_from fd false fmt ap k) | _ => undefined end
      else if c =? 120 then
        match ap with AInt x :: ap => printint fd (s32 x) 16 false (vprintf_from fd false fmt ap k) | _ => undefined end
      else if c =? 112 then
        match ap with AInt x :: ap => printptr fd (u64 x) (vprintf_from fd false fmt ap k) | _ => undefined end
      else if c =? 115 then
        match ap with
        | AStr s :: ap => put_str fd (default (bytes_of "(null)") s) (vprintf_from fd false fmt ap k)
        | _ => undefined
        end
      else if c =? 99 then
        match ap with AInt x :: ap => putc fd x (vprintf_from fd false fmt ap k) | _ => undefined end
      else if c =? 37 then putc fd c (vprintf_from fd false fmt ap k)
      else putc fd 37 (putc fd c (vprintf_from fd false fmt ap k))
  end.
Definition vprintf {A} (fd : Z) (fmt : list Z) (ap : list arg) (k : prog A) : prog A := vprintf_from fd false fmt ap k.
Definition fprintf {A} (fd : Z) (fmt : string) (ap : list arg) (k : prog A) : prog A := vprintf fd (bytes_of fmt) ap k.
Definition printf {A} (fmt : string) (ap : list arg) (k : prog A) : prog A := vprintf 1 (bytes_of fmt) ap k.

(** * What is printed *)

Fixpoint puts {A} (fd : Z) (l : list Z) (k : prog A) : prog A :=
  match l with [] => k | c :: l => Sys (Write fd [c]) (fun _ => puts fd l k) end.

Lemma puts_app {A} fd l1 l2 (k : prog A) : puts fd (l1 ++ l2) k = puts fd l1 (puts fd l2 k).
Proof. induction l1 as [|c l1 IH]; cbn; [done|]. by rewrite IH. Qed.
Lemma pbind_puts {A B} fd l (k : prog A) (f : A -> prog B) : pbind (puts fd l k) f = puts fd l (pbind k f).
Proof. induction l as [|c l IH]; cbn; [done|]. by rewrite IH. Qed.

Lemma put_rev_puts {A} fd buf (k : prog A) : Forall (fun x => 0 <= x < 256) buf -> put_rev fd (length buf) buf k = puts fd (reverse buf) k.
Proof.
  induction buf as [|x buf IH] using rev_ind; intros Hb; [done|]. apply Forall_app in Hb as [Hb Hx]. apply Forall_cons in Hx as [Hx _]. rewrite length_app, Nat.add_comm, reverse_snoc. cbn [length Nat.add put_rev puts].
  rewrite lookup_app_r, Nat.sub_diag by lia. change ([x] !! 0%nat) with (Some x). unfold putc. change (default 0 (Some x)) with x. rewrite (u8_small x Hx), <- (IH Hb).
  assert (forall i, (i <= length buf)%nat -> put_rev fd i (buf ++ [x]) k = put_rev fd i buf k) as Hg; [|by rewrite (Hg (length buf))].
  induction i as [|i IHi]; intros Hi; cbn [put_rev]; [done|]. rewrite lookup_app_l, IHi by lia. done.
Qed.

Lemma digit_byte i : 0 <= digit i < 256.
Proof.
  unfold digit. destruct (digits !! Z.to_nat i) as [d|] eqn:E; cbn; [|lia]. apply list_elem_of_lookup_2 in E.
  assert (Forall (fun x => 0 <= x < 256) digits) as Hf by (vm_compute; repeat constructor; discriminate). rewrite Forall_forall in Hf. by apply Hf.
Qed.
Lemma ufill_digits_numeral fuel x base buf : fill_digits fuel x base buf = buf ++ numeral digit fuel x base.
Proof.
  revert x buf. induction fuel as [|k IH]; intros x buf; cbn [fill_digits numeral]; [by rewrite app_nil_r|]. destruct (_ =? 0); cbn [negb]; [done|].
  by rewrite IH, <- app_assoc.
Qed.
Lemma numeral_byte fuel x base : Forall (fun x => 0 <= x < 256) (numeral digit fuel x base).
Proof.
  revert x. induction fuel as [|n IH]; intros x; [constructor|]. cbn [numeral]. constructor; [apply digit_byte|]. by destruct (_ =? 0).
Qed.
Lemma int_buf_byte xx base sgn : Forall (fun x => 0 <= x < 256) (int_buf xx base sgn).
Proof.
  unfold int_buf. rewrite ufill_digits_numeral. destruct (sgn && _); [apply Forall_app; split; [|repeat constructor; lia]|]; apply numeral_byte.
Qed.

(** In base 10 the digits are the decimal notation. *)
Lemma digit_dec i : 0 <= i < 10 -> digit i = 48 + i.
Proof.
  intros Hi. assert (forallb (fun i => digit i =? 48 + i) (seqZ 0 10) = true) as Hf by (vm_compute; done).
  rewrite forallb_forall in Hf. apply Z.eqb_eq, Hf, list_elem_of_In, elem_of_seqZ. lia.
Qed.
Lemma int_buf_signed x : -2147483648 <= x < 2147483648 -> reverse (int_buf x 10 true) = bytes_of (pretty x).
Proof.
  intros Hx. unfold int_buf. rewrite ufill_digits_numeral. cbn [andb app]. destruct (Z.ltb_spec x 0) as [Hn|Hn]; rewrite u32_small by lia.
  - rewrite reverse_snoc, numeral_pretty, (pretty_neg x) by (exact digit_dec || lia). done.
  - apply numeral_pretty; [exact digit_dec|lia].
Qed.
Lemma int_buf_unsigned x : reverse (int_buf x 10 false) = bytes_of (pretty (u32 x)).
Proof. unfold int_buf. rewrite ufill_digits_numeral. cbn [andb app]. pose proof (u32_range x). apply numeral_pretty; [exact digit_dec|lia]. Qed.

(** A format is a sequence of these, with the arguments they take. *)
Inductive piece := Lit (l : list Z) | Dec (x : Z) | Long (x : Z) | Hex (x : Z) | Ptr (x : Z) | Str (s : option (list Z)) | Chr (x : Z) | Percent | Unknown (c : Z).

Definition piece_fmt (p : piece) : list Z :=
  match p with
  | Lit l => l | Dec _ => [37; 100] | Long _ => [37; 108] | Hex _ => [37; 120] | Ptr _ => [37; 112] | Str _ => [37; 115] | Chr _ => [37; 99] | Percent => [37; 37]
  | Unknown c => [37; c]
  end.
Definition piece_arg (p : piece) : list arg :=
  match p with Dec x | Long x | Hex x | Ptr x | Chr x => [AInt x] | Str s => [AStr s] | _ => [] end.
Fixpoint until0 (s : list Z) : list Z := match s with [] => [] | c :: s => if c =? 0 then [] else c :: until0 s end.
(** [n] hexadecimal digits of [x]. *)
Definition hex (n : nat) (x : Z) : list Z := (fun i => digit (x / 16 ^ (Z.of_nat n - 1 - i) mod 16)) <$> seqZ 0 (Z.of_nat n).
Definition piece_text (p : piece) : list Z :=
  match p with
  | Lit l => l
  | Dec x => bytes_of (pretty (s32 x))
  | Long x => bytes_of (pretty (u32 x))
  | Hex x => let n := Z.to_nat (Z.log2 (u32 x) / 4 + 1) in hex n (u32 x)
  | Ptr x => 48 :: 120 :: hex 16 (u64 x)
  | Str None => bytes_of "(null)"
  | Str (Some s) => until0 s
  | Chr x => [u8 x]
  | Percent => [37]
  | Unknown c => [37; c]
  end.
Definition piece_ok (p : piece) : Prop :=
  match p with
  | Lit l => Forall (fun x => 0 < x < 256 /\ x <> 37) l
  | Str (Some s) => Forall (fun x => 0 <= x < 256) s
  | Unknown c => 0 < c < 256 /\ c ∉ bytes_of "dlxpsc%"
  | _ => True
  end.

Lemma put_str_puts {A} fd s (k : prog A) : Forall (fun x => 0 <= x < 256) s -> put_str fd s k = puts fd (until0 s) k.
Proof.
  induction 1 as [|x s Hx Hs IH]; cbn; [done|]. destruct (x =? 0); cbn; [done|]. unfold putc. by rewrite (u8_small x Hx), IH.
Qed.

Lemma uint_buf_hex x : reverse (int_buf x 16 false) = hex (Z.to_nat (Z.log2 (u32 x) / 4 + 1)) (u32 x).
Proof. unfold int_buf. rewrite ufill_digits_numeral. cbn [andb app]. apply numeral_hex, u32_range. Qed.

Lemma nibbles_puts {A} n fd x (k : prog A) : (n <= 16)%nat -> 0 <= x < 18446744073709551616 ->
  put_nibbles n fd x k = puts fd ((fun i => digit (x / 16 ^ (15 - i) mod 16)) <$> seqZ 0 (Z.of_nat n)) k.
Proof.
  revert x. induction n as [|n IH]; intros x Hn Hx; [done|]. rewrite Nat2Z.inj_succ, seqZ_cons by lia. cbn [put_nibbles]. rewrite fmap_cons. cbn [puts]. unfold putc. rewrite IH; [|lia|apply u64_range].
  assert (digit (Z.shiftr x 60) = digit (x / 16 ^ (15 - 0) mod 16)) as ->.
  { rewrite Z.shiftr_div_pow2 by lia. change (16 ^ (15 - 0)) with (2 ^ 60). rewrite (Z.mod_small _ 16); [done|]. change (2 ^ 60) with 1152921504606846976. dlia. }
  rewrite u8_small by apply digit_byte. rewrite Z.pred_succ, <- (fmap_add_seqZ 1 0), <- list_fmap_compose. erewrite list_fmap_ext; [reflexivity|].
  intros j y Hj%list_elem_of_lookup_2%elem_of_seqZ. unfold compose. f_equal. rewrite Z.shiftl_mul_pow2 by lia. change (2 ^ 4) with 16. rewrite nibble_shift by lia. do 3 f_equal. lia.
Qed.
Lemma printptr_puts {A} fd x (k : prog A) : printptr fd (u64 x) k = puts fd (48 :: 120 :: hex 16 (u64 x)) k.
Proof. unfold printptr. rewrite nibbles_puts; [|lia|apply u64_range]. done. Qed.
Lemma printint_puts {A} fd xx base sgn (k : prog A) : printint fd xx base sgn k = puts fd (reverse (int_buf xx base sgn)) k.
Proof. apply put_rev_puts, int_buf_byte. Qed.

Lemma u32_s32 x : u32 (s32 x) = u32 x.
Proof. unfold s32, u32. dlia. Qed.

Lemma lit_puts {A} fd l fmt ap (k : prog A) : Forall (fun x => 0 < x < 256 /\ x <> 37) l -> vprintf_from fd false (l ++ fmt) ap k = puts fd l (vprintf_from fd false fmt ap k).
Proof.
  induction 1 as [|x l [Hx Hp] Hl IH]; cbn [app]; [done|]. cbn [vprintf_from negb puts]. rewrite (proj2 (Z.eqb_neq x 0)), (proj2 (Z.eqb_neq x 37)), IH by (done || lia). unfold putc. by rewrite u8_small by lia.
Qed.

Lemma piece_puts {A} p fd fmt ap (k : prog A) : piece_ok p ->
  vprintf_from fd false (piece_fmt p ++ fmt) (piece_arg p ++ ap) k = puts fd (piece_text p) (vprintf_from fd false fmt ap k).
Proof.
  destruct p as [l|x|x|x|x|[s|]|x| |u]; cbn [piece_ok piece_fmt piece_arg piece_text app]; intros Hok; try (cbn [vprintf_from Z.eqb Pos.eqb negb]).
  - by apply lit_puts.
  - by rewrite printint_puts, int_buf_signed by apply s32_range.
  - rewrite printint_puts, int_buf_unsigned, u32_s32. done.
  - rewrite printint_puts, uint_buf_hex, u32_s32. done.
  - apply printptr_puts.
  - cbn [default from_option]. by apply put_str_puts.
  - done.
  - done.
  - done.
  - destruct Hok as [Hr Hn]. assert (forall v, v ∈ bytes_of "dlxpsc%" -> (u =? v) = false) as Hne by (intros v Hv; apply Z.eqb_neq; by intros ->).
    rewrite (proj2 (Z.eqb_neq u 0)) by lia. rewrite (Hne 100), (Hne 108), (Hne 120), (Hne 112), (Hne 115), (Hne 99), (Hne 37) by (vm_compute; set_solver). unfold putc. by rewrite (u8_small u) by lia.
Qed.
Lemma vprintf_puts {A} ps fd (k : prog A) : Forall piece_ok ps ->
  vprintf fd (concat (piece_fmt <$> ps)) (concat (piece_arg <$> ps)) k = puts fd (concat (piece_text <$> ps)) k.
Proof.
  unfold vprintf. induction 1 as [|p ps Hp Hps IH]; [done|]. rewrite !fmap_cons. cbn [concat]. rewrite piece_puts by done. by rewrite IH, puts_app.
Qed.

(** * Printing by a process on its own *)

Lemma add_out_nil n w : add_out n [] w = w.
Proof.
  destruct w as [a b c d e f g h]. unfold add_out. cbn [w_fs w_files w_pipes w_next w_in w_out w_log w_pid]. f_equal.
  apply map_eq. intros m. destruct (decide (m = n)) as [->|Hne]; [|by rewrite lookup_alter_ne]. rewrite lookup_alter_eq. destruct (f !! n); cbn; [by rewrite app_nil_r|done].
Qed.
Lemma add_out_app n l1 l2 w : add_out n l2 (add_out n l1 w) = add_out n (l1 ++ l2) w.
Proof.
  unfold add_out. cbn [w_fs w_files w_pipes w_next w_in w_out w_log w_pid]. f_equal. apply map_eq. intros m.
  destruct (decide (m = n)) as [->|Hne]; [|by rewrite !lookup_alter_ne]. rewrite !lookup_alter_eq. destruct (w_out w !! n); cbn; [by rewrite app_assoc|done].
Qed.
Lemma alone_puts pid cwd par P fd n l k F w : file_of F w fd = Some (OStream n) -> ends P (alone pid cwd par k F (add_out n l w)) -> ends P (alone pid cwd par (puts fd l k) F w).
Proof.
  revert w. induction l as [|c l IH]; intros w Hf He; cbn [puts]; [by rewrite add_out_nil in He|]. eapply alone_write; [exact Hf|]. apply IH; [exact Hf|]. by rewrite add_out_app.
Qed.

(** C33: [vprintf], for a format of literal text and verbs and the arguments the verbs take, writes
    to the descriptor exactly the text of the format, a byte at a time: decimal notation for [%d] (signed) and [%l]
    (the low 32 bits, unsigned), hexadecimal without leading zeros for [%x], sixteen digits after
    0x for [%p], the string up to its NUL (or "(null)") for [%s], and an unknown verb as it is. *)
Theorem uprintf_correct {A} ps fd (k : prog A) : Forall piece_ok ps ->
  vprintf fd (concat (piece_fmt <$> ps)) (concat (piece_arg <$> ps)) k = puts fd (concat (piece_text <$> ps)) k.
Proof. apply vprintf_puts. Qed.

Lemma uprintf_correct_witness : printf "n=%d %s%q" [AInt (-42); AStr None] (Exit 0) = puts (A := unit) 1 (bytes_of "n=-42 (null)%q") (Exit 0).
Proof.
  pose proof (uprintf_correct [Lit (bytes_of "n="); Dec (-42); Lit [32]; Str None; Unknown 113] 1 (Exit (A := unit) 0)) as E. assert (concat (piece_text <$> [Lit (bytes_of "n="); Dec (-42); Lit [32]; Str None; Unknown 113]) = bytes_of "n=-42 (null)%q") as Et by (vm_compute; reflexivity).
  rewrite Et in E. apply E. repeat constructor; try lia; vm_compute; set_solver.
Defined.
