(* ===== verification/Utools.v ===== *)
(** The tools that read files and print: user/cat.c, user/wc.c, user/echo.c, and the ones that
    make one system call per argument: user/rm.c, user/mkdir.c, user/kill.c, user/ln.c,
    user/sleep.c. A program gets its arguments as the list of strings [argv]. *)
From stdpp Require Import pretty.
From S2P Require Import Prelude Memory Sleeplock Bio Log Fs State Process FsFile FsPath Uprog Uprintf.

Declare Scope prog_scope.
Notation "x <~ c ;; k" := (Sys c (fun x => k)) (at level 100, c at next level, right associativity) : prog_scope.
Notation "c ;;; k" := (Sys c (fun _ => k)) (at level 100, right associativity) : prog_scope.
#[local] Open Scope prog_scope.

(** * The programs *)

(** [cat(fd)]; [k] is what follows the call. *)
Definition cat (fd : Z) (k : prog unit) : prog unit :=
  Iter (fun _ : unit =>
    r <~ Read fd 512 ;; let '(n, buf) := r in
    if 0 <? n then
      r <~ Write 1 buf ;;
      if negb (r =? n) then fprintf 2 ("cat: write error" +:+ nl) [] (Exit 1) else Return (inl tt)
    else Return (inr n)) tt
  (fun n => if n <? 0 then fprintf 2 ("cat: read error" +:+ nl) [] (Exit 1) else k).
Fixpoint cat_files (args : list (list Z)) : prog unit :=
  match args with
  | [] => Exit 0
  | a :: args =>
      fd <~ Open a 0 ;;
      if fd <? 0 then fprintf 2 ("cat: cannot open %s" +:+ nl) [AStr (Some a)] (Exit 1)
      else cat fd (Close fd ;;; cat_files args)
  end.
Definition cat_main (argv : list (list Z)) : prog unit :=
  if (length argv <=? 1)%nat then cat 0 (Exit 0) else cat_files (tail argv).

(** The counters of [wc]: lines, words, characters and whether the last one was in a word. *)
Record wc_state := mkwc { wc_l : Z; wc_w : Z; wc_c : Z; wc_inword : bool }.
Definition separator (x : Z) : bool := bool_decide (x ∈ [32; 13; 9; 10; 11]).
Definition wc_char (s : wc_state) (x : Z) : wc_state :=
  let c := s32 (wc_c s + 1) in
  let l := if x =? 10 then s32 (wc_l s + 1) else wc_l s in
  if separator x then mkwc l (wc_w s) c false
  else if negb (wc_inword s) then mkwc l (s32 (wc_w s + 1)) c true
  else mkwc l (wc_w s) c (wc_inword s).
Definition wc (fd : Z) (name : list Z) (k : prog unit) : prog unit :=
  Iter (fun s : wc_state =>
    r <~ Read fd 512 ;; let '(n, buf) := r in
    if 0 <? n then Return (inl (foldl wc_char s buf)) else Return (inr (n, s))) (mkwc 0 0 0 false)
  (fun r : Z * wc_state => let '(n, s) := r in
    if n <? 0 then printf ("wc: read error" +:+ nl) [] (Exit 1)
    else printf ("%d %d %d %s" +:+ nl) [AInt (wc_l s); AInt (wc_w s); AInt (wc_c s); AStr (Some name)] k).
Fixpoint wc_files (args : list (list Z)) : prog unit :=
  match args with
  | [] => Exit 0
  | a :: args =>
      fd <~ Open a 0 ;;
      if fd <? 0 then printf ("wc: cannot open %s" +:+ nl) [AStr (Some a)] (Exit 1)
      else wc fd a (Close fd ;;; wc_files args)
  end.
Definition wc_main (argv : list (list Z)) : prog unit :=
  if (length argv <=? 1)%nat then wc 0 [] (Exit 0) else wc_files (tail argv).

Fixpoint echo_args (args : list (list Z)) : prog unit :=
  match args with
  | [] => Exit 0
  | a :: args => Write 1 a ;;; if (0 <? length args)%nat then Write 1 [32] ;;; echo_args args else Write 1 [10] ;;; echo_args args
  end.
Definition echo_main (argv : list (list Z)) : prog unit := echo_args (tail argv).

Fixpoint rm_files (args : list (list Z)) : prog unit :=
  match args with
  | [] => Exit 0
  | a :: args => r <~ Unlink a ;; if r <? 0 then fprintf 2 ("rm: %s failed to delete" +:+ nl) [AStr (Some a)] (Exit 0) else rm_files args
  end.
Definition rm_main (argv : list (list Z)) : prog unit :=
  if (length argv <? 2)%nat then fprintf 2 ("Usage: rm files..." +:+ nl) [] (Exit 1) else rm_files (tail argv).

Fixpoint mkdir_files (args : list (list Z)) : prog unit :=
  match args with
  | [] => Exit 0
  | a :: args => r <~ Mkdir a ;; if r <? 0 then fprintf 2 ("mkdir: %s failed to create" +:+ nl) [AStr (Some a)] (Exit 0) else mkdir_files args
  end.
Definition mkdir_main (argv : list (list Z)) : prog unit :=
  if (length argv <? 2)%nat then fprintf 2 ("Usage: mkdir files..." +:+ nl) [] (Exit 1) else mkdir_files (tail argv).

Definition ln_main (argv : list (list Z)) : prog unit :=
  match argv with
  | [_; old; new] =>
      r <~ Link old new ;;
      if r <? 0 then fprintf 2 ("link %s %s: failed" +:+ nl) [AStr (Some old); AStr (Some new)] (Exit 0) else Exit 0
  | _ => fprintf 2 ("Usage: ln old new" +:+ nl) [] (Exit 1)
  end.

(** [atoi]: the number at the start of a string, in an [int]. *)
Fixpoint atoi_from (n : Z) (s : list Z) : Z :=
  match s with
  | c :: s => if (48 <=? c) && (c <=? 57) then atoi_from (s32 (n * 10 + c - 48)) s else n
  | [] => n
  end.
Definition atoi (s : list Z) : Z := atoi_from 0 s.

Fixpoint kill_pids (args : list (list Z)) : prog unit :=
  match args with [] => Exit 0 | a :: args => Kill (atoi a) ;;; kill_pids args end.
Definition kill_main (argv : list (list Z)) : prog unit :=
  if (length argv <? 2)%nat then fprintf 2 ("usage: kill pid..." +:+ nl) [] (Exit 1) else kill_pids (tail argv).

Definition sleep_main (argv : list (list Z)) : prog unit :=
  match argv with
  | [_; n] => Pause (atoi n) ;;; Exit 0
  | _ => fprintf 2 ("usage: sleep ticks" +:+ nl) [] (Exit 1)
  end.

(** * Descriptors *)

(** The slots in use are those of open files. *)
Definition fds_ok (F : list (option nat)) (w : world) : Prop := forall i, Some i ∈ F -> (i < w_next w)%nat.

Lemma fd_put_spec i F fd F' : fd_put i F = Some (fd, F') ->
  0 <= fd /\ F !! Z.to_nat fd = Some None /\ F' = <[Z.to_nat fd := Some i]> F.
Proof.
  revert fd F'. induction F as [|o F IH]; intros fd F' E; cbn [fd_put] in E; [done|]. destruct o as [j|].
  - destruct (fd_put i F) as [[fd1 F1]|] eqn:E1; [|done]. injection E as <- <-. destruct (IH _ _ eq_refl) as (H1 & H2 & ->). split; [lia|]. replace (Z.to_nat (fd1 + 1)) with (S (Z.to_nat fd1)) by lia. done.
  - injection E as <- <-. done.
Qed.
Lemma fd_slot_put i F fd F' : fd_put i F = Some (fd, F') -> fd_slot F' fd = Some i.
Proof.
  intros (H0 & H1 & ->)%fd_put_spec. unfold fd_slot. rewrite decide_True by done. rewrite list_lookup_insert_eq; [done|]. by eapply lookup_lt_Some.
Qed.
Lemma fd_slot_put_ne i F fd F' fd' j : fd_put i F = Some (fd, F') -> fd_slot F fd' = Some j -> fd_slot F' fd' = Some j.
Proof.
  intros (H0 & H1 & ->)%fd_put_spec Hs. unfold fd_slot in *. destruct (decide (0 <= fd')); [|done]. destruct (decide (Z.to_nat fd = Z.to_nat fd')) as [E|Hne]; [rewrite <- E, H1 in Hs; done|]. by rewrite list_lookup_insert_ne.
Qed.
Lemma fd_put_close i F fd F' : fd_put i F = Some (fd, F') -> <[Z.to_nat fd := None]> F' = F.
Proof. intros (H0 & H1 & ->)%fd_put_spec. rewrite list_insert_insert_eq. by apply list_insert_id. Qed.
Lemma fd_slot_elem F fd i : fd_slot F fd = Some i -> Some i ∈ F.
Proof.
  unfold fd_slot. destruct (decide _); [|done]. destruct (F !! Z.to_nat fd) as [[j|]|] eqn:E; cbn; [|done..]. intros [= ->]. by eapply list_elem_of_lookup_2.
Qed.

(** The world after [open] of inode [j], with descriptors [F'] afterwards. *)
Definition opened (j : Z) (w : world) : world := set_next (S (w_next w)) (set_files (<[w_next w := OInode j 0]> (w_files w)) w).

Lemma opened_file j F w fd F' fd' f : fds_ok F w -> fd_put (w_next w) F = Some (fd, F') -> file_of F w fd' = Some f -> file_of F' (opened j w) fd' = Some f.
Proof.
  intros Hok Hp Hf. unfold file_of in *. destruct (fd_slot F fd') as [i|] eqn:E; [|done]. rewrite (fd_slot_put_ne _ _ _ _ _ _ Hp E). cbn in *. rewrite lookup_insert_ne; [done|]. pose proof (Hok i (fd_slot_elem _ _ _ E)). lia.
Qed.
Lemma opened_ok j F w fd F' : fds_ok F w -> fd_put (w_next w) F = Some (fd, F') -> fds_ok F' (opened j w).
Proof.
  intros Hok Hp i Hi. apply fd_put_spec in Hp as (_ & _ & ->). cbn. apply list_elem_of_lookup_1 in Hi as [k Hk]. apply list_lookup_insert_Some in Hk as [(_ & [= ->] & _)|[_ Hk]]; [lia|].
  apply list_elem_of_lookup_2, Hok in Hk. lia.
Qed.

(** * Reading *)

(** What is left to read from descriptor [fd]. *)
Definition source (F : list (option nat)) (w : world) (fd : Z) (d : list Z) : Prop :=
  (exists i, file_of F w fd = Some (OStream i) /\ w_in w !! i = Some d) \/
  (exists i j off nd, fd_slot F fd = Some i /\ w_files w !! i = Some (OInode j off) /\ w_fs w j = Some nd /\ 0 <= off /\ d = drop (Z.to_nat off) (n_data nd)).

(** Reading changes nothing else of the world. *)
Record kept (F : list (option nat)) (w w' : world) : Prop := {
  kp_fs : w_fs w' = w_fs w;
  kp_out : w_out w' = w_out w;
  kp_next : w_next w' = w_next w;
  kp_log : w_log w' = w_log w;
  kp_pid : w_pid w' = w_pid w;
  kp_stream fd n : file_of F w fd = Some (OStream n) -> file_of F w' fd = Some (OStream n);
  kp_open fd f : file_of F w fd = Some f -> exists f', file_of F w' fd = Some f';
}.

Lemma alone_read_source pid cwd par P fd k F w d n : source F w fd d -> 0 < n ->
  (forall m w', (m <= Nat.min (Z.to_nat n) (length d))%nat -> (m = 0%nat -> d = []) -> source F w' fd (drop m d) -> kept F w w' ->
    ends P (alone pid cwd par (k (Z.of_nat m, take m d)) F w')) -> ends P (alone pid cwd par (Sys (Read fd n) k) F w).
Proof.
  intros [(i & Hf & Hi)|(i & j & off & nd & Hs & Hi & Hj & Hoff & ->)] Hn He.
  - eapply alone_read_stream; [exact Hf|exact Hi|exact Hn|]. intros m Hm H0. apply He; [done|done| |].
    + left. exists i. split; [exact Hf|]. cbn. by rewrite lookup_insert_eq.
    + split; cbn; eauto.
  - eapply alone_read; [exact Hs|exact Hi|exact Hj|]. set (d := drop (Z.to_nat off) (n_data nd)). set (m := Nat.min (Z.to_nat n) (length d)). apply He; [done| | |].
    + intros E. apply nil_length_inv. fold d in E |- *. fold m in E. unfold m in E. lia.
    + right. exists i, j, (off + Z.of_nat m), nd. cbn. rewrite lookup_insert_eq. split_and!; [done..|lia|]. unfold d. rewrite drop_drop. f_equal. lia.
    + assert (forall fd0 f, file_of F w fd0 = Some f -> exists f', file_of F (set_files (<[i:=OInode j (off + Z.of_nat m)]> (w_files w)) w) fd0 = Some f' /\ (forall q, f = OStream q -> f' = f)) as Hg.
      { intros fd0 f. unfold file_of. destruct (fd_slot F fd0) as [i0|]; cbn; [|done]. destruct (decide (i0 = i)) as [->|Hne]; [rewrite lookup_insert_eq, Hi; intros [= <-]; eexists; split; [reflexivity|done]|].
        rewrite lookup_insert_ne by done. eauto. }
      split; try done.
      * intros fd0 q Hq. destruct (Hg fd0 _ Hq) as (f' & Hf' & Hsame). by rewrite (Hsame q eq_refl) in Hf'.
      * intros fd0 f Hq. destruct (Hg fd0 _ Hq) as (f' & Hf' & _). eauto.
Qed.

Lemma source_open F w fd d : source F w fd d -> exists f, file_of F w fd = Some f.
Proof. intros [(i & Hf & _)|(i & j & off & nd & Hs & Hi & _)]; [eauto|]. unfold file_of. rewrite Hs. cbn. rewrite Hi. eauto. Qed.

Lemma keeps_trans F w1 w2 w3 : kept F w1 w2 -> kept F w2 w3 -> kept F w1 w3.
Proof. intros [A1 A2 A3 A4 A5 A6 A7] [B1 B2 B3 B4 B5 B6 B7]. split; try congruence; eauto. intros fd f Hf. destruct (A7 _ _ Hf) as [f' Hf']. eauto. Qed.
Lemma kept_refl F w : kept F w w.
Proof. split; eauto. Qed.

(** The whole of [fd] goes to standard output, in pieces of the kernel's choice. *)
Lemma alone_cat pid cwd par P fd k F w d n : source F w fd d -> file_of F w 1 = Some (OStream n) ->
  (forall w1, kept F (add_out n d w) w1 -> ends P (alone pid cwd par k F w1)) -> ends P (alone pid cwd par (cat fd k) F w).
Proof.
  intros Hsrc H1. remember (length d) as len eqn:Hlen. revert d w Hlen Hsrc H1. induction len as [len IH] using lt_wf_ind. intros d w -> Hsrc H1 Hk. apply alone_iter. unfold unroll. cbn [pbind].
  eapply alone_read_source; [exact Hsrc|lia|]. intros m w' Hm H0 Hsrc' Hkp. destruct (Z.ltb_spec 0 (Z.of_nat m)) as [Hpos|Hz]; cbn [pbind].
  - eapply alone_write; [by apply (kp_stream _ _ _ Hkp)|]. rewrite length_take, Nat.min_l by lia. rewrite Z.eqb_refl. cbn [negb pbind].
    eapply (IH (length (drop m d))); [rewrite length_drop; lia|reflexivity| |by apply (kp_stream _ _ _ Hkp)|].
    + destruct Hsrc' as [(i & Hf & Hi)|HH]; [left; by exists i|right; exact HH].
    + intros w1 Hk1. apply Hk. rewrite add_out_app, take_drop in Hk1. eapply keeps_trans; [|exact Hk1]. destruct Hkp as [A1 A2 A3 A4 A5 A6 A7]. split; try done. cbn. by rewrite A2.
  - assert (m = 0%nat) as -> by lia. rewrite (H0 eq_refl) in *. cbn [Z.ltb Z.compare Z.of_nat]. apply Hk. by rewrite add_out_nil.
Qed.

Lemma fd_put_free i F : None ∈ F -> exists fd F', fd_put i F = Some (fd, F').
Proof.
  induction F as [|[j|] F IH]; [by intros ?%not_elem_of_nil| |by eauto]. intros [E|Hin]%elem_of_cons; [done|]. destruct (IH Hin) as (fd & F' & E). cbn. rewrite E. eauto.
Qed.
Lemma file_of_put i F fd F' fd' w f : fd_put i F = Some (fd, F') -> file_of F w fd' = Some f -> forall w', file_of F w' fd' = file_of F' w' fd'.
Proof.
  intros Hp Hf w'. unfold file_of in *. destruct (fd_slot F fd') as [q|] eqn:E; [|done]. by rewrite (fd_slot_put_ne _ _ _ _ _ _ Hp E).
Qed.

(** The surroundings of a tool: standard output and standard error are streams, and a
    descriptor is free. *)
Record stdio (F : list (option nat)) (w : world) (n1 n2 : nat) : Prop := {
  so_ok : fds_ok F w;
  so_free : None ∈ F;
  so_out : file_of F w 1 = Some (OStream n1);
  so_err : file_of F w 2 = Some (OStream n2);
}.

(** Opening a file, using it as [kept] says, and closing it. *)
Lemma stdio_opened F w n1 n2 j fd F' : stdio F w n1 n2 -> fd_put (w_next w) F = Some (fd, F') -> forall n l w1, kept F' (add_out n l (opened j w)) w1 -> stdio F w1 n1 n2.
Proof.
  intros [Hok Hfr H1 H2] Hp n l w1 Hk. split; [|done| |].
  - intros i Hi. rewrite (kp_next _ _ _ Hk). cbn. specialize (Hok i Hi). lia.
  - rewrite (file_of_put _ _ _ _ _ _ _ Hp H1). apply (kp_stream _ _ _ Hk). by apply (opened_file j F w fd F').
  - rewrite (file_of_put _ _ _ _ _ _ _ Hp H2). apply (kp_stream _ _ _ Hk). by apply (opened_file j F w fd F').
Qed.
Lemma stdio_kept F w n1 n2 n l w1 : stdio F w n1 n2 -> kept F (add_out n l w) w1 -> stdio F w1 n1 n2.
Proof.
  intros [Hok Hfr H1 H2] Hk. split; [|done|by apply (kp_stream _ _ _ Hk)|by apply (kp_stream _ _ _ Hk)]. intros i Hi. rewrite (kp_next _ _ _ Hk). by apply Hok.
Qed.
Lemma stdio_out F w n1 n2 n l : stdio F w n1 n2 -> stdio F (add_out n l w) n1 n2.
Proof. intros Hs. eapply stdio_kept; [exact Hs|apply kept_refl]. Qed.

Lemma opened_source F w j nd fd F' : fd_put (w_next w) F = Some (fd, F') -> w_fs w j = Some nd -> source F' (opened j w) fd (n_data nd).
Proof. intros Hp Hj. right. exists (w_next w), j, 0, nd. cbn. rewrite lookup_insert_eq. split_and!; [by eapply fd_slot_put|done|done|lia|done]. Qed.

(** Process [pid] has exited with status [st], and the streams have [out]. *)
Definition finished (pid st : Z) (out : gmap nat (list Z)) (c : config) : Prop :=
  exists x, procs c = {[ pid := x ]} /\ pr_state x = Zombie st /\ w_out (wd c) = out.
Lemma alone_finished pid cwd par st F w out : par <> Some pid -> w_out w = out -> ends (finished pid st out) (alone pid cwd par (Exit st) F w).
Proof. intros Hp Ho. apply alone_exit; [|done]. by eexists. Qed.

(** What is opened when a path leads to a file. *)
Definition file_at (fs : Z -> option fnode) (cwd : Z) (path : list Z) : option (Z * fnode) :=
  j ← resolve fs cwd path; nd ← fs j; Some (j, nd).
Lemma alone_open_file pid cwd par P path k F w n1 n2 : stdio F w n1 n2 ->
  (file_at (w_fs w) cwd path = None -> ends P (alone pid cwd par (k (-1)) F w)) ->
  (forall j nd fd F', file_at (w_fs w) cwd path = Some (j, nd) -> fd_put (w_next w) F = Some (fd, F') -> w_fs w j = Some nd -> 0 <= fd -> ends P (alone pid cwd par (k fd) F' (opened j w))) ->
  ends P (alone pid cwd par (Sys (Open path 0) k) F w).
Proof.
  intros Hs HN HY. unfold file_at in *. destruct (resolve (w_fs w) cwd path ≫= w_fs w) as [nd|] eqn:Er.
  - destruct (resolve (w_fs w) cwd path) as [j|] eqn:E; [|done]. cbn in Er, HY. rewrite Er in HY. destruct (fd_put_free (w_next w) F (so_free _ _ _ _ Hs)) as (fd & F' & Hp).
    eapply alone_open; [exact E|exact Er|exact Hp|]. apply (HY j nd fd F'); [done|done|done|]. by apply fd_put_spec in Hp as (? & _).
  - apply alone_open_none; [done|]. apply HN. destruct (resolve (w_fs w) cwd path) as [j|]; cbn in *; [by rewrite Er|done].
Qed.

(** ** cat *)

Definition text (x : list Z) : Prop := Forall (fun c => 0 < c < 256) x.
Lemma until0_text x : text x -> until0 x = x.
Proof. induction 1 as [|c x Hc Hx IH]; cbn; [done|]. rewrite (proj2 (Z.eqb_neq c 0)) by lia. by rewrite IH. Qed.
Lemma text_bytes x : text x -> Forall (fun c => 0 <= c < 256) x.
Proof. intros H. eapply Forall_impl; [exact H|]. cbn. lia. Qed.

(** What [cat] prints of the files, up to the first that cannot be opened. *)
Fixpoint contents (fs : Z -> option fnode) (cwd : Z) (args : list (list Z)) : list Z * option (list Z) :=
  match args with
  | [] => ([], None)
  | a :: args => match file_at fs cwd a with Some (_, nd) => (n_data nd ++ (contents fs cwd args).1, (contents fs cwd args).2) | None => ([], Some a) end
  end.
Definition cannot_open (prog : string) (bad : option (list Z)) : list Z :=
  match bad with Some a => bytes_of prog ++ bytes_of ": cannot open " ++ a ++ [10] | None => [] end.
Definition status (bad : option (list Z)) : Z := match bad with Some _ => 1 | None => 0 end.

Lemma piece_okb_lit l : forallb (fun x => (0 <? x) && (x <? 256) && negb (x =? 37)) l = true -> Forall (fun x => 0 < x < 256 /\ x <> 37) l.
Proof. intros H. apply Forall_forall. intros x Hx. rewrite forallb_forall in H. specialize (H x (proj1 (list_elem_of_In _ _) Hx)). lia. Qed.
Lemma error_puts (pre : string) fd a (k : prog unit) : text a -> Forall (fun x => 0 < x < 256 /\ x <> 37) (bytes_of pre) ->
  vprintf fd (bytes_of pre ++ [37; 115; 10]) [AStr (Some a)] k = puts fd (bytes_of pre ++ a ++ [10]) k.
Proof.
  intros Ha Hp. pose proof (vprintf_puts [Lit (bytes_of pre); Str (Some a); Lit [10]] fd k) as E. cbn [fmap list_fmap piece_fmt piece_arg piece_text concat app] in E. rewrite (until0_text a Ha) in E. apply E.
  repeat constructor; [exact Hp|by apply text_bytes|cbn; lia..].
Qed.

Lemma out_add n l w w' : w_out w' = w_out w -> w_out (add_out n l w') = w_out (add_out n l w).
Proof. cbn. by intros ->. Qed.
Lemma out_more n1 n2 d o e w w1 : w_out w1 = w_out (add_out n1 d w) -> w_out (add_out n2 e (add_out n1 o w1)) = w_out (add_out n2 e (add_out n1 (d ++ o) w)).
Proof. intros Hw. apply out_add. rewrite <- add_out_app. by apply out_add. Qed.

(** ** wc *)

(** The pieces between separators, some of them empty; the others are the words. *)
Fixpoint pieces (l : list Z) : list (list Z) :=
  match l with
  | [] => [[]]
  | x :: l => if separator x then [] :: pieces l else match pieces l with p :: ps => (x :: p) :: ps | [] => [[x]] end
  end.
Definition words (l : list Z) : list (list Z) := filter (fun p => p <> []) (pieces l).
Definition lines (l : list Z) : Z := Z.of_nat (length (filter (fun x => x = 10) l)).

(** The words that start in [l], after a character that is in a word or not. *)
Definition new_words (inword : bool) (l : list Z) : Z :=
  Z.of_nat (length (filter (fun p => p <> []) (if inword then tail (pieces l) else pieces l))).
Lemma pieces_cons l : exists p ps, pieces l = p :: ps.
Proof. destruct l as [|x l]; cbn; [eauto|]. destruct (separator x); [eauto|]. destruct (pieces l); eauto. Qed.
Lemma new_words_cons b x l : new_words b (x :: l) = if separator x then new_words false l else (if b then 0 else 1) + new_words true l.
Proof.
  unfold new_words. cbn [pieces]. destruct (pieces_cons l) as (p & ps & E). destruct (separator x).
  - destruct b; cbn [tail]; [done|]. by rewrite filter_cons_False by auto.
  - rewrite E. cbn [tail]. destruct b; [lia|]. rewrite filter_cons_True by done. cbn [length]. lia.
Qed.

Lemma wc_fold d s : 0 <= wc_l s -> 0 <= wc_w s -> 0 <= wc_c s -> wc_l s + Z.of_nat (length d) < 2147483648 -> wc_w s + Z.of_nat (length d) < 2147483648 -> wc_c s + Z.of_nat (length d) < 2147483648 ->
  let s' := foldl wc_char s d in wc_l s' = wc_l s + lines d /\ wc_w s' = wc_w s + new_words (wc_inword s) d /\ wc_c s' = wc_c s + Z.of_nat (length d).
Proof.
  revert s. induction d as [|x d IH]; intros s Hl Hw Hc Bl Bw Bc; cbn [foldl].
  - change (lines []) with 0. assert (forall b, new_words b [] = 0) as E by (intros []; reflexivity). rewrite E. cbn. lia.
  - cbn [length] in Bl, Bw, Bc. assert (forall v, 0 <= v -> v + Z.of_nat (S (length d)) < 2147483648 -> s32 (v + 1) = v + 1) as Hs by (intros v ? ?; apply s32_small; lia).
    assert (lines (x :: d) = (if x =? 10 then 1 else 0) + lines d) as El.
    { unfold lines. destruct (Z.eqb_spec x 10) as [->|Hx]; [rewrite filter_cons_True by done; cbn [length]; lia|rewrite filter_cons_False by done; lia]. }
    assert (wc_char s x = mkwc (wc_l s + (if x =? 10 then 1 else 0)) (wc_w s + (if separator x then 0 else if wc_inword s then 0 else 1)) (wc_c s + 1) (negb (separator x))) as Ec.
    { unfold wc_char. rewrite !Hs by done. destruct (x =? 10), (separator x), (wc_inword s); cbn [negb]; f_equal; lia. }
    rewrite El, new_words_cons, Ec. cbn [length]. destruct (IH (mkwc (wc_l s + (if x =? 10 then 1 else 0)) (wc_w s + (if separator x then 0 else if wc_inword s then 0 else 1)) (wc_c s + 1) (negb (separator x)))) as (I1 & I2 & I3);
      cbn [wc_l wc_w wc_c wc_inword]; [destruct (x =? 10), (separator x), (wc_inword s); lia..|]. cbv zeta in *. rewrite I1, I2, I3. cbn [wc_l wc_w wc_c wc_inword]. destruct (separator x); cbn [negb]; lia.
Qed.
Section tools.
Context (pid cwd : Z) (par : option Z) (Hpar : par <> Some pid).

(** A tool that cannot open [a] says so and exits. *)
Lemma alone_error (pre : string) fd n a st F w P : text a -> Forall (fun x => 0 < x < 256 /\ x <> 37) (bytes_of pre) -> file_of F w fd = Some (OStream n) ->
  ends P (alone pid cwd par (Exit st) F (add_out n (bytes_of pre ++ a ++ [10]) w)) ->
  ends P (alone pid cwd par (vprintf fd (bytes_of pre ++ [37; 115; 10]) [AStr (Some a)] (Exit st)) F w).
Proof. intros Ha Hp Hf He. rewrite error_puts by done. by eapply alone_puts. Qed.

Lemma alone_cat_files args F w n1 n2 : stdio F w n1 n2 -> Forall text args -> let r := contents (w_fs w) cwd args in
  ends (finished pid (status r.2) (w_out (add_out n2 (cannot_open "cat" r.2) (add_out n1 r.1 w)))) (alone pid cwd par (cat_files args) F w).
Proof.
  intros Hs Ht. revert w Hs. induction Ht as [|a args Ha Ht IH]; intros w Hs; cbn [cat_files contents].
  - apply alone_finished; [done|]. cbn [fst snd cannot_open]. by rewrite !add_out_nil.
  - eapply alone_open_file; [exact Hs| |].
    + intros ->. cbn [fst snd status cannot_open Z.ltb Z.compare]. rewrite add_out_nil. apply (alone_error "cat: cannot open " 2 n2); [done|by apply piece_okb_lit|apply Hs|]. by apply alone_finished.
    + intros j nd fd F' -> Hp Hj H0. rewrite (proj2 (Z.ltb_ge fd 0)) by done. cbn [fst snd]. pose proof (opened_file j F w fd F' 1 _ (so_ok _ _ _ _ Hs) Hp (so_out _ _ _ _ Hs)) as H1.
      pose proof (opened_source F w j nd fd F' Hp Hj) as Hsrc. eapply alone_cat; [exact Hsrc|exact H1|]. intros w1 Hk.
      destruct (source_open _ _ _ _ Hsrc) as [f Hf]. destruct (kp_open _ _ _ Hk fd f Hf) as [f' Hf']. eapply alone_close; [exact Hf'|]. rewrite (fd_put_close _ _ _ _ Hp).
      specialize (IH w1 (stdio_opened _ _ _ _ j _ _ Hs Hp _ _ _ Hk)). rewrite (kp_fs _ _ _ Hk) in IH. cbn [w_fs add_out opened set_next set_files] in IH. cbv zeta in IH. erewrite out_more in IH; [exact IH|]. by rewrite (kp_out _ _ _ Hk).
Qed.

Lemma alone_wc_loop fd k F w d s P : source F w fd d -> (forall w1, kept F w w1 -> ends P (alone pid cwd par (k (0, foldl wc_char s d)) F w1)) ->
  ends P (alone pid cwd par (Iter (fun s : wc_state => r <~ Read fd 512 ;; let '(n, buf) := r in if 0 <? n then Return (inl (foldl wc_char s buf)) else Return (inr (n, s))) s k) F w).
Proof.
  intros Hsrc. remember (length d) as len eqn:Hlen. revert d s w Hlen Hsrc. induction len as [len IH] using lt_wf_ind. intros d s w -> Hsrc Hk. apply alone_iter. unfold unroll. cbn [pbind].
  eapply alone_read_source; [exact Hsrc|lia|]. intros m w' Hm H0 Hsrc' Hkp. destruct (Z.ltb_spec 0 (Z.of_nat m)) as [Hpos|Hz]; cbn [pbind].
  - eapply (IH (length (drop m d))); [rewrite length_drop; lia|reflexivity|exact Hsrc'|]. intros w1 Hk1. rewrite <- foldl_app, take_drop. apply Hk. by eapply keeps_trans.
  - assert (m = 0%nat) as -> by lia. rewrite (H0 eq_refl) in *. by apply Hk.
Qed.

(** The line [wc] prints for a file with the bytes [d]. *)
Definition wc_line (d name : list Z) : list Z :=
  bytes_of (pretty (lines d)) ++ [32] ++ bytes_of (pretty (Z.of_nat (length (words d)))) ++ [32] ++ bytes_of (pretty (Z.of_nat (length d))) ++ [32] ++ name ++ [10].

Lemma words_length d : (length (words d) <= S (length d))%nat.
Proof.
  etransitivity; [apply length_filter|]. induction d as [|x d IH]; cbn; [lia|]. destruct (separator x); cbn; [lia|]. destruct (pieces d); cbn in *; lia.
Qed.
Lemma lines_length d : lines d <= Z.of_nat (length d).
Proof. unfold lines. pose proof (length_filter (fun x => x = 10) d). lia. Qed.

Lemma wc_print d name (k : prog unit) : text name -> Z.of_nat (length d) < 2147483647 -> let s := foldl wc_char (mkwc 0 0 0 false) d in
  printf ("%d %d %d %s" +:+ nl) [AInt (wc_l s); AInt (wc_w s); AInt (wc_c s); AStr (Some name)] k = puts 1 (wc_line d name) k.
Proof.
  intros Ht Hd s. destruct (wc_fold d (mkwc 0 0 0 false)) as (E1 & E2 & E3); cbn [wc_l wc_w wc_c]; try lia. fold s in E1, E2, E3. cbn [wc_l wc_w wc_c wc_inword] in E1, E2, E3.
  change (new_words false d) with (Z.of_nat (length (words d))) in E2. pose proof (lines_length d) as Hl. pose proof (words_length d) as Hw. assert (0 <= lines d) by (unfold lines; lia).
  pose proof (vprintf_puts [Dec (wc_l s); Lit [32]; Dec (wc_w s); Lit [32]; Dec (wc_c s); Lit [32]; Str (Some name); Lit [10]] 1 k) as E. cbn [fmap list_fmap piece_fmt piece_arg piece_text concat app] in E.
  rewrite (until0_text name Ht), E1, E2, E3 in E. rewrite E1, E2, E3. rewrite !s32_small in E by lia. rewrite !Z.add_0_l in *. unfold printf, wc_line. rewrite <- ?app_assoc in *. cbn [app] in *. apply E.
  repeat constructor; try done; [by apply text_bytes].
Qed.

(** What [wc] prints for the files, up to the first that cannot be opened. *)
Fixpoint counts (fs : Z -> option fnode) (args : list (list Z)) : list Z * option (list Z) :=
  match args with
  | [] => ([], None)
  | a :: args => match file_at fs cwd a with Some (_, nd) => (wc_line (n_data nd) a ++ (counts fs args).1, (counts fs args).2) | None => ([], Some a) end
  end.
(** No file is too large for an [int]. *)
Definition sizes_ok (fs : Z -> option fnode) : Prop := forall j nd, fs j = Some nd -> Z.of_nat (length (n_data nd)) < 2147483647.

Lemma alone_wc fd name k F w d n P : source F w fd d -> text name -> Z.of_nat (length d) < 2147483647 -> file_of F w 1 = Some (OStream n) ->
  (forall w1, kept F (add_out n (wc_line d name) w) w1 -> ends P (alone pid cwd par k F w1)) -> ends P (alone pid cwd par (wc fd name k) F w).
Proof.
  intros Hsrc Ht Hd H1 Hk. unfold wc. apply (alone_wc_loop fd _ F w d _ P Hsrc). intros w1 Hk1. change (0 <? 0) with false. cbv iota. rewrite wc_print by done.
  eapply alone_puts; [by apply (kp_stream _ _ _ Hk1)|]. apply Hk. destruct Hk1 as [A1 A2 A3 A4 A5 A6 A7]. split; try done. cbn. by rewrite A2.
Qed.

Lemma alone_wc_files args F w n1 n2 : stdio F w n1 n2 -> Forall text args -> sizes_ok (w_fs w) -> let r := counts (w_fs w) args in
  ends (finished pid (status r.2) (w_out (add_out n1 (cannot_open "wc" r.2) (add_out n1 r.1 w)))) (alone pid cwd par (wc_files args) F w).
Proof.
  intros Hs Ht. revert w Hs. induction Ht as [|a args Ha Ht IH]; intros w Hs Hz; cbn [wc_files counts].
  - apply alone_finished; [done|]. cbn [fst snd cannot_open]. by rewrite !add_out_nil.
  - eapply alone_open_file; [exact Hs| |].
    + intros ->. cbn [fst snd status cannot_open Z.ltb Z.compare]. rewrite add_out_nil. apply (alone_error "wc: cannot open " 1 n1); [done|by apply piece_okb_lit|apply Hs|]. by apply alone_finished.
    + intros j nd fd F' -> Hp Hj H0. rewrite (proj2 (Z.ltb_ge fd 0)) by done. cbn [fst snd]. pose proof (opened_file j F w fd F' 1 _ (so_ok _ _ _ _ Hs) Hp (so_out _ _ _ _ Hs)) as H1.
      pose proof (opened_source F w j nd fd F' Hp Hj) as Hsrc. eapply alone_wc; [exact Hsrc|done|by eapply Hz|exact H1|]. intros w1 Hk.
      destruct (source_open _ _ _ _ Hsrc) as [f Hf]. destruct (kp_open _ _ _ Hk fd f Hf) as [f' Hf']. eapply alone_close; [exact Hf'|]. rewrite (fd_put_close _ _ _ _ Hp).
      specialize (IH w1 (stdio_opened _ _ _ _ j _ _ Hs Hp _ _ _ Hk)). rewrite (kp_fs _ _ _ Hk) in IH. cbn [w_fs add_out opened set_next set_files] in IH. specialize (IH Hz). cbv zeta in IH. erewrite out_more in IH; [exact IH|]. by rewrite (kp_out _ _ _ Hk).
Qed.

(** ** echo *)

Fixpoint echo_text (args : list (list Z)) : list Z :=
  match args with [] => [] | [a] => a ++ [10] | a :: args => a ++ [32] ++ echo_text args end.
Lemma alone_echo args F w n : file_of F w 1 = Some (OStream n) -> ends (finished pid 0 (w_out (add_out n (echo_text args) w))) (alone pid cwd par (echo_args args) F w).
Proof.
  revert w. induction args as [|a args IH]; intros w H1; cbn [echo_args echo_text]; [apply alone_finished; [done|by rewrite add_out_nil]|].
  eapply alone_write; [exact H1|]. destruct args as [|b args]; cbn [length Nat.ltb Nat.leb].
  - eapply alone_write; [exact H1|]. rewrite add_out_app. cbn [echo_args]. by apply alone_finished.
  - eapply alone_write; [exact H1|]. rewrite add_out_app. rewrite app_assoc, <- add_out_app. by apply IH.
Qed.

(** ** One call per argument *)

(** A call that is recorded: whatever its result. *)
Lemma alone_logged {X} (f : call X) (e : Z -> event) (v : Z -> X) k F w P :
  (forall k c c' x, call_step f k pid x c c' <-> exists r, (r = 0 \/ r = -1) /\ c' = goes pid (set_state (Runs (k (v r))) x) (add_log (e r) (wd c)) c) ->
  (forall r, r = 0 \/ r = -1 -> ends P (alone pid cwd par (k (v r)) F (add_log (e r) w))) -> ends P (alone pid cwd par (Sys f k) F w).
Proof.
  intros Hf He. apply ends_alone; unfold proc_step; cbn [pr_state].
  - eexists. apply Hf. exists 0. split; [by left|reflexivity].
  - intros c' (r & Hr & ->)%Hf. unfold set_state. cbn [pr_fds pr_cwd pr_parent]. rewrite goes_alone', wd_alone. by apply He.
Qed.

(** The calls were made for the arguments in order, all with success but perhaps the last. *)
Definition each (e : list Z -> Z -> event) (args : list (list Z)) (log0 log : list event) (bad : option (list Z)) : Prop :=
  exists done rest, args = done ++ rest /\ log = log0 ++ ((fun a => e a 0) <$> done) ++ match bad with Some a => [e a (-1)] | None => [] end /\ head rest = bad.
Lemma each_cons e a args log0 log bad : each e args (log0 ++ [e a 0]) log bad -> each e (a :: args) log0 log bad.
Proof. intros (d & r & -> & -> & Hb). exists (a :: d), r. split_and!; [done| |done]. rewrite fmap_cons. by rewrite <- app_assoc. Qed.
Lemma each_fail e a args log0 : each e (a :: args) log0 (log0 ++ [e a (-1)]) (Some a).
Proof. by exists [], (a :: args). Qed.
Definition report (pre post : string) (bad : option (list Z)) : list Z := match bad with Some a => bytes_of pre ++ a ++ bytes_of post ++ [10] | None => [] end.
Definition logged (e : list Z -> Z -> event) (args : list (list Z)) (pre post : string) (n2 : nat) (w : world) (c : config) : Prop :=
  exists bad, each e args (w_log w) (w_log (wd c)) bad /\ finished pid 0 (w_out (add_out n2 (report pre post bad) w)) c.

Lemma report_puts (pre post : string) fd a (k : prog unit) : text a -> Forall (fun x => 0 < x < 256 /\ x <> 37) (bytes_of pre) -> Forall (fun x => 0 < x < 256 /\ x <> 37) (bytes_of post) ->
  vprintf fd (bytes_of pre ++ [37; 115] ++ bytes_of post ++ [10]) [AStr (Some a)] k = puts fd (report pre post (Some a)) k.
Proof.
  intros Ha Hp Hq. pose proof (vprintf_puts [Lit (bytes_of pre); Str (Some a); Lit (bytes_of post); Lit [10]] fd k) as E. cbn [fmap list_fmap piece_fmt piece_arg piece_text concat app] in E. rewrite (until0_text a Ha) in E. apply E.
  repeat constructor; [exact Hp|by apply text_bytes|exact Hq|cbn; lia..].
Qed.

(** The loop of [rm] and [mkdir]. *)
Lemma alone_each (f : list Z -> call Z) (e : list Z -> Z -> event) (pre post : string) (body : list (list Z) -> prog unit) args F w n2 :
  (forall a k c c' x, call_step (f a) k pid x c c' <-> exists r, (r = 0 \/ r = -1) /\ c' = goes pid (set_state (Runs (k r)) x) (add_log (e a r) (wd c)) c) ->
  body [] = Exit 0 ->
  (forall a args, body (a :: args) = (r <~ f a ;; if r <? 0 then vprintf 2 (bytes_of pre ++ [37; 115] ++ bytes_of post ++ [10]) [AStr (Some a)] (Exit 0) else body args)) ->
  Forall (fun x => 0 < x < 256 /\ x <> 37) (bytes_of pre) -> Forall (fun x => 0 < x < 256 /\ x <> 37) (bytes_of post) -> Forall text args -> file_of F w 2 = Some (OStream n2) ->
  ends (logged e args pre post n2 w) (alone pid cwd par (body args) F w).
Proof.
  intros Hf Hb0 Hb Hp Hq Ht H2. assert (forall log0 w', log0 = w_log w' -> w_out w' = w_out w -> file_of F w' 2 = Some (OStream n2) ->
    ends (fun c => exists bad, each e args log0 (w_log (wd c)) bad /\ finished pid 0 (w_out (add_out n2 (report pre post bad) w)) c) (alone pid cwd par (body args) F w')) as Hg; [|by apply Hg].
  clear H2. induction Ht as [|a args Ha Ht IH]; intros log0 w' -> Ho H2.
  - rewrite Hb0. apply alone_exit; [|done]. exists None. split; [exists [], []; split_and!; [done|by rewrite app_nil_r|done]|]. eexists. split_and!; [reflexivity|done|]. cbn [wd report]. rewrite add_out_nil. done.
  - rewrite Hb. eapply (alone_logged (f a) (e a) (fun r => r)); [apply Hf|]. intros r [-> | ->]; cbn [Z.ltb Z.compare].
    + specialize (IH (w_log w' ++ [e a 0]) (add_log (e a 0) w') eq_refl Ho H2). eapply ends_mono; [|exact IH]. intros c (bad & He & Hfin). exists bad. split; [by apply each_cons|done].
    + rewrite report_puts by done. eapply alone_puts; [exact H2|]. apply alone_exit; [|done]. exists (Some a). split; [apply each_fail|]. eexists. split_and!; [reflexivity|done|]. by apply out_add.
Qed.
End tools.

(** C35: [cat] copies to standard output. Without arguments it copies all of standard input,
    whatever the sizes of the reads, and exits with 0. With arguments it prints the contents of the files
    in order; at the first one that cannot be opened it prints a message to standard error and
    exits with 1. *)
Theorem cat_correct pid cwd par argv F w n1 n2 : par <> Some pid -> stdio F w n1 n2 -> Forall text (tail argv) ->
  ((length argv <= 1)%nat -> forall d, source F w 0 d -> ends (finished pid 0 (w_out (add_out n1 d w))) (alone pid cwd par (cat_main argv) F w)) /\
  ((1 < length argv)%nat -> let r := contents (w_fs w) cwd (tail argv) in
     ends (finished pid (status r.2) (w_out (add_out n2 (cannot_open "cat" r.2) (add_out n1 r.1 w)))) (alone pid cwd par (cat_main argv) F w)).
Proof.
  intros Hpar Hs Ht. unfold cat_main. split; intros Hl.
  - intros d Hd. rewrite (proj2 (Nat.leb_le _ _) Hl). eapply alone_cat; [exact Hd|apply Hs|]. intros w1 Hk. apply alone_finished; [done|apply Hk].
  - rewrite (proj2 (Nat.leb_gt _ _) Hl). by apply alone_cat_files.
Qed.

(** [wc] prints, for standard input or for every file it is given, one line with the
    number of lines, the number of words (maximal runs without separators) and the number of bytes,
    whatever the sizes of the reads. At the first file that cannot be opened it prints a message
    and exits with 1. *)
Theorem wc_correct pid cwd par argv F w n1 n2 : par <> Some pid -> stdio F w n1 n2 -> Forall text (tail argv) -> sizes_ok (w_fs w) ->
  ((length argv <= 1)%nat -> forall d, source F w 0 d -> Z.of_nat (length d) < 2147483647 -> ends (finished pid 0 (w_out (add_out n1 (wc_line d []) w))) (alone pid cwd par (wc_main argv) F w)) /\
  ((1 < length argv)%nat -> let r := counts cwd (w_fs w) (tail argv) in
     ends (finished pid (status r.2) (w_out (add_out n1 (r.1 ++ cannot_open "wc" r.2) w))) (alone pid cwd par (wc_main argv) F w)).
Proof.
  intros Hpar Hs Ht Hz. unfold wc_main. split; intros Hl.
  - intros d Hd Hb. rewrite (proj2 (Nat.leb_le _ _) Hl). eapply alone_wc; [exact Hd|constructor|exact Hb|apply Hs|]. intros w1 Hk. apply alone_finished; [done|apply Hk].
  - rewrite (proj2 (Nat.leb_gt _ _) Hl). cbv zeta. rewrite <- add_out_app. by eapply alone_wc_files.
Qed.

(** [echo] prints its arguments with a blank between them and a newline at the end. *)
Theorem echo_correct pid cwd par argv F w n : par <> Some pid -> file_of F w 1 = Some (OStream n) ->
  ends (finished pid 0 (w_out (add_out n (echo_text (tail argv)) w))) (alone pid cwd par (echo_main argv) F w).
Proof. intros. by apply alone_echo. Qed.

(** [rm] and [mkdir] make their system call for the arguments in order and stop at the first
    that fails, with a message. *)
Theorem rm_correct pid cwd par argv F w n2 : par <> Some pid -> file_of F w 2 = Some (OStream n2) -> Forall text (tail argv) -> (2 <= length argv)%nat ->
  ends (logged pid EUnlink (tail argv) "rm: " " failed to delete" n2 w) (alone pid cwd par (rm_main argv) F w).
Proof.
  intros Hpar H2 Ht Hl. unfold rm_main. rewrite (proj2 (Nat.ltb_ge _ _) Hl). by apply (alone_each pid cwd par Hpar Unlink EUnlink "rm: " " failed to delete" rm_files); try (by apply piece_okb_lit).
Qed.
Theorem mkdir_correct pid cwd par argv F w n2 : par <> Some pid -> file_of F w 2 = Some (OStream n2) -> Forall text (tail argv) -> (2 <= length argv)%nat ->
  ends (logged pid EMkdir (tail argv) "mkdir: " " failed to create" n2 w) (alone pid cwd par (mkdir_main argv) F w).
Proof.
  intros Hpar H2 Ht Hl. unfold mkdir_main. rewrite (proj2 (Nat.ltb_ge _ _) Hl). by apply (alone_each pid cwd par Hpar Mkdir EMkdir "mkdir: " " failed to create" mkdir_files); try (by apply piece_okb_lit).
Qed.

(** * An example *)

(** A root directory with a file [a] and a directory [d], which holds files [a] and [b] and an
    entry that is not in use. *)
Definition name14 (s : string) : list Z := take 14 (bytes_of s ++ replicate 14 0).
Definition demo_dir (es : list (Z * string)) : list Z := concat ((fun e => mkdirent e.1 (name14 e.2)) <$> es).
Definition demo_fs (j : Z) : option fnode :=
  if j =? 1 then Some (mkfnode T_DIR 1 (demo_dir [(1, "."); (1, ".."); (2, "a"); (3, "d")]%string))
  else if j =? 2 then Some (mkfnode T_FILE 1 (bytes_of "one two" ++ [10] ++ bytes_of "three" ++ [10]))
  else if j =? 3 then Some (mkfnode T_DIR 1 (demo_dir [(3, "."); (1, ".."); (0, "gone"); (4, "a"); (5, "b")]%string))
  else if j =? 4 then Some (mkfnode T_FILE 1 [])
  else if j =? 5 then Some (mkfnode T_FILE 1 (bytes_of "x"))
  else None.
Definition demo_fds : list (option nat) := [Some 0; Some 1; Some 2]%nat ++ replicate 13 None.
Definition demo_world : world :=
  mkworld demo_fs {[ 0%nat := OStream 0; 1%nat := OStream 1; 2%nat := OStream 2 ]} ∅ 3 {[ 0%nat := bytes_of "a b" ++ [10] ]} {[ 1%nat := []; 2%nat := [] ]} [] 4.
Lemma demo_stdio : stdio demo_fds demo_world 1 2.
Proof.
  split; [|vm_compute; repeat constructor|reflexivity..].
  intros i. unfold demo_fds. rewrite elem_of_app. intros [Hi|Hi]; [|apply elem_of_replicate in Hi as [? _]; done]. rewrite !elem_of_cons in Hi. cbn. destruct Hi as [[= ->]|[[= ->]|[[= ->]|Hi%not_elem_of_nil]]]; lia || done.
Qed.
Lemma demo_text (l : list string) : forallb (fun s => forallb (fun x => (0 <? x) && (x <? 256)) (bytes_of s)) l = true -> Forall text (bytes_of <$> l).
Proof.
  intros H. apply Forall_forall. intros x (s & -> & Hs)%list_elem_of_fmap. rewrite forallb_forall in H. specialize (H s (proj1 (list_elem_of_In _ _) Hs)). apply Forall_forall. intros c Hc. rewrite forallb_forall in H. specialize (H c (proj1 (list_elem_of_In _ _) Hc)). lia.
Qed.

Lemma cat_correct_witness : ends (finished 3 1 {[ 1%nat := bytes_of "one two" ++ [10] ++ bytes_of "three" ++ [10]; 2%nat := bytes_of "cat: cannot open e" ++ [10] ]}) (alone 3 1 (Some 2) (cat_main (bytes_of <$> ["cat"; "a"; "e"; "d/b"]%string)) demo_fds demo_world).
Proof.
  destruct (cat_correct 3 1 (Some 2) (bytes_of <$> ["cat"; "a"; "e"; "d/b"]%string) demo_fds demo_world 1 2) as [_ Hc]; [discriminate|apply demo_stdio|by apply (demo_text ["a"; "e"; "d/b"]%string)|].
  specialize (Hc ltac:(cbn; lia)). vm_compute in Hc. exact Hc.
Defined.

Lemma wc_correct_witness : ends (finished 3 0 {[ 1%nat := bytes_of "2 3 14 a" ++ [10] ++ bytes_of "0 1 1 d/b" ++ [10]; 2%nat := [] ]}) (alone 3 1 (Some 2) (wc_main (bytes_of <$> ["wc"; "a"; "d/b"]%string)) demo_fds demo_world).
Proof.
  destruct (wc_correct 3 1 (Some 2) (bytes_of <$> ["wc"; "a"; "d/b"]%string) demo_fds demo_world 1 2) as [_ Hc]; [discriminate|apply demo_stdio|by apply (demo_text ["a"; "d/b"]%string)| |].
  - intros j nd. cbn [w_fs demo_world]. unfold demo_fs. repeat case_match; intros [= <-]; reflexivity.
  - specialize (Hc ltac:(cbn; lia)). cbv zeta in Hc. set (r := counts 1 (w_fs demo_world) (tail (bytes_of <$> ["wc"; "a"; "d/b"]%string))) in Hc.
    assert (status r.2 = 0 /\ w_out (add_out 1 (r.1 ++ cannot_open "wc" r.2) demo_world) = {[ 1%nat := bytes_of "2 3 14 a" ++ [10] ++ bytes_of "0 1 1 d/b" ++ [10]; 2%nat := [] ]}) as [E1 E2] by (vm_compute; split; reflexivity).
    rewrite E1, E2 in Hc. exact Hc.
Defined.
