(* ===== verification/Urun.v ===== *)
(** A program that runs a command: [fork], [exec] in the child, [wait] in the parent. Whatever
    the scheduler does, the parent goes on when the command has ended. *)
From S2P Require Import Prelude Memory Sleeplock Bio Log Fs State Process FsFile FsPath Uprog Uprintf Utools.

Section run.
Context (pid cwd : Z) (par : option Z) (F : list (option nat)) (np : Z) (Hnp : np <> pid) (Hpar : par <> Some np) (Hpar' : par <> Some pid).
Context (K : prog unit).

Definition waiting : process := mkprocess (Runs (Sys Wait (fun _ => K))) F cwd par.
Definition child (st : pstate) (F : list (option nat)) : process := mkprocess st F cwd (Some pid).
Definition pair (y : process) (w : world) : config := mkconfig (<[np := y]> {[ pid := waiting ]}) w.

Lemma pair_lookup y w q x : procs (pair y w) !! q = Some x -> (q = np /\ x = y) \/ (q = pid /\ x = waiting).
Proof.
  cbn. intros [[<- <-]|[Hne Hq]]%lookup_insert_Some; [by left|]. apply lookup_singleton_Some in Hq as [<- <-]. by right.
Qed.
Lemma pair_child y w : procs (pair y w) !! np = Some y.
Proof. cbn. by rewrite lookup_insert_eq. Qed.
Lemma goes_pair y y' w w' : goes np y' w' (pair y w) = pair y' w'.
Proof. unfold goes, pair. cbn. by rewrite insert_insert_eq. Qed.

(** The parent is blocked until its child has ended. *)
Lemma parent_blocked F' st w c' : (forall z, st <> Zombie z) -> ~ proc_step pid waiting (pair (child st F') w) c'.
Proof.
  intros Hst [(q & y & z & Hq & Hp & Hz & _)|[Hno _]].
  - apply pair_lookup in Hq as [[-> ->]|[-> ->]]; [by eapply Hst|]. done.
  - by apply (Hno np (child st F') (pair_child _ _)).
Qed.
Lemma ends_pair P F' st w : (forall z, st <> Zombie z) -> (exists c', proc_step np (child st F') (pair (child st F') w) c') ->
  (forall c', proc_step np (child st F') (pair (child st F') w) c' -> ends P c') -> ends P (pair (child st F') w).
Proof.
  intros Hst [c1 H1] Hall. apply ends_step; [exists c1, np, (child st F'); by split; [apply pair_child|]|].
  intros c' (q & x & Hq & Hs). apply pair_lookup in Hq as [[-> ->]|[-> ->]]; [by apply Hall|]. by apply parent_blocked in Hs.
Qed.

(** Once it has, the parent takes its status. *)
Lemma ends_reap P F' z w : ends P (alone pid cwd par K F w) -> ends P (pair (child (Zombie z) F') w).
Proof.
  intros He. assert (forall c', proc_step pid waiting (pair (child (Zombie z) F') w) c' <-> c' = alone pid cwd par K F w) as Hs.
  { intros c'. unfold proc_step, waiting. cbn [pr_state call_step]. unfold goes, set_state. cbn [procs pr_fds pr_cwd pr_parent wd pair]. unfold alone. split.
    - intros [(q & y & z' & Hq & Hp & Hz & ->)|[Hno _]].
      + change (<[np := child (Zombie z) F']> {[pid := waiting]}) with (procs (pair (child (Zombie z) F') w)) in Hq. apply pair_lookup in Hq as [[-> ->]|[-> ->]]; [|done]. f_equal.
        rewrite delete_insert_ne, delete_insert_eq by done. rewrite delete_singleton_ne by done. by rewrite insert_singleton_eq.
      + by destruct (Hno np (child (Zombie z) F') (lookup_insert_eq _ _ _)).
    - intros ->. left. exists np, (child (Zombie z) F'), z. rewrite lookup_insert_eq. split_and!; [done..|]. f_equal.
      rewrite delete_insert_ne, delete_insert_eq by done. rewrite delete_singleton_ne by done. by rewrite insert_singleton_eq. }
  apply ends_step.
  - exists (alone pid cwd par K F w), pid, waiting. split; [cbn; by rewrite lookup_insert_ne, lookup_singleton_eq|]. by apply Hs.
  - intros c' (q & x & Hq & Hst). apply pair_lookup in Hq as [[-> ->]|[-> ->]]; [done|]. by apply Hs in Hst as ->.
Qed.

Lemma exits_pair z st F' w : exits np z (child st F') (pair (child st F') w) = pair (child (Zombie z) []) w.
Proof.
  unfold exits, pair. cbn [procs wd]. f_equal. rewrite fmap_insert, insert_insert_eq, map_fmap_singleton. unfold orphan at 1. cbn [waiting pr_parent]. by rewrite decide_False.
Qed.

Lemma ends_command P path argv F' w : ends P (alone pid cwd par K F w) -> ends P (pair (child (Command path argv) F') w).
Proof.
  intros He. apply ends_pair; [done|by exists (exits np 0 (child (Command path argv) F') (pair (child (Command path argv) F') w)), 0|].
  intros c' [z ->]. rewrite exits_pair. by apply ends_reap.
Qed.
(** A child that prints a message and exits. *)
Lemma ends_message P msg st n F' w : file_of F' w 2 = Some (OStream n) -> ends P (alone pid cwd par K F (add_out n msg w)) -> ends P (pair (child (Runs (puts 2 msg (Exit st))) F') w).
Proof.
  revert w. induction msg as [|b msg IH]; intros w Hf He; cbn [puts].
  - rewrite add_out_nil in He. apply ends_pair; [done|eexists; reflexivity|]. intros c' ->. rewrite exits_pair. by apply ends_reap.
  - assert (forall c', proc_step np (child (Runs (Sys (Write 2 [b]) (fun _ => puts 2 msg (Exit st)))) F') (pair (child (Runs (Sys (Write 2 [b]) (fun _ => puts 2 msg (Exit st)))) F') w) c' <->
      c' = pair (child (Runs (puts 2 msg (Exit st))) F') (add_out n [b] w)) as Hs.
    { intros c'. unfold proc_step. cbn [pr_state child call_step]. unfold fd_file. cbn [pr_fds child wd pair]. rewrite Hf. by rewrite goes_pair. }
    apply ends_pair; [done|eexists; by apply Hs|]. intros c' ->%Hs. apply IH; [exact Hf|]. by rewrite add_out_app.
Qed.
End run.

(** Running a command: [kf] is the program after [fork]. *)
Lemma alone_run P pid cwd par F w n2 kf K path argv msg st : w_pid w <> pid -> par <> Some (w_pid w) -> file_of F w 2 = Some (OStream n2) ->
  kf 0 = Sys (Exec path argv) (fun _ => puts 2 msg (Exit st)) -> kf (w_pid w) = Sys Wait (fun _ => K) ->
  ends P (alone pid cwd par (kf (-1)) F w) ->
  ends P (alone pid cwd par K F (add_log (EExec (w_pid w) path argv) (set_pid (w_pid w + 1) w))) ->
  ends P (alone pid cwd par K F (add_out n2 msg (set_pid (w_pid w + 1) w))) ->
  ends P (alone pid cwd par (Sys Fork kf) F w).
Proof.
  intros Hnp Hpar H2 E0 Ep Hfail Hok Hexec. apply ends_alone; unfold proc_step; cbn [pr_state call_step].
  - eexists. by left.
  - unfold set_state. cbn [pr_fds pr_cwd pr_parent]. rewrite wd_alone, !goes_alone'. intros c' [-> | ->]; [done|]. rewrite Ep, E0. cbn [procs alone].
    apply (ends_pair pid cwd par F (w_pid w) K P F).
    + done.
    + eexists. by left.
    + intros c' [-> | ->]; unfold set_state; cbn [pr_fds pr_cwd pr_parent child].
      * rewrite goes_pair. by apply (ends_message pid cwd par F (w_pid w) Hnp Hpar K P msg st n2 F).
      * rewrite goes_pair. by apply ends_command.
Qed.
