(* ===== verification/Ufind.v ===== *)
(** Programs that walk directories: [stat] of user/ulib.c, user/ls.c and user/find.c, with
    what they print. *)
From stdpp Require Import pretty.
From S2P Require Import Prelude Memory Sleeplock Bio Log Fs State Process FsFile FsPath Uprog Uprintf Utools Urun.

#[local] Open Scope prog_scope.

(** * The code *)

Definition MAXARG : Z := 32.

(** [stat(n, st)]; [st0] is what the structure holds before. *)
Definition ustat {A} (n : list Z) (st0 : stat) (k : Z -> stat -> prog A) : prog A :=
  fd <~ Open n 0 ;;
  if fd <? 0 then k (-1) st0 else
  r <~ Fstat fd ;;
  Close fd ;;;
  k r.1 r.2.

(** [fmtname]: the part of the path after the last slash, which the loop looks for from the end,
    padded with blanks to the width of a name. *)
Fixpoint last_part (rpath : list Z) : list Z :=
  match rpath with
  | [] => []
  | c :: rpath => if negb (c =? 47) then last_part rpath ++ [c] else []
  end.
Definition fmtname (path : list Z) : list Z :=
  let p := last_part (reverse path) in
  if (DIRSIZ <=? length p)%nat then p else p ++ replicate (DIRSIZ - length p) 32.

Definition stat0 : stat := mkstat 0 0 0 0 0.

(** The loop of [ls] over the entries of a directory. *)
Definition ls_dir {A} (fd : Z) (path : list Z) (fin : prog A) : prog A :=
  Iter (fun _ : unit =>
    r <~ Read fd 16 ;; let '(n, de) := r in
    if negb (n =? 16) then Return (inr tt) else
    if de_inum de =? 0 then Return (inl tt) else
    let buf := path ++ [47] ++ cstr DIRSIZ (de_name de) in
    ustat buf stat0 (fun r st =>
      if r <? 0 then printf ("ls: cannot stat %s" +:+ nl) [AStr (Some buf)] (Return (inl tt))
      else printf ("%s %d %d %d" +:+ nl) [AStr (Some (fmtname buf)); AInt (st_type st); AInt (st_ino st); AInt (st_size st)] (Return (inl tt)))) tt
  (fun _ => fin).

Definition ls {A} (path : list Z) (k : prog A) : prog A :=
  fd <~ Open path 0 ;;
  if fd <? 0 then fprintf 2 ("ls: cannot open %s" +:+ nl) [AStr (Some path)] k else
  r <~ Fstat fd ;; let '(r, st) := r in
  if r <? 0 then fprintf 2 ("ls: cannot stat %s" +:+ nl) [AStr (Some path)] (Close fd ;;; k) else
  let fin := Close fd ;;; k in
  if (st_type st =? T_DEVICE) || (st_type st =? T_FILE) then
    printf ("%s %d %d %l" +:+ nl) [AStr (Some (fmtname path)); AInt (st_type st); AInt (st_ino st); AInt (st_size st)] fin
  else if st_type st =? T_DIR then
    if 512 <? Z.of_nat (length path) + 1 + Z.of_nat DIRSIZ + 1 then printf ("ls: path too long" +:+ nl) [] fin
    else ls_dir fd path fin
  else fin.

Fixpoint ls_args (args : list (list Z)) : prog unit :=
  match args with [] => Exit 0 | a :: args => ls a (ls_args args) end.
Definition ls_main (argv : list (list Z)) : prog unit :=
  if (length argv <? 2)%nat then ls [46] (Exit 0) else ls_args (tail argv).

(** Running a command: the child executes it, or prints [me] when that fails; the parent waits,
    or prints [mf] when there is no child. *)
Definition spawn {A} (mf me : string) (exec_argv : list (list Z)) (k : prog A) : prog A :=
  pid <~ Fork ;;
  if pid <? 0 then fprintf 2 mf [] (Exit 1) else
  if pid =? 0 then
    Exec (default [] (head exec_argv)) exec_argv ;;;
    fprintf 2 me [] (Exit 1)
  else Wait ;;; k.

(** The command of [find -exec] with the path as its last argument; the array has room for
    [MAXARG] pointers. *)
Definition run_command {A} (cmd_argv : list (list Z)) (buf : list Z) (k : prog A) : prog A :=
  if MAXARG <? Z.of_nat (length cmd_argv) + 2 then undefined
  else spawn ("find: fork failed" +:+ nl) ("find: exec failed" +:+ nl) (cmd_argv ++ [buf]) k.

(** An entry [de] of the directory at [path]; [go] is the recursive call. *)
Definition find_entry (go : list Z -> prog (unit + unit) -> prog (unit + unit)) (path target : list Z) (cmd : option (list (list Z))) (de : list Z) : prog (unit + unit) :=
  if de_inum de =? 0 then Return (inl tt) else
  let p := cstr DIRSIZ (de_name de) in
  let buf := path ++ [47] ++ p in
  if bool_decide (p = [46]) || bool_decide (p = [46; 46]) then Return (inl tt) else
  ustat buf stat0 (fun r st =>
    if r <? 0 then printf ("ls: cannot stat %s" +:+ nl) [AStr (Some buf)] (Return (inl tt)) else
    let rest := if st_type st =? T_DIR then go buf (Return (inl tt)) else Return (inl tt) in
    if bool_decide (p = target) then
      match cmd with
      | None => printf ("%s" +:+ nl) [AStr (Some buf)] rest
      | Some cmd_argv => run_command cmd_argv buf rest
      end
    else rest).

(** [find]; the recursion goes as deep as [depth]. *)
Fixpoint find (depth : nat) {A} (path target : list Z) (cmd : option (list (list Z))) (k : prog A) : prog A :=
  match depth with
  | O => undefined
  | S depth =>
      fd <~ Open path 0 ;;
      if fd <? 0 then fprintf 2 ("ls: cannot open %s" +:+ nl) [AStr (Some path)] k else
      r <~ Fstat fd ;;
      if r.1 <? 0 then fprintf 2 ("ls: cannot stat %s" +:+ nl) [AStr (Some path)] (Close fd ;;; k) else
      if 512 <? Z.of_nat (length path) + 1 + Z.of_nat DIRSIZ + 1 then printf ("ls: path too long" +:+ nl) [] (Close fd ;;; k) else
      Iter (fun _ : unit =>
        r <~ Read fd 16 ;; let '(n, de) := r in
        if negb (n =? 16) then Return (inr tt) else
        find_entry (fun buf => find depth buf target cmd) path target cmd de) tt
      (fun _ => Close fd ;;; k)
  end.

Definition find_main (depth : nat) (argv : list (list Z)) : prog unit :=
  let usage := fprintf 2 ("usage: find path target [-exec cmd ...]" +:+ nl) [] (Exit 1) in
  match argv with
  | [_; path; target] => find depth path target None (Exit 0)
  | _ :: path :: target :: opt :: cmd_argv0 :: rest =>
      if bool_decide (opt = bytes_of "-exec") then find depth path target (Some (cmd_argv0 :: rest)) (Exit 0) else usage
  | _ => usage
  end.

(** * Contexts: a program alone, or as the body of a loop *)

Record ctx {A} (C : prog A -> prog unit) : Prop := {
  cx_exit st : C (Exit st) = Exit st;
  cx_sys X (c : call X) k : C (Sys c k) = Sys c (fun x => C (k x));
  cx_iter S B (body : S -> prog (S + B)) s k : C (Iter body s k) = Iter body s (fun b => C (k b));
}.
Lemma ctx_id : ctx (fun p => p).
Proof. done. Qed.
Lemma ctx_bind {A} (f : A -> prog unit) : ctx (fun p => pbind p f).
Proof. done. Qed.
Lemma ctx_puts {A} (C : prog A -> prog unit) fd l k : ctx C -> C (puts fd l k) = puts fd l (C k).
Proof. intros HC. induction l as [|c l IH]; cbn [puts]; [done|]. by rewrite (cx_sys C HC), IH. Qed.

(** * What the other processes and the user see *)

Record obs := mkobs { o_out : gmap nat (list Z); o_log : list event; o_pid : Z }.
Definition obs_of (w : world) : obs := mkobs (w_out w) (w_log w) (w_pid w).

(** A line of output or a command that is run. *)
Inductive action := Show (l : list Z) | Run (path : list Z) (argv : list (list Z)).

Section acts.
Context (n1 n2 : nat) (mfork mexec : list Z).

Definition add_o (n : nat) (l : list Z) (o : obs) : obs := mkobs (alter (fun x => x ++ l) n (o_out o)) (o_log o) (o_pid o).
Definition next_o (o : obs) : obs := mkobs (o_out o) (o_log o) (o_pid o + 1).
Definition log_o (e : event) (o : obs) : obs := mkobs (o_out o) (o_log o ++ [e]) (o_pid o).

(** The actions, in order: a command is started by a new process, or its [exec] fails with a
    message; if [fork] fails a message is printed and nothing more is done. *)
Inductive acts : list action -> obs -> obs -> bool -> Prop :=
| acts_nil o : acts [] o o true
| acts_show l a o o' b : acts a (add_o n1 l o) o' b -> acts (Show l :: a) o o' b
| acts_run path argv a o o' b : acts a (log_o (EExec (o_pid o) path argv) (next_o o)) o' b -> acts (Run path argv :: a) o o' b
| acts_noexec path argv a o o' b : acts a (add_o n2 mexec (next_o o)) o' b -> acts (Run path argv :: a) o o' b
| acts_nofork path argv a o : acts (Run path argv :: a) o (add_o n2 mfork o) false.

Lemma acts_app a1 a2 o o1 o2 b : acts a1 o o1 true -> acts a2 o1 o2 b -> acts (a1 ++ a2) o o2 b.
Proof. intros H1 H2. remember true as t. induction H1; cbn [app]; [done|apply acts_show; auto|apply acts_run; auto|apply acts_noexec; auto|done]. Qed.
Lemma acts_stop a1 a2 o o1 : acts a1 o o1 false -> acts (a1 ++ a2) o o1 false.
Proof. intros H1. remember false as t. induction H1; cbn [app]; [done|apply acts_show; auto|apply acts_run; auto|apply acts_noexec; auto|apply acts_nofork]. Qed.
End acts.

(** * Descriptors and files *)

Definition free (F : list (option nat)) : nat := length (filter (fun o => o = None) F).
Lemma fd_put_count i F fd F' : fd_put i F = Some (fd, F') -> free F = S (free F').
Proof.
  unfold free. revert fd F'. induction F as [|[j|] F IH]; intros fd F' E; cbn [fd_put] in E; [done| |].
  - destruct (fd_put i F) as [[fd1 F1]|] eqn:E1; [|done]. injection E as <- <-. rewrite !filter_cons_False by done. by eapply IH.
  - injection E as <- <-. rewrite filter_cons_True, filter_cons_False by done. done.
Qed.
Lemma free_elem F : (0 < free F)%nat -> None ∈ F.
Proof. unfold free. intros H. destruct (filter (fun o => o = None) F) as [|o l] eqn:E; [cbn in H; lia|]. assert (o ∈ filter (fun o => o = None) F) as Hin by (rewrite E; apply list_elem_of_here). by apply list_elem_of_filter in Hin as [-> ?]. Qed.

(** The files that were open are as before. *)
Record ext (w w' : world) : Prop := {
  ex_fs : w_fs w' = w_fs w;
  ex_next : (w_next w <= w_next w')%nat;
  ex_files i : (i < w_next w)%nat -> w_files w' !! i = w_files w !! i;
}.
Lemma ext_refl w : ext w w.
Proof. done. Qed.
Lemma ext_trans w1 w2 w3 : ext w1 w2 -> ext w2 w3 -> ext w1 w3.
Proof. intros [A1 A2 A3] [B1 B2 B3]. split; [congruence|lia|]. intros i Hi. rewrite B3, A3 by lia. done. Qed.
Lemma ext_file F w w' fd : fds_ok F w -> ext w w' -> file_of F w' fd = file_of F w fd.
Proof.
  intros Hok He. unfold file_of. destruct (fd_slot F fd) as [i|] eqn:E; [|done]. cbn. apply (ex_files _ _ He), Hok. by eapply fd_slot_elem.
Qed.
Lemma ext_ok F w w' : fds_ok F w -> ext w w' -> fds_ok F w'.
Proof. intros Hok He i Hi. specialize (Hok i Hi). pose proof (ex_next _ _ He). lia. Qed.
Lemma ext_opened w j : ext w (opened j w).
Proof. split; cbn; [done|lia|]. intros i Hi. by rewrite lookup_insert_ne by lia. Qed.

Section walk.
Context (pid cwd : Z) (par : option Z) (n1 n2 : nat).

Record env (F : list (option nat)) (w : world) : Prop := {
  en_ok : fds_ok F w;
  en_out : file_of F w 1 = Some (OStream n1);
  en_err : file_of F w 2 = Some (OStream n2);
  en_pid : pid < w_pid w /\ 0 < w_pid w /\ forall q, par = Some q -> q < w_pid w;
}.
Lemma env_ext F w w' : env F w -> ext w w' -> w_pid w <= w_pid w' -> env F w'.
Proof.
  intros [E1 E2 E3 (E4 & E5 & E6)] He Hp. split; [by eapply ext_ok|by rewrite (ext_file F w)|by rewrite (ext_file F w)|]. split_and!; [lia|lia|]. intros q Hq. specialize (E6 q Hq). lia.
Qed.
Lemma env_put F w j fd F' : env F w -> fd_put (w_next w) F = Some (fd, F') -> env F' (opened j w).
Proof.
  intros [E1 E2 E3 E4] Hp. split; [by eapply opened_ok|by eapply opened_file|by eapply opened_file|exact E4].
Qed.

(** [stat] of a file that is there. *)
Lemma alone_ustat {A} (C : prog A -> prog unit) P path st0 k F w j nd : ctx C -> env F w -> (0 < free F)%nat -> file_at (w_fs w) cwd path = Some (j, nd) ->
  (forall w', ext w w' -> obs_of w' = obs_of w -> ends P (alone pid cwd par (C (k 0 (mkstat 1 j (n_type nd) (n_nlink nd) (Z.of_nat (length (n_data nd)))))) F w')) ->
  ends P (alone pid cwd par (C (ustat path st0 k)) F w).
Proof.
  intros HC Hen Hfr Hfile Hk. unfold ustat. rewrite (cx_sys C HC). eapply (alone_open_file pid cwd par P path _ F w n1 n2); [split; [apply Hen|by apply free_elem|apply Hen|apply Hen]|congruence|].
  intros j' nd' fd F' Hf' Hp Hj H0. assert (j' = j /\ nd' = nd) as [-> ->] by (split; congruence). rewrite (proj2 (Z.ltb_ge fd 0)) by done. rewrite (cx_sys C HC).
  assert (file_of F' (opened j w) fd = Some (OInode j 0)) as Hfd by (unfold file_of; rewrite (fd_slot_put _ _ _ _ Hp); cbn; by rewrite lookup_insert_eq).
  eapply alone_fstat; [exact Hfd|exact Hj|]. rewrite (cx_sys C HC). eapply alone_close; [exact Hfd|]. rewrite (fd_put_close _ _ _ _ Hp). cbn [fst snd]. apply Hk; [apply ext_opened|done].
Qed.

(** The loop over the entries of directory [j], which is open as slot [i]. *)
Lemma alone_dir_loop P (B : list Z -> prog (unit + unit)) fin fd i j nd F q (I : nat -> world -> Prop) : fd_slot F fd = Some i -> length (n_data nd) = (16 * q)%nat ->
  (forall m w k, (m < q)%nat -> I m w -> w_fs w j = Some nd -> w_files w !! i = Some (OInode j (16 * Z.of_nat m)) ->
     (forall w', I (S m) w' -> w_fs w' j = Some nd -> w_files w' !! i = Some (OInode j (16 * Z.of_nat (S m))) -> ends P (alone pid cwd par (k (inl tt)) F w')) ->
     ends P (alone pid cwd par (pbind (B (dirent_at (n_data nd) m)) k) F (set_files (<[i := OInode j (16 * Z.of_nat (S m))]> (w_files w)) w))) ->
  (forall w, I q w -> w_fs w j = Some nd -> w_files w !! i = Some (OInode j (16 * Z.of_nat q)) -> ends P (alone pid cwd par fin F w)) ->
  forall m w, (m <= q)%nat -> I m w -> w_fs w j = Some nd -> w_files w !! i = Some (OInode j (16 * Z.of_nat m)) ->
  ends P (alone pid cwd par (Iter (fun _ : unit => r <~ Read fd 16 ;; let '(n, de) := r in if negb (n =? 16) then Return (inr tt) else B de) tt (fun _ => fin)) F w).
Proof.
  intros Hs Hlen Hbody Hfin m w Hm. remember (q - m)%nat as todo eqn:Ht. revert m w Hm Ht. induction todo as [|todo IH]; intros m w Hm Ht HI Hj Hi; apply alone_iter; unfold unroll; cbn [pbind].
  all: eapply alone_read; [exact Hs|exact Hi|exact Hj|]; rewrite length_drop, Hlen; change (Z.to_nat 16) with 16%nat.
  - replace (Nat.min 16 (16 * q - Z.to_nat (16 * Z.of_nat m))) with 0%nat by lia. cbn [Z.of_nat Z.eqb negb pbind]. rewrite Z.add_0_r, insert_id by done. assert (m = q) as -> by lia.
    replace (set_files (w_files w) w) with w by (by destruct w). by apply Hfin.
  - replace (Nat.min 16 (16 * q - Z.to_nat (16 * Z.of_nat m))) with 16%nat by lia. change (Z.of_nat 16 =? 16) with true. cbn [negb pbind]. replace (16 * Z.of_nat m + Z.of_nat 16) with (16 * Z.of_nat (S m)) by lia.
    replace (take 16 (drop (Z.to_nat (16 * Z.of_nat m)) (n_data nd))) with (dirent_at (n_data nd) m) by (unfold dirent_at; do 2 f_equal; lia).
    apply Hbody; [lia|done|done|done|]. intros w' HI' Hj' Hi'. apply (IH (S m)); [lia|lia|done..].
Qed.
End walk.

(** * Paths into directories *)

Lemma path_words_name name : Forall (fun c => c <> 0 /\ c <> 47) name -> path_words name = [name].
Proof.
  induction 1 as [|c l [H0 H1] Hl IH]; cbn [path_words]; [done|]. rewrite (proj2 (Z.eqb_neq c 0)), (proj2 (Z.eqb_neq c slash)), IH by done. done.
Qed.
Lemma path_words_child p name : text p -> Forall (fun c => c <> 0 /\ c <> 47) name -> path_words (p ++ [47] ++ name) = path_words p ++ [name].
Proof.
  intros Hp Hn. induction Hp as [|c p Hc Hp IH]; cbn [app path_words].
  - change (47 =? 0) with false. change (47 =? slash) with true. cbv iota. by rewrite path_words_name.
  - rewrite (proj2 (Z.eqb_neq c 0)) by lia. cbn [app] in IH. rewrite IH. destruct (c =? slash); [done|]. destruct (path_words_cons p) as (x & ws & ->). done.
Qed.
Lemma elements_child p name : text p -> Forall (fun c => c <> 0 /\ c <> 47) name -> name <> [] -> (length name <= DIRSIZ)%nat -> elements (p ++ [47] ++ name) = elements p ++ [name].
Proof.
  intros Hp Hn Hne Hl. unfold elements. rewrite path_words_child by done. rewrite filter_app, fmap_app. f_equal. rewrite filter_cons_True by done. cbn. by rewrite take_ge.
Qed.
Lemma walk_snoc fs j es e : walk fs j (es ++ [e]) = walk fs j es ≫= fun j' => walk fs j' [e].
Proof.
  revert j. induction es as [|x es IH]; intros j; [done|]. cbn [app walk]. destruct (fs j) as [nd|]; [|done]. destruct (_ =? _); [|done]. destruct (dir_entry _ _); [|done]. apply IH.
Qed.
Lemma resolve_child fs cwd p name j nd j' : text p -> p <> [] -> Forall (fun c => c <> 0 /\ c <> 47) name -> name <> [] -> (length name <= DIRSIZ)%nat ->
  resolve fs cwd p = Some j -> fs j = Some nd -> n_type nd = T_DIR -> dir_entry (n_data nd) name = Some j' -> resolve fs cwd (p ++ [47] ++ name) = Some j'.
Proof.
  intros Hp Hpn Hn Hne Hl Hr Hj Hd He. unfold resolve in *. destruct p as [|c p]; [done|]. rewrite (elements_child (c :: p) name) by done. cbn [app head] in *. rewrite walk_snoc, Hr. cbn [mbind option_bind walk]. rewrite Hj, Hd, Z.eqb_refl, He. done.
Qed.

Lemma cstr_text n l : Forall (fun c => 0 <= c < 256) l -> text (cstr n l).
Proof.
  intros H. revert n. induction H as [|c l Hc Hl IH]; intros [|n]; cbn; try constructor. destruct (Z.eqb_spec c 0); constructor; [lia|apply IH].
Qed.

(** * Directory trees *)

(** A directory has whole entries, whose names are different and no paths. *)
Record dir_ok (nd : fnode) : Prop := {
  do_bytes : Forall (fun c => 0 <= c < 256) (n_data nd);
  do_len : exists q, length (n_data nd) = (16 * q)%nat;
  do_names : NoDup (filter (fun e => e.1 <> 0) (dirents (n_data nd))).*2;
  do_name e : e ∈ dirents (n_data nd) -> e.1 <> 0 -> e.2 <> [] /\ (47 ∉ e.2);
}.

Definition dots (name : list Z) : bool := bool_decide (name = [46]) || bool_decide (name = [46; 46]).

(** [j] is a directory with no more than [n] levels of directories. *)
Fixpoint dtree (fs : Z -> option fnode) (n : nat) (j : Z) : Prop :=
  match n with
  | O => False
  | S n => exists nd, fs j = Some nd /\ n_type nd = T_DIR /\ dir_ok nd /\
      forall e, e ∈ dirents (n_data nd) -> e.1 <> 0 -> dots e.2 = false -> exists nd', fs e.1 = Some nd' /\ (n_type nd' = T_DIR -> dtree fs n e.1)
  end.

(** The paths of the entries named [target] below directory [j], whose own path is [path]: an
    entry before those below it. *)
Fixpoint found (fs : Z -> option fnode) (n : nat) (path target : list Z) (j : Z) : list (list Z) :=
  match n, fs j with
  | S n, Some nd =>
      concat ((fun e : Z * list Z =>
        let buf := path ++ [47] ++ e.2 in
        if (e.1 =? 0) || dots e.2 then [] else
        (if bool_decide (e.2 = target) then [buf] else []) ++
        match fs e.1 with Some nd' => if n_type nd' =? T_DIR then found fs n buf target e.1 else [] | None => [] end) <$> dirents (n_data nd))
  | _, _ => []
  end.

Lemma NoDup_fmap_eq {A B} (f : A -> B) l x y : NoDup (f <$> l) -> x ∈ l -> y ∈ l -> f x = f y -> x = y.
Proof.
  intros Hn [i Hi]%list_elem_of_lookup_1 [k Hk]%list_elem_of_lookup_1 E. assert (i = k) as <-; [|congruence].
  eapply NoDup_lookup; [exact Hn|rewrite list_lookup_fmap, Hi; reflexivity|rewrite list_lookup_fmap, Hk; cbn; by rewrite E].
Qed.
Lemma dir_entry_in nd e : dir_ok nd -> e ∈ dirents (n_data nd) -> e.1 <> 0 -> dir_entry (n_data nd) e.2 = Some e.1.
Proof.
  intros Hok He Hu. unfold dir_entry. destruct (filter _ _) as [|e' l] eqn:E.
  - assert (e ∈ filter (fun e0 => e0.1 <> 0 /\ e0.2 = e.2) (dirents (n_data nd))) as Hin by (by apply list_elem_of_filter). rewrite E in Hin. by apply not_elem_of_nil in Hin.
  - assert (e' ∈ filter (fun e0 => e0.1 <> 0 /\ e0.2 = e.2) (dirents (n_data nd))) as Hin by (rewrite E; apply list_elem_of_here). apply list_elem_of_filter in Hin as [[Hu' Hn] He'].
    f_equal. f_equal. eapply (NoDup_fmap_eq snd); [apply (do_names _ Hok)|by apply list_elem_of_filter|by apply list_elem_of_filter|done].
Qed.
Lemma dirent_in d m q : length d = (16 * q)%nat -> (m < q)%nat -> dirents d !! m = Some (de_inum (dirent_at d m), cstr DIRSIZ (de_name (dirent_at d m))).
Proof.
  intros Hl Hm. unfold dirents. rewrite list_lookup_fmap, lookup_seq_lt; [done|]. rewrite Hl, Nat.mul_comm, Nat.div_mul by done. done.
Qed.
Lemma dirents_length d q : length d = (16 * q)%nat -> length (dirents d) = q.
Proof. intros Hl. unfold dirents. rewrite length_fmap, length_seq, Hl, Nat.mul_comm. by apply Nat.div_mul. Qed.
Lemma dirent_bytes d m : Forall (fun c => 0 <= c < 256) d -> Forall (fun c => 0 <= c < 256) (de_name (dirent_at d m)).
Proof. intros H. unfold de_name, dirent_at. by apply Forall_take, Forall_drop, Forall_take, Forall_drop. Qed.

(** An entry of a directory is the file at its path. *)
Lemma entry_file fs cwd p j nd m q nd' : text p -> p <> [] -> dir_ok nd -> length (n_data nd) = (16 * q)%nat -> (m < q)%nat -> resolve fs cwd p = Some j -> fs j = Some nd -> n_type nd = T_DIR ->
  let de := dirent_at (n_data nd) m in let name := cstr DIRSIZ (de_name de) in de_inum de <> 0 -> fs (de_inum de) = Some nd' ->
  file_at fs cwd (p ++ [47] ++ name) = Some (de_inum de, nd') /\ resolve fs cwd (p ++ [47] ++ name) = Some (de_inum de) /\ text name /\ name <> [] /\ (length name <= DIRSIZ)%nat.
Proof.
  intros Hp Hpn Hok Hl Hm Hr Hj Ht de name Hu Hnd'. pose proof (dirent_in _ _ _ Hl Hm) as Hin. fold de name in Hin. apply list_elem_of_lookup_2 in Hin.
  destruct (do_name _ Hok _ Hin Hu) as [Hne Hsl]. cbn in Hne, Hsl. assert (text name) as Htx by (apply cstr_text, dirent_bytes, Hok). pose proof (cstr_length DIRSIZ (de_name de)) as Hlen. fold name in Hlen.
  assert (resolve fs cwd (p ++ [47] ++ name) = Some (de_inum de)) as Hres.
  { eapply resolve_child; try done. - apply Forall_forall. intros c Hc. unfold text in Htx. rewrite Forall_forall in Htx. specialize (Htx c Hc). split; [lia|by intros ->]. - by apply (dir_entry_in nd (de_inum de, name)). }
  split_and!; [|done|done|done|done]. unfold file_at. rewrite Hres. cbn [mbind option_bind]. by rewrite Hnd'.
Qed.

(** * find *)

Lemma acts_pid n1 n2 mf me a o o' b : acts n1 n2 mf me a o o' b -> o_pid o <= o_pid o'.
Proof. induction 1; cbn in *; lia. Qed.
Lemma print_lit {A} (s : string) fd (k : prog A) : forallb (fun x => (0 <? x) && (x <? 256) && negb (x =? 37)) (bytes_of s) = true -> vprintf fd (bytes_of s) [] k = puts fd (bytes_of s) k.
Proof.
  intros Hs%piece_okb_lit. pose proof (vprintf_puts [Lit (bytes_of s)] fd k) as E. cbn [fmap list_fmap piece_fmt piece_arg piece_text concat] in E. rewrite !app_nil_r in E. apply E. by repeat constructor.
Qed.

Definition ok_text (m : string) : bool := forallb (fun x => (0 <? x) && (x <? 256) && negb (x =? 37)) (bytes_of m).

(** [spawn] is one action. *)
Lemma alone_spawn pid cwd par n1 n2 {A} (C : prog A -> prog unit) P (mf me : string) a k F w : ctx C -> file_of F w 2 = Some (OStream n2) -> pid < w_pid w -> 0 < w_pid w -> (forall q, par = Some q -> q < w_pid w) -> ok_text mf = true -> ok_text me = true ->
  let did := acts n1 n2 (bytes_of mf) (bytes_of me) [Run (default [] (head a)) a] (obs_of w) in
  (forall w', ext w w' -> w_in w' = w_in w -> did (obs_of w') true -> ends P (alone pid cwd par (C k) F w')) ->
  (forall w', did (obs_of w') false -> ends P (alone pid cwd par (Exit 1) F w')) ->
  ends P (alone pid cwd par (C (spawn mf me a k)) F w).
Proof.
  intros HC H2 Hp1 Hp2 Hp3 Hmf Hme did Hok Hno. unfold spawn. rewrite (cx_sys C HC).
  assert (forall x (m : string), ok_text m = true -> C (fprintf 2 m [] (Exit x)) = puts 2 (bytes_of m) (Exit x)) as Hm.
  { intros x m Hm. unfold fprintf. rewrite print_lit by done. by rewrite (ctx_puts C), (cx_exit C HC). }
  eapply (alone_run P pid cwd par F w n2 _ (C k) (default [] (head a)) a (bytes_of me) 1).
  - lia.
  - intros E. specialize (Hp3 _ E). lia.
  - exact H2.
  - change (0 <? 0) with false. change (0 =? 0) with true. cbv iota. rewrite (cx_sys C HC). rewrite Hm by done. done.
  - rewrite (proj2 (Z.ltb_ge _ _)), (proj2 (Z.eqb_neq _ _)) by lia. by rewrite (cx_sys C HC).
  - change (-1 <? 0) with true. cbv iota. rewrite Hm by done. eapply alone_puts; [exact H2|]. apply Hno. apply acts_nofork.
  - apply Hok; [done|done|]. apply acts_run, acts_nil.
  - apply Hok; [done|done|]. apply acts_noexec, acts_nil.
Qed.

Section find.
Context (pid cwd : Z) (par : option Z) (n1 n2 : nat) (target : list Z) (cmd : option (list (list Z))).
Hypothesis cmd_ok : forall a, cmd = Some a -> Z.of_nat (length a) + 2 <= MAXARG.

Definition mfork : list Z := bytes_of ("find: fork failed" +:+ nl).
Definition mexec : list Z := bytes_of ("find: exec failed" +:+ nl).
(** What is done for an entry that is found. *)
Definition act (p : list Z) : action :=
  match cmd with None => Show (p ++ [10]) | Some a => Run (default [] (head (a ++ [p]))) (a ++ [p]) end.
Definition did : list action -> obs -> obs -> bool -> Prop := acts n1 n2 mfork mexec.

Lemma env_put_ext F w fd F' w0 : env pid par n1 n2 F w -> fd_put (w_next w) F = Some (fd, F') -> ext w w0 -> (w_next w < w_next w0)%nat -> w_pid w <= w_pid w0 -> env pid par n1 n2 F' w0.
Proof.
  intros Hen Hp He Hn Hpid. pose proof (env_ext _ _ _ _ _ _ _ Hen He Hpid) as Hen0. split; [| | |apply Hen0].
  - intros i Hi. apply fd_put_spec in Hp as (_ & _ & ->). apply list_elem_of_lookup_1 in Hi as [k Hk]. apply list_lookup_insert_Some in Hk as [(_ & [= E] & _)|[_ Hk]]; [lia|]. apply list_elem_of_lookup_2 in Hk. by apply (en_ok _ _ _ _ _ _ Hen0).
  - rewrite <- (file_of_put _ _ _ _ _ _ _ Hp (en_out _ _ _ _ _ _ Hen)). apply Hen0.
  - rewrite <- (file_of_put _ _ _ _ _ _ _ Hp (en_err _ _ _ _ _ _ Hen)). apply Hen0.
Qed.

Lemma alone_act {A} (C : prog A -> prog unit) P buf rest F w : ctx C -> env pid par n1 n2 F w -> text buf ->
  (forall w', ext w w' -> did [act buf] (obs_of w) (obs_of w') true -> ends P (alone pid cwd par (C rest) F w')) ->
  (forall w', did [act buf] (obs_of w) (obs_of w') false -> ends P (alone pid cwd par (Exit 1) F w')) ->
  ends P (alone pid cwd par (C (match cmd with None => printf ("%s" +:+ nl) [AStr (Some buf)] rest | Some a => run_command a buf rest end)) F w).
Proof.
  intros HC Hen Hb Hok Hno. unfold act in *. destruct cmd as [a|].
  - unfold run_command. rewrite (proj2 (Z.ltb_ge _ _)) by (by apply cmd_ok). destruct (en_pid _ _ _ _ _ _ Hen) as (Hp1 & Hp2 & Hp3).
    eapply (alone_spawn pid cwd par n1 n2 C); try done; [apply Hen|]. intros w' He _ Hd. by apply Hok.
  - unfold printf. change (bytes_of ("%s" +:+ nl)) with (bytes_of "" ++ [37; 115; 10]). pose proof (vprintf_puts (A := A) [Str (Some buf); Lit [10]] 1 rest) as E. cbn [fmap list_fmap piece_fmt piece_arg piece_text concat app] in E.
    rewrite (until0_text buf Hb) in E. cbn [app bytes_of String.list_ascii_of_string fmap list_fmap]. rewrite E by (repeat constructor; [by apply text_bytes|cbn; lia..]). rewrite (ctx_puts C) by done. eapply alone_puts; [apply Hen|]. apply Hok; [done|]. apply acts_show, acts_nil.
Qed.

(** The entry [e] of the directory at [path]. *)
Definition entry_found (fs : Z -> option fnode) (n : nat) (path : list Z) (e : Z * list Z) : list (list Z) :=
  let buf := path ++ [47] ++ e.2 in
  if (e.1 =? 0) || dots e.2 then [] else
  (if bool_decide (e.2 = target) then [buf] else []) ++
  match fs e.1 with Some nd' => if n_type nd' =? T_DIR then found fs n buf target e.1 else [] | None => [] end.
Lemma found_S fs n path j nd : fs j = Some nd -> found fs (S n) path target j = concat (entry_found fs n path <$> dirents (n_data nd)).
Proof. intros Hj. cbn [found]. by rewrite Hj. Qed.

(** Going on after [m] entries of directory [j], open as slot [i] of [F']. *)
Record after (w : world) (path : list Z) (n m : nat) (nd : fnode) (w0 : world) : Prop := {
  af_ext : ext w w0;
  af_next : (w_next w < w_next w0)%nat;
  af_did : did (act <$> concat (entry_found (w_fs w) n path <$> take m (dirents (n_data nd)))) (obs_of w) (obs_of w0) true;
}.
Lemma after_same w path n m nd w0 w1 : after w path n m nd w0 -> ext w w1 -> (w_next w0 <= w_next w1)%nat -> obs_of w1 = obs_of w0 -> after w path n m nd w1.
Proof. intros [A1 A2 A3] He Hn Ho. split; [done|lia|]. by rewrite Ho. Qed.
Lemma after_step w path n m nd w0 w1 e a : after w path n m nd w0 -> dirents (n_data nd) !! m = Some e -> entry_found (w_fs w) n path e = a ->
  ext w w1 -> (w_next w0 <= w_next w1)%nat -> did (act <$> a) (obs_of w0) (obs_of w1) true -> after w path n (S m) nd w1.
Proof.
  intros [A1 A2 A3] He <- Hext Hn Hd. split; [done|lia|]. rewrite (take_S_r _ _ _ He), fmap_app, concat_app, fmap_app. cbn [fmap list_fmap concat]. rewrite app_nil_r. by eapply acts_app.
Qed.
(** If it ends in the middle of an entry, that is part of the whole. *)
Lemma after_stop w path n m nd w0 w1 e a a' j : after w path n m nd w0 -> dirents (n_data nd) !! m = Some e -> entry_found (w_fs w) n path e = a ++ a' -> w_fs w j = Some nd ->
  did (act <$> a) (obs_of w0) (obs_of w1) false -> did (act <$> found (w_fs w) (S n) path target j) (obs_of w) (obs_of w1) false.
Proof.
  intros [A1 A2 A3] He Ee Hj Hd. rewrite (found_S _ _ _ _ _ Hj). rewrite <- (take_drop_middle _ _ _ He) at 1. rewrite fmap_app, fmap_cons, concat_app, fmap_app. eapply acts_app; [exact A3|]. cbn [concat]. rewrite Ee, <- app_assoc, fmap_app. by apply acts_stop.
Qed.
Lemma after_pid w path n m nd w0 : after w path n m nd w0 -> w_pid w <= w_pid w0.
Proof. intros [_ _ Hd]. by apply acts_pid in Hd. Qed.
Lemma after_env w path n m nd w0 F fd F' : env pid par n1 n2 F w -> fd_put (w_next w) F = Some (fd, F') -> after w path n m nd w0 -> env pid par n1 n2 F' w0.
Proof. intros Hen Hp Ha. eapply env_put_ext; [exact Hen|exact Hp|apply Ha|apply Ha|by eapply after_pid]. Qed.

(** [find] on a tree of [n] levels, with enough descriptors and short enough paths. *)
Definition finds (n : nat) : Prop := forall A (C : prog A -> prog unit) depth path j F w K P, ctx C -> (n <= depth)%nat -> env pid par n1 n2 F w -> (n < free F)%nat ->
  text path -> path <> [] -> Z.of_nat (length path) + 15 * Z.of_nat n + 1 <= 512 -> resolve (w_fs w) cwd path = Some j -> dtree (w_fs w) n j ->
  (forall w', ext w w' -> did (act <$> found (w_fs w) n path target j) (obs_of w) (obs_of w') true -> ends P (alone pid cwd par (C K) F w')) ->
  (forall w' F', did (act <$> found (w_fs w) n path target j) (obs_of w) (obs_of w') false -> ends P (alone pid cwd par (Exit 1) F' w')) ->
  ends P (alone pid cwd par (C (find depth path target cmd K)) F w).

(** What follows the printing of an entry: the directories below it. *)
Lemma alone_rest n depth path (e : Z * list Z) nd' F w (k : unit + unit -> prog unit) P : finds n -> (n <= depth)%nat -> env pid par n1 n2 F w -> (n < free F)%nat -> let buf := path ++ [47] ++ e.2 in
  text buf -> buf <> [] -> Z.of_nat (length buf) + 15 * Z.of_nat n + 1 <= 512 -> resolve (w_fs w) cwd buf = Some e.1 -> w_fs w e.1 = Some nd' -> (n_type nd' = T_DIR -> dtree (w_fs w) n e.1) ->
  let below := match w_fs w e.1 with Some nd' => if n_type nd' =? T_DIR then found (w_fs w) n buf target e.1 else [] | None => [] end in
  (forall w', ext w w' -> did (act <$> below) (obs_of w) (obs_of w') true -> ends P (alone pid cwd par (k (inl tt)) F w')) ->
  (forall w' F', did (act <$> below) (obs_of w) (obs_of w') false -> ends P (alone pid cwd par (Exit 1) F' w')) ->
  ends P (alone pid cwd par (pbind (if n_type nd' =? T_DIR then find depth buf target cmd (Return (inl tt)) else Return (inl tt)) k) F w).
Proof.
  intros IH Hd Hen Hfr buf Htx Hne Hlen Hres Hnd Htr below Hok Hno. unfold below in *. rewrite Hnd in Hok, Hno. destruct (Z.eqb_spec (n_type nd') T_DIR) as [E|E].
  - eapply (IH _ (fun p => pbind p k) depth buf e.1 F w (Return (inl tt)) P (ctx_bind k)); try done. by apply Htr.
  - cbn [pbind]. apply Hok; [apply ext_refl|apply acts_nil].
Qed.

Lemma alone_entry n depth path j F w fd F' nd q P m w0 (k : unit + unit -> prog unit) : finds n -> (n <= depth)%nat -> env pid par n1 n2 F w -> fd_put (w_next w) F = Some (fd, F') -> (n < free F')%nat ->
  text path -> path <> [] -> Z.of_nat (length path) + 15 * Z.of_nat (S n) + 1 <= 512 -> resolve (w_fs w) cwd path = Some j -> w_fs w j = Some nd -> n_type nd = T_DIR -> dir_ok nd -> length (n_data nd) = (16 * q)%nat -> (m < q)%nat ->
  (forall e, e ∈ dirents (n_data nd) -> e.1 <> 0 -> dots e.2 = false -> exists nd', w_fs w e.1 = Some nd' /\ (n_type nd' = T_DIR -> dtree (w_fs w) n e.1)) ->
  after w path n m nd w0 -> w_files w0 !! w_next w = Some (OInode j (16 * Z.of_nat (S m))) ->
  (forall w', after w path n (S m) nd w' -> w_files w' !! w_next w = Some (OInode j (16 * Z.of_nat (S m))) -> ends P (alone pid cwd par (k (inl tt)) F' w')) ->
  (forall w' F', did (act <$> found (w_fs w) (S n) path target j) (obs_of w) (obs_of w') false -> ends P (alone pid cwd par (Exit 1) F' w')) ->
  ends P (alone pid cwd par (pbind (find_entry (fun buf => find depth buf target cmd) path target cmd (dirent_at (n_data nd) m)) k) F' w0).
Proof.
  intros IH Hd Hen Hp Hfr Htx Hne Hlen Hres Hj Hty Hdir Hl Hm Htr Haf Hi Hk Hno. pose proof (dirent_in _ _ _ Hl Hm) as Hin. set (de := dirent_at (n_data nd) m) in *. set (e := (de_inum de, cstr DIRSIZ (de_name de))) in *. assert (de_inum de = e.1) as H1 by done. assert (cstr DIRSIZ (de_name de) = e.2) as H2 by done.
  pose proof (after_env _ _ _ _ _ _ _ _ _ Hen Hp Haf) as Hen0. unfold find_entry. fold de. destruct (Z.eqb_spec (de_inum de) 0) as [E0|E0].
  { cbn [pbind]. apply Hk; [|done]. eapply (after_step _ _ _ _ _ _ _ _ []); [exact Haf|exact Hin|unfold entry_found, e; cbn [fst]; by rewrite E0|apply Haf|lia|apply acts_nil]. }
  cbv zeta. change (bool_decide (cstr DIRSIZ (de_name de) = [46]) || bool_decide (cstr DIRSIZ (de_name de) = [46; 46])) with (dots e.2). destruct (dots e.2) eqn:Ed.
  { cbn [pbind]. apply Hk; [|done]. eapply (after_step _ _ _ _ _ _ _ _ []); [exact Haf|exact Hin|unfold entry_found; by rewrite Ed, orb_true_r|apply Haf|lia|apply acts_nil]. }
  destruct (Htr e (list_elem_of_lookup_2 _ _ _ Hin) E0 Ed) as (nd' & Hnd' & Htr'). pose proof (ex_fs _ _ (af_ext _ _ _ _ _ _ Haf)) as Hfs.
  destruct (entry_file (w_fs w) cwd path j nd m q nd' Htx Hne Hdir Hl Hm Hres Hj Hty E0 Hnd') as (Hfile & Hres' & Htn & Hnn & Hln). fold de in Hfile, Hres', Htn, Hnn, Hln. clearbody e. rewrite H1 in Hfile, Hres', E0. rewrite H2 in Hfile, Hres', Htn, Hnn, Hln. rewrite H2.
  assert (text (path ++ [47] ++ e.2)) as Htb by (apply Forall_app; split; [done|]; apply Forall_app; split; [repeat constructor; lia|done]).
  assert (Z.of_nat (length (path ++ [47] ++ e.2)) + 15 * Z.of_nat n + 1 <= 512) as Hlb by (rewrite !length_app; change DIRSIZ with 14%nat in Hln; cbn [length]; lia).
  eapply (alone_ustat pid cwd par n1 n2 (fun p => pbind p k)); [apply ctx_bind|exact Hen0|lia|rewrite Hfs; exact Hfile|]. intros w2 He2 Ho2. change (0 <? 0) with false. cbv iota. cbn [st_type].
  assert (entry_found (w_fs w) n path e = (if bool_decide (e.2 = target) then [path ++ [47] ++ e.2] else []) ++ match w_fs w e.1 with Some nd' => if n_type nd' =? T_DIR then found (w_fs w) n (path ++ [47] ++ e.2) target e.1 else [] | None => [] end) as Ee.
  { unfold entry_found. rewrite (proj2 (Z.eqb_neq _ _) E0), Ed. done. }
  (* the directories below, after a world [w3] in which the entry itself is done *)
  assert (forall w3, ext w0 w3 -> did (act <$> (if bool_decide (e.2 = target) then [path ++ [47] ++ e.2] else [])) (obs_of w0) (obs_of w3) true ->
    ends P (alone pid cwd par (pbind (if n_type nd' =? T_DIR then find depth (path ++ [47] ++ e.2) target cmd (Return (inl tt)) else Return (inl tt)) k) F' w3)) as Hrest.
  { intros w3 He3 Hd3. pose proof (ext_trans _ _ _ (af_ext _ _ _ _ _ _ Haf) He3) as Hw3. assert (env pid par n1 n2 F' w3) as Hen3 by (eapply env_ext; [exact Hen0|exact He3|by apply acts_pid in Hd3]).
    apply (alone_rest n depth path e nd' F' w3 k P IH Hd Hen3 Hfr Htb); rewrite ?(ex_fs _ _ Hw3); try done; [by destruct path| |].
    - intros w' He' Hd'. apply Hk; [|rewrite (ex_files _ _ He'), (ex_files _ _ He3); [done|apply Haf|eapply Nat.lt_le_trans; [apply Haf|apply He3]]].
      eapply after_step; [exact Haf|exact Hin|exact Ee|by eapply ext_trans|etransitivity; [apply He3|apply He']|]. rewrite fmap_app. by eapply acts_app.
    - intros w' F'' Hd'. apply Hno. eapply (after_stop _ _ _ _ _ _ _ _ (entry_found (w_fs w) n path e) []); [exact Haf|exact Hin|by rewrite app_nil_r|exact Hj|]. rewrite Ee, fmap_app. by eapply acts_app. }
  destruct (bool_decide (e.2 = target)) eqn:Et.
  - eapply (alone_act (fun p => pbind p k)); [apply ctx_bind|eapply env_ext; [exact Hen0|exact He2|by injection Ho2 as _ _ ->]|done| |].
    + intros w3 He3 Hd3. apply Hrest; [by eapply ext_trans|]. rewrite <- Ho2. exact Hd3.
    + intros w3 Hd3. apply Hno. eapply after_stop; [exact Haf|exact Hin|exact Ee|exact Hj|]. rewrite <- Ho2. exact Hd3.
  - apply Hrest; [done|]. rewrite Ho2. apply acts_nil.
Qed.

Lemma all_finds n : finds n.
Proof.
  induction n as [|n IH]; intros A C depth path j F w K P HC Hd Hen Hfr Htx Hne Hlen Hres Htree Hok Hno; [done|]. destruct depth as [|depth]; [lia|]. destruct Htree as (nd & Hj & Hty & Hdir & Htr). destruct (do_len _ Hdir) as [q Hq].
  cbn [find]. rewrite (cx_sys C HC). eapply (alone_open_file pid cwd par P path _ F w n1 n2); [split; [apply Hen|apply free_elem; lia|apply Hen|apply Hen]|unfold file_at; rewrite Hres; cbn [mbind option_bind]; by rewrite Hj|].
  intros j' nd' fd F' Hf' Hp Hj' H0. unfold file_at in Hf'. rewrite Hres in Hf'. cbn [mbind option_bind] in Hf'. rewrite Hj in Hf'. injection Hf' as <- <-. rewrite (proj2 (Z.ltb_ge fd 0)) by done. rewrite (cx_sys C HC).
  assert (forall w0, w_files w0 !! w_next w = Some (OInode j (16 * Z.of_nat q)) -> file_of F' w0 fd = Some (OInode j (16 * Z.of_nat q))) as Hfd by (intros w0 Hw0; unfold file_of; by rewrite (fd_slot_put _ _ _ _ Hp)).
  eapply alone_fstat; [unfold file_of; rewrite (fd_slot_put _ _ _ _ Hp); cbn; by rewrite lookup_insert_eq|exact Hj|]. cbn [fst]. change (0 <? 0) with false. cbv iota. change (Z.of_nat DIRSIZ) with 14. rewrite (proj2 (Z.ltb_ge _ _)) by lia. rewrite (cx_iter C HC).
  eapply (alone_dir_loop pid cwd par P (find_entry (fun buf => find depth buf target cmd) path target cmd) _ fd (w_next w) j nd F' q (fun m w0 => after w path n m nd w0)) with (m := 0%nat).
  - by eapply fd_slot_put.
  - exact Hq.
  - intros m w0 k Hm Haf Hj0 Hi0 Hk. assert (ext w (set_files (<[w_next w := OInode j (16 * Z.of_nat (S m))]> (w_files w0)) w0)) as He.
    { destruct (af_ext _ _ _ _ _ _ Haf) as [X1 X2 X3]. split; [done|done|]. intros i Hi. cbn. rewrite lookup_insert_ne by lia. by apply X3. }
    eapply (alone_entry n depth path j F w fd F' nd q P m _ k IH); try done; [lia|apply fd_put_count in Hp; lia|by eapply after_same|cbn; by rewrite lookup_insert_eq|]. intros w' Haf' Hi'. apply Hk; [done| |done]. by rewrite (ex_fs _ _ (af_ext _ _ _ _ _ _ Haf')).
  - intros w0 Haf _ Hi. rewrite (cx_sys C HC). eapply alone_close; [by apply Hfd|]. rewrite (fd_put_close _ _ _ _ Hp). apply Hok; [apply Haf|]. rewrite (found_S _ _ _ _ _ Hj). pose proof (af_did _ _ _ _ _ _ Haf) as Hdd. by rewrite take_ge in Hdd by (by rewrite (dirents_length _ _ Hq)).
  - lia.
  - split; [apply ext_opened|cbn; lia|]. rewrite take_0. apply acts_nil.
  - exact Hj.
  - cbn. by rewrite lookup_insert_eq.
Qed.
End find.

(** The state at the end of a run with these actions. *)
Definition acted (pid : Z) (n1 n2 : nat) (mf me : list Z) (a : list action) (w : world) (c : config) : Prop :=
  exists b x o, acts n1 n2 mf me a (obs_of w) o b /\ obs_of (wd c) = o /\ procs c = {[ pid := x ]} /\ pr_state x = Zombie (if b then 0 else 1).

(** C30: [find path target] on a directory tree prints the path of every entry with that name,
    in the order of the directories, an entry before those below it, and nothing else; with
    [-exec cmd args] it runs the command with its arguments and the path for every such entry
    instead, one after the other. Entries that are not in use are skipped, and so are [.] and
    [..]. This holds for every tree whose depth leaves a descriptor for each level and whose
    paths fit the buffer of 512 bytes. *)
Theorem find_correct pid cwd par n1 n2 F w depth n path target cmd j : par <> Some pid -> env pid par n1 n2 F w -> (forall a, cmd = Some a -> (1 <= length a <= 30)%nat) -> (n <= depth)%nat -> (n < free F)%nat ->
  text path -> path <> [] -> Z.of_nat (length path) + 15 * Z.of_nat n + 1 <= 512 -> resolve (w_fs w) cwd path = Some j -> dtree (w_fs w) n j ->
  ends (acted pid n1 n2 mfork mexec (act cmd <$> found (w_fs w) n path target j) w)
    (alone pid cwd par (find_main depth (match cmd with None => [bytes_of "find"; path; target] | Some a => [bytes_of "find"; path; target; bytes_of "-exec"] ++ a end)) F w).
Proof.
  intros Hpar Hen Hcmd Hd Hfr Htx Hne Hlen Hres Htree.
  assert (find_main depth (match cmd with None => [bytes_of "find"; path; target] | Some a => [bytes_of "find"; path; target; bytes_of "-exec"] ++ a end) = find depth path target cmd (Exit 0)) as ->.
  { destruct cmd as [[|c0 a]|]; [specialize (Hcmd [] eq_refl); cbn in Hcmd; lia| |done]. cbn [app find_main]. by rewrite bool_decide_true. }
  apply (all_finds pid cwd par n1 n2 target cmd) with (n := n) (C := fun p => p) (K := Exit 0) (j := j); try done; [intros a Ha; specialize (Hcmd a Ha); unfold MAXARG; lia| |].
  - intros w' _ Hd'. apply alone_exit; [|done]. eexists true, _, _. split_and!; [exact Hd'|done..].
  - intros w' F' Hd'. apply alone_exit; [|done]. eexists false, _, _. split_and!; [exact Hd'|done..].
Qed.

(** * An example *)

Definition dir_okb (nd : fnode) : bool :=
  forallb (fun c => (0 <=? c) && (c <? 256)) (n_data nd) && (length (n_data nd) mod 16 =? 0)%nat &&
  bool_decide (NoDup (filter (fun e => e.1 <> 0) (dirents (n_data nd))).*2) &&
  forallb (fun e => (e.1 =? 0) || (negb (bool_decide (e.2 = [])) && negb (bool_decide (47 ∈ e.2)))) (dirents (n_data nd)).
Fixpoint dtreeb (fs : Z -> option fnode) (n : nat) (j : Z) : bool :=
  match n, fs j with
  | S n, Some nd => (n_type nd =? T_DIR) && dir_okb nd &&
      forallb (fun e => (e.1 =? 0) || dots e.2 || match fs e.1 with Some nd' => negb (n_type nd' =? T_DIR) || dtreeb fs n e.1 | None => false end) (dirents (n_data nd))
  | _, _ => false
  end.
Lemma dir_okb_sound nd : dir_okb nd = true -> dir_ok nd.
Proof.
  unfold dir_okb. rewrite !andb_true_iff. intros [[[H1 H2] H3%bool_decide_eq_true] H4]. split; [| |done|].
  - apply Forall_forall. intros c Hc. rewrite forallb_forall in H1. specialize (H1 c (proj1 (list_elem_of_In _ _) Hc)). lia.
  - apply Nat.eqb_eq in H2. exists (length (n_data nd) / 16)%nat. apply Nat.Div0.div_exact in H2. done.
  - intros e He Hu. rewrite forallb_forall in H4. specialize (H4 e (proj1 (list_elem_of_In _ _) He)). rewrite (proj2 (Z.eqb_neq _ _) Hu) in H4. cbn [orb] in H4. apply andb_true_iff in H4 as [H4%negb_true_iff%bool_decide_eq_false H5%negb_true_iff%bool_decide_eq_false]. done.
Qed.
Lemma dtreeb_sound fs n j : dtreeb fs n j = true -> dtree fs n j.
Proof.
  revert j. induction n as [|n IH]; intros j; cbn [dtreeb dtree]; [done|]. destruct (fs j) as [nd|] eqn:Hj; [|done]. rewrite !andb_true_iff. intros [[H1%Z.eqb_eq H2%dir_okb_sound] H3]. exists nd. split_and!; [done..|].
  intros e He Hu Hd. rewrite forallb_forall in H3. specialize (H3 e (proj1 (list_elem_of_In _ _) He)). rewrite (proj2 (Z.eqb_neq _ _) Hu), Hd in H3. cbn [orb] in H3. destruct (fs e.1) as [nd'|]; [|done]. exists nd'. split; [done|]. intros Ht. rewrite Ht in H3. by apply IH.
Qed.

Lemma find_correct_witness : ends (acted 3 1 2 mfork mexec [Show (bytes_of "./a" ++ [10]); Show (bytes_of "./d/a" ++ [10])] demo_world)
  (alone 3 1 (Some 2) (find_main 16 (bytes_of <$> ["find"; "."; "a"]%string)) demo_fds demo_world).
Proof.
  assert (act None <$> found (w_fs demo_world) 2 (bytes_of ".") (bytes_of "a") 1 = [Show (bytes_of "./a" ++ [10]); Show (bytes_of "./d/a" ++ [10])]) as <- by (vm_compute; reflexivity).
  apply (find_correct 3 1 (Some 2) 1 2 demo_fds demo_world 16 2 (bytes_of ".") (bytes_of "a") None 1).
  - discriminate.
  - destruct demo_stdio as [S1 S2 S3 S4]. split; [exact S1|exact S3|exact S4|]. split; [reflexivity|]. split; [reflexivity|]. intros q [= <-]. reflexivity.
  - discriminate.
  - lia.
  - vm_compute. lia.
  - repeat constructor.
  - discriminate.
  - vm_compute. discriminate.
  - vm_compute. reflexivity.
  - apply dtreeb_sound. vm_compute. reflexivity.
Defined.

(** * [ls] prints a line for every file and every entry of a directory *)

(** ** What is printed *)

(** A name padded to the width of directory entries. *)
Definition pad (name : list Z) : list Z := name ++ replicate (DIRSIZ - length name) 32.
(** The name, the type, the inode number and the size. *)
Definition ls_line (name : list Z) (j : Z) (nd : fnode) : list Z :=
  pad name ++ [32] ++ bytes_of (pretty (n_type nd)) ++ [32] ++ bytes_of (pretty j) ++ [32] ++ bytes_of (pretty (Z.of_nat (length (n_data nd)))) ++ [10].
Definition entry_lines (fs : Z -> option fnode) (e : Z * list Z) : list Z :=
  if e.1 =? 0 then [] else match fs e.1 with Some nd => ls_line e.2 e.1 nd | None => [] end.
Definition ls_text (fs : Z -> option fnode) (cwd : Z) (path : list Z) : list Z :=
  match file_at fs cwd path with
  | Some (j, nd) =>
      if n_type nd =? T_DIR then concat (entry_lines fs <$> dirents (n_data nd))
      else if (n_type nd =? T_FILE) || (n_type nd =? T_DEVICE) then ls_line (last_part (reverse path)) j nd
      else []
  | None => []
  end.

(** The files are those of a disk: types, inode numbers and sizes are small. *)
Definition small (fs : Z -> option fnode) : Prop := forall j nd, fs j = Some nd -> 0 <= n_type nd < 32768 /\ 0 <= j < 2147483648 /\ Z.of_nat (length (n_data nd)) < 2147483648.

(** A path that [ls] can list: a directory with a short path and entries that are there, or a file. *)
Definition listable (fs : Z -> option fnode) (cwd : Z) (path : list Z) : Prop :=
  text path /\ path <> [] /\ exists j nd, resolve fs cwd path = Some j /\ fs j = Some nd /\
  (n_type nd = T_DIR -> dir_ok nd /\ Z.of_nat (length path) + 16 <= 512 /\ forall e, e ∈ dirents (n_data nd) -> e.1 <> 0 -> exists nd', fs e.1 = Some nd').

Lemma last_part_app l r : 47 ∉ l -> last_part (l ++ 47 :: r) = reverse l.
Proof.
  induction l as [|c l IH]; intros Hn; cbn [app last_part]; [done|]. apply not_elem_of_cons in Hn as [Hc Hn]. rewrite (proj2 (Z.eqb_neq c 47)) by (intros ->; done). cbn [negb]. rewrite IH by done. by rewrite reverse_cons.
Qed.
Lemma last_part_child path name : 47 ∉ name -> last_part (reverse (path ++ [47] ++ name)) = name.
Proof.
  intros Hn. rewrite !reverse_app. change (reverse [47]) with [47]. rewrite <- app_assoc. cbn [app]. rewrite last_part_app by (by rewrite elem_of_reverse). apply reverse_involutive.
Qed.
Lemma fmtname_pad path : fmtname path = pad (last_part (reverse path)).
Proof. unfold fmtname, pad. destruct (Nat.leb_spec DIRSIZ (length (last_part (reverse path)))); [|done]. replace (DIRSIZ - _)%nat with 0%nat by lia. by rewrite app_nil_r. Qed.
Lemma last_part_text l : text l -> text (last_part l).
Proof. unfold text. induction 1 as [|c l Hc Hl IH]; cbn [last_part]; [constructor|]. destruct (c =? 47); cbn [negb]; [constructor|]. apply Forall_app. split; [done|]. constructor; [done|constructor]. Qed.
Lemma pad_text name : text name -> text (pad name).
Proof. intros H. apply Forall_app. split; [done|]. apply Forall_replicate. lia. Qed.

(** The two formats of [ls] print the same line for small numbers. *)
Lemma line_puts {A} (last : string) (k : prog A) name j nd : last = "%d"%string \/ last = "%l"%string -> text name -> 0 <= n_type nd < 32768 -> 0 <= j < 2147483648 -> Z.of_nat (length (n_data nd)) < 2147483648 ->
  printf (("%s %d %d " +:+ last) +:+ nl) [AStr (Some (pad name)); AInt (n_type nd); AInt j; AInt (Z.of_nat (length (n_data nd)))] k = puts 1 (ls_line name j nd) k.
Proof.
  intros Hl Ht H1 H2 H3. set (num := match last with "%d"%string => Dec | _ => Long end (Z.of_nat (length (n_data nd)))).
  pose proof (vprintf_puts (A := A) [Str (Some (pad name)); Lit [32]; Dec (n_type nd); Lit [32]; Dec j; Lit [32]; num; Lit [10]] 1 k) as E.
  assert (piece_text num = bytes_of (pretty (Z.of_nat (length (n_data nd))))) as En by (unfold num; destruct Hl as [-> | ->]; cbn [piece_text]; [rewrite s32_small by lia|rewrite u32_small by lia]; done).
  cbn [fmap list_fmap piece_fmt piece_arg piece_text concat app] in E. rewrite (until0_text _ (pad_text _ Ht)), En in E. rewrite (s32_small (n_type nd)), (s32_small j) in E by lia. unfold printf, ls_line. cbn [app].
  assert (bytes_of (("%s %d %d " +:+ last) +:+ nl) = [37; 115; 32; 37; 100; 32; 37; 100; 32] ++ piece_fmt num ++ [10]) as -> by (unfold num; destruct Hl as [-> | ->]; done).
  assert (piece_arg num = [AInt (Z.of_nat (length (n_data nd)))]) as Ea by (unfold num; destruct Hl as [-> | ->]; done). rewrite Ea in E. cbn [app] in *. apply E.
  repeat constructor; try done; [by apply text_bytes, pad_text|unfold num; by destruct Hl as [-> | ->]].
Qed.

(** * ls *)

Lemma add_o_nil n o : add_o n [] o = o.
Proof.
  destruct o as [f l p]. unfold add_o. cbn [o_out o_log o_pid]. f_equal. apply map_eq. intros m. destruct (decide (m = n)) as [->|Hne]; [|by rewrite lookup_alter_ne]. rewrite lookup_alter_eq. destruct (f !! n); cbn; [by rewrite app_nil_r|done].
Qed.
Lemma add_o_app n l1 l2 o : add_o n l2 (add_o n l1 o) = add_o n (l1 ++ l2) o.
Proof.
  unfold add_o. cbn [o_out o_log o_pid]. f_equal. apply map_eq. intros m. destruct (decide (m = n)) as [->|Hne]; [|by rewrite !lookup_alter_ne]. rewrite !lookup_alter_eq. destruct (o_out o !! n); cbn; [by rewrite app_assoc|done].
Qed.

Section ls.
Context (pid cwd : Z) (par : option Z) (n1 n2 : nat).

(** After [m] entries of directory [j]. *)
Record listed (w : world) (m : nat) (nd : fnode) (w0 : world) : Prop := {
  li_ext : ext w w0;
  li_next : (w_next w < w_next w0)%nat;
  li_out : obs_of w0 = add_o n1 (concat (entry_lines (w_fs w) <$> take m (dirents (n_data nd)))) (obs_of w);
}.
Lemma listed_step w m nd w0 w1 e : listed w m nd w0 -> dirents (n_data nd) !! m = Some e -> ext w w1 -> (w_next w0 <= w_next w1)%nat -> obs_of w1 = add_o n1 (entry_lines (w_fs w) e) (obs_of w0) -> listed w (S m) nd w1.
Proof.
  intros [A1 A2 A3] He Hx Hn Ho. split; [done|lia|]. rewrite Ho, A3, add_o_app, (take_S_r _ _ _ He), fmap_app, concat_app. cbn [fmap list_fmap concat]. by rewrite app_nil_r.
Qed.

Lemma alone_ls_dir path j nd fd F w F' fin P : env pid par n1 n2 F w -> fd_put (w_next w) F = Some (fd, F') -> (0 < free F')%nat -> small (w_fs w) ->
  text path -> path <> [] -> resolve (w_fs w) cwd path = Some j -> w_fs w j = Some nd -> n_type nd = T_DIR -> dir_ok nd -> (forall e, e ∈ dirents (n_data nd) -> e.1 <> 0 -> exists nd', w_fs w e.1 = Some nd') ->
  (forall w', ext w w' -> w_files w' !! w_next w <> None -> obs_of w' = add_o n1 (concat (entry_lines (w_fs w) <$> dirents (n_data nd))) (obs_of w) -> ends P (alone pid cwd par fin F' w')) ->
  ends P (alone pid cwd par (ls_dir fd path fin) F' (opened j w)).
Proof.
  intros Hen Hp Hfr Hsm Htx Hne Hres Hj Hty Hdir Hall Hfin. destruct (do_len _ Hdir) as [q Hq]. unfold ls_dir.
  eapply (alone_dir_loop pid cwd par P (fun de => if de_inum de =? 0 then Return (inl tt) else _) fin fd (w_next w) j nd F' q (fun m w0 => listed w m nd w0)) with (m := 0%nat).
  - by eapply fd_slot_put.
  - exact Hq.
  - intros m w0 k Hm Hli Hj0 Hi0 Hk. pose proof (dirent_in _ _ _ Hq Hm) as Hin. set (w1 := set_files _ w0).
    assert (ext w w1 /\ obs_of w1 = obs_of w0 /\ w_next w1 = w_next w0 /\ w_files w1 !! w_next w = Some (OInode j (16 * Z.of_nat (S m)))) as (He & Ho & Hn & Hi).
    { destruct (li_ext _ _ _ _ Hli) as [X1 X2 X3]. split_and!; [|done|done|cbn; by rewrite lookup_insert_eq]. split; [done|done|]. intros i Hi. cbn. rewrite lookup_insert_ne by lia. by apply X3. }
    assert (env pid par n1 n2 F' w1) as Hen1 by (eapply env_put_ext; [exact Hen|exact Hp|exact He|rewrite Hn; apply Hli|pose proof (f_equal o_pid (li_out _ _ _ _ Hli)) as Hpid; cbn in Hpid; cbn; lia]).
    clearbody w1. set (de := dirent_at (n_data nd) m) in *. destruct (Z.eqb_spec (de_inum de) 0) as [E0|E0].
    + cbn [pbind]. apply Hk; [|by rewrite (ex_fs _ _ He)|done]. eapply listed_step; [exact Hli|exact Hin|exact He|lia|]. unfold entry_lines. cbn [fst]. by rewrite E0, add_o_nil.
    + destruct (Hall _ (list_elem_of_lookup_2 _ _ _ Hin) E0) as [nd' Hnd']. cbn [fst] in Hnd'. destruct (entry_file (w_fs w) cwd path j nd m q nd' Htx Hne Hdir Hq Hm Hres Hj Hty E0 Hnd') as (Hfile & _ & Htn & Hnn & _).
      destruct (do_name _ Hdir _ (list_elem_of_lookup_2 _ _ _ Hin) E0) as [_ Hsl]. cbn [snd] in Hsl. fold de in Hfile, Htn, Hnn. destruct (Hsm _ _ Hnd') as (S1 & S2 & S3).
      eapply (alone_ustat pid cwd par n1 n2 (fun p => pbind p k)); [apply ctx_bind|exact Hen1|lia|rewrite (ex_fs _ _ He); exact Hfile|]. intros w2 He2 Ho2. cbn [st_type st_ino st_size]. change (0 <? 0) with false. cbv iota.
      change ("%s %d %d %d" +:+ nl) with (("%s %d %d " +:+ "%d") +:+ nl). rewrite fmtname_pad, last_part_child by done. rewrite (line_puts "%d") by (done || by left). rewrite pbind_puts. cbn [pbind].
      eapply alone_puts; [rewrite (ext_file F' w1 w2); [apply Hen1|apply Hen1|done]|]. assert (ext w w2) as Hw2 by (by eapply ext_trans). apply Hk; [|cbn; by rewrite (ex_fs _ _ Hw2)|cbn; rewrite (ex_files _ _ He2); [done|rewrite Hn; apply Hli]].
      eapply listed_step; [exact Hli|exact Hin|destruct Hw2; by split|cbn; destruct He2; lia|]. unfold entry_lines. cbn [fst snd]. rewrite (proj2 (Z.eqb_neq _ _) E0), Hnd', <- Ho, <- Ho2. done.
  - intros w0 Hli _ Hi. apply Hfin; [apply Hli|by rewrite Hi|]. rewrite (li_out _ _ _ _ Hli). by rewrite take_ge by (by rewrite (dirents_length _ _ Hq)).
  - lia.
  - split; [apply ext_opened|cbn; lia|]. rewrite take_0. cbn [fmap list_fmap concat]. by rewrite add_o_nil.
  - exact Hj.
  - cbn. by rewrite lookup_insert_eq.
Qed.

Lemma alone_ls path k F w P : env pid par n1 n2 F w -> (2 <= free F)%nat -> small (w_fs w) -> listable (w_fs w) cwd path ->
  (forall w', ext w w' -> obs_of w' = add_o n1 (ls_text (w_fs w) cwd path) (obs_of w) -> ends P (alone pid cwd par k F w')) -> ends P (alone pid cwd par (ls path k) F w).
Proof.
  intros Hen Hfr Hsm (Htx & Hne & j & nd & Hres & Hj & Hdir) Hk. assert (file_at (w_fs w) cwd path = Some (j, nd)) as Hfa by (unfold file_at; rewrite Hres; cbn [mbind option_bind]; by rewrite Hj). unfold ls_text in Hk. rewrite Hfa in Hk.
  unfold ls. eapply (alone_open_file pid cwd par P path _ F w n1 n2); [split; [apply Hen|apply free_elem; lia|apply Hen|apply Hen]|congruence|].
  intros j' nd' fd F' Hf' Hp Hj' H0. rewrite Hfa in Hf'. injection Hf' as <- <-. rewrite (proj2 (Z.ltb_ge fd 0)) by done. destruct (Hsm _ _ Hj) as (S1 & S2 & S3).
  assert (forall w0, w_files w0 !! w_next w <> None -> exists f, file_of F' w0 fd = Some f) as Hfd by (intros w0 Hw0; unfold file_of; rewrite (fd_slot_put _ _ _ _ Hp); cbn; destruct (w_files w0 !! w_next w); [eauto|done]).
  eapply alone_fstat; [unfold file_of; rewrite (fd_slot_put _ _ _ _ Hp); cbn; by rewrite lookup_insert_eq|exact Hj|]. change (0 <? 0) with false. cbv iota zeta. cbn [st_type st_ino st_size].
  assert (forall w0 l, ext w w0 -> w_files w0 !! w_next w <> None -> obs_of w0 = add_o n1 l (obs_of w) -> (forall w', ext w w' -> obs_of w' = add_o n1 l (obs_of w) -> ends P (alone pid cwd par k F w')) -> ends P (alone pid cwd par (Close fd ;;; k) F' w0)) as Hclose.
  { intros w0 l He Hi Ho Hk'. destruct (Hfd w0 Hi) as [f Hf]. eapply alone_close; [exact Hf|]. rewrite (fd_put_close _ _ _ _ Hp). by apply Hk'. }
  assert (w_files (opened j w) !! w_next w <> None) as Hi by (cbn; by rewrite lookup_insert_eq). rewrite orb_comm. destruct (n_type nd =? T_DIR) eqn:Ed.
  - apply Z.eqb_eq in Ed. destruct (Hdir Ed) as (Hdok & Hlen & Hall). rewrite Ed. change (T_DIR =? T_FILE) with false. change (T_DIR =? T_DEVICE) with false. change (T_DIR =? T_DIR) with true. cbn [orb]. change (Z.of_nat DIRSIZ) with 14. rewrite (proj2 (Z.ltb_ge _ _)) by lia.
    eapply alone_ls_dir; try done; [apply fd_put_count in Hp; lia|]. intros w' He Hi' Ho. by eapply Hclose.
  - destruct ((n_type nd =? T_FILE) || (n_type nd =? T_DEVICE)).
    + change ("%s %d %d %l" +:+ nl) with (("%s %d %d " +:+ "%l") +:+ nl). rewrite fmtname_pad, (line_puts "%l"); [|by right|apply last_part_text; unfold text; by apply Forall_reverse|done..].
      eapply alone_puts; [by eapply opened_file; [apply Hen|exact Hp|apply Hen]|]. eapply Hclose; [|exact Hi|reflexivity|exact Hk]. pose proof (ext_opened w j) as []. by split.
    + eapply Hclose; [apply ext_opened|exact Hi| |exact Hk]. by rewrite add_o_nil.
Qed.
End ls.

(** C34: [ls] of files and directories prints, for the arguments in order, the line of a file
    or one line for each entry of a directory that is in use: the name padded to 14 characters, the type, the
    inode number and the size. Without arguments it lists the current directory. *)
Theorem ls_correct pid cwd par n1 n2 F w argv : par <> Some pid -> env pid par n1 n2 F w -> (2 <= free F)%nat -> small (w_fs w) ->
  let args := if (length argv <? 2)%nat then [[46]] else tail argv in Forall (listable (w_fs w) cwd) args ->
  ends (finished pid 0 (w_out (add_out n1 (concat (ls_text (w_fs w) cwd <$> args)) w))) (alone pid cwd par (ls_main argv) F w).
Proof.
  intros Hpar Hen Hfr Hsm args Hall. assert (ls_main argv = ls_args args) as -> by (unfold ls_main, args; by destruct (length argv <? 2)%nat).
  assert (forall l w0, ext w w0 -> obs_of w0 = add_o n1 l (obs_of w) -> ends (finished pid 0 (w_out (add_out n1 (l ++ concat (ls_text (w_fs w) cwd <$> args)) w))) (alone pid cwd par (ls_args args) F w0)) as Hg.
  { clear -Hpar Hen Hfr Hsm Hall. induction Hall as [|a args Ha Hall IH]; intros l w0 He Ho; cbn [ls_args fmap list_fmap concat].
    - rewrite app_nil_r. apply alone_finished; [done|]. exact (f_equal o_out Ho).
    - pose proof (f_equal o_pid Ho) as Hp. cbn in Hp. eapply (alone_ls pid cwd par n1 n2); [eapply env_ext; [exact Hen|exact He|lia]|done|by rewrite (ex_fs _ _ He)|by rewrite (ex_fs _ _ He)|].
      intros w' He' Ho'. rewrite app_assoc. apply IH; [by eapply ext_trans|]. rewrite Ho', Ho, add_o_app. by rewrite (ex_fs _ _ He). }
  specialize (Hg [] w (ext_refl w)). rewrite add_o_nil in Hg. by apply Hg.
Qed.

Lemma ls_correct_witness : ends (finished 3 0 {[ 1%nat := bytes_of ".              1 3 80" ++ [10] ++ bytes_of "..             1 1 64" ++ [10] ++ bytes_of "a              2 4 0" ++ [10] ++ bytes_of "b              2 5 1" ++ [10] ++ bytes_of "a              2 2 14" ++ [10]; 2%nat := [] ]})
  (alone 3 1 (Some 2) (ls_main (bytes_of <$> ["ls"; "d"; "a"]%string)) demo_fds demo_world).
Proof.
  pose proof (ls_correct 3 1 (Some 2) 1 2 demo_fds demo_world (bytes_of <$> ["ls"; "d"; "a"]%string)) as Hc.
  assert (w_out (add_out 1 (concat (ls_text (w_fs demo_world) 1 <$> (if (length (bytes_of <$> ["ls"; "d"; "a"]%string) <? 2)%nat then [[46]] else tail (bytes_of <$> ["ls"; "d"; "a"]%string)))) demo_world) =
    {[ 1%nat := bytes_of ".              1 3 80" ++ [10] ++ bytes_of "..             1 1 64" ++ [10] ++ bytes_of "a              2 4 0" ++ [10] ++ bytes_of "b              2 5 1" ++ [10] ++ bytes_of "a              2 2 14" ++ [10]; 2%nat := [] ]}) as E by (vm_compute; reflexivity).
  cbv zeta in Hc. rewrite E in Hc. apply Hc.
  - discriminate.
  - destruct demo_stdio as [S1 S2 S3 S4]. split; [exact S1|exact S3|exact S4|]. split; [reflexivity|]. split; [reflexivity|]. intros q [= <-]. reflexivity.
  - vm_compute. lia.
  - intros j nd. cbn [w_fs demo_world]. unfold demo_fs. destruct (Z.eqb_spec j 1) as [->|_]; [|destruct (Z.eqb_spec j 2) as [->|_]; [|destruct (Z.eqb_spec j 3) as [->|_]; [|destruct (Z.eqb_spec j 4) as [->|_]; [|destruct (Z.eqb_spec j 5) as [->|_]; [|discriminate]]]]]; intros [= <-]; vm_compute; repeat split; discriminate.
  - constructor; [|constructor; [|constructor]].
    + split; [repeat constructor|]. split; [discriminate|]. exists 3. eexists. split; [vm_compute; reflexivity|]. split; [reflexivity|]. intros _. split; [apply dir_okb_sound; vm_compute; reflexivity|]. split; [vm_compute; discriminate|].
      intros e He Hu. assert (forallb (fun e => (e.1 =? 0) || match demo_fs e.1 with Some _ => true | None => false end) (dirents (demo_dir [(3, "."); (1, ".."); (0, "gone"); (4, "a"); (5, "b")]%string)) = true) as Hb by (vm_compute; reflexivity).
      rewrite forallb_forall in Hb. specialize (Hb e (proj1 (list_elem_of_In _ _) He)). rewrite (proj2 (Z.eqb_neq _ _) Hu) in Hb. cbn [w_fs demo_world]. destruct (demo_fs e.1) as [nd'|]; [by exists nd'|discriminate Hb].
    + split; [repeat constructor|]. split; [discriminate|]. exists 2. eexists. split; [vm_compute; reflexivity|]. split; [reflexivity|]. discriminate.
Defined.
