(* ===== verification/Uxargs.v ===== *)
(** user/xargs.c: a command for every line of standard input. *)
From S2P Require Import Prelude Memory Sleeplock Bio Log Fs State Process FsFile FsPath Uprog Uprintf Utools Urun Ufind.

#[local] Open Scope prog_scope.

(** * The code *)

(** The command, with [buf] as its last argument: a string, so up to a NUL. The array has room
    for [MAXARG] pointers. *)
Definition xrun {A} (base : list (list Z)) (buf : list Z) (k : prog A) : prog A :=
  if MAXARG <? Z.of_nat (length base) + 2 then undefined
  else spawn ("xargs: fork failed" +:+ nl) ("xargs: exec failed" +:+ nl) (base ++ [until0 buf]) k.

(** The state of the loop is [buf] up to [n]. *)
Definition xargs_main (argv : list (list Z)) : prog unit :=
  if (length argv <? 2)%nat then fprintf 2 ("usage: xargs command [args...]" +:+ nl) [] (Exit 1) else
  let base := tail argv in
  if MAXARG <? Z.of_nat (length base) then undefined else
  Iter (fun buf : list Z =>
    r <~ Read 0 1 ;;
    match r with
    | (n, c :: _) =>
        if n =? 1 then
          if c =? 10 then xrun base buf (Return (inl []))
          else Return (inl (if (length buf <? 511)%nat then buf ++ [c] else buf))
        else Return (inr buf)
    | (n, []) => Return (inr buf)
    end) []
  (fun buf => if (0 <? length buf)%nat then xrun base buf (Exit 0) else Exit 0).

(** * What it does *)

Definition xfork : list Z := bytes_of ("xargs: fork failed" +:+ nl).
Definition xexec : list Z := bytes_of ("xargs: exec failed" +:+ nl).

(** The command for a line: at most 511 bytes of it. *)
Definition line_cmd (base : list (list Z)) (l : list Z) : action := let a := base ++ [until0 (take 511 l)] in Run (default [] (head a)) a.

Lemma source_ext F w w' fd d : fds_ok F w -> ext w w' -> w_in w' = w_in w -> source F w fd d -> source F w' fd d.
Proof.
  intros Hok He Hi [(i & Hf & Hd)|(i & j & off & nd & Hs & Hf & Hj & H0 & Hd)]; [left; exists i; by rewrite (ext_file F w), Hi|right]. exists i, j, off, nd.
  rewrite (ex_fs _ _ He), (ex_files _ _ He) by (apply Hok; by eapply fd_slot_elem). done.
Qed.

Section xargs.
Context (pid cwd : Z) (par : option Z) (n1 n2 : nat) (base : list (list Z)) (F : list (option nat)).
Hypothesis base_ok : Z.of_nat (length base) + 2 <= MAXARG.

Definition xdid : list action -> obs -> obs -> bool -> Prop := acts n1 n2 xfork xexec.
(** Standard error is there, and new processes get other pids. *)
Definition xenv (w : world) : Prop := fds_ok F w /\ file_of F w 2 = Some (OStream n2) /\ pid < w_pid w /\ 0 < w_pid w /\ forall q, par = Some q -> q < w_pid w.

Lemma alone_xrun {A} (C : prog A -> prog unit) P l d k w : ctx C -> xenv w -> source F w 0 d ->
  (forall w', xenv w' -> source F w' 0 d -> xdid [line_cmd base l] (obs_of w) (obs_of w') true -> ends P (alone pid cwd par (C k) F w')) ->
  (forall w', xdid [line_cmd base l] (obs_of w) (obs_of w') false -> ends P (alone pid cwd par (Exit 1) F w')) ->
  ends P (alone pid cwd par (C (xrun base (take 511 l) k)) F w).
Proof.
  intros HC (Hfo & H2 & Hp1 & Hp2 & Hp3) Hs Hok Hno. unfold xrun. rewrite (proj2 (Z.ltb_ge _ _)) by done. eapply (alone_spawn pid cwd par n1 n2 C); try done. intros w' He Hi Hd. apply Hok; [| |done].
  - pose proof (acts_pid _ _ _ _ _ _ _ _ Hd) as Hle. cbn in Hle. split_and!; [by eapply ext_ok|by rewrite (ext_file F w)|lia|lia|]. intros q Hq. specialize (Hp3 q Hq). lia.
  - by eapply source_ext.
Qed.

(** The rest of the input, after the part [cur] of a line without its end: the lines [ls] and what follows the last
    newline. *)
Lemma alone_xloop P fin ls : forall cur rest w, (forall l, l ∈ ls -> 10 ∉ l) -> 10 ∉ rest -> xenv w -> source F w 0 (concat ((fun l => l ++ [10]) <$> ls) ++ rest) ->
  let lines := match ls with [] => [] | l :: ls => (cur ++ l) :: ls end in let last := match ls with [] => cur ++ rest | _ => rest end in
  (forall w', xenv w' -> source F w' 0 [] -> xdid (line_cmd base <$> lines) (obs_of w) (obs_of w') true -> ends P (alone pid cwd par (fin (take 511 last)) F w')) ->
  (forall w', xdid (line_cmd base <$> lines) (obs_of w) (obs_of w') false -> ends P (alone pid cwd par (Exit 1) F w')) ->
  ends P (alone pid cwd par (Iter (fun buf : list Z =>
    r <~ Read 0 1 ;;
    match r with
    | (n, c :: _) =>
        if n =? 1 then
          if c =? 10 then xrun base buf (Return (inl []))
          else Return (inl (if (length buf <? 511)%nat then buf ++ [c] else buf))
        else Return (inr buf)
    | (n, []) => Return (inr buf)
    end) (take 511 cur) fin) F w).
Proof.
  intros cur rest w Hls Hrest. remember (length (concat ((fun l => l ++ [10]) <$> ls) ++ rest)) as len eqn:El. revert ls cur rest w Hls Hrest El. induction len as [len IH] using lt_wf_ind. intros ls cur rest w Hls Hrest El Hen Hs lines last Hok Hno.
  apply alone_iter. unfold unroll. cbn [pbind]. eapply alone_read_source; [exact Hs|lia|]. set (d := concat ((fun l => l ++ [10]) <$> ls) ++ rest) in *. intros m w1 Hm H0 Hs1 Hk.
  assert (xenv w1) as Hen1.
  { destruct Hen as (A1 & A2 & A3 & A4 & A5). destruct Hk as [K1 K2 K3 K4 K5 K6 K7]. split_and!; [intros i Hi; rewrite K3; by apply A1|by apply K6|by rewrite K5..]. }
  assert (obs_of w1 = obs_of w) as Ho by (destruct Hk as [K1 K2 K3 K4 K5 K6 K7]; unfold obs_of; by rewrite K2, K4, K5). rewrite <- Ho in Hok, Hno. clear Hs Hen Hk w Ho.
  destruct d as [|c d'] eqn:Ed.
  - cbn [length] in Hm. assert (m = 0%nat) as -> by lia. rewrite take_0. cbn [pbind]. assert (ls = [] /\ rest = []) as [-> ->].
    { destruct ls as [|l ls]; [done|]. cbn [fmap list_fmap concat] in Ed. unfold d in Ed. destruct l; done. }
    unfold last in Hok. rewrite app_nil_r in Hok. apply Hok; [done|done|apply acts_nil].
  - assert (m = 1%nat) as -> by (cbn [length] in *; change (Z.to_nat 1) with 1%nat in Hm; destruct m as [|[|m]]; [by specialize (H0 eq_refl)|done|lia]). cbn [take drop] in *. rewrite ?take_0, ?drop_0 in *. cbn [pbind]. change (Z.of_nat 1 =? 1) with true. cbv iota.
    destruct (Z.eqb_spec c 10) as [->|Hc].
    + unfold d in Ed. destruct ls as [|[|c0 l] ls]; rewrite ?fmap_cons in Ed; cbn [concat app] in Ed.
      * cbn in Ed. subst rest. by destruct Hrest; apply list_elem_of_here.
      * injection Ed as Ed. unfold lines, last in *. rewrite app_nil_r in Hok, Hno. eapply (alone_xrun (fun p => pbind p _) P cur); [apply ctx_bind|exact Hen1|exact Hs1| |].
        -- intros w2 Hen2 Hs2 Hd2. cbn [pbind]. change ([] : list Z) with (take 511 ([] : list Z)). eapply (IH (length d') ltac:(rewrite El; cbn; lia) ls [] rest); [intros l Hl; apply Hls; set_solver|exact Hrest|by rewrite Ed|exact Hen2|by rewrite Ed| |].
           ++ intros w' Hen' Hs' Hd'. destruct ls as [|l ls]; (apply Hok; [done|done|]); cbn [app] in Hd'; exact (acts_app _ _ _ _ [_] _ _ _ _ _ Hd2 Hd').
           ++ intros w' Hd'. apply Hno. destruct ls as [|l ls]; cbn [app] in Hd'; exact (acts_app _ _ _ _ [_] _ _ _ _ _ Hd2 Hd').
        -- intros w2 Hd2. apply Hno. exact (acts_stop _ _ _ _ [_] _ _ _ Hd2).
      * injection Ed as -> _. destruct (Hls (10 :: l)); set_solver.
    + cbn [pbind]. assert ((if (length (take 511 cur) <? 511)%nat then take 511 cur ++ [c] else take 511 cur) = take 511 (cur ++ [c])) as ->.
      { rewrite length_take. destruct (Nat.ltb_spec (Nat.min 511 (length cur)) 511); [by rewrite !take_ge by (rewrite ?length_app; cbn; lia)|by rewrite take_app_le by lia]. }
      unfold d in Ed. destruct ls as [|[|c0 l] ls]; rewrite ?fmap_cons in Ed; cbn [concat app] in Ed.
      * cbn in Ed. subst rest. eapply (IH (length d') ltac:(rewrite El; cbn; lia) [] (cur ++ [c]) d'); [done|by intros ?; apply Hrest, list_elem_of_further|done|exact Hen1|exact Hs1| |done].
        intros w' Hen' Hs' Hd'. rewrite <- app_assoc. by apply Hok.
      * by injection Ed.
      * injection Ed as -> Ed. eapply (IH (length d') ltac:(rewrite El; cbn; lia) (l :: ls) (cur ++ [c]) rest); [|done|by rewrite <- Ed|exact Hen1|rewrite fmap_cons; cbn [concat]; by rewrite Ed| |].
        -- intros l0 [->|Hl0]%elem_of_cons; [intros Hin; apply (Hls (c :: l)); set_solver|apply Hls; set_solver].
        -- intros w' Hen' Hs' Hd'. rewrite <- app_assoc in Hd'. by apply Hok.
        -- intros w' Hd'. rewrite <- app_assoc in Hd'. by apply Hno.
Qed.
End xargs.

(** C31: [xargs cmd args] runs the command once for every line of standard input, in order and
    one after the other, with the line as the last argument, cut to 511 bytes; a last line without a newline counts if it is not
    empty. If a command cannot be executed a message is printed and the next line follows; if
    [fork] fails it stops with a message and status 1. This holds however the kernel
    splits the input and schedules the processes. *)
Theorem xargs_correct pid cwd par n1 n2 F w argv ls rest : par <> Some pid -> (2 <= length argv <= 31)%nat -> fds_ok F w -> file_of F w 2 = Some (OStream n2) -> pid < w_pid w -> 0 < w_pid w -> (forall q, par = Some q -> q < w_pid w) ->
  (forall l, l ∈ ls -> 10 ∉ l) -> 10 ∉ rest -> source F w 0 (concat ((fun l => l ++ [10]) <$> ls) ++ rest) ->
  ends (acted pid n1 n2 xfork xexec (line_cmd (tail argv) <$> ls ++ (if decide (rest = []) then [] else [rest])) w) (alone pid cwd par (xargs_main argv) F w).
Proof.
  intros Hpar Hlen Hok H2 Hp1 Hp2 Hp3 Hls Hrest Hs. unfold xargs_main. rewrite (proj2 (Nat.ltb_ge _ _)) by lia. assert (length (tail argv) <= 30)%nat as Hb by (destruct argv; cbn in *; lia). rewrite (proj2 (Z.ltb_ge _ _)) by (unfold MAXARG; lia).
  assert (Z.of_nat (length (tail argv)) + 2 <= MAXARG) as Hbase by (unfold MAXARG; lia). rewrite fmap_app. change ([] : list Z) with (take 511 ([] : list Z)) at 2.
  assert (forall a w' b, acts n1 n2 xfork xexec a (obs_of w) (obs_of w') b -> ends (acted pid n1 n2 xfork xexec a w) (alone pid cwd par (Exit (if b then 0 else 1)) F w')) as Hend.
  { intros a w' b Ha. apply alone_exit; [|done]. by eexists b, _, _. }
  eapply (alone_xloop pid cwd par n1 n2 (tail argv) F Hbase _ _ ls [] rest); [done|done|by split_and!|exact Hs| |].
  - intros w1 Hen1 Hs1 Hd1. replace (match ls with [] => [] | l :: ls => ([] ++ l) :: ls end) with ls in Hd1 by (by destruct ls). replace (match ls with [] => [] ++ rest | _ => rest end) with rest by (by destruct ls).
    rewrite length_take. destruct (decide (rest = [])) as [->|Hne].
    + cbn [length Nat.min Nat.ltb Nat.leb]. apply (Hend _ _ true). rewrite app_nil_r. exact Hd1.
    + rewrite (proj2 (Nat.ltb_lt _ _)) by (destruct rest; cbn; [done|lia]). eapply (alone_xrun pid cwd par n1 n2 (tail argv) F Hbase (fun p => p) _ rest); [apply ctx_id|exact Hen1|exact Hs1| |].
      * intros w2 _ _ Hd2. apply (Hend _ _ true). by eapply acts_app.
      * intros w2 Hd2. apply (Hend _ _ false). by eapply acts_app.
  - intros w1 Hd1. replace (match ls with [] => [] | l :: ls => ([] ++ l) :: ls end) with ls in Hd1 by (by destruct ls). apply (Hend _ _ false). by apply acts_stop.
Qed.

Lemma xargs_correct_witness : ends (acted 3 1 2 xfork xexec [Run (bytes_of "echo") (bytes_of <$> ["echo"; "x"; "a b"]%string)] demo_world) (alone 3 1 (Some 2) (xargs_main (bytes_of <$> ["xargs"; "echo"; "x"]%string)) demo_fds demo_world).
Proof.
  assert (line_cmd (tail (bytes_of <$> ["xargs"; "echo"; "x"]%string)) <$> [bytes_of "a b"] ++ (if decide (([] : list Z) = []) then [] else [[]]) = [Run (bytes_of "echo") (bytes_of <$> ["echo"; "x"; "a b"]%string)]) as <- by (vm_compute; reflexivity).
  apply (xargs_correct 3 1 (Some 2) 1 2 demo_fds demo_world (bytes_of <$> ["xargs"; "echo"; "x"]%string) [bytes_of "a b"] []).
  - discriminate.
  - cbn. lia.
  - apply demo_stdio.
  - reflexivity.
  - reflexivity.
  - reflexivity.
  - intros q [= <-]. reflexivity.
  - intros l ->%list_elem_of_singleton. vm_compute. set_solver.
  - apply not_elem_of_nil.
  - left. exists 0%nat. split; reflexivity.
Defined.
