(* ===== verification/Upipes.v ===== *)
(** Two processes that talk through a pipe: user/primes.c. The theorem is about every
    interleaving of the two. *)
From Stdlib Require Import Znumtheory Sorted.
From stdpp Require Import pretty.
From S2P Require Import Prelude Memory Sleeplock Bio Log Fs State Process FsFile FsPath Uprog Uprintf Utools Ufind.

#[local] Open Scope prog_scope.

(** * The programs *)

(** The bytes of an [int] in memory. *)
Definition int4 (m : Z) : list Z := [m mod 256; m / 256 mod 256; m / 65536 mod 256; m / 16777216 mod 256].
Definition int_of (l : list Z) : Z := match l with [a; b; c; d] => s32 (a + 256 * b + 65536 * c + 16777216 * d) | _ => 0 end.

(** The inner loop of [primes]: whether no [n] from 2 on with [n * n <= m] divides [m]. *)
Fixpoint trial_from (fuel : nat) (n m : Z) : bool :=
  match fuel with
  | O => true
  | S fuel => if n * n <=? m then if m mod n =? 0 then false else trial_from fuel (n + 1) m else true
  end.
Definition trial (m : Z) : bool := trial_from (Z.to_nat m) 2 m.

(** The loop of the parent over [count] numbers from [m] on. *)
Fixpoint send_from (count : nat) (m p0 p1 : Z) (k : prog unit) : prog unit :=
  match count with
  | O => k
  | S count =>
      if trial m then Close p0 ;;; Write p1 (int4 m) ;;; send_from count (m + 1) p0 p1 k
      else send_from count (m + 1) p0 p1 k
  end.

(** The loop of the child. *)
Definition receive_body (p0 : Z) (_ : unit) : prog (unit + unit) :=
  r <~ Read p0 4 ;; let '(n, received) := r in
  if n =? 4 then printf ("prime %d" +:+ nl) [AInt (int_of received)] (Return (inl tt)) else Return (inr tt).
Definition receive (p0 : Z) (k : prog unit) : prog unit := Iter (receive_body p0) tt (fun _ => k).

Definition primes_main : prog unit :=
  r <~ Pipe ;; let '(_, (p0, p1)) := r in
  pid <~ Fork ;;
  let fin := Close p0 ;;; Exit 0 in
  if 0 <? pid then send_from 34 2 p0 p1 (Close p1 ;;; Wait ;;; fin)
  else if pid =? 0 then Close p1 ;;; receive p0 fin
  else fin.

(** * Trial division *)

Lemma trial_from_spec fuel n m : 2 <= n -> m - n < Z.of_nat fuel -> (trial_from fuel n m = true <-> forall d, n <= d -> d * d <= m -> ~ (d | m)).
Proof.
  revert n. induction fuel as [|fuel IH]; intros n Hn Hf; cbn [trial_from].
  - split; [|done]. intros _ d Hd Hdd. nia.
  - destruct (Z.leb_spec (n * n) m) as [Hle|Hgt].
    + destruct (Z.eqb_spec (m mod n) 0) as [E|E].
      * split; [done|]. intros H. destruct (H n); [lia|done|]. apply Z.mod_divide; [lia|done].
      * rewrite IH by lia. split; intros H d Hd Hdd; [|apply H; lia]. destruct (decide (d = n)) as [->|]; [intros ?%Z.mod_divide; [done|lia]|]. apply H; lia.
    + split; [|done]. intros _ d Hd Hdd. nia.
Qed.

(** Looking for divisors up to the square root is enough. *)
Lemma trial_prime m : 2 <= m -> trial m = true <-> prime m.
Proof.
  intros Hm. unfold trial. rewrite trial_from_spec by lia. split.
  - intros H. apply prime_alt. split; [lia|]. intros n Hn [k Hk]. assert (0 < k) by nia. destruct (Z.le_gt_cases n k).
    + apply (H n); [lia|nia|]. by exists k.
    + apply (H k); [|nia|]. { destruct (decide (k = 1)); nia. } exists n. lia.
  - intros [_ H]%prime_alt d Hd Hdd. apply H. nia.
Qed.

(** * Two processes *)

Definition two (a : Z) (x : process) (b : Z) (y : process) (w : world) : config := mkconfig (<[b := y]> {[ a := x ]}) w.

Section two.
Context (a b : Z) (Hab : b <> a).

Lemma two_lookup x y w q z : procs (two a x b y w) !! q = Some z <-> (q = a /\ z = x) \/ (q = b /\ z = y).
Proof.
  cbn. rewrite lookup_insert_Some, lookup_singleton_Some. split; [intros [[<- <-]|[_ [<- <-]]]; auto|]. intros [[-> ->]|[-> ->]]; [right|left]; auto.
Qed.
Lemma two_goes_a x x' y w w' : goes a x' w' (two a x b y w) = two a x' b y w'.
Proof. unfold goes, two. cbn. f_equal. rewrite insert_insert_ne by done. by rewrite insert_singleton_eq. Qed.
Lemma two_goes_b x y y' w w' : goes b y' w' (two a x b y w) = two a x b y' w'.
Proof. unfold goes, two. cbn. f_equal. by rewrite insert_insert_eq. Qed.
Lemma two_wd x y w : wd (two a x b y w) = w.
Proof. done. Qed.
Lemma two_open f x y w : is_open f (two a x b y w) <-> exists i, (Some i ∈ pr_fds x \/ Some i ∈ pr_fds y) /\ w_files w !! i = Some f.
Proof.
  unfold is_open. cbn [wd two]. split.
  - intros (q & z & i & Hq & Hi & Hf). apply two_lookup in Hq as [[-> ->]|[-> ->]]; eauto.
  - intros (i & [Hi|Hi] & Hf); [exists a, x, i|exists b, y, i]; (split; [apply two_lookup; auto|done]).
Qed.
(** Every step is one of either process. *)
Lemma ends_two P x y w : (exists c', proc_step a x (two a x b y w) c' \/ proc_step b y (two a x b y w) c') ->
  (forall c', proc_step a x (two a x b y w) c' -> ends P c') -> (forall c', proc_step b y (two a x b y w) c' -> ends P c') -> ends P (two a x b y w).
Proof.
  intros [c1 H1] Ha Hb. apply ends_step.
  - exists c1. destruct H1 as [H1|H1]; [exists a, x|exists b, y]; (split; [apply two_lookup; auto|done]).
  - intros c' (q & z & Hq & Hs). apply two_lookup in Hq as [[-> ->]|[-> ->]]; auto.
Qed.
Lemma two_exits_b st x y w : pr_parent x <> Some b -> exits b st y (two a x b y w) = two a x b (mkprocess (Zombie st) [] (pr_cwd y) (pr_parent y)) w.
Proof.
  intros Hp. unfold exits, two. cbn [procs wd]. f_equal. rewrite fmap_insert, insert_insert_eq, map_fmap_singleton. unfold orphan at 1. by rewrite decide_False.
Qed.
Lemma two_exits_a st x y w : pr_parent y = Some a -> exits a st x (two a x b y w) = two a (mkprocess (Zombie st) [] (pr_cwd x) (pr_parent x)) b (mkprocess (pr_state y) (pr_fds y) (pr_cwd y) None) w.
Proof.
  intros Hp. unfold exits, two. cbn [procs wd]. f_equal. rewrite fmap_insert, map_fmap_singleton, insert_insert_ne by done. rewrite insert_singleton_eq. f_equal. unfold orphan. by rewrite decide_True.
Qed.
End two.

(** * primes *)

Definition line (m : Z) : list Z := bytes_of "prime " ++ bytes_of (pretty m) ++ [10].
Lemma prime_line_puts {A} m (k : prog A) : 0 <= m < 2147483648 -> printf ("prime %d" +:+ nl) [AInt (int_of (int4 m))] k = puts 1 (line m) k.
Proof.
  intros Hm. assert (int_of (int4 m) = m) as ->. { unfold int_of, int4. rewrite s32_small by dlia. dlia. }
  pose proof (vprintf_puts (A := A) [Lit (bytes_of "prime "); Dec m; Lit [10]] 1 k) as E. cbn [fmap list_fmap piece_fmt piece_arg piece_text concat app] in E. rewrite s32_small in E by lia. apply E. constructor; [by apply piece_okb_lit|repeat constructor; lia].
Qed.

(** The parent's loop without the numbers that are not prime. *)
Fixpoint send_list (ms : list Z) (p0 p1 : Z) (k : prog unit) : prog unit :=
  match ms with [] => k | m :: ms => Close p0 ;;; Write p1 (int4 m) ;;; send_list ms p0 p1 k end.
Lemma send_from_list n m p0 p1 k : send_from n m p0 p1 k = send_list (filter (fun m => trial m = true) (seqZ m (Z.of_nat n))) p0 p1 k.
Proof.
  revert m. induction n as [|n IH]; intros m; [done|]. cbn [send_from]. rewrite Nat2Z.inj_succ, seqZ_cons by lia. rewrite Z.pred_succ, IH. destruct (trial m) eqn:E; [rewrite filter_cons_True by done|rewrite filter_cons_False by congruence]; done.
Qed.

(** Where the parent and the child are. *)
Inductive pstep := PSend (ms : list Z) (closed : bool) | PWrite (m : Z) (ms : list Z) | PWait (closed : bool).
Inductive cstep := CStart | CPrint (l : list Z) | CRead | CFin | CExit | CZombie.
#[local] Instance cstep_eq_dec : EqDecision cstep.
Proof. solve_decision. Defined.

Section primes.
Context (a b cwd : Z) (par : option Z) (s0 s1 s2 n0 n1 n2 i : nat) (w : world).
Hypothesis Hab : b <> a.
Hypothesis Hpar : par <> Some a /\ par <> Some b.

(** The open files once the pipe is there, and the descriptors of a process that has closed the
    reading end, the writing end, or neither. *)
Definition pfiles : gmap nat ofile := <[i := ORead i]> (<[S i := OWrite i]> (w_files w)).
Definition pfds (c0 c1 : bool) : list (option nat) :=
  [Some s0; Some s1; Some s2; (if c0 then None else Some i); (if c1 then None else Some (S i))] ++ replicate 11 None.
Hypothesis Hs0 : (s0 < i)%nat /\ w_files w !! s0 = Some (OStream n0).
Hypothesis Hs1 : (s1 < i)%nat /\ w_files w !! s1 = Some (OStream n1).
Hypothesis Hs2 : (s2 < i)%nat /\ w_files w !! s2 = Some (OStream n2).

(** The world with [q] in the pipe after [o] has been printed. *)
Definition pw (q o : list Z) : world :=
  mkworld (w_fs w) pfiles (<[i := q]> (w_pipes w)) (S (S i)) (w_in w) (alter (fun x => x ++ o) n1 (w_out w)) (w_log w) (w_pid w + 1).
Lemma pw_pipes q q' o : set_pipes (<[i := q']> (<[i := q]> (w_pipes w))) (pw q o) = pw q' o.
Proof. unfold set_pipes, pw. cbn. by rewrite insert_insert_eq. Qed.
Lemma pw_out q o l : add_out n1 l (pw q o) = pw q (o ++ l).
Proof.
  unfold add_out, pw. cbn [w_fs w_files w_pipes w_next w_in w_out w_log w_pid]. f_equal. apply map_eq. intros m.
  destruct (decide (m = n1)) as [->|Hne]; [|by rewrite !lookup_alter_ne]. rewrite !lookup_alter_eq. destruct (w_out w !! n1); cbn; [by rewrite app_assoc|done].
Qed.
Lemma pfiles_low s n : (s < i)%nat /\ w_files w !! s = Some (OStream n) -> pfiles !! s = Some (OStream n).
Proof. intros [Hlt Hf]. unfold pfiles. by rewrite !lookup_insert_ne by lia. Qed.
Lemma pfiles_r : pfiles !! i = Some (ORead i).
Proof. apply lookup_insert_eq. Qed.
Lemma pfiles_w : pfiles !! S i = Some (OWrite i).
Proof. unfold pfiles. rewrite lookup_insert_ne by lia. apply lookup_insert_eq. Qed.

Lemma pfds_elem s c0 c1 : Some s ∈ pfds c0 c1 -> s = s0 \/ s = s1 \/ s = s2 \/ (s = i /\ c0 = false) \/ (s = S i /\ c1 = false).
Proof.
  unfold pfds. intros [Hin|Hin]%elem_of_app; [|by apply elem_of_replicate in Hin as [? _]]. rewrite !elem_of_cons in Hin.
  destruct Hin as [[= ->]|[[= ->]|[[= ->]|[Hin|[Hin|Hin%not_elem_of_nil]]]]]; auto; [destruct c0; [done|injection Hin as ->]|destruct c1; [done|injection Hin as ->]|done]; auto 10.
Qed.

(** Who has which end open. *)
Lemma open_read st1 st2 c0 c1 d0 d1 q o : is_open (ORead i) (two a (mkprocess st1 (pfds c0 c1) cwd par) b (mkprocess st2 (pfds d0 d1) cwd (Some a)) (pw q o)) <-> c0 && d0 = false.
Proof.
  rewrite (two_open a b Hab). cbn [pr_fds w_files pw]. split.
  - intros (s & Hin & Hf). assert (s = i /\ (c0 = false \/ d0 = false)) as [_ [-> | ->]]; [|done|by rewrite andb_comm].
    destruct Hin as [Hin|Hin]; apply pfds_elem in Hin as [->|[->|[->|[[-> ->]|[-> ->]]]]]; rewrite ?pfiles_w, ?(pfiles_low _ _ Hs0), ?(pfiles_low _ _ Hs1), ?(pfiles_low _ _ Hs2) in Hf; try done; auto.
  - intros E. exists i. split; [|apply pfiles_r]. destruct c0; [right; destruct d0; [done|]|left]; unfold pfds; set_solver.
Qed.
Lemma open_write st1 st2 c0 c1 d0 d1 q o : is_open (OWrite i) (two a (mkprocess st1 (pfds c0 c1) cwd par) b (mkprocess st2 (pfds d0 d1) cwd (Some a)) (pw q o)) <-> c1 && d1 = false.
Proof.
  rewrite (two_open a b Hab). cbn [pr_fds w_files pw]. split.
  - intros (s & Hin & Hf). assert (c1 = false \/ d1 = false) as [-> | ->]; [|done|by rewrite andb_comm].
    destruct Hin as [Hin|Hin]; apply pfds_elem in Hin as [->|[->|[->|[[-> ->]|[-> ->]]]]]; rewrite ?pfiles_r, ?(pfiles_low _ _ Hs0), ?(pfiles_low _ _ Hs1), ?(pfiles_low _ _ Hs2) in Hf; try done; auto.
  - intros E. exists (S i). split; [|apply pfiles_w]. destruct c1; [right; destruct d1; [done|]|left]; unfold pfds; set_solver.
Qed.

Definition fin : prog unit := Close 3 ;;; Exit 0.
Definition pprog (p : pstep) : prog unit :=
  let k := Close 4 ;;; Wait ;;; fin in
  match p with PSend ms _ => send_list ms 3 4 k | PWrite m ms => Write 4 (int4 m) ;;; send_list ms 3 4 k | PWait _ => Wait ;;; fin end.
Definition parent (p : pstep) : process :=
  mkprocess (Runs (pprog p)) (match p with PSend _ c => pfds c false | PWrite _ _ => pfds true false | PWait c => pfds c true end) cwd par.
(** The child's loop once it has read. *)
Definition received (r : Z * list Z) : prog unit :=
  pbind (let '(n, received) := r in if n =? 4 then printf ("prime %d" +:+ nl) [AInt (int_of received)] (Return (inl tt)) else Return (inr tt))
    (fun r : unit + unit => match r with inl u => Iter (receive_body 3) u (fun _ => fin) | inr _ => fin end).
Lemma received_line m : 0 <= m < 2147483648 -> received (4, int4 m) = puts 1 (line m) (receive 3 fin).
Proof. intros Hm. unfold received. change (4 =? 4) with true. cbv iota. by rewrite prime_line_puts, pbind_puts. Qed.
Definition cprog (c : cstep) : prog unit :=
  match c with
  | CStart => Close 4 ;;; receive 3 fin
  | CPrint l => puts 1 l (receive 3 fin)
  | CRead => Sys (Read 3 4) received
  | CFin => fin
  | _ => Exit 0
  end.
Definition child (c : cstep) : process :=
  match c with
  | CStart => mkprocess (Runs (cprog c)) (pfds false false) cwd (Some a)
  | CExit => mkprocess (Runs (cprog c)) (pfds true true) cwd (Some a)
  | CZombie => mkprocess (Zombie 0) [] cwd (Some a)
  | _ => mkprocess (Runs (cprog c)) (pfds false true) cwd (Some a)
  end.
Definition at_ (p : pstep) (c : cstep) (q : list Z) (o : list Z) : config := two a (parent p) b (child c) (pw (concat (int4 <$> q)) o).

(** The numbers that have not been sent, and what is left to print of a line. *)
Definition unsent (p : pstep) : list Z := match p with PSend ms _ => ms | PWrite m ms => m :: ms | PWait _ => [] end.
Definition unprinted (c : cstep) : list Z := match c with CPrint l => l | _ => [] end.
Definition over (c : cstep) : bool := match c with CFin | CExit | CZombie => true | _ => false end.

Record pinv (all : list Z) (p : pstep) (c : cstep) (q o : list Z) : Prop := {
  pi_text : o ++ unprinted c ++ concat (line <$> q ++ unsent p) = concat (line <$> all);
  pi_small : Forall (fun m => 0 <= m < 2147483648) (q ++ unsent p);
  pi_len : (length (q ++ unsent p) <= 127)%nat;
  pi_over : over c = true -> q = [] /\ exists cl, p = PWait cl;
}.
Definition weight (p : pstep) (c : cstep) (q : list Z) : nat :=
  (match p with PSend ms _ => 2 * length ms + 2 | PWrite _ ms => 2 * length ms + 3 | PWait _ => 1 end +
   match c with CStart => 10 | CPrint l => length l + 4 | CRead => 3 | CFin => 2 | CExit => 1 | CZombie => 0 end +
   sum_list ((fun m => length (line m) + 5) <$> q ++ unsent p))%nat.

(** What the parent does next. *)
Inductive pnext : pstep -> list Z -> pstep -> list Z -> Prop :=
| pn_close m ms cl q : pnext (PSend (m :: ms) cl) q (PWrite m ms) q
| pn_write m ms q : pnext (PWrite m ms) q (PSend ms true) (q ++ [m])
| pn_end cl q : pnext (PSend [] cl) q (PWait cl) q.

Lemma file_3 cl c1 q o : file_of (pfds cl c1) (pw q o) 3 = if cl then None else Some (ORead i).
Proof. destruct cl; cbn; [done|]. apply pfiles_r. Qed.
Lemma file_4 c0 cl q o : file_of (pfds c0 cl) (pw q o) 4 = if cl then None else Some (OWrite i).
Proof. destruct c0, cl; cbn; try done; apply pfiles_w. Qed.
Lemma file_1 c0 c1 q o : file_of (pfds c0 c1) (pw q o) 1 = Some (OStream n1).
Proof. unfold file_of. cbn. by apply pfiles_low. Qed.
Lemma child_reads c q o p : over c = false -> is_open (ORead i) (two a (parent p) b (child c) (pw q o)).
Proof.
  intros Hc. assert (exists st c0 c1, parent p = mkprocess st (pfds c0 c1) cwd par) as (st & c0 & c1 & ->) by (destruct p; unfold parent; eauto).
  destruct c; try done; apply open_read; apply andb_false_r.
Qed.

Lemma concat_int4 q : length (concat (int4 <$> q)) = (4 * length q)%nat.
Proof. induction q as [|m q IH]; cbn; [done|]. change (list_fmap Z (list Z) int4 q) with (int4 <$> q). rewrite IH. lia. Qed.

Ltac stepped := unfold proc_step, at_; cbn [pr_state parent pprog child cprog send_list puts receive fin]; unfold call_step, set_state, set_fds, fd_file; cbv beta zeta; cbn [pr_state pr_fds pr_cwd pr_parent parent child]; rewrite ?two_wd.

Lemma parent_step all p c q o c' : pinv all p c q o -> (forall cl, p <> PWait cl) ->
  proc_step a (parent p) (at_ p c q o) c' <-> exists p' q', pnext p q p' q' /\ c' = at_ p' c q' o.
Proof.
  intros Hi Hp. destruct p as [[|m ms] cl|m ms|cl]; [| | |by destruct (Hp cl)].
  - stepped. rewrite file_4, two_goes_a by done. split.
    + intros ->. exists (PWait cl), q. split; [constructor|]. by destruct cl.
    + intros (p' & q' & Hn & ->). inversion Hn; subst. by destruct cl.
  - stepped. rewrite file_3. split.
    + intros E. exists (PWrite m ms), q. split; [constructor|]. destruct cl; rewrite two_goes_a in E by done; done.
    + intros (p' & q' & Hn & ->). inversion Hn; subst. destruct cl; rewrite two_goes_a by done; done.
  - assert (over c = false) as Ho by (destruct (over c) eqn:E; [|done]; destruct (pi_over _ _ _ _ _ Hi E) as (_ & cl & ?); done). pose proof (pi_len _ _ _ _ _ Hi) as Hl. rewrite length_app in Hl. cbn [unsent length] in Hl.
    pose proof (child_reads c (concat (int4 <$> q)) o (PWrite m ms) Ho) as Hop. stepped. rewrite file_4. cbn [w_pipes pw]. rewrite lookup_insert_eq. cbn [default from_option]. unfold id.
    replace (Nat.min (Z.to_nat PIPESIZE - length (concat (int4 <$> q))) (length (int4 m))) with 4%nat by (rewrite concat_int4; change (Z.to_nat PIPESIZE) with 512%nat; cbn [int4 length]; lia).
    change (4 =? length (int4 m))%nat with true. cbv iota. rewrite !two_goes_a by done. change (take 4 (int4 m)) with (int4 m).
    rewrite pw_pipes.
    assert (concat (int4 <$> q) ++ int4 m = concat (int4 <$> q ++ [m])) as -> by (rewrite fmap_app, concat_app; cbn; done). split.
    + intros [(Hno & _)|[(? & _)|(_ & _ & ->)]]; [by destruct Hno|done|]. exists (PSend ms true), (q ++ [m]). split; [constructor|done].
    + intros (p' & q' & Hn & ->). inversion Hn; subst. right. right. split; [exact Hop|]. split; [lia|done].
Qed.

(** What the child does next, and what it prints. *)
Inductive cnext (p : pstep) : cstep -> list Z -> cstep -> list Z -> list Z -> Prop :=
| cn_start q : cnext p CStart q (CPrint []) q []
| cn_put x l q : cnext p (CPrint (x :: l)) q (CPrint l) q [x]
| cn_loop q : cnext p (CPrint []) q CRead q []
| cn_read m q : cnext p CRead (m :: q) (CPrint (line m)) q []
| cn_eof cl : p = PWait cl -> cnext p CRead [] CFin [] []
| cn_fin q : cnext p CFin q CExit q []
| cn_exit q : cnext p CExit q CZombie q [].

Lemma parent_writes c q o p : over c = false -> c <> CStart -> is_open (OWrite i) (two a (parent p) b (child c) (pw q o)) <-> forall cl, p <> PWait cl.
Proof.
  intros Hc Hs. assert (exists st c0, parent p = mkprocess st (pfds c0 (match p with PWait _ => true | _ => false end)) cwd par) as (st & c0 & ->) by (destruct p; unfold parent; eauto).
  destruct c; try done; unfold child; rewrite open_write; destruct p; cbn; (split; [try done|intros Hp; try done; by destruct (Hp closed)]).
Qed.

Lemma child_read_step p q o c' : Forall (fun m => 0 <= m < 2147483648) q ->
  proc_step b (child CRead) (at_ p CRead q o) c' <-> exists c1 q1 l, cnext p CRead q c1 q1 l /\ c' = at_ p c1 q1 (o ++ l).
Proof.
  intros Hq. pose proof (parent_writes CRead (concat (int4 <$> q)) o p eq_refl ltac:(done)) as Hw.
  stepped. change (fd_slot (pfds false true) 3) with (Some i). cbv iota. rewrite file_3. cbn [w_pipes pw]. rewrite lookup_insert_eq. cbn [default from_option]. unfold id. rewrite !two_goes_b by done. destruct q as [|m q].
  - cbn [fmap list_fmap concat length] in *. rewrite Nat.min_0_r, drop_0, pw_pipes. change (received (Z.of_nat 0, take 0 [])) with fin. split.
    + intros [[?|Hno] ->]; [done|]. assert (exists cl, p = PWait cl) as [cl ->] by (destruct p; eauto; destruct Hno; by apply Hw). exists CFin, [], []. rewrite app_nil_r. split; [by econstructor|done].
    + intros (c1 & q1 & l & Hn & ->). inversion Hn as [| | | |cl Hcl| |]; subst. rewrite app_nil_r. split; [right; intros Ho; by apply Hw with cl in Ho|done].
  - apply Forall_cons in Hq as [Hm Hq]. rewrite fmap_cons. cbn [concat]. set (r := concat (int4 <$> q)). change (Nat.min (Z.to_nat 4) (length (int4 m ++ r))) with 4%nat.
    change (take 4 (int4 m ++ r)) with (int4 m). change (drop 4 (int4 m ++ r)) with r. rewrite pw_pipes, received_line by done. split.
    + intros [_ ->]. exists (CPrint (line m)), q, []. rewrite app_nil_r. split; [constructor|done].
    + intros (c1 & q1 & l & Hn & ->). inversion Hn; subst. rewrite app_nil_r. split; [by left|done].
Qed.

Lemma child_step p c q o c' : Forall (fun m => 0 <= m < 2147483648) q ->
  proc_step b (child c) (at_ p c q o) c' <-> exists c1 q1 l, cnext p c q c1 q1 l /\ c' = at_ p c1 q1 (o ++ l).
Proof.
  intros Hq. assert (forall c1 l, (forall q c2 q2 l2, cnext p c q c2 q2 l2 <-> c2 = c1 /\ q2 = q /\ l2 = l) ->
    (exists c2 q2 l2, cnext p c q c2 q2 l2 /\ c' = at_ p c2 q2 (o ++ l2)) <-> c' = at_ p c1 q (o ++ l)) as Hone.
  { intros c1 l H. split; [intros (c2 & q2 & l2 & (-> & -> & ->)%H & ->); done|]. intros ->. exists c1, q, l. split; [by apply H|done]. }
  assert (par <> Some b) as Hpb by apply Hpar. assert (pr_parent (parent p) <> Some b) as Hpp by (destruct p; done).
  destruct c as [|[|x l]| | | |]; [rewrite (Hone (CPrint []) [])|rewrite (Hone CRead [])|rewrite (Hone (CPrint l) [x])|by apply child_read_step|rewrite (Hone CExit [])|rewrite (Hone CZombie [])|];
    try (intros q' c2 q2 l2; split; [intros Hn; inversion Hn; subst; done|intros (-> & -> & ->); constructor]); rewrite ?app_nil_r.
  - stepped. rewrite file_4, two_goes_b by done. done.
  - stepped. rewrite two_goes_b by done. done.
  - stepped. rewrite file_1, two_goes_b, pw_out by done. done.
  - stepped. rewrite file_3, two_goes_b by done. done.
  - stepped. rewrite two_exits_b by done. done.
  - stepped. split; [done|]. intros (? & ? & ? & Hn & _). inversion Hn.
Qed.

Lemma parent_reaps q o c' cl c : proc_step a (parent (PWait cl)) (at_ (PWait cl) c q o) c' <-> c = CZombie /\ c' = alone a cwd par fin (pfds cl true) (pw (concat (int4 <$> q)) o).
Proof.
  assert (pr_parent (child c) = Some a) as Hpc by (destruct c; done). destruct Hpar as [Hpa Hpb].
  stepped. rewrite two_goes_a by done. assert (forall x y w, procs (two a x b y w) = <[b := y]> {[ a := x ]}) as Hpr by done. split.
  - intros [(q0 & y & st & Hq & Hy & Hz & ->)|[Hno _]].
    + apply (two_lookup a b Hab) in Hq as [[-> ->]|[-> ->]]; [done|]. destruct c; try done. split; [done|]. unfold alone. f_equal. rewrite Hpr, delete_insert_id; [done|]. by rewrite lookup_singleton_ne.
    + destruct (Hno b (child c)); [|done]. apply (two_lookup a b Hab). auto.
  - intros [-> ->]. left. exists b, (child CZombie), 0. repeat split; [apply (two_lookup a b Hab); auto|]. unfold alone. f_equal. rewrite Hpr, delete_insert_id; [done|]. by rewrite lookup_singleton_ne.
Qed.

Lemma pinv_parent all p c q o p' q' : pinv all p c q o -> pnext p q p' q' -> pinv all p' c q' o /\ (weight p' c q' < weight p c q)%nat.
Proof.
  intros [Ht Hs Hl Ho] Hn. assert (over c = false \/ exists cl, p = PWait cl) as [Hc|[cl ->]]; [destruct (over c); [right; by apply Ho|auto]| |inversion Hn].
  destruct Hn; cbn [unsent] in *; (split; [|unfold weight; cbn [unsent length]; rewrite <- ?app_assoc; cbn [app]; lia]); split; try congruence; cbn [unsent]; rewrite <- ?app_assoc; done.
Qed.
Lemma pinv_child all p c q o c' q' l : pinv all p c q o -> cnext p c q c' q' l -> pinv all p c' q' (o ++ l) /\ (weight p c' q' < weight p c q)%nat.
Proof.
  intros [Ht Hs Hl Ho] Hn. destruct Hn; cbn [unprinted app] in *; (split; [|unfold weight; cbn [app fmap list_fmap sum_list length]; try lia]); try (split; cbn [unprinted over app]; rewrite ?app_nil_r; try done).
  - by rewrite <- app_assoc.
  - apply Forall_cons in Hs. apply Hs.
  - cbn [app length] in Hl. lia.
  - unfold id. lia.
  - intros _. eauto.
Qed.

Definition is_wait (p : pstep) : Prop := match p with PWait _ => True | _ => False end.
(** However the two are scheduled, the child prints the lines of all the numbers and the parent
    reaps it. *)
Lemma primes_run P all : (forall cl, ends P (alone a cwd par fin (pfds cl true) (pw [] (concat (line <$> all))))) ->
  forall n p c q o, pinv all p c q o -> (weight p c q <= n)%nat -> ends P (at_ p c q o).
Proof.
  intros Hfin. induction n as [n IH] using lt_wf_ind. intros p c q o Hi Hn.
  assert (Forall (fun m => 0 <= m < 2147483648) q) as Hq by (by apply pi_small, Forall_app in Hi as [? _]).
  assert (forall c', proc_step b (child c) (at_ p c q o) c' -> ends P c') as Hc.
  { intros c' (c1 & q1 & l & Hx & ->)%child_step; [|done]. destruct (pinv_child _ _ _ _ _ _ _ _ Hi Hx). eapply IH; [|done|reflexivity]. lia. }
  assert (is_wait p \/ forall cl, p <> PWait cl) as [Hw|Hp] by (destruct p; cbn; auto; right; congruence).
  - destruct p as [| |cl]; try done. apply (ends_two a b Hab); [|intros c' [-> ->]%parent_reaps|done].
    + destruct (decide (c = CZombie)) as [->|Hz]; [eexists; left; by apply parent_reaps|]. destruct c as [|[|]| | | |], q as [|m q]; try done; (eexists; right; apply child_step; [done|]; do 3 eexists; split; [|reflexivity]; first [by econstructor|econstructor]).
    + destruct (pi_over _ _ _ _ _ Hi eq_refl) as [-> _]. pose proof (pi_text _ _ _ _ _ Hi) as Ht. cbn in Ht. rewrite app_nil_r in Ht. subst o. apply Hfin.
  - apply (ends_two a b Hab); [|intros c' (p' & q' & Hx & ->)%(parent_step all); [|done..]|done].
    + destruct p as [[|m ms] cl|m ms|cl]; [..|by destruct (Hp cl)]; eexists; left; apply (parent_step all); try done; do 2 eexists; (split; [constructor|reflexivity]).
    + destruct (pinv_parent _ _ _ _ _ _ _ Hi Hx). eapply IH; [|done|reflexivity]. lia.
Qed.
End primes.

(** A process opens a pipe, or forks. *)
Definition piped (w : world) : world :=
  let i := w_next w in set_next (S (S i)) (set_files (<[i := ORead i]> (<[S i := OWrite i]> (w_files w))) (set_pipes (<[i := []]> (w_pipes w)) w)).
Lemma alone_pipe pid cwd par P k F w fd0 F0 fd1 F1 : fd_put (w_next w) F = Some (fd0, F0) -> fd_put (S (w_next w)) F0 = Some (fd1, F1) ->
  ends P (alone pid cwd par (k (0, (fd0, fd1))) F1 (piped w)) -> ends P (alone pid cwd par (Sys Pipe k) F w).
Proof.
  intros H0 H1 He. eapply ends_call1; [|exact He]. intros c'. unfold call_step, set_fds, set_state. cbv zeta. cbn [pr_state pr_fds pr_cwd pr_parent]. rewrite wd_alone, H0, H1, goes_alone'. done.
Qed.
Lemma alone_close_any pid cwd par P fd k F w : (forall r F', ends P (alone pid cwd par (k r) F' w)) -> ends P (alone pid cwd par (Sys (Close fd) k) F w).
Proof.
  intros He. destruct (file_of F w fd) as [f|] eqn:Hf; [by eapply alone_close|]. eapply ends_call1; [|apply He]. intros c'. unfold call_step, set_state, fd_file. cbv zeta. cbn [pr_fds pr_cwd pr_parent]. rewrite wd_alone, Hf, goes_alone'. done.
Qed.
Lemma alone_fork pid cwd par P k F w : ends P (alone pid cwd par (k (-1)) F w) ->
  ends P (two pid (mkprocess (Runs (k (w_pid w))) F cwd par) (w_pid w) (mkprocess (Runs (k 0)) F cwd (Some pid)) (set_pid (w_pid w + 1) w)) ->
  ends P (alone pid cwd par (Sys Fork k) F w).
Proof.
  intros Hno Hyes. apply ends_alone; unfold proc_step; cbn [pr_state call_step]; [eexists; by left|]. unfold set_state. cbn [pr_fds pr_cwd pr_parent]. rewrite wd_alone, !goes_alone'. intros c' [-> | ->]; done.
Qed.

(** The descriptors of a program that was started with three streams. *)
Definition three (s0 s1 s2 : nat) : list (option nat) := [Some s0; Some s1; Some s2] ++ replicate 13 None.
Definition small_primes : list Z := filter (fun m => trial m = true) (seqZ 2 34).
Lemma small_primes_spec m : m ∈ small_primes <-> prime m /\ m <= 35.
Proof.
  unfold small_primes. rewrite list_elem_of_filter, elem_of_seqZ. split.
  - intros [Ht Hm]. rewrite trial_prime in Ht by lia. split; [done|lia].
  - intros [Hp Hm]. assert (2 <= m) by (destruct Hp; lia). rewrite trial_prime by done. split; [done|lia].
Qed.

(** C29: [primes] prints a line for every prime up to 35, in order and nothing else, however
    the parent and the child are scheduled; the parent has then waited for its child, and exits with status 0. If
    [fork] fails nothing is printed. *)
Theorem primes_correct pid cwd par s0 s1 s2 n0 n1 n2 w : let F := three s0 s1 s2 in let i := w_next w in
  ((s0 < i)%nat /\ w_files w !! s0 = Some (OStream n0)) -> ((s1 < i)%nat /\ w_files w !! s1 = Some (OStream n1)) -> ((s2 < i)%nat /\ w_files w !! s2 = Some (OStream n2)) ->
  w_pid w <> pid -> 0 < w_pid w -> par <> Some pid -> par <> Some (w_pid w) ->
  exists ps, (forall m, m ∈ ps <-> prime m /\ m <= 35) /\ StronglySorted Z.lt ps /\
  ends (fun c => finished pid 0 (w_out (add_out n1 (if decide (w_pid (wd c) = w_pid w) then [] else concat (line <$> ps)) w)) c) (alone pid cwd par primes_main F w).
Proof.
  intros F i H0 H1 H2 Hab Hpos Hpa Hpb. exists small_primes. split; [apply small_primes_spec|]. split.
  { vm_compute. repeat (constructor; try done). }
  unfold primes_main. eapply alone_pipe; [reflexivity..|]. cbv beta iota. change (0 + 1 + 1 + 1) with 3. apply alone_fork.
  - change (0 <? -1) with false. change (-1 =? 0) with false. cbv iota. eapply alone_close; [apply pfiles_r|]. apply alone_exit; [|done]. cbn [wd]. rewrite decide_True by done. rewrite add_out_nil. by eexists.
  - change (w_pid (piped w)) with (w_pid w). rewrite (proj2 (Z.ltb_lt 0 (w_pid w))) by done. rewrite send_from_list. change (0 <? 0) with false. change (0 =? 0) with true. cbv iota.
    assert (set_pid (w_pid w + 1) (piped w) = pw n1 i w [] []) as ->.
    { change (pw n1 i w [] []) with (add_out n1 [] (set_pid (w_pid w + 1) (piped w))). by rewrite add_out_nil. }
    apply (primes_run pid (w_pid w) cwd par s0 s1 s2 n0 n1 n2 i w Hab (conj Hpa Hpb) H0 H1 H2 _ small_primes) with (p := PSend small_primes false) (c := CStart) (q := []) (o := []) (n := weight (PSend small_primes false) CStart []); [|split; try done|done].
    + intros cl. apply alone_close_any. intros r F'. apply alone_exit; [|done]. cbn [wd]. rewrite decide_False by (cbn; lia). by eexists.
    + cbn [app unsent]. apply Forall_forall. intros m Hm. apply small_primes_spec in Hm as [[Hp _] Hm]. lia.
    + cbn [app unsent]. assert (length small_primes = 11%nat) as -> by (vm_compute; reflexivity). lia.
Qed.

Lemma primes_correct_witness : exists ps, (forall m, m ∈ ps <-> prime m /\ m <= 35) /\ StronglySorted Z.lt ps /\
  ends (fun c => finished 3 0 (w_out (add_out 1 (if decide (w_pid (wd c) = 4) then [] else concat (line <$> ps)) demo_world)) c) (alone 3 1 (Some 2) primes_main demo_fds demo_world).
Proof. apply (primes_correct 3 1 (Some 2) 0 1 2 0 1 2 demo_world); repeat split; cbn; try lia; done. Defined.
