(* ===== verification/Upingpong.v ===== *)
(** Two processes that talk through two pipes: user/pingpong.c. The theorem is about every
    interleaving of the two, and about what happens when [fork] fails. *)
From stdpp Require Import pretty.
From S2P Require Import Prelude Memory Sleeplock Bio Log Fs State Process FsFile FsPath Uprog Uprintf Utools Ufind Upipes.

#[local] Open Scope prog_scope.

(** * The program *)

Definition pingpong_main : prog unit :=
  r <~ Pipe ;; let '(_, (a0, a1)) := r in
  r <~ Pipe ;; let '(_, (b0, b1)) := r in
  pid <~ Fork ;;
  if 0 <? pid then
    Write a1 (bytes_of "ping") ;;;
    Read b0 4 ;;;
    me <~ Getpid ;;
    printf ("%d: received pong" +:+ nl) [AInt me] (Exit 0)
  else
    Read a0 4 ;;;
    me <~ Getpid ;;
    printf ("%d: received ping" +:+ nl) [AInt me] (Write b1 (bytes_of "pong") ;;; Exit 0).

(** * Runs that come to a halt *)

(** Every run from [c] comes to a halt, with every process gone, a zombie or blocked for ever, in
    a state with [P]. *)
Inductive settles (P : config -> Prop) (c : config) : Prop :=
| settles_here : (forall c', ~ step c c') -> P c -> settles P c
| settles_step : (exists c', step c c') -> (forall c', step c c' -> settles P c') -> settles P c.

Lemma ends_settles P Q c : (forall c, P c -> Q c) -> ends P c -> settles Q c.
Proof.
  intros HPQ. induction 1 as [c Hz HP|c Hex Hall IH]; [|by apply settles_step]. apply settles_here; [|by apply HPQ].
  intros c' (q & x & Hq & Hs). destruct (Hz q x Hq) as [st E]. unfold proc_step in Hs. by rewrite E in Hs.
Qed.
Lemma step_alone pid cwd par p F w c' : step (alone pid cwd par p F w) c' <-> proc_step pid (mkprocess (Runs p) F cwd par) (alone pid cwd par p F w) c'.
Proof.
  split; [|intros Hs; exists pid, (mkprocess (Runs p) F cwd par); split; [apply lookup_singleton_eq|done]].
  intros (q & x & Hq & Hs). cbn in Hq. by apply lookup_singleton_Some in Hq as [<- <-].
Qed.
Lemma settles_pipe pid cwd par P k F w fd0 F0 fd1 F1 : fd_put (w_next w) F = Some (fd0, F0) -> fd_put (S (w_next w)) F0 = Some (fd1, F1) ->
  settles P (alone pid cwd par (k (0, (fd0, fd1))) F1 (piped w)) -> settles P (alone pid cwd par (Sys Pipe k) F w).
Proof.
  intros H0 H1 He. assert (forall c', step (alone pid cwd par (Sys Pipe k) F w) c' <-> c' = alone pid cwd par (k (0, (fd0, fd1))) F1 (piped w)) as Hs.
  { intros c'. rewrite step_alone. unfold proc_step, call_step, set_fds, set_state. cbv zeta. cbn [pr_state pr_fds pr_cwd pr_parent]. rewrite wd_alone, H0, H1, goes_alone'. done. }
  apply settles_step; [eexists; by apply Hs|by intros c' ->%Hs].
Qed.
Lemma settles_fork pid cwd par P k F w : settles P (alone pid cwd par (k (-1)) F w) ->
  settles P (two pid (mkprocess (Runs (k (w_pid w))) F cwd par) (w_pid w) (mkprocess (Runs (k 0)) F cwd (Some pid)) (set_pid (w_pid w + 1) w)) ->
  settles P (alone pid cwd par (Sys Fork k) F w).
Proof.
  intros Hno Hyes. apply settles_step; [eexists; apply step_alone; by left|]. intros c' Hs%step_alone. unfold proc_step, call_step, set_state in Hs. cbv zeta in Hs. cbn [pr_state pr_fds pr_cwd pr_parent] in Hs. rewrite wd_alone, !goes_alone' in Hs. destruct Hs as [-> | ->]; done.
Qed.

(** * pingpong *)

Definition got (pid : Z) (what : string) : list Z := bytes_of (pretty pid) ++ bytes_of (": received " +:+ what) ++ [10].

Lemma ping_puts {A} me (k : prog A) : 0 <= me < 2147483648 -> printf ("%d: received ping" +:+ nl) [AInt me] k = puts 1 (got me "ping") k.
Proof.
  intros Hm. pose proof (vprintf_puts (A := A) [Dec me; Lit (bytes_of ": received ping"); Lit [10]] 1 k) as E.
  cbn [fmap list_fmap piece_fmt piece_arg piece_text concat app] in E. rewrite s32_small in E by lia. apply E. constructor; [done|]. constructor; [by apply piece_okb_lit|repeat constructor; lia].
Qed.
Lemma pong_puts {A} me (k : prog A) : 0 <= me < 2147483648 -> printf ("%d: received pong" +:+ nl) [AInt me] k = puts 1 (got me "pong") k.
Proof.
  intros Hm. pose proof (vprintf_puts (A := A) [Dec me; Lit (bytes_of ": received pong"); Lit [10]] 1 k) as E.
  cbn [fmap list_fmap piece_fmt piece_arg piece_text concat app] in E. rewrite s32_small in E by lia. apply E. constructor; [done|]. constructor; [by apply piece_okb_lit|repeat constructor; lia].
Qed.

Section pingpong.
Context (a b cwd : Z) (par : option Z) (s0 s1 s2 n1 i : nat) (w : world).
Hypothesis Hab : b <> a.
Hypothesis Hpar : par <> Some b.
Hypothesis Hs1 : (s1 < i)%nat /\ w_files w !! s1 = Some (OStream n1).
Let j := S (S i).

Definition ppfiles : gmap nat ofile := <[j := ORead j]> (<[S j := OWrite j]> (<[i := ORead i]> (<[S i := OWrite i]> (w_files w)))).
Definition ppfds : list (option nat) := [Some s0; Some s1; Some s2; Some i; Some (S i); Some j; Some (S j)] ++ replicate 9 None.
(** The world with [q1] and [q2] in the pipes after [o] has been printed. *)
Definition ppw (q1 q2 o : list Z) : world :=
  mkworld (w_fs w) ppfiles (<[j := q2]> (<[i := q1]> (w_pipes w))) (S (S j)) (w_in w) (alter (fun x => x ++ o) n1 (w_out w)) (w_log w) (w_pid w + 1).
Lemma ppw_1 q1 q2 q o : set_pipes (<[i := q]> (<[j := q2]> (<[i := q1]> (w_pipes w)))) (ppw q1 q2 o) = ppw q q2 o.
Proof. unfold set_pipes, ppw. cbn. f_equal. rewrite (insert_insert_ne _ i j) by (unfold j; lia). by rewrite insert_insert_eq. Qed.
Lemma ppw_2 q1 q2 q o : set_pipes (<[j := q]> (<[j := q2]> (<[i := q1]> (w_pipes w)))) (ppw q1 q2 o) = ppw q1 q o.
Proof. unfold set_pipes, ppw. cbn. f_equal. by rewrite insert_insert_eq. Qed.
Lemma ppw_out q1 q2 o l : add_out n1 l (ppw q1 q2 o) = ppw q1 q2 (o ++ l).
Proof.
  unfold add_out, ppw. cbn [w_fs w_files w_pipes w_next w_in w_out w_log w_pid]. f_equal. apply map_eq. intros m.
  destruct (decide (m = n1)) as [->|Hne]; [|by rewrite !lookup_alter_ne]. rewrite !lookup_alter_eq. destruct (w_out w !! n1); cbn; [by rewrite app_assoc|done].
Qed.
Lemma pipe_1 q1 q2 o : w_pipes (ppw q1 q2 o) !! i = Some q1.
Proof. cbn. rewrite lookup_insert_ne by (unfold j; lia). apply lookup_insert_eq. Qed.
Lemma pipe_2 q1 q2 o : w_pipes (ppw q1 q2 o) !! j = Some q2.
Proof. apply lookup_insert_eq. Qed.
Lemma ppfile_1 q1 q2 o : file_of ppfds (ppw q1 q2 o) 1 = Some (OStream n1).
Proof. change (file_of ppfds (ppw q1 q2 o) 1) with (ppfiles !! s1). unfold ppfiles, j. rewrite !lookup_insert_ne by lia. apply Hs1. Qed.
Lemma ppfile_3 q1 q2 o : file_of ppfds (ppw q1 q2 o) 3 = Some (ORead i).
Proof. change (file_of ppfds (ppw q1 q2 o) 3) with (ppfiles !! i). unfold ppfiles, j. rewrite !(lookup_insert_ne _ _ i) by lia. apply lookup_insert_eq. Qed.
Lemma ppfile_4 q1 q2 o : file_of ppfds (ppw q1 q2 o) 4 = Some (OWrite i).
Proof. change (file_of ppfds (ppw q1 q2 o) 4) with (ppfiles !! (S i)). unfold ppfiles, j. rewrite !(lookup_insert_ne _ _ (S i)) by lia. apply lookup_insert_eq. Qed.
Lemma ppfile_5 q1 q2 o : file_of ppfds (ppw q1 q2 o) 5 = Some (ORead j).
Proof. change (file_of ppfds (ppw q1 q2 o) 5) with (ppfiles !! j). unfold ppfiles. apply lookup_insert_eq. Qed.
Lemma ppfile_6 q1 q2 o : file_of ppfds (ppw q1 q2 o) 6 = Some (OWrite j).
Proof. change (file_of ppfds (ppw q1 q2 o) 6) with (ppfiles !! (S j)). unfold ppfiles. rewrite lookup_insert_ne by lia. apply lookup_insert_eq. Qed.

Definition pa (p : prog unit) : process := mkprocess (Runs p) ppfds cwd par.
Definition pb (p : prog unit) : process := mkprocess (Runs p) ppfds cwd (Some a).
Definition cfg (p q : prog unit) (q1 q2 o : list Z) : config := two a (pa p) b (pb q) (ppw q1 q2 o).
(** The first process has all the ends open. *)
Lemma cfg_open fd f p y q1 q2 o : file_of ppfds (ppw q1 q2 o) fd = Some f -> is_open f (two a (pa p) b y (ppw q1 q2 o)).
Proof.
  intros Hf. apply (two_open a b Hab). unfold file_of, fd_slot in Hf. destruct (decide (0 <= fd)); [|done]. destruct (ppfds !! Z.to_nat fd) as [[s|]|] eqn:E; try done. exists s. split; [left; by eapply list_elem_of_lookup_2|done].
Qed.

Ltac stepping := unfold proc_step, cfg, pa, pb; cbn [pr_state]; unfold call_step, set_state, set_fds, fd_file; cbv beta zeta; cbn [pr_state pr_fds pr_cwd pr_parent]; rewrite ?two_wd.

Ltac stepping_in H := unfold proc_step, call_step, set_state, set_fds, fd_file in H; cbv beta zeta in H; cbn [pr_state pr_fds pr_cwd pr_parent] in H.

(** Who is blocked on an empty pipe. *)
(** A process on its own is blocked on the first pipe, which only it has open. *)
Lemma blocked_alone pid' par' k w' c' : w_files w' = ppfiles -> w_pipes w' !! i = Some [] -> ~ step (alone pid' cwd par' (Sys (Read 3 4) k) ppfds w') c'.
Proof.
  intros Hf Hq Hs%step_alone. stepping_in Hs. rewrite wd_alone in Hs. change (fd_slot ppfds 3) with (Some i) in Hs. cbv iota in Hs. change (file_of ppfds w' 3) with (w_files w' !! i) in Hs.
  pose proof (ppfile_3 [] [] []) as H3. pose proof (ppfile_4 [] [] []) as H4. change (ppfiles !! i = Some (ORead i)) in H3. rewrite Hf, H3, Hq in Hs. destruct Hs as [[?|Hno] _]; [done|].
  apply Hno. exists pid', (mkprocess (Runs (Sys (Read 3 4) k)) ppfds cwd par'), (S i). split; [apply lookup_singleton_eq|]. split; [apply (list_elem_of_lookup_2 _ 4); done|]. rewrite wd_alone, Hf. exact H4.
Qed.
Lemma blocked_a k y q1 o c' : ~ proc_step a (pa (Sys (Read 5 4) k)) (two a (pa (Sys (Read 5 4) k)) b y (ppw q1 [] o)) c'.
Proof.
  pose proof (cfg_open 6 (OWrite j) (Sys (Read 5 4) k) y q1 [] o (ppfile_6 _ _ _)) as Ho. stepping. change (fd_slot ppfds 5) with (Some j). cbv iota. rewrite ppfile_5, pipe_2. cbn [default from_option]. by intros [[?|Hno] _].
Qed.
Lemma blocked_b p k q2 o c' : ~ proc_step b (pb (Sys (Read 3 4) k)) (cfg p (Sys (Read 3 4) k) [] q2 o) c'.
Proof.
  pose proof (cfg_open 4 (OWrite i) p (pb (Sys (Read 3 4) k)) [] q2 o (ppfile_4 _ _ _)) as Ho. stepping. change (fd_slot ppfds 3) with (Some i). cbv iota. rewrite ppfile_3, pipe_1. cbn [default from_option]. by intros [[?|Hno] _].
Qed.

Lemma a_writes k y o c' : proc_step a (pa (Sys (Write 4 (bytes_of "ping")) k)) (two a (pa (Sys (Write 4 (bytes_of "ping")) k)) b y (ppw [] [] o)) c' <-> c' = two a (pa (k 4)) b y (ppw (bytes_of "ping") [] o).
Proof.
  pose proof (cfg_open 3 (ORead i) (Sys (Write 4 (bytes_of "ping")) k) y [] [] o (ppfile_3 _ _ _)) as Ho. stepping. rewrite ppfile_4, pipe_1. cbn [default from_option w_pipes ppw]. unfold id. rewrite !two_goes_a by done.
  change (Nat.min (Z.to_nat PIPESIZE - length []) (length (bytes_of "ping"))) with 4%nat. change (take 4 (bytes_of "ping")) with (bytes_of "ping"). change (4 =? length (bytes_of "ping"))%nat with true. cbv iota. rewrite ppw_1. split.
  - intros [(Hno & _)|[(? & _)|(_ & _ & ->)]]; done.
  - intros ->. right. right. split; [exact Ho|]. split; [lia|done].
Qed.
Lemma b_writes p k o c' : proc_step b (pb (Sys (Write 6 (bytes_of "pong")) k)) (cfg p (Sys (Write 6 (bytes_of "pong")) k) [] [] o) c' <-> c' = cfg p (k 4) [] (bytes_of "pong") o.
Proof.
  pose proof (cfg_open 5 (ORead j) p (pb (Sys (Write 6 (bytes_of "pong")) k)) [] [] o (ppfile_5 _ _ _)) as Ho. stepping. rewrite ppfile_6, pipe_2. cbn [default from_option w_pipes ppw]. unfold id. rewrite !two_goes_b by done.
  change (Nat.min (Z.to_nat PIPESIZE - length []) (length (bytes_of "pong"))) with 4%nat. change (take 4 (bytes_of "pong")) with (bytes_of "pong"). change (4 =? length (bytes_of "pong"))%nat with true. cbv iota. rewrite ppw_2. split.
  - intros [(Hno & _)|[(? & _)|(_ & _ & ->)]]; done.
  - intros ->. right. right. split; [exact Ho|]. split; [lia|done].
Qed.
Lemma b_reads p k o c' : proc_step b (pb (Sys (Read 3 4) k)) (cfg p (Sys (Read 3 4) k) (bytes_of "ping") [] o) c' <-> c' = cfg p (k (4, bytes_of "ping")) [] [] o.
Proof.
  stepping. change (fd_slot ppfds 3) with (Some i). cbv iota. rewrite ppfile_3, pipe_1. cbn [default from_option w_pipes ppw]. unfold id. rewrite two_goes_b by done.
  change (Nat.min (Z.to_nat 4) (length (bytes_of "ping"))) with 4%nat. change (take 4 (bytes_of "ping")) with (bytes_of "ping"). change (drop 4 (bytes_of "ping")) with ([] : list Z). rewrite ppw_1. split; [by intros [_ ->]|]. intros ->. split; [by left|done].
Qed.
Lemma a_reads k y o c' : proc_step a (pa (Sys (Read 5 4) k)) (two a (pa (Sys (Read 5 4) k)) b y (ppw [] (bytes_of "pong") o)) c' <-> c' = two a (pa (k (4, bytes_of "pong"))) b y (ppw [] [] o).
Proof.
  stepping. change (fd_slot ppfds 5) with (Some j). cbv iota. rewrite ppfile_5, pipe_2. cbn [default from_option w_pipes ppw]. unfold id. rewrite two_goes_a by done.
  change (Nat.min (Z.to_nat 4) (length (bytes_of "pong"))) with 4%nat. change (take 4 (bytes_of "pong")) with (bytes_of "pong"). change (drop 4 (bytes_of "pong")) with ([] : list Z). rewrite ppw_2. split; [by intros [_ ->]|]. intros ->. split; [by left|done].
Qed.
Lemma a_puts x k y q1 q2 o c' : proc_step a (pa (Sys (Write 1 [x]) (fun _ => k))) (two a (pa (Sys (Write 1 [x]) (fun _ => k))) b y (ppw q1 q2 o)) c' <-> c' = two a (pa k) b y (ppw q1 q2 (o ++ [x])).
Proof. stepping. rewrite ppfile_1, two_goes_a, ppw_out by done. done. Qed.
Lemma b_puts p x k q1 q2 o c' : proc_step b (pb (Sys (Write 1 [x]) (fun _ => k))) (cfg p (Sys (Write 1 [x]) (fun _ => k)) q1 q2 o) c' <-> c' = cfg p k q1 q2 (o ++ [x]).
Proof. stepping. rewrite ppfile_1, two_goes_b, ppw_out by done. done. Qed.

(** The second process goes on while the first waits for the answer. *)
Lemma only_b P k q q1 o c1 : (forall c', proc_step b (pb q) (cfg (Sys (Read 5 4) k) q q1 [] o) c' <-> c' = c1) -> ends P c1 -> ends P (cfg (Sys (Read 5 4) k) q q1 [] o).
Proof.
  intros Hs He. apply (ends_two a b Hab); [eexists; right; by apply Hs|intros c' Hc'; by apply blocked_a in Hc'|by intros c' ->%Hs].
Qed.
Lemma b_prints P k l q o : ends P (cfg (Sys (Read 5 4) k) q [] [] (o ++ l)) -> ends P (cfg (Sys (Read 5 4) k) (puts 1 l q) [] [] o).
Proof.
  revert o. induction l as [|x l IH]; intros o He; cbn [puts]; [by rewrite app_nil_r in He|]. eapply only_b; [apply b_puts|]. apply IH. by rewrite <- app_assoc.
Qed.

(** The second process is about to exit, or has. *)
Definition gone : process := mkprocess (Zombie 0) [] cwd (Some a).
Definition leaves (y : process) : Prop := y = pb (Exit 0) \/ y = gone.
Lemma leaves_step y p q1 q2 o c' : leaves y -> proc_step b y (two a (pa p) b y (ppw q1 q2 o)) c' <-> y = pb (Exit 0) /\ c' = two a (pa p) b gone (ppw q1 q2 o).
Proof.
  intros [-> | ->]; [|split; [done|by intros [? _]]]. unfold proc_step. cbn [pr_state pb]. rewrite two_exits_b by done. split; [by intros ->|by intros [_ ->]].
Qed.
(** The first process makes a step, whenever the second exits. *)
Lemma only_a P p q1 q2 o p1 q1' q2' o1 : (forall y c', proc_step a (pa p) (two a (pa p) b y (ppw q1 q2 o)) c' <-> c' = two a (pa p1) b y (ppw q1' q2' o1)) ->
  (forall y, leaves y -> ends P (two a (pa p1) b y (ppw q1' q2' o1))) -> forall y, leaves y -> ends P (two a (pa p) b y (ppw q1 q2 o)).
Proof.
  intros Hs He. assert (ends P (two a (pa p) b gone (ppw q1 q2 o))) as Hg.
  { apply (ends_two a b Hab); [eexists; left; by apply Hs|intros c' ->%Hs; apply He; by right|done]. }
  intros y Hy. apply (ends_two a b Hab); [eexists; left; by apply Hs|intros c' ->%Hs; by apply He|]. by intros c' [_ ->]%leaves_step.
Qed.
Lemma a_prints P l p o : (forall y, leaves y -> ends P (two a (pa p) b y (ppw [] [] (o ++ l)))) -> forall y, leaves y -> ends P (two a (pa (puts 1 l p)) b y (ppw [] [] o)).
Proof.
  revert o. induction l as [|x l IH]; intros o He; cbn [puts]; [by rewrite app_nil_r in He|]. eapply only_a; [intros y c'; apply a_puts|]. apply IH. by rewrite <- app_assoc.
Qed.

(** Both have exited. *)
Definition both (st : Z) (out : gmap nat (list Z)) (c : config) : Prop :=
  exists x y, procs c = <[b := y]> {[ a := x ]} /\ pr_state x = Zombie st /\ pr_state y = Zombie st /\ w_out (wd c) = out.
Lemma both_ends o : forall y, leaves y -> ends (both 0 (w_out (add_out n1 o w))) (two a (pa (Exit 0)) b y (ppw [] [] o)).
Proof.
  assert (forall x y, pr_state x = Zombie 0 -> pr_state y = Zombie 0 -> ends (both 0 (w_out (add_out n1 o w))) (two a x b y (ppw [] [] o))) as Hend.
  { intros x y Hx Hy. apply ends_done; [|by exists x, y]. intros q z Hq. apply (two_lookup a b Hab) in Hq as [[-> ->]|[-> ->]]; eauto. }
  assert (forall y c', pr_parent y = Some a -> proc_step a (pa (Exit 0)) (two a (pa (Exit 0)) b y (ppw [] [] o)) c' <->
    c' = two a (mkprocess (Zombie 0) [] cwd par) b (mkprocess (pr_state y) (pr_fds y) (pr_cwd y) None) (ppw [] [] o)) as Hs.
  { intros y c' Hy. unfold proc_step. cbn [pr_state pa]. by rewrite two_exits_a. }
  assert (ends (both 0 (w_out (add_out n1 o w))) (two a (pa (Exit 0)) b gone (ppw [] [] o))) as Hg.
  { apply (ends_two a b Hab); [eexists; left; by apply Hs|intros c' ->%Hs; [by apply Hend|done]|done]. }
  intros y [-> | ->]; [|done]. apply (ends_two a b Hab); [eexists; left; by apply Hs|intros c' ->%Hs; [|done]|intros c' [_ ->]%leaves_step; [done|by left]].
  cbn [pr_state pr_fds pr_cwd pb]. apply (ends_two a b Hab); unfold proc_step; cbn [pr_state]; [eexists; right; reflexivity|done|]. intros c' ->. rewrite two_exits_b by done. by apply Hend.
Qed.

Lemma pingpong_run : 0 <= a < 2147483648 -> 0 <= b < 2147483648 ->
  ends (both 0 (w_out (add_out n1 (got b "ping" ++ got a "pong") w)))
    (cfg (Write 4 (bytes_of "ping") ;;; Read 5 4 ;;; me <~ Getpid ;; printf ("%d: received pong" +:+ nl) [AInt me] (Exit 0))
       (Read 3 4 ;;; me <~ Getpid ;; printf ("%d: received ping" +:+ nl) [AInt me] (Write 6 (bytes_of "pong") ;;; Exit 0)) [] [] []).
Proof.
  intros Ha Hb. apply (ends_two a b Hab); [eexists; left; by apply a_writes|intros c' ->%a_writes|intros c' Hc'; by apply blocked_b in Hc'].
  eapply only_b; [apply b_reads|]. cbv beta. eapply only_b; [intros c'; stepping; rewrite two_goes_b by done; reflexivity|].
  rewrite ping_puts by done. apply b_prints. cbn [app]. eapply only_b; [apply b_writes|]. cbv beta.
  eapply (only_a _ _ _ _ _ (me <~ Getpid ;; printf ("%d: received pong" +:+ nl) [AInt me] (Exit 0))); [intros y c'; apply a_reads| |by left].
  eapply (only_a _ _ _ _ _ (puts 1 (got a "pong") (Exit 0))); [intros y c'; stepping; rewrite two_goes_a, pong_puts by done; reflexivity|].
  apply a_prints. apply both_ends.
Qed.
End pingpong.

(** C32: [pingpong] prints that the child has received a ping and then that the parent has received a
    pong, each with its process id, and both exit, however the two are scheduled. If [fork]
    fails nothing is printed: the process takes the child's branch and is blocked for ever
    on a pipe that only it could write to. *)
Theorem pingpong_correct pid cwd par s0 s1 s2 n1 w : (s1 < w_next w)%nat -> w_files w !! s1 = Some (OStream n1) ->
  0 <= pid < 2147483648 -> 0 < w_pid w < 2147483648 -> w_pid w <> pid -> par <> Some (w_pid w) ->
  settles (fun c => both pid (w_pid w) 0 (w_out (add_out n1 (got (w_pid w) "ping" ++ got pid "pong") w)) c \/
      (exists k F w', c = alone pid cwd par (Sys (Read 3 4) k) F w' /\ w_out w' = w_out w))
    (alone pid cwd par pingpong_main (three s0 s1 s2) w).
Proof.
  intros Hlt Hs1 Hp Hb Hab Hpar. unfold pingpong_main. eapply settles_pipe; [reflexivity..|]. cbv beta iota. eapply settles_pipe; [reflexivity..|]. cbv beta iota.
  change (0 + 1 + 1 + 1) with 3. apply settles_fork.
  - change (0 <? -1) with false. cbv iota. apply settles_here; [|right; by do 3 eexists]. intros c'. apply (blocked_alone cwd s0 s1 s2 n1 (w_next w) w (conj Hlt Hs1)); [done|]. cbn. rewrite lookup_insert_ne by lia. apply lookup_insert_eq.
  - change (w_pid (piped (piped w))) with (w_pid w). rewrite (proj2 (Z.ltb_lt 0 (w_pid w))) by lia. change (0 <? 0) with false. cbv iota.
    assert (set_pid (w_pid w + 1) (piped (piped w)) = ppw n1 (w_next w) w [] [] []) as ->.
    { change (ppw n1 (w_next w) w [] [] []) with (add_out n1 [] (set_pid (w_pid w + 1) (piped (piped w)))). by rewrite add_out_nil. }
    eapply ends_settles; [intros c Hc; left; exact Hc|]. apply (pingpong_run pid (w_pid w) cwd par s0 s1 s2 n1 (w_next w) w); auto; lia.
Qed.

Lemma pingpong_correct_witness : settles (fun c => both 3 4 0 (w_out (add_out 1 (bytes_of ("4: received ping" +:+ nl +:+ "3: received pong" +:+ nl)) demo_world)) c \/
      (exists k F w', c = alone 3 1 (Some 2) (Sys (Read 3 4) k) F w' /\ w_out w' = w_out demo_world))
    (alone 3 1 (Some 2) pingpong_main demo_fds demo_world).
Proof.
  assert (bytes_of ("4: received ping" +:+ nl +:+ "3: received pong" +:+ nl) = got 4 "ping" ++ got 3 "pong") as -> by (vm_compute; reflexivity).
  apply (pingpong_correct 3 1 (Some 2) 0 1 2 1 demo_world); cbn; try lia; done.
Defined.
